(* ===== verification/_CoqProject ===== *)
-Q . S2P
Prelude.v
Bits.v
SelectionVector.v
ColumnSketch.v
SketchFacts.v
SketchAvx.v
SketchProps.v
Date.v
Types.v
Stats.v
NumericStats.v
NumericFacts.v
StringStats.v
StringType.v
BaseStatistics.v
StatsFacts.v
StatsCreate.v
StatsProps.v
Expression.v
PropagateFacts.v
PropagateProps.v
TableFilter.v
FilterFacts.v
FilterPruning.v
SketchConjunction.v
FilterProps.v
ValidityMask.v
MaskFacts.v
MaskProps.v
ChunkInfo.v
ChunkFacts.v
RowVersionManager.v
VersionFacts.v
VersionAppend.v
VersionCheckpoint.v
VersionProps.v
UpdateSegment.v
UpdateFacts.v
UpdateLaws.v
UpdateChain.v
UpdateSteps.v
UpdateSystem.v
TransactionManager.v
UpdateUndo.v
SnapshotSpec.v
SnapshotSteps.v
SnapshotRun.v
UpdateProps.v
UncompressedSegment.v
Compression.v
FastPFor.v
BitPacking.v
UncompressedFacts.v
UncompressedAppend.v
CompressionFacts.v
BitPackingFacts.v
BitPackingProps.v
SegmentLaws.v
SegmentTree.v
ColumnData.v
ColumnFacts.v
ColumnAppend.v
StandardColumn.v
StandardFacts.v
AdaptiveFilter.v
RowGroup.v
RowGroupFacts.v
RowGroupScan.v
RowGroupLoop.v
RowGroupCollection.v
TableAppend.v
CollectionFacts.v
RowGroupAppend.v
TableAppendFacts.v
TableSpec.v
SketchScan.v
StorageSample.v
StorageProps.v
TableProps.v
ScanProps.v
