(* ===== verification/Prelude.v ===== *)
(** * A verification of the table storage and of the column sketches

    The program is a DuckDB fork in C++ that adds column sketches, a lossy
    order-preserving index per vector, to the table scan.  This development
    models the read and write path of a table: row groups of columns, columns of
    segments, the statistics and sketches that let a scan skip data, the row
    versions and column updates of concurrent transactions, and the transaction
    manager, and the optimizer's propagation of statistics through expressions
    and filters.  Paths below are those of the repository, relative to [src/src/]
    and, for headers, to [src/src/include/duckdb/].

    ** The parts and how they interact

    A table scan ([RowGroupCollection], [CollectionScanState]) walks a segment
    tree of row groups.  A row group first asks the statistics of its columns
    (zone maps) whether the pushed-down filters can hold at all; then, vector by
    vector, it skips segments by their zone maps or sketches, asks the row
    version manager which rows the transaction sees, scans the filtered columns,
    evaluates the filters in the order the adaptive filter chose, and scans the
    other columns for the rows that are left.  A column reads its segments and
    merges the updates the transaction sees.  Writers append to the last row
    group, delete through the version manager and update through update
    segments; undo records are committed, rolled back and cleaned up by the
    transaction manager.  The optimizer takes the statistics of the columns to
    rewrite the conditions of filters before the scan runs.

    ** Files

    - [Prelude]: the error monad [result], machine integers ([wrapu], [wraps]),
      vectors with bounds-checked access ([vget], [vset]), monadic loops, and
      lemmas and tactics on them.  [Bits]: bit masks and byte streams.
    - Column sketches (storage/statistics/column_sketch.hpp): [ColumnSketch]
      models the construction and the scalar, AVX2 and AVX-512 evaluators;
      [SelectionVector] the selections and bitmasks they fill; proofs in
      [SketchFacts], [SketchAvx], theorems in [SketchProps].
    - Types, values, dates, strings: [Types], [Date], [StringType].
    - Statistics (storage/statistics/): data in [Stats], operations in
      [NumericStats], [StringStats], [BaseStatistics]; facts in [NumericFacts],
      [StatsFacts], [StatsCreate]; theorems in [StatsProps].
    - Expressions and the propagation of statistics (planner/expression/,
      execution/expression_executor/, optimizer/statistics/): [Expression], where
      [Execute] is the value of an expression on a row; [PropagateFacts];
      theorems in [PropagateProps].
    - Filters (planner/filter/, storage/table/column_segment.cpp):
      [TableFilter]; [FilterFacts], [FilterPruning], [SketchConjunction];
      theorems in [FilterProps].
    - Validity masks (common/types/validity_mask.hpp, validity_mask.cpp): [ValidityMask];
      [MaskFacts]; theorems in [MaskProps].
    - Row versions (storage/table/chunk_info.cpp, row_version_manager.cpp, the
      deletes of row_group.cpp and their undo records): [ChunkInfo],
      [RowVersionManager]; [ChunkFacts], [VersionFacts], [VersionAppend],
      [VersionCheckpoint]; theorems in [VersionProps].
    - Updates and transactions (storage/table/update_segment.cpp,
      transaction/): [UpdateSegment], [TransactionManager]; [UpdateFacts],
      [UpdateLaws] (the interface between an update segment and the functions of
      its type, and its instances), [UpdateChain], [UpdateSteps],
      [UpdateSystem], [UpdateUndo]; [SnapshotSpec] holds snapshot isolation as
      an abstract database, [SnapshotSteps] and [SnapshotRun] the simulation;
      theorems in [UpdateProps].
    - Segments and columns (storage/compression/fixed_size_uncompressed.cpp,
      validity_uncompressed.cpp, storage/table/column_segment.cpp,
      segment_tree.hpp, column_data.cpp, standard_column_data.cpp):
      [UncompressedSegment], [SegmentTree], [ColumnData], [StandardColumn];
      [SegmentLaws] is the interface between columns and the segments they are
      made of; [UncompressedFacts], [UncompressedAppend], [ColumnFacts],
      [ColumnAppend], [StandardFacts]; theorems in [StorageProps].
    - Compressed segments (storage/compression/rle.cpp, numeric_constant.cpp,
      storage/table/column_checkpoint_state.cpp): [Compression], on the bytes of a
      block; proofs and theorems in [CompressionFacts].
    - Bit packing of integers (storage/compression/bitpacking.cpp,
      common/bitpacking.hpp and the library third_party/fastpforlib that packs 32
      numbers into words): [FastPFor] (with the round trip of the library's unrolled
      loops), [BitPacking]; [BitPackingFacts]; theorems in [BitPackingProps].
    - Row groups and tables (storage/table/row_group.cpp,
      row_group_collection.cpp, scan_state.cpp, execution/adaptive_filter.cpp):
      [AdaptiveFilter], [RowGroup], [RowGroupCollection] for reading,
      [TableAppend] for writing; [RowGroupFacts], [RowGroupScan],
      [RowGroupLoop], [RowGroupAppend], [SketchScan], [CollectionFacts];
      [TableAppendFacts] and [TableSpec] relate a table to the
      list of its rows; a concrete table for examples in [StorageSample];
      theorems in [ScanProps] and [TableProps].

    ** How code becomes definitions

    A function of the code is a definition of the same name (with its class in
    front where names collide), a loop a [Fixpoint] or [foldM], a class a record
    of its members.  Code that can throw returns [result]; state is passed and
    returned.  An access C++ gives no meaning to is an explicit error
    ([UndefinedBehaviour]), and a path into code that is not modelled is
    [Unmodelled]; the theorems show that neither occurs, or when it does (the fetch
    of a bit-packed row may overflow).  Positions and counts
    ([idx_t]) are [nat], values, selection entries and transaction ids are [Z]
    kept at their width with [wrapu] and [wraps] where the code can overflow.
    [FLOAT] and [DOUBLE] values are their bit patterns, with the order of
    DuckDB.  [D_ASSERT] is a comment, as in a release build.  Memory that was
    never written is a parameter ([uninitialised]), as is the value stored for a
    NULL ([null_value]).  Vector instructions are modelled lane by lane.  A
    pointer to an update info, a segment or a row group is its address or its
    index; [std::sort] is a stable merge sort.  Measured times and random
    numbers are inputs.

    ** What the theorems show

    - [SketchProps]: the constructor establishes the invariant of a sketch, its
      codes preserve the order, the evaluators return exactly the matching rows
      on the paths that consult the base data; examples show where the other
      paths lose or add rows.
    - [StatsProps], [FilterProps]: statistics cover the values they were built
      from under every operation; zone map answers are sound; evaluating a
      filter on a vector selects exactly the rows that pass; sketch checks of
      single comparisons and of conjunctions select exactly the matching rows.
    - [PropagateProps]: a comparison that statistics decide is decided
      correctly; propagation keeps the value of an expression on every row, with
      the exception of BETWEEN with NULL bounds; filters keep their rows, and the
      statistics they tighten still cover them.
    - [MaskProps], [StringType], [Date]: round trips and equivalence with
      reference definitions.
    - [VersionProps]: scans and fetches see exactly the rows of the abstract
      version map; appends, deletes, commits and rollbacks change it as a
      transaction expects; a checkpoint, loaded again, has deleted exactly the rows
      its snapshot does not see, in the vectors with recorded deletions.
    - [UpdateProps]: every run of transactions over an update segment is a run
      of snapshot isolation; reads are repeatable; an update fails exactly on a
      conflict; the ways to read a row agree.
    - [StorageProps]: the word-wise scan of validity segments agrees with the
      row-wise one; segment lookup terminates with the right segment; appends
      stay in bounds; scans and fetches of a column return the visible values;
      appended rows can be read back and reverts restore the column.
    - [CompressionFacts]: a checkpoint with run-length encoding can be read back,
      its layout fits the block, its statistics cover the values, scans agree with
      fetches; an example shows the one case in which rows are lost, a run of
      exactly 65535 rows.
    - [BitPackingProps]: whatever modes the groups of a column are packed in, a
      checkpoint with bit packing can be read back row by row and by scans that
      start anywhere, and a fetch fails only where the code multiplies beyond the
      range of a signed type; examples show such fetches.
    - [ScanProps]: a table scan returns exactly the visible rows that pass the
      filters, across lazily loaded row groups, where the row id is not the first
      column and the filters reject NULL (examples show the failures otherwise);
      the tasks of a parallel scan cover the table exactly once; fetching by row id
      agrees with scanning; zone maps skip no wanted row; any interleaving of
      appends, commits and reverts of transactions that keep to their own rows
      keeps row groups well-formed.
    - [TableProps]: an append adds exactly the rows of its chunk, whatever number
      of row groups it fills, and keeps the statistics of the table valid; under
      any history of committed and reverted appends a table refines the list of
      its committed rows.

    ** Fuel

    A loop that is not structural runs on fuel, and the theorems about it are
    total: a scan of a row group has one unit per vector, the binary search of a
    segment tree one per node, a table scan one per row group, a scan over
    segments one per segment or row, a skip or scan of packed groups one per
    row; each iteration consumes at least one of them.

    ** What is not modelled

    The SQL front end, the rest of the optimizer and the execution engine, which
    consume chunks; casts, arithmetic, aggregates and other functions in
    expressions; compression other than run-length encoding, constants and bit packing,
    bit packing of 128 bits, the choice between the methods, the
    columns of a loaded checkpoint and nested columns; the buffer manager and
    block storage (a block is the list of its entries, the bytes behind a
    storage pointer are given); the write-ahead log, the catalog and indexes;
    distinct statistics; locks, since every modelled operation runs under its
    lock, and interleavings are those of whole operations; lazily loaded columns
    and versions of a row group; string columns above the segment level;
    printing. *)
From Stdlib Require Export ZArith Lia ZifyBool.
From stdpp Require Export base tactics decidable list list_numbers numbers option strings sorting.
From stdpp Require Export gmap.

#[global] Set Default Goal Selector "!".
#[global] Open Scope Z_scope.

(** * Exceptions and the error monad *)

(** The exceptions thrown by the modelled code.  [UndefinedBehaviour] marks an
    access C++ gives no meaning to (a read or write outside an array, a read
    of a union member that was never written); [OutOfFuel] marks a loop that
    used up its fuel; [Unmodelled] marks a path that leaves the modelled code. *)
Inductive exn : Type :=
  | InternalException (msg : string)
  | TransactionException (msg : string)
  | NotImplementedException (msg : string)
  | InvalidTypeException (msg : string)
  | InvalidInputException (msg : string)
  | ConversionException (msg : string)
  | SerializationException (msg : string)
  | InvalidUnicodeError (msg : string)
  | LogicError (msg : string)
  | UndefinedBehaviour (what : string)
  | OutOfFuel
  | Unmodelled (what : string).

Inductive result (A : Type) : Type :=
  | Ok (a : A)
  | Throw (e : exn).
Arguments Ok {A} a.
Arguments Throw {A} e.

#[export] Instance result_ret : MRet result := @Ok.
#[export] Instance result_bind : MBind result := λ A B f r,
  match r with Ok a => f a | Throw e => Throw e end.
#[export] Instance result_fmap : FMap result := λ A B f r,
  match r with Ok a => Ok (f a) | Throw e => Throw e end.

(** [is_ok r]: the call returned normally. *)
Definition is_ok {A} (r : result A) : bool :=
  match r with Ok _ => true | Throw _ => false end.

Lemma bind_Ok {A B} (f : A → result B) a : (Ok a ≫= f) = f a.
Proof. done. Qed.

Lemma bind_Ok_inv {A B} (f : A → result B) r b :
  (r ≫= f) = Ok b → ∃ a, r = Ok a ∧ f a = Ok b.
Proof. destruct r as [a|e]; cbn; [eauto | done]. Qed.

Lemma bind_assoc {A B C} (r : result A) (f : A → result B) (g : B → result C) :
  ((r ≫= f) ≫= g) = (r ≫= λ a, f a ≫= g).
Proof. by destruct r. Qed.

(** [foldM f s l] runs the loop body [f] over [l], threading the state and
    stopping at the first exception. *)
Fixpoint foldM {S A} (f : S → A → result S) (s : S) (l : list A) : result S :=
  match l with
  | [] => Ok s
  | x :: l' => s' ← f s x; foldM f s' l'
  end.

Lemma foldM_app {S A} (f : S → A → result S) s l1 l2 :
  foldM f s (l1 ++ l2) = (s' ← foldM f s l1; foldM f s' l2).
Proof.
  revert s; induction l1 as [|x l1 IH]; intros s; [done|].
  cbn. destruct (f s x); [apply IH | done].
Qed.

(** A loop whose body never throws is a left fold. *)
Lemma foldM_pure {S A} (f : S → A → result S) (g : S → A → S) s l :
  (∀ s x, x ∈ l → f s x = Ok (g s x)) → foldM f s l = Ok (fold_left g l s).
Proof.
  revert s; induction l as [|x l IH]; intros s Hf; [done|].
  cbn. rewrite Hf by set_solver. cbn. apply IH. set_solver.
Qed.

(** The invariant rule for loops that return. *)
Lemma foldM_inv {S A} (f : S → A → result S) (I : S → Prop) s l s' :
  I s → (∀ s x s'', x ∈ l → I s → f s x = Ok s'' → I s'') →
  foldM f s l = Ok s' → I s'.
Proof.
  revert s; induction l as [|x l IH]; intros s Hs Hstep; cbn.
  - by intros [= <-].
  - intros (s1 & Hf & Hl)%bind_Ok_inv.
    eapply (IH s1); [eapply (Hstep s x); [left | done | done] | | done].
    intros s2 y s3 Hy. apply Hstep. by right.
Qed.

(** The rule for counting loops: the body returns and keeps the invariant. *)
Lemma foldM_seq {S} (f : S → nat → result S) (I : nat → S → Prop) s a k :
  I O s → (∀ i s, (i < k)%nat → I i s → ∃ s', f s (a + i)%nat = Ok s' ∧ I (i + 1)%nat s') →
  ∃ s', foldM f s (seq a k) = Ok s' ∧ I k s'.
Proof.
  intros H0 Hstep. induction k as [|k IH]; [by exists s|].
  destruct IH as (s1 & E1 & H1); [intros; apply Hstep; [lia | done]|].
  destruct (Hstep k s1 ltac:(lia) H1) as (s2 & E2 & H2). exists s2. replace (Datatypes.S k) with (k + 1)%nat by lia.
  rewrite seq_app, foldM_app, E1. cbn. by rewrite E2.
Qed.

(** A loop of checks returns exactly when every check does. *)
Lemma foldM_checks {A} (f : A → result unit) l :
  foldM (λ _ i, f i) tt l = Ok tt ↔ ∀ i, i ∈ l → f i = Ok tt.
Proof.
  induction l as [|x l IH]; cbn; [set_solver|].
  destruct (f x) as [[]|e] eqn:Hx; cbn.
  - rewrite IH. split; [|set_solver]. intros H i [->|Hi]%elem_of_cons; auto.
  - split; [done|]. intros H. rewrite <- Hx. apply H. left.
Qed.

(** [mapR f l] runs [f] on every element, [mapR_n f n l] on the first [n], and
    [zipR f n l k] pairs the first [n] elements of [l] with those of [k];
    an access past the end of a list is undefined. *)
Definition out_of_range {A} : result A := Throw (UndefinedBehaviour "array access out of range").

Definition mapR {A B} (f : A → result B) : list A → result (list B) :=
  fix go l := match l with [] => Ok [] | x :: r => x' ← f x; r' ← go r; Ok (x' :: r') end.

Definition mapR_n {A B} (f : A → result B) : nat → list A → result (list B) :=
  fix go n l {struct l} :=
    match n, l with
    | O, _ => Ok []
    | S n', x :: r => x' ← f x; r' ← go n' r; Ok (x' :: r')
    | S _, [] => out_of_range
    end.

Definition zipR {A B} (f : A → B → result A) : nat → list A → list B → result (list A) :=
  fix go n l k {struct l} :=
    match n, l, k with
    | O, _, _ => Ok l
    | S n', x :: r, y :: k' => x' ← f x y; r' ← go n' r k'; Ok (x' :: r')
    | S _, _, _ => out_of_range
    end.

Lemma mapR_Forall2 {A B} (f : A → result B) (R : A → B → Prop) l :
  Forall (λ x, ∃ y, f x = Ok y ∧ R x y) l → ∃ k, mapR f l = Ok k ∧ Forall2 R l k.
Proof.
  induction 1 as [|x l (y & Hy & HR) _ (k & Hk & HF)]; [by exists []|].
  exists (y :: k). cbn. rewrite Hy. cbn. rewrite Hk. split; [done | by constructor].
Qed.

Lemma mapR_n_all {A B} (f : A → result B) l : mapR_n f (length l) l = mapR f l.
Proof. induction l as [|x l IH]; [done|]. cbn. by rewrite IH. Qed.

Lemma zipR_Forall3 {A B} (f : A → B → result A) (R : A → B → A → Prop) l k :
  Forall2 (λ x y, ∃ z, f x y = Ok z ∧ R x y z) l k →
  ∃ m, zipR f (length l) l k = Ok m ∧ Forall3 R l k m.
Proof.
  induction 1 as [|x y l k (z & Hz & HR) _ (m & Hm & HF)]; [exists []; by split; [|constructor]|].
  exists (z :: m). cbn. rewrite Hz. cbn. rewrite Hm. split; [done | by constructor].
Qed.

(** A decision equals a boolean that reflects it. *)
Lemma bool_decide_reflects (P : Prop) `{Decision P} (b : bool) : (P ↔ b = true) → bool_decide P = b.
Proof. intros HP. case_bool_decide; destruct b; intuition congruence. Qed.

(** * Machine integers *)

(** [wrapu w x] is the value of [x] converted to a [w]-bit unsigned integer,
    [wraps w x] to a [w]-bit two's complement signed integer. *)
Definition wrapu (w x : Z) : Z := x mod 2 ^ w.
Definition wraps (w x : Z) : Z := (x + 2 ^ (w - 1)) mod 2 ^ w - 2 ^ (w - 1).

(** [MinValue<idx_t>(m, a - b)], where the difference of two [idx_t] wraps around. *)
Definition min_difference (m a b : nat) : nat :=
  if (b <=? a)%nat then Nat.min m (a - b) else Z.to_nat (Z.min (Z.of_nat m) (2 ^ 64 + Z.of_nat a - Z.of_nat b)).

Lemma min_difference_le m a b : (b ≤ a)%nat → min_difference m a b = Nat.min m (a - b).
Proof. intros H. unfold min_difference. by rewrite (proj2 (Nat.leb_le b a) H). Qed.

Definition UINT64_MAX : Z := 18446744073709551615.
Definition UINT32_MAX : Z := 4294967295.

Lemma wrapu_small w x : 0 ≤ x < 2 ^ w → wrapu w x = x.
Proof. intros. by apply Z.mod_small. Qed.

Lemma wraps_small w x : 0 < w → - 2 ^ (w - 1) ≤ x < 2 ^ (w - 1) → wraps w x = x.
Proof.
  intros Hw Hx. unfold wraps.
  assert (2 ^ w = 2 * 2 ^ (w - 1)) as Hp
    by (rewrite <- Z.pow_succ_r by lia; f_equal; lia).
  rewrite Z.mod_small; lia.
Qed.

Lemma wrapu_range w x : 0 ≤ w → 0 ≤ wrapu w x < 2 ^ w.
Proof. intros. apply Z.mod_pos_bound. by apply Z.pow_pos_nonneg. Qed.

(** * Arrays and vectors *)

(** Indexing as the code has it: reading or writing outside the allocated
    elements is undefined behaviour. *)
Definition vget {A} (l : list A) (i : nat) : result A :=
  match l !! i with
  | Some x => Ok x
  | None => Throw (UndefinedBehaviour "array read out of range")
  end.

Definition vset {A} (l : list A) (i : nat) (x : A) : result (list A) :=
  if decide (i < length l)%nat then Ok (<[i := x]> l)
  else Throw (UndefinedBehaviour "array write out of range").

Lemma vget_lookup {A} (l : list A) i x : l !! i = Some x → vget l i = Ok x.
Proof. unfold vget. by intros ->. Qed.

Lemma vget_Ok {A} (l : list A) i x : vget l i = Ok x ↔ l !! i = Some x.
Proof. unfold vget. destruct (l !! i); naive_solver. Qed.

Lemma vset_lt {A} (l : list A) i x : (i < length l)%nat → vset l i x = Ok (<[i := x]> l).
Proof. intros. unfold vset. by case_decide. Qed.

(** ** Generic list lemmas *)

Lemma lookup_seq0 n i : (i < n)%nat → seq 0 n !! i = Some i.
Proof. intros. by rewrite lookup_seq_lt. Qed.

Lemma filter_seq_app (P : nat → Prop) `{∀ x, Decision (P x)} a m n :
  filter P (seq a (m + n)) = filter P (seq a m) ++ filter P (seq (a + m) n).
Proof. by rewrite seq_app, filter_app. Qed.

Lemma filter_seq_shift (P : nat → bool) a k :
  filter (λ r, P r) (seq a k) = (λ j, a + j)%nat <$> filter (λ j, P (a + j)%nat) (seq 0 k).
Proof.
  induction k as [|k IH]; [done|].
  rewrite !seq_S, !filter_app, fmap_app, IH. f_equal. cbn [Nat.add].
  destruct (P (a + k)%nat) eqn:HP.
  - by rewrite !filter_cons_True, !filter_nil by (by rewrite HP).
  - by rewrite !filter_cons_False, !filter_nil by (rewrite HP; tauto).
Qed.

Lemma filter_ext_in {A} (P Q : A → Prop) `{∀ x, Decision (P x), ∀ x, Decision (Q x)} (l : list A) :
  (∀ x, x ∈ l → P x ↔ Q x) → filter P l = filter Q l.
Proof.
  induction l as [|x l IH]; intros HPQ; [done|].
  rewrite !filter_cons.
  rewrite IH by (intros y Hy; apply HPQ; by right).
  assert (P x ↔ Q x) by (apply HPQ; left).
  repeat case_decide; tauto.
Qed.

Lemma filter_all {A} (P : A → Prop) `{∀ x, Decision (P x)} (l : list A) :
  (∀ x, x ∈ l → P x) → filter P l = l.
Proof.
  induction l as [|x l IH]; intros HP; [done|].
  rewrite filter_cons_True by (apply HP; set_solver).
  f_equal. apply IH. set_solver.
Qed.

Lemma filter_none {A} (P : A → Prop) `{∀ x, Decision (P x)} (l : list A) :
  (∀ x, x ∈ l → ¬ P x) → filter P l = [].
Proof.
  induction l as [|x l IH]; intros HP; [done|].
  rewrite filter_cons_False by (apply HP; set_solver).
  apply IH. set_solver.
Qed.

(** Sortedness, by position. *)
Lemma StronglySorted_lookup {A} (R : relation A) (l : list A) :
  StronglySorted R l ↔
  ∀ i j a b, (i < j)%nat → l !! i = Some a → l !! j = Some b → R a b.
Proof.
  induction l as [|x l IH].
  - split; [intros _ i j a b _ ?; done | constructor].
  - rewrite StronglySorted_cons, IH, Forall_lookup. split.
    + intros [Hx Hl] [|i] [|j] a b Hij Ha Hb; cbn in *; try lia.
      * injection Ha as <-. eauto.
      * eapply (Hl i j); [lia | done | done].
    + intros H. split.
      * intros i b Hb. apply (H O (S i)); [lia | done | done].
      * intros i j a b Hij Ha Hb. apply (H (S i) (S j)); [lia | done | done].
Qed.

(** * Automation *)

(** Hints that discharge the arithmetic and bounds side conditions shared by
    the components. *)
Create HintDb duck.
#[export] Hint Resolve wrapu_small wraps_small vget_lookup vset_lt : duck.
#[export] Hint Extern 4 (_ ≤ _) => lia : duck.
#[export] Hint Extern 4 (_ < _) => lia : duck.

(** [inv_ok] peels the binds of every hypothesis [e = Ok _]. *)
Ltac inv_ok :=
  repeat match goal with
  | H : Throw _ = Ok _ |- _ => discriminate H
  | H : Ok _ = Ok _ |- _ => injection H as H; try subst
  | H : mbind _ _ = Ok _ |- _ =>
      let a := fresh "a" in let Ha := fresh "Ha" in
      apply bind_Ok_inv in H as (a & Ha & H)
  end.

(** [bool_solve] turns boolean tests into propositions and calls [lia]. *)
Ltac bool_solve :=
  repeat match goal with
  | |- context [bool_decide ?P] => destruct (bool_decide_reflect P)
  | H : context [bool_decide ?P] |- _ => destruct (bool_decide_reflect P)
  end; try lia; try naive_solver lia.
