(* ===== verification/Bits.v ===== *)
(** Bit masks: the 64-lane comparison masks produced by the vector
    instructions, [__builtin_ctzll], and the loops that walk the set bits of a
    mask by clearing the lowest one ([mask & (mask - 1)]); byte streams. *)
From S2P Require Import Prelude.

(** [__builtin_ctzll]: the number of trailing zero bits of a positive word. *)
Fixpoint pos_ctz (p : positive) : nat :=
  match p with
  | xO q => S (pos_ctz q)
  | _ => O
  end.

Definition builtin_ctzll (z : Z) : nat :=
  match z with
  | Zpos p => pos_ctz p
  | _ => O
  end.

(** [mask & (mask - 1)]. *)
Definition clear_lowest (m : Z) : Z := Z.land m (m - 1).

(** The mask whose bit [j] is lane [j]. *)
Definition lanes (l : list bool) : Z := foldr (λ b acc, Z.b2z b + 2 * acc) 0 l.

(** The positions visited by
    [while (m != 0) { visit(ctz(m)); m = m & (m - 1); }], within [fuel]
    iterations. *)
Fixpoint set_bits (fuel : nat) (m : Z) : list nat :=
  match fuel with
  | O => []
  | S f => if m =? 0 then [] else builtin_ctzll m :: set_bits f (clear_lowest m)
  end.

(** [bit_count k m]: how many of the low [k] bits are set. *)
Definition bit_at (m : Z) (j : nat) : bool := Z.testbit m (Z.of_nat j).

(** ** Lane masks *)

Lemma lanes_cons b l : lanes (b :: l) = Z.b2z b + 2 * lanes l.
Proof. done. Qed.

Lemma lanes_range l : 0 ≤ lanes l < 2 ^ Z.of_nat (length l).
Proof.
  induction l as [|b l IH]; [cbn; lia|].
  rewrite lanes_cons. cbn [length]. rewrite Nat2Z.inj_succ, Z.pow_succ_r by lia.
  destruct b; cbn [Z.b2z]; lia.
Qed.

Lemma bit_at_lanes l j : bit_at (lanes l) j = default false (l !! j).
Proof.
  unfold bit_at. revert j; induction l as [|b l IH]; intros j.
  - cbn. by rewrite Z.bits_0.
  - rewrite lanes_cons, Z.add_comm. destruct j as [|j].
    + by rewrite Z.testbit_0_r.
    + rewrite Nat2Z.inj_succ, Z.testbit_succ_r by lia. apply IH.
Qed.

Lemma bit_at_lor a b j : bit_at (Z.lor a b) j = bit_at a j || bit_at b j.
Proof. apply Z.lor_spec. Qed.

Lemma bit_at_land a b j : bit_at (Z.land a b) j = bit_at a j && bit_at b j.
Proof. apply Z.land_spec. Qed.

Lemma bit_at_small m k j : 0 ≤ m < 2 ^ Z.of_nat k → (k ≤ j)%nat → bit_at m j = false.
Proof.
  intros Hm Hj. unfold bit_at.
  rewrite <- (Z.mod_small m (2 ^ Z.of_nat k)) by done.
  apply Z.mod_pow2_bits_high. lia.
Qed.

(** Masks of the same width with the same bits are equal. *)
Lemma mask_ext m1 m2 k :
  0 ≤ m1 < 2 ^ Z.of_nat k → 0 ≤ m2 < 2 ^ Z.of_nat k →
  (∀ j, (j < k)%nat → bit_at m1 j = bit_at m2 j) → m1 = m2.
Proof.
  intros H1 H2 Hj. apply Z.bits_inj'. intros n Hn.
  rewrite <- (Z2Nat.id n) by done.
  destruct (decide (Z.to_nat n < k)%nat) as [?|?]; [by apply Hj|].
  etrans; [|symmetry]; eapply (bit_at_small _ k); by try lia.
Qed.

Lemma land_range a b k :
  0 ≤ a < 2 ^ k → 0 ≤ b → 0 ≤ Z.land a b < 2 ^ k.
Proof.
  intros Ha Hb. split; [apply Z.land_nonneg; lia|].
  assert (0 ≤ k) by (destruct (Z.neg_nonneg_cases k); [rewrite Z.pow_neg_r in Ha; lia | done]).
  destruct (decide (Z.land a b = 0)) as [->|Hne]; [apply Z.pow_pos_nonneg; lia|].
  assert (0 < Z.land a b) by (pose proof (proj2 (Z.land_nonneg a b)); lia).
  apply Z.log2_lt_pow2; [done|].
  pose proof (Z.log2_land a b).
  destruct (decide (a = 0)) as [->|]; [by rewrite Z.land_0_l in Hne|].
  assert (Z.log2 a < k) by (apply Z.log2_lt_pow2; lia). lia.
Qed.

Lemma lor_range a b k :
  0 ≤ a < 2 ^ k → 0 ≤ b < 2 ^ k → 0 ≤ Z.lor a b < 2 ^ k.
Proof.
  intros Ha Hb. split; [apply Z.lor_nonneg; lia|].
  assert (0 ≤ k) by (destruct (Z.neg_nonneg_cases k); [rewrite Z.pow_neg_r in Ha; lia | done]).
  destruct (decide (Z.lor a b = 0)) as [->|Hne]; [apply Z.pow_pos_nonneg; lia|].
  assert (0 < Z.lor a b) by (pose proof (proj2 (Z.lor_nonneg a b)); lia).
  apply Z.log2_lt_pow2; [done|].
  rewrite Z.log2_lor by lia.
  destruct (decide (a = 0)) as [->|]; destruct (decide (b = 0)) as [->|].
  all: rewrite ?Z.lor_0_r, ?Z.lor_0_l in *; try lia.
  all: apply Z.max_lub_lt; try (apply Z.log2_lt_pow2; lia).
  all: change (Z.log2 0) with 0.
  - assert (Z.log2 b < k) by (apply Z.log2_lt_pow2; lia). pose proof (Z.log2_nonneg b); lia.
  - assert (Z.log2 a < k) by (apply Z.log2_lt_pow2; lia). pose proof (Z.log2_nonneg a); lia.
Qed.

(** Appending a lane. *)
Lemma lanes_snoc_false l : lanes (l ++ [false]) = lanes l.
Proof. induction l as [|b l IH]; [done|]. cbn [app]. by rewrite !lanes_cons, IH. Qed.

Lemma lanes_snoc_true l : lanes (l ++ [true]) = Z.lor (lanes l) (Z.shiftl 1 (Z.of_nat (length l))).
Proof.
  assert (0 ≤ Z.shiftl 1 (Z.of_nat (length l)) < 2 ^ Z.of_nat (S (length l))).
  { rewrite Z.shiftl_1_l, Nat2Z.inj_succ, Z.pow_succ_r by lia. lia. }
  pose proof (lanes_range l) as Hl.
  apply (mask_ext _ _ (S (length l))).
  - pose proof (lanes_range (l ++ [true])) as Hr. by rewrite length_app, Nat.add_1_r in Hr.
  - apply lor_range; [|done]. rewrite Nat2Z.inj_succ, Z.pow_succ_r by lia. lia.
  - intros j Hj. rewrite bit_at_lor, !bit_at_lanes.
    unfold bit_at. rewrite Z.shiftl_1_l, Z.pow2_bits_eqb by lia.
    destruct (decide (j = length l)) as [->|].
    + by rewrite list_lookup_middle, Z.eqb_refl, orb_true_r.
    + rewrite lookup_app_l by lia. rewrite (proj2 (Z.eqb_neq _ _)) by lia. by rewrite orb_false_r.
Qed.

(** ** Walking the set bits *)

Lemma builtin_ctzll_double m : 0 < m → builtin_ctzll (2 * m) = S (builtin_ctzll m).
Proof. by destruct m. Qed.

Lemma builtin_ctzll_odd m : 0 ≤ m → builtin_ctzll (1 + 2 * m) = O.
Proof. intros. destruct m; [done | | lia]. by rewrite Z.add_comm. Qed.

Lemma clear_lowest_double m : clear_lowest (2 * m) = 2 * clear_lowest m.
Proof.
  unfold clear_lowest. apply Z.bits_inj'. intros n Hn.
  rewrite Z.land_spec. destruct (decide (n = 0)) as [->|].
  - by rewrite !Z.testbit_even_0.
  - replace n with (Z.succ (n - 1)) by lia.
    rewrite !Z.testbit_even_succ by lia.
    replace (2 * m - 1) with (2 * (m - 1) + 1) by lia.
    by rewrite Z.testbit_odd_succ, Z.land_spec by lia.
Qed.

Lemma clear_lowest_odd m : 0 ≤ m → clear_lowest (1 + 2 * m) = 2 * m.
Proof.
  intros. unfold clear_lowest. apply Z.bits_inj'. intros n Hn.
  replace (1 + 2 * m - 1) with (2 * m) by lia.
  rewrite Z.land_spec, (Z.add_comm 1). destruct (decide (n = 0)) as [->|].
  - by rewrite Z.testbit_even_0, andb_false_r.
  - replace n with (Z.succ (n - 1)) by lia.
    rewrite Z.testbit_odd_succ, Z.testbit_even_succ by lia. apply andb_diag.
Qed.

Lemma clear_lowest_nonneg m : 0 ≤ m → 0 ≤ clear_lowest m.
Proof. intros. apply Z.land_nonneg. by left. Qed.

Lemma set_bits_double fuel m : 0 ≤ m → set_bits fuel (2 * m) = S <$> set_bits fuel m.
Proof.
  revert m; induction fuel as [|f IH]; intros m Hm; [done|]. cbn [set_bits].
  destruct (Z.eqb_spec m 0) as [->|]; [done|].
  rewrite (proj2 (Z.eqb_neq (2 * m) 0)) by lia.
  rewrite clear_lowest_double, IH by (by apply clear_lowest_nonneg).
  cbn. by rewrite builtin_ctzll_double by lia.
Qed.

Lemma bit_at_odd_S m j : 0 ≤ m → bit_at (1 + 2 * m) (S j) = bit_at m j.
Proof.
  intros. unfold bit_at.
  by rewrite Z.add_comm, Nat2Z.inj_succ, Z.testbit_odd_succ by lia.
Qed.

Lemma bit_at_even_S m j : 0 ≤ m → bit_at (2 * m) (S j) = bit_at m j.
Proof.
  intros. unfold bit_at. by rewrite Nat2Z.inj_succ, Z.testbit_even_succ by lia.
Qed.

Lemma bit_at_even_0 m : bit_at (2 * m) 0 = false.
Proof. apply Z.testbit_even_0. Qed.

Lemma bit_at_odd_0 m : bit_at (1 + 2 * m) 0 = true.
Proof. unfold bit_at. rewrite Z.add_comm. apply Z.testbit_odd_0. Qed.

Lemma filter_seq_S (P Q : nat → bool) a k :
  (∀ j, P (S j) = Q j) →
  filter (λ j, P j) (seq (S a) k) = S <$> filter (λ j, Q j) (seq a k).
Proof.
  intros HPQ. revert a; induction k as [|k IH]; intros a; [done|].
  cbn [seq]. rewrite !filter_cons, HPQ. case_decide; cbn; by rewrite IH.
Qed.

(** The bit-clearing loop visits exactly the set bits, in increasing order,
    and needs no more iterations than the mask has bits. *)
Lemma set_bits_spec k m fuel :
  0 ≤ m < 2 ^ Z.of_nat k → (k ≤ fuel)%nat →
  set_bits fuel m = filter (λ j, bit_at m j) (seq 0 k).
Proof.
  revert m fuel; induction k as [|k IH]; intros m fuel Hm Hf.
  - assert (m = 0) as -> by (cbn in Hm; lia). by destruct fuel.
  - rewrite Nat2Z.inj_succ, Z.pow_succ_r in Hm by lia.
    destruct fuel as [|f]; [lia|]. cbn [seq].
    destruct (Z.eqb_spec m 0) as [->|Hm0].
    { symmetry. cbn. apply filter_none. intros j _. unfold bit_at. rewrite Z.bits_0. tauto. }
    destruct (Z.Even_or_Odd m) as [[h ->]|[h ->]].
    + rewrite set_bits_double, (IH h) by lia.
      rewrite filter_cons_False by (rewrite bit_at_even_0; tauto).
      rewrite (filter_seq_S _ (bit_at h)); [done|].
      intros j. apply bit_at_even_S. lia.
    + rewrite (Z.add_comm (2 * h)). cbn [set_bits].
      rewrite (proj2 (Z.eqb_neq _ 0)) by lia.
      rewrite builtin_ctzll_odd, clear_lowest_odd, set_bits_double, (IH h) by lia.
      rewrite filter_cons_True by (by rewrite bit_at_odd_0).
      rewrite (filter_seq_S _ (bit_at h)); [done|].
      intros j. apply bit_at_odd_S. lia.
Qed.

(** After the last visited bit the mask is zero: the loop condition fails. *)
Lemma set_bits_length_bound k m fuel :
  0 ≤ m < 2 ^ Z.of_nat k → (k ≤ fuel)%nat → (length (set_bits fuel m) ≤ k)%nat.
Proof.
  intros. rewrite (set_bits_spec k) by done.
  etrans; [apply length_filter|]. by rewrite length_seq.
Qed.

(** * Byte streams

    The fixed-width little-endian writes and reads of [WriteStream::Write<T>] and
    [ReadStream::Read<T>], and raw data.  A stream is the list of the bytes it
    holds; a reader consumes it from the front. *)

Definition stream : Type := list Z.

(** [writer.Write<T>(x)] for an unsigned [T] of [n] bytes. *)
Definition write_uint (n : nat) (x : Z) : stream := Z_to_little_endian (Z.of_nat n) 8 x.

(** [reader.ReadData(ptr, n)]: the next [n] bytes. *)
Definition read_data (n : nat) (s : stream) : result (stream * stream) :=
  if decide (n ≤ length s)%nat then Ok (take n s, drop n s)
  else Throw (SerializationException "Failed to deserialize: not enough data in buffer to fulfill read request").

(** [reader.Read<T>()] for an unsigned [T] of [n] bytes. *)
Definition read_uint (n : nat) (s : stream) : result (Z * stream) :=
  '(b, s) ← read_data n s; Ok (little_endian_to_Z 8 b, s).

(** The words of an array written as raw data, and an array of [n] words read
    back. *)
Definition write_words (ws : list Z) : stream := concat (write_uint 8 <$> ws).

Fixpoint read_words (n : nat) (s : stream) : result (list Z * stream) :=
  match n with
  | O => Ok ([], s)
  | S k => '(w, s) ← read_uint 8 s; '(ws, s) ← read_words k s; Ok (w :: ws, s)
  end.

(** ** Round trips *)

Lemma length_write_uint n x : length (write_uint n x) = n.
Proof. apply Nat2Z.inj. unfold write_uint. by rewrite length_Z_to_little_endian by lia. Qed.

Lemma read_data_app (l s : stream) : read_data (length l) (l ++ s) = Ok (l, s).
Proof.
  unfold read_data. rewrite decide_True by (rewrite length_app; lia).
  by rewrite take_app_length, drop_app_length.
Qed.

Lemma read_write_uint n x s :
  0 ≤ x < 2 ^ (8 * Z.of_nat n) → read_uint n (write_uint n x ++ s) = Ok (x, s).
Proof.
  intros Hx. unfold read_uint. rewrite <- (length_write_uint n x) at 1.
  rewrite read_data_app. cbn [mbind result_bind]. unfold write_uint.
  rewrite little_endian_to_Z_to_little_endian by lia.
  rewrite Z.mod_small; [done|]. by rewrite Z.mul_comm.
Qed.

Lemma read_write_words ws s :
  Forall (λ w, 0 ≤ w < 2 ^ 64) ws → read_words (length ws) (write_words ws ++ s) = Ok (ws, s).
Proof.
  induction 1 as [|w ws Hw _ IH]; [done|]. unfold write_words in *. cbn [fmap list_fmap concat length read_words].
  rewrite <- app_assoc, read_write_uint by done. cbn [mbind result_bind]. by rewrite IH.
Qed.
