(* ===== verification/SelectionVector.v ===== *)
(** Selection vectors ([src/include/duckdb/common/types/selection_vector.hpp],
    [src/common/types/selection_vector.cpp]): the [SelectionVector] array of
    row positions, and [ManagedSelection], a selection vector with its count
    and the bitmask the column sketches fill in. *)
From S2P Require Import Prelude Bits.

(** * SelectionVector *)

(** [sel_vector] is a pointer to an array of [sel_t] (32-bit) positions;
    [None] is the null pointer, which [get_index] reads as the identity.  The
    buffer a [SelectionVector] points to is never written through a second
    owner in the modelled code, so it is kept by value. *)
Record SelectionVector : Type := mkSel { sel_vector : option (list Z) }.

(** The entry of a buffer that was allocated and not written yet (what
    [SelectionData] writes in a debug build). *)
Definition SEL_UNSET : Z := UINT32_MAX.

Definition SelectionData_new (count : nat) : list Z := replicate count SEL_UNSET.

Definition SelectionVector_null : SelectionVector := mkSel None.

Definition SelectionVector_Initialize (count : nat) : SelectionVector :=
  mkSel (Some (SelectionData_new count)).

(** [set_index(idx, loc)]: [sel_vector[idx] = UnsafeNumericCast<sel_t>(loc)]. *)
Definition set_index (sel : SelectionVector) (idx : nat) (loc : Z) : result SelectionVector :=
  match sel_vector sel with
  | None => Throw (UndefinedBehaviour "set_index on a null selection vector")
  | Some buf => buf' ← vset buf idx (wrapu 32 loc); Ok (mkSel (Some buf'))
  end.

Definition get_index (sel : SelectionVector) (idx : nat) : result Z :=
  match sel_vector sel with
  | None => Ok (Z.of_nat idx)
  | Some buf => vget buf idx
  end.

Definition sel_swap (sel : SelectionVector) (i j : nat) : result SelectionVector :=
  match sel_vector sel with
  | None => Throw (UndefinedBehaviour "swap on a null selection vector")
  | Some buf =>
      tmp ← vget buf i; bj ← vget buf j;
      buf1 ← vset buf i bj; buf2 ← vset buf1 j tmp;
      Ok (mkSel (Some buf2))
  end.

(** [sel.set_index(count++, loc)]. *)
Definition sel_push (st : SelectionVector * nat) (loc : Z) : result (SelectionVector * nat) :=
  sel' ← set_index st.1 st.2 loc; Ok (sel', S st.2).

(** [SelectionVector(start, count)]: a fresh buffer of [vector_size] entries
    holding [start, start + 1, ...]. *)
Definition SelectionVector_range (vector_size : nat) (start : Z) (count : nat) : result SelectionVector :=
  foldM (λ sel i, set_index sel i (start + Z.of_nat i))
        (SelectionVector_Initialize vector_size) (seq 0 count).

(** [Inverted(src, dst, source_size, count)]: the loop state is
    [(src_idx, (dst, dst_idx))]. *)
Definition Inverted_step (src : SelectionVector) (source_size : nat)
    (st : nat * (SelectionVector * nat)) (i : nat) : result (nat * (SelectionVector * nat)) :=
  let '(src_idx, d) := st in
  if decide (src_idx < source_size)%nat then
    s ← get_index src src_idx;
    if s =? Z.of_nat i then Ok (S src_idx, d)
    else d' ← sel_push d (Z.of_nat i); Ok (src_idx, d')
  else d' ← sel_push d (Z.of_nat i); Ok (src_idx, d').

Definition Inverted (src dst : SelectionVector) (source_size count : nat) : result (SelectionVector * nat) :=
  st ← foldM (Inverted_step src source_size) (O, (dst, O)) (seq 0 count);
  Ok st.2.

(** [this->Slice(sel, count)]: [result[i] = this[sel[i]]]. *)
Definition Slice (this sel : SelectionVector) (count : nat) : result SelectionVector :=
  foldM (λ data i,
    new_idx ← get_index sel i;
    idx ← get_index this (Z.to_nat new_idx);
    set_index data i idx)
    (SelectionVector_Initialize count) (seq 0 count).

(** * ManagedSelection *)

Record ManagedSelection : Type := mkMSel {
  bitmask : list Z;
  initialized : bool;
  count : nat;
  size : nat;
  sel_vec : SelectionVector;
}.

Definition ManagedSelection_new (size : nat) (initialize : bool) : ManagedSelection :=
  if initialize then mkMSel [] true 0 size (SelectionVector_Initialize size)
  else mkMSel [] false 0 size SelectionVector_null.

Definition ManagedSelection_Initialize (m : ManagedSelection) (new_size : nat) : ManagedSelection :=
  mkMSel (bitmask m) true (count m) new_size (SelectionVector_Initialize new_size).

Definition SetCount (m : ManagedSelection) (new_count : nat) : ManagedSelection :=
  mkMSel (bitmask m) (initialized m) new_count (size m) (sel_vec m).

(** Assignments to [m.bitmask] and to [m.Selection()]. *)
Definition set_bitmask (m : ManagedSelection) (b : list Z) : ManagedSelection :=
  mkMSel b (initialized m) (count m) (size m) (sel_vec m).
Definition set_sel_vec (m : ManagedSelection) (s : SelectionVector) : ManagedSelection :=
  mkMSel (bitmask m) (initialized m) (count m) (size m) s.

Definition IndexMapsToLocation (m : ManagedSelection) (idx : nat) (location : Z) : result bool :=
  if decide (idx < count m)%nat then
    l ← get_index (sel_vec m) idx; Ok (l =? location)
  else Ok false.

(** One word of [BitmaskToSelection]: [for b in 0..63, if (mask & (1ULL << b))
    sel_vec.set_index(cnt++, i * 64 + b)]. *)
Definition bitmask_word (i : nat) (mask : Z) (st : SelectionVector * nat) : result (SelectionVector * nat) :=
  foldM (λ st b,
    if negb (Z.land mask (Z.shiftl 1 (Z.of_nat b)) =? 0)
    then sel_push st (Z.of_nat i * 64 + Z.of_nat b) else Ok st) st (seq 0 64).

Definition BitmaskToSelection (m : ManagedSelection) : result ManagedSelection :=
  '(sel, cnt) ← foldM (λ st i, mask ← vget (bitmask m) i; bitmask_word i mask st)
    (SelectionVector_Initialize (size m), O) (seq 0 (length (bitmask m)));
  Ok (mkMSel (bitmask m) (initialized m) cnt (size m) sel).

(** * The contents of a selection *)

(** The first [cnt] positions of a selection vector. *)
Definition sel_list (sel : SelectionVector) (cnt : nat) : list Z :=
  match sel_vector sel with
  | None => Z.of_nat <$> seq 0 cnt
  | Some buf => take cnt buf
  end.

(** [sel] has an allocated buffer of [cap] entries. *)
Definition sel_cap (sel : SelectionVector) (cap : nat) : Prop :=
  ∃ buf, sel_vector sel = Some buf ∧ length buf = cap.

(** [sel] can be read at every index below [cnt]. *)
Definition sel_readable (sel : SelectionVector) (cnt : nat) : Prop :=
  match sel_vector sel with
  | None => True
  | Some buf => (cnt ≤ length buf)%nat
  end.

Lemma sel_cap_Initialize n : sel_cap (SelectionVector_Initialize n) n.
Proof. eexists; split; [done | apply length_replicate]. Qed.

Lemma sel_list_0 sel : sel_list sel 0 = [].
Proof. unfold sel_list. by destruct (sel_vector sel). Qed.

Lemma get_index_sel_list sel cnt i :
  sel_readable sel cnt → (i < cnt)%nat →
  ∃ z, get_index sel i = Ok z ∧ sel_list sel cnt !! i = Some z.
Proof.
  unfold sel_readable, get_index, sel_list. destruct (sel_vector sel) as [buf|]; intros Hr Hi.
  - destruct (lookup_lt_is_Some_2 buf i) as [z Hz]; [lia|].
    exists z. rewrite lookup_take_lt by done. by rewrite (vget_lookup _ _ _ Hz).
  - exists (Z.of_nat i). by rewrite list_lookup_fmap, lookup_seq0.
Qed.

Lemma length_sel_list sel cnt : sel_readable sel cnt → length (sel_list sel cnt) = cnt.
Proof.
  unfold sel_readable, sel_list. destruct (sel_vector sel).
  - intros. rewrite length_take. lia.
  - by rewrite length_fmap, length_seq.
Qed.

(** Pushing within the capacity succeeds and appends the position. *)
Lemma sel_push_spec sel cnt cap loc :
  sel_cap sel cap → (cnt < cap)%nat →
  ∃ sel', sel_push (sel, cnt) loc = Ok (sel', S cnt) ∧ sel_cap sel' cap ∧
          sel_list sel' (S cnt) = sel_list sel cnt ++ [wrapu 32 loc].
Proof.
  intros (buf & Hb & Hlen) Hlt. unfold sel_push, set_index, sel_list, sel_cap. cbn.
  rewrite Hb, vset_lt by lia. cbn.
  eexists; split_and!; [done | eexists; split; [done | by rewrite length_insert] | cbn].
  rewrite (take_S_r _ _ (wrapu 32 loc)) by (apply list_lookup_insert_eq; lia).
  by rewrite take_insert_ge by lia.
Qed.

(** Pushing a whole list of positions. *)
Lemma sel_push_all sel cnt cap L :
  sel_cap sel cap → (cnt + length L ≤ cap)%nat →
  ∃ sel', foldM sel_push (sel, cnt) L = Ok (sel', (cnt + length L)%nat) ∧ sel_cap sel' cap ∧
          sel_list sel' (cnt + length L) = sel_list sel cnt ++ (wrapu 32 <$> L).
Proof.
  revert sel cnt; induction L as [|p L IH]; intros sel cnt Hc Hle; cbn in Hle |- *.
  - exists sel. rewrite Nat.add_0_r, app_nil_r. auto.
  - destruct (sel_push_spec sel cnt cap p) as (s1 & -> & Hc1 & Hl1); [done | lia|].
    cbn. destruct (IH s1 (S cnt)) as (s2 & -> & Hc2 & Hl2); [done | lia|].
    exists s2. rewrite Nat.add_succ_r. split_and!; [done | done|].
    cbn in Hl2. by rewrite Hl2, Hl1, <- app_assoc.
Qed.

(** A loop that pushes conditionally pushes the filtered list. *)
Lemma foldM_cond_push {A} (P : A → bool) (g : A → Z) st l :
  foldM (λ st x, if P x then sel_push st (g x) else Ok st) st l =
  foldM sel_push st (g <$> filter (λ x, P x) l).
Proof.
  revert st; induction l as [|x l IH]; intros st; [done|].
  cbn [foldM]. destruct (P x) eqn:HP.
  - rewrite filter_cons_True by (by rewrite HP). cbn.
    destruct (sel_push st (g x)); [apply IH | done].
  - rewrite filter_cons_False by (rewrite HP; tauto). apply IH.
Qed.

(** * Bitmasks and selections *)

(** The rows whose bit is set in word [i] of a bitmask, and in a whole one. *)
Definition word_rows (i : nat) (w : Z) : list Z :=
  (λ b, Z.of_nat i * 64 + Z.of_nat b) <$> filter (λ b, bit_at w b) (seq 0 64).
Arguments word_rows : simpl never.

Definition mask_rows (words : list Z) : list Z := concat (imap word_rows words).

Lemma land_shiftl_bit m b :
  negb (Z.land m (Z.shiftl 1 (Z.of_nat b)) =? 0) = bit_at m b.
Proof.
  rewrite Z.shiftl_1_l. unfold bit_at.
  destruct (Z.testbit m (Z.of_nat b)) eqn:Hb.
  - apply negb_true_iff, Z.eqb_neq. intros H0.
    assert (Z.testbit (Z.land m (2 ^ Z.of_nat b)) (Z.of_nat b) = true) as Ht.
    { by rewrite Z.land_spec, Hb, Z.pow2_bits_true by lia. }
    by rewrite H0, Z.bits_0 in Ht.
  - apply negb_false_iff, Z.eqb_eq, Z.bits_inj'. intros n Hn.
    rewrite Z.land_spec, Z.bits_0.
    destruct (decide (n = Z.of_nat b)) as [->|Hne]; [by rewrite Hb|].
    by rewrite Z.pow2_bits_false, andb_false_r by lia.
Qed.

Lemma bitmask_word_push i mask st :
  bitmask_word i mask st =
  foldM sel_push st (word_rows i mask).
Proof.
  unfold bitmask_word, word_rows.
  rewrite (foldM_cond_push (λ b, negb (Z.land mask (Z.shiftl 1 (Z.of_nat b)) =? 0))
                           (λ b, Z.of_nat i * 64 + Z.of_nat b)).
  do 2 f_equal. apply filter_ext_in. intros b _. by rewrite land_shiftl_bit.
Qed.

Lemma bitmask_loop_push words pre st :
  foldM (λ st i, mask ← vget (pre ++ words) i; bitmask_word i mask st) st (seq (length pre) (length words)) =
  foldM sel_push st (concat (imap (λ i w, word_rows (length pre + i) w) words)).
Proof.
  revert pre st; induction words as [|w words IH]; intros pre st; [done|].
  cbn [length seq foldM]. rewrite (vget_lookup _ _ w) by (by rewrite list_lookup_middle).
  cbn [mbind result_bind]. rewrite bitmask_word_push. cbn [imap concat].
  rewrite foldM_app, Nat.add_0_r.
  destruct (foldM sel_push st _) as [st'|]; [|reflexivity]. cbn [mbind result_bind].
  specialize (IH (pre ++ [w]) st').
  rewrite length_app, <- app_assoc, Nat.add_1_r in IH. cbn [app] in IH.
  rewrite IH. do 2 f_equal.
  apply imap_ext. intros i x _. cbn [compose]. f_equal. cbn [length]. lia.
Qed.

(** [BitmaskToSelection] succeeds whenever the set bits fit the allocated
    size, and then lists exactly the rows whose bit is set, in order. *)
Lemma BitmaskToSelection_ok m :
  (length (mask_rows (bitmask m)) ≤ size m)%nat →
  ∃ m', BitmaskToSelection m = Ok m' ∧ count m' = length (mask_rows (bitmask m)) ∧
        bitmask m' = bitmask m ∧ size m' = size m ∧
        sel_list (sel_vec m') (count m') = wrapu 32 <$> mask_rows (bitmask m).
Proof.
  intros Hle. unfold BitmaskToSelection.
  rewrite (bitmask_loop_push (bitmask m) []).
  change (concat _) with (mask_rows (bitmask m)).
  set (rows := mask_rows (bitmask m)) in *. clearbody rows.
  destruct (sel_push_all (SelectionVector_Initialize (size m)) 0 (size m) rows)
    as (s & -> & _ & Hl); [apply sel_cap_Initialize | done|].
  cbn. eexists; split_and!; [done..|]. exact Hl.
Qed.

(** The bit of row [r]. *)
Definition mask_bit (words : list Z) (r : nat) : bool :=
  bit_at (default 0 (words !! (r / 64)%nat)) (r mod 64).

Lemma word_rows_filter i w :
  word_rows i w = Z.of_nat <$> filter (λ r, bit_at w (r - 64 * i)) (seq (64 * i) 64).
Proof.
  unfold word_rows.
  rewrite (filter_seq_shift (λ r, bit_at w (r - 64 * i)) (64 * i) 64), <- list_fmap_compose.
  rewrite (filter_ext_in (λ j, bit_at w (64 * i + j - 64 * i)) (λ j, bit_at w j))
    by (intros j _; by replace (64 * i + j - 64 * i)%nat with j by lia).
  apply list_fmap_ext. intros _ j _. cbn. lia.
Qed.

Lemma mask_rows_off words pre :
  concat (imap (λ i w, word_rows (length pre + i) w) words) =
  Z.of_nat <$> filter (λ r, mask_bit (pre ++ words) r) (seq (64 * length pre) (64 * length words)).
Proof.
  revert pre; induction words as [|w words IH]; intros pre; [done|].
  cbn [imap concat length]. rewrite Nat.mul_succ_r, (Nat.add_comm _ 64), filter_seq_app, fmap_app.
  f_equal.
  - rewrite Nat.add_0_r, word_rows_filter. f_equal. apply filter_ext_in. intros r Hr%elem_of_seq.
    unfold mask_bit.
    assert (r / 64 = length pre)%nat as -> by (symmetry; apply (Nat.div_unique _ _ _ (r - 64 * length pre)); lia).
    assert (r mod 64 = r - 64 * length pre)%nat as ->
      by (symmetry; apply (Nat.mod_unique _ _ (length pre)); lia).
    by rewrite list_lookup_middle.
  - specialize (IH (pre ++ [w])). rewrite length_app, <- app_assoc in IH. cbn [app length] in IH.
    replace (64 * length pre + 64)%nat with (64 * (length pre + 1))%nat by lia.
    rewrite <- IH. f_equal. apply imap_ext. intros i x _. cbn [compose]. f_equal. lia.
Qed.

(** The rows of a bitmask are the rows whose bit is set. *)
Lemma mask_rows_filter words :
  mask_rows words = Z.of_nat <$> filter (λ r, mask_bit words r) (seq 0 (64 * length words)).
Proof. apply (mask_rows_off words []). Qed.

(** A bitmask that covers [n] rows and whose bits agree with [P] lists the
    rows satisfying [P]. *)
Lemma mask_rows_spec words n (P : nat → bool) :
  (n ≤ 64 * length words)%nat →
  (∀ r, (r < 64 * length words)%nat → mask_bit words r = bool_decide (r < n)%nat && P r) →
  mask_rows words = Z.of_nat <$> filter (λ r, P r) (seq 0 n).
Proof.
  intros Hn HP. rewrite mask_rows_filter. f_equal.
  replace (64 * length words)%nat with (n + (64 * length words - n))%nat in * by lia.
  rewrite filter_seq_app, (filter_none _ (seq (0 + n) _)), app_nil_r.
  - apply filter_ext_in. intros r Hr%elem_of_seq.
    by rewrite HP, bool_decide_true by lia.
  - intros r Hr%elem_of_seq. rewrite HP, bool_decide_false by lia. tauto.
Qed.

(** * Inverted and Slice *)

(** [Inverted] on a sorted source: the rows below [count] that the source
    does not list. *)
Lemma Inverted_loop src L n cnt st0 srcn :
  (∀ k p, L !! k = Some p → get_index src (srcn + k) = Ok (Z.of_nat p)) →
  StronglySorted lt L → (∀ p, p ∈ L → n ≤ p)%nat →
  foldM (Inverted_step src (srcn + length L)) (srcn, st0) (seq n cnt) =
  (d ← foldM sel_push st0 (Z.of_nat <$> filter (λ i, i ∉ L) (seq n cnt));
   Ok ((srcn + length (filter (λ p, (p < n + cnt)%nat) L))%nat, d)).
Proof.
  revert L n srcn st0. induction cnt as [|cnt IH]; intros L n srcn st0 HL Hs Hn.
  - cbn. rewrite filter_none; [by rewrite Nat.add_0_r|]. intros p Hp. specialize (Hn p Hp). lia.
  - cbn [seq foldM Inverted_step]. destruct L as [|p L].
    + rewrite decide_False by (cbn; lia). rewrite filter_cons_True by apply not_elem_of_nil. cbn [fmap list_fmap foldM].
      destruct (sel_push st0 (Z.of_nat n)) as [d|]; [|done]. cbn [mbind result_bind].
      rewrite (IH [] (S n) srcn d); [done | done | constructor | by intros q ?%elem_of_nil].
    + rewrite decide_True by (cbn; lia).
      pose proof (HL O p eq_refl) as H0. rewrite Nat.add_0_r in H0. rewrite H0.
      cbn [mbind result_bind]. apply StronglySorted_inv in Hs as [Hs Hall].
      destruct (Z.eqb_spec (Z.of_nat p) (Z.of_nat n)) as [Heq|Hne].
      * assert (p = n) as -> by lia. cbn [mbind result_bind].
        rewrite (filter_cons_False (λ i, i ∉ n :: L)) by (intros Hc; apply Hc; left).
        rewrite (filter_ext_in (λ i, i ∉ n :: L) (λ i, i ∉ L))
          by (intros i Hi%elem_of_seq; rewrite elem_of_cons; intuition lia).
        cbn [length]. rewrite Nat.add_succ_r.
        rewrite (IH L (S n) (S srcn)); [| | done |].
        -- rewrite filter_cons_True by lia. cbn. by rewrite !Nat.add_succ_r.
        -- intros k q Hk. rewrite <- (HL (S k) q Hk). f_equal. lia.
        -- intros q Hq. rewrite Forall_forall in Hall. specialize (Hall q Hq). lia.
      * assert (n < p)%nat by (specialize (Hn p ltac:(left)); lia).
        rewrite (filter_cons_True (λ i, i ∉ p :: L)).
        2:{ rewrite not_elem_of_cons. split; [lia|]. intros Hin. rewrite Forall_forall in Hall.
            specialize (Hall n Hin). lia. }
        cbn [fmap list_fmap foldM]. destruct (sel_push st0 (Z.of_nat n)) as [d|]; [|done]. cbn [mbind result_bind].
        rewrite (IH (p :: L) (S n) srcn d); [by rewrite Nat.add_succ_r | done | by constructor |].
        intros q [->|Hq]%elem_of_cons; [lia|]. rewrite Forall_forall in Hall. specialize (Hall q Hq). lia.
Qed.

(** [Slice] composes the two selections. *)
Lemma Slice_ok this sel n f g :
  (∀ i, (i < n)%nat → get_index sel i = Ok (Z.of_nat (g i)) ∧ get_index this (g i) = Ok (Z.of_nat (f i)) ∧
                     Z.of_nat (f i) < 2 ^ 32) →
  ∃ sel', Slice this sel n = Ok sel' ∧ sel_list sel' n = (λ i, Z.of_nat (f i)) <$> seq 0 n.
Proof.
  intros H. unfold Slice.
  enough (∀ k data, (k ≤ n)%nat → sel_cap data n →
    ∃ data', foldM (λ data i, new_idx ← get_index sel i; idx ← get_index this (Z.to_nat new_idx);
                              set_index data i idx) data (seq (n - k) k) = Ok data' ∧
             sel_list data' n = sel_list data (n - k) ++ ((λ i, Z.of_nat (f i)) <$> seq (n - k) k)) as Hk.
  { destruct (Hk n (SelectionVector_Initialize n)) as (d & Hd & Hl); [lia | apply sel_cap_Initialize|].
    rewrite Nat.sub_diag in Hd, Hl. eauto. }
  induction k as [|k IH]; intros data Hle Hc.
  - exists data. cbn. by rewrite Nat.sub_0_r, app_nil_r.
  - cbn [seq foldM]. destruct (H (n - S k)%nat) as (Hg & Hf & Hr); [lia|].
    rewrite Hg. cbn [mbind result_bind]. rewrite Nat2Z.id, Hf. cbn [mbind result_bind].
    destruct (sel_push_spec data (n - S k) n (Z.of_nat (f (n - S k)%nat))) as (d1 & Hp & Hc1 & Hl1); [done | lia|].
    unfold sel_push in Hp. cbn in Hp. apply bind_Ok_inv in Hp as (d2 & Hset & [= <-]).
    rewrite Hset. cbn [mbind result_bind].
    replace (S (n - S k)) with (n - k)%nat in * by lia.
    destruct (IH d2) as (d3 & -> & Hl3); [lia | done|].
    exists d3. split; [done|]. rewrite Hl3, Hl1, <- app_assoc. cbn.
    by rewrite wrapu_small by lia.
Qed.
