(* ===== verification/ColumnSketch.v ===== *)
(** Column sketches ([src/include/duckdb/storage/statistics/column_sketch.hpp]):
    the order-preserving map from values to 8- or 16-bit codes, the sketch
    column, and the predicate evaluators (scalar, AVX2 and AVX-512). *)
From S2P Require Import Prelude Bits SelectionVector.

(** * The sketch *)

(** The members of [ColumnSketch<BaseType, CodeType>].  Base values are
    unsigned [BaseType] integers; nothing here computes with them, so their
    width only appears where constants are converted (see NumericStats). *)
Record ColumnSketch : Type := mkSketch {
  base_data_ : list Z;
  sketch_ : list Z;
  endpoints_ : list Z;
  num_codes_ : nat;
  need_check_base : bool;
  min_data_ : Z;
  max_data_ : Z;
}.

(** [std::distance(l.begin(), std::lower_bound(l.begin(), l.end(), x))]: the
    first position whose element is not less than [x]. *)
Fixpoint lower_bound (l : list Z) (x : Z) : nat :=
  match l with
  | [] => O
  | e :: l' => if e <? x then S (lower_bound l' x) else O
  end.

(** [static_cast<CodeType>(std::distance(..., std::lower_bound(...)))] for a
    code type of [cw] bits. *)
Definition code_of (cw : Z) (endpoints : list Z) (x : Z) : Z :=
  wrapu cw (Z.of_nat (lower_bound endpoints x)).

(** [std::sort]. *)
Definition std_sort (l : list Z) : list Z := merge_sort Z.le l.

(** Endpoint [i]: [sample[std::min((i + 1) * n / num_codes_ - 1, n - 1)]], in
    64-bit unsigned arithmetic. *)
Definition endpoint (sample : list Z) (num_codes i : nat) : result Z :=
  let n := Z.of_nat (length sample) in
  let idx := wrapu 64 (wrapu 64 ((Z.of_nat i + 1) * n) / Z.of_nat num_codes - 1) in
  vget sample (Z.to_nat (Z.min idx (n - 1))).

(** [build_order_preserving_map]: returns the endpoints, the number of codes,
    [need_check_base], and the minimum and maximum.  [sample.front()] on an
    empty column is undefined. *)
Definition build_order_preserving_map (base_data : list Z) (num_codes0 : nat)
    : result (list Z * nat * bool * Z * Z) :=
  let sample := std_sort base_data in
  let num_codes := Nat.min (length sample) num_codes0 in
  let unique_count := length (remove_dups sample) in
  let need_check := negb (unique_count <=? num_codes)%nat in
  mn ← vget sample 0;
  mx ← vget sample (length sample - 1);
  eps ← foldM (λ acc i, e ← endpoint sample num_codes i; Ok (acc ++ [e])) [] (seq 0 num_codes);
  Ok (eps, num_codes, need_check, mn, mx).

Definition build_sketch_column (cw : Z) (base_data endpoints : list Z) : list Z :=
  code_of cw endpoints <$> base_data.

(** The constructor: [num_codes_ = numeric_limits<CodeType>::max() + 1]. *)
Definition ColumnSketch_new (cw : Z) (base_data : list Z) : result ColumnSketch :=
  '(eps, num_codes, need_check, mn, mx) ←
    build_order_preserving_map base_data (Z.to_nat (2 ^ cw));
  Ok (mkSketch base_data (build_sketch_column cw base_data eps) eps num_codes need_check mn mx).

(** * Scalar evaluation *)

(** The scalar row loops: push every row whose code and value pass [p]. *)
Definition scan_rows (p : Z → Z → bool) (cs : ColumnSketch) (rows : list nat) : result (list Z) :=
  foldM (λ res i,
    s ← vget (sketch_ cs) i; b ← vget (base_data_ cs) i;
    if p s b then Ok (res ++ [wrapu 32 (Z.of_nat i)]) else Ok res) [] rows.

Definition evaluate_less_than_CPU (cw : Z) (cs : ColumnSketch) (x : Z) : result (list Z) :=
  if negb (bool_decide (endpoints_ cs = [])) && (max_data_ cs <? x) then
    Ok ((λ i, wrapu 32 (Z.of_nat i)) <$> seq 0 (length (sketch_ cs)))
  else
    let code_x := code_of cw (endpoints_ cs) x in
    scan_rows (λ s b, (s <? code_x) || ((s =? code_x) && (b <? x))) cs (seq 0 (length (sketch_ cs))).

Definition evaluate_greater_than_CPU (cw : Z) (cs : ColumnSketch) (x : Z) : result (list Z) :=
  let code_x := code_of cw (endpoints_ cs) x in
  scan_rows (λ s b, (code_x <? s) || ((s =? code_x) && (x <? b))) cs (seq 0 (length (sketch_ cs))).

Definition evaluate_equal (cw : Z) (cs : ColumnSketch) (x : Z) : result (list Z) :=
  let code_x := code_of cw (endpoints_ cs) x in
  scan_rows (λ s b, (s =? code_x) && (b =? x)) cs (seq 0 (length (sketch_ cs))).

Definition evaluate_between (cs : ColumnSketch) (x1 x2 : Z) : result (list Z) :=
  foldM (λ res i,
    b ← vget (base_data_ cs) i;
    if (x1 <=? b) && (b <=? x2) then Ok (res ++ [wrapu 32 (Z.of_nat i)]) else Ok res)
    [] (seq 0 (length (base_data_ cs))).

(** * AVX2 *)

(** A block of [w] consecutive codes starting at [i]. *)
Definition block (w i : nat) (l : list Z) : list Z := take w (drop i l).

(** The mask of a lane-wise comparison with the broadcast code. *)
Definition cmp_mask (cmp : Z → Z → bool) (data : list Z) (code : Z) : Z :=
  lanes ((λ s, cmp s code) <$> data).

(** The starts of the full blocks of [for (; i + w <= n; i += w)]. *)
Definition block_starts (w n : nat) : list nat := (λ k, w * k)%nat <$> seq 0 (n / w).

(** [_mm256_cmpgt_epi8] compares signed bytes; a row is taken on the sign
    comparison of the codes alone, and the remaining rows use the scalar test. *)
Definition evaluate_less_than_AVX2 (cs : ColumnSketch) (x : Z) : result (list Z) :=
  let code_x := code_of 8 (endpoints_ cs) x in
  let n := length (sketch_ cs) in
  let res := concat ((λ i,
    let mask := cmp_mask (λ s c, wraps 8 s <? wraps 8 c) (block 32 i (sketch_ cs)) code_x in
    (λ j, wrapu 32 (Z.of_nat (i + j))) <$> filter (λ j, bit_at mask j) (seq 0 32)) <$> block_starts 32 n) in
  tail ← scan_rows (λ s b, (s <? code_x) || ((s =? code_x) && (b <? x))) cs
                   (seq (32 * (n / 32)) (n mod 32));
  Ok (res ++ tail).

(** * AVX-512 *)

(** [for (; k + 16 <= m; k += 16) store k .. k+15 at data + k], with the
    [int16_t] counter; [k + 16] is computed as [int] and converted to
    [size_t] for the comparison. *)
Fixpoint fill16 (fuel : nat) (k m : Z) (sel : SelectionVector) : result (Z * SelectionVector) :=
  if wrapu 64 (k + 16) <=? m then
    match fuel with
    | O => Throw OutOfFuel
    | S f =>
        sel' ← foldM (λ s j, set_index s (Z.to_nat (k + Z.of_nat j)) (k + Z.of_nat j)) sel (seq 0 16);
        fill16 f (wraps 16 (k + 16)) m sel'
    end
  else Ok (k, sel).

(** [for (; k < m; ++k) data[k] = k]. *)
Fixpoint fill1 (fuel : nat) (k m : Z) (sel : SelectionVector) : result SelectionVector :=
  if wrapu 64 k <? m then
    match fuel with
    | O => Throw OutOfFuel
    | S f => sel' ← set_index sel (Z.to_nat k) k; fill1 f (wraps 16 (k + 1)) m sel'
    end
  else Ok sel.

(** [mask_count] words of ones, the last one cut to [m % 64] bits. *)
Definition full_bitmask (m : nat) : list Z :=
  let mask_count := ((m + 63) / 64)%nat in
  let words := replicate mask_count UINT64_MAX in
  let remain := (m mod 64)%nat in
  if decide (remain = 0)%nat then words
  else <[(mask_count - 1)%nat := Z.shiftl 1 (Z.of_nat remain) - 1]> words.

(** [static_cast<int32_t>(cnt)] returned as [idx_t]. *)
Definition as_idx_int32 (cnt : nat) : Z := wrapu 64 (wraps 32 (Z.of_nat cnt)).

(** The branch that selects every row. *)
Definition select_all (cs : ColumnSketch) (msel : ManagedSelection) : result (Z * ManagedSelection) :=
  let m := length (base_data_ cs) in
  '(k, sel1) ← fill16 (S m) 0 (Z.of_nat m) (sel_vec msel);
  sel2 ← fill1 (S m) k (Z.of_nat m) sel1;
  Ok (as_idx_int32 m, SetCount (set_bitmask (set_sel_vec msel sel2) (full_bitmask m)) m).

(** [while (mask != 0) { pos = i + ctz(mask); sel.set_index(cnt++, pos);
    mask = mask & (mask - 1); }]. *)
Fixpoint emit_mask (fuel i : nat) (mask : Z) (st : SelectionVector * nat) : result (SelectionVector * nat) :=
  if mask =? 0 then Ok st
  else match fuel with
  | O => Throw OutOfFuel
  | S f =>
      st' ← sel_push st (wrapu 32 (Z.of_nat (i + builtin_ctzll mask)));
      emit_mask f i (clear_lowest mask) st'
  end.

(** The loop over [temp_mask] that clears the bits of [eq_mask] whose base
    value is rejected. *)
Fixpoint check_eq_mask (fuel i : nat) (reject : Z → bool) (base : list Z) (temp_mask eq_mask : Z) : result Z :=
  if temp_mask =? 0 then Ok eq_mask
  else match fuel with
  | O => Throw OutOfFuel
  | S f =>
      let offset := builtin_ctzll temp_mask in
      let pos := wrapu 32 (Z.of_nat (i + offset)) in
      b ← vget base (Z.to_nat pos);
      check_eq_mask f i reject base (clear_lowest temp_mask)
        (if reject b then Z.land eq_mask (Z.lnot (Z.shiftl 1 (Z.of_nat offset))) else eq_mask)
  end.

(** What the four AVX-512 evaluators differ in: the two early exits, the code
    comparison used when the base data is not checked, the code comparison and
    the rejection test used when it is, and the test of the remaining rows
    (code, code of the constant, base value, constant). *)
Record avx512_ops : Type := mkOps {
  op_none : ColumnSketch → Z → bool;
  op_all : ColumnSketch → Z → bool;
  op_cmp_unchecked : Z → Z → bool;
  op_cmp : Z → Z → bool;
  op_reject : Z → Z → bool;
  op_tail : Z → Z → Z → Z → bool;
}.

(** One full block of 64 codes: compute its mask, record it in the bitmask and
    push its rows. *)
Definition eval_block (ops : avx512_ops) (cs : ColumnSketch) (x code_x : Z)
    (st : list Z * (SelectionVector * nat)) (i : nat) : result (list Z * (SelectionVector * nat)) :=
  let data := block 64 i (sketch_ cs) in
  mask ← (if negb (need_check_base cs) then Ok (cmp_mask (op_cmp_unchecked ops) data code_x)
          else
            let cmp := cmp_mask (op_cmp ops) data code_x in
            let eq_mask := cmp_mask Z.eqb data code_x in
            eq_mask' ← check_eq_mask 64 i (λ b, op_reject ops b x) (base_data_ cs) eq_mask eq_mask;
            Ok (Z.lor cmp eq_mask'));
  st' ← emit_mask 64 i mask st.2;
  Ok (st.1 ++ [mask], st').

(** One of the remaining rows. *)
Definition eval_tail_row (ops : avx512_ops) (cs : ColumnSketch) (x code_x : Z)
    (st : Z * nat * (SelectionVector * nat)) (i : nat) : result (Z * nat * (SelectionVector * nat)) :=
  let '(tail_mask, tail_bits, d) := st in
  s ← vget (sketch_ cs) i; b ← vget (base_data_ cs) i;
  if op_tail ops s code_x b x then
    d' ← sel_push d (Z.of_nat i);
    Ok (Z.lor tail_mask (Z.shiftl 1 (Z.of_nat tail_bits)), S tail_bits, d')
  else Ok (tail_mask, S tail_bits, d).

(** The common shape of the four evaluators. *)
Definition evaluate_avx512 (ops : avx512_ops) (cs : ColumnSketch) (x : Z) (msel : ManagedSelection)
    : result (Z * ManagedSelection) :=
  let nonempty := negb (bool_decide (endpoints_ cs = [])) in
  if nonempty && op_none ops cs x then Ok (0, msel)
  else
    let msel := set_sel_vec (set_bitmask msel []) (SelectionVector_Initialize (length (base_data_ cs))) in
    if nonempty && op_all ops cs x then select_all cs msel
    else
      let code_x := code_of 8 (endpoints_ cs) x in
      let n := length (sketch_ cs) in
      '(words, d) ← foldM (eval_block ops cs x code_x) ([], (sel_vec msel, O)) (block_starts 64 n);
      '(tail_mask, _, d') ← foldM (eval_tail_row ops cs x code_x) (0, O, d) (seq (64 * (n / 64)) (n mod 64));
      Ok (as_idx_int32 d'.2,
          SetCount (set_bitmask (set_sel_vec msel d'.1) (words ++ [tail_mask])) d'.2).

Definition less_than_ops : avx512_ops := mkOps
  (λ cs x, x <=? min_data_ cs)
  (λ cs x, max_data_ cs <? x)
  (λ s c, s <? c)
  (λ s c, s <? c)
  (λ b x, x <=? b)
  (λ s c b x, (s <? c) || ((s =? c) && (b <? x))).

Definition lessthan_orequal_ops : avx512_ops := mkOps
  (λ cs x, x <? min_data_ cs)
  (λ cs x, (max_data_ cs <? x) || (negb (need_check_base cs) && (max_data_ cs <=? x)))
  (λ s c, s <=? c)
  (λ s c, s <? c)
  (λ b x, x <? b)
  (λ s c b x, (s <=? c) || ((s =? c) && (b <=? x))).

Definition greater_than_ops : avx512_ops := mkOps
  (λ cs x, max_data_ cs <=? x)
  (λ cs x, x <? min_data_ cs)
  (λ s c, c <? s)
  (λ s c, c <? s)
  (λ b x, b <=? x)
  (λ s c b x, (c <? s) || ((s =? c) && (x <? b))).

Definition greaterthan_orequal_ops : avx512_ops := mkOps
  (λ cs x, max_data_ cs <? x)
  (λ cs x, (x <? min_data_ cs) || (negb (need_check_base cs) && (x <=? min_data_ cs)))
  (λ s c, c <=? s)
  (λ s c, c <? s)
  (λ b x, b <? x)
  (λ s c b x, (c <=? s) || ((s =? c) && (x <=? b))).

Definition evaluate_less_than_AVX512 := evaluate_avx512 less_than_ops.
Definition evaluate_lessthan_orequal_avx512 := evaluate_avx512 lessthan_orequal_ops.
Definition evaluate_greater_than_AVX512 := evaluate_avx512 greater_than_ops.
Definition evaluate_greaterthan_orequal_avx512 := evaluate_avx512 greaterthan_orequal_ops.

(** * Sketches stored per segment *)

(** [BaseColumnSketch]: a [ColumnSketchWrapper] over 32- or 64-bit base values
    with 8-bit codes; [Copy] copies the wrapped sketch. *)
Inductive BaseColumnSketch : Type :=
  | ColumnSketchWrapper32 (impl : ColumnSketch)
  | ColumnSketchWrapper64 (impl : ColumnSketch).

Definition ColumnSketchWrapper_new (W : Z) (data : list Z) : result BaseColumnSketch :=
  impl ← ColumnSketch_new 8 data;
  Ok (if W =? 32 then ColumnSketchWrapper32 impl else ColumnSketchWrapper64 impl).

Definition sketch_Copy (s : BaseColumnSketch) : BaseColumnSketch :=
  match s with
  | ColumnSketchWrapper32 impl => ColumnSketchWrapper32 impl
  | ColumnSketchWrapper64 impl => ColumnSketchWrapper64 impl
  end.

(** [dynamic_cast<ColumnSketchWrapper<T, uint8_t>*>] for [T] of [W] bits. *)
Definition dynamic_cast_sketch (W : Z) (s : BaseColumnSketch) : option ColumnSketch :=
  match s with
  | ColumnSketchWrapper32 impl => if W =? 32 then Some impl else None
  | ColumnSketchWrapper64 impl => if W =? 64 then Some impl else None
  end.
