(* ===== verification/SketchFacts.v ===== *)
(** Correctness of the column sketches: the invariant the constructor
    establishes, the order preservation of the codes, and the exactness of the
    scalar and AVX-512 evaluators against the plain scan of the base data. *)
From S2P Require Import Prelude Bits SelectionVector ColumnSketch.

(** The reference scan: the rows whose base value satisfies [P]. *)
Definition row_ids (P : Z → bool) (base : list Z) : list nat :=
  filter (λ i, from_option P false (base !! i)) (seq 0 (length base)).
Definition rows_where (P : Z → bool) (base : list Z) : list Z := Z.of_nat <$> row_ids P base.

Lemma row_ids_ext P Q base : (∀ b, b ∈ base → P b = Q b) → row_ids P base = row_ids Q base.
Proof.
  intros HPQ. apply filter_ext_in. intros i _.
  destruct (base !! i) as [b|] eqn:Hb; [|done]. cbn.
  by rewrite HPQ by (by eapply list_elem_of_lookup_2).
Qed.

Lemma row_ids_all P base : (∀ b, b ∈ base → P b = true) → row_ids P base = seq 0 (length base).
Proof.
  intros HP. apply filter_all. intros i Hi%elem_of_seq.
  destruct (lookup_lt_is_Some_2 base i) as [b Hb]; [lia|].
  rewrite Hb. cbn. by rewrite HP by (by eapply list_elem_of_lookup_2).
Qed.

Lemma row_ids_none P base : (∀ b, b ∈ base → P b = false) → row_ids P base = [].
Proof.
  intros HP. apply filter_none. intros i _.
  destruct (base !! i) as [b|] eqn:Hb; cbn; [|tauto].
  rewrite HP by (by eapply list_elem_of_lookup_2). tauto.
Qed.

(** * lower_bound *)

Lemma lower_bound_le l x : (lower_bound l x ≤ length l)%nat.
Proof. induction l as [|e l IH]; cbn; [lia|]. case_match; lia. Qed.

Lemma lower_bound_lt l x e : e ∈ l → x ≤ e → (lower_bound l x < length l)%nat.
Proof.
  induction l as [|e' l IH]; cbn; [by intros ?%elem_of_nil|].
  intros [->|He]%elem_of_cons Hx; destruct (Z.ltb_spec e' x); try lia.
  specialize (IH He Hx). lia.
Qed.

(** The codes preserve the order of the values. *)
Lemma lower_bound_mono l a b : a ≤ b → (lower_bound l a ≤ lower_bound l b)%nat.
Proof.
  intros Hab. induction l as [|e l IH]; cbn; [done|].
  destruct (Z.ltb_spec e a), (Z.ltb_spec e b); lia.
Qed.

Lemma lower_bound_at l x e : l !! lower_bound l x = Some e → x ≤ e.
Proof.
  induction l as [|e' l IH]; cbn; [done|].
  destruct (Z.ltb_spec e' x); cbn; [apply IH | by intros [= <-]].
Qed.

(** In a sorted list every member is found at its own value. *)
Lemma lower_bound_member l x :
  StronglySorted Z.le l → x ∈ l → l !! lower_bound l x = Some x.
Proof.
  induction l as [|e l IH]; cbn; [by intros _ ?%elem_of_nil|].
  intros [Hs Hall]%StronglySorted_inv Hx. rewrite Forall_forall in Hall.
  destruct (Z.ltb_spec e x).
  - apply elem_of_cons in Hx as [->|Hx]; [lia|]. by apply IH.
  - apply elem_of_cons in Hx as [->|Hx]; [done|].
    specialize (Hall x Hx). cbn. f_equal. lia.
Qed.

(** * The invariant of a built sketch *)

Record sketch_ok (cw : Z) (base : list Z) (cs : ColumnSketch) : Prop := {
  sk_base : base_data_ cs = base;
  sk_sketch : sketch_ cs = code_of cw (endpoints_ cs) <$> base;
  sk_sorted : StronglySorted Z.le (endpoints_ cs);
  sk_length : length (endpoints_ cs) = num_codes_ cs;
  sk_codes : (0 < num_codes_ cs)%nat ∧ Z.of_nat (num_codes_ cs) ≤ 2 ^ cw;
  sk_in : ∀ e, e ∈ endpoints_ cs → e ∈ base;
  sk_max_endpoint : max_data_ cs ∈ endpoints_ cs;
  sk_bounds : ∀ b, b ∈ base → min_data_ cs ≤ b ≤ max_data_ cs;
  sk_min_in : min_data_ cs ∈ base;
  sk_need_check : need_check_base cs = negb (length (remove_dups (std_sort base)) <=? num_codes_ cs)%nat;
  sk_small : Z.of_nat (length base) ≤ 2 ^ cw → endpoints_ cs = std_sort base;
}.

Section Construction.
Context (base : list Z).
Let n := length base.
Let sample := std_sort base.

Lemma sample_perm : sample ≡ₚ base.
Proof. apply merge_sort_Permutation. Qed.

Lemma sample_sorted : StronglySorted Z.le sample.
Proof. apply StronglySorted_merge_sort; apply _. Qed.

Lemma sample_length : length sample = n.
Proof. unfold n. by rewrite <- sample_perm. Qed.

Lemma sample_monotone i j a b :
  (i ≤ j)%nat → sample !! i = Some a → sample !! j = Some b → a ≤ b.
Proof.
  intros Hij Ha Hb. destruct (decide (i = j)) as [->|]; [naive_solver lia|].
  eapply (proj1 (StronglySorted_lookup _ _) sample_sorted i j); [lia | done | done].
Qed.

Context (Hne : base ≠ []) (Hlen : Z.of_nat (length base) < 2 ^ 32).

Lemma n_pos : (0 < n)%nat.
Proof. unfold n. destruct base; [done | cbn; lia]. Qed.

(** The sample position of endpoint [i]. *)
Definition endpoint_pos (nc i : nat) : nat := ((i + 1) * n / nc - 1)%nat.

Lemma endpoint_pos_bounds nc i :
  (0 < nc ≤ n)%nat → (i < nc)%nat → (i ≤ endpoint_pos nc i < n)%nat.
Proof.
  intros Hnc Hi. unfold endpoint_pos.
  assert (i + 1 ≤ (i + 1) * n / nc)%nat.
  { apply Nat.div_le_lower_bound; [lia|]. nia. }
  assert ((i + 1) * n / nc ≤ n)%nat.
  { apply Nat.Div0.div_le_upper_bound. nia. }
  pose proof n_pos. lia.
Qed.

Lemma endpoint_ok nc i :
  (0 < nc ≤ n)%nat → (i < nc)%nat →
  ∃ e, endpoint sample nc i = Ok e ∧ sample !! endpoint_pos nc i = Some e.
Proof.
  intros Hnc Hi. pose proof (endpoint_pos_bounds nc i Hnc Hi) as Hp.
  destruct (lookup_lt_is_Some_2 sample (endpoint_pos nc i)) as [e He]; [rewrite sample_length; lia|].
  exists e. split; [|done]. unfold endpoint. rewrite sample_length.
  assert (Z.of_nat n < 2 ^ 32) as Hn by done.
  rewrite (wrapu_small 64 ((Z.of_nat i + 1) * Z.of_nat n)) by (change (2 ^ 64) with (2 ^ 32 * 2 ^ 32); nia).
  assert ((Z.of_nat i + 1) * Z.of_nat n / Z.of_nat nc - 1 = Z.of_nat (endpoint_pos nc i)) as ->.
  { unfold endpoint_pos. unfold endpoint_pos in Hp.
    assert (1 ≤ (i + 1) * n / nc)%nat
      by (apply Nat.div_le_lower_bound; [lia | nia]).
    rewrite Nat2Z.inj_sub by done. rewrite Nat2Z.inj_div, Nat2Z.inj_mul, Nat2Z.inj_add. done. }
  rewrite wrapu_small by lia.
  rewrite Z.min_l by lia. rewrite Nat2Z.id. by apply vget_lookup.
Qed.

Lemma endpoints_loop nc k acc :
  (0 < nc ≤ n)%nat → (k ≤ nc)%nat →
  ∃ eps, foldM (λ acc i, e ← endpoint sample nc i; Ok (acc ++ [e])) acc (seq (nc - k) k) = Ok (acc ++ eps) ∧
         length eps = k ∧
         (∀ j e, eps !! j = Some e → sample !! endpoint_pos nc (nc - k + j) = Some e).
Proof.
  intros Hnc. revert acc. induction k as [|k IH]; intros acc Hk.
  - exists []. cbn. by rewrite app_nil_r.
  - cbn [seq foldM]. destruct (endpoint_ok nc (nc - S k)) as (e & -> & He); [done | lia|].
    cbn [mbind result_bind]. replace (S (nc - S k)) with (nc - k)%nat by lia.
    destruct (IH (acc ++ [e])) as (eps & -> & Hl & Hj); [lia|].
    exists (e :: eps). rewrite <- app_assoc. split_and!; [done | cbn; lia|].
    intros [|j] e' Hj'; cbn in Hj'.
    + injection Hj' as <-. by rewrite Nat.add_0_r.
    + apply Hj in Hj'. rewrite <- Hj'. f_equal. f_equal. lia.
Qed.

(** What the loop over the endpoints leaves: endpoint [j] is the sample at
    [endpoint_pos nc j]. *)
Definition is_endpoints (nc : nat) (eps : list Z) : Prop :=
  length eps = nc ∧ ∀ j e, eps !! j = Some e → sample !! endpoint_pos nc j = Some e.

Lemma endpoints_sorted nc eps :
  (0 < nc)%nat → is_endpoints nc eps → StronglySorted Z.le eps.
Proof.
  intros Hnc [_ Hj]. apply StronglySorted_lookup. intros i j a b Hij Ha Hb.
  eapply sample_monotone; [| exact (Hj _ _ Ha) | exact (Hj _ _ Hb)].
  unfold endpoint_pos. apply Nat.sub_le_mono_r. apply Nat.Div0.div_le_mono. nia.
Qed.

Lemma endpoints_last nc eps mx :
  (0 < nc ≤ n)%nat → is_endpoints nc eps → sample !! (n - 1)%nat = Some mx → mx ∈ eps.
Proof.
  intros Hnc [Hl Hj] Hmx. destruct (lookup_lt_is_Some_2 eps (nc - 1)) as [e He]; [lia|].
  pose proof (Hj _ _ He) as Hs.
  assert (endpoint_pos nc (nc - 1) = n - 1)%nat as Hpos.
  { unfold endpoint_pos. replace (nc - 1 + 1)%nat with nc by lia.
    by rewrite Nat.mul_comm, Nat.div_mul by lia. }
  rewrite Hpos in Hs. assert (e = mx) as -> by congruence.
  by eapply list_elem_of_lookup_2.
Qed.

Lemma endpoints_full eps : is_endpoints n eps → eps = sample.
Proof.
  intros [Hl Hj]. apply (list_eq_same_length _ _ n); [apply sample_length | done|].
  intros i x y Hi Hx Hy. apply Hj in Hx. unfold endpoint_pos in Hx.
  rewrite Nat.div_mul in Hx by lia. replace (i + 1 - 1)%nat with i in Hx by lia. congruence.
Qed.

Lemma sample_bounds mn mx b :
  sample !! 0%nat = Some mn → sample !! (n - 1)%nat = Some mx → b ∈ base → mn ≤ b ≤ mx.
Proof.
  intros Hmn Hmx Hb. rewrite <- sample_perm in Hb. apply list_elem_of_lookup_1 in Hb as [j Hjb].
  pose proof (lookup_lt_Some _ _ _ Hjb) as Hjn. rewrite sample_length in Hjn.
  split; [eapply (sample_monotone 0 j) | eapply (sample_monotone j (n - 1))]; try done; lia.
Qed.

(** The constructor succeeds on every non-empty column and establishes the
    invariant. *)
Lemma ColumnSketch_new_ok cw :
  0 ≤ cw → ∃ cs, ColumnSketch_new cw base = Ok cs ∧ sketch_ok cw base cs.
Proof.
  intros Hcw. unfold ColumnSketch_new, build_order_preserving_map. fold sample.
  rewrite sample_length. pose proof n_pos as Hn0.
  set (nc := Nat.min n (Z.to_nat (2 ^ cw))).
  assert (0 < 2 ^ cw) by (apply Z.pow_pos_nonneg; lia).
  assert (0 < nc ≤ n)%nat as Hnc by (unfold nc; lia).
  destruct (lookup_lt_is_Some_2 sample 0) as [mn Hmn]; [rewrite sample_length; lia|].
  destruct (lookup_lt_is_Some_2 sample (n - 1)) as [mx Hmx]; [rewrite sample_length; lia|].
  rewrite (vget_lookup _ _ _ Hmn), (vget_lookup _ _ _ Hmx). cbn [mbind result_bind].
  destruct (endpoints_loop nc nc []) as (eps & Hfold & Hl & Hj); [done | done|].
  rewrite Nat.sub_diag in Hfold, Hj. cbn in Hj.
  assert (is_endpoints nc eps) as Heps by done.
  rewrite Hfold. cbn [mbind result_bind app]. eexists; split; [done|].
  split; cbn [base_data_ sketch_ endpoints_ num_codes_ need_check_base min_data_ max_data_];
    [done | done | apply (endpoints_sorted nc); [lia | done] | done | | | | | | done |].
  - split; [lia|]. unfold nc. lia.
  - intros e [j Hje]%list_elem_of_lookup_1. apply Hj in Hje.
    rewrite <- sample_perm. by eapply list_elem_of_lookup_2.
  - by eapply endpoints_last.
  - intros b. by apply sample_bounds.
  - rewrite <- sample_perm. by eapply list_elem_of_lookup_2.
  - intros Hsmall. apply endpoints_full.
    assert (nc = n) as Hncn by (apply Nat.min_l; fold n in Hsmall; lia).
    by rewrite <- Hncn at 1.
Qed.
End Construction.

(** Whatever the constructor returns satisfies the invariant. *)
Lemma ColumnSketch_new_inv cw base cs :
  0 ≤ cw → Z.of_nat (length base) < 2 ^ 32 →
  ColumnSketch_new cw base = Ok cs → base ≠ [] ∧ sketch_ok cw base cs.
Proof.
  intros Hcw Hlen Hnew. assert (base ≠ []) as Hne by (by intros ->).
  split; [done|]. destruct (ColumnSketch_new_ok base Hne Hlen cw Hcw) as (cs' & Hnew' & Hok).
  congruence.
Qed.

(** * Codes and values *)

Section Codes.
Context (cw : Z) (base : list Z) (cs : ColumnSketch) (Hok : sketch_ok cw base cs).
Let code := code_of cw (endpoints_ cs).

(** Up to the maximum, a code is the position of the lower bound: the
    conversion to the code type does not wrap. *)
Lemma code_nowrap v : v ≤ max_data_ cs → code v = Z.of_nat (lower_bound (endpoints_ cs) v).
Proof.
  intros Hv. apply wrapu_small.
  pose proof (lower_bound_lt _ v _ (sk_max_endpoint _ _ _ Hok) Hv) as H.
  rewrite (sk_length _ _ _ Hok) in H. destruct (sk_codes _ _ _ Hok). lia.
Qed.

(** A smaller code means a smaller value. *)
Lemma code_lt_value a b :
  a ≤ max_data_ cs → b ≤ max_data_ cs → code a < code b → a < b.
Proof.
  intros Ha Hb. rewrite !code_nowrap by done. intros Hlt.
  destruct (Z.lt_ge_cases a b) as [|Hge]; [done|].
  pose proof (lower_bound_mono (endpoints_ cs) b a Hge). lia.
Qed.

(** The checked row tests are the value tests. *)
Lemma row_test_lt x b :
  b ≤ max_data_ cs → x ≤ max_data_ cs →
  (code b <? code x) || ((code b =? code x) && (b <? x)) = (b <? x).
Proof.
  intros Hb Hx. pose proof (code_lt_value b x Hb Hx). pose proof (code_lt_value x b Hx Hb). lia.
Qed.

Lemma row_test_gt x b :
  b ≤ max_data_ cs → x ≤ max_data_ cs →
  (code x <? code b) || ((code b =? code x) && (x <? b)) = (x <? b).
Proof.
  intros Hb Hx. pose proof (code_lt_value b x Hb Hx). pose proof (code_lt_value x b Hx Hb). lia.
Qed.

(** When the column has at most as many rows as codes, every value that
    shares the code of [x] is the endpoint of that code. *)
Lemma small_bucket x b :
  Z.of_nat (length base) ≤ 2 ^ cw → b ∈ base → x ≤ max_data_ cs →
  code b = code x → endpoints_ cs !! lower_bound (endpoints_ cs) x = Some b.
Proof.
  intros Hsmall Hb Hx. pose proof (sk_bounds _ _ _ Hok b Hb).
  rewrite !code_nowrap by lia. intros Heq. apply Nat2Z.inj in Heq. rewrite <- Heq.
  apply lower_bound_member; [apply (sk_sorted _ _ _ Hok)|].
  rewrite (sk_small _ _ _ Hok Hsmall). unfold std_sort. by rewrite merge_sort_Permutation.
Qed.

(** The scalar loop lists the rows that pass the test. *)
Lemma scan_rows_ok p rows :
  (∀ i, i ∈ rows → (i < length base)%nat ∧ Z.of_nat i < 2 ^ 32) →
  scan_rows p cs rows =
  Ok (Z.of_nat <$> filter (λ i, from_option (λ b, p (code b) b) false (base !! i)) rows).
Proof.
  intros Hrows. unfold scan_rows.
  rewrite (sk_base _ _ _ Hok), (sk_sketch _ _ _ Hok). fold code.
  match goal with |- foldM ?f _ _ = Ok ?r => enough (∀ acc, foldM f acc rows = Ok (acc ++ r)) as H by apply (H []) end.
  induction rows as [|i rows IH]; intros acc; [by rewrite app_nil_r|].
  destruct (Hrows i) as [Hi Hi32]; [left|]. cbn [foldM].
  destruct (lookup_lt_is_Some_2 base i Hi) as [b Hb].
  rewrite (vget_lookup (code <$> base) i (code b)) by (by rewrite list_lookup_fmap, Hb).
  rewrite (vget_lookup _ _ b Hb). cbn [mbind result_bind].
  assert (∀ j, j ∈ rows → (j < length base)%nat ∧ Z.of_nat j < 2 ^ 32)
    by (intros j Hj; apply Hrows; by right).
  destruct (p (code b) b) eqn:Hp; cbn [mbind result_bind]; rewrite IH by done.
  - rewrite filter_cons_True by (by rewrite Hb; cbn; rewrite Hp).
    rewrite wrapu_small by lia. by rewrite <- app_assoc.
  - rewrite filter_cons_False; [done|]. rewrite Hb. cbn. rewrite Hp. tauto.
Qed.

Lemma sketch_length : length (sketch_ cs) = length base.
Proof. rewrite (sk_sketch _ _ _ Hok). apply length_fmap. Qed.

Lemma endpoints_nonempty : endpoints_ cs ≠ [].
Proof. intros H. pose proof (sk_max_endpoint _ _ _ Hok). rewrite H in *. by eapply not_elem_of_nil. Qed.

Lemma rows_where_ext P Q :
  (∀ b, b ∈ base → P b = Q b) → rows_where P base = rows_where Q base.
Proof.
  intros HPQ. unfold rows_where. by rewrite (row_ids_ext P Q).
Qed.

Context (Hlen : Z.of_nat (length base) < 2 ^ 32).

Lemma scan_all_rows p Q :
  (∀ b, b ∈ base → p (code b) b = Q b) →
  scan_rows p cs (seq 0 (length (sketch_ cs))) = Ok (rows_where Q base).
Proof.
  intros HpQ. rewrite sketch_length, scan_rows_ok.
  - f_equal. apply (rows_where_ext (λ b, p (code b) b) Q HpQ).
  - intros i Hi%elem_of_seq. lia.
Qed.

Lemma less_than_CPU_ok x : evaluate_less_than_CPU cw cs x = Ok (rows_where (λ b, b <? x) base).
Proof.
  unfold evaluate_less_than_CPU. rewrite bool_decide_false by apply endpoints_nonempty. cbn [negb andb].
  destruct (Z.ltb_spec (max_data_ cs) x) as [Hx|Hx].
  - f_equal. rewrite sketch_length. unfold rows_where. rewrite row_ids_all.
    + apply list_fmap_ext. intros i j Hj%lookup_seq. apply wrapu_small. lia.
    + intros b Hb. pose proof (sk_bounds _ _ _ Hok b Hb). lia.
  - apply scan_all_rows. intros b Hb. apply row_test_lt; [|lia]. by apply (sk_bounds _ _ _ Hok).
Qed.

Lemma greater_than_CPU_ok x :
  x ≤ max_data_ cs ∨ Z.of_nat (length base) < 2 ^ cw →
  evaluate_greater_than_CPU cw cs x = Ok (rows_where (λ b, x <? b) base).
Proof.
  intros Hx. apply scan_all_rows. fold code. intros b Hb.
  pose proof (sk_bounds _ _ _ Hok b Hb) as Hbm.
  destruct (Z.le_gt_cases x (max_data_ cs)) as [Hle|Hgt]; [apply row_test_gt; lia|].
  (* beyond the maximum the code is the number of codes, above every code *)
  destruct Hx as [?|Hsmall]; [lia|].
  assert (Z.of_nat (lower_bound (endpoints_ cs) x) < 2 ^ cw) as Hlb.
  { pose proof (lower_bound_le (endpoints_ cs) x).
    rewrite (sk_small _ _ _ Hok) in * by lia.
    assert (length (std_sort base) = length base) by (unfold std_sort; by rewrite merge_sort_Permutation).
    lia. }
  assert (code x = Z.of_nat (lower_bound (endpoints_ cs) x)) as Hcx by (apply wrapu_small; lia).
  pose proof (lower_bound_mono (endpoints_ cs) b x ltac:(lia)).
  rewrite Hcx, code_nowrap by lia. lia.
Qed.

Lemma equal_ok x : evaluate_equal cw cs x = Ok (rows_where (λ b, b =? x) base).
Proof.
  apply scan_all_rows. fold code. intros b Hb.
  destruct (Z.eqb_spec b x) as [->|]; [|apply andb_false_r]. by rewrite Z.eqb_refl.
Qed.

(** [evaluate_between] scans the base values themselves. *)
Lemma between_ok x1 x2 :
  evaluate_between cs x1 x2 = Ok (rows_where (λ b, (x1 <=? b) && (b <=? x2)) base).
Proof.
  rewrite <- (scan_all_rows (λ _ b, (x1 <=? b) && (b <=? x2))) by done.
  unfold evaluate_between, scan_rows. rewrite sketch_length, (sk_base _ _ _ Hok), (sk_sketch _ _ _ Hok).
  assert (∀ i, i ∈ seq 0 (length base) → is_Some (base !! i)) as Hr
    by (intros i Hi%elem_of_seq; apply lookup_lt_is_Some_2; lia).
  revert Hr. generalize (seq 0 (length base)). intros l.
  match goal with |- _ → foldM ?f _ _ = foldM ?g _ _ => enough (∀ acc, (∀ i, i ∈ l → is_Some (base !! i)) → foldM f acc l = foldM g acc l) by auto end.
  induction l as [|i l IH]; intros acc Hr; [done|].
  cbn [foldM]. destruct (Hr i) as [b Hb]; [left|].
  unfold vget. rewrite list_lookup_fmap, Hb. cbn.
  destruct ((x1 <=? b) && (b <=? x2)); cbn; apply IH; intros j Hj; apply Hr; by right.
Qed.
End Codes.
