(* ===== verification/SketchAvx.v ===== *)
(** The AVX-512 evaluators of the column sketches: what the mask loops
    compute, the row predicate each evaluator realises, and the refinement of
    the vectorised loops by a plain filter over the rows. *)
From S2P Require Import Prelude Bits SelectionVector ColumnSketch SketchFacts.

(** * The loops over one mask *)

Lemma emit_mask_push fuel i m st :
  (length (set_bits (S fuel) m) ≤ fuel)%nat →
  emit_mask fuel i m st =
  foldM sel_push st ((λ j, wrapu 32 (Z.of_nat (i + j))) <$> set_bits fuel m).
Proof.
  revert m st; induction fuel as [|f IH]; intros m st; cbn [set_bits emit_mask].
  - destruct (m =? 0); cbn; [done | lia].
  - destruct (m =? 0) eqn:Hm; [done|]. cbn [length fmap list_fmap foldM]. intros Hl.
    destruct (sel_push st _) as [st'|]; [|done]. cbn [mbind result_bind]. apply IH.
    cbn [set_bits]. cbn [set_bits] in Hl. lia.
Qed.

Lemma emit_mask_64 i m st :
  0 ≤ m < 2 ^ 64 →
  emit_mask 64 i m st =
  foldM sel_push st ((λ j, wrapu 32 (Z.of_nat (i + j))) <$> filter (λ j, bit_at m j) (seq 0 64)).
Proof.
  intros Hm. rewrite emit_mask_push.
  - by rewrite (set_bits_spec 64) by (done || lia).
  - apply (set_bits_length_bound 64); [done | lia].
Qed.

(** Clearing one bit of the equality mask. *)
Lemma clear_bit_spec m o j :
  bit_at (Z.land m (Z.lnot (Z.shiftl 1 (Z.of_nat o)))) j = bit_at m j && negb (bool_decide (j = o)).
Proof.
  rewrite bit_at_land. f_equal. unfold bit_at.
  rewrite Z.lnot_spec, Z.shiftl_1_l, Z.pow2_bits_eqb by lia. f_equal.
  case_bool_decide; [subst; apply Z.eqb_refl | apply Z.eqb_neq; lia].
Qed.

(** [check_eq_mask] returns the equality mask without the rejected rows that
    the walked mask points to. *)
Lemma check_eq_mask_loop base i (reject : Z → bool) k fuel temp eq :
  (i + k ≤ length base)%nat → Z.of_nat (length base) < 2 ^ 32 →
  (∀ j, j ∈ set_bits (S fuel) temp → (j < k)%nat) →
  (length (set_bits (S fuel) temp) ≤ fuel)%nat → 0 ≤ eq < 2 ^ Z.of_nat k →
  ∃ m, check_eq_mask fuel i reject base temp eq = Ok m ∧ 0 ≤ m < 2 ^ Z.of_nat k ∧
    ∀ j, bit_at m j = bit_at eq j &&
      negb (bool_decide (j ∈ set_bits fuel temp) && from_option reject false (base !! (i + j)%nat)).
Proof.
  intros Hk Hlen. revert temp eq. induction fuel as [|f IH]; intros temp eq Hin Hl Heq; cbn [set_bits check_eq_mask].
  - cbn [set_bits] in Hl. destruct (temp =? 0); cbn in Hl; [|lia]. exists eq. split_and!; [done | lia | lia|].
    intros j. rewrite bool_decide_false by apply not_elem_of_nil. by rewrite andb_true_r.
  - cbn [set_bits] in Hl, Hin. destruct (temp =? 0) eqn:Ht.
    + exists eq. split_and!; [done | lia | lia|]. intros j.
      rewrite bool_decide_false by apply not_elem_of_nil. by rewrite andb_true_r.
    + set (o := builtin_ctzll temp) in *.
      assert (o < k)%nat as Ho by (apply Hin; left).
      rewrite wrapu_small, Nat2Z.id by lia.
      destruct (lookup_lt_is_Some_2 base (i + o)) as [b Hb]; [lia|].
      rewrite (vget_lookup _ _ _ Hb). cbn [mbind result_bind].
      set (eq' := if reject b then _ else eq).
      assert (0 ≤ eq' < 2 ^ Z.of_nat k) as Heq'.
      { unfold eq'. destruct (reject b); [|done]. rewrite Z.land_comm.
        rewrite <- (Z.mod_small eq (2 ^ Z.of_nat k)) by done.
        rewrite <- Z.land_ones, Z.land_assoc, Z.land_ones by lia. apply Z.mod_pos_bound. lia. }
      destruct (IH (clear_lowest temp) eq') as (m & -> & Hm & Hbits).
      { intros j Hj. apply Hin. right. exact Hj. }
      { cbn [length] in Hl. cbn [set_bits]. lia. }
      { done. }
      exists m. split_and!; [done | lia | lia|]. intros j. rewrite Hbits.
      destruct (decide (j = o)) as [->|Hne].
      * rewrite Hb. cbn [from_option]. rewrite (bool_decide_true (o ∈ o :: _)) by left.
        unfold eq'. destruct (reject b) eqn:Hr; [|cbn; by rewrite !andb_false_r, !andb_true_r].
        rewrite clear_bit_spec, bool_decide_true by done. cbn. by rewrite !andb_false_r.
      * assert (bit_at eq' j = bit_at eq j) as ->.
        { unfold eq'. destruct (reject b); [|done].
          by rewrite clear_bit_spec, bool_decide_false, andb_true_r by done. }
        do 3 f_equal. apply bool_decide_ext. rewrite elem_of_cons. tauto.
Qed.

(** * The loops over the column *)

Section Loops.
Context (base : list Z) (cs : ColumnSketch) (Hok : sketch_ok 8 base cs).
Context (Hlen : Z.of_nat (length base) < 2 ^ 32).
Context (ops : avx512_ops) (x : Z).
Let code := code_of 8 (endpoints_ cs).
Let code_x := code x.

(** The row predicate of the full blocks, and of the remaining rows. *)
Definition block_test (b : Z) : bool :=
  if negb (need_check_base cs) then op_cmp_unchecked ops (code b) code_x
  else op_cmp ops (code b) code_x || ((code b =? code_x) && negb (op_reject ops b x)).
Definition tail_test (b : Z) : bool := op_tail ops (code b) code_x b x.

Definition block_pred (i : nat) : bool := from_option block_test false (base !! i).
Definition tail_pred (i : nat) : bool := from_option tail_test false (base !! i).

Lemma cmp_mask_range (cmp : Z → Z → bool) i :
  0 ≤ cmp_mask cmp (block 64 i (sketch_ cs)) code_x < 2 ^ 64.
Proof.
  pose proof (lanes_range ((λ s, cmp s code_x) <$> block 64 i (sketch_ cs))) as H.
  rewrite length_fmap in H. unfold cmp_mask. split; [lia|].
  eapply Z.lt_le_trans; [apply H|]. change 64 with (Z.of_nat 64). apply Z.pow_le_mono_r; [lia|].
  apply Nat2Z.inj_le. unfold block. rewrite length_take. lia.
Qed.

Lemma cmp_mask_bit (cmp : Z → Z → bool) i j :
  (i + 64 ≤ length base)%nat → (j < 64)%nat →
  bit_at (cmp_mask cmp (block 64 i (sketch_ cs)) code_x) j =
  from_option (λ b, cmp (code b) code_x) false (base !! (i + j)%nat).
Proof.
  intros Hi Hj. unfold cmp_mask. rewrite bit_at_lanes, list_lookup_fmap. unfold block.
  rewrite lookup_take_lt, lookup_drop, (sk_sketch _ _ _ Hok), list_lookup_fmap by done.
  by destruct (base !! (i + j)%nat).
Qed.

Lemma block_mask_ok i :
  (i + 64 ≤ length base)%nat →
  ∃ mask,
    (if negb (need_check_base cs) then Ok (cmp_mask (op_cmp_unchecked ops) (block 64 i (sketch_ cs)) code_x)
     else
       eq_mask' ← check_eq_mask 64 i (λ b, op_reject ops b x) (base_data_ cs)
                    (cmp_mask Z.eqb (block 64 i (sketch_ cs)) code_x)
                    (cmp_mask Z.eqb (block 64 i (sketch_ cs)) code_x);
       Ok (Z.lor (cmp_mask (op_cmp ops) (block 64 i (sketch_ cs)) code_x) eq_mask')) = Ok mask ∧
    0 ≤ mask < 2 ^ 64 ∧ ∀ j, (j < 64)%nat → bit_at mask j = block_pred (i + j).
Proof.
  intros Hi. unfold block_pred, block_test. destruct (negb (need_check_base cs)).
  { eexists. split; [done|]. split; [apply cmp_mask_range|]. intros j Hj. by apply cmp_mask_bit. }
  set (eqm := cmp_mask Z.eqb (block 64 i (sketch_ cs)) code_x).
  assert (0 ≤ eqm < 2 ^ 64) as Heqm by apply cmp_mask_range.
  destruct (check_eq_mask_loop base i (λ b, op_reject ops b x) 64 64 eqm eqm) as (m & Hm & Hr & Hbits).
  - done.
  - done.
  - intros j Hj. rewrite (set_bits_spec 64) in Hj by (done || lia).
    apply list_elem_of_filter in Hj as [_ Hj%elem_of_seq]. lia.
  - apply (set_bits_length_bound 64); [done | lia].
  - done.
  - rewrite (sk_base _ _ _ Hok), Hm. cbn [mbind result_bind].
    eexists. split; [done|]. split; [apply lor_range; [apply cmp_mask_range | done]|].
    intros j Hj. rewrite bit_at_lor, Hbits, cmp_mask_bit by done.
    assert (bool_decide (j ∈ set_bits 64 eqm) = bit_at eqm j) as ->.
    { rewrite (set_bits_spec 64) by (done || lia).
      apply bool_decide_reflects. rewrite list_elem_of_filter, elem_of_seq, Is_true_true. intuition lia. }
    unfold eqm. rewrite cmp_mask_bit by done.
    destruct (base !! (i + j)%nat) as [b|]; [|done]. cbn. f_equal.
    destruct (code b =? code_x), (op_reject ops b x); done.
Qed.

(** The mask of the block at [i]. *)
Definition block_mask (i : nat) : Z := lanes (block_pred <$> seq i 64).

Lemma block_mask_range i : 0 ≤ block_mask i < 2 ^ 64.
Proof.
  pose proof (lanes_range (block_pred <$> seq i 64)) as H.
  by rewrite length_fmap, length_seq in H.
Qed.

Lemma block_mask_bit i j : (j < 64)%nat → bit_at (block_mask i) j = block_pred (i + j).
Proof.
  intros Hj. unfold block_mask. by rewrite bit_at_lanes, list_lookup_fmap, lookup_seq_lt.
Qed.

(** One block: its mask is recorded and its rows pushed in order. *)
Lemma eval_block_ok i words d :
  (i + 64 ≤ length base)%nat →
  eval_block ops cs x code_x (words, d) i =
  (d' ← foldM sel_push d (Z.of_nat <$> filter (λ r, block_pred r) (seq i 64)); Ok (words ++ [block_mask i], d')).
Proof.
  intros Hi. destruct (block_mask_ok i Hi) as (mask & Hm & Hr & Hbits).
  assert (mask = block_mask i) as ->.
  { apply (mask_ext _ _ 64); [done | apply block_mask_range|].
    intros j Hj. by rewrite Hbits, block_mask_bit. }
  unfold eval_block. rewrite Hm. cbn [mbind result_bind fst snd].
  rewrite emit_mask_64 by done. do 2 f_equal.
  rewrite (filter_seq_shift block_pred i 64), <- list_fmap_compose.
  rewrite (filter_ext_in (λ j, bit_at (block_mask i) j) (λ j, block_pred (i + j)))
    by (intros j Hj%elem_of_seq; by rewrite Hbits by lia).
  apply list_fmap_ext. intros _ j Hj%list_elem_of_lookup_2.
  apply list_elem_of_filter in Hj as [_ Hj%elem_of_seq]. cbn. apply wrapu_small. lia.
Qed.

Lemma eval_blocks_ok a k words d :
  (64 * (a + k) ≤ length base)%nat →
  foldM (eval_block ops cs x code_x) (words, d) ((λ q, 64 * q)%nat <$> seq a k) =
  (d' ← foldM sel_push d (Z.of_nat <$> filter (λ r, block_pred r) (seq (64 * a) (64 * k)));
   Ok (words ++ ((λ q, block_mask (64 * q)) <$> seq a k), d')).
Proof.
  revert a words d; induction k as [|k IH]; intros a words d Hk.
  - by rewrite Nat.mul_0_r, app_nil_r.
  - cbn [seq fmap list_fmap foldM]. rewrite eval_block_ok by lia.
    replace (64 * S k)%nat with (64 + 64 * k)%nat by lia.
    rewrite filter_seq_app, fmap_app, foldM_app.
    destruct (foldM sel_push d _) as [d1|e]; [|done]. cbn [mbind result_bind].
    rewrite IH, <- app_assoc by lia.
    by replace (64 * S a)%nat with (64 * a + 64)%nat by lia.
Qed.

(** The remaining rows, whose bits are collected in the tail mask. *)
Lemma eval_tail_ok a k L d :
  (a + k ≤ length base)%nat →
  foldM (eval_tail_row ops cs x code_x) (lanes L, length L, d) (seq a k) =
  (d' ← foldM sel_push d (Z.of_nat <$> filter (λ r, tail_pred r) (seq a k));
   Ok (lanes (L ++ (tail_pred <$> seq a k)), (length L + k)%nat, d')).
Proof.
  revert a L d; induction k as [|k IH]; intros a L d Hk.
  { cbn. by rewrite app_nil_r, Nat.add_0_r. }
  cbn [seq foldM]. unfold eval_tail_row at 2.
  destruct (lookup_lt_is_Some_2 base a) as [b Hb]; [lia|].
  rewrite (sk_base _ _ _ Hok), (sk_sketch _ _ _ Hok).
  rewrite (vget_lookup (code <$> base) a (code b)) by (by rewrite list_lookup_fmap, Hb).
  rewrite (vget_lookup base a b Hb). cbn [mbind result_bind].
  change (op_tail ops (code b) code_x b x) with (tail_test b).
  assert (tail_pred a = tail_test b) as Ha by (unfold tail_pred; by rewrite Hb).
  specialize (IH (S a) (L ++ [tail_pred a])). rewrite length_app, Nat.add_1_r in IH.
  cbn [fmap list_fmap]. rewrite <- (assoc_L (++)) in IH. cbn [app] in IH.
  rewrite Nat.add_succ_r. destruct (tail_test b) eqn:Ht; rewrite Ha in *.
  - rewrite filter_cons_True by (by rewrite Ha). cbn [fmap list_fmap foldM].
    destruct (sel_push d (Z.of_nat a)) as [d1|]; [|done]. cbn [mbind result_bind].
    rewrite <- lanes_snoc_true. apply IH. lia.
  - rewrite filter_cons_False by (rewrite Ha; tauto). cbn [mbind result_bind].
    rewrite <- (lanes_snoc_false L). apply IH. lia.
Qed.

(** ** The general path *)

(** The row predicate of the whole evaluation. *)
Definition row_pred (r : nat) : bool :=
  if decide (r < 64 * (length base / 64))%nat then block_pred r else tail_pred r.

(** The bitmask left by the general path: one word per full block and one for
    the remaining rows, even when there are none. *)
Definition general_words : list Z :=
  ((λ q, block_mask (64 * q)) <$> seq 0 (length base / 64)) ++
  [lanes (tail_pred <$> seq (64 * (length base / 64)) (length base mod 64))].

Definition selected_rows : list nat := filter (λ r, row_pred r) (seq 0 (length base)).

Lemma selected_rows_split :
  selected_rows =
  filter (λ r, block_pred r) (seq 0 (64 * (length base / 64))) ++
  filter (λ r, tail_pred r) (seq (64 * (length base / 64)) (length base mod 64)).
Proof.
  unfold selected_rows. rewrite (Nat.div_mod_eq (length base) 64) at 1.
  rewrite filter_seq_app. f_equal; apply filter_ext_in; intros r Hr%elem_of_seq; unfold row_pred.
  - by rewrite decide_True by lia.
  - by rewrite decide_False by lia.
Qed.

Lemma length_general_words : length general_words = S (length base / 64).
Proof. unfold general_words. rewrite length_app, length_fmap, length_seq. cbn. lia. Qed.

(** The bitmask lists exactly the selected rows. *)
Lemma general_words_rows : mask_rows general_words = Z.of_nat <$> selected_rows.
Proof.
  pose proof (Nat.mod_upper_bound (length base) 64 ltac:(lia)) as Hm.
  pose proof (Nat.div_mod_eq (length base) 64) as Hd.
  set (q := (length base / 64)%nat) in *. set (t := (length base mod 64)%nat) in *.
  apply mask_rows_spec; rewrite length_general_words; fold q; [lia|]. intros r Hr.
  unfold mask_bit, general_words. fold q. fold t.
  pose proof (Nat.mod_upper_bound r 64 ltac:(lia)) as Hrm.
  pose proof (Nat.div_mod_eq r 64) as Hrd. unfold row_pred. fold q.
  destruct (decide (r < 64 * q)%nat) as [Hlt|Hge].
  - rewrite lookup_app_l by (rewrite length_fmap, length_seq; nia).
    rewrite list_lookup_fmap, lookup_seq_lt by nia. cbn [fmap option_fmap option_map from_option id Nat.add].
    rewrite block_mask_bit, bool_decide_true, <- Hrd by lia. done.
  - assert (r / 64 = q)%nat as Hq by nia.
    rewrite Hq, list_lookup_middle by (by rewrite length_fmap, length_seq).
    cbn [from_option id]. rewrite bit_at_lanes, list_lookup_fmap.
    destruct (decide (r mod 64 < t)%nat).
    + rewrite lookup_seq_lt, bool_decide_true by lia. cbn [fmap option_fmap option_map from_option id andb]. f_equal. lia.
    + rewrite lookup_seq_ge, bool_decide_false by lia. done.
Qed.
End Loops.

(** * The branch that selects every row *)

Lemma set_index_spec sel cnt cap loc :
  sel_cap sel cap → (cnt < cap)%nat →
  ∃ sel', set_index sel cnt loc = Ok sel' ∧ sel_cap sel' cap ∧
          sel_list sel' (S cnt) = sel_list sel cnt ++ [wrapu 32 loc].
Proof.
  intros Hc Hlt. destruct (sel_push_spec sel cnt cap loc Hc Hlt) as (s & Hp & ? & ?).
  unfold sel_push in Hp. cbn in Hp. apply bind_Ok_inv in Hp as (s' & Hs & [= <-]). eauto.
Qed.

(** [sel] holds the identity on its first [k] entries. *)
Definition holds_identity (sel : SelectionVector) (cap k : nat) : Prop :=
  sel_cap sel cap ∧ sel_list sel k = Z.of_nat <$> seq 0 k.

Lemma holds_identity_step sel cap k :
  holds_identity sel cap k → (k < cap)%nat → Z.of_nat cap ≤ 2 ^ 32 →
  ∃ sel', set_index sel k (Z.of_nat k) = Ok sel' ∧ holds_identity sel' cap (S k).
Proof.
  intros [Hc Hl] Hlt Hcap. destruct (set_index_spec sel k cap (Z.of_nat k) Hc Hlt) as (s & -> & Hc' & Hl').
  exists s. split; [done|]. split; [done|].
  rewrite Hl', Hl, wrapu_small, seq_S, fmap_app by lia. done.
Qed.

Lemma holds_identity_run sel cap k p :
  holds_identity sel cap k → (k + p ≤ cap)%nat → Z.of_nat cap ≤ 2 ^ 32 →
  ∃ sel', foldM (λ s j, set_index s (Z.to_nat (Z.of_nat k + Z.of_nat j)) (Z.of_nat k + Z.of_nat j))
                sel (seq 0 p) = Ok sel' ∧ holds_identity sel' cap (k + p).
Proof.
  intros Hh Hle Hcap. induction p as [|p IH].
  - exists sel. by rewrite Nat.add_0_r.
  - destruct IH as (s1 & Hs1 & Hh1); [lia|].
    destruct (holds_identity_step s1 cap (k + p) Hh1) as (s2 & Hs2 & Hh2); [lia | done|].
    exists s2. rewrite seq_S, foldM_app, Hs1. cbn [mbind result_bind foldM Nat.add].
    rewrite <- Nat2Z.inj_add, Nat2Z.id, Hs2. by rewrite Nat.add_succ_r.
Qed.

Lemma fill16_ok fuel sel m k :
  holds_identity sel m k → (k ≤ m)%nat → (m < k + 16 * fuel)%nat → Z.of_nat m ≤ 32767 →
  ∃ k' sel', fill16 fuel (Z.of_nat k) (Z.of_nat m) sel = Ok (Z.of_nat k', sel') ∧
             (k' ≤ m)%nat ∧ holds_identity sel' m k'.
Proof.
  revert sel k; induction fuel as [|f IH]; intros sel k Hh Hk Hf Hm; [lia|]. cbn [fill16].
  rewrite wrapu_small by lia.
  destruct (Z.leb_spec (Z.of_nat k + 16) (Z.of_nat m)) as [Hle|Hgt].
  - destruct (holds_identity_run sel m k 16 Hh) as (s1 & -> & Hh1); [lia | lia|].
    cbn [mbind result_bind]. rewrite wraps_small by lia.
    change 16 with (Z.of_nat 16) at 1. rewrite <- Nat2Z.inj_add.
    apply IH; [done | lia | lia | done].
  - by exists k, sel.
Qed.

Lemma fill1_ok fuel sel m k :
  holds_identity sel m k → (k ≤ m)%nat → (m < k + fuel)%nat → Z.of_nat m ≤ 32767 →
  ∃ sel', fill1 fuel (Z.of_nat k) (Z.of_nat m) sel = Ok sel' ∧ holds_identity sel' m m.
Proof.
  revert sel k; induction fuel as [|f IH]; intros sel k Hh Hk Hf Hm; [lia|]. cbn [fill1].
  rewrite wrapu_small by lia.
  destruct (Z.ltb_spec (Z.of_nat k) (Z.of_nat m)) as [Hlt|Hge].
  - rewrite Nat2Z.id. destruct (holds_identity_step sel m k Hh) as (s1 & -> & Hh1); [lia | lia|].
    cbn [mbind result_bind].
    destruct (decide (Z.of_nat k + 1 = 32767)) as [He|Hne].
    + replace (wraps 16 (Z.of_nat k + 1)) with (Z.of_nat (S k)) by (rewrite wraps_small; lia).
      apply IH; [done | lia | lia | done].
    + rewrite wraps_small by lia. replace (Z.of_nat k + 1) with (Z.of_nat (S k)) by lia.
      apply IH; [done | lia | lia | done].
  - exists sel. by replace m with k at 2 by lia.
Qed.

Lemma full_bitmask_rows m : mask_rows (full_bitmask m) = Z.of_nat <$> seq 0 m.
Proof.
  pose proof (Nat.mod_upper_bound m 64 ltac:(lia)) as Hm.
  pose proof (Nat.div_mod_eq m 64) as Hd.
  assert (length (full_bitmask m) = (m + 63) / 64)%nat as Hl.
  { unfold full_bitmask. case_decide; by rewrite ?length_insert, length_replicate. }
  assert (m ≤ 64 * ((m + 63) / 64) < m + 64)%nat as Hc.
  { pose proof (Nat.div_mod_eq (m + 63) 64). pose proof (Nat.mod_upper_bound (m + 63) 64 ltac:(lia)). lia. }
  etrans; [apply (mask_rows_spec _ m (λ _, true)) | by rewrite filter_all].
  { rewrite Hl. lia. }
  intros r Hr. rewrite Hl in Hr. rewrite andb_true_r.
  set (c := ((m + 63) / 64)%nat) in *.
  pose proof (Nat.mod_upper_bound r 64 ltac:(lia)) as Hrm.
  pose proof (Nat.div_mod_eq r 64) as Hrd. unfold mask_bit, full_bitmask. fold c.
  assert (∀ j, (j < 64)%nat → bit_at UINT64_MAX j = true) as Hones.
  { intros j Hj. change UINT64_MAX with (Z.ones 64). unfold bit_at.
    by rewrite Z.ones_spec_low by lia. }
  case_decide as Hr0.
  - rewrite lookup_replicate_2 by lia. cbn [from_option id]. rewrite Hones, bool_decide_true by lia. done.
  - destruct (decide (r / 64 = c - 1)%nat) as [He|Hne].
    + rewrite He, list_lookup_insert_eq by (rewrite length_replicate; lia). cbn [from_option id].
      change (Z.shiftl 1 (Z.of_nat (m mod 64)) - 1) with (Z.ones (Z.of_nat (m mod 64))).
      unfold bit_at. rewrite Z.testbit_ones_nonneg by lia. symmetry. apply bool_decide_reflects. lia.
    + rewrite list_lookup_insert_ne, lookup_replicate_2 by lia. cbn [from_option id].
      rewrite Hones, bool_decide_true by lia. done.
Qed.

(** * The evaluators *)

(** [r] is the answer [rows]: the count, the selection vector and the bitmask
    all list exactly these rows, in order. *)
Record answers (r : Z * ManagedSelection) (rows : list nat) : Prop := {
  ans_count : r.1 = Z.of_nat (length rows);
  ans_msel : count r.2 = length rows;
  ans_sel : sel_list (sel_vec r.2) (count r.2) = Z.of_nat <$> rows;
  ans_mask : mask_rows (bitmask r.2) = Z.of_nat <$> rows;
}.

Section Evaluate.
Context (base : list Z) (cs : ColumnSketch) (Hok : sketch_ok 8 base cs).
Context (Hlen : Z.of_nat (length base) ≤ 32767).
Context (ops : avx512_ops) (x : Z) (msel : ManagedSelection).

Lemma as_idx_int32_small n : Z.of_nat n ≤ 32767 → as_idx_int32 n = Z.of_nat n.
Proof. intros. unfold as_idx_int32. rewrite wraps_small, wrapu_small; lia. Qed.

Lemma evaluate_none : op_none ops cs x = true → evaluate_avx512 ops cs x msel = Ok (0, msel).
Proof.
  intros H. unfold evaluate_avx512.
  by rewrite bool_decide_false, H by (by eapply endpoints_nonempty).
Qed.

Lemma evaluate_all :
  op_none ops cs x = false → op_all ops cs x = true →
  ∃ r, evaluate_avx512 ops cs x msel = Ok r ∧ answers r (seq 0 (length base)) ∧
       bitmask r.2 = full_bitmask (length base).
Proof.
  intros Hn Ha. unfold evaluate_avx512.
  rewrite bool_decide_false, Hn, Ha by (by eapply endpoints_nonempty). cbn [negb andb].
  unfold select_all. rewrite (sk_base _ _ _ Hok). cbn [sel_vec set_sel_vec].
  set (n := length base) in *.
  assert (holds_identity (SelectionVector_Initialize n) n 0) as H0 by (split; [apply sel_cap_Initialize | done]).
  destruct (fill16_ok (S n) _ n 0 H0) as (k & s1 & Hf1 & Hk & H1); [lia | lia | lia|].
  change (Z.of_nat 0) with 0 in Hf1. rewrite Hf1. cbn [mbind result_bind].
  destruct (fill1_ok (S n) s1 n k H1) as (s2 & -> & [_ H2]); [lia | lia | lia|].
  cbn [mbind result_bind]. eexists. split; [done|]. split; [|done].
  split; cbn [fst snd count bitmask sel_vec SetCount set_bitmask set_sel_vec].
  - rewrite length_seq. by apply as_idx_int32_small.
  - by rewrite length_seq.
  - done.
  - apply full_bitmask_rows.
Qed.

Lemma evaluate_general :
  op_none ops cs x = false → op_all ops cs x = false →
  ∃ r, evaluate_avx512 ops cs x msel = Ok r ∧ answers r (selected_rows base cs ops x) ∧
       bitmask r.2 = general_words base cs ops x.
Proof.
  intros Hn Ha. unfold evaluate_avx512.
  rewrite bool_decide_false, Hn, Ha by (by eapply endpoints_nonempty). cbn [negb andb].
  rewrite (sk_base _ _ _ Hok), (sketch_length _ _ _ Hok). cbn [sel_vec set_sel_vec].
  pose proof (Nat.div_mod_eq (length base) 64) as Hd.
  unfold block_starts.
  rewrite (eval_blocks_ok base cs Hok ltac:(lia) ops x) by lia. rewrite Nat.mul_0_r.
  set (R1 := filter (λ r, block_pred base cs ops x r) _).
  set (R2 := filter (λ r, tail_pred base cs ops x r) (seq (64 * (length base / 64)) (length base mod 64))).
  assert (selected_rows base cs ops x = R1 ++ R2) as HR by apply selected_rows_split.
  assert (length (R1 ++ R2) ≤ length base)%nat as HRl.
  { rewrite <- HR. unfold selected_rows. etrans; [apply length_filter|]. by rewrite length_seq. }
  rewrite length_app in HRl.
  destruct (sel_push_all (SelectionVector_Initialize (length base)) 0 (length base) (Z.of_nat <$> R1))
    as (s1 & -> & Hc1 & Hl1); [apply sel_cap_Initialize | rewrite length_fmap; lia|].
  cbn [mbind result_bind app]. rewrite Nat.add_0_l, length_fmap in *.
  pose proof (eval_tail_ok base cs Hok ops x (64 * (length base / 64)) (length base mod 64) [] (s1, length R1)) as Ht.
  change (lanes []) with 0 in Ht. cbn [length] in Ht. rewrite Ht by lia. fold R2.
  destruct (sel_push_all s1 (length R1) (length base) (Z.of_nat <$> R2))
    as (s2 & -> & _ & Hl2); [done | rewrite length_fmap; lia|].
  rewrite length_fmap in *. cbn [mbind result_bind app fst snd].
  assert (length (selected_rows base cs ops x) = length R1 + length R2)%nat as Hsl by (by rewrite HR, length_app).
  eexists. split; [done|]. split; [|done].
  split; cbn [fst snd count bitmask sel_vec SetCount set_bitmask set_sel_vec].
  - rewrite Hsl. apply as_idx_int32_small. lia.
  - done.
  - rewrite Hl2, Hl1, HR, fmap_app. rewrite sel_list_0. cbn [app].
    rewrite <- !list_fmap_compose. f_equal; apply list_fmap_ext; intros i r Hr%list_elem_of_lookup_2;
      cbn [compose]; apply wrapu_small; assert (r < length base)%nat; try lia.
    + apply list_elem_of_filter in Hr as [_ Hr%elem_of_seq]. lia.
    + apply list_elem_of_filter in Hr as [_ Hr%elem_of_seq]. lia.
  - apply general_words_rows.
Qed.
End Evaluate.
