(* ===== verification/SketchProps.v ===== *)
(** The correctness theorems of the column sketch evaluators. *)
From S2P Require Import Prelude Bits SelectionVector ColumnSketch SketchFacts SketchAvx.

(** The AVX-512 evaluators leave the selection untouched when they return
    early with 0; otherwise the count, the selection vector and the bitmask
    describe the answer. *)
Definition evaluates_to (e : result (Z * ManagedSelection)) (msel : ManagedSelection) (rows : list nat) : Prop :=
  ∃ r, e = Ok r ∧ r.1 = Z.of_nat (length rows) ∧ (r = (0, msel) ∨ answers r rows).

Section Exactness.
Context (base : list Z) (cs : ColumnSketch) (Hok : sketch_ok 8 base cs).
Context (Hlen : Z.of_nat (length base) ≤ 32767) (x : Z) (msel : ManagedSelection).

(** The three branches of an evaluator against a row test [P]. *)
Lemma evaluates_by_branches ops P :
  (op_none ops cs x = true → ∀ b, b ∈ base → P b = false) →
  (op_all ops cs x = true → ∀ b, b ∈ base → P b = true) →
  (op_none ops cs x = false → op_all ops cs x = false →
   ∀ r b, base !! r = Some b → row_pred base cs ops x r = P b) →
  evaluates_to (evaluate_avx512 ops cs x msel) msel (row_ids P base).
Proof.
  intros Hnone Hall Hgen. destruct (op_none ops cs x) eqn:Hn.
  - rewrite row_ids_none by auto. exists (0, msel). split; [by eapply evaluate_none|]. split; [done | by left].
  - destruct (op_all ops cs x) eqn:Ha.
    + rewrite row_ids_all by auto.
      destruct (evaluate_all base cs Hok Hlen ops x msel Hn Ha) as (r & Hr & Hans & _).
      exists r. split; [done|]. split; [apply Hans | by right].
    + destruct (evaluate_general base cs Hok Hlen ops x msel Hn Ha) as (r & Hr & Hans & _).
      assert (selected_rows base cs ops x = row_ids P base) as Hsel.
      { apply filter_ext_in. intros i Hi%elem_of_seq.
        destruct (lookup_lt_is_Some_2 base i) as [b Hb]; [lia|]. rewrite (Hgen eq_refl eq_refl i b Hb), Hb. done. }
      rewrite Hsel in Hans. exists r. split; [done|]. split; [apply Hans | by right].
Qed.

Lemma row_pred_lookup ops r b :
  base !! r = Some b →
  row_pred base cs ops x r = block_test cs ops x b ∨ row_pred base cs ops x r = tail_test cs ops x b.
Proof.
  intros Hb. unfold row_pred, block_pred, tail_pred. rewrite Hb. case_decide; auto.
Qed.

Lemma less_than_exact :
  need_check_base cs = true ∨ Z.of_nat (length base) ≤ 256 →
  evaluates_to (evaluate_less_than_AVX512 cs x msel) msel (row_ids (λ b, b <? x) base).
Proof.
  intros Hcond. apply evaluates_by_branches; cbn [op_none op_all less_than_ops].
  - intros Hn b Hb. pose proof (sk_bounds _ _ _ Hok b Hb). lia.
  - intros Ha b Hb. pose proof (sk_bounds _ _ _ Hok b Hb). lia.
  - intros _ Ha r b Hb. assert (b ∈ base) as Hin by (by eapply list_elem_of_lookup_2).
    pose proof (sk_bounds _ _ _ Hok b Hin) as [Hb1 Hb2].
    pose proof (row_test_lt 8 base cs Hok x b Hb2 ltac:(lia)) as Ht.
    pose proof (code_lt_value 8 base cs Hok b x Hb2 ltac:(lia)) as Hlt.
    pose proof (code_lt_value 8 base cs Hok x b ltac:(lia) Hb2) as Hgt.
    destruct (row_pred_lookup less_than_ops r b Hb) as [-> | ->]; [|exact Ht].
    unfold block_test. cbn [op_cmp op_cmp_unchecked op_reject less_than_ops].
    destruct (need_check_base cs); cbn [negb].
    + rewrite <- Z.ltb_antisym. exact Ht.
    + destruct Hcond as [?|Hsmall]; [done|].
      pose proof (small_bucket 8 base cs Hok x b Hsmall Hin ltac:(lia)) as Hbk.
      destruct (Z.lt_trichotomy (code_of 8 (endpoints_ cs) b) (code_of 8 (endpoints_ cs) x)) as [?|[He|?]]; [lia | | lia].
      pose proof (lower_bound_at _ _ _ (Hbk He)). lia.
Qed.

Lemma greater_than_exact :
  need_check_base cs = true ∨ (Z.of_nat (length base) ≤ 256 ∧ x ∈ base) →
  evaluates_to (evaluate_greater_than_AVX512 cs x msel) msel (row_ids (λ b, x <? b) base).
Proof.
  intros Hcond. apply evaluates_by_branches; cbn [op_none op_all greater_than_ops].
  - intros Hn b Hb. pose proof (sk_bounds _ _ _ Hok b Hb). lia.
  - intros Ha b Hb. pose proof (sk_bounds _ _ _ Hok b Hb). lia.
  - intros Hn Ha r b Hb. assert (b ∈ base) as Hin by (by eapply list_elem_of_lookup_2).
    pose proof (sk_bounds _ _ _ Hok b Hin) as [Hb1 Hb2].
    pose proof (row_test_gt 8 base cs Hok x b Hb2 ltac:(lia)) as Ht.
    pose proof (code_lt_value 8 base cs Hok b x Hb2 ltac:(lia)) as Hlt.
    pose proof (code_lt_value 8 base cs Hok x b ltac:(lia) Hb2) as Hgt.
    destruct (row_pred_lookup greater_than_ops r b Hb) as [-> | ->]; [|exact Ht].
    unfold block_test. cbn [op_cmp op_cmp_unchecked op_reject greater_than_ops].
    destruct (need_check_base cs); cbn [negb].
    + rewrite <- Z.ltb_antisym. exact Ht.
    + destruct Hcond as [?|[Hsmall Hxin]]; [done|].
      pose proof (small_bucket 8 base cs Hok x b Hsmall Hin ltac:(lia)) as Hbk.
      destruct (Z.lt_trichotomy (code_of 8 (endpoints_ cs) b) (code_of 8 (endpoints_ cs) x)) as [?|[He|?]]; [lia | | lia].
      pose proof (small_bucket 8 base cs Hok x x Hsmall Hxin ltac:(lia) eq_refl) as Hx.
      rewrite (Hbk He) in Hx. injection Hx as ->. lia.
Qed.

(** A conservative answer: the call returns rows in increasing order that
    contain every row with [must] and only rows with [may]. *)
Definition evaluates_within (e : result (Z * ManagedSelection)) (must may : Z → Prop) : Prop :=
  ∃ r rows, e = Ok r ∧ r.1 = Z.of_nat (length rows) ∧ (r = (0, msel) ∨ answers r rows) ∧
    rows `sublist_of` seq 0 (length base) ∧
    ∀ i b, base !! i = Some b → (must b → i ∈ rows) ∧ (i ∈ rows → may b).

Lemma within_by_branches ops (must may : Z → Prop) :
  (op_none ops cs x = true → ∀ b, b ∈ base → ¬ must b) →
  (op_all ops cs x = true → ∀ b, b ∈ base → may b) →
  (op_none ops cs x = false → op_all ops cs x = false → ∀ b, b ∈ base →
   (must b → block_test cs ops x b = true ∧ tail_test cs ops x b = true) ∧
   (block_test cs ops x b = true ∨ tail_test cs ops x b = true → may b)) →
  evaluates_within (evaluate_avx512 ops cs x msel) must may.
Proof.
  intros Hnone Hall Hgen.
  assert (∀ i b, base !! i = Some b → b ∈ base ∧ i ∈ seq 0 (length base)) as Hrow.
  { intros i b Hb. split; [by eapply list_elem_of_lookup_2|]. apply elem_of_seq. apply lookup_lt_Some in Hb. lia. }
  destruct (op_none ops cs x) eqn:Hn; [|destruct (op_all ops cs x) eqn:Ha].
  - exists (0, msel), []. split; [by eapply evaluate_none|]. split_and!; [done | by left | apply sublist_nil_l|].
    intros i b Hb. destruct (Hrow i b Hb) as [Hin _]. specialize (Hnone eq_refl b Hin). set_solver.
  - destruct (evaluate_all base cs Hok Hlen ops x msel Hn Ha) as (r & Hr & Hans & _).
    exists r, (seq 0 (length base)). split_and!; [done | apply Hans | by right | done|].
    intros i b Hb. destruct (Hrow i b Hb) as [Hin Hi]. auto.
  - destruct (evaluate_general base cs Hok Hlen ops x msel Hn Ha) as (r & Hr & Hans & _).
    exists r, (selected_rows base cs ops x).
    split_and!; [done | apply Hans | by right | apply sublist_filter|].
    intros i b Hb. destruct (Hrow i b Hb) as [Hin Hi]. destruct (Hgen eq_refl eq_refl b Hin) as [H1 H2].
    unfold selected_rows. rewrite list_elem_of_filter.
    destruct (row_pred_lookup ops i b Hb) as [-> | ->]; rewrite Is_true_true; naive_solver.
Qed.

(** [code_facts b] puts the order facts of the codes of [b] and [x] in the
    context and leaves the tests to arithmetic. *)
Ltac code_facts b Hin :=
  pose proof (sk_bounds _ _ _ Hok b Hin);
  pose proof (code_lt_value 8 base cs Hok b x ltac:(lia) ltac:(lia));
  pose proof (code_lt_value 8 base cs Hok x b ltac:(lia) ltac:(lia));
  unfold block_test, tail_test;
  cbn [op_cmp op_cmp_unchecked op_reject op_tail lessthan_orequal_ops greaterthan_orequal_ops];
  destruct (need_check_base cs); cbn [negb]; lia.

Lemma lessthan_orequal_within :
  evaluates_within (evaluate_lessthan_orequal_avx512 cs x msel) (λ b, b ≤ x)
    (λ b, b ≤ x ∨ code_of 8 (endpoints_ cs) b = code_of 8 (endpoints_ cs) x).
Proof.
  apply within_by_branches; cbn [op_none op_all lessthan_orequal_ops].
  - intros Hn b Hb. pose proof (sk_bounds _ _ _ Hok b Hb). lia.
  - intros Ha b Hb. pose proof (sk_bounds _ _ _ Hok b Hb). lia.
  - intros Hn Ha b Hb. code_facts b Hb.
Qed.

Lemma greaterthan_orequal_within :
  evaluates_within (evaluate_greaterthan_orequal_avx512 cs x msel) (λ b, x ≤ b)
    (λ b, x ≤ b ∨ code_of 8 (endpoints_ cs) b = code_of 8 (endpoints_ cs) x).
Proof.
  apply within_by_branches; cbn [op_none op_all greaterthan_orequal_ops].
  - intros Hn b Hb. pose proof (sk_bounds _ _ _ Hok b Hb). lia.
  - intros Ha b Hb. pose proof (sk_bounds _ _ _ Hok b Hb). lia.
  - intros Hn Ha b Hb. code_facts b Hb.
Qed.
End Exactness.

(** * The evaluators on a built sketch *)

(** C4.  Building a sketch over a non-empty column always succeeds, and the
    result satisfies the sketch invariant: the sketch column holds the code of
    every row, the endpoints are sorted values of the column that include the
    maximum, there are between 1 and [2^cw] of them, [min_data_] and
    [max_data_] bound the column, and with at most [2^cw] rows the endpoints
    are the whole sorted column. *)
Theorem sketch_build_ok (cw : Z) (base : list Z) :
  0 ≤ cw → base ≠ [] → Z.of_nat (length base) < 2 ^ 32 →
  ∃ cs, ColumnSketch_new cw base = Ok cs ∧ sketch_ok cw base cs.
Proof. intros. by apply ColumnSketch_new_ok. Qed.

Lemma sketch_build_ok_witness :
  ∃ cs, ColumnSketch_new 8 [30; 10; 20; 10] = Ok cs ∧ sketch_ok 8 [30; 10; 20; 10] cs.
Proof. apply (sketch_build_ok 8 [30; 10; 20; 10]); [lia | done | cbn; lia]. Defined.

(** The codes preserve the order of the values: up to the maximum of the
    column a larger value never has a smaller code, and a smaller code means a
    smaller value, so a code comparison decides every row outside the bucket
    of the constant. *)
Theorem sketch_codes_order_preserving (cw : Z) (base : list Z) (cs : ColumnSketch) (a b : Z) :
  0 ≤ cw → Z.of_nat (length base) < 2 ^ 32 → ColumnSketch_new cw base = Ok cs →
  a ≤ max_data_ cs → b ≤ max_data_ cs →
  (a ≤ b → code_of cw (endpoints_ cs) a ≤ code_of cw (endpoints_ cs) b) ∧
  (code_of cw (endpoints_ cs) a < code_of cw (endpoints_ cs) b → a < b).
Proof.
  intros Hcw Hlen Hnew Ha Hb. destruct (ColumnSketch_new_inv cw base cs Hcw Hlen Hnew) as [_ Hok].
  split; [|by eapply code_lt_value].
  intros Hab. rewrite !(code_nowrap cw base cs Hok) by done.
  pose proof (lower_bound_mono (endpoints_ cs) a b Hab). lia.
Qed.

(** The sketch of a column, for the worked examples. *)
Definition built (base : list Z) : ColumnSketch :=
  match ColumnSketch_new 8 base with Ok cs => cs | Throw _ => mkSketch [] [] [] 0 false 0 0 end.


(** The scalar evaluators of a built sketch return exactly the matching
    rows, in row order: [evaluate_less_than_CPU], [evaluate_equal] and
    [evaluate_between] for every constant, [evaluate_greater_than_CPU] for a
    constant up to the maximum, or for any constant when the column has fewer
    rows than codes (beyond the maximum the code of the constant wraps). *)
Theorem scalar_evaluators_exact (cw : Z) (base : list Z) (cs : ColumnSketch) (x y : Z) :
  0 ≤ cw → Z.of_nat (length base) < 2 ^ 32 → ColumnSketch_new cw base = Ok cs →
  evaluate_less_than_CPU cw cs x = Ok (rows_where (λ b, b <? x) base) ∧
  evaluate_equal cw cs x = Ok (rows_where (λ b, b =? x) base) ∧
  evaluate_between cs x y = Ok (rows_where (λ b, (x <=? b) && (b <=? y)) base) ∧
  (x ≤ max_data_ cs ∨ Z.of_nat (length base) < 2 ^ cw →
   evaluate_greater_than_CPU cw cs x = Ok (rows_where (λ b, x <? b) base)).
Proof.
  intros Hcw Hlen Hnew. destruct (ColumnSketch_new_inv cw base cs Hcw Hlen Hnew) as [_ Hok].
  split_and!; [by apply less_than_CPU_ok | by apply equal_ok | by eapply between_ok | by apply greater_than_CPU_ok].
Qed.


(** C5.  [evaluate_less_than_AVX512] is exact on a column of at most 32767 rows
    (a sketch of the program covers one vector) whenever it consults the base data
    or the column has at most 256 rows: it returns without undefined behaviour, the
    count is the number of rows below the constant, and the selection vector and
    the bitmask list exactly these rows in order (or, on the early exit, the count
    is 0 and there is no such row).  The bound is that of the 16-bit counter of the
    branch that selects every row; on more than 32768 rows it leaves entries of the
    selection unwritten ([less_than_counter_wraps]). *)
Theorem avx512_less_than_exact (base : list Z) (cs : ColumnSketch) (x : Z) (msel : ManagedSelection) :
  Z.of_nat (length base) ≤ 32767 → ColumnSketch_new 8 base = Ok cs →
  need_check_base cs = true ∨ Z.of_nat (length base) ≤ 256 →
  evaluates_to (evaluate_less_than_AVX512 cs x msel) msel (row_ids (λ b, b <? x) base).
Proof.
  intros Hlen Hnew. destruct (ColumnSketch_new_inv 8 base cs ltac:(lia) ltac:(lia) Hnew) as [_ Hok].
  by apply less_than_exact.
Qed.

Lemma avx512_less_than_exact_witness :
  evaluates_to (evaluate_less_than_AVX512 (built [30; 10; 20; 10]) 20 (ManagedSelection_new 0 false))
    (ManagedSelection_new 0 false) [1%nat; 3%nat].
Proof.
  apply (avx512_less_than_exact [30; 10; 20; 10] (built [30; 10; 20; 10]) 20 (ManagedSelection_new 0 false));
    [cbn; lia | vm_compute; reflexivity | right; cbn; lia].
Defined.

(** [evaluate_greater_than_AVX512] is exact whenever it consults the base
    data, or when every row has a code of its own and the constant occurs in
    the column. *)
Theorem avx512_greater_than_exact (base : list Z) (cs : ColumnSketch) (x : Z) (msel : ManagedSelection) :
  Z.of_nat (length base) ≤ 32767 → ColumnSketch_new 8 base = Ok cs →
  need_check_base cs = true ∨ (Z.of_nat (length base) ≤ 256 ∧ x ∈ base) →
  evaluates_to (evaluate_greater_than_AVX512 cs x msel) msel (row_ids (λ b, x <? b) base).
Proof.
  intros Hlen Hnew. destruct (ColumnSketch_new_inv 8 base cs ltac:(lia) ltac:(lia) Hnew) as [_ Hok].
  by apply greater_than_exact.
Qed.


(** The inclusive AVX-512 evaluators never lose a row: every row with
    [b <= x] (respectively [x <= b]) is returned, and a row returned in excess
    shares the code of the constant, so it lies in the constant's bucket. *)
Theorem avx512_inclusive_conservative (base : list Z) (cs : ColumnSketch) (x : Z) (msel : ManagedSelection) :
  Z.of_nat (length base) ≤ 32767 → ColumnSketch_new 8 base = Ok cs →
  evaluates_within base msel (evaluate_lessthan_orequal_avx512 cs x msel) (λ b, b ≤ x)
    (λ b, b ≤ x ∨ code_of 8 (endpoints_ cs) b = code_of 8 (endpoints_ cs) x) ∧
  evaluates_within base msel (evaluate_greaterthan_orequal_avx512 cs x msel) (λ b, x ≤ b)
    (λ b, x ≤ b ∨ code_of 8 (endpoints_ cs) b = code_of 8 (endpoints_ cs) x).
Proof.
  intros Hlen Hnew. destruct (ColumnSketch_new_inv 8 base cs ltac:(lia) ltac:(lia) Hnew) as [_ Hok].
  split; [by apply lessthan_orequal_within | by apply greaterthan_orequal_within].
Qed.


(** C36.  Where the AVX-512 evaluator consults the base data it agrees with the
    scalar evaluator on a column of at most 32767 rows, the range of its 16-bit
    counter: same count, and (unless it is 0) the same row list in its selection
    vector and in its bitmask. *)
Theorem avx512_less_than_matches_scalar (base : list Z) (cs : ColumnSketch) (x : Z) (msel : ManagedSelection) :
  Z.of_nat (length base) ≤ 32767 → ColumnSketch_new 8 base = Ok cs → need_check_base cs = true →
  ∃ cnt msel' l, evaluate_less_than_AVX512 cs x msel = Ok (cnt, msel') ∧
    evaluate_less_than_CPU 8 cs x = Ok l ∧ cnt = Z.of_nat (length l) ∧
    (cnt ≠ 0 → sel_list (sel_vec msel') (count msel') = l ∧ mask_rows (bitmask msel') = l).
Proof.
  intros Hlen Hnew Hcheck. destruct (ColumnSketch_new_inv 8 base cs ltac:(lia) ltac:(lia) Hnew) as [_ Hok].
  destruct (less_than_exact base cs Hok Hlen x msel (or_introl Hcheck)) as ([cnt msel'] & He & Hc & Hr). cbn in Hc.
  exists cnt, msel', (rows_where (λ b, b <? x) base). split; [done|].
  split; [apply less_than_CPU_ok; [done | lia]|]. split; [unfold rows_where; by rewrite length_fmap|].
  intros Hnz. destruct Hr as [[= -> _]|[_ _ Hs Hm]]; [done|]. done.
Qed.

Lemma avx512_less_than_matches_scalar_witness :
  let cs := built (Z.of_nat <$> seq 0 300) in let msel := ManagedSelection_new 0 false in
  ∃ cnt msel' l, evaluate_less_than_AVX512 cs 7 msel = Ok (cnt, msel') ∧
    evaluate_less_than_CPU 8 cs 7 = Ok l ∧ cnt = Z.of_nat (length l) ∧
    (cnt ≠ 0 → sel_list (sel_vec msel') (count msel') = l ∧ mask_rows (bitmask msel') = l).
Proof.
  apply (avx512_less_than_matches_scalar (Z.of_nat <$> seq 0 300) (built (Z.of_nat <$> seq 0 300)) 7
    (ManagedSelection_new 0 false)); [vm_compute; discriminate | vm_compute; reflexivity | vm_compute; reflexivity].
Defined.

(** * Where the evaluators lose or add rows *)

(** The count an evaluator returns. *)
Definition count_of (e : result (Z * ManagedSelection)) : option Z :=
  match e with Ok r => Some r.1 | Throw _ => None end.

(** ** The 16-bit counter *)

(** The entries from 32768 on were never written. *)
Definition unwritten (m : nat) (sel : SelectionVector) : Prop :=
  ∃ buf, sel_vector sel = Some buf ∧ length buf = m ∧ ∀ j, 32768 ≤ Z.of_nat j → (j < m)%nat → buf !! j = Some SEL_UNSET.

Lemma set_index_unwritten m sel i loc : unwritten m sel → Z.of_nat i < 32768 → (i < m)%nat → ∃ sel', set_index sel i loc = Ok sel' ∧ unwritten m sel'.
Proof.
  intros (buf & Hb & Hl & Hu) Hi Hm. unfold set_index. rewrite Hb, vset_lt by lia. eexists. split; [done|].
  eexists. split; [done|]. rewrite length_insert. split; [done|]. intros j Hj Hjm. rewrite list_lookup_insert_ne by lia. by apply Hu.
Qed.

Lemma store16_unwritten m sel k p : unwritten m sel → 0 ≤ k → k + Z.of_nat p ≤ 32768 → k + Z.of_nat p ≤ Z.of_nat m →
  ∃ sel', foldM (λ s j, set_index s (Z.to_nat (k + Z.of_nat j)) (k + Z.of_nat j)) sel (seq 0 p) = Ok sel' ∧ unwritten m sel'.
Proof.
  intros Hu Hk Hp Hm. induction p as [|p IH]; [by exists sel|]. destruct IH as (s1 & E1 & H1); [lia.. |].
  destruct (set_index_unwritten m s1 (Z.to_nat (k + Z.of_nat p)) (k + Z.of_nat p) H1) as (s2 & E2 & H2); [lia.. |].
  exists s2. rewrite seq_S, foldM_app, E1. cbn [mbind result_bind foldM Nat.add]. by rewrite E2.
Qed.

(** The counter wraps around to -32768, which is a large number when it is
    compared with the number of rows. *)
Lemma fill16_wraps fuel m sel q : unwritten m sel → 0 ≤ q < 2048 → 2048 - q ≤ Z.of_nat fuel → 32768 < Z.of_nat m < 2 ^ 31 →
  ∃ sel', fill16 fuel (16 * q) (Z.of_nat m) sel = Ok (-32768, sel') ∧ unwritten m sel'.
Proof.
  revert sel q. induction fuel as [|fuel IH]; intros sel q Hu Hq Hf Hm; [lia|]. cbn [fill16].
  rewrite wrapu_small, (proj2 (Z.leb_le _ _)) by lia. destruct (store16_unwritten m sel (16 * q) 16 Hu) as (s1 & -> & H1); [lia.. |]. cbn [mbind result_bind].
  destruct (decide (q = 2047)) as [->|Hne].
  - exists s1. change (wraps 16 (16 * 2047 + 16)) with (-32768). destruct fuel; cbn [fill16]; change (wrapu 64 (-32768 + 16)) with 18446744073709518864; by rewrite (proj2 (Z.leb_gt _ _)) by lia.
  - rewrite wraps_small by lia. replace (16 * q + 16) with (16 * (q + 1)) by lia. apply IH; [done | lia..].
Qed.

(** On a column of more than 32768 rows that all lie below the constant, the
    evaluator counts all rows, but the selection ends at row 32767: the other
    entries keep whatever was in the memory of the selection vector. *)
Lemma less_than_counter_wraps base cs x msel :
  sketch_ok 8 base cs → max_data_ cs < x → min_data_ cs < x → 32768 < Z.of_nat (length base) < 2 ^ 31 →
  ∃ msel', evaluate_less_than_AVX512 cs x msel = Ok (Z.of_nat (length base), msel') ∧ count msel' = length base ∧ unwritten (length base) (sel_vec msel').
Proof.
  intros Hok Hmax Hmin Hm. unfold evaluate_less_than_AVX512, evaluate_avx512. rewrite bool_decide_false by (by eapply endpoints_nonempty).
  cbn [negb andb op_none op_all less_than_ops]. rewrite (proj2 (Z.leb_gt _ _)), (proj2 (Z.ltb_lt _ _)) by lia.
  unfold select_all. rewrite (sk_base _ _ _ Hok). cbn [sel_vec set_sel_vec].
  destruct (fill16_wraps (S (length base)) (length base) (SelectionVector_Initialize (length base)) 0) as (s1 & E1 & H1); [|lia.. |].
  { eexists. split; [done|]. unfold SelectionData_new. rewrite length_replicate. split; [done|]. intros j _ Hj. by apply lookup_replicate_2. }
  change (16 * 0) with 0 in E1. rewrite E1. cbn [mbind result_bind fill1]. change (wrapu 64 (-32768)) with 18446744073709518848. rewrite (proj2 (Z.ltb_ge _ _)) by lia. cbn [mbind result_bind].
  replace (as_idx_int32 (length base)) with (Z.of_nat (length base)) by (unfold as_idx_int32; rewrite wraps_small, wrapu_small; lia). eexists. split; [reflexivity|]. split; [reflexivity | exact H1].
Qed.

(** ** Missing and additional rows *)

(** Without the base check the less-than evaluator drops the rows that share
    the bucket of the constant: 512 rows, three distinct values, constant 2;
    row 0 holds 1 and is not returned. *)
Lemma less_than_unchecked_misses :
  let base := 1 :: 2 :: replicate 510 3 in
  count_of (evaluate_less_than_AVX512 (built base) 2 (ManagedSelection_new 0 false)) = Some 0 ∧
  row_ids (λ b, b <? 2) base = [0%nat].
Proof. vm_compute. split; reflexivity. Qed.

(** Without the base check the greater-than evaluator drops the bucket that
    contains a constant absent from the column: 64 rows of 10 and 20, constant
    15. *)
Lemma greater_than_unchecked_misses :
  let base := concat (replicate 32 [10; 20]) in
  count_of (evaluate_greater_than_AVX512 (built base) 15 (ManagedSelection_new 0 false)) = Some 0 ∧
  length (row_ids (λ b, 15 <? b) base) = 32%nat.
Proof. vm_compute. split; reflexivity. Qed.

(** Beyond the maximum the code of the constant wraps to 0 on a column with
    256 codes, and the scalar greater-than returns almost every row. *)
Lemma greater_than_CPU_wraps :
  let base := Z.of_nat <$> seq 0 256 in
  (length <$> match evaluate_greater_than_CPU 8 (built base) 1000 with Ok l => Some l | Throw _ => None end) = Some 255%nat ∧
  row_ids (λ b, 1000 <? b) base = [].
Proof. vm_compute. split; reflexivity. Qed.

(** The AVX2 loop compares the codes as signed bytes: a code of 128 or more
    compares below every small code. *)
Lemma less_than_AVX2_signed :
  let base := Z.of_nat <$> seq 0 256 in
  (length <$> match evaluate_less_than_AVX2 (built base) 10 with Ok l => Some l | Throw _ => None end) = Some 138%nat ∧
  length (row_ids (λ b, b <? 10) base) = 10%nat.
Proof. vm_compute. split; reflexivity. Qed.

(** The remaining-rows test of the inclusive evaluator admits a whole bucket:
    300 rows, the constant 298 shares its bucket with 299, which is returned. *)
Lemma lessthan_orequal_tail_overapproximates :
  let base := Z.of_nat <$> seq 0 300 in
  count_of (evaluate_lessthan_orequal_avx512 (built base) 298 (ManagedSelection_new 0 false)) = Some 300 ∧
  length (row_ids (λ b, b <=? 298) base) = 299%nat.
Proof. vm_compute. split; reflexivity. Qed.
