(* ===== verification/Date.v ===== *)
(** Calendar dates ([src/common/types/date.cpp]): the conversions between a
    day count and a proleptic Gregorian year, month and day, with the tables
    they index, and the proof that they are inverse to each other over the
    whole range of supported dates. *)
From S2P Require Import Prelude.

(** * Tables *)

Definition NORMAL_DAYS : list Z :=
  [0; 31; 28; 31; 30; 31; 30; 31; 31; 30; 31; 30; 31].

Definition CUMULATIVE_DAYS : list Z :=
  [0; 31; 59; 90; 120; 151; 181; 212; 243; 273; 304; 334; 365].

Definition LEAP_DAYS : list Z :=
  [0; 31; 29; 31; 30; 31; 30; 31; 31; 30; 31; 30; 31].

Definition CUMULATIVE_LEAP_DAYS : list Z :=
  [0; 31; 60; 91; 121; 152; 182; 213; 244; 274; 305; 335; 366].

Definition MONTH_PER_DAY_OF_YEAR : list Z :=
  [1; 1; 1; 1; 1; 1; 1; 1; 1; 1; 1; 1; 1; 1; 1; 1; 1; 1; 1; 1; 1; 1; 1; 1; 1; 1; 1; 1; 1;
   1; 1; 2; 2; 2; 2; 2; 2; 2; 2; 2; 2; 2; 2; 2; 2; 2; 2; 2; 2; 2; 2; 2; 2; 2; 2; 2; 2; 2;
   2; 3; 3; 3; 3; 3; 3; 3; 3; 3; 3; 3; 3; 3; 3; 3; 3; 3; 3; 3; 3; 3; 3; 3; 3; 3; 3; 3; 3;
   3; 3; 3; 4; 4; 4; 4; 4; 4; 4; 4; 4; 4; 4; 4; 4; 4; 4; 4; 4; 4; 4; 4; 4; 4; 4; 4; 4; 4;
   4; 4; 4; 4; 5; 5; 5; 5; 5; 5; 5; 5; 5; 5; 5; 5; 5; 5; 5; 5; 5; 5; 5; 5; 5; 5; 5; 5; 5;
   5; 5; 5; 5; 5; 5; 6; 6; 6; 6; 6; 6; 6; 6; 6; 6; 6; 6; 6; 6; 6; 6; 6; 6; 6; 6; 6; 6; 6;
   6; 6; 6; 6; 6; 6; 6; 7; 7; 7; 7; 7; 7; 7; 7; 7; 7; 7; 7; 7; 7; 7; 7; 7; 7; 7; 7; 7; 7;
   7; 7; 7; 7; 7; 7; 7; 7; 7; 8; 8; 8; 8; 8; 8; 8; 8; 8; 8; 8; 8; 8; 8; 8; 8; 8; 8; 8; 8;
   8; 8; 8; 8; 8; 8; 8; 8; 8; 8; 8; 9; 9; 9; 9; 9; 9; 9; 9; 9; 9; 9; 9; 9; 9; 9; 9; 9; 9;
   9; 9; 9; 9; 9; 9; 9; 9; 9; 9; 9; 9; 10; 10; 10; 10; 10; 10; 10; 10; 10; 10; 10; 10; 10; 10; 10; 10; 10;
   10; 10; 10; 10; 10; 10; 10; 10; 10; 10; 10; 10; 10; 10; 11; 11; 11; 11; 11; 11; 11; 11; 11; 11; 11; 11; 11; 11; 11;
   11; 11; 11; 11; 11; 11; 11; 11; 11; 11; 11; 11; 11; 11; 11; 12; 12; 12; 12; 12; 12; 12; 12; 12; 12; 12; 12; 12; 12;
   12; 12; 12; 12; 12; 12; 12; 12; 12; 12; 12; 12; 12; 12; 12; 12; 12].

Definition LEAP_MONTH_PER_DAY_OF_YEAR : list Z :=
  [1; 1; 1; 1; 1; 1; 1; 1; 1; 1; 1; 1; 1; 1; 1; 1; 1; 1; 1; 1; 1; 1; 1; 1; 1; 1; 1; 1; 1;
   1; 1; 2; 2; 2; 2; 2; 2; 2; 2; 2; 2; 2; 2; 2; 2; 2; 2; 2; 2; 2; 2; 2; 2; 2; 2; 2; 2; 2;
   2; 2; 3; 3; 3; 3; 3; 3; 3; 3; 3; 3; 3; 3; 3; 3; 3; 3; 3; 3; 3; 3; 3; 3; 3; 3; 3; 3; 3;
   3; 3; 3; 3; 4; 4; 4; 4; 4; 4; 4; 4; 4; 4; 4; 4; 4; 4; 4; 4; 4; 4; 4; 4; 4; 4; 4; 4; 4;
   4; 4; 4; 4; 4; 5; 5; 5; 5; 5; 5; 5; 5; 5; 5; 5; 5; 5; 5; 5; 5; 5; 5; 5; 5; 5; 5; 5; 5;
   5; 5; 5; 5; 5; 5; 5; 6; 6; 6; 6; 6; 6; 6; 6; 6; 6; 6; 6; 6; 6; 6; 6; 6; 6; 6; 6; 6; 6;
   6; 6; 6; 6; 6; 6; 6; 6; 7; 7; 7; 7; 7; 7; 7; 7; 7; 7; 7; 7; 7; 7; 7; 7; 7; 7; 7; 7; 7;
   7; 7; 7; 7; 7; 7; 7; 7; 7; 7; 8; 8; 8; 8; 8; 8; 8; 8; 8; 8; 8; 8; 8; 8; 8; 8; 8; 8; 8;
   8; 8; 8; 8; 8; 8; 8; 8; 8; 8; 8; 8; 9; 9; 9; 9; 9; 9; 9; 9; 9; 9; 9; 9; 9; 9; 9; 9; 9;
   9; 9; 9; 9; 9; 9; 9; 9; 9; 9; 9; 9; 9; 10; 10; 10; 10; 10; 10; 10; 10; 10; 10; 10; 10; 10; 10; 10; 10;
   10; 10; 10; 10; 10; 10; 10; 10; 10; 10; 10; 10; 10; 10; 10; 11; 11; 11; 11; 11; 11; 11; 11; 11; 11; 11; 11; 11; 11;
   11; 11; 11; 11; 11; 11; 11; 11; 11; 11; 11; 11; 11; 11; 11; 11; 12; 12; 12; 12; 12; 12; 12; 12; 12; 12; 12; 12; 12;
   12; 12; 12; 12; 12; 12; 12; 12; 12; 12; 12; 12; 12; 12; 12; 12; 12; 12].

Definition CUMULATIVE_YEAR_DAYS : list Z :=
  [0; 365; 730; 1096; 1461; 1826; 2191; 2557; 2922; 3287; 3652; 4018; 4383; 4748;
   5113; 5479; 5844; 6209; 6574; 6940; 7305; 7670; 8035; 8401; 8766; 9131; 9496; 9862;
   10227; 10592; 10957; 11323; 11688; 12053; 12418; 12784; 13149; 13514; 13879; 14245; 14610; 14975;
   15340; 15706; 16071; 16436; 16801; 17167; 17532; 17897; 18262; 18628; 18993; 19358; 19723; 20089;
   20454; 20819; 21184; 21550; 21915; 22280; 22645; 23011; 23376; 23741; 24106; 24472; 24837; 25202;
   25567; 25933; 26298; 26663; 27028; 27394; 27759; 28124; 28489; 28855; 29220; 29585; 29950; 30316;
   30681; 31046; 31411; 31777; 32142; 32507; 32872; 33238; 33603; 33968; 34333; 34699; 35064; 35429;
   35794; 36160; 36525; 36890; 37255; 37621; 37986; 38351; 38716; 39082; 39447; 39812; 40177; 40543;
   40908; 41273; 41638; 42004; 42369; 42734; 43099; 43465; 43830; 44195; 44560; 44926; 45291; 45656;
   46021; 46387; 46752; 47117; 47482; 47847; 48212; 48577; 48942; 49308; 49673; 50038; 50403; 50769;
   51134; 51499; 51864; 52230; 52595; 52960; 53325; 53691; 54056; 54421; 54786; 55152; 55517; 55882;
   56247; 56613; 56978; 57343; 57708; 58074; 58439; 58804; 59169; 59535; 59900; 60265; 60630; 60996;
   61361; 61726; 62091; 62457; 62822; 63187; 63552; 63918; 64283; 64648; 65013; 65379; 65744; 66109;
   66474; 66840; 67205; 67570; 67935; 68301; 68666; 69031; 69396; 69762; 70127; 70492; 70857; 71223;
   71588; 71953; 72318; 72684; 73049; 73414; 73779; 74145; 74510; 74875; 75240; 75606; 75971; 76336;
   76701; 77067; 77432; 77797; 78162; 78528; 78893; 79258; 79623; 79989; 80354; 80719; 81084; 81450;
   81815; 82180; 82545; 82911; 83276; 83641; 84006; 84371; 84736; 85101; 85466; 85832; 86197; 86562;
   86927; 87293; 87658; 88023; 88388; 88754; 89119; 89484; 89849; 90215; 90580; 90945; 91310; 91676;
   92041; 92406; 92771; 93137; 93502; 93867; 94232; 94598; 94963; 95328; 95693; 96059; 96424; 96789;
   97154; 97520; 97885; 98250; 98615; 98981; 99346; 99711; 100076; 100442; 100807; 101172; 101537; 101903;
   102268; 102633; 102998; 103364; 103729; 104094; 104459; 104825; 105190; 105555; 105920; 106286; 106651; 107016;
   107381; 107747; 108112; 108477; 108842; 109208; 109573; 109938; 110303; 110669; 111034; 111399; 111764; 112130;
   112495; 112860; 113225; 113591; 113956; 114321; 114686; 115052; 115417; 115782; 116147; 116513; 116878; 117243;
   117608; 117974; 118339; 118704; 119069; 119435; 119800; 120165; 120530; 120895; 121260; 121625; 121990; 122356;
   122721; 123086; 123451; 123817; 124182; 124547; 124912; 125278; 125643; 126008; 126373; 126739; 127104; 127469;
   127834; 128200; 128565; 128930; 129295; 129661; 130026; 130391; 130756; 131122; 131487; 131852; 132217; 132583;
   132948; 133313; 133678; 134044; 134409; 134774; 135139; 135505; 135870; 136235; 136600; 136966; 137331; 137696;
   138061; 138427; 138792; 139157; 139522; 139888; 140253; 140618; 140983; 141349; 141714; 142079; 142444; 142810;
   143175; 143540; 143905; 144271; 144636; 145001; 145366; 145732; 146097].

Definition DATE_MIN_YEAR : Z := -5877641.
Definition DATE_MIN_MONTH : Z := 6.
Definition DATE_MIN_DAY : Z := 25.
Definition DATE_MAX_YEAR : Z := 5881580.
Definition DATE_MAX_MONTH : Z := 7.
Definition DATE_MAX_DAY : Z := 10.
Definition EPOCH_YEAR : Z := 1970.
Definition YEAR_INTERVAL : Z := 400.
Definition DAYS_PER_YEAR_INTERVAL : Z := 146097.

(** * Operations *)

(** The result of an [int32_t] operation; overflow is undefined. *)
Definition i32 (x : Z) : result Z :=
  if (-2147483648 <=? x) && (x <=? 2147483647) then Ok x
  else Throw (UndefinedBehaviour "signed integer overflow").

(** Array access with an [int32_t] index. *)
Definition at32 (l : list Z) (i : Z) : result Z :=
  if i <? 0 then Throw (UndefinedBehaviour "negative array index") else vget l (Z.to_nat i).

Definition IsLeapYear (year : Z) : bool :=
  (Z.rem year 4 =? 0) && (negb (Z.rem year 100 =? 0) || (Z.rem year 400 =? 0)).

Definition IsValid (year month day : Z) : result bool :=
  if (month <? 1) || (12 <? month) then Ok false
  else if day <? 1 then Ok false
  else if (year <=? DATE_MIN_YEAR) &&
          ((year <? DATE_MIN_YEAR) ||
           ((year =? DATE_MIN_YEAR) &&
            ((month <? DATE_MIN_MONTH) || ((month =? DATE_MIN_MONTH) && (day <? DATE_MIN_DAY))))) then Ok false
  else if (DATE_MAX_YEAR <=? year) &&
          ((DATE_MAX_YEAR <? year) ||
           ((year =? DATE_MAX_YEAR) &&
            ((DATE_MAX_MONTH <? month) || ((month =? DATE_MAX_MONTH) && (DATE_MAX_DAY <? day))))) then Ok false
  else
    d ← at32 (if IsLeapYear year then LEAP_DAYS else NORMAL_DAYS) month;
    Ok (day <=? d).

(** [TryFromDate]: [None] when the date is not valid. *)
Definition TryFromDate (year month day : Z) : result (option Z) :=
  valid ← IsValid year month day;
  if negb valid then Ok None
  else
    c ← at32 (if IsLeapYear year then CUMULATIVE_LEAP_DAYS else CUMULATIVE_DAYS) (month - 1);
    n ← i32 (0 + c);
    d1 ← i32 (day - 1);
    n ← i32 (n + d1);
    if year <? 1970 then
      diff_from_base ← i32 (1970 - year);
      let year_index := 400 - Z.rem diff_from_base 400 in
      let fractions := Z.quot diff_from_base 400 in
      y ← at32 CUMULATIVE_YEAR_DAYS year_index;
      n ← i32 (n + y);
      n ← i32 (n - DAYS_PER_YEAR_INTERVAL);
      f ← i32 (fractions * DAYS_PER_YEAR_INTERVAL);
      n ← i32 (n - f);
      Ok (Some n)
    else if 2370 <=? year then
      diff_from_base ← i32 (year - 2370);
      let year_index := Z.rem diff_from_base 400 in
      let fractions := Z.quot diff_from_base 400 in
      y ← at32 CUMULATIVE_YEAR_DAYS year_index;
      n ← i32 (n + y);
      n ← i32 (n + DAYS_PER_YEAR_INTERVAL);
      f ← i32 (fractions * DAYS_PER_YEAR_INTERVAL);
      n ← i32 (n + f);
      Ok (Some n)
    else
      y ← at32 CUMULATIVE_YEAR_DAYS (year - 1970);
      n ← i32 (n + y);
      Ok (Some n).

Definition FromDate (year month day : Z) : result Z :=
  r ← TryFromDate year month day;
  match r with
  | Some n => Ok n
  | None => Throw (ConversionException "Date out of range")
  end.

(** [while (n < 0) { n += DAYS_PER_YEAR_INTERVAL; year -= YEAR_INTERVAL; }] *)
Fixpoint normalize_up (fuel : nat) (n year : Z) : result (Z * Z) :=
  if n <? 0 then
    match fuel with
    | O => Throw OutOfFuel
    | S f => n' ← i32 (n + DAYS_PER_YEAR_INTERVAL); y' ← i32 (year - YEAR_INTERVAL); normalize_up f n' y'
    end
  else Ok (n, year).

(** [while (n >= DAYS_PER_YEAR_INTERVAL) { ... }] *)
Fixpoint normalize_down (fuel : nat) (n year : Z) : result (Z * Z) :=
  if DAYS_PER_YEAR_INTERVAL <=? n then
    match fuel with
    | O => Throw OutOfFuel
    | S f => n' ← i32 (n - DAYS_PER_YEAR_INTERVAL); y' ← i32 (year + YEAR_INTERVAL); normalize_down f n' y'
    end
  else Ok (n, year).

(** [while (n < CUMULATIVE_YEAR_DAYS[year_offset]) year_offset--;] *)
Fixpoint find_year (fuel : nat) (n year_offset : Z) : result Z :=
  c ← at32 CUMULATIVE_YEAR_DAYS year_offset;
  if n <? c then
    match fuel with
    | O => Throw OutOfFuel
    | S f => find_year f n (year_offset - 1)
    end
  else Ok year_offset.

(** The loops over the 400-year intervals run at most 14700 times for a
    32-bit day count, the search at most 400 times. *)
Definition interval_fuel : nat := Z.to_nat 14700.

(** [ExtractYearOffset]: the normalised day count, the year and the offset of
    the year in its 400-year interval. *)
Definition ExtractYearOffset (n : Z) : result (Z * Z * Z) :=
  '(n, year) ← normalize_up interval_fuel n EPOCH_YEAR;
  '(n, year) ← normalize_down interval_fuel n year;
  year_offset ← find_year 401 n (Z.quot n 365);
  year ← i32 (year + year_offset);
  Ok (n, year, year_offset).

Definition Convert (d : Z) : result (Z * Z * Z) :=
  '(n, year, year_offset) ← ExtractYearOffset d;
  c0 ← at32 CUMULATIVE_YEAR_DAYS year_offset;
  day ← i32 (n - c0);
  c1 ← at32 CUMULATIVE_YEAR_DAYS (year_offset + 1);
  c0' ← at32 CUMULATIVE_YEAR_DAYS year_offset;
  let is_leap_year := (c1 - c0' =? 366) in
  month ← at32 (if is_leap_year then LEAP_MONTH_PER_DAY_OF_YEAR else MONTH_PER_DAY_OF_YEAR) day;
  m ← at32 (if is_leap_year then CUMULATIVE_LEAP_DAYS else CUMULATIVE_DAYS) (month - 1);
  day ← i32 (day - m);
  day ← i32 (day + 1);
  Ok (year, month, day).

(** * The tables *)

(** Total readings of the tables, used to state what they hold. *)
Definition cyd (i : Z) : Z := nth (Z.to_nat i) CUMULATIVE_YEAR_DAYS 0.
Definition year_days (leap : bool) : Z := if leap then 366 else 365.
Definition cumulative_days (leap : bool) (m : Z) : Z :=
  nth (Z.to_nat m) (if leap then CUMULATIVE_LEAP_DAYS else CUMULATIVE_DAYS) 0.
Definition month_days (leap : bool) (m : Z) : Z :=
  nth (Z.to_nat m) (if leap then LEAP_DAYS else NORMAL_DAYS) 0.
Definition month_of (leap : bool) (doy : Z) : Z :=
  nth (Z.to_nat doy) (if leap then LEAP_MONTH_PER_DAY_OF_YEAR else MONTH_PER_DAY_OF_YEAR) 0.

Lemma at32_nth l i : 0 ≤ i < Z.of_nat (length l) → at32 l i = Ok (nth (Z.to_nat i) l 0).
Proof.
  intros Hi. unfold at32. destruct (Z.ltb_spec i 0); [lia|].
  apply vget_lookup. destruct (lookup_lt_is_Some_2 l (Z.to_nat i)) as [x Hx]; [lia|].
  rewrite Hx. by rewrite (nth_lookup_Some _ _ _ _ Hx).
Qed.

Lemma i32_ok x : -2147483648 ≤ x ≤ 2147483647 → i32 x = Ok x.
Proof. intros. unfold i32. by replace ((-2147483648 <=? x) && (x <=? 2147483647)) with true by lia. Qed.

Lemma cumulative_at (leap : bool) m :
  0 ≤ m ≤ 12 → at32 (if leap then CUMULATIVE_LEAP_DAYS else CUMULATIVE_DAYS) m = Ok (cumulative_days leap m).
Proof. intros Hm. unfold cumulative_days. destruct leap; apply at32_nth; change (length _) with 13%nat; lia. Qed.

Lemma month_days_at (leap : bool) m :
  0 ≤ m ≤ 12 → at32 (if leap then LEAP_DAYS else NORMAL_DAYS) m = Ok (month_days leap m).
Proof. intros Hm. unfold month_days. destruct leap; apply at32_nth; change (length _) with 13%nat; lia. Qed.

Lemma month_of_at (leap : bool) doy :
  0 ≤ doy < year_days leap →
  at32 (if leap then LEAP_MONTH_PER_DAY_OF_YEAR else MONTH_PER_DAY_OF_YEAR) doy = Ok (month_of leap doy).
Proof.
  intros Hd. unfold month_of. destruct leap; apply at32_nth; unfold year_days in Hd;
    [change (length _) with 366%nat | change (length _) with 365%nat]; lia.
Qed.

(** A finite range of table indices, checked by evaluation. *)
Definition upto (n : Z) : list Z := Z.of_nat <$> seq 0 (Z.to_nat n).

Lemma forallb_upto (f : Z → bool) n i : forallb f (upto n) = true → 0 ≤ i < n → f i = true.
Proof.
  intros Hf Hi. rewrite forallb_forall in Hf. apply Hf. apply list_elem_of_In, list_elem_of_fmap.
  exists (Z.to_nat i). split; [lia|]. apply elem_of_seq. lia.
Qed.

Lemma cyd_at i : 0 ≤ i ≤ 400 → at32 CUMULATIVE_YEAR_DAYS i = Ok (cyd i).
Proof. intros. apply at32_nth. change (length CUMULATIVE_YEAR_DAYS) with 401%nat. lia. Qed.

Lemma cyd_step i : 0 ≤ i < 400 → cyd (i + 1) = cyd i + year_days (IsLeapYear (1970 + i)).
Proof.
  intros Hi. apply Z.eqb_eq.
  apply (forallb_upto (λ i, cyd (i + 1) =? cyd i + year_days (IsLeapYear (1970 + i))) 400); [|done].
  vm_compute. reflexivity.
Qed.

Lemma cyd_bounds i : 0 ≤ i ≤ 400 → 365 * i ≤ cyd i ≤ 365 * i + 97.
Proof.
  intros Hi. assert ((365 * i <=? cyd i) && (cyd i <=? 365 * i + 97) = true); [|lia].
  apply (forallb_upto (λ i, (365 * i <=? cyd i) && (cyd i <=? 365 * i + 97)) 401); [vm_compute; reflexivity | lia].
Qed.

Lemma year_days_pos b : 365 ≤ year_days b ≤ 366.
Proof. destruct b; cbn; lia. Qed.

Lemma cyd_lt i j : 0 ≤ i → i < j ≤ 400 → cyd i < cyd j.
Proof.
  intros Hi Hj. replace j with (i + 1 + Z.of_nat (Z.to_nat (j - i - 1))) by lia.
  assert (i + 1 + Z.of_nat (Z.to_nat (j - i - 1)) ≤ 400) as Hb by lia. revert Hb.
  generalize (Z.to_nat (j - i - 1)). intros k. induction k as [|k IH]; intros Hb.
  - rewrite Z.add_0_r, cyd_step by lia. pose proof (year_days_pos (IsLeapYear (1970 + i))). lia.
  - replace (i + 1 + Z.of_nat (S k)) with (i + 1 + Z.of_nat k + 1) by lia.
    rewrite cyd_step by lia. pose proof (year_days_pos (IsLeapYear (1970 + (i + 1 + Z.of_nat k)))). lia.
Qed.

(** Every month starts where the previous one ends, and the day-of-year tables
    invert the cumulative tables. *)
Definition month_ok (leap : bool) (m : Z) : bool :=
  (cumulative_days leap (m - 1) + month_days leap m =? cumulative_days leap m) &&
  (0 <=? cumulative_days leap (m - 1)) && (cumulative_days leap m <=? year_days leap) && (28 <=? month_days leap m) &&
  forallb (λ d, month_of leap (cumulative_days leap (m - 1) + d) =? m) (upto (month_days leap m)).

Lemma months_ok leap m : 1 ≤ m ≤ 12 → month_ok leap m = true.
Proof.
  intros Hm. replace m with (m - 1 + 1) by lia.
  apply (forallb_upto (λ m, month_ok leap (m + 1)) 12); [|lia]. destruct leap; vm_compute; reflexivity.
Qed.

Lemma month_facts leap m :
  1 ≤ m ≤ 12 →
  cumulative_days leap (m - 1) + month_days leap m = cumulative_days leap m ∧
  0 ≤ cumulative_days leap (m - 1) ∧ cumulative_days leap m ≤ year_days leap ∧ 28 ≤ month_days leap m ∧
  ∀ d, 1 ≤ d ≤ month_days leap m → month_of leap (cumulative_days leap (m - 1) + d - 1) = m.
Proof.
  intros Hm. pose proof (months_ok leap m Hm) as H. unfold month_ok in H.
  rewrite !andb_true_iff in H. destruct H as [[[[H1 H2] H3] H4] H5].
  split_and!; [lia | lia | lia | lia |]. intros d Hd. apply Z.eqb_eq.
  rewrite <- Z.add_sub_assoc. by apply (forallb_upto _ _ (d - 1) H5); lia.
Qed.

Definition doy_ok (leap : bool) (doy : Z) : bool :=
  let m := month_of leap doy in
  (1 <=? m) && (m <=? 12) && (1 <=? doy - cumulative_days leap (m - 1) + 1) &&
  (doy - cumulative_days leap (m - 1) + 1 <=? month_days leap m).

Lemma doy_facts leap doy :
  0 ≤ doy < year_days leap →
  1 ≤ month_of leap doy ≤ 12 ∧
  1 ≤ doy - cumulative_days leap (month_of leap doy - 1) + 1 ≤ month_days leap (month_of leap doy).
Proof.
  intros Hd. assert (doy_ok leap doy = true) as H.
  { apply (forallb_upto (doy_ok leap) (year_days leap)); [|done]. destruct leap; vm_compute; reflexivity. }
  unfold doy_ok in H. lia.
Qed.

(** Leap years repeat every 400 years. *)
Lemma leap_period y q : IsLeapYear (y + 400 * q) = IsLeapYear y.
Proof.
  unfold IsLeapYear.
  assert (∀ k x, 0 < k → (Z.rem x k =? 0) = (x mod k =? 0)) as Hrem.
  { intros k x Hk. apply eq_true_iff_eq. rewrite !Z.eqb_eq, Z.rem_divide, Z.mod_divide by lia. done. }
  rewrite !Hrem by lia.
  rewrite (Z.mul_comm 400 q), Z.mod_add by lia.
  rewrite <- (Z.mod_add y (q * 4) 100) by lia. rewrite <- (Z.mod_add y (q * 100) 4) by lia.
  f_equal; [|f_equal]; f_equal; f_equal; f_equal; lia.
Qed.

(** * Day numbers *)

(** The day number of a date: 400-year intervals since 1970, years in the
    interval, days in the year. *)
Definition day_number (y m d : Z) : Z :=
  146097 * ((y - 1970) / 400) + cyd ((y - 1970) mod 400) + cumulative_days (IsLeapYear y) (m - 1) + d - 1.

(** [valid_date] is the range check of the code without the table lookups. *)
Definition valid_date (y m d : Z) : Prop :=
  1 ≤ m ≤ 12 ∧ 1 ≤ d ≤ month_days (IsLeapYear y) m ∧
  (DATE_MIN_YEAR < y ∨ y = DATE_MIN_YEAR ∧ (DATE_MIN_MONTH < m ∨ m = DATE_MIN_MONTH ∧ DATE_MIN_DAY ≤ d)) ∧
  (y < DATE_MAX_YEAR ∨ y = DATE_MAX_YEAR ∧ (m < DATE_MAX_MONTH ∨ m = DATE_MAX_MONTH ∧ d ≤ DATE_MAX_DAY)).

Lemma IsValid_spec y m d : ∃ b, IsValid y m d = Ok b ∧ (b = true ↔ valid_date y m d).
Proof.
  unfold IsValid, valid_date.
  repeat match goal with
  | |- ∃ b, (if ?c then Ok false else _) = _ ∧ _ =>
      let H := fresh in destruct c eqn:H;
      [exists false; split; [done|]; split; [done|];
       unfold DATE_MIN_YEAR, DATE_MIN_MONTH, DATE_MIN_DAY, DATE_MAX_YEAR, DATE_MAX_MONTH, DATE_MAX_DAY in *; lia|]
  end.
  rewrite month_days_at by lia. cbn [mbind result_bind].
  eexists; split; [done|].
  unfold DATE_MIN_YEAR, DATE_MIN_MONTH, DATE_MIN_DAY, DATE_MAX_YEAR, DATE_MAX_MONTH, DATE_MAX_DAY in *. lia.
Qed.

Lemma interval_split y : ∃ q r, y - 1970 = 400 * q + r ∧ 0 ≤ r < 400 ∧
  (y - 1970) / 400 = q ∧ (y - 1970) mod 400 = r ∧ IsLeapYear y = IsLeapYear (1970 + r).
Proof.
  exists ((y - 1970) / 400), ((y - 1970) mod 400).
  pose proof (Z.div_mod (y - 1970) 400 ltac:(lia)). pose proof (Z.mod_pos_bound (y - 1970) 400 ltac:(lia)).
  split_and!; [lia | lia | lia | done | done |].
  replace y with (1970 + (y - 1970) mod 400 + 400 * ((y - 1970) / 400)) at 1 by lia. apply leap_period.
Qed.

Lemma day_in_year y m d :
  valid_date y m d → 0 ≤ cumulative_days (IsLeapYear y) (m - 1) + d - 1 < year_days (IsLeapYear y).
Proof. intros (Hm & Hd & _). destruct (month_facts (IsLeapYear y) m Hm) as (H1 & H2 & H3 & _). lia. Qed.

(** The day numbers of the supported dates fit in an [int32_t]. *)
Lemma day_number_range y m d : valid_date y m d → -2147483647 ≤ day_number y m d ≤ 2147483646.
Proof.
  intros Hv. pose proof (day_in_year y m d Hv) as Hdoy. pose proof (year_days_pos (IsLeapYear y)).
  destruct Hv as (Hm & Hd & Hlo & Hhi). unfold day_number.
  unfold DATE_MIN_YEAR, DATE_MIN_MONTH, DATE_MIN_DAY, DATE_MAX_YEAR, DATE_MAX_MONTH, DATE_MAX_DAY in *.
  destruct (interval_split y) as (q & r & Hqr & Hr & -> & -> & _).
  pose proof (cyd_bounds r ltac:(lia)) as Hc.
  destruct (month_facts (IsLeapYear y) m Hm) as (Hm1 & Hm2 & Hm3 & _).
  split.
  - destruct Hlo as [Hy|[-> Hmd]].
    + assert (-14700 < q ∨ q = -14700 ∧ 390 ≤ r) by lia. nia.
    + assert (q = -14700) as -> by lia. assert (r = 389) as -> by lia.
      change (cyd 389) with 142079. change (IsLeapYear (-5877641)) with false in *.
      assert (((if m =? 6 then 151 else 181) <=? cumulative_days false (m - 1)) = true) as Hcm.
      { replace m with (m - 6 + 6) by lia.
        apply (forallb_upto (λ k, (if k + 6 =? 6 then 151 else 181) <=? cumulative_days false (k + 6 - 1)) 7);
          [vm_compute; reflexivity | lia]. }
      destruct (Z.eqb_spec m 6); lia.
  - destruct Hhi as [Hy|[-> Hmd]].
    + assert (q < 14699 ∨ q = 14699 ∧ r ≤ 9) by lia. nia.
    + assert (q = 14699) as -> by lia. assert (r = 10) as -> by lia.
      change (cyd 10) with 3652. change (IsLeapYear 5881580) with true in *.
      assert ((cumulative_days true (m - 1) <=? (if m =? 7 then 182 else 152)) = true) as Hcm.
      { replace m with (m - 1 + 1) at 1 2 by lia.
        apply (forallb_upto (λ k, cumulative_days true (k + 1 - 1) <=? (if k + 1 =? 7 then 182 else 152)) 7);
          [vm_compute; reflexivity | lia]. }
      assert ((month_days true m <=? 31) = true).
      { apply (forallb_upto (λ k, month_days true k <=? 31) 13); [vm_compute; reflexivity | lia]. }
      destruct (Z.eqb_spec m 7); lia.
Qed.

Lemma TryFromDate_valid y m d :
  valid_date y m d → TryFromDate y m d = Ok (Some (day_number y m d)).
Proof.
  intros Hv. pose proof (day_number_range y m d Hv) as Hrange. pose proof (day_in_year y m d Hv) as Hdoy.
  pose proof (year_days_pos (IsLeapYear y)).
  destruct (IsValid_spec y m d) as (b & Hb & Hbv). apply Hbv in Hv as Hbt. subst b.
  unfold TryFromDate. rewrite Hb. cbn [mbind result_bind negb].
  destruct Hv as (Hm & Hd & Hlo & Hhi). unfold DATE_MIN_YEAR, DATE_MAX_YEAR in *.
  destruct (month_facts (IsLeapYear y) m Hm) as (Hm1 & Hm2 & Hm3 & _).
  rewrite cumulative_at by lia. cbn [mbind result_bind].
  unfold day_number in *. destruct (interval_split y) as (q & r & Hqr & Hr & Hq' & Hr' & _).
  rewrite Hq', Hr' in *. pose proof (cyd_bounds r ltac:(lia)) as Hc.
  rewrite !(i32_ok (0 + _)), (i32_ok (d - 1)) by lia. cbn [mbind result_bind].
  rewrite (i32_ok (_ + (d - 1))) by lia. cbn [mbind result_bind].
  change DAYS_PER_YEAR_INTERVAL with 146097.
  destruct (Z.ltb_spec y 1970); [|destruct (Z.leb_spec 2370 y)].
  - rewrite (i32_ok (1970 - y)) by lia. cbn [mbind result_bind].
    rewrite Z.rem_mod_nonneg, Z.quot_div_nonneg by lia.
    (* the interval counted downwards *)
    assert ((1970 - y) / 400 = - q - (if r =? 0 then 0 else 1) ∧
            400 - (1970 - y) mod 400 = (if r =? 0 then 400 else r)) as [Hf Hi].
    { pose proof (Z.div_mod (1970 - y) 400 ltac:(lia)). pose proof (Z.mod_pos_bound (1970 - y) 400 ltac:(lia)).
      destruct (Z.eqb_spec r 0); nia. }
    rewrite Hf, Hi, cyd_at by (destruct (Z.eqb_spec r 0); lia). cbn [mbind result_bind].
    assert (cyd 400 = 146097 ∧ cyd 0 = 0) as [H400 Hc0] by done.
    destruct (Z.eqb_spec r 0) as [->|].
    + rewrite H400, Hc0 in *. repeat (rewrite i32_ok by lia; cbn [mbind result_bind]). do 2 f_equal. lia.
    + repeat (rewrite i32_ok by lia; cbn [mbind result_bind]). do 2 f_equal. lia.
  - rewrite (i32_ok (y - 2370)) by lia. cbn [mbind result_bind].
    rewrite Z.rem_mod_nonneg, Z.quot_div_nonneg by lia.
    assert ((y - 2370) / 400 = q - 1 ∧ (y - 2370) mod 400 = r) as [-> ->].
    { replace (y - 2370) with (y - 1970 + (-1) * 400) by lia.
      rewrite Z.div_add, Z.mod_add by lia. lia. }
    rewrite cyd_at by lia. cbn [mbind result_bind].
    repeat (rewrite i32_ok by lia; cbn [mbind result_bind]). do 2 f_equal. lia.
  - assert (q = 0) as -> by lia. replace (y - 1970) with r by lia.
    rewrite cyd_at by lia. cbn [mbind result_bind]. rewrite i32_ok by lia. cbn [mbind result_bind]. do 2 f_equal. lia.
Qed.

(** * Conversion back *)

Lemma normalize_up_ok fuel n year :
  n < 0 → - 146097 * Z.of_nat fuel ≤ n → -2147483648 ≤ n → Z.abs year ≤ 1000000000 - 400 * Z.of_nat fuel →
  normalize_up fuel n year = Ok (n mod 146097, year + 400 * (n / 146097)).
Proof.
  revert n year. induction fuel as [|f IH]; intros n year Hn Hf Hlo Hy; [lia|].
  cbn [normalize_up]. unfold DAYS_PER_YEAR_INTERVAL, YEAR_INTERVAL in *.
  replace (n <? 0) with true by lia.
  rewrite (i32_ok (n + _)) by lia. cbn [mbind result_bind]. rewrite i32_ok by lia. cbn [mbind result_bind].
  replace (n mod 146097) with ((n + 146097) mod 146097) by (rewrite <- (Z.mod_add n 1) by lia; f_equal; lia).
  replace (n / 146097) with ((n + 146097) / 146097 - 1) by (replace (n + 146097) with (n + 1 * 146097) by lia; rewrite Z.div_add by lia; lia).
  destruct (Z.lt_ge_cases (n + 146097) 0).
  - rewrite IH by lia. do 2 f_equal. lia.
  - rewrite Z.mod_small, Z.div_small by lia. destruct f; cbn [normalize_up];
      replace (n + 146097 <? 0) with false by lia; do 2 f_equal; lia.
Qed.

Lemma normalize_up_nonneg fuel n year : 0 ≤ n → normalize_up fuel n year = Ok (n, year).
Proof. intros. destruct fuel; cbn [normalize_up]; by replace (n <? 0) with false by lia. Qed.

Lemma normalize_down_ok fuel n year :
  0 ≤ n < 146097 * (Z.of_nat fuel + 1) → n ≤ 2147483647 → Z.abs year ≤ 1000000000 - 400 * Z.of_nat fuel →
  normalize_down fuel n year = Ok (n mod 146097, year + 400 * (n / 146097)).
Proof.
  revert n year. induction fuel as [|f IH]; intros n year Hn Hhi Hy; cbn [normalize_down];
    unfold DAYS_PER_YEAR_INTERVAL, YEAR_INTERVAL in *; destruct (Z.leb_spec 146097 n); try lia.
  - rewrite Z.mod_small, Z.div_small by lia. do 2 f_equal. lia.
  - rewrite (i32_ok (n - _)) by lia. cbn [mbind result_bind]. rewrite i32_ok by lia. cbn [mbind result_bind].
    rewrite IH by lia. replace (n - 146097) with (n + (-1) * 146097) by lia.
    rewrite Z.mod_add, Z.div_add by lia. do 2 f_equal. lia.
  - rewrite Z.mod_small, Z.div_small by lia. do 2 f_equal. lia.
Qed.

Lemma find_year_ok fuel n off i :
  0 ≤ i ≤ off → off ≤ 400 → off - i ≤ Z.of_nat fuel → cyd i ≤ n →
  (∀ j, i < j ≤ off → n < cyd j) → find_year fuel n off = Ok i.
Proof.
  revert off. induction fuel as [|f IH]; intros off Hi Hoff Hf Hlo Hhi; cbn [find_year];
    rewrite cyd_at by lia; cbn [mbind result_bind].
  - assert (off = i) as -> by lia. by replace (n <? cyd i) with false by lia.
  - destruct (Z.eq_dec off i) as [->|]; [by replace (n <? cyd i) with false by lia|].
    replace (n <? cyd off) with true by (specialize (Hhi off); lia).
    apply IH; [lia | lia | lia | done |]. intros j Hj. apply Hhi. lia.
Qed.

Lemma interval_fuel_val : Z.of_nat interval_fuel = 14700.
Proof. apply Z2Nat.id. lia. Qed.

(** The two loops bring the day count into the first interval. *)
Lemma normalize_ok fuel n :
  Z.of_nat fuel = 14700 → -2147483648 ≤ n ≤ 2147483647 →
  ∃ n' y', normalize_up fuel n EPOCH_YEAR = Ok (n', y') ∧
    normalize_down fuel n' y' = Ok (n mod 146097, 1970 + 400 * (n / 146097)).
Proof.
  intros Hf Hn. unfold EPOCH_YEAR. pose proof (Z.mod_pos_bound n 146097 ltac:(lia)).  pose proof (Z.div_mod n 146097 ltac:(lia)). destruct (Z.lt_ge_cases n 0).
  - exists (n mod 146097), (1970 + 400 * (n / 146097)). rewrite normalize_up_ok by lia. split; [done|].
    rewrite normalize_down_ok by lia. rewrite Z.mod_mod, (Z.div_small (n mod 146097)) by lia. do 2 f_equal. lia.
  - exists n, 1970. rewrite normalize_up_nonneg by lia. split; [done|]. by rewrite normalize_down_ok by lia.
Qed.

(** The year of a decomposed day number, for any sufficient fuel. *)
Lemma extract_year fuel search n q i doy :
  Z.of_nat fuel = 14700 → Z.of_nat search = 401 → -2147483648 ≤ n ≤ 2147483647 → n = 146097 * q + cyd i + doy → 0 ≤ i < 400 →
  0 ≤ doy < year_days (IsLeapYear (1970 + i)) →
  ('(n, year) ← normalize_up fuel n EPOCH_YEAR;
   '(n, year) ← normalize_down fuel n year;
   year_offset ← find_year search n (Z.quot n 365);
   year ← i32 (year + year_offset);
   Ok (n, year, year_offset)) = Ok (cyd i + doy, 1970 + 400 * q + i, i).
Proof.
  intros Hf Hsf Hn Hdec Hi Hdoy. pose proof (cyd_bounds i ltac:(lia)) as Hc. pose proof (cyd_step i Hi) as Hstep.
  assert (cyd i + doy < 146097) as Hr.
  { assert (cyd 400 = 146097) as H400 by reflexivity.
    destruct (Z.eq_dec i 399) as [->|]; [replace (399 + 1) with 400 in Hstep by lia; lia|].
    pose proof (cyd_lt (i + 1) 400 ltac:(lia) ltac:(lia)). lia. }
  assert (n mod 146097 = cyd i + doy ∧ n / 146097 = q) as [Hmod Hdiv].
  { replace n with (cyd i + doy + q * 146097) by lia. rewrite Z.mod_add, Z.div_add by lia.
    rewrite Z.mod_small, Z.div_small by lia. lia. }
  destruct (normalize_ok fuel n) as (n' & y' & -> & Hdown); [done | done|].
  cbn [mbind result_bind]. rewrite Hdown, Hmod, Hdiv. cbn [mbind result_bind].
  rewrite Z.quot_div_nonneg by lia. pose proof (year_days_pos (IsLeapYear (1970 + i))).
  pose proof (Z.div_mod (cyd i + doy) 365 ltac:(lia)). pose proof (Z.mod_pos_bound (cyd i + doy) 365 ltac:(lia)).
  rewrite (find_year_ok search _ _ i); [| lia | lia | lia | lia |].
  - cbn [mbind result_bind]. by rewrite (i32_ok (1970 + _ + i)) by lia.
  - intros j Hj. destruct (Z.eq_dec j (i + 1)) as [->|]; [lia|].
    pose proof (cyd_lt (i + 1) j ltac:(lia) ltac:(lia)). lia.
Qed.

(** [Convert] inverts the decomposition of a day number. *)
Lemma Convert_spec n q i doy :
  -2147483648 ≤ n ≤ 2147483647 → n = 146097 * q + cyd i + doy → 0 ≤ i < 400 →
  let leap := IsLeapYear (1970 + i) in
  0 ≤ doy < year_days leap →
  Convert n = Ok (1970 + 400 * q + i, month_of leap doy, doy - cumulative_days leap (month_of leap doy - 1) + 1).
Proof.
  intros Hn Hdec Hi leap Hdoy. pose proof (cyd_bounds i ltac:(lia)) as Hc.
  pose proof (cyd_step i Hi) as Hstep. fold leap in Hstep. pose proof (year_days_pos leap).
  assert (ExtractYearOffset n = Ok (cyd i + doy, 1970 + 400 * q + i, i)) as Hex
    by exact (extract_year interval_fuel 401 n q i doy interval_fuel_val eq_refl Hn Hdec Hi Hdoy).
  unfold Convert. rewrite Hex. cbn [mbind result_bind].
  rewrite !cyd_at by lia. cbn [mbind result_bind]. rewrite (i32_ok (_ - cyd i)) by lia. cbn [mbind result_bind].
  replace (cyd i + doy - cyd i) with doy by lia.
  assert ((cyd (i + 1) - cyd i =? 366) = leap) as -> by (rewrite Hstep; destruct leap; cbn; lia).
  destruct (doy_facts leap doy Hdoy) as [Hm Hd].
  rewrite month_of_at by done. cbn [mbind result_bind].
  rewrite cumulative_at by lia. cbn [mbind result_bind].
  destruct (month_facts leap (month_of leap doy) Hm) as (Hm1 & Hm2 & Hm3 & _).
  rewrite i32_ok by lia. cbn [mbind result_bind]. rewrite i32_ok by lia. done.
Qed.

(** Every day count of the supported range belongs to exactly one date. *)
Lemma year_of_day r : 0 ≤ r < 146097 → ∃ i, 0 ≤ i < 400 ∧ cyd i ≤ r < cyd (i + 1).
Proof.
  intros Hr. enough (∀ k, (k ≤ 400)%nat → r < cyd (Z.of_nat k) → ∃ i, 0 ≤ i < Z.of_nat k ∧ cyd i ≤ r < cyd (i + 1)) as H.
  { destruct (H 400%nat) as (i & ? & ?); [lia | change (cyd (Z.of_nat 400)) with 146097; lia|]. exists i. lia. }
  induction k as [|k IH]; intros Hk Hlt.
  - change (cyd (Z.of_nat 0)) with 0 in Hlt. lia.
  - destruct (Z.lt_ge_cases r (cyd (Z.of_nat k))) as [Hl|Hg].
    + destruct IH as (i & ? & ?); [lia | done |]. exists i. lia.
    + exists (Z.of_nat k). replace (Z.of_nat k + 1) with (Z.of_nat (S k)) by lia. lia.
Qed.

(** A date of the calendar whose day number lies between those of the first
    and the last supported day is in the supported range. *)
Lemma day_number_valid y m d :
  1 ≤ m ≤ 12 → 1 ≤ d ≤ month_days (IsLeapYear y) m → -2147483646 ≤ day_number y m d ≤ 2147483646 → valid_date y m d.
Proof.
  intros Hm Hd Hrange. split; [done|]. split; [done|]. revert Hrange. unfold day_number.
  unfold DATE_MIN_YEAR, DATE_MIN_MONTH, DATE_MIN_DAY, DATE_MAX_YEAR, DATE_MAX_MONTH, DATE_MAX_DAY.
  destruct (interval_split y) as (q & r & Hqr & Hr & -> & -> & _).
  destruct (month_facts (IsLeapYear y) m Hm) as (Hm1 & Hm2 & Hm3 & Hm4 & _).
  pose proof (year_days_pos (IsLeapYear y)). pose proof (cyd_bounds r ltac:(lia)) as Hc. intros Hn. split.
  - destruct (Z.lt_trichotomy y (-5877641)) as [Hy|[->|Hy]]; [exfalso | | lia].
    + assert (q < -14700 ∨ q = -14700 ∧ r ≤ 388) as [Hq|[-> Hr']] by lia; [nia|].
      destruct (Z.eq_dec r 388) as [->|]; [change (cyd 388) with 141714 in *; lia | nia].
    + right. split; [done|]. assert (q = -14700) as -> by lia. assert (r = 389) as -> by lia.
      change (cyd 389) with 142079 in *. change (IsLeapYear (-5877641)) with false in *.
      assert ((cumulative_days false m <=? (if m <=? 5 then 151 else 366)) = true) as Hcm.
      { apply (forallb_upto (λ m, cumulative_days false m <=? (if m <=? 5 then 151 else 366)) 13);
          [vm_compute; reflexivity | lia]. }
      destruct (Z.leb_spec m 5); [lia|]. destruct (Z.eq_dec m 6) as [->|]; [|lia].
      change (cumulative_days false (6 - 1)) with 151 in *. lia.
  - destruct (Z.lt_trichotomy y 5881580) as [Hy|[->|Hy]]; [lia | | exfalso].
    + right. split; [done|]. assert (q = 14699) as -> by lia. assert (r = 10) as -> by lia.
      change (cyd 10) with 3652 in *. change (IsLeapYear 5881580) with true in *.
      assert (((if m <=? 7 then 0 else 213) <=? cumulative_days true (m - 1)) = true) as Hcm.
      { replace m with (m - 1 + 1) at 1 by lia.
        apply (forallb_upto (λ k, (if k + 1 <=? 7 then 0 else 213) <=? cumulative_days true k) 12);
          [vm_compute; reflexivity | lia]. }
      destruct (Z.leb_spec m 7); [|lia]. destruct (Z.eq_dec m 7) as [->|]; [|lia].
      change (cumulative_days true (7 - 1)) with 182 in *. lia.
    + assert (14699 < q ∨ q = 14699 ∧ 11 ≤ r) as [Hq|[-> Hr']] by lia; [nia|].
      destruct (Z.eq_dec r 11) as [->|]; [change (cyd 11) with 4018 in *; lia | nia].
Qed.

(** * Round trips *)

(** C40.  Every valid date is converted to a day count and back: [FromDate]
    succeeds without overflow and [Convert] returns the same year, month and
    day. *)
Theorem date_roundtrip (y m d : Z) :
  valid_date y m d →
  ∃ n, FromDate y m d = Ok n ∧ -2147483648 < n < 2147483647 ∧ Convert n = Ok (y, m, d).
Proof.
  intros Hv. exists (day_number y m d). unfold FromDate. rewrite TryFromDate_valid by done.
  pose proof (day_number_range y m d Hv). split; [done|]. split; [lia|].
  pose proof (day_in_year y m d Hv) as Hdoy. destruct Hv as (Hm & Hd & _).
  destruct (interval_split y) as (q & r & Hqr & Hr & Hq & Hr' & Hl). rewrite Hl in *.
  rewrite (Convert_spec _ q r (cumulative_days (IsLeapYear (1970 + r)) (m - 1) + d - 1));
    [| lia | unfold day_number; rewrite Hl, Hq, Hr'; lia | done | done].
  destruct (month_facts (IsLeapYear (1970 + r)) m Hm) as (_ & _ & _ & _ & Hmo).
  rewrite Hmo by done. do 3 f_equal; lia.
Qed.

Lemma date_roundtrip_witness :
  ∃ n, FromDate 2024 2 29 = Ok n ∧ -2147483648 < n < 2147483647 ∧ Convert n = Ok (2024, 2, 29).
Proof.
  apply (date_roundtrip 2024 2 29). unfold valid_date, DATE_MIN_YEAR, DATE_MAX_YEAR.
  change (month_days (IsLeapYear 2024) 2) with 29. lia.
Defined.

(** Every day count between the first and the last supported day is
    converted to a valid date whose day count is the same number. *)
Theorem day_count_roundtrip (n : Z) :
  -2147483646 ≤ n ≤ 2147483646 →
  ∃ y m d, Convert n = Ok (y, m, d) ∧ valid_date y m d ∧ FromDate y m d = Ok n.
Proof.
  intros Hn. pose proof (Z.div_mod n 146097 ltac:(lia)). pose proof (Z.mod_pos_bound n 146097 ltac:(lia)).
  destruct (year_of_day (n mod 146097)) as (i & Hi & Hr); [lia|].
  set (q := n / 146097) in *. set (doy := n mod 146097 - cyd i).
  set (leap := IsLeapYear (1970 + i)). pose proof (cyd_step i Hi) as Hstep. fold leap in Hstep.
  assert (0 ≤ doy < year_days leap) as Hdoy by lia.
  destruct (doy_facts leap doy Hdoy) as [Hm Hd].
  exists (1970 + 400 * q + i), (month_of leap doy), (doy - cumulative_days leap (month_of leap doy - 1) + 1).
  assert (IsLeapYear (1970 + 400 * q + i) = leap) as Hl.
  { replace (1970 + 400 * q + i) with (1970 + i + 400 * q) by lia. apply leap_period. }
  split; [by apply Convert_spec; [lia | unfold doy; lia | |]|].
  assert (day_number (1970 + 400 * q + i) (month_of leap doy)
            (doy - cumulative_days leap (month_of leap doy - 1) + 1) = n) as Hdn.
  2: { assert (valid_date (1970 + 400 * q + i) (month_of leap doy)
                 (doy - cumulative_days leap (month_of leap doy - 1) + 1)) as Hv
         by (apply day_number_valid; rewrite ?Hl; lia).
       split; [done|]. unfold FromDate. rewrite TryFromDate_valid by done. by rewrite Hdn. }
  unfold day_number. rewrite Hl. replace (1970 + 400 * q + i - 1970) with (i + q * 400) by lia.
  rewrite Z.mod_add, Z.div_add, Z.mod_small, Z.div_small by lia. lia.
Qed.

