(* ===== verification/Types.v ===== *)
(** Types and values ([src/common/types.cpp], [src/common/types/value.cpp],
    the comparison operators of [src/include/duckdb/common/operator] and
    [src/common/vector_operations/comparison_operators.cpp]).

    A number of physical type [pt] is represented by a [Z]: the integer itself
    for the integer types and [BOOL], the IEEE 754 bit pattern for [FLOAT] and
    [DOUBLE]. *)
From S2P Require Import Prelude Date.

(** * Physical and logical types *)

Inductive PhysicalType : Type :=
  | BOOL | UINT8 | INT8 | UINT16 | INT16 | UINT32 | INT32 | UINT64 | INT64
  | FLOAT | DOUBLE | PT_INTERVAL | PT_LIST | PT_STRUCT | PT_ARRAY | PT_VARCHAR
  | UINT128 | INT128 | PT_UNKNOWN | PT_BIT | PT_INVALID.

#[export] Instance PhysicalType_eq_dec : EqDecision PhysicalType.
Proof. solve_decision. Defined.

Inductive LogicalTypeId : Type :=
  | INVALID | SQLNULL | UNKNOWN | ANY | USER
  | BOOLEAN | TINYINT | SMALLINT | INTEGER | BIGINT | DATE | TIME
  | TIMESTAMP_SEC | TIMESTAMP_MS | TIMESTAMP | TIMESTAMP_NS
  | DECIMAL | T_FLOAT | T_DOUBLE | CHAR | VARCHAR | BLOB | INTERVAL
  | UTINYINT | USMALLINT | UINTEGER | UBIGINT | TIMESTAMP_TZ | TIME_TZ | BIT
  | STRING_LITERAL | INTEGER_LITERAL | UHUGEINT | HUGEINT | POINTER | VALIDITY | UUID
  | STRUCT | LIST | MAP | TABLE | ENUM | AGGREGATE_STATE | LAMBDA | UNION | ARRAY.

#[export] Instance LogicalTypeId_eq_dec : EqDecision LogicalTypeId.
Proof. solve_decision. Defined.

(** A type id with the type information of the parametrised types: [LT id] has
    no type information. *)
Inductive LogicalType : Type :=
  | LT (id : LogicalTypeId)
  | LT_DECIMAL (width scale : Z)
  | LT_ENUM (dictionary : list string)
  | LT_LIST (child : LogicalType)
  | LT_MAP (child : LogicalType)
  | LT_STRUCT (children : list (string * LogicalType))
  | LT_UNION (children : list (string * LogicalType))
  | LT_ARRAY (child : LogicalType) (size : Z).

(** Induction with the hypothesis for the children of a struct. *)
Section LogicalTypeInd.
Context (P : LogicalType → Prop).
Context (HLT : ∀ id, P (LT id)) (Hdec : ∀ w s, P (LT_DECIMAL w s)) (Henum : ∀ d, P (LT_ENUM d)).
Context (Hlist : ∀ c, P c → P (LT_LIST c)) (Hmap : ∀ c, P c → P (LT_MAP c)).
Context (Hstruct : ∀ cs, Forall (λ c, P c.2) cs → P (LT_STRUCT cs)).
Context (Hunion : ∀ cs, Forall (λ c, P c.2) cs → P (LT_UNION cs)).
Context (Harray : ∀ c n, P c → P (LT_ARRAY c n)).

Fixpoint LogicalType_ind' (t : LogicalType) : P t :=
  match t with
  | LT id => HLT id
  | LT_DECIMAL w s => Hdec w s
  | LT_ENUM d => Henum d
  | LT_LIST c => Hlist c (LogicalType_ind' c)
  | LT_MAP c => Hmap c (LogicalType_ind' c)
  | LT_STRUCT cs => Hstruct cs
      ((fix go cs := match cs return Forall (λ c, P c.2) cs with
        | [] => Forall_nil_2 _ | c :: cs' => Forall_cons_2 _ _ _ (LogicalType_ind' c.2) (go cs') end) cs)
  | LT_UNION cs => Hunion cs
      ((fix go cs := match cs return Forall (λ c, P c.2) cs with
        | [] => Forall_nil_2 _ | c :: cs' => Forall_cons_2 _ _ _ (LogicalType_ind' c.2) (go cs') end) cs)
  | LT_ARRAY c n => Harray c n (LogicalType_ind' c)
  end.
End LogicalTypeInd.

Definition id (t : LogicalType) : LogicalTypeId :=
  match t with
  | LT i => i | LT_DECIMAL _ _ => DECIMAL | LT_ENUM _ => ENUM | LT_LIST _ => LIST | LT_MAP _ => MAP
  | LT_STRUCT _ => STRUCT | LT_UNION _ => UNION | LT_ARRAY _ _ => ARRAY
  end.

(** [LogicalType::operator==] on the modelled type information. *)
Fixpoint LogicalType_eqb (a b : LogicalType) : bool :=
  let fix children_eqb (xs ys : list (string * LogicalType)) : bool :=
    match xs, ys with
    | [], [] => true
    | (n, x) :: xs', (m, y) :: ys' => bool_decide (n = m) && LogicalType_eqb x y && children_eqb xs' ys'
    | _, _ => false
    end in
  match a, b with
  | LT i, LT j => bool_decide (i = j)
  | LT_DECIMAL w s, LT_DECIMAL w' s' => (w =? w') && (s =? s')
  | LT_ENUM d, LT_ENUM d' => bool_decide (d = d')
  | LT_LIST c, LT_LIST c' | LT_MAP c, LT_MAP c' => LogicalType_eqb c c'
  | LT_STRUCT cs, LT_STRUCT cs' | LT_UNION cs, LT_UNION cs' => children_eqb cs cs'
  | LT_ARRAY c n, LT_ARRAY c' n' => LogicalType_eqb c c' && (n =? n')
  | _, _ => false
  end.

Lemma LogicalType_eqb_refl t : LogicalType_eqb t t = true.
Proof.
  induction t as [i|w s|d|c IH|c IH|cs IH|cs IH|c n IH] using LogicalType_ind'; cbn;
    rewrite ?bool_decide_true, ?Z.eqb_refl, ?IH by done; try done;
    induction IH as [|[nm c] cs' Hc Hcs IHcs]; try done; cbn in *;
    by rewrite bool_decide_true, Hc, IHcs by done.
Qed.

Definition MAX_WIDTH_INT16 : Z := 4.
Definition MAX_WIDTH_INT32 : Z := 9.
Definition MAX_WIDTH_INT64 : Z := 18.
Definition MAX_WIDTH_INT128 : Z := 38.

(** [EnumTypeInfo::DictType]. *)
Definition DictType (size : Z) : result PhysicalType :=
  if size <=? 255 then Ok UINT8
  else if size <=? 65535 then Ok UINT16
  else if size <=? UINT32_MAX then Ok UINT32
  else Throw (InternalException "Enum size must be lower than 4294967295").

(** [LogicalType::GetInternalType] (64-bit pointers). *)
Definition GetInternalType (t : LogicalType) : result PhysicalType :=
  match id t with
  | BOOLEAN => Ok BOOL
  | TINYINT => Ok INT8
  | UTINYINT => Ok UINT8
  | SMALLINT => Ok INT16
  | USMALLINT => Ok UINT16
  | SQLNULL | DATE | INTEGER => Ok INT32
  | UINTEGER => Ok UINT32
  | BIGINT | TIME | TIMESTAMP | TIMESTAMP_SEC | TIMESTAMP_NS | TIMESTAMP_MS | TIME_TZ | TIMESTAMP_TZ => Ok INT64
  | UBIGINT => Ok UINT64
  | UHUGEINT => Ok UINT128
  | HUGEINT | UUID => Ok INT128
  | T_FLOAT => Ok FLOAT
  | T_DOUBLE => Ok DOUBLE
  | DECIMAL =>
      match t with
      | LT_DECIMAL width _ =>
          if width <=? MAX_WIDTH_INT16 then Ok INT16
          else if width <=? MAX_WIDTH_INT32 then Ok INT32
          else if width <=? MAX_WIDTH_INT64 then Ok INT64
          else if width <=? MAX_WIDTH_INT128 then Ok INT128
          else Throw (InternalException "Decimal has a width which is bigger than the maximum supported width")
      | _ => Ok PT_INVALID
      end
  | VARCHAR | CHAR | BLOB | BIT => Ok PT_VARCHAR
  | INTERVAL => Ok PT_INTERVAL
  | UNION | STRUCT => Ok PT_STRUCT
  | LIST | MAP => Ok PT_LIST
  | ARRAY => Ok PT_ARRAY
  | POINTER => Ok UINT64
  | VALIDITY => Ok PT_BIT
  | ENUM => match t with LT_ENUM d => DictType (Z.of_nat (length d)) | _ => Ok PT_INVALID end
  | TABLE | LAMBDA | ANY | INVALID | UNKNOWN | STRING_LITERAL | INTEGER_LITERAL => Ok PT_INVALID
  | USER => Ok PT_UNKNOWN
  | AGGREGATE_STATE => Ok PT_VARCHAR
  end.

(** [InternalType()] returns the physical type computed by the constructor; a
    type whose constructor throws does not exist. *)
Definition InternalType (t : LogicalType) : PhysicalType :=
  match GetInternalType t with Ok p => p | Throw _ => PT_INVALID end.

(** * Numbers *)

(** Width in bits and signedness of the types stored in the value unions. *)
Definition num_width (pt : PhysicalType) : option (Z * bool) :=
  match pt with
  | BOOL => Some (8, false)
  | INT8 => Some (8, true) | INT16 => Some (16, true) | INT32 => Some (32, true) | INT64 => Some (64, true)
  | UINT8 => Some (8, false) | UINT16 => Some (16, false) | UINT32 => Some (32, false) | UINT64 => Some (64, false)
  | INT128 => Some (128, true) | UINT128 => Some (128, false)
  | FLOAT => Some (32, false) | DOUBLE => Some (64, false)
  | _ => None
  end.

Definition is_numeric (pt : PhysicalType) : bool := bool_decide (is_Some (num_width pt)).

(** A member of a value union: the last member written and its value. *)
Definition union_value : Type := PhysicalType * Z.

(** Reading member [pt].  Another member of at most the same size reads the low
    bytes of the one that was written; a larger one reads bytes nobody wrote. *)
Definition union_get (pt : PhysicalType) (u : union_value) : result Z :=
  if bool_decide (pt = u.1) then Ok u.2
  else match num_width pt, num_width u.1 with
  | Some (w, signed), Some (w', _) =>
      if w <=? w' then Ok (if signed then wraps w u.2 else wrapu w u.2)
      else Throw (UndefinedBehaviour "read of union bytes that were not written")
  | _, _ => Throw (UndefinedBehaviour "read of an inactive union member")
  end.

(** The smallest and largest finite values: [NumericLimits<T>::Minimum] and
    [Maximum]; for the floating point types [lowest()] and [max()]. *)
Definition NumericLimits_Minimum (pt : PhysicalType) : Z :=
  match pt with
  | INT8 => - 2 ^ 7 | INT16 => - 2 ^ 15 | INT32 => - 2 ^ 31 | INT64 => - 2 ^ 63 | INT128 => - 2 ^ 127
  | FLOAT => 0xFF7FFFFF | DOUBLE => 0xFFEFFFFFFFFFFFFF
  | _ => 0
  end.
Definition NumericLimits_Maximum (pt : PhysicalType) : Z :=
  match pt with
  | BOOL => 1
  | INT8 => 2 ^ 7 - 1 | INT16 => 2 ^ 15 - 1 | INT32 => 2 ^ 31 - 1 | INT64 => 2 ^ 63 - 1 | INT128 => 2 ^ 127 - 1
  | UINT8 => 2 ^ 8 - 1 | UINT16 => 2 ^ 16 - 1 | UINT32 => 2 ^ 32 - 1 | UINT64 => 2 ^ 64 - 1 | UINT128 => 2 ^ 128 - 1
  | FLOAT => 0x7F7FFFFF | DOUBLE => 0x7FEFFFFFFFFFFFFF
  | _ => 0
  end.

(** ** Comparison operators *)

Definition is_float (pt : PhysicalType) : bool :=
  match pt with FLOAT | DOUBLE => true | _ => false end.

(** Bits of the pattern without the sign, and the pattern of infinity. *)
Definition float_sign_bit (pt : PhysicalType) : Z := match pt with DOUBLE => 63 | _ => 31 end.
Definition float_infinity (pt : PhysicalType) : Z := match pt with DOUBLE => 0x7FF0000000000000 | _ => 0x7F800000 end.
Definition float_magnitude (pt : PhysicalType) (v : Z) : Z := v mod 2 ^ float_sign_bit pt.

(** [std::isnan]. *)
Definition IsNan (pt : PhysicalType) (v : Z) : bool := float_infinity pt <? float_magnitude pt v.

(** IEEE 754 order of the patterns that are not NaN: by magnitude, reversed
    for the negative ones, with one zero. *)
Definition float_order (pt : PhysicalType) (v : Z) : Z :=
  if Z.testbit v (float_sign_bit pt) then - float_magnitude pt v else float_magnitude pt v.

(** The built-in [==] and [>]. *)
Definition native_eq (pt : PhysicalType) (l r : Z) : bool :=
  if is_float pt then negb (IsNan pt l) && negb (IsNan pt r) && (float_order pt l =? float_order pt r) else l =? r.
Definition native_gt (pt : PhysicalType) (l r : Z) : bool :=
  if is_float pt then negb (IsNan pt l) && negb (IsNan pt r) && (float_order pt r <? float_order pt l) else r <? l.
Definition native_ge (pt : PhysicalType) (l r : Z) : bool :=
  if is_float pt then negb (IsNan pt l) && negb (IsNan pt r) && (float_order pt r <=? float_order pt l) else r <=? l.

Definition EqualsFloat (pt : PhysicalType) (l r : Z) : bool :=
  if IsNan pt l && IsNan pt r then true else native_eq pt l r.

Definition GreaterThanFloat (pt : PhysicalType) (l r : Z) : bool :=
  let left_is_nan := IsNan pt l in
  let right_is_nan := IsNan pt r in
  if right_is_nan then false
  else if left_is_nan then true
  else native_gt pt l r.

Definition GreaterThanEqualsFloat (pt : PhysicalType) (l r : Z) : bool :=
  let left_is_nan := IsNan pt l in
  let right_is_nan := IsNan pt r in
  if right_is_nan then left_is_nan
  else if left_is_nan then true
  else native_ge pt l r.

Definition Equals (pt : PhysicalType) (l r : Z) : bool :=
  if is_float pt then EqualsFloat pt l r else native_eq pt l r.
Definition NotEquals (pt : PhysicalType) (l r : Z) : bool := negb (Equals pt l r).
Definition GreaterThan (pt : PhysicalType) (l r : Z) : bool :=
  if is_float pt then GreaterThanFloat pt l r else native_gt pt l r.
Definition GreaterThanEquals (pt : PhysicalType) (l r : Z) : bool :=
  if is_float pt then GreaterThanEqualsFloat pt l r else negb (GreaterThan pt r l).
Definition LessThan (pt : PhysicalType) (l r : Z) : bool := GreaterThan pt r l.
Definition LessThanEquals (pt : PhysicalType) (l r : Z) : bool := negb (GreaterThan pt l r).

(** All operators agree with one integer key per value: the order is total,
    NaN is greatest and equal to itself, the two zeros are equal. *)
Definition num_key (pt : PhysicalType) (v : Z) : Z :=
  if is_float pt then (if IsNan pt v then 2 ^ float_sign_bit pt else float_order pt v) else v.

Lemma float_order_bound pt v : float_order pt v < 2 ^ float_sign_bit pt.
Proof.
  unfold float_order, float_magnitude.
  assert (0 < 2 ^ float_sign_bit pt) by (destruct pt; cbn; lia).
  pose proof (Z.mod_pos_bound v (2 ^ float_sign_bit pt)). case_match; lia.
Qed.

Ltac num_key_solve pt l r :=
  unfold NotEquals, GreaterThanEquals, LessThan, LessThanEquals; unfold Equals, GreaterThan, num_key,
    EqualsFloat, GreaterThanFloat, GreaterThanEqualsFloat, native_eq, native_gt, native_ge;
  pose proof (float_order_bound pt l); pose proof (float_order_bound pt r);
  generalize dependent (2 ^ float_sign_bit pt); intros;
  destruct (is_float pt); [destruct (IsNan pt l), (IsNan pt r)|]; cbn [negb andb]; rewrite ?Z.eqb_refl; lia.

Lemma Equals_key pt l r : Equals pt l r = (num_key pt l =? num_key pt r).
Proof. num_key_solve pt l r. Qed.
Lemma GreaterThan_key pt l r : GreaterThan pt l r = (num_key pt r <? num_key pt l).
Proof. num_key_solve pt l r. Qed.
Lemma GreaterThanEquals_key pt l r : GreaterThanEquals pt l r = (num_key pt r <=? num_key pt l).
Proof. num_key_solve pt l r. Qed.
Lemma LessThan_key pt l r : LessThan pt l r = (num_key pt l <? num_key pt r).
Proof. apply GreaterThan_key. Qed.
Lemma LessThanEquals_key pt l r : LessThanEquals pt l r = (num_key pt l <=? num_key pt r).
Proof. num_key_solve pt l r. Qed.

(** * Values *)

(** A value of a type: NULL, a number (with the union member it was written
    to), a byte string, or the children of a nested value. *)
Inductive Value : Type :=
  | V_null (type_ : LogicalType)
  | V_num (type_ : LogicalType) (value_ : union_value)
  | V_string (type_ : LogicalType) (bytes : list Z)
  | V_nested (type_ : LogicalType) (children : list Value).

Definition value_type (v : Value) : LogicalType :=
  match v with V_null t | V_num t _ | V_string t _ | V_nested t _ => t end.

Definition Value_IsNull (v : Value) : bool := match v with V_null _ => true | _ => false end.

(** [GetTypeMutable() = t]. *)
Definition Value_set_type (v : Value) (t : LogicalType) : Value :=
  match v with
  | V_null _ => V_null t
  | V_num _ u => V_num t u
  | V_string _ s => V_string t s
  | V_nested _ c => V_nested t c
  end.

(** [GetValueUnsafe<T>] for the numeric types: it reads the member of [T]
    whatever the type of the value. *)
Definition GetValueUnsafe (pt : PhysicalType) (v : Value) : result Z :=
  match v with
  | V_num _ u => union_get pt u
  | _ => Throw (UndefinedBehaviour "read of a value that was not written")
  end.

Definition StringValue_Get (v : Value) : result (list Z) :=
  match v with
  | V_null _ => Throw (InternalException "Calling StringValue::Get on a NULL value")
  | V_string _ s => Ok s
  | _ => Throw (UndefinedBehaviour "StringValue::Get on a value that is not a string")
  end.

(** [StructValue::GetChildren], [ListValue::GetChildren] and
    [ArrayValue::GetChildren]. *)
Definition Value_GetChildren (v : Value) : result (list Value) :=
  match v with
  | V_null _ => Throw (InternalException "Calling GetChildren on a NULL value")
  | V_nested _ cs => Ok cs
  | _ => Throw (UndefinedBehaviour "GetChildren on a value without children")
  end.

(** [NumericCast] to a type narrower than the source. *)
Definition NumericCast (pt : PhysicalType) (v : Z) : result Z :=
  if (NumericLimits_Minimum pt <=? v) && (v <=? NumericLimits_Maximum pt) then Ok v
  else Throw (InternalException "Information loss on integer cast").

(** ** Extreme values *)

Definition MICROS_PER_MSEC : Z := 1000.
Definition MICROS_PER_SEC : Z := 1000000.
Definition MICROS_PER_DAY : Z := 86400000000.

Definition fits_int64 (v : Z) : bool := (- 2 ^ 63 <=? v) && (v <=? 2 ^ 63 - 1).

Definition Timestamp_IsFinite (ts : Z) : bool :=
  negb (ts =? NumericLimits_Maximum INT64) && negb (ts =? - NumericLimits_Maximum INT64).

(** [Timestamp::FromDatetime]; the multiplication and addition are checked. *)
Definition Timestamp_FromDatetime (date time : Z) : result Z :=
  let overflow := Throw (ConversionException "Overflow exception in date/time -> timestamp conversion") in
  if negb (fits_int64 (date * MICROS_PER_DAY)) then overflow
  else
    let r := date * MICROS_PER_DAY + time in
    if negb (fits_int64 r) then overflow
    else if Timestamp_IsFinite r then Ok r else overflow.

(** [dtime_tz_t(t, offset)]. *)
Definition dtime_tz_MAX_OFFSET : Z := 16 * 60 * 60 - 1.
Definition dtime_tz (micros offset : Z) : Z :=
  Z.lor (wrapu 64 (Z.shiftl micros 24)) (wrapu 64 (dtime_tz_MAX_OFFSET - offset)).

Definition POWERS_OF_TEN : list Z := (λ k, 10 ^ Z.of_nat k) <$> seq 0 19.
Definition Hugeint_POWERS_OF_TEN : list Z := (λ k, 10 ^ Z.of_nat k) <$> seq 0 39.

(** [Value::DECIMAL(int64_t, width, scale)]. *)
Definition Value_DECIMAL (value width scale : Z) : result Value :=
  let t := LT_DECIMAL width scale in
  match InternalType t with
  | INT16 => v ← NumericCast INT16 value; Ok (V_num t (INT16, v))
  | INT32 => v ← NumericCast INT32 value; Ok (V_num t (INT32, v))
  | INT64 => Ok (V_num t (INT64, value))
  | _ => Ok (V_num t (INT128, value))
  end.

(** [Value::ENUM]. *)
Definition Value_ENUM (value : Z) (t : LogicalType) : result Value :=
  match InternalType t with
  | UINT8 => v ← NumericCast UINT8 value; Ok (V_num t (UINT8, v))
  | UINT16 => v ← NumericCast UINT16 value; Ok (V_num t (UINT16, v))
  | UINT32 => v ← NumericCast UINT32 value; Ok (V_num t (UINT32, v))
  | _ => Throw (InternalException "Incorrect Physical Type for ENUM")
  end.

(** The decimal case of both functions; [lim] is [-10^width + 1] or
    [10^width - 1]. *)
Definition decimal_extreme (t : LogicalType) (width scale : Z) (lim : Z → Z) : result Value :=
  match InternalType t with
  | INT16 => p ← at32 POWERS_OF_TEN width; Value_DECIMAL (wraps 16 (lim p)) width scale
  | INT32 => p ← at32 POWERS_OF_TEN width; Value_DECIMAL (wraps 32 (lim p)) width scale
  | INT64 => p ← at32 POWERS_OF_TEN width; Value_DECIMAL (lim p) width scale
  | INT128 => p ← at32 Hugeint_POWERS_OF_TEN width; Ok (V_num (LT_DECIMAL width scale) (INT128, lim p))
  | _ => Throw (InternalException "Unknown decimal type")
  end.

Definition min_timestamp : result Z := d ← FromDate (-290308) 12 22; Timestamp_FromDatetime d 0.

Definition MinimumValue (t : LogicalType) : result Value :=
  match t with
  | LT BOOLEAN => Ok (V_num (LT BOOLEAN) (BOOL, 0))
  | LT TINYINT => Ok (V_num (LT TINYINT) (INT8, NumericLimits_Minimum INT8))
  | LT SMALLINT => Ok (V_num (LT SMALLINT) (INT16, NumericLimits_Minimum INT16))
  | LT INTEGER | LT SQLNULL => Ok (V_num (LT INTEGER) (INT32, NumericLimits_Minimum INT32))
  | LT BIGINT => Ok (V_num (LT BIGINT) (INT64, NumericLimits_Minimum INT64))
  | LT HUGEINT => Ok (V_num (LT HUGEINT) (INT128, NumericLimits_Minimum INT128))
  | LT UHUGEINT => Ok (V_num (LT UHUGEINT) (UINT128, NumericLimits_Minimum UINT128))
  | LT UUID => Ok (V_num (LT UUID) (INT128, NumericLimits_Minimum INT128))
  | LT UTINYINT => Ok (V_num (LT UTINYINT) (UINT8, NumericLimits_Minimum UINT8))
  | LT USMALLINT => Ok (V_num (LT USMALLINT) (UINT16, NumericLimits_Minimum UINT16))
  | LT UINTEGER => Ok (V_num (LT UINTEGER) (UINT32, NumericLimits_Minimum UINT32))
  | LT UBIGINT => Ok (V_num (LT UBIGINT) (UINT64, NumericLimits_Minimum UINT64))
  | LT DATE => d ← FromDate DATE_MIN_YEAR DATE_MIN_MONTH DATE_MIN_DAY; Ok (V_num (LT DATE) (INT32, d))
  | LT TIME => Ok (V_num (LT TIME) (INT64, 0))
  | LT TIMESTAMP => m ← min_timestamp; Ok (V_num (LT TIMESTAMP) (INT64, m))
  | LT TIMESTAMP_SEC => m ← min_timestamp; Ok (V_num (LT TIMESTAMP_SEC) (INT64, Z.quot m MICROS_PER_SEC))
  | LT TIMESTAMP_MS => m ← min_timestamp; Ok (V_num (LT TIMESTAMP_MS) (INT64, Z.quot m MICROS_PER_MSEC))
  | LT TIMESTAMP_NS => Ok (V_num (LT TIMESTAMP_NS) (INT64, NumericLimits_Minimum INT64))
  | LT TIME_TZ => Ok (V_num (LT TIME_TZ) (UINT64, dtime_tz 0 dtime_tz_MAX_OFFSET))
  | LT TIMESTAMP_TZ => m ← min_timestamp; Ok (V_num (LT TIMESTAMP_TZ) (INT64, m))
  | LT T_FLOAT => Ok (V_num (LT T_FLOAT) (FLOAT, NumericLimits_Minimum FLOAT))
  | LT T_DOUBLE => Ok (V_num (LT T_DOUBLE) (DOUBLE, NumericLimits_Minimum DOUBLE))
  | LT_DECIMAL width scale => decimal_extreme t width scale (λ p, - p + 1)
  | LT_ENUM _ => Value_ENUM 0 t
  | LT DECIMAL | LT ENUM => Throw (UndefinedBehaviour "type without its type information")
  | _ => Throw (InvalidTypeException "MinimumValue requires numeric type")
  end.

Definition max_timestamp : Z := NumericLimits_Maximum INT64 - 1.

Definition MaximumValue (t : LogicalType) : result Value :=
  match t with
  | LT BOOLEAN => Ok (V_num (LT BOOLEAN) (BOOL, 1))
  | LT TINYINT => Ok (V_num (LT TINYINT) (INT8, NumericLimits_Maximum INT8))
  | LT SMALLINT => Ok (V_num (LT SMALLINT) (INT16, NumericLimits_Maximum INT16))
  | LT INTEGER | LT SQLNULL => Ok (V_num (LT INTEGER) (INT32, NumericLimits_Maximum INT32))
  | LT BIGINT => Ok (V_num (LT BIGINT) (INT64, NumericLimits_Maximum INT64))
  | LT HUGEINT => Ok (V_num (LT HUGEINT) (INT128, NumericLimits_Maximum INT128))
  | LT UHUGEINT => Ok (V_num (LT UHUGEINT) (UINT128, NumericLimits_Maximum UINT128))
  | LT UUID => Ok (V_num (LT UUID) (INT128, NumericLimits_Maximum INT128))
  | LT UTINYINT => Ok (V_num (LT UTINYINT) (UINT8, NumericLimits_Maximum UINT8))
  | LT USMALLINT => Ok (V_num (LT USMALLINT) (UINT16, NumericLimits_Maximum UINT16))
  | LT UINTEGER => Ok (V_num (LT UINTEGER) (UINT32, NumericLimits_Maximum UINT32))
  | LT UBIGINT => Ok (V_num (LT UBIGINT) (UINT64, NumericLimits_Maximum UINT64))
  | LT DATE => d ← FromDate DATE_MAX_YEAR DATE_MAX_MONTH DATE_MAX_DAY; Ok (V_num (LT DATE) (INT32, d))
  | LT TIME => Ok (V_num (LT TIME) (INT64, MICROS_PER_DAY))
  | LT TIMESTAMP => Ok (V_num (LT TIMESTAMP) (INT64, max_timestamp))
  | LT TIMESTAMP_MS => Ok (V_num (LT TIMESTAMP_MS) (INT64, Z.quot max_timestamp MICROS_PER_MSEC))
  | LT TIMESTAMP_NS => Ok (V_num (LT TIMESTAMP_NS) (INT64, NumericLimits_Maximum INT64 - 1))
  | LT TIMESTAMP_SEC => Ok (V_num (LT TIMESTAMP_SEC) (INT64, Z.quot max_timestamp MICROS_PER_SEC))
  | LT TIME_TZ => Ok (V_num (LT TIME_TZ) (UINT64, dtime_tz MICROS_PER_DAY (- dtime_tz_MAX_OFFSET)))
  | LT TIMESTAMP_TZ => Ok (V_num (LT TIMESTAMP) (INT64, max_timestamp))
  | LT T_FLOAT => Ok (V_num (LT T_FLOAT) (FLOAT, NumericLimits_Maximum FLOAT))
  | LT T_DOUBLE => Ok (V_num (LT T_DOUBLE) (DOUBLE, NumericLimits_Maximum DOUBLE))
  | LT_DECIMAL width scale => decimal_extreme t width scale (λ p, p - 1)
  | LT_ENUM d => Value_ENUM (wrapu 64 (Z.of_nat (length d) - 1)) t
  | LT DECIMAL | LT ENUM => Throw (UndefinedBehaviour "type without its type information")
  | _ => Throw (InvalidTypeException "MaximumValue requires numeric type")
  end.

(** ** Comparison of values *)

(** [std::string] comparison: the first differing byte, then the length. *)
Fixpoint bytes_gt (l r : list Z) : bool :=
  match l, r with
  | [], _ => false
  | _ :: _, [] => true
  | a :: l', b :: r' => if a =? b then bytes_gt l' r' else b <? a
  end.

(** The two operators [TemplatedBooleanOperation] is instantiated with. *)
Inductive value_op : Type := OpEquals | OpGreaterThan.

Definition op_num (op : value_op) (pt : PhysicalType) (l r : Z) : bool :=
  match op with OpEquals => Equals pt l r | OpGreaterThan => GreaterThan pt l r end.
Definition op_string (op : value_op) (l r : list Z) : bool :=
  match op with OpEquals => bool_decide (l = r) | OpGreaterThan => bytes_gt l r end.
Definition op_size (op : value_op) (l r : nat) : bool :=
  match op with OpEquals => (l =? r)%nat | OpGreaterThan => (r <? l)%nat end.

(** [TemplatedBooleanOperation] on values of the same type; a comparison that
    first casts its arguments to a common type is not modelled.  For nested
    values [nd] is [NotDistinctFrom], [dgt] is [DistinctGreaterThan], and
    [definite], [possible] and [final] are the [ValuePositionComparator]
    members of the two instances. *)
Fixpoint TemplatedBooleanOperation (op : value_op) (l r : Value) {struct l} : result bool :=
  if negb (LogicalType_eqb (value_type l) (value_type r)) then Throw (Unmodelled "comparison after a cast")
  else
    let nd := λ a b,
      if Value_IsNull a && Value_IsNull b then Ok true
      else if negb (Bool.eqb (Value_IsNull a) (Value_IsNull b)) then Ok false
      else TemplatedBooleanOperation OpEquals a b in
    let dgt := λ a b,
      if Value_IsNull a && Value_IsNull b then Ok false
      else if Value_IsNull b then Ok false
      else if Value_IsNull a then Ok true
      else TemplatedBooleanOperation OpGreaterThan a b in
    let definite := λ a b, match op with OpEquals => Ok false | OpGreaterThan => dgt a b end in
    let possible := λ a b, nd a b in
    let final := λ a b, match op with OpEquals => nd a b | OpGreaterThan => dgt a b end in
    match InternalType (value_type l) with
    | PT_INTERVAL => Throw (Unmodelled "interval comparison")
    | PT_VARCHAR => a ← StringValue_Get l; b ← StringValue_Get r; Ok (op_string op a b)
    | PT_STRUCT =>
        match l with
        | V_nested _ ls =>
            rs ← Value_GetChildren r;
            (fix positions (ls rs : list Value) : result bool :=
               match ls, rs with
               | [a], b :: _ => final a b
               | a :: ls', b :: rs' =>
                   d ← definite a b; if (d : bool) then Ok true else
                   p ← possible a b; if negb p then Ok false else positions ls' rs'
               | _, _ => Throw (UndefinedBehaviour "child value out of range")
               end) ls rs
        | _ => Value_GetChildren l ≫= λ _, Throw (UndefinedBehaviour "child value out of range")
        end
    | PT_LIST =>
        match l with
        | V_nested _ ls0 =>
            rs0 ← Value_GetChildren r;
            (fix positions (ls rs : list Value) : result bool :=
               match ls, rs with
               | [], _ | _, [] => Ok (op_size op (length ls0) (length rs0))
               | a :: ls', b :: rs' =>
                   d ← definite a b; if (d : bool) then Ok true else
                   p ← possible a b; if negb p then Ok false else positions ls' rs'
               end) ls0 rs0
        | _ => Value_GetChildren l ≫= λ _, Throw (UndefinedBehaviour "child value out of range")
        end
    | PT_ARRAY =>
        match l with
        | V_nested _ ls =>
            rs ← Value_GetChildren r;
            (fix positions (ls rs : list Value) : result bool :=
               match ls, rs with
               | [], _ => Ok true
               | a :: ls', b :: rs' =>
                   d ← definite a b; if (d : bool) then Ok true else
                   p ← possible a b; if negb p then Ok false else positions ls' rs'
               | _, _ => Throw (UndefinedBehaviour "child value out of range")
               end) ls rs
        | _ => Value_GetChildren l ≫= λ _, Throw (UndefinedBehaviour "child value out of range")
        end
    | PT_UNKNOWN | PT_BIT | PT_INVALID => Throw (InternalException "Unimplemented type for value comparison")
    | pt => a ← GetValueUnsafe pt l; b ← GetValueUnsafe pt r; Ok (op_num op pt a b)
    end.

Definition ValueOperations_Equals (l r : Value) : result bool :=
  if Value_IsNull l || Value_IsNull r then Throw (InternalException "Comparison on NULL values")
  else TemplatedBooleanOperation OpEquals l r.
Definition ValueOperations_GreaterThan (l r : Value) : result bool :=
  if Value_IsNull l || Value_IsNull r then Throw (InternalException "Comparison on NULL values")
  else TemplatedBooleanOperation OpGreaterThan l r.
Definition ValueOperations_LessThan (l r : Value) : result bool := ValueOperations_GreaterThan r l.
Definition ValueOperations_LessThanEquals (l r : Value) : result bool := negb <$> ValueOperations_GreaterThan l r.

(** Values of a numeric type compare by their keys. *)
Lemma numeric_GreaterThan t pt x y :
  InternalType t = pt → is_numeric pt = true →
  ValueOperations_GreaterThan (V_num t (pt, x)) (V_num t (pt, y)) = Ok (GreaterThan pt x y).
Proof.
  intros Ht Hpt. unfold ValueOperations_GreaterThan. cbn [Value_IsNull orb TemplatedBooleanOperation value_type].
  rewrite LogicalType_eqb_refl, Ht. cbn [negb]. unfold GetValueUnsafe, union_get. cbn [fst snd].
  clear Ht. destruct pt; done || (exfalso; by vm_compute in Hpt).
Qed.

(** The array branch answers true once all positions compare equal, whatever
    the operator: an array value is greater than itself. *)
Lemma array_greater_than_itself :
  let v := V_nested (LT_ARRAY (LT INTEGER) 1) [V_num (LT INTEGER) (INT32, 7)] in
  ValueOperations_GreaterThan v v = Ok true.
Proof. reflexivity. Qed.
