(* ===== verification/Stats.v ===== *)
(** The data of column statistics
    ([src/include/duckdb/storage/statistics/base_statistics.hpp] and the
    headers of the numeric and string statistics), the vectors they are
    checked against, and the serialized form. *)
From S2P Require Import Prelude Types.

(** * Enumerations *)

Inductive ExpressionType : Type :=
  | COMPARE_EQUAL | COMPARE_NOTEQUAL | COMPARE_LESSTHAN | COMPARE_GREATERTHAN
  | COMPARE_LESSTHANOREQUALTO | COMPARE_GREATERTHANOREQUALTO
  | COMPARE_IN | COMPARE_NOT_IN | COMPARE_DISTINCT_FROM | COMPARE_BETWEEN
  | COMPARE_NOT_BETWEEN | COMPARE_NOT_DISTINCT_FROM
  | OTHER_EXPRESSION.

#[export] Instance ExpressionType_eq_dec : EqDecision ExpressionType.
Proof. solve_decision. Defined.

Inductive FilterPropagateResult : Type :=
  | NO_PRUNING_POSSIBLE
  | FILTER_ALWAYS_TRUE
  | FILTER_ALWAYS_FALSE
  | FILTER_TRUE_OR_NULL
  | FILTER_FALSE_OR_NULL.

#[export] Instance FilterPropagateResult_eq_dec : EqDecision FilterPropagateResult.
Proof. solve_decision. Defined.

Inductive StatisticsType : Type :=
  | NUMERIC_STATS | STRING_STATS | LIST_STATS | STRUCT_STATS | BASE_STATS | ARRAY_STATS.

#[export] Instance StatisticsType_eq_dec : EqDecision StatisticsType.
Proof. solve_decision. Defined.

Inductive StatsInfo : Type :=
  | CAN_HAVE_NULL_VALUES | CANNOT_HAVE_NULL_VALUES
  | CAN_HAVE_VALID_VALUES | CANNOT_HAVE_VALID_VALUES | CAN_HAVE_NULL_AND_VALID_VALUES.

(** * Statistics *)

(** [NumericStatsData]; [None] is a union no member of which was written. *)
Record NumericStatsData : Type := mkNum {
  has_min : bool;
  has_max : bool;
  num_min : option union_value;
  num_max : option union_value;
}.

Definition MAX_STRING_MINMAX_SIZE : nat := 8.

Record StringStatsData : Type := mkStr {
  str_min : list Z;
  str_max : list Z;
  has_unicode : bool;
  has_max_string_length : bool;
  max_string_length : Z;
}.

(** The [stats_union] member. *)
Inductive stats_data : Type :=
  | D_uninit
  | D_numeric (d : NumericStatsData)
  | D_string (d : StringStatsData).

Inductive BaseStatistics : Type :=
  | mkStats (type : LogicalType) (has_null has_no_null : bool) (distinct_count : Z)
            (stats_union : stats_data) (child_stats : list BaseStatistics).

Definition stats_type (s : BaseStatistics) : LogicalType := let 'mkStats t _ _ _ _ _ := s in t.
Definition has_null (s : BaseStatistics) : bool := let 'mkStats _ b _ _ _ _ := s in b.
Definition has_no_null (s : BaseStatistics) : bool := let 'mkStats _ _ b _ _ _ := s in b.
Definition distinct_count (s : BaseStatistics) : Z := let 'mkStats _ _ _ d _ _ := s in d.
Definition stats_union (s : BaseStatistics) : stats_data := let 'mkStats _ _ _ _ u _ := s in u.
Definition child_stats (s : BaseStatistics) : list BaseStatistics := let 'mkStats _ _ _ _ _ c := s in c.

Definition set_validity (s : BaseStatistics) (n nn : bool) : BaseStatistics :=
  let 'mkStats t _ _ d u c := s in mkStats t n nn d u c.
Definition set_union (s : BaseStatistics) (u : stats_data) : BaseStatistics :=
  let 'mkStats t n nn d _ c := s in mkStats t n nn d u c.
Definition set_children (s : BaseStatistics) (c : list BaseStatistics) : BaseStatistics :=
  let 'mkStats t n nn d u _ := s in mkStats t n nn d u c.

(** Induction with the hypothesis for the child statistics. *)
Section StatsInd.
Context (P : BaseStatistics → Prop).
Context (H : ∀ t n nn d u c, Forall P c → P (mkStats t n nn d u c)).
Fixpoint BaseStatistics_ind' (s : BaseStatistics) : P s :=
  match s with
  | mkStats t n nn d u c => H t n nn d u c
      ((fix go c := match c return Forall P c with
        | [] => Forall_nil_2 _ | x :: c' => Forall_cons_2 _ _ _ (BaseStatistics_ind' x) (go c') end) c)
  end.
End StatsInd.

(** [BaseStatistics::GetStatsType]. *)
Definition GetStatsType (t : LogicalType) : StatisticsType :=
  if bool_decide (id t = SQLNULL) then BASE_STATS
  else match InternalType t with
  | BOOL | INT8 | INT16 | INT32 | INT64 | UINT8 | UINT16 | UINT32 | UINT64 | INT128 | UINT128 | FLOAT | DOUBLE =>
      NUMERIC_STATS
  | PT_VARCHAR => STRING_STATS
  | PT_STRUCT => STRUCT_STATS
  | PT_LIST => LIST_STATS
  | PT_ARRAY => ARRAY_STATS
  | _ => BASE_STATS
  end.

(** [InitializeUnknown] and [InitializeEmpty]. *)
Definition InitializeUnknown (s : BaseStatistics) : BaseStatistics := set_validity s true true.
Definition InitializeEmpty (s : BaseStatistics) : BaseStatistics := set_validity s false true.

(** [StructType::GetChildTypes], [ListType::GetChildType] and
    [ArrayType::GetChildType]. *)
Definition struct_child_types (t : LogicalType) : result (list LogicalType) :=
  match t with
  | LT_STRUCT cs | LT_UNION cs => Ok (cs.*2)
  | _ => Throw (UndefinedBehaviour "type without its type information")
  end.
Definition list_child_type (t : LogicalType) : result LogicalType :=
  match t with
  | LT_LIST c | LT_MAP c => Ok c
  | _ => Throw (UndefinedBehaviour "type without its type information")
  end.
Definition array_child_type (t : LogicalType) : result LogicalType :=
  match t with
  | LT_ARRAY c _ => Ok c
  | _ => Throw (UndefinedBehaviour "type without its type information")
  end.

(** * Vectors *)

(** A vector in unified format: its rows (NULL is [None]), and for the nested
    types the child vectors. *)
Inductive Vector : Type :=
  | Vec_num (pt : PhysicalType) (rows : list (option Z))
  | Vec_string (rows : list (option (list Z)))
  | Vec_struct (rows : list bool) (entries : list Vector)
  | Vec_list (rows : list (option (nat * nat))) (child : Vector)
  | Vec_array (rows : list bool) (child : Vector) (array_size : nat)
  | Vec_other (rows : list bool).

(** [RowIsValid] of each row. *)
Definition validity_of (v : Vector) : list bool :=
  match v with
  | Vec_num _ rows => (λ r, bool_decide (is_Some r)) <$> rows
  | Vec_string rows => (λ r, bool_decide (is_Some r)) <$> rows
  | Vec_list rows _ => (λ r, bool_decide (is_Some r)) <$> rows
  | Vec_struct rows _ | Vec_array rows _ _ | Vec_other rows => rows
  end.

(** * Serialized form *)

(** A serialized value: a number of a physical type, a byte array, an object
    with its properties in writing order, or a list. *)
Inductive serialized : Type :=
  | S_num (pt : PhysicalType) (v : Z)
  | S_bytes (b : list Z)
  | S_object (props : list (Z * string * serialized))
  | S_list (elems : list serialized).

Definition S_bool (b : bool) : serialized := S_num BOOL (if b then 1 else 0).

(** [ReadProperty(field_id, tag)]: the next property must carry the field id. *)
Definition read_prop (field_id : Z) (o : list (Z * string * serialized))
    : result (serialized * list (Z * string * serialized)) :=
  match o with
  | (f, _, v) :: o' =>
      if f =? field_id then Ok (v, o')
      else Throw (SerializationException "Failed to deserialize: field id mismatch")
  | [] => Throw (SerializationException "Failed to deserialize: field id mismatch")
  end.

Definition as_num (pt : PhysicalType) (v : serialized) : result Z :=
  match v with
  | S_num p x => if bool_decide (p = pt) then Ok x else Throw (SerializationException "unexpected value")
  | _ => Throw (SerializationException "unexpected value")
  end.
Definition as_bool (v : serialized) : result bool := x ← as_num BOOL v; Ok (negb (x =? 0)).
Definition as_bytes (v : serialized) : result (list Z) :=
  match v with S_bytes b => Ok b | _ => Throw (SerializationException "unexpected value") end.
Definition as_object (v : serialized) : result (list (Z * string * serialized)) :=
  match v with S_object o => Ok o | _ => Throw (SerializationException "unexpected value") end.
Definition as_list (v : serialized) : result (list serialized) :=
  match v with S_list l => Ok l | _ => Throw (SerializationException "unexpected value") end.
