(* ===== verification/NumericStats.v ===== *)
(** Numeric statistics ([src/storage/statistics/numeric_stats.cpp],
    [numeric_stats.hpp], [numeric_stats_union.cpp]): minimum and maximum of a
    segment, zone map checks, column sketch checks, merging, serialization and
    verification. *)
From S2P Require Import Prelude Types Stats SelectionVector ColumnSketch.

(** * Access *)

(** [GetReferenceUnsafe<T>] and [GetNumericValueUnion::Operation<T>]: the
    member of [T]. *)
Definition union_ref (pt : PhysicalType) (o : option union_value) : result Z :=
  match o with
  | Some u => union_get pt u
  | None => Throw (UndefinedBehaviour "read of a union that was not written")
  end.

(** [GetDataUnsafe]. *)
Definition num_data (s : BaseStatistics) : result NumericStatsData :=
  match stats_union s with
  | D_numeric d => Ok d
  | _ => Throw (UndefinedBehaviour "statistics without numeric data")
  end.

(** The data a writer starts from; nothing is known about fields that were not
    written yet. *)
Definition num_target (s : BaseStatistics) : NumericStatsData :=
  match stats_union s with D_numeric d => d | _ => mkNum false false None None end.

Definition GetMinUnsafe (pt : PhysicalType) (s : BaseStatistics) : result Z := d ← num_data s; union_ref pt (num_min d).
Definition GetMaxUnsafe (pt : PhysicalType) (s : BaseStatistics) : result Z := d ← num_data s; union_ref pt (num_max d).

Definition HasMin (s : BaseStatistics) : result bool :=
  if bool_decide (id (stats_type s) = SQLNULL) then Ok false else d ← num_data s; Ok (has_min d).
Definition HasMax (s : BaseStatistics) : result bool :=
  if bool_decide (id (stats_type s) = SQLNULL) then Ok false else d ← num_data s; Ok (has_max d).
Definition HasMinMax (s : BaseStatistics) : result bool :=
  a ← HasMin s; if negb a then Ok false else HasMax s.

(** [SetNumericValueInternal]. *)
Definition SetNumericValueInternal (input : Value) (t : LogicalType) (val : option union_value)
    : result (option union_value * bool) :=
  if Value_IsNull input then Ok (val, false)
  else if bool_decide (InternalType (value_type input) ≠ InternalType t) then
    Throw (InternalException "SetMin or SetMax called with Value that does not match statistics' column value")
  else
    let pt := InternalType t in
    match pt with
    | BOOL | INT8 | INT16 | INT32 | INT64 | UINT8 | UINT16 | UINT32 | UINT64 | INT128 | UINT128 | FLOAT | DOUBLE =>
        v ← GetValueUnsafe pt input; Ok (Some (pt, v), true)
    | _ => Throw (InternalException "Unsupported type for NumericStatistics::SetValueInternal")
    end.

Definition SetMin (s : BaseStatistics) (new_min : Value) : result BaseStatistics :=
  let d := num_target s in
  '(val, has_val) ← SetNumericValueInternal new_min (stats_type s) (num_min d);
  Ok (set_union s (D_numeric (mkNum has_val (has_max d) val (num_max d)))).

Definition SetMax (s : BaseStatistics) (new_max : Value) : result BaseStatistics :=
  let d := num_target s in
  '(val, has_val) ← SetNumericValueInternal new_max (stats_type s) (num_max d);
  Ok (set_union s (D_numeric (mkNum (has_min d) has_val (num_min d) val))).

(** [NumericValueUnionToValueInternal]. *)
Definition NumericValueUnionToValueInternal (t : LogicalType) (val : option union_value) : result Value :=
  let make i pt := v ← union_ref pt val; Ok (V_num (LT i) (pt, v)) in
  match InternalType t with
  | BOOL => make BOOLEAN BOOL
  | INT8 => make TINYINT INT8
  | INT16 => make SMALLINT INT16
  | INT32 => make INTEGER INT32
  | INT64 => make BIGINT INT64
  | UINT8 => make UTINYINT UINT8
  | UINT16 => make USMALLINT UINT16
  | UINT32 => make UINTEGER UINT32
  | UINT64 => make UBIGINT UINT64
  | INT128 => make HUGEINT INT128
  | UINT128 => make UHUGEINT UINT128
  | FLOAT => make T_FLOAT FLOAT
  | DOUBLE => make T_DOUBLE DOUBLE
  | _ => Throw (InternalException "Unsupported type for NumericValueUnionToValue")
  end.

Definition NumericValueUnionToValue (t : LogicalType) (val : option union_value) : result Value :=
  v ← NumericValueUnionToValueInternal t val; Ok (Value_set_type v t).

Definition NumericStats_Min (s : BaseStatistics) : result Value :=
  h ← HasMin s;
  if negb h then Throw (InternalException "Min() called on statistics that does not have min")
  else d ← num_data s; NumericValueUnionToValue (stats_type s) (num_min d).

Definition NumericStats_Max (s : BaseStatistics) : result Value :=
  h ← HasMax s;
  if negb h then Throw (InternalException "Max() called on statistics that does not have max")
  else d ← num_data s; NumericValueUnionToValue (stats_type s) (num_max d).

Definition MinOrNull (s : BaseStatistics) : result Value :=
  h ← HasMin s; if negb h then Ok (V_null (stats_type s)) else NumericStats_Min s.
Definition MaxOrNull (s : BaseStatistics) : result Value :=
  h ← HasMax s; if negb h then Ok (V_null (stats_type s)) else NumericStats_Max s.

(** * Creation, update and merging *)

(** [CreateUnknown] and [CreateEmpty] on the freshly constructed statistics
    [s] of a numeric type. *)
Definition NumericStats_CreateUnknown (s : BaseStatistics) : result BaseStatistics :=
  let s := InitializeUnknown s in
  s ← SetMin s (V_null (stats_type s));
  SetMax s (V_null (stats_type s)).

Definition NumericStats_CreateEmpty (s : BaseStatistics) : result BaseStatistics :=
  let s := InitializeEmpty s in
  mx ← MaximumValue (stats_type s);
  s ← SetMin s mx;
  mn ← MinimumValue (stats_type s);
  SetMax s mn.

(** [UpdateValue] and [Update<T>]; the instances for intervals and list
    entries do nothing. *)
Definition UpdateValue (pt : PhysicalType) (v mn mx : Z) : Z * Z :=
  (if LessThan pt v mn then v else mn, if GreaterThan pt v mx then v else mx).

Definition NumericStats_Update (pt : PhysicalType) (s : BaseStatistics) (v : Z) : result BaseStatistics :=
  match pt with
  | PT_INTERVAL | PT_LIST => Ok s
  | _ =>
      d ← num_data s;
      mn ← union_ref pt (num_min d);
      mx ← union_ref pt (num_max d);
      let '(mn', mx') := UpdateValue pt v mn mx in
      Ok (set_union s (D_numeric (mkNum (has_min d) (has_max d) (Some (pt, mn')) (Some (pt, mx')))))
  end.

(** [Value()] is the NULL of type SQLNULL. *)
Definition Value_default : Value := V_null (LT SQLNULL).

Definition NumericStats_Merge (s other : BaseStatistics) : result BaseStatistics :=
  if bool_decide (id (stats_type other) = VALIDITY) then Ok s
  else
    om ← HasMin other; sm ← (if (om : bool) then HasMin s else Ok false);
    s ← (if (om && sm : bool) then
           other_min ← NumericStats_Min other;
           mn ← NumericStats_Min s;
           lt ← ValueOperations_LessThan other_min mn;
           if (lt : bool) then SetMin s other_min else Ok s
         else SetMin s Value_default);
    oM ← HasMax other; sM ← (if (oM : bool) then HasMax s else Ok false);
    (if (oM && sM : bool) then
       other_max ← NumericStats_Max other;
       mx ← NumericStats_Max s;
       gt ← ValueOperations_GreaterThan other_max mx;
       if (gt : bool) then SetMax s other_max else Ok s
     else SetMax s Value_default).

Definition NumericStats_IsConstant (s : BaseStatistics) : result bool :=
  mx ← NumericStats_Max s; mn ← NumericStats_Min s; ValueOperations_LessThanEquals mx mn.

(** * Zone maps *)

Definition ConstantExactRange (pt : PhysicalType) (mn mx c : Z) : bool := Equals pt c mn && Equals pt c mx.
Definition ConstantValueInRange (pt : PhysicalType) (mn mx c : Z) : bool :=
  negb (LessThan pt c mn || GreaterThan pt c mx).

Definition CheckZonemapTemplated (pt : PhysicalType) (s : BaseStatistics) (cmp : ExpressionType) (constant_value : Value)
    : result FilterPropagateResult :=
  mn ← GetMinUnsafe pt s;
  mx ← GetMaxUnsafe pt s;
  c ← GetValueUnsafe pt constant_value;
  match cmp with
  | COMPARE_EQUAL =>
      if ConstantExactRange pt mn mx c then Ok FILTER_ALWAYS_TRUE
      else if ConstantValueInRange pt mn mx c then Ok NO_PRUNING_POSSIBLE
      else Ok FILTER_ALWAYS_FALSE
  | COMPARE_NOTEQUAL =>
      if negb (ConstantValueInRange pt mn mx c) then Ok FILTER_ALWAYS_TRUE
      else if ConstantExactRange pt mn mx c then Ok FILTER_ALWAYS_FALSE
      else Ok NO_PRUNING_POSSIBLE
  | COMPARE_GREATERTHANOREQUALTO =>
      if GreaterThanEquals pt mn c then Ok FILTER_ALWAYS_TRUE
      else if GreaterThanEquals pt mx c then Ok NO_PRUNING_POSSIBLE
      else Ok FILTER_ALWAYS_FALSE
  | COMPARE_GREATERTHAN =>
      if GreaterThan pt mn c then Ok FILTER_ALWAYS_TRUE
      else if GreaterThan pt mx c then Ok NO_PRUNING_POSSIBLE
      else Ok FILTER_ALWAYS_FALSE
  | COMPARE_LESSTHANOREQUALTO =>
      if LessThanEquals pt mx c then Ok FILTER_ALWAYS_TRUE
      else if LessThanEquals pt mn c then Ok NO_PRUNING_POSSIBLE
      else Ok FILTER_ALWAYS_FALSE
  | COMPARE_LESSTHAN =>
      if LessThan pt mx c then Ok FILTER_ALWAYS_TRUE
      else if LessThan pt mn c then Ok NO_PRUNING_POSSIBLE
      else Ok FILTER_ALWAYS_FALSE
  | _ => Throw (InternalException "Expression type in zonemap check not implemented")
  end.

Definition NumericStats_CheckZonemap (s : BaseStatistics) (cmp : ExpressionType) (constant : Value)
    : result FilterPropagateResult :=
  if Value_IsNull constant then Ok FILTER_ALWAYS_FALSE
  else
    h ← HasMinMax s;
    if negb h then Ok NO_PRUNING_POSSIBLE
    else
      let pt := InternalType (stats_type s) in
      match pt with
      | INT8 | INT16 | INT32 | INT64 | UINT8 | UINT16 | UINT32 | UINT64 | INT128 | UINT128 | FLOAT | DOUBLE =>
          CheckZonemapTemplated pt s cmp constant
      | _ => Throw (InternalException "Unsupported type for NumericStats::CheckZonemap")
      end.

(** * Column sketches *)

(** The selections of a segment, one per vector. *)
Definition set_sel (vector_sels : list ManagedSelection) (index : nat) (m : ManagedSelection) : list ManagedSelection :=
  <[index := m]> vector_sels.

(** The count of an evaluation against the number of rows. *)
Definition sketch_result (cnt : Z) (n : nat) : FilterPropagateResult :=
  if negb (cnt =? 0) then
    (if cnt =? Z.of_nat n then FILTER_ALWAYS_TRUE else NO_PRUNING_POSSIBLE)
  else FILTER_ALWAYS_FALSE.

(** [CheckSketchTemplated<T>] for an unsigned [T] of [W] bits.  A segment
    without a sketch of the type leaves the selections alone. *)
Definition CheckSketchTemplated (W : Z) (cmp : ExpressionType) (constant_value : Value) (index : nat)
    (segment_sketches : list (option BaseColumnSketch)) (vector_sels : list ManagedSelection)
    : result (FilterPropagateResult * list ManagedSelection) :=
  signed_val ← GetValueUnsafe (if W =? 32 then INT32 else INT64) constant_value;
  let constant := wrapu W signed_val in
  seg ← vget segment_sketches index;
  sel ← vget vector_sels index;
  match seg ≫= dynamic_cast_sketch W with
  | None => Ok (NO_PRUNING_POSSIBLE, vector_sels)
  | Some impl =>
      let run (e : result (Z * ManagedSelection)) :=
        '(cnt, m) ← e; Ok (sketch_result cnt (length (base_data_ impl)), set_sel vector_sels index m) in
      match cmp with
      | COMPARE_EQUAL => Ok (NO_PRUNING_POSSIBLE, vector_sels)
      | COMPARE_NOTEQUAL => Ok (NO_PRUNING_POSSIBLE, vector_sels)
      | COMPARE_GREATERTHANOREQUALTO => run (evaluate_greater_than_AVX512 impl (wrapu W (constant - 1)) sel)
      | COMPARE_GREATERTHAN => run (evaluate_greater_than_AVX512 impl constant sel)
      | COMPARE_LESSTHANOREQUALTO => run (evaluate_less_than_AVX512 impl (wrapu W (constant + 1)) sel)
      | COMPARE_LESSTHAN => run (evaluate_less_than_AVX512 impl constant sel)
      | _ => Throw (InternalException "Expression type in zonemap check not implemented")
      end
  end.

Definition NumericStats_CheckSketch (s : BaseStatistics) (cmp : ExpressionType) (constant : Value) (index : nat)
    (segment_sketches : list (option BaseColumnSketch)) (vector_sels : list ManagedSelection)
    : result (FilterPropagateResult * list ManagedSelection) :=
  if Value_IsNull constant then Ok (FILTER_ALWAYS_FALSE, vector_sels)
  else match InternalType (stats_type s) with
  | INT32 | UINT32 => CheckSketchTemplated 32 cmp constant index segment_sketches vector_sels
  | INT64 | UINT64 => CheckSketchTemplated 64 cmp constant index segment_sketches vector_sels
  | _ => Throw (InternalException "Unsupported type for NumericStats::CheckSketch")
  end.

(** * Serialization *)

Definition SerializeNumericStatsValue (t : LogicalType) (val : option union_value) (has_value : bool)
    : result (list (Z * string * serialized)) :=
  let head := (100, "has_value"%string, S_bool has_value) in
  if negb has_value then Ok [head]
  else
    let pt := InternalType t in
    match pt with
    | BOOL | INT8 | INT16 | INT32 | INT64 | UINT8 | UINT16 | UINT32 | UINT64 | INT128 | UINT128 | FLOAT | DOUBLE =>
        v ← union_ref pt val; Ok [head; (101, "value"%string, S_num pt v)]
    | _ => Throw (InternalException "Unsupported type for serializing numeric statistics")
    end.

Definition DeserializeNumericStatsValue (t : LogicalType) (result_ : option union_value)
    (o : list (Z * string * serialized)) : result (option union_value * bool) :=
  '(h, o) ← read_prop 100 o;
  has_value ← as_bool h;
  if negb has_value then Ok (result_, false)
  else
    let pt := InternalType t in
    match pt with
    | BOOL | INT8 | INT16 | INT32 | INT64 | UINT8 | UINT16 | UINT32 | UINT64 | INT128 | UINT128 | FLOAT | DOUBLE =>
        '(x, _) ← read_prop 101 o; v ← as_num pt x; Ok (Some (pt, v), true)
    | _ => Throw (InternalException "Unsupported type for serializing numeric statistics")
    end.

(** The minimum is written under the tag max and the maximum under min. *)
Definition NumericStats_Serialize (s : BaseStatistics) : result (list (Z * string * serialized)) :=
  d ← num_data s;
  a ← SerializeNumericStatsValue (stats_type s) (num_min d) (has_min d);
  b ← SerializeNumericStatsValue (stats_type s) (num_max d) (has_max d);
  Ok [(200, "max"%string, S_object a); (201, "min"%string, S_object b)].

Definition NumericStats_Deserialize (o : list (Z * string * serialized)) (s : BaseStatistics) : result BaseStatistics :=
  let d := num_target s in
  '(a, o) ← read_prop 200 o;
  a ← as_object a;
  '(mn, hmin) ← DeserializeNumericStatsValue (stats_type s) (num_min d) a;
  '(b, _) ← read_prop 201 o;
  b ← as_object b;
  '(mx, hmax) ← DeserializeNumericStatsValue (stats_type s) (num_max d) b;
  Ok (set_union s (D_numeric (mkNum hmin hmax mn mx))).

(** * Verification of a vector *)

Definition TemplatedVerify (pt : PhysicalType) (s : BaseStatistics) (rows : list (option Z)) (sel : SelectionVector)
    (count : nat) : result unit :=
  min_value ← MinOrNull s;
  max_value ← MaxOrNull s;
  foldM (λ _ i,
    idx ← get_index sel i;
    row ← vget rows (Z.to_nat idx);
    match row with
    | None => Ok tt
    | Some v =>
        lt ← (if Value_IsNull min_value then Ok false else m ← GetValueUnsafe pt min_value; Ok (LessThan pt v m));
        if (lt : bool) then Throw (InternalException "Statistics mismatch: value is smaller than min.")
        else
          gt ← (if Value_IsNull max_value then Ok false else m ← GetValueUnsafe pt max_value; Ok (GreaterThan pt v m));
          if (gt : bool) then Throw (InternalException "Statistics mismatch: value is bigger than max.") else Ok tt
    end) tt (seq 0 count).

Definition NumericStats_Verify (s : BaseStatistics) (vector : Vector) (sel : SelectionVector) (count : nat) : result unit :=
  let pt := InternalType (stats_type s) in
  match pt with
  | BOOL => Ok tt
  | INT8 | INT16 | INT32 | INT64 | UINT8 | UINT16 | UINT32 | UINT64 | INT128 | UINT128 | FLOAT | DOUBLE =>
      match vector with
      | Vec_num _ rows => TemplatedVerify pt s rows sel count
      | _ => Throw (UndefinedBehaviour "vector of another type")
      end
  | _ => Throw (InternalException "Unsupported type for numeric statistics verify")
  end.
