(* ===== verification/NumericFacts.v ===== *)
(** Numeric statistics as an interval: the abstract view of the stored
    minimum and maximum, and what each operation does to it. *)
From S2P Require Import Prelude Types Stats SelectionVector ColumnSketch NumericStats.

(** * The interval view *)

(** The statistics [s] of physical type [pt] describe the interval from [lo]
    to [hi], each end possibly unknown. *)
Record numeric_view (s : BaseStatistics) (pt : PhysicalType) (lo hi : option Z) : Prop := {
  nv_type : GetStatsType (stats_type s) = NUMERIC_STATS;
  nv_pt : InternalType (stats_type s) = pt;
  nv_data : ∃ mn mx,
    stats_union s = D_numeric (mkNum (bool_decide (is_Some lo)) (bool_decide (is_Some hi)) mn mx) ∧
    (∀ x, lo = Some x → mn = Some (pt, x)) ∧ (∀ x, hi = Some x → mx = Some (pt, x));
}.

(** A value of type [pt] lies in the interval. *)
Definition in_interval (pt : PhysicalType) (lo hi : option Z) (v : Z) : Prop :=
  (∀ x, lo = Some x → num_key pt x ≤ num_key pt v) ∧ (∀ x, hi = Some x → num_key pt v ≤ num_key pt x).

(** The smaller and the larger of two numbers in the order of [pt]. *)
Definition num_min_of (pt : PhysicalType) (a b : Z) : Z := if LessThan pt b a then b else a.
Definition num_max_of (pt : PhysicalType) (a b : Z) : Z := if GreaterThan pt b a then b else a.

(** The join of two intervals: an end is known only if it is known in both. *)
Definition join_lo (pt : PhysicalType) (a b : option Z) : option Z :=
  match a, b with Some x, Some y => Some (num_min_of pt x y) | _, _ => None end.
Definition join_hi (pt : PhysicalType) (a b : option Z) : option Z :=
  match a, b with Some x, Some y => Some (num_max_of pt x y) | _, _ => None end.

Lemma num_min_of_key pt a b : num_key pt (num_min_of pt a b) = Z.min (num_key pt a) (num_key pt b).
Proof. unfold num_min_of. rewrite LessThan_key. destruct (Z.ltb_spec (num_key pt b) (num_key pt a)); lia. Qed.
Lemma num_max_of_key pt a b : num_key pt (num_max_of pt a b) = Z.max (num_key pt a) (num_key pt b).
Proof. unfold num_max_of. rewrite GreaterThan_key. destruct (Z.ltb_spec (num_key pt a) (num_key pt b)); lia. Qed.

(** The join contains both intervals. *)
Lemma join_interval pt lo hi lo' hi' v :
  in_interval pt lo hi v ∨ in_interval pt lo' hi' v → in_interval pt (join_lo pt lo lo') (join_hi pt hi hi') v.
Proof.
  intros Hv. split; intros x; destruct lo as [a|], lo' as [b|], hi as [c|], hi' as [d|]; cbn; try done;
    intros [= <-]; rewrite ?num_min_of_key, ?num_max_of_key;
    destruct Hv as [[H1 H2]|[H1 H2]]; try specialize (H1 _ eq_refl); try specialize (H2 _ eq_refl); lia.
Qed.

(** Unknown ends contain everything. *)
Lemma in_unknown pt v : in_interval pt None None v.
Proof. by split. Qed.

(** * Operations on the view *)

Lemma numeric_type t : GetStatsType t = NUMERIC_STATS → id t ≠ SQLNULL ∧ is_numeric (InternalType t) = true.
Proof.
  unfold GetStatsType. case_bool_decide; [done|]. intros Ht. split; [done|].
  destruct (InternalType t); try done; vm_compute; reflexivity.
Qed.

Lemma numeric_not_validity t : GetStatsType t = NUMERIC_STATS → id t ≠ VALIDITY.
Proof.
  intros Ht Hid. unfold GetStatsType in Ht. rewrite Hid in Ht.
  unfold InternalType, GetInternalType in Ht. by rewrite Hid in Ht.
Qed.

Section View.
Context (s : BaseStatistics) (pt : PhysicalType) (lo hi : option Z) (Hv : numeric_view s pt lo hi).

Lemma view_not_null : id (stats_type s) ≠ SQLNULL.
Proof. by destruct (numeric_type _ (nv_type _ _ _ _ Hv)). Qed.

Lemma view_numeric : is_numeric pt = true.
Proof. rewrite <- (nv_pt _ _ _ _ Hv). by destruct (numeric_type _ (nv_type _ _ _ _ Hv)). Qed.

Lemma HasMin_view : HasMin s = Ok (bool_decide (is_Some lo)).
Proof.
  unfold HasMin, num_data. rewrite bool_decide_false by apply view_not_null.
  destruct (nv_data _ _ _ _ Hv) as (mn & mx & -> & _). done.
Qed.

Lemma HasMax_view : HasMax s = Ok (bool_decide (is_Some hi)).
Proof.
  unfold HasMax, num_data. rewrite bool_decide_false by apply view_not_null.
  destruct (nv_data _ _ _ _ Hv) as (mn & mx & -> & _). done.
Qed.

(** A stored end converts to a value of the statistics' type. *)
Lemma union_value_view x :
  NumericValueUnionToValue (stats_type s) (Some (pt, x)) = Ok (V_num (stats_type s) (pt, x)).
Proof.
  unfold NumericValueUnionToValue, NumericValueUnionToValueInternal. pose proof view_numeric as Hn.
  rewrite (nv_pt _ _ _ _ Hv). destruct pt; done || (exfalso; by vm_compute in Hn).
Qed.

Lemma Min_view x : lo = Some x → NumericStats_Min s = Ok (V_num (stats_type s) (pt, x)).
Proof.
  intros Hlo. unfold NumericStats_Min. rewrite HasMin_view, Hlo. cbn [mbind result_bind].
  rewrite bool_decide_true by done. cbn [negb]. unfold num_data.
  destruct (nv_data _ _ _ _ Hv) as (mn & mx & -> & Hmn & _). cbn [mbind result_bind num_min].
  rewrite (Hmn x Hlo). apply union_value_view.
Qed.

Lemma Max_view x : hi = Some x → NumericStats_Max s = Ok (V_num (stats_type s) (pt, x)).
Proof.
  intros Hhi. unfold NumericStats_Max. rewrite HasMax_view, Hhi. cbn [mbind result_bind].
  rewrite bool_decide_true by done. cbn [negb]. unfold num_data.
  destruct (nv_data _ _ _ _ Hv) as (mn & mx & -> & _ & Hmx). cbn [mbind result_bind num_max].
  rewrite (Hmx x Hhi). apply union_value_view.
Qed.

Lemma SetNumeric_value x val :
  SetNumericValueInternal (V_num (stats_type s) (pt, x)) (stats_type s) val = Ok (Some (pt, x), true).
Proof.
  unfold SetNumericValueInternal. cbn [Value_IsNull value_type]. rewrite bool_decide_false by tauto.
  rewrite (nv_pt _ _ _ _ Hv). pose proof view_numeric as Hn. unfold GetValueUnsafe, union_get.
  destruct pt; done || (exfalso; by vm_compute in Hn).
Qed.

(** The new statistics differ from [s] in the stored interval only. *)
Definition updated (s' : BaseStatistics) (lo' hi' : option Z) : Prop :=
  numeric_view s' pt lo' hi' ∧ ∃ u, s' = set_union s u.

Lemma updated_intro lo' hi' mn mx :
  (∀ x, lo' = Some x → mn = Some (pt, x)) → (∀ x, hi' = Some x → mx = Some (pt, x)) →
  updated (set_union s (D_numeric (mkNum (bool_decide (is_Some lo')) (bool_decide (is_Some hi')) mn mx))) lo' hi'.
Proof.
  intros H1 H2. split; [|eauto]. destruct Hv as [Ht Hp _], s as [t n nn dc u c]. cbn in *.
  split; cbn; [done | done | eauto].
Qed.

Lemma SetMin_view x :
  ∃ s', SetMin s (V_num (stats_type s) (pt, x)) = Ok s' ∧ updated s' (Some x) hi.
Proof.
  unfold SetMin, num_target. destruct (nv_data _ _ _ _ Hv) as (mn & mx & -> & _ & Hmx).
  rewrite SetNumeric_value. eexists. split; [done|]. cbn [has_max num_max].
  apply (updated_intro (Some x) hi); [by intros ? [= ->] | done].
Qed.

Lemma SetMax_view x :
  ∃ s', SetMax s (V_num (stats_type s) (pt, x)) = Ok s' ∧ updated s' lo (Some x).
Proof.
  unfold SetMax, num_target. destruct (nv_data _ _ _ _ Hv) as (mn & mx & -> & Hmn & _).
  rewrite SetNumeric_value. eexists. split; [done|]. cbn [has_min num_min].
  apply (updated_intro lo (Some x)); [done | by intros ? [= ->]].
Qed.

Lemma SetMin_null t : ∃ s', SetMin s (V_null t) = Ok s' ∧ updated s' None hi.
Proof.
  unfold SetMin, num_target. destruct (nv_data _ _ _ _ Hv) as (mn & mx & -> & _ & Hmx).
  eexists. split; [done|]. by apply (updated_intro None hi).
Qed.

Lemma SetMax_null t : ∃ s', SetMax s (V_null t) = Ok s' ∧ updated s' lo None.
Proof.
  unfold SetMax, num_target. destruct (nv_data _ _ _ _ Hv) as (mn & mx & -> & Hmn & _).
  eexists. split; [done|]. by apply (updated_intro lo None).
Qed.

(** [Update] extends the interval to the value. *)
Lemma Update_view x y v :
  lo = Some x → hi = Some y →
  ∃ s', NumericStats_Update pt s v = Ok s' ∧ updated s' (Some (num_min_of pt x v)) (Some (num_max_of pt y v)).
Proof.
  intros Hlo Hhi. pose proof view_numeric as Hn.
  assert (NumericStats_Update pt s v =
    Ok (set_union s (D_numeric (mkNum true true (Some (pt, num_min_of pt x v)) (Some (pt, num_max_of pt y v))))))
    as ->.
  { destruct (nv_data _ _ _ _ Hv) as (mn & mx & Hu & Hmn & Hmx).
    rewrite (Hmn x Hlo), (Hmx y Hhi), Hlo, Hhi, !bool_decide_true in Hu by done.
    unfold NumericStats_Update, num_data. rewrite Hu. cbn [mbind result_bind num_min num_max has_min has_max].
    unfold union_ref, union_get. cbn [fst snd]. rewrite bool_decide_true by done. cbn [mbind result_bind].
    unfold UpdateValue, num_min_of, num_max_of.
    destruct pt; done || (exfalso; by vm_compute in Hn). }
  eexists. split; [done|].
  apply (updated_intro (Some _) (Some _)); by intros ? [= ->].
Qed.
End View.

Lemma set_union_type s u : stats_type (set_union s u) = stats_type s.
Proof. by destruct s. Qed.
Lemma set_union_twice s u u' : set_union (set_union s u) u' = set_union s u'.
Proof. by destruct s. Qed.

Lemma updated_refl s pt lo hi : numeric_view s pt lo hi → updated s pt s lo hi.
Proof. intros. split; [done|]. exists (stats_union s). by destruct s. Qed.

Lemma no_end : bool_decide (is_Some (@None Z)) = false.
Proof. apply bool_decide_false. by intros [? ?]. Qed.

(** The two halves of a merge. *)
Section Merge.
Context (s o : BaseStatistics) (pt : PhysicalType) (lo hi lo' hi' : option Z).
Context (Hs : numeric_view s pt lo hi) (Ho : numeric_view o pt lo' hi') (Ht : stats_type o = stats_type s).

Lemma merge_min_half :
  ∃ s1, (om ← HasMin o; sm ← (if (om : bool) then HasMin s else Ok false);
         if (om && sm : bool) then
           other_min ← NumericStats_Min o; mn ← NumericStats_Min s;
           lt ← ValueOperations_LessThan other_min mn; if (lt : bool) then SetMin s other_min else Ok s
         else SetMin s Value_default) = Ok s1 ∧ updated s pt s1 (join_lo pt lo lo') hi.
Proof.
  rewrite (HasMin_view _ _ _ _ Ho), (HasMin_view _ _ _ _ Hs). cbn [mbind result_bind].
  destruct lo' as [b|]; [destruct lo as [a|]|]; cbn [join_lo]; rewrite ?no_end.
  - rewrite !bool_decide_true by done. cbn [mbind result_bind andb].
    rewrite (Min_view _ _ _ _ Ho b eq_refl), (Min_view _ _ _ _ Hs a eq_refl). cbn [mbind result_bind]. rewrite Ht.
    unfold ValueOperations_LessThan.
    rewrite (numeric_GreaterThan _ pt) by (apply (nv_pt _ _ _ _ Hs) || eapply view_numeric, Hs).
    cbn [mbind result_bind]. unfold num_min_of. fold (LessThan pt b a).
    destruct (LessThan pt b a); [apply (SetMin_view _ _ _ _ Hs)|]. exists s. split; [done | by apply updated_refl].
  - rewrite bool_decide_true by done. apply (SetMin_null _ _ _ _ Hs).
  - destruct lo; apply (SetMin_null _ _ _ _ Hs).
Qed.

Lemma merge_max_half :
  ∃ s1, (oM ← HasMax o; sM ← (if (oM : bool) then HasMax s else Ok false);
         if (oM && sM : bool) then
           other_max ← NumericStats_Max o; mx ← NumericStats_Max s;
           gt ← ValueOperations_GreaterThan other_max mx; if (gt : bool) then SetMax s other_max else Ok s
         else SetMax s Value_default) = Ok s1 ∧ updated s pt s1 lo (join_hi pt hi hi').
Proof.
  rewrite (HasMax_view _ _ _ _ Ho), (HasMax_view _ _ _ _ Hs). cbn [mbind result_bind].
  destruct hi' as [b|]; [destruct hi as [a|]|]; cbn [join_hi]; rewrite ?no_end.
  - rewrite !bool_decide_true by done. cbn [mbind result_bind andb].
    rewrite (Max_view _ _ _ _ Ho b eq_refl), (Max_view _ _ _ _ Hs a eq_refl). cbn [mbind result_bind]. rewrite Ht.
    rewrite (numeric_GreaterThan _ pt) by (apply (nv_pt _ _ _ _ Hs) || eapply view_numeric, Hs).
    cbn [mbind result_bind]. unfold num_max_of.
    destruct (GreaterThan pt b a); [apply (SetMax_view _ _ _ _ Hs)|]. exists s. split; [done | by apply updated_refl].
  - rewrite bool_decide_true by done. apply (SetMax_null _ _ _ _ Hs).
  - destruct hi; apply (SetMax_null _ _ _ _ Hs).
Qed.
End Merge.

(** Merging computes the join of the intervals. *)
Lemma Merge_view s o pt lo hi lo' hi' :
  numeric_view s pt lo hi → numeric_view o pt lo' hi' → stats_type o = stats_type s →
  ∃ s', NumericStats_Merge s o = Ok s' ∧ updated s pt s' (join_lo pt lo lo') (join_hi pt hi hi').
Proof.
  intros Hs Ho Ht. unfold NumericStats_Merge.
  rewrite bool_decide_false by (apply numeric_not_validity; apply (nv_type _ _ _ _ Ho)).
  destruct (merge_min_half s o pt lo hi lo' hi' Hs Ho Ht) as (s1 & Hm & Hv1 & u1 & ->).
  destruct (merge_max_half (set_union s u1) o pt _ hi lo' hi' Hv1 Ho) as (s2 & HM & Hv2 & u2 & ->).
  { by rewrite set_union_type. }
  eexists. split; [|split; [exact Hv2|]; exists u2; by rewrite set_union_twice].
  rewrite <- HM. revert Hm. destruct (HasMin o) as [om|]; [|done]. cbn [mbind result_bind].
  destruct (if om then HasMin s else Ok false) as [sm|]; [|done]. cbn [mbind result_bind].
  intros ->. done.
Qed.

(** * Creation *)

(** A value whose member can be read as a number of the type [t]. *)
Definition stores_as (v : Value) (t : LogicalType) : Prop :=
  ∃ t' u y, v = V_num t' u ∧ InternalType t' = InternalType t ∧ union_get (InternalType t) u = Ok y.

Lemma stores_same t p x : InternalType t = p → stores_as (V_num t (p, x)) t.
Proof.
  intros Hp. exists t, (p, x), x. split_and!; [done | done |].
  unfold union_get. cbn [fst snd]. by rewrite Hp, bool_decide_true.
Qed.

Lemma decimal_stores w sc lim v :
  decimal_extreme (LT_DECIMAL w sc) w sc lim = Ok v → stores_as v (LT_DECIMAL w sc).
Proof.
  unfold decimal_extreme, Value_DECIMAL. destruct (InternalType (LT_DECIMAL w sc)) eqn:Hi; try done;
    intros Hv; inv_ok; by apply stores_same.
Qed.

Lemma enum_stores x d v : Value_ENUM x (LT_ENUM d) = Ok v → stores_as v (LT_ENUM d).
Proof.
  unfold Value_ENUM. destruct (InternalType (LT_ENUM d)) eqn:Hi; try done;
    intros Hv; inv_ok; by apply stores_same.
Qed.

Ltac extreme_solve :=
  let Ht := fresh in let Hv := fresh in intros Ht Hv;
  try discriminate Ht;
  lazymatch goal with
  | i : LogicalTypeId |- _ =>
      destruct i; try discriminate Ht; try discriminate Hv; vm_compute in Hv; injection Hv as <-;
      eexists _, _, _; split_and!; reflexivity
  | w : Z |- _ => eapply decimal_stores, Hv
  | d : list string |- _ => eapply enum_stores, Hv
  end.

Lemma MaximumValue_stores t v : GetStatsType t = NUMERIC_STATS → MaximumValue t = Ok v → stores_as v t.
Proof. destruct t as [i|w sc|d| | | | |]; extreme_solve. Qed.
Lemma MinimumValue_stores t v : GetStatsType t = NUMERIC_STATS → MinimumValue t = Ok v → stores_as v t.
Proof. destruct t as [i|w sc|d| | | | |]; extreme_solve. Qed.

(** The types with an extreme value: every numeric type but POINTER, decimals
    of width 0 to 38, and enums with between 1 and [2^32 - 1] entries. *)
Definition has_extremes (t : LogicalType) : bool := is_ok (MaximumValue t) && is_ok (MinimumValue t).

Lemma SetNumeric_stores v t val :
  GetStatsType t = NUMERIC_STATS → stores_as v t →
  ∃ y, SetNumericValueInternal v t val = Ok (Some (InternalType t, y), true).
Proof.
  intros Ht (t' & u & y & -> & Hi & Hu). exists y. unfold SetNumericValueInternal. cbn [Value_IsNull value_type].
  rewrite Hi, bool_decide_false by tauto. destruct (numeric_type _ Ht) as [_ Hn].
  unfold GetValueUnsafe. rewrite Hu. destruct (InternalType t); done || (exfalso; by vm_compute in Hn).
Qed.

Lemma CreateEmpty_view s0 :
  GetStatsType (stats_type s0) = NUMERIC_STATS → has_extremes (stats_type s0) = true →
  ∃ s x y, NumericStats_CreateEmpty s0 = Ok s ∧
    updated (InitializeEmpty s0) (InternalType (stats_type s0)) s (Some x) (Some y).
Proof.
  intros Ht Hx. unfold has_extremes in Hx. apply andb_true_iff in Hx as [Hmax Hmin].
  unfold NumericStats_CreateEmpty, InitializeEmpty, set_validity. destruct s0 as [t n nn dc u c]. cbn [stats_type] in *.
  destruct (MaximumValue t) as [M|] eqn:HM; [|done]. destruct (MinimumValue t) as [m|] eqn:Hm; [|done].
  cbn [mbind result_bind]. unfold SetMin, SetMax. cbn [stats_type].
  destruct (SetNumeric_stores M t (num_min (num_target (mkStats t false true dc u c)))) as [x Hx];
    [done | by apply MaximumValue_stores|].
  rewrite Hx. cbn [mbind result_bind set_union stats_type num_target stats_union].
  rewrite Hm. cbn [mbind result_bind].
  destruct (SetNumeric_stores m t (num_max (num_target (mkStats t false true dc u c)))) as [y Hy];
    [done | by apply MinimumValue_stores|].
  cbn [num_target stats_union num_max has_min num_min] in *. rewrite Hy. eexists _, x, y. split; [done|].
  split; [|by eexists]. split; cbn; [done | done |].
  exists (Some (InternalType t, x)), (Some (InternalType t, y)). split_and!; [done | by intros ? [= ->] | by intros ? [= ->]].
Qed.

Lemma CreateUnknown_view s0 :
  GetStatsType (stats_type s0) = NUMERIC_STATS →
  ∃ s, NumericStats_CreateUnknown s0 = Ok s ∧
    updated (InitializeUnknown s0) (InternalType (stats_type s0)) s None None.
Proof.
  intros Ht. unfold NumericStats_CreateUnknown, InitializeUnknown, set_validity. destruct s0 as [t n nn dc u c].
  cbn in *. eexists. split; [done|]. split; [|by eexists]. split; cbn; [done | done |].
  eexists _, _. split_and!; done.
Qed.

(** * Zone maps *)

(** The comparison of a row value with a constant. *)
Definition comparison (cmp : ExpressionType) (pt : PhysicalType) (v c : Z) : option bool :=
  match cmp with
  | COMPARE_EQUAL => Some (Equals pt v c)
  | COMPARE_NOTEQUAL => Some (NotEquals pt v c)
  | COMPARE_LESSTHAN => Some (LessThan pt v c)
  | COMPARE_GREATERTHAN => Some (GreaterThan pt v c)
  | COMPARE_LESSTHANOREQUALTO => Some (LessThanEquals pt v c)
  | COMPARE_GREATERTHANOREQUALTO => Some (GreaterThanEquals pt v c)
  | _ => None
  end.

(** What a pruning answer promises about one comparison result. *)
Definition prune_ok (r : FilterPropagateResult) (b : bool) : Prop :=
  match r with
  | FILTER_ALWAYS_TRUE => b = true
  | FILTER_ALWAYS_FALSE => b = false
  | _ => True
  end.

Lemma zonemap_core pt mn mx s cmp t c v b :
  num_key pt mn ≤ num_key pt v ≤ num_key pt mx →
  GetMinUnsafe pt s = Ok mn → GetMaxUnsafe pt s = Ok mx → comparison cmp pt v c = Some b →
  ∃ r, CheckZonemapTemplated pt s cmp (V_num t (pt, c)) = Ok r ∧ prune_ok r b.
Proof.
  intros Hv Hmn Hmx Hb. unfold CheckZonemapTemplated. rewrite Hmn, Hmx. cbn [mbind result_bind].
  unfold GetValueUnsafe, union_get. cbn [fst snd]. rewrite bool_decide_true by done. cbn [mbind result_bind].
  destruct cmp; try done; cbn in Hb; injection Hb as <-;
    unfold ConstantExactRange, ConstantValueInRange, NotEquals;
    rewrite ?Equals_key, ?GreaterThanEquals_key, ?GreaterThan_key, ?LessThanEquals_key, ?LessThan_key;
    repeat (case_match; [eexists; split; [done|]; cbn; lia|]); eexists; split; try done; cbn; lia.
Qed.

(** The physical types for which the zone map check is instantiated. *)
Definition zonemap_type (pt : PhysicalType) : bool := is_numeric pt && negb (bool_decide (pt = BOOL)).

Lemma CheckZonemap_view s pt lo hi cmp t c v b :
  numeric_view s pt lo hi → zonemap_type pt = true → in_interval pt lo hi v → comparison cmp pt v c = Some b →
  ∃ r, NumericStats_CheckZonemap s cmp (V_num t (pt, c)) = Ok r ∧ prune_ok r b.
Proof.
  intros Hs Hz [Hlo Hhi] Hb. unfold NumericStats_CheckZonemap, HasMinMax. cbn [Value_IsNull].
  rewrite (HasMin_view _ _ _ _ Hs), (HasMax_view _ _ _ _ Hs). cbn [mbind result_bind].
  destruct (nv_data _ _ _ _ Hs) as (mn & mx & Hu & Hmn & Hmx).
  destruct lo as [x|]; [|rewrite no_end; by eexists].
  rewrite (bool_decide_true (is_Some (Some x))) by done. cbn [negb].
  destruct hi as [y|]; [|rewrite no_end; by eexists].
  rewrite bool_decide_true by done. cbn [mbind result_bind negb].
  destruct (zonemap_core pt x y s cmp t c v b) as (r & Hr & Hp); [auto | | | done |].
  1,2: unfold GetMinUnsafe, GetMaxUnsafe, num_data; rewrite Hu; cbn [mbind result_bind num_min num_max];
       rewrite ?(Hmn x eq_refl), ?(Hmx y eq_refl); unfold union_ref, union_get; cbn [fst snd];
       by rewrite bool_decide_true.
  exists r. split; [|done]. rewrite (nv_pt _ _ _ _ Hs).
  destruct pt; done || (exfalso; by vm_compute in Hz).
Qed.

(** * Serialization *)

Section Roundtrip.
Context (t : LogicalType) (Ht : GetStatsType t = NUMERIC_STATS).

(** One end of the interval survives a round trip. *)
Lemma value_roundtrip (e : option Z) (val old : option union_value) :
  (∀ x, e = Some x → val = Some (InternalType t, x)) →
  ∃ o val', SerializeNumericStatsValue t val (bool_decide (is_Some e)) = Ok o ∧
    DeserializeNumericStatsValue t old o = Ok (val', bool_decide (is_Some e)) ∧
    (∀ x, e = Some x → val' = Some (InternalType t, x)).
Proof.
  intros Hval. unfold SerializeNumericStatsValue, DeserializeNumericStatsValue.
  destruct e as [x|]; [|rewrite no_end; eexists _, _; split_and!; done].
  rewrite bool_decide_true, (Hval x eq_refl) by done. cbn [negb union_ref].
  destruct (numeric_type _ Ht) as [_ Hn]. unfold union_get. cbn [fst snd].
  destruct (InternalType t); try (exfalso; by vm_compute in Hn);
    eexists _, _; (split_and!; [reflexivity | reflexivity | by intros ? [= ->]]).
Qed.
End Roundtrip.

Lemma Serialize_view s s0 pt lo hi :
  numeric_view s pt lo hi → stats_type s0 = stats_type s →
  ∃ o s', NumericStats_Serialize s = Ok o ∧ NumericStats_Deserialize o s0 = Ok s' ∧ updated s0 pt s' lo hi.
Proof.
  intros Hs Ht0. destruct (nv_data _ _ _ _ Hs) as (mn & mx & Hu & Hmn & Hmx).
  pose proof (nv_type _ _ _ _ Hs) as Ht. rewrite <- (nv_pt _ _ _ _ Hs) in *.
  unfold NumericStats_Serialize, NumericStats_Deserialize, num_data. rewrite Hu. cbn [mbind result_bind num_min num_max has_min has_max].
  destruct (value_roundtrip _ Ht lo mn (num_min (num_target s0)) Hmn) as (o1 & v1 & -> & H1 & Hv1).
  destruct (value_roundtrip _ Ht hi mx (num_max (num_target s0)) Hmx) as (o2 & v2 & -> & H2 & Hv2).
  cbn [mbind result_bind]. eexists _, _. split; [done|].
  cbn [read_prop Z.eqb Pos.eqb mbind result_bind as_object]. rewrite Ht0, H1. cbn [mbind result_bind].
  cbn [read_prop Z.eqb Pos.eqb mbind result_bind as_object]. rewrite H2. split; [done|].
  split; [|by eexists]. destruct s0 as [t n nn dc u c]. cbn in Ht0. subst t.
  split; cbn; [done | done |]. exists v1, v2. done.
Qed.

(** * Verification *)

Lemma MinOrNull_view s pt lo hi :
  numeric_view s pt lo hi →
  MinOrNull s = Ok (match lo with Some x => V_num (stats_type s) (pt, x) | None => V_null (stats_type s) end).
Proof.
  intros Hs. unfold MinOrNull. rewrite (HasMin_view _ _ _ _ Hs). cbn [mbind result_bind].
  destruct lo as [x|]; [rewrite bool_decide_true by done; by apply (Min_view _ _ _ _ Hs) | by rewrite no_end].
Qed.
Lemma MaxOrNull_view s pt lo hi :
  numeric_view s pt lo hi →
  MaxOrNull s = Ok (match hi with Some x => V_num (stats_type s) (pt, x) | None => V_null (stats_type s) end).
Proof.
  intros Hs. unfold MaxOrNull. rewrite (HasMax_view _ _ _ _ Hs). cbn [mbind result_bind].
  destruct hi as [x|]; [rewrite bool_decide_true by done; by apply (Max_view _ _ _ _ Hs) | by rewrite no_end].
Qed.

(** The selected rows of a vector: every selected index is a row. *)
Definition selects {A} (sel : SelectionVector) (count : nat) (rows : list A) : Prop :=
  ∀ i, (i < count)%nat → ∃ idx r, get_index sel i = Ok idx ∧ rows !! Z.to_nat idx = Some r.
Definition selected {A} (sel : SelectionVector) (count : nat) (rows : list A) (r : A) : Prop :=
  ∃ i idx, (i < count)%nat ∧ get_index sel i = Ok idx ∧ rows !! Z.to_nat idx = Some r.

(** A loop over the selected rows returns exactly when every row passes. *)
Lemma selected_checks {A} (f : A → result unit) sel count (rows : list A) :
  selects sel count rows →
  foldM (λ _ i, idx ← get_index sel i; row ← vget rows (Z.to_nat idx); f row) tt (seq 0 count) = Ok tt ↔
  ∀ r, selected sel count rows r → f r = Ok tt.
Proof.
  intros Hsel. rewrite (foldM_checks (λ i, idx ← get_index sel i; row ← vget rows (Z.to_nat idx); f row)). split.
  - intros H r (i & idx & Hi & Hidx & Hr). specialize (H i ltac:(apply elem_of_seq; lia)).
    rewrite Hidx in H. cbn [mbind result_bind] in H. rewrite (vget_lookup _ _ _ Hr) in H. exact H.
  - intros H i Hi%elem_of_seq. destruct (Hsel i ltac:(lia)) as (idx & r & Hidx & Hr).
    rewrite Hidx. cbn [mbind result_bind]. rewrite (vget_lookup _ _ _ Hr). cbn [mbind result_bind].
    apply H. exists i, idx. split_and!; [lia | done | done].
Qed.

(** The test of a row against one end of the interval. *)
Lemma end_test pt t (op : Z → Z → bool) (e : option Z) v :
  let val := match e with Some x => V_num t (pt, x) | None => V_null t end in
  (if Value_IsNull val then Ok false else m ← GetValueUnsafe pt val; Ok (op v m)) =
  Ok (from_option (λ x, op v x) false e).
Proof.
  destruct e as [x|]; [|done]. cbn. unfold union_get. cbn [fst snd]. by rewrite bool_decide_true.
Qed.

(** Verification accepts exactly the vectors whose selected non-NULL rows lie
    in the interval. *)
Lemma Verify_view s pt lo hi p rows sel count :
  numeric_view s pt lo hi → zonemap_type pt = true → selects sel count rows →
  NumericStats_Verify s (Vec_num p rows) sel count = Ok tt ↔
  ∀ v, selected sel count rows (Some v) → in_interval pt lo hi v.
Proof.
  intros Hs Hz Hsel. unfold NumericStats_Verify. rewrite (nv_pt _ _ _ _ Hs).
  transitivity (TemplatedVerify pt s rows sel count = Ok tt).
  { destruct pt; done || (exfalso; by vm_compute in Hz). }
  unfold TemplatedVerify. rewrite (MinOrNull_view _ _ _ _ Hs), (MaxOrNull_view _ _ _ _ Hs). cbn [mbind result_bind].
  rewrite selected_checks by done.
  assert (∀ v, in_interval pt lo hi v ↔ from_option (λ x, LessThan pt v x) false lo = false ∧
                                       from_option (λ x, GreaterThan pt v x) false hi = false) as Hin.
  { intros v. unfold in_interval. destruct lo as [x|], hi as [y|]; cbn [from_option];
      rewrite ?LessThan_key, ?GreaterThan_key, ?Z.ltb_ge; naive_solver lia. }
  split.
  - intros H v Hv. apply Hin. specialize (H _ Hv). cbn beta iota in H. rewrite !end_test in H. cbn [mbind result_bind] in H.
    repeat case_match; done.
  - intros H [v|] Hv; [|done]. rewrite !end_test. cbn [mbind result_bind].
    apply H, Hin in Hv as [-> ->]. done.
Qed.
