(* ===== verification/StringStats.v ===== *)
(** String statistics ([src/storage/statistics/string_stats.cpp]): the first
    eight bytes of the smallest and largest string, the maximum length and
    whether non-ASCII text occurs; with the UTF-8 analysis they use
    ([third_party/utf8proc/utf8proc_wrapper.cpp]).  Then what they say about the
    strings they cover, and that their operations keep it. *)
From S2P Require Import Prelude SelectionVector Types Stats NumericFacts.

(** * UTF-8 analysis *)

Inductive UnicodeType : Type := UNI_INVALID | UNI_ASCII | UNI_UNICODE.

#[export] Instance UnicodeType_eq_dec : EqDecision UnicodeType.
Proof. solve_decision. Defined.

(** The loop over the extra bytes: the code point and the rest of the string,
    or [None] when a byte is missing or is not a continuation byte. *)
Fixpoint extra_bytes (nextra : nat) (utf8char : Z) (s : list Z) : option (Z * list Z) :=
  match nextra with
  | O => Some (utf8char, s)
  | S n =>
      match s with
      | c :: s' =>
          if Z.land c 0xC0 =? 0x80 then extra_bytes n (Z.lor (Z.shiftl utf8char 6) (Z.land c 0x3F)) s' else None
      | [] => None
      end
  end.

(** [UTF8ExtraByteLoop<nextra_bytes, mask>]: the rest of the string after a
    well-formed sequence. *)
Definition UTF8ExtraByteLoop (nextra : nat) (mask utf8char : Z) (s : list Z) : option (list Z) :=
  match extra_bytes nextra utf8char s with
  | None => None
  | Some (cp, s') =>
      if Z.land cp mask =? 0 then None
      else if 0x10FFFF <? cp then None
      else if Z.land cp 0x1FFF800 =? 0xD800 then None
      else Some s'
  end.

(** [Utf8Proc::Analyze]; the fuel is the number of bytes. *)
Fixpoint Analyze_from (fuel : nat) (type : UnicodeType) (s : list Z) : UnicodeType :=
  match fuel, s with
  | _, [] => type
  | O, _ => type
  | S f, c :: s' =>
      if Z.land c 0x80 =? 0 then Analyze_from f type s'
      else
        let continue r := match r with Some s'' => Analyze_from f UNI_UNICODE s'' | None => UNI_INVALID end in
        if Z.land c 0xE0 =? 0xC0 then continue (UTF8ExtraByteLoop 1 0x000780 (Z.land c 0x1F) s')
        else if Z.land c 0xF0 =? 0xE0 then continue (UTF8ExtraByteLoop 2 0x00F800 (Z.land c 0x0F) s')
        else if Z.land c 0xF8 =? 0xF0 then continue (UTF8ExtraByteLoop 3 0x1F0000 (Z.land c 0x07) s')
        else UNI_INVALID
  end.
Definition Analyze (s : list Z) : UnicodeType := Analyze_from (length s) UNI_ASCII s.

(** * String statistics *)

Definition str_data (s : BaseStatistics) : result StringStatsData :=
  match stats_union s with
  | D_string d => Ok d
  | _ => Throw (UndefinedBehaviour "statistics without string data")
  end.

Definition StringStats_CreateUnknown (s : BaseStatistics) : BaseStatistics :=
  set_union (InitializeUnknown s)
    (D_string (mkStr (replicate MAX_STRING_MINMAX_SIZE 0) (replicate MAX_STRING_MINMAX_SIZE 0xFF) true false 0)).

Definition StringStats_CreateEmpty (s : BaseStatistics) : BaseStatistics :=
  set_union (InitializeEmpty s)
    (D_string (mkStr (replicate MAX_STRING_MINMAX_SIZE 0xFF) (replicate MAX_STRING_MINMAX_SIZE 0) false true 0)).

Definition HasMaxStringLength (s : BaseStatistics) : result bool :=
  if bool_decide (id (stats_type s) = SQLNULL) then Ok false else d ← str_data s; Ok (has_max_string_length d).

Definition MaxStringLength (s : BaseStatistics) : result Z :=
  h ← HasMaxStringLength s;
  if negb h then
    Throw (InternalException "MaxStringLength called on statistics that does not have a max string length")
  else d ← str_data s; Ok (max_string_length d).

Definition CanContainUnicode (s : BaseStatistics) : result bool :=
  if bool_decide (id (stats_type s) = SQLNULL) then Ok true else d ← str_data s; Ok (has_unicode d).

(** The bytes before the first zero byte, at most eight. *)
Fixpoint GetStringMinMaxValue_loop (n : nat) (data : list Z) : list Z :=
  match n, data with
  | S n', b :: data' => if b =? 0 then [] else b :: GetStringMinMaxValue_loop n' data'
  | _, _ => []
  end.
Definition GetStringMinMaxValue (data : list Z) : list Z := GetStringMinMaxValue_loop MAX_STRING_MINMAX_SIZE data.

Definition StringStats_Min (s : BaseStatistics) : result (list Z) := d ← str_data s; Ok (GetStringMinMaxValue (str_min d)).
Definition StringStats_Max (s : BaseStatistics) : result (list Z) := d ← str_data s; Ok (GetStringMinMaxValue (str_max d)).

Definition ResetMaxStringLength (s : BaseStatistics) : result BaseStatistics :=
  d ← str_data s;
  Ok (set_union s (D_string (mkStr (str_min d) (str_max d) (has_unicode d) false (max_string_length d)))).

Definition SetContainsUnicode (s : BaseStatistics) : result BaseStatistics :=
  d ← str_data s;
  Ok (set_union s (D_string (mkStr (str_min d) (str_max d) true (has_max_string_length d) (max_string_length d)))).

(** [StringValueComparison]: the sign of the first difference among the first
    [len] bytes. *)
Fixpoint StringValueComparison (data : list Z) (len : nat) (comparison : list Z) {struct len} : result Z :=
  match len with
  | O => Ok 0
  | S l =>
      match data, comparison with
      | a :: data', b :: comparison' =>
          if a <? b then Ok (-1) else if b <? a then Ok 1 else StringValueComparison data' l comparison'
      | _, _ => Throw (UndefinedBehaviour "array read out of range")
      end
  end.

(** [ConstructValue]: the first bytes, padded with zeros. *)
Definition ConstructValue (data : list Z) : list Z :=
  let size := length data in
  let value_size := if (MAX_STRING_MINMAX_SIZE <? size)%nat then MAX_STRING_MINMAX_SIZE else size in
  take value_size data ++ replicate (MAX_STRING_MINMAX_SIZE - value_size) 0.

Definition StringStats_Update (s : BaseStatistics) (value : list Z) : result BaseStatistics :=
  let size := Z.of_nat (length value) in
  let target := ConstructValue value in
  d ← str_data s;
  cmin ← StringValueComparison target MAX_STRING_MINMAX_SIZE (str_min d);
  let mn := if cmin <? 0 then target else str_min d in
  cmax ← StringValueComparison target MAX_STRING_MINMAX_SIZE (str_max d);
  let mx := if 0 <? cmax then target else str_max d in
  let len := if max_string_length d <? size then wrapu 32 size else max_string_length d in
  uni ← (if bool_decide (id (stats_type s) = VARCHAR) && negb (has_unicode d) then
           match Analyze value with
           | UNI_UNICODE => Ok true
           | UNI_INVALID => Throw (InvalidUnicodeError "segment statistics update")
           | UNI_ASCII => Ok false
           end
         else Ok (has_unicode d));
  Ok (set_union s (D_string (mkStr mn mx uni (has_max_string_length d) len))).

Definition StringStats_Merge (s other : BaseStatistics) : result BaseStatistics :=
  if bool_decide (id (stats_type other) = VALIDITY) then Ok s
  else
    d ← str_data s; o ← str_data other;
    cmin ← StringValueComparison (str_min o) MAX_STRING_MINMAX_SIZE (str_min d);
    let mn := if cmin <? 0 then str_min o else str_min d in
    cmax ← StringValueComparison (str_max o) MAX_STRING_MINMAX_SIZE (str_max d);
    let mx := if 0 <? cmax then str_max o else str_max d in
    Ok (set_union s (D_string (mkStr mn mx (has_unicode d || has_unicode o)
          (has_max_string_length d && has_max_string_length o) (Z.max (max_string_length d) (max_string_length o))))).

Definition StringStats_CheckZonemap (s : BaseStatistics) (cmp : ExpressionType) (constant : list Z)
    : result FilterPropagateResult :=
  d ← str_data s;
  let size := length constant in
  let value_size := if (MAX_STRING_MINMAX_SIZE <? size)%nat then MAX_STRING_MINMAX_SIZE else size in
  min_comp ← StringValueComparison constant value_size (str_min d);
  max_comp ← StringValueComparison constant value_size (str_max d);
  match cmp with
  | COMPARE_EQUAL =>
      if (0 <=? min_comp) && (max_comp <=? 0) then Ok NO_PRUNING_POSSIBLE else Ok FILTER_ALWAYS_FALSE
  | COMPARE_NOTEQUAL =>
      if (min_comp <? 0) || (0 <? max_comp) then Ok FILTER_ALWAYS_TRUE else Ok NO_PRUNING_POSSIBLE
  | COMPARE_GREATERTHANOREQUALTO | COMPARE_GREATERTHAN =>
      if max_comp <=? 0 then Ok NO_PRUNING_POSSIBLE else Ok FILTER_ALWAYS_FALSE
  | COMPARE_LESSTHAN | COMPARE_LESSTHANOREQUALTO =>
      if 0 <=? min_comp then Ok NO_PRUNING_POSSIBLE else Ok FILTER_ALWAYS_FALSE
  | _ => Throw (InternalException "Expression type not implemented for string statistics zone map")
  end.

(** ** Serialization *)

Definition StringStats_Serialize (s : BaseStatistics) : result (list (Z * string * serialized)) :=
  d ← str_data s;
  Ok [(200, "min"%string, S_bytes (str_min d));
      (201, "max"%string, S_bytes (str_max d));
      (202, "has_unicode"%string, S_bool (has_unicode d));
      (203, "has_max_string_length"%string, S_bool (has_max_string_length d));
      (204, "max_string_length"%string, S_num UINT32 (max_string_length d))].

Definition StringStats_Deserialize (o : list (Z * string * serialized)) (s : BaseStatistics) : result BaseStatistics :=
  '(a, o) ← read_prop 200 o; mn ← as_bytes a;
  '(a, o) ← read_prop 201 o; mx ← as_bytes a;
  '(a, o) ← read_prop 202 o; uni ← as_bool a;
  '(a, o) ← read_prop 203 o; hlen ← as_bool a;
  '(a, _) ← read_prop 204 o; len ← as_num UINT32 a;
  Ok (set_union s (D_string (mkStr mn mx uni hlen len))).

(** ** Verification of a vector *)

Definition StringStats_verify_row (t : LogicalType) (d : StringStatsData) (row : option (list Z)) : result unit :=
  match row with
  | None => Ok tt
  | Some value =>
      let len := length value in
      if has_max_string_length d && (max_string_length d <? Z.of_nat len) then
        Throw (InternalException "Statistics mismatch: string value exceeds maximum string length.")
      else
        _ ← (if bool_decide (id t = VARCHAR) && negb (has_unicode d) then
               match Analyze value with
               | UNI_UNICODE => Throw (InternalException "Statistics mismatch: string value contains unicode, but statistics says it shouldn't.")
               | UNI_INVALID => Throw (InternalException "Invalid unicode detected in vector")
               | UNI_ASCII => Ok tt
               end
             else Ok tt);
        c ← StringValueComparison value (Nat.min len MAX_STRING_MINMAX_SIZE) (str_min d);
        if c <? 0 then Throw (InternalException "Statistics mismatch: value is smaller than min.")
        else
          c ← StringValueComparison value (Nat.min len MAX_STRING_MINMAX_SIZE) (str_max d);
          if 0 <? c then Throw (InternalException "Statistics mismatch: value is bigger than max.") else Ok tt
  end.

Definition StringStats_Verify (s : BaseStatistics) (vector : Vector) (sel : SelectionVector) (count : nat) : result unit :=
  d ← str_data s;
  match vector with
  | Vec_string rows =>
      foldM (λ _ i, idx ← get_index sel i; row ← vget rows (Z.to_nat idx); StringStats_verify_row (stats_type s) d row)
        tt (seq 0 count)
  | _ => Throw (UndefinedBehaviour "vector of another type")
  end.

(** * Byte strings as numbers *)

Definition bytes_ok (l : list Z) : Prop := Forall (λ b, 0 ≤ b < 256) l.

(** The big-endian number of a byte string. *)
Definition str_key (l : list Z) : Z := fold_left (λ acc b, acc * 256 + b) l 0.

Lemma fold_key l acc : fold_left (λ acc b, acc * 256 + b) l acc = acc * 256 ^ Z.of_nat (length l) + str_key l.
Proof.
  unfold str_key. revert acc. induction l as [|b l IH]; intros acc; cbn [fold_left length]; [lia|].
  rewrite IH, (IH (0 * 256 + b)). rewrite Nat2Z.inj_succ, Z.pow_succ_r by lia. lia.
Qed.

Lemma str_key_cons b l : str_key (b :: l) = b * 256 ^ Z.of_nat (length l) + str_key l.
Proof. unfold str_key at 1. cbn [fold_left]. rewrite fold_key. lia. Qed.

Lemma str_key_range l : bytes_ok l → 0 ≤ str_key l < 256 ^ Z.of_nat (length l).
Proof.
  induction 1 as [|b l Hb Hl IH]; [unfold str_key; cbn; lia|].
  rewrite str_key_cons. cbn [length]. rewrite Nat2Z.inj_succ, Z.pow_succ_r by lia. nia.
Qed.

(** The comparison of equally long byte strings is the comparison of their
    numbers. *)
Definition key_compare (a b : Z) : Z := if a <? b then -1 else if b <? a then 1 else 0.

Lemma comparison_key a b :
  bytes_ok a → bytes_ok b → length a = length b →
  StringValueComparison a (length a) b = Ok (key_compare (str_key a) (str_key b)).
Proof.
  revert b. induction a as [|x a IH]; intros [|y b] Ha Hb Hl; try done.
  apply Forall_cons in Ha as [Hx Ha]. apply Forall_cons in Hb as [Hy Hb]. cbn [length] in Hl. injection Hl as Hl.
  cbn [StringValueComparison length]. rewrite !str_key_cons. rewrite <- Hl.
  pose proof (str_key_range a Ha) as Ka. pose proof (str_key_range b Hb) as Kb. rewrite <- Hl in Kb.
  set (P := 256 ^ Z.of_nat (length a)) in *.
  destruct (Z.ltb_spec x y); [|destruct (Z.ltb_spec y x)]; unfold key_compare.
  - by replace (x * P + str_key a <? y * P + str_key b) with true by nia.
  - replace (x * P + str_key a <? y * P + str_key b) with false by nia.
    by replace (y * P + str_key b <? x * P + str_key a) with true by nia.
  - assert (x = y) as -> by lia. rewrite IH by done. unfold key_compare. f_equal.
    destruct (Z.ltb_spec (str_key a) (str_key b)), (Z.ltb_spec (str_key b) (str_key a)); repeat case_match; lia.
Qed.

(** * What the statistics cover *)

Definition byte_array (l : list Z) : Prop := length l = MAX_STRING_MINMAX_SIZE ∧ bytes_ok l.

Record str_wf (d : StringStatsData) : Prop := {
  sw_min : byte_array (str_min d);
  sw_max : byte_array (str_max d);
  sw_len : 0 ≤ max_string_length d < 2 ^ 32;
}.

(** String [v] of a column of type [t] is covered by the data [d]. *)
Record str_covers (t : LogicalType) (d : StringStatsData) (v : list Z) : Prop := {
  sc_min : str_key (str_min d) ≤ str_key (ConstructValue v);
  sc_max : str_key (ConstructValue v) ≤ str_key (str_max d);
  sc_len : has_max_string_length d = true → Z.of_nat (length v) ≤ max_string_length d;
  sc_uni : id t = VARCHAR → has_unicode d = false → Analyze v = UNI_ASCII;
}.

(** A string the code can hold. *)
Definition str_ok (v : list Z) : Prop := bytes_ok v ∧ Z.of_nat (length v) < 2 ^ 32.

Lemma ConstructValue_array v : bytes_ok v → byte_array (ConstructValue v).
Proof.
  intros Hv. unfold ConstructValue, byte_array, MAX_STRING_MINMAX_SIZE. split.
  - rewrite length_app, length_take, length_replicate. destruct (Nat.ltb_spec 8 (length v)); lia.
  - apply Forall_app. split; [by apply Forall_take|]. apply Forall_replicate. lia.
Qed.

Lemma array_comparison a b :
  byte_array a → byte_array b →
  StringValueComparison a MAX_STRING_MINMAX_SIZE b = Ok (key_compare (str_key a) (str_key b)).
Proof. intros [Ha Hab] [Hb Hbb]. rewrite <- Ha at 1. apply comparison_key; [done | done | congruence]. Qed.

(** The fields of freshly built data. *)
Ltac str_fields := cbn [str_min str_max has_unicode has_max_string_length max_string_length].

(** ** Updating *)

Lemma Update_covers s d v :
  stats_union s = D_string d → str_wf d → str_ok v →
  (id (stats_type s) = VARCHAR → has_unicode d = false → Analyze v ≠ UNI_INVALID) →
  ∃ d', StringStats_Update s v = Ok (set_union s (D_string d')) ∧ str_wf d' ∧ str_covers (stats_type s) d' v ∧
    ∀ w, str_covers (stats_type s) d w → str_covers (stats_type s) d' w.
Proof.
  intros Hu [Hmn Hmx Hlen] [Hv Hvl] Huni. pose proof (ConstructValue_array v Hv) as Ht.
  unfold StringStats_Update, str_data. rewrite Hu. cbn [mbind result_bind].
  rewrite !array_comparison by done. cbn [mbind result_bind].
  set (mn := if key_compare _ _ <? 0 then _ else _). set (mx := if 0 <? key_compare _ _ then _ else _).
  assert (str_key mn = Z.min (str_key (ConstructValue v)) (str_key (str_min d)) ∧ byte_array mn) as [Kmn Wmn].
  { unfold mn, key_compare. repeat case_match; split; (lia || done). }
  assert (str_key mx = Z.max (str_key (ConstructValue v)) (str_key (str_max d)) ∧ byte_array mx) as [Kmx Wmx].
  { unfold mx, key_compare. repeat case_match; split; (lia || done). }
  assert (∃ uni, (if bool_decide (id (stats_type s) = VARCHAR) && negb (has_unicode d) then
           match Analyze v with UNI_UNICODE => Ok true | UNI_INVALID => Throw (InvalidUnicodeError "segment statistics update") | UNI_ASCII => Ok false end
         else Ok (has_unicode d)) = Ok uni ∧ (has_unicode d = true → uni = true) ∧
         (id (stats_type s) = VARCHAR → uni = false → Analyze v = UNI_ASCII)) as (uni & -> & Hu1 & Hu2).
  { case_bool_decide as Hid; destruct (has_unicode d) eqn:Hhu; cbn [andb negb]; try (eexists; split_and!; done).
    destruct (Analyze v) eqn:Han; [by destruct (Huni Hid eq_refl) | |]; eexists; split_and!; done. }
  cbn [mbind result_bind]. eexists. split; [done|].
  rewrite (wrapu_small 32 (Z.of_nat (length v))) by lia.
  split; [split; str_fields; [done | done | case_match; lia]|]. split.
  - split; str_fields; [lia | lia | intros _; destruct (Z.ltb_spec (max_string_length d) (Z.of_nat (length v))); lia | done].
  - intros w [W1 W2 W3 W4]. split; str_fields; [lia | lia | |].
    + intros Hh. specialize (W3 Hh). destruct (Z.ltb_spec (max_string_length d) (Z.of_nat (length v))); lia.
    + intros Hid Hf. apply W4; [done|]. destruct (has_unicode d); [|done]. rewrite Hu1 in Hf by done. done.
Qed.

(** ** Merging *)

Lemma Merge_covers s o d e :
  stats_union s = D_string d → stats_union o = D_string e → str_wf d → str_wf e → id (stats_type o) ≠ VALIDITY →
  ∃ d', StringStats_Merge s o = Ok (set_union s (D_string d')) ∧ str_wf d' ∧
    ∀ t v, str_covers t d v ∨ str_covers t e v → str_covers t d' v.
Proof.
  intros Hs Ho [Hmn Hmx Hlen] [Hmn' Hmx' Hlen'] Ht. unfold StringStats_Merge. rewrite bool_decide_false by done.
  unfold str_data. rewrite Hs, Ho. cbn [mbind result_bind]. rewrite !array_comparison by done. cbn [mbind result_bind].
  set (mn := if key_compare _ _ <? 0 then _ else _). set (mx := if 0 <? key_compare _ _ then _ else _).
  assert (str_key mn = Z.min (str_key (str_min e)) (str_key (str_min d)) ∧ byte_array mn) as [Kmn Wmn].
  { unfold mn, key_compare. repeat case_match; split; (lia || done). }
  assert (str_key mx = Z.max (str_key (str_max e)) (str_key (str_max d)) ∧ byte_array mx) as [Kmx Wmx].
  { unfold mx, key_compare. repeat case_match; split; (lia || done). }
  eexists. split; [done|]. split; [split; str_fields; [done | done | lia]|].
  intros t v [[W1 W2 W3 W4]|[W1 W2 W3 W4]]; split; str_fields; try lia;
    intros Hid [? ?]%orb_false_iff; auto.
Qed.

(** ** Zone maps *)

(** Zero padding to [n] bytes. *)
Definition pad (n : nat) (v : list Z) : list Z := take n v ++ replicate (n - length v) 0.

Lemma ConstructValue_pad v : ConstructValue v = pad MAX_STRING_MINMAX_SIZE v.
Proof.
  unfold ConstructValue, pad, MAX_STRING_MINMAX_SIZE. destruct (Nat.ltb_spec 8 (length v)).
  - rewrite (Nat.sub_diag 8). f_equal. replace (8 - length v)%nat with O by lia. done.
  - by rewrite !take_ge by lia.
Qed.

Lemma pad_nil n : pad (S n) [] = 0 :: pad n [].
Proof. unfold pad. cbn. by rewrite take_nil, Nat.sub_0_r. Qed.
Lemma pad_cons n x v : pad (S n) (x :: v) = x :: pad n v.
Proof. done. Qed.

(** A constant whose first bytes are smaller than the minimum is smaller than
    every covered string. *)
Lemma below_min n k c m v r :
  bytes_ok c → (k ≤ n)%nat → StringValueComparison c k m = Ok (-1) →
  StringValueComparison (pad n v) n m = Ok r → 0 ≤ r → bytes_gt v c = true.
Proof.
  revert n c m v. induction k as [|k IH]; intros n c m v Hc Hk Hcm Hvm Hr; [done|].
  destruct n as [|n]; [lia|]. destruct c as [|a c], m as [|b m]; try done. apply Forall_cons in Hc as [Ha Hc].
  cbn [StringValueComparison] in Hcm.
  destruct v as [|x v]; [rewrite pad_nil in Hvm | rewrite pad_cons in Hvm]; cbn [StringValueComparison] in Hvm.
  - destruct (Z.ltb_spec 0 b); [injection Hvm as <-; lia|].
    destruct (Z.ltb_spec b 0); [destruct (Z.ltb_spec a b), (Z.ltb_spec b a); (lia || done)|].
    destruct (Z.ltb_spec a b), (Z.ltb_spec b a); try lia; try done.
    specialize (IH n c m [] Hc ltac:(lia) Hcm Hvm Hr). by destruct c.
  - destruct (Z.ltb_spec x b); [injection Hvm as <-; lia|]. cbn [bytes_gt].
    destruct (Z.ltb_spec a b); [by destruct (Z.eqb_spec x a); [lia|]; apply Z.ltb_lt; lia|].
    destruct (Z.ltb_spec b a); [done|]. destruct (Z.eqb_spec x a) as [->|]; [|apply Z.ltb_lt; lia].
    replace (b <? a) with false in Hvm by lia. eapply (IH n c m v); (done || lia).
Qed.

Lemma above_max n k c m v r :
  bytes_ok c → (k ≤ n)%nat → StringValueComparison c k m = Ok 1 →
  StringValueComparison (pad n v) n m = Ok r → r ≤ 0 → bytes_gt c v = true.
Proof.
  revert n c m v. induction k as [|k IH]; intros n c m v Hc Hk Hcm Hvm Hr; [done|].
  destruct n as [|n]; [lia|]. destruct c as [|a c], m as [|b m]; try done. apply Forall_cons in Hc as [Ha Hc].
  destruct v as [|x v]; [done|]. rewrite pad_cons in Hvm. cbn [StringValueComparison] in Hcm, Hvm. cbn [bytes_gt].
  destruct (Z.ltb_spec a b); [done|].
  destruct (Z.ltb_spec x b); [by destruct (Z.eqb_spec a x); [lia|]; apply Z.ltb_lt; lia|].
  destruct (Z.ltb_spec b x); [injection Hvm as <-; lia|].
  destruct (Z.ltb_spec b a); [by destruct (Z.eqb_spec a x); [lia|]; apply Z.ltb_lt; lia|].
  replace (a =? x) with true by lia. eapply (IH n c m v); (done || lia).
Qed.

(** The comparison of strings the executor computes. *)
Definition string_comparison (cmp : ExpressionType) (v c : list Z) : option bool :=
  match cmp with
  | COMPARE_EQUAL => Some (bool_decide (v = c))
  | COMPARE_NOTEQUAL => Some (negb (bool_decide (v = c)))
  | COMPARE_LESSTHAN => Some (bytes_gt c v)
  | COMPARE_GREATERTHAN => Some (bytes_gt v c)
  | COMPARE_LESSTHANOREQUALTO => Some (negb (bytes_gt v c))
  | COMPARE_GREATERTHANOREQUALTO => Some (negb (bytes_gt c v))
  | _ => None
  end.

Lemma bytes_gt_asym a b : bytes_gt a b = true → bytes_gt b a = false ∧ a ≠ b.
Proof.
  revert b. induction a as [|x a IH]; intros [|y b]; cbn; try done.
  destruct (Z.eqb_spec x y) as [->|Hne].
  - rewrite Z.eqb_refl. intros H. destruct (IH b H) as [H1 H2]. split; [done | congruence].
  - intros H. replace (y =? x) with false by lia. split; [lia | congruence].
Qed.

(** The byte comparison of a constant with a bound always returns. *)
Lemma prefix_comparison c m :
  bytes_ok c → byte_array m →
  ∃ r, StringValueComparison c (if (8 <? length c)%nat then 8%nat else length c) m = Ok r ∧ (r = -1 ∨ r = 0 ∨ r = 1).
Proof.
  intros Hc [Hm _]. set (k := if (8 <? length c)%nat then _ else _).
  assert (k ≤ length c ∧ k ≤ length m)%nat as [Hk1 Hk2].
  { unfold k, MAX_STRING_MINMAX_SIZE in *. destruct (Nat.ltb_spec 8 (length c)); lia. }
  clearbody k. clear Hm. revert c m Hc Hk1 Hk2. induction k as [|k IH]; intros c m Hc Hk1 Hk2; cbn; [eauto|].
  destruct c as [|a c]; [cbn in Hk1; lia|]. destruct m as [|b m]; [cbn in Hk2; lia|]. cbn in Hk1, Hk2.
  case_match; [eauto|]. case_match; [eauto|]. apply Forall_cons in Hc as [_ Hc]. apply IH; [done | lia | lia].
Qed.

Lemma string_zonemap_sound s d cmp c v b :
  stats_union s = D_string d → str_wf d → str_ok v → bytes_ok c → str_covers (stats_type s) d v →
  string_comparison cmp v c = Some b →
  ∃ r, StringStats_CheckZonemap s cmp c = Ok r ∧ prune_ok r b.
Proof.
  intros Hs [Hmn Hmx _] [Hv _] Hc [Cmn Cmx _ _] Hb. unfold StringStats_CheckZonemap, str_data. rewrite Hs.
  cbn [mbind result_bind]. unfold MAX_STRING_MINMAX_SIZE.
  destruct (prefix_comparison c (str_min d) Hc Hmn) as (r1 & E1 & H1).
  destruct (prefix_comparison c (str_max d) Hc Hmx) as (r2 & E2 & H2).
  rewrite E1, E2. cbn [mbind result_bind].
  set (k := if (8 <? length c)%nat then 8%nat else length c) in *.
  assert (k ≤ 8)%nat as Hk by (unfold k; destruct (Nat.ltb_spec 8 (length c)); lia).
  pose proof (ConstructValue_array v Hv) as Hp.
  assert (r1 = -1 → bytes_gt v c = true) as Hlow.
  { intros ->. eapply (below_min 8 k c (str_min d) v); [done | done | done | |].
    - change (pad 8 v) with (pad MAX_STRING_MINMAX_SIZE v). rewrite <- (ConstructValue_pad v).
      by apply (array_comparison _ (str_min d)).
    - unfold key_compare. repeat case_match; lia. }
  assert (r2 = 1 → bytes_gt c v = true) as Hhigh.
  { intros ->. eapply (above_max 8 k c (str_max d) v); [done | done | done | |].
    - change (pad 8 v) with (pad MAX_STRING_MINMAX_SIZE v). rewrite <- (ConstructValue_pad v).
      by apply (array_comparison _ (str_max d)).
    - unfold key_compare. repeat case_match; lia. }
  assert (r1 = -1 → bytes_gt v c = true ∧ bytes_gt c v = false ∧ bool_decide (v = c) = false) as F1.
  { intros E. specialize (Hlow E). destruct (bytes_gt_asym v c Hlow). by rewrite bool_decide_false. }
  assert (r2 = 1 → bytes_gt c v = true ∧ bytes_gt v c = false ∧ bool_decide (v = c) = false) as F2.
  { intros E. specialize (Hhigh E). destruct (bytes_gt_asym c v Hhigh). by rewrite bool_decide_false. }
  clear Hlow Hhigh. destruct cmp; try done; cbn [string_comparison] in Hb; injection Hb as <-;
    (repeat case_match; eexists; (split; [done|]); cbn [prune_ok]; try done);
    (destruct (decide (r1 = -1)) as [E|E]; [destruct (F1 E) as (? & ? & ?)|]);
    (destruct (decide (r2 = 1)) as [E'|E']; [destruct (F2 E') as (? & ? & ?)|]); lia.
Qed.
