(* ===== verification/StringType.v ===== *)
(** [string_t] ([src/include/duckdb/common/types/string_type.hpp]): a length,
    a four-byte prefix and either eight more inlined bytes or a pointer.  The
    optimised comparison operators are equivalent to equality and
    lexicographic order of the byte strings. *)
From S2P Require Import Prelude Types StringStats.

Definition PREFIX_BYTES : nat := 4.
Definition INLINE_BYTES : nat := 12.
Definition PREFIX_LENGTH : nat := PREFIX_BYTES.
Definition INLINE_LENGTH : nat := INLINE_BYTES.

(** The union of [string_t]: the inlined form, or a prefix and a pointer; the
    bytes behind the pointer are kept with the address. *)
Inductive string_t : Type :=
  | str_inlined (length : nat) (inlined : list Z)
  | str_pointer (length : nat) (prefix : list Z) (ptr : Z) (pointed : list Z).

Definition GetSize (s : string_t) : nat :=
  match s with str_inlined n _ => n | str_pointer n _ _ _ => n end.
Definition IsInlined (s : string_t) : bool := (GetSize s <=? INLINE_LENGTH)%nat.
Definition GetData (s : string_t) : list Z :=
  match s with str_inlined _ b => b | str_pointer _ _ _ p => p end.
Definition GetPrefix (s : string_t) : list Z :=
  match s with str_inlined _ b => take PREFIX_BYTES b | str_pointer _ p _ _ => p end.
Definition GetString (s : string_t) : list Z := take (GetSize s) (GetData s).

(** [string_t(data, len)] for the [len] bytes [data] at address [ptr]. *)
Definition string_t_new (ptr : Z) (data : list Z) : string_t :=
  let len := length data in
  if (len <=? INLINE_LENGTH)%nat then str_inlined len (data ++ replicate (INLINE_BYTES - len) 0)
  else str_pointer len (take PREFIX_LENGTH data) ptr data.

(** [Load<T>]: the little-endian number of the bytes. *)
Fixpoint Load (b : list Z) : Z :=
  match b with [] => 0 | x :: b' => x + 256 * Load b' end.

(** The two 8-byte halves of the object. *)
Definition bulk_head (s : string_t) : Z := Z.of_nat (GetSize s) + 2 ^ 32 * Load (GetPrefix s).
Definition bulk_tail (s : string_t) : Z :=
  match s with str_inlined _ b => Load (drop PREFIX_BYTES b) | str_pointer _ _ p _ => p end.

(** [memcmp] of the first [n] bytes. *)
Fixpoint memcmp (a b : list Z) (n : nat) {struct n} : Z :=
  match n with
  | O => 0
  | S n' =>
      match a, b with
      | x :: a', y :: b' => if x <? y then -1 else if y <? x then 1 else memcmp a' b' n'
      | _, _ => 0
      end
  end.

(** [StringComparisonOperators::Equals]. *)
Definition string_t_Equals (a b : string_t) : bool :=
  if negb (bulk_head a =? bulk_head b) then false
  else if bulk_tail a =? bulk_tail b then true
  else if negb (IsInlined a) then memcmp (GetData a) (GetData b) (GetSize a) =? 0
  else false.

(** The byte swap of the prefix comparison. *)
Definition byte_swap (v : Z) : Z :=
  let t1 := Z.lor (Z.shiftr v 16) (wrapu 32 (Z.shiftl v 16)) in
  let t2 := Z.land t1 0x00ff00ff in
  let t3 := Z.land t1 0xff00ff00 in
  Z.lor (wrapu 32 (Z.shiftl t2 8)) (Z.shiftr t3 8).

(** [StringComparisonOperators::GreaterThan]. *)
Definition string_t_GreaterThan (left right : string_t) : bool :=
  let min_length := Nat.min (GetSize left) (GetSize right) in
  let a_prefix := Load (GetPrefix left) in
  let b_prefix := Load (GetPrefix right) in
  if negb (a_prefix =? b_prefix) then byte_swap b_prefix <? byte_swap a_prefix
  else
    let memcmp_res := memcmp (GetData left) (GetData right) min_length in
    (0 <? memcmp_res) || ((memcmp_res =? 0) && (GetSize right <? GetSize left)%nat).

(** * Facts *)

Lemma Load_range b : bytes_ok b → 0 ≤ Load b < 256 ^ Z.of_nat (length b).
Proof.
  induction 1 as [|x b Hx _ IH]; [cbn; lia|]. cbn [Load length]. rewrite Nat2Z.inj_succ, Z.pow_succ_r by lia. nia.
Qed.

Lemma Load_inj a b : bytes_ok a → bytes_ok b → length a = length b → Load a = Load b → a = b.
Proof.
  intros Ha. revert b. induction Ha as [|x a Hx _ IH]; intros [|y b] Hb Hl E; try done.
  apply Forall_cons in Hb as [Hy Hb]. cbn [Load] in E. injection Hl as Hl.
  assert (x = y) by lia. subst y. f_equal. apply IH; [done | done | lia].
Qed.

(** The bits of a number put together from a low and a high part. *)
Lemma testbit_split k p q n :
  0 ≤ k → 0 ≤ p < 2 ^ k → 0 ≤ n → Z.testbit (p + q * 2 ^ k) n = if n <? k then Z.testbit p n else Z.testbit q (n - k).
Proof.
  intros Hk Hp Hn. destruct (Z.ltb_spec n k).
  - rewrite <- (Z.mod_pow2_bits_low (p + q * 2 ^ k) k) by lia. by rewrite Z.mod_add, Z.mod_small by lia.
  - replace n with (n - k + k) at 1 by lia. rewrite <- Z.div_pow2_bits by lia.
    by rewrite Z.div_add, Z.div_small, Z.add_0_l by lia.
Qed.

Lemma land_split k p q m n :
  0 ≤ k → 0 ≤ p < 2 ^ k → 0 ≤ m < 2 ^ k → 0 ≤ Z.land p m < 2 ^ k →
  Z.land (p + q * 2 ^ k) (m + n * 2 ^ k) = Z.land p m + Z.land q n * 2 ^ k.
Proof.
  intros Hk Hp Hm Hl. apply Z.bits_inj'. intros i Hi. rewrite Z.land_spec, !testbit_split by lia.
  by destruct (i <? k); rewrite Z.land_spec.
Qed.

Lemma lor_split k p q m n :
  0 ≤ k → 0 ≤ p < 2 ^ k → 0 ≤ m < 2 ^ k → 0 ≤ Z.lor p m < 2 ^ k →
  Z.lor (p + q * 2 ^ k) (m + n * 2 ^ k) = Z.lor p m + Z.lor q n * 2 ^ k.
Proof.
  intros Hk Hp Hm Hl. apply Z.bits_inj'. intros i Hi. rewrite Z.lor_spec, !testbit_split by lia.
  by destruct (i <? k); rewrite Z.lor_spec.
Qed.

(** Four bytes masked with four bytes that are all zeros or all ones. *)
Definition word (a b c d : Z) : Z := a + (b + (c + d * 2 ^ 8) * 2 ^ 8) * 2 ^ 8.

Lemma byte_ones x : 0 ≤ x < 256 → Z.land x 255 = x.
Proof. intros. change 255 with (Z.ones 8). rewrite Z.land_ones by lia. by apply Z.mod_small. Qed.

Lemma land_even a b c d :
  bytes_ok [a; b; c; d] → Z.land (word a b c d) 0x00ff00ff = word a 0 c 0 ∧ Z.land (word a b c d) 0xff00ff00 = word 0 b 0 d.
Proof.
  intros H. repeat (apply Forall_cons in H as [? H]). clear H.
  assert (∀ x y, 0 ≤ x < 256 → y = 0 ∨ y = 255 → 0 ≤ Z.land x y < 256) as Hr.
  { intros x y Hx [-> | ->]; [rewrite Z.land_0_r; lia | rewrite byte_ones; lia]. }
  change 0x00ff00ff with (word 255 0 255 0). change 0xff00ff00 with (word 0 255 0 255). unfold word.
  split; rewrite !land_split; rewrite ?Z.land_0_r, ?byte_ones; lia || (apply Hr; auto).
Qed.

Lemma lor_halves a b c d :
  bytes_ok [a; b; c; d] → Z.lor (word a 0 c 0) (word 0 b 0 d) = word a b c d.
Proof.
  intros H. repeat (apply Forall_cons in H as [? H]). clear H. unfold word.
  rewrite !lor_split; rewrite ?Z.lor_0_r, ?Z.lor_0_l; lia.
Qed.

Lemma lor_words a b c d :
  bytes_ok [a; b; c; d] → Z.lor (word a b 0 0) (word 0 0 c d) = word a b c d.
Proof.
  intros H. repeat (apply Forall_cons in H as [? H]). clear H. unfold word.
  rewrite !lor_split; rewrite ?Z.lor_0_r, ?Z.lor_0_l; lia.
Qed.

(** Byte swapping a four-byte word gives the big-endian number. *)
Lemma byte_swap_key a b c d :
  bytes_ok [a; b; c; d] → byte_swap (Load [a; b; c; d]) = str_key [a; b; c; d].
Proof.
  intros H. assert (bytes_ok [c; d; a; b] ∧ bytes_ok [d; c; b; a]) as [H1 H2]
    by (unfold bytes_ok in *; rewrite !Forall_cons in *; tauto).
  assert (Load [a; b; c; d] = word a b c d) as -> by (unfold word; cbn [Load]; lia).
  assert (str_key [a; b; c; d] = word d c b a) as -> by (unfold word, str_key; cbn [fold_left]; lia).
  unfold byte_swap. rewrite !Z.shiftl_mul_pow2 by lia. rewrite !Z.shiftr_div_pow2 by lia.
  assert (word a b c d / 2 ^ 16 = word c d 0 0) as ->.
  { repeat (apply Forall_cons in H as [? H]). unfold word. symmetry. apply (Z.div_unique _ _ _ (a + b * 2 ^ 8)); lia. }
  assert (wrapu 32 (word a b c d * 2 ^ 16) = word 0 0 a b) as ->.
  { repeat (apply Forall_cons in H as [? H]). unfold word, wrapu. symmetry. apply (Z.mod_unique _ _ (c + d * 2 ^ 8)); lia. }
  rewrite (lor_words _ _ _ _ H1). destruct (land_even _ _ _ _ H1) as [-> ->].
  assert (wrapu 32 (word c 0 a 0 * 2 ^ 8) = word 0 c 0 a) as ->.
  { repeat (apply Forall_cons in H as [? H]). unfold word, wrapu. symmetry. apply (Z.mod_unique _ _ 0); lia. }
  assert (word 0 d 0 b / 2 ^ 8 = word d 0 b 0) as ->.
  { repeat (apply Forall_cons in H as [? H]). unfold word. symmetry. apply (Z.div_unique _ _ _ 0); lia. }
  rewrite Z.lor_comm. by apply lor_halves.
Qed.

(** ** The representation *)

Lemma prefix_new p a : GetPrefix (string_t_new p a) = pad PREFIX_BYTES a.
Proof.
  unfold string_t_new, pad, PREFIX_BYTES, PREFIX_LENGTH, INLINE_LENGTH, INLINE_BYTES.
  destruct (Nat.leb_spec (length a) 12); cbn [GetPrefix].
  - rewrite take_app, take_replicate. f_equal. f_equal. unfold PREFIX_BYTES. lia.
  - unfold PREFIX_BYTES. replace (4 - length a)%nat with O by lia. by rewrite app_nil_r.
Qed.

Lemma pad_ok n a : bytes_ok a → bytes_ok (pad n a) ∧ length (pad n a) = n.
Proof.
  intros Ha. unfold pad. split.
  - apply Forall_app. split; [by apply Forall_take | apply Forall_replicate; lia].
  - rewrite length_app, length_take, length_replicate. lia.
Qed.

Lemma size_new p a : GetSize (string_t_new p a) = length a.
Proof. unfold string_t_new. by destruct (_ <=? _)%nat. Qed.

Lemma string_roundtrip p a : GetString (string_t_new p a) = a.
Proof.
  unfold GetString. rewrite size_new. unfold string_t_new. destruct (_ <=? _)%nat; cbn [GetData].
  - by rewrite take_app_length.
  - apply firstn_all.
Qed.

(** [memcmp] sees the first bytes only. *)
Lemma memcmp_data p q a b n :
  (n ≤ length a)%nat → (n ≤ length b)%nat →
  memcmp (GetData (string_t_new p a)) (GetData (string_t_new q b)) n = memcmp a b n.
Proof.
  assert (∀ a b za zb n, (n ≤ length a)%nat → (n ≤ length b)%nat → memcmp (a ++ za) (b ++ zb) n = memcmp a b n) as H.
  { clear. intros a b za zb n. revert a b. induction n as [|n IH]; intros a b Ha Hb; [done|].
    destruct a as [|x a], b as [|y b]; cbn in Ha, Hb; try lia. cbn. by rewrite IH by lia. }
  assert (∀ p a, ∃ z, GetData (string_t_new p a) = a ++ z) as HD.
  { intros p' a'. unfold string_t_new. destruct (_ <=? _)%nat; [by eexists|]. exists []. by rewrite app_nil_r. }
  intros Ha Hb. destruct (HD p a) as [za ->], (HD q b) as [zb ->]. by apply H.
Qed.

Lemma memcmp_zero a b : length a = length b → memcmp a b (length a) = 0 → a = b.
Proof.
  revert b. induction a as [|x a IH]; intros [|y b] Hl H; try done. cbn in H.
  destruct (Z.ltb_spec x y); [done|]. destruct (Z.ltb_spec y x); [done|]. f_equal; [lia|]. cbn in Hl. apply IH; [lia | done].
Qed.

Lemma memcmp_refl a n : memcmp a a n = 0.
Proof. revert a. induction n as [|n IH]; intros [|x a]; try done. cbn. by rewrite Z.ltb_irrefl. Qed.

(** [memcmp] on the common length and then the lengths: the lexicographic
    order. *)
Lemma memcmp_order a b :
  let m := memcmp a b (Nat.min (length a) (length b)) in
  (0 <? m) || ((m =? 0) && (length b <? length a)%nat) = bytes_gt a b.
Proof.
  cbv zeta. revert b. induction a as [|x a IH]; intros [|y b]; try done. cbn [length Nat.min memcmp bytes_gt].
  destruct (Z.ltb_spec x y), (Z.ltb_spec y x), (Z.eqb_spec x y); try lia; try done; exact (IH b).
Qed.

Lemma zero_key n : str_key (pad n []) = 0.
Proof. induction n as [|n IH]; [done|]. rewrite pad_nil, str_key_cons, IH. lia. Qed.

Lemma str_key_inj a b : bytes_ok a → bytes_ok b → length a = length b → str_key a = str_key b → a = b.
Proof.
  intros Ha. revert b. induction Ha as [|x a Hx Ha IH]; intros [|y b] Hb Hl E; try done.
  apply Forall_cons in Hb as [Hy Hb]. cbn in Hl. rewrite !str_key_cons in E.
  pose proof (str_key_range _ Ha) as Ra. pose proof (str_key_range _ Hb) as Rb.
  assert (length a = length b) as Hl' by lia. rewrite <- Hl' in *.
  assert (x = y) as -> by nia. f_equal. apply IH; [done | done | lia].
Qed.

(** Different prefixes decide the order. *)
Lemma prefix_order n a b :
  bytes_ok a → bytes_ok b → pad n a ≠ pad n b → (str_key (pad n b) <? str_key (pad n a)) = bytes_gt a b.
Proof.
  revert a b. induction n as [|n IH]; intros a b Ha Hb Hne; [done|].
  destruct (pad_ok (S n) a Ha) as [Oa La], (pad_ok (S n) b Hb) as [Ob Lb].
  pose proof (str_key_range _ Oa) as Ra. pose proof (str_key_range _ Ob) as Rb.
  destruct a as [|x a]; [rewrite zero_key; cbn [bytes_gt]; lia|]. destruct b as [|y b].
  - rewrite zero_key. cbn [bytes_gt]. apply Z.ltb_lt. enough (str_key (pad (S n) (x :: a)) ≠ 0) by lia. intros E.
    apply Hne, str_key_inj; [done | done | congruence | by rewrite zero_key].
  - apply Forall_cons in Ha as [Hx Ha], Hb as [Hy Hb]. rewrite !pad_cons, !str_key_cons in *.
    destruct (pad_ok n a Ha) as [Oa' La'], (pad_ok n b Hb) as [Ob' Lb']. rewrite La', Lb'.
    pose proof (str_key_range _ Oa') as Ra'. pose proof (str_key_range _ Ob') as Rb'. rewrite La' in Ra'. rewrite Lb' in Rb'.
    cbn [bytes_gt]. destruct (Z.eqb_spec x y) as [->|Hxy].
    + rewrite <- IH by (done || congruence). lia.
    + destruct (Z.ltb_spec y x); [apply Z.ltb_lt | apply Z.ltb_ge]; nia.
Qed.

(** * The operators *)

(** [string_t::operator==], which compares the two 8-byte halves and
    then the pointed-to bytes, decides equality of the byte strings, provided
    equal pointers point to equal strings. *)
Theorem string_t_equals_exact (p q : Z) (a b : list Z) :
  str_ok a → str_ok b → (p = q → a = b) →
  string_t_Equals (string_t_new p a) (string_t_new q b) = bool_decide (a = b).
Proof.
  intros [Ha La] [Hb Lb] Hpq. unfold string_t_Equals, bulk_head. rewrite !prefix_new, !size_new.
  destruct (pad_ok PREFIX_BYTES a Ha) as [Oa Ka], (pad_ok PREFIX_BYTES b Hb) as [Ob Kb].
  pose proof (Load_range _ Oa) as Ra. pose proof (Load_range _ Ob) as Rb.
  destruct (Z.eqb_spec (Z.of_nat (length a) + 2 ^ 32 * Load (pad PREFIX_BYTES a))
                       (Z.of_nat (length b) + 2 ^ 32 * Load (pad PREFIX_BYTES b))) as [E|E]; cbn [negb].
  2: { rewrite bool_decide_false; [done|]. by intros ->. }
  assert (length a = length b) as Hl by lia.
  assert (pad PREFIX_BYTES a = pad PREFIX_BYTES b) as Hp by (apply Load_inj; [done | done | congruence | lia]).
  destruct (Z.eqb_spec (bulk_tail (string_t_new p a)) (bulk_tail (string_t_new q b))) as [Et|Et].
  - symmetry. apply bool_decide_true. unfold string_t_new in Et. rewrite <- Hl in Et.
    destruct (length a <=? INLINE_LENGTH)%nat eqn:Hi; cbn [bulk_tail] in Et; [|auto].
    apply Nat.leb_le in Hi. apply Load_inj in Et.
    + pose proof (string_roundtrip p a) as R1. pose proof (string_roundtrip q b) as R2.
      unfold GetString in R1, R2. rewrite !size_new in R1, R2. rewrite <- R1, <- R2, <- Hl. f_equal.
      pose proof (prefix_new p a) as P1. pose proof (prefix_new q b) as P2. rewrite Hp, <- P2 in P1.
      unfold string_t_new in *. rewrite <- Hl in *. rewrite (proj2 (Nat.leb_le _ _) Hi) in *. cbn [GetData GetPrefix] in *.
      rewrite <- (take_drop PREFIX_BYTES (a ++ _)), <- (take_drop PREFIX_BYTES (b ++ _)). by rewrite P1, Et.
    + apply Forall_drop, Forall_app. split; [done | apply Forall_replicate; lia].
    + apply Forall_drop, Forall_app. split; [done | apply Forall_replicate; lia].
    + rewrite !length_drop, !length_app, !length_replicate. lia.
  - unfold IsInlined. rewrite size_new, memcmp_data by lia.
    destruct (length a <=? INLINE_LENGTH)%nat eqn:Hi; cbn [negb].
    + symmetry. apply bool_decide_false. intros ->. apply Et. unfold string_t_new. by rewrite Hi.
    + symmetry. apply bool_decide_reflects. rewrite Z.eqb_eq. split; [intros ->; apply memcmp_refl|]. by apply memcmp_zero.
Qed.


(** [string_t::operator>], which compares byte-swapped prefixes before the
    rest, is the lexicographic order on bytes. *)
Theorem string_t_greater_exact (p q : Z) (a b : list Z) :
  str_ok a → str_ok b → string_t_GreaterThan (string_t_new p a) (string_t_new q b) = bytes_gt a b.
Proof.
  intros [Ha La] [Hb Lb]. unfold string_t_GreaterThan. rewrite !prefix_new, !size_new, memcmp_data by lia.
  destruct (pad_ok PREFIX_BYTES a Ha) as [Oa Ka], (pad_ok PREFIX_BYTES b Hb) as [Ob Kb].
  destruct (Z.eqb_spec (Load (pad PREFIX_BYTES a)) (Load (pad PREFIX_BYTES b))) as [E|E]; cbn [negb]; [apply memcmp_order|].
  assert (∀ l, bytes_ok l → length l = PREFIX_BYTES → byte_swap (Load l) = str_key l) as Hs.
  { intros l Hl Ll. destruct l as [|x1 [|x2 [|x3 [|x4 [|]]]]]; try done. by apply byte_swap_key. }
  rewrite !Hs by done. apply prefix_order; [done | done | congruence].
Qed.

