(* ===== verification/BaseStatistics.v ===== *)
(** Column statistics ([src/storage/statistics/base_statistics.cpp],
    [struct_stats.cpp], [list_stats.cpp], [array_stats.cpp]): creation,
    copying, merging, serialization and verification, dispatched on the kind
    of statistics and recursive over the children of nested types.

    The functions that recurse through a nested type call each other in the
    source; here each is one recursive definition over the type, the
    statistics or the value.  The constructor leaves the validity flags
    unwritten; every public creator overwrites them, and the model starts them
    as [false]. *)
From S2P Require Import Prelude Types Stats SelectionVector NumericStats StringStats.

Definition no_type_info {A} : result A := Throw (UndefinedBehaviour "type without its type information").
Definition no_child {A} : result A := Throw (UndefinedBehaviour "child statistics out of range").

(** * Construction and copying *)

(** [BaseStatistics(type)] and [Construct], with [ListStats::Construct],
    [StructStats::Construct] and [ArrayStats::Construct]. *)
Fixpoint Construct (t : LogicalType) : result BaseStatistics :=
  let make := mkStats t false false 0 D_uninit in
  match t with
  | LT_LIST c | LT_MAP c | LT_ARRAY c _ => c' ← Construct c; Ok (make [c'])
  | LT_STRUCT cs | LT_UNION cs =>
      cs' ← mapR (λ c, Construct c.2) cs;
      Ok (make cs')
  | LT LIST | LT MAP | LT STRUCT | LT UNION | LT ARRAY => no_type_info
  | _ => Ok (make [])
  end.

Definition StructType_GetChildCount (t : LogicalType) : result nat := cs ← struct_child_types t; Ok (length cs).

(** [this.Copy(other)] with [CopyBase], [ListStats::Copy], [StructStats::Copy]
    and [ArrayStats::Copy]. *)
Fixpoint Copy (this other : BaseStatistics) {struct this} : result BaseStatistics :=
  let 'mkStats t _ _ _ _ c := this in
  let make := mkStats t (has_null other) (has_no_null other) (distinct_count other) (stats_union other) in
  match GetStatsType t with
  | LIST_STATS | ARRAY_STATS =>
      match c, child_stats other with
      | x :: r, y :: _ => x' ← Copy x y; Ok (make (x' :: r))
      | _, _ => no_child
      end
  | STRUCT_STATS =>
      count ← StructType_GetChildCount t;
      c' ← zipR Copy count c (child_stats other);
      Ok (make c')
  | _ => Ok (make c)
  end.

(** [Copy() const] and [ToUnique]. *)
Definition Copy_new (s : BaseStatistics) : result BaseStatistics := r ← Construct (stats_type s); Copy r s.

(** * Creation *)

(** The common part of the creators of list and array statistics
    ([init] is [InitializeUnknown] or [InitializeEmpty]). *)
Definition ListStats_Create (init : BaseStatistics → BaseStatistics) (t : LogicalType) (child : BaseStatistics)
    : result BaseStatistics :=
  s ← Construct t;
  match child_stats s with
  | c0 :: r => c0' ← Copy c0 child; Ok (set_children (init s) (c0' :: r))
  | [] => no_child
  end.

Definition copy_children (c src : list BaseStatistics) : result (list BaseStatistics) :=
  zipR Copy (length src) c src.

Definition StructStats_Create (init : BaseStatistics → BaseStatistics) (t : LogicalType) (children : list BaseStatistics)
    : result BaseStatistics :=
  s ← Construct t;
  c ← copy_children (child_stats s) children;
  Ok (set_children (init s) c).

(** [CreateUnknown] with [CreateUnknownType] and the creators of the nested
    types. *)
Fixpoint CreateUnknown (t : LogicalType) : result BaseStatistics :=
  r ← match t with
      | LT_LIST c | LT_MAP c | LT_ARRAY c _ => c' ← CreateUnknown c; ListStats_Create InitializeUnknown t c'
      | LT_STRUCT cs | LT_UNION cs =>
          cs' ← mapR (λ c, CreateUnknown c.2) cs;
          StructStats_Create InitializeUnknown t cs'
      | LT LIST | LT MAP | LT STRUCT | LT UNION | LT ARRAY => no_type_info
      | _ =>
          s ← Construct t;
          match GetStatsType t with
          | NUMERIC_STATS => NumericStats_CreateUnknown s
          | STRING_STATS => Ok (StringStats_CreateUnknown s)
          | _ => Ok s
          end
      end;
  Ok (InitializeUnknown r).

(** [CreateEmpty] with [CreateEmptyType]; a validity column starts with
    neither NULL nor valid values. *)
Fixpoint CreateEmpty (t : LogicalType) : result BaseStatistics :=
  if bool_decide (InternalType t = PT_BIT) then s ← Construct t; Ok (set_validity s false false)
  else
    r ← match t with
        | LT_LIST c | LT_MAP c | LT_ARRAY c _ => c' ← CreateEmpty c; ListStats_Create InitializeEmpty t c'
        | LT_STRUCT cs | LT_UNION cs =>
            cs' ← mapR (λ c, CreateEmpty c.2) cs;
            StructStats_Create InitializeEmpty t cs'
        | LT LIST | LT MAP | LT STRUCT | LT UNION | LT ARRAY => no_type_info
        | _ =>
            s ← Construct t;
            match GetStatsType t with
            | NUMERIC_STATS => NumericStats_CreateEmpty s
            | STRING_STATS => Ok (StringStats_CreateEmpty s)
            | _ => Ok s
            end
        end;
    Ok (InitializeEmpty r).

(** * Validity information *)

Definition CanHaveNull (s : BaseStatistics) : bool := has_null s.
Definition CanHaveNoNull (s : BaseStatistics) : bool := has_no_null s.

Definition SetDistinctCount (s : BaseStatistics) (count : Z) : BaseStatistics :=
  let 'mkStats t n nn _ u c := s in mkStats t n nn count u c.

Definition CombineValidity (s left right : BaseStatistics) : BaseStatistics :=
  set_validity s (has_null left || has_null right) (has_no_null left || has_no_null right).
Definition CopyValidity (s other : BaseStatistics) : BaseStatistics :=
  set_validity s (has_null other) (has_no_null other).

(** [SetHasNull] and [SetHasNoNull] reach the children of a struct. *)
Fixpoint SetHasNull (s : BaseStatistics) : result BaseStatistics :=
  let 'mkStats t _ nn d u c := s in
  if bool_decide (InternalType t = PT_STRUCT) then
    count ← StructType_GetChildCount t;
    c' ← mapR_n SetHasNull count c;
    Ok (mkStats t true nn d u (c' ++ drop count c))
  else Ok (mkStats t true nn d u c).

Fixpoint SetHasNoNull (s : BaseStatistics) : result BaseStatistics :=
  let 'mkStats t n _ d u c := s in
  if bool_decide (InternalType t = PT_STRUCT) then
    count ← StructType_GetChildCount t;
    c' ← mapR_n SetHasNoNull count c;
    Ok (mkStats t n true d u (c' ++ drop count c))
  else Ok (mkStats t n true d u c).

Definition Stats_Set (s : BaseStatistics) (info : StatsInfo) : result BaseStatistics :=
  match info with
  | CAN_HAVE_NULL_VALUES => SetHasNull s
  | CANNOT_HAVE_NULL_VALUES => Ok (set_validity s false (has_no_null s))
  | CAN_HAVE_VALID_VALUES => SetHasNoNull s
  | CANNOT_HAVE_VALID_VALUES => Ok (set_validity s (has_null s) false)
  | CAN_HAVE_NULL_AND_VALID_VALUES => s ← SetHasNull s; SetHasNoNull s
  end.

Definition IsConstant (s : BaseStatistics) : result bool :=
  if bool_decide (id (stats_type s) = VALIDITY) then
    if CanHaveNull s && negb (CanHaveNoNull s) then Ok true
    else if negb (CanHaveNull s) && CanHaveNoNull s then Ok true
    else Ok false
  else match GetStatsType (stats_type s) with
  | NUMERIC_STATS => NumericStats_IsConstant s
  | _ => Ok false
  end.

(** * Merging *)

(** [Merge] with [ListStats::Merge], [StructStats::Merge] and
    [ArrayStats::Merge]. *)
Fixpoint Merge (s other : BaseStatistics) {struct s} : result BaseStatistics :=
  let 'mkStats t n nn d u c := s in
  let s1 := mkStats t (n || has_null other) (nn || has_no_null other) d u c in
  match GetStatsType t with
  | NUMERIC_STATS => NumericStats_Merge s1 other
  | STRING_STATS => StringStats_Merge s1 other
  | (LIST_STATS | ARRAY_STATS) as k =>
      if bool_decide (id (stats_type other) = VALIDITY) then Ok s1
      else if negb (bool_decide (GetStatsType (stats_type other) = k)) then
        Throw (InternalException "GetChildStats called on stats of another kind")
      else match c, child_stats other with
      | x :: r, y :: _ => x' ← Merge x y; Ok (set_children s1 (x' :: r))
      | _, _ => no_child
      end
  | STRUCT_STATS =>
      if bool_decide (id (stats_type other) = VALIDITY) then Ok s1
      else
        count ← StructType_GetChildCount t;
        c' ← zipR Merge count c (child_stats other);
        Ok (set_children s1 c')
  | BASE_STATS => Ok s1
  end.

(** [ListStats::GetChildStats] and [ArrayStats::GetChildStats]. *)
Definition GetChildStats (k : StatisticsType) (s : BaseStatistics) : result BaseStatistics :=
  if negb (bool_decide (GetStatsType (stats_type s) = k)) then
    Throw (InternalException "GetChildStats called on stats of another kind")
  else match child_stats s with c :: _ => Ok c | [] => no_child end.

(** [StructStats::GetChildStats(stats, i)] and [SetChildStats]. *)
Definition StructStats_GetChildStats (s : BaseStatistics) (i : nat) : result BaseStatistics :=
  count ← StructType_GetChildCount (stats_type s);
  if (count <=? i)%nat then
    Throw (InternalException "Calling StructStats::GetChildStats but there are no stats for this index")
  else vget (child_stats s) i.

Definition StructStats_SetChildStats (s : BaseStatistics) (i : nat) (new_stats : BaseStatistics) : result BaseStatistics :=
  c ← vget (child_stats s) i;
  c' ← Copy c new_stats;
  cs ← vset (child_stats s) i c';
  Ok (set_children s cs).

(** * Statistics of a constant *)

(** [FromConstant] after [FromConstantType]. *)
Definition finish_constant (is_null : bool) (s : BaseStatistics) : result BaseStatistics :=
  let s := SetDistinctCount s 1 in
  if is_null then s ← Stats_Set s CAN_HAVE_NULL_VALUES; Stats_Set s CANNOT_HAVE_VALID_VALUES
  else s ← Stats_Set s CANNOT_HAVE_NULL_VALUES; Stats_Set s CAN_HAVE_VALID_VALUES.

Fixpoint set_all_children (s : BaseStatistics) (i : nat) (new : list BaseStatistics) : result BaseStatistics :=
  match new with
  | [] => Ok s
  | x :: r => s' ← StructStats_SetChildStats s i x; set_all_children s' (S i) r
  end.

(** [FromConstant(Value(t))]: the statistics of a NULL. *)
Fixpoint FromNull (t : LogicalType) : result BaseStatistics :=
  r ← match t with
      | LT_STRUCT cs | LT_UNION cs =>
          s ← CreateEmpty t;
          cs' ← mapR (λ c, FromNull c.2) cs;
          set_all_children s 0 cs'
      | _ =>
          match GetStatsType t with
          | NUMERIC_STATS => s ← CreateEmpty t; s ← SetMin s (V_null t); SetMax s (V_null t)
          | BASE_STATS => Construct t
          | _ => CreateEmpty t
          end
      end;
  finish_constant true r.

Fixpoint merge_all (child : BaseStatistics) (l : list BaseStatistics) : result BaseStatistics :=
  match l with [] => Ok child | x :: r => c ← Merge child x; merge_all c r end.

Fixpoint FromConstant (v : Value) : result BaseStatistics :=
  match v with
  | V_null t => FromNull t
  | V_num t _ =>
      r ← match GetStatsType t with
          | NUMERIC_STATS => s ← CreateEmpty t; s ← SetMin s v; SetMax s v
          | _ => Construct t
          end;
      finish_constant false r
  | V_string t bytes =>
      r ← match GetStatsType t with
          | STRING_STATS => s ← CreateEmpty t; StringStats_Update s bytes
          | _ => Construct t
          end;
      finish_constant false r
  | V_nested t children =>
      cs ← mapR FromConstant children;
      r ← match GetStatsType t with
          | (LIST_STATS | ARRAY_STATS) as k =>
              s ← CreateEmpty t;
              match child_stats s with
              | c0 :: r => c ← merge_all c0 cs; Ok (set_children s (c :: r))
              | [] => no_child
              end
          | STRUCT_STATS =>
              s ← CreateEmpty t;
              count ← StructType_GetChildCount t;
              if (length cs <? count)%nat then no_child else set_all_children s 0 (take count cs)
          | _ => Construct t
          end;
      finish_constant false r
  end.

(** * Serialization *)

(** [Serialize] with the serializers of the nested statistics. *)
Fixpoint Serialize (s : BaseStatistics) : result serialized :=
  let 'mkStats t n nn d u c := s in
  type_stats ←
    match GetStatsType t with
    | NUMERIC_STATS => NumericStats_Serialize s
    | STRING_STATS => StringStats_Serialize s
    | LIST_STATS | ARRAY_STATS =>
        match c with
        | x :: _ => x' ← Serialize x; Ok [(200, "child_stats"%string, x')]
        | [] => no_child
        end
    | STRUCT_STATS =>
        count ← StructType_GetChildCount t;
        l ← mapR_n Serialize count c;
        Ok [(200, "child_stats"%string, S_list l)]
    | BASE_STATS => Ok []
    end;
  Ok (S_object [(100, "has_null"%string, S_bool n);
                (101, "has_no_null"%string, S_bool nn);
                (102, "distinct_count"%string, S_num UINT64 d);
                (103, "type_stats"%string, S_object type_stats)]).

(** [Deserialize] of statistics of type [t] (the type is taken from the
    deserializer's context). *)
Fixpoint Deserialize (t : LogicalType) (v : serialized) : result BaseStatistics :=
  o ← as_object v;
  '(a, o) ← read_prop 100 o; n ← as_bool a;
  '(a, o) ← read_prop 101 o; nn ← as_bool a;
  '(a, o) ← read_prop 102 o; d ← as_num UINT64 a;
  s ← Construct t;
  let s := SetDistinctCount (set_validity s n nn) d in
  '(a, _) ← read_prop 103 o; obj ← as_object a;
  let child c :=
    '(b, _) ← read_prop 200 obj;
    stat ← Deserialize c b;
    match child_stats s with
    | c0 :: r => c0' ← Copy c0 stat; Ok (set_children s (c0' :: r))
    | [] => no_child
    end in
  match t with
  | LT_LIST c | LT_MAP c | LT_ARRAY c _ => child c
  | LT_STRUCT cs | LT_UNION cs =>
      '(b, _) ← read_prop 200 obj;
      l ← as_list b;
      stats ← (fix go cs (l : list serialized) {struct cs} :=
                 match cs, l with
                 | _, [] => Ok []
                 | (_, c) :: cs', x :: l' => x' ← Deserialize c x; r' ← go cs' l'; Ok (x' :: r')
                 | [], _ :: _ => no_child
                 end) cs l;
      c ← copy_children (child_stats s) stats;
      Ok (set_children s c)
  | _ =>
      match GetStatsType t with
      | NUMERIC_STATS => NumericStats_Deserialize obj s
      | STRING_STATS => StringStats_Deserialize obj s
      | _ => Ok s
      end
  end.

(** * Verification *)

(** The selection of the elements of the selected lists: the elements of list
    entry [(offset, length)] are rows [offset .. offset + length - 1]. *)
Definition list_selection (rows : list (option (nat * nat))) (sel : SelectionVector) (count : nat)
    : result (SelectionVector * nat) :=
  total ← foldM (λ n i,
    idx ← get_index sel i; row ← vget rows (Z.to_nat idx);
    Ok (match row with Some (_, len) => (n + len)%nat | None => n end)) O (seq 0 count);
  foldM (λ st i,
    idx ← get_index sel i; row ← vget rows (Z.to_nat idx);
    match row with
    | Some (off, len) => foldM (λ st k, sel_push st (Z.of_nat (off + k))) st (seq 0 len)
    | None => Ok st
    end) (SelectionVector_Initialize total, O) (seq 0 count).

(** The same for fixed-size arrays. *)
Definition array_selection (rows : list bool) (size : nat) (sel : SelectionVector) (count : nat)
    : result (SelectionVector * nat) :=
  valid ← foldM (λ n i,
    idx ← get_index sel i; row ← vget rows (Z.to_nat idx);
    Ok (if (row : bool) then S n else n)) O (seq 0 count);
  foldM (λ st i,
    idx ← get_index sel i; row ← vget rows (Z.to_nat idx);
    if (row : bool) then foldM (λ st k, sel_push st (idx * Z.of_nat size + Z.of_nat k)) st (seq 0 size)
    else Ok st) (SelectionVector_Initialize (valid * size), O) (seq 0 count).

(** The validity of the selected rows against the flags. *)
Definition verify_validity (n nn : bool) (valid : list bool) (sel : SelectionVector) (count : nat) : result unit :=
  if n && nn then Ok tt
  else foldM (λ _ i,
    idx ← get_index sel i;
    row_is_valid ← vget valid (Z.to_nat idx);
    if row_is_valid && negb nn then
      Throw (InternalException "Statistics mismatch: vector labeled as having only NULL values, but vector contains valid values")
    else if negb row_is_valid && negb n then
      Throw (InternalException "Statistics mismatch: vector labeled as not having NULL values, but vector contains null values")
    else Ok tt) tt (seq 0 count).

(** [Verify] with the verifiers of the nested statistics. *)
Fixpoint Verify (s : BaseStatistics) (vector : Vector) (sel : SelectionVector) (count : nat) {struct s} : result unit :=
  let 'mkStats t n nn _ _ c := s in
  _ ← match GetStatsType t with
      | NUMERIC_STATS => NumericStats_Verify s vector sel count
      | STRING_STATS => StringStats_Verify s vector sel count
      | LIST_STATS =>
          match c, vector with
          | x :: _, Vec_list rows child => '(list_sel, list_count) ← list_selection rows sel count; Verify x child list_sel list_count
          | _, _ => no_child
          end
      | ARRAY_STATS =>
          match c, vector with
          | x :: _, Vec_array rows child size =>
              '(element_sel, element_count) ← array_selection rows size sel count; Verify x child element_sel element_count
          | _, _ => no_child
          end
      | STRUCT_STATS =>
          match vector with
          | Vec_struct _ entries =>
              (fix go (c : list BaseStatistics) (e : list Vector) {struct c} : result unit :=
                 match e, c with
                 | [], _ => Ok tt
                 | v :: e', x :: c' => _ ← Verify x v sel count; go c' e'
                 | _ :: _, [] => no_child
                 end) c entries
          | _ => no_child
          end
      | BASE_STATS => Ok tt
      end;
  verify_validity n nn (validity_of vector) sel count.
