(* ===== verification/StatsFacts.v ===== *)
(** Well-formed column statistics, what they say about values of nested
    types, and that construction, copying, merging and the statistics of a
    constant keep it. *)
From S2P Require Import Prelude Types Stats SelectionVector NumericStats NumericFacts StringStats.
From S2P Require Import BaseStatistics.

(** * Well-formedness *)

(** A property of every node of a tree of statistics. *)
Fixpoint all_nodes (P : BaseStatistics → Prop) (s : BaseStatistics) : Prop :=
  P s ∧ (fix go c := match c with [] => True | x :: r => all_nodes P x ∧ go r end) (child_stats s).

Lemma all_nodes_eq P s : all_nodes P s ↔ P s ∧ Forall (all_nodes P) (child_stats s).
Proof.
  destruct s as [t n nn d u c]. cbn. apply and_iff_compat_l.
  induction c as [|x c IH]; [done|]. rewrite Forall_cons. by rewrite IH.
Qed.

(** The children match the child types of the node. *)
Definition node_shape (s : BaseStatistics) : Prop :=
  let t := stats_type s in
  match GetStatsType t with
  | LIST_STATS => ∃ x, child_stats s = [x] ∧ list_child_type t = Ok (stats_type x)
  | ARRAY_STATS => ∃ x, child_stats s = [x] ∧ array_child_type t = Ok (stats_type x)
  | STRUCT_STATS => struct_child_types t = Ok (stats_type <$> child_stats s)
  | _ => child_stats s = []
  end.

(** The data of the node belongs to its kind of statistics. *)
Definition node_data (s : BaseStatistics) : Prop :=
  match GetStatsType (stats_type s) with
  | NUMERIC_STATS => ∃ lo hi, numeric_view s (InternalType (stats_type s)) lo hi
  | STRING_STATS => ∃ d, stats_union s = D_string d ∧ str_wf d
  | _ => True
  end.

Definition shaped : BaseStatistics → Prop := all_nodes node_shape.
Definition stats_wf : BaseStatistics → Prop := all_nodes (λ s, node_shape s ∧ node_data s).

Lemma stats_wf_eq s : stats_wf s ↔ (node_shape s ∧ node_data s) ∧ Forall stats_wf (child_stats s).
Proof. apply all_nodes_eq. Qed.

Lemma wf_shaped s : stats_wf s → shaped s.
Proof.
  unfold shaped. induction s as [t n nn d u c IH] using BaseStatistics_ind'.
  rewrite stats_wf_eq, (all_nodes_eq node_shape). intros [[Hs _] Hc]. split; [done|].
  rewrite Forall_forall in *. auto.
Qed.

(** A type whose statistics can be built: nested types carry their type
    information, numeric types have extreme values. *)
Fixpoint type_ok (t : LogicalType) : Prop :=
  match t with
  | LT_LIST c | LT_MAP c | LT_ARRAY c _ => type_ok c
  | LT_STRUCT cs | LT_UNION cs => (fix go cs := match cs with [] => True | c :: r => type_ok c.2 ∧ go r end) cs
  | LT LIST | LT MAP | LT STRUCT | LT UNION | LT ARRAY => False
  | _ => GetStatsType t = NUMERIC_STATS → has_extremes t = true
  end.

Lemma type_ok_children (cs : list (string * LogicalType)) :
  (fix go cs := match cs with [] => True | c :: r => type_ok c.2 ∧ go r end) cs ↔ Forall (λ c, type_ok c.2) cs.
Proof. induction cs as [|c cs IH]; [done|]. rewrite Forall_cons. by rewrite IH. Qed.

(** * Construction and copying *)

Lemma decimal_kind w sc : GetStatsType (LT_DECIMAL w sc) = NUMERIC_STATS ∨ GetStatsType (LT_DECIMAL w sc) = BASE_STATS.
Proof.
  unfold GetStatsType, InternalType, GetInternalType. cbn [id]. rewrite bool_decide_false by done.
  destruct (w <=? MAX_WIDTH_INT16), (w <=? MAX_WIDTH_INT32), (w <=? MAX_WIDTH_INT64), (w <=? MAX_WIDTH_INT128); auto.
Qed.

Lemma enum_kind d : GetStatsType (LT_ENUM d) = NUMERIC_STATS ∨ GetStatsType (LT_ENUM d) = BASE_STATS.
Proof.
  unfold GetStatsType, InternalType, GetInternalType, DictType. cbn [id]. rewrite bool_decide_false by done.
  generalize (Z.of_nat (length d)). intros k.
  destruct (k <=? 255), (k <=? 65535), (k <=? UINT32_MAX); auto.
Qed.

Lemma leaf_shaped t :
  GetStatsType t = NUMERIC_STATS ∨ GetStatsType t = BASE_STATS → shaped (mkStats t false false 0 D_uninit []).
Proof. intros Ht. split; [|done]. unfold node_shape. cbn [stats_type]. by destruct Ht as [-> | ->]. Qed.

Lemma Construct_shaped t : type_ok t → ∃ s, Construct t = Ok s ∧ shaped s ∧ stats_type s = t.
Proof.
  assert (∀ cs mk, Forall (λ c, type_ok c.2 → ∃ s, Construct c.2 = Ok s ∧ shaped s ∧ stats_type s = c.2) cs →
    Forall (λ c, type_ok c.2) cs → struct_child_types (mk cs) = Ok (cs.*2) → GetStatsType (mk cs) = STRUCT_STATS →
    ∃ s, (cs' ← mapR (λ c : string * LogicalType, Construct c.2) cs; Ok (mkStats (mk cs) false false 0 D_uninit cs')) = Ok s ∧
         shaped s ∧ stats_type s = mk cs) as Hstruct.
  { intros cs mk IH Hok Hct Hk.
    destruct (mapR_Forall2 (λ c : string * LogicalType, Construct c.2) (λ c s, shaped s ∧ stats_type s = c.2) cs)
      as (l & Hl & HF).
    { rewrite Forall_forall in *. intros c Hc. destruct (IH c Hc (Hok c Hc)) as (s & ? & ? & ?). eauto. }
    rewrite Hl. cbn. eexists. split; [done|]. split; [|done]. unfold shaped. rewrite all_nodes_eq. cbn. split.
    - unfold node_shape. cbn. rewrite Hk, Hct. f_equal. clear -HF.
      induction HF as [|c s cs l [_ Hs] _ IHF]; [done|]. cbn. by rewrite Hs, IHF.
    - clear -HF. induction HF as [|c s cs l [Hs _] _ IHF]; constructor; done. }
  induction t as [i|w sc|d|c IH|c IH|cs IH|cs IH|c n IH] using LogicalType_ind'; intros Hok.
  1: destruct i; cbn in Hok |- *; try done; eexists; (split; [done|]); by split.
  1: eexists; (split; [done|]); split; [apply leaf_shaped, decimal_kind | done].
  1: eexists; (split; [done|]); split; [apply leaf_shaped, enum_kind | done].
  3,4: apply (Hstruct cs _ IH); [by apply type_ok_children | done | done].
  all: destruct (IH Hok) as (s & Hs & Hsh & Hst); cbn; rewrite Hs; cbn; eexists; (split; [done|]); (split; [|done]);
       unfold shaped; rewrite all_nodes_eq; (split; [|by constructor]); exists s; cbn; by rewrite Hst.
Qed.

(** Copying into statistics of the same type yields the copied statistics. *)
Lemma Copy_shaped this other :
  shaped this → shaped other → stats_type this = stats_type other → Copy this other = Ok other.
Proof.
  revert other. induction this as [t n nn d u c IH] using BaseStatistics_ind'; intros [t' n' nn' d' u' c'] H1 H2.
  unfold shaped in H1, H2. rewrite all_nodes_eq in H1, H2. destruct H1 as [S1 C1], H2 as [S2 C2].
  cbn [stats_type child_stats] in *. intros <-. unfold node_shape in S1, S2. cbn [stats_type child_stats] in *.
  cbn [Copy has_null has_no_null distinct_count stats_union child_stats].
  assert (∀ x y, x ∈ c → y ∈ c' → stats_type x = stats_type y → Copy x y = Ok y) as Hrec.
  { rewrite Forall_forall in *. intros x y Hx Hy. apply IH; [done | by apply C1 | by apply C2]. }
  destruct (GetStatsType t) eqn:Hk; try (subst; done).
  - destruct S1 as (x & -> & Ex), S2 as (y & -> & Ey). rewrite (Hrec x y); [done | left | left | congruence].
  - unfold StructType_GetChildCount. rewrite S1 in *. cbn [mbind result_bind]. rewrite length_fmap.
    injection S2 as E. clear -Hrec E. enough (zipR Copy (length c) c c' = Ok c') as -> by done.
    revert c' Hrec E. induction c as [|x c IHc]; intros [|y c'] Hrec E; try done. cbn [fmap list_fmap] in E.
    injection E as Ex E. cbn. rewrite (Hrec x y); [| left | left | done]. cbn.
    rewrite IHc; [done | | done]. intros a b Ha Hb. apply Hrec; by right.
  - destruct S1 as (x & -> & Ex), S2 as (y & -> & Ey). rewrite (Hrec x y); [done | left | left | congruence].
Qed.

Lemma copy_children_shaped c src :
  Forall shaped c → Forall shaped src → stats_type <$> c = stats_type <$> src → copy_children c src = Ok src.
Proof.
  intros Hc Hs. revert src Hs. unfold copy_children.
  induction Hc as [|x c Hx Hc IH]; intros [|y src] Hs E; try done. apply Forall_cons in Hs as [Hy Hs].
  cbn [fmap list_fmap] in E. injection E as Ex E. cbn. rewrite (Copy_shaped x y) by done. cbn. by rewrite IH.
Qed.

(** * Coverage *)

(** The pairs of a common prefix. *)
Definition zipP {A B} (f : A → B → Prop) : list A → list B → Prop :=
  fix go l k := match l, k with x :: l', y :: k' => f x y ∧ go l' k' | _, _ => True end.

Lemma zipP_impl {A B} (f g : A → B → Prop) l l' k :
  Forall2 (λ x x', ∀ y, f x y → g x' y) l l' → zipP f l k → zipP g l' k.
Proof. intros H. revert k. induction H as [|x x' l l' Hx _ IH]; intros [|y k]; cbn; naive_solver. Qed.

(** [covers s v]: the statistics [s] allow the value [v]. *)
Fixpoint covers (s : BaseStatistics) (v : Value) {struct s} : Prop :=
  let 'mkStats t n nn _ u c := s in
  match v with
  | V_null _ => n = true
  | V_num _ _ =>
      nn = true ∧ (GetStatsType t = NUMERIC_STATS →
        ∀ lo hi x, numeric_view s (InternalType t) lo hi → GetValueUnsafe (InternalType t) v = Ok x →
          in_interval (InternalType t) lo hi x)
  | V_string _ b => nn = true ∧ (GetStatsType t = STRING_STATS → ∀ d, u = D_string d → str_covers t d b)
  | V_nested _ vs =>
      nn = true ∧
      match GetStatsType t, c with
      | (LIST_STATS | ARRAY_STATS), x :: _ => Forall (covers x) vs
      | STRUCT_STATS, _ => zipP covers c vs
      | _, _ => True
      end
  end.

(** ** The interval view depends on type and data only, and is unique *)

Lemma numeric_view_ext s s' pt lo hi :
  stats_type s = stats_type s' → stats_union s = stats_union s' → numeric_view s pt lo hi → numeric_view s' pt lo hi.
Proof. intros Ht Hu [H1 H2 H3]. split; [congruence | congruence | by rewrite <- Hu]. Qed.

Lemma numeric_view_unique s pt lo hi lo' hi' :
  numeric_view s pt lo hi → numeric_view s pt lo' hi' → lo = lo' ∧ hi = hi'.
Proof.
  intros [_ _ (mn & mx & Hu & Hmn & Hmx)] [_ _ (mn' & mx' & Hu' & Hmn' & Hmx')].
  rewrite Hu in Hu'. injection Hu' as Elo Ehi -> ->.
  split; [destruct lo as [x|], lo' as [y|] | destruct hi as [x|], hi' as [y|]]; try done.
  - specialize (Hmn _ eq_refl). specialize (Hmn' _ eq_refl). congruence.
  - specialize (Hmx _ eq_refl). specialize (Hmx' _ eq_refl). congruence.
Qed.

Lemma kind_not_validity t : GetStatsType t ≠ BASE_STATS → id t ≠ VALIDITY.
Proof.
  intros Hk Hid. apply Hk. unfold GetStatsType, InternalType, GetInternalType. by rewrite Hid.
Qed.

(** * Merging *)

Lemma numeric_node_merge s o :
  stats_wf s → stats_wf o → stats_type o = stats_type s → GetStatsType (stats_type s) = NUMERIC_STATS →
  let s1 := set_validity s (has_null s || has_null o) (has_no_null s || has_no_null o) in
  ∃ s', NumericStats_Merge s1 o = Ok s' ∧ stats_wf s' ∧ stats_type s' = stats_type s ∧
    ∀ v, covers s v ∨ covers o v → covers s' v.
Proof.
  rewrite !stats_wf_eq. intros [[Ss Ds] _] [[So Do] _] Ht Hk.
  destruct s as [t n nn dc u c], o as [t' n' nn' dc' u' c']. unfold node_data, node_shape in *. cbn [stats_type child_stats] in *. subst t'.
  rewrite Hk in *. destruct Ds as (lo & hi & Vs), Do as (lo' & hi' & Vo). subst c c'. cbn [set_validity has_null has_no_null].
  set (s1 := mkStats t (n || n') (nn || nn') dc u []).
  assert (numeric_view s1 (InternalType t) lo hi) as V1 by (by eapply numeric_view_ext, Vs).
  destruct (Merge_view s1 _ _ _ _ _ _ V1 Vo eq_refl) as (s' & Hm & V' & w & ->).
  eexists. split; [exact Hm|]. cbn [set_union s1] in *. split_and!; [| done |].
  - apply stats_wf_eq. split; [|done]. unfold node_data, node_shape. cbn [stats_type]. rewrite Hk. split; [done | eauto].
  - intros v Hv. destruct v as [tv|tv uv|tv b|tv vs]; cbn in Hv |- *; rewrite ?Hk in *.
    + destruct Hv as [-> | ->]; [done | apply orb_true_r].
    + split; [destruct Hv as [[-> _]|[-> _]]; [done | apply orb_true_r]|]. intros _ l h x Vl Hx.
      destruct (numeric_view_unique _ _ _ _ _ _ V' Vl) as [<- <-]. apply join_interval.
      destruct Hv as [[_ Hv]|[_ Hv]]; [left | right]; by eapply Hv.
    + split; [destruct Hv as [[-> _]|[-> _]]; [done | apply orb_true_r] | done].
    + split; [destruct Hv as [[-> _]|[-> _]]; [done | apply orb_true_r] | done].
Qed.

Lemma string_node_merge s o :
  stats_wf s → stats_wf o → stats_type o = stats_type s → GetStatsType (stats_type s) = STRING_STATS →
  let s1 := set_validity s (has_null s || has_null o) (has_no_null s || has_no_null o) in
  ∃ s', StringStats_Merge s1 o = Ok s' ∧ stats_wf s' ∧ stats_type s' = stats_type s ∧
    ∀ v, covers s v ∨ covers o v → covers s' v.
Proof.
  rewrite !stats_wf_eq. intros [[Ss Ds] _] [[So Do] _] Ht Hk.
  destruct s as [t n nn dc u c], o as [t' n' nn' dc' u' c']. unfold node_data, node_shape in *. cbn [stats_type child_stats stats_union] in *. subst t'.
  rewrite Hk in *. destruct Ds as (d & -> & Wd), Do as (e & -> & We). subst c c'. cbn [set_validity has_null has_no_null].
  destruct (Merge_covers (mkStats t (n || n') (nn || nn') dc (D_string d) []) (mkStats t n' nn' dc' (D_string e) []) d e)
    as (d' & Hm & Wd' & Hc); [done | done | done | done | apply kind_not_validity; cbn; by rewrite Hk|].
  eexists. split; [exact Hm|]. cbn [set_union]. split_and!; [| done |].
  - apply stats_wf_eq. split; [|done]. unfold node_data, node_shape. cbn [stats_type stats_union]. rewrite Hk. split; [done | eauto].
  - intros v Hv. destruct v as [tv|tv uv|tv b|tv vs]; cbn in Hv |- *; rewrite ?Hk in *.
    + destruct Hv as [-> | ->]; [done | apply orb_true_r].
    + split; [destruct Hv as [[-> _]|[-> _]]; [done | apply orb_true_r] | done].
    + split; [destruct Hv as [[-> _]|[-> _]]; [done | apply orb_true_r]|]. intros _ d0 [= <-]. apply Hc.
      destruct Hv as [[_ Hv]|[_ Hv]]; [left | right]; by apply Hv.
    + split; [destruct Hv as [[-> _]|[-> _]]; [done | apply orb_true_r] | done].
Qed.

(** What merging promises. *)
Definition merges (s o s' : BaseStatistics) : Prop :=
  stats_wf s' ∧ stats_type s' = stats_type s ∧ ∀ v, covers s v ∨ covers o v → covers s' v.

(** A nested node: merged flags and merged children. *)
Lemma nested_node_merge t n nn d u c n' nn' d' u' c' m :
  node_shape (mkStats t n nn d u c) → node_shape (mkStats t n' nn' d' u' c') →
  GetStatsType t = LIST_STATS ∨ GetStatsType t = ARRAY_STATS ∨ GetStatsType t = STRUCT_STATS →
  Forall3 merges c c' m →
  merges (mkStats t n nn d u c) (mkStats t n' nn' d' u' c') (mkStats t (n || n') (nn || nn') d u m).
Proof.
  intros S1 S2 Hk HF.
  assert (stats_type <$> m = stats_type <$> c ∧ Forall stats_wf m ∧
          Forall2 (λ x z, ∀ v, covers x v → covers z v) c m ∧ Forall2 (λ y z, ∀ v, covers y v → covers z v) c' m)
    as (Et & Wm & Cl & Cr).
  { clear S1 S2. induction HF as [|x y z c c' m (Wz & Tz & Cz) _ (Et & Wm & Cl & Cr)]; [by split_and!|].
    cbn. rewrite Tz, Et. split_and!; [done | by constructor | constructor; auto | constructor; auto]. }
  split_and!; [| done |].
  - apply stats_wf_eq. split; [|done]. unfold node_data, node_shape in *. cbn [stats_type child_stats] in *.
    destruct Hk as [Hk|[Hk|Hk]]; rewrite Hk in *.
    1,2: destruct S1 as (x & -> & Ex); destruct m as [|z [|]]; try done; injection Et as Et;
         split; [|done]; exists z; split; [done | congruence].
    split; [|done]. by rewrite Et.
  - intros v Hv. destruct v as [tv|tv uv|tv b|tv vs]; cbn in Hv |- *.
    + destruct Hv as [-> | ->]; [done | apply orb_true_r].
    + split; [destruct Hv as [[-> _]|[-> _]]; [done | apply orb_true_r]|]. intros Hn. exfalso.
      destruct Hk as [Hk|[Hk|Hk]]; congruence.
    + split; [destruct Hv as [[-> _]|[-> _]]; [done | apply orb_true_r]|]. intros Hn. exfalso.
      destruct Hk as [Hk|[Hk|Hk]]; congruence.
    + split; [destruct Hv as [[-> _]|[-> _]]; [done | apply orb_true_r]|].
      destruct Hk as [Hk|[Hk|Hk]]; rewrite Hk in *.
      1,2: destruct Cl as [|x z c m Hx Cl]; [done|]; inversion Cr as [|y z0 c0 m0 Hy Cr']; subst;
           destruct Hv as [[_ Hv]|[_ Hv]]; (eapply Forall_impl; [exact Hv | done]).
      destruct Hv as [[_ Hv]|[_ Hv]]; [by eapply zipP_impl, Hv | by eapply zipP_impl, Hv].
Qed.

Lemma Merge_ok s o :
  stats_wf s → stats_wf o → stats_type o = stats_type s → ∃ s', Merge s o = Ok s' ∧ merges s o s'.
Proof.
  revert o. induction s as [t n nn d u c IH] using BaseStatistics_ind'; intros o Ws Wo Ht.
  destruct (decide (GetStatsType t = NUMERIC_STATS)) as [Hk|Hn].
  { destruct (numeric_node_merge _ _ Ws Wo Ht Hk) as (s' & Hm & ?). exists s'. split; [|done]. cbn. by rewrite Hk. }
  destruct (decide (GetStatsType t = STRING_STATS)) as [Hk|Hs].
  { destruct (string_node_merge _ _ Ws Wo Ht Hk) as (s' & Hm & ?). exists s'. split; [|done]. cbn. by rewrite Hk. }
  rewrite stats_wf_eq in Ws, Wo. destruct Ws as [[Ss Ds] Cs], Wo as [[So Do] Co].
  destruct o as [t' n' nn' d' u' c']. cbn [stats_type child_stats] in *. subst t'.
  assert (stats_type <$> c' = stats_type <$> c → ∃ m, zipR Merge (length c) c c' = Ok m ∧ Forall3 merges c c' m) as Hzip.
  { intros E. apply zipR_Forall3. clear -IH Cs Co E. revert c' Co E.
    induction c as [|x c IHc]; intros [|y c'] Co E; try done. apply Forall_cons in IH as [IHx IH], Cs as [Wx Cs], Co as [Wy Co].
    injection E as Ex E. constructor; [by apply IHx | by apply IHc]. }
  cbn [Merge has_null has_no_null stats_type child_stats].
  destruct (GetStatsType t) eqn:Hk; try done.
  1,4: rewrite bool_decide_false by (apply kind_not_validity; by rewrite Hk); rewrite bool_decide_true by done; cbn [negb];
       unfold node_shape in Ss, So; cbn [stats_type child_stats] in Ss, So; rewrite Hk in Ss, So;
       pose proof Ss as (x & -> & Ex); pose proof So as (y & -> & Ey);
       (destruct Hzip as (m & Hm & HF); [cbn; congruence|]); cbn in Hm;
       destruct (Merge x y) as [z|]; [|done]; cbn in Hm |- *; injection Hm as <-; eexists; (split; [done|]);
       apply nested_node_merge; [unfold node_shape; cbn; by rewrite Hk | unfold node_shape; cbn; by rewrite Hk | auto | done].
  - rewrite bool_decide_false by (apply kind_not_validity; by rewrite Hk).
    unfold node_shape in Ss, So. cbn [stats_type child_stats] in Ss, So. rewrite Hk in Ss, So.
    unfold StructType_GetChildCount. rewrite Ss. cbn [mbind result_bind]. rewrite length_fmap.
    destruct Hzip as (m & Hm & HF); [congruence|]. rewrite Hm. eexists. split; [done|].
    apply nested_node_merge; [unfold node_shape; cbn; by rewrite Hk | unfold node_shape; cbn; by rewrite Hk | auto | done].
  - eexists. split; [done|]. split_and!; [| done |].
    + apply stats_wf_eq. split; [|by unfold node_shape in Ss; cbn in Ss; rewrite Hk in Ss; subst c].
      unfold node_shape, node_data in *. cbn [stats_type child_stats] in *. by rewrite Hk in *.
    + intros v Hv. destruct v; cbn in Hv |- *; rewrite ?Hk in *;
        [destruct Hv as [-> | ->]; [done | apply orb_true_r]| | |];
        (split; [destruct Hv as [[-> _]|[-> _]]; [done | apply orb_true_r] | done]).
Qed.

(** * Coverage of a number *)

(** The numbers of a covered value lie in the interval. *)
Lemma covers_interval s t pt lo hi x :
  numeric_view s pt lo hi → covers s (V_num t (pt, x)) → in_interval pt lo hi x.
Proof.
  intros V Hc. destruct s as [ts n nn d u c]. pose proof (nv_type _ _ _ _ V) as Hk. pose proof (nv_pt _ _ _ _ V) as Hp.
  cbn [stats_type] in *. subst pt. cbn [covers] in Hc. destruct Hc as [_ Hc]. apply (Hc Hk lo hi x V).
  cbn. unfold union_get. cbn [fst snd]. by rewrite bool_decide_true.
Qed.

Lemma covers_intro s t pt lo hi x :
  numeric_view s pt lo hi → has_no_null s = true → in_interval pt lo hi x → covers s (V_num t (pt, x)).
Proof.
  intros V Hn Hi. destruct s as [ts n nn d u c]. pose proof (nv_pt _ _ _ _ V) as Hp. cbn [stats_type has_no_null] in *. subst pt.
  split; [done|]. intros _ l h y V' Hy. destruct (numeric_view_unique _ _ _ _ _ _ V V') as [<- <-].
  cbn in Hy. unfold union_get in Hy. cbn [fst snd] in Hy. rewrite bool_decide_true in Hy by done. congruence.
Qed.
