(* ===== verification/StatsCreate.v ===== *)
(** Creating statistics: the empty and unknown statistics of a type, setting
    the validity flags, and the statistics of a constant. *)
From S2P Require Import Prelude Types Stats SelectionVector NumericStats NumericFacts StringStats.
From S2P Require Import BaseStatistics StatsFacts.

(** * Flags *)

(** Raising flags keeps everything that was covered. *)
Definition extends (s s' : BaseStatistics) : Prop :=
  stats_wf s' ∧ stats_type s' = stats_type s ∧ ∀ v, covers s v → covers s' v.

Lemma set_validity_wf s n nn : stats_wf s → stats_wf (set_validity s n nn).
Proof.
  rewrite !stats_wf_eq. destruct s as [t n0 nn0 d u c]. unfold node_shape, node_data. cbn [set_validity stats_type child_stats].
  intros [[Hs Hd] Hc]. split; [|done]. split; [done|]. destruct (GetStatsType t); try done.
  destruct Hd as (lo & hi & Hv). exists lo, hi. by eapply numeric_view_ext, Hv.
Qed.

(** Coverage at one node, for the same data and larger flags. *)
Lemma covers_flags t n nn d u c n' nn' d' c' :
  (n = true → n' = true) → (nn = true → nn' = true) →
  Forall2 (λ x x', ∀ v, covers x v → covers x' v) c c' →
  ∀ v, covers (mkStats t n nn d u c) v → covers (mkStats t n' nn' d' u c') v.
Proof.
  intros Hn Hnn HF v Hv. destruct v as [tv|tv uv|tv b|tv vs]; cbn in Hv |- *; [auto| | |];
    destruct Hv as [H1 H2]; (split; [auto|]).
  - intros Hk lo hi x V. apply (H2 Hk). by eapply numeric_view_ext, V.
  - done.
  - destruct (GetStatsType t); try done; [| by eapply zipP_impl |];
      (destruct HF as [|x x' c c' Hx HF]; [done|]; eapply Forall_impl; [exact H2 | done]).
Qed.

Lemma with_children_wf t n nn d u c n' nn' d' c' :
  stats_wf (mkStats t n nn d u c) → Forall stats_wf c' → stats_type <$> c' = stats_type <$> c →
  stats_wf (mkStats t n' nn' d' u c').
Proof.
  rewrite !stats_wf_eq. unfold node_shape, node_data. cbn [stats_type child_stats stats_union].
  intros [[Hs Hd] _] Hc E. split; [|done]. split.
  - destruct (GetStatsType t); try (subst c; by apply fmap_nil_inv in E).
    + destruct Hs as (x & -> & Hx). destruct c' as [|x' [|]]; try done. exists x'. split; [done|]. cbn in E. congruence.
    + by rewrite E.
    + destruct Hs as (x & -> & Hx). destruct c' as [|x' [|]]; try done. exists x'. split; [done|]. cbn in E. congruence.
  - destruct (GetStatsType t); try done. destruct Hd as (lo & hi & V). exists lo, hi. by eapply numeric_view_ext, V.
Qed.

Lemma raise_children (f : BaseStatistics → result BaseStatistics) c :
  Forall (λ x, stats_wf x → ∃ x', f x = Ok x' ∧ extends x x') c → Forall stats_wf c →
  ∃ c', mapR_n f (length c) c = Ok c' ∧ Forall stats_wf c' ∧ stats_type <$> c' = stats_type <$> c ∧
        Forall2 (λ x x', ∀ v, covers x v → covers x' v) c c'.
Proof.
  intros IH Hc. rewrite mapR_n_all.
  destruct (mapR_Forall2 f extends c) as (c' & Hm & HF).
  { rewrite Forall_forall in *. auto. }
  exists c'. split; [done|]. clear -HF. induction HF as [|x x' c c' (W & T & C) _ (Wc & Tc & Cc)]; [by split_and!|].
  cbn. rewrite T, Tc. split_and!; [by constructor | done | by constructor].
Qed.

Lemma SetHasNull_ok s : stats_wf s → ∃ s', SetHasNull s = Ok s' ∧ extends s s' ∧ has_null s' = true.
Proof.
  enough (stats_wf s → ∃ s', SetHasNull s = Ok s' ∧ extends s s') as H.
  { intros W. destruct (H W) as (s' & Hs & He). exists s'. split_and!; [done | done |].
    destruct s as [t n nn d u c]. cbn in Hs. case_match; inv_ok; done. }
  induction s as [t n nn d u c IH] using BaseStatistics_ind'; intros W. pose proof W as W0.
  apply stats_wf_eq in W0 as [[Hs _] Wc]. cbn [child_stats] in Wc.
  destruct (raise_children _ _ IH Wc) as (c' & Hc' & Wc' & Ec & Fc). cbn [SetHasNull].
  case_bool_decide as Hk.
  - assert (GetStatsType t = STRUCT_STATS) as Hg.
    { unfold GetStatsType. rewrite Hk. case_bool_decide as Hid; [|done].
      unfold InternalType, GetInternalType in Hk. by rewrite Hid in Hk. }
    unfold node_shape in Hs. cbn [stats_type child_stats] in Hs. rewrite Hg in Hs.
    unfold StructType_GetChildCount. rewrite Hs. cbn [mbind result_bind]. rewrite length_fmap, Hc'. cbn [mbind result_bind].
    rewrite drop_all, app_nil_r. eexists. split; [done|]. split_and!; [by eapply with_children_wf | done | by apply covers_flags].
  - eexists. split; [done|]. split_and!; [by eapply with_children_wf | done |].
    apply covers_flags; [done | done |]. apply Forall2_same_length_lookup. naive_solver.
Qed.

Lemma SetHasNoNull_ok s : stats_wf s → ∃ s', SetHasNoNull s = Ok s' ∧ extends s s' ∧ has_no_null s' = true.
Proof.
  enough (stats_wf s → ∃ s', SetHasNoNull s = Ok s' ∧ extends s s') as H.
  { intros W. destruct (H W) as (s' & Hs & He). exists s'. split_and!; [done | done |].
    destruct s as [t n nn d u c]. cbn in Hs. case_match; inv_ok; done. }
  induction s as [t n nn d u c IH] using BaseStatistics_ind'; intros W. pose proof W as W0.
  apply stats_wf_eq in W0 as [[Hs _] Wc]. cbn [child_stats] in Wc.
  destruct (raise_children _ _ IH Wc) as (c' & Hc' & Wc' & Ec & Fc). cbn [SetHasNoNull].
  case_bool_decide as Hk.
  - assert (GetStatsType t = STRUCT_STATS) as Hg.
    { unfold GetStatsType. rewrite Hk. case_bool_decide as Hid; [|done].
      unfold InternalType, GetInternalType in Hk. by rewrite Hid in Hk. }
    unfold node_shape in Hs. cbn [stats_type child_stats] in Hs. rewrite Hg in Hs.
    unfold StructType_GetChildCount. rewrite Hs. cbn [mbind result_bind]. rewrite length_fmap, Hc'. cbn [mbind result_bind].
    rewrite drop_all, app_nil_r. eexists. split; [done|]. split_and!; [by eapply with_children_wf | done | by apply covers_flags].
  - eexists. split; [done|]. split_and!; [by eapply with_children_wf | done |].
    apply covers_flags; [done | done |]. apply Forall2_same_length_lookup. naive_solver.
Qed.

(** * Creators *)

(** The validity-setting step of the creators. *)
Definition initializer (init : BaseStatistics → BaseStatistics) : Prop :=
  init = InitializeUnknown ∨ init = InitializeEmpty.

Lemma init_cases init s : initializer init → ∃ n nn, init s = set_validity s n nn.
Proof. intros [-> | ->]; eexists _, _; reflexivity. Qed.

Lemma ListStats_Create_ok init t child :
  initializer init → type_ok t → stats_wf child →
  (GetStatsType t = LIST_STATS ∧ list_child_type t = Ok (stats_type child)) ∨
  (GetStatsType t = ARRAY_STATS ∧ array_child_type t = Ok (stats_type child)) →
  ∃ s, ListStats_Create init t child = Ok s ∧ stats_wf s ∧ stats_type s = t ∧ child_stats s = [child].
Proof.
  intros Hi Hok Wc Hk. destruct (Construct_shaped t Hok) as ([t' n nn d u c] & Hc & Hsh & <-).
  unfold ListStats_Create. cbn [stats_type] in *. rewrite Hc. cbn [mbind result_bind child_stats].
  unfold shaped in Hsh. rewrite all_nodes_eq in Hsh. destruct Hsh as [Hn Hcs]. cbn [child_stats] in Hcs.
  assert (∃ x, c = [x] ∧ stats_type x = stats_type child) as (x & -> & Ex).
  { unfold node_shape in Hn. cbn [stats_type child_stats] in Hn.
    destruct Hk as [[Hk E]|[Hk E]]; rewrite Hk in Hn; destruct Hn as (x & -> & Hx); exists x; split; congruence. }
  apply Forall_cons in Hcs as [Hx _]. rewrite (Copy_shaped x child) by (done || by apply wf_shaped).
  destruct (init_cases init (mkStats t' n nn d u [x]) Hi) as (n' & nn' & ->).
  cbn [mbind result_bind set_validity set_children]. eexists. split; [done|]. split_and!; [| done | done].
  apply stats_wf_eq. cbn [child_stats]. split; [|by constructor].
  unfold node_shape, node_data. cbn [stats_type child_stats].
  destruct Hk as [[-> E]|[-> E]]; (split; [|done]); exists child; done.
Qed.

Lemma StructStats_Create_ok init t children :
  initializer init → type_ok t → Forall stats_wf children → GetStatsType t = STRUCT_STATS →
  struct_child_types t = Ok (stats_type <$> children) →
  ∃ s, StructStats_Create init t children = Ok s ∧ stats_wf s ∧ stats_type s = t ∧ child_stats s = children.
Proof.
  intros Hi Hok Wc Hk E. destruct (Construct_shaped t Hok) as ([t' n nn d u c] & Hc & Hsh & <-).
  unfold StructStats_Create. cbn [stats_type] in *. rewrite Hc. cbn [mbind result_bind child_stats].
  unfold shaped in Hsh. rewrite all_nodes_eq in Hsh. destruct Hsh as [Hn Hcs].
  unfold node_shape in Hn. cbn [stats_type child_stats] in Hn, Hcs. rewrite Hk in Hn.
  rewrite copy_children_shaped; [| done | eapply Forall_impl; [exact Wc | apply wf_shaped] | congruence].
  destruct (init_cases init (mkStats t' n nn d u c) Hi) as (n' & nn' & ->).
  cbn [mbind result_bind set_validity set_children]. eexists. split; [done|]. split_and!; [| done | done].
  apply stats_wf_eq. cbn [child_stats]. split; [|done].
  unfold node_shape, node_data. cbn [stats_type child_stats]. by rewrite Hk.
Qed.

(** A type that is not nested. *)
Definition leaf_type (t : LogicalType) : Prop :=
  GetStatsType t = NUMERIC_STATS ∨ GetStatsType t = STRING_STATS ∨ GetStatsType t = BASE_STATS.

Lemma LT_leaf i : type_ok (LT i) → leaf_type (LT i) ∧ (GetStatsType (LT i) = NUMERIC_STATS → has_extremes (LT i) = true).
Proof. intros H. destruct i; try done; split; try done; unfold leaf_type; vm_compute; auto. Qed.

(** What a creator promises. *)
Definition created (t : LogicalType) (s : BaseStatistics) : Prop := stats_wf s ∧ stats_type s = t.

Lemma created_set_validity t s n nn : created t s → created t (set_validity s n nn).
Proof. intros [W T]. split; [by apply set_validity_wf | by destruct s]. Qed.

Lemma leaf_created t s : leaf_type t → stats_type s = t → child_stats s = [] → node_data s → created t s.
Proof.
  intros Hl <- Hc Hd. split; [|done]. apply stats_wf_eq. rewrite Hc. split; [|done]. split; [|done].
  unfold node_shape. by destruct Hl as [-> |[-> | ->]].
Qed.

Lemma children_created (f : LogicalType → result BaseStatistics) (cs : list (string * LogicalType)) :
  Forall (λ c, type_ok c.2 → ∃ s, f c.2 = Ok s ∧ created c.2 s) cs → Forall (λ c, type_ok c.2) cs →
  ∃ l, mapR (λ c : string * LogicalType, f c.2) cs = Ok l ∧ Forall stats_wf l ∧ cs.*2 = stats_type <$> l.
Proof.
  intros IH Hok. destruct (mapR_Forall2 (λ c : string * LogicalType, f c.2) (λ c s, created c.2 s) cs) as (l & Hl & HF).
  { rewrite Forall_forall in *. auto. }
  exists l. split; [done|]. clear -HF. induction HF as [|c s cs l [W T] _ [Wl El]]; [done|]. cbn. rewrite T, El. split; [by constructor | done].
Qed.

(** A constructed leaf. *)
Lemma Construct_leaf t : type_ok t → leaf_type t → ∃ n nn d u, Construct t = Ok (mkStats t n nn d u []).
Proof.
  intros Hok Hl. destruct (Construct_shaped t Hok) as ([t' n nn d u c] & -> & Hsh & <-).
  unfold shaped in Hsh. rewrite all_nodes_eq in Hsh. destruct Hsh as [Hn _].
  unfold node_shape in Hn. cbn [stats_type child_stats] in *. exists n, nn, d, u.
  by destruct Hl as [Hk|[Hk|Hk]]; rewrite Hk in Hn; subst c.
Qed.

Lemma empty_str_wf : str_wf (mkStr (replicate 8 0xFF) (replicate 8 0) false true 0).
Proof.
  split; [split; [done|] | split; [done|] | cbn; lia]; apply Forall_replicate; lia.
Qed.
Lemma unknown_str_wf : str_wf (mkStr (replicate 8 0) (replicate 8 0xFF) true false 0).
Proof.
  split; [split; [done|] | split; [done|] | cbn; lia]; apply Forall_replicate; lia.
Qed.

Lemma CreateUnknown_leaf t :
  type_ok t → leaf_type t →
  CreateUnknown t = (s ← Construct t;
    r ← match GetStatsType t with
        | NUMERIC_STATS => NumericStats_CreateUnknown s
        | STRING_STATS => Ok (StringStats_CreateUnknown s)
        | _ => Ok s
        end;
    Ok (InitializeUnknown r)).
Proof.
  intros Hok Hl. destruct t as [i|w sc|d|c|c|cs|cs|c n]; try (destruct Hl as [?|[?|?]]; discriminate).
  - destruct i; done.
  - done.
  - done.
Qed.

Lemma CreateEmpty_leaf t :
  type_ok t → leaf_type t → InternalType t ≠ PT_BIT →
  CreateEmpty t = (s ← Construct t;
    r ← match GetStatsType t with
        | NUMERIC_STATS => NumericStats_CreateEmpty s
        | STRING_STATS => Ok (StringStats_CreateEmpty s)
        | _ => Ok s
        end;
    Ok (InitializeEmpty r)).
Proof.
  intros Hok Hl Hb. destruct t as [i|w sc|d|c|c|cs|cs|c n]; try (destruct Hl as [?|[?|?]]; discriminate);
    cbn [CreateEmpty]; rewrite bool_decide_false by done; [|done|done].
  destruct i; done.
Qed.

(** The unknown statistics of a leaf cover every value. *)
Lemma CreateUnknown_leaf_ok t :
  type_ok t → leaf_type t →
  ∃ s, CreateUnknown t = Ok s ∧ created t s.
Proof.
  intros Hok Hl. rewrite CreateUnknown_leaf by done.
  destruct (Construct_leaf t Hok Hl) as (n & nn & d & u & ->). cbn [mbind result_bind].
  destruct Hl as [Hk|[Hk|Hk]]; rewrite Hk.
  - destruct (CreateUnknown_view (mkStats t n nn d u []) Hk) as (s & -> & V & w & ->).
    eexists. split; [done|]. apply created_set_validity, leaf_created; [left; done | done | done |].
    unfold node_data. cbn [stats_type set_union InitializeUnknown set_validity]. rewrite Hk. eauto.
  - eexists. split; [done|]. apply created_set_validity, leaf_created; [right; left; done | done | done |].
    unfold node_data. cbn. rewrite Hk. eexists. split; [done | apply unknown_str_wf].
  - eexists. split; [done|]. apply created_set_validity, leaf_created; [right; right; done | done | done |].
    unfold node_data. cbn. by rewrite Hk.
Qed.

Lemma CreateEmpty_leaf_ok t :
  type_ok t → leaf_type t → (GetStatsType t = NUMERIC_STATS → has_extremes t = true) →
  ∃ s, CreateEmpty t = Ok s ∧ created t s.
Proof.
  intros Hok Hl Hx. destruct (decide (InternalType t = PT_BIT)) as [Hb|Hb].
  { assert (GetStatsType t = BASE_STATS) as Hk by (unfold GetStatsType; rewrite Hb; by case_bool_decide).
    destruct (Construct_leaf t Hok Hl) as (n & nn & d & u & Hc). exists (mkStats t false false d u []). split.
    - destruct t; cbn [CreateEmpty]; (rewrite bool_decide_true by done); by rewrite Hc.
    - apply leaf_created; [done | done | done |]. unfold node_data. cbn. by rewrite Hk. }
  rewrite CreateEmpty_leaf by done.
  destruct (Construct_leaf t Hok Hl) as (n & nn & d & u & ->). cbn [mbind result_bind].
  destruct Hl as [Hk|[Hk|Hk]]; rewrite Hk.
  - destruct (CreateEmpty_view (mkStats t n nn d u []) Hk (Hx Hk)) as (s & x & y & -> & V & w & ->).
    eexists. split; [done|]. apply created_set_validity, leaf_created; [left; done | done | done |].
    unfold node_data. cbn [stats_type set_union InitializeEmpty set_validity]. rewrite Hk. eauto.
  - eexists. split; [done|]. apply created_set_validity, leaf_created; [right; left; done | done | done |].
    unfold node_data. cbn. rewrite Hk. eexists. split; [done | apply empty_str_wf].
  - eexists. split; [done|]. apply created_set_validity, leaf_created; [right; right; done | done | done |].
    unfold node_data. cbn. by rewrite Hk.
Qed.

Lemma CreateUnknown_ok t : type_ok t → ∃ s, CreateUnknown t = Ok s ∧ created t s.
Proof.
  induction t as [i|w sc|d|c IH|c IH|cs IH|cs IH|c n IH] using LogicalType_ind'; intros Hok.
  1: apply CreateUnknown_leaf_ok; [done | by apply LT_leaf].
  1: destruct (decimal_kind w sc) as [?|?]; apply CreateUnknown_leaf_ok; unfold leaf_type; auto.
  1: destruct (enum_kind d) as [?|?]; apply CreateUnknown_leaf_ok; unfold leaf_type; auto.
  all: cbn [CreateUnknown].
  1,2,5: destruct (IH Hok) as (s & -> & W & T); cbn [mbind result_bind];
         (edestruct (ListStats_Create_ok InitializeUnknown) as (r & -> & Wr & Tr & _);
          [by left | exact Hok | exact W | first [left; split; [done|]; cbn; by rewrite T | right; split; [done|]; cbn; by rewrite T]|]);
         eexists; (split; [done|]); by apply created_set_validity.
  all: destruct (children_created CreateUnknown cs IH) as (l & -> & Wl & El); [by apply type_ok_children|]; cbn [mbind result_bind];
       (edestruct (StructStats_Create_ok InitializeUnknown) as (r & -> & Wr & Tr & _);
        [by left | exact Hok | exact Wl | done | cbn; by rewrite El|]);
       eexists; (split; [done|]); by apply created_set_validity.
Qed.

Lemma CreateEmpty_ok t : type_ok t → ∃ s, CreateEmpty t = Ok s ∧ created t s.
Proof.
  induction t as [i|w sc|d|c IH|c IH|cs IH|cs IH|c n IH] using LogicalType_ind'; intros Hok.
  1: destruct (LT_leaf i Hok); by apply CreateEmpty_leaf_ok.
  1: destruct (decimal_kind w sc) as [?|?]; apply CreateEmpty_leaf_ok; unfold leaf_type; auto.
  1: destruct (enum_kind d) as [?|?]; apply CreateEmpty_leaf_ok; unfold leaf_type; auto.
  all: cbn [CreateEmpty]; rewrite bool_decide_false by done.
  1,2,5: destruct (IH Hok) as (s & -> & W & T); cbn [mbind result_bind];
         (edestruct (ListStats_Create_ok InitializeEmpty) as (r & -> & Wr & Tr & _);
          [by right | exact Hok | exact W | first [left; split; [done|]; cbn; by rewrite T | right; split; [done|]; cbn; by rewrite T]|]);
         eexists; (split; [done|]); by apply created_set_validity.
  all: destruct (children_created CreateEmpty cs IH) as (l & -> & Wl & El); [by apply type_ok_children|]; cbn [mbind result_bind];
       (edestruct (StructStats_Create_ok InitializeEmpty) as (r & -> & Wr & Tr & _);
        [by right | exact Hok | exact Wl | done | cbn; by rewrite El|]);
       eexists; (split; [done|]); by apply created_set_validity.
Qed.

(** * Statistics of a constant *)

(** A value that matches its type: numbers are stored in the member of the
    type, strings fit and VARCHAR text is valid UTF-8, children have the child
    types. *)
Fixpoint value_ok (v : Value) : Prop :=
  type_ok (value_type v) ∧
  match v with
  | V_null _ => True
  | V_num t u => GetStatsType t = NUMERIC_STATS ∧ u.1 = InternalType t
  | V_string t b => GetStatsType t = STRING_STATS ∧ str_ok b ∧ (id t = VARCHAR → Analyze b ≠ UNI_INVALID)
  | V_nested t vs =>
      match GetStatsType t with
      | LIST_STATS => Forall (λ w, list_child_type t = Ok (value_type w)) vs
      | ARRAY_STATS => Forall (λ w, array_child_type t = Ok (value_type w)) vs
      | STRUCT_STATS => struct_child_types t = Ok (value_type <$> vs)
      | _ => False
      end ∧ (fix go vs := match vs with [] => True | w :: r => value_ok w ∧ go r end) vs
  end.

Lemma value_ok_children vs :
  (fix go vs := match vs with [] => True | w :: r => value_ok w ∧ go r end) vs ↔ Forall value_ok vs.
Proof. induction vs as [|w vs IH]; [done|]. rewrite Forall_cons. by rewrite IH. Qed.

Section ValueInd.
Context (P : Value → Prop) (Hnull : ∀ t, P (V_null t)) (Hnum : ∀ t u, P (V_num t u)) (Hstr : ∀ t b, P (V_string t b)).
Context (Hnest : ∀ t vs, Forall P vs → P (V_nested t vs)).
Fixpoint Value_ind' (v : Value) : P v :=
  match v with
  | V_null t => Hnull t
  | V_num t u => Hnum t u
  | V_string t b => Hstr t b
  | V_nested t vs => Hnest t vs
      ((fix go vs := match vs return Forall P vs with
        | [] => Forall_nil_2 _ | x :: r => Forall_cons_2 _ _ _ (Value_ind' x) (go r) end) vs)
  end.
End ValueInd.

Lemma SetDistinctCount_ok s k : stats_wf s → extends s (SetDistinctCount s k).
Proof.
  intros W. destruct s as [t n nn d u c]. cbn. split_and!; [| done |].
  - eapply with_children_wf; [exact W | | done]. by apply stats_wf_eq in W as [_ W].
  - apply covers_flags; [done | done |]. apply Forall2_same_length_lookup. naive_solver.
Qed.

Lemma extends_trans a b c : extends a b → extends b c → extends a c.
Proof. intros (W1 & T1 & C1) (W2 & T2 & C2). split_and!; [done | congruence | auto]. Qed.

(** Clearing a flag keeps the values it is not about. *)
Lemma clear_null s v : covers s v → Value_IsNull v = false → covers (set_validity s false (has_no_null s)) v.
Proof.
  destruct s as [t n nn d u c]. intros Hv Hn. destruct v as [| | |]; try done; cbn in Hv |- *.
  destruct Hv as [H1 H2]. split; [done|]. intros Hk lo hi x V. apply (H2 Hk). by eapply numeric_view_ext, V.
Qed.
Lemma clear_valid s t : covers s (V_null t) → covers (set_validity s (has_null s) false) (V_null t).
Proof. by destruct s. Qed.

Lemma finish_constant_null s t :
  stats_wf s → ∃ s', finish_constant true s = Ok s' ∧ created (stats_type s) s' ∧ covers s' (V_null t).
Proof.
  intros W. pose proof (SetDistinctCount_ok s 1 W) as (W1 & T1 & C1). unfold finish_constant. cbn [Stats_Set].
  destruct (SetHasNull_ok _ W1) as (s2 & -> & (W2 & T2 & C2) & Hn). cbn [mbind result_bind].
  eexists. split; [done|]. split; [apply created_set_validity; split; [done | congruence]|].
  apply clear_valid. destruct s2. exact Hn.
Qed.

Lemma finish_constant_valid s v :
  stats_wf s → covers s v → Value_IsNull v = false →
  ∃ s', finish_constant false s = Ok s' ∧ created (stats_type s) s' ∧ covers s' v.
Proof.
  intros W Hv Hn. unfold finish_constant. cbn [Stats_Set mbind result_bind].
  destruct (SetDistinctCount_ok s 1 W) as (W1 & T1 & C1).
  edestruct SetHasNoNull_ok as (s2 & -> & (W2 & T2 & C2) & Hnn); [apply (set_validity_wf _ _ _ W1)|].
  exists s2. split; [done|]. split; [split; [done|]; rewrite T2; by destruct s|].
  apply C2, clear_null; auto.
Qed.

Lemma CreateEmpty_flags t s : CreateEmpty t = Ok s → InternalType t ≠ PT_BIT → has_null s = false ∧ has_no_null s = true.
Proof.
  intros H Hb. destruct t; cbn [CreateEmpty] in H; rewrite bool_decide_false in H by done;
    apply bind_Ok_inv in H as (r & _ & [= <-]); by destruct r.
Qed.

Lemma kind_not_bit t : GetStatsType t ≠ BASE_STATS → InternalType t ≠ PT_BIT.
Proof. intros Hk Hb. apply Hk. unfold GetStatsType. rewrite Hb. by case_bool_decide. Qed.

(** The children of a struct are replaced one after the other. *)
Lemma set_all_children_ok s done_ rest new :
  child_stats s = done_ ++ rest → Forall shaped rest → Forall shaped new → stats_type <$> rest = stats_type <$> new →
  set_all_children s (length done_) new = Ok (set_children s (done_ ++ new)).
Proof.
  revert s done_ rest. induction new as [|x new IH]; intros s done_ rest Hc Hr Hn E.
  - destruct rest; [|done]. cbn. f_equal. destruct s. cbn in *. by subst.
  - destruct rest as [|y rest]; [done|]. apply Forall_cons in Hr as [Hy Hr], Hn as [Hx Hn]. injection E as Exy E.
    cbn [set_all_children]. unfold StructStats_SetChildStats. rewrite Hc.
    rewrite (vget_lookup _ _ y) by (by apply list_lookup_middle). cbn [mbind result_bind].
    rewrite (Copy_shaped y x) by done. cbn [mbind result_bind].
    rewrite vset_lt by (rewrite length_app; cbn; lia). cbn [mbind result_bind].
    rewrite insert_app_r_alt, Nat.sub_diag by lia. cbn [list_insert insert].
    replace (S (length done_)) with (length (done_ ++ [x])) by (rewrite length_app; cbn; lia).
    rewrite (IH _ _ rest); [| by destruct s; cbn; rewrite <- app_assoc | done | done | done].
    destruct s. cbn. by rewrite <- app_assoc.
Qed.

Lemma shaped_children s : stats_wf s → Forall shaped (child_stats s).
Proof. intros [_ H]%stats_wf_eq. eapply Forall_impl; [exact H | apply wf_shaped]. Qed.

(** Replacing the children of well-formed struct statistics. *)
Lemma struct_children_ok s new :
  stats_wf s → GetStatsType (stats_type s) = STRUCT_STATS → Forall stats_wf new →
  struct_child_types (stats_type s) = Ok (stats_type <$> new) →
  set_all_children s 0 new = Ok (set_children s new) ∧ created (stats_type s) (set_children s new).
Proof.
  intros W Hk Wn E. pose proof W as W0. apply stats_wf_eq in W0 as [[Hs _] _]. unfold node_shape in Hs. rewrite Hk, E in Hs.
  injection Hs as Hs. split.
  - apply (set_all_children_ok s [] (child_stats s)); [done | by apply shaped_children | | done].
    eapply Forall_impl; [exact Wn | apply wf_shaped].
  - destruct s as [t n nn d u c]. split; [|done]. by eapply with_children_wf.
Qed.

Lemma FromNull_ok t : type_ok t → ∃ s, FromNull t = Ok s ∧ created t s ∧ covers s (V_null t).
Proof.
  assert (∀ t r, created t r → ∃ s, finish_constant true r = Ok s ∧ created t s ∧ covers s (V_null t)) as Hfin
    by (intros t' r [W <-]; by apply finish_constant_null).
  assert (∀ t, type_ok t → match GetStatsType t with
      | NUMERIC_STATS => ∃ s s1 s2, CreateEmpty t = Ok s ∧ SetMin s (V_null t) = Ok s1 ∧ SetMax s1 (V_null t) = Ok s2 ∧ created t s2
      | _ => True end) as Hnum.
  { intros t0 Hok. destruct (GetStatsType t0) eqn:Hk; try done.
    destruct (CreateEmpty_ok t0 Hok) as (s & Hs & W & T). pose proof W as W0.
    apply stats_wf_eq in W0 as [[_ Hd] Hc]. unfold node_data in Hd. rewrite T, Hk in Hd. destruct Hd as (lo & hi & V).
    destruct (SetMin_null _ _ _ _ V t0) as (s1 & H1 & V1 & u1 & ->).
    destruct (SetMax_null _ _ _ _ V1 t0) as (s2 & H2 & V2 & u2 & ->).
    exists s, (set_union s u1), (set_union (set_union s u1) u2). split_and!; [done | done | done |].
    rewrite set_union_twice in V2 |- *. apply stats_wf_eq in W as [[Hs' _] _]. unfold node_shape in Hs'.
    rewrite T, Hk in Hs'. destruct s as [t1 n nn d u c]. cbn [stats_type child_stats set_union] in *. subst t1 c.
    apply leaf_created; [by left | done | done | unfold node_data; cbn [stats_type]; rewrite Hk; eauto]. }
  assert (∀ t, type_ok t → match t with LT_STRUCT _ | LT_UNION _ => True | _ => ∃ s, FromNull t = Ok s ∧ created t s ∧ covers s (V_null t) end) as Hleaf.
  { intros t0 Hok. specialize (Hnum t0 Hok).
    assert (∃ r, (match GetStatsType t0 with
              | NUMERIC_STATS => s ← CreateEmpty t0; s ← SetMin s (V_null t0); SetMax s (V_null t0)
              | BASE_STATS => Construct t0 | _ => CreateEmpty t0 end) = Ok r ∧ created t0 r) as (r & Hr & Cr).
    { destruct (GetStatsType t0) eqn:Hk; try (by apply CreateEmpty_ok).
      - destruct Hnum as (s & s1 & s2 & H1 & H2 & H3 & C). exists s2. rewrite H1. cbn [mbind result_bind]. rewrite H2. cbn [mbind result_bind]. by rewrite H3.
      - destruct (Construct_shaped t0 Hok) as (s & Hs & Hsh & T). exists s. split; [done|]. split; [|done]. subst t0.
        apply stats_wf_eq. unfold shaped in Hsh. rewrite all_nodes_eq in Hsh. destruct Hsh as [Hn Hc].
        unfold node_shape, node_data in *. rewrite Hk in *. rewrite Hn in *. done. }
    destruct t0; try done; cbn [FromNull]; rewrite Hr; cbn [mbind result_bind]; by apply Hfin. }
  induction t as [i|w sc|d|c IH|c IH|cs IH|cs IH|c n IH] using LogicalType_ind'; intros Hok;
    try (by apply (Hleaf _ Hok)); cbn [FromNull].
  all: destruct (CreateEmpty_ok _ Hok) as (s & -> & W & T); cbn [mbind result_bind];
       destruct (children_created FromNull cs) as (l & -> & Wl & El);
       [eapply Forall_impl; [exact IH|]; intros c Hc Hok'; destruct (Hc Hok') as (? & ? & ? & _); eauto | by apply type_ok_children|];
       cbn [mbind result_bind];
       destruct (struct_children_ok s l W) as [-> Cs]; [by rewrite T | done | rewrite T; cbn; by rewrite El|];
       rewrite T in Cs; cbn [mbind result_bind]; by apply Hfin.
Qed.

(** The empty statistics of a type that is not a bit. *)
Lemma CreateEmpty_valid t :
  type_ok t → GetStatsType t ≠ BASE_STATS →
  ∃ s, CreateEmpty t = Ok s ∧ stats_wf s ∧ stats_type s = t ∧ has_no_null s = true.
Proof.
  intros Hok Hk. destruct (CreateEmpty_ok t Hok) as (s & Hs & W & T). exists s. split_and!; try done.
  by apply (CreateEmpty_flags t), kind_not_bit.
Qed.

Lemma numeric_constant t u :
  type_ok t → GetStatsType t = NUMERIC_STATS → u.1 = InternalType t →
  ∃ s s1 s2, CreateEmpty t = Ok s ∧ SetMin s (V_num t u) = Ok s1 ∧ SetMax s1 (V_num t u) = Ok s2 ∧
    created t s2 ∧ covers s2 (V_num t u).
Proof.
  intros Hok Hk Hu. destruct u as [pt x]. cbn [fst] in Hu. subst pt.
  destruct (CreateEmpty_valid t Hok) as (s & Hs & W & T & Hnn); [by rewrite Hk|]. pose proof W as W0.
  apply stats_wf_eq in W0 as [[Hsh Hd] _]. unfold node_data, node_shape in Hd, Hsh. rewrite T, Hk in Hd, Hsh.
  destruct Hd as (lo & hi & V).
  destruct (SetMin_view _ _ _ _ V x) as (s1 & H1 & V1 & u1 & ->). rewrite T in H1.
  destruct (SetMax_view _ _ _ _ V1 x) as (s2 & H2 & V2 & u2 & ->). rewrite set_union_type, T in H2.
  rewrite set_union_twice in H2, V2.
  destruct s as [t1 n nn d u c]. cbn [stats_type child_stats set_union has_no_null] in *. subst t1 c nn.
  eexists _, _, _. split_and!; [done | done | exact H2 | |].
  - apply leaf_created; [by left | done | done |]. unfold node_data. cbn [stats_type]. rewrite Hk. eauto.
  - cbn [covers]. split; [done|]. intros _ l h y Vl Hy.
    destruct (numeric_view_unique _ _ _ _ _ _ V2 Vl) as [<- <-].
    pose proof (view_numeric _ _ _ _ V2) as Hn.
    assert (y = x) as ->.
    { revert Hy. cbn. unfold union_get. cbn [fst snd]. rewrite bool_decide_true by done.
      destruct (InternalType t); cbn; congruence. }
    split; intros z [= <-]; done.
Qed.

Lemma string_constant t b :
  type_ok t → GetStatsType t = STRING_STATS → str_ok b → (id t = VARCHAR → Analyze b ≠ UNI_INVALID) →
  ∃ s s1, CreateEmpty t = Ok s ∧ StringStats_Update s b = Ok s1 ∧ created t s1 ∧ covers s1 (V_string t b).
Proof.
  intros Hok Hk Hb Hu.
  destruct (CreateEmpty_valid t Hok) as (s & Hs & W & T & Hnn); [by rewrite Hk|].
  apply stats_wf_eq in W as [[Hsh Hd] _]. unfold node_data, node_shape in Hd, Hsh. rewrite T, Hk in Hd, Hsh.
  destruct Hd as (d & Ed & Wd).
  destruct (Update_covers s d b Ed Wd Hb) as (d' & HU & Wd' & Cd & _); [rewrite T; auto|]. rewrite T in Cd.
  destruct s as [t1 n nn dc u c]. cbn [stats_type child_stats set_union has_no_null stats_union] in *. subst t1 c nn u.
  eexists _, _. split_and!; [done | exact HU | |].
  - apply leaf_created; [by right; left | done | done |]. unfold node_data. cbn. rewrite Hk. eauto.
  - cbn. split; [done|]. intros _ d0 [= <-]. done.
Qed.

(** Merging statistics of constants one after the other. *)
Lemma merge_all_ok t c (l : list BaseStatistics) :
  created t c → Forall (created t) l →
  ∃ c', merge_all c l = Ok c' ∧ created t c' ∧ (∀ v, covers c v → covers c' v) ∧
        Forall (λ x, ∀ v, covers x v → covers c' v) l.
Proof.
  intros Hc Hl. revert c Hc. induction Hl as [|x l [Wx Tx] _ IH]; intros c [Wc Tc]; [by exists c|].
  destruct (Merge_ok c x Wc Wx) as (c1 & Hm & W1 & T1 & C1); [congruence|].
  destruct (IH c1) as (c' & Hc' & K' & M' & F'); [split; congruence|].
  exists c'. cbn [merge_all]. rewrite Hm. cbn [mbind result_bind]. split_and!; [done | done | auto |].
  constructor; [auto | done].
Qed.

Lemma covers_all c (l : list BaseStatistics) vs :
  Forall2 covers l vs → Forall (λ x, ∀ v, covers x v → covers c v) l → Forall (covers c) vs.
Proof. induction 1 as [|x v l vs Hx _ IH]; intros HF; [done|]. apply Forall_cons in HF as [Hc HF]. constructor; auto. Qed.

Lemma zipP_Forall2 {A B} (f : A → B → Prop) l k : Forall2 f l k → zipP f l k.
Proof. induction 1; done. Qed.

(** One child that takes all the elements. *)
Lemma elements_constant t tc vs cs :
  type_ok t → GetStatsType t = LIST_STATS ∧ list_child_type t = Ok tc ∨ GetStatsType t = ARRAY_STATS ∧ array_child_type t = Ok tc →
  Forall (created tc) cs → Forall2 covers cs vs →
  ∃ s c0 r c, CreateEmpty t = Ok s ∧ child_stats s = c0 :: r ∧ merge_all c0 cs = Ok c ∧
    created t (set_children s (c :: r)) ∧ covers (set_children s (c :: r)) (V_nested t vs).
Proof.
  intros Hok Hk Hcs Hcov.
  destruct (CreateEmpty_valid t Hok) as (s & Hs & W & T & Hnn); [by destruct Hk as [[-> _]|[-> _]]|].
  assert (∃ c0, child_stats s = [c0] ∧ created tc c0) as (c0 & Ec & Cc).
  { apply stats_wf_eq in W as [[Hsh _] Hc]. unfold node_shape in Hsh. rewrite T in Hsh.
    destruct Hk as [[Hk E]|[Hk E]]; rewrite Hk in Hsh; destruct Hsh as (c0 & Ec & E'); exists c0; rewrite Ec in Hc;
      apply Forall_cons in Hc as [Wc _]; (split; [done|]); split; congruence. }
  destruct (merge_all_ok tc c0 cs Cc Hcs) as (c & Hm & [Wc Tc] & _ & HF).
  exists s, c0, [], c. split_and!; [done | done | done | |].
  - destruct s as [t1 n nn d u cl]. cbn [stats_type child_stats set_children] in *. subst t1 cl. split; [|done].
    eapply with_children_wf; [exact W | by constructor |]. cbn. destruct Cc. congruence.
  - destruct s as [t1 n nn d u cl]. cbn [stats_type child_stats set_children has_no_null covers] in *. subst t1 nn.
    split; [done|]. destruct Hk as [[-> _]|[-> _]]; by eapply covers_all.
Qed.

Lemma fields_constant t vs cs :
  type_ok t → GetStatsType t = STRUCT_STATS → struct_child_types t = Ok (stats_type <$> cs) →
  Forall stats_wf cs → Forall2 covers cs vs →
  ∃ s, CreateEmpty t = Ok s ∧ set_all_children s 0 cs = Ok (set_children s cs) ∧
    created t (set_children s cs) ∧ covers (set_children s cs) (V_nested t vs).
Proof.
  intros Hok Hk E Wc Hcov.
  destruct (CreateEmpty_valid t Hok) as (s & Hs & W & T & Hnn); [by rewrite Hk|].
  destruct (struct_children_ok s cs W) as [Hset Cs]; [by rewrite T | done | by rewrite T|]. rewrite T in Cs.
  exists s. split_and!; [done | done | done |].
  destruct s as [t1 n nn d u cl]. cbn [stats_type set_children has_no_null covers] in *. subst t1 nn.
  split; [done|]. rewrite Hk. by apply zipP_Forall2.
Qed.

Lemma nested_child_type t :
  type_ok t → (GetStatsType t = LIST_STATS → ∃ c, list_child_type t = Ok c) ∧
              (GetStatsType t = ARRAY_STATS → ∃ c, array_child_type t = Ok c).
Proof.
  intros Hok. destruct t as [i|w sc|d|c|c|fs|fs|c n].
  1: destruct (LT_leaf i Hok) as [[-> |[-> | ->]] _]; done.
  1: destruct (decimal_kind w sc) as [-> | ->]; done.
  1: destruct (enum_kind d) as [-> | ->]; done.
  all: split; intros H; first [discriminate H | by eexists].
Qed.

(** The statistics of a constant exist, have its type and cover it. *)
Lemma FromConstant_ok v :
  value_ok v → ∃ s, FromConstant v = Ok s ∧ created (value_type v) s ∧ covers s v.
Proof.
  assert (∀ r v, created (value_type v) r → covers r v → Value_IsNull v = false →
    ∃ s, finish_constant false r = Ok s ∧ created (value_type v) s ∧ covers s v) as Hfin
    by (intros r w [W <-]; by apply finish_constant_valid).
  induction v as [t|t u|t b|t vs IH] using Value_ind'; intros Hv; cbn [value_ok value_type] in Hv; destruct Hv as [Hok Hv].
  - by apply FromNull_ok.
  - destruct Hv as [Hk Hu]. destruct (numeric_constant t u Hok Hk Hu) as (s & s1 & s2 & H1 & H2 & H3 & C & V).
    cbn [FromConstant]. rewrite Hk, H1. cbn [mbind result_bind]. rewrite H2. cbn [mbind result_bind]. rewrite H3.
    by apply Hfin.
  - destruct Hv as (Hk & Hb & Hu). destruct (string_constant t b Hok Hk Hb Hu) as (s & s1 & H1 & H2 & C & V).
    cbn [FromConstant]. rewrite Hk, H1. cbn [mbind result_bind]. rewrite H2. by apply Hfin.
  - destruct Hv as [Hk Hvs]. apply value_ok_children in Hvs. cbn [FromConstant].
    destruct (mapR_Forall2 FromConstant (λ v s, created (value_type v) s ∧ covers s v) vs) as (cs & -> & HF).
    { rewrite Forall_forall in *. auto. }
    cbn [mbind result_bind].
    assert (Forall stats_wf cs ∧ stats_type <$> cs = value_type <$> vs ∧ Forall2 covers cs vs) as (Wcs & Tcs & Ccs).
    { clear -HF. induction HF as [|v s vs cs [[W T] C] _ (Wl & Tl & Cl)]; [done|]. cbn. rewrite T, Tl. split_and!; by constructor. }
    assert (∀ tc, Forall (λ w, Ok tc = Ok (value_type w)) vs → Forall (created tc) cs) as Hsame.
    { clear -HF. intros tc. induction HF as [|v s vs cs [C _] _ IH]; intros H; [done|].
      apply Forall_cons in H as [[= ->] H]. constructor; auto. }
    destruct (GetStatsType t) eqn:Hg; try done.
    + destruct (list_child_type t) as [tc|] eqn:Htc.
      2: { destruct (proj1 (nested_child_type t Hok) Hg). congruence. }
      destruct (elements_constant t tc vs cs Hok) as (s & c0 & r & c & -> & Ec & Hm & C & V); [auto | auto | done |].
      cbn [mbind result_bind]. rewrite Ec, Hm. by apply Hfin.
    + destruct (fields_constant t vs cs Hok Hg) as (s & -> & Hset & C & V); [by rewrite Tcs | done | done |].
      cbn [mbind result_bind]. unfold StructType_GetChildCount. rewrite Hk. cbn [mbind result_bind].
      rewrite <- Tcs, length_fmap, Nat.ltb_irrefl, firstn_all, Hset. by apply Hfin.
    + destruct (array_child_type t) as [tc|] eqn:Htc.
      2: { destruct (proj2 (nested_child_type t Hok) Hg). congruence. }
      destruct (elements_constant t tc vs cs Hok) as (s & c0 & r & c & -> & Ec & Hm & C & V); [auto | auto | done |].
      cbn [mbind result_bind]. rewrite Ec, Hm. by apply Hfin.
Qed.

(** * The unknown statistics *)

Lemma unknown_str_covers t b : str_ok b → str_covers t (mkStr (replicate 8 0) (replicate 8 0xFF) true false 0) b.
Proof.
  intros [Hb _]. destruct (ConstructValue_array b Hb) as [Hl Ho].
  pose proof (str_key_range _ Ho) as Hr. rewrite Hl in Hr.
  assert (256 ^ Z.of_nat MAX_STRING_MINMAX_SIZE = 2 ^ 64) as Hp by reflexivity. rewrite Hp in Hr.
  assert (str_key (replicate 8 0) = 0) as H0 by reflexivity.
  assert (str_key (replicate 8 0xFF) = 2 ^ 64 - 1) as H1 by reflexivity.
  split; cbn [str_min str_max has_max_string_length has_unicode]; [rewrite H0; lia | rewrite H1; lia | done | done].
Qed.

Definition covers_type (t : LogicalType) (s : BaseStatistics) : Prop :=
  ∀ v, value_ok v → value_type v = t → covers s v.

Lemma CreateUnknown_leaf_covers t s : type_ok t → leaf_type t → CreateUnknown t = Ok s → covers_type t s.
Proof.
  intros Hok Hl. rewrite CreateUnknown_leaf by done.
  destruct (Construct_leaf t Hok Hl) as (n & nn & d & u & ->). cbn [mbind result_bind]. intros H v Hv Tv.
  assert (∀ t' vs, v = V_nested t' vs → False) as Hnest.
  { intros t' vs ->. cbn [value_ok value_type] in *. subst t'. destruct Hv as (_ & Hk & _).
    by destruct Hl as [Hg|[Hg|Hg]]; rewrite Hg in Hk. }
  destruct Hl as [Hk|[Hk|Hk]]; rewrite Hk in H.
  - destruct (CreateUnknown_view (mkStats t n nn d u []) Hk) as (s0 & Hs0 & V & w & ->). rewrite Hs0 in H.
    cbn [mbind result_bind InitializeUnknown set_validity set_union] in H. injection H as <-.
    cbn [InitializeUnknown set_validity set_union stats_type] in V.
    destruct v as [tv|tv uv|tv b|tv vs]; cbn [covers]; [done| | |by destruct (Hnest tv vs)]; (split; [done|]).
    + intros _ lo hi x Vl _. destruct (numeric_view_unique _ _ _ _ _ _ V Vl) as [<- <-]. apply in_unknown.
    + congruence.
  - injection H as <-. destruct v as [tv|tv uv|tv b|tv vs]; cbn; [done| | |by destruct (Hnest tv vs)]; (split; [done|]).
    + congruence.
    + intros _ d0 [= <-]. apply unknown_str_covers. by destruct Hv as (_ & _ & ? & _).
  - injection H as <-. destruct v as [tv|tv uv|tv b|tv vs]; cbn; [done| | |by destruct (Hnest tv vs)]; (split; [done|]); congruence.
Qed.

Lemma created_children_cover (cs : list (string * LogicalType)) l vs :
  Forall (λ c, type_ok c.2 → ∀ s, CreateUnknown c.2 = Ok s → covers_type c.2 s) cs → Forall (λ c, type_ok c.2) cs →
  mapR (λ c : string * LogicalType, CreateUnknown c.2) cs = Ok l →
  Forall value_ok vs → cs.*2 = value_type <$> vs → zipP covers l vs.
Proof.
  intros IH Hok. revert l vs. induction cs as [|c cs IHc]; intros l vs Hl Hv E; [by injection Hl as <-|].
  apply Forall_cons in IH as [IHx IH], Hok as [Hc Hok]. cbn in Hl.
  apply bind_Ok_inv in Hl as (x & Hx & Hl). apply bind_Ok_inv in Hl as (l' & Hl & [= <-]).
  destruct vs as [|v vs]; [done|]. apply Forall_cons in Hv as [Hv Hvs]. injection E as Ev E.
  split; [by apply (IHx Hc x) | by apply IHc].
Qed.

Lemma CreateUnknown_covers t s : type_ok t → CreateUnknown t = Ok s → covers_type t s.
Proof.
  revert s. induction t as [i|w sc|d|c IH|c IH|cs IH|cs IH|c n IH] using LogicalType_ind'; intros s Hok Hs.
  1: apply CreateUnknown_leaf_covers; [done | by apply LT_leaf | done].
  1: destruct (decimal_kind w sc) as [?|?]; apply CreateUnknown_leaf_covers; unfold leaf_type; auto.
  1: destruct (enum_kind d) as [?|?]; apply CreateUnknown_leaf_covers; unfold leaf_type; auto.
  all: cbn [CreateUnknown] in Hs.
  1,2,5: destruct (CreateUnknown_ok c Hok) as (x & Hx & W & T); rewrite Hx in Hs; cbn [mbind result_bind] in Hs;
         (edestruct (ListStats_Create_ok InitializeUnknown) as (r & Hr & Wr & Tr & Cr);
          [by left | exact Hok | exact W | first [left; split; [done|]; cbn; by rewrite T | right; split; [done|]; cbn; by rewrite T]|]);
         rewrite Hr in Hs; injection Hs as <-; destruct r as [t1 n1 nn1 d1 u1 c1];
         cbn [stats_type child_stats] in Tr, Cr; subst t1 c1;
         intros v Hv Tv; destruct v as [tv|tv uv|tv b|tv vs]; cbn [value_type] in Tv; subst tv;
         [done | by split | by split |]; (split; [done|]); cbn;
         destruct Hv as (_ & Hty & Hvs%value_ok_children); cbn in Hty; eapply Forall_impl;
         [exact (proj2 (Forall_and _ _) (conj Hty Hvs)) | intros w [[= Ew] Hw]; apply (IH x Hok Hx w Hw); congruence].
  all: destruct (children_created CreateUnknown cs) as (l & Hl & Wl & El);
         [apply Forall_forall; intros; by apply CreateUnknown_ok | by apply type_ok_children|];
       rewrite Hl in Hs; cbn [mbind result_bind] in Hs;
       (edestruct (StructStats_Create_ok InitializeUnknown) as (r & Hr & Wr & Tr & Cr);
        [by left | exact Hok | exact Wl | done | cbn; by rewrite El|]);
       rewrite Hr in Hs; injection Hs as <-; destruct r as [t1 n1 nn1 d1 u1 c1];
       cbn [stats_type child_stats] in Tr, Cr; subst t1 c1;
       intros v Hv Tv; destruct v as [tv|tv uv|tv b|tv vs]; cbn [value_type] in Tv; subst tv;
       [done | by split | by split |]; (split; [done|]); cbn;
       destruct Hv as (_ & Hty & Hvs%value_ok_children); injection Hty as Hty;
       eapply created_children_cover; [| by apply type_ok_children | exact Hl | done | done];
       eapply Forall_impl; [exact IH | intros ? Hc ? ? ?; by apply Hc].
Qed.
