(* ===== verification/StatsProps.v ===== *)
(** Serialization of column statistics, which yields equivalent statistics when it
    is read back: equivalence compares what the statistics say, and ignores the
    data of absent bounds and of nodes without data of their own.  Then the
    correctness theorems of column statistics: what they say stays true under
    every operation, and the pruning answers they give are sound. *)
From S2P Require Import Prelude Bits SelectionVector ColumnSketch SketchFacts SketchAvx SketchProps Types Stats NumericStats NumericFacts StringStats BaseStatistics StatsFacts.
From S2P Require Import StatsCreate.

(** * Equivalent statistics *)

(** The interval of the data [u] of a column of type [t]. *)
Definition data_view (t : LogicalType) (u : stats_data) (lo hi : option Z) : Prop :=
  numeric_view (mkStats t false false 0 u []) (InternalType t) lo hi.

Definition data_equiv (t : LogicalType) (u u' : stats_data) : Prop :=
  match GetStatsType t with
  | NUMERIC_STATS => ∀ lo hi, data_view t u lo hi ↔ data_view t u' lo hi
  | STRING_STATS => u = u'
  | _ => True
  end.

Inductive stats_equiv : BaseStatistics → BaseStatistics → Prop :=
  | stats_equiv_node t n nn d u u' c c' :
      data_equiv t u u' → Forall2 stats_equiv c c' → stats_equiv (mkStats t n nn d u c) (mkStats t n nn d u' c').

#[export] Instance BaseStatistics_equiv : Equiv BaseStatistics := stats_equiv.

#[export] Instance data_equiv_equivalence t : Equivalence (data_equiv t).
Proof.
  unfold data_equiv. split.
  - intros u. by destruct (GetStatsType t).
  - intros u u'. by destruct (GetStatsType t).
  - intros u u' u''. destruct (GetStatsType t); try congruence; try done. intros H H' lo hi. by rewrite H.
Qed.

#[export] Instance stats_equiv_equivalence : Equivalence (≡@{BaseStatistics}).
Proof.
  split.
  - intros s. induction s as [t n nn d u c IH] using BaseStatistics_ind'. constructor; [done|].
    induction IH; constructor; done.
  - intros s. induction s as [t n nn d u c IH] using BaseStatistics_ind'. intros s' H.
    inversion H as [? ? ? ? ? u' ? c' Hd Hc]; subst. constructor; [done|]. clear -IH Hc.
    induction Hc as [|x y c c' Hx _ IHc]; constructor; apply Forall_cons in IH as [IHx IH]; [by apply IHx | by apply IHc].
  - intros s. induction s as [t n nn d u c IH] using BaseStatistics_ind'. intros s' s'' H H'.
    inversion H as [? ? ? ? ? u' ? c' Hd Hc]; subst. inversion H' as [? ? ? ? ? u'' ? c'' Hd' Hc']; subst.
    constructor; [by etrans|]. clear -IH Hc Hc'. revert c'' Hc'.
    induction Hc as [|x y c c' Hx _ IHc]; intros c'' Hc'; inversion Hc' as [|? z ? c3 Hz Hc3]; subst; constructor;
      apply Forall_cons in IH as [IHx IH]; [by eapply IHx | by apply IHc].
Qed.

Lemma equiv_covers s s' v : s ≡ s' → covers s v → covers s' v.
Proof.
  revert s' v. induction s as [t n nn d u c IH] using BaseStatistics_ind'. intros s' v H.
  inversion H as [? ? ? ? ? u' ? c' Hd Hc]; subst.
  assert (Forall2 (λ x x', ∀ w, covers x w → covers x' w) c c') as HF.
  { clear -IH Hc. induction Hc as [|x y c c' Hx _ IHc]; constructor; apply Forall_cons in IH as [IHx IH]; [intros w; by apply IHx | by apply IHc]. }
  unfold data_equiv in Hd. destruct v as [tv|tv uv|tv b|tv vs]; cbn [covers]; [done| | |]; intros [H1 H2]; (split; [done|]).
  - intros Hk lo hi x V Hx. rewrite Hk in Hd. eapply (H2 Hk lo hi x); [|done].
    assert (data_view t u' lo hi) as V' by (by eapply numeric_view_ext, V). rewrite <- Hd in V'.
    by eapply numeric_view_ext, V'.
  - intros Hk e He. rewrite Hk in Hd. subst u'. by apply H2.
  - destruct (GetStatsType t); try done; [| by eapply zipP_impl |];
      (destruct HF as [|x x' c c' Hx HF]; [done|]; eapply Forall_impl; [exact H2 | done]).
Qed.

(** Equivalent statistics allow the same values. *)
#[export] Instance covers_proper : Proper ((≡) ==> (=) ==> iff) covers.
Proof. intros s s' H v ? <-. split; apply equiv_covers; [done | by symmetry]. Qed.

(** * The round trip *)

Definition roundtrips (s : BaseStatistics) : Prop :=
  ∃ o s', Serialize s = Ok o ∧ Deserialize (stats_type s) o = Ok s' ∧ shaped s' ∧ s ≡ s'.

Lemma equiv_type s s' : s ≡ s' → stats_type s' = stats_type s.
Proof. by destruct 1. Qed.

Lemma as_bool_S_bool b : as_bool (S_bool b) = Ok b.
Proof. by destruct b. Qed.
Lemma as_num_S_num pt x : as_num pt (S_num pt x) = Ok x.
Proof. unfold as_num. by rewrite bool_decide_true. Qed.

Ltac read_step := cbn [as_object read_prop Z.eqb Pos.eqb mbind result_bind as_list as_bytes]; rewrite ?as_bool_S_bool, ?as_num_S_num.

(** What is read before the statistics of the type. *)
Lemma Deserialize_head t n nn d obj s0 :
  Construct t = Ok s0 →
  Deserialize t (S_object [(100, "has_null"%string, S_bool n); (101, "has_no_null"%string, S_bool nn);
                           (102, "distinct_count"%string, S_num UINT64 d); (103, "type_stats"%string, S_object obj)]) =
  let s := SetDistinctCount (set_validity s0 n nn) d in
  let child c :=
    '(b, _) ← read_prop 200 obj;
    stat ← Deserialize c b;
    match child_stats s with
    | c0 :: r => c0' ← Copy c0 stat; Ok (set_children s (c0' :: r))
    | [] => no_child
    end in
  match t with
  | LT_LIST c | LT_MAP c | LT_ARRAY c _ => child c
  | LT_STRUCT cs | LT_UNION cs =>
      '(b, _) ← read_prop 200 obj;
      l ← as_list b;
      stats ← (fix go cs (l : list serialized) {struct cs} :=
                 match cs, l with
                 | _, [] => Ok []
                 | (_, c) :: cs', x :: l' => x' ← Deserialize c x; r' ← go cs' l'; Ok (x' :: r')
                 | [], _ :: _ => no_child
                 end) cs l;
      c ← copy_children (child_stats s) stats;
      Ok (set_children s c)
  | _ =>
      match GetStatsType t with
      | NUMERIC_STATS => NumericStats_Deserialize obj s
      | STRING_STATS => StringStats_Deserialize obj s
      | _ => Ok s
      end
  end.
Proof.
  intros H. destruct t; cbn [Deserialize]; do 4 read_step; rewrite H; do 2 read_step; reflexivity.
Qed.

(** The fields of a struct are read back one by one. *)
Lemma fields_roundtrip (cs : list (string * LogicalType)) (c : list BaseStatistics) :
  Forall roundtrips c → cs.*2 = stats_type <$> c →
  ∃ l c', mapR Serialize c = Ok l ∧
    (fix go cs (l : list serialized) {struct cs} :=
       match cs, l with
       | _, [] => Ok []
       | (_, c) :: cs', x :: l' => x' ← Deserialize c x; r' ← go cs' l'; Ok (x' :: r')
       | [], _ :: _ => no_child
       end) cs l = Ok c' ∧ Forall shaped c' ∧ Forall2 stats_equiv c c'.
Proof.
  revert cs. induction c as [|x c IH]; intros [|[nm t] cs] HF E; try done; [by exists [], []|].
  apply Forall_cons in HF as [(o & x' & Ho & Hx' & Sx & Ex) HF]. injection E as -> E.
  destruct (IH cs HF E) as (l & c' & Hl & Hc' & Sc & Ec).
  exists (o :: l), (x' :: c'). cbn. rewrite Ho. cbn. rewrite Hl, Hx'. cbn. rewrite Hc'. split_and!; [done | done | by constructor | by constructor].
Qed.

Lemma equiv_types c c' : Forall2 stats_equiv c c' → stats_type <$> c' = stats_type <$> c.
Proof. induction 1 as [|x y c c' Hx _ IH]; [done|]. cbn. by rewrite IH, (equiv_type x y). Qed.

Lemma leaf_roundtrip t n nn d u :
  stats_wf (mkStats t n nn d u []) → type_ok t → leaf_type t → roundtrips (mkStats t n nn d u []).
Proof.
  intros W Hok Hl. destruct (Construct_leaf t Hok Hl) as (n0 & nn0 & d0 & u0 & HC).
  assert (∀ u', shaped (mkStats t n nn d u' [])) as Hsh.
  { intros u'. split; [|done]. unfold node_shape. cbn. by destruct Hl as [-> |[-> | ->]]. }
  assert (∀ o, Deserialize t (S_object [(100, "has_null"%string, S_bool n); (101, "has_no_null"%string, S_bool nn);
                           (102, "distinct_count"%string, S_num UINT64 d); (103, "type_stats"%string, S_object o)]) =
    match GetStatsType t with
    | NUMERIC_STATS => NumericStats_Deserialize o (mkStats t n nn d u0 [])
    | STRING_STATS => StringStats_Deserialize o (mkStats t n nn d u0 [])
    | _ => Ok (mkStats t n nn d u0 [])
    end) as HD.
  { intros o. rewrite (Deserialize_head _ _ _ _ _ _ HC). destruct t; try (destruct Hl as [Hk|[Hk|Hk]]; discriminate Hk); done. }
  apply stats_wf_eq in W as [[_ Hd] _]. unfold node_data in Hd. unfold roundtrips. cbn [stats_type Serialize] in *.
  destruct Hl as [Hk|[Hk|Hk]]; rewrite Hk in *.
  - destruct Hd as (lo & hi & V).
    destruct (Serialize_view _ (mkStats t n nn d u0 []) _ _ _ V eq_refl) as (o & s' & -> & Hs' & V' & u' & ->).
    cbn [mbind result_bind set_union]. eexists _, _. split; [done|]. rewrite HD. split_and!; [exact Hs' | apply Hsh |].
    constructor; [|done]. unfold data_equiv. rewrite Hk. intros l h.
    assert (data_view t u lo hi) as D by (by eapply numeric_view_ext, V).
    assert (data_view t u' lo hi) as D' by (by eapply numeric_view_ext, V').
    split; intros D''; [destruct (numeric_view_unique _ _ _ _ _ _ D D'') as [<- <-] |
                        destruct (numeric_view_unique _ _ _ _ _ _ D' D'') as [<- <-]]; done.
  - destruct Hd as (e & Eu & _). cbn in Eu. subst u. cbn [StringStats_Serialize str_data stats_union mbind result_bind].
    eexists _, _. split; [done|]. rewrite HD. split_and!; [| exact (Hsh (D_string e)) | by constructor].
    unfold StringStats_Deserialize. do 6 read_step. by destruct e.
  - cbn [mbind result_bind]. eexists _, _. split; [done|]. rewrite HD. split_and!; [done | apply Hsh |].
    constructor; [|done]. unfold data_equiv. by rewrite Hk.
Qed.

(** Statistics with one child. *)
Lemma child_roundtrip t tc n nn d u x :
  type_ok t → (t = LT_LIST tc ∨ t = LT_MAP tc ∨ ∃ k, t = LT_ARRAY tc k) → stats_type x = tc → roundtrips x →
  roundtrips (mkStats t n nn d u [x]).
Proof.
  intros Hok Ht Tx (o & x' & Ho & Hx' & Sx & Ex). rewrite Tx in Hx'.
  destruct (Construct_shaped t Hok) as ([t0 n0 nn0 d0 u0 c0] & HC & HS & T0). cbn [stats_type] in T0. subst t0.
  unfold shaped in HS. rewrite all_nodes_eq in HS. destruct HS as [Hn Hc]. unfold node_shape in Hn. cbn [stats_type child_stats] in *.
  assert (∃ y, c0 = [y] ∧ stats_type y = tc) as (y & -> & Ty).
  { destruct Ht as [->|[->|[k ->]]]; cbn in Hn; destruct Hn as (y & -> & [= E]); by exists y. }
  apply Forall_cons in Hc as [Hy _].
  assert (Copy y x' = Ok x') as HCp by (apply Copy_shaped; [done | done | rewrite (equiv_type x x' Ex); congruence]).
  exists (S_object [(100, "has_null"%string, S_bool n); (101, "has_no_null"%string, S_bool nn);
                    (102, "distinct_count"%string, S_num UINT64 d);
                    (103, "type_stats"%string, S_object [(200, "child_stats"%string, o)])]), (mkStats t n nn d u0 [x']).
  assert (GetStatsType t = LIST_STATS ∧ list_child_type t = Ok tc ∨ GetStatsType t = ARRAY_STATS ∧ array_child_type t = Ok tc) as Hk
    by (destruct Ht as [->|[->|[k ->]]]; auto).
  split_and!.
  - cbn [Serialize]. destruct Hk as [[-> _]|[-> _]]; by rewrite Ho.
  - cbn [stats_type]. rewrite (Deserialize_head _ _ _ _ _ _ HC).
    destruct Ht as [->|[->|[k ->]]]; cbn [SetDistinctCount set_validity child_stats set_children]; read_step; rewrite Hx';
      cbn [mbind result_bind]; by rewrite HCp.
  - unfold shaped. rewrite all_nodes_eq. cbn [child_stats]. split; [|by constructor].
    assert (stats_type x' = tc) as Tx' by (by rewrite (equiv_type x x' Ex)).
    unfold node_shape. cbn [stats_type child_stats]. destruct Hk as [[-> E]|[-> E]]; exists x'; by rewrite Tx'.
  - constructor; [|by constructor]. unfold data_equiv. by destruct Hk as [[-> _]|[-> _]].
Qed.

(** Statistics with one child per field. *)
Lemma struct_roundtrip t cs n nn d u c :
  type_ok t → (t = LT_STRUCT cs ∨ t = LT_UNION cs) → cs.*2 = stats_type <$> c → Forall roundtrips c →
  roundtrips (mkStats t n nn d u c).
Proof.
  intros Hok Ht Tc HF. destruct (fields_roundtrip cs c HF Tc) as (l & c' & Hl & Hc' & Sc & Ec).
  destruct (Construct_shaped t Hok) as ([t0 n0 nn0 d0 u0 c0] & HC & HS & T0). cbn [stats_type] in T0. subst t0.
  unfold shaped in HS. rewrite all_nodes_eq in HS. destruct HS as [Hn Hcs]. unfold node_shape in Hn. cbn [stats_type child_stats] in *.
  assert (GetStatsType t = STRUCT_STATS ∧ struct_child_types t = Ok (cs.*2)) as [Hk Hct] by (by destruct Ht as [-> | ->]).
  rewrite Hk, Hct in Hn. injection Hn as Hn.
  assert (copy_children c0 c' = Ok c') as HCp
    by (apply copy_children_shaped; [done | done | rewrite (equiv_types c c' Ec); congruence]).
  exists (S_object [(100, "has_null"%string, S_bool n); (101, "has_no_null"%string, S_bool nn);
                    (102, "distinct_count"%string, S_num UINT64 d);
                    (103, "type_stats"%string, S_object [(200, "child_stats"%string, S_list l)])]), (mkStats t n nn d u0 c').
  split_and!.
  - cbn [Serialize]. rewrite Hk. unfold StructType_GetChildCount. rewrite Hct. cbn [mbind result_bind].
    rewrite Tc, length_fmap, mapR_n_all, Hl. done.
  - cbn [stats_type]. rewrite (Deserialize_head _ _ _ _ _ _ HC).
    destruct Ht as [->| ->]; cbn [SetDistinctCount set_validity child_stats set_children]; do 2 read_step; rewrite Hc';
      cbn [mbind result_bind]; by rewrite HCp.
  - unfold shaped. rewrite all_nodes_eq. cbn [child_stats]. split; [|done].
    unfold node_shape. cbn [stats_type child_stats]. rewrite Hk, Hct, (equiv_types c c' Ec). congruence.
  - constructor; [|done]. unfold data_equiv. by rewrite Hk.
Qed.

Lemma Serialize_roundtrips s : stats_wf s → type_ok (stats_type s) → roundtrips s.
Proof.
  induction s as [t n nn d u c IH] using BaseStatistics_ind'; intros W Hok. pose proof W as W0.
  apply stats_wf_eq in W0 as [[Hs _] Wc]. unfold node_shape in Hs. cbn [stats_type child_stats] in *.
  assert (leaf_type t → roundtrips (mkStats t n nn d u c)) as Hleaf.
  { intros Hl. assert (c = []) as -> by (by destruct Hl as [Hk|[Hk|Hk]]; rewrite Hk in Hs). by apply leaf_roundtrip. }
  destruct t as [i|w sc|dd|tc|tc|cs|cs|tc k].
  1: apply Hleaf, LT_leaf, Hok.
  1: apply Hleaf; unfold leaf_type; destruct (decimal_kind w sc); auto.
  1: apply Hleaf; unfold leaf_type; destruct (enum_kind dd); auto.
  1,2,5: cbn in Hs; destruct Hs as (x & -> & [= E]); apply Forall_cons in IH as [IH _], Wc as [Wx _];
       apply (child_roundtrip _ tc); [done | eauto | done | apply IH; [done | by rewrite <- E]].
  all: cbn in Hs; injection Hs as Hs; apply (struct_roundtrip _ cs); [done | auto | done |];
       apply type_ok_children in Hok; apply Forall_lookup; intros i x Hx;
       rewrite Forall_lookup in IH, Wc; apply (IH i x Hx (Wc i x Hx));
       assert (cs.*2 !! i = Some (stats_type x)) as Hi by (by rewrite Hs, list_lookup_fmap, Hx);
       rewrite list_lookup_fmap in Hi; destruct (cs !! i) as [ct|] eqn:Hct; [|done]; injection Hi as <-;
       by eapply Forall_lookup_1 in Hok.
Qed.

(** * Helpers *)

(** Statistics of an integer column with the interval [lo, hi], for the worked
    examples. *)
Definition int_stats (n nn : bool) (lo hi : Z) : BaseStatistics :=
  mkStats (LT INTEGER) n nn 0 (D_numeric (mkNum true true (Some (INT32, lo)) (Some (INT32, hi)))) [].

Lemma int_stats_view n nn lo hi : numeric_view (int_stats n nn lo hi) INT32 (Some lo) (Some hi).
Proof. split; [done | done |]. exists (Some (INT32, lo)), (Some (INT32, hi)). split_and!; [done | by intros ? [= ->] | by intros ? [= ->]]. Qed.

Lemma int_stats_wf n nn lo hi : stats_wf (int_stats n nn lo hi).
Proof.
  apply stats_wf_eq. split; [|done]. split; [done|]. exists (Some lo), (Some hi). apply int_stats_view.
Qed.

Lemma int_stats_covers n lo hi x : lo ≤ x ≤ hi → covers (int_stats n true lo hi) (V_num (LT INTEGER) (INT32, x)).
Proof.
  intros H. eapply covers_intro; [apply int_stats_view | done|]. split; intros ? [= <-]; cbn; lia.
Qed.

Definition empty_string_stats : BaseStatistics :=
  mkStats (LT VARCHAR) false true 0 (D_string (mkStr (replicate 8 0xFF) (replicate 8 0) false true 0)) [].

(** * Pruning *)

(** C6.  A zone map never prunes wrongly: for statistics of a numeric column
    that cover a value, the answer of [NumericStats::CheckZonemap] for any of
    the six comparisons with a non-NULL constant of the column's physical type
    agrees with the comparison of the value: always true only if it holds,
    always false only if it does not.  The call returns normally. *)
Theorem numeric_zonemap_sound (s : BaseStatistics) (cmp : ExpressionType) (t t' : LogicalType) (c v : Z) (b : bool) :
  stats_wf s → GetStatsType (stats_type s) = NUMERIC_STATS → zonemap_type (InternalType (stats_type s)) = true →
  covers s (V_num t (InternalType (stats_type s), v)) →
  comparison cmp (InternalType (stats_type s)) v c = Some b →
  ∃ r, NumericStats_CheckZonemap s cmp (V_num t' (InternalType (stats_type s), c)) = Ok r ∧ prune_ok r b.
Proof.
  intros W Hk Hz Hv Hb. apply stats_wf_eq in W as [[_ Hd] _]. unfold node_data in Hd. rewrite Hk in Hd.
  destruct Hd as (lo & hi & V). eapply CheckZonemap_view; [exact V | done | by eapply covers_interval | done].
Qed.

Lemma numeric_zonemap_sound_witness :
  ∃ r, NumericStats_CheckZonemap (int_stats false true 10 20) COMPARE_GREATERTHAN (V_num (LT INTEGER) (INT32, 25)) = Ok r ∧
       prune_ok r false.
Proof.
  apply (numeric_zonemap_sound (int_stats false true 10 20) COMPARE_GREATERTHAN (LT INTEGER) (LT INTEGER) 25 15 false);
    [apply int_stats_wf | reflexivity | reflexivity | apply int_stats_covers; lia | reflexivity].
Defined.

(** C37.  String zone maps never prune wrongly, although only the first eight
    bytes of the extreme strings are kept. *)
Theorem string_zonemap_prunes_soundly (s : BaseStatistics) (cmp : ExpressionType) (t : LogicalType) (c v : list Z) (b : bool) :
  stats_wf s → GetStatsType (stats_type s) = STRING_STATS → bytes_ok c → str_ok v →
  covers s (V_string t v) → string_comparison cmp v c = Some b →
  ∃ r, StringStats_CheckZonemap s cmp c = Ok r ∧ prune_ok r b.
Proof.
  intros W Hk Hc Hv Hcov Hb. apply stats_wf_eq in W as [[_ Hd] _]. unfold node_data in Hd. rewrite Hk in Hd.
  destruct Hd as (d & Hu & Wd). destruct s as [ts n nn dc u cs]. cbn [stats_type stats_union covers] in *.
  destruct Hcov as [_ Hcov]. eapply string_zonemap_sound; [exact Hu | done | done | done | by apply Hcov | done].
Qed.

Lemma string_zonemap_prunes_soundly_witness :
  let s := mkStats (LT VARCHAR) false true 0 (D_string (mkStr (replicate 8 97) (replicate 8 110) false true 9)) [] in
  ∃ r, StringStats_CheckZonemap s COMPARE_EQUAL [120; 121] = Ok r ∧ prune_ok r false.
Proof.
  apply (string_zonemap_prunes_soundly _ COMPARE_EQUAL (LT VARCHAR) [120; 121] [99; 97; 116] false).
  - apply stats_wf_eq. split; [|done]. split; [done|]. eexists. split; [reflexivity|].
    split; [split; [done|] | split; [done|] | cbn; lia]; apply Forall_replicate; lia.
  - reflexivity.
  - repeat constructor; lia.
  - split; [repeat constructor; lia | cbn; lia].
  - split; [done|]. intros _ d [= <-]. split; vm_compute; (reflexivity || discriminate || done).
  - reflexivity.
Defined.

(** ** Sketches *)

Lemma row_ids_all_iff P base : length (row_ids P base) = length base ↔ ∀ b, b ∈ base → P b = true.
Proof.
  split; [|intros H; by rewrite (row_ids_all _ _ H), length_seq].
  intros H b [i Hb]%list_elem_of_lookup. unfold row_ids in H.
  destruct (P b) eqn:HP; [done|]. exfalso.
  enough (length (filter (λ i, from_option P false (base !! i)) (seq 0 (length base))) < length (seq 0 (length base)))%nat
    by (rewrite length_seq in *; lia).
  apply (length_filter_lt _ _ i); [apply elem_of_seq; apply lookup_lt_Some in Hb; lia|].
  rewrite Hb. cbn [from_option]. rewrite HP. by intros [].
Qed.

Lemma row_ids_none_iff P base : length (row_ids P base) = 0%nat ↔ ∀ b, b ∈ base → P b = false.
Proof.
  split; [|intros H; by rewrite (row_ids_none _ _ H)].
  intros H b [i Hb]%list_elem_of_lookup. apply nil_length_inv in H. destruct (P b) eqn:HP; [|done]. exfalso.
  assert (i ∈ row_ids P base) as Hi.
  { apply list_elem_of_filter. rewrite Hb. cbn. rewrite HP. split; [done|]. apply elem_of_seq. apply lookup_lt_Some in Hb. lia. }
  rewrite H in Hi. by apply elem_of_nil in Hi.
Qed.

(** The pruning answer of an exact evaluation. *)
Lemma sketch_result_exact P base r msel :
  (0 < length base)%nat → r.1 = Z.of_nat (length (row_ids P base)) → r = (0, msel) ∨ answers r (row_ids P base) →
  let q := sketch_result r.1 (length base) in
  (q = FILTER_ALWAYS_TRUE ↔ ∀ b, b ∈ base → P b = true) ∧ (q = FILTER_ALWAYS_FALSE ↔ ∀ b, b ∈ base → P b = false) ∧
  (q ≠ FILTER_ALWAYS_FALSE → answers r (row_ids P base)).
Proof.
  intros Hne Hr Ha. cbv zeta. rewrite <- (row_ids_all_iff P base), <- (row_ids_none_iff P base). unfold sketch_result. rewrite Hr.
  assert (length (row_ids P base) ≠ 0%nat → answers r (row_ids P base)) as Hans.
  { destruct Ha as [->|Ha]; [|done]. cbn in Hr. lia. }
  destruct (Z.eqb_spec (Z.of_nat (length (row_ids P base))) 0), (Z.eqb_spec (Z.of_nat (length (row_ids P base))) (Z.of_nat (length base)));
    cbn [negb]; split_and!; try (split; intros; (done || lia)); try done; intros _; apply Hans; lia.
Qed.

(** The row tests a sketch check can decide for the constant [c]. *)
Definition sketch_test (cmp : ExpressionType) (c : Z) : option (Z → bool) :=
  match cmp with
  | COMPARE_LESSTHAN => Some (λ b, b <? c)
  | COMPARE_LESSTHANOREQUALTO => Some (λ b, b <=? c)
  | COMPARE_GREATERTHAN => Some (λ b, c <? b)
  | COMPARE_GREATERTHANOREQUALTO => if 0 <? c then Some (λ b, c <=? b) else None
  | _ => None
  end.

(** The evaluation a check runs. *)
Lemma sketch_check_evaluates W base cs cmp c P t index sketches sels sk msel :
  W = 32 ∨ W = 64 → Z.of_nat (length base) ≤ 32767 → sketch_ok 8 base cs → need_check_base cs = true →
  dynamic_cast_sketch W sk = Some cs → sketches !! index = Some (Some sk) → sels !! index = Some msel →
  0 ≤ c < 2 ^ (W - 1) → sketch_test cmp c = Some P →
  ∃ r, CheckSketchTemplated W cmp (V_num t (if W =? 32 then INT32 else INT64, c)) index sketches sels =
         Ok (sketch_result r.1 (length base), <[index := r.2]> sels) ∧
       r.1 = Z.of_nat (length (row_ids P base)) ∧ (r = (0, msel) ∨ answers r (row_ids P base)) ∧
       ∃ ops x, evaluate_avx512 ops cs x msel = Ok r.
Proof.
  intros HW Hlen Hok Hcheck Hcast Hsk Hsel Hc HP.
  pose proof (λ x, less_than_exact base cs Hok ltac:(lia) x msel (or_introl Hcheck)) as Hlt.
  pose proof (λ x, greater_than_exact base cs Hok ltac:(lia) x msel (or_introl Hcheck)) as Hgt.
  assert (2 ^ W = 2 * 2 ^ (W - 1)) as Hpow by (destruct HW as [-> | ->]; reflexivity).
  assert (∀ k, 0 ≤ k < 2 ^ W → wrapu W k = k) as Hwrap by (intros; by apply wrapu_small).
  unfold CheckSketchTemplated. cbn [GetValueUnsafe]. unfold union_get. cbn [fst snd]. rewrite bool_decide_true by done.
  cbn [mbind result_bind]. rewrite (vget_lookup _ _ _ Hsk), (vget_lookup _ _ _ Hsel). cbn [mbind result_bind option_bind].
  rewrite Hcast, (Hwrap c), (sk_base _ _ _ Hok) by lia. destruct cmp; try done; cbn [sketch_test] in HP.
  - injection HP as <-. destruct (Hlt c) as ([cnt m] & He & H1 & H2). exists (cnt, m). rewrite He. split_and!; [done | done | done | exists less_than_ops, c; exact He].
  - injection HP as <-. destruct (Hgt c) as ([cnt m] & He & H1 & H2). exists (cnt, m). rewrite He. split_and!; [done | done | done | exists greater_than_ops, c; exact He].
  - injection HP as <-. rewrite (Hwrap (c + 1)) by lia. destruct (Hlt (c + 1)) as ([cnt m] & He & H1 & H2).
    assert (row_ids (λ b, b <? c + 1) base = row_ids (λ b, b <=? c) base) as E by (apply row_ids_ext; intros; lia).
    exists (cnt, m). rewrite He, <- E. split_and!; [done | done | done | exists less_than_ops, (c + 1); exact He].
  - destruct (Z.ltb_spec 0 c); [|done]. injection HP as <-. rewrite (Hwrap (c - 1)) by lia.
    destruct (Hgt (c - 1)) as ([cnt m] & He & H1 & H2).
    assert (row_ids (λ b, c - 1 <? b) base = row_ids (λ b, c <=? b) base) as E by (apply row_ids_ext; intros; lia).
    exists (cnt, m). rewrite He, <- E. split_and!; [done | done | done | exists greater_than_ops, (c - 1); exact He].
Qed.

(** C31.  A check of a column sketch prunes soundly and leaves the exact
    selection, for the comparisons [<], [<=], [>] and [>=]: for a sketch of 32- or
    64-bit values, of at least one and at most 32767 rows, that consults the base
    data, and a constant [c] with [0 <= c < 2^(W-1)] (positive for [>=]), the check
    returns always true exactly when every row of the segment matches, always false
    exactly when none does, and otherwise the selection of the segment (and of no
    other) becomes the one of the matching rows.  For [=] and [<>] it answers that
    nothing can be pruned and leaves all selections as they were, so that the one
    of the segment may be that of an earlier filter. *)
Theorem sketch_check_sound (W : Z) (base : list Z) (cs : ColumnSketch) (sk : BaseColumnSketch) (cmp : ExpressionType)
    (c : Z) (t : LogicalType) (index : nat) (sketches : list (option BaseColumnSketch))
    (sels : list ManagedSelection) (msel : ManagedSelection) :
  W = 32 ∨ W = 64 → (0 < length base)%nat → Z.of_nat (length base) ≤ 32767 →
  ColumnSketch_new 8 base = Ok cs → need_check_base cs = true → dynamic_cast_sketch W sk = Some cs →
  sketches !! index = Some (Some sk) → sels !! index = Some msel → 0 ≤ c < 2 ^ (W - 1) →
  let check := CheckSketchTemplated W cmp (V_num t (if W =? 32 then INT32 else INT64, c)) index sketches sels in
  (∀ P, sketch_test cmp c = Some P → ∃ q r, check = Ok (q, <[index := r.2]> sels) ∧
    (q = FILTER_ALWAYS_TRUE ↔ ∀ b, b ∈ base → P b = true) ∧
    (q = FILTER_ALWAYS_FALSE ↔ ∀ b, b ∈ base → P b = false) ∧
    (q ≠ FILTER_ALWAYS_FALSE → answers r (row_ids P base))) ∧
  (cmp = COMPARE_EQUAL ∨ cmp = COMPARE_NOTEQUAL → check = Ok (NO_PRUNING_POSSIBLE, sels)).
Proof.
  intros HW Hne Hlen Hnew Hcheck Hcast Hsk Hsel Hc check. split.
  - intros P HP. destruct (ColumnSketch_new_inv 8 base cs ltac:(lia) ltac:(lia) Hnew) as [_ Hok].
    destruct (sketch_check_evaluates W base cs cmp c P t index sketches sels sk msel) as (r & He & Hr & Ha & _); try done.
    eexists _, r. split; [exact He|]. by eapply sketch_result_exact.
  - intros Hcmp. unfold check, CheckSketchTemplated. rewrite (vget_lookup _ _ _ Hsk), (vget_lookup _ _ _ Hsel).
    destruct HW as [-> | ->]; cbn [mbind result_bind option_bind]; rewrite Hcast; by destruct Hcmp as [-> | ->].
Qed.

Lemma sketch_check_sound_witness :
  let base := Z.of_nat <$> seq 0 300 in let cs := built base in let msel := ManagedSelection_new 0 false in
  ∃ q r, CheckSketchTemplated 32 COMPARE_LESSTHAN (V_num (LT INTEGER) (INT32, 7)) 0 [Some (ColumnSketchWrapper32 cs)] [msel] =
           Ok (q, <[0%nat := r.2]> [msel]) ∧
    (q = FILTER_ALWAYS_TRUE ↔ ∀ b, b ∈ base → (b <? 7) = true) ∧
    (q = FILTER_ALWAYS_FALSE ↔ ∀ b, b ∈ base → (b <? 7) = false) ∧
    (q ≠ FILTER_ALWAYS_FALSE → answers r (row_ids (λ b, b <? 7) base)).
Proof.
  intros base cs msel.
  apply (sketch_check_sound 32 base cs (ColumnSketchWrapper32 cs) COMPARE_LESSTHAN 7 (LT INTEGER) 0
    [Some (ColumnSketchWrapper32 cs)] [msel] msel);
    [by left | vm_compute; lia | vm_compute; discriminate | vm_compute; reflexivity | vm_compute; reflexivity |
     reflexivity | reflexivity | reflexivity | lia | reflexivity].
Defined.

(** * Operations *)

(** C8.  [BaseStatistics::Merge] of statistics of one type returns well-formed
    statistics of that type which allow every value either side allowed, for
    numeric, string, list, array and struct columns nested to any depth. *)
Theorem merge_covers_both (s other : BaseStatistics) :
  stats_wf s → stats_wf other → stats_type other = stats_type s →
  ∃ s', Merge s other = Ok s' ∧ stats_wf s' ∧ stats_type s' = stats_type s ∧
        ∀ v, covers s v ∨ covers other v → covers s' v.
Proof. intros. by apply Merge_ok. Qed.

Lemma merge_covers_both_witness :
  ∃ s', Merge (int_stats false true 1 5) (int_stats true true 3 9) = Ok s' ∧ stats_wf s' ∧ stats_type s' = LT INTEGER ∧
        ∀ v, covers (int_stats false true 1 5) v ∨ covers (int_stats true true 3 9) v → covers s' v.
Proof.
  apply (merge_covers_both (int_stats false true 1 5) (int_stats true true 3 9)); [apply int_stats_wf | apply int_stats_wf | reflexivity].
Defined.

(** The smallest and the largest of a list of numbers and a first one. *)
Definition least (pt : PhysicalType) (x : Z) (vs : list Z) : Z := fold_left (num_min_of pt) vs x.
Definition largest (pt : PhysicalType) (x : Z) (vs : list Z) : Z := fold_left (num_max_of pt) vs x.

Lemma least_spec pt x vs :
  num_key pt (least pt x vs) ≤ num_key pt x ∧ (∀ v, v ∈ vs → num_key pt (least pt x vs) ≤ num_key pt v) ∧ least pt x vs ∈ x :: vs.
Proof.
  unfold least. revert x. induction vs as [|v vs IH]; intros x; cbn [fold_left]; [split_and!; [done | by intros v Hv%elem_of_nil | left]|].
  destruct (IH (num_min_of pt x v)) as (H1 & H2 & H3). rewrite num_min_of_key in H1. split_and!; [lia | |].
  - intros w [->|Hw]%elem_of_cons; [lia | auto].
  - unfold num_min_of in *. destruct (LessThan pt v x); revert H3; clear; rewrite !elem_of_cons; tauto.
Qed.

Lemma largest_spec pt x vs :
  num_key pt x ≤ num_key pt (largest pt x vs) ∧ (∀ v, v ∈ vs → num_key pt v ≤ num_key pt (largest pt x vs)) ∧ largest pt x vs ∈ x :: vs.
Proof.
  unfold largest. revert x. induction vs as [|v vs IH]; intros x; cbn [fold_left]; [split_and!; [done | by intros v Hv%elem_of_nil | left]|].
  destruct (IH (num_max_of pt x v)) as (H1 & H2 & H3). rewrite num_max_of_key in H1. split_and!; [lia | |].
  - intros w [->|Hw]%elem_of_cons; [lia | auto].
  - unfold num_max_of in *. destruct (GreaterThan pt v x); revert H3; clear; rewrite !elem_of_cons; tauto.
Qed.

Lemma updates_view s pt x y vs :
  numeric_view s pt (Some x) (Some y) →
  ∃ s', foldM (NumericStats_Update pt) s vs = Ok s' ∧ updated s pt s' (Some (least pt x vs)) (Some (largest pt y vs)).
Proof.
  revert s x y. induction vs as [|v vs IH]; intros s x y V; [exists s; split; [done | by apply updated_refl]|].
  destruct (Update_view _ _ _ _ V x y v eq_refl eq_refl) as (s1 & H1 & V1 & u1 & ->).
  destruct (IH _ _ _ V1) as (s' & H' & V' & u' & ->). exists (set_union s u'). cbn [foldM]. rewrite H1. cbn [mbind result_bind].
  rewrite H', set_union_twice in *. split; [done|]. split; [done | eauto].
Qed.

(** Updating the empty statistics of a numeric type with the values of a
    segment, one after the other, gives statistics that cover every value, and
    tightly: each end of the interval is one of the values or the initial
    end. *)
Theorem updates_cover_tightly (t : LogicalType) (vs : list Z) :
  type_ok t → GetStatsType t = NUMERIC_STATS →
  ∃ e s x y a b, CreateEmpty t = Ok e ∧ numeric_view e (InternalType t) (Some x) (Some y) ∧
    foldM (NumericStats_Update (InternalType t)) e vs = Ok s ∧ stats_wf s ∧
    numeric_view s (InternalType t) (Some a) (Some b) ∧ a ∈ x :: vs ∧ b ∈ y :: vs ∧
    ∀ v, v ∈ vs → covers s (V_num t (InternalType t, v)).
Proof.
  intros Hok Hk. destruct (CreateEmpty_valid t Hok) as (e & He & W & T & Hnn); [by rewrite Hk|].
  assert (∃ x y, numeric_view e (InternalType t) (Some x) (Some y)) as (x & y & V).
  { assert (leaf_type t) as Hl by (by left). rewrite (CreateEmpty_leaf t Hok Hl) in He by (apply kind_not_bit; by rewrite Hk).
    destruct (Construct_leaf t Hok Hl) as (n & nn & d & u & HC). rewrite HC, Hk in He. cbn [mbind result_bind] in He.
    assert (has_extremes t = true) as Hx.
    { destruct t as [i| | | | | | |]; try discriminate Hk; [by apply (proj2 (LT_leaf i Hok)) | by apply Hok | by apply Hok]. }
    destruct (CreateEmpty_view (mkStats t n nn d u []) Hk Hx) as (s0 & x & y & Hs0 & V & w & ->). rewrite Hs0 in He.
    injection He as <-. exists x, y. by eapply numeric_view_ext, V. }
  destruct (updates_view e (InternalType t) x y vs V) as (s & Hs & V' & u & ->).
  destruct (least_spec (InternalType t) x vs) as (_ & Hlo & Hla), (largest_spec (InternalType t) y vs) as (_ & Hhi & Hlb).
  exists e, (set_union e u), x, y, (least (InternalType t) x vs), (largest (InternalType t) y vs).
  split_and!; try done.
  - apply (leaf_created t); [by left | by rewrite set_union_type | |].
    + apply stats_wf_eq in W as [[Hs' _] _]. unfold node_shape in Hs'. rewrite T, Hk in Hs'. by destruct e.
    + unfold node_data. rewrite set_union_type, T, Hk. eauto.
  - intros v Hv. eapply covers_intro; [exact V' | by destruct e|]. split; intros ? [= <-]; auto.
Qed.


(** The statistics of a constant exist, are well-formed statistics of its
    type and cover it: for NULLs, numbers, strings, lists, arrays and structs
    at any depth. *)
Theorem constant_covered (v : Value) :
  value_ok v → ∃ s, FromConstant v = Ok s ∧ stats_wf s ∧ stats_type s = value_type v ∧ covers s v.
Proof. intros Hv. destruct (FromConstant_ok v Hv) as (s & ? & [? ?] & ?). eauto. Qed.


(** The unknown statistics of a type exist, are well formed and exclude
    no value of the type. *)
Theorem unknown_covers_everything (t : LogicalType) :
  type_ok t →
  ∃ s, CreateUnknown t = Ok s ∧ stats_wf s ∧ stats_type s = t ∧ ∀ v, value_ok v → value_type v = t → covers s v.
Proof.
  intros Hok. destruct (CreateUnknown_ok t Hok) as (s & Hs & W & T). exists s. split_and!; [done | done | done |].
  by apply CreateUnknown_covers.
Qed.


(** Copying well-formed statistics, into fresh statistics or into
    statistics of the same type, reproduces them. *)
Theorem copy_is_identity (s this : BaseStatistics) :
  stats_wf s → type_ok (stats_type s) → stats_wf this → stats_type this = stats_type s →
  Copy_new s = Ok s ∧ Copy this s = Ok s.
Proof.
  intros W Hok W' T. split; [|apply Copy_shaped; by try apply wf_shaped].
  unfold Copy_new. destruct (Construct_shaped _ Hok) as (r & -> & Hr & Tr). apply Copy_shaped; [done | by apply wf_shaped | done].
Qed.

(** C38.  Serializing well-formed statistics and reading them back succeeds and
    yields equivalent statistics: the same type, flags, distinct count, bounds
    and children, so they cover the same values. *)
Theorem serialize_roundtrip (s : BaseStatistics) :
  stats_wf s → type_ok (stats_type s) →
  ∃ o s', Serialize s = Ok o ∧ Deserialize (stats_type s) o = Ok s' ∧ s ≡ s' ∧ ∀ v, covers s v ↔ covers s' v.
Proof.
  intros W Hok. destruct (Serialize_roundtrips s W Hok) as (o & s' & Ho & Hs' & _ & E).
  exists o, s'. split_and!; [done | done | done |]. intros v. by rewrite E.
Qed.

Lemma serialize_roundtrip_witness :
  ∃ o s', Serialize (int_stats true true 2 3) = Ok o ∧ Deserialize (LT INTEGER) o = Ok s' ∧ int_stats true true 2 3 ≡ s' ∧
    ∀ v, covers (int_stats true true 2 3) v ↔ covers s' v.
Proof. apply (serialize_roundtrip (int_stats true true 2 3)); [apply int_stats_wf | intros _; reflexivity]. Defined.

(** * Verification of vectors *)

(** The value of a row of a numeric column. *)
Definition row_value (t : LogicalType) (r : option Z) : Value :=
  match r with Some v => V_num t (InternalType t, v) | None => V_null t end.

Lemma verify_validity_iff n nn valid sel count :
  selects sel count valid →
  verify_validity n nn valid sel count = Ok tt ↔ ∀ b, selected sel count valid b → if b : bool then nn = true else n = true.
Proof.
  intros Hsel. unfold verify_validity. destruct n, nn; cbn [andb].
  1: { split; [|done]. by intros _ []. }
  all: rewrite (selected_checks (λ b : bool, if b && negb _ then _ else if negb b && negb _ then _ else Ok tt)) by done;
       split; intros H b Hb; specialize (H b Hb); destruct b; done.
Qed.

Lemma selected_fmap {A B} (f : A → B) sel count rows b :
  selected sel count (f <$> rows) b ↔ ∃ a, selected sel count rows a ∧ b = f a.
Proof.
  split.
  - intros (i & idx & Hi & Hidx & Hr). rewrite list_lookup_fmap in Hr. destruct (rows !! Z.to_nat idx) as [a|] eqn:Ha; [|done].
    injection Hr as <-. exists a. split; [|done]. exists i, idx. done.
  - intros (a & (i & idx & Hi & Hidx & Hr) & ->). exists i, idx. rewrite list_lookup_fmap, Hr. done.
Qed.

Lemma selects_fmap {A B} (f : A → B) sel count rows : selects sel count rows → selects sel count (f <$> rows).
Proof.
  intros H i Hi. destruct (H i Hi) as (idx & r & Hidx & Hr). exists idx, (f r). rewrite list_lookup_fmap, Hr. done.
Qed.

(** [BaseStatistics::Verify] on a numeric vector returns normally
    exactly when the statistics cover the value of every selected row, NULLs
    included. *)
Theorem verify_accepts_covered (s : BaseStatistics) (p : PhysicalType) (rows : list (option Z)) (sel : SelectionVector) (count : nat) :
  stats_wf s → GetStatsType (stats_type s) = NUMERIC_STATS → zonemap_type (InternalType (stats_type s)) = true →
  selects sel count rows →
  Verify s (Vec_num p rows) sel count = Ok tt ↔ ∀ r, selected sel count rows r → covers s (row_value (stats_type s) r).
Proof.
  intros W Hk Hz Hsel. pose proof W as W0. apply stats_wf_eq in W0 as [[_ Hd] _]. unfold node_data in Hd. rewrite Hk in Hd.
  destruct Hd as (lo & hi & V). pose proof (Verify_view s _ lo hi p rows sel count V Hz Hsel) as Hv.
  destruct s as [t n nn d u c]. cbn [stats_type Verify] in *. rewrite Hk.
  pose proof (verify_validity_iff n nn ((λ r : option Z, bool_decide (is_Some r)) <$> rows) sel count (selects_fmap _ _ _ _ Hsel)) as Hval.
  cbn [validity_of]. split.
  - intros H. apply bind_Ok_inv in H as ([] & H1 & H2). rewrite Hv in H1. rewrite Hval in H2.
    intros [x|] Hx; cbn [row_value].
    + eapply covers_intro; [exact V | | by apply H1]. apply (H2 true). apply selected_fmap. by exists (Some x).
    + apply (H2 false). apply selected_fmap. by exists None.
  - intros H. rewrite (proj2 Hv), (proj2 Hval); [done | |].
    + intros b (a & Ha & ->)%selected_fmap. specialize (H a Ha). destruct a as [x|]; cbn in H |- *; [by destruct H | done].
    + intros x Hx. eapply covers_interval; [exact V | exact (H _ Hx)].
Qed.


(** Statistics that claim a constant numeric column are right: all the
    covered values are equal. *)
Theorem constant_claim_sound (s : BaseStatistics) (t t' : LogicalType) (x y : Z) :
  stats_wf s → GetStatsType (stats_type s) = NUMERIC_STATS → IsConstant s = Ok true →
  covers s (V_num t (InternalType (stats_type s), x)) → covers s (V_num t' (InternalType (stats_type s), y)) →
  Equals (InternalType (stats_type s)) x y = true.
Proof.
  intros W Hk Hc Hx Hy. apply stats_wf_eq in W as [[_ Hd] _]. unfold node_data in Hd. rewrite Hk in Hd.
  destruct Hd as (lo & hi & V). apply (covers_interval _ _ _ _ _ _ V) in Hx as [Hx1 Hx2], Hy as [Hy1 Hy2].
  unfold IsConstant in Hc. rewrite bool_decide_false, Hk in Hc by (apply kind_not_validity; by rewrite Hk).
  unfold NumericStats_IsConstant in Hc.
  apply bind_Ok_inv in Hc as (mx & Hmx & Hc). apply bind_Ok_inv in Hc as (mn & Hmn & Hc).
  destruct hi as [h|]; [|unfold NumericStats_Max in Hmx; by rewrite (HasMax_view _ _ _ _ V) in Hmx].
  destruct lo as [l|]; [|unfold NumericStats_Min in Hmn; by rewrite (HasMin_view _ _ _ _ V) in Hmn].
  rewrite (Max_view _ _ _ _ V h eq_refl) in Hmx. rewrite (Min_view _ _ _ _ V l eq_refl) in Hmn.
  injection Hmx as <-. injection Hmn as <-.
  unfold ValueOperations_LessThanEquals in Hc. rewrite numeric_GreaterThan in Hc; [|done | by eapply view_numeric].
  injection Hc as Hc. rewrite GreaterThan_key in Hc. rewrite Equals_key.
  specialize (Hx1 l eq_refl). specialize (Hx2 h eq_refl). specialize (Hy1 l eq_refl). specialize (Hy2 h eq_refl). lia.
Qed.
