(* ===== verification/Expression.v ===== *)
(** Bound expressions ([src/planner/expression/]), what their execution returns
    for a row ([src/execution/expression_executor/]), and the propagation of
    statistics through them ([src/optimizer/statistics/]).

    A row gives every column binding a value.  Casts, arithmetic, aggregates
    and functions other than [constant_or_null] are not modelled. *)
From S2P Require Import Prelude Types Stats NumericStats BaseStatistics.

(** * Expressions *)

(** [ColumnBinding]: the table index and the column index. *)
Definition ColumnBinding : Type := nat * nat.

(** The types of [BoundOperatorExpression]; [OPERATOR_IN] and [OPERATOR_NOT_IN]
    are the expression types [COMPARE_IN] and [COMPARE_NOT_IN]. *)
Inductive OperatorType : Type :=
  | OPERATOR_COALESCE | OPERATOR_IS_NULL | OPERATOR_IS_NOT_NULL | OPERATOR_NOT | OPERATOR_IN | OPERATOR_NOT_IN.

#[export] Instance OperatorType_eq_dec : EqDecision OperatorType.
Proof. solve_decision. Defined.

Inductive Expression : Type :=
  | BoundColumnRef (binding : ColumnBinding) (return_type : LogicalType)
  | BoundConstant (value : Value)
  | BoundComparison (type : ExpressionType) (left right : Expression)
  | BoundConjunction (is_and : bool) (children : list Expression)
  | BoundBetween (lower_inclusive upper_inclusive : bool) (input lower upper : Expression)
  | BoundOperator (type : OperatorType) (children : list Expression)
  | BoundCase (case_checks : list (Expression * Expression)) (else_expr : Expression)
  | BoundConstantOrNull (value : Value) (children : list Expression).

Definition Value_BOOLEAN (b : bool) : Value := V_num (LT BOOLEAN) (BOOL, if b then 1 else 0).

(** [Expression::return_type]. *)
Fixpoint return_type (e : Expression) : LogicalType :=
  match e with
  | BoundColumnRef _ t => t
  | BoundConstant v => value_type v
  | BoundComparison _ _ _ | BoundConjunction _ _ | BoundBetween _ _ _ _ _ => LT BOOLEAN
  | BoundOperator OPERATOR_COALESCE (c :: _) => return_type c
  | BoundOperator _ _ => LT BOOLEAN
  | BoundCase _ e => return_type e
  | BoundConstantOrNull v _ => value_type v
  end.

(** [BoundBetweenExpression]. *)
Definition LowerComparisonType (lower_inclusive : bool) : ExpressionType :=
  if lower_inclusive then COMPARE_GREATERTHANOREQUALTO else COMPARE_GREATERTHAN.
Definition UpperComparisonType (upper_inclusive : bool) : ExpressionType :=
  if upper_inclusive then COMPARE_LESSTHANOREQUALTO else COMPARE_LESSTHAN.

Fixpoint IsFoldable (e : Expression) : bool :=
  match e with
  | BoundColumnRef _ _ => false
  | BoundConstant _ => true
  | BoundComparison _ l r => IsFoldable l && IsFoldable r
  | BoundConjunction _ children | BoundOperator _ children | BoundConstantOrNull _ children => forallb IsFoldable children
  | BoundBetween _ _ i l u => IsFoldable i && IsFoldable l && IsFoldable u
  | BoundCase checks e => forallb (λ c, IsFoldable c.1 && IsFoldable c.2) checks && IsFoldable e
  end.

(** * Execution *)

(** A BOOLEAN value; [None] is NULL. *)
Definition as_bool (v : Value) : result (option bool) :=
  if Value_IsNull v then Ok None else x ← GetValueUnsafe BOOL v; Ok (Some (negb (x =? 0))).
Definition of_bool (b : option bool) : Value := match b with Some b => Value_BOOLEAN b | None => V_null (LT BOOLEAN) end.

Definition TernaryAnd (left right : option bool) : option bool :=
  match left, right with
  | None, None => None
  | None, Some r => if r then None else Some r
  | Some l, None => if l then None else Some l
  | Some l, Some r => Some (l && r)
  end.
Definition TernaryOr (left right : option bool) : option bool :=
  match left, right with
  | None, None => None
  | None, Some r => if r then Some r else None
  | Some l, None => if l then Some l else None
  | Some l, Some r => Some (l || r)
  end.

(** The comparison operators, on equality and order. *)
Definition comparison_holds (cmp : ExpressionType) (eq gt lt : bool) : result bool :=
  match cmp with
  | COMPARE_EQUAL | COMPARE_NOT_DISTINCT_FROM => Ok eq
  | COMPARE_NOTEQUAL | COMPARE_DISTINCT_FROM => Ok (negb eq)
  | COMPARE_LESSTHAN => Ok lt
  | COMPARE_GREATERTHAN => Ok gt
  | COMPARE_LESSTHANOREQUALTO => Ok (negb gt)
  | COMPARE_GREATERTHANOREQUALTO => Ok (negb lt)
  | _ => Throw (InternalException "Unknown comparison type!")
  end.

(** Values that are not NULL. *)
Definition compare_values (cmp : ExpressionType) (l r : Value) : result bool :=
  match l, r with
  | V_num t _, V_num _ _ =>
      let pt := InternalType t in
      x ← GetValueUnsafe pt l; y ← GetValueUnsafe pt r;
      comparison_holds cmp (Equals pt x y) (GreaterThan pt x y) (LessThan pt x y)
  | V_string _ a, V_string _ b => comparison_holds cmp (bool_decide (a = b)) (bytes_gt a b) (bytes_gt b a)
  | _, _ => Throw (Unmodelled "comparison of nested values")
  end.

Definition IsCompareDistinct (cmp : ExpressionType) : bool :=
  match cmp with COMPARE_DISTINCT_FROM | COMPARE_NOT_DISTINCT_FROM => true | _ => false end.

Definition Execute_comparison (cmp : ExpressionType) (l r : Value) : result (option bool) :=
  if Value_IsNull l || Value_IsNull r then
    b ← comparison_holds cmp (Value_IsNull l && Value_IsNull r) false false;
    Ok (if IsCompareDistinct cmp then Some b else None)
  else Some <$> compare_values cmp l r.

Definition Execute_between (lower_inclusive upper_inclusive : bool) (input lower upper : Value) : result (option bool) :=
  a ← Execute_comparison (LowerComparisonType lower_inclusive) input lower;
  b ← Execute_comparison (UpperComparisonType upper_inclusive) input upper;
  Ok (TernaryAnd a b).

Definition Execute_conjunction (is_and : bool) (children : list (option bool)) : result (option bool) :=
  match children with
  | [] => Throw (UndefinedBehaviour "conjunction without children")
  | b :: rest => Ok (fold_left (λ acc b, if is_and then TernaryAnd b acc else TernaryOr b acc) rest b)
  end.

(** [IN]: the comparisons with the constants, OR-ed together. *)
Definition Execute_in (left : Value) (constants : list Value) : result (option bool) :=
  match constants with
  | [] => Throw (InvalidInputException "IN needs at least two children")
  | c :: constants =>
      b ← Execute_comparison COMPARE_EQUAL left c;
      foldM (λ acc c, b ← Execute_comparison COMPARE_EQUAL left c; Ok (TernaryOr acc b)) b constants
  end.

Definition Execute_operator (type : OperatorType) (children : list Value) : result Value :=
  match type, children with
  | OPERATOR_IS_NULL, [v] => Ok (Value_BOOLEAN (Value_IsNull v))
  | OPERATOR_IS_NOT_NULL, [v] => Ok (Value_BOOLEAN (negb (Value_IsNull v)))
  | OPERATOR_NOT, [v] => b ← as_bool v; Ok (of_bool (negb <$> b))
  | OPERATOR_IN, v :: constants => of_bool <$> Execute_in v constants
  | OPERATOR_NOT_IN, v :: constants => b ← Execute_in v constants; Ok (of_bool (negb <$> b))
  | (OPERATOR_IN | OPERATOR_NOT_IN), [] => Throw (InvalidInputException "IN needs at least two children")
  | _, _ => Throw (NotImplementedException "operator")
  end.

(** [ConstantOrNullFunction]; the constant is also the first child. *)
Definition ConstantOrNullFunction (value : Value) (args : list Value) : Value :=
  if existsb Value_IsNull (drop 1 args) then V_null (value_type value) else value.

(** The value of an expression for a row. *)
Fixpoint Execute (row : ColumnBinding → result Value) (e : Expression) : result Value :=
  match e with
  | BoundColumnRef b _ => row b
  | BoundConstant v => Ok v
  | BoundComparison cmp l r => l ← Execute row l; r ← Execute row r; of_bool <$> Execute_comparison cmp l r
  | BoundConjunction is_and children =>
      values ← mapR (Execute row) children; bs ← mapR as_bool values; of_bool <$> Execute_conjunction is_and bs
  | BoundBetween li ui i l u => i ← Execute row i; l ← Execute row l; u ← Execute row u; of_bool <$> Execute_between li ui i l u
  | BoundOperator OPERATOR_COALESCE children =>
      (fix coalesce (children : list Expression) : result Value :=
         match children with
         | [] => Ok (V_null (return_type e))
         | child :: children => v ← Execute row child; if Value_IsNull v then coalesce children else Ok v
         end) children
  | BoundOperator type children => values ← mapR (Execute row) children; Execute_operator type values
  | BoundCase checks else_expr =>
      (fix cases (checks : list (Expression * Expression)) : result Value :=
         match checks with
         | [] => Execute row else_expr
         | (when_expr, then_expr) :: checks =>
             w ← Execute row when_expr; b ← as_bool w;
             if bool_decide (b = Some true) then Execute row then_expr else cases checks
         end) checks
  | BoundConstantOrNull v children => values ← mapR (Execute row) children; Ok (ConstantOrNullFunction v values)
  end.

(** [ExpressionExecutor::EvaluateScalar]: there is no row. *)
Definition EvaluateScalar (e : Expression) : result Value := Execute (λ _, Throw (UndefinedBehaviour "column of a constant expression")) e.

(** * Propagation of statistics *)

(** [a] and [b] in this order; [b] is only evaluated when [a] is false. *)
Definition orR (a b : result bool) : result bool := x ← a; if (x : bool) then Ok true else b.

Definition ValueOperations_GreaterThanEquals (l r : Value) : result bool := negb <$> ValueOperations_GreaterThan r l.
Definition ValueOperations_NotDistinctFrom (l r : Value) : result bool :=
  if Value_IsNull l && Value_IsNull r then Ok true
  else if negb (Bool.eqb (Value_IsNull l) (Value_IsNull r)) then Ok false
  else TemplatedBooleanOperation OpEquals l r.

(** [l.Min() op r.Max()] and the like. *)
Definition min_max (op : Value → Value → result bool) (l r : BaseStatistics) : result bool :=
  a ← NumericStats_Min l; b ← NumericStats_Max r; op a b.
Definition max_min (op : Value → Value → result bool) (l r : BaseStatistics) : result bool :=
  a ← NumericStats_Max l; b ← NumericStats_Min r; op a b.

Definition always_false (has_null : bool) : FilterPropagateResult := if has_null then FILTER_FALSE_OR_NULL else FILTER_ALWAYS_FALSE.
Definition always_true (has_null : bool) : FilterPropagateResult := if has_null then FILTER_TRUE_OR_NULL else FILTER_ALWAYS_TRUE.

(** Whether a comparison holds for all, or for no values of both sides. *)
Definition decide_comparison (has_null : bool) (all_true all_false : result bool) : result FilterPropagateResult :=
  t ← all_true;
  if (t : bool) then Ok (always_true has_null)
  else f ← all_false; if (f : bool) then Ok (always_false has_null) else Ok NO_PRUNING_POSSIBLE.

Definition PropagateComparison (lstats rstats : BaseStatistics) (comparison : ExpressionType) : result FilterPropagateResult :=
  match InternalType (stats_type lstats) with
  | BOOL | UINT8 | UINT16 | UINT32 | UINT64 | UINT128 | INT8 | INT16 | INT32 | INT64 | INT128 | FLOAT | DOUBLE =>
      both ← orR (negb <$> HasMinMax lstats) (negb <$> HasMinMax rstats);
      if (both : bool) then Ok NO_PRUNING_POSSIBLE
      else
        let has_null := CanHaveNull lstats || CanHaveNull rstats in
        match comparison with
        | COMPARE_EQUAL =>
            f ← orR (min_max ValueOperations_GreaterThan lstats rstats) (min_max ValueOperations_GreaterThan rstats lstats);
            Ok (if (f : bool) then always_false has_null else NO_PRUNING_POSSIBLE)
        | COMPARE_GREATERTHAN =>
            decide_comparison has_null (min_max ValueOperations_GreaterThan lstats rstats) (min_max ValueOperations_GreaterThanEquals rstats lstats)
        | COMPARE_GREATERTHANOREQUALTO =>
            decide_comparison has_null (min_max ValueOperations_GreaterThanEquals lstats rstats) (min_max ValueOperations_GreaterThan rstats lstats)
        | COMPARE_LESSTHAN =>
            decide_comparison has_null (max_min ValueOperations_LessThan lstats rstats) (min_max ValueOperations_GreaterThanEquals lstats rstats)
        | COMPARE_LESSTHANOREQUALTO =>
            decide_comparison has_null (max_min ValueOperations_LessThanEquals lstats rstats) (min_max ValueOperations_GreaterThan lstats rstats)
        | _ => Ok NO_PRUNING_POSSIBLE
        end
  | _ => Ok NO_PRUNING_POSSIBLE
  end.

(** An expression and its statistics, if it has some. *)
Definition propagated : Type := Expression * option BaseStatistics.

(** [BoundConstantExpression] and its statistics. *)
Definition constant_expression (v : Value) : result propagated := s ← FromConstant v; Ok (BoundConstant v, Some s).

(** [ExpressionRewriter::ConstantOrNull]. *)
Definition ConstantOrNull (children : list Expression) (value : Value) : Expression := BoundConstantOrNull value (BoundConstant value :: children).

Definition rewrite_comparison (cmp : ExpressionType) (left right : propagated) : result propagated :=
  let expr := BoundComparison cmp left.1 right.1 in
  match left.2, right.2 with
  | Some lstats, Some rstats =>
      propagate_result ← PropagateComparison lstats rstats cmp;
      match propagate_result with
      | FILTER_ALWAYS_TRUE => constant_expression (Value_BOOLEAN true)
      | FILTER_ALWAYS_FALSE => constant_expression (Value_BOOLEAN false)
      | FILTER_TRUE_OR_NULL => Ok (ConstantOrNull [left.1; right.1] (Value_BOOLEAN true), None)
      | FILTER_FALSE_OR_NULL => Ok (ConstantOrNull [left.1; right.1] (Value_BOOLEAN false), None)
      | NO_PRUNING_POSSIBLE => Ok (expr, None)
      end
  | _, _ => Ok (expr, None)
  end.

Definition rewrite_between (lower_inclusive upper_inclusive : bool) (input lower upper : propagated) : result propagated :=
  let expr := BoundBetween lower_inclusive upper_inclusive input.1 lower.1 upper.1 in
  match input.2 with
  | None => Ok (expr, None)
  | Some input_stats =>
      let lower_comparison := LowerComparisonType lower_inclusive in
      let upper_comparison := UpperComparisonType upper_inclusive in
      lower_prune ← match lower.2 with Some s => PropagateComparison input_stats s lower_comparison | None => Ok NO_PRUNING_POSSIBLE end;
      upper_prune ← match upper.2 with Some s => PropagateComparison input_stats s upper_comparison | None => Ok NO_PRUNING_POSSIBLE end;
      Ok (if bool_decide (lower_prune = FILTER_ALWAYS_TRUE) && bool_decide (upper_prune = FILTER_ALWAYS_TRUE) then BoundConstant (Value_BOOLEAN true)
          else if bool_decide (lower_prune = FILTER_ALWAYS_FALSE) || bool_decide (upper_prune = FILTER_ALWAYS_FALSE) then BoundConstant (Value_BOOLEAN false)
          else if bool_decide (lower_prune = FILTER_FALSE_OR_NULL) || bool_decide (upper_prune = FILTER_FALSE_OR_NULL) then
            ConstantOrNull [input.1; lower.1; upper.1] (Value_BOOLEAN false)
          else if bool_decide (lower_prune = FILTER_TRUE_OR_NULL) && bool_decide (upper_prune = FILTER_TRUE_OR_NULL) then
            ConstantOrNull [input.1; lower.1; upper.1] (Value_BOOLEAN true)
          else if bool_decide (lower_prune = FILTER_ALWAYS_TRUE) then BoundComparison upper_comparison input.1 upper.1
          else if bool_decide (upper_prune = FILTER_ALWAYS_TRUE) then BoundComparison lower_comparison input.1 lower.1
          else expr, None)
  end.

(** [COALESCE]: children that are always NULL are dropped, and those behind a
    child that never is. *)
Fixpoint coalesce_children (kept rest : list (Expression * BaseStatistics)) : list (Expression * BaseStatistics) :=
  match rest with
  | [] => kept
  | child :: rest =>
      if negb (CanHaveNoNull child.2) then
        if (1 <? length kept + S (length rest))%nat then coalesce_children kept rest else coalesce_children (kept ++ [child]) rest
      else if negb (CanHaveNull child.2) then kept ++ [child]
      else coalesce_children (kept ++ [child]) rest
  end.

Definition rewrite_coalesce (children : list (Expression * BaseStatistics)) : result propagated :=
  match coalesce_children [] children with
  | [] => Throw (UndefinedBehaviour "COALESCE without children")
  | [(e, s)] => Ok (e, Some s)
  | (e, s) :: rest => s ← foldM (λ s c, Merge s c.2) s rest; Ok (BoundOperator OPERATOR_COALESCE (e :: rest.*1), Some s)
  end.

Definition all_statistics (children : list propagated) : option (list (Expression * BaseStatistics)) :=
  mapM (λ c, s ← c.2; Some (c.1, s)) children.

Definition rewrite_operator (type : OperatorType) (children : list propagated) : result propagated :=
  let expr := BoundOperator type children.*1 in
  match all_statistics children with
  | None => Ok (expr, None)
  | Some stats =>
      match type, stats with
      | OPERATOR_COALESCE, _ => rewrite_coalesce stats
      | (OPERATOR_IS_NULL | OPERATOR_IS_NOT_NULL), [] => Throw (UndefinedBehaviour "child out of range")
      | OPERATOR_IS_NULL, (_, s) :: _ =>
          if negb (CanHaveNull s) then constant_expression (Value_BOOLEAN false)
          else if negb (CanHaveNoNull s) then constant_expression (Value_BOOLEAN true) else Ok (expr, None)
      | OPERATOR_IS_NOT_NULL, (_, s) :: _ =>
          if negb (CanHaveNull s) then constant_expression (Value_BOOLEAN true)
          else if negb (CanHaveNoNull s) then constant_expression (Value_BOOLEAN false) else Ok (expr, None)
      | _, _ => Ok (expr, None)
      end
  end.

(** What a child of a conjunction does to it: it stays, it is dropped, or it
    decides the conjunction. *)
Inductive conjunct : Type := KeepChild | DropChild | DecidedBy (b : bool).

Definition check_conjunct (is_and : bool) (child : Expression) : result conjunct :=
  if negb (IsFoldable child) then Ok KeepChild
  else
    constant ← EvaluateScalar child;
    b ← as_bool constant;
    Ok (match b with
        | None => KeepChild
        | Some true => if is_and then DropChild else DecidedBy true
        | Some false => if is_and then DecidedBy false else DropChild
        end).

Section Conjunctions.
Context (propagate : Expression → result propagated) (is_and : bool).

(** The loop over the children; [inl] is the constant that replaces them. *)
Definition conjunction_children : list Expression → result (bool + list Expression) :=
  fix loop children :=
    match children with
    | [] => Ok (inr [])
    | child :: children =>
        '(child, _) ← propagate child;
        c ← check_conjunct is_and child;
        match c with
        | DecidedBy b => Ok (inl b)
        | DropChild => loop children
        | KeepChild => rest ← loop children; Ok (match rest with inl b => inl b | inr l => inr (child :: l) end)
        end
    end.
End Conjunctions.

Definition rewrite_conjunction (is_and : bool) (children : bool + list Expression) : result propagated :=
  match children with
  | inl b => constant_expression (Value_BOOLEAN b)
  | inr [] => constant_expression (Value_BOOLEAN is_and)
  | inr [child] => Ok (child, None)
  | inr children => Ok (BoundConjunction is_and children, None)
  end.

(** [CASE]: the statistics of all results, if all have some. *)
Definition merge_case (acc then_stats : option BaseStatistics) : result (option BaseStatistics) :=
  match then_stats, acc with
  | None, _ | _, None => Ok None
  | Some t, Some s => Some <$> Merge s t
  end.

(** [PropagateExpression]: the rewritten expression and its statistics. *)
Fixpoint PropagateExpression (statistics_map : gmap ColumnBinding BaseStatistics) (e : Expression) : result propagated :=
  let propagate := PropagateExpression statistics_map in
  match e with
  | BoundColumnRef b _ => Ok (e, statistics_map !! b)
  | BoundConstant v => s ← FromConstant v; Ok (e, Some s)
  | BoundComparison cmp l r => l ← propagate l; r ← propagate r; rewrite_comparison cmp l r
  | BoundConjunction is_and children => children ← conjunction_children propagate is_and children; rewrite_conjunction is_and children
  | BoundBetween li ui i l u => i ← propagate i; l ← propagate l; u ← propagate u; rewrite_between li ui i l u
  | BoundOperator type children => children ← mapR propagate children; rewrite_operator type children
  | BoundCase checks else_expr =>
      '(else_expr, s) ← propagate else_expr;
      '(checks, s) ← (fix loop (checks : list (Expression * Expression)) (s : option BaseStatistics) :=
         match checks with
         | [] => Ok ([], s)
         | (when_expr, then_expr) :: checks =>
             '(when_expr, _) ← propagate when_expr;
             '(then_expr, then_stats) ← propagate then_expr;
             s ← merge_case s then_stats;
             '(checks, s) ← loop checks s;
             Ok ((when_expr, then_expr) :: checks, s)
         end) checks s;
      Ok (BoundCase checks else_expr, s)
  | BoundConstantOrNull v children => children ← mapR propagate children; Ok (BoundConstantOrNull v children.*1, None)
  end.

(** * Filters *)

Definition LogicalType_IsNumeric (t : LogicalType) : bool :=
  match id t with
  | TINYINT | SMALLINT | INTEGER | BIGINT | HUGEINT | T_FLOAT | T_DOUBLE | DECIMAL | UTINYINT | USMALLINT | UINTEGER | UBIGINT | UHUGEINT => true
  | _ => false
  end.

Definition FlipComparisonExpression (cmp : ExpressionType) : result ExpressionType :=
  match cmp with
  | COMPARE_NOT_DISTINCT_FROM | COMPARE_DISTINCT_FROM | COMPARE_NOTEQUAL | COMPARE_EQUAL => Ok cmp
  | COMPARE_LESSTHAN => Ok COMPARE_GREATERTHAN
  | COMPARE_GREATERTHAN => Ok COMPARE_LESSTHAN
  | COMPARE_LESSTHANOREQUALTO => Ok COMPARE_GREATERTHANOREQUALTO
  | COMPARE_GREATERTHANOREQUALTO => Ok COMPARE_LESSTHANOREQUALTO
  | _ => Throw (InternalException "Unsupported comparison type in flip")
  end.

(** The rows that satisfy a comparison of the column with a constant. *)
Definition filter_constant (s : BaseStatistics) (cmp : ExpressionType) (constant : Value) : result BaseStatistics :=
  s ← (if IsCompareDistinct cmp then Ok s else Stats_Set s CANNOT_HAVE_NULL_VALUES);
  if negb (LogicalType_IsNumeric (stats_type s)) then Ok s
  else
    both ← HasMinMax s;
    if negb both then Ok s
    else
      match cmp with
      | COMPARE_LESSTHAN | COMPARE_LESSTHANOREQUALTO => SetMax s constant
      | COMPARE_GREATERTHAN | COMPARE_GREATERTHANOREQUALTO => SetMin s constant
      | COMPARE_EQUAL => s ← SetMin s constant; SetMax s constant
      | _ => Ok s
      end.

(** The statistics of the columns; two columns may be the same one. *)
Abbreviation StatisticsMap := (gmap ColumnBinding BaseStatistics).

Definition stats_at (m : StatisticsMap) (b : ColumnBinding) : result BaseStatistics :=
  match m !! b with Some s => Ok s | None => Throw (UndefinedBehaviour "end of the statistics map") end.
Definition on_column (b : ColumnBinding) (f : BaseStatistics → result BaseStatistics) (m : StatisticsMap) : result StatisticsMap :=
  s ← stats_at m b; s ← f s; Ok (<[b := s]> m).

Definition SetStatisticsNotNull (m : StatisticsMap) (b : ColumnBinding) : result StatisticsMap :=
  match m !! b with None => Ok m | Some _ => on_column b (λ s, Stats_Set s CANNOT_HAVE_NULL_VALUES) m end.

(** [if (test(target, source)) target.bound = source.bound]. *)
Definition tighten (bound : BaseStatistics → result Value) (set : BaseStatistics → Value → result BaseStatistics) (op : Value → Value → result bool)
    (target source : ColumnBinding) (m : StatisticsMap) : result StatisticsMap :=
  t ← stats_at m target; s ← stats_at m source;
  x ← bound t; y ← bound s; b ← op x y;
  if (b : bool) then on_column target (λ t, set t y) m else Ok m.

(** [if (test(left, right)) right.bound = left.bound else left.bound = right.bound]. *)
Definition tighten_either (bound : BaseStatistics → result Value) (set : BaseStatistics → Value → result BaseStatistics) (op : Value → Value → result bool)
    (left right : ColumnBinding) (m : StatisticsMap) : result StatisticsMap :=
  l ← stats_at m left; r ← stats_at m right;
  x ← bound l; y ← bound r; b ← op x y;
  if (b : bool) then on_column right (λ s, set s x) m else on_column left (λ s, set s y) m.

(** The rows that satisfy a comparison of two columns. *)
Definition filter_columns (m : StatisticsMap) (left right : ColumnBinding) (cmp : ExpressionType) : result StatisticsMap :=
  m ← (if IsCompareDistinct cmp then Ok m
       else m ← on_column left (λ s, Stats_Set s CANNOT_HAVE_NULL_VALUES) m; on_column right (λ s, Stats_Set s CANNOT_HAVE_NULL_VALUES) m);
  lstats ← stats_at m left; rstats ← stats_at m right;
  if negb (LogicalType_IsNumeric (stats_type lstats)) then Ok m
  else
    none ← orR (negb <$> HasMinMax lstats) (negb <$> HasMinMax rstats);
    if (none : bool) then Ok m
    else
      match cmp with
      | COMPARE_LESSTHAN | COMPARE_LESSTHANOREQUALTO =>
          m ← tighten NumericStats_Max SetMax ValueOperations_GreaterThan left right m;
          tighten NumericStats_Min SetMin ValueOperations_LessThan right left m
      | COMPARE_GREATERTHAN | COMPARE_GREATERTHANOREQUALTO =>
          m ← tighten NumericStats_Max SetMax ValueOperations_GreaterThan right left m;
          tighten NumericStats_Min SetMin ValueOperations_LessThan left right m
      | COMPARE_EQUAL | COMPARE_NOT_DISTINCT_FROM =>
          m ← tighten_either NumericStats_Min SetMin ValueOperations_GreaterThan left right m;
          tighten_either NumericStats_Max SetMax ValueOperations_LessThan left right m
      | _ => Ok m
      end.

Definition filter_comparison (m : StatisticsMap) (left right : Expression) (cmp : ExpressionType) : result StatisticsMap :=
  let compare_distinct := IsCompareDistinct cmp in
  m ← (match left with BoundColumnRef b _ => if compare_distinct then Ok m else SetStatisticsNotNull m b | _ => Ok m end);
  m ← (match right with BoundColumnRef b _ => if compare_distinct then Ok m else SetStatisticsNotNull m b | _ => Ok m end);
  match left, right with
  | BoundConstant c, BoundColumnRef b _ =>
      cmp ← FlipComparisonExpression cmp;
      match m !! b with None => Ok m | Some _ => on_column b (λ s, filter_constant s cmp c) m end
  | BoundColumnRef b _, BoundConstant c => match m !! b with None => Ok m | Some _ => on_column b (λ s, filter_constant s cmp c) m end
  | BoundColumnRef l _, BoundColumnRef r _ =>
      match m !! l, m !! r with Some _, Some _ => filter_columns m l r cmp | _, _ => Ok m end
  | _, _ => Ok m
  end.

(** [UpdateFilterStatistics] of a condition. *)
Definition UpdateFilterStatistics (m : StatisticsMap) (condition : Expression) : result StatisticsMap :=
  match condition with
  | BoundBetween li ui input lower upper =>
      m ← filter_comparison m input lower (LowerComparisonType li);
      filter_comparison m input upper (UpperComparisonType ui)
  | BoundComparison cmp l r => filter_comparison m l r cmp
  | _ => Ok m
  end.

Definition ExpressionIsConstant (e : Expression) (val : Value) : result bool :=
  match e with
  | BoundConstant v => ValueOperations_NotDistinctFrom v val
  | _ => if IsFoldable e then
           match EvaluateScalar e with
           | Ok v => ValueOperations_NotDistinctFrom v val
           | Throw (InternalException msg) => Throw (InternalException msg)
           | Throw _ => Ok false
           end
         else Ok false
  end.

Definition ExpressionIsConstantOrNull (e : Expression) (val : Value) : result bool :=
  match e with BoundConstantOrNull v _ => ValueOperations_Equals v val | _ => Ok false end.

(** [PropagateStatistics] of a [LogicalFilter] whose child has been propagated:
    the conditions that are left and the statistics of the rows that pass them;
    [None] is an empty result. *)
Fixpoint propagate_conditions (m : StatisticsMap) (conditions : list Expression) : result (option (list Expression * StatisticsMap)) :=
  match conditions with
  | [] => Ok (Some ([], m))
  | condition :: conditions =>
      '(condition, _) ← PropagateExpression m condition;
      t ← ExpressionIsConstant condition (Value_BOOLEAN true);
      if (t : bool) then propagate_conditions m conditions
      else
        f ← orR (ExpressionIsConstant condition (Value_BOOLEAN false)) (ExpressionIsConstantOrNull condition (Value_BOOLEAN false));
        if (f : bool) then Ok None
        else
          m ← UpdateFilterStatistics m condition;
          rest ← propagate_conditions m conditions;
          Ok (match rest with None => None | Some (l, m) => Some (condition :: l, m) end)
  end.
