(* ===== verification/PropagateFacts.v ===== *)
(** Propagation of statistics: expressions are typed, rewriting them keeps their
    value on every row the statistics cover, and the statistics of an expression
    cover its values. *)
From S2P Require Import Prelude Types Stats NumericStats NumericFacts BaseStatistics StatsFacts StatsCreate Expression.

(** * Typed expressions *)

Section ExpressionInd.
Context (P : Expression → Prop).
Context (Hcol : ∀ b t, P (BoundColumnRef b t)) (Hconst : ∀ v, P (BoundConstant v)).
Context (Hcmp : ∀ cmp l r, P l → P r → P (BoundComparison cmp l r)) (Hconj : ∀ a cs, Forall P cs → P (BoundConjunction a cs)).
Context (Hbetween : ∀ li ui i l u, P i → P l → P u → P (BoundBetween li ui i l u)) (Hop : ∀ ty cs, Forall P cs → P (BoundOperator ty cs)).
Context (Hcase : ∀ checks e, Forall (λ c, P c.1 ∧ P c.2) checks → P e → P (BoundCase checks e)) (Hfun : ∀ v cs, Forall P cs → P (BoundConstantOrNull v cs)).

Fixpoint Expression_ind' (e : Expression) : P e :=
  let all := fix go (cs : list Expression) : Forall P cs := match cs with [] => Forall_nil_2 _ | c :: cs => Forall_cons_2 _ _ _ (Expression_ind' c) (go cs) end in
  match e with
  | BoundColumnRef b t => Hcol b t
  | BoundConstant v => Hconst v
  | BoundComparison cmp l r => Hcmp cmp l r (Expression_ind' l) (Expression_ind' r)
  | BoundConjunction a cs => Hconj a cs (all cs)
  | BoundBetween li ui i l u => Hbetween li ui i l u (Expression_ind' i) (Expression_ind' l) (Expression_ind' u)
  | BoundOperator ty cs => Hop ty cs (all cs)
  | BoundCase checks e => Hcase checks e
      ((fix go (cs : list (Expression * Expression)) : Forall (λ c, P c.1 ∧ P c.2) cs :=
          match cs with [] => Forall_nil_2 _ | c :: cs => Forall_cons_2 _ _ _ (conj (Expression_ind' c.1) (Expression_ind' c.2)) (go cs) end) checks)
      (Expression_ind' e)
  | BoundConstantOrNull v cs => Hfun v cs (all cs)
  end.
End ExpressionInd.

(** The types the comparison operators are modelled for. *)
Definition comparable (t : LogicalType) : Prop := GetStatsType t = NUMERIC_STATS ∨ GetStatsType t = STRING_STATS.

Definition is_comparison (cmp : ExpressionType) : bool :=
  match cmp with
  | COMPARE_EQUAL | COMPARE_NOTEQUAL | COMPARE_LESSTHAN | COMPARE_GREATERTHAN | COMPARE_LESSTHANOREQUALTO | COMPARE_GREATERTHANOREQUALTO
  | COMPARE_DISTINCT_FROM | COMPARE_NOT_DISTINCT_FROM => true
  | _ => false
  end.

(** A value of a type; booleans are 0 or 1. *)
Definition cell_ok (t : LogicalType) (v : Value) : Prop := value_ok v ∧ value_type v = t ∧ (t = LT BOOLEAN → ∃ b, v = of_bool b).

Section Typed.
Context (columns : ColumnBinding → LogicalType).

Inductive typed : Expression → LogicalType → Prop :=
  | typed_column b : typed (BoundColumnRef b (columns b)) (columns b)
  | typed_constant v t : cell_ok t v → typed (BoundConstant v) t
  | typed_comparison cmp l r t : is_comparison cmp = true → comparable t → typed l t → typed r t → typed (BoundComparison cmp l r) (LT BOOLEAN)
  | typed_conjunction is_and c cs : Forall (λ e, typed e (LT BOOLEAN)) (c :: cs) → typed (BoundConjunction is_and (c :: cs)) (LT BOOLEAN)
  | typed_between li ui i l u t : comparable t → typed i t → typed l t → typed u t → typed (BoundBetween li ui i l u) (LT BOOLEAN)
  | typed_coalesce c cs t : Forall (λ e, typed e t) (c :: cs) → typed (BoundOperator OPERATOR_COALESCE (c :: cs)) t
  | typed_is_null type c t : type = OPERATOR_IS_NULL ∨ type = OPERATOR_IS_NOT_NULL → typed c t → typed (BoundOperator type [c]) (LT BOOLEAN)
  | typed_not c : typed c (LT BOOLEAN) → typed (BoundOperator OPERATOR_NOT [c]) (LT BOOLEAN)
  | typed_in type c d ds t : type = OPERATOR_IN ∨ type = OPERATOR_NOT_IN → comparable t → Forall (λ e, typed e t) (c :: d :: ds) →
      typed (BoundOperator type (c :: d :: ds)) (LT BOOLEAN)
  | typed_case checks e t : Forall (λ c, typed c.1 (LT BOOLEAN) ∧ typed c.2 t) checks → typed e t → typed (BoundCase checks e) t
  | typed_constant_or_null v cs : cell_ok (value_type v) v → Value_IsNull v = false → Forall (λ e, ∃ t, typed e t) cs → typed (BoundConstantOrNull v cs) (value_type v).

Lemma typed_return e t : typed e t → return_type e = t.
Proof.
  revert t. induction e as [b ty|v|cmp l r _ _|a cs _|li ui i l u _ _ _|ty cs IH|checks e _ IH|v cs _] using Expression_ind'; intros t H; inversion H; subst; cbn [return_type]; try done.
  - match goal with H : cell_ok _ _ |- _ => by destruct H as (_ & -> & _) end.
  - match goal with H : Forall (λ e, typed e _) _ |- _ => apply Forall_cons in H as [H _]; apply Forall_cons in IH as [IH _]; by apply IH end.
  - match goal with H : _ ∨ _ |- _ => by destruct H as [-> | ->] end.
  - match goal with H : _ ∨ _ |- _ => by destruct H as [-> | ->] end.
  - by apply IH.
Qed.

(** A row of the columns. *)
Definition row_ok (row : ColumnBinding → result Value) : Prop := ∀ b, ∃ v, row b = Ok v ∧ cell_ok (columns b) v.

End Typed.

(** * Values *)

Lemma of_bool_ok b : cell_ok (LT BOOLEAN) (of_bool b).
Proof. split_and!; [by destruct b as [[]|] | by destruct b as [[]|] | by exists b]. Qed.

Lemma BOOLEAN_of b : Value_BOOLEAN b = of_bool (Some b).
Proof. done. Qed.

Lemma as_of_bool b : as_bool (of_bool b) = Ok b.
Proof. by destruct b as [[]|]. Qed.

Lemma bool_cell v : cell_ok (LT BOOLEAN) v → ∃ b, v = of_bool b.
Proof. intros (_ & _ & H). by apply H. Qed.

Lemma comparable_valid t v : comparable t → cell_ok t v → Value_IsNull v = false →
  (GetStatsType t = NUMERIC_STATS ∧ ∃ x, v = V_num t (InternalType t, x)) ∨ (GetStatsType t = STRING_STATS ∧ ∃ b, v = V_string t b).
Proof.
  intros Ht (Hv & Hty & _) Hn. destruct v as [tv|tv [pt x]|tv b|tv vs]; cbn [value_type] in Hty; subst tv; [done| | |].
  - destruct Hv as [_ [Hk Hp]]. cbn in Hp. subst pt. left. split; [done | by eexists].
  - destruct Hv as [_ [Hk _]]. right. split; [done | by eexists].
  - exfalso. destruct Hv as [_ [Hv _]]. destruct Ht as [Ht|Ht]; by rewrite Ht in Hv.
Qed.

Lemma compare_values_ok cmp t l r : is_comparison cmp = true → comparable t → cell_ok t l → cell_ok t r → Value_IsNull l = false → Value_IsNull r = false →
  ∃ b, compare_values cmp l r = Ok b.
Proof.
  intros Hc Ht Hl Hr Nl Nr. destruct (comparable_valid t l Ht Hl Nl) as [[Hk [x ->]]|[Hk [a ->]]], (comparable_valid t r Ht Hr Nr) as [[Hk' [y ->]]|[Hk' [b ->]]]; try congruence.
  - cbn. unfold union_get. cbn [fst snd]. rewrite bool_decide_true by done. cbn. destruct cmp; try done; by eexists.
  - cbn. destruct cmp; try done; by eexists.
Qed.

Lemma Execute_comparison_ok cmp t l r : is_comparison cmp = true → comparable t → cell_ok t l → cell_ok t r → ∃ b, Execute_comparison cmp l r = Ok b.
Proof.
  intros Hc Ht Hl Hr. unfold Execute_comparison. destruct (Value_IsNull l) eqn:Nl, (Value_IsNull r) eqn:Nr; cbn [orb andb].
  1-3: destruct cmp; try done; by eexists.
  destruct (compare_values_ok cmp t l r Hc Ht Hl Hr Nl Nr) as [b ->]. by eexists.
Qed.

Lemma Execute_between_ok li ui t i l u : comparable t → cell_ok t i → cell_ok t l → cell_ok t u → ∃ b, Execute_between li ui i l u = Ok b.
Proof.
  intros Ht Hi Hl Hu. unfold Execute_between. destruct (Execute_comparison_ok (LowerComparisonType li) t i l) as [a ->]; [by destruct li | done..|].
  cbn [mbind result_bind]. destruct (Execute_comparison_ok (UpperComparisonType ui) t i u) as [b ->]; [by destruct ui | done..|]. by eexists.
Qed.

Lemma Execute_in_ok t v d ds : comparable t → cell_ok t v → Forall (cell_ok t) (d :: ds) → ∃ b, Execute_in v (d :: ds) = Ok b.
Proof.
  intros Ht Hv [Hd Hds]%Forall_cons. cbn [Execute_in]. destruct (Execute_comparison_ok COMPARE_EQUAL t v d) as [b ->]; [done..|]. cbn [mbind result_bind].
  revert b. induction Hds as [|c ds Hc _ IH]; intros b; [by eexists|]. cbn [foldM]. destruct (Execute_comparison_ok COMPARE_EQUAL t v c) as [b' ->]; [done..|]. apply IH.
Qed.

(** [COALESCE]: the first value that is not NULL. *)
Fixpoint first_valid (l : list Value) : option Value :=
  match l with [] => None | v :: l => if Value_IsNull v then first_valid l else Some v end.

Lemma first_valid_ok t (l : list Value) : Forall (cell_ok t) l → type_ok t → cell_ok t (default (V_null t) (first_valid l)).
Proof.
  intros Hl Ht. induction Hl as [|v l Hv _ IH]; cbn [first_valid]; [|by destruct (Value_IsNull v)].
  split_and!; [by split | done | intros ->; by exists None].
Qed.

Lemma cell_type_ok t v : cell_ok t v → type_ok t.
Proof. intros (Hv & <- & _). destruct v; by destruct Hv. Qed.

(** Operators on the values of their children. *)
Definition operator_value (type : OperatorType) (t : LogicalType) (values : list Value) : result Value :=
  match type with OPERATOR_COALESCE => Ok (default (V_null t) (first_valid values)) | _ => Execute_operator type values end.

Lemma Execute_operator_value row type cs values : mapR (Execute row) cs = Ok values →
  Execute row (BoundOperator type cs) = operator_value type (return_type (BoundOperator type cs)) values.
Proof.
  intros Em. destruct type; cbn [Execute operator_value]; try (by rewrite Em). set (t := return_type _). clearbody t. revert values Em. induction cs as [|c cs IH]; intros values Em; [by injection Em as <-|].
  cbn [mapR] in Em. apply bind_Ok_inv in Em as (v & -> & Em). apply bind_Ok_inv in Em as (vs & Evs & [= <-]). cbn [mbind result_bind first_valid]. destruct (Value_IsNull v); [by apply IH | done].
Qed.

Section Executed.
Context (columns : ColumnBinding → LogicalType) (row : ColumnBinding → result Value).
Hypothesis Hrow : row_ok columns row.
Abbreviation typed := (typed columns).

Lemma all_executed (R : Expression → Value → Prop) l : Forall (λ e, ∃ v, Execute row e = Ok v ∧ R e v) l → ∃ values, mapR (Execute row) l = Ok values ∧ Forall2 R l values.
Proof. apply mapR_Forall2. Qed.

Lemma Forall2_cells t (l : list Expression) (values : list Value) : Forall2 (λ _, cell_ok t) l values → Forall (cell_ok t) values.
Proof. induction 1; by constructor. Qed.

Lemma as_bools (l : list Value) : Forall (cell_ok (LT BOOLEAN)) l → ∃ bs, mapR as_bool l = Ok bs ∧ l = of_bool <$> bs ∧ length bs = length l.
Proof.
  induction 1 as [|v l Hv _ (bs & E & -> & Hl)]; [by exists []|]. destruct (bool_cell v Hv) as [b ->]. exists (b :: bs).
  cbn [mapR]. rewrite as_of_bool. cbn [mbind result_bind]. unfold mapR in E |- *. rewrite E. split_and!; [done | done | by cbn; f_equal].
Qed.

(** Typed expressions have values. *)
Lemma Execute_typed e : ∀ t, typed e t → ∃ v, Execute row e = Ok v ∧ cell_ok t v.
Proof.
  induction e as [b ty|v|cmp l r IHl IHr|a cs IH|li ui i l u IHi IHl IHu|ty cs IH|checks e IHc IH|v cs IH] using Expression_ind'; intros t H; inversion H; subst; lazymatch goal with |- context [BoundOperator] => idtac | _ => cbn [Execute] end.
  - apply Hrow.
  - by eexists.
  - destruct (IHl _ ltac:(eassumption)) as (lv & -> & Hl), (IHr _ ltac:(eassumption)) as (rv & -> & Hr). cbn [mbind result_bind].
    destruct (Execute_comparison_ok cmp t0 lv rv) as [b ->]; [done..|]. eexists. split; [done | apply of_bool_ok].
  - match goal with H : Forall _ (_ :: _) |- _ => rename H into Hcs end.
    destruct (all_executed (λ _, cell_ok (LT BOOLEAN)) (c :: cs0)) as (values & -> & HF); [rewrite Forall_forall in *; auto|]. cbn [mbind result_bind].
    destruct (as_bools values (Forall2_cells _ _ _ HF)) as (bs & -> & -> & Hlen). cbn [mbind result_bind]. apply Forall2_length in HF. rewrite length_fmap in HF.
    destruct bs as [|b bs]; [done|]. eexists. split; [done | apply of_bool_ok].
  - destruct (IHi _ ltac:(eassumption)) as (iv & -> & Hi), (IHl _ ltac:(eassumption)) as (lv & -> & Hl), (IHu _ ltac:(eassumption)) as (uv & -> & Hu). cbn [mbind result_bind].
    destruct (Execute_between_ok li ui t0 iv lv uv) as [b ->]; [done..|]. eexists. split; [done | apply of_bool_ok].
  - match goal with H : Forall _ (_ :: _) |- _ => rename H into Hcs end. pose proof H as Hret. apply typed_return in Hret. cbn [return_type] in Hret.
    destruct (all_executed (λ _, cell_ok t) (c :: cs0)) as (values & Em & HF); [rewrite Forall_forall in *; auto|]. rewrite (Execute_operator_value row _ _ _ Em).
    eexists. split; [done|]. cbn [return_type]. rewrite Hret. pose proof (Forall2_cells _ _ _ HF) as Hcells. apply first_valid_ok; [done|].
    destruct values as [|v values]; [by apply Forall2_length in HF|]. apply Forall_cons in Hcells as [Hv _]. by eapply cell_type_ok.
  - apply (proj1 (Forall_singleton _ _)) in IH. destruct (IH _ ltac:(eassumption)) as (v & E & Hv). rewrite (Execute_operator_value row _ _ [v]) by (cbn [mapR]; by rewrite E).
    match goal with H : _ ∨ _ |- _ => destruct H as [-> | ->] end; (eexists; split; [done | rewrite BOOLEAN_of; apply of_bool_ok]).
  - apply (proj1 (Forall_singleton _ _)) in IH. destruct (IH _ ltac:(eassumption)) as (v & E & Hv). rewrite (Execute_operator_value row _ _ [v]) by (cbn [mapR]; by rewrite E). cbn [operator_value Execute_operator].
    destruct (bool_cell v Hv) as [b ->]. rewrite as_of_bool. eexists. split; [done | apply of_bool_ok].
  - match goal with H : Forall _ (_ :: _) |- _ => rename H into Hcs end.
    destruct (all_executed (λ _, cell_ok t0) (c :: d :: ds)) as (values & Em & HF); [rewrite Forall_forall in *; auto|]. rewrite (Execute_operator_value row _ _ _ Em). clear Em.
    pose proof (Forall2_cells _ _ _ HF) as Hcells. destruct values as [|v [|w ws]]; try by apply Forall2_length in HF. apply Forall_cons in Hcells as [Hv Hws].
    destruct (Execute_in_ok t0 v w ws) as [b E]; [done..|].
    match goal with H : _ ∨ _ |- _ => destruct H as [-> | ->] end; cbn [operator_value Execute_operator]; rewrite E; (eexists; split; [done | apply of_bool_ok]).
  - match goal with H : Forall _ checks |- _ => rename H into Hcs end. destruct (IH t ltac:(assumption)) as (v & E & Hv). clear H.
    induction checks as [|[w th] checks IHk]; [by exists v|]. apply Forall_cons in IHc as [[IHw IHt] IHc], Hcs as [[Hw Ht] Hcs]. cbn [fst snd] in *.
    destruct (IHw _ Hw) as (wv & -> & Hwv). cbn [mbind result_bind]. destruct (bool_cell wv Hwv) as [b ->]. rewrite as_of_bool. cbn [mbind result_bind].
    destruct (bool_decide (b = Some true)); [by apply IHt | by apply IHk].
  - match goal with H : Forall _ cs |- _ => rename H into Hcs end.
    destruct (all_executed (λ _ _, True) cs) as (values & -> & _).
    { rewrite Forall_forall in *. intros e He. destruct (Hcs e He) as [t Ht], (IH e He t Ht) as (v0 & E & _). by exists v0. }
    cbn [mbind result_bind]. eexists. split; [done|]. unfold ConstantOrNullFunction. destruct (existsb _ _); [|done].
    match goal with H : cell_ok _ v |- _ => pose proof (cell_type_ok _ _ H) end. split_and!; [by split | done | intros E0; exists None; cbn; by rewrite E0].
Qed.
End Executed.

Lemma mapR_ext {A B} (f g : A → result B) l : Forall (λ x, f x = g x) l → mapR f l = mapR g l.
Proof. induction 1 as [|x l Hx _ IH]; [done|]. unfold mapR in *. by rewrite Hx, IH. Qed.

(** Constant expressions do not depend on the row. *)
Lemma Execute_foldable row row' e : IsFoldable e = true → Execute row e = Execute row' e.
Proof.
  assert (∀ cs, Forall (λ e, IsFoldable e = true → Execute row e = Execute row' e) cs → forallb IsFoldable cs = true → mapR (Execute row) cs = mapR (Execute row') cs) as Hlist.
  { intros cs IH Hf. apply mapR_ext. rewrite forallb_forall in Hf. rewrite Forall_forall in *. intros x Hx. apply IH; [done | by apply Hf, list_elem_of_In]. }
  induction e as [b ty|v|cmp l r IHl IHr|a cs IH|li ui i l u IHi IHl IHu|ty cs IH|checks e IHc IH|v cs IH] using Expression_ind'; cbn [IsFoldable Execute]; intros Hf; try done.
  - apply andb_true_iff in Hf as [Hl Hr]. by rewrite IHl, IHr.
  - by rewrite Hlist.
  - apply andb_true_iff in Hf as [Hf Hu]. apply andb_true_iff in Hf as [Hi Hl]. by rewrite IHi, IHl, IHu.
  - destruct ty; try (by rewrite Hlist). set (t := return_type _). clearbody t. induction cs as [|c cs IHc]; [done|]. apply Forall_cons in IH as [IHe IH]. cbn [forallb] in Hf.
    apply andb_true_iff in Hf as [Hc Hf]. rewrite (IHe Hc). destruct (Execute row' c) as [v|]; [|done]. cbn [mbind result_bind]. destruct (Value_IsNull v); [by apply IHc | done].
  - apply andb_true_iff in Hf as [Hc He]. induction checks as [|[w th] checks IHk]; [by apply IH|]. apply Forall_cons in IHc as [[IHw IHt] IHc]. cbn [forallb fst snd] in *.
    apply andb_true_iff in Hc as [Hwt Hc]. apply andb_true_iff in Hwt as [Hw Ht]. by rewrite IHw, IHt, IHk.
  - by rewrite Hlist.
Qed.

(** * Comparisons of statistics *)

(** Statistics of values of type [t]. *)
Definition typed_stats (t : LogicalType) (s : BaseStatistics) : Prop := stats_wf s ∧ stats_type s = t.

Lemma typed_view t s : typed_stats t s → GetStatsType t = NUMERIC_STATS → ∃ lo hi, numeric_view s (InternalType t) lo hi.
Proof. intros [Hwf <-] Hk. apply stats_wf_eq in Hwf as [[_ Hd] _]. unfold node_data in Hd. rewrite Hk in Hd. done. Qed.

(** What an answer says about the comparison of two values. *)
Definition answer_sound (res : FilterPropagateResult) (l r : Value) (b : option bool) : Prop :=
  match res with
  | NO_PRUNING_POSSIBLE => True
  | FILTER_ALWAYS_TRUE => b = Some true
  | FILTER_ALWAYS_FALSE => b = Some false
  | FILTER_TRUE_OR_NULL => b = if Value_IsNull l || Value_IsNull r then None else Some true
  | FILTER_FALSE_OR_NULL => b = if Value_IsNull l || Value_IsNull r then None else Some false
  end.

Section Comparisons.
Context (t : LogicalType) (ls rs : BaseStatistics) (lo hi lo' hi' : Z).
Abbreviation pt := (InternalType t).
Context (Htl : stats_type ls = t) (Htr : stats_type rs = t) (Hk : GetStatsType t = NUMERIC_STATS).
Context (Vl : numeric_view ls pt (Some lo) (Some hi)) (Vr : numeric_view rs pt (Some lo') (Some hi')).

Lemma compare_numbers x y : ValueOperations_GreaterThan (V_num t (pt, x)) (V_num t (pt, y)) = Ok (num_key pt y <? num_key pt x).
Proof. rewrite numeric_GreaterThan; [by rewrite GreaterThan_key | done | by apply (view_numeric _ _ _ _ Vl)]. Qed.

Lemma min_max_lr : NumericStats_Min ls = Ok (V_num t (pt, lo)) ∧ NumericStats_Max ls = Ok (V_num t (pt, hi)) ∧
  NumericStats_Min rs = Ok (V_num t (pt, lo')) ∧ NumericStats_Max rs = Ok (V_num t (pt, hi')).
Proof.
  rewrite (Min_view _ _ _ _ Vl lo), (Max_view _ _ _ _ Vl hi), (Min_view _ _ _ _ Vr lo'), (Max_view _ _ _ _ Vr hi') by done. by rewrite Htl, Htr.
Qed.

Lemma has_min_max_lr : HasMinMax ls = Ok true ∧ HasMinMax rs = Ok true.
Proof.
  unfold HasMinMax. rewrite (HasMin_view _ _ _ _ Vl), (HasMax_view _ _ _ _ Vl), (HasMin_view _ _ _ _ Vr), (HasMax_view _ _ _ _ Vr).
  by rewrite !bool_decide_true by by eexists.
Qed.

(** Values the statistics cover. *)
Context (l r : Value) (Hl : cell_ok t l) (Hr : cell_ok t r) (Cl : covers ls l) (Cr : covers rs r).

Lemma covered_null s v : covers s v → Value_IsNull v = true → CanHaveNull s = true.
Proof. destruct s, v; try done. Qed.

(** [b] is what the comparison gives when no side is NULL. *)
Lemma answer_intro cmp (b : bool) : is_comparison cmp = true → IsCompareDistinct cmp = false →
  (∀ x y, l = V_num t (pt, x) → r = V_num t (pt, y) → num_key pt lo ≤ num_key pt x ≤ num_key pt hi → num_key pt lo' ≤ num_key pt y ≤ num_key pt hi' →
    comparison_holds cmp (num_key pt x =? num_key pt y) (num_key pt y <? num_key pt x) (num_key pt x <? num_key pt y) = Ok b) →
  ∃ o, Execute_comparison cmp l r = Ok o ∧ answer_sound ((if b then always_true else always_false) (CanHaveNull ls || CanHaveNull rs)) l r o.
Proof.
  intros Hc Hd H. unfold Execute_comparison. rewrite Hd. destruct (Value_IsNull l || Value_IsNull r) eqn:En.
  - exists None. split; [by destruct cmp|]. assert (CanHaveNull ls || CanHaveNull rs = true) as ->.
    { apply orb_true_iff in En as [En|En]; apply orb_true_iff; [left | right]; by eapply covered_null. }
    destruct b; cbn; by rewrite En.
  - apply orb_false_iff in En as [Nl Nr]. assert (comparable t) as Ht by (by left).
    destruct (comparable_valid t l Ht Hl Nl) as [[_ [x ->]]|[? _]]; [|congruence]. destruct (comparable_valid t r Ht Hr Nr) as [[_ [y ->]]|[? _]]; [|congruence].
    destruct (covers_interval _ _ _ _ _ _ Vl Cl) as [L1 L2], (covers_interval _ _ _ _ _ _ Vr Cr) as [R1 R2].
    specialize (H x y eq_refl eq_refl). unfold compare_values. cbn. unfold union_get. cbn [fst snd]. rewrite bool_decide_true by done. cbn [mbind result_bind].
    rewrite Equals_key, GreaterThan_key, LessThan_key, H by (split; auto). exists (Some b). split; [done|]. destruct b, (CanHaveNull ls || CanHaveNull rs); done.
Qed.
End Comparisons.

Lemma HasMinMax_view s pt lo hi : numeric_view s pt lo hi → HasMinMax s = Ok (bool_decide (is_Some lo) && bool_decide (is_Some hi)).
Proof. intros V. unfold HasMinMax. rewrite (HasMin_view _ _ _ _ V), (HasMax_view _ _ _ _ V). cbn [mbind result_bind]. by destruct (bool_decide (is_Some lo)). Qed.

Lemma numeric_case t {A} (a b : A) : GetStatsType t = NUMERIC_STATS →
  match InternalType t with BOOL | UINT8 | UINT16 | UINT32 | UINT64 | UINT128 | INT8 | INT16 | INT32 | INT64 | INT128 | FLOAT | DOUBLE => a | _ => b end = a.
Proof. unfold GetStatsType. destruct (bool_decide _); [done|]. by destruct (InternalType t). Qed.

Lemma string_internal t : GetStatsType t = STRING_STATS → InternalType t = PT_VARCHAR.
Proof. unfold GetStatsType. destruct (bool_decide _); [done|]. by destruct (InternalType t). Qed.

(** Answers of [PropagateComparison] are right for all values the statistics
    cover. *)
Lemma PropagateComparison_ok cmp t ls rs :
  comparable t → is_comparison cmp = true → typed_stats t ls → typed_stats t rs →
  ∃ res, PropagateComparison ls rs cmp = Ok res ∧
    ∀ l r o, cell_ok t l → cell_ok t r → covers ls l → covers rs r → Execute_comparison cmp l r = Ok o → answer_sound res l r o.
Proof.
  intros Ht Hc Hls Hrs. pose proof Hls as [_ Tl]. pose proof Hrs as [_ Tr]. unfold PropagateComparison. rewrite Tl. destruct Ht as [Hk|Hk]; [|exists NO_PRUNING_POSSIBLE; by rewrite (string_internal t Hk)].
  rewrite numeric_case by done. destruct (typed_view t ls Hls Hk) as (lo & hi & Vl), (typed_view t rs Hrs Hk) as (lo' & hi' & Vr).
  rewrite (HasMinMax_view _ _ _ _ Vl), (HasMinMax_view _ _ _ _ Vr).
  destruct lo as [lo|], hi as [hi|]; try by exists NO_PRUNING_POSSIBLE. destruct lo' as [lo'|], hi' as [hi'|]; try by exists NO_PRUNING_POSSIBLE.
  rewrite !(bool_decide_true (is_Some _)) by by eexists. cbn [negb andb fmap result_fmap orR mbind result_bind].
  destruct (min_max_lr t ls rs lo hi lo' hi' Tl Tr Vl Vr) as (M1 & M2 & M3 & M4).
  pose proof (compare_numbers t ls lo hi Vl) as Hgt.
  assert (∀ l r o (b : bool), cell_ok t l → cell_ok t r → covers ls l → covers rs r → Execute_comparison cmp l r = Ok o → IsCompareDistinct cmp = false →
    (∀ x y, num_key (InternalType t) lo ≤ x ≤ num_key (InternalType t) hi → num_key (InternalType t) lo' ≤ y ≤ num_key (InternalType t) hi' →
      comparison_holds cmp (x =? y) (y <? x) (x <? y) = Ok b) →
    answer_sound ((if b then always_true else always_false) (CanHaveNull ls || CanHaveNull rs)) l r o) as Hintro.
  { intros l r o b Hl Hr Cl Cr E Hd H. destruct (answer_intro t ls rs lo hi lo' hi' Hk Vl Vr l r Hl Hr Cl Cr cmp b Hc Hd) as (o' & E' & Ho); [intros; auto|]. congruence. }
  destruct cmp; try done; try (by exists NO_PRUNING_POSSIBLE);
    unfold min_max, max_min, decide_comparison, orR, ValueOperations_LessThan, ValueOperations_LessThanEquals, ValueOperations_GreaterThanEquals;
    rewrite ?M1, ?M2, ?M3, ?M4; cbn [mbind result_bind]; rewrite ?Hgt; cbn [mbind result_bind fmap result_fmap];
    repeat match goal with |- context [if ?b then _ else _] => lazymatch b with context [if _ then _ else _] => fail | _ => destruct b eqn:? end; cbn [mbind result_bind] end;
    (eexists; split; [reflexivity|]; try done; intros l r o Hl Hr Cl Cr E;
     first [apply (Hintro l r o true); try done; intros x y ? ?; cbn; f_equal; lia | apply (Hintro l r o false); try done; intros x y ? ?; cbn; f_equal; lia]).
Qed.

(** * Rewriting *)

(** Every bound of a BETWEEN is valid on the row. *)
Definition valid_on (row : ColumnBinding → result Value) (e : Expression) : bool :=
  match Execute row e with Ok v => negb (Value_IsNull v) | Throw _ => false end.

Fixpoint bounds_valid (row : ColumnBinding → result Value) (e : Expression) : bool :=
  match e with
  | BoundColumnRef _ _ | BoundConstant _ => true
  | BoundComparison _ l r => bounds_valid row l && bounds_valid row r
  | BoundConjunction _ cs | BoundOperator _ cs | BoundConstantOrNull _ cs => forallb (bounds_valid row) cs
  | BoundBetween _ _ i l u => bounds_valid row i && bounds_valid row l && bounds_valid row u && valid_on row l && valid_on row u
  | BoundCase checks e => forallb (λ c, bounds_valid row c.1 && bounds_valid row c.2) checks && bounds_valid row e
  end.

Section Rewriting.
Context (columns : ColumnBinding → LogicalType) (m : StatisticsMap).
Hypothesis Hcolumns : ∀ b, type_ok (columns b).
Abbreviation typed := (typed columns).
Abbreviation row_ok := (row_ok columns).

Definition map_typed (m : StatisticsMap) : Prop := ∀ b s, m !! b = Some s → typed_stats (columns b) s.
Definition map_covers (m : StatisticsMap) (row : ColumnBinding → result Value) : Prop := ∀ b s v, m !! b = Some s → row b = Ok v → covers s v.

(** The result of propagating an expression of type [t]. *)
Definition result_typed (p : propagated) (t : LogicalType) : Prop := typed p.1 t ∧ ∀ s, p.2 = Some s → typed_stats t s.

(** On the row it has the value [v], which its statistics cover. *)
Definition has_value (row : ColumnBinding → result Value) (p : propagated) (v : Value) : Prop :=
  Execute row p.1 = Ok v ∧ ∀ s, p.2 = Some s → covers s v.

Lemma has_value_cell row p t v : row_ok row → result_typed p t → has_value row p v → cell_ok t v.
Proof. intros Hrow [Ht _] [E _]. destruct (Execute_typed columns row Hrow _ _ Ht) as (v' & E' & Hv). congruence. Qed.

Lemma constant_ok b : ∃ p, constant_expression (Value_BOOLEAN b) = Ok p ∧ result_typed p (LT BOOLEAN) ∧ ∀ row, has_value row p (of_bool (Some b)).
Proof.
  unfold constant_expression. destruct (FromConstant_ok (Value_BOOLEAN b)) as (s & -> & [Hs Ht] & Hc); [by destruct b|]. eexists. split; [done|]. split.
  - split; [constructor; rewrite BOOLEAN_of; apply of_bool_ok|]. intros s' [= <-]. by split.
  - intros row. split; [done|]. intros s' [= <-]. exact Hc.
Qed.

Lemma constant_or_null_typed b cs : Forall (λ e, ∃ t, typed e t) cs → result_typed (ConstantOrNull cs (Value_BOOLEAN b), None) (LT BOOLEAN).
Proof.
  intros H. split; [|done]. apply (typed_constant_or_null columns (Value_BOOLEAN b)); [apply (of_bool_ok (Some b)) | done|]. constructor; [|done]. eexists. constructor. apply (of_bool_ok (Some b)).
Qed.

Lemma constant_or_null_value row b cs values : mapR (Execute row) cs = Ok values →
  has_value row (ConstantOrNull cs (Value_BOOLEAN b), None) (of_bool (if existsb Value_IsNull values then None else Some b)).
Proof.
  intros E. split; [|done]. cbn [ConstantOrNull fst Execute mapR mbind result_bind]. unfold mapR in E |- *. rewrite E. cbn [mbind result_bind ConstantOrNullFunction drop].
  unfold ConstantOrNullFunction. cbn [drop]. by destruct (existsb _ _).
Qed.

Lemma rewrite_comparison_ok cmp t l r :
  is_comparison cmp = true → comparable t → result_typed l t → result_typed r t →
  ∃ p, rewrite_comparison cmp l r = Ok p ∧ result_typed p (LT BOOLEAN) ∧
    ∀ row lv rv o, row_ok row → has_value row l lv → has_value row r rv → Execute_comparison cmp lv rv = Ok o → has_value row p (of_bool o).
Proof.
  intros Hc Ht Hl Hr. unfold rewrite_comparison.
  assert (result_typed (BoundComparison cmp l.1 r.1, None) (LT BOOLEAN) ∧
    ∀ row lv rv o, row_ok row → has_value row l lv → has_value row r rv → Execute_comparison cmp lv rv = Ok o → has_value row (BoundComparison cmp l.1 r.1, None) (of_bool o)) as Hsame.
  { split; [split; [econstructor; [done | done | apply Hl | apply Hr] | done]|]. intros row lv rv o _ [El _] [Er _] E. split; [|done]. cbn. rewrite El, Er. cbn. by rewrite E. }
  destruct (l.2) as [ls|] eqn:El, (r.2) as [rs|] eqn:Er; try by eexists.
  destruct (PropagateComparison_ok cmp t ls rs Ht Hc (proj2 Hl _ El) (proj2 Hr _ Er)) as (res & -> & Hres). cbn [mbind result_bind].
  assert (∀ row lv rv o, row_ok row → has_value row l lv → has_value row r rv → Execute_comparison cmp lv rv = Ok o → answer_sound res lv rv o) as Hsound.
  { intros row lv rv o Hrow Hlv Hrv E. apply Hres; try done; [exact (has_value_cell row l t lv Hrow Hl Hlv) | exact (has_value_cell row r t rv Hrow Hr Hrv) | by apply Hlv | by apply Hrv]. }
  assert (∀ row lv rv, has_value row l lv → has_value row r rv → mapR (Execute row) [l.1; r.1] = Ok [lv; rv]) as Hpair.
  { intros row lv rv [El' _] [Er' _]. cbn. rewrite El'. cbn. by rewrite Er'. }
  assert (Forall (λ e, ∃ t, typed e t) [l.1; r.1]) as Htyped by (apply Forall_cons; split; [exists t; apply Hl | apply Forall_singleton; exists t; apply Hr]).
  destruct res; [by eexists| | | |].
  - destruct (constant_ok true) as (p & -> & Hp & Hv). exists p. split_and!; [done | done|]. intros row lv rv o Hrow Hlv Hrv E. by rewrite (Hsound row lv rv o Hrow Hlv Hrv E).
  - destruct (constant_ok false) as (p & -> & Hp & Hv). exists p. split_and!; [done | done|]. intros row lv rv o Hrow Hlv Hrv E. by rewrite (Hsound row lv rv o Hrow Hlv Hrv E).
  - eexists. split_and!; [done | by apply constant_or_null_typed|]. intros row lv rv o Hrow Hlv Hrv E. rewrite (Hsound row lv rv o Hrow Hlv Hrv E).
    pose proof (constant_or_null_value row true _ _ (Hpair row lv rv Hlv Hrv)) as H. cbn [existsb] in H. by rewrite orb_false_r in H.
  - eexists. split_and!; [done | by apply constant_or_null_typed|]. intros row lv rv o Hrow Hlv Hrv E. rewrite (Hsound row lv rv o Hrow Hlv Hrv E).
    pose proof (constant_or_null_value row false _ _ (Hpair row lv rv Hlv Hrv)) as H. cbn [existsb] in H. by rewrite orb_false_r in H.
Qed.

(** Regular comparisons are NULL exactly when one side is. *)
Lemma comparison_null cmp l r o : IsCompareDistinct cmp = false → Execute_comparison cmp l r = Ok o → (o = None ↔ Value_IsNull l || Value_IsNull r = true).
Proof.
  intros Hd. unfold Execute_comparison. rewrite Hd. destruct (Value_IsNull l || Value_IsNull r); [destruct (comparison_holds _ _ _ _); [by intros [= <-] | done]|].
  destruct (compare_values cmp l r); [|done]. by intros [= <-].
Qed.

(** The answer for one bound; without statistics there is none. *)
Lemma bound_answer cmp t i bound istats : comparable t → is_comparison cmp = true → result_typed i t → result_typed bound t → i.2 = Some istats →
  ∃ res, match bound.2 with Some s => PropagateComparison istats s cmp | None => Ok NO_PRUNING_POSSIBLE end = Ok res ∧
    ∀ row iv bv o, row_ok row → has_value row i iv → has_value row bound bv → Execute_comparison cmp iv bv = Ok o → answer_sound res iv bv o.
Proof.
  intros Ht Hc Hi Hb Es. destruct (bound.2) as [bs|] eqn:Eb; [|by exists NO_PRUNING_POSSIBLE].
  destruct (PropagateComparison_ok cmp t istats bs Ht Hc (proj2 Hi _ Es) (proj2 Hb _ Eb)) as (res & -> & Hres). exists res. split; [done|].
  intros row iv bv o Hrow Hiv Hbv E. apply Hres; [exact (has_value_cell row i t iv Hrow Hi Hiv) | exact (has_value_cell row bound t bv Hrow Hb Hbv) | by apply Hiv | by apply Hbv | done].
Qed.

(** What a rewritten BETWEEN may return instead of [o]. *)
Definition between_result (lv uv : Value) (o o' : option bool) : Prop :=
  (o' = o ∨ (o' = None ∧ o = Some false)) ∧ (Value_IsNull lv = false → Value_IsNull uv = false → o' = o).

(** BETWEEN as a constant or NULL, where [ni], [nl] and [nu] say which values
    are NULL and [a] and [b] are the comparisons. *)
Lemma between_null (ni nl nu c : bool) a b :
  (a = None ↔ ni || nl = true) → (b = None ↔ ni || nu = true) →
  (if c then a = (if ni || nl then None else Some true) ∧ b = (if ni || nu then None else Some true)
   else a = (if ni || nl then None else Some false) ∨ b = (if ni || nu then None else Some false)) →
  let o' := if ni || (nl || nu) then None else Some c in
  (o' = TernaryAnd a b ∨ (o' = None ∧ TernaryAnd a b = Some false)) ∧ (nl = false → nu = false → o' = TernaryAnd a b).
Proof. destruct ni, nl, nu, c, a as [[]|], b as [[]|]; cbn; intuition congruence. Qed.

Lemma ternary_false a b : a = Some false ∨ b = Some false → TernaryAnd a b = Some false.
Proof. by destruct a as [[]|], b as [[]|]; intros []. Qed.

Lemma ternary_true a : TernaryAnd (Some true) a = a ∧ TernaryAnd a (Some true) = a.
Proof. by destruct a as [[]|]. Qed.

Lemma between_same lv uv o : between_result lv uv o o.
Proof. split; [by left | done]. Qed.

Lemma rewrite_between_ok li ui t i l u :
  comparable t → result_typed i t → result_typed l t → result_typed u t →
  ∃ p, rewrite_between li ui i l u = Ok p ∧ result_typed p (LT BOOLEAN) ∧
    ∀ row iv lv uv o, row_ok row → has_value row i iv → has_value row l lv → has_value row u uv → Execute_between li ui iv lv uv = Ok o →
      ∃ o', has_value row p (of_bool o') ∧ between_result lv uv o o'.
Proof.
  intros Ht Hi Hl Hu. unfold rewrite_between.
  assert (result_typed (BoundBetween li ui i.1 l.1 u.1, None) (LT BOOLEAN) ∧ ∀ row iv lv uv o, row_ok row → has_value row i iv → has_value row l lv → has_value row u uv →
    Execute_between li ui iv lv uv = Ok o → ∃ o', has_value row (BoundBetween li ui i.1 l.1 u.1, None) (of_bool o') ∧ between_result lv uv o o') as Hsame.
  { split; [split; [econstructor; [done | apply Hi | apply Hl | apply Hu] | done]|]. intros row iv lv uv o _ [Ei _] [El _] [Eu _] E. exists o. split; [|apply between_same].
    split; [|done]. cbn [fst Execute]. rewrite Ei, El, Eu. cbn [mbind result_bind]. by rewrite E. }
  destruct (i.2) as [istats|] eqn:Es; [|by eexists].
  set (lc := LowerComparisonType li). set (uc := UpperComparisonType ui).
  assert (is_comparison lc = true ∧ IsCompareDistinct lc = false) as [Hlc Dlc] by (by destruct li). assert (is_comparison uc = true ∧ IsCompareDistinct uc = false) as [Huc Duc] by (by destruct ui).
  destruct (bound_answer lc t i l istats Ht Hlc Hi Hl Es) as (lp & -> & Hlp), (bound_answer uc t i u istats Ht Huc Hi Hu Es) as (up & -> & Hup). cbn [mbind result_bind].
  assert (∀ row iv lv uv, has_value row i iv → has_value row l lv → has_value row u uv → mapR (Execute row) [i.1; l.1; u.1] = Ok [iv; lv; uv]) as Hthree.
  { intros row iv lv uv [Ei _] [El _] [Eu _]. cbn. rewrite Ei. cbn. rewrite El. cbn. by rewrite Eu. }
  assert (∀ b, result_typed (ConstantOrNull [i.1; l.1; u.1] (Value_BOOLEAN b), None) (LT BOOLEAN)) as Hcon.
  { intros b. apply constant_or_null_typed. apply Forall_cons. split; [exists t; apply Hi|]. apply Forall_cons. split; [exists t; apply Hl|]. apply Forall_singleton. exists t. apply Hu. }
  assert (∀ b, result_typed (BoundConstant (Value_BOOLEAN b), None) (LT BOOLEAN)) as Hconst by (intros b; split; [constructor; apply (of_bool_ok (Some b)) | done]).
  assert (∀ cmp e, is_comparison cmp = true → typed e t → result_typed (BoundComparison cmp i.1 e, None) (LT BOOLEAN)) as Hcmp.
  { intros cmp e Hc He. split; [econstructor; [done | done | apply Hi | done] | done]. }
  assert (∀ row iv lv uv o, row_ok row → has_value row i iv → has_value row l lv → has_value row u uv → Execute_between li ui iv lv uv = Ok o →
    ∃ a b, o = TernaryAnd a b ∧ answer_sound lp iv lv a ∧ answer_sound up iv uv b ∧ (a = None ↔ Value_IsNull iv || Value_IsNull lv = true) ∧
      (b = None ↔ Value_IsNull iv || Value_IsNull uv = true) ∧ Execute row (BoundComparison lc i.1 l.1) = Ok (of_bool a) ∧ Execute row (BoundComparison uc i.1 u.1) = Ok (of_bool b)) as Hparts.
  { intros row iv lv uv o Hrow Hiv Hlv Huv E. unfold Execute_between in E. fold lc uc in E. apply bind_Ok_inv in E as (a & Ea & E). apply bind_Ok_inv in E as (b & Eb & [= <-]).
    exists a, b. split_and!; [done | by eapply Hlp | by eapply Hup | by apply (comparison_null lc) | by apply (comparison_null uc)| |];
      cbn [Execute]; destruct Hiv as [Ei _], Hlv as [El _], Huv as [Eu _]; rewrite Ei, ?El, ?Eu; cbn [mbind result_bind]; by rewrite ?Ea, ?Eb. }
  eexists. split; [reflexivity|]. destruct Hsame as [Hst Hsv].
  split; [repeat case_bool_decide; cbn [andb orb]; auto; apply Hcmp; try done; try apply Hl; try apply Hu|].
  intros row iv lv uv o Hrow Hiv Hlv Huv E. destruct (Hparts row iv lv uv o Hrow Hiv Hlv Huv E) as (a & b & -> & Ha & Hb & Na & Nb & Ea & Eb).
  destruct (Hsv row iv lv uv _ Hrow Hiv Hlv Huv E) as (o' & Ho' & Hr'). clear Hsv Hparts Hlp Hup.
  pose proof (λ b, constant_or_null_value row b _ _ (Hthree row iv lv uv Hiv Hlv Huv)) as Hnull. cbn [existsb] in Hnull.
  pose proof (ternary_true a) as [_ Ta]. pose proof (ternary_true b) as [Tb _]. setoid_rewrite orb_false_r in Hnull.
  destruct lp, up; rewrite ?bool_decide_true, ?bool_decide_false by done; cbn [andb orb]; cbn [answer_sound] in Ha, Hb;
    first [exists o'; exact (conj Ho' Hr')
      | exists (Some true); split; [by split | rewrite Ha, Hb; apply between_same]
      | exists (Some false); split; [by split | rewrite ternary_false by (by auto); apply between_same]
      | eexists; split; [apply Hnull | apply between_null; auto]
      | exists b; split; [by split | rewrite Ha, Tb; apply between_same]
      | exists a; split; [by split | rewrite Hb, Ta; apply between_same]].
Qed.

(** ** Conjunctions *)

Definition connect (is_and : bool) : option bool → option bool → option bool := if is_and then TernaryAnd else TernaryOr.
Definition conj_value (is_and : bool) (bs : list (option bool)) : option bool := foldr (connect is_and) (Some is_and) bs.

Lemma Execute_conjunction_ok is_and b bs : Execute_conjunction is_and (b :: bs) = Ok (conj_value is_and (b :: bs)).
Proof.
  cbn [Execute_conjunction conj_value foldr]. f_equal. revert b. induction bs as [|c bs IH]; intros b; cbn [fold_left foldr]; [by destruct is_and, b as [[]|]|].
  rewrite IH. destruct is_and, b as [[]|], c as [[]|]; cbn; by destruct (foldr _ _ bs) as [[]|].
Qed.

Lemma connect_unit is_and b : connect is_and (Some is_and) b = b.
Proof. by destruct is_and, b as [[]|]. Qed.

Lemma connect_zero is_and b : connect is_and (Some (negb is_and)) b = Some (negb is_and) ∧ connect is_and b (Some (negb is_and)) = Some (negb is_and).
Proof. by destruct is_and, b as [[]|]. Qed.

Definition null_row (b : ColumnBinding) : result Value := Ok (V_null (columns b)).

Lemma null_row_ok : row_ok null_row.
Proof. intros b. eexists. split; [done|]. split_and!; [split; [apply Hcolumns | done] | done | intros E; exists None; cbn; by rewrite E]. Qed.

Lemma check_conjunct_ok is_and e : typed e (LT BOOLEAN) →
  ∃ r, check_conjunct is_and e = Ok r ∧ match r with DecidedBy d => d = negb is_and | _ => True end ∧
    ∀ row b, Execute row e = Ok (of_bool b) → match r with KeepChild => True | DropChild => b = Some is_and | DecidedBy d => b = Some d end.
Proof.
  intros Ht. unfold check_conjunct. destruct (IsFoldable e) eqn:Hf; [|by exists KeepChild]. cbn [negb]. unfold EvaluateScalar. rewrite (Execute_foldable _ null_row e Hf).
  destruct (Execute_typed columns null_row null_row_ok e _ Ht) as (v & E & Hv). rewrite E. cbn [mbind result_bind]. destruct (bool_cell v Hv) as [b ->]. rewrite as_of_bool. cbn [mbind result_bind].
  eexists. split; [reflexivity|]. split; [by destruct b as [[]|], is_and|]. intros row b' E'. rewrite (Execute_foldable row null_row e Hf), E in E'. assert (b' = b) as -> by (injection E'; destruct b as [[]|], b' as [[]|]; done).
  by destruct b as [[]|], is_and.
Qed.

(** What is known about a row on which [e] is executed. *)
Definition usable (row : ColumnBinding → result Value) (e : Expression) : Prop := row_ok row ∧ map_covers m row ∧ bounds_valid row e = true.

(** [p] may take the place of [e]. *)
Definition replaces (e : Expression) (t : LogicalType) (p : propagated) : Prop :=
  result_typed p t ∧ ∀ row v, usable row e → Execute row e = Ok v → has_value row p v.

Lemma of_bool_inj b b' : of_bool b = of_bool b' → b = b'.
Proof. by destruct b as [[]|], b' as [[]|]. Qed.

Lemma conjunction_children_ok f is_and cs :
  Forall (λ e, ∃ p, f e = Ok p ∧ replaces e (LT BOOLEAN) p) cs →
  ∃ res, conjunction_children f is_and cs = Ok res ∧
    match res with inl d => d = negb is_and | inr l => Forall (λ e, typed e (LT BOOLEAN)) l end ∧
    ∀ row bs, Forall (usable row) cs → mapR (Execute row) cs = Ok (of_bool <$> bs) →
      match res with inl d => conj_value is_and bs = Some d | inr l => ∃ bs', mapR (Execute row) l = Ok (of_bool <$> bs') ∧ conj_value is_and bs' = conj_value is_and bs end.
Proof.
  induction 1 as [|e cs (p & E & [Hp Hv]) _ (res & Er & Hres & IH)].
  { exists (inr []). split_and!; [done | constructor|]. intros row bs _ [= Hbs]. exists []. split; [done|]. by destruct bs. }
  destruct p as [e' st]. cbn [conjunction_children]. rewrite E. cbn [mbind result_bind]. destruct (check_conjunct_ok is_and e' (proj1 Hp)) as (r & -> & Hd & Hr). cbn [mbind result_bind].
  fold (conjunction_children f is_and).
  assert (∀ row bs, Forall (usable row) (e :: cs) → mapR (Execute row) (e :: cs) = Ok (of_bool <$> bs) →
    ∃ b bs', bs = b :: bs' ∧ Execute row e' = Ok (of_bool b) ∧ Forall (usable row) cs ∧ mapR (Execute row) cs = Ok (of_bool <$> bs')) as Hsplit.
  { intros row bs [Hu Hus]%Forall_cons Hm. cbn [mapR] in Hm. apply bind_Ok_inv in Hm as (v & Ev & Hm). apply bind_Ok_inv in Hm as (vs & Evs & [= Hvs]).
    destruct bs as [|b bs]; [done|]. injection Hvs as -> ->. exists b, bs. split_and!; [done | by apply (Hv row _ Hu Ev) | done | done]. }
  destruct r as [| |d]; rewrite ?Er; cbn [mbind result_bind].
  - eexists. split; [reflexivity|]. split; [destruct res; [done | constructor; [apply Hp | done]]|]. intros row bs Hu Hm. destruct (Hsplit row bs Hu Hm) as (b & bs' & -> & Eb & Hus & Hm').
    specialize (IH row bs' Hus Hm'). destruct res as [d|l]; cbn [conj_value foldr].
    + unfold conj_value in IH. rewrite IH, Hres. apply connect_zero.
    + destruct IH as (bs2 & Em & Ec). exists (b :: bs2). split; [|cbn [conj_value foldr]; unfold conj_value in Ec; by rewrite Ec]. cbn [mapR]. rewrite Eb. cbn [mbind result_bind].
      unfold mapR in Em |- *. by rewrite Em.
  - exists res. split_and!; [done | done|]. intros row bs Hu Hm. destruct (Hsplit row bs Hu Hm) as (b & bs' & -> & Eb & Hus & Hm'). specialize (IH row bs' Hus Hm').
    rewrite (Hr row b Eb). cbn [conj_value foldr]. rewrite connect_unit. exact IH.
  - exists (inl d). split_and!; [done | done|]. intros row bs Hu Hm. destruct (Hsplit row bs Hu Hm) as (b & bs' & -> & Eb & _ & _).
    rewrite (Hr row b Eb), Hd. cbn [conj_value foldr]. apply connect_zero.
Qed.

Lemma usable_children row cs e : usable row e → bounds_valid row e = forallb (bounds_valid row) cs → Forall (usable row) cs.
Proof.
  intros (Hr & Hm & Hb) Eb. rewrite Eb, forallb_forall in Hb. apply Forall_forall. intros c Hc. split_and!; [done | done | by apply Hb, list_elem_of_In].
Qed.

Lemma bool_values row cs : row_ok row → Forall (λ e, typed e (LT BOOLEAN)) cs → ∃ bs, mapR (Execute row) cs = Ok (of_bool <$> bs) ∧ length bs = length cs.
Proof.
  intros Hrow. induction 1 as [|e cs He _ (bs & E & Hl)]; [by exists []|]. destruct (Execute_typed columns row Hrow e _ He) as (v & Ev & Hv). destruct (bool_cell v Hv) as [b ->].
  exists (b :: bs). cbn [mapR]. rewrite Ev. cbn [mbind result_bind]. unfold mapR in E |- *. rewrite E. split; [done | by cbn; f_equal].
Qed.

Lemma as_of_bools bs : mapR as_bool (of_bool <$> bs) = Ok bs.
Proof. induction bs as [|b bs IH]; [done|]. cbn [fmap list_fmap mapR]. rewrite as_of_bool. cbn [mbind result_bind]. unfold mapR in IH |- *. by rewrite IH. Qed.

Lemma Execute_conjunction_value row is_and cs bs : mapR (Execute row) cs = Ok (of_bool <$> bs) → bs ≠ [] → Execute row (BoundConjunction is_and cs) = Ok (of_bool (conj_value is_and bs)).
Proof. intros E Hne. cbn [Execute]. rewrite E. cbn [mbind result_bind]. rewrite as_of_bools. cbn [mbind result_bind]. destruct bs as [|b bs]; [done|]. by rewrite Execute_conjunction_ok. Qed.

Lemma rewrite_conjunction_ok f is_and cs : cs ≠ [] → Forall (λ e, typed e (LT BOOLEAN)) cs → Forall (λ e, ∃ p, f e = Ok p ∧ replaces e (LT BOOLEAN) p) cs →
  ∃ p, (children ← conjunction_children f is_and cs; rewrite_conjunction is_and children) = Ok p ∧ replaces (BoundConjunction is_and cs) (LT BOOLEAN) p.
Proof.
  intros Hne Ht Hcs. destruct (conjunction_children_ok f is_and cs Hcs) as (res & -> & Hres & Hv). cbn [mbind result_bind].
  assert (∀ row v, usable row (BoundConjunction is_and cs) → Execute row (BoundConjunction is_and cs) = Ok v → ∃ b, v = of_bool b ∧
    match res with inl d => b = Some d | inr l => ∃ bs', mapR (Execute row) l = Ok (of_bool <$> bs') ∧ conj_value is_and bs' = b end) as Hval.
  { intros row v Hu E. pose proof (usable_children row cs _ Hu eq_refl) as Hus. destruct Hu as [Hrow _]. destruct (bool_values row cs Hrow Ht) as (bs & Em & Hl).
    rewrite (Execute_conjunction_value row is_and cs bs Em) in E by (intros ->; by destruct cs). injection E as <-. eexists. split; [done|].
    specialize (Hv row bs Hus Em). destruct res as [d|l]; [done|]. destruct Hv as (bs' & ? & ?). by exists bs'. }
  destruct res as [d|l]; cbn [rewrite_conjunction].
  { destruct (constant_ok d) as (p & -> & Hp & Hc). exists p. split; [done|]. split; [done|]. intros row v Hu E. destruct (Hval row v Hu E) as (b & -> & ->). apply Hc. }
  destruct l as [|e1 [|e2 l]].
  - destruct (constant_ok is_and) as (p & -> & Hp & Hc). exists p. split; [done|]. split; [done|]. intros row v Hu E. destruct (Hval row v Hu E) as (b & -> & bs' & [= Hbs] & <-). destruct bs'; [|done]. apply Hc.
  - eexists. split; [done|]. apply (proj1 (Forall_singleton _ _)) in Hres. split; [by split|]. intros row v Hu E. destruct (Hval row v Hu E) as (b & -> & bs' & Em & <-). split; [|done].
    cbn [mapR] in Em. apply bind_Ok_inv in Em as (v1 & E1 & [= Hbs]). destruct bs' as [|b1 [|]]; try done. injection Hbs as ->. cbn [conj_value foldr fst]. rewrite E1. by destruct is_and, b1 as [[]|].
  - eexists. split; [done|]. split; [split; [by constructor | done]|]. intros row v Hu E. destruct (Hval row v Hu E) as (b & -> & bs' & Em & <-). split; [|done].
    apply Execute_conjunction_value; [done|]. intros ->. cbn in Em. by repeat (apply bind_Ok_inv in Em as (? & _ & Em)).
Qed.

(** ** Lists of children *)

Definition children_replaced (cs : list Expression) (children : list propagated) : Prop := Forall2 (λ e p, ∀ t, typed e t → replaces e t p) cs children.

Lemma replaced_all f cs : Forall (λ e, ∀ t, typed e t → ∃ p, f e = Ok p ∧ replaces e t p) cs → Forall (λ e, ∃ t, typed e t) cs →
  ∃ children, mapR f cs = Ok children ∧ children_replaced cs children.
Proof.
  intros IH Ht. apply (mapR_Forall2 f (λ e p, ∀ t, typed e t → replaces e t p)). rewrite Forall_forall in *. intros e He. destruct (Ht e He) as [t Hte], (IH e He t Hte) as (p & E & Hp).
  exists p. split; [done|]. intros t' Ht'. apply typed_return in Hte, Ht'. congruence.
Qed.

Lemma replaced_typed cs children t : children_replaced cs children → Forall (λ e, typed e t) cs → Forall (λ e, typed e t) children.*1.
Proof. induction 1 as [|e p cs children Hp _ IH]; [done|]. intros [He Hcs]%Forall_cons. constructor; [by apply (Hp t He) | by apply IH]. Qed.

Lemma replaced_some cs children : children_replaced cs children → Forall (λ e, ∃ t, typed e t) cs → Forall (λ e, ∃ t, typed e t) children.*1.
Proof. induction 1 as [|e p cs children Hp _ IH]; [done|]. intros [[t He] Hcs]%Forall_cons. constructor; [exists t; by apply (Hp t He) | by apply IH]. Qed.

Lemma replaced_values row cs children values :
  children_replaced cs children → Forall (λ e, ∃ t, typed e t) cs → Forall (usable row) cs → mapR (Execute row) cs = Ok values →
  mapR (Execute row) children.*1 = Ok values ∧ Forall2 (has_value row) children values.
Proof.
  intros HF. revert values. induction HF as [|e p cs children Hp _ IH]; intros values Ht Hu E; [by injection E as <-|].
  apply Forall_cons in Ht as [[t He] Ht], Hu as [Hue Hu]. cbn [mapR] in E. apply bind_Ok_inv in E as (v & Ev & E). apply bind_Ok_inv in E as (vs & Evs & [= <-]).
  destruct (IH vs Ht Hu Evs) as [Em HF']. pose proof (proj2 (Hp t He) row v Hue Ev) as Hv. split; [|by constructor]. cbn [fmap list_fmap mapR]. destruct Hv as [-> _]. cbn [mbind result_bind].
  unfold mapR in Em |- *. by rewrite Em.
Qed.

(** ** Operators *)

Lemma typed_operator_children type cs t : typed (BoundOperator type cs) t → Forall (λ e, ∃ t, typed e t) cs.
Proof.
  intros H; inversion H; subst; try (apply Forall_singleton; eexists; eassumption);
    (eapply Forall_impl; [match goal with H : Forall _ _ |- _ => exact H end|]; intros e He; eexists; exact He).
Qed.

Lemma typed_operator_replaced type cs children t : children_replaced cs children → typed (BoundOperator type cs) t → typed (BoundOperator type children.*1) t.
Proof.
  intros HF H. inversion H; subst.
  - pose proof (replaced_typed _ _ t HF ltac:(eassumption)) as Ht. destruct children as [|p children]; [by inversion HF|]. cbn [fmap list_fmap] in Ht |- *. by apply typed_coalesce.
  - pose proof (replaced_typed _ _ t0 HF) as Ht. destruct children as [|p [|]]; inversion HF as [|????? HF']; subst; try by inversion HF'. eapply typed_is_null; [done|]. assert (Forall (λ e, typed e t0) [p.1]) as Hp by (apply Ht; by apply Forall_singleton). apply (proj1 (Forall_singleton _ _)) in Hp. exact Hp.
  - pose proof (replaced_typed _ _ (LT BOOLEAN) HF) as Ht. destruct children as [|p [|]]; inversion HF as [|????? HF']; subst; try by inversion HF'. apply typed_not. assert (Forall (λ e, typed e (LT BOOLEAN)) [p.1]) as Hp by (apply Ht; by apply Forall_singleton). by apply (proj1 (Forall_singleton _ _)) in Hp.
  - pose proof (replaced_typed _ _ t0 HF ltac:(eassumption)) as Ht. destruct children as [|p [|q children]]; [by inversion HF | by apply Forall2_length in HF|]. cbn [fmap list_fmap] in Ht |- *. by eapply typed_in.
Qed.

Lemma operator_children_values row type cs t : typed (BoundOperator type cs) t → usable row (BoundOperator type cs) → ∃ values, mapR (Execute row) cs = Ok values.
Proof.
  intros Ht [Hrow _]. destruct (all_executed row (λ _ _, True) cs) as (values & E & _); [|by exists values]. eapply Forall_impl; [exact (typed_operator_children _ _ _ Ht)|].
  intros e [te He]. destruct (Execute_typed columns row Hrow e te He) as (v & Ev & _). by exists v.
Qed.

Lemma kept_operator type cs children t : children_replaced cs children → typed (BoundOperator type cs) t → replaces (BoundOperator type cs) t (BoundOperator type children.*1, None).
Proof.
  intros HF Ht. pose proof (typed_operator_replaced type cs children t HF Ht) as Ht'. split; [by split|]. intros row v Hu E. split; [|done].
  destruct (operator_children_values row type cs t Ht Hu) as (values & Em). destruct (replaced_values row cs children values HF (typed_operator_children _ _ _ Ht) (usable_children row cs _ Hu eq_refl) Em) as [Em' _].
  cbn [fst]. rewrite (Execute_operator_value row _ _ _ Em'), (typed_return _ _ _ Ht'). by rewrite (Execute_operator_value row _ _ _ Em), (typed_return _ _ _ Ht) in E.
Qed.

Lemma null_test s v : covers s v → (CanHaveNull s = false → Value_IsNull v = false) ∧ (CanHaveNoNull s = false → Value_IsNull v = true).
Proof. destruct s as [ty n nn d u c], v; cbn; intros H; [by subst n|..]; destruct H as [-> _]; done. Qed.

Lemma all_statistics_ok children stats : all_statistics children = Some stats → children = (λ c : Expression * BaseStatistics, (c.1, Some c.2)) <$> stats.
Proof.
  unfold all_statistics. rewrite mapM_Some. induction 1 as [|[e st] [e' s'] children stats Hx _ IH]; [done|]. cbn in Hx. destruct st as [s|]; [|done]. cbn in Hx. injection Hx as <- <-. cbn. by rewrite <- IH.
Qed.

Lemma null_operator type c p t (b : bool) : (type = OPERATOR_IS_NULL ∧ b = true) ∨ (type = OPERATOR_IS_NOT_NULL ∧ b = false) →
  typed (BoundOperator type [c]) (LT BOOLEAN) → children_replaced [c] [p] → typed c t →
  ∃ q, rewrite_operator type [p] = Ok q ∧ replaces (BoundOperator type [c]) (LT BOOLEAN) q.
Proof.
  intros Hb Ht HF Hc. pose proof (kept_operator type [c] [p] _ HF Ht) as Hkeep. unfold rewrite_operator. destruct p as [e [s|]]; [|by eexists].
  cbn [all_statistics mapM mbind option_bind mret option_ret fst snd]. apply Forall2_cons in HF as [Hp _]. destruct (Hp t Hc) as [_ Hv].
  assert (∀ row v, usable row (BoundOperator type [c]) → Execute row (BoundOperator type [c]) = Ok v → ∃ w, covers s w ∧ v = Value_BOOLEAN (if b then Value_IsNull w else negb (Value_IsNull w))) as Hval.
  { intros row v Hu E. pose proof (usable_children row [c] _ Hu eq_refl) as Hus. apply (proj1 (Forall_singleton _ _)) in Hus.
    destruct (Execute_typed columns row (proj1 Hu) c t Hc) as (w & Ew & _). rewrite (Execute_operator_value row type [c] [w]) in E by (cbn; by rewrite Ew).
    exists w. split; [by apply (Hv row w Hus Ew)|]. destruct Hb as [[-> ->]|[-> ->]]; by injection E as <-. }
  assert (∀ d, (∀ w, covers s w → (if b then Value_IsNull w else negb (Value_IsNull w)) = d) → ∃ q, constant_expression (Value_BOOLEAN d) = Ok q ∧ replaces (BoundOperator type [c]) (LT BOOLEAN) q) as Hconst.
  { intros d Hd. destruct (constant_ok d) as (q & -> & Hq & Hw). exists q. split; [done|]. split; [done|]. intros row v Hu E. destruct (Hval row v Hu E) as (w & Hcw & ->). rewrite (Hd w Hcw). apply Hw. }
  destruct Hb as [[-> ->]|[-> ->]]; cbn [rewrite_operator]; (destruct (CanHaveNull s) eqn:En; cbn [negb]; [|apply Hconst; intros w Hw; by rewrite (proj1 (null_test s w Hw) En)]);
    (destruct (CanHaveNoNull s) eqn:Enn; cbn [negb]; [by eexists | apply Hconst; intros w Hw; by rewrite (proj2 (null_test s w Hw) Enn)]).
Qed.

(** ** COALESCE *)

Definition row_value (row : ColumnBinding → result Value) (c : Expression * BaseStatistics) (v : Value) : Prop := Execute row c.1 = Ok v ∧ covers c.2 v.

Lemma first_valid_app l1 l2 : first_valid (l1 ++ l2) = match first_valid l1 with Some v => Some v | None => first_valid l2 end.
Proof. induction l1 as [|v l1 IH]; [done|]. cbn. by destruct (Value_IsNull v). Qed.

Lemma coalesce_children_from (P : Expression * BaseStatistics → Prop) rest : ∀ kept, Forall P kept → Forall P rest → Forall P (coalesce_children kept rest).
Proof.
  induction rest as [|c rest IH]; intros kept Hk Hr; [done|]. apply Forall_cons in Hr as [Hc Hr]. cbn [coalesce_children].
  assert (Forall P (kept ++ [c])) as Hkc by (apply Forall_app; split; [done | by apply Forall_singleton]).
  destruct (CanHaveNoNull c.2); cbn [negb]; [destruct (CanHaveNull c.2); cbn [negb]; auto|]. destruct (1 <? _)%nat; auto.
Qed.

Lemma coalesce_children_some rest : ∀ kept, kept ++ rest ≠ [] → coalesce_children kept rest ≠ [].
Proof.
  induction rest as [|c rest IH]; intros kept Hne; cbn [coalesce_children]; [by rewrite app_nil_r in Hne|].
  assert (∀ l, (kept ++ [c]) ++ l ≠ []) as Hkc by (intros l; by destruct kept).
  destruct (CanHaveNoNull c.2); cbn [negb]; [destruct (CanHaveNull c.2); cbn [negb]; [by apply IH | specialize (Hkc []); by rewrite app_nil_r in Hkc]|].
  destruct (Nat.ltb_spec 1 (length kept + S (length rest))); [|by apply IH]. apply IH. destruct kept; [|done]. destruct rest; [cbn in *; lia | done].
Qed.

Lemma coalesce_children_value row rest : ∀ kept vk vr, Forall2 (row_value row) kept vk → Forall2 (row_value row) rest vr →
  ∃ vl, Forall2 (row_value row) (coalesce_children kept rest) vl ∧ first_valid vl = first_valid (vk ++ vr).
Proof.
  induction rest as [|c rest IH]; intros kept vk vr Hk Hr.
  { apply Forall2_nil_inv_l in Hr as ->. exists vk. by rewrite app_nil_r. }
  apply Forall2_cons_inv_l in Hr as (v & vr' & [Ev Hc] & Hr & ->). destruct (null_test c.2 v Hc) as [Hnn Hn]. cbn [coalesce_children].
  assert (Forall2 (row_value row) (kept ++ [c]) (vk ++ [v])) as Hkc by (apply Forall2_app; [done | by repeat constructor]).
  assert (∃ vl, Forall2 (row_value row) (coalesce_children (kept ++ [c]) rest) vl ∧ first_valid vl = first_valid (vk ++ v :: vr')) as Hkeep.
  { destruct (IH _ _ _ Hkc Hr) as (vl & H1 & H2). exists vl. by rewrite <- app_assoc in H2. }
  destruct (CanHaveNoNull c.2); cbn [negb].
  - destruct (CanHaveNull c.2); cbn [negb]; [done|]. exists (vk ++ [v]). split; [done|]. rewrite !first_valid_app. cbn [first_valid]. by rewrite (Hnn eq_refl).
  - destruct (1 <? _)%nat; [|done]. destruct (IH _ _ _ Hk Hr) as (vl & H1 & H2). exists vl. split; [done|]. rewrite H2, !first_valid_app. cbn [first_valid]. by rewrite (Hn eq_refl).
Qed.

Lemma first_valid_in t vl : vl ≠ [] → Forall (cell_ok t) vl → default (V_null t) (first_valid vl) ∈ vl.
Proof.
  intros Hne Hl. destruct (first_valid vl) as [v|] eqn:E; cbn [default].
  - clear Hne Hl. induction vl as [|w vl IH]; [done|]. cbn in E. destruct (Value_IsNull w); [right; by apply IH | injection E as ->; left].
  - destruct vl as [|w vl]; [done|]. apply Forall_cons in Hl as [(_ & Ht & _) _]. cbn in E. destruct w; try done. cbn in Ht. subst. left.
Qed.

Lemma merge_all_stats t (rest : list (Expression * BaseStatistics)) : ∀ s, typed_stats t s → Forall (λ c, typed_stats t c.2) rest →
  ∃ s', foldM (λ s c, Merge s c.2) s rest = Ok s' ∧ typed_stats t s' ∧ ∀ v, covers s v ∨ Exists (λ c, covers c.2 v) rest → covers s' v.
Proof.
  induction rest as [|c rest IH]; intros s [Hs Ht] Hr.
  { exists s. split_and!; [done | done|]. intros v [Hv|Hv]; [done | by inversion Hv]. }
  apply Forall_cons in Hr as [[Hc Htc] Hr]. cbn [foldM]. destruct (Merge_ok s c.2 Hs Hc) as (s1 & -> & W1 & T1 & C1); [congruence|]. cbn [mbind result_bind].
  destruct (IH s1) as (s' & -> & Hs' & C'); [by split; [|congruence] | done|]. exists s'. split_and!; [done | done|].
  intros v [Hv|Hv]; [by apply C'; left; apply C1; left|]. inversion Hv; subst; apply C'; [left; apply C1; by right | by right].
Qed.

Lemma row_values_executed row (l : list (Expression * BaseStatistics)) vl : Forall2 (row_value row) l vl → mapR (Execute row) l.*1 = Ok vl.
Proof. induction 1 as [|c v l vl [E _] _ IH]; [done|]. cbn [fmap list_fmap mapR]. rewrite E. cbn [mbind result_bind]. unfold mapR in IH |- *. by rewrite IH. Qed.

Lemma row_values_cells row t (l : list (Expression * BaseStatistics)) vl :
  row_ok row → Forall (λ c, typed c.1 t) l → Forall2 (row_value row) l vl → Forall (cell_ok t) vl.
Proof.
  intros Hrow Hl HF. induction HF as [|c v l vl [E _] _ IH]; [constructor|]. apply Forall_cons in Hl as [Hc Hl]. constructor; [|by apply IH].
  destruct (Execute_typed columns row Hrow c.1 t Hc) as (v' & E' & Hv). congruence.
Qed.

Lemma Forall2_covered row (l : list (Expression * BaseStatistics)) vl v : Forall2 (row_value row) l vl → v ∈ vl → Exists (λ c, covers c.2 v) l.
Proof. induction 1 as [|c w l vl [_ Hw] _ IH]; intros Hv; [by apply elem_of_nil in Hv|]. apply elem_of_cons in Hv as [->|Hv]; [by left | right; auto]. Qed.

Lemma rewrite_coalesce_ok cs t stats :
  children_replaced cs ((λ c : Expression * BaseStatistics, (c.1, Some c.2)) <$> stats) → typed (BoundOperator OPERATOR_COALESCE cs) t →
  ∃ q, rewrite_coalesce stats = Ok q ∧ replaces (BoundOperator OPERATOR_COALESCE cs) t q.
Proof.
  intros HF Ht. assert (cs ≠ [] ∧ Forall (λ e, typed e t) cs) as [Hne Hcs] by (inversion Ht; subst; try (by destruct (_ ∨ _)); naive_solver).
  assert (Forall (λ c : Expression * BaseStatistics, typed c.1 t ∧ typed_stats t c.2) stats ∧ stats ≠ []) as [Hstats Hsne].
  { split; [|intros ->; by apply Forall2_length in HF; destruct cs]. clear Ht Hne. revert cs HF Hcs. induction stats as [|c stats IH]; intros cs HF Hcs; [constructor|].
    apply Forall2_cons_inv_r in HF as (e & cs' & Hp & HF & ->). apply Forall_cons in Hcs as [He Hcs]. destruct (Hp t He) as [[H1 H2] _]. constructor; [|by eapply IH]. split; [done | by apply H2]. }
  pose proof (coalesce_children_from _ stats [] (Forall_nil_2 _) Hstats) as Hkept. pose proof (coalesce_children_some stats [] Hsne) as Hkne.
  assert (∀ row v, usable row (BoundOperator OPERATOR_COALESCE cs) → Execute row (BoundOperator OPERATOR_COALESCE cs) = Ok v →
    ∃ vl, Forall2 (row_value row) (coalesce_children [] stats) vl ∧ v = default (V_null t) (first_valid vl) ∧ Forall (cell_ok t) vl) as Hval.
  { intros row v Hu E. destruct (operator_children_values row _ cs t Ht Hu) as (values & Em). rewrite (Execute_operator_value row _ _ _ Em), (typed_return _ _ _ Ht) in E. injection E as <-.
    destruct (replaced_values row cs _ values HF (typed_operator_children _ _ _ Ht) (usable_children row cs _ Hu eq_refl) Em) as [_ Hv].
    assert (Forall2 (row_value row) stats values) as Hsv.
    { clear -Hv. revert values Hv. induction stats as [|c stats IH]; intros values Hv; [by apply Forall2_nil_inv_l in Hv as ->|].
      apply Forall2_cons_inv_l in Hv as (w & ws & [E Hc] & Hv & ->). constructor; [split; [exact E | by apply Hc] | by apply IH]. }
    destruct (coalesce_children_value row stats [] [] values (Forall2_nil_2 _ _ _) Hsv) as (vl & H1 & H2). exists vl. split_and!; [done | by rewrite H2|].
    eapply row_values_cells; [apply Hu | | exact H1]. eapply Forall_impl; [exact Hkept | by intros ? [? _]]. }
  unfold rewrite_coalesce. destruct (coalesce_children [] stats) as [|[e s] rest] eqn:El; [done|]. apply Forall_cons in Hkept as [[He Hs] Hrest]. cbn [fst snd] in *. destruct rest as [|c rest].
  - eexists. split; [done|]. split; [split; [done | by intros ? [= <-]]|]. intros row v Hu E. destruct (Hval row v Hu E) as (vl & HF2 & -> & Hc).
    apply Forall2_cons_inv_l in HF2 as (w & ws & [Ew Hw] & HF2 & ->). apply Forall2_nil_inv_l in HF2 as ->. pose proof (first_valid_in t [w] ltac:(done) Hc) as Hin.
    apply list_elem_of_singleton in Hin. rewrite Hin. split; [done | by intros ? [= <-]].
  - destruct (merge_all_stats t (c :: rest) s Hs) as (s' & -> & Hs' & Hcov); [eapply Forall_impl; [exact Hrest | by intros ? [_ ?]]|]. cbn [mbind result_bind]. eexists. split; [done|].
    assert (typed (BoundOperator OPERATOR_COALESCE (e :: (c :: rest).*1)) t) as Ht'.
    { apply typed_coalesce. constructor; [done|]. apply Forall_fmap. eapply Forall_impl; [exact Hrest | by intros ? [? _]]. }
    split; [split; [exact Ht' | by intros ? [= <-]]|]. intros row v Hu E. destruct (Hval row v Hu E) as (vl & HF2 & -> & Hc). split.
    + pose proof (row_values_executed row _ _ HF2) as Em. cbn [fst]. by rewrite (Execute_operator_value row _ (e :: (c :: rest).*1) _ Em), (typed_return _ _ _ Ht').
    + intros ? [= <-]. apply Hcov. pose proof (first_valid_in t vl) as Hin.
      assert (Exists (λ c, covers c.2 (default (V_null t) (first_valid vl))) ((e, s) :: c :: rest)) as Hex by (eapply Forall2_covered; [exact HF2 | apply Hin; [intros ->; by apply Forall2_length in HF2 | done]]).
      inversion Hex; subst; [by left | by right].
Qed.

Lemma rewrite_operator_ok type cs children t : children_replaced cs children → typed (BoundOperator type cs) t →
  ∃ q, rewrite_operator type children = Ok q ∧ replaces (BoundOperator type cs) t q.
Proof.
  intros HF Ht. pose proof (kept_operator type cs children t HF Ht) as Hkeep.
  destruct (all_statistics children) as [stats|] eqn:Es; [|unfold rewrite_operator; rewrite Es; by eexists].
  destruct (decide (type = OPERATOR_COALESCE)) as [->|Hco].
  { unfold rewrite_operator. rewrite Es. rewrite (all_statistics_ok _ _ Es) in HF. by apply rewrite_coalesce_ok. }
  inversion Ht; subst; [done| | |].
  - pose proof (Forall2_length _ _ _ HF) as Hl. destruct children as [|q [|]]; try done.
    match goal with H : _ ∨ _ |- _ => destruct H as [-> | ->] end; [eapply (null_operator _ _ _ _ true) | eapply (null_operator _ _ _ _ false)]; eauto.
  - unfold rewrite_operator. rewrite Es. by eexists.
  - unfold rewrite_operator. rewrite Es. match goal with H : _ ∨ _ |- _ => destruct H as [-> | ->] end; by eexists.
Qed.

(** ** CASE *)

(** The statistics of the results so far cover [v]. *)
Lemma merge_case_ok t acc st : (∀ s, acc = Some s → typed_stats t s) → (∀ s, st = Some s → typed_stats t s) →
  ∃ r, merge_case acc st = Ok r ∧ (∀ s, r = Some s → typed_stats t s) ∧ ∀ v s, r = Some s → (∀ s0, acc = Some s0 → covers s0 v) ∨ (∀ s0, st = Some s0 → covers s0 v) → covers s v.
Proof.
  intros Ha Hst. destruct acc as [a|], st as [s|]; try (by exists None). destruct (Ha _ eq_refl) as [Wa Ta], (Hst _ eq_refl) as [Ws Ts]. cbn [merge_case].
  destruct (Merge_ok a s Wa Ws) as (r & -> & Wr & Tr & Cr); [congruence|]. eexists. split; [done|]. split; [intros ? [= <-]; by split; [|congruence]|].
  intros v ? [= <-] [Hv|Hv]; apply Cr; [left | right]; by apply Hv.
Qed.

(** The loop over the checks. *)
Definition case_loop (f : Expression → result propagated) : list (Expression * Expression) → option BaseStatistics → result (list (Expression * Expression) * option BaseStatistics) :=
  fix loop checks s :=
    match checks with
    | [] => Ok ([], s)
    | (when_expr, then_expr) :: checks =>
        '(when_expr, _) ← f when_expr;
        '(then_expr, then_stats) ← f then_expr;
        s ← merge_case s then_stats;
        '(checks, s) ← loop checks s;
        Ok ((when_expr, then_expr) :: checks, s)
    end.

Lemma case_loop_ok f t checks : Forall (λ c, (∃ p, f c.1 = Ok p ∧ replaces c.1 (LT BOOLEAN) p) ∧ (∃ p, f c.2 = Ok p ∧ replaces c.2 t p) ∧ typed c.1 (LT BOOLEAN)) checks →
  ∀ acc, (∀ s, acc = Some s → typed_stats t s) →
  ∃ checks' st, case_loop f checks acc = Ok (checks', st) ∧ Forall (λ c, typed c.1 (LT BOOLEAN) ∧ typed c.2 t) checks' ∧ (∀ s, st = Some s → typed_stats t s) ∧
    (∀ v s, st = Some s → (∀ s0, acc = Some s0 → covers s0 v) → covers s v) ∧
    ∀ row e e' v, Forall (λ c, usable row c.1 ∧ usable row c.2) checks → Execute row e' = Execute row e → Execute row (BoundCase checks e) = Ok v →
      Execute row (BoundCase checks' e') = Ok v ∧ (Execute row e = Ok v ∨ ∀ s, st = Some s → covers s v).
Proof.
  induction 1 as [|[w th] checks ((pw & Ew & Hpw) & (pt & Et & Hpt) & Hw) _ IH]; intros acc Hacc; cbn [fst snd] in *.
  { exists [], acc. split_and!; try done; [by intros v s -> Hs; apply Hs|]. intros row e e' v _ Ee E. cbn [Execute] in E |- *. rewrite Ee. auto. }
  destruct pw as [w' sw], pt as [th' st0]. cbn [case_loop]. rewrite Ew, Et. cbn [mbind result_bind].
  destruct (merge_case_ok t acc st0 Hacc (proj2 (proj1 Hpt))) as (r & -> & Hr & Cr). cbn [mbind result_bind]. fold (case_loop f).
  destruct (IH r Hr) as (checks' & st & -> & Hchecks & Hst & Hcov & Hval). cbn [mbind result_bind]. eexists _, st. split; [done|]. split_and!; [|done | |].
  - constructor; [split; [apply Hpw | apply Hpt] | done].
  - intros v s Hs Ha. apply (Hcov v s Hs). intros s0 Hs0. by apply (Cr v s0 Hs0); left.
  - intros row e e' v [[Huw Hut] Hu]%Forall_cons Ee E. cbn [fst snd] in *. cbn [Execute] in E |- *. apply bind_Ok_inv in E as (wv & Ewv & E).
    destruct (proj2 Hpw row wv Huw Ewv) as [Ew' _]. cbn [fst] in Ew'. rewrite Ew'. cbn [mbind result_bind]. destruct (as_bool wv) as [b|]; [|done]. cbn [mbind result_bind] in E |- *.
    destruct (bool_decide (b = Some true)).
    + destruct (proj2 Hpt row v Hut E) as [Ev Hv]. split; [exact Ev|]. right. intros s Hs. apply (Hcov v s Hs). intros s0 Hs0. by apply (Cr v s0 Hs0); right.
    + exact (Hval row e e' v Hu Ee E).
Qed.

(** * Propagation *)

Hypothesis Hmap : map_typed m.

(** The rewritten expression has the value of the expression on every row the
    statistics cover, and its own statistics cover it. *)
Lemma PropagateExpression_ok e : ∀ t, typed e t → ∃ p, PropagateExpression m e = Ok p ∧ replaces e t p.
Proof.
  induction e as [b ty|v|cmp l r IHl IHr|a cs IH|li ui i l u IHi IHl IHu|ty cs IH|checks e IHc IH|v cs IH] using Expression_ind'; intros t Ht; cbn [PropagateExpression].
  - inversion Ht; subst. eexists. split; [done|]. split; [split; [done | apply Hmap]|]. intros row v (Hrow & Hm & _) E. split; [done|]. intros s Hs. by eapply Hm.
  - inversion Ht; subst. match goal with H : cell_ok _ _ |- _ => pose proof H as (Hv & <- & _) end. destruct (FromConstant_ok v Hv) as (s & -> & [Ws Ts] & Hc). cbn [mbind result_bind]. eexists. split; [done|].
    split; [split; [done | by intros ? [= <-]]|]. intros row w _ [= <-]. split; [done | by intros ? [= <-]].
  - inversion Ht; subst. destruct (IHl _ ltac:(eassumption)) as (pl & -> & [Hl Vl]), (IHr _ ltac:(eassumption)) as (pr & -> & [Hr Vr]). cbn [mbind result_bind].
    destruct (rewrite_comparison_ok cmp t0 pl pr ltac:(done) ltac:(done) Hl Hr) as (p & -> & Hp & Hv). exists p. split; [done|]. split; [done|]. intros row v (Hrow & Hm & Hb) E.
    cbn [bounds_valid] in Hb. apply andb_true_iff in Hb as [Bl Br]. cbn [Execute] in E. apply bind_Ok_inv in E as (lv & El & E). apply bind_Ok_inv in E as (rv & Er & E).
    destruct (Execute_comparison cmp lv rv) as [o|] eqn:Eo; [|done]. injection E as <-. exact (Hv row lv rv o Hrow (Vl row lv (conj Hrow (conj Hm Bl)) El) (Vr row rv (conj Hrow (conj Hm Br)) Er) Eo).
  - inversion Ht; subst. match goal with H : Forall _ (_ :: _) |- _ => rename H into Hcs end. apply rewrite_conjunction_ok; [done | done|]. rewrite Forall_forall in *. intros e He. by apply IH, Hcs.
  - inversion Ht; subst. destruct (IHi _ ltac:(eassumption)) as (pi & -> & [Hi Vi]), (IHl _ ltac:(eassumption)) as (pl & -> & [Hl Vl]), (IHu _ ltac:(eassumption)) as (pu & -> & [Hu Vu]). cbn [mbind result_bind].
    destruct (rewrite_between_ok li ui t0 pi pl pu ltac:(done) Hi Hl Hu) as (p & -> & Hp & Hv). exists p. split; [done|]. split; [done|]. intros row v (Hrow & Hm & Hb) E.
    cbn [bounds_valid] in Hb. rewrite !andb_true_iff in Hb. destruct Hb as [[[[Bi Bl] Bu] Nl] Nu]. cbn [Execute] in E.
    apply bind_Ok_inv in E as (iv & Ei & E). apply bind_Ok_inv in E as (lv & El & E). apply bind_Ok_inv in E as (uv & Eu & E).
    unfold valid_on in Nl, Nu. rewrite El in Nl. rewrite Eu in Nu. apply negb_true_iff in Nl, Nu. destruct (Execute_between li ui iv lv uv) as [o|] eqn:Eo; [|done]. injection E as <-.
    destruct (Hv row iv lv uv o Hrow (Vi row iv (conj Hrow (conj Hm Bi)) Ei) (Vl row lv (conj Hrow (conj Hm Bl)) El) (Vu row uv (conj Hrow (conj Hm Bu)) Eu) Eo) as (o' & Ho & _ & Heq).
    by rewrite <- (Heq Nl Nu).
  - pose proof (typed_operator_children _ _ _ Ht) as Hcs. destruct (replaced_all (PropagateExpression m) cs IH Hcs) as (children & -> & HF). cbn [mbind result_bind]. by apply rewrite_operator_ok.
  - inversion Ht; subst. match goal with H : Forall _ checks |- _ => rename H into Hcs end. destruct (IH t ltac:(assumption)) as ([e' st] & -> & [He Ve]). cbn [mbind result_bind].
    fold (case_loop (PropagateExpression m)).
    destruct (case_loop_ok (PropagateExpression m) t checks) with (acc := st) as (checks' & st' & -> & Hc' & Hst & Hcov & Hval).
    { rewrite Forall_forall in *. intros c Hc. destruct (Hcs c Hc) as [H1 H2], (IHc c Hc) as [I1 I2]. split_and!; [by apply I1 | by apply I2 | done]. }
    { apply He. }
    cbn [mbind result_bind]. eexists. split; [done|]. split; [split; [constructor; [done | apply He] | apply Hst]|]. intros row v (Hrow & Hm & Hb) E.
    cbn [bounds_valid] in Hb. apply andb_true_iff in Hb as [Bc Be]. rewrite forallb_forall in Bc.
    assert (usable row e) as Hue by (by split_and!). destruct (Execute_typed columns row Hrow e t ltac:(assumption)) as (ev & Eev & _). destruct (Ve row ev Hue Eev) as [Ee' Hev].
    destruct (Hval row e e' v) as [Ev Hcase]; [|cbn [fst] in Ee'; congruence | done|].
    { apply Forall_forall. intros c Hc. apply list_elem_of_In, Bc, andb_true_iff in Hc as [H1 H2]. by split; split_and!. }
    split; [done|]. intros s Hs. destruct Hcase as [Heq|Hc2]; [|by apply Hc2]. apply (Hcov v s Hs). intros s0 Hs0. assert (v = ev) as -> by congruence. by apply Hev.
  - inversion Ht; subst. match goal with H : Forall _ cs |- _ => rename H into Hcs end. destruct (replaced_all (PropagateExpression m) cs IH Hcs) as (children & -> & HF). cbn [mbind result_bind].
    eexists. split; [done|]. split; [split; [constructor; [done | done | by eapply replaced_some] | done]|]. intros row w Hu E. split; [|done]. cbn [fst Execute] in E |- *. apply bind_Ok_inv in E as (values & Em & E).
    destruct (replaced_values row cs children values HF Hcs (usable_children row cs _ Hu eq_refl) Em) as [-> _]. exact E.
Qed.
End Rewriting.
