(* ===== verification/PropagateProps.v ===== *)
(** Properties of the propagation of statistics: comparisons are decided
    soundly, rewriting keeps the values of expressions, and a filter passes the
    same rows and leaves statistics that cover them. *)
From S2P Require Import Prelude Types Stats NumericStats NumericFacts BaseStatistics StatsFacts StatsCreate Expression PropagateFacts.

(** * Statistics of filtered rows *)

Section Bounds.
Context (t : LogicalType).
Hypothesis Hk : GetStatsType t = NUMERIC_STATS.
Abbreviation pt := (InternalType t).

(** Statistics of numbers with their interval. *)
Definition interval_stats (s : BaseStatistics) (lo hi : option Z) : Prop := typed_stats t s ∧ numeric_view s pt lo hi.

Lemma updated_stats s lo hi s' lo' hi' : interval_stats s lo hi → updated s pt s' lo' hi' → interval_stats s' lo' hi' ∧ has_null s' = has_null s ∧ has_no_null s' = has_no_null s.
Proof.
  intros [[Hwf Ht] V] [V' (u & ->)]. destruct s as [ty n nn d u0 c]. cbn [set_union stats_type has_null has_no_null] in *. subst ty. split_and!; [|done | done]. split; [|done].
  split; [|done]. apply stats_wf_eq in Hwf as [[Hs _] Hc]. apply stats_wf_eq. unfold node_shape, node_data in *. cbn [stats_type child_stats] in *. split; [|done]. split; [done|].
  rewrite Hk. by exists lo', hi'.
Qed.

Definition number_of (c : Value) : option Z := match c with V_num _ (_, x) => Some x | _ => None end.

Lemma number_cell c : cell_ok t c → c = V_null t ∨ ∃ x, c = V_num t (pt, x).
Proof.
  intros Hc. destruct (Value_IsNull c) eqn:En; [left; destruct c; try done; by destruct Hc as (_ & <- & _)|]. right. by destruct (comparable_valid t c (or_introl Hk) Hc En) as [[_ ?]|[? _]]; [|congruence].
Qed.

Lemma SetMax_stats s lo hi c : interval_stats s lo hi → cell_ok t c →
  ∃ s', SetMax s c = Ok s' ∧ interval_stats s' lo (number_of c) ∧ has_null s' = has_null s ∧ has_no_null s' = has_no_null s.
Proof.
  intros Hs Hc. pose proof Hs as [[_ Ht] V]. destruct (number_cell c Hc) as [->|[x ->]].
  - destruct (SetMax_null _ _ _ _ V t) as (s' & -> & Hu). exists s'. split; [done|]. by eapply updated_stats.
  - destruct (SetMax_view _ _ _ _ V x) as (s' & E & Hu). rewrite Ht in E. exists s'. split; [done|]. by eapply updated_stats.
Qed.

Lemma SetMin_stats s lo hi c : interval_stats s lo hi → cell_ok t c →
  ∃ s', SetMin s c = Ok s' ∧ interval_stats s' (number_of c) hi ∧ has_null s' = has_null s ∧ has_no_null s' = has_no_null s.
Proof.
  intros Hs Hc. pose proof Hs as [[_ Ht] V]. destruct (number_cell c Hc) as [->|[x ->]].
  - destruct (SetMin_null _ _ _ _ V t) as (s' & -> & Hu). exists s'. split; [done|]. by eapply updated_stats.
  - destruct (SetMin_view _ _ _ _ V x) as (s' & E & Hu). rewrite Ht in E. exists s'. split; [done|]. by eapply updated_stats.
Qed.

(** What the statistics say about a number. *)
Lemma interval_covers s lo hi x : interval_stats s lo hi → covers s (V_num t (pt, x)) ↔ has_no_null s = true ∧ in_interval pt lo hi x.
Proof.
  intros [_ V]. split; [|intros [Hn Hi]; by eapply covers_intro]. intros Hc. split; [|by eapply covers_interval]. destruct s. by destruct Hc.
Qed.

Lemma null_covers s ty : covers s (V_null ty) ↔ has_null s = true.
Proof. by destruct s. Qed.

(** The order of two numbers for which a comparison holds. *)
Lemma comparison_true cmp x y : Execute_comparison cmp (V_num t (pt, x)) (V_num t (pt, y)) = Ok (Some true) →
  comparison_holds cmp (num_key pt x =? num_key pt y) (num_key pt y <? num_key pt x) (num_key pt x <? num_key pt y) = Ok true.
Proof.
  unfold Execute_comparison, compare_values. cbn. unfold union_get. cbn [fst snd]. rewrite bool_decide_true by done. cbn [mbind result_bind].
  rewrite Equals_key, GreaterThan_key, LessThan_key. destruct (comparison_holds _ _ _ _) as [[]|]; cbn; intros; congruence.
Qed.
End Bounds.

Lemma comparison_valid cmp l r : IsCompareDistinct cmp = false → Execute_comparison cmp l r = Ok (Some true) → Value_IsNull l = false ∧ Value_IsNull r = false.
Proof. intros Hd E. destruct (comparison_null cmp l r _ Hd E) as [_ Hn]. destruct (Value_IsNull l), (Value_IsNull r); try done; by specialize (Hn eq_refl). Qed.

Lemma not_null_ok t s : typed_stats t s → ∃ s', Stats_Set s CANNOT_HAVE_NULL_VALUES = Ok s' ∧ typed_stats t s' ∧ (∀ v, covers s v → Value_IsNull v = false → covers s' v) ∧
  ∀ pt lo hi, numeric_view s pt lo hi → numeric_view s' pt lo hi.
Proof.
  intros [Hwf Ht]. eexists. split; [done|]. split_and!; [split; [by apply set_validity_wf | by destruct s] | intros; by apply clear_null|].
  intros pt lo hi V. destruct s. by eapply numeric_view_ext, V.
Qed.

Lemma numeric_comparable t : comparable t → LogicalType_IsNumeric t = true → GetStatsType t = NUMERIC_STATS.
Proof.
  intros [H|H] Hn; [done|]. exfalso. destruct t as [i|w sc|d|c|c|c|c|c n]; try done; [by destruct i|]. destruct (decimal_kind w sc); congruence.
Qed.

(** A comparison with a constant: the new statistics cover the values for which
    it holds. *)
Lemma filter_constant_ok t s cmp c : comparable t → is_comparison cmp = true → typed_stats t s → cell_ok t c →
  ∃ s', filter_constant s cmp c = Ok s' ∧ typed_stats t s' ∧ ∀ v, cell_ok t v → covers s v → Execute_comparison cmp v c = Ok (Some true) → covers s' v.
Proof.
  intros Ht Hc Hs Hcell. unfold filter_constant.
  assert (∃ s1, (if IsCompareDistinct cmp then Ok s else Stats_Set s CANNOT_HAVE_NULL_VALUES) = Ok s1 ∧ typed_stats t s1 ∧ ∀ v, covers s v → Execute_comparison cmp v c = Ok (Some true) → covers s1 v)
    as (s1 & -> & Hs1 & Hcov).
  { destruct (IsCompareDistinct cmp) eqn:Ed; [by exists s|]. destruct (not_null_ok t s Hs) as (s1 & -> & H1 & H2 & _). exists s1. split_and!; [done | done|]. intros v Hv E. apply H2; [done|].
    by apply (comparison_valid cmp v c). }
  cbn [mbind result_bind]. rewrite (proj2 Hs1). destruct (LogicalType_IsNumeric t) eqn:En; cbn [negb]; [|exists s1; split_and!; auto].
  pose proof (numeric_comparable t Ht En) as Hk. destruct (typed_view t s1 Hs1 Hk) as (lo & hi & V). rewrite (HasMinMax_view _ _ _ _ V). cbn [mbind result_bind].
  destruct (bool_decide (is_Some lo) && bool_decide (is_Some hi)); cbn [negb]; [|exists s1; split_and!; auto].
  assert (interval_stats t s1 lo hi) as Hi by (by split).
  assert (∀ s' lo' hi', interval_stats t s' lo' hi' → has_no_null s' = has_no_null s1 → IsCompareDistinct cmp = false →
    (∀ x y, c = V_num t (InternalType t, y) → in_interval (InternalType t) lo hi x →
      comparison_holds cmp (num_key (InternalType t) x =? num_key (InternalType t) y) (num_key (InternalType t) y <? num_key (InternalType t) x) (num_key (InternalType t) x <? num_key (InternalType t) y) = Ok true →
      in_interval (InternalType t) lo' hi' x) →
    ∀ v, cell_ok t v → covers s v → Execute_comparison cmp v c = Ok (Some true) → covers s' v) as Hfinish.
  { intros s' lo' hi' Hi' Hn Hd H v Hv Hcv E. destruct (comparison_valid cmp v c Hd E) as [Nv Nc]. specialize (Hcov v Hcv E).
    destruct (number_cell t Hk v Hv) as [->|[x ->]]; [done|]. destruct (number_cell t Hk c Hcell) as [->|[y ->]]; [done|].
    apply (interval_covers t s1 lo hi x Hi) in Hcov as [H1 H2]. apply (interval_covers t s' lo' hi' x Hi'). split; [congruence|]. apply (H x y eq_refl H2). by apply comparison_true. }
  destruct cmp; try done; try (exists s1; split_and!; auto; fail).
  - destruct (SetMin_stats t Hk s1 lo hi c Hi Hcell) as (s2 & -> & Hi2 & _ & N2). cbn [mbind result_bind]. destruct (SetMax_stats t Hk s2 _ hi c Hi2 Hcell) as (s3 & -> & Hi3 & _ & N3).
    exists s3. split_and!; [done | apply Hi3|]. eapply Hfinish; [exact Hi3 | congruence | done|]. intros x y -> _ [= E]. split; intros z [= <-]; lia.
  - destruct (SetMax_stats t Hk s1 lo hi c Hi Hcell) as (s3 & -> & Hi3 & _ & N3). exists s3. split_and!; [done | apply Hi3|]. eapply Hfinish; [exact Hi3 | congruence | done|].
    intros x y -> [L1 L2] [= E]. split; [done | intros z [= <-]; lia].
  - destruct (SetMin_stats t Hk s1 lo hi c Hi Hcell) as (s3 & -> & Hi3 & _ & N3). exists s3. split_and!; [done | apply Hi3|]. eapply Hfinish; [exact Hi3 | congruence | done|].
    intros x y -> [L1 L2] [= E]. split; [intros z [= <-]; lia | done].
  - destruct (SetMax_stats t Hk s1 lo hi c Hi Hcell) as (s3 & -> & Hi3 & _ & N3). exists s3. split_and!; [done | apply Hi3|]. eapply Hfinish; [exact Hi3 | congruence | done|].
    intros x y -> [L1 L2] [= E]. split; [done | intros z [= <-]; lia].
  - destruct (SetMin_stats t Hk s1 lo hi c Hi Hcell) as (s3 & -> & Hi3 & _ & N3). exists s3. split_and!; [done | apply Hi3|]. eapply Hfinish; [exact Hi3 | congruence | done|].
    intros x y -> [L1 L2] [= E]. split; [intros z [= <-]; lia | done].
Qed.

(** * Maps of statistics *)

Section Maps.
Context (columns : ColumnBinding → LogicalType).
Abbreviation row_type := (ColumnBinding → result Value).

(** The rows in [Q] are covered by the map. *)
Definition map_good (Q : row_type → Prop) (m : StatisticsMap) : Prop := map_typed columns m ∧ ∀ row, Q row → map_covers m row.

Lemma map_good_insert Q m b s' : map_good Q m → typed_stats (columns b) s' → (∀ row v, Q row → row b = Ok v → covers s' v) → map_good Q (<[b := s']> m).
Proof.
  intros [Ht Hc] Hs Hv. split.
  - intros b' s. destruct (decide (b' = b)) as [->|Hne]; [rewrite lookup_insert_eq; by intros [= <-] | rewrite lookup_insert_ne by done; apply Ht].
  - intros row HQ b' s v. destruct (decide (b' = b)) as [->|Hne]; [rewrite lookup_insert_eq; intros [= <-] E; by eapply Hv | rewrite lookup_insert_ne by done; by apply Hc].
Qed.

Lemma on_column_good Q m b f s : map_good Q m → m !! b = Some s → 
  (∃ s', f s = Ok s' ∧ typed_stats (columns b) s' ∧ ∀ row v, Q row → row b = Ok v → covers s v → covers s' v) →
  ∃ s', f s = Ok s' ∧ on_column b f m = Ok (<[b := s']> m) ∧ map_good Q (<[b := s']> m).
Proof.
  intros Hm Hb (s' & E & Ht & Hc). exists s'. split; [done|]. unfold on_column, stats_at. rewrite Hb. cbn [mbind result_bind]. rewrite E. split; [done|].
  apply map_good_insert; [done | done|]. intros row v HQ Ev. apply (Hc row v HQ Ev). by apply (proj2 Hm row HQ b).
Qed.

(** Clearing the NULL flag of a column that is valid on all rows. *)
Lemma set_not_null_good Q m b s : map_good Q m → m !! b = Some s → (∀ row v, Q row → row b = Ok v → Value_IsNull v = false) →
  ∃ s', on_column b (λ s, Stats_Set s CANNOT_HAVE_NULL_VALUES) m = Ok (<[b := s']> m) ∧ map_good Q (<[b := s']> m).
Proof.
  intros Hm Hb Hv. destruct (on_column_good Q m b (λ s, Stats_Set s CANNOT_HAVE_NULL_VALUES) s Hm Hb) as (s' & _ & E & Hg); [|by exists s'].
  destruct (not_null_ok _ s (proj1 Hm b s Hb)) as (s' & E & Ht & Hc & _). exists s'. split_and!; [done | done|]. intros row v HQ Ev Hcv. apply Hc; [done | by eapply Hv].
Qed.

Lemma SetStatisticsNotNull_good Q m b : map_good Q m → (∀ row v, Q row → row b = Ok v → Value_IsNull v = false) →
  ∃ m', SetStatisticsNotNull m b = Ok m' ∧ map_good Q m' ∧ (∀ b', is_Some (m !! b') ↔ is_Some (m' !! b')).
Proof.
  intros Hm Hv. unfold SetStatisticsNotNull. destruct (m !! b) as [s|] eqn:Hb; [|by exists m]. destruct (set_not_null_good Q m b s Hm Hb Hv) as (s' & E & Hg).
  eexists. split_and!; [exact E | done|]. intros b'. destruct (decide (b' = b)) as [->|Hne]; [by rewrite lookup_insert_eq, Hb | by rewrite lookup_insert_ne].
Qed.

Section Columns.
Context (Q : row_type → Prop) (t : LogicalType).
Hypothesis Hk : GetStatsType t = NUMERIC_STATS.
Abbreviation pt := (InternalType t).

(** The column has a minimum and a maximum. *)
Definition bounded (m : StatisticsMap) (b : ColumnBinding) : Prop := ∃ s lo hi, m !! b = Some s ∧ interval_stats t s (Some lo) (Some hi).

Lemma bounded_insert m b s lo hi b' : interval_stats t s (Some lo) (Some hi) → bounded m b' → bounded (<[b := s]> m) b'.
Proof.
  intros Hs Hb. destruct (decide (b' = b)) as [->|Hne]; [exists s, lo, hi; by rewrite lookup_insert_eq|]. unfold bounded. by rewrite lookup_insert_ne.
Qed.

Lemma number_cell_ok y : type_ok t → t ≠ LT BOOLEAN → cell_ok t (V_num t (pt, y)).
Proof. intros Ht Hb. split_and!; [by split | done | done]. Qed.

(** On every row in [Q] the number in [target] is bounded by the one in
    [source], which is there. *)
Definition below (target source : ColumnBinding) : Prop :=
  ∀ row x, Q row → row target = Ok (V_num t (pt, x)) → ∃ y, row source = Ok (V_num t (pt, y)) ∧ num_key pt x ≤ num_key pt y.
Definition above (target source : ColumnBinding) : Prop :=
  ∀ row x, Q row → row target = Ok (V_num t (pt, x)) → ∃ y, row source = Ok (V_num t (pt, y)) ∧ num_key pt y ≤ num_key pt x.

Hypothesis Htok : type_ok t.
Hypothesis Hnotbool : t ≠ LT BOOLEAN.
Hypothesis Hrows : ∀ row, Q row → row_ok columns row.

(** Replacing the maximum of a column by that of a column that is above. *)
Lemma set_max_good m target source y : map_good Q m → columns target = t → bounded m target → below target source →
  (∃ s lo, m !! source = Some s ∧ interval_stats t s (Some lo) (Some y)) →
  ∃ m', on_column target (λ s, SetMax s (V_num t (pt, y))) m = Ok m' ∧ map_good Q m' ∧ ∀ b, bounded m b → bounded m' b.
Proof.
  intros Hm Hct (s & lo & hi & Hs & Hi) Hb (ss & slo & Hss & His). destruct (SetMax_stats t Hk s (Some lo) (Some hi) (V_num t (pt, y)) Hi (number_cell_ok y Htok Hnotbool)) as (s' & E & Hi' & N1 & N2).
  destruct (on_column_good Q m target (λ s, SetMax s (V_num t (pt, y))) s Hm Hs) as (s2 & E2 & Eo & Hg).
  { exists s'. split_and!; [done | rewrite Hct; apply Hi'|]. intros row v HQ Ev Hc. assert (cell_ok t v) as Hcell by (destruct (Hrows row HQ target) as (v' & E' & Hv'); rewrite Hct in Hv'; congruence).
    destruct (number_cell t Hk v Hcell) as [->|[x ->]]; [apply null_covers in Hc; apply null_covers; congruence|].
    apply (interval_covers t s _ _ x Hi) in Hc as [Hn [L1 L2]]. apply (interval_covers t s' _ _ x Hi'). split; [congruence|]. split; [done|]. intros z [= <-].
    destruct (Hb row x HQ Ev) as (w & Ew & Hw). pose proof (proj2 Hm row HQ source ss _ Hss Ew) as Hcw. apply (interval_covers t ss _ _ w His) in Hcw as [_ [_ U]]. specialize (U y eq_refl). lia. }
  cbv beta in E2. rewrite E in E2. injection E2 as <-. eexists. split; [exact Eo|]. split; [done|]. intros b Hbb. by eapply bounded_insert.
Qed.

Lemma set_min_good m target source y : map_good Q m → columns target = t → bounded m target → above target source →
  (∃ s hi, m !! source = Some s ∧ interval_stats t s (Some y) (Some hi)) →
  ∃ m', on_column target (λ s, SetMin s (V_num t (pt, y))) m = Ok m' ∧ map_good Q m' ∧ ∀ b, bounded m b → bounded m' b.
Proof.
  intros Hm Hct (s & lo & hi & Hs & Hi) Hb (ss & shi & Hss & His). destruct (SetMin_stats t Hk s (Some lo) (Some hi) (V_num t (pt, y)) Hi (number_cell_ok y Htok Hnotbool)) as (s' & E & Hi' & N1 & N2).
  destruct (on_column_good Q m target (λ s, SetMin s (V_num t (pt, y))) s Hm Hs) as (s2 & E2 & Eo & Hg).
  { exists s'. split_and!; [done | rewrite Hct; apply Hi'|]. intros row v HQ Ev Hc. assert (cell_ok t v) as Hcell by (destruct (Hrows row HQ target) as (v' & E' & Hv'); rewrite Hct in Hv'; congruence).
    destruct (number_cell t Hk v Hcell) as [->|[x ->]]; [apply null_covers in Hc; apply null_covers; congruence|].
    apply (interval_covers t s _ _ x Hi) in Hc as [Hn [L1 L2]]. apply (interval_covers t s' _ _ x Hi'). split; [congruence|]. split; [|done]. intros z [= <-].
    destruct (Hb row x HQ Ev) as (w & Ew & Hw). pose proof (proj2 Hm row HQ source ss _ Hss Ew) as Hcw. apply (interval_covers t ss _ _ w His) in Hcw as [_ [U _]]. specialize (U y eq_refl). lia. }
  cbv beta in E2. rewrite E in E2. injection E2 as <-. eexists. split; [exact Eo|]. split; [done|]. intros b Hbb. by eapply bounded_insert.
Qed.

Definition stays_bounded (m m' : StatisticsMap) : Prop := map_good Q m' ∧ ∀ b, bounded m b → bounded m' b.

(** Two columns with bounds, and their comparison. *)
Lemma bounded_pair m l r : bounded m l → bounded m r →
  ∃ ls rs lo hi lo' hi', stats_at m l = Ok ls ∧ stats_at m r = Ok rs ∧ m !! l = Some ls ∧ m !! r = Some rs ∧ interval_stats t ls (Some lo) (Some hi) ∧ interval_stats t rs (Some lo') (Some hi') ∧
    NumericStats_Min ls = Ok (V_num t (pt, lo)) ∧ NumericStats_Max ls = Ok (V_num t (pt, hi)) ∧ NumericStats_Min rs = Ok (V_num t (pt, lo')) ∧ NumericStats_Max rs = Ok (V_num t (pt, hi')) ∧
    ∀ x y, ∃ b, ValueOperations_GreaterThan (V_num t (pt, x)) (V_num t (pt, y)) = Ok b.
Proof.
  intros (ls & lo & hi & Hl & Hil) (rs & lo' & hi' & Hr & Hir). pose proof Hil as [[_ Tl] Vl]. pose proof Hir as [[_ Tr] Vr]. destruct (min_max_lr t ls rs lo hi lo' hi' Tl Tr Vl Vr) as (M1 & M2 & M3 & M4).
  exists ls, rs, lo, hi, lo', hi'. unfold stats_at. rewrite Hl, Hr. split_and!; try done. intros x y. rewrite (compare_numbers t ls lo hi Vl). by eexists.
Qed.

Lemma tighten_max_good m target source : map_good Q m → columns target = t → bounded m target → bounded m source → below target source →
  ∃ m', tighten NumericStats_Max SetMax ValueOperations_GreaterThan target source m = Ok m' ∧ stays_bounded m m'.
Proof.
  intros Hm Ht Hbt Hbs Hb. destruct (bounded_pair m target source Hbt Hbs) as (ls & rs & lo & hi & lo' & hi' & E1 & E2 & H1 & H2 & I1 & I2 & _ & M2 & _ & M4 & Hop). unfold tighten. rewrite E1, E2. cbn [mbind result_bind].
  rewrite M2, M4. cbn [mbind result_bind]. destruct (Hop hi hi') as [b ->]. cbn [mbind result_bind]. destruct b; [|exists m; by split; [|split]].
  destruct (set_max_good m target source hi' Hm Ht Hbt Hb) as (m' & -> & H); [by exists rs, lo' | by exists m'].
Qed.

Lemma tighten_min_good m target source : map_good Q m → columns target = t → bounded m target → bounded m source → above target source →
  ∃ m', tighten NumericStats_Min SetMin ValueOperations_LessThan target source m = Ok m' ∧ stays_bounded m m'.
Proof.
  intros Hm Ht Hbt Hbs Hb. destruct (bounded_pair m target source Hbt Hbs) as (ls & rs & lo & hi & lo' & hi' & E1 & E2 & H1 & H2 & I1 & I2 & M1 & _ & M3 & _ & Hop). unfold tighten. rewrite E1, E2. cbn [mbind result_bind].
  rewrite M1, M3. cbn [mbind result_bind]. unfold ValueOperations_LessThan. destruct (Hop lo' lo) as [b ->]. cbn [mbind result_bind]. destruct b; [|exists m; by split; [|split]].
  destruct (set_min_good m target source lo' Hm Ht Hbt Hb) as (m' & -> & H); [by exists rs, hi' | by exists m'].
Qed.

(** Columns with equal values. *)
Definition equal_columns (l r : ColumnBinding) : Prop := below l r ∧ above l r ∧ below r l ∧ above r l.

Lemma tighten_either_good m l r : map_good Q m → columns l = t → columns r = t → bounded m l → bounded m r → equal_columns l r →
  (∃ m', tighten_either NumericStats_Min SetMin ValueOperations_GreaterThan l r m = Ok m' ∧ stays_bounded m m') ∧
  (∃ m', tighten_either NumericStats_Max SetMax ValueOperations_LessThan l r m = Ok m' ∧ stays_bounded m m').
Proof.
  intros Hm Hl Hr Hbl Hbr (B1 & A1 & B2 & A2). destruct (bounded_pair m l r Hbl Hbr) as (ls & rs & lo & hi & lo' & hi' & E1 & E2 & H1 & H2 & I1 & I2 & M1 & M2 & M3 & M4 & Hop).
  unfold tighten_either, ValueOperations_LessThan. rewrite E1, E2. cbn [mbind result_bind]. rewrite M1, M2, M3, M4. cbn [mbind result_bind].
  destruct (Hop lo lo') as [b ->], (Hop hi' hi) as [b' ->]. cbn [mbind result_bind]. split.
  - destruct b; [destruct (set_min_good m r l lo) as (m' & E & H); eauto 6 | destruct (set_min_good m l r lo') as (m' & E & H); eauto 6].
  - destruct b'; [destruct (set_max_good m r l hi) as (m' & E & H); eauto 6 | destruct (set_max_good m l r hi') as (m' & E & H); eauto 6].
Qed.
End Columns.

Hypothesis Hcolumns : ∀ b, type_ok (columns b).

(** A comparison of two columns that holds on all rows in [Q]. *)
Section ColumnComparison.
Context (Q : row_type → Prop) (l r : ColumnBinding) (cmp : ExpressionType) (t : LogicalType).
Hypothesis Hl : columns l = t.
Hypothesis Hr : columns r = t.
Hypothesis Hrows : ∀ row, Q row → row_ok columns row.
Hypothesis Htrue : ∀ row lv rv, Q row → row l = Ok lv → row r = Ok rv → Execute_comparison cmp lv rv = Ok (Some true).
Abbreviation pt := (InternalType t).

(** The numbers of the two columns are in the relation [P]. *)
Definition columns_related (P : Z → Z → Prop) : Prop :=
  (∀ row x, Q row → row l = Ok (V_num t (pt, x)) → ∃ y, row r = Ok (V_num t (pt, y)) ∧ P (num_key pt x) (num_key pt y)) ∧
  (∀ row y, Q row → row r = Ok (V_num t (pt, y)) → ∃ x, row l = Ok (V_num t (pt, x)) ∧ P (num_key pt x) (num_key pt y)).

Lemma related_intro (P : Z → Z → Prop) : GetStatsType t = NUMERIC_STATS → cmp ≠ COMPARE_DISTINCT_FROM →
  (∀ x y, comparison_holds cmp (x =? y) (y <? x) (x <? y) = Ok true → P x y) → columns_related P.
Proof.
  intros Hk Hd HP. split.
  - intros row x HQ El. destruct (Hrows row HQ r) as (rv & Er & Hrv). rewrite Hr in Hrv. pose proof (Htrue row _ _ HQ El Er) as E.
    destruct (number_cell t Hk rv Hrv) as [->|[y ->]]; [by destruct cmp | exists y; split; [done | apply HP; by apply comparison_true]].
  - intros row y HQ Er. destruct (Hrows row HQ l) as (lv & El & Hlv). rewrite Hl in Hlv. pose proof (Htrue row _ _ HQ El Er) as E.
    destruct (number_cell t Hk lv Hlv) as [->|[x ->]]; [by destruct cmp | exists x; split; [done | apply HP; by apply comparison_true]].
Qed.

Lemma both_not_null m : map_good Q m → is_Some (m !! l) → is_Some (m !! r) → IsCompareDistinct cmp = false →
  ∃ m', (m ← on_column l (λ s, Stats_Set s CANNOT_HAVE_NULL_VALUES) m; on_column r (λ s, Stats_Set s CANNOT_HAVE_NULL_VALUES) m) = Ok m' ∧ map_good Q m' ∧ is_Some (m' !! l) ∧ is_Some (m' !! r).
Proof.
  intros Hm [ls Hls] [rs Hrs] Ed.
  assert (∀ row lv rv, Q row → row l = Ok lv → row r = Ok rv → Value_IsNull lv = false ∧ Value_IsNull rv = false) as Hvalid by (intros row lv rv HQ El Er; eapply comparison_valid; [exact Ed | by eapply Htrue]).
  destruct (set_not_null_good Q m l ls Hm Hls) as (s1 & -> & Hm1); [intros row v HQ Ev; destruct (Hrows row HQ r) as (rv & Er & _); by apply (Hvalid row v rv)|]. cbn [mbind result_bind].
  assert (∀ b b' s (m : StatisticsMap), is_Some (m !! b') → is_Some (<[b := s]> m !! b')) as Hins by (intros b b' s m0 H; destruct (decide (b' = b)) as [->|Hne]; [rewrite lookup_insert_eq; by eexists | by rewrite lookup_insert_ne]).
  destruct (Hins l r s1 m ltac:(by eexists)) as [rs1 Hrs1].
  destruct (set_not_null_good Q _ r rs1 Hm1 Hrs1) as (s2 & -> & Hm2); [intros row v HQ Ev; destruct (Hrows row HQ l) as (lv & El & _); by apply (Hvalid row lv v)|].
  eexists. split_and!; [done | done | do 2 apply Hins; by eexists | do 2 apply Hins; by eexists].
Qed.

(** The bounds of the columns. *)
Lemma tighten_columns m : GetStatsType t = NUMERIC_STATS → t ≠ LT BOOLEAN → is_comparison cmp = true → map_good Q m → bounded t m l → bounded t m r →
  ∃ m', match cmp with
        | COMPARE_LESSTHAN | COMPARE_LESSTHANOREQUALTO =>
            m ← tighten NumericStats_Max SetMax ValueOperations_GreaterThan l r m; tighten NumericStats_Min SetMin ValueOperations_LessThan r l m
        | COMPARE_GREATERTHAN | COMPARE_GREATERTHANOREQUALTO =>
            m ← tighten NumericStats_Max SetMax ValueOperations_GreaterThan r l m; tighten NumericStats_Min SetMin ValueOperations_LessThan l r m
        | COMPARE_EQUAL | COMPARE_NOT_DISTINCT_FROM =>
            m ← tighten_either NumericStats_Min SetMin ValueOperations_GreaterThan l r m; tighten_either NumericStats_Max SetMax ValueOperations_LessThan l r m
        | _ => Ok m
        end = Ok m' ∧ map_good Q m'.
Proof.
  intros Hk Hnb Hc Hm Bl Br. assert (type_ok t) as Htok by (rewrite <- Hl; apply Hcolumns).
  assert (∀ a b, columns a = t → columns b = t → bounded t m a → bounded t m b → below Q t a b → above Q t b a →
    ∃ m', (m ← tighten NumericStats_Max SetMax ValueOperations_GreaterThan a b m; tighten NumericStats_Min SetMin ValueOperations_LessThan b a m) = Ok m' ∧ map_good Q m') as Hless.
  { intros a b Ha Hb Ba Bb H1 H2. destruct (tighten_max_good Q t Hk Htok Hnb Hrows m a b Hm Ha Ba Bb H1) as (m1 & -> & Hm1 & HB1). cbn [mbind result_bind].
    destruct (tighten_min_good Q t Hk Htok Hnb Hrows m1 b a Hm1 Hb (HB1 _ Bb) (HB1 _ Ba) H2) as (m2 & -> & Hm2 & _). by exists m2. }
  assert (equal_columns Q t l r → ∃ m', (m ← tighten_either NumericStats_Min SetMin ValueOperations_GreaterThan l r m; tighten_either NumericStats_Max SetMax ValueOperations_LessThan l r m) = Ok m' ∧ map_good Q m') as Hequal.
  { intros He. destruct (tighten_either_good Q t Hk Htok Hnb Hrows m l r Hm Hl Hr Bl Br He) as [(m1 & -> & Hm1 & HB1) _]. cbn [mbind result_bind].
    destruct (tighten_either_good Q t Hk Htok Hnb Hrows m1 l r Hm1 Hl Hr (HB1 _ Bl) (HB1 _ Br) He) as [_ (m2 & -> & Hm2 & _)]. by exists m2. }
  pose proof (λ P H1 H2, related_intro P Hk H1 H2) as Hrel. unfold columns_related in Hrel. unfold equal_columns, below, above in *.
  destruct cmp; try done; try (by exists m).
  1,6: destruct (Hrel (λ x y, x = y) ltac:(done)) as [H1 H2]; [intros x y [= E]; lia|]; apply Hequal; split_and!; intros row x HQ E; [destruct (H1 row x HQ E) as (y & ? & ?) | destruct (H1 row x HQ E) as (y & ? & ?) |
    destruct (H2 row x HQ E) as (y & ? & ?) | destruct (H2 row x HQ E) as (y & ? & ?)]; exists y; split; [done | lia | done | lia | done | lia | done | lia].
  1,3: destruct (Hrel (λ x y, x ≤ y) ltac:(done)) as [H1 H2]; [intros x y [= E]; lia|]; by apply (Hless l r).
  1,2: destruct (Hrel (λ x y, y ≤ x) ltac:(done)) as [H1 H2]; [intros x y [= E]; lia|]; by apply (Hless r l).
Qed.

Lemma filter_columns_ok m : comparable t → is_comparison cmp = true → map_good Q m → is_Some (m !! l) → is_Some (m !! r) → ∃ m', filter_columns m l r cmp = Ok m' ∧ map_good Q m'.
Proof.
  intros Ht Hc Hm Hsl Hsr. unfold filter_columns.
  assert (∃ m1, (if IsCompareDistinct cmp then Ok m else m ← on_column l (λ s, Stats_Set s CANNOT_HAVE_NULL_VALUES) m; on_column r (λ s, Stats_Set s CANNOT_HAVE_NULL_VALUES) m) = Ok m1 ∧
    map_good Q m1 ∧ is_Some (m1 !! l) ∧ is_Some (m1 !! r)) as (m1 & -> & Hm1 & [ls Hls] & [rs Hrs]).
  { destruct (IsCompareDistinct cmp) eqn:Ed; [by exists m | by apply both_not_null]. }
  cbn [mbind result_bind]. unfold stats_at. rewrite Hls, Hrs. cbn [mbind result_bind]. pose proof (proj1 Hm1 l ls Hls) as Tl. pose proof (proj1 Hm1 r rs Hrs) as Tr. rewrite Hl in Tl. rewrite Hr in Tr.
  rewrite (proj2 Tl). destruct (LogicalType_IsNumeric t) eqn:En; cbn [negb]; [|by exists m1]. pose proof (numeric_comparable t Ht En) as Hk.
  destruct (typed_view t ls Tl Hk) as (lo & hi & Vl), (typed_view t rs Tr Hk) as (lo' & hi' & Vr). rewrite (HasMinMax_view _ _ _ _ Vl), (HasMinMax_view _ _ _ _ Vr).
  destruct lo as [lo|], hi as [hi|]; try by exists m1. destruct lo' as [lo'|], hi' as [hi'|]; try by exists m1.
  rewrite !(bool_decide_true (is_Some _)) by by eexists. cbn [negb andb fmap result_fmap orR mbind result_bind].
  apply tighten_columns; [done | by intros E; rewrite E in En | done | done | exists ls, lo, hi; by split | exists rs, lo', hi'; by split].
Qed.
End ColumnComparison.

(** ** Conditions *)

Lemma column_not_null (Q : row_type → Prop) m e cmp t : map_good Q m → typed columns e t →
  (IsCompareDistinct cmp = false → ∀ row v, Q row → Execute row e = Ok v → Value_IsNull v = false) →
  ∃ m', match e with BoundColumnRef b _ => if IsCompareDistinct cmp then Ok m else SetStatisticsNotNull m b | _ => Ok m end = Ok m' ∧ map_good Q m' ∧ ∀ b, is_Some (m !! b) ↔ is_Some (m' !! b).
Proof.
  intros Hm Ht Hv. destruct e; try (by exists m). destruct (IsCompareDistinct cmp); [by exists m|]. apply SetStatisticsNotNull_good; [done|]. intros row v HQ E. by apply (Hv eq_refl row).
Qed.

Lemma flip_ok cmp t : comparable t → is_comparison cmp = true →
  ∃ cmp', FlipComparisonExpression cmp = Ok cmp' ∧ is_comparison cmp' = true ∧ ∀ l r, cell_ok t l → cell_ok t r → Execute_comparison cmp' r l = Execute_comparison cmp l r.
Proof.
  intros Ht Hc.
  assert (∀ a b, Value_IsNull b || Value_IsNull a = Value_IsNull a || Value_IsNull b) as Horb by (intros; apply orb_comm).
  assert (∀ a b, Value_IsNull b && Value_IsNull a = Value_IsNull a && Value_IsNull b) as Handb by (intros; apply andb_comm).
  assert (∀ a b : list Z, bool_decide (b = a) = bool_decide (a = b)) as Hsym by (intros; apply bool_decide_ext; split; congruence).
  destruct cmp; try done; (eexists; split; [reflexivity|]; split; [done|]); intros l r Hl Hr; unfold Execute_comparison; rewrite (Horb l r), (Handb l r);
    (destruct (Value_IsNull l || Value_IsNull r) eqn:En; [done|]); apply orb_false_iff in En as [Nl Nr];
    (destruct (comparable_valid t l Ht Hl Nl) as [[Hk [x ->]]|[Hk [a ->]]], (comparable_valid t r Ht Hr Nr) as [[Hk' [y ->]]|[Hk' [b ->]]]; try congruence);
    unfold compare_values; cbn; unfold union_get; cbn [fst snd]; rewrite ?(bool_decide_true (InternalType t = InternalType t)) by done; cbn [mbind result_bind comparison_holds];
    rewrite ?Equals_key, ?GreaterThan_key, ?LessThan_key, ?(Hsym a b), ?(Z.eqb_sym (num_key (InternalType t) y)); try done.
Qed.

Lemma constant_column_ok (Q : row_type → Prop) m b cmp c t :
  comparable t → is_comparison cmp = true → columns b = t → cell_ok t c → map_good Q m → (∀ row, Q row → row_ok columns row) →
  (∀ row v, Q row → row b = Ok v → Execute_comparison cmp v c = Ok (Some true)) →
  ∃ m', match m !! b with None => Ok m | Some _ => on_column b (λ s, filter_constant s cmp c) m end = Ok m' ∧ map_good Q m'.
Proof.
  intros Ht Hc Hb Hcell Hm Hrows Htrue. destruct (m !! b) as [s|] eqn:Es; [|by exists m]. pose proof (proj1 Hm b s Es) as Hs. rewrite Hb in Hs.
  destruct (filter_constant_ok t s cmp c Ht Hc Hs Hcell) as (s' & E & Hs' & Hcov).
  destruct (on_column_good Q m b (λ s, filter_constant s cmp c) s Hm Es) as (s2 & _ & -> & Hg); [|by eexists].
  exists s'. split_and!; [done | by rewrite Hb|]. intros row v HQ Ev Hv. apply Hcov; [|done | by eapply Htrue]. destruct (Hrows row HQ b) as (v' & E' & Hv'). rewrite Hb in Hv'. congruence.
Qed.

Lemma filter_comparison_ok (Q : row_type → Prop) m le re cmp t :
  comparable t → is_comparison cmp = true → typed columns le t → typed columns re t → map_good Q m → (∀ row, Q row → row_ok columns row) →
  (∀ row lv rv, Q row → Execute row le = Ok lv → Execute row re = Ok rv → Execute_comparison cmp lv rv = Ok (Some true)) →
  ∃ m', filter_comparison m le re cmp = Ok m' ∧ map_good Q m'.
Proof.
  intros Ht Hc Hl Hr Hm Hrows Htrue. unfold filter_comparison.
  assert (IsCompareDistinct cmp = false → ∀ row lv rv, Q row → Execute row le = Ok lv → Execute row re = Ok rv → Value_IsNull lv = false ∧ Value_IsNull rv = false) as Hvalid.
  { intros Hd row lv rv HQ El Er. eapply comparison_valid; [exact Hd | by eapply Htrue]. }
  destruct (column_not_null Q m le cmp t Hm Hl) as (m1 & -> & Hm1 & S1).
  { intros Hd row v HQ E. destruct (Execute_typed columns row (Hrows row HQ) re t Hr) as (rv & Er & _). by apply (Hvalid Hd row v rv). }
  cbn [mbind result_bind]. destruct (column_not_null Q m1 re cmp t Hm1 Hr) as (m2 & -> & Hm2 & S2).
  { intros Hd row v HQ E. destruct (Execute_typed columns row (Hrows row HQ) le t Hl) as (lv & El & _). by apply (Hvalid Hd row lv v). }
  cbn [mbind result_bind]. destruct le as [bl tl|cl| | | | | |], re as [br tr|cr| | | | | |]; try (by exists m2).
  - inversion Hl; inversion Hr; subst. destruct (m2 !! bl) as [ls|] eqn:El; [|by exists m2]. destruct (m2 !! br) as [rs|] eqn:Er; [|by exists m2].
    eapply filter_columns_ok; try done; try congruence; rewrite ?El, ?Er; by eexists.
  - inversion Hl; inversion Hr; subst. eapply constant_column_ok; try done. intros row v HQ E. by apply (Htrue row v cr).
  - inversion Hl; inversion Hr; subst. destruct (flip_ok cmp (columns br) Ht Hc) as (cmp' & -> & Hc' & Hflip). cbn [mbind result_bind]. eapply constant_column_ok; try done. intros row v HQ E.
    rewrite Hflip; [by apply (Htrue row cl v) | done | destruct (Hrows row HQ br) as (v' & E' & Hv'); congruence].
Qed.

(** The row passes the condition. *)
Definition passes (row : row_type) (e : Expression) : Prop := Execute row e = Ok (Value_BOOLEAN true).

Lemma UpdateFilterStatistics_ok (Q : row_type → Prop) m e :
  typed columns e (LT BOOLEAN) → map_good Q m → (∀ row, Q row → row_ok columns row) → (∀ row, Q row → passes row e) → ∃ m', UpdateFilterStatistics m e = Ok m' ∧ map_good Q m'.
Proof.
  intros Ht Hm Hrows Hpass. destruct e as [| |cmp l r| |li ui i l u| | |]; try (by exists m); inversion Ht; subst; cbn [UpdateFilterStatistics].
  - eapply filter_comparison_ok; try done. intros row lv rv HQ El Er. pose proof (Hpass row HQ) as E. unfold passes in E. cbn [Execute] in E. rewrite El, Er in E. cbn [mbind result_bind] in E.
    destruct (Execute_comparison cmp lv rv) as [o|]; [|done]. injection E as E. apply (of_bool_inj o (Some true)) in E. by subst.
  - assert (∀ row iv lv uv, Q row → Execute row i = Ok iv → Execute row l = Ok lv → Execute row u = Ok uv →
      Execute_comparison (LowerComparisonType li) iv lv = Ok (Some true) ∧ Execute_comparison (UpperComparisonType ui) iv uv = Ok (Some true)) as Hboth.
    { intros row iv lv uv HQ Ei El Eu. pose proof (Hpass row HQ) as E. unfold passes in E. cbn [Execute] in E. rewrite Ei, El, Eu in E. cbn [mbind result_bind] in E. unfold Execute_between in E.
      destruct (Execute_comparison _ iv lv) as [a|]; [|done]. destruct (Execute_comparison _ iv uv) as [b|]; [|done]. cbn [mbind result_bind fmap result_fmap] in E. injection E as E.
      apply (of_bool_inj _ (Some true)) in E. destruct a as [[]|], b as [[]|]; done. }
    destruct (filter_comparison_ok Q m i l (LowerComparisonType li) t) as (m1 & -> & Hm1); try done; [by destruct li| |].
    { intros row iv lv HQ Ei El. destruct (Execute_typed columns row (Hrows row HQ) u t ltac:(done)) as (uv & Eu & _). by eapply Hboth. }
    cbn [mbind result_bind]. eapply filter_comparison_ok; try done; [by destruct ui|].
    intros row iv uv HQ Ei Eu. destruct (Execute_typed columns row (Hrows row HQ) l t ltac:(done)) as (lv & El & _). by eapply Hboth.
Qed.

(** The bounds inside of a condition are valid; those of a BETWEEN that is the
    condition need not be. *)
Definition filter_safe (row : row_type) (e : Expression) : bool :=
  match e with BoundBetween _ _ i l u => bounds_valid row i && bounds_valid row l && bounds_valid row u | _ => bounds_valid row e end.

Lemma propagate_condition_ok m e : map_typed columns m → typed columns e (LT BOOLEAN) →
  ∃ e' st, PropagateExpression m e = Ok (e', st) ∧ typed columns e' (LT BOOLEAN) ∧
    ∀ row, row_ok columns row → map_covers m row → filter_safe row e = true → passes row e ↔ passes row e'.
Proof.
  intros Hm Ht. destruct (PropagateExpression_ok columns m Hcolumns Hm e _ Ht) as ([e' st] & E & [Hp Hv]). exists e', st. split; [done|]. split; [apply Hp|]. intros row Hrow Hcov Hsafe.
  destruct (Execute_typed columns row Hrow e _ Ht) as (v & Ev & Hcell).
  assert (bounds_valid row e = true → passes row e ↔ passes row e') as Hsame.
  { intros Hb. destruct (Hv row v ltac:(by split_and!) Ev) as [E' _]. cbn in E'. unfold passes. by rewrite Ev, E'. }
  destruct e as [| | | |li ui i l u| | |]; try (by apply Hsame). clear Hsame Hv Hp. cbn [filter_safe] in Hsafe. rewrite !andb_true_iff in Hsafe. destruct Hsafe as [[Bi Bl] Bu].
  inversion Ht; subst. cbn [PropagateExpression] in E.
  destruct (PropagateExpression_ok columns m Hcolumns Hm i t ltac:(done)) as (pi & Ei & [Ti Vi]), (PropagateExpression_ok columns m Hcolumns Hm l t ltac:(done)) as (pl & El & [Tl Vl]),
    (PropagateExpression_ok columns m Hcolumns Hm u t ltac:(done)) as (pu & Eu & [Tu Vu]). rewrite Ei, El, Eu in E. cbn [mbind result_bind] in E.
  destruct (rewrite_between_ok columns li ui t pi pl pu ltac:(done) Ti Tl Tu) as (p & E2 & _ & Hb). rewrite E in E2. injection E2 as <-.
  cbn [Execute] in Ev. apply bind_Ok_inv in Ev as (iv & Eiv & Ev). apply bind_Ok_inv in Ev as (lv & Elv & Ev). apply bind_Ok_inv in Ev as (uv & Euv & Ev).
  destruct (Execute_between li ui iv lv uv) as [o|] eqn:Eo; [|done]. injection Ev as <-.
  destruct (Hb row iv lv uv o Hrow (Vi row iv ltac:(by split_and!) Eiv) (Vl row lv ltac:(by split_and!) Elv) (Vu row uv ltac:(by split_and!) Euv) Eo) as (o' & [Eo' _] & Hor & _). cbn [fst] in Eo'.
  unfold passes. cbn [Execute]. rewrite Eiv, Elv, Euv, Eo'. cbn [mbind result_bind]. rewrite Eo. cbn [fmap result_fmap].
  destruct Hor as [->|[-> ->]]; [done|]. split; intros [=].
Qed.

Lemma not_distinct_bool b c : ValueOperations_NotDistinctFrom (of_bool b) (Value_BOOLEAN c) = Ok (bool_decide (b = Some c)).
Proof. by destruct b as [[]|], c. Qed.

Lemma ExpressionIsConstant_ok e c : typed columns e (LT BOOLEAN) →
  ∃ b, ExpressionIsConstant e (Value_BOOLEAN c) = Ok b ∧ (b = true → ∀ row, Execute row e = Ok (Value_BOOLEAN c)).
Proof.
  intros Ht. assert (∃ b, (if IsFoldable e then match EvaluateScalar e with Ok v => ValueOperations_NotDistinctFrom v (Value_BOOLEAN c) | Throw (InternalException msg) => Throw (InternalException msg)
    | Throw _ => Ok false end else Ok false) = Ok b ∧ (b = true → ∀ row, Execute row e = Ok (Value_BOOLEAN c))) as Hfold.
  { destruct (IsFoldable e) eqn:Hf; [|by exists false]. unfold EvaluateScalar. destruct (Execute_typed columns (null_row columns) (null_row_ok columns Hcolumns) e _ Ht) as (v & E & Hv).
    rewrite (Execute_foldable _ (null_row columns) e Hf), E. destruct (bool_cell v Hv) as [b ->]. rewrite not_distinct_bool. eexists. split; [done|]. rewrite bool_decide_eq_true. intros -> row.
    by rewrite (Execute_foldable row (null_row columns) e Hf), E. }
  by destruct e.
Qed.

Lemma ExpressionIsConstantOrNull_ok e : typed columns e (LT BOOLEAN) →
  ∃ b, ExpressionIsConstantOrNull e (Value_BOOLEAN false) = Ok b ∧ (b = true → ∀ row, row_ok columns row → ¬ passes row e).
Proof.
  intros Ht. destruct e as [| | | | | | |v cs]; try (by exists false). cbn [ExpressionIsConstantOrNull]. inversion Ht as [| | | | | | | | | |v0 cs0 Hc Hn Hcs Ev Et]; subst. rewrite Et in Hc. destruct (bool_cell v Hc) as [b ->].
  destruct b as [b|]; [|done]. exists (negb b). split; [by destruct b|]. intros Hb row Hrow Hp. destruct b; [done|]. unfold passes in Hp. cbn [Execute] in Hp. apply bind_Ok_inv in Hp as (values & _ & Hp).
  unfold ConstantOrNullFunction in Hp. by destruct (existsb _ _).
Qed.

(** What [propagate_conditions] promises for one row. *)
Definition conditions_kept (m : StatisticsMap) (conditions : list Expression) (res : option (list Expression * StatisticsMap)) (row : row_type) : Prop :=
  match res with
  | None => ¬ Forall (passes row) conditions
  | Some (l, m') => (Forall (passes row) conditions ↔ Forall (passes row) l) ∧ (Forall (passes row) l → map_covers m' row)
  end.

Lemma propagate_conditions_ok conditions : ∀ m, map_typed columns m → Forall (λ e, typed columns e (LT BOOLEAN)) conditions →
  ∃ res, propagate_conditions m conditions = Ok res ∧ (∀ l m', res = Some (l, m') → map_typed columns m' ∧ Forall (λ e, typed columns e (LT BOOLEAN)) l) ∧
    ∀ row, row_ok columns row → map_covers m row → forallb (filter_safe row) conditions = true → conditions_kept m conditions res row.
Proof.
  induction conditions as [|e conditions IH]; intros m Hm Hcs.
  { eexists. split; [reflexivity|]. split; [by intros l m' [= <- <-]|]. intros row _ Hc _. by split. }
  apply Forall_cons in Hcs as [Ht Hcs]. cbn [propagate_conditions]. destruct (propagate_condition_ok m e Hm Ht) as (e' & st & -> & Ht' & Hiff). cbn [mbind result_bind].
  destruct (ExpressionIsConstant_ok e' true Ht') as (bt & -> & Hbt). cbn [mbind result_bind]. destruct bt.
  { destruct (IH m Hm Hcs) as (res & -> & Hres & Hrow). exists res. split_and!; [done | done|]. intros row Hr Hc Hs. cbn [forallb] in Hs. apply andb_true_iff in Hs as [Hse Hs].
    specialize (Hrow row Hr Hc Hs). assert (passes row e) as He by (apply (Hiff row Hr Hc Hse); by apply Hbt). destruct res as [[l m']|]; cbn [conditions_kept] in *; rewrite Forall_cons; tauto. }
  unfold orR. destruct (ExpressionIsConstant_ok e' false Ht') as (bf & -> & Hbf). cbn [mbind result_bind]. destruct (ExpressionIsConstantOrNull_ok e' Ht') as (bn & En & Hbn).
  assert (∃ b, (if bf then Ok true else ExpressionIsConstantOrNull e' (Value_BOOLEAN false)) = Ok b ∧ (b = true → ∀ row, row_ok columns row → ¬ passes row e')) as (bz & -> & Hbz).
  { destruct bf; [|by exists bn]. exists true. split; [done|]. intros _ row _. unfold passes. rewrite (Hbf eq_refl row). by intros [=]. }
  cbn [mbind result_bind]. destruct bz.
  { exists None. split_and!; [done | done|]. intros row Hr Hc Hs. cbn [forallb] in Hs. apply andb_true_iff in Hs as [Hse Hs]. cbn [conditions_kept]. rewrite Forall_cons. intros [He _].
    by apply (Hbz eq_refl row Hr), (Hiff row Hr Hc Hse). }
  destruct (UpdateFilterStatistics_ok (λ row, row_ok columns row ∧ map_covers m row ∧ passes row e') m e' Ht') as (m1 & -> & Hm1 & Hcov1); [by split; [|by intros row (_ & ? & _)] | by intros row (? & _) | by intros row (_ & _ & ?)|].
  cbn [mbind result_bind]. destruct (IH m1 Hm1 Hcs) as (res & -> & Hres & Hrow). cbn [mbind result_bind]. eexists. split; [done|]. split.
  - destruct res as [[l m']|]; [|done]. intros l' m2 [= <- <-]. destruct (Hres l m' eq_refl). split; [done | by constructor].
  - intros row Hr Hc Hs. cbn [forallb] in Hs. apply andb_true_iff in Hs as [Hse Hs]. pose proof (Hiff row Hr Hc Hse) as He. specialize (Hrow row Hr).
    destruct res as [[l m']|]; cbn [conditions_kept] in *; rewrite !Forall_cons; [|intros [He1 Hall]; by apply Hrow; [apply Hcov1; tauto | | ]]. split.
    + split; intros [H1 H2]; (split; [tauto|]); assert (map_covers m1 row) as Hc1 by (apply Hcov1; tauto); by apply (proj1 (Hrow Hc1 Hs)).
    + intros [H1 H2]. assert (map_covers m1 row) as Hc1 by (apply Hcov1; tauto). by apply (proj2 (Hrow Hc1 Hs)).
Qed.
End Maps.

(** * Properties *)

(** C18. Comparisons decided by statistics are decided correctly: for any two
    statistics of numbers or strings, [PropagateComparison] answers, and for all
    values they cover the comparison gives what the answer says, with NULL only
    where one side is NULL. *)
Theorem comparison_pruning_sound cmp t ls rs :
  comparable t → is_comparison cmp = true → typed_stats t ls → typed_stats t rs →
  ∃ res, PropagateComparison ls rs cmp = Ok res ∧
    ∀ l r, cell_ok t l → cell_ok t r → covers ls l → covers rs r → ∃ o, Execute_comparison cmp l r = Ok o ∧ answer_sound res l r o.
Proof.
  intros Ht Hc Hl Hr. destruct (PropagateComparison_ok cmp t ls rs Ht Hc Hl Hr) as (res & E & H). exists res. split; [done|]. intros l r Cl Cr Hcl Hcr.
  destruct (Execute_comparison_ok cmp t l r Hc Ht Cl Cr) as [o Eo]. exists o. split; [done|]. by apply H.
Qed.

(** C16. Propagating statistics does not change what an expression computes: a
    well-typed expression is rewritten to one of its type that has the same value
    on every row the statistics of the columns cover, and the statistics returned
    for it cover that value.  Where a BETWEEN has a bound that is NULL on the row
    the rewritten one may be NULL instead of FALSE, so that the bounds have to be
    valid. *)
Theorem propagation_keeps_values columns m e t :
  (∀ b, type_ok (columns b)) → map_typed columns m → typed columns e t →
  ∃ e' st, PropagateExpression m e = Ok (e', st) ∧ typed columns e' t ∧
    ∀ row, row_ok columns row → map_covers m row → bounds_valid row e = true →
      ∃ v, Execute row e = Ok v ∧ Execute row e' = Ok v ∧ ∀ s, st = Some s → covers s v.
Proof.
  intros Hcols Hm Ht. destruct (PropagateExpression_ok columns m Hcols Hm e t Ht) as ([e' st] & E & [Hp Hv]). exists e', st. split; [done|]. split; [apply Hp|]. intros row Hrow Hc Hb.
  destruct (Execute_typed columns row Hrow e t Ht) as (v & Ev & _). exists v. split; [done|]. exact (Hv row v (conj Hrow (conj Hc Hb)) Ev).
Qed.

(** C17. Propagating statistics through a filter keeps the rows that pass: when
    the filter is replaced by an empty result no row passes all its conditions,
    otherwise the conditions that are left let the same rows pass, and the
    statistics of the columns, tightened by the conditions, cover each of them.  This
    is stated of the rows on which every BETWEEN inside of a condition has bounds
    that are not NULL; a BETWEEN that is itself a condition may have any bounds.  (On
    a row with such a NULL bound NOT (x BETWEEN a AND NULL) can be TRUE before and
    NULL after the rewriting, [between_null_bound_lost].) *)
Theorem filter_propagation_exact columns m conditions :
  (∀ b, type_ok (columns b)) → map_typed columns m → Forall (λ e, typed columns e (LT BOOLEAN)) conditions →
  ∃ res, propagate_conditions m conditions = Ok res ∧
    ∀ row, row_ok columns row → map_covers m row → forallb (filter_safe row) conditions = true →
      match res with
      | None => ¬ Forall (passes row) conditions
      | Some (l, m') => (Forall (passes row) conditions ↔ Forall (passes row) l) ∧ (Forall (passes row) l → map_covers m' row)
      end.
Proof.
  intros Hcols Hm Hcs. destruct (propagate_conditions_ok columns Hcols conditions m Hm Hcs) as (res & E & _ & H). exists res. split; [done|]. exact H.
Qed.

(** ** Examples *)

Definition int_value (x : Z) : Value := V_num (LT INTEGER) (INT32, x).

Lemma int_cell x : cell_ok (LT INTEGER) (int_value x).
Proof. split_and!; [by vm_compute | done | done]. Qed.

(** Statistics of the numbers from [a] to [b], and of NULL if wanted. *)
Definition range_stats (a b : Z) (null : bool) : BaseStatistics :=
  match (s ← FromConstant (int_value a); o ← FromConstant (int_value b); s ← Merge s o; if null then Stats_Set s CAN_HAVE_NULL_VALUES else Ok s) with
  | Ok s => s
  | Throw _ => mkStats (LT INTEGER) true true 0 (D_numeric (mkNum false false None None)) []
  end.

Lemma range_stats_ok a b null : typed_stats (LT INTEGER) (range_stats a b null) ∧ covers (range_stats a b null) (int_value a) ∧ covers (range_stats a b null) (int_value b).
Proof.
  unfold range_stats. destruct (FromConstant_ok (int_value a)) as (s & -> & [W1 T1] & C1); [by vm_compute|]. destruct (FromConstant_ok (int_value b)) as (o & -> & [W2 T2] & C2); [by vm_compute|].
  cbn [mbind result_bind]. destruct (Merge_ok s o W1 W2) as (s' & -> & W3 & T3 & C3); [by rewrite T1, T2|]. cbn [mbind result_bind].
  assert (typed_stats (LT INTEGER) s' ∧ covers s' (int_value a) ∧ covers s' (int_value b)) as (H1 & H2 & H3) by (split_and!; [split; [done | by rewrite T3, T1] | apply C3; by left | apply C3; by right]).
  destruct null; [|done]. destruct (SetHasNull_ok s' W3) as (s2 & E2 & (W5 & T5 & C5) & _). cbn [Stats_Set]. rewrite E2. split_and!; [split; [done | by rewrite T5, T3, T1] | by apply C5 | by apply C5].
Qed.

#[local] Opaque range_stats.

Lemma comparison_pruning_sound_witness :
  ∃ res, PropagateComparison (range_stats 1 5 true) (range_stats 9 20 false) COMPARE_LESSTHAN = Ok res ∧ res = FILTER_TRUE_OR_NULL ∧ answer_sound res (int_value 5) (int_value 9) (Some true).
Proof.
  destruct (comparison_pruning_sound COMPARE_LESSTHAN (LT INTEGER) (range_stats 1 5 true) (range_stats 9 20 false)) as (res & E & H).
  - by left.
  - reflexivity.
  - exact (proj1 (range_stats_ok 1 5 true)).
  - exact (proj1 (range_stats_ok 9 20 false)).
  - destruct (H (int_value 5) (int_value 9) (int_cell 5) (int_cell 9) (proj2 (proj2 (range_stats_ok 1 5 true))) (proj1 (proj2 (range_stats_ok 9 20 false)))) as (o & Eo & Ho).
    vm_compute in Eo. injection Eo as <-.
    exists res. split; [exact E|]. split; [vm_compute in E; by injection E as <- | exact Ho].
Defined.

(** Two columns of integers, and a row of them. *)
Definition integers (b : ColumnBinding) : LogicalType := LT INTEGER.
Definition int_row (x y : Value) (b : ColumnBinding) : result Value := Ok (if bool_decide (b = (0, 0)%nat) then x else y).
Definition int_column (i : nat) : Expression := BoundColumnRef (0%nat, i) (LT INTEGER).
Definition int_map (s : BaseStatistics) : StatisticsMap := {[ (0, 0)%nat := s ]}.

Lemma integers_ok b : type_ok (integers b).
Proof. by vm_compute. Qed.

Lemma int_row_ok x y : cell_ok (LT INTEGER) x → cell_ok (LT INTEGER) y → row_ok integers (int_row x y).
Proof. intros Hx Hy b. unfold int_row. eexists. split; [done|]. by case_bool_decide. Qed.

Lemma int_map_typed s : typed_stats (LT INTEGER) s → map_typed integers (int_map s).
Proof. intros Hs b s0 Hb. unfold int_map in Hb. apply lookup_singleton_Some in Hb as [<- <-]. exact Hs. Qed.

Lemma int_map_covers s x y : covers s x → map_covers (int_map s) (int_row x y).
Proof. intros Hs b s0 v Hb. unfold int_map in Hb. apply lookup_singleton_Some in Hb as [<- <-]. unfold int_row. rewrite bool_decide_true by done. by intros [= <-]. Qed.

Lemma int_column_typed i : typed integers (int_column i) (LT INTEGER).
Proof. apply (typed_column integers). Qed.

Lemma int_constant_typed x : typed integers (BoundConstant (int_value x)) (LT INTEGER).
Proof. constructor. apply int_cell. Qed.

(** [CASE WHEN i < 9 THEN i ELSE 7 END], where [i] is between 1 and 5. *)
Definition sample_case : Expression :=
  BoundCase [(BoundComparison COMPARE_LESSTHAN (int_column 0) (BoundConstant (int_value 9)), int_column 0)] (BoundConstant (int_value 7)).

Lemma sample_case_typed : typed integers sample_case (LT INTEGER).
Proof.
  constructor; [|apply int_constant_typed]. apply Forall_singleton. split; [|apply int_column_typed].
  apply (typed_comparison integers _ _ _ (LT INTEGER)); [done | by left | apply int_column_typed | apply int_constant_typed].
Qed.

Lemma propagation_keeps_values_witness :
  ∃ e' st, PropagateExpression (int_map (range_stats 1 5 false)) sample_case = Ok (e', st) ∧ e' ≠ sample_case ∧
    Execute (int_row (int_value 5) (int_value 0)) e' = Ok (int_value 5) ∧ ∀ s, st = Some s → covers s (int_value 5).
Proof.
  destruct (propagation_keeps_values integers (int_map (range_stats 1 5 false)) sample_case (LT INTEGER)) as (e' & st & E & _ & H).
  - exact integers_ok.
  - apply int_map_typed. exact (proj1 (range_stats_ok 1 5 false)).
  - exact sample_case_typed.
  - destruct (H (int_row (int_value 5) (int_value 0))) as (v & E1 & E2 & Hc).
    + apply int_row_ok; apply int_cell.
    + apply int_map_covers. exact (proj2 (proj2 (range_stats_ok 1 5 false))).
    + reflexivity.
    + assert (v = int_value 5) as -> by (vm_compute in E1; by injection E1 as <-). exists e', st. split; [exact E|]. split; [|split; [exact E2 | exact Hc]]. vm_compute in E. by injection E as <- <-.
Defined.

(** [i > 2 AND i <= j], where [i] is between 1 and 5. *)
Definition sample_conditions : list Expression :=
  [BoundComparison COMPARE_GREATERTHAN (int_column 0) (BoundConstant (int_value 2)); BoundComparison COMPARE_LESSTHANOREQUALTO (int_column 0) (int_column 1)].

Lemma sample_conditions_typed : Forall (λ e, typed integers e (LT BOOLEAN)) sample_conditions.
Proof.
  constructor; [|apply Forall_singleton]; apply (typed_comparison integers _ _ _ (LT INTEGER)); try apply int_column_typed; try apply int_constant_typed; try done; by left.
Qed.

Lemma filter_propagation_exact_witness :
  ∃ m', propagate_conditions (int_map (range_stats 1 5 true)) sample_conditions = Ok (Some (sample_conditions, m')) ∧ map_covers m' (int_row (int_value 5) (int_value 8)).
Proof.
  destruct (filter_propagation_exact integers (int_map (range_stats 1 5 true)) sample_conditions) as (res & E & H).
  - exact integers_ok.
  - apply int_map_typed. exact (proj1 (range_stats_ok 1 5 true)).
  - exact sample_conditions_typed.
  - specialize (H (int_row (int_value 5) (int_value 8)) (int_row_ok _ _ (int_cell 5) (int_cell 8)) (int_map_covers _ _ _ (proj2 (proj2 (range_stats_ok 1 5 true)))) eq_refl).
    assert (∃ m', propagate_conditions (int_map (range_stats 1 5 true)) sample_conditions = Ok (Some (sample_conditions, m'))) as [m' E'] by (vm_compute; by eexists).
    exists m'. split; [exact E'|]. rewrite E in E'. injection E' as ->. apply H. repeat constructor.
Defined.

(** ** Where propagation goes wrong *)

(** [NOT (i BETWEEN 10 AND j)] is TRUE for i = 1 and j = NULL; after propagation
    it is NULL. *)
Lemma between_null_bound_lost :
  let e := BoundOperator OPERATOR_NOT [BoundBetween true true (int_column 0) (BoundConstant (int_value 10)) (int_column 1)] in
  let row := int_row (int_value 1) (V_null (LT INTEGER)) in
  Execute row e = Ok (Value_BOOLEAN true) ∧
  (p ← PropagateExpression (int_map (range_stats 1 5 true)) e; Execute row p.1) = Ok (V_null (LT BOOLEAN)).
Proof. vm_compute. by split. Qed.

(** A filter on [constant_or_null] of NULL is an internal error. *)
Lemma constant_or_null_filter_throws :
  propagate_conditions ∅ [BoundConstantOrNull (V_null (LT BOOLEAN)) [BoundConstant (V_null (LT BOOLEAN)); int_column 0]] = Throw (InternalException "Comparison on NULL values").
Proof. reflexivity. Qed.
