(* ===== verification/TableFilter.v ===== *)
(** The filters pushed into a table scan
    ([src/planner/filter/*.cpp], [src/planner/table_filter.cpp]): their checks
    against statistics and sketches, their comparison, and their evaluation on
    a vector ([ColumnSegment::FilterSelection] in
    [src/storage/table/column_segment.cpp]). *)
From S2P Require Import Prelude Types Stats SelectionVector ColumnSketch NumericStats StringStats.
From S2P Require Import BaseStatistics.

(** * The filters *)

Inductive TableFilterType : Type :=
  | CONSTANT_COMPARISON | IS_NULL | IS_NOT_NULL | CONJUNCTION_OR | CONJUNCTION_AND | STRUCT_EXTRACT.

#[export] Instance TableFilterType_eq_dec : EqDecision TableFilterType.
Proof. solve_decision. Defined.

Inductive TableFilter : Type :=
  | ConstantFilter (comparison_type : ExpressionType) (constant : Value)
  | IsNullFilter
  | IsNotNullFilter
  | ConjunctionOrFilter (child_filters : list TableFilter)
  | ConjunctionAndFilter (child_filters : list TableFilter)
  | StructFilter (child_idx : nat) (child_name : string) (child_filter : TableFilter).

Definition filter_type (f : TableFilter) : TableFilterType :=
  match f with
  | ConstantFilter _ _ => CONSTANT_COMPARISON
  | IsNullFilter => IS_NULL
  | IsNotNullFilter => IS_NOT_NULL
  | ConjunctionOrFilter _ => CONJUNCTION_OR
  | ConjunctionAndFilter _ => CONJUNCTION_AND
  | StructFilter _ _ _ => STRUCT_EXTRACT
  end.

(** Induction with the hypothesis for the child filters. *)
Section FilterInd.
Context (P : TableFilter → Prop) (Hc : ∀ cmp c, P (ConstantFilter cmp c)) (Hn : P IsNullFilter) (Hnn : P IsNotNullFilter).
Context (Hor : ∀ fs, Forall P fs → P (ConjunctionOrFilter fs)) (Hand : ∀ fs, Forall P fs → P (ConjunctionAndFilter fs)).
Context (Hst : ∀ i n f, P f → P (StructFilter i n f)).
Fixpoint TableFilter_ind' (f : TableFilter) : P f :=
  let go := fix go fs := match fs return Forall P fs with
              | [] => Forall_nil_2 _ | x :: r => Forall_cons_2 _ _ _ (TableFilter_ind' x) (go r) end in
  match f with
  | ConstantFilter cmp c => Hc cmp c
  | IsNullFilter => Hn
  | IsNotNullFilter => Hnn
  | ConjunctionOrFilter fs => Hor fs (go fs)
  | ConjunctionAndFilter fs => Hand fs (go fs)
  | StructFilter i n f' => Hst i n f' (TableFilter_ind' f')
  end.
End FilterInd.

(** * Checks against statistics *)

Definition ConstantFilter_CheckStatistics (cmp : ExpressionType) (constant : Value) (stats : BaseStatistics)
    : result FilterPropagateResult :=
  match InternalType (value_type constant) with
  | UINT8 | UINT16 | UINT32 | UINT64 | UINT128 | INT8 | INT16 | INT32 | INT64 | INT128 | FLOAT | DOUBLE =>
      NumericStats_CheckZonemap stats cmp constant
  | PT_VARCHAR => c ← StringValue_Get constant; StringStats_CheckZonemap stats cmp c
  | _ => Ok NO_PRUNING_POSSIBLE
  end.

Definition IsNullFilter_CheckStatistics (stats : BaseStatistics) : FilterPropagateResult :=
  if negb (CanHaveNull stats) then FILTER_ALWAYS_FALSE
  else if negb (CanHaveNoNull stats) then FILTER_ALWAYS_TRUE
  else NO_PRUNING_POSSIBLE.

Definition IsNotNullFilter_CheckStatistics (stats : BaseStatistics) : FilterPropagateResult :=
  if negb (CanHaveNoNull stats) then FILTER_ALWAYS_FALSE
  else if negb (CanHaveNull stats) then FILTER_ALWAYS_TRUE
  else NO_PRUNING_POSSIBLE.

(** The loops of the conjunctions over [check], the check of a child. *)
Definition ConjunctionOrFilter_CheckStatistics (check : TableFilter → result FilterPropagateResult)
    : list TableFilter → result FilterPropagateResult :=
  fix any fs :=
    match fs with
    | [] => Ok FILTER_ALWAYS_FALSE
    | g :: fs' =>
        prune_result ← check g;
        match prune_result with
        | NO_PRUNING_POSSIBLE => Ok NO_PRUNING_POSSIBLE
        | FILTER_ALWAYS_TRUE => Ok FILTER_ALWAYS_TRUE
        | _ => any fs'
        end
    end.

Definition ConjunctionAndFilter_CheckStatistics (check : TableFilter → result FilterPropagateResult)
    : list TableFilter → FilterPropagateResult → result FilterPropagateResult :=
  fix all fs res :=
    match fs with
    | [] => Ok res
    | g :: fs' =>
        prune_result ← check g;
        match prune_result with
        | FILTER_ALWAYS_FALSE => Ok FILTER_ALWAYS_FALSE
        | _ => all fs' (if bool_decide (prune_result ≠ res) then NO_PRUNING_POSSIBLE else res)
        end
    end.

(** [CheckStatistics]: one method per filter class. *)
Fixpoint CheckStatistics (f : TableFilter) (stats : BaseStatistics) {struct f} : result FilterPropagateResult :=
  match f with
  | ConstantFilter cmp c => ConstantFilter_CheckStatistics cmp c stats
  | IsNullFilter => Ok (IsNullFilter_CheckStatistics stats)
  | IsNotNullFilter => Ok (IsNotNullFilter_CheckStatistics stats)
  | ConjunctionOrFilter child_filters => ConjunctionOrFilter_CheckStatistics (λ g, CheckStatistics g stats) child_filters
  | ConjunctionAndFilter child_filters =>
      ConjunctionAndFilter_CheckStatistics (λ g, CheckStatistics g stats) child_filters FILTER_ALWAYS_TRUE
  | StructFilter child_idx _ child_filter =>
      child_stats ← StructStats_GetChildStats stats child_idx;
      CheckStatistics child_filter child_stats
  end.

(** * Checks against sketches *)

Definition ConstantFilter_CheckSketchStatistics (cmp : ExpressionType) (constant : Value) (stats : BaseStatistics)
    (index : nat) (segment_sketches : list (option BaseColumnSketch)) (vector_sels : list ManagedSelection)
    : result (FilterPropagateResult * list ManagedSelection) :=
  match InternalType (value_type constant) with
  | UINT32 | UINT64 | INT32 | INT64 =>
      NumericStats_CheckSketch stats cmp constant index segment_sketches vector_sels
  | _ => Ok (NO_PRUNING_POSSIBLE, vector_sels)
  end.

(** [merged_mask[j] &= cur_mask[j]] for the words of [merged_mask]. *)
Fixpoint merge_masks (merged_mask cur_mask : list Z) : result (list Z) :=
  match merged_mask with
  | [] => Ok []
  | m :: ms =>
      match cur_mask with
      | [] => out_of_range
      | c :: cs => ms' ← merge_masks ms cs; Ok (Z.land m c :: ms')
      end
  end.

(** [if (--i) { msel.bitmask = merged_mask; msel.BitmaskToSelection(); }] *)
Definition finish_merge (i : Z) (merged_mask : list Z) (index : nat) (vector_sels : list ManagedSelection)
    : result (list ManagedSelection) :=
  if negb (i - 1 =? 0) then
    msel ← vget vector_sels index;
    m' ← BitmaskToSelection (set_bitmask msel merged_mask);
    vset vector_sels index m'
  else Ok vector_sels.

(** The loops of the conjunctions over [check], the check of a child. *)
Definition sketch_check : Type :=
  TableFilter → list ManagedSelection → result (FilterPropagateResult * list ManagedSelection).

Definition ConjunctionOrFilter_CheckSketchStatistics (check : sketch_check)
    : list TableFilter → list ManagedSelection → result (FilterPropagateResult * list ManagedSelection) :=
  fix any fs sels :=
    match fs with
    | [] => Ok (FILTER_ALWAYS_FALSE, sels)
    | g :: fs' =>
        '(prune_result, sels) ← check g sels;
        match prune_result with
        | NO_PRUNING_POSSIBLE => Ok (NO_PRUNING_POSSIBLE, sels)
        | FILTER_ALWAYS_TRUE => Ok (FILTER_ALWAYS_TRUE, sels)
        | _ => any fs' sels
        end
    end.

Definition ConjunctionAndFilter_CheckSketchStatistics (index : nat) (check : sketch_check)
    : list TableFilter → FilterPropagateResult → Z → list Z → list ManagedSelection →
      result (FilterPropagateResult * list ManagedSelection) :=
  fix all fs res i merged_mask sels :=
    match fs with
    | [] => sels' ← finish_merge i merged_mask index sels; Ok (res, sels')
    | g :: fs' =>
        '(prune_result, sels) ← check g sels;
        '(i, merged_mask) ←
          (if bool_decide (filter_type g = CONSTANT_COMPARISON) then
             msel ← vget sels index;
             merged ← (if i =? 0 then Ok (bitmask msel) else merge_masks merged_mask (bitmask msel));
             Ok (i + 1, merged)
           else Ok (i, merged_mask));
        match prune_result with
        | FILTER_ALWAYS_FALSE => Ok (FILTER_ALWAYS_FALSE, sels)
        | _ => all fs' (if bool_decide (prune_result ≠ res) then NO_PRUNING_POSSIBLE else res) i merged_mask sels
        end
    end.

Fixpoint CheckSketchStatistics (index : nat) (segment_sketches : list (option BaseColumnSketch)) (f : TableFilter)
    (stats : BaseStatistics) (vector_sels : list ManagedSelection) {struct f}
    : result (FilterPropagateResult * list ManagedSelection) :=
  let check g sels := CheckSketchStatistics index segment_sketches g stats sels in
  match f with
  | ConstantFilter cmp c => ConstantFilter_CheckSketchStatistics cmp c stats index segment_sketches vector_sels
  | IsNullFilter => Ok (IsNullFilter_CheckStatistics stats, vector_sels)
  | IsNotNullFilter => Ok (IsNotNullFilter_CheckStatistics stats, vector_sels)
  | ConjunctionOrFilter child_filters => ConjunctionOrFilter_CheckSketchStatistics check child_filters vector_sels
  | ConjunctionAndFilter child_filters =>
      _ ← vget vector_sels index;
      ConjunctionAndFilter_CheckSketchStatistics index check child_filters FILTER_ALWAYS_TRUE 0 [] vector_sels
  | StructFilter child_idx _ child_filter =>
      child_stats ← StructStats_GetChildStats stats child_idx;
      CheckSketchStatistics index segment_sketches child_filter child_stats vector_sels
  end.

(** * Comparison of filters *)

(** [StringUtil::CIEquals]. *)
Definition ascii_lower (a : Ascii.ascii) : N :=
  let n := Ascii.N_of_ascii a in if (65 <=? n)%N && (n <=? 90)%N then (n + 32)%N else n.
Fixpoint CIEquals (l r : string) : bool :=
  match l, r with
  | EmptyString, EmptyString => true
  | String a l', String b r' => if (ascii_lower a =? ascii_lower b)%N then CIEquals l' r' else false
  | _, _ => false
  end.

(** [TableFilter::Equals], which every class calls first. *)
Definition TableFilter_Equals (f g : TableFilter) : bool := bool_decide (filter_type f ≠ filter_type g).

Definition cast_mismatch {A} : result A :=
  Throw (InternalException "Failed to cast table to type - table filter type mismatch").

(** [Equals].  [StructFilter::Equals] calls [Equals] on the child of its
    argument, so the recursion changes sides: [Filter_Equals_dir false f g] is
    [f.Equals(g)] and [Filter_Equals_dir true f g] is [g.Equals(f)]. *)
Fixpoint Filter_Equals_dir (swapped : bool) (f g : TableFilter) {struct f} : result bool :=
  let children := fix children (fs gs : list TableFilter) :=
    match fs, gs with
    | a :: fs', b :: gs' => e ← Filter_Equals_dir swapped a b; if (e : bool) then children fs' gs' else Ok false
    | _, _ => Ok true
    end in
  if negb (TableFilter_Equals f g) then Ok false
  else match f, g with
  | ConstantFilter cmp c, ConstantFilter cmp' c' =>
      if bool_decide (cmp' = cmp) then (if swapped then ValueOperations_Equals c c' else ValueOperations_Equals c' c)
      else Ok false
  | ConjunctionOrFilter fs, ConjunctionOrFilter gs | ConjunctionAndFilter fs, ConjunctionAndFilter gs =>
      if bool_decide (length gs ≠ length fs) then Ok false else children fs gs
  | StructFilter i n a, StructFilter i' n' b =>
      if bool_decide (i' = i) && CIEquals n' n then Filter_Equals_dir (negb swapped) a b else Ok false
  | _, _ =>
      (* the filter whose method runs casts the other one, unless it is a NULL filter *)
      match if swapped then g else f with
      | IsNullFilter | IsNotNullFilter => Ok true
      | _ => cast_mismatch
      end
  end.

Definition Filter_Equals (f other : TableFilter) : result bool := Filter_Equals_dir false f other.

(** * Filters of a scan *)

(** [TableFilterSet]: at most one filter per column. *)
Definition TableFilterSet : Type := gmap nat TableFilter.

Definition PushFilter (filters : TableFilterSet) (column_index : nat) (f : TableFilter) : TableFilterSet :=
  match filters !! column_index with
  | None => <[column_index := f]> filters
  | Some (ConjunctionAndFilter child_filters) =>
      <[column_index := ConjunctionAndFilter (child_filters ++ [f])]> filters
  | Some entry => <[column_index := ConjunctionAndFilter [entry; f]]> filters
  end.

Definition TableFilterSet_Equals (l r : TableFilterSet) : result bool :=
  if bool_decide (base.size l ≠ base.size r) then Ok false
  else foldr (λ (entry : nat * TableFilter) rest,
    match r !! entry.1 with
    | None => Ok false
    | Some g => e ← Filter_Equals entry.2 g; if (e : bool) then rest else Ok false
    end) (Ok true) (map_to_list l).

(** * Evaluation on a vector *)

(** The data of a vector in unified format, by physical type. *)
Inductive column_data : Type :=
  | C_num (data : list Z)
  | C_string (data : list (list Z))
  | C_other.

(** A vector with its unified format: the type, the selection [vdata.sel],
    the data, the validity mask ([None] when no mask is allocated:
    [AllValid()]), and the entries of a struct vector. *)
Inductive FilterVector : Type :=
  | mkFV (fv_type : LogicalType) (fv_sel : SelectionVector) (fv_data : column_data) (fv_mask : option (list bool))
         (fv_entries : list FilterVector).
Definition fv_type (v : FilterVector) : LogicalType := let 'mkFV t _ _ _ _ := v in t.
Definition fv_sel (v : FilterVector) : SelectionVector := let 'mkFV _ s _ _ _ := v in s.
Definition fv_data (v : FilterVector) : column_data := let 'mkFV _ _ d _ _ := v in d.
Definition fv_mask (v : FilterVector) : option (list bool) := let 'mkFV _ _ _ m _ := v in m.
Definition fv_entries (v : FilterVector) : list FilterVector := let 'mkFV _ _ _ _ e := v in e.

(** [mask.RowIsValid(i)]. *)
Definition mask_RowIsValid (mask : option (list bool)) (i : nat) : result bool :=
  match mask with None => Ok true | Some bits => vget bits i end.

(** The loop of [TemplatedFilterSelection] and [TemplatedNullSelection]: keep
    the selected indices [idx] whose row passes [test]. *)
Definition select_loop (v : FilterVector) (test : nat → result bool) (sel : SelectionVector) (approved_tuple_count : nat)
    : result (SelectionVector * nat) :=
  foldM (λ st i,
    idx ← get_index sel i;
    vector_idx ← get_index (fv_sel v) (Z.to_nat idx);
    keep ← test (Z.to_nat vector_idx);
    if (keep : bool) then sel_push st idx else Ok st)
    (SelectionVector_Initialize approved_tuple_count, O) (seq 0 approved_tuple_count).

(** [TemplatedFilterSelection<T, OP, HAS_NULL>]. *)
Definition TemplatedFilterSelection {T} (v : FilterVector) (data : list T) (op : T → bool) (HAS_NULL : bool)
    (sel : SelectionVector) (approved_tuple_count : nat) : result (SelectionVector * nat) :=
  select_loop v (λ vector_idx,
    valid ← (if HAS_NULL then mask_RowIsValid (fv_mask v) vector_idx else Ok true);
    if negb valid then Ok false
    else x ← vget data vector_idx; Ok (op x)) sel approved_tuple_count.

(** [FilterSelectionSwitch<T>]; [operation] is the comparison operator of the
    comparison type for [T]. *)
Definition FilterSelectionSwitch {T} (v : FilterVector) (data : list T) (operation : option (T → bool))
    (sel : SelectionVector) (approved_tuple_count : nat) : result (SelectionVector * nat) :=
  match operation with
  | Some op => TemplatedFilterSelection v data op (bool_decide (is_Some (fv_mask v))) sel approved_tuple_count
  | None => Throw (NotImplementedException "Unknown comparison type for filter pushed down to table!")
  end.

(** [TemplatedNullSelection<IS_NULL>]. *)
Definition TemplatedNullSelection (is_null : bool) (v : FilterVector) (sel : SelectionVector) (approved_tuple_count : nat)
    : result (SelectionVector * nat) :=
  match fv_mask v with
  | None => if is_null then Ok (sel, O) else Ok (sel, approved_tuple_count)
  | Some _ =>
      select_loop v (λ vector_idx, valid ← mask_RowIsValid (fv_mask v) vector_idx; Ok (negb (Bool.eqb valid is_null)))
        sel approved_tuple_count
  end.

(** The operators [TemplatedFilterSelection] is instantiated with; strings
    compare as [string_t] does (StringType.v). *)
Definition number_operation (cmp : ExpressionType) (pt : PhysicalType) (predicate : Z) : option (Z → bool) :=
  match cmp with
  | COMPARE_EQUAL => Some (λ v, Equals pt v predicate)
  | COMPARE_NOTEQUAL => Some (λ v, NotEquals pt v predicate)
  | COMPARE_LESSTHAN => Some (λ v, LessThan pt v predicate)
  | COMPARE_GREATERTHAN => Some (λ v, GreaterThan pt v predicate)
  | COMPARE_LESSTHANOREQUALTO => Some (λ v, LessThanEquals pt v predicate)
  | COMPARE_GREATERTHANOREQUALTO => Some (λ v, GreaterThanEquals pt v predicate)
  | _ => None
  end.

Definition string_operation (cmp : ExpressionType) (predicate : list Z) : option (list Z → bool) :=
  match cmp with
  | COMPARE_EQUAL => Some (λ v, bool_decide (v = predicate))
  | COMPARE_NOTEQUAL => Some (λ v, negb (bool_decide (v = predicate)))
  | COMPARE_LESSTHAN => Some (λ v, bytes_gt predicate v)
  | COMPARE_GREATERTHAN => Some (λ v, bytes_gt v predicate)
  | COMPARE_LESSTHANOREQUALTO => Some (λ v, negb (bytes_gt v predicate))
  | COMPARE_GREATERTHANOREQUALTO => Some (λ v, negb (bytes_gt predicate v))
  | _ => None
  end.

(** The CONSTANT_COMPARISON case of [FilterSelection]. *)
Definition ConstantFilter_Selection (cmp : ExpressionType) (constant : Value) (v : FilterVector) (sel : SelectionVector)
    (approved_tuple_count : nat) : result (SelectionVector * nat) :=
  match InternalType (fv_type v) with
  | (UINT8 | UINT16 | UINT32 | UINT64 | INT8 | INT16 | INT32 | INT64 | INT128 | UINT128 | FLOAT | DOUBLE | BOOL) as pt =>
      predicate ← GetValueUnsafe pt constant;
      match fv_data v with
      | C_num data => FilterSelectionSwitch v data (number_operation cmp pt predicate) sel approved_tuple_count
      | _ => Throw (UndefinedBehaviour "vector of another type")
      end
  | PT_VARCHAR =>
      predicate ← StringValue_Get constant;
      match fv_data v with
      | C_string data => FilterSelectionSwitch v data (string_operation cmp predicate) sel approved_tuple_count
      | _ => Throw (UndefinedBehaviour "vector of another type")
      end
  | _ => Throw (InvalidTypeException "Invalid type for filter pushed down to table comparison")
  end.

(** Whether [new_idx] is among the first [count_total] results. *)
Fixpoint find_result (result_sel : SelectionVector) (new_idx : Z) (rs : list nat) : result bool :=
  match rs with
  | [] => Ok false
  | res_idx :: rs' => r ← get_index result_sel res_idx; if r =? new_idx then Ok true else find_result result_sel new_idx rs'
  end.

(** Moving the passed tuples of one OR branch into the result. *)
Definition merge_passed (temp_sel : SelectionVector) (temp_count : nat) (st : SelectionVector * nat)
    : result (SelectionVector * nat) :=
  foldM (λ st i,
    new_idx ← get_index temp_sel i;
    found ← find_result st.1 new_idx (seq 0 st.2);
    if (found : bool) then Ok st else sel_push st new_idx) st (seq 0 temp_count).

(** [ColumnSegment::FilterSelection]: the new selection and its count, which
    is also the value of [approved_tuple_count] and the returned count. *)
Fixpoint FilterSelection (f : TableFilter) (v : FilterVector) (sel : SelectionVector) (approved_tuple_count : nat) {struct f}
    : result (SelectionVector * nat) :=
  match f with
  | ConjunctionOrFilter child_filters =>
      (fix any fs st :=
         match fs with
         | [] => Ok st
         | g :: fs' =>
             '(temp_sel, temp_count) ← FilterSelection g v sel approved_tuple_count;
             st' ← merge_passed temp_sel temp_count st;
             any fs' st'
         end) child_filters (SelectionVector_Initialize approved_tuple_count, O)
  | ConjunctionAndFilter child_filters =>
      (fix all fs st :=
         match fs with
         | [] => Ok st
         | g :: fs' => st' ← FilterSelection g v st.1 st.2; all fs' st'
         end) child_filters (sel, approved_tuple_count)
  | ConstantFilter cmp constant => ConstantFilter_Selection cmp constant v sel approved_tuple_count
  | IsNullFilter => TemplatedNullSelection true v sel approved_tuple_count
  | IsNotNullFilter => TemplatedNullSelection false v sel approved_tuple_count
  | StructFilter child_idx _ child_filter =>
      child_vec ← vget (fv_entries v) child_idx;
      FilterSelection child_filter child_vec sel approved_tuple_count
  end.
