(* ===== verification/FilterFacts.v ===== *)
(** What a pushed-down filter means row by row, that [FilterSelection]
    computes it, and that the checks against statistics agree with it. *)
From S2P Require Import Prelude Types Stats SelectionVector ColumnSketch NumericStats NumericFacts.
From S2P Require Import StringStats BaseStatistics StatsFacts StatsCreate TableFilter.

(** * Selections as lists *)

(** [(sel, n)] holds the list [L] of row indices. *)
Record selection (sel : SelectionVector) (n : nat) (L : list Z) : Prop := {
  sl_readable : sel_readable sel n;
  sl_list : sel_list sel n = L;
}.

Lemma selection_length sel n L : selection sel n L → length L = n.
Proof. intros [Hr <-]. by apply length_sel_list. Qed.

(** A loop over the positions of a selection is a loop over its rows. *)
Lemma foldM_selection {St} (g : St → Z → result St) sel n L st :
  selection sel n L → foldM (λ st i, idx ← get_index sel i; g st idx) st (seq 0 n) = foldM g st L.
Proof.
  intros H. pose proof (selection_length _ _ _ H) as Hn. destruct H as [Hr HL].
  assert (∀ k L', (k + length L' = n)%nat → (∀ i, L' !! i = L !! (k + i)%nat) →
    foldM (λ st i, idx ← get_index sel i; g st idx) st (seq k (length L')) = foldM g st L') as Hk.
  { intros k L' Hlen Hlook. revert k st Hlen Hlook. induction L' as [|x L' IH]; intros k st Hlen Hlook; [done|].
    cbn [length seq foldM] in *. destruct (get_index_sel_list sel n k Hr ltac:(lia)) as (z & Hz & Hl).
    rewrite Hz. cbn [mbind result_bind]. specialize (Hlook O) as H0. rewrite Nat.add_0_r, <- HL, Hl in H0. injection H0 as <-.
    destruct (g st x) as [st'|]; [|done]. cbn [mbind result_bind]. apply IH; [lia|].
    intros i. specialize (Hlook (S i)). cbn in Hlook. by replace (S k + i)%nat with (k + S i)%nat by lia. }
  rewrite <- Hn at 1. apply (Hk O L); [lia | done].
Qed.

(** Row numbers fit the selection's entries. *)
Definition rows_ok (L : list Z) : Prop := Forall (λ z, 0 ≤ z < 2 ^ 32) L.

Lemma wrap_rows L : rows_ok L → wrapu 32 <$> L = L.
Proof. induction 1 as [|z L Hz _ IH]; [done|]. cbn. by rewrite IH, wrapu_small by lia. Qed.

(** Pushing rows into a fresh selection. *)
Lemma push_fresh cap L :
  rows_ok L → (length L ≤ cap)%nat →
  ∃ sel, foldM sel_push (SelectionVector_Initialize cap, O) L = Ok (sel, length L) ∧ selection sel (length L) L.
Proof.
  intros Hr Hc. destruct (sel_push_all (SelectionVector_Initialize cap) 0 cap L) as (s & Hs & (buf & Hb & Hbl) & Hl);
    [apply sel_cap_Initialize | done|].
  exists s. split; [done|]. split.
  - unfold sel_readable. rewrite Hb. lia.
  - cbn [Nat.add] in Hl. rewrite Hl, sel_list_0. cbn. by apply wrap_rows.
Qed.

(** * The rows of a vector *)

Definition row_pos (v : FilterVector) (idx : Z) : option nat :=
  match get_index (fv_sel v) (Z.to_nat idx) with Ok z => Some (Z.to_nat z) | Throw _ => None end.
Definition row_valid (v : FilterVector) (p : nat) : bool :=
  match fv_mask v with None => true | Some bits => default false (bits !! p) end.

(** The test a constant comparison makes at a position of the data. *)
Definition constant_test (cmp : ExpressionType) (c : Value) (v : FilterVector) : option (nat → bool) :=
  match fv_data v with
  | C_num data =>
      if is_numeric (InternalType (fv_type v)) then
        match GetValueUnsafe (InternalType (fv_type v)) c with
        | Ok x => op ← number_operation cmp (InternalType (fv_type v)) x; Some (λ p, from_option op false (data !! p))
        | Throw _ => None
        end
      else None
  | C_string data =>
      if bool_decide (InternalType (fv_type v) = PT_VARCHAR) then
        match StringValue_Get c with
        | Ok x => op ← string_operation cmp x; Some (λ p, from_option op false (data !! p))
        | Throw _ => None
        end
      else None
  | C_other => None
  end.

(** Does row [idx] pass the filter? *)
Fixpoint row_passes (f : TableFilter) (v : FilterVector) (idx : Z) {struct f} : bool :=
  match f with
  | ConstantFilter cmp c =>
      match row_pos v idx, constant_test cmp c v with
      | Some p, Some test => row_valid v p && test p
      | _, _ => false
      end
  | IsNullFilter => match row_pos v idx with Some p => negb (row_valid v p) | None => false end
  | IsNotNullFilter => match row_pos v idx with Some p => row_valid v p | None => false end
  | ConjunctionOrFilter fs => existsb (λ g, row_passes g v idx) fs
  | ConjunctionAndFilter fs => forallb (λ g, row_passes g v idx) fs
  | StructFilter i _ g => from_option (λ e, row_passes g e idx) false (fv_entries v !! i)
  end.

(** The rows [L] exist in the vector. *)
Definition vector_rows (v : FilterVector) (L : list Z) : Prop :=
  ∀ idx, idx ∈ L → ∃ p, row_pos v idx = Some p ∧
    (∀ data, fv_data v = C_num data → (p < length data)%nat) ∧
    (∀ data, fv_data v = C_string data → (p < length data)%nat) ∧
    (∀ bits, fv_mask v = Some bits → (p < length bits)%nat).

(** The filter fits the vector: comparisons are implemented for the type and
    constant, struct fields exist, and the rows exist in every vector read. *)
Fixpoint filter_fits (f : TableFilter) (v : FilterVector) (L : list Z) {struct f} : Prop :=
  match f with
  | ConstantFilter cmp c => vector_rows v L ∧ is_Some (constant_test cmp c v)
  | IsNullFilter | IsNotNullFilter => vector_rows v L
  | ConjunctionOrFilter fs | ConjunctionAndFilter fs =>
      (fix go fs := match fs with [] => True | g :: r => filter_fits g v L ∧ go r end) fs
  | StructFilter i _ g => ∃ e, fv_entries v !! i = Some e ∧ filter_fits g e L
  end.

Lemma fits_children v L fs :
  (fix go fs := match fs with [] => True | g :: r => filter_fits g v L ∧ go r end) fs ↔ Forall (λ g, filter_fits g v L) fs.
Proof. induction fs as [|g fs IH]; [done|]. rewrite Forall_cons. by rewrite IH. Qed.

Lemma fits_subset f v L L' : L' ⊆ L → filter_fits f v L → filter_fits f v L'.
Proof.
  revert v. induction f as [cmp c| | |fs IH|fs IH|i n g IH] using TableFilter_ind'; intros v HL; cbn [filter_fits]; unfold vector_rows.
  - intros [H ?]. auto.
  - auto.
  - auto.
  - rewrite !fits_children. intros HF. rewrite Forall_forall in *. auto.
  - rewrite !fits_children. intros HF. rewrite Forall_forall in *. auto.
  - intros (e & He & Hf). eauto.
Qed.

(** * The loops *)

Lemma select_loop_ok v test T sel n L :
  selection sel n L → rows_ok L → vector_rows v L →
  (∀ idx p, idx ∈ L → row_pos v idx = Some p → test p = Ok (T p)) →
  ∃ sel' n', select_loop v test sel n = Ok (sel', n') ∧
    selection sel' n' (filter (λ idx, from_option T false (row_pos v idx)) L).
Proof.
  intros Hs Hr Hv Ht. unfold select_loop.
  rewrite (foldM_selection (λ st idx, vector_idx ← get_index (fv_sel v) (Z.to_nat idx);
    keep ← test (Z.to_nat vector_idx); if (keep : bool) then sel_push st idx else Ok st) _ _ _ _ Hs).
  assert (∀ st, foldM (λ st idx, vector_idx ← get_index (fv_sel v) (Z.to_nat idx);
    keep ← test (Z.to_nat vector_idx); if (keep : bool) then sel_push st idx else Ok st) st L =
    foldM (λ st idx, if from_option T false (row_pos v idx) then sel_push st idx else Ok st) st L) as ->.
  { clear Hs Hr. induction L as [|x L IH]; intros st; [done|]. cbn [foldM].
    destruct (Hv x ltac:(left)) as (p & Hp & _). rewrite Hp. cbn [from_option].
    unfold row_pos in Hp. destruct (get_index (fv_sel v) (Z.to_nat x)) as [z|] eqn:Hz; [|done]. injection Hp as <-.
    cbn [mbind result_bind]. rewrite (Ht x) by (left || by unfold row_pos; rewrite Hz). cbn [mbind result_bind].
    destruct (T (Z.to_nat z)); [destruct (sel_push st x) as [st'|]; [|done]; cbn [mbind result_bind] | cbn [mbind result_bind]];
      (apply IH; [intros idx Hidx; apply Hv; by right | intros idx p Hidx; apply Ht; by right]). }
  rewrite (foldM_cond_push _ (λ x, x)). set (R := filter _ L).
  replace ((λ x, x) <$> R) with R by (symmetry; apply list_fmap_id).
  destruct (push_fresh n R) as (s & -> & HsR).
  - unfold R, rows_ok. apply Forall_forall. intros x [_ Hx]%list_elem_of_filter. by eapply Forall_forall in Hr.
  - rewrite <- (selection_length _ _ _ Hs). apply length_filter.
  - exists s, (length R). done.
Qed.

(** ** Disjunctions *)

(** The accumulated result of a disjunction: distinct rows of [L] in a buffer
    of [length L] entries. *)
Record accumulated (L : list Z) (st : SelectionVector * nat) (R : list Z) : Prop := {
  acc_cap : sel_cap st.1 (length L);
  acc_sel : selection st.1 st.2 R;
  acc_nodup : NoDup R;
  acc_sub : R ⊆ L;
}.

Lemma acc_room L st R x : accumulated L st R → x ∈ L → x ∉ R → (st.2 < length L)%nat.
Proof.
  intros [_ Hs Hn Hsub] Hx HR. rewrite <- (selection_length _ _ _ Hs).
  assert (length (x :: R) ≤ length L)%nat as H; [|cbn in H; lia].
  apply submseteq_length, NoDup_submseteq; [by constructor|]. intros y [->|Hy]%elem_of_cons; auto.
Qed.

Lemma find_result_ok s x k R : selection s k R → find_result s x (seq 0 k) = Ok (bool_decide (x ∈ R)).
Proof.
  intros Hs. pose proof (selection_length _ _ _ Hs) as Hk. destruct Hs as [Hr HR].
  assert (∀ j R', (j + length R' = k)%nat → (∀ i, R' !! i = R !! (j + i)%nat) →
    find_result s x (seq j (length R')) = Ok (bool_decide (x ∈ R'))) as H.
  { intros j R'. revert j. induction R' as [|y R' IH]; intros j Hlen Hl; [done|].
    cbn [length seq find_result] in *. destruct (get_index_sel_list s k j Hr ltac:(lia)) as (z & -> & Hz).
    specialize (Hl O) as H0. rewrite Nat.add_0_r, <- HR, Hz in H0. injection H0 as <-. cbn [mbind result_bind].
    destruct (Z.eqb_spec y x) as [->|Hne]; [by rewrite bool_decide_true by left|].
    rewrite IH; [|lia | intros i; specialize (Hl (S i)); cbn in Hl; by replace (S j + i)%nat with (j + S i)%nat by lia].
    f_equal. apply bool_decide_ext. rewrite elem_of_cons. split; [tauto|]. by intros [->|?]. }
  rewrite <- Hk. apply (H O R); [lia | done].
Qed.

Lemma merge_passed_ok L temp tn T st R :
  rows_ok L → accumulated L st R → selection temp tn T → T ⊆ L →
  ∃ st' R', merge_passed temp tn st = Ok st' ∧ accumulated L st' R' ∧ ∀ x, x ∈ R' ↔ x ∈ R ∨ x ∈ T.
Proof.
  intros Hrows Hacc Ht HT. unfold merge_passed.
  rewrite (foldM_selection (λ st new_idx, found ← find_result st.1 new_idx (seq 0 st.2);
    if (found : bool) then Ok st else sel_push st new_idx) _ _ _ _ Ht).
  clear Ht. revert st R Hacc. induction T as [|x T IH]; intros st R Hacc.
  { exists st, R. split_and!; [done | done |]. intros x. rewrite elem_of_nil. tauto. }
  cbn [foldM]. rewrite (find_result_ok _ _ _ R) by apply Hacc. cbn [mbind result_bind].
  assert (x ∈ L ∧ T ⊆ L) as [Hx HT'] by (split; [|intros y Hy]; apply HT; [left | by right]).
  case_bool_decide as HR.
  - cbn [mbind result_bind]. destruct (IH HT' st R Hacc) as (st' & R' & H1 & H2 & H3).
    exists st', R'. split_and!; [done | done |]. intros y. rewrite H3, elem_of_cons. split; [tauto|]. intros [?|[-> |?]]; auto.
  - pose proof (acc_room _ _ _ _ Hacc Hx HR) as Hroom. destruct st as [s k], Hacc as [Hcap [Hrd HsR] Hnd Hsub]. cbn [fst snd] in *.
    destruct (sel_push_spec s k (length L) x Hcap Hroom) as (s' & Hs' & Hcap' & Hl'). rewrite Hs'. cbn [mbind result_bind].
    assert (wrapu 32 x = x) as Hw by (apply wrapu_small; by eapply Forall_forall in Hrows).
    destruct (IH HT' (s', S k) (R ++ [x])) as (st' & R' & H1 & H2 & H3).
    + split; cbn [fst snd]; [done | | |].
      * split; [|by rewrite Hl', HsR, Hw]. destruct Hcap' as (buf & Hb & Hbl). unfold sel_readable. rewrite Hb. lia.
      * apply NoDup_app. split_and!; [done | by intros y Hy ->%list_elem_of_singleton | apply NoDup_singleton].
      * intros y [Hy| ->%list_elem_of_singleton]%elem_of_app; auto.
    + exists st', R'. split_and!; [done | done |]. intros y. rewrite H3, elem_of_app, list_elem_of_singleton, elem_of_cons. tauto.
Qed.

(** * [FilterSelection] *)

(** Without a disjunction the order of the rows is kept. *)
Fixpoint or_free (f : TableFilter) : bool :=
  match f with
  | ConjunctionOrFilter _ => false
  | ConjunctionAndFilter fs => forallb or_free fs
  | StructFilter _ _ g => or_free g
  | _ => true
  end.

(** What evaluating a filter on the rows [L] promises. *)
Definition filters (passes : Z → bool) (ordered : bool) (L : list Z) (e : result (SelectionVector * nat)) : Prop :=
  ∃ sel n R, e = Ok (sel, n) ∧ selection sel n R ∧ NoDup R ∧ (∀ x, x ∈ R ↔ x ∈ L ∧ passes x = true) ∧
    (ordered = true → R = filter (λ x, passes x) L).

Lemma filters_intro (passes : Z → bool) ordered L sel n :
  NoDup L → selection sel n (filter (λ x, passes x) L) → filters passes ordered L (Ok (sel, n)).
Proof.
  intros HL Hs. exists sel, n, (filter (λ x, passes x) L). split_and!; [done | done | by apply NoDup_filter | | done].
  intros x. rewrite list_elem_of_filter, Is_true_true. tauto.
Qed.

Lemma select_filters v test T (passes : Z → bool) ordered sel n L :
  selection sel n L → rows_ok L → NoDup L → vector_rows v L →
  (∀ idx p, idx ∈ L → row_pos v idx = Some p → test p = Ok (T p) ∧ passes idx = T p) →
  filters passes ordered L (select_loop v test sel n).
Proof.
  intros Hs Hr Hn Hv Ht.
  destruct (select_loop_ok v test T sel n L Hs Hr Hv) as (s & k & -> & Hk); [intros idx p Hi Hp; apply (Ht idx p Hi Hp)|].
  apply filters_intro; [done|].
  rewrite (filter_ext_in (λ x, passes x) (λ idx, from_option T false (row_pos v idx))); [done|].
  intros x Hx. destruct (Hv x Hx) as (p & Hp & _). destruct (Ht x p Hx Hp) as [_ ->]. by rewrite Hp.
Qed.

Lemma mask_valid v p : (∀ bits, fv_mask v = Some bits → (p < length bits)%nat) → mask_RowIsValid (fv_mask v) p = Ok (row_valid v p).
Proof.
  unfold mask_RowIsValid, row_valid. destruct (fv_mask v) as [bits|]; [|done]. intros H.
  destruct (lookup_lt_is_Some_2 bits p (H bits eq_refl)) as [b Hb]. by rewrite (vget_lookup _ _ _ Hb), Hb.
Qed.

(** One comparison loop. *)
Lemma switch_filters {T} v (data : list T) (op : T → bool) passes sel n L :
  selection sel n L → rows_ok L → NoDup L → vector_rows v L →
  (∀ idx p, idx ∈ L → row_pos v idx = Some p → (p < length data)%nat) →
  (∀ idx p, idx ∈ L → row_pos v idx = Some p → passes idx = row_valid v p && from_option op false (data !! p)) →
  filters passes true L (FilterSelectionSwitch v data (Some op) sel n).
Proof.
  intros Hs Hr Hn Hv Hd Hp. cbn [FilterSelectionSwitch]. unfold TemplatedFilterSelection.
  eapply (select_filters v _ (λ p, row_valid v p && from_option op false (data !! p))); [done | done | done | done|].
  intros idx p Hi Hpos. split; [|by apply Hp].
  destruct (Hv idx Hi) as (p' & Hp' & _ & _ & Hm). rewrite Hpos in Hp'. injection Hp' as <-.
  destruct (lookup_lt_is_Some_2 data p (Hd idx p Hi Hpos)) as [x Hx].
  assert ((if bool_decide (is_Some (fv_mask v)) then mask_RowIsValid (fv_mask v) p else Ok true) = Ok (row_valid v p)) as ->.
  { case_bool_decide as Hs'; [by apply mask_valid|]. unfold row_valid. destruct (fv_mask v); [|done]. by destruct Hs'. }
  cbn [mbind result_bind]. rewrite (vget_lookup _ _ _ Hx), Hx. by destruct (row_valid v p).
Qed.

Lemma constant_filters cmp c v sel n L :
  selection sel n L → rows_ok L → NoDup L → filter_fits (ConstantFilter cmp c) v L →
  filters (row_passes (ConstantFilter cmp c) v) true L (ConstantFilter_Selection cmp c v sel n).
Proof.
  intros Hs Hr Hn [Hv [test Ht]]. unfold ConstantFilter_Selection. cbn [row_passes]. rewrite Ht. unfold constant_test in Ht.
  destruct (fv_data v) as [data|data|] eqn:Hd; [| |done].
  - destruct (is_numeric (InternalType (fv_type v))) eqn:Hnum; [|done].
    destruct (GetValueUnsafe (InternalType (fv_type v)) c) as [x|] eqn:Hx; [|done].
    destruct (number_operation cmp (InternalType (fv_type v)) x) as [op|] eqn:Hop; [|done]. injection Ht as <-.
    assert (filters (λ idx, match row_pos v idx with Some p => row_valid v p && from_option op false (data !! p) | None => false end)
              true L (FilterSelectionSwitch v data (Some op) sel n)) as H.
    { apply switch_filters; [done | done | done | done | |].
      - intros idx p Hi Hp. destruct (Hv idx Hi) as (p' & Hp' & Hlt & _). rewrite Hp in Hp'. injection Hp' as <-. by apply Hlt.
      - intros idx p Hi Hp. by rewrite Hp. }
    destruct (InternalType (fv_type v)); try (exfalso; by vm_compute in Hnum); rewrite Hx; cbn [mbind result_bind]; by rewrite Hop.
  - case_bool_decide as Hty; [|done]. rewrite Hty.
    destruct (StringValue_Get c) as [x|] eqn:Hx; [|done].
    destruct (string_operation cmp x) as [op|] eqn:Hop; [|done]. injection Ht as <-.
    cbn [mbind result_bind]. rewrite Hop. apply switch_filters; [done | done | done | done | |].
    + intros idx p Hi Hp. destruct (Hv idx Hi) as (p' & Hp' & _ & Hlt & _). rewrite Hp in Hp'. injection Hp' as <-. by apply Hlt.
    + intros idx p Hi Hp. by rewrite Hp.
Qed.

Lemma null_filters (is_null : bool) v sel n L :
  selection sel n L → rows_ok L → NoDup L → vector_rows v L →
  filters (row_passes (if is_null then IsNullFilter else IsNotNullFilter) v) true L (TemplatedNullSelection is_null v sel n).
Proof.
  intros Hs Hr Hn Hv. unfold TemplatedNullSelection. destruct (fv_mask v) as [bits|] eqn:Hm.
  - rewrite <- Hm. apply (select_filters v _ (λ p, negb (Bool.eqb (row_valid v p) is_null))); [done | done | done | done|].
    intros idx p Hi Hp. destruct (Hv idx Hi) as (p' & Hp' & _ & _ & Hb). rewrite Hp in Hp'. injection Hp' as <-.
    rewrite mask_valid by done. split; [done|]. destruct is_null; cbn [row_passes]; rewrite Hp; by destruct (row_valid v p).
  - assert (∀ idx p, idx ∈ L → row_pos v idx = Some p → row_valid v p = true) as Hval by (intros; unfold row_valid; by rewrite Hm).
    destruct is_null; apply filters_intro; try done.
    + rewrite filter_none; [split; [by unfold sel_readable; destruct (sel_vector sel); [lia|] | apply sel_list_0]|].
      intros x Hx. destruct (Hv x Hx) as (p & Hp & _). cbn [row_passes]. rewrite Hp, (Hval x p Hx Hp). by intros [].
    + rewrite filter_all; [done|]. intros x Hx. destruct (Hv x Hx) as (p & Hp & _). cbn [row_passes]. by rewrite Hp, (Hval x p Hx Hp).
Qed.

(** A conjunction filters what the previous filters left. *)
Lemma filters_and (P Q : Z → bool) (o o' : bool) (L R : list Z) e :
  NoDup L → (∀ x, x ∈ R ↔ x ∈ L ∧ P x = true) → (o = true → R = filter (λ x, P x) L) → filters Q o' R e →
  filters (λ x, P x && Q x) (o && o') L e.
Proof.
  intros HL HR Ho (sel & n & R' & -> & Hs & Hn & HR' & Ho'). exists sel, n, R'. split_and!; [done | done | done | |].
  - intros x. rewrite HR', HR, andb_true_iff. tauto.
  - intros [-> ->]%andb_true_iff. rewrite (Ho' eq_refl), (Ho eq_refl), list_filter_filter.
    apply filter_ext_in. intros x _. rewrite !Is_true_true, andb_true_iff. tauto.
Qed.

(** The main lemma, by induction on the filter. *)
Lemma FilterSelection_filters f v sel n L :
  selection sel n L → rows_ok L → NoDup L → filter_fits f v L →
  filters (row_passes f v) (or_free f) L (FilterSelection f v sel n).
Proof.
  revert v sel n L. induction f as [cmp c| | |fs IH|fs IH|i nm g IH] using TableFilter_ind'; intros v sel n L Hs Hr Hn Hf.
  - by apply constant_filters.
  - by apply (null_filters true).
  - by apply (null_filters false).
  - cbn [filter_fits] in Hf. rewrite fits_children in Hf. cbn [FilterSelection or_free].
    assert (∀ fs st R, Forall (λ g, ∀ v sel n L, selection sel n L → rows_ok L → NoDup L → filter_fits g v L →
        filters (row_passes g v) (or_free g) L (FilterSelection g v sel n)) fs → Forall (λ g, filter_fits g v L) fs →
      accumulated L st R → ∃ st' R', ((fix any fs st := match fs with
            | [] => Ok st
            | g :: fs' => '(temp_sel, temp_count) ← FilterSelection g v sel n; st' ← merge_passed temp_sel temp_count st; any fs' st'
            end) fs st) = Ok st' ∧ accumulated L st' R' ∧
        ∀ x, x ∈ R' ↔ x ∈ R ∨ (x ∈ L ∧ existsb (λ g, row_passes g v x) fs = true)) as Hany.
    { clear fs IH Hf. induction fs as [|g fs IHfs]; intros st R IH Hf Hacc.
      { exists st, R. split_and!; [done | done |]. intros x. cbn [existsb]. split; [auto|]. by intros [?|[_ ?]]. }
      apply Forall_cons in IH as [IHg IH], Hf as [Hg Hf].
      destruct (IHg v sel n L Hs Hr Hn Hg) as (ts & tn & T & Ht & HtT & _ & HT & _).
      destruct (merge_passed_ok L ts tn T st R Hr Hacc HtT) as (st1 & R1 & H1 & Hacc1 & HR1); [intros x Hx; by apply HT|].
      destruct (IHfs st1 R1 IH Hf Hacc1) as (st' & R' & H' & Hacc' & HR').
      exists st', R'. rewrite Ht. cbn [mbind result_bind]. rewrite H1. cbn [mbind result_bind].
      split_and!; [done | done |]. intros x. rewrite HR', HR1, HT. cbn [existsb]. rewrite orb_true_iff. tauto. }
    destruct (Hany fs (SelectionVector_Initialize n, O) [] IH Hf) as ([s k] & R & Ha & [_ Hacc Hnd _] & HR).
    { split; cbn [fst snd].
      - rewrite (selection_length _ _ _ Hs). apply sel_cap_Initialize.
      - split; [cbn; lia | apply sel_list_0].
      - constructor.
      - by intros x Hx%elem_of_nil. }
    exists s, k, R. split_and!; [exact Ha | done | done | | done]. intros x. rewrite HR, elem_of_nil. cbn [row_passes]. tauto.
  - cbn [filter_fits] in Hf. rewrite fits_children in Hf. cbn [FilterSelection or_free].
    assert (∀ st R (o : bool) (P : Z → bool), selection st.1 st.2 R → NoDup R →
      (∀ x, x ∈ R ↔ x ∈ L ∧ P x = true) → (o = true → R = filter (λ x, P x) L) →
      filters (λ x, P x && forallb (λ g, row_passes g v x) fs) (o && forallb or_free fs) L
        ((fix all fs st := match fs with [] => Ok st | g :: fs' => st' ← FilterSelection g v st.1 st.2; all fs' st' end) fs st)) as Hall.
    { induction fs as [|g fs IHfs]; intros [s k] R o P HsR HnR HR Ho; cbn [fst snd forallb] in *.
      { exists s, k, R. split_and!; [done | done | done | |].
        - intros x. rewrite andb_true_r. apply HR.
        - rewrite andb_true_r. intros ->. rewrite (Ho eq_refl). apply filter_ext_in. intros. by rewrite andb_true_r. }
      apply Forall_cons in IH as [IHg IH], Hf as [Hg Hf].
      assert (R ⊆ L) as Hsub by (intros x Hx; by apply HR).
      assert (filters (row_passes g v) (or_free g) R (FilterSelection g v s k)) as Hgr.
      { apply IHg; [done | | done | by eapply fits_subset]. unfold rows_ok in *. rewrite Forall_forall in *. auto. }
      pose proof (filters_and P _ o _ L R _ Hn HR Ho Hgr) as (s1 & k1 & R1 & He & Hs1 & Hn1 & HR1 & Ho1).
      rewrite He. cbn [mbind result_bind].
      destruct (IHfs IH Hf (s1, k1) R1 (o && or_free g) (λ x, P x && row_passes g v x)) as (s2 & k2 & R2 & He2 & Hs2 & Hn2 & HR2 & Ho2);
        [done | done | done | done |].
      exists s2, k2, R2. split_and!; [done | done | done | |].
      - intros x. rewrite HR2, andb_assoc. done.
      - rewrite andb_assoc. intros Ho'. rewrite (Ho2 Ho'). apply filter_ext_in. intros x _. by rewrite andb_assoc. }
    apply (Hall (sel, n) L true (λ _, true)); [done | done | intros x; tauto | intros _; symmetry; by apply filter_all].
  - destruct Hf as (e & He & Hf). cbn [FilterSelection row_passes or_free].
    rewrite (vget_lookup _ _ _ He), He. cbn [mbind result_bind from_option]. by apply IH.
Qed.
