(* ===== verification/FilterPruning.v ===== *)
(** The checks of filters against statistics are sound for every value the
    statistics cover, and evaluating a filter on a vector agrees with evaluating
    it on the values of its rows. *)
From S2P Require Import Prelude SelectionVector ColumnSketch Types Stats NumericStats NumericFacts StringStats BaseStatistics StatsFacts StatsCreate TableFilter FilterFacts.

(** * Filters on values *)

(** Does a value pass the filter?  A comparison with NULL does not hold. *)
Fixpoint value_passes (f : TableFilter) (v : Value) {struct f} : bool :=
  match f with
  | ConstantFilter cmp c =>
      match v with
      | V_num t u =>
          match GetValueUnsafe (InternalType t) v, GetValueUnsafe (InternalType t) c with
          | Ok x, Ok y => default false (comparison cmp (InternalType t) x y)
          | _, _ => false
          end
      | V_string _ b => match StringValue_Get c with Ok y => default false (string_comparison cmp b y) | Throw _ => false end
      | _ => false
      end
  | IsNullFilter => Value_IsNull v
  | IsNotNullFilter => negb (Value_IsNull v)
  | ConjunctionOrFilter fs => existsb (λ g, value_passes g v) fs
  | ConjunctionAndFilter fs => forallb (λ g, value_passes g v) fs
  | StructFilter i _ g =>
      match v with V_nested _ vs => from_option (value_passes g) false (vs !! i) | _ => false end
  end.

(** The filter belongs to a column of type [t]: constants are non-NULL and of
    the physical type of the column, the comparison is one of the six, struct
    fields exist. *)
Fixpoint filter_typed (f : TableFilter) (t : LogicalType) {struct f} : Prop :=
  match f with
  | ConstantFilter cmp c =>
      InternalType (value_type c) = InternalType t ∧
      ((GetStatsType t = NUMERIC_STATS ∧ (∃ tc x, c = V_num tc (InternalType t, x)) ∧
        ∀ x y, is_Some (comparison cmp (InternalType t) x y)) ∨
       (GetStatsType t = STRING_STATS ∧ (∃ tc b, c = V_string tc b ∧ bytes_ok b) ∧ ∀ x y, is_Some (string_comparison cmp x y)))
  | IsNullFilter | IsNotNullFilter => True
  | ConjunctionOrFilter fs | ConjunctionAndFilter fs =>
      (fix go fs := match fs with [] => True | g :: r => filter_typed g t ∧ go r end) fs
  | StructFilter i _ g =>
      ∃ ts ti, GetStatsType t = STRUCT_STATS ∧ struct_child_types t = Ok ts ∧ ts !! i = Some ti ∧ filter_typed g ti
  end.

(** The structs on the path of the filter are not NULL. *)
Fixpoint reaches (f : TableFilter) (v : Value) {struct f} : Prop :=
  match f with
  | ConjunctionOrFilter fs | ConjunctionAndFilter fs =>
      (fix go fs := match fs with [] => True | g :: r => reaches g v ∧ go r end) fs
  | StructFilter i _ g => ∃ t vs w, v = V_nested t vs ∧ vs !! i = Some w ∧ reaches g w
  | _ => True
  end.

(** The compared values are not NULL. *)
Fixpoint compares_valid (f : TableFilter) (v : Value) {struct f} : Prop :=
  match f with
  | ConstantFilter _ _ => Value_IsNull v = false
  | ConjunctionOrFilter fs | ConjunctionAndFilter fs =>
      (fix go fs := match fs with [] => True | g :: r => compares_valid g v ∧ go r end) fs
  | StructFilter i _ g => ∃ t vs w, v = V_nested t vs ∧ vs !! i = Some w ∧ compares_valid g w
  | _ => True
  end.

(** What a check promises about a value: it answers with one of the three
    basic results, false answers hold for every value, true answers for values
    that are not NULL where they are compared. *)
Definition check_ok (r : FilterPropagateResult) (passes : bool) (valid : Prop) : Prop :=
  (r = NO_PRUNING_POSSIBLE ∨ r = FILTER_ALWAYS_TRUE ∨ r = FILTER_ALWAYS_FALSE) ∧
  (r = FILTER_ALWAYS_FALSE → passes = false) ∧ (r = FILTER_ALWAYS_TRUE → valid → passes = true).

Lemma check_ok_prune r passes (valid : Prop) :
  (r = NO_PRUNING_POSSIBLE ∨ r = FILTER_ALWAYS_TRUE ∨ r = FILTER_ALWAYS_FALSE) → prune_ok r passes → check_ok r passes valid.
Proof. intros Hr Hp. split; [done|]. by split; intros ->. Qed.

Lemma numeric_basic s cmp c r :
  NumericStats_CheckZonemap s cmp c = Ok r → r = NO_PRUNING_POSSIBLE ∨ r = FILTER_ALWAYS_TRUE ∨ r = FILTER_ALWAYS_FALSE.
Proof.
  unfold NumericStats_CheckZonemap. destruct (Value_IsNull c); [intros [= <-]; auto|].
  intros (h & _ & H)%bind_Ok_inv. destruct h; cbn [negb] in H; [|injection H as <-; auto].
  assert (∀ pt, CheckZonemapTemplated pt s cmp c = Ok r → r = NO_PRUNING_POSSIBLE ∨ r = FILTER_ALWAYS_TRUE ∨ r = FILTER_ALWAYS_FALSE) as Ht.
  { intros pt. unfold CheckZonemapTemplated. intros (a & _ & H')%bind_Ok_inv. apply bind_Ok_inv in H' as (b & _ & H').
    apply bind_Ok_inv in H' as (x & _ & H'). repeat case_match; try done; injection H' as <-; auto. }
  destruct (InternalType (stats_type s)); try done; eauto.
Qed.

Lemma string_basic s cmp c r :
  StringStats_CheckZonemap s cmp c = Ok r → r = NO_PRUNING_POSSIBLE ∨ r = FILTER_ALWAYS_TRUE ∨ r = FILTER_ALWAYS_FALSE.
Proof.
  unfold StringStats_CheckZonemap. intros H. repeat (apply bind_Ok_inv in H as (? & _ & H)). repeat case_match; try done; injection H as <-; auto.
Qed.

(** The checks return for every typed constant. *)
Lemma numeric_zonemap_total s pt lo hi cmp tc y :
  numeric_view s pt lo hi → zonemap_type pt = true → (∀ a b, is_Some (comparison cmp pt a b)) →
  ∃ r, NumericStats_CheckZonemap s cmp (V_num tc (pt, y)) = Ok r.
Proof.
  intros V Hz Hc. destruct lo as [l|], hi as [h|].
  1: { unfold NumericStats_CheckZonemap, HasMinMax. cbn [Value_IsNull].
       rewrite (HasMin_view _ _ _ _ V), (HasMax_view _ _ _ _ V). cbn [mbind result_bind]. rewrite !bool_decide_true by done.
       cbn [negb mbind result_bind]. rewrite (nv_pt _ _ _ _ V). destruct (nv_data _ _ _ _ V) as (mn & mx & Hu & Hmn & Hmx).
       assert (∃ r, CheckZonemapTemplated pt s cmp (V_num tc (pt, y)) = Ok r) as [r Hr].
       { unfold CheckZonemapTemplated, GetMinUnsafe, GetMaxUnsafe, num_data. rewrite Hu, (Hmn l eq_refl), (Hmx h eq_refl).
         cbn [mbind result_bind num_min num_max union_ref GetValueUnsafe]. unfold union_get. cbn [fst snd].
         rewrite bool_decide_true by done. cbn [mbind result_bind]. destruct (Hc 0 0) as [b Hb].
         destruct cmp; try done; repeat case_match; eauto. }
       exists r. destruct pt; done || (exfalso; by vm_compute in Hz). }
  all: eexists; unfold NumericStats_CheckZonemap, HasMinMax; cbn [Value_IsNull];
       rewrite (HasMin_view _ _ _ _ V), ?(HasMax_view _ _ _ _ V), ?no_end; reflexivity.
Qed.

Lemma string_zonemap_total s d cmp c :
  stats_union s = D_string d → str_wf d → bytes_ok c → (∀ a b, is_Some (string_comparison cmp a b)) →
  ∃ r, StringStats_CheckZonemap s cmp c = Ok r.
Proof.
  intros Hu Wd Hc Hcmp. unfold StringStats_CheckZonemap, str_data. rewrite Hu. cbn [mbind result_bind].
  destruct (prefix_comparison c (str_min d) Hc (sw_min _ Wd)) as (a & Ha & _).
  destruct (prefix_comparison c (str_max d) Hc (sw_max _ Wd)) as (b & Hb & _).
  unfold MAX_STRING_MINMAX_SIZE. rewrite Ha. cbn [mbind result_bind]. rewrite Hb. cbn [mbind result_bind].
  destruct (Hcmp [] []) as [q Hq]. destruct cmp; try done; repeat case_match; eauto.
Qed.

(** A constant comparison. *)
Lemma constant_check s cmp c v :
  stats_wf s → filter_typed (ConstantFilter cmp c) (stats_type s) → value_ok v → value_type v = stats_type s → covers s v →
  ∃ r, ConstantFilter_CheckStatistics cmp c s = Ok r ∧
       check_ok r (value_passes (ConstantFilter cmp c) v) (Value_IsNull v = false).
Proof.
  intros W [Hty Hc] Hv Tv Hcov. apply stats_wf_eq in W as [[_ Hd] _]. unfold node_data in Hd.
  unfold ConstantFilter_CheckStatistics. rewrite Hty.
  destruct Hc as [(Hk & (tc & x & ->) & Hcmp)|(Hk & (tc & b & -> & Hb) & Hcmp)]; rewrite Hk in Hd.
  - destruct Hd as (lo & hi & V). destruct (numeric_type _ Hk) as [_ Hn].
    destruct (decide (InternalType (stats_type s) = BOOL)) as [Hbool|Hbool].
    { rewrite Hbool. eexists. split; [done|]. split; [auto|]. by split. }
    assert (zonemap_type (InternalType (stats_type s)) = true) as Hz
      by (unfold zonemap_type; rewrite Hn, bool_decide_false by done; done).
    destruct (numeric_zonemap_total s _ lo hi cmp tc x V Hz Hcmp) as [r Hr]. exists r. split.
    { revert Hr Hz. generalize (V_num tc (InternalType (stats_type s), x)). intros c Hr Hz.
      destruct (InternalType (stats_type s)); done || (exfalso; by vm_compute in Hz). }
    destruct v as [tv|tv [p y]|tv b|tv vs]; cbn [value_type] in Tv; subst tv.
    + split; [by eapply numeric_basic|]. by split.
    + destruct Hv as (_ & _ & Hp). cbn [fst] in Hp. subst p. apply check_ok_prune; [by eapply numeric_basic|].
      destruct (Hcmp y x) as [q Hq].
      destruct (CheckZonemap_view s _ lo hi cmp tc x y q V Hz) as (r' & Hr' & Hok); [by eapply covers_interval | done|].
      rewrite Hr in Hr'. injection Hr' as <-. cbn [value_passes GetValueUnsafe]. unfold union_get. cbn [fst snd].
      rewrite !bool_decide_true by done. by rewrite Hq.
    + destruct Hv as (_ & Hs & _). congruence.
    + destruct Hv as (_ & Hs & _). by rewrite Hk in Hs.
  - destruct Hd as (d & Hu & Wd).
    assert (InternalType (stats_type s) = PT_VARCHAR) as Hvc.
    { unfold GetStatsType in Hk. case_bool_decide; [done|]. by destruct (InternalType (stats_type s)). }
    rewrite Hvc. cbn [StringValue_Get mbind result_bind].
    destruct (string_zonemap_total s d cmp b Hu Wd Hb Hcmp) as [r Hr]. exists r. split; [done|].
    destruct v as [tv|tv u|tv a|tv vs]; cbn [value_type] in Tv; subst tv.
    + split; [by eapply string_basic|]. by split.
    + destruct Hv as (_ & Hs & _). congruence.
    + destruct Hv as (_ & _ & Ha & _). apply check_ok_prune; [by eapply string_basic|]. destruct (Hcmp a b) as [q Hq].
      destruct (string_zonemap_sound s d cmp b a q Hu Wd Ha Hb) as (r' & Hr' & Hok); [|done|].
      { destruct s as [ts n nn dc u cs]. cbn [covers stats_type stats_union] in *. by apply Hcov. }
      rewrite Hr in Hr'. injection Hr' as <-. cbn [value_passes StringValue_Get]. by rewrite Hq.
    + destruct Hv as (_ & Hs & _). by rewrite Hk in Hs.
Qed.

(** ** Conjunctions *)

Lemma typed_children t fs :
  (fix go fs := match fs with [] => True | g :: r => filter_typed g t ∧ go r end) fs ↔ Forall (λ g, filter_typed g t) fs.
Proof. induction fs as [|g fs IH]; [done|]. rewrite Forall_cons. by rewrite IH. Qed.
Lemma reaches_children v fs :
  (fix go fs := match fs with [] => True | g :: r => reaches g v ∧ go r end) fs ↔ Forall (λ g, reaches g v) fs.
Proof. induction fs as [|g fs IH]; [done|]. rewrite Forall_cons. by rewrite IH. Qed.
Lemma valid_children v fs :
  (fix go fs := match fs with [] => True | g :: r => compares_valid g v ∧ go r end) fs ↔ Forall (λ g, compares_valid g v) fs.
Proof. induction fs as [|g fs IH]; [done|]. rewrite Forall_cons. by rewrite IH. Qed.

(** The child of covered struct statistics covers the field. *)
Lemma struct_child s i ts ti t vs w :
  stats_wf s → GetStatsType (stats_type s) = STRUCT_STATS → struct_child_types (stats_type s) = Ok ts → ts !! i = Some ti →
  covers s (V_nested t vs) → vs !! i = Some w →
  ∃ c, StructStats_GetChildStats s i = Ok c ∧ stats_wf c ∧ stats_type c = ti ∧ covers c w.
Proof.
  intros W Hk Hts Hi Hcov Hw. pose proof W as W0. apply stats_wf_eq in W0 as [[Hs _] Hc]. unfold node_shape in Hs.
  rewrite Hk, Hts in Hs. injection Hs as ->. rewrite list_lookup_fmap in Hi.
  destruct (child_stats s !! i) as [c|] eqn:Hci; [|done]. injection Hi as <-. exists c. split_and!.
  - unfold StructStats_GetChildStats, StructType_GetChildCount. rewrite Hts. cbn [mbind result_bind]. rewrite length_fmap.
    apply lookup_lt_Some in Hci as Hlt. destruct (Nat.leb_spec (length (child_stats s)) i); [lia|]. by apply vget_lookup.
  - by eapply Forall_lookup_1 in Hc.
  - done.
  - destruct s as [ts' n nn d u cs]. cbn [stats_type child_stats covers] in *. destruct Hcov as [_ Hcov]. rewrite Hk in Hcov.
    clear -Hcov Hci Hw. revert i vs Hci Hw Hcov. induction cs as [|x cs IH]; intros [|i] [|y vs] Hci Hw Hcov; try done.
    + cbn in Hci, Hw. injection Hci as ->. injection Hw as ->. apply Hcov.
    + cbn in Hci, Hw. destruct Hcov as [_ Hcov]. by eapply IH.
Qed.

Lemma field_value_ok t vs i w ts ti :
  value_ok (V_nested t vs) → GetStatsType t = STRUCT_STATS → struct_child_types t = Ok ts → ts !! i = Some ti → vs !! i = Some w →
  value_ok w ∧ value_type w = ti.
Proof.
  intros (_ & Hty & Hvs%value_ok_children) Hk Hts Hi Hw. rewrite Hk, Hts in Hty. injection Hty as ->.
  rewrite list_lookup_fmap, Hw in Hi. injection Hi as <-. split; [by eapply Forall_lookup_1 in Hvs | done].
Qed.

Lemma check_ok_valid r passes (V V' : Prop) : check_ok r passes V → (V' → V) → check_ok r passes V'.
Proof. intros (Hb & Hf & Ht) HV. split; [done|]. auto. Qed.

Lemma covers_null s v :
  covers s v → (if Value_IsNull v then has_null s = true else has_no_null s = true).
Proof. destruct s as [t n nn d u c]. destruct v; cbn; tauto. Qed.

(** The soundness of [CheckStatistics], by induction on the filter. *)
Lemma CheckStatistics_ok f s v :
  stats_wf s → filter_typed f (stats_type s) → value_ok v → value_type v = stats_type s → covers s v → reaches f v →
  ∃ r, CheckStatistics f s = Ok r ∧ check_ok r (value_passes f v) (compares_valid f v).
Proof.
  revert s v. induction f as [cmp c| | |fs IH|fs IH|i nm g IH] using TableFilter_ind'; intros s v W Ht Hv Tv Hcov Hre.
  - by apply constant_check.
  - cbn [CheckStatistics value_passes compares_valid]. eexists. split; [done|]. unfold IsNullFilter_CheckStatistics, CanHaveNull, CanHaveNoNull.
    pose proof (covers_null s v Hcov) as Hn. unfold check_ok.
    destruct (Value_IsNull v), (has_null s), (has_no_null s); cbn; try done; split_and!; auto; done.
  - cbn [CheckStatistics value_passes compares_valid]. eexists. split; [done|]. unfold IsNotNullFilter_CheckStatistics, CanHaveNull, CanHaveNoNull.
    pose proof (covers_null s v Hcov) as Hn. unfold check_ok.
    destruct (Value_IsNull v), (has_null s), (has_no_null s); cbn; try done; split_and!; auto; done.
  - cbn [filter_typed reaches value_passes compares_valid] in *. rewrite typed_children in Ht. rewrite reaches_children in Hre.
    cbn [CheckStatistics]. enough (∃ r, CheckStatistics (ConjunctionOrFilter fs) s = Ok r ∧
      check_ok r (existsb (λ g, value_passes g v) fs) (Forall (λ g, compares_valid g v) fs)) as (r & Hr & Hok)
      by (exists r; split; [done|]; eapply check_ok_valid; [exact Hok | apply valid_children]).
    cbn [CheckStatistics]. induction fs as [|g fs IHfs].
    { eexists. split; [done|]. split; [auto|]. by split. }
    apply Forall_cons in IH as [IHg IH], Ht as [Htg Ht], Hre as [Hrg Hre].
    destruct (IHg s v W Htg Hv Tv Hcov Hrg) as (r & Hr0 & Hb & Hf & Htr).
      cbn [ConjunctionOrFilter_CheckStatistics ConjunctionAndFilter_CheckStatistics]. rewrite Hr0. cbn [mbind result_bind].
    destruct (IHfs IH Ht Hre) as (r' & Hr' & Hb' & Hf' & Htr').
    destruct Hb as [-> |[-> | ->]].
    + eexists. split; [done|]. split; [auto|]. by split.
    + eexists. split; [done|]. split; [auto|]. split; [done|]. intros _ [Hvg _]%Forall_cons. cbn [existsb]. by rewrite (Htr eq_refl Hvg).
    + exists r'. split; [done|]. split; [done|]. cbn [existsb]. rewrite (Hf eq_refl). split; [done|]. intros Hr [_ Hvs]%Forall_cons. auto.
  - cbn [filter_typed reaches value_passes compares_valid] in *. rewrite typed_children in Ht. rewrite reaches_children in Hre.
    cbn [CheckStatistics].
    assert (∀ res : FilterPropagateResult, res = FILTER_ALWAYS_TRUE ∨ res = NO_PRUNING_POSSIBLE →
      ∃ r, ConjunctionAndFilter_CheckStatistics (λ g, CheckStatistics g s) fs res = Ok r ∧ check_ok r (forallb (λ g, value_passes g v) fs) (Forall (λ g, compares_valid g v) fs) ∧
           (r = FILTER_ALWAYS_TRUE → res = FILTER_ALWAYS_TRUE)) as Hall.
    { induction fs as [|g fs IHfs]; intros res Hres.
      { exists res. split; [done|]. split; [|done]. split; [tauto|]. split; [|done]. by destruct Hres as [-> | ->]. }
      apply Forall_cons in IH as [IHg IH], Ht as [Htg Ht], Hre as [Hrg Hre].
      destruct (IHg s v W Htg Hv Tv Hcov Hrg) as (r & Hr0 & Hb & Hf & Htr).
      cbn [ConjunctionOrFilter_CheckStatistics ConjunctionAndFilter_CheckStatistics]. rewrite Hr0. cbn [mbind result_bind].
      destruct Hb as [-> |[-> | ->]].
      - edestruct (IHfs IH Ht Hre (if bool_decide (NO_PRUNING_POSSIBLE ≠ res) then NO_PRUNING_POSSIBLE else res))
          as (r' & Hr' & (Hb' & Hf' & Htr') & Hres'); [case_bool_decide; auto|].
        exists r'. split; [done|]. assert (r' ≠ FILTER_ALWAYS_TRUE) as Hne.
        { intros E. specialize (Hres' E). case_bool_decide as Hd; [done|]. by destruct Hres as [-> | ->]. }
        split; [|done]. split; [done|]. cbn [forallb]. split; [|done]. intros E. rewrite (Hf' E). apply andb_false_r.
      - edestruct (IHfs IH Ht Hre (if bool_decide (FILTER_ALWAYS_TRUE ≠ res) then NO_PRUNING_POSSIBLE else res))
          as (r' & Hr' & (Hb' & Hf' & Htr') & Hres'); [case_bool_decide; auto|].
        exists r'. split; [done|]. split.
        + split; [done|]. cbn [forallb]. split; [intros E; rewrite (Hf' E); apply andb_false_r|].
          intros E [Hvg Hvs]%Forall_cons. by rewrite (Htr eq_refl Hvg), (Htr' E Hvs).
        + intros E. specialize (Hres' E). by case_bool_decide.
      - eexists. split; [done|]. split; [|done]. split; [auto|]. split; [|done]. intros _. cbn [forallb]. by rewrite (Hf eq_refl). }
    destruct (Hall FILTER_ALWAYS_TRUE ltac:(by left)) as (r & Hr & Hok & _). exists r. split; [done|].
    eapply check_ok_valid; [exact Hok | apply valid_children].
  - destruct Ht as (ts & ti & Hk & Hts & Hi & Ht), Hre as (t & vs & w & -> & Hw & Hre). cbn [value_type] in Tv. subst t.
    destruct (struct_child s i ts ti (stats_type s) vs w W Hk Hts Hi Hcov Hw) as (c & Hc & Wc & Tc & Cc).
    destruct (field_value_ok _ _ _ _ _ _ Hv Hk Hts Hi Hw) as [Hwok Tw].
    cbn [CheckStatistics]. rewrite Hc. cbn [mbind result_bind]. rewrite <- Tc in Ht.
    destruct (IH c w Wc Ht Hwok ltac:(congruence) Cc Hre) as (r & Hr & Hb & Hf & Htr).
    exists r. split; [done|]. cbn [value_passes]. rewrite Hw. cbn [from_option]. split; [done|]. split; [done|].
    intros E (t' & vs' & w' & [= <- <-] & Hw' & Hval). rewrite Hw in Hw'. injection Hw' as <-. auto.
Qed.

(** The value of row [idx] of a vector. *)
Fixpoint fv_row (v : FilterVector) (idx : Z) : Value :=
  let 'mkFV t _ data _ entries := v in
  match row_pos v idx with
  | Some p =>
      if row_valid v p then
        match data with
        | C_num d => V_num t (InternalType t, default 0 (d !! p))
        | C_string d => V_string t (default [] (d !! p))
        | C_other => V_nested t ((λ e, fv_row e idx) <$> entries)
        end
      else V_null t
  | None => V_null t
  end.

Lemma number_operation_eq cmp pt x y : (λ op, op y) <$> number_operation cmp pt x = comparison cmp pt y x.
Proof. by destruct cmp. Qed.
Lemma string_operation_eq cmp x y : (λ op, op y) <$> string_operation cmp x = string_comparison cmp y x.
Proof. by destruct cmp. Qed.

Lemma constant_row cmp c v idx L :
  filter_fits (ConstantFilter cmp c) v L → idx ∈ L →
  row_passes (ConstantFilter cmp c) v idx = value_passes (ConstantFilter cmp c) (fv_row v idx).
Proof.
  intros [Hv [test Ht]] Hi. destruct (Hv idx Hi) as (p & Hp & Hn & Hs & _). cbn [row_passes]. rewrite Hp, Ht.
  destruct v as [t sl data mask entries]. cbn [fv_row]. rewrite Hp.
  destruct (row_valid (mkFV t sl data mask entries) p) eqn:Hval; [|done]. cbn [andb].
  unfold constant_test in Ht. cbn [fv_data fv_type] in *. destruct data as [d|d|]; [| |done].
  - destruct (is_numeric (InternalType t)); [|done]. cbn [value_passes].
    destruct (GetValueUnsafe (InternalType t) c) as [x|]; [|done].
    cbn [GetValueUnsafe]. unfold union_get. cbn [fst snd]. rewrite bool_decide_true by done.
    destruct (number_operation cmp (InternalType t) x) as [op|] eqn:Hop; [|done]. injection Ht as <-.
    destruct (lookup_lt_is_Some_2 d p (Hn d eq_refl)) as [y Hy]. rewrite Hy. cbn [from_option default].
    rewrite <- number_operation_eq, Hop. done.
  - case_bool_decide; [|done]. cbn [value_passes]. destruct (StringValue_Get c) as [x|]; [|done].
    destruct (string_operation cmp x) as [op|] eqn:Hop; [|done]. injection Ht as <-.
    destruct (lookup_lt_is_Some_2 d p (Hs d eq_refl)) as [y Hy]. rewrite Hy. cbn [from_option default].
    rewrite <- string_operation_eq, Hop. done.
Qed.

(** Evaluating a filter on a vector agrees with evaluating it on the row. *)
Lemma row_passes_value f v idx L :
  filter_fits f v L → idx ∈ L → reaches f (fv_row v idx) → row_passes f v idx = value_passes f (fv_row v idx).
Proof.
  revert v. induction f as [cmp c| | |fs IH|fs IH|i nm g IH] using TableFilter_ind'; intros v Hf Hi Hr.
  - by eapply constant_row.
  - destruct (Hf idx Hi) as (p & Hp & _). cbn [row_passes value_passes]. rewrite Hp. destruct v as [t sl data mask entries].
    cbn [fv_row]. rewrite Hp. destruct (row_valid _ p), data; done.
  - destruct (Hf idx Hi) as (p & Hp & _). cbn [row_passes value_passes]. rewrite Hp. destruct v as [t sl data mask entries].
    cbn [fv_row]. rewrite Hp. destruct (row_valid _ p), data; done.
  - cbn [filter_fits reaches row_passes value_passes] in *. rewrite fits_children in Hf. rewrite reaches_children in Hr.
    induction fs as [|g fs IHfs]; [done|]. apply Forall_cons in IH as [IHg IH], Hf as [Hg Hf], Hr as [Hrg Hr].
    cbn [existsb]. by rewrite IHg, IHfs.
  - cbn [filter_fits reaches row_passes value_passes] in *. rewrite fits_children in Hf. rewrite reaches_children in Hr.
    induction fs as [|g fs IHfs]; [done|]. apply Forall_cons in IH as [IHg IH], Hf as [Hg Hf], Hr as [Hrg Hr].
    cbn [forallb]. by rewrite IHg, IHfs.
  - destruct Hf as (e & He & Hf), Hr as (t & vs & w & Hv & Hw & Hr). cbn [row_passes value_passes]. rewrite He, Hv, Hw. cbn [from_option].
    assert (w = fv_row e idx) as ->; [|by apply IH]. destruct v as [t' sl data mask entries]. cbn [fv_row fv_entries] in *.
    repeat case_match; try done. injection Hv as <- <-. rewrite list_lookup_fmap, He in Hw. by injection Hw as <-.
Qed.
