(* ===== verification/SketchConjunction.v ===== *)
(** Conjunctions of comparisons checked against a column sketch: the bitmasks
    of the comparisons are merged into one selection. *)
From S2P Require Import Prelude Bits Types Stats SelectionVector ColumnSketch SketchFacts SketchAvx.
From S2P Require Import SketchProps NumericStats NumericFacts StringStats BaseStatistics StatsProps.
From S2P Require Import TableFilter.

(** * Merging bitmasks *)

Lemma merge_masks_zip a b : length a = length b → merge_masks a b = Ok (zip_with Z.land a b).
Proof.
  revert b. induction a as [|x a IH]; intros [|y b] H; try done. cbn in H |- *. by rewrite IH by lia.
Qed.

Lemma mask_bit_zip a b r : length a = length b → mask_bit (zip_with Z.land a b) r = mask_bit a r && mask_bit b r.
Proof.
  intros Hl. unfold mask_bit. rewrite lookup_zip_with.
  destruct (a !! (r / 64)%nat) as [x|] eqn:Ha.
  - destruct (lookup_lt_is_Some_2 b (r / 64)) as [y Hy]; [apply lookup_lt_Some in Ha; lia|].
    rewrite Hy. cbn. apply bit_at_land.
  - cbn. unfold bit_at. by rewrite Z.bits_0.
Qed.

Lemma mask_rows_zip a b (P Q : Z → bool) base :
  length a = length b → mask_rows a = Z.of_nat <$> row_ids P base → mask_rows b = Z.of_nat <$> row_ids Q base →
  mask_rows (zip_with Z.land a b) = Z.of_nat <$> row_ids (λ x, P x && Q x) base.
Proof.
  intros Hl Ha Hb. rewrite mask_rows_filter in Ha, Hb |- *. apply (inj _) in Ha, Hb. f_equal.
  rewrite length_zip_with, <- Hl, Nat.min_id in *. set (S := seq 0 (64 * length a)) in *.
  rewrite (filter_ext_in _ (λ r, mask_bit b r ∧ mask_bit a r)).
  2: { intros r _. rewrite mask_bit_zip by done. rewrite !Is_true_true, andb_true_iff. tauto. }
  rewrite <- list_filter_filter, Ha. unfold row_ids.
  assert (∀ r, r ∈ row_ids P base → mask_bit b r ↔ r ∈ row_ids Q base) as Hr.
  { intros r Hr. rewrite <- Ha in Hr. apply list_elem_of_filter in Hr as [_ Hr]. rewrite <- Hb, list_elem_of_filter. tauto. }
  rewrite (filter_ext_in _ (λ r, r ∈ row_ids Q base)) by done. unfold row_ids. rewrite list_filter_filter.
  apply filter_ext_in. intros r Hrs. rewrite list_elem_of_filter. destruct (base !! r) as [x|] eqn:Hx; cbn [from_option].
  - rewrite !Is_true_true, andb_true_iff. tauto.
  - tauto.
Qed.

(** * The shape of an evaluation *)

Lemma evaluate_size ops cs x msel r : evaluate_avx512 ops cs x msel = Ok r → size r.2 = size msel.
Proof.
  unfold evaluate_avx512. case_match; [by intros [= <-]|]. case_match.
  - unfold select_all. intros H'. apply bind_Ok_inv in H' as ([k s1] & _ & H'). apply bind_Ok_inv in H' as (s2 & _ & [= <-]). done.
  - intros H'. apply bind_Ok_inv in H' as ([w d] & _ & H'). apply bind_Ok_inv in H' as ([[tm tb] d'] & _ & [= <-]). done.
Qed.

(** When the rows do not fill the last word, every evaluation writes the same
    number of words. *)
Lemma evaluate_words base cs ops x msel r :
  sketch_ok 8 base cs → Z.of_nat (length base) ≤ 32767 → (length base mod 64 ≠ 0)%nat →
  evaluate_avx512 ops cs x msel = Ok r → r = (0, msel) ∨ length (bitmask r.2) = S (length base / 64).
Proof.
  intros Hok Hlen Hmod He. destruct (op_none ops cs x) eqn:Hn; [|destruct (op_all ops cs x) eqn:Ha].
  - left. rewrite (evaluate_none base cs Hok ops x msel Hn) in He. congruence.
  - right. destruct (evaluate_all base cs Hok Hlen ops x msel Hn Ha) as (r' & He' & _ & Hb).
    rewrite He in He'. injection He' as <-. rewrite Hb. unfold full_bitmask. rewrite decide_False by done.
    rewrite length_insert, length_replicate. pose proof (Nat.div_mod_eq (length base) 64).
    pose proof (Nat.mod_upper_bound (length base) 64 ltac:(lia)). symmetry. apply (Nat.div_unique _ _ _ (length base mod 64 - 1)); lia.
  - right. destruct (evaluate_general base cs Hok Hlen ops x msel Hn Ha) as (r' & He' & _ & Hb).
    rewrite He in He'. injection He' as <-. rewrite Hb. apply length_general_words.
Qed.

(** * The conjunction *)

(** The column type and the type of its constants for a sketch of [W]-bit
    values. *)
Definition sketch_pt (W : Z) : PhysicalType := if W =? 32 then INT32 else INT64.
Definition sketch_type (W : Z) : LogicalType := if W =? 32 then LT INTEGER else LT BIGINT.

Definition comparison_filter (W : Z) (p : ExpressionType * Z) : TableFilter :=
  ConstantFilter p.1 (V_num (sketch_type W) (sketch_pt W, p.2)).

(** The loop of [ConjunctionAndFilter::CheckSketchStatistics] over
    comparisons. *)
Fixpoint and_loop (W : Z) (s : BaseStatistics) (index : nat) (sketches : list (option BaseColumnSketch))
    (ps : list (ExpressionType * Z)) (res : FilterPropagateResult) (i : Z) (merged : list Z) (sels : list ManagedSelection)
    : result (FilterPropagateResult * list ManagedSelection) :=
  match ps with
  | [] => sels' ← finish_merge i merged index sels; Ok (res, sels')
  | p :: ps' =>
      '(prune_result, sels) ← CheckSketchStatistics index sketches (comparison_filter W p) s sels;
      msel ← vget sels index;
      merged ← (if i =? 0 then Ok (bitmask msel) else merge_masks merged (bitmask msel));
      match prune_result with
      | FILTER_ALWAYS_FALSE => Ok (FILTER_ALWAYS_FALSE, sels)
      | _ => and_loop W s index sketches ps' (if bool_decide (prune_result ≠ res) then NO_PRUNING_POSSIBLE else res) (i + 1) merged sels
      end
  end.

Lemma and_loop_eq W s index sketches ps sels m :
  sels !! index = Some m →
  CheckSketchStatistics index sketches (ConjunctionAndFilter (comparison_filter W <$> ps)) s sels =
  and_loop W s index sketches ps FILTER_ALWAYS_TRUE 0 [] sels.
Proof.
  intros Hm. cbn [CheckSketchStatistics]. rewrite (vget_lookup _ _ _ Hm). cbn [mbind result_bind].
  enough (∀ res i merged sels, ConjunctionAndFilter_CheckSketchStatistics index
    (λ g sels, CheckSketchStatistics index sketches g s sels) (comparison_filter W <$> ps) res i merged sels = and_loop W s index sketches ps res i merged sels) as H by apply H.
  clear. induction ps as [|p ps IH]; intros res i merged sels; [done|].
  cbn [fmap list_fmap and_loop ConjunctionAndFilter_CheckSketchStatistics].
  destruct (CheckSketchStatistics index sketches (comparison_filter W p) s sels) as [[q sels']|]; [|done]. cbn [mbind result_bind].
  rewrite (bool_decide_true (filter_type (comparison_filter W p) = CONSTANT_COMPARISON)) by done.
  destruct (vget sels' index) as [msel|]; [|reflexivity]. cbn [mbind result_bind].
  destruct (if i =? 0 then Ok (bitmask msel) else merge_masks merged (bitmask msel)) as [mg|]; [|reflexivity]. cbn [mbind result_bind].
  destruct q; [apply IH | apply IH | reflexivity | apply IH | apply IH].
Qed.

(** The result of a conjunction is always true exactly when every result is. *)
Lemma merged_result (q res : FilterPropagateResult) :
  q = FILTER_ALWAYS_TRUE ∨ q = NO_PRUNING_POSSIBLE → res = FILTER_ALWAYS_TRUE ∨ res = NO_PRUNING_POSSIBLE →
  (if bool_decide (q ≠ res) then NO_PRUNING_POSSIBLE else res) = FILTER_ALWAYS_TRUE ↔
  res = FILTER_ALWAYS_TRUE ∧ q = FILTER_ALWAYS_TRUE.
Proof. intros [-> | ->] [-> | ->]; vm_compute; split; intros H; try done; by destruct H. Qed.

Lemma andb_lists (l : list Z) (P Q : Z → bool) :
  (∀ b, b ∈ l → P b = true) ∧ (∀ b, b ∈ l → Q b = true) ↔ ∀ b, b ∈ l → P b && Q b = true.
Proof.
  split; [intros [HP HQ] b Hb; by rewrite HP, HQ|]. intros H.
  split; intros b Hb; specialize (H b Hb); by apply andb_true_iff in H as [? ?].
Qed.

Section Conjunction.
Context (W : Z) (base : list Z) (cs : ColumnSketch) (sk : BaseColumnSketch) (s : BaseStatistics).
Context (index : nat) (sketches : list (option BaseColumnSketch)).
Context (HW : W = 32 ∨ W = 64) (Hne : (0 < length base)%nat) (Hlen : Z.of_nat (length base) ≤ 32767).
Context (Hmod : (length base mod 64 ≠ 0)%nat) (Hok : sketch_ok 8 base cs) (Hcheck : need_check_base cs = true).
Context (Hcast : dynamic_cast_sketch W sk = Some cs) (Hsk : sketches !! index = Some (Some sk)).
Context (Hty : InternalType (stats_type s) = sketch_pt W).

(** The test of one comparison. *)
Definition tests (p : ExpressionType * Z) (P : Z → bool) : Prop := 0 ≤ p.2 < 2 ^ (W - 1) ∧ sketch_test p.1 p.2 = Some P.

Lemma comparison_check p P sels msel :
  tests p P → sels !! index = Some msel →
  ∃ r, CheckSketchStatistics index sketches (comparison_filter W p) s sels =
         Ok (sketch_result r.1 (length base), <[index := r.2]> sels) ∧
    r.1 = Z.of_nat (length (row_ids P base)) ∧ (r = (0, msel) ∨ answers r (row_ids P base)) ∧
    size r.2 = size msel ∧ (r = (0, msel) ∨ length (bitmask r.2) = S (length base / 64)).
Proof.
  intros [Hc Ht] Hm. destruct p as [cmp c]. cbn [fst snd] in *.
  destruct (sketch_check_evaluates W base cs cmp c P (sketch_type W) index sketches sels sk msel) as (r & He & Hr & Ha & ops & x & Hev); try done.
  exists r. split_and!; [| done | done | by eapply evaluate_size | by eapply evaluate_words].
  rewrite <- He. unfold comparison_filter, CheckSketchStatistics, ConstantFilter_CheckSketchStatistics, NumericStats_CheckSketch.
  rewrite Hty. unfold sketch_pt, sketch_type. destruct HW as [-> | ->]; reflexivity.
Qed.

(** The state after the comparisons [Ps] (none of which was always false):
    the merged mask and the selection of the segment. *)
Record merged_state (sz : nat) (i : Z) (merged : list Z) (sels : list ManagedSelection) (Q : Z → bool) : Prop := {
  ms_sel : ∃ m, sels !! index = Some m ∧ size m = sz ∧
    (i = 1 → ∃ c, answers (c, m) (row_ids Q base)) ∧ (0 < i → length (bitmask m) = S (length base / 64));
  ms_mask : 0 < i → mask_rows merged = Z.of_nat <$> row_ids Q base ∧ length merged = S (length base / 64);
}.

Lemma finish_merge_ok sz i merged sels Q :
  (length base ≤ sz)%nat → 0 < i → merged_state sz i merged sels Q →
  ∃ m', finish_merge i merged index sels = Ok (<[index := m']> sels) ∧
    count m' = length (row_ids Q base) ∧ sel_list (sel_vec m') (count m') = Z.of_nat <$> row_ids Q base ∧
    mask_rows (bitmask m') = Z.of_nat <$> row_ids Q base.
Proof.
  intros Hsz Hi [(m & Hm & Hs & H1 & _) Hmask]. destruct (Hmask Hi) as [Hrows _]. unfold finish_merge.
  destruct (Z.eqb_spec (i - 1) 0) as [E|E]; cbn [negb].
  - destruct (H1 ltac:(lia)) as [c [_ Hc Hsl Hbm]]. exists m. rewrite list_insert_id by done. done.
  - rewrite (vget_lookup _ _ _ Hm). cbn [mbind result_bind].
    destruct (BitmaskToSelection_ok (set_bitmask m merged)) as (m' & Hm' & Hc' & Hb' & _ & Hl').
    { cbn [bitmask set_bitmask size]. rewrite Hrows, length_fmap, Hs. etrans; [apply length_filter|]. rewrite length_seq. lia. }
    cbn [bitmask set_bitmask] in *. rewrite Hrows in *. rewrite Hm'. cbn [mbind result_bind]. exists m'.
    rewrite vset_lt by (by eapply lookup_lt_Some). split_and!; [done | by rewrite Hc', length_fmap | | congruence].
    rewrite Hl'. rewrite <- list_fmap_compose. apply list_fmap_ext. intros j r Hr%list_elem_of_lookup_2. cbn.
    apply wrapu_small. apply list_elem_of_filter in Hr as [_ Hr%elem_of_seq]. lia.
Qed.

(** The test of a whole conjunction. *)
Definition all_tests (Ps : list (Z → bool)) (b : Z) : bool := forallb (λ P, P b) Ps.

(** What the loop promises for the row test [R]. *)
Definition conjunction_answer (sels : list ManagedSelection) (R : Z → bool)
    (e : result (FilterPropagateResult * list ManagedSelection)) : Prop :=
  ∃ q sels', e = Ok (q, sels') ∧ (∀ j, j ≠ index → sels' !! j = sels !! j) ∧
    (q = FILTER_ALWAYS_TRUE ↔ ∀ b, b ∈ base → R b = true) ∧
    (q = FILTER_ALWAYS_FALSE → ∀ b, b ∈ base → R b = false) ∧
    (q ≠ FILTER_ALWAYS_FALSE → ∃ m', sels' !! index = Some m' ∧ count m' = length (row_ids R base) ∧
       sel_list (sel_vec m') (count m') = Z.of_nat <$> row_ids R base ∧ mask_rows (bitmask m') = Z.of_nat <$> row_ids R base).

Lemma conjunction_answer_ext sels R R' e :
  (∀ b, R b = R' b) → conjunction_answer sels R e → conjunction_answer sels R' e.
Proof.
  intros H (q & sels' & He & Hj & Ht & Hf & Hs).
  assert (row_ids R base = row_ids R' base) as E by (by apply row_ids_ext).
  exists q, sels'. rewrite <- E. split_and!; [done | done | | | done].
  - rewrite Ht. by setoid_rewrite H.
  - intros Hq b Hb. rewrite <- H. by apply Hf.
Qed.

(** The state after one more comparison that is not always false. *)
Lemma merged_step sz i merged sels Q P m r :
  0 ≤ i → (i = 0 → ∀ b, Q b = true) → merged_state sz i merged sels Q → sels !! index = Some m →
  size r.2 = size m → answers r (row_ids P base) → length (bitmask r.2) = S (length base / 64) →
  ∃ merged', (if i =? 0 then Ok (bitmask r.2) else merge_masks merged (bitmask r.2)) = Ok merged' ∧
    merged_state sz (i + 1) merged' (<[index := r.2]> sels) (λ b, Q b && P b).
Proof.
  intros Hi H0 [(m0 & Hm0 & Hsz & _ & _) Hmask] Hm Hs Ha Hl. rewrite Hm in Hm0. injection Hm0 as <-.
  assert (i = 0 → row_ids (λ b, Q b && P b) base = row_ids P base) as E.
  { intros Hi0. apply row_ids_ext. intros b _. by rewrite (H0 Hi0). }
  assert (∃ m', <[index := r.2]> sels !! index = Some m' ∧ size m' = sz ∧
    (i + 1 = 1 → ∃ c, answers (c, m') (row_ids (λ b, Q b && P b) base)) ∧ (0 < i + 1 → length (bitmask m') = S (length base / 64))) as Hsel.
  { exists r.2. split_and!; [apply list_lookup_insert_eq; by eapply lookup_lt_Some | congruence | | done].
    intros Hi1. rewrite E by lia. exists r.1. by destruct r. }
  destruct (Z.eqb_spec i 0) as [Hi0|Hi0].
  - eexists. split; [done|]. split; [done|]. intros _. rewrite (E Hi0). split; [apply Ha | done].
  - destruct (Hmask ltac:(lia)) as [Hr Hlm]. rewrite merge_masks_zip by congruence. eexists. split; [done|]. split; [done|].
    intros _. split; [apply mask_rows_zip; [congruence | done | apply Ha] | rewrite length_zip_with; lia].
Qed.

Lemma and_loop_ok sz ps Ps :
  (length base ≤ sz)%nat → Forall2 tests ps Ps →
  ∀ res i merged sels Q, merged_state sz i merged sels Q → 0 ≤ i → (i = 0 → ∀ b, Q b = true) → 0 < i ∨ ps ≠ [] →
    (res = FILTER_ALWAYS_TRUE ∨ res = NO_PRUNING_POSSIBLE) → (res = FILTER_ALWAYS_TRUE ↔ ∀ b, b ∈ base → Q b = true) →
    conjunction_answer sels (λ b, Q b && all_tests Ps b) (and_loop W s index sketches ps res i merged sels).
Proof.
  intros Hsz HF. induction HF as [|p P ps Ps Hp HF IH]; intros res i merged sels Q Hst Hi H0 Hne' Hres Hiff.
  - destruct Hne' as [Hpos|?]; [|done]. apply (conjunction_answer_ext _ Q); [intros b; by rewrite andb_true_r|].
    destruct (finish_merge_ok sz i merged sels Q Hsz Hpos Hst) as (m' & Hm' & Hc & Hl & Hb).
    destruct Hst as [(m & Hm & _) _]. cbn [and_loop]. rewrite Hm'. cbn [mbind result_bind].
    eexists _, _. split; [done|]. split_and!; [intros j Hj; by apply list_lookup_insert_ne | done | by destruct Hres as [-> | ->] |].
    intros _. exists m'. split_and!; try done. apply list_lookup_insert_eq. by eapply lookup_lt_Some.
  - pose proof Hst as [(m & Hm & Hms & _ & Hmw) Hmask].
    destruct (comparison_check p P sels m Hp Hm) as (r & Hr & Hr1 & Hra & Hrs & Hrw).
    destruct (sketch_result_exact P base r m Hne Hr1 Hra) as (Ht & Hf & Ha). cbv zeta in *.
    cbn [and_loop]. rewrite Hr. cbn [mbind result_bind].
    rewrite (vget_lookup _ _ r.2) by (apply list_lookup_insert_eq; by eapply lookup_lt_Some). cbn [mbind result_bind].
    destruct (decide (sketch_result r.1 (length base) = FILTER_ALWAYS_FALSE)) as [Hfalse|Hnf].
    { assert (∃ mg, (if i =? 0 then Ok (bitmask r.2) else merge_masks merged (bitmask r.2)) = Ok mg) as [mg ->].
      { destruct (Z.eqb_spec i 0); [by eexists|]. destruct (Hmask ltac:(lia)) as [_ Hlm].
        rewrite merge_masks_zip; [by eexists|]. rewrite Hlm. destruct Hrw as [-> |Hrw]; [symmetry; apply Hmw; lia | congruence]. }
      cbn [mbind result_bind]. rewrite Hfalse. eexists _, _. split; [done|].
      assert (∀ b, b ∈ base → Q b && all_tests (P :: Ps) b = false) as HR.
      { intros b Hb. cbn. rewrite (proj1 Hf Hfalse b Hb). apply andb_false_r. }
      split_and!; [intros j Hj; by apply list_lookup_insert_ne | | auto | done].
      split; [done|]. intros H. destruct base as [|b base']; [cbn in Hne; lia|]. specialize (H b ltac:(left)). rewrite HR in H by left. done. }
    assert (answers r (row_ids P base)) as Hans by auto.
    assert (r ≠ (0, m)) as Hrn by (intros ->; by apply Hnf).
    destruct Hrw as [?|Hrw]; [done|].
    destruct (merged_step sz i merged sels Q P m r Hi H0 Hst Hm Hrs Hans Hrw) as (mg & -> & Hst'). cbn [mbind result_bind].
    set (q := sketch_result r.1 (length base)) in *.
    assert (q = FILTER_ALWAYS_TRUE ∨ q = NO_PRUNING_POSSIBLE) as Hq
      by (unfold q, sketch_result in *; repeat case_match; auto; done).
    assert (conjunction_answer (<[index := r.2]> sels) (λ b, (Q b && P b) && all_tests Ps b)
      (and_loop W s index sketches ps (if bool_decide (q ≠ res) then NO_PRUNING_POSSIBLE else res) (i + 1) mg (<[index := r.2]> sels)))
      as (q' & sels' & He & Hj & Hans').
    { apply IH; [done | lia | lia | left; lia | by destruct Hq as [-> | ->], Hres as [-> | ->]; auto |].
      rewrite <- (andb_lists base Q P), <- Hiff, <- Ht.
      by apply merged_result. }
    apply (conjunction_answer_ext _ (λ b, (Q b && P b) && all_tests Ps b)); [intros b; cbn; by rewrite andb_assoc|].
    exists q', sels'. split; [by destruct Hq as [-> | ->]|]. split; [|done].
    intros j Hne''. rewrite Hj by done. by apply list_lookup_insert_ne.
Qed.
End Conjunction.
