(* ===== verification/FilterProps.v ===== *)
(** The correctness theorems of the pushed-down filters. *)
From S2P Require Import Prelude Bits Types Stats SelectionVector ColumnSketch SketchFacts SketchAvx.
From S2P Require Import SketchProps NumericStats NumericFacts StringStats BaseStatistics.
From S2P Require Import StatsFacts StatsCreate StatsProps TableFilter FilterFacts FilterPruning.
From S2P Require Import SketchConjunction.

(** C7.  [ColumnSegment::FilterSelection] selects exactly the rows that pass
    the filter: on distinct row indices it returns without undefined
    behaviour, the new selection is a permutation of the passing rows, and it
    keeps their order unless the filter contains a disjunction. *)
Theorem filter_selection_exact (f : TableFilter) (v : FilterVector) (sel : SelectionVector) (n : nat) (L : list Z) :
  selection sel n L → rows_ok L → NoDup L → filter_fits f v L →
  ∃ sel' n' R, FilterSelection f v sel n = Ok (sel', n') ∧ selection sel' n' R ∧
    R ≡ₚ filter (λ idx, row_passes f v idx) L ∧ (or_free f = true → R = filter (λ idx, row_passes f v idx) L).
Proof.
  intros Hs Hr Hn Hf. destruct (FilterSelection_filters f v sel n L Hs Hr Hn Hf) as (sel' & n' & R & He & HR & HnR & Hin & Ho).
  exists sel', n', R. split_and!; [done | done | | done].
  apply NoDup_Permutation; [done | by apply NoDup_filter|]. intros x. rewrite Hin, list_elem_of_filter, Is_true_true. tauto.
Qed.

(** An integer vector of five rows, the second of which is NULL. *)
Definition example_vector : FilterVector :=
  mkFV (LT INTEGER) SelectionVector_null (C_num [4; 0; 9; 12; 7]) (Some [true; false; true; true; true]) [].
Definition example_filter : TableFilter :=
  ConjunctionOrFilter [ConstantFilter COMPARE_GREATERTHAN (V_num (LT INTEGER) (INT32, 8)); IsNullFilter].

Lemma example_rows : vector_rows example_vector [0; 1; 2; 3; 4].
Proof.
  intros idx Hi. repeat (apply elem_of_cons in Hi as [->|Hi]); [.. | by apply elem_of_nil in Hi];
    (eexists; split; [reflexivity|]; split_and!; intros ? [= <-]; vm_compute; lia).
Qed.

Lemma filter_selection_exact_witness :
  ∃ sel' n' R, FilterSelection example_filter example_vector SelectionVector_null 5 = Ok (sel', n') ∧ selection sel' n' R ∧
    R ≡ₚ filter (λ idx, row_passes example_filter example_vector idx) [0; 1; 2; 3; 4] ∧
    (or_free example_filter = true → R = filter (λ idx, row_passes example_filter example_vector idx) [0; 1; 2; 3; 4]).
Proof.
  apply (filter_selection_exact example_filter example_vector SelectionVector_null 5 [0; 1; 2; 3; 4]).
  - split; [done | reflexivity].
  - repeat constructor; lia.
  - by apply (bool_decide_unpack _).
  - cbn. split_and!; [apply example_rows | by eexists | apply example_rows | done].
Defined.

(** C30. The checks of filters against statistics are sound: for well-formed
    statistics that cover a value of the column, and a filter that fits the type of
    the column, [CheckStatistics] returns one of the three basic answers; always
    false means the value does not pass, NULL or not; always true means it passes,
    provided the compared values are not NULL. A filter on a field of a struct is
    checked against structs that are not NULL. *)
Theorem check_statistics_sound (f : TableFilter) (s : BaseStatistics) (v : Value) :
  stats_wf s → filter_typed f (stats_type s) → value_ok v → value_type v = stats_type s → covers s v → reaches f v →
  ∃ r, CheckStatistics f s = Ok r ∧
    (r = NO_PRUNING_POSSIBLE ∨ r = FILTER_ALWAYS_TRUE ∨ r = FILTER_ALWAYS_FALSE) ∧
    (r = FILTER_ALWAYS_FALSE → value_passes f v = false) ∧
    (r = FILTER_ALWAYS_TRUE → compares_valid f v → value_passes f v = true).
Proof. intros. by apply CheckStatistics_ok. Qed.

Lemma check_statistics_sound_witness :
  let f := ConjunctionAndFilter [ConstantFilter COMPARE_GREATERTHAN (V_num (LT INTEGER) (INT32, 30)); IsNotNullFilter] in
  let v := V_num (LT INTEGER) (INT32, 15) in
  ∃ r, CheckStatistics f (int_stats true true 10 20) = Ok r ∧
    (r = NO_PRUNING_POSSIBLE ∨ r = FILTER_ALWAYS_TRUE ∨ r = FILTER_ALWAYS_FALSE) ∧
    (r = FILTER_ALWAYS_FALSE → value_passes f v = false) ∧
    (r = FILTER_ALWAYS_TRUE → compares_valid f v → value_passes f v = true).
Proof.
  apply (check_statistics_sound
    (ConjunctionAndFilter [ConstantFilter COMPARE_GREATERTHAN (V_num (LT INTEGER) (INT32, 30)); IsNotNullFilter])
    (int_stats true true 10 20) (V_num (LT INTEGER) (INT32, 15))).
  - apply int_stats_wf.
  - cbn. split_and!; try done. left. split_and!; [done | by eexists _, _ | by eexists].
  - by split_and!.
  - done.
  - apply int_stats_covers. lia.
  - by cbn.
Defined.

(** A pruned segment holds no matching row: when [CheckStatistics] says
    always false for statistics that cover every row of a vector, evaluating
    the filter on the vector selects nothing. *)
Theorem pruned_vector_selects_nothing (f : TableFilter) (s : BaseStatistics) (v : FilterVector) (sel : SelectionVector)
    (n : nat) (L : list Z) :
  stats_wf s → filter_typed f (stats_type s) → selection sel n L → rows_ok L → NoDup L → filter_fits f v L →
  (∀ idx, idx ∈ L → value_ok (fv_row v idx) ∧ value_type (fv_row v idx) = stats_type s ∧ covers s (fv_row v idx) ∧
     reaches f (fv_row v idx)) →
  CheckStatistics f s = Ok FILTER_ALWAYS_FALSE →
  ∃ sel', FilterSelection f v sel n = Ok (sel', O).
Proof.
  intros W Ht Hs Hr Hn Hf Hrows Hc.
  destruct (FilterSelection_filters f v sel n L Hs Hr Hn Hf) as (sel' & n' & R & He & HR & _ & Hin & _).
  exists sel'. rewrite He, <- (selection_length _ _ _ HR). destruct R as [|x R]; [done|]. exfalso.
  destruct (proj1 (Hin x) ltac:(left)) as [Hx Hp]. destruct (Hrows x Hx) as (Hok & Hty & Hcov & Hre).
  rewrite (row_passes_value f v x L Hf Hx Hre) in Hp.
  destruct (CheckStatistics_ok f s (fv_row v x) W Ht Hok Hty Hcov Hre) as (r & Hr' & _ & Hfalse & _).
  rewrite Hc in Hr'. injection Hr' as <-. rewrite Hfalse in Hp; done.
Qed.


(** C32.  A conjunction of comparisons [<], [<=], [>] and [>=] checked against a
    sketch combines the bitmasks correctly: for at least one comparison, constants
    [c] with [0 <= c < 2^(W-1)] (positive for [>=]), a sketch of 32- or 64-bit values
    that consults the base data, a column of at least one and at most 32767 rows that
    do not fill the last bitmask word and the selection sized for the column, the
    check answers always true exactly when every row satisfies all the comparisons,
    always false only when none does, and otherwise the selection vector, count and
    bitmask of the segment list exactly the rows satisfying all of them.  The other
    cases go wrong: an equality loses rows, [>= 0] prunes every row, and a full last
    word is read past its end (see the end of this file). *)
Theorem sketch_conjunction_exact (W : Z) (base : list Z) (cs : ColumnSketch) (sk : BaseColumnSketch) (s : BaseStatistics)
    (index : nat) (sketches : list (option BaseColumnSketch)) (sels : list ManagedSelection) (m : ManagedSelection)
    (ps : list (ExpressionType * Z)) (Ps : list (Z → bool)) :
  W = 32 ∨ W = 64 → (0 < length base)%nat → Z.of_nat (length base) ≤ 32767 → (length base mod 64 ≠ 0)%nat →
  ColumnSketch_new 8 base = Ok cs → need_check_base cs = true → dynamic_cast_sketch W sk = Some cs →
  sketches !! index = Some (Some sk) → InternalType (stats_type s) = sketch_pt W →
  sels !! index = Some m → (length base ≤ size m)%nat → ps ≠ [] → Forall2 (tests W) ps Ps →
  ∃ q sels', CheckSketchStatistics index sketches (ConjunctionAndFilter (comparison_filter W <$> ps)) s sels = Ok (q, sels') ∧
    (∀ j, j ≠ index → sels' !! j = sels !! j) ∧
    (q = FILTER_ALWAYS_TRUE ↔ ∀ b, b ∈ base → all_tests Ps b = true) ∧
    (q = FILTER_ALWAYS_FALSE → ∀ b, b ∈ base → all_tests Ps b = false) ∧
    (q ≠ FILTER_ALWAYS_FALSE → ∃ m', sels' !! index = Some m' ∧ count m' = length (row_ids (all_tests Ps) base) ∧
       sel_list (sel_vec m') (count m') = Z.of_nat <$> row_ids (all_tests Ps) base ∧
       mask_rows (bitmask m') = Z.of_nat <$> row_ids (all_tests Ps) base).
Proof.
  intros HW Hne Hlen Hmod Hnew Hcheck Hcast Hsk Hty Hm Hsz Hps HF.
  destruct (ColumnSketch_new_inv 8 base cs ltac:(lia) ltac:(lia) Hnew) as [_ Hok].
  rewrite (and_loop_eq W s index sketches ps sels m Hm).
  apply (and_loop_ok W base cs sk s index sketches HW Hne Hlen Hmod Hok Hcheck Hcast Hsk Hty (size m) ps Ps Hsz HF
    FILTER_ALWAYS_TRUE 0 [] sels (λ _, true)); [|lia | done | by right | by left | done].
  split; [|lia]. exists m. split_and!; [done | done | lia | lia].
Qed.

Lemma sketch_conjunction_exact_witness :
  let base := Z.of_nat <$> seq 0 300 in let cs := built base in let m := ManagedSelection_new 300 false in
  ∃ q sels', CheckSketchStatistics 0 [Some (ColumnSketchWrapper32 cs)]
      (ConjunctionAndFilter (comparison_filter 32 <$> [(COMPARE_GREATERTHAN, 5); (COMPARE_LESSTHAN, 9)])) (int_stats false true 0 299) [m] =
      Ok (q, sels') ∧
    (∀ j, j ≠ 0%nat → sels' !! j = [m] !! j) ∧
    (q = FILTER_ALWAYS_TRUE ↔ ∀ b, b ∈ base → all_tests [(λ b, 5 <? b); (λ b, b <? 9)] b = true) ∧
    (q = FILTER_ALWAYS_FALSE → ∀ b, b ∈ base → all_tests [(λ b, 5 <? b); (λ b, b <? 9)] b = false) ∧
    (q ≠ FILTER_ALWAYS_FALSE → ∃ m', sels' !! 0%nat = Some m' ∧
       count m' = length (row_ids (all_tests [(λ b, 5 <? b); (λ b, b <? 9)]) base) ∧
       sel_list (sel_vec m') (count m') = Z.of_nat <$> row_ids (all_tests [(λ b, 5 <? b); (λ b, b <? 9)]) base ∧
       mask_rows (bitmask m') = Z.of_nat <$> row_ids (all_tests [(λ b, 5 <? b); (λ b, b <? 9)]) base).
Proof.
  intros base cs m.
  apply (sketch_conjunction_exact 32 base cs (ColumnSketchWrapper32 cs) (int_stats false true 0 299) 0
    [Some (ColumnSketchWrapper32 cs)] [m] m [(COMPARE_GREATERTHAN, 5); (COMPARE_LESSTHAN, 9)] [(λ b, 5 <? b); (λ b, b <? 9)]);
    [by left | vm_compute; lia | vm_compute; discriminate | vm_compute; discriminate | vm_compute; reflexivity |
     vm_compute; reflexivity | reflexivity | reflexivity | reflexivity | reflexivity | vm_compute; lia | discriminate |].
  repeat constructor; cbn; lia.
Defined.

(** The filters of a column. *)
Definition column_passes (fs : TableFilterSet) (column : nat) (v : Value) : bool :=
  from_option (λ f, value_passes f v) true (fs !! column).

(** Pushing a filter strengthens the filter of its column by exactly that
    filter and leaves the other columns alone. *)
Theorem push_filter_conjoins (fs : TableFilterSet) (column : nat) (f : TableFilter) (v : Value) :
  column_passes (PushFilter fs column f) column v = column_passes fs column v && value_passes f v ∧
  ∀ other, other ≠ column → PushFilter fs column f !! other = fs !! other.
Proof.
  split.
  - unfold column_passes, PushFilter, TableFilterSet in *. destruct (fs !! column) as [g|] eqn:Hg.
    + destruct g as [cmp c| | |gs|gs|i n g]; rewrite lookup_insert_eq; cbn [from_option value_passes forallb];
        rewrite ?andb_true_r; try done. rewrite forallb_app. cbn [forallb]. by rewrite andb_true_r.
    + by rewrite lookup_insert_eq.
  - intros other Hne. unfold PushFilter, TableFilterSet in *. repeat case_match; by rewrite lookup_insert_ne by done.
Qed.

(** * Where the checks go wrong *)

(** The filter [x > 5] is always true on statistics that allow NULL and values
    from 10 to 20, yet a NULL does not pass it: an always-true answer must not
    be used to drop the filter. *)
Lemma always_true_ignores_null :
  let f := ConstantFilter COMPARE_GREATERTHAN (V_num (LT INTEGER) (INT32, 5)) in
  CheckStatistics f (int_stats true true 10 20) = Ok FILTER_ALWAYS_TRUE ∧
  covers (int_stats true true 10 20) (V_null (LT INTEGER)) ∧ value_passes f (V_null (LT INTEGER)) = false.
Proof. by split_and!. Qed.

(** [Equals] never holds between a filter and itself: the base method compares
    the filter types with [!=]. *)
Lemma filter_never_equals_itself f : Filter_Equals f f = Ok false.
Proof.
  unfold Filter_Equals. assert (negb (TableFilter_Equals f f) = true) as H
    by (unfold TableFilter_Equals; by rewrite bool_decide_false by tauto).
  destruct f; cbn [Filter_Equals_dir]; by rewrite H.
Qed.

(** 64 rows: a partial and an always-true comparison leave bitmasks of
    different lengths, and merging reads past the end of the shorter one. *)
Lemma conjunction_reads_past_mask :
  let base := Z.of_nat <$> seq 0 64 in
  CheckSketchStatistics 0 [Some (ColumnSketchWrapper32 (built base))]
    (ConjunctionAndFilter (comparison_filter 32 <$> [(COMPARE_LESSTHAN, 10); (COMPARE_LESSTHAN, 1000)]))
    (int_stats false true 0 63) [ManagedSelection_new 64 false] = out_of_range.
Proof. vm_compute. reflexivity. Qed.

(** An equality is not evaluated but takes part in the merge with whatever
    bitmask is left over: [x = 5 AND x < 10] selects no row of a column of
    which row 5 satisfies both. *)
Lemma conjunction_with_equality_loses_rows :
  let base := Z.of_nat <$> seq 0 300 in
  (λ r : FilterPropagateResult * list ManagedSelection, (r.1, count <$> r.2)) <$>
  CheckSketchStatistics 0 [Some (ColumnSketchWrapper32 (built base))]
    (ConjunctionAndFilter (comparison_filter 32 <$> [(COMPARE_EQUAL, 5); (COMPARE_LESSTHAN, 10)]))
    (int_stats false true 0 299) [ManagedSelection_new 300 false] = Ok (NO_PRUNING_POSSIBLE, [O]) ∧
  base !! 5%nat = Some 5.
Proof. vm_compute. split; reflexivity. Qed.

(** A conjunction without a comparison clears the selection, because the
    counter 0 is decremented to -1. *)
Lemma conjunction_without_comparison_clears :
  let m := mkMSel [7] true 3 64 (mkSel (Some [0; 1; 2])) in
  (λ r : FilterPropagateResult * list ManagedSelection, (r.1, count <$> r.2)) <$>
  CheckSketchStatistics 0 [] (ConjunctionAndFilter [IsNotNullFilter]) (int_stats true true 0 9) [m] = Ok (NO_PRUNING_POSSIBLE, [O]).
Proof. vm_compute. reflexivity. Qed.

(** A disjunction stops at its first child that cannot prune, with the
    selection of that child alone: [x < 5 OR x < 9] keeps the rows below 5. *)
Lemma disjunction_keeps_first_child :
  let base := Z.of_nat <$> seq 0 300 in
  (λ r : FilterPropagateResult * list ManagedSelection, (r.1, count <$> r.2)) <$>
  CheckSketchStatistics 0 [Some (ColumnSketchWrapper32 (built base))]
    (ConjunctionOrFilter (comparison_filter 32 <$> [(COMPARE_LESSTHAN, 5); (COMPARE_LESSTHAN, 9)]))
    (int_stats false true 0 299) [ManagedSelection_new 300 false] = Ok (NO_PRUNING_POSSIBLE, [5%nat]).
Proof. vm_compute. reflexivity. Qed.

(** [x >= 0] is checked as [x > -1], which wraps to the largest unsigned value
    and matches nothing. *)
Lemma greater_equal_zero_wraps :
  let base := Z.of_nat <$> seq 0 300 in
  (λ r : FilterPropagateResult * list ManagedSelection, r.1) <$>
  CheckSketchStatistics 0 [Some (ColumnSketchWrapper32 (built base))] (comparison_filter 32 (COMPARE_GREATERTHANOREQUALTO, 0))
    (int_stats false true 0 299) [ManagedSelection_new 300 false] = Ok FILTER_ALWAYS_FALSE.
Proof. vm_compute. reflexivity. Qed.
