(* ===== verification/ValidityMask.v ===== *)
(** Validity masks (validity_mask.hpp, validity_mask.cpp): the bit set that
    marks which rows of a vector are not NULL.  A mask without data means that
    every row is valid.  A buffer shared with another mask
    ([Initialize(other)]) is copied. *)
From S2P Require Import Prelude Bits SelectionVector.

Definition STANDARD_VECTOR_SIZE : nat := 2048.
Definition BITS_PER_VALUE : nat := 64.
Definition MAX_ENTRY : Z := UINT64_MAX.

Record ValidityMask : Type := mkMask {
  validity_mask : option (list Z);
  target_count : nat
}.

Definition EntryCount (n : nat) : nat := (n + (BITS_PER_VALUE - 1)) / BITS_PER_VALUE.
Definition ValidityMaskSize (n : nat) : nat := EntryCount n * 8.

(** [TemplatedValidityData(count)] and its copying form. *)
Definition ValidityData_new (n : nat) : list Z := replicate (EntryCount n) MAX_ENTRY.
Definition ValidityData_copy (src : list Z) (n : nat) : result (list Z) :=
  mapR (vget src) (seq 0 (EntryCount n)).

Definition ValidityMask_new (target : nat) : ValidityMask := mkMask None target.
Definition AllValid (m : ValidityMask) : bool := match validity_mask m with None => true | Some _ => false end.

Definition GetValidityEntry (m : ValidityMask) (entry_idx : nat) : result Z :=
  match validity_mask m with
  | None => Ok MAX_ENTRY
  | Some l => vget l entry_idx
  end.

(** [RowIsValid(entry, idx_in_entry)]. *)
Definition EntryRowIsValid (entry : Z) (idx_in_entry : nat) : bool :=
  negb (Z.land entry (Z.shiftl 1 (Z.of_nat idx_in_entry)) =? 0).

Definition GetEntryIndex (row_idx : nat) : nat * nat := (row_idx / BITS_PER_VALUE, row_idx mod BITS_PER_VALUE)%nat.

Definition EntryWithValidBits (n : nat) : Z :=
  if (n =? 0)%nat then 0 else Z.shiftr MAX_ENTRY (Z.of_nat (BITS_PER_VALUE - n)).

Definition RowIsValidUnsafe (m : ValidityMask) (row_idx : nat) : result bool :=
  let '(entry_idx, idx_in_entry) := GetEntryIndex row_idx in
  entry ← GetValidityEntry m entry_idx; Ok (EntryRowIsValid entry idx_in_entry).

Definition RowIsValid (m : ValidityMask) (row_idx : nat) : result bool :=
  match validity_mask m with
  | None => Ok true
  | Some _ => RowIsValidUnsafe m row_idx
  end.

(** ** Changing single rows *)

Definition null_mask {A} : result A := Throw (UndefinedBehaviour "dereference of a null validity mask").

Definition Initialize (m : ValidityMask) (n : nat) : ValidityMask := mkMask (Some (ValidityData_new n)) n.

Definition Reset (m : ValidityMask) (target : nat) : ValidityMask := mkMask None target.

Definition Copy (m other : ValidityMask) (n : nat) : result ValidityMask :=
  match validity_mask other with
  | None => Ok (mkMask None n)
  | Some l => d ← ValidityData_copy l n; Ok (mkMask (Some d) n)
  end.

Definition EnsureWritable (m : ValidityMask) : ValidityMask :=
  match validity_mask m with None => Initialize m (target_count m) | Some _ => m end.

(** [validity_mask[i] = f(validity_mask[i])]. *)
Definition update_entry (m : ValidityMask) (i : nat) (f : Z → Z) : result ValidityMask :=
  match validity_mask m with
  | None => null_mask
  | Some l => e ← vget l i; l' ← vset l i (f e); Ok (mkMask (Some l') (target_count m))
  end.

Definition SetValidUnsafe (m : ValidityMask) (row_idx : nat) : result ValidityMask :=
  let '(entry_idx, idx_in_entry) := GetEntryIndex row_idx in
  update_entry m entry_idx (λ e, Z.lor e (Z.shiftl 1 (Z.of_nat idx_in_entry))).

Definition SetValid (m : ValidityMask) (row_idx : nat) : result ValidityMask :=
  match validity_mask m with
  | None => Ok m
  | Some _ => SetValidUnsafe m row_idx
  end.

Definition SetInvalidUnsafe (m : ValidityMask) (row_idx : nat) : result ValidityMask :=
  let '(entry_idx, idx_in_entry) := GetEntryIndex row_idx in
  update_entry m entry_idx (λ e, Z.land e (wrapu 64 (Z.lnot (Z.shiftl 1 (Z.of_nat idx_in_entry))))).

Definition SetInvalid (m : ValidityMask) (row_idx : nat) : result ValidityMask :=
  let m := match validity_mask m with None => Initialize m (target_count m) | Some _ => m end in
  SetInvalidUnsafe m row_idx.

Definition SetRow (m : ValidityMask) (row_idx : nat) (valid : bool) : result ValidityMask :=
  if valid then SetValid m row_idx else SetInvalid m row_idx.

(** ** Changing all rows *)

Definition SetAllInvalid (m : ValidityMask) (n : nat) : result ValidityMask :=
  let m := EnsureWritable m in
  if (n =? 0)%nat then Ok m else
  let last_entry_index := (EntryCount n - 1)%nat in
  m ← foldM (λ m i, update_entry m i (λ _, 0)) m (seq 0 last_entry_index);
  let last_entry_bits := (n mod BITS_PER_VALUE)%nat in
  update_entry m last_entry_index
    (λ _, if (last_entry_bits =? 0)%nat then 0 else wrapu 64 (Z.shiftl MAX_ENTRY (Z.of_nat last_entry_bits))).

Definition SetAllValid (m : ValidityMask) (n : nat) : result ValidityMask :=
  let m := EnsureWritable m in
  if (n =? 0)%nat then Ok m else
  let last_entry_index := (EntryCount n - 1)%nat in
  m ← foldM (λ m i, update_entry m i (λ _, MAX_ENTRY)) m (seq 0 last_entry_index);
  let last_entry_bits := (n mod BITS_PER_VALUE)%nat in
  update_entry m last_entry_index
    (λ e, Z.lor e (if (last_entry_bits =? 0)%nat then MAX_ENTRY
                   else wrapu 64 (Z.lnot (wrapu 64 (Z.shiftl MAX_ENTRY (Z.of_nat last_entry_bits)))))).

(** ** Counting *)

(** Kernighan's loop [while (entry) { entry &= (entry - 1); ++valid; }]. *)
Fixpoint count_entry (fuel : nat) (entry : Z) (valid : nat) : result nat :=
  if entry =? 0 then Ok valid else
  match fuel with
  | O => Throw OutOfFuel
  | S f => count_entry f (clear_lowest entry) (S valid)
  end.

(** The loop over the entries of [CountValid]: the last, ragged entry is
    counted row by row, full entries at once, the others by their set bits
    (64 iterations at most). *)
Definition CountValid_step (m : ValidityMask) (n : nat) (valid entry_idx : nat) : result nat :=
  entry ← GetValidityEntry m entry_idx;
  if bool_decide (S entry_idx = EntryCount n) && negb (n mod BITS_PER_VALUE =? 0)%nat then
    Ok (fold_left (λ v i : nat, v + Nat.b2n (EntryRowIsValid entry i))%nat (seq 0 (snd (GetEntryIndex n))) valid)
  else if entry =? MAX_ENTRY then Ok (valid + BITS_PER_VALUE)%nat
  else count_entry 64 entry valid.

Definition CountValid (m : ValidityMask) (n : nat) : result nat :=
  if AllValid m || (n =? 0)%nat then Ok n
  else foldM (CountValid_step m n) O (seq 0 (EntryCount n)).

Definition CheckAllValid (m : ValidityMask) (n : nat) : result bool :=
  c ← CountValid m n; Ok (Nat.eqb c n).

(** [CheckAllValid(to, from)]: the rows are tested from [from] up. *)
Fixpoint check_rows (m : ValidityMask) (rows : list nat) : result bool :=
  match rows with
  | [] => Ok true
  | i :: rows => v ← RowIsValid m i; if (v : bool) then check_rows m rows else Ok false
  end.

Definition CheckAllValidRange (m : ValidityMask) (to from : nat) : result bool :=
  if AllValid m then Ok true else check_rows m (seq from (to - from)).

(** ** Whole-mask operations *)

(** [same]: both masks point to the same buffer. *)
Definition Combine (m other : ValidityMask) (same : bool) (n : nat) : result ValidityMask :=
  match validity_mask other, validity_mask m with
  | None, _ => Ok m
  | Some _, None => Ok other
  | Some od, Some d =>
      if same then Ok m else
      r ← foldM (λ r i, x ← vget d i; y ← vget od i; vset r i (Z.land x y))
                (ValidityData_new n) (seq 0 (EntryCount n));
      Ok (mkMask (Some r) n)
  end.

Definition Resize (m : ValidityMask) (old_size new_size : nat) : result ValidityMask :=
  match validity_mask m with
  | None => Ok (mkMask None new_size)
  | Some l =>
      let new_size_count := EntryCount new_size in
      let old_size_count := EntryCount old_size in
      d ← foldM (λ d i, x ← vget l i; vset d i x) (ValidityData_new new_size) (seq 0 old_size_count);
      d ← foldM (λ d i, vset d i MAX_ENTRY) d (seq old_size_count (new_size_count - old_size_count));
      Ok (mkMask (Some d) new_size)
  end.

Definition IsAligned (n : nat) : bool := (n mod BITS_PER_VALUE =? 0)%nat.

(** The shifting loop of [SliceInPlace]: the target words written so far, the
    source word last read and the position of the next. *)
Record shift_state : Type := mkShift { target_words : list Z; src_entry : Z; source_pos : nat }.

Definition shift_unit (src : list Z) (tgt0 : nat) (head tail : Z) (st : shift_state) (i : nat) : result shift_state :=
  let tgt_entry := Z.shiftr (src_entry st) tail in
  e ← vget src (source_pos st);
  let tgt_entry := Z.lor tgt_entry (wrapu 64 (Z.shiftl e head)) in
  t ← vset (target_words st) (tgt0 + i) tgt_entry;
  Ok (mkShift t e (S (source_pos st))).

(** The last, ragged entry: the bits past the end keep the target's. *)
Definition shift_ragged (src : list Z) (tgt : nat) (head tail : Z) (ragged : nat) (st : shift_state) : result (list Z) :=
  let tgt_entry := Z.shiftr (src_entry st) tail in
  tgt_entry ← (if head <? Z.of_nat ragged
               then e ← vget src (source_pos st); Ok (Z.lor tgt_entry (wrapu 64 (Z.shiftl e head)))
               else Ok tgt_entry);
  let tgt_entry := Z.land tgt_entry (Z.shiftr MAX_ENTRY (Z.of_nat (BITS_PER_VALUE - ragged))) in
  t ← vget (target_words st) tgt;
  let tgt_entry := Z.lor tgt_entry (Z.land t (wrapu 64 (Z.shiftl MAX_ENTRY (Z.of_nat ragged)))) in
  vset (target_words st) tgt tgt_entry.

(** Both offsets aligned: [memcpy] of the entries. *)
Definition slice_entries (tv sv : list Z) (target_offset source_offset n : nat) : result (list Z) :=
  foldM (λ t i, x ← vget sv (EntryCount source_offset + i); vset t (EntryCount target_offset + i) x)
        tv (seq 0 (EntryCount n)).

(** Only the target aligned: the source entries are shifted into place. *)
Definition slice_shifted (tv sv : list Z) (target_offset source_offset n : nat) : result (list Z) :=
  let entire_units := (n / BITS_PER_VALUE)%nat in
  let ragged := (n mod BITS_PER_VALUE)%nat in
  let tail := Z.of_nat (source_offset mod BITS_PER_VALUE) in
  let head := Z.of_nat BITS_PER_VALUE - tail in
  let source_validity := (source_offset / BITS_PER_VALUE)%nat in
  let target_validity := (target_offset / BITS_PER_VALUE)%nat in
  e ← vget sv source_validity;
  st ← foldM (shift_unit sv target_validity head tail) (mkShift tv e (S source_validity)) (seq 0 entire_units);
  if (ragged =? 0)%nat then Ok (target_words st)
  else shift_ragged sv (target_validity + entire_units) head tail ragged st.

Definition SliceInPlace (m other : ValidityMask) (target_offset source_offset n : nat) : result ValidityMask :=
  let m := EnsureWritable m in
  if IsAligned target_offset then
    match validity_mask m, validity_mask other with
    | Some tv, Some sv =>
        t ← (if IsAligned source_offset then slice_entries tv sv target_offset source_offset n
             else slice_shifted tv sv target_offset source_offset n);
        Ok (mkMask (Some t) (target_count m))
    | _, _ => null_mask
    end
  else
    foldM (λ m i, v ← RowIsValid other (source_offset + i); SetRow m (target_offset + i) v) m (seq 0 n).

Definition MaskSlice (m other : ValidityMask) (source_offset n : nat) : result ValidityMask :=
  match validity_mask other with
  | None => Ok (mkMask None (target_count m))
  | Some _ =>
      if (source_offset =? 0)%nat then Ok other
      else SliceInPlace (ValidityMask_new n) other 0 source_offset n
  end.

(** ** Serialization *)

(** The values of [ValiditySerialization]. *)
Definition BITMASK : Z := 0.
Definition VALID_VALUES : Z := 1.
Definition INVALID_VALUES : Z := 2.
Definition UINT16_MAX : Z := 65535.

(** [NumericCast<uint32_t>]. *)
Definition to_uint32 (n : nat) : result Z :=
  if Z.of_nat n <=? UINT32_MAX then Ok (Z.of_nat n)
  else Throw (InternalException "Information loss on integer cast").

Definition write_index (need_u32 : bool) (i : nat) : stream :=
  if need_u32 then write_uint 4 (wrapu 32 (Z.of_nat i)) else write_uint 2 (wrapu 16 (Z.of_nat i)).

Definition read_index (is_u32 : bool) (s : stream) : result (Z * stream) :=
  if is_u32 then read_uint 4 s else read_uint 2 s.

Definition MaskWrite (m : ValidityMask) (n : nat) : result stream :=
  valid_values ← CountValid m n;
  let invalid_values := (n - valid_values)%nat in
  let bitmask_bytes := ValidityMaskSize n in
  let need_u32 := UINT16_MAX <=? Z.of_nat n in
  let bytes_per_value := if need_u32 then 4%nat else 2%nat in
  let valid_value_size := (bytes_per_value * valid_values + 4)%nat in
  let invalid_value_size := (bytes_per_value * invalid_values + 4)%nat in
  if (valid_value_size <? bitmask_bytes)%nat || (invalid_value_size <? bitmask_bytes)%nat then
    let serialize_valid := (valid_value_size <? invalid_value_size)%nat in
    c ← to_uint32 (Nat.min valid_values invalid_values);
    foldM (λ w i, v ← RowIsValid m i;
                  Ok (if Bool.eqb v serialize_valid then w ++ write_index need_u32 i else w))
          (write_uint 1 (if serialize_valid then VALID_VALUES else INVALID_VALUES) ++ write_uint 4 c) (seq 0 n)
  else
    match validity_mask m with
    | Some l => d ← mapR (vget l) (seq 0 (EntryCount n)); Ok (write_uint 1 BITMASK ++ write_words d)
    | None => if (bitmask_bytes =? 0)%nat then Ok (write_uint 1 BITMASK) else null_mask
    end.

Fixpoint read_rows (c : nat) (is_u32 is_valid : bool) (m : ValidityMask) (s : stream) : result (ValidityMask * stream) :=
  match c with
  | O => Ok (m, s)
  | S c => '(index, s) ← read_index is_u32 s;
           m ← SetRow m (Z.to_nat index) is_valid;
           read_rows c is_u32 is_valid m s
  end.

Definition MaskRead (m : ValidityMask) (n : nat) (s : stream) : result (ValidityMask * stream) :=
  let m := Initialize m n in
  '(flag, s) ← read_uint 1 s;
  if flag =? BITMASK then
    '(d, s) ← read_words (EntryCount n) s; Ok (mkMask (Some d) (target_count m), s)
  else
    let is_u32 := UINT16_MAX <=? Z.of_nat n in
    let is_valid := flag =? VALID_VALUES in
    '(serialize_count, s) ← read_uint 4 s;
    m ← (if is_valid then SetAllInvalid m n else Ok m);
    read_rows (Z.to_nat serialize_count) is_u32 is_valid m s.
