(* ===== verification/MaskFacts.v ===== *)
(** Facts on validity masks: the bit algebra of their entries, the meaning of
    reading and setting rows, counting, and the whole-mask operations, each
    described by the rows the mask marks as valid; and the serialized forms of a
    mask: the mask read back marks the same rows as the mask written. *)
From S2P Require Import Prelude Bits SelectionVector ValidityMask.

(** * Bit algebra of 64-bit entries *)

Lemma bit_at_shiftl a (k j : nat) :
  bit_at (Z.shiftl a (Z.of_nat k)) j = bool_decide (k ≤ j)%nat && bit_at a (j - k).
Proof.
  unfold bit_at. case_bool_decide.
  - cbn [andb]. rewrite Z.shiftl_spec by lia. f_equal. lia.
  - by rewrite Z.shiftl_spec_low by lia.
Qed.

Lemma bit_at_shiftr a (k j : nat) : bit_at (Z.shiftr a (Z.of_nat k)) j = bit_at a (j + k).
Proof. unfold bit_at. rewrite Z.shiftr_spec by lia. f_equal. lia. Qed.

Lemma bit_at_wrapu (w : nat) a j : bit_at (wrapu (Z.of_nat w) a) j = bool_decide (j < w)%nat && bit_at a j.
Proof.
  unfold bit_at, wrapu. case_bool_decide.
  - by rewrite Z.mod_pow2_bits_low by lia.
  - by rewrite Z.mod_pow2_bits_high by lia.
Qed.

Lemma bit_at_wrapu64 a j : bit_at (wrapu 64 a) j = bool_decide (j < 64)%nat && bit_at a j.
Proof. apply (bit_at_wrapu 64). Qed.

Lemma bit_at_lnot a j : bit_at (Z.lnot a) j = negb (bit_at a j).
Proof. unfold bit_at. apply Z.lnot_spec. lia. Qed.

Lemma bit_at_MAX j : bit_at MAX_ENTRY j = bool_decide (j < 64)%nat.
Proof.
  unfold bit_at. change MAX_ENTRY with (Z.ones 64). rewrite Z.ones_spec by lia.
  apply bool_decide_ext. lia.
Qed.

Lemma bit_at_0 j : bit_at 0 j = false.
Proof. apply Z.bits_0. Qed.

Lemma bit_at_1 j : bit_at 1 j = bool_decide (j = 0)%nat.
Proof. by destruct j; [|apply Z.bits_above_log2; cbn; lia]. Qed.

Create Rewrite HintDb bits.
#[export] Hint Rewrite bit_at_1 bit_at_lor bit_at_land bit_at_shiftl bit_at_shiftr bit_at_wrapu64 bit_at_lnot
  bit_at_MAX bit_at_0 land_shiftl_bit : bits.

Lemma EntryRowIsValid_bit e i : EntryRowIsValid e i = bit_at e i.
Proof. apply land_shiftl_bit. Qed.
#[export] Hint Rewrite EntryRowIsValid_bit : bits.

(** [bits] computes a bit of an entry and decides the index tests. *)
Ltac bits := autorewrite with bits; repeat case_bool_decide; rewrite ?andb_true_r, ?andb_false_r, ?orb_true_r, ?orb_false_r;
  cbn [negb andb orb]; try done; try lia.

(** The entries are 64-bit words. *)
Definition words_ok (l : list Z) : Prop := Forall (λ w, 0 ≤ w < 2 ^ 64) l.

Lemma MAX_ENTRY_ok : 0 ≤ MAX_ENTRY < 2 ^ 64.
Proof. done. Qed.

Lemma words_ok_insert l i w : words_ok l → 0 ≤ w < 2 ^ 64 → words_ok (<[i := w]> l).
Proof. intros. by apply Forall_insert. Qed.

Lemma words_ok_lookup l i w : words_ok l → l !! i = Some w → 0 ≤ w < 2 ^ 64.
Proof. intros H. apply (proj1 (Forall_lookup _ _) H). Qed.

Lemma words_ok_default l i : words_ok l → 0 ≤ default 0 (l !! i) < 2 ^ 64.
Proof. intros H. destruct (l !! i) eqn:E; [by eapply words_ok_lookup | done]. Qed.

Lemma words_ok_new n : words_ok (ValidityData_new n).
Proof. apply Forall_replicate. done. Qed.

(** Copying the first [k] entries of an array. *)
Lemma mapR_app {A B} (f : A → result B) a b :
  mapR f (a ++ b) = (a' ← mapR f a; b' ← mapR f b; Ok (a' ++ b')).
Proof.
  induction a as [|y a IH]; cbn [app mapR]; [cbn; by destruct (mapR _ b)|].
  destruct (f y); [cbn|done]. rewrite IH. destruct (mapR f a); [cbn | done]. by destruct (mapR f b).
Qed.

Lemma mapR_vget_seq {A} (l : list A) k : (k ≤ length l)%nat → mapR (vget l) (seq 0 k) = Ok (take k l).
Proof.
  induction k as [|k IH]; intros L; [done|].
  destruct (lookup_lt_is_Some_2 l k ltac:(lia)) as [x Hx].
  rewrite seq_S, mapR_app, IH, (take_S_r _ _ x) by (done || lia). cbn [mbind result_bind mapR Nat.add].
  by rewrite (vget_lookup _ _ _ Hx).
Qed.

(** * Rows and entries *)

Lemma EntryCount_covers n : (n ≤ 64 * EntryCount n)%nat.
Proof.
  unfold EntryCount, BITS_PER_VALUE. cbn [Nat.sub].
  pose proof (Nat.div_mod_eq (n + 63) 64). pose proof (Nat.mod_upper_bound (n + 63) 64). lia.
Qed.

Lemma EntryCount_tight n : (64 * EntryCount n < n + 64)%nat.
Proof.
  unfold EntryCount, BITS_PER_VALUE. cbn [Nat.sub]. pose proof (Nat.div_mod_eq (n + 63) 64). lia.
Qed.

Lemma EntryCount_mono a b : (a ≤ b)%nat → (EntryCount a ≤ EntryCount b)%nat.
Proof. intros. pose proof (EntryCount_covers b). pose proof (EntryCount_tight a). lia. Qed.

Lemma row_entry r n : (r < n)%nat → (r / 64 < EntryCount n)%nat.
Proof. intros. apply Nat.Div0.div_lt_upper_bound. pose proof (EntryCount_covers n). lia. Qed.

(** [valid_at m r]: the mask marks row [r] as valid. *)
Definition valid_at (m : ValidityMask) (r : nat) : bool :=
  match validity_mask m with None => true | Some l => mask_bit l r end.

(** The mask has entries for [n] rows. *)
Definition mask_covers (m : ValidityMask) (n : nat) : Prop :=
  match validity_mask m with None => True | Some l => words_ok l ∧ (EntryCount n ≤ length l)%nat end.

Lemma mask_covers_le m n k : mask_covers m n → (k ≤ n)%nat → mask_covers m k.
Proof.
  unfold mask_covers. destruct (validity_mask m); [|done]. intros [W L] H. split; [done|].
  pose proof (EntryCount_mono _ _ H). lia.
Qed.

Lemma covered_entry m n l r :
  mask_covers m n → validity_mask m = Some l → (r < n)%nat → ∃ w, l !! (r / 64)%nat = Some w ∧ 0 ≤ w < 2 ^ 64.
Proof.
  unfold mask_covers. intros H Hl Hr. rewrite Hl in H. destruct H as [W L].
  destruct (lookup_lt_is_Some_2 l (r / 64)) as [w Hw]; [pose proof (row_entry r n); lia|].
  exists w. split; [done | by eapply words_ok_lookup].
Qed.

Lemma RowIsValid_ok m n r : mask_covers m n → (r < n)%nat → RowIsValid m r = Ok (valid_at m r).
Proof.
  intros H Hr. unfold RowIsValid, RowIsValidUnsafe, valid_at, GetEntryIndex, GetValidityEntry, BITS_PER_VALUE.
  destruct (validity_mask m) as [l|] eqn:Hl; [|done].
  destruct (covered_entry _ _ _ r H Hl Hr) as (w & Hw & _).
  rewrite (vget_lookup _ _ w) by done. cbn [mbind result_bind]. unfold mask_bit. rewrite Hw.
  by rewrite EntryRowIsValid_bit.
Qed.

Lemma mask_bit_insert l i w r :
  (i < length l)%nat →
  mask_bit (<[i := w]> l) r = if decide (r / 64 = i)%nat then bit_at w (r mod 64) else mask_bit l r.
Proof.
  intros Hi. unfold mask_bit. case_decide as E.
  - by rewrite E, list_lookup_insert_eq.
  - by rewrite list_lookup_insert_ne.
Qed.

Lemma update_entry_ok l t i f :
  (i < length l)%nat →
  update_entry (mkMask (Some l) t) i f = Ok (mkMask (Some (<[i := f (default 0 (l !! i))]> l)) t).
Proof.
  intros Hi. unfold update_entry. cbn [validity_mask target_count].
  destruct (lookup_lt_is_Some_2 l i Hi) as [w Hw].
  rewrite (vget_lookup _ _ w) by done. cbn [mbind result_bind]. rewrite vset_lt by done. by rewrite Hw.
Qed.

Lemma same_row a b : a = b ↔ (a / 64 = b / 64 ∧ a mod 64 = b mod 64)%nat.
Proof.
  split; [by intros ->|]. intros [Hd Hm].
  rewrite (Nat.div_mod_eq a 64), (Nat.div_mod_eq b 64). lia.
Qed.

(** Setting one row of a mask with data. *)
Lemma SetRow_data l t n r v :
  words_ok l → (EntryCount n ≤ length l)%nat → (r < n)%nat →
  ∃ l', SetRow (mkMask (Some l) t) r v = Ok (mkMask (Some l') t) ∧ words_ok l' ∧ length l' = length l ∧
        ∀ q, mask_bit l' q = if decide (q = r) then v else mask_bit l q.
Proof.
  intros W L Hr. pose proof (row_entry r n Hr) as He.
  assert (Hlt : (r / 64 < length l)%nat) by lia.
  pose proof (words_ok_default l (r / 64) W) as Hw.
  assert (Hm : (r mod 64 < 64)%nat) by (apply Nat.mod_upper_bound; lia).
  assert (Hbit : 0 ≤ Z.shiftl 1 (Z.of_nat (r mod 64)) < 2 ^ 64).
  { rewrite Z.shiftl_1_l. split; [apply Z.pow_nonneg; lia | apply Z.pow_lt_mono_r; lia]. }
  unfold SetRow. destruct v;
    unfold SetValid, SetValidUnsafe, SetInvalid, SetInvalidUnsafe, GetEntryIndex, BITS_PER_VALUE;
    cbn [validity_mask]; rewrite update_entry_ok by done;
    eexists; (split; [reflexivity|]); split_and!;
    try (by rewrite length_insert);
    try (apply words_ok_insert; [done|]);
    try (by apply lor_range); try (apply land_range; [done | apply wrapu_range; lia]);
    intros q; rewrite mask_bit_insert by done; unfold mask_bit.
  - case_decide as E; case_decide as F; subst.
    + bits.
    + rewrite <- E. bits. exfalso. apply F, same_row. lia.
    + done.
    + done.
  - pose proof (Nat.mod_upper_bound q 64 ltac:(lia)).
    case_decide as E; case_decide as F; subst.
    + bits.
    + rewrite <- E. bits. exfalso. apply F, same_row. lia.
    + done.
    + done.
Qed.

Lemma mask_bit_new n r : (r < n)%nat → mask_bit (ValidityData_new n) r = true.
Proof.
  intros Hr. unfold mask_bit, ValidityData_new. rewrite lookup_replicate_2 by (by apply row_entry).
  cbn [default]. pose proof (Nat.mod_upper_bound r 64 ltac:(lia)). bits.
Qed.

(** [Set] marks exactly the given row: every other row keeps its state, also
    when the mask had no data and is allocated first. *)
Lemma SetRow_ok m n r v :
  mask_covers m n → (validity_mask m = None → (n ≤ target_count m)%nat) → (r < n)%nat →
  ∃ m', SetRow m r v = Ok m' ∧ mask_covers m' n ∧ target_count m' = target_count m ∧
        ∀ q, (q < n)%nat → valid_at m' q = if decide (q = r) then v else valid_at m q.
Proof.
  intros Hc Ht Hr. destruct m as [[l|] t]; cbn [validity_mask target_count] in Ht.
  - destruct Hc as [W L]. destruct (SetRow_data l t n r v W L Hr) as (l' & -> & W' & L' & B).
    exists (mkMask (Some l') t). split; [done|]. split_and!; [split; [done | by rewrite L'] | done | intros q _; apply B].
  - specialize (Ht eq_refl). destruct v.
    { eexists. split_and!; [done | done | done |]. intros q _. by case_decide. }
    assert (L : (EntryCount n ≤ length (ValidityData_new t))%nat)
      by (unfold ValidityData_new; rewrite length_replicate; by apply EntryCount_mono).
    destruct (SetRow_data (ValidityData_new t) t n r false (words_ok_new t) L Hr) as (l' & E & W' & L' & B).
    exists (mkMask (Some l') t). split; [exact E|]. split_and!; [split; [done | by rewrite L'] | done |].
    intros q Hq. unfold valid_at. cbn [validity_mask]. rewrite B. case_decide; [done|]. apply mask_bit_new. lia.
Qed.

Lemma Initialize_covers m n : mask_covers (Initialize m n) n.
Proof. split; [apply words_ok_new|]. unfold ValidityData_new. by rewrite length_replicate. Qed.

(** * Counting *)

Lemma count_entry_set_bits fuel e v :
  (length (set_bits (S fuel) e) ≤ fuel)%nat → count_entry fuel e v = Ok (v + length (set_bits (S fuel) e))%nat.
Proof.
  revert e v; induction fuel as [|f IH]; intros e v; cbn [set_bits count_entry]; destruct (e =? 0);
    rewrite ?length_nil, ?Nat.add_0_r; try done; rewrite ?length_cons; intros Hl; [lia|].
  rewrite IH; [f_equal; cbn [set_bits]; lia | cbn [set_bits]; lia].
Qed.

(** Kernighan's loop counts the set bits of an entry. *)
Lemma count_entry_ok e v :
  0 ≤ e < 2 ^ 64 → count_entry 64 e v = Ok (v + length (filter (λ j, bit_at e j) (seq 0 64)))%nat.
Proof.
  intros He. rewrite <- (set_bits_spec 64 e 65) by (done || lia).
  apply count_entry_set_bits, (set_bits_length_bound 64); [done | lia].
Qed.

Lemma fold_count (P : nat → bool) l v :
  fold_left (λ v i : nat, v + Nat.b2n (P i))%nat l v = (v + length (filter (λ i, P i) l))%nat.
Proof.
  revert v; induction l as [|x l IH]; intros v; cbn [fold_left]; [by rewrite filter_nil, Nat.add_0_r|].
  rewrite IH, filter_cons. destruct (P x); cbn [Nat.b2n]; case_decide; cbn [length]; try done; lia.
Qed.

(** The valid rows among [k] rows from [a]. *)
Definition valid_rows (m : ValidityMask) (a k : nat) : nat := length (filter (λ r, valid_at m r) (seq a k)).

Lemma valid_rows_app m a k j : valid_rows m a (k + j) = (valid_rows m a k + valid_rows m (a + k) j)%nat.
Proof. unfold valid_rows. by rewrite filter_seq_app, length_app. Qed.

(** The valid rows of one entry. *)
Lemma valid_rows_entry m l w i k :
  validity_mask m = Some l → l !! i = Some w → (k ≤ 64)%nat →
  valid_rows m (64 * i) k = length (filter (λ j, bit_at w j) (seq 0 k)).
Proof.
  intros Hl Hw Hk. unfold valid_rows. rewrite (filter_seq_shift (λ r, valid_at m r)), length_fmap.
  f_equal. apply filter_ext_in. intros j Hj%elem_of_seq. unfold valid_at. rewrite Hl. unfold mask_bit.
  replace ((64 * i + j) / 64)%nat with i by (apply (Nat.div_unique _ _ _ j); lia).
  replace ((64 * i + j) mod 64)%nat with j by (apply (Nat.mod_unique _ _ i); lia).
  by rewrite Hw.
Qed.

Lemma filter_full e : e = MAX_ENTRY → length (filter (λ j, bit_at e j) (seq 0 64)) = 64%nat.
Proof. intros ->. vm_compute. done. Qed.

(** One iteration of [CountValid] adds the valid rows of its entry. *)
Lemma CountValid_step_ok m n l v i :
  validity_mask m = Some l → mask_covers m n → (i < EntryCount n)%nat →
  CountValid_step m n v i = Ok (v + valid_rows m (64 * i) (Nat.min 64 (n - 64 * i)))%nat.
Proof.
  intros Hl Hc Hi. pose proof (EntryCount_covers n) as E1. pose proof (EntryCount_tight n) as E2.
  unfold mask_covers in Hc. rewrite Hl in Hc. destruct Hc as [W L].
  destruct (lookup_lt_is_Some_2 l i ltac:(lia)) as [w Hw].
  unfold CountValid_step, GetValidityEntry. rewrite Hl, (vget_lookup _ _ w) by done. cbn [mbind result_bind].
  unfold GetEntryIndex, BITS_PER_VALUE. cbn [snd].
  rewrite (valid_rows_entry m l w i) by (done || lia).
  pose proof (Nat.div_mod_eq n 64) as Hd. pose proof (Nat.mod_upper_bound n 64 ltac:(lia)) as Hm.
  destruct (bool_decide (S i = EntryCount n) && negb (n mod 64 =? 0)%nat) eqn:Hlast.
  - apply andb_true_iff in Hlast as [Hlast%bool_decide_eq_true Hr%negb_true_iff%Nat.eqb_neq].
    assert (n / 64 = i)%nat by lia.
    replace (Nat.min 64 (n - 64 * i)) with (n mod 64)%nat by lia.
    rewrite fold_count. do 3 f_equal. apply filter_ext_in. intros j _. by rewrite EntryRowIsValid_bit.
  - assert (Nat.min 64 (n - 64 * i) = 64)%nat as ->.
    { apply andb_false_iff in Hlast as [?%bool_decide_eq_false|?%negb_false_iff%Nat.eqb_eq]; lia. }
    destruct (Z.eqb_spec w MAX_ENTRY) as [Hmax|].
    + rewrite (filter_full w Hmax). done.
    + rewrite count_entry_ok by (by eapply words_ok_lookup). done.
Qed.

Lemma CountValid_loop m n l k :
  validity_mask m = Some l → mask_covers m n → (k ≤ EntryCount n)%nat →
  foldM (CountValid_step m n) O (seq 0 k) = Ok (valid_rows m 0 (Nat.min n (64 * k))).
Proof.
  intros Hl Hc. induction k as [|k IH]; intros Hk.
  - cbn [seq foldM]. by rewrite Nat.mul_0_r, Nat.min_0_r.
  - rewrite seq_S, foldM_app, IH by lia. cbn [mbind result_bind foldM Nat.add].
    rewrite (CountValid_step_ok m n l) by (done || lia). cbn [mbind result_bind]. f_equal.
    pose proof (EntryCount_tight n) as E2.
    replace (Nat.min n (64 * k)) with (64 * k)%nat by lia.
    replace (Nat.min n (64 * S k)) with (64 * k + Nat.min 64 (n - 64 * k))%nat by lia.
    by rewrite valid_rows_app.
Qed.

Lemma CountValid_ok m n : mask_covers m n → CountValid m n = Ok (valid_rows m 0 n).
Proof.
  intros Hc. unfold CountValid, AllValid. destruct (validity_mask m) as [l|] eqn:Hl; cbn [orb].
  - destruct (Nat.eqb_spec n 0) as [->|Hn]; [done|].
    rewrite (CountValid_loop m n l) by done. f_equal. f_equal. pose proof (EntryCount_covers n). lia.
  - f_equal. unfold valid_rows. rewrite filter_all; [by rewrite length_seq|].
    intros r _. unfold valid_at. by rewrite Hl.
Qed.

Lemma valid_rows_le m a k : (valid_rows m a k ≤ k)%nat.
Proof. unfold valid_rows. etrans; [apply length_filter|]. by rewrite length_seq. Qed.

Lemma length_filter_all {A} (P : A → Prop) `{∀ x, Decision (P x)} (l : list A) :
  length (filter P l) = length l ↔ ∀ x, x ∈ l → P x.
Proof.
  split; [|by intros; rewrite filter_all].
  induction l as [|y l IH]; [by intros _ x ?%elem_of_nil|].
  rewrite filter_cons. case_decide as Hy; cbn [length].
  - intros [= Hl] x [->|Hx]%elem_of_cons; [done | by apply IH].
  - pose proof (length_filter P l). lia.
Qed.

(** [CheckAllValid(count)] tells whether every row is valid. *)
Lemma CheckAllValid_ok m n :
  mask_covers m n → ∃ b, CheckAllValid m n = Ok b ∧ (b = true ↔ ∀ r, (r < n)%nat → valid_at m r = true).
Proof.
  intros Hc. unfold CheckAllValid. rewrite CountValid_ok by done. cbn [mbind result_bind].
  eexists. split; [done|]. rewrite Nat.eqb_eq. unfold valid_rows.
  rewrite <- (length_seq n 0) at 2. rewrite length_filter_all. split.
  - intros H r Hr. apply Is_true_true, H, elem_of_seq. lia.
  - intros H r Hr%elem_of_seq. apply Is_true_true, H. lia.
Qed.

(** * Setting all rows *)

(** A loop that stores [w] in the first [k] entries. *)
Lemma fill_entries l t w k :
  (k ≤ length l)%nat →
  foldM (λ m i, update_entry m i (λ _, w)) (mkMask (Some l) t) (seq 0 k) =
  Ok (mkMask (Some (replicate k w ++ drop k l)) t).
Proof.
  induction k as [|k IH]; intros Hk; [done|].
  rewrite seq_S, foldM_app, IH by lia. cbn [mbind result_bind foldM Nat.add].
  rewrite update_entry_ok by (rewrite length_app, length_replicate, length_drop; lia).
  cbn [mbind result_bind]. do 3 f_equal.
  rewrite insert_app_r_alt, length_replicate, Nat.sub_diag by (rewrite length_replicate; lia).
  destruct (lookup_lt_is_Some_2 l k ltac:(lia)) as [x Hx].
  rewrite (drop_S l x k) by done. cbn [insert list_insert].
  by rewrite replicate_S_end, <- app_assoc.
Qed.

Lemma last_entry n : (0 < n)%nat → (0 < EntryCount n)%nat.
Proof. intros. pose proof (EntryCount_covers n). lia. Qed.

(** The entry of the last row, and the rows of that entry. *)
Lemma last_entry_split r n :
  (r < n)%nat →
  (r / 64 < EntryCount n - 1)%nat ∨
  (r / 64 = EntryCount n - 1)%nat ∧ ((n mod 64 = 0)%nat ∨ (r mod 64 < n mod 64)%nat).
Proof.
  intros Hr. pose proof (EntryCount_covers n). pose proof (EntryCount_tight n).
  pose proof (row_entry r n Hr). pose proof (Nat.div_mod_eq n 64). pose proof (Nat.div_mod_eq r 64).
  pose proof (Nat.mod_upper_bound n 64 ltac:(lia)).
  destruct (decide (r / 64 < EntryCount n - 1)%nat); [by left|]. right. split; [lia|].
  destruct (decide (n mod 64 = 0)%nat); [by left|]. right. lia.
Qed.

Lemma SetAllInvalid_ok m n :
  mask_covers m n → (validity_mask m = None → (n ≤ target_count m)%nat) →
  ∃ l, SetAllInvalid m n = Ok (mkMask (Some l) (target_count m)) ∧ words_ok l ∧ (EntryCount n ≤ length l)%nat ∧
       ∀ r, (r < n)%nat → mask_bit l r = false.
Proof.
  intros Hc Ht. unfold SetAllInvalid.
  assert (∃ l, EnsureWritable m = mkMask (Some l) (target_count m) ∧ words_ok l ∧ (EntryCount n ≤ length l)%nat)
    as (l & -> & W & L).
  { unfold EnsureWritable, mask_covers in *. destruct m as [[l|] t]; cbn in *.
    - by exists l.
    - exists (ValidityData_new t). split; [done|]. split; [apply words_ok_new|].
      unfold ValidityData_new. rewrite length_replicate. by apply EntryCount_mono, Ht. }
  destruct (Nat.eqb_spec n 0) as [->|Hn].
  { exists l. split; [done|]. split; [done|]. split; [lia | intros; lia]. }
  pose proof (last_entry n ltac:(lia)). unfold BITS_PER_VALUE.
  rewrite fill_entries by lia. cbn [mbind result_bind].
  assert (Hlen : length (replicate (EntryCount n - 1) 0 ++ drop (EntryCount n - 1) l) = length l)
    by (rewrite length_app, length_replicate, length_drop; lia).
  rewrite update_entry_ok by lia. eexists. split; [done|]. split_and!.
  - apply words_ok_insert.
    + apply Forall_app. split; [by apply Forall_replicate | by apply Forall_drop].
    + destruct (n mod 64 =? 0)%nat; [done | apply wrapu_range; lia].
  - rewrite length_insert. lia.
  - intros r Hr. rewrite mask_bit_insert by lia.
    destruct (last_entry_split r n Hr) as [Hlt|[Heq Hbits]].
    + rewrite decide_False by lia. unfold mask_bit.
      rewrite lookup_app_l, lookup_replicate_2 by (rewrite ?length_replicate; lia). apply bit_at_0.
    + rewrite decide_True by done. destruct Hbits as [->|Hb]; [apply bit_at_0|].
      rewrite (proj2 (Nat.eqb_neq _ _)) by lia. pose proof (Nat.mod_upper_bound r 64 ltac:(lia)). bits.
Qed.

(** Setting a list of rows. *)
Lemma SetRows_ok l t n v L :
  words_ok l → (EntryCount n ≤ length l)%nat → (∀ r, r ∈ L → (r < n)%nat) →
  ∃ l', foldM (λ m r, SetRow m r v) (mkMask (Some l) t) L = Ok (mkMask (Some l') t) ∧ words_ok l' ∧
        length l' = length l ∧ ∀ q, mask_bit l' q = if decide (q ∈ L) then v else mask_bit l q.
Proof.
  revert l; induction L as [|x L IH]; intros l W Hl HL.
  - exists l. split; [done|]. split_and!; [done | done |]. intros q.
    rewrite decide_False by apply not_elem_of_nil. done.
  - destruct (SetRow_data l t n x v) as (l1 & E1 & W1 & L1 & B1); [done | done | apply HL; left |].
    destruct (IH l1) as (l2 & E2 & W2 & L2 & B2); [done | lia | intros r Hr; apply HL; by right |].
    exists l2. cbn [foldM]. rewrite E1. cbn [mbind result_bind]. rewrite E2. split; [done|].
    split; [done|]. split; [lia|]. intros q. rewrite B2, B1.
    destruct (decide (q ∈ L)); destruct (decide (q = x)) as [->|].
    all: try (rewrite decide_True by (by left)); try (rewrite decide_True by (by right)); try done.
    rewrite decide_False; [done|]. intros [?|?]%elem_of_cons; done.
Qed.

(** * Serialization *)

Definition index_fits (u32 : bool) (i : nat) : Prop := Z.of_nat i < if u32 then 2 ^ 32 else 2 ^ 16.

Lemma read_write_index u32 i s : index_fits u32 i → read_index u32 (write_index u32 i ++ s) = Ok (Z.of_nat i, s).
Proof.
  unfold index_fits, read_index, write_index. intros Hi.
  destruct u32; rewrite read_write_uint; rewrite ?wrapu_small by lia; try done; cbn [Z.of_nat Z.mul]; lia.
Qed.

(** The rows written one by one are read back one by one. *)
Lemma read_rows_ok u32 v L s m :
  Forall (index_fits u32) L →
  read_rows (length L) u32 v m (concat (write_index u32 <$> L) ++ s) =
  (m' ← foldM (λ m r, SetRow m r v) m L; Ok (m', s)).
Proof.
  intros HL. revert m. induction HL as [|x L Hx HL IH]; intros m; [done|].
  cbn [length read_rows fmap list_fmap concat foldM]. rewrite <- app_assoc, read_write_index by done.
  cbn [mbind result_bind]. rewrite Nat2Z.id. destruct (SetRow m x v) as [m1|e]; [|done].
  cbn [mbind result_bind]. apply IH.
Qed.

Lemma write_rows_ok m n u32 v w :
  mask_covers m n →
  foldM (λ w i, b ← RowIsValid m i; Ok (if Bool.eqb b v then w ++ write_index u32 i else w)) w (seq 0 n) =
  Ok (w ++ concat (write_index u32 <$> filter (λ r, Bool.eqb (valid_at m r) v) (seq 0 n))).
Proof.
  intros Hc. assert (∀ i, i ∈ seq 0 n → (i < n)%nat) as Hr by (intros i Hi%elem_of_seq; lia).
  revert Hr w. generalize (seq 0 n) as L. induction L as [|x L IH]; intros Hr w.
  - cbn. by rewrite app_nil_r.
  - cbn [foldM]. rewrite (RowIsValid_ok m n) by (done || (apply Hr; left)). cbn [mbind result_bind].
    rewrite IH by (intros i Hi; apply Hr; by right). rewrite filter_cons.
    destruct (Bool.eqb (valid_at m x) v); cbn.
    + by rewrite <- app_assoc.
    + done.
Qed.

Lemma invalid_rows m n :
  length (filter (λ r, Bool.eqb (valid_at m r) false) (seq 0 n)) = (n - valid_rows m 0 n)%nat.
Proof.
  unfold valid_rows. rewrite <- (length_seq n 0) at 2. generalize (seq 0 n) as L.
  induction L as [|x L IH]; [done|]. rewrite !filter_cons.
  pose proof (length_filter (λ r, valid_at m r) L).
  destruct (valid_at m x); cbn [Bool.eqb];
    [rewrite decide_False, decide_True by (done || tauto) | rewrite decide_True, decide_False by (done || tauto)];
    cbn [length]; rewrite IH; lia.
Qed.

Lemma valid_rows_eqb m n :
  length (filter (λ r, Bool.eqb (valid_at m r) true) (seq 0 n)) = valid_rows m 0 n.
Proof.
  unfold valid_rows. f_equal. apply filter_ext_in. intros r _. by destruct (valid_at m r).
Qed.

(** The listed form: the count and the rows are read back onto a mask that
    holds the opposite everywhere. *)
Lemma read_listed m n s m0 :
  mask_covers m n → Z.of_nat n ≤ 2 ^ 32 →
  ∀ v, let L := filter (λ r, Bool.eqb (valid_at m r) v) (seq 0 n) in
  let u32 := UINT16_MAX <=? Z.of_nat n in
  Z.of_nat (length L) < 2 ^ 32 →
  ∃ m', MaskRead m0 n (write_uint 1 (if v then VALID_VALUES else INVALID_VALUES) ++ write_uint 4 (Z.of_nat (length L))
                        ++ concat (write_index u32 <$> L) ++ s) = Ok (m', s) ∧
        mask_covers m' n ∧ target_count m' = n ∧ ∀ r, (r < n)%nat → valid_at m' r = valid_at m r.
Proof.
  intros Hc Hn v L u32 HL.
  assert (HLr : ∀ r, r ∈ L → (r < n)%nat) by (intros r [_ Hr%elem_of_seq]%list_elem_of_filter; lia).
  assert (HLu : Forall (index_fits u32) L).
  { apply Forall_forall. intros r Hr%HLr. unfold index_fits, u32, UINT16_MAX.
    destruct (Z.leb_spec 65535 (Z.of_nat n)); lia. }
  unfold MaskRead. rewrite read_write_uint by (destruct v; done). cbn [mbind result_bind].
  rewrite (proj2 (Z.eqb_neq _ _)) by (by destruct v).
  rewrite read_write_uint by (cbn [Z.of_nat Z.mul Pos.mul Pos.of_succ_nat Pos.succ]; lia). cbn [mbind result_bind].
  replace ((if v then VALID_VALUES else INVALID_VALUES) =? VALID_VALUES) with v by (by destruct v).
  rewrite Nat2Z.id. fold u32.
  assert (∃ l, (if v then SetAllInvalid (Initialize m0 n) n else Ok (Initialize m0 n)) = Ok (mkMask (Some l) n) ∧
               words_ok l ∧ (EntryCount n ≤ length l)%nat ∧ ∀ r, (r < n)%nat → mask_bit l r = negb v)
    as (l & -> & W & Hl & B).
  { destruct v.
    - apply SetAllInvalid_ok; [apply Initialize_covers | done].
    - exists (ValidityData_new n). split; [done|]. destruct (Initialize_covers m0 n) as [W Hl].
      split_and!; [done | done |]. intros r Hr. by apply mask_bit_new. }
  cbn [mbind result_bind]. rewrite read_rows_ok by done.
  destruct (SetRows_ok l n n v L W Hl HLr) as (l' & -> & W' & L' & B'). cbn [mbind result_bind].
  eexists. split; [done|]. unfold mask_covers, valid_at at 1. cbn [validity_mask target_count].
  split_and!; [done | lia | done |]. intros r Hr. rewrite B'. case_decide as Hin.
  - apply list_elem_of_filter in Hin as [Hv _]. by apply Is_true_true, eqb_prop in Hv.
  - rewrite B by done. destruct (Bool.eqb (valid_at m r) v) eqn:Hv.
    + exfalso. apply Hin, list_elem_of_filter. split; [by rewrite Hv | apply elem_of_seq; lia].
    + by destruct (valid_at m r), v.
Qed.

(** The bitmask form. *)
Lemma read_bitmask l t n s m0 :
  words_ok l → (EntryCount n ≤ length l)%nat →
  ∃ d, mapR (vget l) (seq 0 (EntryCount n)) = Ok d ∧ words_ok d ∧ (EntryCount n ≤ length d)%nat ∧
       MaskRead m0 n (write_uint 1 BITMASK ++ write_words d ++ s) = Ok (mkMask (Some d) n, s) ∧
       ∀ r, (r < n)%nat → mask_bit d r = valid_at (mkMask (Some l) t) r.
Proof.
  intros W L. exists (take (EntryCount n) l).
  assert (length (take (EntryCount n) l) = EntryCount n) as Hlen by (rewrite length_take; lia).
  split_and!.
  - by apply mapR_vget_seq.
  - by apply Forall_take.
  - lia.
  - unfold MaskRead. rewrite read_write_uint by done. cbn [mbind result_bind]. rewrite Z.eqb_refl.
    rewrite <- Hlen at 1. rewrite read_write_words by (by apply Forall_take). done.
  - intros r Hr. unfold valid_at. cbn [validity_mask]. unfold mask_bit.
    by rewrite lookup_take_lt by (by apply row_entry).
Qed.

Lemma MaskWrite_roundtrip m n s m0 :
  mask_covers m n → Z.of_nat n ≤ 2 ^ 32 →
  ∃ w m', MaskWrite m n = Ok w ∧ MaskRead m0 n (w ++ s) = Ok (m', s) ∧ mask_covers m' n ∧ target_count m' = n ∧
          ∀ r, (r < n)%nat → valid_at m' r = valid_at m r.
Proof.
  intros Hc Hn. unfold MaskWrite. rewrite CountValid_ok by done. cbn [mbind result_bind].
  pose proof (valid_rows_le m 0 n) as Hv. set (v := valid_rows m 0 n) in *. set (u32 := UINT16_MAX <=? Z.of_nat n).
  set (b := if u32 then 4%nat else 2%nat).
  assert (2 ≤ b)%nat as Hb by (unfold b; destruct u32; lia).
  destruct ((_ <? _)%nat || _) eqn:Hform.
  - set (sv := (b * v + 4 <? b * (n - v) + 4)%nat).
    set (L := filter (λ r, Bool.eqb (valid_at m r) sv) (seq 0 n)).
    assert (HL : Nat.min v (n - v) = length L).
    { unfold L, sv. destruct (Nat.ltb_spec (b * v + 4) (b * (n - v) + 4)) as [H|H].
      - rewrite valid_rows_eqb. fold v. nia.
      - rewrite invalid_rows. fold v. nia. }
    rewrite HL. unfold to_uint32, UINT32_MAX. rewrite (proj2 (Z.leb_le _ _)) by lia. cbn [mbind result_bind].
    rewrite write_rows_ok by done. fold L.
    destruct (read_listed m n s m0 Hc Hn sv) as (m' & E & Hm'); [fold L; lia|]. fold L u32 in E.
    eexists _, m'. split; [done|]. split; [|done]. by rewrite <- !app_assoc.
  - apply orb_false_iff in Hform as [Hf1%Nat.ltb_ge Hf2%Nat.ltb_ge]. unfold ValidityMaskSize in *.
    destruct m as [[l|] t]; cbn [validity_mask].
    + destruct Hc as [W Hl]. destruct (read_bitmask l t n s m0 W Hl) as (d & -> & Wd & Ld & E & B).
      cbn [mbind result_bind]. eexists _, _. split; [done|]. rewrite <- app_assoc. split; [done|].
      by split_and!; [split | |].
    + assert (v = n) as Hvn.
      { unfold v, valid_rows. rewrite filter_all, length_seq by done. done. }
      assert (n = 0)%nat as ->.
      { pose proof (EntryCount_covers n). rewrite Hvn, Nat.sub_diag in Hf2. lia. }
      cbn [Nat.eqb EntryCount Nat.mul Nat.add]. eexists _, _. split; [done|]. split; [done|].
      split; [apply (Initialize_covers m0 0)|]. split; [done | intros; lia].
Qed.
