(* ===== verification/MaskProps.v ===== *)
(** Validity masks: combining, copying, resizing and slicing, described by the
    rows that are valid afterwards, and the properties of masks. *)
From S2P Require Import Prelude Bits SelectionVector ValidityMask MaskFacts.

(** A loop that stores a computed word in each of [k] consecutive entries. *)
Lemma store_entries (g : nat → result Z) (w : nat → Z) (t : list Z) base k :
  (base + k ≤ length t)%nat → (∀ i, (i < k)%nat → g i = Ok (w i)) →
  ∃ t', foldM (λ t i, x ← g i; vset t (base + i) x) t (seq 0 k) = Ok t' ∧ length t' = length t ∧
        ∀ i, t' !! i = if decide (base ≤ i < base + k)%nat then Some (w (i - base)%nat) else t !! i.
Proof.
  intros Hk Hg. induction k as [|k IH].
  - exists t. split; [done|]. split; [done|]. intros i. rewrite decide_False by lia. done.
  - destruct IH as (t' & E & L & H); [lia | intros; apply Hg; lia |].
    exists (<[(base + k)%nat := w k]> t'). rewrite seq_S, foldM_app, E. cbn [mbind result_bind foldM Nat.add].
    rewrite Hg by lia. cbn [mbind result_bind]. rewrite vset_lt by lia. split; [done|].
    rewrite length_insert. split; [done|]. intros i.
    destruct (decide (i = base + k)%nat) as [->|Hi].
    + rewrite list_lookup_insert_eq by lia. rewrite decide_True by lia. do 2 f_equal. lia.
    + rewrite list_lookup_insert_ne by done. rewrite H. destruct (decide (base ≤ i < base + k)%nat).
      * by rewrite decide_True by lia.
      * by rewrite decide_False by lia.
Qed.

Lemma stored_words_ok (t t' : list Z) (w : nat → Z) base k :
  words_ok t → (∀ i, (i < k)%nat → 0 ≤ w i < 2 ^ 64) →
  (∀ i, t' !! i = if decide (base ≤ i < base + k)%nat then Some (w (i - base)%nat) else t !! i) → words_ok t'.
Proof.
  intros W Hw H. apply Forall_lookup. intros i x. rewrite H. case_decide.
  - intros [= <-]. apply Hw. lia.
  - by apply words_ok_lookup.
Qed.

(** A loop over positions from [b] is a loop over offsets. *)
Lemma foldM_shift (t : list Z) w b k :
  foldM (λ d i, vset d i w) t (seq b k) = foldM (λ d i, x ← Ok w; vset d (b + i) x) t (seq 0 k).
Proof.
  replace (seq b k) with (Nat.add b <$> seq 0 k) by (rewrite fmap_add_seq, Nat.add_0_r; done).
  generalize (seq 0 k) as L. intros L; revert t; induction L as [|i L IH]; intros t; [done|].
  cbn [fmap list_fmap foldM mbind result_bind]. destruct (vset t (b + i) w); [apply IH | done].
Qed.

(** * Combine *)

Lemma Combine_ok m other same n :
  mask_covers m n → mask_covers other n → (same = true → validity_mask m = validity_mask other) →
  ∃ m', Combine m other same n = Ok m' ∧ mask_covers m' n ∧
        ∀ r, (r < n)%nat → valid_at m' r = valid_at m r && valid_at other r.
Proof.
  intros Hm Ho Hs. unfold Combine. destruct (validity_mask other) as [od|] eqn:Hod.
  2: { exists m. split; [done|]. split; [done|]. intros r _. unfold valid_at at 3. by rewrite Hod, andb_true_r. }
  destruct (validity_mask m) as [d|] eqn:Hd.
  2: { exists other. split; [done|]. split; [done|]. intros r _. unfold valid_at at 2. by rewrite Hd. }
  destruct same.
  { exists m. split; [done|]. split; [done|]. intros r _. unfold valid_at. rewrite Hod, Hd.
    injection (Hs eq_refl) as ->. by rewrite andb_diag. }
  unfold mask_covers in Hm, Ho. rewrite Hd in Hm. rewrite Hod in Ho. destruct Hm as [Wm Lm], Ho as [Wo Lo].
  set (w i := Z.land (default 0 (d !! i)) (default 0 (od !! i))).
  destruct (store_entries (λ i, x ← vget d i; y ← vget od i; Ok (Z.land x y)) w (ValidityData_new n) 0 (EntryCount n))
    as (t & E & L & H).
  { unfold ValidityData_new. rewrite length_replicate. lia. }
  { intros i Hi. destruct (lookup_lt_is_Some_2 d i) as [x Hx]; [lia|].
    destruct (lookup_lt_is_Some_2 od i) as [y Hy]; [lia|]. unfold w.
    rewrite (vget_lookup _ _ _ Hx). cbn [mbind result_bind]. rewrite (vget_lookup _ _ _ Hy), Hx, Hy. done. }
  assert (foldM (λ r i, x ← vget d i; y ← vget od i; vset r i (Z.land x y)) (ValidityData_new n) (seq 0 (EntryCount n))
          = Ok t) as ->.
  { rewrite <- E. generalize (ValidityData_new n) as r, (seq 0 (EntryCount n)) as l. clear. intros r l.
    revert r. induction l as [|i l IH]; intros r; [done|]. cbn [foldM Nat.add].
    destruct (vget d i); [cbn|done]. destruct (vget od i); [cbn|done]. destruct (vset r i _); [cbn; apply IH | done]. }
  cbn [mbind result_bind]. eexists. split; [done|]. split.
  - split; [|rewrite L; unfold ValidityData_new; by rewrite length_replicate].
    apply (stored_words_ok (ValidityData_new n) t w 0 (EntryCount n)); [apply words_ok_new | | done].
    intros i _. unfold w. apply land_range; [by apply words_ok_default|]. by apply words_ok_default.
  - intros r Hr. unfold valid_at. cbn [validity_mask]. rewrite Hd, Hod. unfold mask_bit.
    rewrite H, decide_True by (pose proof (row_entry r n Hr); lia). cbn [default]. unfold w.
    rewrite Nat.sub_0_r. apply bit_at_land.
Qed.

(** * Slicing *)

Lemma shiftr_word e (k : nat) : 0 ≤ e < 2 ^ 64 → 0 ≤ Z.shiftr e (Z.of_nat k) < 2 ^ 64.
Proof.
  intros He. split; [apply Z.shiftr_nonneg; lia|]. rewrite Z.shiftr_div_pow2 by lia.
  assert (1 ≤ 2 ^ Z.of_nat k) by (apply (Z.pow_le_mono_r 2 0); lia).
  apply Z.div_lt_upper_bound; [lia | nia].
Qed.

(** Two neighbouring source entries shifted into one target entry. *)
Lemma shift_word e0 e1 tail j :
  0 ≤ e0 < 2 ^ 64 → (0 < tail < 64)%nat → (j < 64)%nat →
  bit_at (Z.lor (Z.shiftr e0 (Z.of_nat tail)) (wrapu 64 (Z.shiftl e1 (Z.of_nat 64 - Z.of_nat tail)))) j =
  if decide (j + tail < 64)%nat then bit_at e0 (j + tail) else bit_at e1 (j + tail - 64).
Proof.
  intros He Ht Hj. rewrite <- Nat2Z.inj_sub by lia. bits; case_decide; bits.
  - rewrite (bit_at_small e0 64) by (done || lia). cbn. f_equal. lia.
Qed.

(** Bits of a source read at an unaligned position. *)
Lemma mask_bit_shifted sv p tail i j :
  (0 < tail < 64)%nat → (j < 64)%nat →
  mask_bit sv (64 * p + tail + (64 * i + j)) =
  if decide (j + tail < 64)%nat then bit_at (default 0 (sv !! (p + i)%nat)) (j + tail)
  else bit_at (default 0 (sv !! S (p + i))) (j + tail - 64).
Proof.
  intros Ht Hj. unfold mask_bit. case_decide.
  - replace ((64 * p + tail + (64 * i + j)) / 64)%nat with (p + i)%nat by (apply (Nat.div_unique _ _ _ (j + tail)); lia).
    replace ((64 * p + tail + (64 * i + j)) mod 64)%nat with (j + tail)%nat by (apply (Nat.mod_unique _ _ (p + i)); lia).
    done.
  - replace ((64 * p + tail + (64 * i + j)) / 64)%nat with (S (p + i))
      by (apply (Nat.div_unique _ _ _ (j + tail - 64)); lia).
    replace ((64 * p + tail + (64 * i + j)) mod 64)%nat with (j + tail - 64)%nat
      by (apply (Nat.mod_unique _ _ (S (p + i))); lia).
    done.
Qed.

(** [copied tv sv to from k t]: [t] is [tv] with the [k] rows from [to]
    replaced by the rows of [sv] from [from]. *)
Definition copied (tv sv : list Z) (to from k : nat) (t : list Z) : Prop :=
  words_ok t ∧ length t = length tv ∧
  ∀ q, mask_bit t q = if decide (to ≤ q < to + k)%nat then mask_bit sv (from + (q - to)) else mask_bit tv q.

Lemma copied_0 tv sv to from : words_ok tv → copied tv sv to from 0 tv.
Proof. intros W. split_and!; [done | done |]. intros q. rewrite decide_False by lia. done. Qed.

(** Storing the entry that holds the next [ragged] rows. *)
Lemma copied_entry tv sv tgt from i ragged t w :
  copied tv sv (64 * tgt) from (64 * i) t → (ragged ≤ 64)%nat → (tgt + i < length tv)%nat → 0 ≤ w < 2 ^ 64 →
  (∀ j, (j < 64)%nat → bit_at w j = if decide (j < ragged)%nat then mask_bit sv (from + (64 * i + j))
                                    else mask_bit tv (64 * tgt + (64 * i + j))) →
  copied tv sv (64 * tgt) from (64 * i + ragged) (<[(tgt + i)%nat := w]> t).
Proof.
  intros (W & L & B) Hr Hi Hw Hbits. split; [by apply words_ok_insert|].
  rewrite length_insert. split; [done|]. intros q. rewrite mask_bit_insert by lia.
  pose proof (Nat.div_mod_eq q 64) as Hq. pose proof (Nat.mod_upper_bound q 64 ltac:(lia)) as Hm.
  case_decide as E.
  - rewrite Hbits by done. case_decide.
    + rewrite decide_True by lia. f_equal. lia.
    + rewrite decide_False by lia. f_equal. lia.
  - rewrite B. destruct (decide (64 * tgt ≤ q < 64 * tgt + 64 * i)%nat).
    + by rewrite decide_True by lia.
    + rewrite decide_False; [done|]. intros ?. apply E. lia.
Qed.

Section shift.
(** The unaligned slice: [p] and [tail] locate the source row, [tgt] the
    first target entry. *)
Context (tv sv : list Z) (p tail tgt n : nat).
Context (Wt : words_ok tv) (Ws : words_ok sv) (Htail : (0 < tail < 64)%nat).
Context (Hsrc : (64 * p + tail + n ≤ 64 * length sv)%nat) (Htgt : (64 * tgt + n ≤ 64 * length tv)%nat).

Lemma shift_read i : (64 * i ≤ n)%nat → sv !! (p + i)%nat = Some (default 0 (sv !! (p + i)%nat)).
Proof using Htail Hsrc.
  intros Hi. destruct (lookup_lt_is_Some_2 sv (p + i)) as [x Hx]; [|by rewrite Hx].
  clear Htgt. lia.
Qed.

Lemma shift_units k :
  (64 * k ≤ n)%nat →
  ∃ t, foldM (shift_unit sv tgt (Z.of_nat 64 - Z.of_nat tail) (Z.of_nat tail))
             (mkShift tv (default 0 (sv !! p)) (S p)) (seq 0 k) =
       Ok (mkShift t (default 0 (sv !! (p + k)%nat)) (S (p + k))) ∧
       copied tv sv (64 * tgt) (64 * p + tail) (64 * k) t.
Proof using All.
  induction k as [|k IH]; intros Hk.
  - exists tv. rewrite Nat.add_0_r, Nat.mul_0_r. split; [done | by apply copied_0].
  - destruct IH as (t & E & C); [lia|]. rewrite seq_S, foldM_app, E. cbn [mbind result_bind foldM Nat.add].
    unfold shift_unit. cbn [source_pos src_entry target_words].
    pose proof (shift_read (S k) Hk) as He. rewrite Nat.add_succ_r in He. rewrite (vget_lookup _ _ _ He).
    cbn [mbind result_bind]. assert (length t = length tv) by apply C. rewrite vset_lt by lia. cbn [mbind result_bind].
    eexists. split; [rewrite Nat.add_succ_r; done|].
    replace (64 * S k)%nat with (64 * k + 64)%nat by lia.
    pose proof (words_ok_default sv (p + k) Ws) as H0.
    apply copied_entry; [done | lia | lia | |].
    + apply lor_range; [by apply shiftr_word | apply wrapu_range; lia].
    + intros j Hj. rewrite decide_True by done. rewrite shift_word by done.
      by rewrite mask_bit_shifted by done.
Qed.

Lemma shift_ragged_ok k ragged t :
  (64 * k + ragged = n)%nat → (0 < ragged < 64)%nat → copied tv sv (64 * tgt) (64 * p + tail) (64 * k) t →
  ∃ t', shift_ragged sv (tgt + k) (Z.of_nat 64 - Z.of_nat tail) (Z.of_nat tail) ragged
          (mkShift t (default 0 (sv !! (p + k)%nat)) (S (p + k))) = Ok t' ∧
        copied tv sv (64 * tgt) (64 * p + tail) n t'.
Proof using All.
  intros Hn Hr C. unfold shift_ragged. cbn [src_entry source_pos target_words].
  assert (Lt : length t = length tv) by apply C.
  pose proof (words_ok_default sv (p + k) Ws) as He0.
  set (e0 := default 0 (sv !! (p + k)%nat)) in *. set (e1 := default 0 (sv !! S (p + k))).
  assert (∃ x, (if Z.of_nat 64 - Z.of_nat tail <? Z.of_nat ragged
                then e ← vget sv (S (p + k)); Ok (Z.lor (Z.shiftr e0 (Z.of_nat tail)) (wrapu 64 (Z.shiftl e (Z.of_nat 64 - Z.of_nat tail))))
                else Ok (Z.shiftr e0 (Z.of_nat tail))) = Ok x ∧ 0 ≤ x ∧
               ∀ j, (j < ragged)%nat → bit_at x j = mask_bit sv (64 * p + tail + (64 * k + j))) as (x & Hx & Px & Bx).
  { destruct (Z.ltb_spec (Z.of_nat 64 - Z.of_nat tail) (Z.of_nat ragged)).
    - destruct (lookup_lt_is_Some_2 sv (S (p + k))) as [y Hy]; [lia|].
      rewrite (vget_lookup _ _ y) by done. eexists. split; [done|].
      split; [apply Z.lor_nonneg; split; [apply shiftr_word; done | apply wrapu_range; lia]|].
      intros j Hj.
      rewrite shift_word, mask_bit_shifted by (done || lia).
      by rewrite Hy.
    - eexists. split; [done|]. split; [apply shiftr_word; done|].
      intros j Hj. rewrite mask_bit_shifted, decide_True by lia. apply bit_at_shiftr. }
  rewrite Hx. cbn [mbind result_bind]. destruct (lookup_lt_is_Some_2 t (tgt + k)) as [y Hy]; [lia|].
  rewrite (vget_lookup _ _ y) by done. cbn [mbind result_bind]. rewrite vset_lt by lia.
  eexists. split; [done|]. rewrite <- Hn. apply copied_entry; [done | lia | lia | |].
  - apply lor_range.
    + rewrite Z.land_comm. apply land_range; [|].
      * apply shiftr_word, MAX_ENTRY_ok.
      * done.
    + rewrite Z.land_comm. apply land_range; [apply wrapu_range; lia|].
      assert (words_ok t) as W by apply C. pose proof (words_ok_lookup _ _ _ W Hy). lia.
  - intros j Hj. unfold BITS_PER_VALUE. bits.
    + by rewrite decide_True, Bx by lia.
    + rewrite decide_False by lia. transitivity (mask_bit t (64 * tgt + (64 * k + j))).
      * unfold mask_bit.
        replace ((64 * tgt + (64 * k + j)) / 64)%nat with (tgt + k)%nat by (apply (Nat.div_unique _ _ _ j); lia).
        replace ((64 * tgt + (64 * k + j)) mod 64)%nat with j by (apply (Nat.mod_unique _ _ (tgt + k)); lia).
        by rewrite Hy.
      * destruct C as (_ & _ & ->). by rewrite decide_False by lia.
Qed.
End shift.

(** The aligned slice: whole entries are copied. *)
Lemma aligned_copy tv sv tgt src k :
  words_ok tv → words_ok sv → (src + k ≤ length sv)%nat → (tgt + k ≤ length tv)%nat →
  ∃ t, foldM (λ t i, x ← vget sv (src + i); vset t (tgt + i) x) tv (seq 0 k) = Ok t ∧
       copied tv sv (64 * tgt) (64 * src) (64 * k) t.
Proof.
  intros Wt Ws Hs Ht. set (w i := default 0 (sv !! (src + i)%nat)).
  destruct (store_entries (λ i, vget sv (src + i)) w tv tgt k Ht) as (t & E & L & H).
  { intros i Hi. destruct (lookup_lt_is_Some_2 sv (src + i)) as [x Hx]; [lia|]. unfold w. rewrite Hx.
    by apply vget_lookup. }
  exists t. split; [done|]. split; [|split; [done|]].
  - apply (stored_words_ok tv t w tgt k Wt); [|done]. intros i _. by apply words_ok_default.
  - intros q. pose proof (Nat.div_mod_eq q 64). pose proof (Nat.mod_upper_bound q 64 ltac:(lia)).
    unfold mask_bit at 1. rewrite H. case_decide as D.
    + rewrite decide_True by lia. cbn [default]. unfold w, mask_bit.
      replace ((64 * src + (q - 64 * tgt)) / 64)%nat with (src + (q / 64 - tgt))%nat
        by (apply (Nat.div_unique _ _ _ (q mod 64)); lia).
      replace ((64 * src + (q - 64 * tgt)) mod 64)%nat with (q mod 64)%nat
        by (apply (Nat.mod_unique _ _ (src + (q / 64 - tgt))); lia).
      done.
    + rewrite decide_False; [done|]. intros ?. apply D. lia.
Qed.

(** The row-by-row slice. *)
Lemma copied_rows tv t0 other to from n :
  words_ok tv → (to + n ≤ 64 * length tv)%nat → mask_covers other (from + n) →
  ∃ t, foldM (λ m i, v ← RowIsValid other (from + i); SetRow m (to + i) v) (mkMask (Some tv) t0) (seq 0 n) =
       Ok (mkMask (Some t) t0) ∧ words_ok t ∧ length t = length tv ∧
       ∀ q, mask_bit t q = if decide (to ≤ q < to + n)%nat then valid_at other (from + (q - to)) else mask_bit tv q.
Proof.
  intros W Hn Ho. induction n as [|n IH].
  - exists tv. split; [done|]. split_and!; [done | done |]. intros q. by rewrite decide_False by lia.
  - destruct IH as (t & E & Wt & L & B); [lia | eapply mask_covers_le; [done | lia] |].
    rewrite seq_S, foldM_app, E. cbn [mbind result_bind foldM Nat.add].
    rewrite (RowIsValid_ok other (from + S n)) by (done || lia). cbn [mbind result_bind].
    destruct (SetRow_data t t0 (to + S n) (to + n) (valid_at other (from + n))) as (t' & -> & W' & L' & B');
      [done | | lia |].
    { pose proof (EntryCount_tight (to + S n)). lia. }
    exists t'. split; [done|]. split; [done|]. split; [lia|]. intros q. rewrite B', B.
    destruct (decide (q = to + n)%nat) as [->|].
    + rewrite decide_True by lia. f_equal. lia.
    + destruct (decide (to ≤ q < to + n)%nat); [by rewrite decide_True by lia | by rewrite decide_False by lia].
Qed.

(** The rows [SliceInPlace] may change: the rows of the slice, and, when both
    offsets are aligned, the rest of the last entry. *)
Definition slice_reach (to from n : nat) : nat :=
  if IsAligned from && IsAligned to then (64 * EntryCount n)%nat else n.

Lemma IsAligned_mul n : IsAligned n = true → (n = 64 * (n / 64))%nat ∧ EntryCount n = (n / 64)%nat.
Proof.
  unfold IsAligned, BITS_PER_VALUE. intros H%Nat.eqb_eq. pose proof (Nat.div_mod_eq n 64).
  pose proof (EntryCount_covers n). pose proof (EntryCount_tight n). lia.
Qed.

Lemma slice_entries_ok tv sv to from n :
  words_ok tv → words_ok sv → IsAligned to = true → IsAligned from = true →
  (to + n ≤ 64 * length tv)%nat → (from + n ≤ 64 * length sv)%nat →
  ∃ t, slice_entries tv sv to from n = Ok t ∧ copied tv sv to from (64 * EntryCount n) t.
Proof.
  intros Wt Ws Hto Hfrom Lt Ls. pose proof (EntryCount_tight n).
  destruct (IsAligned_mul to Hto) as [To To'], (IsAligned_mul from Hfrom) as [Hf Hf'].
  unfold slice_entries. rewrite Hf', To'.
  destruct (aligned_copy tv sv (to / 64) (from / 64) (EntryCount n)) as (t & -> & C); [done | done | lia | lia |].
  exists t. split; [done|]. by rewrite <- To, <- Hf in C.
Qed.

Lemma slice_shifted_ok tv sv to from n :
  words_ok tv → words_ok sv → IsAligned to = true → IsAligned from = false →
  (to + n ≤ 64 * length tv)%nat → (from + n ≤ 64 * length sv)%nat →
  ∃ t, slice_shifted tv sv to from n = Ok t ∧ copied tv sv to from n t.
Proof.
  intros Wt Ws Hto Hfrom Lt Ls. destruct (IsAligned_mul to Hto) as [To _].
  apply Nat.eqb_neq in Hfrom. unfold slice_shifted, BITS_PER_VALUE in *.
  pose proof (Nat.div_mod_eq from 64) as Hf. pose proof (Nat.mod_upper_bound from 64 ltac:(lia)).
  pose proof (Nat.div_mod_eq n 64) as Hn. pose proof (Nat.mod_upper_bound n 64 ltac:(lia)).
  assert (Htail : (0 < from mod 64 < 64)%nat) by lia.
  assert (Hs : (64 * (from / 64) + from mod 64 + n ≤ 64 * length sv)%nat) by lia.
  assert (Ht : (64 * (to / 64) + n ≤ 64 * length tv)%nat) by lia.
  pose proof (shift_read sv (from / 64) (from mod 64) n Htail Hs 0 ltac:(lia)) as Hr. rewrite Nat.add_0_r in Hr.
  rewrite (vget_lookup _ _ _ Hr). cbn [mbind result_bind].
  destruct (shift_units tv sv (from / 64) (from mod 64) (to / 64) n Wt Ws Htail Hs Ht (n / 64) ltac:(lia))
    as (t & -> & C). cbn [mbind result_bind].
  destruct (Nat.eqb_spec (n mod 64) 0) as [Hz|Hz].
  - exists t. split; [done|]. rewrite <- To, <- Hf in C. by replace n with (64 * (n / 64))%nat at 1 by lia.
  - destruct (shift_ragged_ok tv sv (from / 64) (from mod 64) (to / 64) n Wt Ws Htail Hs Ht (n / 64) (n mod 64) t)
      as (t' & -> & C'); [lia | lia | done |].
    exists t'. split; [done|]. by rewrite <- To, <- Hf in C'.
Qed.

(** The result of a slice into a mask with data. *)
Definition sliced (tv : list Z) (other : ValidityMask) (to from n : nat) (t : list Z) : Prop :=
  words_ok t ∧ length t = length tv ∧
  (∀ q, (to ≤ q < to + n)%nat → mask_bit t q = valid_at other (from + (q - to))) ∧
  (∀ q, (q < to ∨ to + slice_reach to from n ≤ q)%nat → mask_bit t q = mask_bit tv q).

Lemma copied_sliced tv other sv to from n k t :
  validity_mask other = Some sv → copied tv sv to from k t → (n ≤ k)%nat → slice_reach to from n = k →
  sliced tv other to from n t.
Proof.
  intros Hsv (W & L & B) Hk Hreach. split_and!; [done | done | |]; intros q Hq; rewrite B.
  - rewrite decide_True by lia. unfold valid_at. by rewrite Hsv.
  - by rewrite decide_False by lia.
Qed.

Lemma SliceInPlace_ok tv t0 other to from n :
  words_ok tv → (EntryCount (to + n) ≤ length tv)%nat → mask_covers other (from + n) →
  (IsAligned to = true → validity_mask other ≠ None) →
  ∃ t, SliceInPlace (mkMask (Some tv) t0) other to from n = Ok (mkMask (Some t) t0) ∧ sliced tv other to from n t.
Proof.
  intros W Lt Ho Hnull. unfold SliceInPlace, EnsureWritable. cbn [validity_mask target_count].
  pose proof (EntryCount_covers (to + n)). pose proof (EntryCount_covers (from + n)). pose proof (EntryCount_covers n).
  destruct (IsAligned to) eqn:Hto.
  - destruct (validity_mask other) as [sv|] eqn:Hsv; [|by specialize (Hnull eq_refl)].
    unfold mask_covers in Ho. rewrite Hsv in Ho. destruct Ho as [Ws Ls].
    destruct (IsAligned from) eqn:Hfrom.
    + destruct (slice_entries_ok tv sv to from n) as (t & -> & C); [done | done | done | done | lia | lia |].
      exists t. split; [done|]. eapply copied_sliced; [done | done | lia |]. unfold slice_reach. by rewrite Hfrom, Hto.
    + destruct (slice_shifted_ok tv sv to from n) as (t & -> & C); [done | done | done | done | lia | lia |].
      exists t. split; [done|]. eapply copied_sliced; [done | done | lia |]. unfold slice_reach. by rewrite Hfrom.
  - destruct (copied_rows tv t0 other to from n W ltac:(lia) Ho) as (t & -> & Wt & L & B).
    exists t. split; [done|]. unfold sliced, slice_reach. rewrite Hto, andb_false_r.
    split_and!; [done | done | |]; intros q Hq; rewrite B.
    + by rewrite decide_True by lia.
    + by rewrite decide_False by lia.
Qed.

Lemma MaskSlice_ok m other from n :
  mask_covers other (from + n) →
  ∃ m', MaskSlice m other from n = Ok m' ∧ ∀ r, (r < n)%nat → valid_at m' r = valid_at other (from + r).
Proof.
  intros Ho. unfold MaskSlice. destruct (validity_mask other) as [sv|] eqn:Hsv.
  2: { eexists. split; [done|]. intros r Hr. unfold valid_at. by rewrite Hsv. }
  destruct (Nat.eqb_spec from 0) as [->|]; [by exists other|].
  destruct (SliceInPlace_ok (ValidityData_new n) n other 0 from n) as (t & E & _ & _ & B & _);
    [apply words_ok_new | unfold ValidityData_new; by rewrite length_replicate | done | by rewrite Hsv |].
  exists (mkMask (Some t) n). split; [exact E|]. intros r Hr. unfold valid_at at 1. cbn [validity_mask].
  rewrite B by lia. f_equal. lia.
Qed.

(** * Copy and Resize *)

Lemma Copy_ok m other n :
  mask_covers other n →
  ∃ m', Copy m other n = Ok m' ∧ mask_covers m' n ∧ target_count m' = n ∧
        ∀ r, (r < n)%nat → valid_at m' r = valid_at other r.
Proof.
  intros Ho. unfold Copy, ValidityData_copy. destruct other as [[l|] t]; cbn [validity_mask].
  2: { by eexists. }
  destruct Ho as [W L]. rewrite mapR_vget_seq by done. cbn [mbind result_bind].
  eexists. split; [done|]. split; [split; [by apply Forall_take | rewrite length_take; lia]|]. split; [done|].
  intros r Hr. unfold valid_at, mask_bit. cbn [validity_mask].
  by rewrite lookup_take_lt by (by apply row_entry).
Qed.

Lemma Resize_ok m old new :
  mask_covers m old → (old ≤ new)%nat →
  ∃ m', Resize m old new = Ok m' ∧ mask_covers m' new ∧ target_count m' = new ∧
        ∀ r, (r < old)%nat → valid_at m' r = valid_at m r.
Proof.
  intros Hm Hle. unfold Resize. destruct m as [[l|] t]; cbn [validity_mask].
  2: { by eexists. }
  destruct Hm as [W L]. pose proof (EntryCount_mono old new Hle). set (k := EntryCount old) in *.
  assert (Ln : length (ValidityData_new new) = EntryCount new) by (unfold ValidityData_new; by rewrite length_replicate).
  destruct (store_entries (vget l) (λ i, default 0 (l !! i)) (ValidityData_new new) 0 k) as (d & E & Ld & Hd); [lia | |].
  { intros i Hi. destruct (lookup_lt_is_Some_2 l i) as [x Hx]; [lia|]. rewrite Hx. by apply vget_lookup. }
  cbn [Nat.add] in E. rewrite E. cbn [mbind result_bind].
  destruct (store_entries (λ _, Ok MAX_ENTRY) (λ _, MAX_ENTRY) d k (EntryCount new - k)) as (d' & E' & Ld' & Hd');
    [lia | done |].
  rewrite foldM_shift, E'. cbn [mbind result_bind]. eexists. split; [done|].
  split; [split; [|lia]|split; [done|]].
  - apply (stored_words_ok d d' (λ _, MAX_ENTRY) k (EntryCount new - k)); [|done|exact Hd'].
    apply (stored_words_ok (ValidityData_new new) d (λ i, default 0 (l !! i)) 0 k); [apply words_ok_new | |exact Hd].
    intros i _. by apply words_ok_default.
  - intros r Hr. unfold valid_at, mask_bit. cbn [validity_mask].
    pose proof (row_entry r old Hr). fold k in H0. rewrite Hd', decide_False by lia.
    rewrite Hd, decide_True by lia. by rewrite Nat.sub_0_r.
Qed.

(** * Properties *)

(** A mask of 100 rows with two NULLs, across the entry boundary. *)
Definition sample_mask : ValidityMask := mkMask (Some [MAX_ENTRY - 2 ^ 63; MAX_ENTRY - 1]) 100.

Lemma sample_covers n : (n ≤ 128)%nat → mask_covers sample_mask n.
Proof.
  intros Hn. split.
  - repeat constructor; done.
  - cbn [length]. pose proof (EntryCount_tight n). lia.
Qed.

(** [CountValid] returns the number of valid rows: full entries, partial
    entries (Kernighan's loop) and the ragged last entry together. *)
Theorem count_valid_exact m n :
  mask_covers m n → CountValid m n = Ok (length (filter (λ r, valid_at m r) (seq 0 n))).
Proof. apply CountValid_ok. Qed.


(** [SliceInPlace] copies the rows of the slice, entry by entry, shifted
    across entries or row by row, and leaves the rows outside its reach as
    they were; its reach is the slice itself unless both offsets are aligned,
    where it extends to the end of the last entry. *)
Theorem slice_in_place_exact tv t0 other to from n :
  words_ok tv → (EntryCount (to + n) ≤ length tv)%nat → mask_covers other (from + n) →
  (IsAligned to = true → validity_mask other ≠ None) →
  ∃ t, SliceInPlace (mkMask (Some tv) t0) other to from n = Ok (mkMask (Some t) t0) ∧
       (∀ q, (to ≤ q < to + n)%nat → mask_bit t q = valid_at other (from + (q - to))) ∧
       (∀ q, (q < to ∨ to + slice_reach to from n ≤ q)%nat → mask_bit t q = mask_bit tv q).
Proof.
  intros W L Ho Hn. destruct (SliceInPlace_ok tv t0 other to from n W L Ho Hn) as (t & E & _ & _ & B).
  by exists t.
Qed.


(** C39. A validity mask read back from its serialized form (bitmask, list of
    valid rows or list of invalid rows, with 16-bit or 32-bit indices) marks
    the same rows, and the reader stops at the end of the mask. *)
Theorem mask_write_read_roundtrip m n s m0 :
  mask_covers m n → Z.of_nat n ≤ 2 ^ 32 →
  ∃ w m', MaskWrite m n = Ok w ∧ MaskRead m0 n (w ++ s) = Ok (m', s) ∧
          ∀ r, (r < n)%nat → valid_at m' r = valid_at m r.
Proof.
  intros Hc Hn. destruct (MaskWrite_roundtrip m n s m0 Hc Hn) as (w & m' & Hw & Hr & _ & _ & B).
  by exists w, m'.
Qed.

Lemma mask_write_read_roundtrip_witness : ∃ w m', MaskWrite sample_mask 100 = Ok w ∧
  MaskRead (ValidityMask_new 0) 100 (w ++ [1; 2]) = Ok (m', [1; 2]) ∧
  ∀ r, (r < 100)%nat → valid_at m' r = valid_at sample_mask r.
Proof. apply mask_write_read_roundtrip; [apply sample_covers; lia | lia]. Defined.

(** Slicing 3 rows at aligned offsets overwrites the whole entry: row 10 of
    the target, outside the slice, changes from NULL to valid. *)
Lemma aligned_slice_overwrites_entry :
  ∃ m', SliceInPlace (mkMask (Some [0]) 64) (mkMask (Some [MAX_ENTRY]) 64) 0 0 3 = Ok m' ∧
        valid_at (mkMask (Some [0]) 64) 10 = false ∧ valid_at m' 10 = true.
Proof. eexists. split_and!; reflexivity. Qed.

(** The shifted slice of the same target keeps row 10. *)
Lemma shifted_slice_keeps_entry :
  ∃ m', SliceInPlace (mkMask (Some [0]) 64) (mkMask (Some [MAX_ENTRY]) 64) 0 1 3 = Ok m' ∧ valid_at m' 10 = false.
Proof. eexists. split; reflexivity. Qed.
