(* ===== verification/ChunkInfo.v ===== *)
(** Version information of the rows of a vector (chunk_info.cpp): which
    transaction inserted and which deleted each row, kept as one pair of ids
    for the whole vector ([ChunkConstantInfo]) or per row ([ChunkVectorInfo]),
    and the serialized form of the deletions. *)
From S2P Require Import Prelude Bits SelectionVector ValidityMask.

(** * Transaction ids (constants.cpp) *)

Definition TRANSACTION_ID_START : Z := 4611686018427388000.
Definition NOT_DELETED_ID : Z := UINT64_MAX - 1.
Definition INVALID_INDEX : Z := UINT64_MAX.

Record TransactionData : Type := mkTransaction { transaction_id : Z; start_time : Z }.

(** The operators the scans are instantiated with: which inserted and which
    deleted ids make a row part of the result. *)
Record VersionOperator : Type := mkOperator {
  UseInsertedVersion : Z → Z → Z → bool;
  UseDeletedVersion : Z → Z → Z → bool
}.

Definition transaction_inserted (start_time transaction_id id : Z) : bool :=
  (id <? start_time) || (id =? transaction_id).

Definition TransactionVersionOperator : VersionOperator :=
  mkOperator transaction_inserted (λ s t id, negb (transaction_inserted s t id)).

Definition CommittedVersionOperator : VersionOperator :=
  mkOperator (λ _ _ _, true)
    (λ min_start_time _ id, (min_start_time <=? id) && (id <? TRANSACTION_ID_START) || (id =? NOT_DELETED_ID)).

Definition UseVersion (t : TransactionData) (id : Z) : bool :=
  UseInsertedVersion TransactionVersionOperator (start_time t) (transaction_id t) id.

(** * The two kinds of version information *)

Record ChunkConstantInfo : Type := mkConstantInfo {
  const_start : Z; const_insert_id : Z; const_delete_id : Z
}.

Record ChunkVectorInfo : Type := mkVectorInfo {
  vec_start : Z;
  inserted : list Z; insert_id : Z; same_inserted_id : bool;
  deleted : list Z; any_deleted : bool
}.

Inductive ChunkInfo : Type :=
  | CONSTANT_INFO (info : ChunkConstantInfo)
  | VECTOR_INFO (info : ChunkVectorInfo).

Definition ChunkConstantInfo_new (start : Z) : ChunkConstantInfo := mkConstantInfo start 0 NOT_DELETED_ID.

Definition ChunkVectorInfo_new (start : Z) : ChunkVectorInfo :=
  mkVectorInfo start (replicate STANDARD_VECTOR_SIZE 0) 0 true (replicate STANDARD_VECTOR_SIZE NOT_DELETED_ID) false.

Definition set_inserted (v : ChunkVectorInfo) (l : list Z) (id : Z) (same : bool) : ChunkVectorInfo :=
  mkVectorInfo (vec_start v) l id same (deleted v) (any_deleted v).
Definition set_deleted (v : ChunkVectorInfo) (l : list Z) (any : bool) : ChunkVectorInfo :=
  mkVectorInfo (vec_start v) (inserted v) (insert_id v) (same_inserted_id v) l any.

(** * Constant info *)

(** [TemplatedGetSelVector]: the selection vector is left alone. *)
Definition Constant_GetSelVector (op : VersionOperator) (c : ChunkConstantInfo) (st tid : Z)
    (sel : SelectionVector) (max_count : nat) : result (SelectionVector * nat) :=
  if UseInsertedVersion op st tid (const_insert_id c) && UseDeletedVersion op st tid (const_delete_id c)
  then Ok (sel, max_count) else Ok (sel, O).

Definition Constant_Fetch (t : TransactionData) (c : ChunkConstantInfo) (row : nat) : bool :=
  UseVersion t (const_insert_id c) && negb (UseVersion t (const_delete_id c)).

Definition Constant_CommitAppend (commit_id : Z) (c : ChunkConstantInfo) : ChunkConstantInfo :=
  mkConstantInfo (const_start c) commit_id (const_delete_id c).

Definition Constant_HasDeletes (c : ChunkConstantInfo) : bool :=
  (TRANSACTION_ID_START <=? const_insert_id c) || (const_delete_id c <? TRANSACTION_ID_START).

Definition Constant_GetCommittedDeletedCount (c : ChunkConstantInfo) (max_count : nat) : nat :=
  if const_delete_id c <? TRANSACTION_ID_START then max_count else O.

(** * Vector info *)

(** The loop [for i < max_count: if (test(i)) sel_vector.set_index(count++, i)]. *)
Definition select_rows (test : nat → result bool) (sel : SelectionVector) (max_count : nat)
    : result (SelectionVector * nat) :=
  foldM (λ st i, b ← test i; if (b : bool) then sel_push st (Z.of_nat i) else Ok st) (sel, O) (seq 0 max_count).

Definition Vector_GetSelVector (op : VersionOperator) (v : ChunkVectorInfo) (st tid : Z)
    (sel : SelectionVector) (max_count : nat) : result (SelectionVector * nat) :=
  if same_inserted_id v && negb (any_deleted v) then
    if UseInsertedVersion op st tid (insert_id v) then Ok (sel, max_count) else Ok (sel, O)
  else if same_inserted_id v then
    if negb (UseInsertedVersion op st tid (insert_id v)) then Ok (sel, O)
    else select_rows (λ i, d ← vget (deleted v) i; Ok (UseDeletedVersion op st tid d)) sel max_count
  else if negb (any_deleted v) then
    select_rows (λ i, x ← vget (inserted v) i; Ok (UseInsertedVersion op st tid x)) sel max_count
  else
    select_rows (λ i, x ← vget (inserted v) i;
                      if UseInsertedVersion op st tid x
                      then d ← vget (deleted v) i; Ok (UseDeletedVersion op st tid d) else Ok false) sel max_count.

Definition Vector_Fetch (t : TransactionData) (v : ChunkVectorInfo) (row : nat) : result bool :=
  x ← vget (inserted v) row;
  if UseVersion t x then d ← vget (deleted v) row; Ok (negb (UseVersion t d)) else Ok false.

(** [Delete] writes to [deleted] and to the [rows] array of the caller, and
    keeps what it wrote when it throws. *)
Record delete_state : Type := mkDelete { del_deleted : list Z; del_rows : list nat; deleted_tuples : nat }.

Definition delete_step (transaction_id : Z) (s : delete_state) (i : nat) : result delete_state :=
  r ← vget (del_rows s) i;
  d ← vget (del_deleted s) r;
  if d =? transaction_id then Ok s
  else if negb (d =? NOT_DELETED_ID) then Throw (TransactionException "Conflict on tuple deletion!")
  else l ← vset (del_deleted s) r transaction_id;
       rows ← vset (del_rows s) (deleted_tuples s) r;
       Ok (mkDelete l rows (S (deleted_tuples s))).

Fixpoint delete_loop (transaction_id : Z) (s : delete_state) (todo : list nat) : delete_state * result nat :=
  match todo with
  | [] => (s, Ok (deleted_tuples s))
  | i :: rest => match delete_step transaction_id s i with
                | Ok s' => delete_loop transaction_id s' rest
                | Throw e => (s, Throw e)
                end
  end.

(** The info and the rows after the call, and its outcome. *)
Definition Delete (v : ChunkVectorInfo) (transaction_id : Z) (rows : list nat) (n : nat)
    : ChunkVectorInfo * list nat * result nat :=
  let '(s, r) := delete_loop transaction_id (mkDelete (deleted v) rows O) (seq 0 n) in
  (set_deleted v (del_deleted s) true, del_rows s, r).

(** A delete recorded in the undo buffer (delete_info.hpp). *)
Record DeleteInfo : Type := mkDeleteInfo {
  delete_vector_idx : nat; delete_count : nat; base_row : Z; is_consecutive : bool; delete_rows : list nat
}.

Definition GetRows (info : DeleteInfo) : result (list nat) :=
  if is_consecutive info
  then Throw (InternalException "DeleteInfo is consecutive - rows are not accessible")
  else Ok (delete_rows info).

Definition CommitDelete (v : ChunkVectorInfo) (commit_id : Z) (info : DeleteInfo) : result ChunkVectorInfo :=
  l ← (if is_consecutive info
       then foldM (λ l i, vset l i commit_id) (deleted v) (seq 0 (delete_count info))
       else rows ← GetRows info;
            foldM (λ l i, r ← vget rows i; vset l r commit_id) (deleted v) (seq 0 (delete_count info)));
  Ok (set_deleted v l (any_deleted v)).

Definition Append (v : ChunkVectorInfo) (start end_ : nat) (commit_id : Z) : result ChunkVectorInfo :=
  let '(id, same) :=
    if (start =? 0)%nat then (commit_id, same_inserted_id v)
    else if negb (insert_id v =? commit_id) then (NOT_DELETED_ID, false)
    else (insert_id v, same_inserted_id v) in
  l ← foldM (λ l i, vset l i commit_id) (inserted v) (seq start (end_ - start));
  Ok (set_inserted v l id same).

Definition Vector_CommitAppend (commit_id : Z) (start end_ : nat) (v : ChunkVectorInfo) : result ChunkVectorInfo :=
  let id := if same_inserted_id v then commit_id else insert_id v in
  l ← foldM (λ l i, vset l i commit_id) (inserted v) (seq start (end_ - start));
  Ok (set_inserted v l id (same_inserted_id v)).

Definition Vector_GetCommittedDeletedCount (v : ChunkVectorInfo) (max_count : nat) : result nat :=
  if negb (any_deleted v) then Ok O else
  foldM (λ c i, d ← vget (deleted v) i; Ok (if d <? TRANSACTION_ID_START then S c else c)) O (seq 0 max_count).

(** * Virtual dispatch *)

Definition GetSelVector (t : TransactionData) (i : ChunkInfo) (sel : SelectionVector) (max_count : nat)
    : result (SelectionVector * nat) :=
  match i with
  | CONSTANT_INFO c => Constant_GetSelVector TransactionVersionOperator c (start_time t) (transaction_id t) sel max_count
  | VECTOR_INFO v => Vector_GetSelVector TransactionVersionOperator v (start_time t) (transaction_id t) sel max_count
  end.

Definition GetCommittedSelVector (min_start_id min_transaction_id : Z) (i : ChunkInfo) (sel : SelectionVector)
    (max_count : nat) : result (SelectionVector * nat) :=
  match i with
  | CONSTANT_INFO c => Constant_GetSelVector CommittedVersionOperator c min_start_id min_transaction_id sel max_count
  | VECTOR_INFO v => Vector_GetSelVector CommittedVersionOperator v min_start_id min_transaction_id sel max_count
  end.

Definition Fetch (t : TransactionData) (i : ChunkInfo) (row : nat) : result bool :=
  match i with
  | CONSTANT_INFO c => Ok (Constant_Fetch t c row)
  | VECTOR_INFO v => Vector_Fetch t v row
  end.

Definition CommitAppend (commit_id : Z) (start end_ : nat) (i : ChunkInfo) : result ChunkInfo :=
  match i with
  | CONSTANT_INFO c => Ok (CONSTANT_INFO (Constant_CommitAppend commit_id c))
  | VECTOR_INFO v => v' ← Vector_CommitAppend commit_id start end_ v; Ok (VECTOR_INFO v')
  end.

Definition HasDeletes (i : ChunkInfo) : bool :=
  match i with CONSTANT_INFO c => Constant_HasDeletes c | VECTOR_INFO v => any_deleted v end.

Definition GetCommittedDeletedCount (i : ChunkInfo) (max_count : nat) : result nat :=
  match i with
  | CONSTANT_INFO c => Ok (Constant_GetCommittedDeletedCount c max_count)
  | VECTOR_INFO v => Vector_GetCommittedDeletedCount v max_count
  end.

(** * Serialization *)

(** The values of [ChunkInfoType]. *)
Definition CONSTANT_INFO_TAG : Z := 0.
Definition VECTOR_INFO_TAG : Z := 1.
Definition EMPTY_INFO_TAG : Z := 2.

Definition Constant_Write (c : ChunkConstantInfo) : stream :=
  write_uint 1 CONSTANT_INFO_TAG ++ write_uint 8 (const_start c).

(** The mask is valid at the deleted rows. *)
Definition Vector_Write (v : ChunkVectorInfo) : result stream :=
  '(sel, n) ← Vector_GetSelVector TransactionVersionOperator v (TRANSACTION_ID_START - 1) INVALID_INDEX
                (SelectionVector_Initialize STANDARD_VECTOR_SIZE) STANDARD_VECTOR_SIZE;
  if (n =? STANDARD_VECTOR_SIZE)%nat then Ok (write_uint 1 EMPTY_INFO_TAG)
  else if (n =? 0)%nat then Ok (write_uint 1 CONSTANT_INFO_TAG ++ write_uint 8 (vec_start v))
  else
    m ← foldM (λ m i, r ← get_index sel i; SetInvalid m (Z.to_nat r))
              (Initialize (ValidityMask_new STANDARD_VECTOR_SIZE) STANDARD_VECTOR_SIZE) (seq 0 n);
    w ← MaskWrite m STANDARD_VECTOR_SIZE;
    Ok (write_uint 1 VECTOR_INFO_TAG ++ write_uint 8 (vec_start v) ++ w).

Definition Write (i : ChunkInfo) : result stream :=
  match i with CONSTANT_INFO c => Ok (Constant_Write c) | VECTOR_INFO v => Vector_Write v end.

Definition Constant_Read (s : stream) : result (option ChunkInfo * stream) :=
  '(start, s) ← read_uint 8 s; Ok (Some (CONSTANT_INFO (mkConstantInfo start 0 0)), s).

Definition Vector_Read (s : stream) : result (option ChunkInfo * stream) :=
  '(start, s) ← read_uint 8 s;
  let v := set_deleted (ChunkVectorInfo_new start) (deleted (ChunkVectorInfo_new start)) true in
  '(mask, s) ← MaskRead (ValidityMask_new STANDARD_VECTOR_SIZE) STANDARD_VECTOR_SIZE s;
  l ← foldM (λ l i, b ← RowIsValid mask i; if (b : bool) then vset l i 0 else Ok l) (deleted v) (seq 0 STANDARD_VECTOR_SIZE);
  Ok (Some (VECTOR_INFO (set_deleted v l true)), s).

Definition Read (s : stream) : result (option ChunkInfo * stream) :=
  '(type, s) ← read_uint 1 s;
  if type =? EMPTY_INFO_TAG then Ok (None, s)
  else if type =? CONSTANT_INFO_TAG then Constant_Read s
  else if type =? VECTOR_INFO_TAG then Vector_Read s
  else Throw (SerializationException "Could not deserialize Chunk Info Type: unrecognized type").
