(* ===== verification/ChunkFacts.v ===== *)
(** Version information: both kinds of chunk info are views of one abstract map
    from rows to the ids that inserted and deleted them; the scans list the
    rows it makes visible, and appends, commits, deletes with their conflicts
    and the commit or rollback of a recorded delete change it. *)
From S2P Require Import Prelude Bits SelectionVector ValidityMask MaskFacts ChunkInfo.

(** * The abstract version map *)

Definition inserted_at (i : ChunkInfo) (r : nat) : Z :=
  match i with CONSTANT_INFO c => const_insert_id c | VECTOR_INFO v => default 0 (inserted v !! r) end.
Definition deleted_at (i : ChunkInfo) (r : nat) : Z :=
  match i with CONSTANT_INFO c => const_delete_id c | VECTOR_INFO v => default 0 (deleted v !! r) end.

(** A row is part of the result of [op] when both of its ids are. *)
Definition visible (op : VersionOperator) (st tid : Z) (i : ChunkInfo) (r : nat) : bool :=
  UseInsertedVersion op st tid (inserted_at i r) && UseDeletedVersion op st tid (deleted_at i r).

(** Rows that were not deleted pass the deletion test. *)
Definition keeps_undeleted (op : VersionOperator) (st tid : Z) : Prop :=
  UseDeletedVersion op st tid NOT_DELETED_ID = true.

(** An ordinary transaction: its id and start time are below the special ids. *)
Definition transaction_ok (t : TransactionData) : Prop :=
  0 < start_time t ≤ NOT_DELETED_ID ∧ transaction_id t ≠ NOT_DELETED_ID.

Lemma transaction_keeps t : transaction_ok t → keeps_undeleted TransactionVersionOperator (start_time t) (transaction_id t).
Proof.
  intros [Hs Ht]. unfold keeps_undeleted. cbn [UseDeletedVersion TransactionVersionOperator].
  unfold transaction_inserted. apply negb_true_iff, orb_false_iff.
  split; [apply Z.ltb_ge | apply Z.eqb_neq]; lia.
Qed.

Lemma committed_keeps st tid : keeps_undeleted CommittedVersionOperator st tid.
Proof. unfold keeps_undeleted. cbn. by rewrite orb_true_r. Qed.

(** The invariant of a vector info whose first [n] rows were appended: the
    flags summarise the arrays. *)
Record vector_wf (n : nat) (v : ChunkVectorInfo) : Prop := {
  vw_inserted : length (inserted v) = STANDARD_VECTOR_SIZE;
  vw_deleted : length (deleted v) = STANDARD_VECTOR_SIZE;
  vw_same : same_inserted_id v = true → ∀ r, (r < n)%nat → inserted v !! r = Some (insert_id v);
  vw_none : any_deleted v = false → ∀ r, (r < STANDARD_VECTOR_SIZE)%nat → deleted v !! r = Some NOT_DELETED_ID
}.

Definition chunk_wf (n : nat) (i : ChunkInfo) : Prop :=
  match i with CONSTANT_INFO _ => True | VECTOR_INFO v => vector_wf n v end.

Lemma vector_wf_le n k v : vector_wf n v → (k ≤ n)%nat → vector_wf k v.
Proof. intros [A B C D] Hk. split; [done | done | | done]. intros Hs r Hr. apply C; [done | lia]. Qed.

Lemma vector_new_wf start : vector_wf STANDARD_VECTOR_SIZE (ChunkVectorInfo_new start).
Proof.
  split; cbn [inserted deleted ChunkVectorInfo_new insert_id]; [apply length_replicate | apply length_replicate | |];
    intros _ r Hr; by apply lookup_replicate_2.
Qed.

(** Within the arrays a lookup is its default. *)
Lemma lookup_default (l : list Z) r : (r < length l)%nat → l !! r = Some (default 0 (l !! r)).
Proof. intros H. destruct (lookup_lt_is_Some_2 l r H) as [x Hx]. by rewrite Hx. Qed.

(** * Scans *)

(** The rows a scan of [max] rows selects: all of them when the returned count
    is [max] (the selection vector is then not consulted). *)
Definition selected_rows (sel : SelectionVector) (c max : nat) : list Z :=
  if (c =? max)%nat then Z.of_nat <$> seq 0 max else sel_list sel c.

Lemma filter_all_seq (P : nat → bool) n :
  length (filter (λ r, P r) (seq 0 n)) = n → filter (λ r, P r) (seq 0 n) = seq 0 n.
Proof.
  intros H. apply filter_all. intros x Hx. rewrite <- (length_seq n 0) in H at 2.
  by apply (proj1 (length_filter_all (λ r, P r) (seq 0 n)) H).
Qed.

Lemma foldM_ext {S A} (f g : S → A → result S) s l :
  (∀ s x, x ∈ l → f s x = g s x) → foldM f s l = foldM g s l.
Proof.
  revert s; induction l as [|x l IH]; intros s H; [done|]. cbn [foldM]. rewrite H by left.
  destruct (g s x); [|done]. cbn. apply IH. intros s' y Hy. apply H. by right.
Qed.

Lemma select_rows_ok test (P : nat → bool) sel max cap :
  (∀ i, (i < max)%nat → test i = Ok (P i)) → sel_cap sel cap → (max ≤ cap)%nat → (max ≤ STANDARD_VECTOR_SIZE)%nat →
  ∃ sel' c, select_rows test sel max = Ok (sel', c) ∧ sel_cap sel' cap ∧
            c = length (filter (λ r, P r) (seq 0 max)) ∧
            sel_list sel' c = Z.of_nat <$> filter (λ r, P r) (seq 0 max).
Proof.
  intros Ht Hc Hm Hs. unfold select_rows.
  rewrite (foldM_ext _ (λ st i, if P i then sel_push st (Z.of_nat i) else Ok st))
    by (intros st i Hi%elem_of_seq; rewrite Ht by lia; done).
  rewrite (foldM_cond_push P). set (L := filter _ _).
  assert (HL : (length L ≤ max)%nat) by (unfold L; etrans; [apply length_filter|]; by rewrite length_seq).
  destruct (sel_push_all sel 0 cap (Z.of_nat <$> L)) as (s & E & C & Hl); [done | rewrite length_fmap; lia |].
  rewrite length_fmap in *. exists s, (length L). split; [done|]. split_and!; [done | done |].
  rewrite sel_list_0 in Hl. cbn [app Nat.add] in Hl. rewrite Hl, <- list_fmap_compose.
  apply list_fmap_ext. intros k r Hr%list_elem_of_lookup_2. cbn [compose].
  apply list_elem_of_filter in Hr as [_ Hr%elem_of_seq]. apply wrapu_small. unfold STANDARD_VECTOR_SIZE in Hs. lia.
Qed.

(** [TemplatedGetSelVector] of either kind. *)
Definition TemplatedGetSelVector (op : VersionOperator) (st tid : Z) (i : ChunkInfo) (sel : SelectionVector) (max : nat)
    : result (SelectionVector * nat) :=
  match i with
  | CONSTANT_INFO c => Constant_GetSelVector op c st tid sel max
  | VECTOR_INFO v => Vector_GetSelVector op v st tid sel max
  end.

(** The outcome of a scan that selects exactly the rows satisfying [P]. *)
Definition selects (r : result (SelectionVector * nat)) (max cap : nat) (P : nat → bool) : Prop :=
  ∃ sel' c, r = Ok (sel', c) ∧ sel_cap sel' cap ∧ c = length (filter (λ r, P r) (seq 0 max)) ∧
            selected_rows sel' c max = Z.of_nat <$> filter (λ r, P r) (seq 0 max).

Lemma selects_ext r max cap P Q :
  (∀ i, (i < max)%nat → P i = Q i) → selects r max cap P → selects r max cap Q.
Proof.
  intros H (s & c & E & C & L & S). exists s, c.
  rewrite (filter_ext_in (λ r, Q r) (λ r, P r)) by (intros i Hi%elem_of_seq; rewrite H by lia; done). done.
Qed.

Lemma selects_all sel max cap (P : nat → bool) :
  sel_cap sel cap → (∀ i, (i < max)%nat → P i = true) → selects (Ok (sel, max)) max cap P.
Proof.
  intros C H. exists sel, max. rewrite filter_all by (intros i Hi%elem_of_seq; apply Is_true_true, H; lia).
  rewrite length_seq. split_and!; [done | done | done |]. unfold selected_rows. by rewrite Nat.eqb_refl.
Qed.

Lemma selects_none sel max cap (P : nat → bool) :
  sel_cap sel cap → (∀ i, (i < max)%nat → P i = false) → selects (Ok (sel, O)) max cap P.
Proof.
  intros C H. exists sel, O. rewrite filter_none by (intros i Hi%elem_of_seq; rewrite H by lia; auto).
  split_and!; [done | done | done |]. unfold selected_rows. rewrite sel_list_0. by destruct max.
Qed.

Lemma selects_loop test (P : nat → bool) sel max cap :
  (∀ i, (i < max)%nat → test i = Ok (P i)) → sel_cap sel cap → (max ≤ cap)%nat → (max ≤ STANDARD_VECTOR_SIZE)%nat →
  selects (select_rows test sel max) max cap P.
Proof.
  intros Ht Hc Hm Hs. destruct (select_rows_ok test P sel max cap Ht Hc Hm Hs) as (s & c & E & C & Hl & S).
  exists s, c. split_and!; [done | done | done |]. unfold selected_rows. destruct (Nat.eqb_spec c max) as [->|]; [|done].
  f_equal. symmetry. apply filter_all_seq. lia.
Qed.

Lemma TemplatedGetSelVector_ok op st tid i n sel max cap :
  chunk_wf n i → keeps_undeleted op st tid → sel_cap sel cap → (max ≤ cap)%nat → (max ≤ n)%nat →
  (max ≤ STANDARD_VECTOR_SIZE)%nat → selects (TemplatedGetSelVector op st tid i sel max) max cap (visible op st tid i).
Proof.
  intros W K C Hcap Hn Hs. destruct i as [c|v]; cbn [TemplatedGetSelVector].
  - unfold Constant_GetSelVector. destruct (_ && _) eqn:E; [by apply selects_all | by apply selects_none].
  - destruct W as [Li Ld Hsame Hnone]. unfold Vector_GetSelVector, visible. cbn [inserted_at deleted_at].
    assert (Hi : ∀ r, (r < max)%nat → inserted v !! r = Some (default 0 (inserted v !! r)))
      by (intros r Hr; apply lookup_default; lia).
    assert (Hd : ∀ r, (r < max)%nat → deleted v !! r = Some (default 0 (deleted v !! r)))
      by (intros r Hr; apply lookup_default; lia).
    assert (Same : same_inserted_id v = true → ∀ r, (r < max)%nat → default 0 (inserted v !! r) = insert_id v)
      by (intros E r Hr; rewrite Hsame by (done || lia); done).
    assert (None : any_deleted v = false → ∀ r, (r < max)%nat → default 0 (deleted v !! r) = NOT_DELETED_ID)
      by (intros E r Hr; rewrite Hnone by (done || lia); done).
    destruct (same_inserted_id v) eqn:Es, (any_deleted v) eqn:Ea; cbn [negb andb].
    + destruct (UseInsertedVersion op st tid (insert_id v)) eqn:Eu; cbn [negb].
      * apply selects_loop; [|done..]. intros r Hr. rewrite (vget_lookup _ _ _ (Hd r Hr)), Same by done.
        by rewrite Eu.
      * apply selects_none; [done|]. intros r Hr. by rewrite Same, Eu.
    + destruct (UseInsertedVersion op st tid (insert_id v)) eqn:Eu.
      * apply selects_all; [done|]. intros r Hr. by rewrite Same, None, Eu, K.
      * apply selects_none; [done|]. intros r Hr. by rewrite Same, Eu.
    + apply selects_loop; [|done..]. intros r Hr. rewrite (vget_lookup _ _ _ (Hi r Hr)). cbn [mbind result_bind].
      destruct (UseInsertedVersion op st tid _); [|done]. by rewrite (vget_lookup _ _ _ (Hd r Hr)).
    + apply selects_loop; [|done..]. intros r Hr. rewrite (vget_lookup _ _ _ (Hi r Hr)). cbn [mbind result_bind].
      by rewrite None, K, andb_true_r.
Qed.

Lemma Fetch_ok t i n r :
  chunk_wf n i → (r < STANDARD_VECTOR_SIZE)%nat →
  Fetch t i r = Ok (visible TransactionVersionOperator (start_time t) (transaction_id t) i r).
Proof.
  intros W Hr. destruct i as [c|v]; [done|]. destruct W as [Li Ld _ _]. cbn [Fetch]. unfold Vector_Fetch, visible.
  cbn [inserted_at deleted_at].
  rewrite (vget_lookup _ _ _ (lookup_default (inserted v) r ltac:(lia))). cbn [mbind result_bind].
  unfold UseVersion. destruct (UseInsertedVersion _ _ _ _); [|done].
  by rewrite (vget_lookup _ _ _ (lookup_default (deleted v) r ltac:(lia))).
Qed.

(** * Store loops *)

(** Storing [x] at every position of [L]. *)
Lemma store_all (l : list Z) (L : list nat) x :
  (∀ r, r ∈ L → (r < length l)%nat) →
  ∃ l', foldM (λ l r, vset l r x) l L = Ok l' ∧ length l' = length l ∧
        ∀ r, l' !! r = if decide (r ∈ L) then Some x else l !! r.
Proof.
  revert l; induction L as [|y L IH]; intros l H.
  - exists l. split; [done|]. split; [done|]. intros r. by rewrite decide_False by apply not_elem_of_nil.
  - assert (Hy : (y < length l)%nat) by (apply H; left).
    destruct (IH (<[y := x]> l)) as (l' & E & Ln & B); [intros r Hr; rewrite length_insert; apply H; by right|].
    exists l'. cbn [foldM]. rewrite vset_lt by done. split; [exact E|].
    rewrite length_insert in Ln. split; [done|]. intros r. rewrite B.
    destruct (decide (r ∈ L)); [by rewrite decide_True by (by right)|].
    destruct (decide (r = y)) as [->|Hne].
    + rewrite decide_True by left. by apply list_lookup_insert_eq.
    + rewrite decide_False by (intros [?|?]%elem_of_cons; done). by apply list_lookup_insert_ne.
Qed.

Lemma foldM_rows {S} (f : S → nat → result S) s (rows : list nat) n :
  (n ≤ length rows)%nat →
  foldM (λ s i, r ← vget rows i; f s r) s (seq 0 n) = foldM f s (take n rows).
Proof.
  induction n as [|n IH]; intros Hn; [done|].
  destruct (lookup_lt_is_Some_2 rows n Hn) as [r Hr].
  rewrite seq_S, foldM_app, IH, (take_S_r _ _ r), foldM_app by (done || lia).
  destruct (foldM f s (take n rows)); [|done]. cbn [mbind result_bind foldM Nat.add].
  by rewrite (vget_lookup _ _ _ Hr).
Qed.

(** * Appends *)

Lemma in_range a b r : r ∈ seq a (b - a) ↔ (a ≤ r < b)%nat.
Proof. rewrite elem_of_seq. lia. Qed.

(** [Append] gives the new rows the id of the transaction and keeps the
    summary flags right for all rows appended so far. *)
Lemma Append_ok v n a b id :
  vector_wf n v → (a ≤ n)%nat → (a ≤ b ≤ STANDARD_VECTOR_SIZE)%nat →
  ∃ v', Append v a b id = Ok v' ∧ vector_wf (if (a =? 0)%nat then b else Nat.max n b) v' ∧
        (∀ r, (r < STANDARD_VECTOR_SIZE)%nat →
              inserted_at (VECTOR_INFO v') r = if decide (a ≤ r < b)%nat then id else inserted_at (VECTOR_INFO v) r) ∧
        (∀ r, deleted_at (VECTOR_INFO v') r = deleted_at (VECTOR_INFO v) r) ∧
        (same_inserted_id v' = true → a = O ∨ insert_id v = id ∧ same_inserted_id v = true).
Proof.
  intros W Ha Hb. pose proof (vw_inserted _ _ W) as Li.
  destruct (store_all (inserted v) (seq a (b - a)) id) as (l & E & Ln & B); [intros r ?%in_range; lia|].
  assert (B' : ∀ r, l !! r = if decide (a ≤ r < b)%nat then Some id else inserted v !! r).
  { intros r. rewrite B. destruct (decide (a ≤ r < b)%nat).
    - by rewrite decide_True by (by apply in_range).
    - by rewrite decide_False by (by rewrite in_range). }
  unfold Append. rewrite E.
  destruct (if (a =? 0)%nat then _ else _) as [i' same] eqn:Ei. cbn [mbind result_bind].
  eexists. split; [done|]. split_and!; [split|..]; cbn [set_inserted inserted deleted insert_id same_inserted_id any_deleted].
  - lia.
  - apply (vw_deleted _ _ W).
  - intros Hsame r Hr. rewrite B'. destruct (Nat.eqb_spec a 0) as [->|Ha0].
    + injection Ei as <- <-. by rewrite decide_True by lia.
    + destruct (negb (insert_id v =? id)) eqn:Hid; [injection Ei as <- <-; done|].
      injection Ei as <- <-. apply negb_false_iff, Z.eqb_eq in Hid. case_decide; [by rewrite Hid|].
      apply (vw_same _ _ W); [done | lia].
  - apply (vw_none _ _ W).
  - intros r Hr. cbn [inserted_at inserted]. rewrite B'. by case_decide.
  - done.
  - intros Hsame. destruct (Nat.eqb_spec a 0) as [->|Ha0]; [by left|]. right.
    destruct (negb (insert_id v =? id)) eqn:Hid; [by injection Ei as <- <-|].
    injection Ei as <- <-. by apply negb_false_iff, Z.eqb_eq in Hid.
Qed.

Lemma Vector_CommitAppend_ok v n a b id :
  vector_wf n v → (b ≤ STANDARD_VECTOR_SIZE)%nat →
  (same_inserted_id v = true → ∀ r, (r < n)%nat → ¬ (a ≤ r < b)%nat → inserted_at (VECTOR_INFO v) r = id) →
  ∃ v', Vector_CommitAppend id a b v = Ok v' ∧ vector_wf n v' ∧
        (∀ r, (r < STANDARD_VECTOR_SIZE)%nat →
              inserted_at (VECTOR_INFO v') r = if decide (a ≤ r < b)%nat then id else inserted_at (VECTOR_INFO v) r) ∧
        (∀ r, deleted_at (VECTOR_INFO v') r = deleted_at (VECTOR_INFO v) r).
Proof.
  intros W Hb Hrest. pose proof (vw_inserted _ _ W) as Li.
  destruct (store_all (inserted v) (seq a (b - a)) id) as (l & E & Ln & B); [intros r ?%in_range; lia|].
  assert (B' : ∀ r, l !! r = if decide (a ≤ r < b)%nat then Some id else inserted v !! r).
  { intros r. rewrite B. destruct (decide (a ≤ r < b)%nat).
    - by rewrite decide_True by (by apply in_range).
    - by rewrite decide_False by (by rewrite in_range). }
  unfold Vector_CommitAppend. rewrite E. cbn [mbind result_bind].
  eexists. split; [done|]. split_and!; [split|..]; cbn [set_inserted inserted deleted insert_id same_inserted_id any_deleted].
  - lia.
  - apply (vw_deleted _ _ W).
  - intros Hsame r Hr. rewrite Hsame, B'. case_decide as D; [done|].
    rewrite <- (Hrest Hsame r Hr D). cbn [inserted_at]. by rewrite (vw_same _ _ W Hsame r Hr).
  - apply (vw_none _ _ W).
  - intros r Hr. cbn [inserted_at inserted]. rewrite B'. by case_decide.
  - done.
Qed.

(** * Deletes *)

(** Row [r] was deleted by another transaction. *)
Definition conflicts (tid : Z) (v : ChunkVectorInfo) (r : nat) : Prop :=
  deleted_at (VECTOR_INFO v) r ≠ NOT_DELETED_ID ∧ deleted_at (VECTOR_INFO v) r ≠ tid.

#[export] Instance conflicts_dec tid v r : Decision (conflicts tid v r).
Proof. unfold conflicts. apply _. Defined.

(** The state of the delete loop after the rows [done_]. *)
Record delete_inv (tid : Z) (v : ChunkVectorInfo) (rows done_ : list nat) (s : delete_state) (F : list nat) : Prop := {
  di_deleted : ∀ r, del_deleted s !! r =
    if decide (r ∈ done_ ∧ (r < length (deleted v))%nat) then Some tid else deleted v !! r;
  di_length : length (del_deleted s) = length (deleted v);
  di_rows : del_rows s = F ++ drop (length F) rows;
  di_count : deleted_tuples s = length F;
  di_le : (length F ≤ length done_)%nat;
  di_nodup : NoDup F;
  di_fresh : ∀ r, r ∈ F ↔ r ∈ done_ ∧ deleted_at (VECTOR_INFO v) r = NOT_DELETED_ID
}.

Section delete.
Context (tid : Z) (v : ChunkVectorInfo) (rows : list nat).
Context (Htid : tid ≠ NOT_DELETED_ID) (Hrows : ∀ r, r ∈ rows → (r < length (deleted v))%nat).

Lemma delete_start : delete_inv tid v rows [] (mkDelete (deleted v) rows O) [].
Proof using.
  split; try done; [constructor|].
  intros r. split; [by intros ?%elem_of_nil | by intros [?%elem_of_nil _]].
Qed.

(** The row read at a position not yet reached is the caller's, and so is
    its deletion id unless it was marked by this very loop. *)
Lemma delete_reads done_ s F r i :
  delete_inv tid v rows done_ s F → rows !! i = Some r → length done_ = i →
  vget (del_rows s) i = Ok r ∧
  vget (del_deleted s) r = Ok (if decide (r ∈ done_) then tid else deleted_at (VECTOR_INFO v) r).
Proof using Hrows.
  intros I Hr Hi. assert (Hlt : (r < length (deleted v))%nat) by (apply Hrows; by eapply list_elem_of_lookup_2).
  pose proof (di_le _ _ _ _ _ _ I). split; apply vget_lookup.
  - rewrite (di_rows _ _ _ _ _ _ I), lookup_app_r, lookup_drop by lia. rewrite <- Hr. f_equal. lia.
  - rewrite (di_deleted _ _ _ _ _ _ I). cbn [deleted_at]. destruct (decide (r ∈ done_)).
    + by rewrite decide_True.
    + rewrite decide_False by tauto. by apply lookup_default.
Qed.

Lemma delete_step_ok done_ s F r i :
  delete_inv tid v rows done_ s F → rows !! i = Some r → length done_ = i → ¬ conflicts tid v r →
  ∃ s' F', delete_step tid s i = Ok s' ∧ delete_inv tid v rows (done_ ++ [r]) s' F'.
Proof using Htid Hrows.
  intros I Hr Hi Hc. assert (Hlt : (r < length (deleted v))%nat) by (apply Hrows; by eapply list_elem_of_lookup_2).
  destruct (delete_reads done_ s F r i I Hr Hi) as [E1 E2].
  unfold delete_step. rewrite E1. cbn [mbind result_bind]. rewrite E2. cbn [mbind result_bind].
  destruct I as [ID IL IR IC Ile IN IF].
  assert (Hdel : ∀ q, (if decide (q ∈ done_ ++ [r] ∧ (q < length (deleted v))%nat) then Some tid else deleted v !! q) =
                      if decide (q = r) then Some tid else del_deleted s !! q).
  { intros q. rewrite ID. destruct (decide (q = r)) as [->|Hq].
    - rewrite decide_True; [done|]. split; [apply elem_of_app; right; left | done].
    - destruct (decide (q ∈ done_ ∧ (q < length (deleted v))%nat)) as [[? ?]|Hn].
      + rewrite decide_True; [done|]. split; [apply elem_of_app; by left | done].
      + rewrite decide_False; [done|]. intros [[?|?%list_elem_of_singleton]%elem_of_app ?]; tauto. }
  destruct (Z.eqb_spec (if decide (r ∈ done_) then tid else deleted_at (VECTOR_INFO v) r) tid) as [He|He].
  - exists s, F. split; [done|]. split; try done.
    + intros q. rewrite Hdel. destruct (decide (q = r)) as [->|]; [|done]. rewrite ID.
      destruct (decide (r ∈ done_)) as [D|D]; [by rewrite decide_True|]. rewrite decide_False by tauto. cbn [deleted_at] in He.
      rewrite (lookup_default _ _ Hlt). by rewrite He.
    + rewrite length_app. cbn [length]. lia.
    + intros q. rewrite IF, elem_of_app, list_elem_of_singleton. split; [tauto|].
      intros [[Hq| ->] Hnd]; [done|]. split; [|done]. destruct (decide (r ∈ done_)); [done|]. congruence.
  - destruct (decide (r ∈ done_)) as [|Hnew]; [done|].
    assert (Hnd : deleted_at (VECTOR_INFO v) r = NOT_DELETED_ID) by (destruct (decide (deleted_at (VECTOR_INFO v) r = NOT_DELETED_ID)); [done|]; by destruct Hc).
    rewrite Hnd, Z.eqb_refl. cbn [negb]. rewrite (vset_lt (del_deleted s)) by lia. cbn [mbind result_bind].
    pose proof (lookup_lt_Some _ _ _ Hr).
    rewrite vset_lt by (rewrite IR, IC, length_app, length_drop; lia). cbn [mbind result_bind].
    eexists _, (F ++ [r]). split; [done|]. split; cbn [del_deleted del_rows deleted_tuples].
    + intros q. rewrite Hdel. destruct (decide (q = r)) as [->|];
        [apply list_lookup_insert_eq; lia | by apply list_lookup_insert_ne].
    + by rewrite length_insert.
    + rewrite IR, IC, insert_app_r_alt, Nat.sub_diag by lia.
      destruct (lookup_lt_is_Some_2 rows (length F)) as [y Hy]; [lia|].
      rewrite (drop_S rows y) by done. cbn [insert list_insert]. rewrite length_app, Nat.add_1_r.
      by rewrite <- app_assoc.
    + rewrite IC, length_app. cbn [length]. lia.
    + rewrite !length_app. cbn [length]. lia.
    + apply NoDup_app. split_and!; [done | | apply NoDup_singleton].
      intros q Hq ->%list_elem_of_singleton. apply IF in Hq. tauto.
    + intros q. rewrite !elem_of_app, !list_elem_of_singleton, IF. split; [|tauto].
      intros [[? ?]| ->]; tauto.
Qed.

Lemma delete_loop_ok m : ∀ done_ s F,
  delete_inv tid v rows done_ s F → (length done_ + m ≤ length rows)%nat → done_ = take (length done_) rows →
  (∀ r, r ∈ take (length done_ + m) rows → ¬ conflicts tid v r) →
  ∃ s' F', delete_loop tid s (seq (length done_) m) = (s', Ok (length F')) ∧
           delete_inv tid v rows (take (length done_ + m) rows) s' F'.
Proof using Htid Hrows.
  induction m as [|m IH]; intros done_ s F I Hm Hd Hc.
  - exists s, F. cbn [seq delete_loop]. rewrite (di_count _ _ _ _ _ _ I), Nat.add_0_r, <- Hd. done.
  - destruct (lookup_lt_is_Some_2 rows (length done_)) as [r Hr]; [lia|].
    destruct (delete_step_ok done_ s F r (length done_) I Hr eq_refl) as (s1 & F1 & E & I1).
    { apply Hc. eapply (list_elem_of_lookup_2 _ (length done_)). by rewrite lookup_take_lt by lia. }
    cbn [seq delete_loop]. rewrite E.
    destruct (IH (done_ ++ [r]) s1 F1) as (s2 & F2 & E2 & I2); rewrite ?length_app, ?Nat.add_1_r in *; cbn [length] in *;
      rewrite ?Nat.add_1_r in *; [done | lia | | |].
    + by rewrite (take_S_r _ _ r), <- Hd by done.
    + by rewrite <- Nat.add_succ_comm in Hc.
    + exists s2, F2. by rewrite <- Nat.add_succ_comm.
Qed.

(** At the first conflicting row the loop throws; the rows before it stay
    marked. *)
Lemma delete_loop_conflict m : ∀ done_ s F,
  delete_inv tid v rows done_ s F → done_ = take (length done_) rows →
  (length done_ + m ≤ length rows)%nat → (∃ r, r ∈ take m (drop (length done_) rows) ∧ conflicts tid v r) →
  (∀ r, r ∈ done_ → ¬ conflicts tid v r) →
  ∃ s' F' j r, delete_loop tid s (seq (length done_) m) = (s', Throw (TransactionException "Conflict on tuple deletion!")) ∧
           rows !! j = Some r ∧ (j < length done_ + m)%nat ∧ conflicts tid v r ∧
           (∀ q, q ∈ take j rows → ¬ conflicts tid v q) ∧ delete_inv tid v rows (take j rows) s' F'.
Proof using Htid Hrows.
  induction m as [|m IH]; intros done_ s F I Hd Hm (q & Hq & Cq) Hno; [by apply elem_of_nil in Hq|].
  destruct (lookup_lt_is_Some_2 rows (length done_)) as [r Hr]; [lia|]. cbn [seq delete_loop].
  destruct (decide (conflicts tid v r)) as [Cr|Cr].
  - destruct (delete_reads done_ s F r (length done_) I Hr eq_refl) as [E1 E2].
    assert (Hn : r ∉ done_) by (intros H; by apply (Hno r H)).
    unfold delete_step. rewrite E1. cbn [mbind result_bind]. rewrite E2, decide_False by done.
    cbn [mbind result_bind]. destruct Cr as [C1 C2].
    rewrite (proj2 (Z.eqb_neq _ _) C2), (proj2 (Z.eqb_neq _ _) C1). cbn [negb].
    exists s, F, (length done_), r. rewrite <- Hd. split_and!; [done | done | lia | done | done | done].
  - destruct (delete_step_ok done_ s F r (length done_) I Hr eq_refl Cr) as (s1 & F1 & -> & I1).
    assert (Len : length (done_ ++ [r]) = S (length done_)) by (rewrite length_app; cbn; lia).
    specialize (IH (done_ ++ [r]) s1 F1 I1). rewrite Len in IH.
    destruct IH as (s2 & F2 & j & r' & E & Hj & Hlt & Hrest).
    + by rewrite (take_S_r _ _ r), <- Hd by done.
    + lia.
    + exists q. split; [|done]. rewrite (drop_S _ r) in Hq by done. cbn [take] in Hq.
      apply elem_of_cons in Hq as [-> | Hq]; [by exfalso; apply Cr | done].
    + intros q' [?| ->%list_elem_of_singleton]%elem_of_app; auto.
    + exists s2, F2, j, r'. split_and!; [done | done | lia | apply Hrest..].
Qed.
End delete.

(** [Delete] without conflicts marks the rows and returns those it newly
    deleted, without duplicates. *)
Lemma Delete_ok v n tid rows k :
  vector_wf n v → tid ≠ NOT_DELETED_ID → (k ≤ length rows)%nat →
  (∀ r, r ∈ rows → (r < STANDARD_VECTOR_SIZE)%nat) → (∀ r, r ∈ take k rows → ¬ conflicts tid v r) →
  ∃ v' F, Delete v tid rows k = (v', F ++ drop (length F) rows, Ok (length F)) ∧ vector_wf n v' ∧ any_deleted v' = true ∧
          NoDup F ∧ (∀ r, r ∈ F ↔ r ∈ take k rows ∧ deleted_at (VECTOR_INFO v) r = NOT_DELETED_ID) ∧
          (∀ r, inserted_at (VECTOR_INFO v') r = inserted_at (VECTOR_INFO v) r) ∧
          (∀ r, deleted_at (VECTOR_INFO v') r = if decide (r ∈ take k rows) then tid else deleted_at (VECTOR_INFO v) r).
Proof.
  intros W Ht Hk Hr Hc. pose proof (vw_deleted _ _ W) as Ld. rewrite <- Ld in Hr.
  destruct (delete_loop_ok tid v rows Ht Hr k [] _ [] (delete_start tid v rows)) as (s & F & E & I); [cbn; lia | done | done |].
  cbn [length Nat.add] in E, I. unfold Delete. rewrite E. destruct I as [ID IL IR _ _ IN IF]. rewrite IR.
  eexists _, F. split; [done|]. split_and!; [|done|done|done|done|].
  - destruct W as [W1 W2 W3 W4]. split; cbn [set_deleted inserted deleted same_inserted_id insert_id any_deleted]; [done | lia | done | done].
  - intros r. cbn [deleted_at set_deleted deleted]. rewrite ID. destruct (decide (r ∈ take k rows)) as [Hin|Hin].
    + rewrite decide_True; [done|]. split; [done|]. apply Hr. eapply elem_of_take in Hin as (i & Hi & _). by eapply list_elem_of_lookup_2.
    + by rewrite decide_False by tauto.
Qed.

(** With a conflict it throws, at the first conflicting row, and leaves the
    rows before it marked. *)
Lemma Delete_conflict v n tid rows k :
  vector_wf n v → tid ≠ NOT_DELETED_ID → (k ≤ length rows)%nat →
  (∀ r, r ∈ rows → (r < STANDARD_VECTOR_SIZE)%nat) → (∃ r, r ∈ take k rows ∧ conflicts tid v r) →
  ∃ v' rows' j r, Delete v tid rows k = (v', rows', Throw (TransactionException "Conflict on tuple deletion!")) ∧
       rows !! j = Some r ∧ (j < k)%nat ∧ conflicts tid v r ∧ (∀ q, q ∈ take j rows → ¬ conflicts tid v q) ∧
       (∀ q, deleted_at (VECTOR_INFO v') q = if decide (q ∈ take j rows) then tid else deleted_at (VECTOR_INFO v) q).
Proof.
  intros W Ht Hk Hr Hc. pose proof (vw_deleted _ _ W) as Ld. rewrite <- Ld in Hr.
  destruct (delete_loop_conflict tid v rows Ht Hr k [] _ [] (delete_start tid v rows))
    as (s & F & j & r & E & Hj & Hlt & Cr & Hno & I); [done | cbn; lia | cbn [length]; by rewrite drop_0 | by intros ? ?%elem_of_nil |].
  cbn [length Nat.add] in *. unfold Delete. rewrite E. eexists _, _, j, r. split; [done|]. split_and!; [done..|].
  intros q. cbn [deleted_at set_deleted deleted]. rewrite (di_deleted _ _ _ _ _ _ I).
  destruct (decide (q ∈ take j rows)) as [Hin|Hin].
  - rewrite decide_True; [done|]. split; [done|]. apply Hr. eapply elem_of_take in Hin as (i & Hi & _).
    by eapply list_elem_of_lookup_2.
  - by rewrite decide_False by tauto.
Qed.

(** * Commit and rollback of a recorded delete *)

(** The rows of a delete record. *)
Definition recorded_rows (d : DeleteInfo) : list nat :=
  if is_consecutive d then seq 0 (delete_count d) else take (delete_count d) (delete_rows d).

Lemma CommitDelete_ok v n id d :
  vector_wf n v → any_deleted v = true → (∀ r, r ∈ recorded_rows d → (r < STANDARD_VECTOR_SIZE)%nat) →
  (is_consecutive d = false → (delete_count d ≤ length (delete_rows d))%nat) →
  ∃ v', CommitDelete v id d = Ok v' ∧ vector_wf n v' ∧ any_deleted v' = true ∧
        (∀ r, inserted_at (VECTOR_INFO v') r = inserted_at (VECTOR_INFO v) r) ∧
        (∀ r, deleted_at (VECTOR_INFO v') r = if decide (r ∈ recorded_rows d) then id else deleted_at (VECTOR_INFO v) r).
Proof.
  intros W Ha Hr Hlen. rewrite <- (vw_deleted _ _ W) in Hr.
  destruct (store_all (deleted v) (recorded_rows d) id Hr) as (l & E & Ll & B).
  assert (Hl : (if is_consecutive d
       then foldM (λ l i, vset l i id) (deleted v) (seq 0 (delete_count d))
       else rows ← GetRows d;
            foldM (λ l i, r ← vget rows i; vset l r id) (deleted v) (seq 0 (delete_count d))) = Ok l).
  { unfold recorded_rows, GetRows in *. destruct (is_consecutive d); [done|]. cbn [mbind result_bind].
    by rewrite (foldM_rows (λ l r, vset l r id)) by (by apply Hlen). }
  unfold CommitDelete. rewrite Hl. cbn [mbind result_bind]. eexists. split; [done|]. split_and!.
  - destruct W as [W1 W2 W3 W4]. split; cbn [set_deleted inserted deleted same_inserted_id insert_id any_deleted]; [done | lia | done |].
    by rewrite Ha.
  - done.
  - done.
  - intros r. cbn [deleted_at set_deleted deleted]. rewrite B. by case_decide.
Qed.
