(* ===== verification/RowVersionManager.v ===== *)
(** The version information of a row group (row_version_manager.cpp), the
    deletion of rows through it (row_group.cpp, [VersionDeleteState]) and the
    undo records that commit or roll a deletion back (duck_transaction.cpp,
    commit_state.cpp, rollback_state.cpp).

    The blocks behind [storage_pointers] are represented by the bytes a
    metadata reader finds there. *)
From S2P Require Import Prelude Bits SelectionVector ValidityMask ChunkInfo.

(** [Storage::ROW_GROUP_VECTOR_COUNT]: 122880 rows in vectors of 2048. *)
Definition ROW_GROUP_VECTOR_COUNT : nat := 60.

Record RowVersionManager : Type := mkManager {
  rvm_start : Z;
  vector_info : list (option ChunkInfo);
  has_changes : bool;
  storage_pointers : option stream
}.

Definition RowVersionManager_new (start : Z) : RowVersionManager :=
  mkManager start (replicate ROW_GROUP_VECTOR_COUNT None) false None.

Definition set_vector_info (m : RowVersionManager) (l : list (option ChunkInfo)) : RowVersionManager :=
  mkManager (rvm_start m) l (has_changes m) (storage_pointers m).
Definition mark_changed (m : RowVersionManager) : RowVersionManager :=
  mkManager (rvm_start m) (vector_info m) true (storage_pointers m).

(** [start + vector_idx * STANDARD_VECTOR_SIZE], as an [idx_t]. *)
Definition vector_start_row (m : RowVersionManager) (vector_idx : nat) : Z :=
  wrapu 64 (rvm_start m + Z.of_nat vector_idx * Z.of_nat STANDARD_VECTOR_SIZE).

Definition set_info_start (start : Z) (i : ChunkInfo) : ChunkInfo :=
  match i with
  | CONSTANT_INFO c => CONSTANT_INFO (mkConstantInfo start (const_insert_id c) (const_delete_id c))
  | VECTOR_INFO v => VECTOR_INFO (mkVectorInfo start (inserted v) (insert_id v) (same_inserted_id v) (deleted v) (any_deleted v))
  end.

Definition SetStart (m : RowVersionManager) (new_start : Z) : RowVersionManager :=
  let m := mkManager new_start (vector_info m) (has_changes m) (storage_pointers m) in
  set_vector_info m (imap (λ i o, set_info_start (vector_start_row m i) <$> o) (vector_info m)).

(** The loop [for (r = 0, i = 0; r < count; r += STANDARD_VECTOR_SIZE, i++)]
    runs [ceil(count / STANDARD_VECTOR_SIZE)] times. *)
Definition Manager_GetCommittedDeletedCount (m : RowVersionManager) (n : nat) : result nat :=
  foldM (λ c i, o ← vget (vector_info m) i;
                match o with
                | None => Ok c
                | Some info =>
                    let max_count := Nat.min STANDARD_VECTOR_SIZE (n - i * STANDARD_VECTOR_SIZE) in
                    d ← GetCommittedDeletedCount info max_count; Ok (c + d)%nat
                end) O (seq 0 ((n + (STANDARD_VECTOR_SIZE - 1)) / STANDARD_VECTOR_SIZE)).

Definition GetChunkInfo (m : RowVersionManager) (vector_idx : nat) : result (option ChunkInfo) :=
  vget (vector_info m) vector_idx.

Definition Manager_GetSelVector (m : RowVersionManager) (t : TransactionData) (vector_idx : nat)
    (sel : SelectionVector) (max_count : nat) : result (SelectionVector * nat) :=
  o ← GetChunkInfo m vector_idx;
  match o with None => Ok (sel, max_count) | Some info => GetSelVector t info sel max_count end.

Definition Manager_GetCommittedSelVector (m : RowVersionManager) (start_time transaction_id : Z) (vector_idx : nat)
    (sel : SelectionVector) (max_count : nat) : result (SelectionVector * nat) :=
  o ← GetChunkInfo m vector_idx;
  match o with
  | None => Ok (sel, max_count)
  | Some info => GetCommittedSelVector start_time transaction_id info sel max_count
  end.

Definition Manager_Fetch (m : RowVersionManager) (t : TransactionData) (row : nat) : result bool :=
  let vector_index := (row / STANDARD_VECTOR_SIZE)%nat in
  o ← GetChunkInfo m vector_index;
  match o with None => Ok true | Some info => Fetch t info (row - vector_index * STANDARD_VECTOR_SIZE) end.

(** * Appends *)

(** The part of vector [vector_idx] that the rows [a..b) cover. *)
Definition vector_begin (a vector_idx : nat) : nat :=
  let start_vector_idx := (a / STANDARD_VECTOR_SIZE)%nat in
  if (vector_idx =? start_vector_idx)%nat then (a - start_vector_idx * STANDARD_VECTOR_SIZE)%nat else O.
Definition vector_end (b vector_idx : nat) : nat :=
  let end_vector_idx := ((b - 1) / STANDARD_VECTOR_SIZE)%nat in
  if (vector_idx =? end_vector_idx)%nat then (b - end_vector_idx * STANDARD_VECTOR_SIZE)%nat else STANDARD_VECTOR_SIZE.
(** The vectors the rows [a..b) touch. *)
Definition touched_vectors (a b : nat) : list nat :=
  let first := (a / STANDARD_VECTOR_SIZE)%nat in
  let last := ((b - 1) / STANDARD_VECTOR_SIZE)%nat in
  seq first (S last - first).

Definition append_step (m : RowVersionManager) (t : TransactionData) (a b : nat) (l : list (option ChunkInfo))
    (vector_idx : nat) : result (list (option ChunkInfo)) :=
  let vstart := vector_begin a vector_idx in
  let vend := vector_end b vector_idx in
  if (vstart =? 0)%nat && (vend =? STANDARD_VECTOR_SIZE)%nat then
    let c := ChunkConstantInfo_new (vector_start_row m vector_idx) in
    vset l vector_idx (Some (CONSTANT_INFO (mkConstantInfo (const_start c) (transaction_id t) NOT_DELETED_ID)))
  else
    o ← vget l vector_idx;
    v ← match o with
        | None => Ok (ChunkVectorInfo_new (vector_start_row m vector_idx))
        | Some (VECTOR_INFO v) => Ok v
        | Some (CONSTANT_INFO _) =>
            Throw (InternalException "Error in RowVersionManager::AppendVersionInfo - expected either a ChunkVectorInfo or no version info")
        end;
    v ← Append v vstart vend (transaction_id t);
    vset l vector_idx (Some (VECTOR_INFO v)).

(** An end of 0 makes the last vector index wrap around, so that the loop
    leaves the array. *)
Definition AppendVersionInfo (m : RowVersionManager) (t : TransactionData) (row_group_start row_group_end : nat)
    : result RowVersionManager :=
  let m := mark_changed m in
  if (row_group_end =? 0)%nat then out_of_range else
  l ← foldM (append_step m t row_group_start row_group_end) (vector_info m) (touched_vectors row_group_start row_group_end);
  Ok (set_vector_info m l).

Definition commit_append_step (commit_id : Z) (a b : nat) (l : list (option ChunkInfo)) (vector_idx : nat)
    : result (list (option ChunkInfo)) :=
  o ← vget l vector_idx;
  match o with
  | None => Throw (UndefinedBehaviour "dereference of a null version info")
  | Some info => info' ← CommitAppend commit_id (vector_begin a vector_idx) (vector_end b vector_idx) info;
                 vset l vector_idx (Some info')
  end.

Definition Manager_CommitAppend (m : RowVersionManager) (commit_id : Z) (row_group_start n : nat) : result RowVersionManager :=
  if (n =? 0)%nat then Ok m else
  let row_group_end := (row_group_start + n)%nat in
  l ← foldM (commit_append_step commit_id row_group_start row_group_end) (vector_info m)
            (touched_vectors row_group_start row_group_end);
  Ok (set_vector_info m l).

Definition RevertAppend (m : RowVersionManager) (start_row : nat) : result RowVersionManager :=
  let start_vector_idx := ((start_row + (STANDARD_VECTOR_SIZE - 1)) / STANDARD_VECTOR_SIZE)%nat in
  l ← foldM (λ l i, vset l i None) (vector_info m) (seq start_vector_idx (ROW_GROUP_VECTOR_COUNT - start_vector_idx));
  Ok (set_vector_info m l).

(** * Deletes *)

(** [GetVectorInfo]: the vector info of a vector, created or converted from a
    constant info, with the manager that now holds it. *)
Definition GetVectorInfo (m : RowVersionManager) (vector_idx : nat) : result (RowVersionManager * ChunkVectorInfo) :=
  o ← vget (vector_info m) vector_idx;
  let v := match o with
           | None => ChunkVectorInfo_new (vector_start_row m vector_idx)
           | Some (CONSTANT_INFO c) =>
               let v := ChunkVectorInfo_new (vector_start_row m vector_idx) in
               set_inserted v (replicate STANDARD_VECTOR_SIZE (const_insert_id c)) (const_insert_id c) (same_inserted_id v)
           | Some (VECTOR_INFO v) => v
           end in
  l ← vset (vector_info m) vector_idx (Some (VECTOR_INFO v));
  Ok (set_vector_info m l, v).

(** The manager and the rows after the call, and its outcome. *)
Definition DeleteRows (m : RowVersionManager) (vector_idx : nat) (transaction_id : Z) (rows : list nat) (n : nat)
    : RowVersionManager * list nat * result nat :=
  let m := mark_changed m in
  match GetVectorInfo m vector_idx with
  | Throw e => (m, rows, Throw e)
  | Ok (m, v) =>
      let '(v', rows', r) := Delete v transaction_id rows n in
      (set_vector_info m (<[vector_idx := Some (VECTOR_INFO v')]> (vector_info m)), rows', r)
  end.

Definition Manager_CommitDelete (m : RowVersionManager) (vector_idx : nat) (commit_id : Z) (info : DeleteInfo)
    : result RowVersionManager :=
  '(m, v) ← GetVectorInfo (mark_changed m) vector_idx;
  v' ← CommitDelete v commit_id info;
  l ← vset (vector_info m) vector_idx (Some (VECTOR_INFO v'));
  Ok (set_vector_info m l).

(** ** Undo records *)

(** [NumericCast<uint16_t>] of a row within its vector. *)
Definition to_uint16 (r : nat) : result nat :=
  if Z.of_nat r <=? 65535 then Ok r else Throw (InternalException "Information loss on integer cast").

Definition rows_are_consecutive (rows : list nat) (n : nat) : bool :=
  bool_decide (take n rows = seq 0 n).

(** [DuckTransaction::PushDelete]: the record added to the undo buffer. *)
Definition PushDelete (vector_idx : nat) (rows : list nat) (n : nat) (base_row : Z) : result DeleteInfo :=
  if rows_are_consecutive rows n then Ok (mkDeleteInfo vector_idx n base_row true [])
  else r ← mapR_n to_uint16 n rows; Ok (mkDeleteInfo vector_idx n base_row false r).

(** [CommitState::CommitEntry] and [RollbackState::RollbackEntry] of a
    deletion. *)
Definition CommitEntry (commit_id : Z) (m : RowVersionManager) (d : DeleteInfo) : result RowVersionManager :=
  Manager_CommitDelete m (delete_vector_idx d) commit_id d.
Definition RollbackEntry (m : RowVersionManager) (d : DeleteInfo) : result RowVersionManager :=
  Manager_CommitDelete m (delete_vector_idx d) NOT_DELETED_ID d.

(** ** [VersionDeleteState] *)

(** The version info of the row group, the vector being collected and its
    rows, the number of deleted rows and the undo records, newest last. *)
Record VersionDeleteState : Type := mkDeleteState {
  ds_manager : RowVersionManager;
  current_chunk : option nat;
  ds_rows : list nat;
  ds_base_row : Z;
  ds_delete_count : nat;
  ds_undo : list DeleteInfo
}.

Definition VersionDeleteState_new (m : RowVersionManager) (base_row : Z) : VersionDeleteState :=
  mkDeleteState m None [] base_row O [].

(** [chunk_row] is the first row of the current vector. *)
Definition Flush (t : TransactionData) (s : VersionDeleteState) : VersionDeleteState * result unit :=
  match ds_rows s, current_chunk s with
  | [], _ => (s, Ok tt)
  | _, None => (s, out_of_range)
  | rows, Some chunk =>
      let '(m, rows', r) := DeleteRows (ds_manager s) chunk (transaction_id t) rows (length rows) in
      match r with
      | Throw e => (mkDeleteState m (Some chunk) rows' (ds_base_row s) (ds_delete_count s) (ds_undo s), Throw e)
      | Ok actual_delete_count =>
          let total := (ds_delete_count s + actual_delete_count)%nat in
          let chunk_row := Z.of_nat (chunk * STANDARD_VECTOR_SIZE) in
          if (actual_delete_count =? 0)%nat
          then (mkDeleteState m (Some chunk) [] (ds_base_row s) total (ds_undo s), Ok tt)
          else match PushDelete chunk rows' actual_delete_count (wrapu 64 (ds_base_row s + chunk_row)) with
               | Ok d => (mkDeleteState m (Some chunk) [] (ds_base_row s) total (ds_undo s ++ [d]), Ok tt)
               | Throw e => (mkDeleteState m (Some chunk) rows' (ds_base_row s) total (ds_undo s), Throw e)
               end
      end
  end.

Definition DeleteState_Delete (t : TransactionData) (s : VersionDeleteState) (row_id : nat)
    : VersionDeleteState * result unit :=
  let vector_idx := (row_id / STANDARD_VECTOR_SIZE)%nat in
  let idx_in_vector := (row_id - vector_idx * STANDARD_VECTOR_SIZE)%nat in
  let '(s, r) :=
    if bool_decide (current_chunk s = Some vector_idx) then (s, Ok tt)
    else match Flush t s with
         | (s, Ok _) => (mkDeleteState (ds_manager s) (Some vector_idx) (ds_rows s) (ds_base_row s) (ds_delete_count s) (ds_undo s), Ok tt)
         | (s, Throw e) => (s, Throw e)
         end in
  match r with
  | Throw e => (s, Throw e)
  | Ok _ =>
      if (length (ds_rows s) <? STANDARD_VECTOR_SIZE)%nat
      then (mkDeleteState (ds_manager s) (current_chunk s) (ds_rows s ++ [idx_in_vector]) (ds_base_row s)
              (ds_delete_count s) (ds_undo s), Ok tt)
      else (s, out_of_range)
  end.

(** [RowGroup::Delete]: the row ids relative to the row group. *)
Fixpoint delete_ids (t : TransactionData) (s : VersionDeleteState) (ids : list nat) : VersionDeleteState * result nat :=
  match ids with
  | [] => let '(s, r) := Flush t s in
          (s, match r with Ok _ => Ok (ds_delete_count s) | Throw e => Throw e end)
  | id :: ids => match DeleteState_Delete t s id with
                 | (s, Ok _) => delete_ids t s ids
                 | (s, Throw e) => (s, Throw e)
                 end
  end.

Definition RowGroup_Delete (m : RowVersionManager) (t : TransactionData) (base_row : Z) (ids : list nat)
    : VersionDeleteState * result nat :=
  delete_ids t (VersionDeleteState_new m base_row) ids.

(** * Checkpoint *)

(** The infos that hold deletions, with their vectors. *)
Definition to_serialize (m : RowVersionManager) : list (nat * ChunkInfo) :=
  omap (λ '(i, o), match o with Some info => if HasDeletes info then Some (i, info) else None | None => None end)
       (imap (λ i o, (i, o)) (vector_info m)).

Definition Checkpoint (m : RowVersionManager) : result (RowVersionManager * option stream) :=
  match storage_pointers m, has_changes m with
  | Some s, false => Ok (m, Some s)
  | _, _ =>
      let l := to_serialize m in
      match l with
      | [] => Ok (m, None)
      | _ =>
          w ← foldM (λ w '(i, info), b ← Write info; Ok (w ++ write_uint 8 (Z.of_nat i) ++ b))
                    (write_uint 8 (Z.of_nat (length l))) l;
          Ok (mkManager (rvm_start m) (vector_info m) false (Some w), Some w)
      end
  end.

Fixpoint read_infos (n : nat) (l : list (option ChunkInfo)) (s : stream) : result (list (option ChunkInfo) * stream) :=
  match n with
  | O => Ok (l, s)
  | S n =>
      '(vector_index, s) ← read_uint 8 s;
      if Z.of_nat ROW_GROUP_VECTOR_COUNT <=? vector_index
      then Throw (InternalException "In DeserializeDeletes, vector_index is out of range for the row group. Corrupted file?")
      else '(o, s) ← Read s; l ← vset l (Z.to_nat vector_index) o; read_infos n l s
  end.

(** [Deserialize]: no manager without a valid pointer. *)
Definition Deserialize (pointer : option stream) (start : Z) : result (option RowVersionManager) :=
  match pointer with
  | None => Ok None
  | Some s =>
      let m := RowVersionManager_new start in
      '(chunk_count, rest) ← read_uint 8 s;
      '(l, _) ← read_infos (Z.to_nat chunk_count) (vector_info m) rest;
      Ok (Some (mkManager start l false (Some s)))
  end.
