(* ===== verification/VersionFacts.v ===== *)
(** The version map of a row group, how the operations of the version manager
    change it, deletions among them, and what committing or rolling back the
    undo records of a deletion does. *)
From S2P Require Import Prelude Bits SelectionVector ValidityMask MaskFacts ChunkInfo ChunkFacts RowVersionManager.

(** The vector size is only used through these facts. *)
Lemma vector_size_pos : (0 < STANDARD_VECTOR_SIZE)%nat.
Proof. apply Nat.ltb_lt. vm_compute. done. Qed.

Lemma vector_size_u16 : Z.of_nat STANDARD_VECTOR_SIZE ≤ 65535.
Proof. apply Z.leb_le. vm_compute. done. Qed.

#[global] Opaque STANDARD_VECTOR_SIZE.

Abbreviation SVS := STANDARD_VECTOR_SIZE.

(** * The version map of a row group *)

Definition info_inserted (o : option ChunkInfo) (r : nat) : Z :=
  match o with None => 0 | Some i => inserted_at i r end.
Definition info_deleted (o : option ChunkInfo) (r : nat) : Z :=
  match o with None => NOT_DELETED_ID | Some i => deleted_at i r end.

Definition row_info (m : RowVersionManager) (row : nat) : option ChunkInfo :=
  default None (vector_info m !! (row / SVS)%nat).
Definition row_inserted (m : RowVersionManager) (row : nat) : Z := info_inserted (row_info m row) (row mod SVS).
Definition row_deleted (m : RowVersionManager) (row : nat) : Z := info_deleted (row_info m row) (row mod SVS).

(** The rows transaction [t] sees. *)
Definition row_visible (t : TransactionData) (m : RowVersionManager) (row : nat) : bool :=
  UseVersion t (row_inserted m row) && negb (UseVersion t (row_deleted m row)).

(** The rows of vector [i] in a row group of [n] rows. *)
Definition rows_in (n i : nat) : nat := Nat.min SVS (n - i * SVS).

Record manager_wf (n : nat) (m : RowVersionManager) : Prop := {
  mw_length : length (vector_info m) = ROW_GROUP_VECTOR_COUNT;
  mw_chunks : ∀ i info, vector_info m !! i = Some (Some info) → chunk_wf (rows_in n i) info
}.

Lemma manager_new_wf n start : manager_wf n (RowVersionManager_new start).
Proof.
  split; [apply length_replicate|]. intros i info. cbn [vector_info RowVersionManager_new].
  intros [? ?]%lookup_replicate. done.
Qed.

Lemma row_of i r : (r < SVS)%nat → ((i * SVS + r) / SVS = i ∧ (i * SVS + r) mod SVS = r)%nat.
Proof.
  intros Hr. split.
  - symmetry. apply (Nat.div_unique _ _ _ r); [done | lia].
  - symmetry. apply (Nat.mod_unique _ _ i); [done | lia].
Qed.

Lemma row_split row : row = (row / SVS * SVS + row mod SVS)%nat ∧ (row mod SVS < SVS)%nat.
Proof.
  pose proof vector_size_pos. split; [|apply Nat.mod_upper_bound; lia].
  rewrite Nat.mul_comm. apply Nat.div_mod_eq.
Qed.

Lemma row_index row : (row < ROW_GROUP_VECTOR_COUNT * SVS)%nat → (row / SVS < ROW_GROUP_VECTOR_COUNT)%nat.
Proof. intros H. apply Nat.Div0.div_lt_upper_bound. lia. Qed.

Lemma row_index_inv row : (row / SVS < ROW_GROUP_VECTOR_COUNT)%nat → (row < ROW_GROUP_VECTOR_COUNT * SVS)%nat.
Proof.
  intros H. destruct (row_split row) as [Hs Hm]. rewrite Hs.
  assert (row / SVS * SVS + SVS ≤ ROW_GROUP_VECTOR_COUNT * SVS)%nat; [|lia].
  replace (row / SVS * SVS + SVS)%nat with ((S (row / SVS)) * SVS)%nat by lia. by apply Nat.mul_le_mono_r.
Qed.

(** * Scans and fetches *)

Lemma UseVersion_0 t : transaction_ok t → UseVersion t 0 = true.
Proof.
  intros [[? ?] _]. unfold UseVersion. cbn. unfold transaction_inserted.
  by rewrite (proj2 (Z.ltb_lt _ _)).
Qed.

Lemma UseVersion_undeleted t : transaction_ok t → UseVersion t NOT_DELETED_ID = false.
Proof. intros H%transaction_keeps. by apply negb_true_iff in H. Qed.

Lemma visible_no_info t m row : transaction_ok t → row_info m row = None → row_visible t m row = true.
Proof.
  intros Ht H. unfold row_visible, row_inserted, row_deleted. rewrite H. cbn [info_inserted info_deleted].
  by rewrite UseVersion_0, UseVersion_undeleted by done.
Qed.

Lemma visible_info t m row i :
  row_info m row = Some i →
  row_visible t m row = visible TransactionVersionOperator (start_time t) (transaction_id t) i (row mod SVS).
Proof. intros H. unfold row_visible, row_inserted, row_deleted. by rewrite H. Qed.

Lemma Manager_GetSelVector_ok m n t i sel max cap :
  manager_wf n m → transaction_ok t → (i < ROW_GROUP_VECTOR_COUNT)%nat → (max ≤ rows_in n i)%nat →
  sel_cap sel cap → (max ≤ cap)%nat →
  selects (Manager_GetSelVector m t i sel max) max cap (λ r, row_visible t m (i * SVS + r)).
Proof.
  intros [L W] Ht Hi Hm Hc Hcap. unfold Manager_GetSelVector, GetChunkInfo.
  destruct (lookup_lt_is_Some_2 (vector_info m) i) as [o Ho]; [lia|].
  assert (Hmax : (max ≤ SVS)%nat) by (unfold rows_in in Hm; lia).
  assert (Hrow : ∀ r, (r < max)%nat → row_info m (i * SVS + r) = o).
  { intros r Hr. unfold row_info. rewrite (proj1 (row_of i r ltac:(lia))), Ho. done. }
  rewrite (vget_lookup _ _ _ Ho). cbn [mbind result_bind]. destruct o as [info|].
  - apply (selects_ext _ _ _ (visible TransactionVersionOperator (start_time t) (transaction_id t) info)).
    { intros r Hr. rewrite (visible_info _ _ _ info) by (by apply Hrow).
      by rewrite (proj2 (row_of i r ltac:(lia))). }
    assert (Hg : GetSelVector t info sel max =
                 TemplatedGetSelVector TransactionVersionOperator (start_time t) (transaction_id t) info sel max)
      by (by destruct info).
    rewrite Hg. apply (TemplatedGetSelVector_ok _ _ _ _ (rows_in n i)); try done; [by apply W | by apply transaction_keeps].
  - apply selects_all; [done|]. intros r Hr. apply visible_no_info; [done | by apply Hrow].
Qed.

Lemma Manager_Fetch_ok m n t row :
  manager_wf n m → transaction_ok t → (row < ROW_GROUP_VECTOR_COUNT * SVS)%nat →
  Manager_Fetch m t row = Ok (row_visible t m row).
Proof.
  intros [L W] Ht Hr. unfold Manager_Fetch, GetChunkInfo.
  destruct (lookup_lt_is_Some_2 (vector_info m) (row / SVS)) as [o Ho]; [rewrite L; by apply row_index|].
  destruct (row_split row) as [Hs Hlt].
  assert (Hi : row_info m row = o) by (unfold row_info; by rewrite Ho).
  rewrite (vget_lookup _ _ _ Ho). cbn [mbind result_bind]. destruct o as [info|].
  - replace (row - row / SVS * SVS)%nat with (row mod SVS)%nat by lia.
    rewrite (Fetch_ok t info (rows_in n (row / SVS))) by (done || by apply W). by rewrite (visible_info _ _ _ info).
  - by rewrite visible_no_info.
Qed.

(** * Changing one vector *)

(** Replacing the info of vector [i] changes the rows of that vector only. *)
Lemma row_info_insert m i o row :
  (i < length (vector_info m))%nat →
  row_info (set_vector_info m (<[i := o]> (vector_info m))) row = if decide (row / SVS = i)%nat then o else row_info m row.
Proof.
  intros Hi. unfold row_info. cbn [vector_info set_vector_info]. case_decide as D.
  - by rewrite D, list_lookup_insert_eq.
  - by rewrite list_lookup_insert_ne.
Qed.

Lemma manager_wf_insert n m i info :
  manager_wf n m → chunk_wf (rows_in n i) info →
  manager_wf n (set_vector_info m (<[i := Some info]> (vector_info m))).
Proof.
  intros [L W] Hi. split; cbn [vector_info set_vector_info]; [by rewrite length_insert|].
  intros j info'. destruct (decide (i = j)) as [<-|Hne].
  - intros H. apply list_lookup_insert_Some in H as [(_ & [= <-] & _)|(? & _)]; done.
  - rewrite list_lookup_insert_ne by done. apply W.
Qed.

(** A vector whose deletion state a vector info can take over. *)
Definition convertible (o : option ChunkInfo) : Prop :=
  match o with Some (CONSTANT_INFO c) => const_delete_id c = NOT_DELETED_ID | _ => True end.

(** [GetVectorInfo] keeps the version map. *)
Lemma GetVectorInfo_ok m n i o :
  manager_wf n m → vector_info m !! i = Some o → convertible o →
  ∃ v, GetVectorInfo m i = Ok (set_vector_info m (<[i := Some (VECTOR_INFO v)]> (vector_info m)), v) ∧
       vector_wf (rows_in n i) v ∧
       (∀ r, (r < SVS)%nat → inserted_at (VECTOR_INFO v) r = info_inserted o r ∧ deleted_at (VECTOR_INFO v) r = info_deleted o r) ∧
       (∀ v0, o = Some (VECTOR_INFO v0) → v = v0).
Proof.
  intros [L W] Ho Hc. unfold GetVectorInfo. rewrite (vget_lookup _ _ _ Ho). cbn [mbind result_bind].
  pose proof (lookup_lt_Some _ _ _ Ho). rewrite vset_lt by done. cbn [mbind result_bind].
  eexists. split; [done|]. destruct o as [[c|v]|].
  - cbn in Hc. split_and!; [|intros r Hr; split|done].
    + split; cbn [set_inserted inserted deleted ChunkVectorInfo_new insert_id]; [apply length_replicate.. | |].
      * intros _ r Hr. apply lookup_replicate_2. unfold rows_in in Hr. lia.
      * intros _ r Hr. by apply lookup_replicate_2.
    + cbn [inserted_at set_inserted inserted info_inserted]. by rewrite lookup_replicate_2.
    + cbn [deleted_at set_inserted deleted ChunkVectorInfo_new info_deleted]. by rewrite lookup_replicate_2.
  - split_and!; [exact (W _ _ Ho) | done | by intros ? [= ->]].
  - split_and!; [|intros r Hr; split|done].
    + eapply vector_wf_le; [apply vector_new_wf|]. unfold rows_in. lia.
    + cbn [inserted_at inserted info_inserted ChunkVectorInfo_new]. by rewrite lookup_replicate_2.
    + cbn [deleted_at deleted info_deleted ChunkVectorInfo_new]. by rewrite lookup_replicate_2.
Qed.

(** * One vector *)

(** The rows of the row group at the positions [L] of vector [i]. *)
Definition global_rows (i : nat) (L : list nat) : list nat := (λ r, i * SVS + r)%nat <$> L.

Lemma elem_of_global i L row :
  (∀ r, r ∈ L → (r < SVS)%nat) → row ∈ global_rows i L ↔ (row / SVS = i)%nat ∧ (row mod SVS)%nat ∈ L.
Proof.
  intros HL. unfold global_rows. rewrite list_elem_of_fmap. split.
  - intros (r & -> & Hr). destruct (row_of i r) as [-> ->]; [by apply HL | done].
  - intros [<- Hr]. exists (row mod SVS)%nat. split; [apply row_split | done].
Qed.

(** The map [m'] is [m] with the ids of the rows [D] replaced by [id]. *)
Definition redeleted (m m' : RowVersionManager) (D : list nat) (id : Z) : Prop :=
  ∀ row, (row < ROW_GROUP_VECTOR_COUNT * SVS)%nat →
    row_inserted m' row = row_inserted m row ∧
    row_deleted m' row = if decide (row ∈ D) then id else row_deleted m row.

Lemma redeleted_refl m id : redeleted m m [] id.
Proof. intros row _. by rewrite decide_False by apply not_elem_of_nil. Qed.

Lemma redeleted_app m1 m2 m3 D E id : redeleted m1 m2 D id → redeleted m2 m3 E id → redeleted m1 m3 (D ++ E) id.
Proof.
  intros H1 H2 row Hr. destruct (H1 row Hr) as [I1 D1], (H2 row Hr) as [I2 D2]. split; [congruence|].
  rewrite D2, D1. destruct (decide (row ∈ E)).
  - by rewrite decide_True by (apply elem_of_app; by right).
  - destruct (decide (row ∈ D)).
    + by rewrite decide_True by (apply elem_of_app; by left).
    + by rewrite decide_False by (rewrite elem_of_app; tauto).
Qed.

(** Vector [i] is kept row by row and may hold deletions. *)
Definition holds_deletes (m : RowVersionManager) (i : nat) : Prop :=
  ∃ v, vector_info m !! i = Some (Some (VECTOR_INFO v)) ∧ any_deleted v = true.

(** Replacing the info of vector [i] by one whose positions [L] carry [id]. *)
Lemma redeleted_vector m i o v' (L : list nat) id :
  vector_info m !! i = Some o → (∀ r, r ∈ L → (r < SVS)%nat) →
  (∀ r, (r < SVS)%nat → inserted_at (VECTOR_INFO v') r = info_inserted o r ∧
     deleted_at (VECTOR_INFO v') r = if decide (r ∈ L) then id else info_deleted o r) →
  redeleted m (set_vector_info m (<[i := Some (VECTOR_INFO v')]> (vector_info m))) (global_rows i L) id.
Proof.
  intros Ho HL Hv row Hrow. pose proof (lookup_lt_Some _ _ _ Ho). unfold row_inserted, row_deleted.
  rewrite row_info_insert by done. destruct (row_split row) as [_ Hm]. destruct (Hv _ Hm) as [Hi Hd].
  destruct (decide (row / SVS = i)%nat) as [E|E].
  - cbn [info_inserted info_deleted]. rewrite Hi, Hd. unfold row_info. rewrite E, Ho. cbn [default]. split; [done|].
    destruct (decide (row mod SVS ∈ L)%nat) as [D|D].
    + by rewrite decide_True by (by apply elem_of_global).
    + by rewrite decide_False by (rewrite elem_of_global by done; tauto).
  - split; [done|]. by rewrite decide_False by (rewrite elem_of_global by done; tauto).
Qed.

(** [DeleteRows] without conflicts. *)
Lemma DeleteRows_ok m n i o tid rows k :
  manager_wf n m → vector_info m !! i = Some o → convertible o → tid ≠ NOT_DELETED_ID → (k ≤ length rows)%nat →
  (∀ r, r ∈ rows → (r < SVS)%nat) → (∀ r, r ∈ take k rows → info_deleted o r = NOT_DELETED_ID ∨ info_deleted o r = tid) →
  ∃ m' F, DeleteRows m i tid rows k = (m', F ++ drop (length F) rows, Ok (length F)) ∧ manager_wf n m' ∧
          redeleted m m' (global_rows i (take k rows)) tid ∧ holds_deletes m' i ∧
          (∀ j, j ≠ i → vector_info m' !! j = vector_info m !! j) ∧
          NoDup F ∧ (∀ r, r ∈ F ↔ r ∈ take k rows ∧ info_deleted o r = NOT_DELETED_ID).
Proof.
  intros W Ho Hcv Ht Hk Hr Hc. unfold DeleteRows.
  destruct (GetVectorInfo_ok (mark_changed m) n i o) as (v & E & Wv & Hv & _); [by destruct W | done | done |].
  rewrite E. pose proof (lookup_lt_Some _ _ _ Ho) as Hi.
  assert (Hin : ∀ r, r ∈ take k rows → (r < SVS)%nat).
  { intros r (j & Hj & _)%elem_of_take. apply Hr. by eapply list_elem_of_lookup_2. }
  destruct (Delete_ok v (rows_in n i) tid rows k Wv Ht Hk Hr) as (v' & F & Ed & Wv' & Ha & HF & HF' & Hins & Hdel).
  { intros r Hin'. specialize (Hc r Hin'). destruct (Hv r (Hin r Hin')) as [_ Hd]. rewrite <- Hd in Hc. intros [C1 C2]. tauto. }
  rewrite Ed. cbn [vector_info set_vector_info mark_changed]. rewrite list_insert_insert_eq.
  eexists _, F. split; [done|].
  change (set_vector_info _ ?l) with (set_vector_info (mark_changed m) l).
  assert (Wm : manager_wf n (mark_changed m)) by (by destruct W).
  split_and!.
  - by apply (manager_wf_insert n (mark_changed m)).
  - apply (redeleted_vector (mark_changed m) i o); [done | done |]. intros r Hlt. rewrite Hins, Hdel.
    by destruct (Hv r Hlt) as [-> ->].
  - exists v'. split; [|done]. by apply list_lookup_insert_eq.
  - intros j Hj. by apply list_lookup_insert_ne.
  - done.
  - intros r. rewrite HF'. split; intros [Hin' Hd]; (split; [done|]).
    + by destruct (Hv r (Hin r Hin')) as [_ <-].
    + by destruct (Hv r (Hin r Hin')) as [_ ->].
Qed.

(** * Undo records *)

(** A record of rows of vector [i]. *)
Record record_ok (d : DeleteInfo) : Prop := {
  ro_idx : (delete_vector_idx d < ROW_GROUP_VECTOR_COUNT)%nat;
  ro_rows : ∀ r, r ∈ recorded_rows d → (r < SVS)%nat;
  ro_length : is_consecutive d = false → (delete_count d ≤ length (delete_rows d))%nat
}.

Definition undo_rows (d : DeleteInfo) : list nat := global_rows (delete_vector_idx d) (recorded_rows d).

Lemma PushDelete_ok i F rest base :
  (i < ROW_GROUP_VECTOR_COUNT)%nat → (∀ r, r ∈ F → (r < SVS)%nat) →
  ∃ d, PushDelete i (F ++ rest) (length F) base = Ok d ∧ record_ok d ∧ delete_vector_idx d = i ∧ recorded_rows d = F.
Proof.
  intros Hi HF. unfold PushDelete, rows_are_consecutive. rewrite take_app_length. case_bool_decide as E.
  - eexists. split; [done|]. unfold recorded_rows. cbn [is_consecutive delete_count delete_vector_idx].
    split_and!; [split; cbn [delete_vector_idx]; [done | | done] | done | done].
    intros r. unfold recorded_rows. cbn [is_consecutive delete_count]. rewrite <- E. apply HF.
  - assert (Hm : mapR_n to_uint16 (length F) (F ++ rest) = Ok F).
    { clear E. induction F as [|x F IH]; [by destruct rest|]. cbn [length app mapR_n].
      assert (to_uint16 x = Ok x) as ->.
      { unfold to_uint16. assert (x < SVS)%nat by (apply HF; left). pose proof vector_size_u16.
        by rewrite (proj2 (Z.leb_le _ _)) by lia. }
      cbn [mbind result_bind]. rewrite IH by (intros r Hr; apply HF; by right). done. }
    rewrite Hm. cbn [mbind result_bind]. eexists. split; [done|]. unfold recorded_rows.
    cbn [is_consecutive delete_count delete_vector_idx delete_rows]. rewrite take_ge by lia.
    split_and!; [split; cbn; [done | | lia] | done | done].
    intros r. unfold recorded_rows. cbn [is_consecutive delete_count delete_rows]. rewrite take_ge by lia. apply HF.
Qed.

(** Committing or rolling back one record. *)
Lemma Manager_CommitDelete_ok m n id d :
  manager_wf n m → record_ok d → holds_deletes m (delete_vector_idx d) →
  ∃ m', Manager_CommitDelete m (delete_vector_idx d) id d = Ok m' ∧ manager_wf n m' ∧
        redeleted m m' (undo_rows d) id ∧ (∀ i, holds_deletes m i → holds_deletes m' i).
Proof.
  intros W [Hi Hr Hl] (v & Hv & Ha). unfold Manager_CommitDelete.
  assert (Wm : manager_wf n (mark_changed m)) by (by destruct W).
  destruct (GetVectorInfo_ok (mark_changed m) n (delete_vector_idx d) _ Wm Hv I) as (v' & E & Wv & _ & Heq).
  rewrite (Heq v eq_refl) in *. clear Heq v'. rewrite E. cbn [mbind result_bind].
  destruct (CommitDelete_ok v (rows_in n (delete_vector_idx d)) id d Wv Ha Hr Hl) as (v' & -> & Wv' & Ha' & Hins & Hdel).
  cbn [mbind result_bind vector_info set_vector_info mark_changed]. pose proof (lookup_lt_Some _ _ _ Hv).
  rewrite vset_lt by (by rewrite length_insert). cbn [mbind result_bind]. rewrite list_insert_insert_eq.
  eexists. split; [done|].
  change (set_vector_info _ ?l) with (set_vector_info (mark_changed m) l). split_and!.
  - by apply (manager_wf_insert n (mark_changed m)).
  - apply (redeleted_vector (mark_changed m) _ (Some (VECTOR_INFO v))); [done | done |]. intros r _. by rewrite Hins, Hdel.
  - intros i (w & Hw & Haw). unfold holds_deletes. cbn [vector_info set_vector_info mark_changed].
    destruct (decide (delete_vector_idx d = i)) as [<-|].
    + exists v'. split; [by apply list_lookup_insert_eq | done].
    + exists w. by rewrite list_lookup_insert_ne.
Qed.

Definition recorded (undo : list DeleteInfo) : list nat := concat (undo_rows <$> undo).

Lemma recorded_same (u u' : list DeleteInfo) row :
  (∀ d, d ∈ u ↔ d ∈ u') → row ∈ recorded u ↔ row ∈ recorded u'.
Proof.
  intros H. unfold recorded. rewrite !list_elem_of_In, !in_concat.
  split; intros (x & (d & -> & Hd%H)%list_elem_of_In%list_elem_of_fmap & Hx); exists (undo_rows d);
    (split; [|done]); apply list_elem_of_In, list_elem_of_fmap; by exists d.
Qed.

(** Committing or rolling back a list of records. *)
Lemma commit_records m n id (undo : list DeleteInfo) :
  manager_wf n m → Forall (λ d, record_ok d ∧ holds_deletes m (delete_vector_idx d)) undo →
  ∃ m', foldM (λ m d, Manager_CommitDelete m (delete_vector_idx d) id d) m undo = Ok m' ∧ manager_wf n m' ∧
        redeleted m m' (recorded undo) id.
Proof.
  intros W HU. revert m W HU. induction undo as [|d undo IH]; intros m W HU.
  - exists m. split; [done|]. split; [done | apply redeleted_refl].
  - apply Forall_cons in HU as [[Hd Hh] HU].
    destruct (Manager_CommitDelete_ok m n id d W Hd Hh) as (m1 & E & W1 & R1 & K1).
    destruct (IH m1 W1) as (m2 & E2 & W2 & R2).
    { eapply Forall_impl; [exact HU|]. intros d' [Hd' Hh']. split; [done | by apply K1]. }
    exists m2. cbn [foldM]. rewrite E. cbn [mbind result_bind]. split; [done|]. split; [done|].
    by eapply redeleted_app.
Qed.

(** * Deleting a list of rows *)

(** The rows collected for the current vector. *)
Definition pending (s : VersionDeleteState) : list nat :=
  match current_chunk s with Some i => global_rows i (ds_rows s) | None => [] end.

(** The state of [RowGroup::Delete] started on [m0] after the rows [P], with
    the rows [D] flushed. *)
Record delete_state_inv (n : nat) (m0 : RowVersionManager) (tid : Z) (P D : list nat) (s : VersionDeleteState) : Prop := {
  dsi_wf : manager_wf n (ds_manager s);
  dsi_map : redeleted m0 (ds_manager s) D tid;
  dsi_info : ∀ j, vector_info (ds_manager s) !! j = vector_info m0 !! j ∨ holds_deletes (ds_manager s) j;
  dsi_pending : ∀ r, r ∈ ds_rows s → (r < SVS)%nat;
  dsi_chunk : ∀ i, current_chunk s = Some i → (i < ROW_GROUP_VECTOR_COUNT)%nat;
  dsi_none : current_chunk s = None → ds_rows s = [];
  dsi_rows : ∀ row, row ∈ P ↔ row ∈ D ∨ row ∈ pending s;
  dsi_undo : Forall (λ d, record_ok d ∧ holds_deletes (ds_manager s) (delete_vector_idx d)) (ds_undo s);
  dsi_recorded : ∀ row, row ∈ recorded (ds_undo s) ↔ row ∈ D ∧ row_deleted m0 row = NOT_DELETED_ID;
  dsi_nodup : NoDup (recorded (ds_undo s));
  dsi_count : ds_delete_count s = length (recorded (ds_undo s))
}.

Section delete_rows.
Context (n : nat) (m0 : RowVersionManager) (t : TransactionData) (P : list nat).
Context (Htid : (transaction_id t) ≠ NOT_DELETED_ID).
(** The rows to delete lie in the row group, none was deleted by another
    transaction, and their vectors can be kept row by row. *)
Context (HP : ∀ row, row ∈ P → (row < ROW_GROUP_VECTOR_COUNT * SVS)%nat ∧ convertible (row_info m0 row) ∧
              (row_deleted m0 row = NOT_DELETED_ID ∨ row_deleted m0 row = (transaction_id t))).

(** The vector of a pending row. *)
Lemma pending_vector Q D s i r :
  (∀ row, row ∈ Q → row ∈ P) → delete_state_inv n m0 (transaction_id t) Q D s → current_chunk s = Some i → r ∈ ds_rows s →
  ∃ o, vector_info (ds_manager s) !! i = Some o ∧ convertible o ∧
       row_deleted (ds_manager s) (i * SVS + r) = info_deleted o r ∧
       (info_deleted o r = NOT_DELETED_ID ∨ info_deleted o r = (transaction_id t)).
Proof using HP.
  intros HQ I Hi Hr. pose proof (dsi_pending _ _ _ _ _ _ I r Hr) as Hlt.
  assert (Hrow : (i * SVS + r)%nat ∈ P).
  { apply HQ, (dsi_rows _ _ _ _ _ _ I). right. unfold pending. rewrite Hi. unfold global_rows.
    apply list_elem_of_fmap. by exists r. }
  destruct (HP _ Hrow) as (Hin & Hcv & Hdel). destruct (row_of i r Hlt) as [Hdiv Hmod].
  pose proof (dsi_chunk _ _ _ _ _ _ I i Hi) as Hlen. rewrite <- (mw_length _ _ (dsi_wf _ _ _ _ _ _ I)) in Hlen.
  destruct (lookup_lt_is_Some_2 _ _ Hlen) as [o Ho]. exists o.
  assert (Hd : row_deleted (ds_manager s) (i * SVS + r) = info_deleted o r)
    by (unfold row_deleted, row_info; by rewrite Hdiv, Hmod, Ho).
  split; [done|]. split_and!; [|done|].
  - destruct (dsi_info _ _ _ _ _ _ I i) as [E|(v & E & _)]; rewrite E in Ho.
    + unfold row_info in Hcv. by rewrite Hdiv, Ho in Hcv.
    + by injection Ho as <-.
  - rewrite <- Hd, (proj2 (dsi_map _ _ _ _ _ _ I _ Hin)). case_decide; tauto.
Qed.

(** The rows of the row group that a flush newly deletes. *)
Lemma flush_fresh Q D s i o F :
  delete_state_inv n m0 (transaction_id t) Q D s → current_chunk s = Some i →
  (∀ r, r ∈ ds_rows s → row_deleted (ds_manager s) (i * SVS + r) = info_deleted o r) →
  (∀ r, r ∈ F ↔ r ∈ ds_rows s ∧ info_deleted o r = NOT_DELETED_ID) →
  ∀ row, row ∈ global_rows i F ↔ row ∈ pending s ∧ (row ∉ D) ∧ row_deleted m0 row = NOT_DELETED_ID.
Proof using Htid.
  intros I Ei Hpv HF row. unfold pending. rewrite Ei.
  assert (HFr : ∀ r, r ∈ F → (r < SVS)%nat) by (intros r [Hr _]%HF; by apply (dsi_pending _ _ _ _ _ _ I)).
  rewrite !elem_of_global by (done || apply I). rewrite HF.
  split; [intros (Hdiv & Hr & Hd) | intros ((Hdiv & Hr) & HD & Hd)]; pose proof (Hpv _ Hr) as Hpd;
    rewrite <- Hdiv, <- (proj1 (row_split row)) in Hpd;
    (assert (Hrow : (row < ROW_GROUP_VECTOR_COUNT * SVS)%nat)
       by (apply row_index_inv; rewrite Hdiv; by apply (dsi_chunk _ _ _ _ _ _ I)));
    rewrite (proj2 (dsi_map _ _ _ _ _ _ I row Hrow)) in Hpd.
  - split_and!; [done | done | intros HD; rewrite decide_True in Hpd by done; congruence |].
    case_decide; congruence.
  - rewrite decide_False in Hpd by done. split_and!; [done | done | congruence].
Qed.

(** The state after a flush that newly deleted the positions [F]. *)
Lemma flush_inv Q D s i m' F undo' :
  delete_state_inv n m0 (transaction_id t) Q D s → current_chunk s = Some i → manager_wf n m' →
  redeleted (ds_manager s) m' (global_rows i (ds_rows s)) (transaction_id t) → holds_deletes m' i →
  (∀ j, j ≠ i → vector_info m' !! j = vector_info (ds_manager s) !! j) → NoDup F →
  (∀ row, row ∈ global_rows i F ↔ row ∈ pending s ∧ (row ∉ D) ∧ row_deleted m0 row = NOT_DELETED_ID) →
  recorded undo' = recorded (ds_undo s) ++ global_rows i F →
  Forall (λ d, record_ok d ∧ holds_deletes m' (delete_vector_idx d)) undo' →
  delete_state_inv n m0 (transaction_id t) Q (D ++ global_rows i (ds_rows s))
    (mkDeleteState m' (Some i) [] (ds_base_row s) (ds_delete_count s + length F) undo').
Proof using.
  intros I Ei W' R Hh Hother HF Hfresh Hrec Hundo.
  assert (Hpend : pending s = global_rows i (ds_rows s)) by (unfold pending; by rewrite Ei).
  split; cbn [ds_manager current_chunk ds_rows ds_undo ds_delete_count]; try done.
  - eapply redeleted_app; [apply I | done].
  - intros j. destruct (decide (j = i)) as [->|Hne]; [by right|]. unfold holds_deletes. rewrite Hother by done.
    apply (dsi_info _ _ _ _ _ _ I j).
  - by intros ? ?%elem_of_nil.
  - intros j [= <-]. by apply (dsi_chunk _ _ _ _ _ _ I).
  - intros row. rewrite (dsi_rows _ _ _ _ _ _ I), Hpend. unfold pending. cbn [current_chunk ds_rows].
    rewrite elem_of_app. cbn [global_rows fmap list_fmap]. rewrite elem_of_nil. tauto.
  - intros row. rewrite Hrec, elem_of_app, (dsi_recorded _ _ _ _ _ _ I), Hfresh, Hpend, elem_of_app.
    destruct (decide (row ∈ D)); tauto.
  - rewrite Hrec. apply NoDup_app. split_and!; [apply I | |].
    + intros row Hr1 Hr2. apply (dsi_recorded _ _ _ _ _ _ I) in Hr1. apply Hfresh in Hr2. tauto.
    + unfold global_rows. apply NoDup_fmap; [intros x y; lia | done].
  - rewrite Hrec, length_app, (dsi_count _ _ _ _ _ _ I). unfold global_rows. by rewrite length_fmap.
Qed.

Lemma Flush_ok Q D s :
  (∀ row, row ∈ Q → row ∈ P) → delete_state_inv n m0 (transaction_id t) Q D s →
  ∃ s' D', Flush t s = (s', Ok tt) ∧ delete_state_inv n m0 (transaction_id t) Q D' s' ∧
           ds_rows s' = [] ∧ current_chunk s' = current_chunk s.
Proof using Htid HP.
  intros HQ I. unfold Flush. destruct (ds_rows s) as [|r0 rows0] eqn:Er; [by exists s, D|].
  destruct (current_chunk s) as [i|] eqn:Ei; [|by rewrite (dsi_none _ _ _ _ _ _ I Ei) in Er].
  rewrite <- Er.
  destruct (pending_vector Q D s i r0 HQ I Ei) as (o & Ho & Hcv & _); [rewrite Er; left|].
  assert (Hpv : ∀ r, r ∈ ds_rows s → row_deleted (ds_manager s) (i * SVS + r) = info_deleted o r ∧
                      (info_deleted o r = NOT_DELETED_ID ∨ info_deleted o r = (transaction_id t))).
  { intros r Hr. destruct (pending_vector Q D s i r HQ I Ei Hr) as (o' & Ho' & _ & H). by simplify_eq. }
  clear r0 rows0 Er.
  destruct (DeleteRows_ok (ds_manager s) n i o (transaction_id t) (ds_rows s) (length (ds_rows s)))
    as (m' & F & E & W' & R & Hh & Hother & HF & HF');
    [apply I | done | done | done | done | apply I | rewrite take_ge by done; intros r Hr; apply Hpv, Hr |].
  rewrite take_ge in R, HF' by done. rewrite E.
  pose proof (flush_fresh Q D s i o F I Ei (λ r Hr, proj1 (Hpv r Hr)) HF') as Hfresh.
  pose proof (λ undo', flush_inv Q D s i m' F undo' I Ei W' R Hh Hother HF Hfresh) as Hinv.
  assert (Hold : Forall (λ d, record_ok d ∧ holds_deletes m' (delete_vector_idx d)) (ds_undo s)).
  { eapply Forall_impl; [apply I|]. intros d [? (v & Hv & ?)]. split; [done|].
    destruct (decide (delete_vector_idx d = i)) as [->|Hne]; [done|]. exists v. by rewrite Hother. }
  destruct (Nat.eqb_spec (length F) 0) as [Hz|Hz].
  - eexists _, _. split; [done|]. split; [|done]. apply Hinv; [|done].
    rewrite (nil_length_inv F Hz). cbn. by rewrite app_nil_r.
  - destruct (PushDelete_ok i F (drop (length F) (ds_rows s)) (wrapu 64 (ds_base_row s + Z.of_nat (i * SVS))))
      as (d & -> & Hd & Hdi & Hdr); [by apply (dsi_chunk _ _ _ _ _ _ I) | |].
    { intros r [Hr _]%HF'. by apply (dsi_pending _ _ _ _ _ _ I). }
    eexists _, _. split; [done|]. split; [|done]. apply Hinv.
    + unfold recorded. rewrite fmap_app, concat_app. cbn. unfold undo_rows at 2. rewrite Hdi, Hdr. by rewrite app_nil_r.
    + apply Forall_app. split; [done|]. apply Forall_singleton. split; [done | by rewrite Hdi].
Qed.

(** Collecting one more row; the buffer holds as many rows as a vector. *)
Lemma collect_ok Q D s row :
  delete_state_inv n m0 (transaction_id t) Q D s → current_chunk s = Some (row / SVS)%nat → row ∈ P →
  (length (ds_rows s) < SVS)%nat →
  delete_state_inv n m0 (transaction_id t) (Q ++ [row]) D
    (mkDeleteState (ds_manager s) (current_chunk s) (ds_rows s ++ [(row - row / SVS * SVS)%nat]) (ds_base_row s)
       (ds_delete_count s) (ds_undo s)).
Proof using HP.
  intros I Ei Hrow Hlen. destruct (row_split row) as [Hs Hm].
  destruct I. split; cbn [ds_manager current_chunk ds_rows ds_undo ds_delete_count]; try done.
  - intros r [Hr| ->%list_elem_of_singleton]%elem_of_app; [auto | lia].
  - by rewrite Ei.
  - intros q. rewrite elem_of_app, dsi_rows0, list_elem_of_singleton. unfold pending. cbn [current_chunk ds_rows].
    rewrite Ei. unfold global_rows. rewrite fmap_app, elem_of_app. cbn [fmap list_fmap]. rewrite list_elem_of_singleton.
    replace (row / SVS * SVS + (row - row / SVS * SVS))%nat with row by lia. tauto.
Qed.

Lemma DeleteState_Delete_ok Q D s row :
  (∀ row, row ∈ Q → row ∈ P) → delete_state_inv n m0 (transaction_id t) Q D s → row ∈ P → (length (ds_rows s) < SVS)%nat →
  ∃ s' D', DeleteState_Delete t s row = (s', Ok tt) ∧ delete_state_inv n m0 (transaction_id t) (Q ++ [row]) D' s' ∧
           (length (ds_rows s') ≤ S (length (ds_rows s)))%nat.
Proof using Htid HP.
  intros HQ I Hrow Hlen. unfold DeleteState_Delete. case_bool_decide as Hc.
  - rewrite (proj2 (Nat.ltb_lt _ _)) by done. eexists _, D. split; [done|].
    split; [by apply collect_ok | cbn [ds_rows]; rewrite length_app; cbn; lia].
  - destruct (Flush_ok Q D s HQ I) as (s1 & D1 & E1 & I1 & R1 & C1). rewrite E1.
    set (s2 := mkDeleteState (ds_manager s1) (Some (row / SVS)%nat) (ds_rows s1) (ds_base_row s1) (ds_delete_count s1) (ds_undo s1)).
    assert (I2 : delete_state_inv n m0 (transaction_id t) Q D1 s2).
    { destruct I1. split; cbn [s2 ds_manager current_chunk ds_rows ds_undo ds_delete_count]; try done.
      - intros i [= <-]. apply row_index, HP, Hrow.
      - intros q. rewrite dsi_rows0. unfold pending. cbn [s2 current_chunk ds_rows]. rewrite R1.
        destruct (current_chunk s1); done. }
    assert (L2 : ds_rows s2 = []) by exact R1. pose proof vector_size_pos.
    rewrite (proj2 (Nat.ltb_lt (length (ds_rows s2)) SVS)) by (rewrite L2; done).
    eexists _, D1. split; [done|]. split; [apply collect_ok; [done | done | done | by rewrite L2]|].
    cbn [ds_rows]. rewrite length_app, L2. cbn. lia.
Qed.

Lemma delete_ids_ok ids : ∀ Q D s,
  (∀ row, row ∈ Q ++ ids → row ∈ P) → delete_state_inv n m0 (transaction_id t) Q D s →
  (length (ds_rows s) + length ids ≤ SVS)%nat →
  ∃ s' D', delete_ids t s ids = (s', Ok (ds_delete_count s')) ∧ delete_state_inv n m0 (transaction_id t) (Q ++ ids) D' s' ∧ ds_rows s' = [].
Proof using Htid HP.
  induction ids as [|row ids IH]; intros Q D s HQ I Hlen; cbn [delete_ids].
  - rewrite app_nil_r in *. destruct (Flush_ok Q D s HQ I) as (s' & D' & -> & I' & R' & _). by exists s', D'.
  - cbn [length] in Hlen.
    destruct (DeleteState_Delete_ok Q D s row) as (s1 & D1 & -> & I1 & L1); [| done | | lia |].
    + intros q Hq. apply HQ, elem_of_app. by left.
    + apply HQ, elem_of_app. right. left.
    + replace (Q ++ row :: ids) with ((Q ++ [row]) ++ ids) in * by (by rewrite <- app_assoc).
      apply (IH (Q ++ [row]) D1 s1); [done | done | lia].
Qed.
End delete_rows.

Lemma delete_state_start n m tid base :
  manager_wf n m → delete_state_inv n m tid [] [] (VersionDeleteState_new m base).
Proof.
  intros W. split; try done; cbn [VersionDeleteState_new ds_manager ds_rows ds_undo ds_delete_count].
  - intros j. by left.
  - by intros ? ?%elem_of_nil.
  - intros row. unfold pending. cbn. tauto.
  - intros row. cbn. rewrite elem_of_nil. tauto.
  - constructor.
Qed.
