(* ===== verification/VersionAppend.v ===== *)
(** Appending rows to a row group: the effect of [AppendVersionInfo] and of
    committing the append on the version map. *)
From S2P Require Import Prelude Bits SelectionVector ValidityMask MaskFacts ChunkInfo ChunkFacts.
From S2P Require Import RowVersionManager VersionFacts.

(** * Loops over vectors *)

(** A loop that replaces the elements at the positions [L], each computed from
    the element it replaces. *)
Lemma foldM_update {A} (f : list A → nat → result (list A)) (Q : nat → A → Prop) (L : list nat) : ∀ l0,
  NoDup L → (∀ i, i ∈ L → (i < length l0)%nat) →
  (∀ l i, i ∈ L → l !! i = l0 !! i → length l = length l0 → ∃ x, f l i = Ok (<[i := x]> l) ∧ Q i x) →
  ∃ l', foldM f l0 L = Ok l' ∧ length l' = length l0 ∧
        (∀ i, i ∈ L → ∃ x, l' !! i = Some x ∧ Q i x) ∧ (∀ i, i ∉ L → l' !! i = l0 !! i).
Proof.
  induction L as [|i L IH]; intros l0 ND Hlt Hf.
  - exists l0. split; [done|]. split; [done|]. split; [by intros ? ?%elem_of_nil | done].
  - apply NoDup_cons in ND as [Hi ND]. cbn [foldM].
    destruct (Hf l0 i ltac:(left) eq_refl eq_refl) as (x & -> & Hx). cbn [mbind result_bind].
    destruct (IH (<[i := x]> l0) ND) as (l' & E & Hl & HL & Ho).
    + intros j Hj. rewrite length_insert. apply Hlt. by right.
    + intros l j Hj Hlj Hll. rewrite length_insert in Hll.
      apply Hf; [by right | | done]. rewrite Hlj. apply list_lookup_insert_ne. by intros ->.
    + exists l'. split; [done|]. rewrite length_insert in Hl. split; [done|]. split.
      * intros j [-> | Hj]%elem_of_cons; [|by apply HL]. exists x. split; [|done]. rewrite Ho by done.
        apply list_lookup_insert_eq, Hlt. left.
      * intros j [Hji Hj]%not_elem_of_cons. rewrite Ho by done. by apply list_lookup_insert_ne.
Qed.

(** * The vectors of a range of rows *)

Lemma touched_spec a b i :
  (a < b)%nat → i ∈ touched_vectors a b ↔ (a / SVS ≤ i ≤ (b - 1) / SVS)%nat.
Proof.
  intros Hab. unfold touched_vectors. rewrite elem_of_seq.
  assert (a / SVS ≤ (b - 1) / SVS)%nat by (apply Nat.Div0.div_le_mono; lia). lia.
Qed.

(** Within vector [i], the rows [a..b) are the positions between
    [vector_begin] and [vector_end]. *)
Lemma in_vector_range a b i r :
  (a < b)%nat → (r < SVS)%nat → (a / SVS ≤ i ≤ (b - 1) / SVS)%nat →
  (a ≤ i * SVS + r < b)%nat ↔ (vector_begin a i ≤ r < vector_end b i)%nat.
Proof.
  intros Hab Hr Hi. destruct (row_split a) as [Ha Ha'], (row_split (b - 1)) as [Hb Hb'].
  unfold vector_begin, vector_end.
  destruct (Nat.eqb_spec i (a / SVS)) as [Ea|Ea]; destruct (Nat.eqb_spec i ((b - 1) / SVS)) as [Eb|Eb];
    rewrite <- ?Ea, <- ?Eb in *; nia.
Qed.

Lemma outside_vector a b row :
  (a < b)%nat → ¬ (a / SVS ≤ row / SVS ≤ (b - 1) / SVS)%nat → ¬ (a ≤ row < b)%nat.
Proof.
  intros Hab Hn Hr. apply Hn. split; apply Nat.Div0.div_le_mono; lia.
Qed.

Lemma vector_end_bounds a b i :
  (a < b)%nat → (a / SVS ≤ i ≤ (b - 1) / SVS)%nat →
  (vector_begin a i ≤ vector_end b i ≤ SVS)%nat ∧ vector_end b i = rows_in b i ∧ vector_begin a i = rows_in a i.
Proof.
  intros Hab Hi. destruct (row_split a) as [Ha Ha'], (row_split (b - 1)) as [Hb Hb'].
  assert (Ve : vector_end b i = rows_in b i).
  { unfold vector_end, rows_in. destruct (Nat.eqb_spec i ((b - 1) / SVS)) as [Eb|Eb].
    - rewrite <- Eb in *. nia.
    - assert (S i * SVS ≤ (b - 1) / SVS * SVS)%nat by (apply Nat.mul_le_mono_r; lia). lia. }
  assert (Vb : vector_begin a i = rows_in a i).
  { unfold vector_begin, rows_in. destruct (Nat.eqb_spec i (a / SVS)) as [Ea|Ea].
    - rewrite <- Ea in *. lia.
    - assert (S (a / SVS) * SVS ≤ i * SVS)%nat by (apply Nat.mul_le_mono_r; lia). lia. }
  rewrite Ve, Vb. split; [|done]. unfold rows_in. lia.
Qed.

(** * AppendVersionInfo *)

(** A row group of [n] rows that can be appended to: no version info past its
    end, and a partially filled last vector is not constant. *)
Definition appendable (n : nat) (m : RowVersionManager) : Prop :=
  (∀ i o, (n ≤ i * SVS)%nat → vector_info m !! i = Some o → o = None) ∧
  (∀ c, vector_info m !! (n / SVS)%nat ≠ Some (Some (CONSTANT_INFO c))).

(** The info of vector [i] can be committed for the rows [a..b): a constant
    info must be covered by them, and the rows of a vector info with a single
    insert id that are not covered must be committed already. *)
Definition committable (n a b : nat) (id : Z) (i : nat) (info : ChunkInfo) : Prop :=
  match info with
  | CONSTANT_INFO _ => vector_begin a i = O ∧ vector_end b i = SVS
  | VECTOR_INFO v => same_inserted_id v = true → ∀ r, (r < rows_in n i)%nat →
      ¬ (vector_begin a i ≤ r < vector_end b i)%nat → inserted_at info r = id
  end.

(** The info of vector [i] after an append of the rows [a..b). *)
Record appended (a b : nat) (id : Z) (i : nat) (o : option ChunkInfo) (info : ChunkInfo) : Prop := {
  ap_wf : chunk_wf (rows_in b i) info;
  ap_inserted : ∀ r, (r < SVS)%nat →
    inserted_at info r = if decide (a ≤ i * SVS + r < b)%nat then id else info_inserted o r;
  ap_deleted : ∀ r, (r < SVS)%nat → deleted_at info r = info_deleted o r;
  ap_constant : ∀ c, info = CONSTANT_INFO c → rows_in b i = SVS;
  ap_commit : (∀ r, (r < rows_in a i)%nat → info_inserted o r ≠ id) → ∀ cid, committable b a b cid i info
}.

(** The vector info an append to part of a vector writes to. *)
Definition append_target (m : RowVersionManager) (i : nat) (o : option ChunkInfo) : result ChunkVectorInfo :=
  match o with
  | None => Ok (ChunkVectorInfo_new (vector_start_row m i))
  | Some (VECTOR_INFO v) => Ok v
  | Some (CONSTANT_INFO _) =>
      Throw (InternalException "Error in RowVersionManager::AppendVersionInfo - expected either a ChunkVectorInfo or no version info")
  end.

Lemma append_target_ok m n i o :
  manager_wf n m → appendable n m → (n / SVS ≤ i)%nat → vector_info m !! i = Some o →
  ∃ v, append_target m i o = Ok v ∧ vector_wf (rows_in n i) v ∧
       ∀ r, (r < SVS)%nat → inserted_at (VECTOR_INFO v) r = info_inserted o r ∧ deleted_at (VECTOR_INFO v) r = info_deleted o r.
Proof.
  intros W [Hfresh Hpart] Hi Ho. destruct o as [[c|v]|]; cbn [append_target].
  - exfalso. destruct (decide (i = n / SVS)%nat) as [->|Hne]; [by apply (Hpart c)|].
    assert (S (n / SVS) * SVS ≤ i * SVS)%nat by (apply Nat.mul_le_mono_r; lia).
    destruct (row_split n). by assert (Some (CONSTANT_INFO c) = None) by (apply (Hfresh i); [lia | done]).
  - exists v. split; [done|]. split; [exact (mw_chunks _ _ W _ _ Ho) | done].
  - eexists. split; [done|]. split; [eapply vector_wf_le; [apply vector_new_wf | unfold rows_in; lia]|].
    intros r Hr. cbn [inserted_at deleted_at inserted deleted ChunkVectorInfo_new info_inserted info_deleted].
    by rewrite !lookup_replicate_2.
Qed.

Lemma append_step_ok m n t b l i o :
  manager_wf n m → appendable n m → (n < b)%nat → (n / SVS ≤ i ≤ (b - 1) / SVS)%nat →
  vector_info m !! i = Some o → l !! i = Some o →
  ∃ info, append_step m t n b l i = Ok (<[i := Some info]> l) ∧ appended n b (transaction_id t) i o info.
Proof.
  intros W [Hfresh Hpart] Hb Hi Ho Hl. pose proof (lookup_lt_Some _ _ _ Hl).
  destruct (vector_end_bounds n b i Hb Hi) as (Hle & Ve & Vb).
  pose proof (in_vector_range n b i) as Hrange. unfold append_step.
  destruct ((vector_begin n i =? 0)%nat && (vector_end b i =? SVS)%nat) eqn:Hfull.
  - apply andb_true_iff in Hfull as [Hb0%Nat.eqb_eq He%Nat.eqb_eq]. rewrite vset_lt by done.
    assert (o = None) as ->. { apply (Hfresh i o); [|done]. rewrite Vb in Hb0. unfold rows_in in Hb0. pose proof vector_size_pos. lia. }
    eexists. split; [done|]. split; [done | | done | by rewrite <- Ve | done].
    intros r Hr. cbn [inserted_at const_insert_id]. rewrite decide_True; [done|]. apply Hrange; [done..|lia].
  - rewrite (vget_lookup _ _ _ Hl). cbn [mbind result_bind].
    destruct (append_target_ok m n i o W (conj Hfresh Hpart) (proj1 Hi) Ho) as (v & Ev & Wv & Hv).
    unfold append_target in Ev. rewrite Ev.
    cbn [mbind result_bind].
    destruct (Append_ok v (rows_in n i) (vector_begin n i) (vector_end b i) (transaction_id t) Wv) as (v' & -> & Wv' & Hins & Hdel & Hsame);
      [lia | done |].
    cbn [mbind result_bind]. rewrite vset_lt by done. eexists. split; [done|]. split.
    + cbn [chunk_wf]. eapply vector_wf_le; [exact Wv'|]. rewrite <- Ve. destruct (Nat.eqb_spec (vector_begin n i) 0); lia.
    + intros r Hr. rewrite Hins by done. destruct (Hv r Hr) as [-> _].
      destruct (decide (n ≤ i * SVS + r < b)%nat) as [D|D]; destruct (decide (vector_begin n i ≤ r < vector_end b i)%nat) as [D'|D'];
        try done; exfalso; rewrite Hrange in D by done; tauto.
    + intros r Hr. rewrite Hdel. by destruct (Hv r Hr) as [_ ->].
    + done.
    + intros Hne cid Hs r Hr Hout. exfalso. rewrite <- Ve in Hr. destruct (Hsame Hs) as [H0|[Hid Hs']]; [lia|].
      apply (Hne r); [lia|]. rewrite <- Hid. destruct (Hv r ltac:(lia)) as [<- _]. cbn [inserted_at].
      by rewrite (vw_same _ _ Wv Hs') by lia.
Qed.

Lemma touched_nodup a b : NoDup (touched_vectors a b).
Proof. apply NoDup_seq. Qed.

Lemma touched_lt a b i :
  (a < b)%nat → (b ≤ ROW_GROUP_VECTOR_COUNT * SVS)%nat → i ∈ touched_vectors a b → (i < ROW_GROUP_VECTOR_COUNT)%nat.
Proof.
  intros Hab Hb Hi%touched_spec; [|done]. assert ((b - 1) / SVS < ROW_GROUP_VECTOR_COUNT)%nat; [|lia].
  apply row_index. lia.
Qed.

Lemma untouched_rows a b i :
  (a < b)%nat → i ∉ touched_vectors a b → rows_in b i = rows_in a i ∨ (b ≤ i * SVS)%nat ∧ (a ≤ i * SVS)%nat.
Proof.
  intros Hab Hi. rewrite touched_spec in Hi by lia. unfold rows_in.
  destruct (row_split a), (row_split (b - 1)). destruct (decide (i < a / SVS)%nat).
  - left. assert (S i * SVS ≤ a / SVS * SVS)%nat by (apply Nat.mul_le_mono_r; lia). lia.
  - right. assert (S ((b - 1) / SVS) * SVS ≤ i * SVS)%nat by (apply Nat.mul_le_mono_r; lia). lia.
Qed.

(** Only the last vector can be touched again. *)
Lemma untouched_last a b :
  (a < b)%nat → (b / SVS)%nat ∉ touched_vectors a b → (a ≤ b / SVS * SVS)%nat.
Proof.
  intros Hab Ht. rewrite touched_spec in Ht by lia. destruct (row_split (b - 1)), (row_split a).
  assert (a / SVS ≤ b / SVS)%nat by (apply Nat.Div0.div_le_mono; lia).
  assert (S ((b - 1) / SVS) * SVS ≤ b / SVS * SVS)%nat by (apply Nat.mul_le_mono_r; lia). lia.
Qed.

(** The rows already in a touched vector are rows of the last vector. *)
Lemma own_vector_rows m n i r o id :
  (∀ row, (row < n)%nat → (row / SVS = n / SVS)%nat → row_inserted m row ≠ id) →
  (n / SVS ≤ i)%nat → (r < rows_in n i)%nat → vector_info m !! i = Some o → info_inserted o r ≠ id.
Proof.
  intros Hne Hi Hr Ho. unfold rows_in in Hr. destruct (row_split n), (row_of i r) as [Hd Hm]; [lia|].
  assert (i = n / SVS)%nat as ->.
  { destruct (decide (i = n / SVS)%nat); [done|].
    assert (S (n / SVS) * SVS ≤ i * SVS)%nat by (apply Nat.mul_le_mono_r; lia). lia. }
  specialize (Hne (n / SVS * SVS + r)%nat ltac:(lia) Hd). unfold row_inserted, row_info in Hne.
  by rewrite Hd, Hm, Ho in Hne.
Qed.

Lemma AppendVersionInfo_ok m n t b :
  manager_wf n m → appendable n m → (n < b ≤ ROW_GROUP_VECTOR_COUNT * SVS)%nat →
  ∃ m', AppendVersionInfo m t n b = Ok m' ∧ manager_wf b m' ∧ appendable b m' ∧
        (∀ row, (row < ROW_GROUP_VECTOR_COUNT * SVS)%nat →
          row_inserted m' row = (if decide (n ≤ row < b)%nat then transaction_id t else row_inserted m row) ∧
          row_deleted m' row = row_deleted m row) ∧
        ((∀ row, (row < n)%nat → (row / SVS = n / SVS)%nat → row_inserted m row ≠ transaction_id t) →
         ∀ cid i, i ∈ touched_vectors n b →
           ∃ info, vector_info m' !! i = Some (Some info) ∧ committable b n b cid i info).
Proof.
  intros W A Hb. pose proof (mw_length _ _ W) as L. unfold AppendVersionInfo.
  rewrite (proj2 (Nat.eqb_neq _ _)) by lia.
  destruct (foldM_update (append_step (mark_changed m) t n b)
    (λ i x, ∃ o info, vector_info m !! i = Some o ∧ x = Some info ∧ appended n b (transaction_id t) i o info)
    (touched_vectors n b) (vector_info m)) as (l & E & Ll & HL & Ho).
  { apply touched_nodup. }
  { intros i Hi. rewrite L. eapply touched_lt; [| |done]; lia. }
  { intros l i Hi Hl Hll. pose proof (touched_lt n b i ltac:(lia) ltac:(lia) Hi) as Hlt. rewrite <- L in Hlt.
    destruct (lookup_lt_is_Some_2 _ _ Hlt) as [o Hoi]. apply touched_spec in Hi; [|lia].
    destruct (append_step_ok (mark_changed m) n t b l i o) as (info & Es & Ha);
      [by destruct W | done | lia | done | done | by rewrite Hl |].
    exists (Some info). split; [done|]. by exists o, info. }
  cbn [vector_info mark_changed]. rewrite E. cbn [mbind result_bind]. eexists. split; [done|].
  split_and!.
  - split; cbn [vector_info set_vector_info]; [lia|]. intros i info Hinfo.
    destruct (decide (i ∈ touched_vectors n b)) as [Hi|Hi].
    + destruct (HL i Hi) as (x & Hx & o & info' & _ & -> & Ha). rewrite Hinfo in Hx. injection Hx as ->. apply Ha.
    + rewrite Ho in Hinfo by done. destruct (untouched_rows n b i ltac:(lia) Hi) as [->|[_ Hn]]; [by apply (mw_chunks _ _ W)|].
      exfalso. by assert (Some info = None) by (by apply (proj1 A i)).
  - split; cbn [vector_info set_vector_info].
    + intros i o Hi Hio. destruct (decide (i ∈ touched_vectors n b)) as [Ht|Ht].
      * apply touched_spec in Ht; [|lia]. destruct (row_split (b - 1)). exfalso.
        assert (i * SVS ≤ (b - 1) / SVS * SVS)%nat by (apply Nat.mul_le_mono_r; lia). lia.
      * rewrite Ho in Hio by done. apply (proj1 A i); [lia | done].
    + intros c Hc. destruct (decide (b / SVS ∈ touched_vectors n b)%nat) as [Ht|Ht].
      * destruct (HL _ Ht) as (x & Hx & o & info' & _ & -> & Ha). rewrite Hc in Hx. injection Hx as <-.
        pose proof (ap_constant _ _ _ _ _ _ Ha c eq_refl) as Hr. unfold rows_in in Hr. destruct (row_split b). lia.
      * rewrite Ho in Hc by done. pose proof (untouched_last n b ltac:(lia) Ht).
        by assert (Some (CONSTANT_INFO c) = None) by (by apply (proj1 A (b / SVS)%nat)).
  - intros row Hrow. destruct (row_split row) as [Hs Hm]. unfold row_inserted, row_deleted, row_info.
    cbn [vector_info set_vector_info]. destruct (decide (row / SVS ∈ touched_vectors n b)%nat) as [Ht|Ht].
    + destruct (HL _ Ht) as (x & -> & o & info & -> & -> & Ha). cbn [default id info_inserted info_deleted].
            rewrite (ap_inserted _ _ _ _ _ _ Ha), (ap_deleted _ _ _ _ _ _ Ha), <- Hs by done. done.
    + rewrite Ho by done. rewrite decide_False; [done|]. apply outside_vector; [lia|]. by rewrite touched_spec in Ht by lia.
  - intros Hne cid i Hi. destruct (HL i Hi) as (x & Hx & o & info & Hoi & -> & Ha). exists info. split; [done|].
    apply (ap_commit _ _ _ _ _ _ Ha). intros r Hr. apply touched_spec in Hi; [|lia].
    apply (own_vector_rows m n i r o); [done | lia | lia | done].
Qed.

(** * Committing an append *)

Lemma commit_append_step_ok n a b id l i info :
  (a < b)%nat → (a / SVS ≤ i ≤ (b - 1) / SVS)%nat → l !! i = Some (Some info) →
  chunk_wf (rows_in n i) info → committable n a b id i info →
  ∃ info', commit_append_step id a b l i = Ok (<[i := Some info']> l) ∧ chunk_wf (rows_in n i) info' ∧
    ∀ r, (r < SVS)%nat →
      inserted_at info' r = (if decide (a ≤ i * SVS + r < b)%nat then id else inserted_at info r) ∧
      deleted_at info' r = deleted_at info r.
Proof.
  intros Hab Hi Hl W Hc. pose proof (lookup_lt_Some _ _ _ Hl). pose proof (in_vector_range a b i) as Hrange.
  destruct (vector_end_bounds a b i Hab Hi) as (Hle & _).
  unfold commit_append_step. rewrite (vget_lookup _ _ _ Hl). cbn [mbind result_bind].
  destruct info as [c|v]; cbn [CommitAppend mbind result_bind].
  - destruct Hc as [Hc0 Hc1]. rewrite vset_lt by done. eexists. split; [done|]. split; [done|]. intros r Hr. split; [|done].
    cbn [inserted_at Constant_CommitAppend const_insert_id]. rewrite decide_True; [done|]. apply Hrange; [done..|lia].
  - destruct (Vector_CommitAppend_ok v (rows_in n i) (vector_begin a i) (vector_end b i) id W ltac:(lia) Hc)
      as (v' & -> & W' & Hins & Hdel).
    cbn [mbind result_bind]. rewrite vset_lt by done. eexists. split; [done|]. split; [done|]. intros r Hr.
    rewrite Hins, Hdel by done. split; [|done].
    destruct (decide (a ≤ i * SVS + r < b)%nat) as [D|D];
      destruct (decide (vector_begin a i ≤ r < vector_end b i)%nat) as [D'|D']; try done; exfalso;
      rewrite Hrange in D by done; tauto.
Qed.

Lemma Manager_CommitAppend_ok m n a k cid :
  manager_wf n m → (0 < k)%nat → (a + k ≤ ROW_GROUP_VECTOR_COUNT * SVS)%nat →
  (∀ i, i ∈ touched_vectors a (a + k) → ∃ info, vector_info m !! i = Some (Some info) ∧ committable n a (a + k) cid i info) →
  ∃ m', Manager_CommitAppend m cid a k = Ok m' ∧ manager_wf n m' ∧
        ∀ row, (row < ROW_GROUP_VECTOR_COUNT * SVS)%nat →
          row_inserted m' row = (if decide (a ≤ row < a + k)%nat then cid else row_inserted m row) ∧
          row_deleted m' row = row_deleted m row.
Proof.
  intros W Hk Hb Hc. pose proof (mw_length _ _ W) as L. unfold Manager_CommitAppend.
  rewrite (proj2 (Nat.eqb_neq _ _)) by lia. set (b := (a + k)%nat) in *.
  destruct (foldM_update (commit_append_step cid a b)
    (λ i x, ∃ info info', vector_info m !! i = Some (Some info) ∧ x = Some info' ∧ chunk_wf (rows_in n i) info' ∧
       ∀ r, (r < SVS)%nat → inserted_at info' r = (if decide (a ≤ i * SVS + r < b)%nat then cid else inserted_at info r) ∧
                            deleted_at info' r = deleted_at info r)
    (touched_vectors a b) (vector_info m)) as (l & E & Ll & HL & Ho).
  { apply touched_nodup. }
  { intros i Hi. rewrite L. eapply touched_lt; [| |done]; lia. }
  { intros l i Hi Hl _. destruct (Hc i Hi) as (info & Hinfo & Hcom). apply touched_spec in Hi; [|lia].
    destruct (commit_append_step_ok n a b cid l i info) as (info' & Es & Hw & Hr);
      [lia | done | by rewrite Hl | by apply (mw_chunks _ _ W) | done |].
    exists (Some info'). split; [done|]. by exists info, info'. }
  rewrite E. cbn [mbind result_bind]. eexists. split; [done|]. split.
  - split; cbn [vector_info set_vector_info]; [lia|]. intros i info Hinfo.
    destruct (decide (i ∈ touched_vectors a b)) as [Hi|Hi].
    + destruct (HL i Hi) as (x & Hx & info0 & info' & _ & -> & Ha & _). rewrite Hinfo in Hx. by injection Hx as ->.
    + rewrite Ho in Hinfo by done. by apply (mw_chunks _ _ W).
  - intros row Hrow. destruct (row_split row) as [Hs Hm]. unfold row_inserted, row_deleted, row_info.
    cbn [vector_info set_vector_info]. destruct (decide (row / SVS ∈ touched_vectors a b)%nat) as [Ht|Ht].
    + destruct (HL _ Ht) as (x & -> & info & info' & -> & -> & _ & Hr). cbn [default id info_inserted info_deleted].
      destruct (Hr _ Hm) as [-> ->]. by rewrite <- Hs.
    + rewrite Ho by done. rewrite decide_False; [done|]. apply outside_vector; [lia|]. by rewrite touched_spec in Ht by lia.
Qed.

