(* ===== verification/VersionCheckpoint.v ===== *)
(** The serialized form of version information: what a checkpoint writes and
    a reader of the database finds again. *)
From S2P Require Import Prelude Bits SelectionVector ValidityMask MaskFacts.
From S2P Require Import ChunkInfo ChunkFacts RowVersionManager VersionFacts.

(** The snapshot a checkpoint writes: what was committed before it. *)
Definition snapshot : TransactionData := mkTransaction INVALID_INDEX (TRANSACTION_ID_START - 1).

Lemma snapshot_ok : transaction_ok snapshot.
Proof. repeat split; done. Qed.

(** Row [r] of a vector is kept: the snapshot sees it, or nothing was ever
    deleted from the vector, which is then not written. *)
Definition kept (i : ChunkInfo) (r : nat) : bool :=
  negb (HasDeletes i) || visible TransactionVersionOperator (start_time snapshot) (transaction_id snapshot) i r.

Definition row_kept (m : RowVersionManager) (row : nat) : bool :=
  match row_info m row with None => true | Some i => kept i (row mod SVS) end.

(** The start of the vector is a row number; the ids of a constant info do not
    lie at the boundaries of the transaction ids. *)
Definition settled (i : ChunkInfo) : Prop :=
  match i with
  | VECTOR_INFO v => 0 ≤ vec_start v < 2 ^ 64
  | CONSTANT_INFO c => 0 ≤ const_start c < 2 ^ 64 ∧ const_insert_id c ≠ INVALID_INDEX ∧ const_delete_id c ≠ TRANSACTION_ID_START - 1
  end.

(** The info [o] read back for the first [n] rows of [i]. *)
Definition reloaded (n : nat) (i : ChunkInfo) (o : option ChunkInfo) : Prop :=
  ∀ r, (r < n)%nat → (r < SVS)%nat → info_inserted o r = 0 ∧ info_deleted o r = if kept i r then NOT_DELETED_ID else 0.

(** * One vector *)

(** The flag of equal inserts stands for all rows of the vector, also for those
    behind its end. *)
Definition spread (v : ChunkVectorInfo) : ChunkVectorInfo :=
  mkVectorInfo (vec_start v) (if same_inserted_id v then replicate SVS (insert_id v) else inserted v) (insert_id v) (same_inserted_id v) (deleted v) (any_deleted v).

Lemma spread_wf n v : vector_wf n v → vector_wf SVS (spread v).
Proof.
  intros [Li Ld _ Hnone]. split; cbn; [|done| |done].
  - destruct (same_inserted_id v); [apply length_replicate | done].
  - intros -> r Hr. by apply lookup_replicate_2.
Qed.

Lemma spread_visible n v op st tid r : vector_wf n v → (r < n)%nat → (r < SVS)%nat → visible op st tid (VECTOR_INFO (spread v)) r = visible op st tid (VECTOR_INFO v) r.
Proof.
  intros [_ _ Hsame _] Hr Hs. unfold visible. cbn. destruct (same_inserted_id v) eqn:E; [|done]. by rewrite lookup_replicate_2, Hsame.
Qed.

(** The scan of [Write]. *)
Lemma snapshot_scan v n sel cap :
  vector_wf n v → sel_cap sel cap → (SVS ≤ cap)%nat →
  selects (Vector_GetSelVector TransactionVersionOperator v (TRANSACTION_ID_START - 1) INVALID_INDEX sel SVS) SVS cap
    (visible TransactionVersionOperator (start_time snapshot) (transaction_id snapshot) (VECTOR_INFO (spread v))).
Proof.
  intros Hv Hc Hcap.
  assert (Vector_GetSelVector TransactionVersionOperator v (TRANSACTION_ID_START - 1) INVALID_INDEX sel SVS =
    TemplatedGetSelVector TransactionVersionOperator (start_time snapshot) (transaction_id snapshot) (VECTOR_INFO (spread v)) sel SVS) as ->.
  { cbn [TemplatedGetSelVector start_time transaction_id snapshot]. unfold Vector_GetSelVector. cbn. by destruct (same_inserted_id v). }
  apply (TemplatedGetSelVector_ok _ _ _ _ SVS); [exact (spread_wf n v Hv) | apply transaction_keeps, snapshot_ok | done..].
Qed.

(** The mask of [Write]: valid at the rows that were not selected. *)
Lemma deleted_mask sel c cap (P : nat → bool) :
  sel_cap sel cap → (c ≤ cap)%nat → sel_list sel c = Z.of_nat <$> filter (λ r, P r) (seq 0 SVS) →
  ∃ m, foldM (λ m i, r ← get_index sel i; SetInvalid m (Z.to_nat r)) (Initialize (ValidityMask_new SVS) SVS) (seq 0 c) = Ok m ∧
       mask_covers m SVS ∧ ∀ r, (r < SVS)%nat → valid_at m r = negb (P r).
Proof.
  intros (buf & Hb & Hlen) Hc Hl. set (L := filter (λ r, P r) (seq 0 SVS)) in *.
  assert (HL : ∀ r, r ∈ L → (r < SVS)%nat) by (intros r [_ ?%elem_of_seq]%list_elem_of_filter; lia).
  assert (Hlc : length L = c).
  { apply (f_equal length) in Hl. rewrite length_fmap, length_sel_list in Hl; [done|]. unfold sel_readable. rewrite Hb. lia. }
  assert (Hget : ∀ i, i ∈ seq 0 c → get_index sel i = Ok (Z.of_nat (default O (L !! i)))).
  { intros i Hi%elem_of_seq. destruct (get_index_sel_list sel c i) as (z & -> & Hz); [unfold sel_readable; rewrite Hb; lia | lia |].
    rewrite Hl, list_lookup_fmap in Hz. destruct (L !! i); [|done]. by injection Hz as <-. }
  assert (E : ∀ m, foldM (λ m i, r ← get_index sel i; SetInvalid m (Z.to_nat r)) m (seq 0 c) =
              foldM (λ m r, SetRow m r false) m (take c L)).
  { intros m. rewrite <- (foldM_rows (λ m r, SetRow m r false)) by lia. apply foldM_ext. intros m' i Hi.
    rewrite Hget by done. cbn [mbind result_bind]. rewrite Nat2Z.id. apply elem_of_seq in Hi.
    destruct (lookup_lt_is_Some_2 L i ltac:(lia)) as [x Hx]. by rewrite (vget_lookup _ _ _ Hx), Hx. }
  rewrite E, take_ge by lia. destruct (Initialize_covers (ValidityMask_new SVS) SVS) as [W Lw].
  destruct (SetRows_ok (ValidityData_new SVS) SVS SVS false L W Lw HL) as (l & El & Wl & Ll & B).
  exists (mkMask (Some l) SVS). split; [exact El|]. split; [by split; [|rewrite Ll]|].
  intros r Hr. unfold valid_at. cbn [validity_mask]. rewrite B. destruct (P r) eqn:HP.
  - rewrite decide_True; [done|]. apply list_elem_of_filter. split; [by rewrite HP | apply elem_of_seq; lia].
  - rewrite decide_False; [by apply mask_bit_new|]. intros [H _]%list_elem_of_filter. by rewrite HP in H.
Qed.

Lemma read_deletes start mask (P : nat → bool) :
  mask_covers mask SVS → (∀ r, (r < SVS)%nat → valid_at mask r = P r) →
  ∃ l, foldM (λ l i, b ← RowIsValid mask i; if (b : bool) then vset l i 0 else Ok l)
             (deleted (ChunkVectorInfo_new start)) (seq 0 SVS) = Ok l ∧ length l = SVS ∧
       ∀ r, (r < SVS)%nat → l !! r = Some (if P r then 0 else NOT_DELETED_ID).
Proof.
  intros Hm HP. cbn [deleted ChunkVectorInfo_new].
  rewrite (foldM_ext _ (λ l i, if P i then vset l i 0 else Ok l)).
  2: { intros l i Hi%elem_of_seq. rewrite (RowIsValid_ok mask SVS) by (done || lia). cbn [mbind result_bind].
       by rewrite HP by lia. }
  assert (E : ∀ (L : list nat) (l : list Z), foldM (λ l i, if P i then vset l i 0 else Ok l) l L =
              foldM (λ l r, vset l r 0) l (filter (λ i, P i) L)).
  { induction L as [|i L IH]; intros l; [done|]. cbn [foldM]. destruct (P i) eqn:Hi.
    - rewrite filter_cons_True by (by rewrite Hi). cbn [foldM]. destruct (vset l i 0); [apply IH | done].
    - rewrite filter_cons_False by (rewrite Hi; tauto). apply IH. }
  rewrite E. destruct (store_all (replicate SVS NOT_DELETED_ID) (filter (λ i, P i) (seq 0 SVS)) 0) as (l & El & Ll & B).
  { intros r [_ Hr%elem_of_seq]%list_elem_of_filter. rewrite length_replicate. lia. }
  rewrite length_replicate in Ll. exists l. split; [done|]. split; [done|]. intros r Hr. rewrite B.
  destruct (P r) eqn:Hp.
  - rewrite decide_True; [done|]. apply list_elem_of_filter. split; [by rewrite Hp | apply elem_of_seq; lia].
  - rewrite decide_False; [by apply lookup_replicate_2|]. intros [H _]%list_elem_of_filter. by rewrite Hp in H.
Qed.

Lemma SVS_u32 : Z.of_nat SVS ≤ 2 ^ 32.
Proof. pose proof vector_size_u16. lia. Qed.

(** A constant info is written as a fully deleted vector. *)
Lemma read_constant start s :
  0 ≤ start < 2 ^ 64 →
  Read (write_uint 1 CONSTANT_INFO_TAG ++ write_uint 8 start ++ s) = Ok (Some (CONSTANT_INFO (mkConstantInfo start 0 0)), s).
Proof.
  intros Hs. unfold Read. rewrite read_write_uint by done. cbn [mbind result_bind].
  rewrite (proj2 (Z.eqb_neq _ _)), Z.eqb_refl by done. unfold Constant_Read. by rewrite read_write_uint.
Qed.

Lemma Vector_Write_roundtrip v n s :
  vector_wf n v → settled (VECTOR_INFO v) → any_deleted v = true →
  ∃ w o, Vector_Write v = Ok w ∧ Read (w ++ s) = Ok (o, s) ∧ reloaded n (VECTOR_INFO v) o.
Proof.
  intros W Hst Hdel. set (P := visible TransactionVersionOperator (start_time snapshot) (transaction_id snapshot) (VECTOR_INFO (spread v))).
  destruct (snapshot_scan v n (SelectionVector_Initialize SVS) SVS W (sel_cap_Initialize _) ltac:(lia)) as (sel & c & E & C & Hc & Hsel). change (visible _ _ _ _) with P in Hc, Hsel.
  assert (HP : ∀ r, (r < n)%nat → (r < SVS)%nat → kept (VECTOR_INFO v) r = P r).
  { intros r Hr Hs. unfold kept, P. cbn [HasDeletes]. rewrite Hdel, (spread_visible n) by done. done. }
  clearbody P. cbn in Hst.
  assert (Hle : (c ≤ SVS)%nat) by (rewrite Hc; etrans; [apply length_filter|]; by rewrite length_seq).
  unfold Vector_Write. rewrite E. cbn [mbind result_bind]. unfold selected_rows in Hsel.
  destruct (Nat.eqb_spec c SVS) as [->|Hne].
  - eexists _, None. split; [done|]. split; [by unfold Read; rewrite read_write_uint|].
    intros r Hr Hs. split; [done|]. symmetry in Hc. pose proof (filter_all_seq P SVS Hc) as Hall.
    assert (r ∈ filter (λ r, P r) (seq 0 SVS)) as [Hp _]%list_elem_of_filter by (rewrite Hall; apply elem_of_seq; lia).
    rewrite HP by done. apply Is_true_true in Hp. by rewrite Hp.
  - destruct (Nat.eqb_spec c 0) as [->|H0].
    + eexists _, _. split; [done|]. rewrite <- app_assoc. split; [by apply read_constant|].
      intros r Hr Hs. split; [done|]. symmetry in Hc. apply nil_length_inv in Hc.
      rewrite HP by done. destruct (P r) eqn:Hd; [|done]. exfalso.
      assert (r ∈ filter (λ r, P r) (seq 0 SVS)) as Hin by (apply list_elem_of_filter; rewrite Hd; split; [done | apply elem_of_seq; lia]).
      rewrite Hc in Hin. by apply elem_of_nil in Hin.
    + destruct (deleted_mask sel c SVS P C Hle Hsel) as (m & -> & Hcov & Hval). cbn [mbind result_bind].
      destruct (MaskWrite_roundtrip m SVS s (ValidityMask_new SVS) Hcov SVS_u32) as (w & m' & -> & Er & Hcov' & _ & Hval').
      cbn [mbind result_bind].
      destruct (read_deletes (vec_start v) m' (λ r, negb (P r)) Hcov') as (l & El & Ll & Hl).
      { intros r Hr. rewrite Hval' by done. by apply Hval. }
      eexists _, _. split; [done|]. split.
      * unfold Read. rewrite <- !app_assoc. rewrite read_write_uint by done. cbn [mbind result_bind].
        rewrite !(proj2 (Z.eqb_neq _ _)), Z.eqb_refl by done. unfold Vector_Read. rewrite read_write_uint by done.
        cbn [mbind result_bind]. rewrite Er. cbn [mbind result_bind set_deleted deleted].
        cbn [deleted ChunkVectorInfo_new] in El |- *. by rewrite El.
      * intros r Hr Hs. cbn [info_inserted info_deleted inserted_at deleted_at set_deleted deleted inserted ChunkVectorInfo_new].
        rewrite lookup_replicate_2, Hl, HP by done. cbn [default id]. by destruct (P r).
Qed.

Lemma Write_roundtrip i n s :
  chunk_wf n i → settled i → HasDeletes i = true →
  ∃ w o, Write i = Ok w ∧ Read (w ++ s) = Ok (o, s) ∧ reloaded n i o.
Proof.
  intros W S H. destruct i as [c|v]; cbn [Write]; [|by apply Vector_Write_roundtrip].
  destruct S as (Hst & Hi & Hd). eexists _, _. split; [done|]. unfold Constant_Write. rewrite <- app_assoc. split; [by apply read_constant|].
  intros r Hr Hs. split; [done|]. cbn [info_deleted deleted_at const_delete_id]. unfold kept. rewrite H. cbn [negb orb].
  cbn [HasDeletes] in H. unfold Constant_HasDeletes in H. unfold visible. cbn. unfold transaction_inserted.
  apply orb_true_iff in H as [H%Z.leb_le|H%Z.ltb_lt].
  - rewrite (proj2 (Z.ltb_ge _ _)), (proj2 (Z.eqb_neq _ _)) by lia. done.
  - rewrite (proj2 (Z.ltb_lt (const_delete_id c) _)) by lia. cbn [orb negb]. by rewrite andb_false_r.
Qed.

(** An info without deletions does not need to be written. *)
Lemma no_deletes_reloaded n i : HasDeletes i = false → reloaded n i None.
Proof. intros H r Hr _. unfold kept. by rewrite H. Qed.

(** * The row group *)

Lemma Write_reads i n :
  chunk_wf n i → settled i → HasDeletes i = true →
  ∃ w, Write i = Ok w ∧ ∀ s, ∃ o, Read (w ++ s) = Ok (o, s) ∧ reloaded n i o.
Proof.
  intros W S H. destruct (Write_roundtrip i n [] W S H) as (w & _ & Ew & _). exists w. split; [done|].
  intros s. destruct (Write_roundtrip i n s W S H) as (w' & o & Ew' & Hr). rewrite Ew in Ew'. injection Ew' as <-. by exists o.
Qed.

Definition write_entry (w : stream) (e : nat * ChunkInfo) : result stream :=
  let '(i, info) := e in b ← Write info; Ok (w ++ write_uint 8 (Z.of_nat i) ++ b).

(** An entry of the checkpoint. *)
Definition entry_ok (n : nat) (e : nat * ChunkInfo) : Prop :=
  (fst e < ROW_GROUP_VECTOR_COUNT)%nat ∧ settled (snd e) ∧ HasDeletes (snd e) = true ∧ chunk_wf (rows_in n (fst e)) (snd e).

Lemma entries_roundtrip n E :
  Forall (entry_ok n) E → NoDup E.*1 →
  ∃ w, (∀ w0, foldM write_entry w0 E = Ok (w0 ++ w)) ∧
       ∀ l s, length l = ROW_GROUP_VECTOR_COUNT →
         ∃ l', read_infos (length E) l (w ++ s) = Ok (l', s) ∧ length l' = ROW_GROUP_VECTOR_COUNT ∧
               (∀ i info, (i, info) ∈ E → ∃ o, l' !! i = Some o ∧ reloaded (rows_in n i) info o) ∧
               (∀ i, i ∉ E.*1 → l' !! i = l !! i).
Proof.
  induction 1 as [|[i info] E (Hi & S & H & W) HE IH]; intros ND.
  - exists []. split; [intros w0; by rewrite app_nil_r|]. intros l s Hl. exists l. split; [done|]. split; [done|].
    split; [by intros ? ? ?%elem_of_nil | done].
  - apply NoDup_cons in ND as [Hn ND]. cbn [fst snd] in *. destruct (IH ND) as (w & Ew & Er).
    destruct (Write_reads info _ W S H) as (b & Eb & Rb). pose proof vector_size_pos.
    exists (write_uint 8 (Z.of_nat i) ++ b ++ w). split.
    + intros w0. cbn [foldM write_entry]. rewrite Eb. cbn [mbind result_bind]. rewrite Ew. by rewrite <- !app_assoc.
    + intros l s Hl. cbn [length read_infos]. rewrite <- !app_assoc, read_write_uint
        by (unfold ROW_GROUP_VECTOR_COUNT in Hi; lia).
      cbn [mbind result_bind]. rewrite (proj2 (Z.leb_gt _ _)) by lia.
      destruct (Rb (w ++ s)) as (o & -> & Ho). cbn [mbind result_bind]. rewrite Nat2Z.id, vset_lt by lia. cbn [mbind result_bind].
      destruct (Er (<[i := o]> l) s) as (l' & -> & Ll & Hin & Hout); [by rewrite length_insert|].
      exists l'. split; [done|]. split; [done|]. split.
      * intros j info' [[= -> ->]|Hj]%elem_of_cons; [|by apply Hin]. exists o. split; [|done].
        rewrite Hout by done. apply list_lookup_insert_eq. lia.
      * intros j [Hji Hj]%not_elem_of_cons. rewrite Hout by done. by apply list_lookup_insert_ne.
Qed.

Lemma to_serialize_spec m i info :
  (i, info) ∈ to_serialize m ↔ vector_info m !! i = Some (Some info) ∧ HasDeletes info = true.
Proof.
  unfold to_serialize. rewrite list_elem_of_omap. split.
  - intros ([j o] & Hj & Ho). apply list_elem_of_lookup_1 in Hj as [k Hk]. rewrite list_lookup_imap in Hk.
    destruct (vector_info m !! k) as [o'|] eqn:Ek; [|done]. cbn in Hk. injection Hk as -> ->.
    destruct o as [info'|]; [|done]. destruct (HasDeletes info') eqn:Hd; [|done]. by injection Ho as -> ->.
  - intros [Hi Hd]. exists (i, Some info). split; [|by rewrite Hd].
    apply (list_elem_of_lookup_2 _ i). by rewrite list_lookup_imap, Hi.
Qed.

Lemma to_serialize_nodup m : NoDup (to_serialize m).*1.
Proof.
  unfold to_serialize. assert (H : ∀ k, (omap (λ '(i, o), match o with
      | Some info => if HasDeletes info then Some (i, info) else None | None => None end)
      (imap (λ i o, ((k + i)%nat, o)) (vector_info m))).*1 `sublist_of` seq k (length (vector_info m))).
  { induction (vector_info m) as [|o l IH]; intros k; [constructor|]. cbn [imap length seq].
    assert (Ht : (omap (λ '(i, o), match o with
      | Some info => if HasDeletes info then Some (i, info) else None | None => None end)
      (imap ((λ i o, ((k + i)%nat, o)) ∘ S) l)).*1 `sublist_of` seq (S k) (length l)).
    { specialize (IH (S k)). erewrite imap_ext; [exact IH|]. intros i x _. cbn. f_equal. lia. }
    rewrite Nat.add_0_r. destruct o as [info|]; cbn; [destruct (HasDeletes info)|]; cbn; by constructor. }
  specialize (H O). eapply sublist_NoDup; [apply NoDup_seq | exact H].
Qed.

(** The version map of a manager that may not exist. *)
Definition loaded_inserted (o : option RowVersionManager) (row : nat) : Z :=
  match o with None => 0 | Some m => row_inserted m row end.
Definition loaded_deleted (o : option RowVersionManager) (row : nat) : Z :=
  match o with None => NOT_DELETED_ID | Some m => row_deleted m row end.

(** What a checkpoint of the [n] rows of [m] must be reloaded as. *)
Definition reloads (n : nat) (m : RowVersionManager) (o : option RowVersionManager) : Prop :=
  ∀ row, (row < n)%nat → (row < ROW_GROUP_VECTOR_COUNT * SVS)%nat →
    loaded_inserted o row = 0 ∧ loaded_deleted o row = if row_kept m row then NOT_DELETED_ID else 0.

(** A committed row is kept exactly when its deletion is not committed. *)
Lemma committed_kept n m row :
  manager_wf n m → row_inserted m row < TRANSACTION_ID_START - 1 → row_deleted m row ≠ TRANSACTION_ID_START - 1 → row_deleted m row ≠ INVALID_INDEX →
  row_kept m row = negb (row_deleted m row <? TRANSACTION_ID_START).
Proof.
  intros W. pose proof (proj2 (row_split row)) as Hm. unfold row_kept, row_inserted, row_deleted. destruct (row_info m row) as [i|] eqn:Ei; [|done].
  cbn [info_inserted info_deleted]. intros Hi H1 H2. assert (∃ k, chunk_wf k i) as [k Hi'].
  { unfold row_info in Ei. destruct (vector_info m !! (row / SVS)%nat) as [o|] eqn:Eo; [|done]. cbn in Ei. subst o. eexists. by apply (mw_chunks _ _ W _ _ Eo). }
  unfold kept. destruct (HasDeletes i) eqn:Hd; cbn [negb orb].
  - unfold visible. cbn. unfold transaction_inserted. rewrite (proj2 (Z.ltb_lt (inserted_at _ _) _)) by done. cbn [orb andb].
    f_equal. rewrite (proj2 (Z.eqb_neq _ _) H2), orb_false_r. apply eq_bool_prop_intro. rewrite !Is_true_true, !Z.ltb_lt. lia.
  - destruct i as [c|v]; cbn [HasDeletes deleted_at] in *.
    + unfold Constant_HasDeletes in Hd. by apply orb_false_iff in Hd as [_ ->].
    + by rewrite (vw_none _ _ Hi' Hd) by done.
Qed.

Lemma reloads_vectors n m start p l :
  manager_wf n m →
  (∀ i info, (i, info) ∈ to_serialize m → ∃ o, l !! i = Some o ∧ reloaded (rows_in n i) info o) →
  (∀ i, i ∉ (to_serialize m).*1 → l !! i = replicate ROW_GROUP_VECTOR_COUNT None !! i) →
  reloads n m (Some (mkManager start l false p)).
Proof.
  intros W Hin Hout row Hn Hrow. cbn [loaded_inserted loaded_deleted]. unfold row_kept, row_inserted, row_deleted, row_info.
  cbn [vector_info]. destruct (row_split row) as [Hsp Hm]. pose proof (row_index row Hrow) as Hi.
  assert (row mod SVS < rows_in n (row / SVS))%nat as Hr by (unfold rows_in; lia).
  destruct (lookup_lt_is_Some_2 (vector_info m) (row / SVS)) as [o Ho]; [rewrite (mw_length _ _ W); done|]. rewrite Ho.
  destruct (decide ((row / SVS)%nat ∈ (to_serialize m).*1)) as [Hs|Hs].
  - apply list_elem_of_fmap in Hs as ([i info] & Hi' & Hs). cbn [fst] in *. subst i.
    destruct (Hin _ _ Hs) as (o' & -> & Hre). apply to_serialize_spec in Hs as [Hs _]. rewrite Hs in Ho. injection Ho as <-.
    by apply Hre.
  - rewrite Hout, lookup_replicate_2 by done. cbn [default id]. destruct o as [info|]; [|done].
    apply (no_deletes_reloaded (rows_in n (row / SVS))); [|done..].
    destruct (HasDeletes info) eqn:Hd; [|done]. exfalso. apply Hs, list_elem_of_fmap. exists ((row / SVS)%nat, info).
    split; [done|]. by apply to_serialize_spec.
Qed.

Lemma Checkpoint_roundtrip m n start :
  manager_wf n m → (∀ i info, vector_info m !! i = Some (Some info) → settled info) →
  has_changes m = true ∨ storage_pointers m = None →
  ∃ m' p o, Checkpoint m = Ok (m', p) ∧ Deserialize p start = Ok o ∧ reloads n m o.
Proof.
  intros W S Hch. unfold Checkpoint.
  assert (Hfresh : ∀ A (x : stream → A) (y : A), match storage_pointers m, has_changes m with Some s, false => x s | _, _ => y end = y)
    by (intros A x y; destruct Hch as [->| ->]; by destruct (storage_pointers m)).
  rewrite Hfresh. pose proof (reloads_vectors n m start) as Hre.
  destruct (entries_roundtrip n (to_serialize m)) as (w & Ew & Er); [|apply to_serialize_nodup|].
  { apply Forall_forall. intros [i info] [Hi Hd]%to_serialize_spec. split_and!; cbn [fst snd].
    - rewrite <- (mw_length _ _ W). by eapply lookup_lt_Some.
    - by eapply S.
    - done.
    - by apply (mw_chunks _ _ W). }
  destruct (to_serialize m) as [|e E] eqn:HE.
  - exists m, None, None. split; [done|]. split; [done|].
    intros row Hn Hrow. split; [done|].
    destruct (Hre None (replicate ROW_GROUP_VECTOR_COUNT None) W) with row as [_ H]; [by intros ? ? ?%elem_of_nil | done | done | done|].
    cbn [loaded_deleted] in *. rewrite <- H. unfold row_deleted, row_info. cbn [vector_info].
    by rewrite lookup_replicate_2 by (by apply row_index).
  - rewrite <- HE in *. change (λ w '(i, info), _) with write_entry. rewrite Ew. cbn [mbind result_bind].
    destruct (Er (replicate ROW_GROUP_VECTOR_COUNT None) []) as (l & El & _ & Hin & Hout); [apply length_replicate|].
    rewrite app_nil_r in El. eexists _, _, _. split; [done|]. unfold Deserialize.
    assert (length (to_serialize m) ≤ ROW_GROUP_VECTOR_COUNT)%nat.
    { rewrite <- (length_seq ROW_GROUP_VECTOR_COUNT 0), <- (length_fmap fst).
      apply submseteq_length, NoDup_submseteq; [apply to_serialize_nodup|]. intros i Hi%list_elem_of_fmap.
      destruct Hi as ([j info] & -> & [Hj _]%to_serialize_spec). apply elem_of_seq. cbn [fst].
      rewrite <- (mw_length _ _ W). apply lookup_lt_Some in Hj. lia. }
    rewrite read_write_uint by (unfold ROW_GROUP_VECTOR_COUNT in *; lia). cbn [mbind result_bind]. rewrite Nat2Z.id.
    cbn [vector_info RowVersionManager_new]. rewrite El. cbn [mbind result_bind]. split; [done|].
    by apply (Hre _ l W).
Qed.
