(* ===== verification/VersionProps.v ===== *)
(** Properties of the version information of a row group: scans and fetches
    agree with the version map, appends and deletes change it as a transaction
    expects, and a checkpoint keeps the committed deletions. *)
From S2P Require Import Prelude Bits SelectionVector ValidityMask ChunkInfo ChunkFacts.
From S2P Require Import RowVersionManager VersionFacts VersionAppend VersionCheckpoint.

(** * Samples *)

(** Transactions that started at time 10. *)
Definition reader : TransactionData := mkTransaction (TRANSACTION_ID_START + 7) 10.
Definition writer : TransactionData := mkTransaction (TRANSACTION_ID_START + 8) 10.

Lemma reader_ok : transaction_ok reader.
Proof. repeat split; done. Qed.

(** A vector whose row 5 was deleted at time 3. *)
Definition sample_vector : ChunkVectorInfo :=
  set_deleted (ChunkVectorInfo_new 0) (<[5%nat := 3]> (deleted (ChunkVectorInfo_new 0))) true.

Definition sample_manager : RowVersionManager :=
  set_vector_info (RowVersionManager_new 0) (<[O := Some (VECTOR_INFO sample_vector)]> (vector_info (RowVersionManager_new 0))).

Lemma sample_vector_wf : vector_wf SVS sample_vector.
Proof.
  destruct (vector_new_wf 0) as [A B C D]. split; [done | | done | done].
  cbn [sample_vector set_deleted deleted]. by rewrite length_insert.
Qed.

Lemma sample_manager_wf n : manager_wf n sample_manager.
Proof.
  apply manager_wf_insert; [apply manager_new_wf|]. cbn [chunk_wf].
  eapply vector_wf_le; [apply sample_vector_wf | unfold rows_in; lia].
Qed.

(** * Scans *)

(** C11. The rows a scan of a vector selects are exactly those visible to the
    transaction: inserted by it or committed before it started, and not
    deleted by it or before it started, whichever representation and summary
    flags the vector has; fetching a row by its id gives the same answer. *)
Theorem scan_and_fetch_visible m n t i sel max cap :
  manager_wf n m → transaction_ok t → (i < ROW_GROUP_VECTOR_COUNT)%nat → (max ≤ rows_in n i)%nat →
  sel_cap sel cap → (max ≤ cap)%nat →
  (∃ sel' c, Manager_GetSelVector m t i sel max = Ok (sel', c) ∧
     selected_rows sel' c max = Z.of_nat <$> filter (λ r, row_visible t m (i * STANDARD_VECTOR_SIZE + r)) (seq 0 max)) ∧
  (∀ r, (r < max)%nat → Manager_Fetch m t (i * STANDARD_VECTOR_SIZE + r) = Ok (row_visible t m (i * STANDARD_VECTOR_SIZE + r))).
Proof.
  intros W Ht Hi Hm Hc Hcap. split.
  - destruct (Manager_GetSelVector_ok m n t i sel max cap W Ht Hi Hm Hc Hcap) as (s & c & E & _ & _ & S). by exists s, c.
  - intros r Hr. apply (Manager_Fetch_ok m n); [done | done |]. apply row_index_inv.
    rewrite (proj1 (row_of i r ltac:(unfold rows_in in Hm; lia))). done.
Qed.

Lemma scan_and_fetch_visible_witness :
  (∃ sel' c, Manager_GetSelVector sample_manager reader 0 (SelectionVector_Initialize STANDARD_VECTOR_SIZE) 8 = Ok (sel', c) ∧
     selected_rows sel' c 8 = Z.of_nat <$> filter (λ r, row_visible reader sample_manager (0 * STANDARD_VECTOR_SIZE + r)) (seq 0 8)) ∧
  (∀ r, (r < 8)%nat → Manager_Fetch sample_manager reader (0 * STANDARD_VECTOR_SIZE + r) =
                      Ok (row_visible reader sample_manager (0 * STANDARD_VECTOR_SIZE + r))).
Proof.
  apply (scan_and_fetch_visible sample_manager 8 reader 0 _ 8 STANDARD_VECTOR_SIZE);
    [apply sample_manager_wf | apply reader_ok | vm_compute; lia | apply Nat.leb_le; vm_compute; done
    | apply sel_cap_Initialize | apply Nat.leb_le; vm_compute; done].
Defined.

(** Row 5 of the sample is not visible to the reader. *)
Lemma sample_rows_visible :
  (λ r, row_visible reader sample_manager r) <$> seq 0 8 = [true; true; true; true; true; false; true; true].
Proof. vm_compute. done. Qed.

(** * Appends *)

(** Appending rows and committing them: the new rows carry the commit id,
    so that they become visible to transactions that start later, and the
    versions of all other rows are unchanged; the row group can be appended to
    again.  The transaction must not have appended to the last vector
    before. *)
Theorem append_commit_versions m n t b commit_id :
  manager_wf n m → appendable n m → (n < b ≤ ROW_GROUP_VECTOR_COUNT * STANDARD_VECTOR_SIZE)%nat →
  (∀ row, (row < n)%nat → (row / STANDARD_VECTOR_SIZE = n / STANDARD_VECTOR_SIZE)%nat → row_inserted m row ≠ transaction_id t) →
  ∃ m1 m2, AppendVersionInfo m t n b = Ok m1 ∧ Manager_CommitAppend m1 commit_id n (b - n) = Ok m2 ∧
    manager_wf b m1 ∧ appendable b m1 ∧ manager_wf b m2 ∧
    ∀ row, (row < ROW_GROUP_VECTOR_COUNT * STANDARD_VECTOR_SIZE)%nat →
      row_inserted m1 row = (if decide (n ≤ row < b)%nat then transaction_id t else row_inserted m row) ∧
      row_inserted m2 row = (if decide (n ≤ row < b)%nat then commit_id else row_inserted m row) ∧
      row_deleted m2 row = row_deleted m row.
Proof.
  intros W A Hb Hne. destruct (AppendVersionInfo_ok m n t b W A Hb) as (m1 & E1 & W1 & A1 & H1 & Hcom).
  destruct (Manager_CommitAppend_ok m1 b n (b - n) commit_id W1) as (m2 & E2 & W2 & H2); [lia | lia | |].
  { replace (n + (b - n))%nat with b by lia. by apply Hcom. }
  exists m1, m2. split_and!; [done..|]. intros row Hrow. destruct (H1 row Hrow) as [I1 D1], (H2 row Hrow) as [I2 D2].
  replace (n + (b - n))%nat with b in I2 by lia. rewrite I2, D2, D1, I1. by case_decide.
Qed.


(** * Deletes *)

(** The rows of the list lie in the row group, none of them was deleted by
    another transaction, and none lies in a vector that was reloaded as
    entirely deleted. *)
Definition deletable (m : RowVersionManager) (tid : Z) (ids : list nat) : Prop :=
  ∀ row, row ∈ ids → (row < ROW_GROUP_VECTOR_COUNT * STANDARD_VECTOR_SIZE)%nat ∧ convertible (row_info m row) ∧
    (row_deleted m row = NOT_DELETED_ID ∨ row_deleted m row = tid).

(** C15. Deleting rows marks exactly those rows with the id of the transaction and
    counts the rows it newly deleted, each once; committing its undo records
    replaces the id by the commit id on exactly the newly deleted rows, and rolling
    them back restores the versions the rows had before. The rows, at most a vector
    of them, lie in the row group, none was deleted by another transaction (the
    delete throws then), and none lies in a vector that was reloaded as entirely
    deleted. *)
Theorem delete_commit_rollback m n t base ids commit_id :
  manager_wf n m → transaction_id t ≠ NOT_DELETED_ID → deletable m (transaction_id t) ids →
  (length ids ≤ STANDARD_VECTOR_SIZE)%nat →
  ∃ s fresh mc mr, RowGroup_Delete m t base ids = (s, Ok (length fresh)) ∧ NoDup fresh ∧
    (∀ row, row ∈ fresh ↔ row ∈ ids ∧ row_deleted m row = NOT_DELETED_ID) ∧
    foldM (CommitEntry commit_id) (ds_manager s) (ds_undo s) = Ok mc ∧
    foldM RollbackEntry (ds_manager s) (reverse (ds_undo s)) = Ok mr ∧
    ∀ row, (row < ROW_GROUP_VECTOR_COUNT * STANDARD_VECTOR_SIZE)%nat →
      row_inserted (ds_manager s) row = row_inserted m row ∧
      row_deleted (ds_manager s) row = (if decide (row ∈ ids) then transaction_id t else row_deleted m row) ∧
      row_deleted mc row = (if decide (row ∈ fresh) then commit_id else row_deleted m row) ∧
      row_deleted mr row = row_deleted m row.
Proof.
  intros W Ht Hd Hlen.
  destruct (delete_ids_ok n m t ids Ht Hd ids [] [] (VersionDeleteState_new m base)) as (s & D & E & I & Hrows);
    [done | by apply delete_state_start | done |]. cbn [app] in I.
  assert (HD : ∀ row, row ∈ ids ↔ row ∈ D).
  { intros row. rewrite (dsi_rows _ _ _ _ _ _ I). unfold pending. rewrite Hrows.
    destruct (current_chunk s); cbn; rewrite ?elem_of_nil; tauto. }
  destruct (commit_records (ds_manager s) n commit_id (ds_undo s)) as (mc & Ec & _ & Rc); [apply I | apply I |].
  destruct (commit_records (ds_manager s) n NOT_DELETED_ID (reverse (ds_undo s))) as (mr & Er & _ & Rr);
    [apply I | by apply Forall_reverse, (dsi_undo _ _ _ _ _ _ I) |].
  exists s, (recorded (ds_undo s)), mc, mr.
  assert (Hrev : ∀ row, row ∈ recorded (reverse (ds_undo s)) ↔ row ∈ recorded (ds_undo s)).
  { intros row. apply recorded_same. intros d. apply elem_of_reverse. }
  split; [unfold RowGroup_Delete; rewrite E, (dsi_count _ _ _ _ _ _ I); done|].
  split; [apply I|]. split; [intros row; rewrite (dsi_recorded _ _ _ _ _ _ I), HD; done|].
  split; [exact Ec|]. split; [exact Er|]. intros row Hrow.
  destruct (dsi_map _ _ _ _ _ _ I row Hrow) as [Hi Hdel], (Rc row Hrow) as [_ Hc], (Rr row Hrow) as [_ Hr].
  split; [done|]. rewrite Hdel in Hc, Hr |- *. rewrite Hc, Hr.
  pose proof (dsi_recorded _ _ _ _ _ _ I row) as Hrec. pose proof (HD row) as HDr. specialize (Hrev row).
  assert (Hown : row ∈ D → row_deleted m row ≠ NOT_DELETED_ID → row_deleted m row = transaction_id t).
  { intros Hin Hn. destruct (Hd row (proj2 HDr Hin)) as (_ & _ & [?|?]); [by destruct Hn | done]. }
  destruct (decide (row ∈ ids)), (decide (row ∈ D)), (decide (row ∈ recorded (ds_undo s))),
    (decide (row ∈ recorded (reverse (ds_undo s)))); try tauto.
  - split_and!; [done | done | symmetry; tauto].
  - rewrite Hown by tauto. done.
Qed.

Lemma delete_commit_rollback_witness :
  ∃ s fresh mc mr, RowGroup_Delete sample_manager writer 0 [7; 3000; 7]%nat = (s, Ok (length fresh)) ∧ NoDup fresh ∧
    (∀ row, row ∈ fresh ↔ row ∈ [7; 3000; 7]%nat ∧ row_deleted sample_manager row = NOT_DELETED_ID) ∧
    foldM (CommitEntry 12) (ds_manager s) (ds_undo s) = Ok mc ∧
    foldM RollbackEntry (ds_manager s) (reverse (ds_undo s)) = Ok mr ∧
    ∀ row, (row < ROW_GROUP_VECTOR_COUNT * STANDARD_VECTOR_SIZE)%nat →
      row_inserted (ds_manager s) row = row_inserted sample_manager row ∧
      row_deleted (ds_manager s) row = (if decide (row ∈ [7; 3000; 7]%nat) then transaction_id writer else row_deleted sample_manager row) ∧
      row_deleted mc row = (if decide (row ∈ fresh) then 12 else row_deleted sample_manager row) ∧
      row_deleted mr row = row_deleted sample_manager row.
Proof.
  apply (delete_commit_rollback sample_manager 4000 writer 0 [7; 3000; 7]%nat 12).
  - apply sample_manager_wf.
  - done.
  - intros row [->|[->|[->|?%elem_of_nil]%elem_of_cons]%elem_of_cons]%elem_of_cons; try done;
      (split; [apply Nat.ltb_lt; vm_compute; done | split; [vm_compute; done | left; vm_compute; done]]).
  - apply Nat.leb_le. vm_compute. done.
Defined.

(** Deleting a row that another transaction deleted throws a transaction
    conflict; rows after the first conflicting one are left alone, and no row
    of another transaction is overwritten. *)
Theorem delete_conflict_throws v n tid rows k :
  vector_wf n v → tid ≠ NOT_DELETED_ID → (k ≤ length rows)%nat →
  (∀ r, r ∈ rows → (r < STANDARD_VECTOR_SIZE)%nat) → (∃ r, r ∈ take k rows ∧ conflicts tid v r) →
  ∃ v' rows' j r, Delete v tid rows k = (v', rows', Throw (TransactionException "Conflict on tuple deletion!")) ∧
    rows !! j = Some r ∧ (j < k)%nat ∧ conflicts tid v r ∧
    (∀ q, q ∈ take j rows → ¬ conflicts tid v q) ∧
    (∀ q, deleted_at (VECTOR_INFO v') q = if decide (q ∈ take j rows) then tid else deleted_at (VECTOR_INFO v) q).
Proof. apply Delete_conflict. Qed.


(** * Checkpoints *)

(** C35. Checkpointing a row group and loading it again keeps what was committed:
    every row of the row group then counts as inserted, and it is deleted exactly
    when deletions were recorded in its vector and the snapshot at the checkpoint
    did not see it, because its deletion was committed or its insertion was not,
    also in vectors that several transactions appended to.  In particular a row
    whose insertion was committed is deleted exactly when its deletion was.  The
    version information is well-formed and has changed since it was last written
    (otherwise the old pointers are kept), and the ids of a vector that is
    recorded as a constant do not lie at the boundaries of the transaction ids. *)
Theorem checkpoint_keeps_deletions m n start :
  manager_wf n m → (∀ i info, vector_info m !! i = Some (Some info) → settled info) →
  has_changes m = true ∨ storage_pointers m = None →
  ∃ m' p o, Checkpoint m = Ok (m', p) ∧ Deserialize p start = Ok o ∧
    ∀ row, (row < n)%nat → (row < ROW_GROUP_VECTOR_COUNT * STANDARD_VECTOR_SIZE)%nat →
      loaded_inserted o row = 0 ∧
      loaded_deleted o row = (if row_kept m row then NOT_DELETED_ID else 0) ∧
      (row_inserted m row < TRANSACTION_ID_START - 1 → row_deleted m row ≠ TRANSACTION_ID_START - 1 → row_deleted m row ≠ INVALID_INDEX →
       loaded_deleted o row = if row_deleted m row <? TRANSACTION_ID_START then 0 else NOT_DELETED_ID).
Proof.
  intros W S Hch. destruct (Checkpoint_roundtrip m n start W S Hch) as (m' & p & o & E1 & E2 & H). exists m', p, o. split_and!; [done..|].
  intros row Hn Hrow. destruct (H row Hn Hrow) as [Hi Hd]. split_and!; [done..|]. intros H1 H2 H3. rewrite Hd, (committed_kept n) by done. by destruct (_ <? _).
Qed.

(** A vector two transactions appended to: rows 0 to 9 at time 3, the others by
    one that has not committed; row 5 was deleted at time 4, and row 6 by a
    transaction that has not committed. *)
Definition shared_vector : ChunkVectorInfo :=
  mkVectorInfo 0 (replicate 10 3 ++ replicate (SVS - 10) (TRANSACTION_ID_START + 9)) NOT_DELETED_ID false
    (<[5%nat := 4]> (<[6%nat := TRANSACTION_ID_START + 9]> (replicate SVS NOT_DELETED_ID))) true.

Definition shared_manager : RowVersionManager :=
  set_vector_info (RowVersionManager_new 0) (<[O := Some (VECTOR_INFO shared_vector)]> (vector_info (RowVersionManager_new 0))).

Lemma shared_manager_wf n : manager_wf n shared_manager.
Proof.
  apply manager_wf_insert; [apply manager_new_wf|]. split; cbn; [|by rewrite !length_insert, length_replicate | done | done].
  apply Nat.eqb_eq. by vm_compute.
Qed.

Lemma checkpoint_keeps_deletions_witness :
  ∃ m' p o, Checkpoint shared_manager = Ok (m', p) ∧ Deserialize p 0 = Ok o ∧
    (loaded_deleted o <$> [4; 5; 6; 12]%nat) = [NOT_DELETED_ID; 0; NOT_DELETED_ID; 0].
Proof.
  destruct (checkpoint_keeps_deletions shared_manager 2048 0) as (m' & p & o & E1 & E2 & H); [apply shared_manager_wf | | right; done|].
  - intros i info H. apply list_lookup_insert_Some in H as [(_ & [= <-] & _)|(_ & [? _]%lookup_replicate)]; [|done]. cbn. lia.
  - exists m', p, o. split_and!; [done..|]. cbn [fmap list_fmap].
    rewrite (proj1 (proj2 (H 4%nat ltac:(lia) ltac:(apply Nat.ltb_lt; by vm_compute)))).
    rewrite (proj1 (proj2 (H 5%nat ltac:(lia) ltac:(apply Nat.ltb_lt; by vm_compute)))).
    rewrite (proj1 (proj2 (H 6%nat ltac:(lia) ltac:(apply Nat.ltb_lt; by vm_compute)))).
    rewrite (proj1 (proj2 (H 12%nat ltac:(lia) ltac:(apply Nat.ltb_lt; by vm_compute)))). vm_compute. reflexivity.
Defined.

(** * Where the code departs from its comments *)

(** A conflict leaves the rows before the conflicting one marked with the id
    of the failed transaction.  No undo record exists for them, so that rolling
    the transaction back leaves them marked: row 3 can then not be deleted by
    any other transaction. *)
Lemma delete_conflict_leaks_marks :
  ∃ s, RowGroup_Delete sample_manager writer 0 [3; 5]%nat = (s, Throw (TransactionException "Conflict on tuple deletion!")) ∧
       ds_undo s = [] ∧ row_deleted sample_manager 3 = NOT_DELETED_ID ∧
       row_deleted (ds_manager s) 3 = transaction_id writer ∧
       ∃ s', RowGroup_Delete (ds_manager s) reader 0 [3]%nat = (s', Throw (TransactionException "Conflict on tuple deletion!")).
Proof. eexists. split; [vm_compute; reflexivity|]. split_and!; try (vm_compute; reflexivity). eexists. vm_compute. reflexivity. Qed.

(** A constant info read back from a checkpoint marks the whole vector as
    deleted; converting it to a vector info drops that mark. *)
Lemma conversion_drops_deletion :
  let m := set_vector_info (RowVersionManager_new 0) (<[O := Some (CONSTANT_INFO (mkConstantInfo 0 0 0))]> (vector_info (RowVersionManager_new 0))) in
  row_deleted m 3 = 0 ∧ (('(m', _) ← GetVectorInfo m 0; Ok (row_deleted m' 3)) = Ok NOT_DELETED_ID).
Proof. split; vm_compute; reflexivity. Qed.
