(* ===== verification/UpdateSegment.v ===== *)
(** Update segments ([src/storage/table/update_segment.cpp],
    [src/include/duckdb/transaction/update_info.hpp]): the in-place updates of
    one column of a row group.

    Each vector of the column has at most one chain of [UpdateInfo]s.  The
    first one, the base info, holds the newest value of every updated row; the
    others, one per updating transaction, hold the values the rows had before,
    so that a reader undoes the updates it must not see.  The chain is linked
    by [next] and [prev]; here it is the list of the infos behind the base
    info, and an info is identified by its address.  The parallel arrays
    [tuples] and [tuple_data] of an info are the list of its [N] pairs. *)
From S2P Require Import Prelude Bits SelectionVector Types Stats ValidityMask ChunkInfo RowVersionManager.
From S2P Require Import NumericStats StringStats BaseStatistics.

(** * Data *)

(** A flat vector: its data array and its validity mask. *)
Record FlatVector (T : Type) : Type := mkFlat { flat_data : list T; flat_validity : ValidityMask }.
Arguments mkFlat {T} _ _.
Arguments flat_data {T} _.
Arguments flat_validity {T} _.

Record UpdateInfo (T : Type) : Type := mkUpdateInfo {
  info_address : nat;
  info_column_index : nat;
  version_number : Z;
  info_vector_index : nat;
  info_entries : list (Z * T)
}.
Arguments mkUpdateInfo {T} _ _ _ _ _.
Arguments info_address {T} _.
Arguments info_column_index {T} _.
Arguments version_number {T} _.
Arguments info_vector_index {T} _.
Arguments info_entries {T} _.

Definition set_entries {T} (i : UpdateInfo T) (l : list (Z * T)) : UpdateInfo T :=
  mkUpdateInfo (info_address i) (info_column_index i) (version_number i) (info_vector_index i) l.
Definition set_version {T} (i : UpdateInfo T) (v : Z) : UpdateInfo T :=
  mkUpdateInfo (info_address i) (info_column_index i) v (info_vector_index i) (info_entries i).

(** [UpdateNodeData]: the base info and the chain behind it. *)
Record UpdateNodeData (T : Type) : Type := mkNode { node_info : UpdateInfo T; node_next : list (UpdateInfo T) }.
Arguments mkNode {T} _ _.
Arguments node_info {T} _.
Arguments node_next {T} _.

Definition node_chain {T} (n : UpdateNodeData T) : list (UpdateInfo T) := node_info n :: node_next n.

(** [us_start] is [column_data.start]. *)
Record UpdateSegment (T : Type) : Type := mkSegment {
  us_start : Z;
  us_stats : BaseStatistics;
  us_root : option (list (option (UpdateNodeData T)))
}.
Arguments mkSegment {T} _ _ _.
Arguments us_start {T} _.
Arguments us_stats {T} _.
Arguments us_root {T} _.

(** * Reading through the chain *)

(** [UpdateInfo::UpdatesForTransaction]. *)
Definition use_old_version (start_time transaction_id version : Z) : bool :=
  (start_time <? version) && negb (version =? transaction_id).

Fixpoint UpdatesForTransaction {T St} (current : list (UpdateInfo T)) (start_time transaction_id : Z)
    (callback : St → UpdateInfo T → result St) (s : St) : result St :=
  match current with
  | [] => Ok s
  | i :: next =>
      s ← (if use_old_version start_time transaction_id (version_number i) then callback s i else Ok s);
      UpdatesForTransaction next start_time transaction_id callback s
  end.

Definition MergeValidityInfo (current : UpdateInfo bool) (result_mask : ValidityMask) : result ValidityMask :=
  foldM (λ m (e : Z * bool), SetRow m (Z.to_nat e.1) e.2) result_mask (info_entries current).

(** [memcpy(result_data, info_data, sizeof(T) * n)]. *)
Definition copy_front {T} (dst src : list T) (n : nat) : result (list T) :=
  if ((length dst <? n) || (length src <? n))%nat then out_of_range else Ok (take n src ++ drop n dst).

Definition MergeUpdateInfo {T} (current : UpdateInfo T) (result_data : list T) : result (list T) :=
  if (length (info_entries current) =? STANDARD_VECTOR_SIZE)%nat
  then copy_front result_data (info_entries current).*2 (length (info_entries current))
  else foldM (λ d (e : Z * T), vset d (Z.to_nat e.1) e.2) result_data (info_entries current).

Definition with_validity {T} (v : FlatVector T) (r : result ValidityMask) : result (FlatVector T) :=
  m ← r; Ok (mkFlat (flat_data v) m).
Definition with_data {T} (v : FlatVector T) (r : result (list T)) : result (FlatVector T) :=
  d ← r; Ok (mkFlat d (flat_validity v)).

Definition UpdateMergeValidity (start_time transaction_id : Z) (info : list (UpdateInfo bool)) (res : FlatVector bool)
    : result (FlatVector bool) :=
  with_validity res (UpdatesForTransaction info start_time transaction_id (λ m i, MergeValidityInfo i m) (flat_validity res)).

Definition UpdateMergeFetch {T} (start_time transaction_id : Z) (info : list (UpdateInfo T)) (res : FlatVector T)
    : result (FlatVector T) :=
  with_data res (UpdatesForTransaction info start_time transaction_id (λ d i, MergeUpdateInfo i d) (flat_data res)).

Definition FetchCommittedValidity (info : UpdateInfo bool) (res : FlatVector bool) : result (FlatVector bool) :=
  with_validity res (MergeValidityInfo info (flat_validity res)).
Definition TemplatedFetchCommitted {T} (info : UpdateInfo T) (res : FlatVector T) : result (FlatVector T) :=
  with_data res (MergeUpdateInfo info (flat_data res)).

(** The loops of [MergeUpdateInfoRange] and [MergeUpdateInfoRangeValidity] over
    the entries of an info; [store] writes one row of the result. *)
Fixpoint range_loop {T St} (store : St → nat → T → result St) (from to result_offset : nat) (l : list (Z * T)) (s : St)
    : result St :=
  match l with
  | [] => Ok s
  | (tuple_idx, x) :: l =>
      if tuple_idx <? Z.of_nat from then range_loop store from to result_offset l s
      else if Z.of_nat to <=? tuple_idx then Ok s
      else s ← store s (result_offset + Z.to_nat tuple_idx - from)%nat x; range_loop store from to result_offset l s
  end.

Definition MergeUpdateInfoRangeValidity (current : UpdateInfo bool) (from to result_offset : nat) (result_mask : ValidityMask)
    : result ValidityMask :=
  range_loop SetRow from to result_offset (info_entries current) result_mask.
Definition MergeUpdateInfoRange {T} (current : UpdateInfo T) (from to result_offset : nat) (result_data : list T)
    : result (list T) :=
  range_loop vset from to result_offset (info_entries current) result_data.

Definition FetchCommittedRangeValidity (info : UpdateInfo bool) (from to result_offset : nat) (res : FlatVector bool)
    : result (FlatVector bool) :=
  with_validity res (MergeUpdateInfoRangeValidity info from to result_offset (flat_validity res)).
Definition TemplatedFetchCommittedRange {T} (info : UpdateInfo T) (from to result_offset : nat) (res : FlatVector T)
    : result (FlatVector T) :=
  with_data res (MergeUpdateInfoRange info from to result_offset (flat_data res)).

(** The search of [FetchRow] in one info. *)
Fixpoint find_row {T St} (store : St → T → result St) (row_idx : Z) (l : list (Z * T)) (s : St) : result St :=
  match l with
  | [] => Ok s
  | (t, x) :: l =>
      if t =? row_idx then store s x
      else if row_idx <? t then Ok s
      else find_row store row_idx l s
  end.

Definition FetchRowValidity (start_time transaction_id : Z) (info : list (UpdateInfo bool)) (row_idx : nat)
    (res : FlatVector bool) (result_idx : nat) : result (FlatVector bool) :=
  with_validity res (UpdatesForTransaction info start_time transaction_id
    (λ m i, find_row (λ m x, SetRow m result_idx x) (Z.of_nat row_idx) (info_entries i) m) (flat_validity res)).
Definition TemplatedFetchRow {T} (start_time transaction_id : Z) (info : list (UpdateInfo T)) (row_idx : nat)
    (res : FlatVector T) (result_idx : nat) : result (FlatVector T) :=
  with_data res (UpdatesForTransaction info start_time transaction_id
    (λ d i, find_row (λ d x, vset d result_idx x) (Z.of_nat row_idx) (info_entries i) d) (flat_data res)).

(** * Rolling back, conflicts *)

(** The entries below [id], and the others: the loops
    [while (tuples[offset] < id) offset++]. *)
Fixpoint split_below {T} (id : Z) (l : list (Z * T)) : list (Z * T) * list (Z * T) :=
  match l with
  | [] => ([], [])
  | e :: l' => if e.1 <? id then let '(a, b) := split_below id l' in (e :: a, b) else ([], l)
  end.

(** [RollbackUpdate<T>]: the state is the entries of the base info that were
    passed and the rest, which starts at [base_offset]. *)
Definition rollback_step {T} (st : list (Z * T) * list (Z * T)) (e : Z * T) : result (list (Z * T) * list (Z * T)) :=
  let '(passed, rest) := st in
  let '(below, rest) := split_below e.1 rest in
  match rest with
  | [] => Throw (UndefinedBehaviour "tuple id past the end of the base info")
  | (t, _) :: rest => Ok (passed ++ below, (t, e.2) :: rest)
  end.

Definition RollbackUpdate {T} (base_entries rollback_entries : list (Z * T)) : result (list (Z * T)) :=
  '(passed, rest) ← foldM rollback_step ([], base_entries) rollback_entries; Ok (passed ++ rest).

(** The merge join of [CheckForConflicts] over the updated ids and the tuples
    of an info. *)
Fixpoint conflict_loop (ids : list Z) {struct ids} : list Z → result unit :=
  fix scan (ts : list Z) {struct ts} : result unit :=
    match ids, ts with
    | id :: ids', t :: ts' =>
        if id =? t then Throw (TransactionException "Conflict on update!")
        else if id <? t then conflict_loop ids' ts
        else scan ts'
    | _, _ => Ok tt
    end.

(** The rows of an update: for [i < count], [idx = sel.get_index(i)] with
    [ids[idx]]. *)
Definition selected_ids (ids : list Z) (sel : SelectionVector) (count : nat) : result (list (nat * Z)) :=
  mapR (λ i, idx ← get_index sel i; id ← vget ids (Z.to_nat idx); Ok (Z.to_nat idx, id)) (seq 0 count).

Fixpoint CheckForConflicts {T} (info : list (UpdateInfo T)) (t : TransactionData) (rows : list (nat * Z)) (offset : Z)
    : result unit :=
  match info with
  | [] => Ok tt
  | i :: next =>
      _ ← (if version_number i =? transaction_id t then Ok tt
           else if start_time t <? version_number i then
             match rows, info_entries i with
             | [], _ | _, [] => out_of_range
             | _, _ => conflict_loop ((λ r, r.2 - offset) <$> rows) (info_entries i).*1
             end
           else Ok tt);
      CheckForConflicts next t rows offset
  end.

(** * Recording an update *)

(** [NumericCast<sel_t>(NumericCast<idx_t>(id) - vector_offset)]. *)
Definition tuple_id (vector_offset id : Z) : result Z :=
  if id <? 0 then Throw (InternalException "Information loss on integer cast")
  else let x := wrapu 64 (id - vector_offset) in
       if UINT32_MAX <? x then Throw (InternalException "Information loss on integer cast") else Ok x.

Definition InitializeUpdateInfo (rows : list (nat * Z)) (vector_offset : Z) : result (list Z) :=
  mapR (λ r : nat * Z, tuple_id vector_offset r.2) rows.

(** The entries of the transaction's info (the old values, from the table) and
    of the base info (the new values).  A validity mask without data marks
    every row valid. *)
Definition InitializeUpdateValidity (base_tuples : list Z) (base_data : FlatVector bool) (update_tuples : list Z)
    (update : FlatVector bool) (sel : SelectionVector) : result (list (Z * bool) * list (Z * bool)) :=
  update_entries ←
    (if AllValid (flat_validity update) then Ok ((λ t, (t, true)) <$> update_tuples)
     else mapR (λ '(i, t), idx ← get_index sel i; b ← RowIsValidUnsafe (flat_validity update) (Z.to_nat idx); Ok (t, b))
               (imap pair update_tuples));
  base_entries ←
    (if AllValid (flat_validity base_data) then Ok ((λ t, (t, true)) <$> base_tuples)
     else mapR (λ t, b ← RowIsValidUnsafe (flat_validity base_data) (Z.to_nat t); Ok (t, b)) base_tuples);
  Ok (base_entries, update_entries).

(** [UpdateSelectElement::Operation] copies long strings to the heap of the
    segment and leaves their contents as they are.  [uninitialised] is what
    the memory of a fresh info holds: the old value of a NULL row is not
    written. *)
Definition InitializeUpdateData {T} (uninitialised : T) (base_tuples : list Z) (base_data : FlatVector T)
    (update_tuples : list Z) (update : FlatVector T) (sel : SelectionVector)
    : result (list (Z * T) * list (Z * T)) :=
  update_entries ← mapR (λ '(i, t), idx ← get_index sel i; x ← vget (flat_data update) (Z.to_nat idx); Ok (t, x))
                        (imap pair update_tuples);
  base_entries ← mapR (λ t, valid ← RowIsValid (flat_validity base_data) (Z.to_nat t);
                            if negb valid then Ok (t, uninitialised)
                            else x ← vget (flat_data base_data) (Z.to_nat t); Ok (t, x)) base_tuples;
  Ok (base_entries, update_entries).

(** [MergeLoop]: the outputs of the callbacks in order. *)
Definition MergeLoop {A B C} (a_id : A → Z) (b_id : B → Z) (merge : A → B → result C) (pick_a : A → result C)
    (pick_b : B → result C) : list A → list B → result (list C) :=
  fix go a :=
    fix go_b b :=
      match a, b with
      | x :: a', y :: b' =>
          if a_id x =? b_id y then c ← merge x y; l ← go a' b'; Ok (c :: l)
          else if a_id x <? b_id y then c ← pick_a x; l ← go a' b; Ok (c :: l)
          else c ← pick_b y; l ← go_b b'; Ok (c :: l)
      | _, [] => mapR pick_a a
      | [], _ => mapR pick_b b
      end.

(** The result arrays on the stack have [STANDARD_VECTOR_SIZE] entries. *)
Definition fits_vector {A} (l : list A) : result (list A) :=
  if (length l <=? STANDARD_VECTOR_SIZE)%nat then Ok l else out_of_range.

(** One updated row of the first loop of [MergeUpdateLoopInternal]: the state
    is the rest of the transaction's entries, the rest of the base entries and
    the entries written to the result. *)
Definition collect_old {T} (base_table : nat → result T) (base_id : Z)
    (st : list (Z * T) * list (Z * T) * list (Z * T)) (row : nat * Z)
    : result (list (Z * T) * list (Z * T) * list (Z * T)) :=
  let '(update_rest, base_rest, res) := st in
  let update_id := wrapu 64 (row.2 - base_id) in
  let '(before, update_rest) := split_below update_id update_rest in
  let res := res ++ before in
  let fetch :=
    let base_rest := (split_below update_id base_rest).2 in
    x ← match base_rest with
        | (t, x) :: _ => if t =? update_id then Ok x else base_table (Z.to_nat update_id)
        | [] => base_table (Z.to_nat update_id)
        end;
    Ok (update_rest, base_rest, res ++ [(wrapu 32 update_id, x)]) in
  match update_rest with
  | e :: rest => if e.1 =? update_id then Ok (rest, base_rest, res ++ [e]) else fetch
  | [] => fetch
  end.

(** [MergeUpdateLoopInternal]: the new entries of the base info and of the
    transaction's info. *)
Definition MergeUpdateLoopInternal {T} (base_entries : list (Z * T)) (base_table : nat → result T)
    (update_entries : list (Z * T)) (update_vector : nat → result T) (rows : list (nat * Z)) (base_id : Z)
    : result (list (Z * T) * list (Z * T)) :=
  '(update_rest, _, res) ← foldM (collect_old base_table base_id) (update_entries, base_entries, []) rows;
  update_entries' ← fits_vector (res ++ update_rest);
  let pick_new (r : nat * Z) := x ← update_vector r.1; Ok (wrapu 32 (wrapu 64 (r.2 - base_id)), x) in
  merged ← MergeLoop (λ r : nat * Z, wrapu 64 (r.2 - base_id)) fst (λ r _, pick_new r) pick_new Ok rows base_entries;
  base_entries' ← fits_vector merged;
  Ok (base_entries', update_entries').

Definition MergeValidityLoop (base_entries : list (Z * bool)) (base_data : FlatVector bool)
    (update_entries : list (Z * bool)) (update : FlatVector bool) (rows : list (nat * Z)) (base_id : Z) :=
  MergeUpdateLoopInternal base_entries (RowIsValid (flat_validity base_data)) update_entries
    (RowIsValid (flat_validity update)) rows base_id.
Definition MergeUpdateLoop {T} (base_entries : list (Z * T)) (base_data : FlatVector T)
    (update_entries : list (Z * T)) (update : FlatVector T) (rows : list (nat * Z)) (base_id : Z) :=
  MergeUpdateLoopInternal base_entries (vget (flat_data base_data)) update_entries (vget (flat_data update)) rows base_id.

(** * Statistics of the updates *)

(** The first [count] rows that are valid, with the selection of them. *)
Definition valid_selection (mask : ValidityMask) (count : nat) : result (SelectionVector * nat) :=
  foldM (λ st i, v ← RowIsValid mask i; if (v : bool) then sel_push st (Z.of_nat i) else Ok st)
        (SelectionVector_Initialize STANDARD_VECTOR_SIZE, O) (seq 0 count).

(** The loop that looks for a NULL stops at the first one. *)
Definition UpdateValidityStatistics (stats : BaseStatistics) (update : FlatVector bool) (count : nat)
    : result (BaseStatistics * SelectionVector * nat) :=
  let mask := flat_validity update in
  stats ← (if negb (AllValid mask) && negb (CanHaveNull stats) then
             all_valid ← check_rows mask (seq 0 count);
             Ok (if (all_valid : bool) then stats else set_validity stats true (has_no_null stats))
           else Ok stats);
  Ok (stats, SelectionVector_null, count).

(** [TemplatedUpdateNumericStatistics<T>] and [UpdateStringStatistics]; the
    latter also moves long strings to the heap, which keeps their contents. *)
Definition update_value_statistics {T} (update_one : BaseStatistics → T → result BaseStatistics) (stats : BaseStatistics)
    (update : FlatVector T) (count : nat) : result (BaseStatistics * SelectionVector * nat) :=
  let mask := flat_validity update in
  if AllValid mask then
    stats ← foldM (λ s i, x ← vget (flat_data update) i; update_one s x) stats (seq 0 count);
    Ok (stats, SelectionVector_null, count)
  else
    '(sel, n) ← valid_selection mask count;
    stats ← foldM (λ s i, v ← RowIsValid mask i;
                          if (v : bool) then x ← vget (flat_data update) i; update_one s x else Ok s) stats (seq 0 count);
    Ok (stats, sel, n).

Definition TemplatedUpdateNumericStatistics (pt : PhysicalType) := update_value_statistics (NumericStats_Update pt).
Definition UpdateStringStatistics := update_value_statistics StringStats_Update.

(** * The functions of a physical type *)

(** The function pointers of an [UpdateSegment]. *)
Record UpdateFunctions (T : Type) : Type := mkFunctions {
  initialize_update_function :
    list Z → FlatVector T → list Z → FlatVector T → SelectionVector → result (list (Z * T) * list (Z * T));
  merge_update_function :
    list (Z * T) → FlatVector T → list (Z * T) → FlatVector T → list (nat * Z) → Z → result (list (Z * T) * list (Z * T));
  fetch_update_function : Z → Z → list (UpdateInfo T) → FlatVector T → result (FlatVector T);
  fetch_committed_function : UpdateInfo T → FlatVector T → result (FlatVector T);
  fetch_committed_range : UpdateInfo T → nat → nat → nat → FlatVector T → result (FlatVector T);
  fetch_row_function : Z → Z → list (UpdateInfo T) → nat → FlatVector T → nat → result (FlatVector T);
  rollback_update_function : list (Z * T) → list (Z * T) → result (list (Z * T));
  statistics_update_function : BaseStatistics → FlatVector T → nat → result (BaseStatistics * SelectionVector * nat)
}.
Arguments mkFunctions {T} _ _ _ _ _ _ _ _.
Arguments initialize_update_function {T} _ _ _ _ _ _.
Arguments merge_update_function {T} _ _ _ _ _ _ _.
Arguments fetch_update_function {T} _ _ _ _ _.
Arguments fetch_committed_function {T} _ _ _.
Arguments fetch_committed_range {T} _ _ _ _ _ _.
Arguments fetch_row_function {T} _ _ _ _ _ _ _.
Arguments rollback_update_function {T} _ _ _.
Arguments statistics_update_function {T} _ _ _ _.

Definition validity_functions : UpdateFunctions bool :=
  mkFunctions InitializeUpdateValidity MergeValidityLoop UpdateMergeValidity FetchCommittedValidity
    FetchCommittedRangeValidity FetchRowValidity RollbackUpdate UpdateValidityStatistics.

Definition value_functions {T} (uninitialised : T)
    (statistics : BaseStatistics → FlatVector T → nat → result (BaseStatistics * SelectionVector * nat)) : UpdateFunctions T :=
  mkFunctions (InitializeUpdateData uninitialised) MergeUpdateLoop UpdateMergeFetch TemplatedFetchCommitted
    TemplatedFetchCommittedRange TemplatedFetchRow RollbackUpdate statistics.

(** The three families of functions: for validity masks, numbers (an interval
    counts as the number its bytes spell) and strings.  The old value of a row that
    was NULL is memory nobody wrote or reads: here a zero. *)
Inductive update_kind : Type := Update_validity | Update_number (pt : PhysicalType) | Update_string.
Definition update_element (k : update_kind) : Type :=
  match k with Update_validity => bool | Update_number _ => Z | Update_string => list Z end.
Definition update_functions (k : update_kind) : UpdateFunctions (update_element k) :=
  match k with
  | Update_validity => validity_functions
  | Update_number pt => value_functions 0 (TemplatedUpdateNumericStatistics pt)
  | Update_string => value_functions [] UpdateStringStatistics
  end.

(** The switch the eight [Get...Function]s share, with their messages. *)
Definition update_switch (message : string) (pt : PhysicalType) : result update_kind :=
  match pt with
  | PT_BIT => Ok Update_validity
  | BOOL | INT8 | INT16 | INT32 | INT64 | UINT8 | UINT16 | UINT32 | UINT64 | INT128 | UINT128 | FLOAT | DOUBLE
  | PT_INTERVAL => Ok (Update_number pt)
  | PT_VARCHAR => Ok Update_string
  | _ => Throw (NotImplementedException message)
  end.
Definition GetInitializeUpdateFunction := update_switch "Unimplemented type for update segment".
Definition GetFetchUpdateFunction := update_switch "Unimplemented type for update segment".
Definition GetFetchCommittedFunction := update_switch "Unimplemented type for update segment".
Definition GetFetchCommittedRangeFunction := update_switch "Unimplemented type for update segment".
Definition GetFetchRowFunction := update_switch "Unimplemented type for update segment fetch row".
Definition GetMergeUpdateFunction := update_switch "Unimplemented type for uncompressed segment".
Definition GetRollbackUpdateFunction := update_switch "Unimplemented type for uncompressed segment".
Definition GetStatisticsUpdateFunction := update_switch "Unimplemented type for uncompressed segment".

(** The constructor: an empty segment and the family its functions come from;
    the member initialisers run first, then the functions are looked up. *)
Definition UpdateSegment_new (T : Type) (type : LogicalType) (start : Z) : result (update_kind * UpdateSegment T) :=
  stats ← CreateEmpty type;
  let pt := InternalType type in
  k ← GetInitializeUpdateFunction pt;
  _ ← GetFetchUpdateFunction pt;
  _ ← GetFetchCommittedFunction pt;
  _ ← GetFetchCommittedRangeFunction pt;
  _ ← GetFetchRowFunction pt;
  _ ← GetMergeUpdateFunction pt;
  _ ← GetRollbackUpdateFunction pt;
  _ ← GetStatisticsUpdateFunction pt;
  Ok (k, mkSegment start stats None).

(** * Sorting the updated rows *)

Fixpoint strictly_sorted (l : list Z) : bool :=
  match l with
  | x :: (y :: _) as l' => (x <? y) && strictly_sorted l'
  | _ => true
  end.

(** Of the rows that follow [prev], those whose id differs from the one before. *)
Fixpoint drop_repeated (prev : Z) (l : list (Z * Z)) : list (Z * Z) :=
  match l with
  | [] => []
  | r :: l' => if r.2 =? prev then drop_repeated r.2 l' else r :: drop_repeated r.2 l'
  end.

(** [std::sort] by row id; it leaves the order of equal ids open, and this sort
    is stable. *)
#[local] Instance row_le_dec : RelDecision (λ a b : Z * Z, a.2 ≤ b.2).
Proof. intros a b. apply _. Defined.
Definition sort_rows (l : list (Z * Z)) : list (Z * Z) := merge_sort (λ a b : Z * Z, a.2 ≤ b.2) l.

(** The rows are pairs of an index and its row id.  The unique rows overwrite
    the front of the sorted buffer. *)
Definition SortSelectionVector (sel : SelectionVector) (count : nat) (ids : list Z) : result (SelectionVector * nat) :=
  rows ← mapR (λ i, idx ← get_index sel i; id ← vget ids (Z.to_nat idx); Ok (idx, id)) (seq 0 count);
  if strictly_sorted rows.*2 then Ok (sel, count)
  else
    let sorted := sort_rows rows in
    let unique := match sorted with [] => [] | r :: l => r :: drop_repeated r.2 l end in
    Ok (mkSel (Some (wrapu 32 <$> (unique ++ drop (length unique) sorted).*1)), length unique).

(** * Operations *)

Section Operations.
Context {T : Type} (F : UpdateFunctions T).

(** [root->info[vector_index]]: [None] without a root. *)
Definition vector_node (us : UpdateSegment T) (vector_index : nat) : result (option (UpdateNodeData T)) :=
  match us_root us with None => Ok None | Some infos => vget infos vector_index end.

Definition UpdateSegment_FetchUpdates (us : UpdateSegment T) (t : TransactionData) (vector_index : nat) (res : FlatVector T)
    : result (FlatVector T) :=
  o ← vector_node us vector_index;
  match o with
  | None => Ok res
  | Some n => fetch_update_function F (start_time t) (transaction_id t) (node_chain n) res
  end.

Definition UpdateSegment_FetchCommitted (us : UpdateSegment T) (vector_index : nat) (res : FlatVector T)
    : result (FlatVector T) :=
  o ← vector_node us vector_index;
  match o with None => Ok res | Some n => fetch_committed_function F (node_info n) res end.

(** One vector of [FetchCommittedRange]. *)
Definition fetch_range_step (us : UpdateSegment T) (start_row end_row : nat) (res : FlatVector T) (vector_idx : nat)
    : result (FlatVector T) :=
  o ← vector_node us vector_idx;
  match o with
  | None => Ok res
  | Some n =>
      let start_vector := (start_row / STANDARD_VECTOR_SIZE)%nat in
      let end_vector := ((end_row - 1) / STANDARD_VECTOR_SIZE)%nat in
      let start_in_vector :=
        if (vector_idx =? start_vector)%nat then (start_row - start_vector * STANDARD_VECTOR_SIZE)%nat else O in
      let end_in_vector :=
        if (vector_idx =? end_vector)%nat then (end_row - end_vector * STANDARD_VECTOR_SIZE)%nat else STANDARD_VECTOR_SIZE in
      let result_offset := (vector_idx * STANDARD_VECTOR_SIZE + start_in_vector - start_row)%nat in
      fetch_committed_range F (node_info n) start_in_vector end_in_vector result_offset res
  end.

Definition UpdateSegment_FetchCommittedRange (us : UpdateSegment T) (start_row count : nat) (res : FlatVector T)
    : result (FlatVector T) :=
  match us_root us with
  | None => Ok res
  | Some _ => foldM (fetch_range_step us start_row (start_row + count)) res (touched_vectors start_row (start_row + count))
  end.

(** The row id as an offset into the segment. *)
Definition UpdateSegment_FetchRow (us : UpdateSegment T) (t : TransactionData) (row_id : Z) (res : FlatVector T)
    (result_idx : nat) : result (FlatVector T) :=
  let row := Z.to_nat (wrapu 64 (row_id - us_start us)) in
  let vector_index := (row / STANDARD_VECTOR_SIZE)%nat in
  o ← vector_node us vector_index;
  match o with
  | None => Ok res
  | Some n => fetch_row_function F (start_time t) (transaction_id t) (node_chain n)
                (row - vector_index * STANDARD_VECTOR_SIZE) res result_idx
  end.

Definition set_node (us : UpdateSegment T) (vector_index : nat) (n : UpdateNodeData T) : UpdateSegment T :=
  match us_root us with
  | None => us
  | Some infos => mkSegment (us_start us) (us_stats us) (Some (<[vector_index := Some n]> infos))
  end.

(** [CleanupUpdateInternal]: the info is unlinked from its chain. *)
Definition unlink (chain : list (UpdateInfo T)) (address : nat) : list (UpdateInfo T) :=
  filter (λ i, info_address i ≠ address) chain.

Definition CleanupUpdate (us : UpdateSegment T) (vector_index address : nat) : result (UpdateSegment T) :=
  o ← vector_node us vector_index;
  match o with
  | None => Throw (UndefinedBehaviour "update info without a base info")
  | Some n => Ok (set_node us vector_index (mkNode (node_info n) (unlink (node_next n) address)))
  end.

(** [RollbackUpdate(info)] for the info of the chain with that address. *)
Definition UpdateSegment_RollbackUpdate (us : UpdateSegment T) (vector_index address : nat) : result (UpdateSegment T) :=
  match us_root us with
  | None => Throw (UndefinedBehaviour "dereference of a null update node")
  | Some _ =>
      o ← vector_node us vector_index;
      match o with
      | None => Ok us
      | Some n =>
          match filter (λ i, info_address i = address) (node_next n) with
          | [] => Throw (UndefinedBehaviour "update info that is not linked")
          | info :: _ =>
              base' ← rollback_update_function F (info_entries (node_info n)) (info_entries info);
              Ok (set_node us vector_index (mkNode (set_entries (node_info n) base') (unlink (node_next n) address)))
          end
      end
  end.

(** [CommitState::CommitEntry] of an update: [info->version_number = commit_id]. *)
Definition CommitUpdate (us : UpdateSegment T) (commit_id : Z) (vector_index address : nat) : result (UpdateSegment T) :=
  o ← vector_node us vector_index;
  match o with
  | None => Throw (UndefinedBehaviour "update info without a base info")
  | Some n =>
      Ok (set_node us vector_index (mkNode (node_info n)
           ((λ i, if decide (info_address i = address) then set_version i commit_id else i) <$> node_next n)))
  end.

(** Replacing the entries of the info with the given version. *)
Definition update_own (tid : Z) (l : list (Z * T)) : list (UpdateInfo T) → list (UpdateInfo T) :=
  fix go c := match c with
              | [] => []
              | i :: c' => if version_number i =? tid then set_entries i l :: c' else i :: go c'
              end.

(** The branch of [Update] for a vector that has updates: [address] is where
    the undo buffer allocates the info of a transaction that has none yet.
    Without a transaction the info is dropped, and the chain with it. *)
Definition update_chain (n : UpdateNodeData T) (t : TransactionData) (has_transaction : bool) (address column_index vector_index : nat)
    (rows : list (nat * Z)) (vector_offset : Z) (update base_data : FlatVector T) : result (UpdateNodeData T) :=
  _ ← CheckForConflicts (node_next n) t rows vector_offset;
  let own := filter (λ i, version_number i = transaction_id t) (node_next n) in
  let '(chain, own_entries) :=
    match own with
    | i :: _ => (node_next n, info_entries i)
    | [] => (if has_transaction
             then mkUpdateInfo address column_index (transaction_id t) vector_index [] :: node_next n else [], [])
    end in
  '(base', own') ← merge_update_function F (info_entries (node_info n)) base_data own_entries update rows vector_offset;
  Ok (mkNode (set_entries (node_info n) base') (update_own (transaction_id t) own' chain)).

(** The branch for a vector without updates. *)
Definition create_chain (t : TransactionData) (has_transaction : bool) (address column_index vector_index : nat)
    (rows : list (nat * Z)) (sel : SelectionVector) (vector_offset : Z) (update base_data : FlatVector T)
    : result (UpdateNodeData T) :=
  tuples ← InitializeUpdateInfo rows vector_offset;
  '(old, new) ← initialize_update_function F tuples base_data tuples update sel;
  (* the address of the base info is not used *)
  Ok (mkNode (mkUpdateInfo O column_index (TRANSACTION_ID_START - 1) vector_index new)
             (if has_transaction then [mkUpdateInfo address column_index (transaction_id t) vector_index old] else [])).

(** [Update]: the segment after the call and its outcome.  The statistics stay
    widened when the update fails. *)
Definition UpdateSegment_Update (us : UpdateSegment T) (t : TransactionData) (has_transaction : bool)
    (address column_index : nat) (update : FlatVector T) (ids : list Z) (count : nat) (base_data : FlatVector T)
    : UpdateSegment T * result unit :=
  match statistics_update_function F (us_stats us) update count with
  | Throw e => (us, Throw e)
  | Ok (stats, sel, count) =>
      let us := mkSegment (us_start us) stats (us_root us) in
      if (count =? 0)%nat then (us, Ok tt) else
      match '(sel, count) ← SortSelectionVector sel count ids; rows ← selected_ids ids sel count; Ok (sel, rows) with
      | Throw e => (us, Throw e)
      | Ok (sel, rows) =>
          let infos := default (replicate ROW_GROUP_VECTOR_COUNT None) (us_root us) in
          let us := mkSegment (us_start us) (us_stats us) (Some infos) in
          let first_id := default 0 (snd <$> head rows) in
          let vector_index := Z.to_nat (wrapu 64 (first_id - us_start us) / Z.of_nat STANDARD_VECTOR_SIZE) in
          let vector_offset := wrapu 64 (us_start us + Z.of_nat vector_index * Z.of_nat STANDARD_VECTOR_SIZE) in
          match o ← vget infos vector_index;
                match o with
                | Some n => update_chain n t has_transaction address column_index vector_index rows vector_offset update base_data
                | None => create_chain t has_transaction address column_index vector_index rows sel vector_offset update base_data
                end with
          | Throw e => (us, Throw e)
          | Ok n => (set_node us vector_index n, Ok tt)
          end
      end
  end.

Definition HasUpdates (us : UpdateSegment T) : bool := bool_decide (is_Some (us_root us)).

Definition HasUpdates_vector (us : UpdateSegment T) (vector_index : nat) : result bool :=
  o ← vector_node us vector_index; Ok (bool_decide (is_Some o)).

Definition HasUncommittedUpdates (us : UpdateSegment T) (vector_index : nat) : result bool :=
  o ← vector_node us vector_index;
  Ok (match o with Some n => negb (bool_decide (node_next n = [])) | None => false end).

(** The loop stops at the first vector that has updates. *)
Fixpoint any_node (infos : list (option (UpdateNodeData T))) (is_ : list nat) : result bool :=
  match is_ with
  | [] => Ok false
  | i :: is_ => o ← vget infos i; match o with Some _ => Ok true | None => any_node infos is_ end
  end.
Definition HasUpdates_range (us : UpdateSegment T) (start_row_index end_row_index : nat) : result bool :=
  match us_root us with
  | None => Ok false
  | Some infos =>
      let base_vector_index := (start_row_index / STANDARD_VECTOR_SIZE)%nat in
      let end_vector_index := (end_row_index / STANDARD_VECTOR_SIZE)%nat in
      any_node infos (seq base_vector_index (S end_vector_index - base_vector_index))
  end.
End Operations.
