(* ===== verification/UpdateFacts.v ===== *)
(** The entries of update infos as finite maps from rows to values: what the
    merge, rollback and conflict loops of UpdateSegment.v compute on sorted
    entries. *)
From S2P Require Import Prelude Bits SelectionVector Types Stats ValidityMask MaskFacts ChunkInfo RowVersionManager.
From S2P Require Import VersionFacts UpdateSegment.

(** * Sorted entries *)

Fixpoint entry_at {T} (l : list (Z * T)) (r : Z) : option T :=
  match l with
  | [] => None
  | (t, x) :: l => if decide (t = r) then Some x else entry_at l r
  end.

(** The ids are sorted, distinct and rows of a vector. *)
Definition entries_ok {T} (l : list (Z * T)) : Prop :=
  StronglySorted Z.lt l.*1 ∧ Forall (λ t, 0 ≤ t < Z.of_nat SVS) l.*1.

Lemma sorted_app {A} (R : relation A) (l k : list A) :
  StronglySorted R (l ++ k) ↔ StronglySorted R l ∧ StronglySorted R k ∧ ∀ a b, a ∈ l → b ∈ k → R a b.
Proof.
  induction l as [|x L IH]; cbn.
  - split; [intros H; split_and!; [constructor | done | intros a b Ha; inversion Ha] | tauto].
  - rewrite !StronglySorted_cons, IH, Forall_app, !Forall_forall. split.
    + intros [[HL Hk] (H1 & H2 & H3)]. split_and!; [done | done | done|]. intros a b [->|Ha]%elem_of_cons Hb; eauto.
    + intros ([HL H1] & H2 & H3). split_and!; [done | | done | done|].
      * intros b Hb. apply H3; [left | done].
      * intros a b Ha. apply H3. by right.
Qed.

Lemma sorted_filter {A} (R : relation A) (P : A → Prop) `{∀ x, Decision (P x)} (l : list A) :
  StronglySorted R l → StronglySorted R (filter P l).
Proof.
  induction 1 as [|x l Hs IH HF]; [constructor|]. rewrite filter_cons. destruct (decide (P x)); [|done].
  constructor; [done|]. rewrite Forall_forall in *. intros y [_ Hy]%list_elem_of_filter. by apply HF.
Qed.

Section Entries.
Context {T : Type}.
Implicit Types l k : list (Z * T).

Lemma entry_at_Some l r x : entry_at l r = Some x → (r, x) ∈ l.
Proof.
  induction l as [|[t y] l IH]; cbn; [done|]. destruct (decide (t = r)) as [->|].
  - intros [= <-]. left.
  - intros. right. by apply IH.
Qed.

Lemma entry_at_is_Some l r : is_Some (entry_at l r) ↔ r ∈ l.*1.
Proof.
  induction l as [|[t y] l IH]; cbn.
  - split; [intros [? ?]; done | intros H; inversion H].
  - rewrite elem_of_cons, <- IH. destruct (decide (t = r)) as [->|]; naive_solver.
Qed.

Lemma entry_at_None l r : entry_at l r = None ↔ r ∉ l.*1.
Proof. rewrite <- entry_at_is_Some. destruct (entry_at l r); [|naive_solver]. split; [done|]. intros H. by destruct H. Qed.

Lemma entry_at_app l k r : entry_at (l ++ k) r = match entry_at l r with Some x => Some x | None => entry_at k r end.
Proof. induction l as [|[t y] l IH]; [done|]. cbn. by destruct (decide (t = r)). Qed.

Lemma entry_at_In l r x : StronglySorted Z.lt l.*1 → (r, x) ∈ l → entry_at l r = Some x.
Proof.
  induction l as [|[t y] l IH]; cbn; [intros _ H; inversion H|].
  intros [HF HS]%StronglySorted_cons [[= -> ->]|H]%elem_of_cons.
  - by destruct (decide (t = t)).
  - destruct (decide (t = r)) as [->|]; [|by apply IH].
    rewrite Forall_forall in HF. specialize (HF r). enough (r < r) by lia. apply HF.
    apply list_elem_of_fmap. by exists (r, x).
Qed.

Lemma sorted_app_inv l k :
  StronglySorted Z.lt (l ++ k).*1 ↔ StronglySorted Z.lt l.*1 ∧ StronglySorted Z.lt k.*1 ∧ ∀ a b, a ∈ l.*1 → b ∈ k.*1 → a < b.
Proof. rewrite fmap_app. apply sorted_app. Qed.

Lemma entries_ok_nil : entries_ok (T := T) [].
Proof. split; constructor. Qed.

Lemma entries_ok_cons t x l : entries_ok ((t, x) :: l) ↔ 0 ≤ t < Z.of_nat SVS ∧ entries_ok l ∧ ∀ a, a ∈ l.*1 → t < a.
Proof.
  unfold entries_ok. cbn. rewrite StronglySorted_cons, Forall_cons, !Forall_forall. naive_solver.
Qed.

(** At most one entry per row of the vector. *)
Lemma sorted_length (L : list Z) lo n :
  StronglySorted Z.lt L → Forall (λ t, lo ≤ t < lo + Z.of_nat n) L → (length L ≤ n)%nat.
Proof.
  revert lo n; induction L as [|x L IH]; intros lo n; cbn; [lia|].
  intros [HF HS]%StronglySorted_cons [Hx HL]%Forall_cons.
  assert (Hn : n = S (pred n)) by lia.
  specialize (IH (x + 1) (pred n) HS).
  rewrite Hn. apply le_n_S, IH. rewrite Forall_forall in *. intros a Ha. specialize (HF a Ha). specialize (HL a Ha). cbn in HL. lia.
Qed.

Lemma entries_length l : entries_ok l → (length l ≤ SVS)%nat.
Proof. intros [HS HF]. rewrite <- (length_fmap fst). by apply (sorted_length _ 0). Qed.

Lemma fits_vector_ok l : entries_ok l → fits_vector l = Ok l.
Proof. intros H%entries_length. unfold fits_vector. by rewrite (proj2 (Nat.leb_le _ _)). Qed.

(** An info with an entry for every row lists the rows in order. *)
Lemma sorted_full (L : list Z) lo :
  StronglySorted Z.lt L → Forall (λ t, lo ≤ t < lo + Z.of_nat (length L)) L → L = (λ i, lo + Z.of_nat i) <$> seq 0 (length L).
Proof.
  revert lo; induction L as [|x L IH]; intros lo; [done|]. cbn [length].
  intros [HF HS]%StronglySorted_cons [Hx HL]%Forall_cons.
  assert (Hge : Forall (λ t, x + 1 ≤ t < lo + Z.of_nat (S (length L))) L).
  { rewrite Forall_forall in *. intros a Ha. specialize (HF a Ha). specialize (HL a Ha). cbn in HL. lia. }
  assert (x = lo) as ->.
  { destruct (decide (x = lo)); [done|]. exfalso.
    assert (length L ≤ pred (length L))%nat as Hc; [|destruct L; cbn in *; lia].
    apply (sorted_length L (x + 1)); [done|]. rewrite Forall_forall in *. intros a Ha. specialize (Hge a Ha). cbn in Hge. lia. }
  cbn [seq fmap list_fmap]. f_equal; [lia|]. rewrite <- fmap_S_seq, <- list_fmap_compose.
  rewrite (IH (lo + 1)) at 1; [|done|].
  - apply list_fmap_ext. intros i y Hy. cbn. lia.
  - rewrite Forall_forall in *. intros a Ha. specialize (Hge a Ha). cbn in Hge |- *. lia.
Qed.

(** * [split_below] *)

Lemma split_below_app id l : l = (split_below id l).1 ++ (split_below id l).2.
Proof. induction l as [|e l IH]; [done|]. cbn. destruct (e.1 <? id); [|done]. destruct (split_below id l). cbn in *. by f_equal. Qed.

Lemma split_below_fst id l : Forall (λ t, t < id) (split_below id l).1.*1.
Proof.
  induction l as [|e l IH]; cbn; [constructor|]. destruct (e.1 <? id) eqn:E; [|constructor].
  destruct (split_below id l). cbn in *. constructor; [lia | done].
Qed.

Lemma split_below_snd id l : StronglySorted Z.lt l.*1 → Forall (λ t, id ≤ t) (split_below id l).2.*1.
Proof.
  induction l as [|e l IH]; cbn; [constructor|]. intros [HF HS]%StronglySorted_cons.
  destruct (e.1 <? id) eqn:E.
  - destruct (split_below id l). by apply IH.
  - cbn. constructor; [lia|]. rewrite Forall_forall in *. intros a Ha. specialize (HF a Ha). lia.
Qed.

Lemma split_below_at id l r : StronglySorted Z.lt l.*1 → id ≤ r → entry_at (split_below id l).2 r = entry_at l r.
Proof.
  intros HS Hr. rewrite (split_below_app id l) at 2. rewrite entry_at_app.
  rewrite (proj2 (entry_at_None (split_below id l).1 r)); [done|].
  intros H. pose proof (split_below_fst id l) as HF. rewrite Forall_forall in HF. apply HF in H. lia.
Qed.

Lemma entries_ok_app l k : entries_ok (l ++ k) ↔ entries_ok l ∧ entries_ok k ∧ ∀ a b, a ∈ l.*1 → b ∈ k.*1 → a < b.
Proof. unfold entries_ok. rewrite sorted_app_inv, fmap_app, Forall_app. naive_solver. Qed.

Lemma split_below_ok id l : entries_ok l → entries_ok (split_below id l).1 ∧ entries_ok (split_below id l).2.
Proof. intros H. rewrite (split_below_app id l) in H. apply entries_ok_app in H. tauto. Qed.
End Entries.

#[export] Hint Resolve entries_ok_nil : duck.

(** * The rows of an update *)

(** The rows as positions in the vector, with their index in the update. *)
Definition offsets (base_id : Z) (rows : list (nat * Z)) : list (Z * nat) := (λ r, (r.2 - base_id, r.1)) <$> rows.

Lemma offset_range base_id rows r :
  entries_ok (offsets base_id rows) → r ∈ rows → 0 ≤ r.2 - base_id < Z.of_nat SVS.
Proof.
  intros [_ HF] Hr. rewrite Forall_forall in HF. apply HF. unfold offsets. rewrite <- list_fmap_compose.
  apply list_elem_of_fmap. by exists r.
Qed.

Lemma entry_at_offsets base_id row rows r :
  entry_at (offsets base_id (row :: rows)) r =
  if decide (row.2 - base_id = r) then Some row.1 else entry_at (offsets base_id rows) r.
Proof. done. Qed.

Lemma vector_size_u32 : Z.of_nat SVS < 2 ^ 32.
Proof. pose proof vector_size_u16. lia. Qed.

Lemma wrap_offset x : 0 ≤ x < Z.of_nat SVS → wrapu 64 x = x ∧ wrapu 32 x = x.
Proof. intros. pose proof vector_size_u32. split; apply wrapu_small; lia. Qed.

Section Merge.
Context {T : Type} (base_id : Z) (base_table : nat → result T) (tab : nat → T).
Hypothesis Htab : ∀ r, (r < SVS)%nat → base_table r = Ok (tab r).
Implicit Types u b : list (Z * T).

(** The old value of a row: from the base info, or else from the table. *)
Definition old_value (b : list (Z * T)) (r : Z) : T := default (tab (Z.to_nat r)) (entry_at b r).

Lemma collect_step u b res row :
  let id := row.2 - base_id in
  0 ≤ id < Z.of_nat SVS → entries_ok u → entries_ok b →
  ∃ before x u1 b1, collect_old base_table base_id (u, b, res) row = Ok (u1, b1, res ++ before ++ [(id, x)]) ∧
    entries_ok (before ++ (id, x) :: u1) ∧ entries_ok b1 ∧ (∀ r, id < r → entry_at b1 r = entry_at b r) ∧
    ∀ r, entry_at (before ++ (id, x) :: u1) r =
         match entry_at u r with Some y => Some y | None => if decide (r = id) then Some (old_value b r) else None end.
Proof.
  intros id Hid Hu Hb. unfold collect_old. fold id. destruct (wrap_offset id Hid) as [-> ->].
  pose proof (split_below_app id u) as Eu. pose proof (split_below_fst id u) as Fu.
  pose proof (split_below_snd id u (proj1 Hu)) as Su. destruct (split_below_ok id u Hu) as [O1 O2].
  destruct (split_below id u) as [before rest]. cbn in Eu, Fu, Su, O1, O2.
  rewrite Forall_forall in Fu, Su.
  destruct (split_below_ok id b Hb) as [_ Ob].
  pose proof (λ r, split_below_at id b r (proj1 Hb)) as Ab.
  pose proof (split_below_snd id b (proj1 Hb)) as Sb. rewrite Forall_forall in Sb.
  assert (Hfetch : entry_at rest id = None →
    ∃ x u1 b1, (let b1 := (split_below id b).2 in
       x ← match b1 with (t, x) :: _ => if t =? id then Ok x else base_table (Z.to_nat id) | [] => base_table (Z.to_nat id) end;
       Ok (rest, b1, (res ++ before) ++ [(id, x)])) = Ok (u1, b1, res ++ before ++ [(id, x)]) ∧
    entries_ok (before ++ (id, x) :: u1) ∧ entries_ok b1 ∧ (∀ r, id < r → entry_at b1 r = entry_at b r) ∧
    ∀ r, entry_at (before ++ (id, x) :: u1) r =
         match entry_at u r with Some y => Some y | None => if decide (r = id) then Some (old_value b r) else None end).
  { intros Hn. exists (old_value b id), rest, (split_below id b).2. split_and!; [ | | done | intros; apply Ab; lia |].
    - cbv zeta. assert (match (split_below id b).2 with (t, x) :: _ => if t =? id then Ok x else base_table (Z.to_nat id)
              | [] => base_table (Z.to_nat id) end = Ok (old_value b id)) as ->.
      { unfold old_value. rewrite <- Ab by lia. destruct (split_below id b).2 as [|[t x] l]; cbn.
        - apply Htab. lia.
        - destruct (t =? id) eqn:E; [by rewrite decide_True by lia|]. rewrite decide_False by lia.
          rewrite (proj2 (entry_at_None l id)); [apply Htab; lia|].
          intros Hin. apply entries_ok_cons in Ob as (_ & _ & Ho). specialize (Ho id Hin).
          specialize (Sb t ltac:(left)). lia. }
      cbn. by rewrite <- app_assoc.
    - apply entries_ok_app. split_and!; [done | |].
      + apply entries_ok_cons. split_and!; [lia | lia | done |].
        intros a Ha. pose proof (Su a Ha). enough (a ≠ id) by lia. intros ->. by apply entry_at_None in Hn.
      + intros a c Ha Hc. specialize (Fu a Ha). cbn in Hc. apply elem_of_cons in Hc as [->|Hc]; [done|]. specialize (Su c Hc). lia.
    - intros r. rewrite Eu, !entry_at_app. destruct (entry_at before r) eqn:E; [done|]. cbn.
      destruct (decide (id = r)) as [<-|].
      + rewrite Hn. by rewrite decide_True.
      + destruct (entry_at rest r) eqn:E2; [done|]. by rewrite decide_False. }
  exists before. destruct rest as [|[t x] rest].
  - destruct (Hfetch eq_refl) as (x & u1 & b1 & H). exists x, u1, b1. exact H.
  - cbn [fst]. destruct (t =? id) eqn:E.
    + assert (t = id) as -> by lia. exists x, rest, b. rewrite <- app_assoc. split_and!; [done | by rewrite <- Eu | done | done|].
      intros r. rewrite <- Eu. destruct (entry_at u r) eqn:E2; [done|]. rewrite decide_False; [done|]. intros ->.
      rewrite Eu, entry_at_app in E2. cbn in E2. destruct (entry_at before id); [done|]. by rewrite decide_True in E2.
    + assert (Hn : entry_at ((t, x) :: rest) id = None).
      { apply entry_at_None. intros Hin. cbn in Hin. apply elem_of_cons in Hin as [->|Hin]; [lia|].
        apply entries_ok_cons in O2 as (_ & _ & Ho). specialize (Ho id Hin). specialize (Su t ltac:(left)). lia. }
      destruct (Hfetch Hn) as (x' & u1 & b1 & H). exists x', u1, b1. exact H.
Qed.

Lemma collect_rows_ok rows u b res :
  entries_ok (offsets base_id rows) → entries_ok u → entries_ok b →
  ∃ u' b' out, foldM (collect_old base_table base_id) (u, b, res) rows = Ok (u', b', res ++ out) ∧ entries_ok (out ++ u') ∧
    ∀ r, entry_at (out ++ u') r =
         match entry_at u r with
         | Some y => Some y
         | None => if decide (r ∈ (offsets base_id rows).*1) then Some (old_value b r) else None
         end.
Proof.
  revert u b res; induction rows as [|row rows IH]; intros u b res Hr Hu Hb.
  - exists u, b, []. rewrite app_nil_r. split_and!; [done | done|]. intros r. cbn. destruct (entry_at u r); [done|].
    rewrite decide_False; [done | intros H; inversion H].
  - cbn [offsets fmap list_fmap] in Hr. apply entries_ok_cons in Hr as (Hid & Hr & Hlt).
    destruct (collect_step u b res row Hid Hu Hb) as (before & x & u1 & b1 & Hs & H1 & Hb1 & Ab & Au).
    apply entries_ok_app in H1 as (O1 & O2 & O3). apply entries_ok_cons in O2 as (_ & Hu1 & O4).
    destruct (IH u1 b1 (res ++ before ++ [(row.2 - base_id, x)]) Hr Hu1 Hb1) as (u' & b' & out & Hf & Ho & Ae).
    exists u', b', (before ++ (row.2 - base_id, x) :: out). cbn [foldM]. rewrite Hs. cbn [mbind result_bind]. rewrite Hf.
    assert (Hdom : ∀ a, a ∈ (out ++ u').*1 → row.2 - base_id < a).
    { intros a Ha. apply entry_at_is_Some in Ha. rewrite Ae in Ha. destruct (entry_at u1 a) eqn:E.
      - apply O4, entry_at_is_Some. eauto.
      - destruct (decide (a ∈ (offsets base_id rows).*1)); [by apply Hlt | by destruct Ha]. }
    split_and!.
    + do 2 f_equal. rewrite <- !app_assoc. done.
    + rewrite <- app_assoc. cbn. apply entries_ok_app. split_and!; [done | |].
      * apply entries_ok_cons. split_and!; [lia | lia | done | done].
      * intros a c Ha Hc. cbn in Hc. apply elem_of_cons in Hc as [->|Hc]; [apply O3; [done | left]|].
        specialize (Hdom c Hc). specialize (O3 a (row.2 - base_id) Ha ltac:(left)). lia.
    + intros r. specialize (Au r). rewrite <- app_assoc, !entry_at_app in *. destruct (entry_at before r) eqn:E.
      { destruct (entry_at u r); [done|]. cbn. destruct (decide (r = row.2 - base_id)) as [->|]; [|done].
        rewrite decide_True by left. done. }
      cbn in Au |- *. destruct (decide (row.2 - base_id = r)) as [<-|Hne].
      * rewrite Au. destruct (entry_at u _); [done|]. rewrite !decide_True by (done || left). done.
      * rewrite <- entry_at_app, Ae, Au. destruct (entry_at u r); [done|]. rewrite (decide_False (P := r = _)) by done.
        destruct (decide (r ∈ (offsets base_id rows).*1)) as [Hin|Hin].
        -- rewrite decide_True by (by right). unfold old_value. by rewrite Ab by (apply Hlt, Hin).
        -- rewrite decide_False; [done|]. intros [?|?]%elem_of_cons; [done | done].
Qed.
End Merge.

(** The entries the update writes. *)
Definition new_entry {T} (base_id : Z) (new : nat → T) (row : nat * Z) : Z * T := (row.2 - base_id, new row.1).

Lemma entry_at_new {T} base_id (new : nat → T) rows r :
  entry_at (new_entry base_id new <$> rows) r = new <$> entry_at (offsets base_id rows) r.
Proof. induction rows as [|row rows IH]; [done|]. cbn. by destruct (decide (row.2 - base_id = r)). Qed.

Lemma new_entries_ok {T} base_id (new : nat → T) rows :
  entries_ok (new_entry base_id new <$> rows) ↔ entries_ok (offsets base_id rows).
Proof.
  unfold entries_ok. assert ((new_entry base_id new <$> rows).*1 = (offsets base_id rows).*1) as ->; [|done].
  unfold offsets. by rewrite <- !list_fmap_compose.
Qed.

Lemma MergeLoop_cons {A B C} (a_id : A → Z) (b_id : B → Z) (merge : A → B → result C) pick_a pick_b x a y b :
  MergeLoop a_id b_id merge pick_a pick_b (x :: a) (y :: b) =
  if a_id x =? b_id y then c ← merge x y; l ← MergeLoop a_id b_id merge pick_a pick_b a b; Ok (c :: l)
  else if a_id x <? b_id y then c ← pick_a x; l ← MergeLoop a_id b_id merge pick_a pick_b a (y :: b); Ok (c :: l)
  else c ← pick_b y; l ← MergeLoop a_id b_id merge pick_a pick_b (x :: a) b; Ok (c :: l).
Proof. done. Qed.

Section MergeLoop.
Context {T : Type} (base_id : Z) (update_vector : nat → result T) (new : nat → T).

Definition pick_new (r : nat * Z) : result (Z * T) := x ← update_vector r.1; Ok (wrapu 32 (wrapu 64 (r.2 - base_id)), x).

Definition new_defined (rows : list (nat * Z)) : Prop := ∀ row, row ∈ rows → update_vector row.1 = Ok (new row.1).

Lemma pick_new_ok rows row :
  entries_ok (offsets base_id rows) → new_defined rows → row ∈ rows → pick_new row = Ok (new_entry base_id new row).
Proof.
  intros Ho Hn Hr. unfold pick_new, new_entry. rewrite Hn by done. cbn.
  destruct (wrap_offset _ (offset_range _ _ _ Ho Hr)) as [-> ->]. done.
Qed.

Lemma mapR_Ok {A B} (f : A → result B) (g : A → B) l : (∀ x, x ∈ l → f x = Ok (g x)) → mapR f l = Ok (g <$> l).
Proof.
  induction l as [|x l IH]; intros H; [done|]. cbn. rewrite H by left. cbn. rewrite IH; [done|]. intros; apply H; by right.
Qed.

Lemma merge_loop_ok rows (b : list (Z * T)) :
  entries_ok (offsets base_id rows) → new_defined rows → entries_ok b →
  ∃ out, MergeLoop (λ r : nat * Z, wrapu 64 (r.2 - base_id)) fst (λ r _, pick_new r) pick_new Ok rows b = Ok out ∧
    entries_ok out ∧
    ∀ r, entry_at out r = match entry_at (offsets base_id rows) r with Some i => Some (new i) | None => entry_at b r end.
Proof.
  revert b; induction rows as [|row rows IH]; intros b Hr Hn Hb.
  - exists b. split; [|done]. destruct b as [|e b]; [done|]. cbn [MergeLoop].
    rewrite (mapR_Ok _ (λ e, e)) by done. f_equal. apply list_fmap_id.
  - pose proof (pick_new_ok _ row Hr Hn ltac:(left)) as Hpick.
    assert (new_defined rows) as Hn' by (intros ? ?; apply Hn; by right).
    assert (Hr' := Hr). cbn [offsets fmap list_fmap] in Hr'. apply entries_ok_cons in Hr' as (Hid & Hr' & Hlt).
    destruct (wrap_offset _ Hid) as [Hw _].
    induction b as [|[t x] b IHb].
    + exists (new_entry base_id new <$> row :: rows). cbn [MergeLoop].
      rewrite (mapR_Ok _ (new_entry base_id new)) by (intros y Hy; exact (pick_new_ok _ y Hr Hn Hy)). split_and!; [done | by apply new_entries_ok|].
      intros r. rewrite entry_at_new. destruct (entry_at (offsets base_id (row :: rows)) r); done.
    + rewrite MergeLoop_cons, Hw. cbn [fst]. apply entries_ok_cons in Hb as (Ht & Hb & Hlt').
      destruct (row.2 - base_id =? t) eqn:E1; [|destruct (row.2 - base_id <? t) eqn:E2].
      * assert (row.2 - base_id = t) as E by lia.
        destruct (IH b Hr' Hn' Hb) as (out & Ho & Oo & Ao). rewrite Hpick. cbn [mbind result_bind]. rewrite Ho.
        eexists; split_and!; [done | |].
        -- apply entries_ok_cons. split_and!; [lia | lia | done|]. intros a Ha. apply entry_at_is_Some in Ha. rewrite Ao in Ha.
           destruct (entry_at (offsets base_id rows) a) eqn:Ea; [apply Hlt, entry_at_is_Some; eauto|].
           rewrite E. by apply Hlt', entry_at_is_Some.
        -- intros r. cbn. destruct (decide (row.2 - base_id = r)); [done|]. rewrite decide_False by lia. apply Ao.
      * destruct (IH ((t, x) :: b) Hr' Hn') as (out & Ho & Oo & Ao); [by apply entries_ok_cons|]. rewrite Hpick.
        cbn [mbind result_bind]. rewrite Ho.
        eexists; split_and!; [done | |].
        -- apply entries_ok_cons. split_and!; [lia | lia | done|]. intros a Ha. apply entry_at_is_Some in Ha. rewrite Ao in Ha.
           destruct (entry_at (offsets base_id rows) a) eqn:Ea; [apply Hlt, entry_at_is_Some; eauto|].
           apply entry_at_is_Some in Ha. cbn in Ha. apply elem_of_cons in Ha as [->|Ha]; [lia|]. specialize (Hlt' a Ha). lia.
        -- intros r. cbn. destruct (decide (row.2 - base_id = r)); [done|]. rewrite Ao. done.
      * destruct (IHb Hb) as (out & Ho & Oo & Ao). cbn [mbind result_bind]. rewrite Ho.
        eexists; split_and!; [done | |].
        -- apply entries_ok_cons. split_and!; [lia | lia | done|]. intros a Ha. apply entry_at_is_Some in Ha. rewrite Ao in Ha.
           rewrite entry_at_offsets in Ha. destruct (decide (row.2 - base_id = a)); [lia|].
           destruct (entry_at (offsets base_id rows) a) eqn:Ea; [|by apply Hlt', entry_at_is_Some].
           assert (row.2 - base_id < a) by (apply Hlt, entry_at_is_Some; eauto). lia.
        -- intros r. cbn [entry_at]. rewrite Ao, !entry_at_offsets. destruct (decide (t = r)) as [->|]; [|done].
           rewrite decide_False by lia. rewrite (proj2 (entry_at_None (offsets base_id rows) r)); [done|].
           intros Hin. specialize (Hlt r Hin). lia.
Qed.
End MergeLoop.

(** The merge of an update into a chain: the base info gets the new values, the
    info of the transaction the old values of the rows it did not have. *)
Lemma MergeUpdateLoopInternal_ok {T} base_id (base_table update_vector : nat → result T) tab new u b rows :
  (∀ r, (r < SVS)%nat → base_table r = Ok (tab r)) → new_defined update_vector new rows →
  entries_ok (offsets base_id rows) → entries_ok u → entries_ok b →
  ∃ b' u', MergeUpdateLoopInternal b base_table u update_vector rows base_id = Ok (b', u') ∧ entries_ok b' ∧ entries_ok u' ∧
    (∀ r, entry_at b' r = match entry_at (offsets base_id rows) r with Some i => Some (new i) | None => entry_at b r end) ∧
    ∀ r, entry_at u' r = match entry_at u r with
                         | Some y => Some y
                         | None => if decide (r ∈ (offsets base_id rows).*1) then Some (old_value tab b r) else None
                         end.
Proof.
  intros Ht Hn Ho Hu Hb. unfold MergeUpdateLoopInternal.
  destruct (collect_rows_ok base_id base_table tab Ht rows u b [] Ho Hu Hb) as (u' & b' & out & -> & Oo & Ae).
  cbn [mbind result_bind]. rewrite app_nil_l, fits_vector_ok by done. cbn [mbind result_bind].
  destruct (merge_loop_ok base_id update_vector new rows b Ho Hn Hb) as (merged & Hm & Om & Am).
  unfold pick_new in Hm. rewrite Hm. cbn [mbind result_bind]. rewrite fits_vector_ok by done. cbn. eauto 10.
Qed.

(** * Rolling back *)

Lemma rollback_loop_ok {T} (rb rest passed : list (Z * T)) :
  entries_ok rest → StronglySorted Z.lt rb.*1 → (∀ r, r ∈ rb.*1 → r ∈ rest.*1) →
  ∃ p' rest', foldM rollback_step (passed, rest) rb = Ok (passed ++ p', rest') ∧ (p' ++ rest').*1 = rest.*1 ∧
    ∀ r, entry_at (p' ++ rest') r = match entry_at rb r with Some x => Some x | None => entry_at rest r end.
Proof.
  revert rest passed; induction rb as [|[id x] rb IH]; intros rest passed Hr Hs Hsub.
  - exists [], rest. by rewrite app_nil_r.
  - cbn in Hs. apply StronglySorted_cons in Hs as [HF Hs]. rewrite Forall_forall in HF.
    cbn [foldM rollback_step fst snd].
    pose proof (split_below_app id rest) as Er. pose proof (split_below_fst id rest) as Fr.
    pose proof (split_below_at id rest id (proj1 Hr) ltac:(lia)) as Ar. rewrite Forall_forall in Fr.
    pose proof (split_below_snd id rest (proj1 Hr)) as Sr. rewrite Forall_forall in Sr.
    assert (Hin : is_Some (entry_at rest id)) by (apply entry_at_is_Some, Hsub; left).
    destruct (split_below_ok id rest Hr) as [_ O2].
    destruct (split_below id rest) as [below rest0]. cbn in Er, Fr, Ar, Sr, O2.
    destruct rest0 as [|[t y] rest1]; [rewrite <- Ar in Hin; by destruct Hin|].
    apply entries_ok_cons in O2 as (Ht & O2 & Hlt).
    assert (t = id) as ->.
    { destruct (decide (t = id)); [done|]. exfalso. rewrite <- Ar in Hin. apply entry_at_is_Some in Hin. cbn in Hin.
      apply elem_of_cons in Hin as [->|Hin]; [done|]. specialize (Hlt id Hin). specialize (Sr t ltac:(left)). lia. }
    destruct (IH ((id, x) :: rest1) (passed ++ below)) as (p' & rest' & Hf & Hd & Ha).
    { by apply entries_ok_cons. } { done. }
    { intros r Hrb. specialize (HF r Hrb). assert (Hrr : r ∈ rest.*1) by (apply Hsub; by right).
      rewrite Er, fmap_app in Hrr. apply elem_of_app in Hrr as [Hb|Hb]; [specialize (Fr r Hb); cbn in Fr; lia|].
      cbn in Hb |- *. apply elem_of_cons in Hb as [->|Hb]; [lia | by right]. }
    exists (below ++ p'), rest'. cbn [mbind result_bind]. rewrite Hf. split_and!.
    + by rewrite <- app_assoc.
    + rewrite <- app_assoc, fmap_app, Hd, Er, fmap_app. done.
    + intros r. rewrite <- app_assoc, entry_at_app, Ha, Er. cbn [entry_at].
      destruct (entry_at below r) eqn:Eb.
      * assert (r ∈ below.*1) as Hb by (apply entry_at_is_Some; eauto). specialize (Fr r Hb). cbn in Fr.
        rewrite decide_False by lia. rewrite (proj2 (entry_at_None rb r)); [by rewrite entry_at_app, Eb|].
        intros Hrb. specialize (HF r Hrb). lia.
      * rewrite entry_at_app, Eb. cbn [entry_at]. destruct (decide (id = r)) as [<-|]; [|done].
        rewrite (proj2 (entry_at_None rb id)); [done|]. intros Hrb. specialize (HF id Hrb). lia.
Qed.

Lemma RollbackUpdate_ok {T} (base rb : list (Z * T)) :
  entries_ok base → entries_ok rb → (∀ r, r ∈ rb.*1 → r ∈ base.*1) →
  ∃ base', RollbackUpdate base rb = Ok base' ∧ entries_ok base' ∧ base'.*1 = base.*1 ∧
    ∀ r, entry_at base' r = match entry_at rb r with Some x => Some x | None => entry_at base r end.
Proof.
  intros Hb Hr Hsub. destruct (rollback_loop_ok rb base [] Hb (proj1 Hr) Hsub) as (p' & rest' & Hf & Hd & Ha).
  exists (p' ++ rest'). unfold RollbackUpdate. rewrite Hf. cbn. split_and!; [done | | done | done].
  unfold entries_ok. by rewrite Hd.
Qed.

(** * Conflicts *)

Lemma conflict_loop_ok ids ts : (∀ a, a ∈ ids → a ∉ ts) → conflict_loop ids ts = Ok tt.
Proof.
  revert ts; induction ids as [|id ids IH]; intros ts H; [by destruct ts|].
  induction ts as [|t ts IHt]; [done|]. cbn.
  destruct (id =? t) eqn:E; [exfalso; apply (H id); [left | assert (id = t) as -> by lia; left]|].
  destruct (id <? t).
  - apply IH. intros a Ha. apply H. by right.
  - apply IHt. intros a Ha Hin. apply (H a Ha). by right.
Qed.

Lemma conflict_loop_throws ids ts a :
  StronglySorted Z.lt ids → StronglySorted Z.lt ts → a ∈ ids → a ∈ ts →
  conflict_loop ids ts = Throw (TransactionException "Conflict on update!").
Proof.
  revert ts; induction ids as [|id ids IH]; intros ts Hi Ht Ha Hin; [inversion Ha|].
  apply StronglySorted_cons in Hi as [HF Hi]. rewrite Forall_forall in HF.
  induction ts as [|t ts IHt]; [inversion Hin|]. assert (Ht0 := Ht). apply StronglySorted_cons in Ht as [HFt Ht].
  rewrite Forall_forall in HFt. cbn.
  destruct (id =? t) eqn:E; [done|]. destruct (id <? t) eqn:E2.
  - apply IH; [done | done | | done]. apply elem_of_cons in Ha as [->|Ha]; [|done].
    apply elem_of_cons in Hin as [->|Hin]; [lia|]. specialize (HFt id Hin). lia.
  - apply IHt; [done|]. apply elem_of_cons in Hin as [->|Hin]; [|done]. exfalso.
    apply elem_of_cons in Ha as [->|Ha]; [lia|]. specialize (HF t Ha). lia.
Qed.

(** The infos whose updates a transaction does not see are those it can
    conflict with. *)
Definition unseen {T} (t : TransactionData) (i : UpdateInfo T) : bool :=
  use_old_version (start_time t) (transaction_id t) (version_number i).

Definition info_ok {T} (i : UpdateInfo T) : Prop := entries_ok (info_entries i) ∧ info_entries i ≠ [].

Lemma conflict_ids rows offset : ((λ r : nat * Z, r.2 - offset) <$> rows) = (offsets offset rows).*1.
Proof. unfold offsets. by rewrite <- list_fmap_compose. Qed.

Lemma CheckForConflicts_cons {T} (i : UpdateInfo T) chain t rows offset :
  rows ≠ [] → info_entries i ≠ [] →
  CheckForConflicts (i :: chain) t rows offset =
  (_ ← (if unseen t i then conflict_loop (offsets offset rows).*1 (info_entries i).*1 else Ok tt);
   CheckForConflicts chain t rows offset).
Proof.
  intros Hr Hi. cbn [CheckForConflicts]. unfold unseen, use_old_version. rewrite conflict_ids.
  destruct (version_number i =? transaction_id t); [by rewrite andb_false_r|]. rewrite andb_true_r.
  destruct (start_time t <? version_number i); [|done]. by destruct rows, (info_entries i).
Qed.

Lemma CheckForConflicts_ok {T} (chain : list (UpdateInfo T)) t rows offset :
  rows ≠ [] → Forall info_ok chain →
  (∀ i r, i ∈ chain → unseen t i = true → r ∈ (offsets offset rows).*1 → r ∉ (info_entries i).*1) →
  CheckForConflicts chain t rows offset = Ok tt.
Proof.
  intros Hr Hc H. induction chain as [|i chain IH]; [done|]. apply Forall_cons in Hc as [Hi Hc].
  rewrite CheckForConflicts_cons by (done || apply Hi).
  assert ((if unseen t i then conflict_loop (offsets offset rows).*1 (info_entries i).*1 else Ok tt) = Ok tt) as ->.
  { destruct (unseen t i) eqn:E; [|done]. apply conflict_loop_ok. intros a. apply H; [left | done]. }
  cbn. apply IH; [done|]. intros j r Hj. apply H. by right.
Qed.

Lemma CheckForConflicts_inv {T} (chain : list (UpdateInfo T)) t rows offset i r :
  rows ≠ [] → Forall info_ok chain → entries_ok (offsets offset rows) →
  i ∈ chain → unseen t i = true → r ∈ (offsets offset rows).*1 → r ∈ (info_entries i).*1 →
  CheckForConflicts chain t rows offset = Throw (TransactionException "Conflict on update!").
Proof.
  intros Hr Hc Ho Hi Hu Ha Hb. induction chain as [|j chain IH]; [inversion Hi|]. apply Forall_cons in Hc as [Hj Hc].
  rewrite CheckForConflicts_cons by (done || apply Hj). apply elem_of_cons in Hi as [->|Hi].
  - rewrite Hu, (conflict_loop_throws _ _ r); [done | apply Ho | apply Hj | done | done].
  - destruct (unseen t j); [|by apply IH].
    destruct (decide (Exists (λ a, a ∈ (info_entries j).*1) (offsets offset rows).*1)) as [He|Hn].
    + apply Exists_exists in He as (a & H1 & H2). rewrite (conflict_loop_throws _ _ a); [done | apply Ho | apply Hj | done | done].
    + rewrite conflict_loop_ok; [by apply IH|]. intros a H1 H2. apply Hn, Exists_exists. eauto.
Qed.

(** The rows a successful check leaves out of every unseen info. *)
Lemma CheckForConflicts_free {T} (chain : list (UpdateInfo T)) t rows offset i r :
  rows ≠ [] → Forall info_ok chain → entries_ok (offsets offset rows) →
  CheckForConflicts chain t rows offset = Ok tt → i ∈ chain → unseen t i = true → r ∈ (offsets offset rows).*1 →
  entry_at (info_entries i) r = None.
Proof.
  intros Hr Hc Ho Hok Hi Hu Ha. apply entry_at_None. intros Hb.
  by rewrite (CheckForConflicts_inv chain t rows offset i r) in Hok.
Qed.
