(* ===== verification/UpdateLaws.v ===== *)
(** What an update segment relies on from the functions of its physical type,
    as the interface [UpdateLaws], and that the two families (validity masks
    and values) provide it. *)
From S2P Require Import Prelude Bits SelectionVector Types Stats ValidityMask MaskFacts ChunkInfo RowVersionManager.
From S2P Require Import NumericStats NumericFacts StringStats BaseStatistics ChunkFacts VersionFacts FilterFacts.
From S2P Require Import UpdateSegment UpdateFacts.

(** * Arrays of rows *)

(** A vector's rows can be read and written one by one: the data array of a
    flat vector, or its validity mask. *)
Class RowStore (St T : Type) : Type := {
  row_store : St → nat → T → result St;
  row_get : St → nat → option T;
  store_ok : St → Prop;
}.

Class RowStoreLaws (St T : Type) `{RowStore St T} : Prop :=
  row_store_ok : ∀ s r x, store_ok s → (r < SVS)%nat →
    ∃ s', row_store s r x = Ok s' ∧ store_ok s' ∧ ∀ q, (q < SVS)%nat → row_get s' q = if decide (q = r) then Some x else row_get s q.

#[export] Instance list_store T : RowStore (list T) T :=
  { row_store := vset; row_get l r := l !! r; store_ok l := (SVS ≤ length l)%nat }.

#[export] Instance list_store_laws T : RowStoreLaws (list T) T.
Proof.
  intros l r x Hl Hr. cbn in *. rewrite vset_lt by lia. eexists; split_and!; [done | by rewrite length_insert|].
  intros q Hq. destruct (decide (q = r)) as [->|]; [apply list_lookup_insert_eq; lia | by rewrite list_lookup_insert_ne].
Qed.

#[export] Instance mask_store : RowStore ValidityMask bool :=
  { row_store := SetRow; row_get m r := Some (valid_at m r);
    store_ok m := mask_covers m SVS ∧ (SVS ≤ target_count m)%nat }.

#[export] Instance mask_store_laws : RowStoreLaws ValidityMask bool.
Proof.
  intros m r x [Hm Ht] Hr. cbn in *. destruct (SetRow_ok m SVS r x Hm (λ _, Ht) Hr) as (m' & -> & Hc & Ht' & Hv).
  exists m'. split_and!; [done | done | by rewrite Ht'|]. intros q Hq. rewrite Hv by done. by destruct (decide (q = r)).
Qed.

(** * What a reader sees *)

(** The value of a row after one info was merged in. *)
Definition override {T} (i : UpdateInfo T) (r : nat) (x : option T) : option T :=
  match entry_at (info_entries i) (Z.of_nat r) with Some y => Some y | None => x end.

(** The value of a row a transaction sees, from its value [x] in the table. *)
Definition chain_view {T} (t : TransactionData) (chain : list (UpdateInfo T)) (r : nat) (x : option T) : option T :=
  fold_left (λ x i, if unseen t i then override i r x else x) chain x.

Section Stores.
Context {St T : Type} `{RowStoreLaws St T}.
Implicit Types (s : St) (l : list (Z * T)) (chain : list (UpdateInfo T)).

(** Storing the entries one after the other. *)
Lemma store_entries_ok l s :
  store_ok s → entries_ok l →
  ∃ s', foldM (λ s (e : Z * T), row_store s (Z.to_nat e.1) e.2) s l = Ok s' ∧ store_ok s' ∧
    ∀ q, (q < SVS)%nat → row_get s' q = match entry_at l (Z.of_nat q) with Some x => Some x | None => row_get s q end.
Proof.
  revert s; induction l as [|[t x] l IH]; intros s Hs Hl; [by exists s|].
  apply entries_ok_cons in Hl as (Ht & Hl & Hlt). cbn [foldM fst snd].
  destruct (row_store_ok s (Z.to_nat t) x Hs ltac:(lia)) as (s1 & -> & Hs1 & H1). cbn [mbind result_bind].
  destruct (IH s1 Hs1 Hl) as (s' & -> & Hs' & Hg). exists s'. split_and!; [done | done|]. intros q Hq. rewrite Hg, H1 by done. cbn [entry_at].
  destruct (decide (t = Z.of_nat q)) as [->|].
  - rewrite (proj2 (entry_at_None l (Z.of_nat q))); [|intros Hin; specialize (Hlt _ Hin); lia]. by rewrite decide_True by lia.
  - by rewrite (decide_False (P := q = Z.to_nat t)) by lia.
Qed.

(** Reading a chain row by row: [callback] merges one info. *)
Lemma updates_for_transaction_ok t (callback : St → UpdateInfo T → result St) chain s :
  store_ok s →
  (∀ s i, i ∈ chain → store_ok s → ∃ s', callback s i = Ok s' ∧ store_ok s' ∧
     ∀ q, (q < SVS)%nat → row_get s' q = override i q (row_get s q)) →
  ∃ s', UpdatesForTransaction chain (start_time t) (transaction_id t) callback s = Ok s' ∧ store_ok s' ∧
    ∀ q, (q < SVS)%nat → row_get s' q = chain_view t chain q (row_get s q).
Proof.
  revert s; induction chain as [|i chain IH]; intros s Hs Hcb; [by exists s|].
  assert (∀ s i, i ∈ chain → store_ok s → ∃ s', callback s i = Ok s' ∧ store_ok s' ∧
     ∀ q, (q < SVS)%nat → row_get s' q = override i q (row_get s q)) as Hcb' by (intros; apply Hcb; [by right | done]).
  cbn [UpdatesForTransaction chain_view fold_left]. fold (unseen t i). destruct (unseen t i).
  - destruct (Hcb s i ltac:(left) Hs) as (s1 & -> & Hs1 & H1). cbn [mbind result_bind].
    destruct (IH s1 Hs1 Hcb') as (s' & -> & Hs' & Hg). exists s'. split_and!; [done | done|].
    intros q Hq. rewrite Hg, H1 by done. done.
  - cbn [mbind result_bind]. by apply IH.
Qed.

(** [FetchRow]: only [result_idx] changes, to what a scan gives for the row. *)
Lemma find_row_ok l s r result_idx :
  store_ok s → entries_ok l → (result_idx < SVS)%nat →
  ∃ s', find_row (λ s x, row_store s result_idx x) (Z.of_nat r) l s = Ok s' ∧ store_ok s' ∧
    ∀ q, (q < SVS)%nat → row_get s' q =
      if decide (q = result_idx) then match entry_at l (Z.of_nat r) with Some x => Some x | None => row_get s q end
      else row_get s q.
Proof.
  intros Hs Hl Hi. induction l as [|[t x] l IH].
  - exists s. split_and!; [done | done|]. intros q Hq. by destruct (decide (q = result_idx)).
  - apply entries_ok_cons in Hl as (Ht & Hl & Hlt). cbn [find_row entry_at].
    destruct (t =? Z.of_nat r) eqn:E1.
    { destruct (row_store_ok s result_idx x Hs Hi) as (s' & -> & Hs' & Hg). exists s'. split_and!; [done | done|].
      intros q Hq. rewrite Hg by done. destruct (decide (q = result_idx)); [|done]. by rewrite decide_True by lia. }
    rewrite decide_False by lia. destruct (Z.of_nat r <? t) eqn:E2; [|by apply IH].
    exists s. split_and!; [done | done|]. intros q Hq.
    rewrite (proj2 (entry_at_None l (Z.of_nat r))); [|intros Hin; specialize (Hlt _ Hin); lia]. by destruct (decide (q = result_idx)).
Qed.

Lemma find_rows_ok t chain s r result_idx :
  store_ok s → Forall (λ i, entries_ok (info_entries i)) chain → (result_idx < SVS)%nat →
  ∃ s', UpdatesForTransaction chain (start_time t) (transaction_id t)
          (λ s i, find_row (λ s x, row_store s result_idx x) (Z.of_nat r) (info_entries i) s) s = Ok s' ∧ store_ok s' ∧
    ∀ q, (q < SVS)%nat → row_get s' q = if decide (q = result_idx) then chain_view t chain r (row_get s q) else row_get s q.
Proof.
  intros Hs Hc Hi. revert s Hs; induction Hc as [|i chain Hl _ IH]; intros s Hs.
  - exists s. split_and!; [done | done|]. intros q Hq. by destruct (decide (q = result_idx)).
  - cbn [UpdatesForTransaction chain_view fold_left]. fold (unseen t i). destruct (unseen t i).
    + destruct (find_row_ok _ s r result_idx Hs Hl Hi) as (s1 & -> & Hs1 & H1). cbn [mbind result_bind].
      destruct (IH s1 Hs1) as (s' & -> & Hs' & Hg). exists s'. split_and!; [done | done|]. intros q Hq.
      rewrite Hg by done. rewrite H1 by done. by destruct (decide (q = result_idx)).
    + cbn [mbind result_bind]. by apply IH.
Qed.

(** [MergeUpdateInfoRange]: the rows [from..to) of the info, moved to
    [result_offset]. *)
Lemma range_loop_ok l s from to result_offset :
  store_ok s → entries_ok l → (from ≤ to)%nat → (result_offset + (to - from) ≤ SVS)%nat →
  ∃ s', range_loop row_store from to result_offset l s = Ok s' ∧ store_ok s' ∧
    ∀ q, (q < SVS)%nat → row_get s' q =
      if decide (result_offset ≤ q < result_offset + (to - from))%nat
      then match entry_at l (Z.of_nat (q - result_offset + from)) with Some x => Some x | None => row_get s q end
      else row_get s q.
Proof.
  intros Hs Hl Hft Hr. revert s Hs; induction l as [|[t x] l IH]; intros s Hs.
  - exists s. split_and!; [done | done|]. intros q Hq. by destruct (decide (result_offset ≤ q < _)%nat).
  - apply entries_ok_cons in Hl as (Ht & Hl & Hlt). cbn [range_loop entry_at]. specialize (IH Hl).
    destruct (t <? Z.of_nat from) eqn:E1.
    { destruct (IH s Hs) as (s' & -> & Hs' & Hg). exists s'. split_and!; [done | done|]. intros q Hq. rewrite Hg by done.
      destruct (decide (result_offset ≤ q < _)%nat); [|done]. by rewrite decide_False by lia. }
    destruct (Z.of_nat to <=? t) eqn:E2.
    { exists s. split_and!; [done | done|]. intros q Hq. destruct (decide (result_offset ≤ q < _)%nat); [|done].
      rewrite decide_False by lia. rewrite (proj2 (entry_at_None l _)); [done|]. intros Hin. specialize (Hlt _ Hin). lia. }
    destruct (row_store_ok s (result_offset + Z.to_nat t - from) x Hs ltac:(lia)) as (s1 & -> & Hs1 & H1). cbn [mbind result_bind].
    destruct (IH s1 Hs1) as (s' & -> & Hs' & Hg). exists s'. split_and!; [done | done|]. intros q Hq. rewrite Hg, H1 by done.
    destruct (decide (result_offset ≤ q < _)%nat) as [Hin|].
    + destruct (decide (t = Z.of_nat (q - result_offset + from))) as [->|].
      * rewrite (proj2 (entry_at_None l _)); [|intros Hi; specialize (Hlt _ Hi); lia]. by rewrite decide_True by lia.
      * by rewrite (decide_False (P := q = _)) by lia.
    + by rewrite decide_False by lia.
Qed.
End Stores.

(** * The interface *)

(** [view]: the value of a row; [known]: the row's value in the table is
    recorded when it is first updated; [written]: the rows of an update of
    [count] rows that reach the segment; [elem_ok], [stats_ok]: what the
    statistics need. *)
Class UpdateLaws {T : Type} (F : UpdateFunctions T) : Type := {
  view : FlatVector T → nat → option T;
  view_ok : FlatVector T → Prop;
  known : FlatVector T → nat → Prop;
  written : FlatVector T → nat → list nat;
  elem_ok : T → Prop;
  stats_ok : BaseStatistics → Prop;
  view_total : ∀ v r, view_ok v → (r < SVS)%nat → is_Some (view v r);
  written_sorted : ∀ v n, StronglySorted lt (written v n);
  written_below : ∀ v n i, i ∈ written v n → (i < n)%nat;
  fetch_law : ∀ t chain v, view_ok v → Forall (λ i, entries_ok (info_entries i)) chain →
    ∃ v', fetch_update_function F (start_time t) (transaction_id t) chain v = Ok v' ∧ view_ok v' ∧
      ∀ r, (r < SVS)%nat → view v' r = chain_view t chain r (view v r);
  committed_law : ∀ i v, view_ok v → entries_ok (info_entries i) →
    ∃ v', fetch_committed_function F i v = Ok v' ∧ view_ok v' ∧ ∀ r, (r < SVS)%nat → view v' r = override i r (view v r);
  range_law : ∀ i from to result_offset v, view_ok v → entries_ok (info_entries i) → (from ≤ to)%nat →
    (result_offset + (to - from) ≤ SVS)%nat →
    ∃ v', fetch_committed_range F i from to result_offset v = Ok v' ∧ view_ok v' ∧
      ∀ q, (q < SVS)%nat → view v' q =
        if decide (result_offset ≤ q < result_offset + (to - from))%nat
        then override i (q - result_offset + from) (view v q) else view v q;
  row_law : ∀ t chain r v result_idx, view_ok v → Forall (λ i, entries_ok (info_entries i)) chain → (result_idx < SVS)%nat →
    ∃ v', fetch_row_function F (start_time t) (transaction_id t) chain r v result_idx = Ok v' ∧ view_ok v' ∧
      ∀ q, (q < SVS)%nat → view v' q = if decide (q = result_idx) then chain_view t chain r (view v q) else view v q;
  initialize_law : ∀ base_id rows sel base update, view_ok base → view_ok update →
    entries_ok (offsets base_id rows) → (∀ row, row ∈ rows → (row.1 < SVS)%nat) →
    selection sel (length rows) (Z.of_nat <$> rows.*1) →
    let tuples := (offsets base_id rows).*1 in
    ∃ old new, initialize_update_function F tuples base tuples update sel = Ok (old, new) ∧ old.*1 = tuples ∧ new.*1 = tuples ∧
      (∀ r i, entry_at (offsets base_id rows) r = Some i → entry_at new r = view update i) ∧
      ∀ r, r ∈ tuples → known base (Z.to_nat r) → entry_at old r = view base (Z.to_nat r);
  merge_law : ∀ base_id rows base update b u, view_ok base → view_ok update → entries_ok b → entries_ok u →
    entries_ok (offsets base_id rows) → (∀ row, row ∈ rows → (row.1 < SVS)%nat) →
    ∃ b' u', merge_update_function F b base u update rows base_id = Ok (b', u') ∧ entries_ok b' ∧ entries_ok u' ∧
      (∀ r, entry_at b' r = match entry_at (offsets base_id rows) r with Some i => view update i | None => entry_at b r end) ∧
      ∀ r, entry_at u' r =
        match entry_at u r with
        | Some y => Some y
        | None => if decide (r ∈ (offsets base_id rows).*1)
                  then match entry_at b r with Some x => Some x | None => view base (Z.to_nat r) end else None
        end;
  rollback_law : rollback_update_function F = RollbackUpdate;
  statistics_law : ∀ s v n, stats_ok s → view_ok v → (n ≤ SVS)%nat →
    (∀ i x, i ∈ written v n → view v i = Some x → elem_ok x) →
    ∃ s' sel, statistics_update_function F s v n = Ok (s', sel, length (written v n)) ∧ stats_ok s' ∧
      selection sel (length (written v n)) (Z.of_nat <$> written v n);
}.

(** ** Shared steps of the two families *)

Lemma merge_law_of {T} base_id (base_table update_vector : nat → result T) (vb vu : nat → option T) u b rows :
  (∀ r, (r < SVS)%nat → ∃ x, base_table r = Ok x ∧ vb r = Some x) →
  (∀ r, (r < SVS)%nat → ∃ x, update_vector r = Ok x ∧ vu r = Some x) →
  entries_ok b → entries_ok u → entries_ok (offsets base_id rows) → (∀ row, row ∈ rows → (row.1 < SVS)%nat) →
  ∃ b' u', MergeUpdateLoopInternal b base_table u update_vector rows base_id = Ok (b', u') ∧ entries_ok b' ∧ entries_ok u' ∧
    (∀ r, entry_at b' r = match entry_at (offsets base_id rows) r with Some i => vu i | None => entry_at b r end) ∧
    ∀ r, entry_at u' r =
      match entry_at u r with
      | Some y => Some y
      | None => if decide (r ∈ (offsets base_id rows).*1)
                then match entry_at b r with Some x => Some x | None => vb (Z.to_nat r) end else None
      end.
Proof.
  intros Hb Hu Ob Ou Oo Hi. pose proof vector_size_pos as Hpos. destruct (Hb O Hpos) as (d & _ & _).
  destruct (MergeUpdateLoopInternal_ok base_id base_table update_vector (λ r, default d (vb r)) (λ r, default d (vu r)) u b rows)
    as (b' & u' & Hm & Ob' & Ou' & Ab & Au); [| |done|done|done|].
  { intros r Hr. destruct (Hb r Hr) as (x & -> & ->). done. }
  { intros row Hrow. destruct (Hu row.1 (Hi row Hrow)) as (x & -> & ->). done. }
  exists b', u'. split_and!; [done | done | done | |].
  - intros r. rewrite Ab. destruct (entry_at (offsets base_id rows) r) as [i|] eqn:E; [|done].
    apply entry_at_Some in E. unfold offsets in E. apply list_elem_of_fmap in E as (row & [= -> ->] & Hrow).
    destruct (Hu row.1 (Hi row Hrow)) as (x & _ & ->). done.
  - intros r. rewrite Au. destruct (entry_at u r); [done|]. destruct (decide _) as [Hin|]; [|done].
    unfold old_value. destruct (entry_at b r); [done|]. cbn [default].
    destruct Oo as [_ HF]. rewrite Forall_forall in HF. specialize (HF r Hin). cbn in HF.
    destruct (Hb (Z.to_nat r) ltac:(lia)) as (x & _ & ->). done.
Qed.

(** The entries of the tuples of an update, read by index or by row. *)
Lemma mapR_index {A} base_id rows sel (read : Z → Z → result A) (g : nat * Z → A) :
  selection sel (length rows) (Z.of_nat <$> rows.*1) →
  (∀ row, row ∈ rows → read (Z.of_nat row.1) (row.2 - base_id) = Ok (g row)) →
  mapR (λ '(i, t), idx ← get_index sel i; read idx t) (imap pair (offsets base_id rows).*1) = Ok (g <$> rows).
Proof.
  intros [Hr Hl] Hread. unfold offsets. rewrite <- list_fmap_compose.
  assert (∀ k rows', (k + length rows' = length rows)%nat → (∀ i, rows' !! i = rows !! (k + i)%nat) →
    mapR (λ '(i, t), idx ← get_index sel i; read idx t) (imap (λ i, pair (k + i)%nat) ((fst ∘ (λ r : nat * Z, (r.2 - base_id, r.1))) <$> rows'))
    = Ok (g <$> rows')) as Hk.
  { intros k rows' Hlen Hlook. revert k Hlen Hlook; induction rows' as [|row rows' IH]; intros k Hlen Hlook; [done|].
    cbn [length fmap list_fmap] in *. rewrite imap_cons. cbn [mapR].
    destruct (get_index_sel_list sel (length rows) (k + 0) Hr ltac:(lia)) as (z & -> & Hz). cbn [mbind result_bind].
    specialize (Hlook O) as H0. rewrite Hl, !list_lookup_fmap, <- H0 in Hz. injection Hz as <-. cbn.
    rewrite Hread by (eapply list_elem_of_lookup_2; by rewrite <- H0). cbn [mbind result_bind].
    match goal with |- context [imap ?f ?l] =>
      replace (imap f l) with (imap (λ i, pair (S k + i)%nat) l)
        by (apply imap_ext; intros i x _; cbn; by replace (k + S i)%nat with (S (k + i)) by lia) end.
    rewrite IH; [done | lia|]. intros i. specialize (Hlook (S i)). cbn in Hlook. by replace (S k + i)%nat with (k + S i)%nat by lia. }
  apply (Hk O); [lia | done].
Qed.

Lemma entry_at_fmap {T} (f : Z → T) L r : r ∈ L → entry_at ((λ t, (t, f t)) <$> L) r = Some (f r).
Proof.
  induction L as [|t L IH]; intros Hr; [inversion Hr|]. cbn. destruct (decide (t = r)) as [->|]; [done|].
  apply IH. by apply elem_of_cons in Hr as [->|].
Qed.

Lemma fmap_fst_pair {T} (f : Z → T) L : ((λ t, (t, f t)) <$> L).*1 = L.
Proof. induction L as [|t L IH]; [done|]. cbn. by rewrite IH. Qed.

(** Lifting the store lemmas to vectors. *)
Lemma with_validity_ok (v : FlatVector bool) r (Q : ValidityMask → Prop) :
  (∃ m, r = Ok m ∧ Q m) → ∃ v', with_validity v r = Ok v' ∧ Q (flat_validity v').
Proof. intros (m & -> & HQ). by exists (mkFlat (flat_data v) m). Qed.

Lemma with_data_ok {T} (v : FlatVector T) r (Q : list T → Prop) :
  (∃ d, r = Ok d ∧ Q d) → ∃ v', with_data v r = Ok v' ∧ Q (flat_data v') ∧ flat_validity v' = flat_validity v.
Proof. intros (d & -> & HQ). by exists (mkFlat d (flat_validity v)). Qed.

(** * Validity masks *)

Definition mask_view (v : FlatVector bool) (r : nat) : option bool := row_get (flat_validity v) r.
Definition mask_view_ok (v : FlatVector bool) : Prop := store_ok (flat_validity v).

Lemma mask_row v r : mask_view_ok v → (r < SVS)%nat → ∃ x, RowIsValid (flat_validity v) r = Ok x ∧ mask_view v r = Some x.
Proof. intros [H _] Hr. rewrite (RowIsValid_ok _ SVS) by done. eauto. Qed.

Lemma mask_fetch_law t chain v :
  mask_view_ok v → Forall (λ i : UpdateInfo bool, entries_ok (info_entries i)) chain →
  ∃ v', UpdateMergeValidity (start_time t) (transaction_id t) chain v = Ok v' ∧ mask_view_ok v' ∧
    ∀ r, (r < SVS)%nat → mask_view v' r = chain_view t chain r (mask_view v r).
Proof.
  intros Hv Hc. apply (with_validity_ok v _ (λ m, store_ok m ∧ ∀ r, (r < SVS)%nat → row_get m r = _)).
  apply updates_for_transaction_ok; [done|]. rewrite Forall_forall in Hc. intros s i Hi Hs.
  exact (store_entries_ok (info_entries i) s Hs (Hc i Hi)).
Qed.

Lemma mask_committed_law (i : UpdateInfo bool) v :
  mask_view_ok v → entries_ok (info_entries i) →
  ∃ v', FetchCommittedValidity i v = Ok v' ∧ mask_view_ok v' ∧ ∀ r, (r < SVS)%nat → mask_view v' r = override i r (mask_view v r).
Proof.
  intros Hv Hi. apply (with_validity_ok v _ (λ m, store_ok m ∧ ∀ r, (r < SVS)%nat → row_get m r = _)).
  exact (store_entries_ok (info_entries i) (flat_validity v) Hv Hi).
Qed.

Lemma mask_range_law (i : UpdateInfo bool) from to result_offset v :
  mask_view_ok v → entries_ok (info_entries i) → (from ≤ to)%nat → (result_offset + (to - from) ≤ SVS)%nat →
  ∃ v', FetchCommittedRangeValidity i from to result_offset v = Ok v' ∧ mask_view_ok v' ∧
    ∀ q, (q < SVS)%nat → mask_view v' q =
      if decide (result_offset ≤ q < result_offset + (to - from))%nat
      then override i (q - result_offset + from) (mask_view v q) else mask_view v q.
Proof.
  intros Hv Hi Hft Hr. apply (with_validity_ok v _ (λ m, store_ok m ∧ ∀ r, (r < SVS)%nat → row_get m r = _)).
  exact (range_loop_ok (info_entries i) (flat_validity v) from to result_offset Hv Hi Hft Hr).
Qed.

Lemma mask_row_law t chain r v result_idx :
  mask_view_ok v → Forall (λ i : UpdateInfo bool, entries_ok (info_entries i)) chain → (result_idx < SVS)%nat →
  ∃ v', FetchRowValidity (start_time t) (transaction_id t) chain r v result_idx = Ok v' ∧ mask_view_ok v' ∧
    ∀ q, (q < SVS)%nat → mask_view v' q = if decide (q = result_idx) then chain_view t chain r (mask_view v q) else mask_view v q.
Proof.
  intros Hv Hc Hi. apply (with_validity_ok v _ (λ m, store_ok m ∧ ∀ r, (r < SVS)%nat → row_get m r = _)).
  exact (find_rows_ok t chain (flat_validity v) r result_idx Hv Hc Hi).
Qed.

(** A mask without data is valid everywhere. *)
Lemma all_valid_at m r : AllValid m = true → valid_at m r = true.
Proof. unfold AllValid, valid_at. by destruct (validity_mask m). Qed.

Lemma RowIsValidUnsafe_ok m n r : mask_covers m n → (r < n)%nat → AllValid m = false → RowIsValidUnsafe m r = Ok (valid_at m r).
Proof.
  intros Hm Hr Ha. rewrite <- (RowIsValid_ok m n r Hm Hr). unfold RowIsValid, AllValid in *. by destruct (validity_mask m).
Qed.

Lemma mask_initialize_law base_id rows sel base update :
  mask_view_ok base → mask_view_ok update → entries_ok (offsets base_id rows) → (∀ row, row ∈ rows → (row.1 < SVS)%nat) →
  selection sel (length rows) (Z.of_nat <$> rows.*1) →
  let tuples := (offsets base_id rows).*1 in
  ∃ old new, InitializeUpdateValidity tuples base tuples update sel = Ok (old, new) ∧ old.*1 = tuples ∧ new.*1 = tuples ∧
    (∀ r i, entry_at (offsets base_id rows) r = Some i → entry_at new r = mask_view update i) ∧
    ∀ r, r ∈ tuples → True → entry_at old r = mask_view base (Z.to_nat r).
Proof.
  intros [Hb _] [Hu _] Ho Hi Hsel tuples. unfold InitializeUpdateValidity.
  set (new := new_entry base_id (valid_at (flat_validity update)) <$> rows).
  set (old := (λ t, (t, valid_at (flat_validity base) (Z.to_nat t))) <$> tuples).
  assert (Hrange : ∀ r, r ∈ tuples → 0 ≤ r < Z.of_nat SVS) by (apply Forall_forall, Ho).
  assert ((if AllValid (flat_validity update) then Ok ((λ t, (t, true)) <$> tuples)
     else mapR (λ '(i, t), idx ← get_index sel i; b ← RowIsValidUnsafe (flat_validity update) (Z.to_nat idx); Ok (t, b))
               (imap pair tuples)) = Ok new) as ->.
  { destruct (AllValid (flat_validity update)) eqn:E.
    - f_equal. unfold tuples, offsets, new. rewrite <- !list_fmap_compose. apply list_fmap_ext. intros ? row _. cbn.
      unfold new_entry. by rewrite all_valid_at.
    - apply (mapR_index base_id rows sel (λ idx t, b ← RowIsValidUnsafe (flat_validity update) (Z.to_nat idx); Ok (t, b))); [done|].
      intros row Hrow. rewrite Nat2Z.id, (RowIsValidUnsafe_ok _ SVS) by auto. done. }
  cbn [mbind result_bind].
  assert ((if AllValid (flat_validity base) then Ok ((λ t, (t, true)) <$> tuples)
     else mapR (λ t, b ← RowIsValidUnsafe (flat_validity base) (Z.to_nat t); Ok (t, b)) tuples) = Ok old) as ->.
  { destruct (AllValid (flat_validity base)) eqn:E.
    - f_equal. unfold old. apply list_fmap_ext. intros ? t _. by rewrite all_valid_at.
    - apply mapR_Ok. intros t Ht. specialize (Hrange t Ht). rewrite (RowIsValidUnsafe_ok _ SVS) by (auto || lia). done. }
  cbn [mbind result_bind]. exists old, new. split_and!; [done | apply fmap_fst_pair | | |].
  - unfold new, tuples, offsets. by rewrite <- !list_fmap_compose.
  - intros r i E. unfold new. by rewrite entry_at_new, E.
  - intros r Hr _. unfold old. by rewrite (entry_at_fmap (λ t, valid_at (flat_validity base) (Z.to_nat t))).
Qed.

Lemma sorted_seq a n : StronglySorted lt (seq a n).
Proof.
  revert a; induction n as [|n IH]; intros a; cbn; constructor; [apply IH|]. apply Forall_forall. intros x Hx%elem_of_seq. lia.
Qed.

Lemma mask_statistics_law (s : BaseStatistics) v n :
  mask_view_ok v → (n ≤ SVS)%nat →
  ∃ s' sel, UpdateValidityStatistics s v n = Ok (s', sel, length (seq 0 n)) ∧ selection sel (length (seq 0 n)) (Z.of_nat <$> seq 0 n).
Proof.
  intros [Hm _] Hn. unfold UpdateValidityStatistics. rewrite length_seq.
  assert (∃ b, check_rows (flat_validity v) (seq 0 n) = Ok b) as [b Hb].
  { assert (Forall (λ i, (i < SVS)%nat) (seq 0 n)) as HF by (apply Forall_forall; intros x Hx%elem_of_seq; lia).
    induction HF as [|i l Hi _ IH]; [by eexists|]. cbn. rewrite (RowIsValid_ok _ SVS) by done. cbn [mbind result_bind].
    destruct (valid_at _ i); [done | by eexists]. }
  destruct (negb (AllValid (flat_validity v)) && negb (CanHaveNull s)); [rewrite Hb|]; cbn [mbind result_bind];
    (eexists _, SelectionVector_null; split; [done | by split]).
Qed.

#[export] Instance validity_laws : UpdateLaws validity_functions.
Proof.
  refine {| view := mask_view; view_ok := mask_view_ok; known _ _ := True; written _ n := seq 0 n; elem_ok _ := True;
            stats_ok _ := True |}.
  - intros v r _ _. by eexists.
  - intros _ n. apply sorted_seq.
  - intros _ n i Hi%elem_of_seq. lia.
  - apply mask_fetch_law.
  - apply mask_committed_law.
  - apply mask_range_law.
  - apply mask_row_law.
  - apply mask_initialize_law.
  - intros. apply merge_law_of; auto using mask_row.
  - done.
  - intros s v n _ Hv Hn _. destruct (mask_statistics_law s v n Hv Hn) as (s' & sel & ? & ?). eauto.
Defined.

(** * Values *)

Definition data_view {T} (v : FlatVector T) (r : nat) : option T := row_get (flat_data v) r.
Definition data_view_ok {T} (v : FlatVector T) : Prop := store_ok (flat_data v) ∧ mask_covers (flat_validity v) SVS.
Definition data_known {T} (v : FlatVector T) (r : nat) : Prop := valid_at (flat_validity v) r = true.
Definition data_written {T} (v : FlatVector T) (n : nat) : list nat := filter (λ i, valid_at (flat_validity v) i) (seq 0 n).

Section Values.
Context {T : Type}.
Implicit Types (v : FlatVector T) (i : UpdateInfo T) (chain : list (UpdateInfo T)).

(** The shortcut for an info that covers the whole vector copies its values. *)
Lemma MergeUpdateInfo_ok i (d : list T) :
  store_ok d → entries_ok (info_entries i) →
  ∃ d', MergeUpdateInfo i d = Ok d' ∧ store_ok d' ∧ ∀ q, (q < SVS)%nat → row_get d' q = override i q (row_get d q).
Proof.
  intros Hd Hi. unfold MergeUpdateInfo. destruct (length (info_entries i) =? SVS)%nat eqn:E.
  2:{ exact (store_entries_ok (info_entries i) d Hd Hi). }
  apply Nat.eqb_eq in E. unfold copy_front. cbn in Hd. rewrite length_fmap, E, Nat.ltb_irrefl, (proj2 (Nat.ltb_ge _ _)) by done.
  cbn [orb]. eexists; split; [done|]. split.
  { cbn. rewrite length_app, length_take, length_drop, length_fmap. lia. }
  intros q Hq. cbn. rewrite lookup_app_l by (rewrite length_take, length_fmap; lia). rewrite lookup_take_lt by done.
  unfold override. destruct Hi as [HS HF].
  assert (Hids : (info_entries i).*1 = (λ k, 0 + Z.of_nat k) <$> seq 0 SVS).
  { rewrite <- E, <- (length_fmap fst) at 1. apply sorted_full; [done|]. by rewrite length_fmap, E. }
  destruct (lookup_lt_is_Some_2 (info_entries i) q) as [[t x] Hl]; [lia|].
  assert (t = Z.of_nat q) as ->.
  { assert ((info_entries i).*1 !! q = Some t) as Ht by (by rewrite list_lookup_fmap, Hl).
    rewrite Hids, list_lookup_fmap, lookup_seq0 in Ht by done. injection Ht as <-. lia. }
  rewrite list_lookup_fmap, Hl. cbn. rewrite (entry_at_In _ _ x); [done | done|]. by eapply list_elem_of_lookup_2.
Qed.

Lemma data_fetch_law t chain v :
  data_view_ok v → Forall (λ i, entries_ok (info_entries i)) chain →
  ∃ v', UpdateMergeFetch (start_time t) (transaction_id t) chain v = Ok v' ∧ data_view_ok v' ∧
    ∀ r, (r < SVS)%nat → data_view v' r = chain_view t chain r (data_view v r).
Proof.
  intros [Hd Hm] Hc. destruct (with_data_ok v (UpdatesForTransaction chain (start_time t) (transaction_id t)
    (λ d i, MergeUpdateInfo i d) (flat_data v)) (λ d, store_ok d ∧ ∀ r, (r < SVS)%nat → row_get d r = chain_view t chain r (data_view v r)))
    as (v' & H1 & [H2 H3] & H4).
  - apply updates_for_transaction_ok; [done|]. rewrite Forall_forall in Hc. intros s i Hi Hs. by apply MergeUpdateInfo_ok; [|apply Hc].
  - exists v'. split_and!; [done | by split; [|rewrite H4] | done].
Qed.

Lemma data_committed_law i v :
  data_view_ok v → entries_ok (info_entries i) →
  ∃ v', TemplatedFetchCommitted i v = Ok v' ∧ data_view_ok v' ∧ ∀ r, (r < SVS)%nat → data_view v' r = override i r (data_view v r).
Proof.
  intros [Hd Hm] Hi. destruct (with_data_ok v (MergeUpdateInfo i (flat_data v))
    (λ d, store_ok d ∧ ∀ r, (r < SVS)%nat → row_get d r = override i r (data_view v r))) as (v' & H1 & [H2 H3] & H4).
  - by apply MergeUpdateInfo_ok.
  - exists v'. split_and!; [done | by split; [|rewrite H4] | done].
Qed.

Lemma data_range_law i from to result_offset v :
  data_view_ok v → entries_ok (info_entries i) → (from ≤ to)%nat → (result_offset + (to - from) ≤ SVS)%nat →
  ∃ v', TemplatedFetchCommittedRange i from to result_offset v = Ok v' ∧ data_view_ok v' ∧
    ∀ q, (q < SVS)%nat → data_view v' q =
      if decide (result_offset ≤ q < result_offset + (to - from))%nat
      then override i (q - result_offset + from) (data_view v q) else data_view v q.
Proof.
  intros [Hd Hm] Hi Hft Hr.
  destruct (with_data_ok v _ _ (range_loop_ok (info_entries i) (flat_data v) from to result_offset Hd Hi Hft Hr)) as (v' & H1 & [H2 H3] & H4).
  exists v'. split_and!; [done | by split; [|rewrite H4] | done].
Qed.

Lemma data_row_law t chain r v result_idx :
  data_view_ok v → Forall (λ i, entries_ok (info_entries i)) chain → (result_idx < SVS)%nat →
  ∃ v', TemplatedFetchRow (start_time t) (transaction_id t) chain r v result_idx = Ok v' ∧ data_view_ok v' ∧
    ∀ q, (q < SVS)%nat → data_view v' q = if decide (q = result_idx) then chain_view t chain r (data_view v q) else data_view v q.
Proof.
  intros [Hd Hm] Hc Hi.
  destruct (with_data_ok v _ _ (find_rows_ok t chain (flat_data v) r result_idx Hd Hc Hi)) as (v' & H1 & [H2 H3] & H4).
  exists v'. split_and!; [done | by split; [|rewrite H4] | done].
Qed.

Lemma data_row v r : data_view_ok v → (r < SVS)%nat → ∃ x, vget (flat_data v) r = Ok x ∧ data_view v r = Some x.
Proof.
  intros [Hd _] Hr. cbn in Hd. destruct (lookup_lt_is_Some_2 (flat_data v) r) as [x Hx]; [lia|].
  exists x. split; [by apply vget_lookup | done].
Qed.

Lemma data_initialize_law uninitialised base_id rows sel (base update : FlatVector T) :
  data_view_ok base → data_view_ok update → entries_ok (offsets base_id rows) → (∀ row, row ∈ rows → (row.1 < SVS)%nat) →
  selection sel (length rows) (Z.of_nat <$> rows.*1) →
  let tuples := (offsets base_id rows).*1 in
  ∃ old new, InitializeUpdateData uninitialised tuples base tuples update sel = Ok (old, new) ∧ old.*1 = tuples ∧ new.*1 = tuples ∧
    (∀ r (i : nat), entry_at (offsets base_id rows) r = Some i → entry_at new r = data_view update i) ∧
    ∀ r, r ∈ tuples → data_known base (Z.to_nat r) → entry_at old r = data_view base (Z.to_nat r).
Proof.
  intros Hb Hu Ho Hi Hsel tuples. unfold InitializeUpdateData.
  set (value v := λ r, default uninitialised (data_view v r)).
  set (old_of t := if valid_at (flat_validity base) (Z.to_nat t) then value base (Z.to_nat t) else uninitialised).
  assert (Hrange : ∀ r, r ∈ tuples → 0 ≤ r < Z.of_nat SVS) by (apply Forall_forall, Ho).
  rewrite (mapR_index base_id rows sel (λ idx t, x ← vget (flat_data update) (Z.to_nat idx); Ok (t, x))
             (new_entry base_id (value update))); [|done|].
  2:{ intros row Hrow. rewrite Nat2Z.id. destruct (data_row update row.1 Hu (Hi row Hrow)) as (x & -> & Hx). cbn [mbind result_bind].
      unfold new_entry, value. by rewrite Hx. }
  cbn [mbind result_bind]. rewrite (mapR_Ok _ (λ t, (t, old_of t))).
  2:{ intros t Ht. specialize (Hrange t Ht). rewrite (RowIsValid_ok _ SVS) by (apply Hb || lia). cbn [mbind result_bind].
      unfold old_of. destruct (valid_at _ (Z.to_nat t)); [|done]. cbn [negb].
      destruct (data_row base (Z.to_nat t) Hb ltac:(lia)) as (x & -> & Hx). cbn [mbind result_bind]. unfold value. by rewrite Hx. }
  cbn [mbind result_bind]. eexists _, _. split_and!; [done | apply fmap_fst_pair | | |].
  - unfold tuples, offsets. by rewrite <- !list_fmap_compose.
  - intros r i E. rewrite entry_at_new, E. cbn [fmap option_fmap option_map]. unfold value.
    apply entry_at_Some in E. unfold offsets in E. apply list_elem_of_fmap in E as (row & [= -> ->] & Hrow).
    destruct (data_row update row.1 Hu (Hi row Hrow)) as (x & _ & ->). done.
  - intros r Hr Hk. rewrite (entry_at_fmap old_of) by done. unfold old_of. rewrite Hk. unfold value. specialize (Hrange r Hr).
    destruct (data_row base (Z.to_nat r) Hb ltac:(lia)) as (x & _ & ->). done.
Qed.
End Values.

(** ** Statistics *)

Section ValueStatistics.
Context {T : Type} (update_one : BaseStatistics → T → result BaseStatistics).
Context (shape : BaseStatistics → Prop) (fine : T → Prop).
Hypothesis Hone : ∀ s x, shape s → fine x → ∃ s', update_one s x = Ok s' ∧ shape s'.

(** The values an update writes, in order. *)
Definition written_values (v : FlatVector T) (n : nat) : list T := omap (data_view v) (data_written v n).

Lemma shape_updates s l : shape s → Forall fine l → ∃ s', foldM update_one s l = Ok s' ∧ shape s'.
Proof.
  intros Hs HF. revert s Hs; induction HF as [|x l Hx _ IH]; intros s Hs; [by exists s|].
  destruct (Hone s x Hs Hx) as (s1 & Hs1 & H1). destruct (IH s1 H1) as (s' & ? & ?). exists s'. cbn. by rewrite Hs1.
Qed.

(** The loop over the rows is a loop over the values written. *)
Lemma statistics_values s v n :
  data_view_ok v → (n ≤ SVS)%nat →
  foldM (λ s i, b ← RowIsValid (flat_validity v) i;
                if (b : bool) then x ← vget (flat_data v) i; update_one s x else Ok s) s (seq 0 n) =
  foldM update_one s (written_values v n).
Proof.
  intros Hv Hn. unfold written_values, data_written.
  assert (Forall (λ i, (i < SVS)%nat) (seq 0 n)) as HF by (apply Forall_forall; intros i Hi%elem_of_seq; lia).
  revert s; induction HF as [|i l Hi _ IH]; intros s; [done|]. cbn [foldM].
  rewrite (RowIsValid_ok _ SVS) by (apply Hv || done). cbn [mbind result_bind]. rewrite filter_cons.
  destruct (valid_at (flat_validity v) i) eqn:E.
  - rewrite decide_True by done. cbn [omap list_omap]. destruct (data_row v i Hv Hi) as (x & -> & ->). cbn [mbind result_bind foldM].
    destruct (update_one s x); [apply IH | done].
  - rewrite decide_False by (by intros []). cbn [mbind result_bind]. apply IH.
Qed.

Lemma data_statistics_law s v n :
  shape s → data_view_ok v → (n ≤ SVS)%nat → Forall fine (written_values v n) →
  ∃ s' sel, update_value_statistics update_one s v n = Ok (s', sel, length (data_written v n)) ∧ shape s' ∧
    selection sel (length (data_written v n)) (Z.of_nat <$> data_written v n) ∧
    foldM update_one s (written_values v n) = Ok s'.
Proof.
  intros Hs Hv Hn Hf. destruct (shape_updates s _ Hs Hf) as (s' & Hfold & Hs'). unfold update_value_statistics.
  destruct (AllValid (flat_validity v)) eqn:E.
  - assert (data_written v n = seq 0 n) as Hw by (apply filter_all; intros i _; by rewrite all_valid_at).
    rewrite Hw, length_seq.
    assert (foldM (λ s i, x ← vget (flat_data v) i; update_one s x) s (seq 0 n) = Ok s') as ->.
    { rewrite <- Hfold, <- statistics_values by done. apply foldM_ext. intros s1 i Hi%elem_of_seq.
      rewrite (RowIsValid_ok _ SVS) by (apply Hv || lia). by rewrite all_valid_at. }
    cbn [mbind result_bind]. exists s', SelectionVector_null. split_and!; [done | done | by split | done].
  - destruct (select_rows_ok (RowIsValid (flat_validity v)) (valid_at (flat_validity v)) (SelectionVector_Initialize STANDARD_VECTOR_SIZE)
      n STANDARD_VECTOR_SIZE) as (sel & c & Hsel & Hcap & Hc & Hl); [intros i Hi; apply (RowIsValid_ok _ SVS); [apply Hv | lia] | apply sel_cap_Initialize | done | done|].
    unfold valid_selection, select_rows in *. rewrite Hsel. cbn [mbind result_bind]. rewrite statistics_values, Hfold by done. cbn.
    subst c. exists s', sel. split_and!; [done | done | | done]. split; [|done].
    destruct Hcap as (buf & Hs1 & Hbuf). unfold sel_readable. rewrite Hs1, Hbuf. etrans; [apply length_filter|]. by rewrite length_seq.
Qed.

#[local] Lemma written_fine v n :
  (∀ i x, i ∈ data_written v n → data_view v i = Some x → fine x) → Forall fine (written_values v n).
Proof. intros H. apply Forall_forall. intros x (i & Hi & Hx)%list_elem_of_omap. eauto. Qed.

Definition value_laws (uninitialised : T) : UpdateLaws (value_functions uninitialised (update_value_statistics update_one)).
Proof.
  refine {| view := data_view; view_ok := data_view_ok; known := data_known; written := data_written; elem_ok := fine;
            stats_ok := shape |}.
  - intros v r Hv Hr. destruct (data_row v r Hv Hr) as (x & _ & ->). by eexists.
  - intros v n. unfold data_written. apply sorted_filter, sorted_seq.
  - intros v n i [_ Hi%elem_of_seq]%list_elem_of_filter. lia.
  - apply data_fetch_law.
  - apply data_committed_law.
  - apply data_range_law.
  - apply data_row_law.
  - apply data_initialize_law.
  - intros. apply merge_law_of; auto using data_row.
  - done.
  - intros s v n Hs Hv Hn Hf. destruct (data_statistics_law s v n Hs Hv Hn (written_fine v n Hf)) as (s' & sel & ? & ? & ? & _). eauto.
Defined.
End ValueStatistics.

(** Numbers: the statistics have a minimum and a maximum (intervals have
    none). *)
Definition number_shape (pt : PhysicalType) (s : BaseStatistics) : Prop :=
  match pt with PT_INTERVAL => True | _ => ∃ a b, numeric_view s pt (Some a) (Some b) end.

Lemma number_update pt s x : pt ≠ PT_LIST → number_shape pt s → ∃ s', NumericStats_Update pt s x = Ok s' ∧ number_shape pt s'.
Proof.
  intros Hp Hs. destruct (decide (pt = PT_INTERVAL)) as [->|Hne]; [by exists s|].
  assert (∃ a b, numeric_view s pt (Some a) (Some b)) as (a & b & V) by (by destruct pt).
  destruct (Update_view _ _ _ _ V a b x eq_refl eq_refl) as (s' & H1 & V' & _). exists s'. split; [done|].
  unfold number_shape. destruct pt; try done; eexists _, _; exact V'.
Qed.

#[export] Instance number_laws pt (Hpt : pt ≠ PT_LIST) : UpdateLaws (update_functions (Update_number pt)) :=
  value_laws (NumericStats_Update pt) (number_shape pt) (λ _, True) (λ s x Hs _, number_update pt s x Hpt Hs) 0.

(** Strings. *)
Definition string_shape (s : BaseStatistics) : Prop := ∃ d, stats_union s = D_string d ∧ str_wf d.
Definition string_fine (x : list Z) : Prop := str_ok x ∧ Analyze x ≠ UNI_INVALID.

Lemma string_update s x : string_shape s → string_fine x → ∃ s', StringStats_Update s x = Ok s' ∧ string_shape s'.
Proof.
  intros (d & Hd & Hw) [Hx Ha]. destruct (Update_covers s d x Hd Hw Hx (λ _ _, Ha)) as (d' & -> & Hw' & _).
  eexists; split; [done|]. exists d'. split; [by destruct s | done].
Qed.

#[export] Instance string_laws : UpdateLaws (update_functions Update_string) :=
  value_laws StringStats_Update string_shape string_fine string_update [].
