(* ===== verification/UpdateChain.v ===== *)
(** One update chain under concurrent transactions: its invariant, and what
    recording an update, committing, rolling back and cleaning up do to the
    values each transaction sees. *)
From S2P Require Import Prelude Bits SelectionVector Types Stats ValidityMask ChunkInfo RowVersionManager.
From S2P Require Import VersionFacts FilterFacts UpdateSegment UpdateFacts UpdateLaws.

(** Starts lie below, transaction ids from [TRANSACTION_ID_START] on. *)
Definition txn_ok (t : TransactionData) : Prop :=
  start_time t < TRANSACTION_ID_START - 1 ∧ TRANSACTION_ID_START ≤ transaction_id t.

Section Chain.
Context {T : Type}.
Implicit Types (i j u : UpdateInfo T) (c pre post : list (UpdateInfo T)) (n : UpdateNodeData T) (t : TransactionData).

(** * The values seen through a chain *)

Lemma chain_view_app t c c' r x : chain_view t (c ++ c') r x = chain_view t c' r (chain_view t c r x).
Proof. apply fold_left_app. Qed.

Lemma chain_view_cons t i c r x : chain_view t (i :: c) r x = chain_view t c r (if unseen t i then override i r x else x).
Proof. done. Qed.

Definition free (r : nat) (i : UpdateInfo T) : Prop := entry_at (info_entries i) (Z.of_nat r) = None.

Lemma chain_view_free t c r x : (∀ i, i ∈ c → unseen t i = true → free r i) → chain_view t c r x = x.
Proof.
  revert x; induction c as [|i c IH]; intros x H; [done|]. rewrite chain_view_cons, IH by (intros; apply H; [by right | done]).
  destruct (unseen t i) eqn:E; [|done]. unfold override. by rewrite (H i ltac:(left) E).
Qed.

(** Removing infos the reader sees (or that lack the row) changes nothing. *)
Lemma chain_view_filter t (P : UpdateInfo T → Prop) `{∀ i, Decision (P i)} c r x :
  (∀ i, i ∈ c → ¬ P i → unseen t i = false) → chain_view t (filter P c) r x = chain_view t c r x.
Proof.
  revert x; induction c as [|i c IH]; intros x H'; [done|]. rewrite filter_cons.
  assert (∀ j, j ∈ c → ¬ P j → unseen t j = false) as Hc by (intros; apply H'; [by right | done]).
  destruct (decide (P i)) as [|Hn]; rewrite ?chain_view_cons, IH by done; [done|]. by rewrite (H' i ltac:(left) Hn).
Qed.

(** Infos a reader treats alike. *)
Lemma chain_view_fmap t (f : UpdateInfo T → UpdateInfo T) c r x :
  (∀ i, i ∈ c → info_entries (f i) = info_entries i ∧ unseen t (f i) = unseen t i) →
  chain_view t (f <$> c) r x = chain_view t c r x.
Proof.
  revert x; induction c as [|i c IH]; intros x H; [done|]. cbn [fmap list_fmap]. rewrite !chain_view_cons.
  destruct (H i ltac:(left)) as [He ->]. rewrite IH by (intros; apply H; by right). unfold override. by rewrite He.
Qed.

Lemma unseen_same t t' i : version_number i = transaction_id t' → txn_ok t → txn_ok t' → transaction_id t ≠ transaction_id t' → unseen t i = true.
Proof. intros E [? ?] [? ?] ?. unfold unseen, use_old_version. rewrite E. lia. Qed.

Lemma unseen_own t i : version_number i = transaction_id t → unseen t i = false.
Proof. intros E. unfold unseen, use_old_version. rewrite E. lia. Qed.

Lemma base_unseen t i : txn_ok t → version_number i = TRANSACTION_ID_START - 1 → unseen t i = true.
Proof. intros [? ?] E. unfold unseen, use_old_version. rewrite E. lia. Qed.

(** * The invariant *)

(** [j] precedes [i] in the chain: an info of an active transaction is behind
    only infos written after it began, and shares no row with them, nor with
    the infos behind it that it does not see. *)
Definition disjoint_rows (i j : UpdateInfo T) : Prop := ∀ r, r ∈ (info_entries i).*1 → r ∉ (info_entries j).*1.

Definition before (A : list TransactionData) (j i : UpdateInfo T) : Prop :=
  (∀ t, t ∈ A → version_number i = transaction_id t → start_time t < version_number j ∧ disjoint_rows i j) ∧
  (∀ t, t ∈ A → version_number j = transaction_id t → unseen t i = true → disjoint_rows i j).

Record chain_ok (A : list TransactionData) (limit : Z) (n : UpdateNodeData T) : Prop := {
  co_version : version_number (node_info n) = TRANSACTION_ID_START - 1;
  co_base : entries_ok (info_entries (node_info n));
  co_infos : Forall info_ok (node_next n);
  co_rows : ∀ i r, i ∈ node_next n → r ∈ (info_entries i).*1 → r ∈ (info_entries (node_info n)).*1;
  co_unique : NoDup (version_number <$> node_next n);
  co_known : ∀ i, i ∈ node_next n → version_number i < limit ∨ ∃ t, t ∈ A ∧ version_number i = transaction_id t;
  co_sorted : StronglySorted (before A) (node_next n);
}.

(** The transactions that can read: the active ones, and one that begins now. *)
Record active_ok (A : list TransactionData) (limit : Z) : Prop := {
  ao_txn : Forall txn_ok A;
  ao_start : ∀ t, t ∈ A → start_time t < limit;
  ao_unique : NoDup (transaction_id <$> A);
  ao_limit : limit < TRANSACTION_ID_START - 1;
}.

Definition node_view t n r x : option T := chain_view t (node_chain n) r x.

Lemma node_view_eq A limit n t r x :
  chain_ok A limit n → txn_ok t → node_view t n r x = chain_view t (node_next n) r (override (node_info n) r x).
Proof. intros H Ht. unfold node_view, node_chain. by rewrite chain_view_cons, (base_unseen _ _ Ht (co_version _ _ _ H)). Qed.

Lemma same_transaction A limit t t' : active_ok A limit → t ∈ A → t' ∈ A → transaction_id t = transaction_id t' → t = t'.
Proof.
  intros H Ht Ht' E. apply list_elem_of_lookup in Ht as [k Hk], Ht' as [k' Hk'].
  assert (k = k') as ->; [|congruence].
  apply (NoDup_lookup (transaction_id <$> A) k k' (transaction_id t)); [apply H | |]; rewrite list_lookup_fmap.
  - by rewrite Hk.
  - by rewrite Hk', E.
Qed.

(** * Recording an update *)

(** The chain around the info of the transaction: [u] has no entries if it is
    new. *)
Record own_split (t : TransactionData) (n : UpdateNodeData T) pre u post : Prop := {
  os_version : version_number u = transaction_id t;
  os_chain : node_next n = pre ++ u :: post ∨ (node_next n = post ∧ pre = [] ∧ info_entries u = []);
  os_fresh : ∀ i, i ∈ pre ++ post → version_number i ≠ transaction_id t;
}.

Lemma filter_version_nil tid c : filter (λ i, version_number i = tid) c = [] → ∀ i, i ∈ c → version_number i ≠ tid.
Proof.
  intros H i Hi E. assert (i ∈ filter (λ i, version_number i = tid) c) as Hin by (by apply list_elem_of_filter). rewrite H in Hin. inversion Hin.
Qed.

Lemma filter_version_cons tid c u c' :
  filter (λ i, version_number i = tid) c = u :: c' → NoDup (version_number <$> c) →
  ∃ pre post, c = pre ++ u :: post ∧ version_number u = tid ∧ ∀ i, i ∈ pre ++ post → version_number i ≠ tid.
Proof.
  induction c as [|i c IH]; [done|]. rewrite filter_cons. intros H [Hn Hd]%NoDup_cons. destruct (decide (version_number i = tid)) as [E|E].
  - injection H as <- _. exists [], c. split_and!; [done | done|]. cbn. intros j Hj <-. apply Hn. rewrite E. apply list_elem_of_fmap. eauto.
  - destruct (IH H Hd) as (pre & post & -> & E' & Hp). exists (i :: pre), post. split_and!; [done | done|].
    cbn. intros j [->|Hj]%elem_of_cons; auto.
Qed.

Lemma own_split_of A limit t n (fresh : UpdateInfo T) :
  chain_ok A limit n → version_number fresh = transaction_id t → info_entries fresh = [] →
  ∃ pre u post, own_split t n pre u post ∧
    match filter (λ i, version_number i = transaction_id t) (node_next n) with
    | i :: _ => u = i ∧ node_next n = pre ++ u :: post
    | [] => u = fresh ∧ pre = [] ∧ post = node_next n
    end.
Proof.
  intros H Hf He. destruct (filter _ (node_next n)) as [|u c'] eqn:E.
  - exists [], fresh, (node_next n). split; [|done]. split; [done | by right | by apply filter_version_nil].
  - destruct (filter_version_cons _ _ _ _ E (co_unique _ _ _ H)) as (pre & post & Hc & Hv & Hp).
    exists pre, u, post. split; [|done]. split; [done | by left | done].
Qed.

Lemma update_own_app tid l pre u post :
  version_number u = tid → (∀ i, i ∈ pre → version_number i ≠ tid) → update_own tid l (pre ++ u :: post) = pre ++ set_entries u l :: post.
Proof.
  intros E H. induction pre as [|i pre IH]; cbn.
  - by rewrite (proj2 (Z.eqb_eq _ _) E).
  - rewrite (proj2 (Z.eqb_neq _ _) (H i ltac:(left))). f_equal. apply IH. intros; apply H; by right.
Qed.

(** The chain before the update, with the empty info if it is new. *)
Lemma own_view t n pre u post t' r x : own_split t n pre u post → chain_view t' (node_next n) r x = chain_view t' (pre ++ u :: post) r x.
Proof.
  intros H. destruct (os_chain _ _ _ _ _ H) as [-> | (-> & -> & E)]; [done|]. cbn [app]. rewrite chain_view_cons. unfold override. rewrite E.
  by destruct (unseen t' u).
Qed.
End Chain.

(** ** The merged chain *)

Section Merged.
Context {T : Type} (A : list TransactionData) (limit : Z) (n : UpdateNodeData T) (t : TransactionData).
Context (offs : list (Z * nat)) (vb vu : nat → option T) (pre : list (UpdateInfo T)) (u : UpdateInfo T) (post : list (UpdateInfo T)).
Context (b' u' : list (Z * T)).
Hypothesis HA : active_ok A limit.
Hypothesis Hn : chain_ok A limit n.
Hypothesis Ht : t ∈ A.
Hypothesis Hoffs : entries_ok offs.
Hypothesis Hoffs0 : offs ≠ [].
Hypothesis Hvu : ∀ r i, entry_at offs r = Some i → is_Some (vu i).
Hypothesis Hvb : ∀ r, (r < SVS)%nat → is_Some (vb r).
Hypothesis Hsplit : own_split t n pre u post.
Hypothesis Hfree : ∀ i r, i ∈ node_next n → unseen t i = true → r ∈ offs.*1 → r ∉ (info_entries i).*1.
Hypothesis Hb' : entries_ok b'.
Hypothesis Hu' : entries_ok u'.
Hypothesis Ab : ∀ r, entry_at b' r = match entry_at offs r with Some i => vu i | None => entry_at (info_entries (node_info n)) r end.
Hypothesis Au : ∀ r, entry_at u' r =
  match entry_at (info_entries u) r with
  | Some y => Some y
  | None => if decide (r ∈ offs.*1)
            then match entry_at (info_entries (node_info n)) r with Some x => Some x | None => vb (Z.to_nat r) end else None
  end.

Definition merged_node : UpdateNodeData T :=
  mkNode (set_entries (node_info n) b') (pre ++ set_entries u u' :: post).

Lemma txn_t : txn_ok t.
Proof. destruct HA as [H _ _ _]. rewrite Forall_forall in H. by apply H. Qed.

Lemma others_in i : i ∈ pre ++ post → i ∈ node_next n.
Proof.
  intros Hi. destruct (os_chain _ _ _ _ _ Hsplit) as [-> | (-> & -> & _)]; [|done].
  apply elem_of_app in Hi as [Hi|Hi]; apply elem_of_app; [by left | right; by right].
Qed.

(** The infos in front of the transaction's own are unseen by it. *)
Lemma pre_unseen i : i ∈ pre → unseen t i = true.
Proof.
  intros Hi. destruct (os_chain _ _ _ _ _ Hsplit) as [E | (_ & -> & _)]; [|inversion Hi].
  pose proof (co_sorted _ _ _ Hn) as HS. rewrite E in HS. apply sorted_app in HS as (_ & _ & HB).
  destruct (proj1 (HB i u Hi ltac:(left)) t Ht (os_version _ _ _ _ _ Hsplit)) as [Hlt _].
  unfold unseen, use_old_version. rewrite (proj2 (Z.ltb_lt _ _) Hlt). cbn. apply negb_true_iff, Z.eqb_neq.
  apply (os_fresh _ _ _ _ _ Hsplit). apply elem_of_app. by left.
Qed.

Lemma pre_free i r : i ∈ pre → Z.of_nat r ∈ offs.*1 → free r i.
Proof.
  intros Hi Hr. apply entry_at_None, Hfree; [|by apply pre_unseen | done]. apply others_in, elem_of_app. by left.
Qed.

Lemma post_free i r : i ∈ post → unseen t i = true → Z.of_nat r ∈ offs.*1 → free r i.
Proof. intros Hi Hu Hr. apply entry_at_None, Hfree; [|done | done]. apply others_in, elem_of_app. by right. Qed.

Lemma merged_view t' r x :
  txn_ok t' → node_view t' merged_node r x =
  chain_view t' (pre ++ set_entries u u' :: post) r (override (set_entries (node_info n) b') r x).
Proof.
  intros H. unfold node_view, node_chain, merged_node. cbn [node_info node_next]. rewrite chain_view_cons.
  rewrite base_unseen; [done | done | apply (co_version _ _ _ Hn)].
Qed.

Lemma unmerged_view t' r x :
  txn_ok t' → node_view t' n r x = chain_view t' (pre ++ u :: post) r (override (node_info n) r x).
Proof. intros H. by rewrite (node_view_eq A limit), (own_view t n pre u post) by done. Qed.

(** The transaction sees its new values. *)
Lemma merged_self r x :
  node_view t merged_node r x = match entry_at offs (Z.of_nat r) with Some i => vu i | None => node_view t n r x end.
Proof.
  rewrite merged_view, unmerged_view by apply txn_t. rewrite !chain_view_app, !chain_view_cons.
  pose proof (os_version _ _ _ _ _ Hsplit) as Hv.
  rewrite (unseen_own t u), (unseen_own t (set_entries u u')) by done. unfold override. cbn [info_entries set_entries]. rewrite Ab.
  destruct (entry_at offs (Z.of_nat r)) as [i|] eqn:E; [|done].
  assert (Z.of_nat r ∈ offs.*1) as Hr by (apply entry_at_is_Some; eauto).
  rewrite (chain_view_free t pre) by (intros; by apply pre_free). rewrite chain_view_free by (intros; by apply post_free).
  destruct (Hvu _ _ E) as [y ->]. done.
Qed.

(** The others see what they saw. *)
Lemma merged_other t' r x :
  txn_ok t' → transaction_id t' ≠ transaction_id t → (r < SVS)%nat →
  (entry_at (info_entries (node_info n)) (Z.of_nat r) = None → x = vb r) →
  node_view t' merged_node r x = node_view t' n r x.
Proof.
  intros Ht' Hne Hr Hx. rewrite merged_view, unmerged_view by done. rewrite !chain_view_app, !chain_view_cons.
  pose proof (os_version _ _ _ _ _ Hsplit) as Hv.
  rewrite (unseen_same t' t u), (unseen_same t' t (set_entries u u')) by (done || apply txn_t).
  f_equal. unfold override. cbn [info_entries set_entries]. rewrite Ab, Au.
  destruct (decide (Z.of_nat r ∈ offs.*1)) as [Hin|Hin].
  - rewrite !(chain_view_free t' pre) by (intros; by apply pre_free). rewrite Nat2Z.id.
    destruct (entry_at (info_entries u) _); [done|]. destruct (entry_at (info_entries (node_info n)) _); [done|].
    rewrite Hx by done. by destruct (Hvb r Hr) as [y ->].
  - rewrite (proj2 (entry_at_None offs _) Hin). by destruct (entry_at (info_entries u) _).
Qed.

Lemma merged_rows r : r ∈ (info_entries (node_info n)).*1 ∨ r ∈ offs.*1 → r ∈ b'.*1.
Proof.
  intros H. apply entry_at_is_Some. rewrite Ab. destruct (entry_at offs r) as [i|] eqn:E; [by eapply Hvu|].
  destruct H as [H|H]; apply entry_at_is_Some in H; [done|]. rewrite E in H. by destruct H.
Qed.

Lemma own_rows r : r ∈ u'.*1 → r ∈ (info_entries u).*1 ∨ r ∈ offs.*1.
Proof.
  intros H. apply entry_at_is_Some in H. rewrite Au in H. destruct (entry_at (info_entries u) r) eqn:E.
  - left. apply entry_at_is_Some. eauto.
  - right. destruct (decide (r ∈ offs.*1)); [done | by destruct H].
Qed.

Lemma u_rows_in_base r : r ∈ (info_entries u).*1 → r ∈ (info_entries (node_info n)).*1.
Proof.
  intros H. destruct (os_chain _ _ _ _ _ Hsplit) as [E | (_ & _ & E)]; [|rewrite E in H; inversion H].
  apply (co_rows _ _ _ Hn u); [|done]. rewrite E. apply elem_of_app. right. left.
Qed.

Lemma before_own_post i : i ∈ post → before A u i → before A (set_entries u u') i.
Proof.
  intros Hi [HB HB2].
  assert (Hoff : unseen t i = true → ∀ r, r ∈ (info_entries i).*1 → r ∉ offs.*1).
  { intros Hu r Hr H. apply (Hfree i r); [apply others_in, elem_of_app; by right | done | done | done]. }
  split; intros t2 Ht2 Hv2.
  - destruct (HB t2 Ht2 Hv2) as [Hs Hd]. split; [done|]. intros r Hr [H|H]%own_rows; [by apply (Hd r)|].
    assert (transaction_id t2 ≠ transaction_id t).
    { intros E. apply (os_fresh _ _ _ _ _ Hsplit i); [apply elem_of_app; by right | by rewrite Hv2]. }
    apply (Hoff (unseen_same t t2 i Hv2 txn_t ltac:(apply (proj1 (Forall_forall _ _) (ao_txn _ _ HA) t2 Ht2)) ltac:(done)) r Hr H).
  - intros Hun r Hr [H|H]%own_rows; [by apply (HB2 t2 Ht2 Hv2 Hun r)|].
    assert (t2 = t) as ->; [|by apply (Hoff Hun r)].
    apply (same_transaction A limit); [done | done | done|]. rewrite <- Hv2. apply (os_version _ _ _ _ _ Hsplit).
Qed.

Lemma before_pre_own i : i ∈ pre → before A i u → before A i (set_entries u u').
Proof.
  intros Hi [HB HB2].
  assert (Hd : disjoint_rows (set_entries u u') i).
  { destruct (HB t Ht (os_version _ _ _ _ _ Hsplit)) as [_ Hd]. intros r [H|H]%own_rows; [by apply Hd|].
    apply Hfree; [apply others_in, elem_of_app; by left | by apply pre_unseen | done]. }
  split; intros t2 Ht2 Hv2; [|done]. split; [apply (HB t2 Ht2 Hv2) | done].
Qed.

Lemma merged_sorted : StronglySorted (before A) (pre ++ set_entries u u' :: post).
Proof.
  pose proof before_own_post as BO. pose proof before_pre_own as BP. pose proof txn_t as [_ Htid].
  pose proof (os_version _ _ _ _ _ Hsplit) as Hv.
  destruct (os_chain _ _ _ _ _ Hsplit) as [E | (E & Epre & Eu)]; pose proof (co_sorted _ _ _ Hn) as HS; rewrite E in HS.
  - apply sorted_app in HS as (H1 & [H2 H3]%StronglySorted_cons & H4). rewrite Forall_forall in H2.
    apply sorted_app. split_and!; [done | constructor; [done|] |].
    + apply Forall_forall. intros i Hi. apply BO; [done | by apply H2].
    + intros a c Ha [->|Hc]%elem_of_cons; [apply BP; [done | apply H4; [done | left]] | apply H4; [done | by right]].
  - rewrite Epre. cbn. constructor; [done|]. apply Forall_forall. intros i Hi. apply BO; [done|].
    assert (disjoint_rows i u) by (intros r _ Hr; rewrite Eu in Hr; inversion Hr).
    split; intros t2 Ht2 Hv2; [|done]. split; [|done].
    pose proof (ao_start _ _ HA t2 Ht2). pose proof (ao_limit _ _ HA). lia.
Qed.

Lemma merged_ok : chain_ok A limit merged_node.
Proof.
  split; cbn [merged_node node_info node_next].
  - apply (co_version _ _ _ Hn).
  - done.
  - assert (Forall info_ok (pre ++ post)) as HF.
    { apply Forall_forall. intros i Hi. pose proof (co_infos _ _ _ Hn) as HI. rewrite Forall_forall in HI. by apply HI, others_in. }
    apply Forall_app in HF as [H1 H2]. apply Forall_app. split; [done|]. constructor; [|done]. split; [done|].
    cbn [info_entries set_entries]. intros E.
    assert (∃ r0, r0 ∈ offs.*1) as [r0 Hr0] by (destruct offs as [|[r0 i0] l]; [done | exists r0; left]).
    assert (entry_at u' r0 = None) as H0 by (by rewrite E). rewrite Au in H0.
    destruct (entry_at (info_entries u) r0); [done|]. rewrite decide_True in H0 by done.
    destruct (entry_at (info_entries (node_info n)) r0); [done|].
    pose proof (proj2 Hoffs) as HF. rewrite Forall_forall in HF. specialize (HF r0 Hr0). cbn in HF.
    destruct (Hvb (Z.to_nat r0) ltac:(lia)) as [y Hy]. congruence.
  - intros i r Hi Hr. cbn [info_entries set_entries]. apply merged_rows.
    apply elem_of_app in Hi as [Hi|[->|Hi]%elem_of_cons].
    + left. apply (co_rows _ _ _ Hn i); [apply others_in, elem_of_app; by left | done].
    + apply own_rows in Hr as [Hr|Hr]; [left; by apply u_rows_in_base | by right].
    + left. apply (co_rows _ _ _ Hn i); [apply others_in, elem_of_app; by right | done].
  - assert (NoDup (version_number <$> pre ++ u :: post)) as HD.
    { destruct (os_chain _ _ _ _ _ Hsplit) as [E | (E & Epre & _)]; [rewrite <- E; apply (co_unique _ _ _ Hn)|].
      rewrite Epre. cbn. constructor; [|rewrite <- E; apply (co_unique _ _ _ Hn)]. intros (i & Hv & Hi)%list_elem_of_fmap.
      apply (os_fresh _ _ _ _ _ Hsplit i); [apply elem_of_app; by right|]. by rewrite <- Hv, (os_version _ _ _ _ _ Hsplit). }
    by rewrite fmap_app in *.
  - intros i Hi. apply elem_of_app in Hi as [Hi|[->|Hi]%elem_of_cons].
    + apply (co_known _ _ _ Hn), others_in, elem_of_app. by left.
    + right. exists t. split; [done | apply (os_version _ _ _ _ _ Hsplit)].
    + apply (co_known _ _ _ Hn), others_in, elem_of_app. by right.
  - apply merged_sorted.
Qed.
End Merged.
