(* ===== verification/UpdateSteps.v ===== *)
(** The operations of an update segment on one chain: recording an update in
    an existing or a new chain, commit, rollback and cleanup keep the chain's
    invariant and change the values of the readers they should. *)
From S2P Require Import Prelude Bits SelectionVector Types Stats ValidityMask ChunkInfo RowVersionManager.
From S2P Require Import VersionFacts FilterFacts UpdateSegment UpdateFacts UpdateLaws UpdateChain.

(** The addresses and versions of a chain. *)
Definition stamps {T} (n : UpdateNodeData T) : list (nat * Z) := (λ i, (info_address i, version_number i)) <$> node_next n.

(** The chain has an info of transaction [tid]. *)
Definition has_own {T} (n : UpdateNodeData T) (tid : Z) : bool := bool_decide (tid ∈ (stamps n).*2).

(** Whether transaction [tid] has changed row [r] of the vector. *)
Definition wrote {T} (n : UpdateNodeData T) (tid : Z) (r : nat) : Prop :=
  ∃ i, i ∈ node_next n ∧ version_number i = tid ∧ Z.of_nat r ∈ (info_entries i).*1.

Section Record.
Context {T : Type} (F : UpdateFunctions T) {L : UpdateLaws F}.
Context (A : list TransactionData) (limit : Z) (t : TransactionData) (rows : list (nat * Z)) (off : Z) (update base : FlatVector T).
Hypothesis HA : active_ok A limit.
Hypothesis Ht : t ∈ A.
Hypothesis Hrows : rows ≠ [].
Hypothesis Hoffs : entries_ok (offsets off rows).
Hypothesis Hidx : ∀ row, row ∈ rows → (row.1 < SVS)%nat.
Hypothesis Hupdate : view_ok update.
Hypothesis Hbase : view_ok base.

(** What the transaction reads after the update, and what the others read. *)
Definition updates_view_ok (old : TransactionData → nat → option T → option T) (n' : UpdateNodeData T)
    (recorded : nat → Prop) : Prop :=
  (∀ r x, node_view t n' r x =
    match entry_at (offsets off rows) (Z.of_nat r) with Some i => view update i | None => old t r x end) ∧
  (∀ t' r, txn_ok t' → transaction_id t' ≠ transaction_id t → (r < SVS)%nat → recorded r →
    node_view t' n' r (view base r) = old t' r (view base r)).

Lemma offs_nonempty : offsets off rows ≠ [].
Proof. by destruct rows. Qed.

Lemma update_index r i : entry_at (offsets off rows) r = Some i → is_Some (view update i).
Proof.
  intros E. apply entry_at_Some in E. unfold offsets in E. apply list_elem_of_fmap in E as (row & [= -> ->] & Hrow).
  apply view_total; [done | by apply Hidx].
Qed.

Lemma merged_wrote n pre u post b' u' tid r :
  own_split t n pre u post →
  (∀ r, entry_at u' r =
    match entry_at (info_entries u) r with
    | Some y => Some y
    | None => if decide (r ∈ (offsets off rows).*1)
              then match entry_at (info_entries (node_info n)) r with Some x => Some x | None => view base (Z.to_nat r) end else None
    end) →
  wrote (merged_node n pre u post b' u') tid r ↔ wrote n tid r ∨ (tid = transaction_id t ∧ Z.of_nat r ∈ (offsets off rows).*1).
Proof.
  intros Hs Au. unfold wrote, merged_node. cbn [node_next].
  assert (Hu : Z.of_nat r ∈ u'.*1 ↔ Z.of_nat r ∈ (info_entries u).*1 ∨ Z.of_nat r ∈ (offsets off rows).*1).
  { rewrite <- !(entry_at_is_Some (T := T)), Au. destruct (entry_at (info_entries u) (Z.of_nat r)) eqn:E; [naive_solver|].
    destruct (decide _) as [Hin|Hin]; [|split; [by intros [] | intros [[? ?]|?]; done]].
    split; [by right|]. intros _. destruct (entry_at (info_entries (node_info n)) _); [by eexists|].
    apply view_total; [done|]. pose proof (proj1 (Forall_forall _ _) (proj2 Hoffs) _ Hin). cbn in *. lia. }
  pose proof (os_version _ _ _ _ _ Hs) as Hv.
  assert (Hin : ∀ i, i ∈ node_next n ↔ i ∈ pre ++ post ∨ (i = u ∧ node_next n = pre ++ u :: post)).
  { intros i. destruct (os_chain _ _ _ _ _ Hs) as [E|(E & -> & Eu)]; rewrite E.
    - rewrite !elem_of_app, elem_of_cons. naive_solver.
    - cbn. split; [by left|]. intros [?|[-> E2]]; [done|]. rewrite E2 at 1. left. }
  split.
  - intros (i & Hi & Hvi & Hr). apply elem_of_app in Hi as [Hi|[->|Hi]%elem_of_cons].
    + left. exists i. split; [apply Hin; left; apply elem_of_app; by left | done].
    + cbn in Hvi, Hr. apply Hu in Hr as [Hr|Hr]; [|right; by rewrite <- Hvi, Hv]. left. exists u. split; [|done].
      apply Hin. right. split; [done|]. destruct (os_chain _ _ _ _ _ Hs) as [E|(_ & _ & Eu)]; [done|]. rewrite Eu in Hr. inversion Hr.
    + left. exists i. split; [apply Hin; left; apply elem_of_app; by right | done].
  - intros [(i & Hi & Hvi & Hr)|[-> Hr]].
    + apply Hin in Hi as [Hi|[-> _]].
      * exists i. split; [|done]. apply elem_of_app in Hi as [Hi|Hi]; apply elem_of_app; [by left | right; by right].
      * exists (set_entries u u'). split; [apply elem_of_app; right; left|]. split; [done|]. cbn. apply Hu. by left.
    + exists (set_entries u u'). split; [apply elem_of_app; right; left|]. split; [done|]. cbn. apply Hu. by right.
Qed.

Lemma update_chain_ok n addr col vi :
  chain_ok A limit n → CheckForConflicts (node_next n) t rows off = Ok tt →
  ∃ n', update_chain F n t true addr col vi rows off update base = Ok n' ∧ chain_ok A limit n' ∧
    updates_view_ok (λ t, node_view t n) n' (λ _, True) ∧
    (∀ tid r, wrote n' tid r ↔ wrote n tid r ∨ (tid = transaction_id t ∧ Z.of_nat r ∈ (offsets off rows).*1)) ∧
    stamps n' = if has_own n (transaction_id t) then stamps n else (addr, transaction_id t) :: stamps n.
Proof.
  intros Hn Hc. unfold update_chain. rewrite Hc. cbn [mbind result_bind].
  set (fresh := mkUpdateInfo addr col (transaction_id t) vi []).
  destruct (own_split_of A limit t n fresh Hn eq_refl eq_refl) as (pre & u & post & Hs & Hm).
  assert (Hfree : ∀ i r, i ∈ node_next n → unseen t i = true → r ∈ (offsets off rows).*1 → r ∉ (info_entries i).*1).
  { intros i r Hi Hu Hr. apply entry_at_None. apply (CheckForConflicts_free (node_next n) t rows off); try done. apply Hn. }
  assert (Hcase : ∃ chain, (match filter (λ i, version_number i = transaction_id t) (node_next n) with
    | i :: _ => (node_next n, info_entries i) | [] => (fresh :: node_next n, []) end) = (chain, info_entries u) ∧
    chain = pre ++ u :: post ∧ entries_ok (info_entries u) ∧
    (λ i, (info_address i, version_number i)) <$> (pre ++ u :: post) =
      if has_own n (transaction_id t) then stamps n else (addr, transaction_id t) :: stamps n).
  { unfold has_own. destruct (filter _ (node_next n)) as [|i c] eqn:E.
    - destruct Hm as (-> & -> & ->). exists (fresh :: node_next n). rewrite bool_decide_false; [by auto with duck|].
      unfold stamps. rewrite <- list_fmap_compose. intros (i & Hv & Hi)%list_elem_of_fmap.
      by apply (filter_version_nil _ _ E i Hi).
    - destruct Hm as [-> E2]. exists (node_next n). rewrite bool_decide_true.
      + split_and!; [done | done | | by unfold stamps; rewrite E2].
        pose proof (co_infos _ _ _ Hn) as HI. rewrite Forall_forall in HI. apply (HI i). rewrite E2. apply elem_of_app. right. left.
      + unfold stamps. rewrite <- list_fmap_compose. apply list_elem_of_fmap. exists i.
        split; [symmetry; apply (os_version _ _ _ _ _ Hs) | rewrite E2; apply elem_of_app; right; left]. }
  destruct Hcase as (chain & -> & -> & Hu & Hst).
  destruct (merge_law off rows base update (info_entries (node_info n)) (info_entries u)) as (b' & u' & -> & Hb' & Hu' & Ab & Au);
    try done; [apply Hn|].
  cbn [mbind result_bind]. rewrite update_own_app;
    [|apply (os_version _ _ _ _ _ Hs) | intros i Hi; apply (os_fresh _ _ _ _ _ Hs), elem_of_app; by left].
  exists (merged_node n pre u post b' u'). split_and!; [done | | split | |].
  - eapply (merged_ok A limit n t (offsets off rows) (view base) (view update)); try done; [apply offs_nonempty | apply update_index | intros; by apply view_total].
  - intros r x. eapply (merged_self A limit n t (offsets off rows) (view update)); try done. apply update_index.
  - intros t' r Ht' Hne Hr _. eapply (merged_other A limit n t (offsets off rows) (view base) (view update)); try done. intros; by apply view_total.
  - intros tid r. by eapply merged_wrote.
  - rewrite <- Hst. unfold stamps, merged_node. cbn [node_next]. rewrite !fmap_app. done.
Qed.

Lemma tuple_ids_ok : 0 ≤ off → InitializeUpdateInfo rows off = Ok (offsets off rows).*1.
Proof.
  intros Hoff. unfold InitializeUpdateInfo, offsets. rewrite <- list_fmap_compose. apply mapR_Ok. intros row Hrow.
  pose proof (offset_range off rows row Hoffs Hrow) as Hr. unfold tuple_id. rewrite (proj2 (Z.ltb_ge _ _)) by lia.
  destruct (wrap_offset _ Hr) as [-> _]. pose proof vector_size_u32. unfold UINT32_MAX. rewrite (proj2 (Z.ltb_ge _ _)) by lia. done.
Qed.

Lemma create_chain_ok sel addr col vi :
  0 ≤ off → selection sel (length rows) (Z.of_nat <$> rows.*1) →
  ∃ n', create_chain F t true addr col vi rows sel off update base = Ok n' ∧ chain_ok A limit n' ∧
    updates_view_ok (λ _ _ x, x) n' (known base) ∧
    (∀ tid r, wrote n' tid r ↔ tid = transaction_id t ∧ Z.of_nat r ∈ (offsets off rows).*1) ∧
    stamps n' = [(addr, transaction_id t)].
Proof.
  intros Hoff Hsel. unfold create_chain. rewrite tuple_ids_ok by done. cbn [mbind result_bind].
  destruct (initialize_law off rows sel base update) as (old & new & -> & Ho & Hn & Anew & Aold); try done.
  cbn [mbind result_bind]. eexists. split; [done|].
  assert (entries_ok old ∧ entries_ok new) as [Eo En] by (unfold entries_ok in *; by rewrite Ho, Hn).
  assert (txn_ok t) as Htx by (by apply (proj1 (Forall_forall _ _) (ao_txn _ _ HA))).
  assert (Hnew : ∀ r, entry_at new r = match entry_at (offsets off rows) r with Some i => view update i | None => None end).
  { intros r. destruct (entry_at (offsets off rows) r) as [i|] eqn:E; [by apply Anew|]. apply entry_at_None.
    rewrite Hn. by apply entry_at_None. }
  split_and!; [| split | | done].
  - split; cbn [node_info node_next version_number info_entries]; [done | done | | | | |].
    + constructor; [|constructor]. split; [done|]. cbn. intros E. rewrite E in Ho. pose proof offs_nonempty. by destruct (offsets off rows).
    + intros i r ->%list_elem_of_singleton Hr. cbn in Hr. by rewrite Hn, <- Ho.
    + apply NoDup_singleton.
    + intros i ->%list_elem_of_singleton. right. by exists t.
    + repeat constructor.
  - intros r x. unfold node_view, node_chain. cbn [node_info node_next]. rewrite chain_view_cons, base_unseen by done.
    rewrite chain_view_cons, unseen_own by done. cbn. unfold override. cbn [info_entries]. rewrite Hnew.
    destruct (entry_at (offsets off rows) (Z.of_nat r)) as [i|] eqn:E; [|done]. by destruct (update_index _ _ E) as [y ->].
  - intros t' r Ht' Hne Hr Hk. unfold node_view, node_chain. cbn [node_info node_next].
    rewrite chain_view_cons, base_unseen by done. rewrite chain_view_cons, (unseen_same t' t) by done. cbn.
    unfold override. cbn [info_entries]. destruct (entry_at old (Z.of_nat r)) as [y|] eqn:E.
    + rewrite Aold in E; [by rewrite Nat2Z.id in E | | by rewrite Nat2Z.id]. rewrite <- Ho. apply entry_at_is_Some. eauto.
    + assert (entry_at new (Z.of_nat r) = None) as ->; [|done]. apply entry_at_None. rewrite Hn, <- Ho. by apply entry_at_None.
  - intros tid r. rewrite <- Ho. split.
    + intros (i & ->%list_elem_of_singleton & <- & Hr). done.
    + intros [-> Hr]. eexists; split; [left | done].
Qed.
End Record.

(** * Ending a transaction *)

(** The other active transactions. *)
Definition others (A : list TransactionData) (t : TransactionData) : list TransactionData :=
  filter (λ t', transaction_id t' ≠ transaction_id t) A.

Lemma others_elem A t t' : t' ∈ others A t ↔ transaction_id t' ≠ transaction_id t ∧ t' ∈ A.
Proof. unfold others. by rewrite list_elem_of_filter. Qed.

Lemma others_ok A limit limit' t : active_ok A limit → limit ≤ limit' → limit' < TRANSACTION_ID_START - 1 → active_ok (others A t) limit'.
Proof.
  intros [H1 H2 H3 H4] Hl Hl'. split; [| | |done].
  - rewrite Forall_forall in *. intros t' [_ Ht']%others_elem. by apply H1.
  - intros t' [_ Ht']%others_elem. specialize (H2 t' Ht'). lia.
  - unfold others. clear -H3. induction A as [|a A IH]; [constructor|]. apply NoDup_cons in H3 as [Ha HA]. rewrite filter_cons.
    destruct (decide _); [|by apply IH]. cbn. constructor; [|by apply IH].
    intros (x & Hx & [_ Hin]%list_elem_of_filter)%list_elem_of_fmap. apply Ha. rewrite Hx. apply list_elem_of_fmap. eauto.
Qed.

(** A transaction that begins with timestamp [limit]. *)
Definition reader (g limit : Z) : TransactionData := mkTransaction g limit.

Section Ending.
Context {T : Type} (A : list TransactionData) (limit : Z) (t : TransactionData) (n : UpdateNodeData T).
Hypothesis HA : active_ok A limit.
Hypothesis Ht : t ∈ A.
Hypothesis Hn : chain_ok A limit n.
Hypothesis Hlimit : limit + 1 < TRANSACTION_ID_START - 1.

Lemma active_txn t' : t' ∈ A → txn_ok t'.
Proof. apply (proj1 (Forall_forall _ _) (ao_txn _ _ HA)). Qed.

(** The info of [t], if any, takes the commit id [limit]. *)
Definition commit_info (i : UpdateInfo T) : UpdateInfo T :=
  if decide (version_number i = transaction_id t) then set_version i limit else i.
Definition commit_node : UpdateNodeData T := mkNode (node_info n) (commit_info <$> node_next n).

Lemma commit_entries i : info_entries (commit_info i) = info_entries i.
Proof. unfold commit_info. by destruct (decide _). Qed.

Lemma commit_unseen t' i : t' ∈ A → transaction_id t' ≠ transaction_id t → unseen t' (commit_info i) = unseen t' i.
Proof.
  intros Ht' Hne. unfold commit_info. destruct (decide _) as [E|]; [|done]. rewrite (unseen_same t' t i) by (done || by apply active_txn).
  unfold unseen, use_old_version. cbn [version_number set_version]. pose proof (ao_start _ _ HA t' Ht'). destruct (active_txn t' Ht').
  pose proof (ao_limit _ _ HA). lia.
Qed.

(** The commit does not change what an active transaction reads. *)
Lemma commit_other t' r x : t' ∈ others A t → node_view t' commit_node r x = node_view t' n r x.
Proof.
  intros [Hne Ht']%others_elem. unfold node_view, node_chain, commit_node. cbn [node_info node_next]. rewrite !chain_view_cons.
  apply chain_view_fmap. intros i _. split; [apply commit_entries | by apply commit_unseen].
Qed.

Lemma commit_before j i : before A j i → before (others A t) (commit_info j) (commit_info i).
Proof.
  intros [H1 H2]. unfold before, disjoint_rows. rewrite !commit_entries. split; intros t2 [Hne Ht2]%others_elem Hv.
  - assert (version_number i = transaction_id t2) as Hvi.
    { unfold commit_info in Hv. destruct (decide _); [|done]. cbn in Hv. destruct (active_txn t2 Ht2). pose proof (ao_limit _ _ HA). lia. }
    destruct (H1 t2 Ht2 Hvi) as [Hs Hd]. split; [|done]. unfold commit_info. destruct (decide _); [|done]. cbn. by apply (ao_start _ _ HA).
  - assert (version_number j = transaction_id t2) as Hvj.
    { unfold commit_info in Hv. destruct (decide _); [|done]. cbn in Hv. destruct (active_txn t2 Ht2). pose proof (ao_limit _ _ HA). lia. }
    rewrite commit_unseen by done. by apply H2.
Qed.

Lemma commit_version i : i ∈ node_next n → version_number (commit_info i) < limit + 1 ∨
  ∃ t', t' ∈ others A t ∧ version_number (commit_info i) = transaction_id t'.
Proof.
  intros Hi. unfold commit_info. destruct (decide _) as [E|E]; [left; cbn; lia|].
  destruct (co_known _ _ _ Hn i Hi) as [H|(t' & Ht' & H)]; [left; lia|]. right. exists t'. split; [|done].
  apply others_elem. split; [congruence | done].
Qed.

Lemma commit_ok : chain_ok (others A t) (limit + 1) commit_node.
Proof.
  destruct Hn as [H1 H2 H3 H4 H5 H6 H7]. split; cbn [commit_node node_info node_next]; [done | done | | | | |].
  - rewrite Forall_fmap. apply (Forall_impl info_ok); [done|]. intros i Hi. unfold info_ok, compose. by rewrite commit_entries.
  - intros i r (j & -> & Hj)%list_elem_of_fmap. rewrite commit_entries. by apply H4.
  - rewrite <- list_fmap_compose. rewrite NoDup_alt in *. intros k k' v Hk Hk'.
    rewrite list_lookup_fmap in Hk, Hk'. destruct (node_next n !! k) as [i|] eqn:Ei, (node_next n !! k') as [j|] eqn:Ej; try done.
    cbn in Hk, Hk'. apply (H5 k k' (version_number i)); rewrite list_lookup_fmap, ?Ei, ?Ej; [done|]. cbn. f_equal.
    assert (version_number (commit_info i) = version_number (commit_info j)) as E by congruence.
    unfold commit_info in E. do 2 destruct (decide _); cbn in E; try congruence.
    + exfalso. destruct (H6 j) as [H|(t' & Ht' & H)]; [by eapply list_elem_of_lookup_2 | lia|].
      destruct (active_txn t' Ht'). pose proof (ao_limit _ _ HA). lia.
    + exfalso. destruct (H6 i) as [H|(t' & Ht' & H)]; [by eapply list_elem_of_lookup_2 | lia|].
      destruct (active_txn t' Ht'). pose proof (ao_limit _ _ HA). lia.
  - intros i (j & -> & Hj)%list_elem_of_fmap. by apply commit_version.
  - clear -H7 HA Ht Hlimit. induction H7 as [|i c Hs IH HF]; [constructor|]. cbn. constructor; [done|].
    rewrite Forall_fmap. apply (Forall_impl (before A i)); [done|]. intros j. by apply commit_before.
Qed.

(** A row the transaction wrote is not in any other info that a reader who
    begins later, or the transaction itself, does not see. *)
Lemma wrote_free i j r :
  i ∈ node_next n → version_number i = transaction_id t → Z.of_nat r ∈ (info_entries i).*1 →
  j ∈ node_next n → version_number j ≠ transaction_id t →
  (unseen t j = true ∨ ∃ t', t' ∈ A ∧ version_number j = transaction_id t') → free r j.
Proof.
  intros Hi Hv Hr Hj Hvj Hcase. apply entry_at_None.
  apply list_elem_of_split in Hi as (pre & post & E). pose proof (co_sorted _ _ _ Hn) as HS. rewrite E in HS, Hj.
  apply sorted_app in HS as (_ & HS & HB). apply StronglySorted_cons in HS as [HP _]. rewrite Forall_forall in HP.
  apply elem_of_app in Hj as [Hj|[->|Hj]%elem_of_cons]; [| done |].
  - destruct (proj1 (HB j i Hj ltac:(left)) t Ht Hv) as [_ Hd]. by apply Hd.
  - destruct (HP j Hj) as [B1 B2]. intros Hrj. destruct Hcase as [Hu|(t' & Ht' & Hv')].
    + by apply (B2 t Ht Hv Hu (Z.of_nat r)).
    + destruct (B1 t' Ht' Hv') as [_ Hd]. by apply (Hd (Z.of_nat r)).
Qed.

(** A reader that begins after the commit sees the rows the transaction wrote
    as the transaction saw them, and the others as they were. *)
Lemma commit_view g r x :
  TRANSACTION_ID_START ≤ g → (∀ t', t' ∈ A → transaction_id t' ≠ g) →
  (wrote n (transaction_id t) r → node_view (reader g (limit + 1)) commit_node r x = node_view t n r x) ∧
  (¬ wrote n (transaction_id t) r → node_view (reader g (limit + 1)) commit_node r x = node_view (reader g limit) n r x).
Proof.
  intros Hg Hfresh. pose proof (ao_limit _ _ HA) as Hl.
  assert (txn_ok (reader g (limit + 1))) as Hr1 by (split; cbn; lia).
  assert (txn_ok (reader g limit)) as Hr0 by (split; cbn; lia).
  assert (Hun : ∀ i, i ∈ node_next n → unseen (reader g (limit + 1)) (commit_info i) = true →
            version_number i ≠ transaction_id t ∧ ∃ t', t' ∈ A ∧ version_number i = transaction_id t').
  { intros i Hi Hu. unfold commit_info in Hu. destruct (decide _) as [E|E].
    - unfold unseen, use_old_version in Hu. cbn in Hu. lia.
    - split; [done|]. destruct (co_known _ _ _ Hn i Hi) as [H|H]; [|done]. unfold unseen, use_old_version in Hu. cbn in Hu. lia. }
  rewrite (node_view_eq (others A t) (limit + 1)) by (apply commit_ok || done).
  rewrite (node_view_eq A limit n (reader g limit)), (node_view_eq A limit n t) by (done || by apply active_txn).
  cbn [commit_node node_info node_next]. split; intros Hw.
  - destruct Hw as (i & Hi & Hv & Hr).
    rewrite chain_view_free.
    2:{ intros j (k & -> & Hk)%list_elem_of_fmap Hu. destruct (Hun k Hk Hu) as [Hne Ha]. unfold free. rewrite commit_entries.
        by apply (wrote_free i k r Hi Hv Hr Hk Hne); right. }
    rewrite chain_view_free; [done|]. intros j Hj Hu. apply (wrote_free i j r Hi Hv Hr Hj); [|by left].
    intros E. by rewrite unseen_own in Hu.
  - assert (∀ y, chain_view (reader g (limit + 1)) (commit_info <$> node_next n) r y = chain_view (reader g limit) (node_next n) r y) as H; [|apply H].
    clear Hr1 Hr0. assert (∀ i, i ∈ node_next n → version_number i = transaction_id t → free r i) as Hf.
    { intros i Hi Hv. apply entry_at_None. intros Hr. apply Hw. by exists i. }
    pose proof (co_known _ _ _ Hn) as Hk. clear Hun Hw. revert Hf Hk. generalize (node_next n). intros c.
    induction c as [|i c IH]; intros Hf Hk y; [done|]. cbn [fmap list_fmap]. rewrite !chain_view_cons, IH;
      [|intros; apply Hf; [by right | done] | intros; apply Hk; by right].
    f_equal. unfold commit_info. destruct (decide _) as [E|E].
    + unfold override. cbn [info_entries set_version]. rewrite (Hf i ltac:(left) E). by do 2 destruct (unseen _ _).
    + assert (unseen (reader g (limit + 1)) i = unseen (reader g limit) i) as ->; [|done].
      unfold unseen, use_old_version. cbn. destruct (Hk i ltac:(left)) as [H|(t' & Ht' & H)]; [lia|].
      destruct (active_txn t' Ht'). lia.
Qed.

(** ** Rolling back *)

Section Rollback.
Context (pre post : list (UpdateInfo T)) (u : UpdateInfo T) (base' : list (Z * T)).
Hypothesis Hchain : node_next n = pre ++ u :: post.
Hypothesis Hu : version_number u = transaction_id t.
Hypothesis Hbase' : entries_ok base' ∧ base'.*1 = (info_entries (node_info n)).*1.
Hypothesis Ab : ∀ r, entry_at base' r = match entry_at (info_entries u) r with Some x => Some x | None => entry_at (info_entries (node_info n)) r end.

Definition rolled_node : UpdateNodeData T := mkNode (set_entries (node_info n) base') (pre ++ post).

Lemma rolled_fresh i : i ∈ pre ++ post → version_number i ≠ transaction_id t.
Proof.
  intros Hi E. pose proof (co_unique _ _ _ Hn) as Hd. rewrite Hchain, fmap_app, fmap_cons in Hd.
  apply NoDup_app in Hd as (_ & Hd & Hd2). apply NoDup_cons in Hd2 as [Hd2 _].
  apply elem_of_app in Hi as [Hi|Hi].
  - apply (Hd (version_number i)); [apply list_elem_of_fmap; eauto|]. rewrite E, <- Hu. left.
  - apply Hd2. rewrite Hu, <- E. apply list_elem_of_fmap. eauto.
Qed.

Lemma rolled_in i : i ∈ pre ++ post → i ∈ node_next n.
Proof. rewrite Hchain. intros [Hi|Hi]%elem_of_app; apply elem_of_app; [by left | right; by right]. Qed.

(** The rollback takes the updates back and changes nothing else. *)
Lemma rolled_other t' r x :
  txn_ok t' → transaction_id t' ≠ transaction_id t → node_view t' rolled_node r x = node_view t' n r x.
Proof.
  intros Ht' Hne. unfold node_view, node_chain, rolled_node. cbn [node_info node_next]. rewrite Hchain, !chain_view_cons.
  rewrite (base_unseen t' (node_info n)), (base_unseen t' (set_entries _ _)) by (done || apply (co_version _ _ _ Hn)).
  rewrite !chain_view_app, chain_view_cons, (unseen_same t' t u) by (done || by apply active_txn). f_equal.
  unfold override. cbn [info_entries set_entries]. rewrite Ab. destruct (entry_at (info_entries u) (Z.of_nat r)) as [y|] eqn:E; [|done].
  apply chain_view_free. intros i Hi _. apply entry_at_None.
  pose proof (co_sorted _ _ _ Hn) as HS. rewrite Hchain in HS. apply sorted_app in HS as (_ & _ & HB).
  apply (proj2 (proj1 (HB i u Hi ltac:(left)) t Ht Hu)). apply entry_at_is_Some. eauto.
Qed.

Lemma before_others (j i : UpdateInfo T) : before A j i → before (others A t) j i.
Proof. intros [H1 H2]. split; intros t2 [_ Ht2]%others_elem; [by apply H1 | by apply H2]. Qed.

Lemma sorted_others (c : list (UpdateInfo T)) : StronglySorted (before A) c → StronglySorted (before (others A t)) c.
Proof.
  induction 1 as [|i c Hs IH HF]; constructor; [done|]. apply (Forall_impl (before A i)); [done|]. intros j. apply before_others.
Qed.

Lemma known_others i : i ∈ node_next n → version_number i ≠ transaction_id t →
  version_number i < limit ∨ ∃ t', t' ∈ others A t ∧ version_number i = transaction_id t'.
Proof.
  intros Hi Hne. destruct (co_known _ _ _ Hn i Hi) as [H|(t' & Ht' & H)]; [by left|]. right. exists t'.
  split; [|done]. apply others_elem. split; [congruence | done].
Qed.

Lemma rolled_ok : chain_ok (others A t) limit rolled_node.
Proof.
  destruct Hbase' as [Hb Hb']. split; cbn [rolled_node node_info node_next info_entries set_entries version_number].
  - apply Hn.
  - done.
  - apply Forall_forall. intros i Hi. by apply (proj1 (Forall_forall _ _) (co_infos _ _ _ Hn)), rolled_in.
  - intros i r Hi Hr. rewrite Hb'. by apply (co_rows _ _ _ Hn i); [apply rolled_in|].
  - pose proof (co_unique _ _ _ Hn) as Hd. rewrite Hchain, !fmap_app, fmap_cons in *. apply NoDup_app in Hd as (H1 & H2 & H3).
    apply NoDup_cons in H3 as [H3 H4]. apply NoDup_app. split_and!; [done | | done]. intros v Hv Hin. apply (H2 v Hv). by right.
  - intros i Hi. apply known_others; [by apply rolled_in | by apply rolled_fresh].
  - apply sorted_others. pose proof (co_sorted _ _ _ Hn) as HS. rewrite Hchain in HS. apply sorted_app in HS as (H1 & H2 & H3).
    apply StronglySorted_cons in H2 as [_ H2]. apply sorted_app. split_and!; [done | done|]. intros a c Ha Hc. apply H3; [done | by right].
Qed.
End Rollback.

(** A chain the transaction has no info in. *)
Lemma unrelated_ok : (∀ i, i ∈ node_next n → version_number i ≠ transaction_id t) → chain_ok (others A t) limit n.
Proof.
  intros Hne. destruct Hn as [H1 H2 H3 H4 H5 H6 H7]. split; try done.
  - intros i Hi. apply known_others; [done | by apply Hne].
  - by apply sorted_others.
Qed.
End Ending.
