(* ===== verification/UpdateSystem.v ===== *)
(** The operations of update segments: an update, whose rows are sorted first, the commit, rollback and
    cleanup of an undo buffer, what they do to every vector, and the reading of
    single rows and of ranges of committed rows. *)
From S2P Require Import Prelude Bits SelectionVector Types Stats FilterFacts ValidityMask ChunkInfo RowVersionManager VersionFacts UpdateSegment UpdateFacts UpdateLaws UpdateChain.
From S2P Require Import UpdateSteps.

(** * The rows of an update

    After [SortSelectionVector] they are sorted by row id, each id once, and no
    id is lost. *)

Lemma strictly_sorted_spec l : strictly_sorted l = true → StronglySorted Z.lt l.
Proof.
  intros H. apply Sorted_StronglySorted; [intros x y z; lia|].
  induction l as [|x l IH]; [constructor|]. destruct l as [|y l]; [by repeat constructor|]. cbn in H.
  apply andb_true_iff in H as [Hxy H]. constructor; [by apply IH|]. constructor. lia.
Qed.

(** Dropping the repeated ids of a sorted list. *)
Lemma drop_repeated_spec prev l :
  StronglySorted (λ a b : Z * Z, a.2 ≤ b.2) l → Forall (λ r, prev ≤ r.2) l →
  StronglySorted Z.lt (drop_repeated prev l).*2 ∧ Forall (λ r, prev < r.2) (drop_repeated prev l) ∧
  (∀ r, r ∈ drop_repeated prev l → r ∈ l) ∧ (∀ r, r ∈ l → r.2 = prev ∨ r.2 ∈ (drop_repeated prev l).*2).
Proof.
  revert prev; induction l as [|r l IH]; intros prev HS HF; cbn.
  - split_and!; [constructor | constructor | done | intros r Hr; inversion Hr].
  - apply StronglySorted_cons in HS as [Hr HS]. apply Forall_cons in HF as [Hp HF].
    destruct (IH r.2 HS Hr) as (I1 & I2 & I3 & I4). destruct (r.2 =? prev) eqn:E.
    + assert (r.2 = prev) as Erp by lia. rewrite Erp in *.
      split_and!; [done | done | intros; right; by apply I3|]. intros q [->|Hq]%elem_of_cons; [by left | by apply I4].
    + cbn. split_and!.
      * constructor; [done|]. rewrite Forall_fmap. done.
      * constructor; [lia|]. apply (Forall_impl _ _ _ I2). intros q Hq. lia.
      * intros q [->|Hq]%elem_of_cons; [left | right; by apply I3].
      * intros q [->|Hq]%elem_of_cons; right; [left|]. destruct (I4 q Hq) as [->|]; [left | by right].
Qed.

#[local] Instance row_le_trans : Transitive (λ a b : Z * Z, a.2 ≤ b.2).
Proof. intros a b c. lia. Qed.
#[local] Instance row_le_total : Total (λ a b : Z * Z, a.2 ≤ b.2).
Proof. intros a b. lia. Qed.

Lemma sort_rows_spec l : StronglySorted (λ a b : Z * Z, a.2 ≤ b.2) (sort_rows l) ∧ sort_rows l ≡ₚ l.
Proof.
  split; [|apply merge_sort_Permutation]. apply (StronglySorted_merge_sort _).
Qed.

Lemma length_drop_repeated prev l : (length (drop_repeated prev l) ≤ length l)%nat.
Proof. revert prev; induction l as [|r l IH]; intros prev; cbn; [done|]. destruct (r.2 =? prev); cbn; specialize (IH r.2); lia. Qed.

(** The unique rows of the sorted rows. *)
Definition unique_rows (l : list (Z * Z)) : list (Z * Z) := match l with [] => [] | r :: l => r :: drop_repeated r.2 l end.

Lemma unique_rows_spec l :
  StronglySorted (λ a b : Z * Z, a.2 ≤ b.2) l →
  StronglySorted Z.lt (unique_rows l).*2 ∧ (∀ r, r ∈ unique_rows l → r ∈ l) ∧ (∀ r, r ∈ l → r.2 ∈ (unique_rows l).*2) ∧
  (length (unique_rows l) ≤ length l)%nat.
Proof.
  destruct l as [|r l]; cbn.
  - intros _. split_and!; [constructor | done | intros r Hr; inversion Hr | done].
  - intros [Hr HS]%StronglySorted_cons. destruct (drop_repeated_spec r.2 l HS Hr) as (I1 & I2 & I3 & I4). split_and!.
    + constructor; [done|]. by rewrite Forall_fmap.
    + intros q [->|Hq]%elem_of_cons; [left | right; by apply I3].
    + intros q [->|Hq]%elem_of_cons; [left|]. destruct (I4 q Hq) as [->|]; [left | by right].
    + apply le_n_S, length_drop_repeated.
Qed.

(** Reading a selection position by position. *)
Lemma mapR_selection {A} (f : Z → result A) (g : Z → A) sel n L :
  selection sel n L → (∀ x, x ∈ L → f x = Ok (g x)) → mapR (λ i, idx ← get_index sel i; f idx) (seq 0 n) = Ok (g <$> L).
Proof.
  intros H Hf. pose proof (selection_length _ _ _ H) as Hn. destruct H as [Hr HL].
  assert (∀ k L', (k + length L' = n)%nat → (∀ i, L' !! i = L !! (k + i)%nat) →
    mapR (λ i, idx ← get_index sel i; f idx) (seq k (length L')) = Ok (g <$> L')) as Hk.
  { intros k L'. revert k; induction L' as [|x L' IH]; intros k Hlen Hlook; [done|].
    cbn [length seq mapR fmap list_fmap] in *. destruct (get_index_sel_list sel n k Hr ltac:(lia)) as (z & -> & Hl). cbn [mbind result_bind].
    specialize (Hlook O) as H0. rewrite Nat.add_0_r, <- HL, Hl in H0. injection H0 as ->.
    rewrite Hf by (rewrite <- HL; by eapply list_elem_of_lookup_2). cbn [mbind result_bind].
    rewrite IH; [done | lia|]. intros i. specialize (Hlook (S i)). cbn in Hlook. by replace (S k + i)%nat with (k + S i)%nat by lia. }
  rewrite <- Hn. apply (Hk O); [lia | done].
Qed.

(** The rows of an update, as pairs of an index into the update and a row id. *)
Record sorted_rows (ids : list Z) (L : list nat) (rows : list (nat * Z)) : Prop := {
  sr_sorted : StronglySorted Z.lt rows.*2;
  sr_rows : ∀ i id, (i, id) ∈ rows → i ∈ L ∧ ids !! i = Some id;
  sr_all : ∀ i id, i ∈ L → ids !! i = Some id → id ∈ rows.*2;
}.

Lemma SortSelectionVector_ok ids sel L :
  (∀ i, i ∈ L → (i < length ids)%nat ∧ Z.of_nat i < 2 ^ 32) → selection sel (length L) (Z.of_nat <$> L) →
  ∃ sel' rows, SortSelectionVector sel (length L) ids = Ok (sel', length rows) ∧
    selected_ids ids sel' (length rows) = Ok rows ∧ selection sel' (length rows) (Z.of_nat <$> rows.*1) ∧ sorted_rows ids L rows.
Proof.
  intros HL Hsel. unfold SortSelectionVector.
  set (id_of z := default 0 (ids !! Z.to_nat z)).
  assert (Hid : ∀ i, i ∈ L → ids !! i = Some (id_of (Z.of_nat i))).
  { intros i Hi. destruct (HL i Hi) as [Hlt _]. unfold id_of. rewrite Nat2Z.id.
    destruct (lookup_lt_is_Some_2 ids i Hlt) as [id ->]. done. }
  rewrite (mapR_selection (λ idx, id ← vget ids (Z.to_nat idx); Ok (idx, id)) (λ z, (z, id_of z)) sel _ (Z.of_nat <$> L)); [|done|].
  2:{ intros z (i & -> & Hi)%list_elem_of_fmap. rewrite Nat2Z.id, (vget_lookup _ _ _ (Hid i Hi)). done. }
  cbn [mbind result_bind]. set (pairs := (λ z, (z, id_of z)) <$> (Z.of_nat <$> L)).
  assert (Hpairs : ∀ z id, (z, id) ∈ pairs → ∃ i, z = Z.of_nat i ∧ i ∈ L ∧ ids !! i = Some id).
  { intros z id (z' & [= -> ->] & (i & -> & Hi)%list_elem_of_fmap)%list_elem_of_fmap. exists i. split_and!; [done | done | by apply Hid]. }
  assert (Hall : ∀ i id, i ∈ L → ids !! i = Some id → (Z.of_nat i, id) ∈ pairs).
  { intros i id Hi Hl. apply list_elem_of_fmap. exists (Z.of_nat i). rewrite (Hid i Hi) in Hl. injection Hl as <-. split; [done|].
    apply list_elem_of_fmap. eauto. }
  assert (Hconv : ∀ l, (∀ r, r ∈ l → r ∈ pairs) → StronglySorted Z.lt l.*2 → (∀ r, r ∈ pairs → r.2 ∈ l.*2) →
    ∃ rows : list (nat * Z), l.*1 = Z.of_nat <$> rows.*1 ∧ length rows = length l ∧ sorted_rows ids L rows ∧
      (∀ sel', selection sel' (length l) l.*1 → selected_ids ids sel' (length l) = Ok rows)).
  { intros l Hl Hs Hc. exists ((λ r : Z * Z, (Z.to_nat r.1, r.2)) <$> l).
    assert (El : l.*1 = Z.of_nat <$> ((λ r : Z * Z, (Z.to_nat r.1, r.2)) <$> l).*1).
    { rewrite <- !list_fmap_compose. apply list_fmap_ext. intros k [z id] Hk%list_elem_of_lookup_2. cbn.
      destruct (Hpairs z id (Hl _ Hk)) as (i & -> & _). by rewrite Nat2Z.id. }
    assert (E2 : ((λ r : Z * Z, (Z.to_nat r.1, r.2)) <$> l).*2 = l.*2) by (rewrite <- list_fmap_compose; by apply list_fmap_ext).
    split_and!; [done | apply length_fmap | |].
    - split.
      + by rewrite E2.
      + intros i id ([z id'] & [= -> ->] & Hin)%list_elem_of_fmap. destruct (Hpairs z id' (Hl _ Hin)) as (j & -> & Hj). by rewrite Nat2Z.id.
      + intros i id Hi Hlk. specialize (Hc _ (Hall i id Hi Hlk)). cbn in Hc. by rewrite E2.
    - intros sel' Hsel'. unfold selected_ids.
      rewrite (mapR_selection (λ idx, id ← vget ids (Z.to_nat idx); Ok (Z.to_nat idx, id)) (λ z, (Z.to_nat z, id_of z)) sel' _ l.*1); [|done|].
      + f_equal. rewrite <- list_fmap_compose. apply list_fmap_ext. intros k [z id] Hk%list_elem_of_lookup_2. cbn.
        destruct (Hpairs z id (Hl _ Hk)) as (i & -> & Hi & Hlk). rewrite (Hid i Hi) in Hlk. by injection Hlk as ->.
      + intros z ([z' id] & -> & Hin)%list_elem_of_fmap. cbn. destruct (Hpairs z' id (Hl _ Hin)) as (i & -> & Hi & Hlk).
        rewrite Nat2Z.id, (vget_lookup _ _ _ Hlk). cbn. rewrite (Hid i Hi) in Hlk. by injection Hlk as ->. }
  destruct (strictly_sorted pairs.*2) eqn:E.
  - destruct (Hconv pairs) as (rows & H1 & H2 & H3 & H4); [done | by apply strictly_sorted_spec | intros r Hr; apply list_elem_of_fmap; eauto|].
    assert (pairs.*1 = Z.of_nat <$> L) as Ep by (unfold pairs; rewrite <- !list_fmap_compose; done).
    assert (length rows = length L) as Hlen by (rewrite H2; unfold pairs; by rewrite !length_fmap).
    exists sel, rows. rewrite Hlen, <- H1, Ep. split_and!; [done | | done | done].
    rewrite <- Hlen, H2. apply H4. by rewrite Ep, <- H2, Hlen.
  - destruct (sort_rows_spec pairs) as [S1 S2]. destruct (unique_rows_spec _ S1) as (U1 & U2 & U3 & U4).
    fold (unique_rows (sort_rows pairs)). set (u := unique_rows (sort_rows pairs)) in *.
    destruct (Hconv u) as (rows & H1 & H2 & H3 & H4); [intros r Hr; rewrite <- S2; by apply U2 | done | intros r Hr; apply U3; by rewrite S2|].
    set (sel' := mkSel (Some (wrapu 32 <$> (u ++ drop (length u) (sort_rows pairs)).*1))).
    assert (selection sel' (length u) u.*1) as Hs'.
    { split; cbn.
      - rewrite !length_fmap, length_app. lia.
      - rewrite <- !fmap_take, take_app_length. rewrite H1. rewrite <- list_fmap_compose. apply list_fmap_ext.
        intros k i Hi%list_elem_of_lookup_2. cbn. apply list_elem_of_fmap in Hi as ([i' id] & -> & Hin). cbn.
        destruct (sr_rows _ _ _ H3 _ _ Hin) as [Hi' _]. destruct (HL i' Hi') as [_ ?]. apply wrapu_small. lia. }
    exists sel', rows. rewrite H2, <- H1. split_and!; [done | by apply H4 | done | done].
Qed.

#[local] Opaque ROW_GROUP_VECTOR_COUNT.

Section Segment.
Context {T : Type}.
Implicit Types (us : UpdateSegment T) (n : UpdateNodeData T).

(** * The chains of a segment *)

Definition node_at us (v : nat) : option (UpdateNodeData T) :=
  match us_root us with None => None | Some l => match l !! v with Some o => o | None => None end end.

Definition seg_shape us : Prop := match us_root us with None => True | Some l => length l = ROW_GROUP_VECTOR_COUNT end.

Lemma vector_node_ok us v : seg_shape us → (v < ROW_GROUP_VECTOR_COUNT)%nat → vector_node us v = Ok (node_at us v).
Proof.
  unfold seg_shape, vector_node, node_at. destruct (us_root us) as [l|]; [|done]. intros Hl Hv.
  destruct (lookup_lt_is_Some_2 l v) as [o Ho]; [lia|]. rewrite Ho. by apply vget_lookup.
Qed.

Lemma node_at_lt us v n : seg_shape us → node_at us v = Some n → (v < ROW_GROUP_VECTOR_COUNT)%nat.
Proof.
  unfold seg_shape, node_at. destruct (us_root us) as [l|]; [|done]. intros Hl H. destruct (l !! v) eqn:E; [|done].
  apply lookup_lt_Some in E. lia.
Qed.

Lemma set_node_ok us v n :
  seg_shape us → is_Some (us_root us) → (v < ROW_GROUP_VECTOR_COUNT)%nat →
  seg_shape (set_node us v n) ∧ us_stats (set_node us v n) = us_stats us ∧ us_start (set_node us v n) = us_start us ∧
  ∀ v', node_at (set_node us v n) v' = if decide (v' = v) then Some n else node_at us v'.
Proof.
  unfold seg_shape, set_node, node_at. intros Hl [l E] Hv. rewrite E in *. cbn. split_and!; [by rewrite length_insert | done | done|].
  intros v'. destruct (decide (v' = v)) as [->|Hne]; [by rewrite list_lookup_insert_eq by lia | by rewrite list_lookup_insert_ne].
Qed.

Lemma node_at_root us v n : node_at us v = Some n → is_Some (us_root us).
Proof. unfold node_at. by destruct (us_root us). Qed.

(** The chains satisfy the invariant, and every info has its own address. *)
Record seg_ok (A : list TransactionData) (limit : Z) (next : nat) us : Prop := {
  sg_shape : seg_shape us;
  sg_chain : ∀ v n, node_at us v = Some n → chain_ok A limit n;
  sg_unique : ∀ v n, node_at us v = Some n → NoDup (stamps n).*1;
  sg_next : ∀ v n a, node_at us v = Some n → a ∈ (stamps n).*1 → (a < next)%nat;
}.

(** What a transaction sees of a row, and whether it changed it. *)
Definition row_view us (t : TransactionData) (v r : nat) (x : option T) : option T :=
  match node_at us v with None => x | Some n => node_view t n r x end.
Definition row_wrote us (tid : Z) (v r : nat) : Prop := match node_at us v with None => False | Some n => wrote n tid r end.

(** The stamps of the infos of transaction [tid] in a vector. *)
Definition own_stamps us (tid : Z) (v : nat) : list (nat * Z) :=
  match node_at us v with None => [] | Some n => filter (λ s, s.2 = tid) (stamps n) end.
End Segment.

(** * Updates *)

Section Update.
Context {T : Type} (F : UpdateFunctions T) {L : UpdateLaws F}.
Context (A : list TransactionData) (limit : Z) (next : nat) (us : UpdateSegment T) (t : TransactionData).
Context (update base : FlatVector T) (ids : list Z) (count v : nat).

(** The first row of the vector. *)
Definition vector_offset : Z := us_start us + Z.of_nat v * Z.of_nat SVS.

(** The segment lies below [2^63]. *)
Definition start_ok (start : Z) : Prop := 0 ≤ start ∧ start + Z.of_nat (ROW_GROUP_VECTOR_COUNT * SVS) < 2 ^ 63.

Record update_fits : Prop := {
  uf_vector : (v < ROW_GROUP_VECTOR_COUNT)%nat;
  uf_update : view_ok update;
  uf_base : view_ok base;
  uf_count : (count ≤ SVS)%nat ∧ (count ≤ length ids)%nat;
  uf_ids : ∀ i id, (i < count)%nat → ids !! i = Some id → vector_offset ≤ id < vector_offset + Z.of_nat SVS;
  uf_elems : ∀ i x, i ∈ written update count → view update i = Some x → elem_ok x;
}.

Hypothesis HA : active_ok A limit.
Hypothesis Ht : t ∈ A.
Hypothesis Hus : seg_ok A limit next us.
Hypothesis Hstart : start_ok (us_start us).
Hypothesis Hstats : stats_ok (us_stats us).
Hypothesis Hfits : update_fits.

Lemma vector_offset_ok : 0 ≤ vector_offset ∧ vector_offset + Z.of_nat SVS < 2 ^ 63.
Proof.
  pose proof (uf_vector Hfits). destruct Hstart as [H1 H2]. unfold vector_offset. split; [lia|].
  assert ((v + 1) * SVS ≤ ROW_GROUP_VECTOR_COUNT * SVS)%nat by (apply Nat.mul_le_mono_r; lia). lia.
Qed.

Lemma update_rows_ok rows :
  sorted_rows ids (written update count) rows →
  entries_ok (offsets vector_offset rows) ∧ (∀ row, row ∈ rows → (row.1 < SVS)%nat).
Proof.
  intros [H1 H2 H3]. split.
  - unfold entries_ok, offsets. rewrite <- list_fmap_compose. split.
    + assert ((fst ∘ (λ r : nat * Z, (r.2 - vector_offset, r.1))) <$> rows = (λ z, z - vector_offset) <$> rows.*2) as ->
        by (rewrite <- list_fmap_compose; by apply list_fmap_ext).
      clear -H1. induction H1 as [|z l Hs IH HF]; [constructor|]. cbn. constructor; [done|]. rewrite Forall_fmap.
      apply (Forall_impl _ _ _ HF). intros y Hy. cbn. lia.
    + rewrite Forall_fmap. apply Forall_forall. intros [i id] Hin. cbn. destruct (H2 i id Hin) as [Hw Hl].
      destruct (uf_ids Hfits i id) as [? ?]; [by apply written_below in Hw | done | lia].
  - intros [i id] Hin. cbn. destruct (H2 i id Hin) as [Hw _]. apply written_below in Hw. pose proof (uf_count Hfits). lia.
Qed.

Lemma vector_of_first id : vector_offset ≤ id < vector_offset + Z.of_nat SVS →
  Z.to_nat (wrapu 64 (id - us_start us) / Z.of_nat SVS) = v ∧
  wrapu 64 (us_start us + Z.of_nat (Z.to_nat (wrapu 64 (id - us_start us) / Z.of_nat SVS)) * Z.of_nat SVS) = vector_offset.
Proof.
  intros Hid. pose proof vector_offset_ok as [H1 H2]. pose proof vector_size_pos. unfold vector_offset in *. destruct Hstart as [? _].
  rewrite (wrapu_small 64) by lia.
  assert ((id - us_start us) / Z.of_nat SVS = Z.of_nat v) as -> by (symmetry; apply (Z.div_unique _ _ _ (id - us_start us - Z.of_nat v * Z.of_nat SVS)); lia).
  rewrite Nat2Z.id. split; [done|]. apply wrapu_small. lia.
Qed.

(** What a successful update does. *)
Record update_done (us' : UpdateSegment T) (address : nat) (rows : list (nat * Z)) : Prop := {
  ud_rows : sorted_rows ids (written update count) rows;
  ud_ok : seg_ok A limit (S next) us';
  ud_start : us_start us' = us_start us;
  ud_stats : stats_ok (us_stats us');
  ud_frame : ∀ v', v' ≠ v → node_at us' v' = node_at us v';
  ud_node : is_Some (node_at us v) → is_Some (node_at us' v);
  ud_self : ∀ r x, row_view us' t v r x =
    match entry_at (offsets vector_offset rows) (Z.of_nat r) with Some i => view update i | None => row_view us t v r x end;
  ud_other : ∀ t' r, txn_ok t' → transaction_id t' ≠ transaction_id t → (r < SVS)%nat → known base r →
    row_view us' t' v r (view base r) = row_view us t' v r (view base r);
  ud_wrote : ∀ tid r, row_wrote us' tid v r ↔ row_wrote us tid v r ∨ (tid = transaction_id t ∧ Z.of_nat r ∈ (offsets vector_offset rows).*1);
  ud_stamps : (∀ tid, tid ≠ transaction_id t → own_stamps us' tid v = own_stamps us tid v) ∧
    own_stamps us' (transaction_id t) v =
      (if bool_decide (own_stamps us (transaction_id t) v = []) && negb (bool_decide (rows = [])) then [(address, transaction_id t)]
       else own_stamps us (transaction_id t) v) ∧
    (address ∈ (info_address <$> from_option node_next [] (node_at us' v)) ↔
       own_stamps us (transaction_id t) v = [] ∧ rows ≠ []);
}.

(** Another transaction changed one of the rows after this one began. *)
Definition update_conflict (rows : list (nat * Z)) : Prop :=
  ∃ n i r, node_at us v = Some n ∧ i ∈ node_next n ∧ unseen t i = true ∧
    r ∈ (offsets vector_offset rows).*1 ∧ r ∈ (info_entries i).*1.

(** The statistics are replaced and the root array is allocated. *)
Definition prepared (s : BaseStatistics) : UpdateSegment T :=
  mkSegment (us_start us) s (Some (default (replicate ROW_GROUP_VECTOR_COUNT None) (us_root us))).

Lemma prepared_ok s : seg_shape (prepared s) ∧ ∀ v', node_at (prepared s) v' = node_at us v'.
Proof.
  pose proof (sg_shape _ _ _ _ Hus) as Hs. unfold seg_shape, prepared, node_at in *. cbn. destruct (us_root us) as [l|]; [done|]. cbn.
  rewrite length_replicate. split; [done|]. intros v'. destruct (replicate _ _ !! v') eqn:E; [|done].
  by apply lookup_replicate in E as [-> _].
Qed.

Lemma infos_at : vget (default (replicate ROW_GROUP_VECTOR_COUNT None) (us_root us)) v = Ok (node_at us v).
Proof.
  destruct (prepared_ok (us_stats us)) as [H1 H2]. rewrite <- (H2 v). apply (vector_node_ok (prepared (us_stats us))); [done | apply Hfits].
Qed.

(** Segments with the same chains. *)
Lemma same_chains_ok us' next' : seg_shape us' → (∀ v', node_at us' v' = node_at us v') → (next ≤ next')%nat → seg_ok A limit next' us'.
Proof.
  intros Hs Hn Hle. destruct Hus as [_ H2 H3 H4]. split; [done | | |]; intros v' n; rewrite Hn; eauto.
  intros a Hv Ha. specialize (H4 v' n a Hv Ha). lia.
Qed.

Lemma filter_stamps_nil n tid : filter (λ s : nat * Z, s.2 = tid) (stamps (T := T) n) = [] ↔ has_own n tid = false.
Proof.
  unfold has_own. rewrite bool_decide_eq_false. split.
  - intros H (s & -> & Hs)%list_elem_of_fmap. assert (s ∈ filter (λ x : nat * Z, x.2 = s.2) (stamps n)) as Hin by (by apply list_elem_of_filter).
    rewrite H in Hin. inversion Hin.
  - intros H. apply filter_none. intros s Hs E. apply H. rewrite <- E. apply list_elem_of_fmap. eauto.
Qed.

(** Storing the chain that [update_chain] or [create_chain] returned. *)
Lemma store_chain_ok s n' rows (own : bool) :
  stats_ok s → sorted_rows ids (written update count) rows → rows ≠ [] → chain_ok A limit n' →
  own = match node_at us v with Some n => has_own n (transaction_id t) | None => false end →
  stamps n' = (if own then [] else [(next, transaction_id t)]) ++ match node_at us v with Some n => stamps n | None => [] end →
  (∀ r x, node_view t n' r x =
    match entry_at (offsets vector_offset rows) (Z.of_nat r) with Some i => view update i | None => row_view us t v r x end) →
  (∀ t' r, txn_ok t' → transaction_id t' ≠ transaction_id t → (r < SVS)%nat → known base r →
    node_view t' n' r (view base r) = row_view us t' v r (view base r)) →
  (∀ tid r, wrote n' tid r ↔ row_wrote us tid v r ∨ (tid = transaction_id t ∧ Z.of_nat r ∈ (offsets vector_offset rows).*1)) →
  update_done (set_node (prepared s) v n') next rows.
Proof.
  intros Hs Hsr Hne Hc Hown Hst Hself Hother Hw. destruct (prepared_ok s) as [P1 P2].
  destruct (set_node_ok (prepared s) v n') as (S1 & S2 & S3 & S4); [done | by eexists | apply Hfits|].
  assert (Hsub : ∀ x, x ∈ match node_at us v with Some n => stamps n | None => [] end → (x.1 < next)%nat).
  { destruct (node_at us v) as [n|] eqn:E; [|intros x Hx; inversion Hx]. intros x Hx. apply (sg_next _ _ _ _ Hus v n); [done|].
    apply list_elem_of_fmap. eauto. }
  assert (Hat : node_at (set_node (prepared s) v n') v = Some n') by (rewrite S4; by rewrite decide_True).
  assert (Hfr : ∀ v', v' ≠ v → node_at (set_node (prepared s) v n') v' = node_at us v') by (intros v' Hv'; by rewrite S4, decide_False).
  assert (Hos : own_stamps us (transaction_id t) v = [] ↔ own = false).
  { unfold own_stamps. rewrite Hown. destruct (node_at us v); [apply filter_stamps_nil | done]. }
  split; [done | | by rewrite S3 | by rewrite S2 | done | by rewrite Hat | | | |].
  - split; [done | | |].
    + intros v' n. rewrite S4. destruct (decide (v' = v)) as [->|]; [by intros [= <-]|]. rewrite P2. apply Hus.
    + intros v' n. rewrite S4. destruct (decide (v' = v)) as [->|]; [|rewrite P2; apply Hus]. intros [= <-]. rewrite Hst.
      assert (NoDup (match node_at us v with Some n => stamps n | None => [] end).*1) as Hd.
      { destruct (node_at us v) eqn:E; [by eapply (sg_unique _ _ _ _ Hus) | constructor]. }
      destruct own; [done|]. cbn. constructor; [|done]. intros (x & Hx & Hin)%list_elem_of_fmap. specialize (Hsub x Hin). lia.
    + intros v' n a. rewrite S4. destruct (decide (v' = v)) as [->|].
      * intros [= <-]. rewrite Hst, fmap_app. intros [Ha|(x & -> & Hx)%list_elem_of_fmap]%elem_of_app; [|specialize (Hsub x Hx); lia].
        destruct own; [inversion Ha|]. apply list_elem_of_singleton in Ha as ->. cbn. lia.
      * rewrite P2. intros Hn Ha. pose proof (sg_next _ _ _ _ Hus v' n a Hn Ha). lia.
  - intros r x. unfold row_view at 1. rewrite Hat. apply Hself.
  - intros t' r H1 H2 H3 H4. unfold row_view at 1. rewrite Hat. by apply Hother.
  - intros tid r. unfold row_wrote at 1. rewrite Hat. apply Hw.
  - unfold own_stamps at 1 3. rewrite Hat. cbn [from_option]. rewrite Hst. split_and!.
    + intros tid Htid. rewrite filter_app. unfold own_stamps. rewrite (filter_none _ (if own then _ else _)).
      * by destruct (node_at us v).
      * destruct own; intros x Hx; [inversion Hx|]. apply list_elem_of_singleton in Hx as ->. cbn. congruence.
    + rewrite filter_app. rewrite (bool_decide_false (rows = [])) by done. rewrite andb_true_r. destruct own.
      * rewrite bool_decide_false by (intros E; by apply Hos in E). unfold own_stamps. by destruct (node_at us v).
      * rewrite bool_decide_true by (by apply Hos). rewrite filter_cons_True by done. cbn. f_equal.
        pose proof (proj2 Hos eq_refl) as E. unfold own_stamps in E. by destruct (node_at us v).
    + assert (info_address <$> node_next n' = (stamps n').*1) as -> by (unfold stamps; by rewrite <- list_fmap_compose).
      rewrite Hst, fmap_app, elem_of_app. split.
      * intros [Ha|(x & Hx & Hin)%list_elem_of_fmap]; [|specialize (Hsub x Hin); lia]. destruct own; [inversion Ha|].
        split; [by apply Hos | done].
      * intros [E _]. apply Hos in E as ->. left. left.
Qed.

Lemma conflict_decision n rows :
  node_at us v = Some n → rows ≠ [] → entries_ok (offsets vector_offset rows) →
  (CheckForConflicts (node_next n) t rows vector_offset = Ok tt ∧ ¬ update_conflict rows) ∨
  (CheckForConflicts (node_next n) t rows vector_offset = Throw (TransactionException "Conflict on update!") ∧ update_conflict rows).
Proof.
  intros Hn Hr Ho. pose proof (sg_chain _ _ _ _ Hus v n Hn) as Hc.
  destruct (decide (Exists (λ i, unseen t i = true ∧ Exists (λ r, r ∈ (info_entries i).*1) (offsets vector_offset rows).*1) (node_next n)))
    as [(i & Hi & Hu & (r & Hr1 & Hr2)%Exists_exists)%Exists_exists|Hno].
  - right. split; [|by exists n, i, r]. eapply (CheckForConflicts_inv _ _ _ _ i r); try done. apply Hc.
  - left. assert (∀ i r, i ∈ node_next n → unseen t i = true → r ∈ (offsets vector_offset rows).*1 → r ∉ (info_entries i).*1) as Hf.
    { intros i r Hi Hu H1 H2. apply Hno, Exists_exists. exists i. split; [done|]. split; [done|]. apply Exists_exists. eauto. }
    split; [apply CheckForConflicts_ok; [done | apply Hc | done]|].
    intros (n2 & i & r & Hn2 & Hi & Hu & H1 & H2). rewrite Hn in Hn2. injection Hn2 as <-. by apply (Hf i r).
Qed.

(** ** The outcome of an update *)

Lemma written_rows_index i : i ∈ written update count → (i < length ids)%nat ∧ Z.of_nat i < 2 ^ 32.
Proof. intros Hi%written_below. pose proof (uf_count Hfits). pose proof vector_size_u32. lia. Qed.

Lemma rows_nonempty rows : sorted_rows ids (written update count) rows → written update count ≠ [] → rows ≠ [].
Proof.
  intros [_ _ Hall] Hw ->. destruct (written update count) as [|i l] eqn:E; [done|].
  destruct (written_rows_index i) as [Hi _]; [rewrite E; left|]. destruct (lookup_lt_is_Some_2 ids i Hi) as [id Hid].
  specialize (Hall i id ltac:(left) Hid). inversion Hall.
Qed.

Definition update_fails (us' : UpdateSegment T) : Prop :=
  (∀ v', node_at us' v' = node_at us v') ∧ seg_ok A limit (S next) us' ∧ us_start us' = us_start us ∧ stats_ok (us_stats us').

Lemma nothing_written us' : written update count = [] → update_fails us' → update_done us' next [].
Proof.
  intros Hw (H1 & H2 & H3 & H4). split; try done.
  - split; [constructor | intros i id Hin; inversion Hin | rewrite Hw; intros i id Hi; inversion Hi].
  - by rewrite H1.
  - intros r x. unfold row_view. by rewrite H1.
  - intros t' r _ _ _ _. unfold row_view. by rewrite H1.
  - intros tid r. unfold row_wrote. rewrite H1. split; [by left|]. intros [?|[_ Hr]]; [done | inversion Hr].
  - unfold own_stamps. rewrite !H1. split_and!; [done | by rewrite andb_false_r |].
    split; [|intros [_ ?]; done]. destruct (node_at us v) as [n|] eqn:E; [|intros Hin; inversion Hin]. cbn. intros (i & Hi & Hin)%list_elem_of_fmap.
    pose proof (sg_next _ _ _ _ Hus v n next E). enough (next < next)%nat by lia. apply H. unfold stamps. rewrite <- list_fmap_compose.
    apply list_elem_of_fmap. by exists i.
Qed.

(** The updated rows go to the vector of the first id; the update succeeds
    unless another transaction changed one of them since this one began. *)
Lemma UpdateSegment_Update_ok column :
  ∃ us' rows r, UpdateSegment_Update F us t true next column update ids count base = (us', r) ∧
    ((r = Ok tt ∧ update_done us' next rows ∧ ¬ update_conflict rows) ∨
     (r = Throw (TransactionException "Conflict on update!") ∧ sorted_rows ids (written update count) rows ∧
      update_conflict rows ∧ update_fails us')).
Proof.
  unfold UpdateSegment_Update.
  destruct (statistics_law (us_stats us) update count) as (s' & sel & -> & Hs' & Hsel); [done | apply Hfits | apply Hfits | apply Hfits|].
  destruct (length (written update count) =? 0)%nat eqn:E0.
  { assert (written update count = []) as Hw by (by apply Nat.eqb_eq, nil_length_inv in E0).
    eexists _, [], (Ok tt). split; [done|]. left. split; [done|]. split.
    - apply nothing_written; [done|]. split_and!; [done | | done | done]. apply same_chains_ok; [apply Hus | done | lia].
    - intros (n & i & r & _ & _ & _ & Hr & _). inversion Hr. }
  assert (written update count ≠ []) as Hw by (intros E; by rewrite E in E0).
  destruct (SortSelectionVector_ok ids sel (written update count) written_rows_index Hsel) as (sel' & rows & -> & Hids & Hsel' & Hsr).
  cbn [mbind result_bind]. rewrite Hids. cbn [mbind result_bind us_root us_start us_stats].
  pose proof (rows_nonempty rows Hsr Hw) as Hne. destruct (update_rows_ok rows Hsr) as [Ho Hi].
  fold (prepared s').
  destruct rows as [|[i0 id0] rows0] eqn:Erows; [done|]. rewrite <- Erows in *. 
  assert (default 0 (snd <$> head rows) = id0) as -> by (by rewrite Erows).
  destruct (vector_of_first id0) as [Ev Eo].
  { destruct (sr_rows _ _ _ Hsr i0 id0) as [Hin Hl]; [rewrite Erows; left|]. apply (uf_ids Hfits i0); [by apply written_below in Hin | done]. }
  rewrite Eo, Ev, infos_at. cbn [mbind result_bind].
  destruct (node_at us v) as [n|] eqn:En.
  - destruct (conflict_decision n rows En Hne Ho) as [[Hc Hnc]|[Hc Hcf]].
    + destruct (update_chain_ok F A limit t rows vector_offset update base HA Ht Hne Ho Hi (uf_update Hfits) (uf_base Hfits) n next column v
        (sg_chain _ _ _ _ Hus v n En) Hc) as (n' & -> & Hn' & [Hself Hother] & Hwr & Hst).
      eexists _, rows, _. split; [done|]. left. split; [done|]. split; [|done].
      apply (store_chain_ok s' n' rows (has_own n (transaction_id t))); try done.
      * by rewrite En.
      * rewrite En, Hst. by destruct (has_own n _).
      * intros r x. rewrite Hself. unfold row_view. by rewrite En.
      * intros t' r H1 H2 H3 _. rewrite (Hother t' r H1 H2 H3 I). unfold row_view. by rewrite En.
      * intros tid r. rewrite Hwr. unfold row_wrote. by rewrite En.
    + unfold update_chain. rewrite Hc. cbn [mbind result_bind]. eexists _, rows, _. split; [done|]. right. split_and!; [done | done | done |].
      destruct (prepared_ok s') as [P1 P2]. split_and!; [done | | done | done]. apply same_chains_ok; [done | done | lia].
  - destruct (create_chain_ok F A limit t rows vector_offset update base HA Ht Hne Ho Hi (uf_update Hfits) (uf_base Hfits) sel' next column v)
      as (n' & -> & Hn' & [Hself Hother] & Hwr & Hst); [apply vector_offset_ok | done|].
    eexists _, rows, _. split; [done|]. left. split; [done|]. split.
    + apply (store_chain_ok s' n' rows false); try done.
      * by rewrite En.
      * by rewrite En, Hst.
      * intros r x. rewrite Hself. unfold row_view. by rewrite En.
      * intros t' r H1 H2 H3 H4. rewrite (Hother t' r H1 H2 H3 H4). unfold row_view. by rewrite En.
      * intros tid r. rewrite Hwr. unfold row_wrote. rewrite En. tauto.
    + intros (n & i & r & Hn & _). congruence.
Qed.
End Update.

Section Fetch.
Context {T : Type} (F : UpdateFunctions T) {L : UpdateLaws F}.
Context (A : list TransactionData) (limit : Z) (next : nat) (us : UpdateSegment T).
Hypothesis Hus : seg_ok A limit next us.

Lemma chain_entries v n : node_at us v = Some n → Forall (λ i, entries_ok (info_entries i)) (node_chain n).
Proof.
  intros Hn. destruct (sg_chain _ _ _ _ Hus v n Hn) as [_ H2 H3 _ _ _ _]. constructor; [done|]. apply (Forall_impl _ _ _ H3). by intros i [Hi _].
Qed.

Lemma FetchUpdates_ok t v res :
  (v < ROW_GROUP_VECTOR_COUNT)%nat → view_ok res →
  ∃ res', UpdateSegment_FetchUpdates F us t v res = Ok res' ∧ view_ok res' ∧ ∀ r, (r < SVS)%nat → view res' r = row_view us t v r (view res r).
Proof.
  intros Hv Hok. unfold UpdateSegment_FetchUpdates. rewrite vector_node_ok by (done || apply Hus). cbn [mbind result_bind]. unfold row_view.
  destruct (node_at us v) as [n|] eqn:En; [|eauto]. apply fetch_law; [done | by eapply chain_entries].
Qed.

Lemma FetchRow_ok t v r res result_idx :
  start_ok (us_start us) → (v < ROW_GROUP_VECTOR_COUNT)%nat → (r < SVS)%nat → view_ok res → (result_idx < SVS)%nat →
  ∃ res', UpdateSegment_FetchRow F us t (vector_offset us v + Z.of_nat r) res result_idx = Ok res' ∧ view_ok res' ∧
    ∀ q, (q < SVS)%nat → view res' q = if decide (q = result_idx) then row_view us t v r (view res q) else view res q.
Proof.
  intros [Hs1 Hs2] Hv Hr Hok Hi. unfold UpdateSegment_FetchRow.
  assert (((v + 1) * SVS ≤ ROW_GROUP_VECTOR_COUNT * SVS)%nat) by (apply Nat.mul_le_mono_r; lia).
  assert (Z.to_nat (wrapu 64 (vector_offset us v + Z.of_nat r - us_start us)) = (v * SVS + r)%nat) as ->
    by (unfold vector_offset; rewrite wrapu_small by lia; lia).
  destruct (row_of v r Hr) as [-> _]. rewrite vector_node_ok by (done || apply Hus). cbn [mbind result_bind]. unfold row_view.
  replace (v * SVS + r - v * SVS)%nat with r by lia.
  destruct (node_at us v) as [n|] eqn:En.
  - apply row_law; [done | by eapply chain_entries | done].
  - exists res. split_and!; [done | done|]. intros q _. by destruct (decide (q = result_idx)).
Qed.

(** * Committed ranges *)

(** The last value written to a row. *)
Definition committed_row (row : nat) (x : option T) : option T :=
  match node_at us (row / SVS)%nat with None => x | Some n => override (node_info n) (row mod SVS) x end.

Lemma fetch_range_step_ok start_row count v res :
  (0 < count ≤ SVS)%nat → (start_row + count ≤ ROW_GROUP_VECTOR_COUNT * SVS)%nat → v ∈ touched_vectors start_row (start_row + count) → view_ok res →
  ∃ res', fetch_range_step F us start_row (start_row + count) res v = Ok res' ∧ view_ok res' ∧
    ∀ q, (q < SVS)%nat → view res' q =
      if decide (q < count ∧ (start_row + q) / SVS = v)%nat then committed_row (start_row + q) (view res q) else view res q.
Proof.
  intros Hc Hend Hv Hok. unfold touched_vectors in Hv. apply elem_of_seq in Hv. pose proof vector_size_pos as Hpos.
  destruct (row_split start_row) as [E1 L1], (row_split (start_row + count - 1)) as [E2 L2].
  set (sv := (start_row / SVS)%nat) in *. set (ev := ((start_row + count - 1) / SVS)%nat) in *.
  assert (Hv1 : (v < ROW_GROUP_VECTOR_COUNT)%nat) by (assert (ev < ROW_GROUP_VECTOR_COUNT)%nat by (apply Nat.Div0.div_lt_upper_bound; lia); lia).
  unfold fetch_range_step. rewrite vector_node_ok by (done || apply Hus). cbn [mbind result_bind]. fold sv ev.
  destruct (node_at us v) as [n|] eqn:En.
  2:{ exists res. split_and!; [done | done|]. intros q _. destruct (decide _) as [[_ Hq]|]; [|done]. unfold committed_row. by rewrite Hq, En. }
  set (si := if (v =? sv)%nat then (start_row - sv * SVS)%nat else O).
  set (ei := if (v =? ev)%nat then (start_row + count - ev * SVS)%nat else SVS).
  assert (Hsi : (v * SVS + si = Nat.max start_row (v * SVS))%nat) by (unfold si; destruct (Nat.eqb_spec v sv); [subst v; lia | nia]).
  assert (Hei : (v * SVS + ei = Nat.min (start_row + count) ((v + 1) * SVS))%nat) by (unfold ei; destruct (Nat.eqb_spec v ev); [subst v; lia | nia]).
  assert (Hlt : (v * SVS + si < v * SVS + ei)%nat) by (rewrite Hsi, Hei; nia).
  destruct (range_law (node_info n) si ei (v * SVS + si - start_row) res Hok) as (res' & -> & Hok' & Hview);
    [apply (sg_chain _ _ _ _ Hus v n En) | lia | lia |].
  exists res'. split_and!; [done | done|]. intros q Hq. rewrite Hview by done. unfold committed_row.
  destruct (row_split (start_row + q)) as [E3 L3].
  destruct (decide (q < count ∧ (start_row + q) / SVS = v)%nat) as [[Hq1 Hq2]|Hno].
  - rewrite Hq2 in E3. rewrite Hq2, En, decide_True by lia. f_equal. lia.
  - rewrite decide_False; [done|]. intros Hin. apply Hno. split; [lia|]. symmetry. apply (Nat.div_unique _ _ _ (start_row + q - v * SVS)); lia.
Qed.

Lemma fetch_range_loop start_row count l res :
  (0 < count ≤ SVS)%nat → (start_row + count ≤ ROW_GROUP_VECTOR_COUNT * SVS)%nat → NoDup l →
  (∀ v, v ∈ l → v ∈ touched_vectors start_row (start_row + count)) → view_ok res →
  ∃ res', foldM (fetch_range_step F us start_row (start_row + count)) res l = Ok res' ∧ view_ok res' ∧
    ∀ q, (q < SVS)%nat → view res' q =
      if decide (q < count ∧ (start_row + q) / SVS ∈ l)%nat then committed_row (start_row + q) (view res q) else view res q.
Proof.
  intros Hc Hend Hd Hl. revert res. induction Hd as [|v l Hv Hd IH]; intros res Hok.
  - exists res. split_and!; [done | done|]. intros q _. rewrite decide_False; [done|]. intros [_ H]. inversion H.
  - destruct (fetch_range_step_ok start_row count v res Hc Hend (Hl v ltac:(left)) Hok) as (r1 & Hr1 & Hok1 & Hv1).
    destruct (IH ltac:(intros; apply Hl; by right) r1 Hok1) as (r2 & Hr2 & Hok2 & Hv2).
    exists r2. cbn [foldM]. rewrite Hr1. cbn [mbind result_bind]. split_and!; [done | done|]. intros q Hq. rewrite Hv2, Hv1 by done.
    destruct (decide (q < count ∧ (start_row + q) / SVS ∈ l)%nat) as [[H1 H2]|H1].
    + rewrite decide_False by (intros [_ E]; by rewrite E in H2). rewrite decide_True; [done|]. split; [done | by right].
    + destruct (decide (q < count ∧ (start_row + q) / SVS = v)%nat) as [[H2 H3]|H2].
      * rewrite decide_True; [done|]. split; [done | rewrite H3; left].
      * rewrite decide_False; [done|]. intros [H3 [H4|H4]%elem_of_cons]; [by apply H2 | by apply H1].
Qed.

Lemma FetchCommittedRange_ok start_row count res :
  (0 < count ≤ SVS)%nat → (start_row + count ≤ ROW_GROUP_VECTOR_COUNT * SVS)%nat → view_ok res →
  ∃ res', UpdateSegment_FetchCommittedRange F us start_row count res = Ok res' ∧ view_ok res' ∧
    ∀ q, (q < SVS)%nat → view res' q = if decide (q < count)%nat then committed_row (start_row + q) (view res q) else view res q.
Proof.
  intros Hc Hend Hok. unfold UpdateSegment_FetchCommittedRange. destruct (us_root us) as [infos|] eqn:Eroot.
  - destruct (fetch_range_loop start_row count (touched_vectors start_row (start_row + count)) res Hc Hend) as (res' & -> & Hok' & Hv); [apply NoDup_seq | done | done|].
    exists res'. split_and!; [done | done|]. intros q Hq. rewrite Hv by done.
    destruct (decide (q < count)%nat) as [H|H]; [rewrite decide_True; [done|] | rewrite decide_False; [done | tauto]]. split; [done|].
    unfold touched_vectors. apply elem_of_seq. pose proof vector_size_pos.
    assert (start_row / SVS ≤ (start_row + q) / SVS)%nat by (apply Nat.Div0.div_le_mono; lia).
    assert ((start_row + q) / SVS ≤ (start_row + count - 1) / SVS)%nat by (apply Nat.Div0.div_le_mono; lia). lia.
  - exists res. split_and!; [done | done|]. intros q _. destruct (decide _); [|done]. unfold committed_row, node_at. by rewrite Eroot.
Qed.
End Fetch.
