(* ===== verification/TransactionManager.v ===== *)
(** Transactions that update a column ([src/transaction/duck_transaction_manager.cpp],
    [duck_transaction.cpp], [undo_buffer.cpp]): timestamps, the undo buffer of
    the updates, commit, rollback and the cleanup of committed transactions.

    The database is one update segment over an unchanging table.  An entry of
    an undo buffer is the vector and the address of an [UpdateInfo].  The write
    ahead log is the place where a commit can fail; checkpoints and the freeing
    of the memory of old transactions are left out: neither touches the
    segment. *)
From S2P Require Import Prelude Bits SelectionVector Types Stats ValidityMask ChunkInfo RowVersionManager UpdateSegment.

Definition MAX_TRANSACTION_ID : Z := UINT64_MAX.

Record DuckTransaction : Type := mkDuckTransaction {
  dt_data : TransactionData;
  dt_commit_id : Z;
  dt_undo : list (nat * nat)
}.

Record DuckTransactionManager (T : Type) : Type := mkTxnManager {
  current_start_timestamp : Z;
  current_transaction_id : Z;
  last_commit : Z;
  lowest_active_start : Z;
  lowest_active_id : Z;
  active_transactions : list DuckTransaction;
  recently_committed_transactions : list DuckTransaction;
  txn_segment : UpdateSegment T;
  next_address : nat
}.
Arguments mkTxnManager {T} _ _ _ _ _ _ _ _ _.
Arguments current_start_timestamp {T} _.
Arguments current_transaction_id {T} _.
Arguments last_commit {T} _.
Arguments lowest_active_start {T} _.
Arguments lowest_active_id {T} _.
Arguments active_transactions {T} _.
Arguments recently_committed_transactions {T} _.
Arguments txn_segment {T} _.
Arguments next_address {T} _.

Section Manager.
Context {T : Type} (F : UpdateFunctions T) (table : nat → FlatVector T).
Implicit Type m : DuckTransactionManager T.

(** The constructor: [last_commit] starts at 0. *)
Definition DuckTransactionManager_new (us : UpdateSegment T) : DuckTransactionManager T :=
  mkTxnManager 2 TRANSACTION_ID_START 0 MAX_TRANSACTION_ID TRANSACTION_ID_START [] [] us O.

Definition StartTransaction m : result (DuckTransactionManager T * TransactionData) :=
  if TRANSACTION_ID_START <=? current_start_timestamp m
  then Throw (InternalException "Cannot start more transactions, ran out of transaction identifiers!")
  else
    let start_time := current_start_timestamp m in
    let transaction_id := current_transaction_id m in
    let none := bool_decide (active_transactions m = []) in
    let t := mkTransaction transaction_id start_time in
    Ok (mkTxnManager (wrapu 64 (start_time + 1)) (wrapu 64 (transaction_id + 1)) (last_commit m)
          (if none then start_time else lowest_active_start m) (if none then transaction_id else lowest_active_id m)
          (active_transactions m ++ [mkDuckTransaction t 0 []]) (recently_committed_transactions m)
          (txn_segment m) (next_address m), t).

Definition find_active (tid : Z) (l : list DuckTransaction) : option DuckTransaction :=
  head (filter (λ d, transaction_id (dt_data d) = tid) l).

Definition not_active {A} : result A := Throw (UndefinedBehaviour "transaction that is not active").

Definition set_segment m (us : UpdateSegment T) : DuckTransactionManager T :=
  mkTxnManager (current_start_timestamp m) (current_transaction_id m) (last_commit m) (lowest_active_start m)
    (lowest_active_id m) (active_transactions m) (recently_committed_transactions m) us (next_address m).

(** ** Updates *)

(** Whether the info at [address] was linked into the chain of a vector. *)
Definition info_linked (us : UpdateSegment T) (vector_index address : nat) : bool :=
  match vector_node us vector_index with
  | Ok (Some n) => bool_decide (address ∈ (info_address <$> node_next n))
  | _ => false
  end.

(** The vector that holds a row id. *)
Definition id_vector (us : UpdateSegment T) (id : Z) : nat :=
  Z.to_nat (wrapu 64 (id - us_start us) / Z.of_nat STANDARD_VECTOR_SIZE).

(** [ColumnData::Update] of a transaction: the base vector is the vector of the
    first row id.  The update info comes from the undo buffer of the
    transaction, so that an info linked into the chain is an entry of it. *)
Definition Transaction_Update m (tid : Z) (column_index : nat) (update : FlatVector T) (ids : list Z) (count : nat)
    : DuckTransactionManager T * result unit :=
  match find_active tid (active_transactions m), ids with
  | Some d, first_id :: _ =>
      let us := txn_segment m in
      let vector_index := id_vector us first_id in
      let address := next_address m in
      let '(us', r) := UpdateSegment_Update F us (dt_data d) true address column_index update ids count (table vector_index) in
      let undo := if info_linked us' vector_index address then dt_undo d ++ [(vector_index, address)] else dt_undo d in
      let d' := mkDuckTransaction (dt_data d) (dt_commit_id d) undo in
      (mkTxnManager (current_start_timestamp m) (current_transaction_id m) (last_commit m) (lowest_active_start m)
         (lowest_active_id m)
         ((λ x, if decide (transaction_id (dt_data x) = tid) then d' else x) <$> active_transactions m)
         (recently_committed_transactions m) us' (S address), r)
  | _, _ => (m, not_active)
  end.

(** What a transaction reads: the vector of the table with its updates. *)
Definition Transaction_Scan m (t : TransactionData) (vector_index : nat) : result (FlatVector T) :=
  UpdateSegment_FetchUpdates F (txn_segment m) t vector_index (table vector_index).

(** ** The undo buffer *)

Definition UndoBuffer_Commit (us : UpdateSegment T) (undo : list (nat * nat)) (commit_id : Z) : result (UpdateSegment T) :=
  foldM (λ us '(v, a), CommitUpdate us commit_id v a) us undo.

(** [RevertCommit]: the transaction id goes back into the infos. *)
Definition UndoBuffer_RevertCommit (us : UpdateSegment T) (undo : list (nat * nat)) (transaction_id : Z) : result (UpdateSegment T) :=
  foldM (λ us '(v, a), CommitUpdate us transaction_id v a) us undo.

Definition UndoBuffer_Rollback (us : UpdateSegment T) (undo : list (nat * nat)) : result (UpdateSegment T) :=
  foldM (λ us '(v, a), UpdateSegment_RollbackUpdate F us v a) us (reverse undo).

Definition UndoBuffer_Cleanup (us : UpdateSegment T) (undo : list (nat * nat)) : result (UpdateSegment T) :=
  foldM (λ us '(v, a), CleanupUpdate us v a) us undo.

(** ** The end of a transaction *)

Definition GetCommitTimestamp m : DuckTransactionManager T * Z :=
  let commit_ts := current_start_timestamp m in
  (mkTxnManager (wrapu 64 (commit_ts + 1)) (current_transaction_id m) commit_ts (lowest_active_start m) (lowest_active_id m)
     (active_transactions m) (recently_committed_transactions m) (txn_segment m) (next_address m), commit_ts).

(** The committed transactions that no active transaction can tell from the
    base, cleaned up from the oldest on. *)
Fixpoint cleanup_committed (lowest_start_time : Z) (us : UpdateSegment T) (l : list DuckTransaction)
    : result (UpdateSegment T * list DuckTransaction) :=
  match l with
  | [] => Ok (us, [])
  | d :: l' =>
      if dt_commit_id d <? lowest_start_time
      then us ← UndoBuffer_Cleanup us (dt_undo d); cleanup_committed lowest_start_time us l'
      else Ok (us, l)
  end.

(** [RemoveTransaction]: [d] is the transaction with its commit id (0 if it was
    rolled back); [store_transaction] keeps its undo buffer. *)
Definition RemoveTransaction m (d : DuckTransaction) (store_transaction : bool) : result (DuckTransactionManager T) :=
  let others := filter (λ x, transaction_id (dt_data x) ≠ transaction_id (dt_data d)) (active_transactions m) in
  let lowest_start_time := foldr (λ x, Z.min (start_time (dt_data x))) TRANSACTION_ID_START others in
  let lowest_transaction_id := foldr (λ x, Z.min (transaction_id (dt_data x))) MAX_TRANSACTION_ID others in
  us ← (if negb store_transaction && negb (bool_decide (dt_undo d = [])) then UndoBuffer_Cleanup (txn_segment m) (dt_undo d)
        else Ok (txn_segment m));
  let recent :=
    if store_transaction && negb (dt_commit_id d =? 0) then recently_committed_transactions m ++ [d]
    else recently_committed_transactions m in
  '(us, recent) ← cleanup_committed lowest_start_time us recent;
  Ok (mkTxnManager (current_start_timestamp m) (current_transaction_id m) (last_commit m) lowest_start_time
        lowest_transaction_id others recent us (next_address m)).

(** Where a commit can fail: in the local storage, before any entry is
    committed; while entry [k] is written to the log; or when the log is
    flushed. *)
Inductive commit_failure : Type := Fails_in_storage | Fails_at_entry (k : nat) | Fails_in_flush.

(** [DuckTransaction::Commit]: what is left in the segment, and whether the
    commit failed.  The entry that was being committed is reverted as well; a
    transaction without changes has nothing that can fail. *)
Definition DuckTransaction_Commit (us : UpdateSegment T) (d : DuckTransaction) (commit_id : Z) (failure : option commit_failure)
    : result (UpdateSegment T * bool) :=
  let revert us entries := us ← UndoBuffer_RevertCommit us entries (transaction_id (dt_data d)); Ok (us, true) in
  if bool_decide (dt_undo d = []) then Ok (us, false)
  else
    match failure with
    | None => us ← UndoBuffer_Commit us (dt_undo d) commit_id; Ok (us, false)
    | Some Fails_in_storage => revert us (dt_undo d)
    | Some (Fails_at_entry k) => us ← UndoBuffer_Commit us (take k (dt_undo d)) commit_id; revert us (take (S k) (dt_undo d))
    | Some Fails_in_flush => us ← UndoBuffer_Commit us (dt_undo d) commit_id; revert us (dt_undo d)
    end.

(** [CommitTransaction] without a checkpoint: a commit that fails is rolled
    back instead, and says so. *)
Definition CommitTransaction m (tid : Z) (failure : option commit_failure) : result (DuckTransactionManager T * bool) :=
  match find_active tid (active_transactions m) with
  | None => not_active
  | Some d =>
      let '(m, commit_id) := GetCommitTimestamp m in
      let has_updates := negb (bool_decide (dt_undo d = [])) in
      '(us, error) ← DuckTransaction_Commit (txn_segment m) d commit_id failure;
      us ← (if error : bool then UndoBuffer_Rollback us (dt_undo d) else Ok us);
      let d := mkDuckTransaction (dt_data d) (if error : bool then 0 else commit_id) (dt_undo d) in
      m ← RemoveTransaction (set_segment m us) d (has_updates || error);
      Ok (m, error)
  end.

Definition RollbackTransaction m (tid : Z) : result (DuckTransactionManager T) :=
  match find_active tid (active_transactions m) with
  | None => not_active
  | Some d =>
      us ← UndoBuffer_Rollback (txn_segment m) (dt_undo d);
      RemoveTransaction (set_segment m us) d (negb (bool_decide (dt_undo d = [])))
  end.
End Manager.
