(* ===== verification/UpdateUndo.v ===== *)
(** Undo buffers: committing, rolling back and cleaning up all the update
    infos of a transaction. *)
From S2P Require Import Prelude Bits SelectionVector Types Stats ValidityMask ChunkInfo RowVersionManager.
From S2P Require Import VersionFacts FilterFacts UpdateSegment UpdateFacts UpdateLaws UpdateChain UpdateSteps UpdateSystem.
From S2P Require Import TransactionManager.

(** The entries of the undo buffer are the infos of the transaction, at most
    one per vector. *)
Record undo_ok {T} (us : UpdateSegment T) (tid : Z) (undo : list (nat * nat)) : Prop := {
  un_unique : NoDup undo.*1;
  un_linked : ∀ v a, (v, a) ∈ undo ↔ (a, tid) ∈ own_stamps us tid v;
}.

Section Undo.
Context {T : Type} (A : list TransactionData) (limit : Z) (next : nat).
Implicit Types (us : UpdateSegment T) (n : UpdateNodeData T).

Lemma own_stamps_elem us tid v a z :
  (a, z) ∈ own_stamps us tid v ↔ z = tid ∧ ∃ n, node_at us v = Some n ∧ (a, z) ∈ stamps n.
Proof.
  unfold own_stamps. destruct (node_at us v) as [n|].
  - rewrite list_elem_of_filter. cbn. split; [intros [-> ?]; eauto | intros (-> & ? & [= <-] & ?); done].
  - split; [intros H; inversion H | intros (_ & ? & ? & _); done].
Qed.

Lemma stamps_elem n a z : (a, z) ∈ stamps n ↔ ∃ i, i ∈ node_next n ∧ info_address i = a ∧ version_number i = z.
Proof.
  unfold stamps. rewrite list_elem_of_fmap. split; [intros (i & [= -> ->] & Hi); eauto | intros (i & Hi & <- & <-); eauto].
Qed.

(** In a vector of the undo buffer, the address and the version single out the
    same info. *)
Lemma address_version us tid v n a i :
  seg_ok A limit next us → node_at us v = Some n → (a, tid) ∈ stamps n → i ∈ node_next n →
  info_address i = a ↔ version_number i = tid.
Proof.
  intros Hus Hn (j & Hj & <- & <-)%stamps_elem Hi.
  apply list_elem_of_lookup in Hi as [p Hp], Hj as [q Hq]. split; intros E.
  - assert (p = q) as ->; [|congruence]. apply (NoDup_lookup (stamps n).*1 p q (info_address i)); [by eapply sg_unique| |];
      unfold stamps; rewrite <- list_fmap_compose, list_lookup_fmap, ?Hp, ?Hq; cbn; congruence.
  - assert (p = q) as ->; [|congruence]. apply (NoDup_lookup (version_number <$> node_next n) p q (version_number i));
      [by eapply co_unique, (sg_chain _ _ _ _ Hus)| |]; rewrite list_lookup_fmap, ?Hp, ?Hq; cbn; congruence.
Qed.

(** A loop over the undo buffer that rewrites one chain per entry. *)
Lemma undo_loop (step : UpdateSegment T → nat → nat → result (UpdateSegment T)) (R : nat → UpdateNodeData T → UpdateNodeData T → Prop) us undo :
  seg_shape us → NoDup undo.*1 →
  (∀ v a, (v, a) ∈ undo → ∃ n, node_at us v = Some n) →
  (∀ us1 v a n, (v, a) ∈ undo → seg_shape us1 → node_at us1 v = Some n → node_at us v = Some n →
     ∃ n', step us1 v a = Ok (set_node us1 v n') ∧ R a n n') →
  ∃ us', foldM (λ us '(v, a), step us v a) us undo = Ok us' ∧ seg_shape us' ∧ us_start us' = us_start us ∧ us_stats us' = us_stats us ∧
    (∀ v, v ∉ undo.*1 → node_at us' v = node_at us v) ∧
    (∀ v a, (v, a) ∈ undo → ∃ n n', node_at us v = Some n ∧ node_at us' v = Some n' ∧ R a n n').
Proof.
  intros Hs Hd Hex Hstep.
  assert (∀ us1, seg_shape us1 → us_start us1 = us_start us → us_stats us1 = us_stats us →
    (∀ v, v ∈ undo.*1 → node_at us1 v = node_at us v) →
    ∃ us', foldM (λ us '(v, a), step us v a) us1 undo = Ok us' ∧ seg_shape us' ∧ us_start us' = us_start us ∧ us_stats us' = us_stats us ∧
    (∀ v, v ∉ undo.*1 → node_at us' v = node_at us1 v) ∧
    (∀ v a, (v, a) ∈ undo → ∃ n n', node_at us v = Some n ∧ node_at us' v = Some n' ∧ R a n n')) as Hgen; [|by apply Hgen].
  clear Hs. revert Hd Hex Hstep. induction undo as [|[v a] undo IH]; intros Hd Hex Hstep us1 Hs Hst Hss Heq.
  - exists us1. split_and!; try done. intros v a Hin. inversion Hin.
  - cbn in Hd. apply NoDup_cons in Hd as [Hv Hd]. destruct (Hex v a ltac:(left)) as [n Hn].
    destruct (Hstep us1 v a n ltac:(left) Hs) as (n' & Hok & HR); [by rewrite Heq by left | done|].
    assert (Hn1 : node_at us1 v = Some n) by (by rewrite Heq by left).
    destruct (set_node_ok us1 v n') as (S1 & S2 & S3 & S4); [done | by eapply node_at_root | by eapply node_at_lt|].
    cbn [foldM]. rewrite Hok. cbn [mbind result_bind].
    destruct (IH Hd ltac:(intros; eapply Hex; by right) ltac:(intros; eapply Hstep; eauto; by right) (set_node us1 v n')) as (us' & H1 & H2 & H3 & H4 & H5 & H6);
      [done | by rewrite S3 | by rewrite S2 | |].
    { intros w Hw. rewrite S4, decide_False by (intros ->; done). apply Heq. by right. }
    exists us'. split_and!; try done.
    + intros w Hw. rewrite H5 by (intros Hin; apply Hw; by right). rewrite S4, decide_False; [done|]. intros ->. apply Hw. left.
    + intros w b [[= -> ->]|Hin]%elem_of_cons; [|by apply H6]. exists n, n'. split_and!; [done | | done].
      rewrite H5 by done. rewrite S4. by rewrite decide_True.
Qed.

Lemma undo_vector us tid undo v a : undo_ok us tid undo → (v, a) ∈ undo → ∃ n, node_at us v = Some n ∧ (a, tid) ∈ stamps n.
Proof. intros [_ Hl] Hin. apply Hl, own_stamps_elem in Hin as (_ & n & Hn & Ha). eauto. Qed.

Lemma no_undo_vector us tid undo v n :
  undo_ok us tid undo → v ∉ undo.*1 → node_at us v = Some n → ∀ i, i ∈ node_next n → version_number i ≠ tid.
Proof.
  intros [_ Hl] Hv Hn i Hi E. apply Hv. apply list_elem_of_fmap. exists (v, info_address i). split; [done|]. apply Hl, own_stamps_elem.
  split; [done|]. exists n. split; [done|]. apply stamps_elem. eauto.
Qed.

Lemma seg_vector us v n : seg_ok A limit next us → node_at us v = Some n → vector_node us v = Ok (Some n).
Proof.
  intros Hus Hn. rewrite vector_node_ok; [by rewrite Hn | apply Hus|]. eapply node_at_lt; [apply Hus | done].
Qed.

(** ** Commit *)

Lemma commit_address t n a :
  (∀ i, i ∈ node_next n → info_address i = a ↔ version_number i = transaction_id t) →
  mkNode (node_info n) ((λ i, if decide (info_address i = a) then set_version i limit else i) <$> node_next n) = commit_node limit t n.
Proof.
  intros H. unfold commit_node. f_equal. apply list_fmap_ext. intros k i Hi%list_elem_of_lookup_2. unfold commit_info.
  specialize (H i Hi). repeat destruct (decide _); tauto.
Qed.

Lemma commit_nothing t n : (∀ i, i ∈ node_next n → version_number i ≠ transaction_id t) → commit_node limit t n = n.
Proof.
  intros H. destruct n as [b c]. unfold commit_node. cbn in *. f_equal. rewrite <- (list_fmap_id c) at 2. apply list_fmap_ext.
  intros k i Hi%list_elem_of_lookup_2. unfold commit_info. by rewrite decide_False by (by apply H).
Qed.

Lemma UndoBuffer_Commit_ok us t undo :
  seg_ok A limit next us → undo_ok us (transaction_id t) undo →
  ∃ us', UndoBuffer_Commit us undo limit = Ok us' ∧ seg_shape us' ∧ us_start us' = us_start us ∧ us_stats us' = us_stats us ∧
    ∀ v, node_at us' v = commit_node limit t <$> node_at us v.
Proof.
  intros Hus Hu. unfold UndoBuffer_Commit.
  destruct (undo_loop (λ us v a, CommitUpdate us limit v a) (λ a n n', n' = commit_node limit t n) us undo) as (us' & H1 & H2 & H3 & H4 & H5 & H6).
  - apply Hus.
  - apply Hu.
  - intros v a Hin. destruct (undo_vector _ _ _ _ _ Hu Hin) as (n & ? & _). eauto.
  - intros us1 v a n Hin Hs1 Hn1 Hn. destruct (undo_vector _ _ _ _ _ Hu Hin) as (n2 & Hn2 & Ha). rewrite Hn in Hn2. injection Hn2 as <-.
    exists (commit_node limit t n). split; [|done]. unfold CommitUpdate. rewrite vector_node_ok, Hn1; [|done | by eapply node_at_lt].
    cbn [mbind result_bind]. do 2 f_equal. apply commit_address. intros i Hi. by eapply address_version.
  - exists us'. split_and!; try done. intros v. destruct (decide (v ∈ undo.*1)) as [([v' a] & -> & Hin)%list_elem_of_fmap|Hv].
    + destruct (H6 v' a Hin) as (n & n' & Hn & Hn' & ->). cbn. by rewrite Hn, Hn'.
    + rewrite H5 by done. destruct (node_at us v) as [n|] eqn:En; [|done]. cbn. f_equal. symmetry. apply commit_nothing.
      by eapply no_undo_vector.
Qed.

(** ** A commit that failed *)

(** Stamping some of the transaction's infos and putting its id back. *)
Definition stamp_address (a : nat) (z : Z) (n : UpdateNodeData T) : UpdateNodeData T :=
  mkNode (node_info n) ((λ i, if decide (info_address i = a) then set_version i z else i) <$> node_next n).

Lemma stamp_back a z tid n : (∀ i, i ∈ node_next n → info_address i = a → version_number i = tid) → stamp_address a tid (stamp_address a z n) = n.
Proof.
  intros H. destruct n as [b c]. unfold stamp_address. cbn [node_info node_next] in *. f_equal. rewrite <- list_fmap_compose. rewrite <- (list_fmap_id c) at 2.
  apply list_fmap_ext. intros k i Hi%list_elem_of_lookup_2. cbn. specialize (H i Hi). destruct (decide (info_address i = a)) as [E|E]; cbn.
  - rewrite decide_True by done. specialize (H E). by destruct i; cbn in *; subst.
  - by rewrite decide_False.
Qed.

Lemma stamp_same a tid n : (∀ i, i ∈ node_next n → info_address i = a → version_number i = tid) → stamp_address a tid n = n.
Proof.
  intros H. destruct n as [b c]. unfold stamp_address. cbn [node_info node_next] in *. f_equal. rewrite <- (list_fmap_id c) at 2.
  apply list_fmap_ext. intros k i Hi%list_elem_of_lookup_2. cbn. specialize (H i Hi). destruct (decide (info_address i = a)) as [E|E]; [|done].
  specialize (H E). by destruct i; cbn in *; subst.
Qed.

Lemma stamp_loop us z (undo : list (nat * nat)) :
  seg_shape us → NoDup undo.*1 → (∀ v a, (v, a) ∈ undo → is_Some (node_at us v)) →
  ∃ us', UndoBuffer_Commit us undo z = Ok us' ∧ seg_shape us' ∧ us_start us' = us_start us ∧ us_stats us' = us_stats us ∧
    (∀ v, v ∉ undo.*1 → node_at us' v = node_at us v) ∧
    (∀ v a, (v, a) ∈ undo → ∃ n, node_at us v = Some n ∧ node_at us' v = Some (stamp_address a z n)).
Proof.
  intros Hs Hd Hex. unfold UndoBuffer_Commit.
  destruct (undo_loop (λ us v a, CommitUpdate us z v a) (λ a n n', n' = stamp_address a z n) us undo) as (us' & H1 & H2 & H3 & H4 & H5 & H6); try done.
  - intros us1 v a n Hin Hs1 Hn1 Hn. exists (stamp_address a z n). split; [|done]. unfold CommitUpdate.
    rewrite vector_node_ok, Hn1; [done | done | by eapply node_at_lt].
  - exists us'. split_and!; try done. intros v a Hin. destruct (H6 v a Hin) as (n & n' & Hn & Hn' & ->). eauto.
Qed.

(** Committing the entries [p] and reverting the entries [l] of an undo
    buffer, where every committed entry is reverted. *)
Lemma revert_commit_ok us t undo p l commit_id :
  seg_ok A limit next us → undo_ok us (transaction_id t) undo → NoDup p.*1 → NoDup l.*1 →
  (∀ e, e ∈ p → e ∈ l) → (∀ e, e ∈ l → e ∈ undo) →
  ∃ us1 us', UndoBuffer_Commit us p commit_id = Ok us1 ∧ UndoBuffer_RevertCommit us1 l (transaction_id t) = Ok us' ∧ seg_shape us' ∧
    us_start us' = us_start us ∧ us_stats us' = us_stats us ∧ ∀ v, node_at us' v = node_at us v.
Proof.
  intros Hus Hu Hp Hl Hpl Hlu.
  assert (Hown : ∀ v a n, (v, a) ∈ l → node_at us v = Some n → ∀ i, i ∈ node_next n → info_address i = a → version_number i = transaction_id t).
  { intros v a n Hin Hn i Hi E. destruct (undo_vector _ _ _ _ _ Hu (Hlu _ Hin)) as (n2 & Hn2 & Ha). rewrite Hn in Hn2. injection Hn2 as <-.
    by apply (address_version us _ v n a i Hus Hn Ha Hi). }
  destruct (stamp_loop us commit_id p) as (us1 & Hc1 & S1 & St1 & Ss1 & O1 & I1); [apply Hus | done | |].
  { intros v a Hin. destruct (undo_vector _ _ _ _ _ Hu (Hlu _ (Hpl _ Hin))) as (n & -> & _). eauto. }
  assert (Hat : ∀ v a, (v, a) ∈ l → ∃ n, node_at us v = Some n ∧ (node_at us1 v = Some n ∨ node_at us1 v = Some (stamp_address a commit_id n))).
  { intros v a Hin. destruct (undo_vector _ _ _ _ _ Hu (Hlu _ Hin)) as (n & Hn & _). exists n. split; [done|].
    destruct (decide (v ∈ p.*1)) as [([v' b] & -> & Hvb)%list_elem_of_fmap|Hv]; [|left; by rewrite O1]. right. cbn in *.
    assert (a = b) as ->.
    { apply list_elem_of_lookup in Hin as [i Hi]. apply Hpl in Hvb as Hvb'. apply list_elem_of_lookup in Hvb' as [j Hj].
      assert (i = j) as ->; [|congruence]. apply (NoDup_lookup l.*1 i j v'); [done | |]; by rewrite list_lookup_fmap, ?Hi, ?Hj. }
    destruct (I1 v' b Hvb) as (n2 & Hn2 & ->). congruence. }
  destruct (stamp_loop us1 (transaction_id t) l) as (us2 & Hc2 & S2 & St2 & Ss2 & O2 & I2); [done | done | |].
  { intros v a Hin. destruct (Hat v a Hin) as (n & _ & [-> | ->]); eauto. }
  exists us1, us2. split_and!; [done | done | done | congruence | congruence|]. intros v.
  destruct (decide (v ∈ l.*1)) as [([v' a] & -> & Hva)%list_elem_of_fmap|Hv].
  - cbn. destruct (I2 v' a Hva) as (n2 & Hn2 & ->), (Hat v' a Hva) as (n & Hn & Hc). rewrite Hn. f_equal. specialize (Hown v' a n Hva Hn).
    destruct Hc as [Hc|Hc]; rewrite Hc in Hn2; injection Hn2 as <-; [by apply stamp_same | by apply stamp_back].
  - rewrite O2 by done. apply O1. intros (e & -> & He)%list_elem_of_fmap. apply Hv, list_elem_of_fmap. eauto.
Qed.

(** ** Cleanup *)

Definition keep_address (a : nat) (n : UpdateNodeData T) : UpdateNodeData T := mkNode (node_info n) (unlink (node_next n) a).

Lemma chain_ok_filter (P : UpdateInfo T → Prop) `{∀ i, Decision (P i)} n :
  chain_ok A limit n → chain_ok A limit (mkNode (node_info n) (filter P (node_next n))).
Proof.
  intros [H1 H2 H3 H4 H5 H6 H7]. split; cbn [node_info node_next]; [done | done | | | | |].
  - rewrite Forall_forall in *. intros i [_ Hi]%list_elem_of_filter. by apply H3.
  - intros i r [_ Hi]%list_elem_of_filter. by apply H4.
  - clear -H5. induction (node_next n) as [|i c IH]; [constructor|]. cbn in H5. apply NoDup_cons in H5 as [Hi Hc]. rewrite filter_cons.
    destruct (decide (P i)); [|by apply IH]. cbn. constructor; [|by apply IH].
    intros (j & Hj & [_ Hin]%list_elem_of_filter)%list_elem_of_fmap. apply Hi. rewrite Hj. apply list_elem_of_fmap. eauto.
  - intros i [_ Hi]%list_elem_of_filter. by apply H6.
  - by apply sorted_filter.
Qed.

Lemma UndoBuffer_Cleanup_ok us undo :
  seg_ok A limit next us → NoDup undo.*1 → (∀ v a, (v, a) ∈ undo → ∃ n, node_at us v = Some n) →
  ∃ us', UndoBuffer_Cleanup us undo = Ok us' ∧ seg_shape us' ∧ us_start us' = us_start us ∧ us_stats us' = us_stats us ∧
    (∀ v, v ∉ undo.*1 → node_at us' v = node_at us v) ∧
    (∀ v a, (v, a) ∈ undo → ∃ n, node_at us v = Some n ∧ node_at us' v = Some (keep_address a n)).
Proof.
  intros Hus Hd Hex. unfold UndoBuffer_Cleanup.
  destruct (undo_loop (λ us v a, CleanupUpdate us v a) (λ a n n', n' = keep_address a n) us undo) as (us' & H1 & H2 & H3 & H4 & H5 & H6).
  - apply Hus.
  - done.
  - done.
  - intros us1 v a n Hin Hs1 Hn1 Hn. exists (keep_address a n). split; [|done]. unfold CleanupUpdate.
    rewrite vector_node_ok, Hn1; [done | done | by eapply node_at_lt].
  - exists us'. split_and!; try done. intros v a Hin. destruct (H6 v a Hin) as (n & n' & ? & ? & ->). eauto.
Qed.

(** ** Rollback *)

(** The node after the rollback of the transaction's info. *)
Definition rolled_back (t : TransactionData) (n n' : UpdateNodeData T) : Prop :=
  ∃ pre u post base', node_next n = pre ++ u :: post ∧ version_number u = transaction_id t ∧
    (entries_ok base' ∧ base'.*1 = (info_entries (node_info n)).*1) ∧
    (∀ r, entry_at base' r = match entry_at (info_entries u) r with Some x => Some x | None => entry_at (info_entries (node_info n)) r end) ∧
    n' = rolled_node n pre post base'.

Lemma UndoBuffer_Rollback_ok (F : UpdateFunctions T) {L : UpdateLaws F} us t undo :
  seg_ok A limit next us → undo_ok us (transaction_id t) undo →
  ∃ us', UndoBuffer_Rollback F us undo = Ok us' ∧ seg_shape us' ∧ us_start us' = us_start us ∧ us_stats us' = us_stats us ∧
    (∀ v, v ∉ undo.*1 → node_at us' v = node_at us v) ∧
    (∀ v a, (v, a) ∈ undo → ∃ n n', node_at us v = Some n ∧ node_at us' v = Some n' ∧ rolled_back t n n').
Proof.
  intros Hus Hu. unfold UndoBuffer_Rollback.
  destruct (undo_loop (λ us v a, UpdateSegment_RollbackUpdate F us v a) (λ a n n', rolled_back t n n') us (reverse undo)) as (us' & H1 & H2 & H3 & H4 & H5 & H6).
  - apply Hus.
  - rewrite fmap_reverse, reverse_Permutation. apply Hu.
  - intros v a Hin. rewrite elem_of_reverse in Hin. destruct (undo_vector _ _ _ _ _ Hu Hin) as (n & ? & _). eauto.
  - intros us1 v a n Hin Hs1 Hn1 Hn. rewrite elem_of_reverse in Hin. destruct (undo_vector _ _ _ _ _ Hu Hin) as (n2 & Hn2 & Ha).
    rewrite Hn in Hn2. injection Hn2 as <-.
    pose proof (sg_chain _ _ _ _ Hus v n Hn) as Hc.
    apply stamps_elem in Ha as Ha'. destruct Ha' as (u & Hin' & Hadr & Hver). apply list_elem_of_split in Hin' as (pre & post & E).
    assert (Hother : ∀ i, i ∈ pre ++ post → info_address i ≠ a).
    { intros i Hi Ei. pose proof (sg_unique _ _ _ _ Hus v n Hn) as Hd. unfold stamps in Hd. rewrite E, !fmap_app, !fmap_cons in Hd.
      apply NoDup_app in Hd as (_ & D1 & [D2 _]%NoDup_cons). cbn in D1, D2. apply elem_of_app in Hi as [Hi|Hi].
      - apply (D1 a); [|rewrite Hadr; left]. apply list_elem_of_fmap. exists (info_address i, version_number i). split; [done|].
        apply list_elem_of_fmap. eauto.
      - apply D2. rewrite Hadr. apply list_elem_of_fmap. exists (info_address i, version_number i). split; [done|].
        apply list_elem_of_fmap. eauto. }
    assert (u ∈ node_next n) as Hun by (rewrite E; apply elem_of_app; right; left).
    destruct (RollbackUpdate_ok (info_entries (node_info n)) (info_entries u)) as (base' & Hr & R1 & R2 & R3).
    { apply Hc. } { apply (proj1 (Forall_forall _ _) (co_infos _ _ _ Hc) u Hun). } { intros r. by apply (co_rows _ _ _ Hc u). }
    exists (rolled_node n pre post base'). split; [|by exists pre, u, post, base'].
    unfold UpdateSegment_RollbackUpdate. destruct (node_at_root us1 v n Hn1) as [l El]. rewrite El.
    rewrite vector_node_ok, Hn1; [|done | by eapply node_at_lt]. cbn [mbind result_bind].
    assert (filter (λ i, info_address i = a) (node_next n) = [u]) as ->.
    { rewrite E, filter_app, filter_cons_True by done. rewrite !filter_none; [done | |]; intros i Hi; apply Hother, elem_of_app; [by right | by left]. }
    rewrite rollback_law, Hr. cbn [mbind result_bind]. do 3 f_equal. unfold rolled_node. f_equal. unfold unlink.
    rewrite E, filter_app, filter_cons_False by (by rewrite Hadr; intros []). f_equal; apply filter_all; intros i Hi; apply Hother, elem_of_app; [by left | by right].
  - exists us'. split_and!; try done.
    + intros v Hv. apply H5. intros Hin. apply Hv. by rewrite fmap_reverse, elem_of_reverse in Hin.
    + intros v a Hin. apply (H6 v a). by rewrite elem_of_reverse.
Qed.
End Undo.
