(* ===== verification/SnapshotSpec.v ===== *)
(** The invariant of the transaction manager over an update segment, what its
    operations do to the values every transaction reads, snapshot isolation as
    an abstract database, and the relation between the two. *)
From S2P Require Import Prelude Bits SelectionVector Types Stats FilterFacts ValidityMask ChunkInfo RowVersionManager VersionFacts UpdateSegment UpdateFacts UpdateLaws UpdateChain.
From S2P Require Import UpdateSteps UpdateSystem TransactionManager UpdateUndo.

Section Facts.
Context {T : Type} (F : UpdateFunctions T) {L : UpdateLaws F}.
Implicit Types (us : UpdateSegment T) (n : UpdateNodeData T) (m : DuckTransactionManager T) (d : DuckTransaction).

(** * Readers that begin now *)

(** A transaction that begins sees exactly the committed infos. *)
Lemma reader_unseen A limit (i : UpdateInfo T) g l :
  active_ok A limit → (version_number i < limit ∨ ∃ t, t ∈ A ∧ version_number i = transaction_id t) →
  limit ≤ l < TRANSACTION_ID_START - 1 → (∀ t, t ∈ A → transaction_id t ≠ g) → TRANSACTION_ID_START ≤ g →
  unseen (reader g l) i = negb (version_number i <? limit).
Proof.
  intros HA Hk Hl Hg Hs. unfold unseen, use_old_version. cbn. pose proof (ao_limit _ _ HA). destruct Hk as [H1|(t & Ht & H1)]; [lia|].
  destruct (proj1 (Forall_forall _ _) (ao_txn _ _ HA) t Ht). specialize (Hg t Ht). lia.
Qed.

Lemma chain_view_same t t' (c : list (UpdateInfo T)) r x : (∀ i, i ∈ c → unseen t i = unseen t' i) → chain_view t c r x = chain_view t' c r x.
Proof.
  revert x; induction c as [|i c IH]; intros x H; [done|]. rewrite !chain_view_cons, (H i ltac:(left)). apply IH. intros; apply H; by right.
Qed.

Lemma reader_view A limit next us g l g' l' v r x :
  active_ok A limit → seg_ok A limit next us → limit ≤ l < TRANSACTION_ID_START - 1 → limit ≤ l' < TRANSACTION_ID_START - 1 →
  (∀ t, t ∈ A → transaction_id t ≠ g ∧ transaction_id t ≠ g') → TRANSACTION_ID_START ≤ g → TRANSACTION_ID_START ≤ g' →
  row_view us (reader g l) v r x = row_view us (reader g' l') v r x.
Proof.
  intros HA Hus Hl Hl' Hg H1 H2. unfold row_view. destruct (node_at us v) as [n|] eqn:E; [|done].
  pose proof (sg_chain _ _ _ _ Hus v n E) as Hc. rewrite !(node_view_eq A limit) by (done || (split; cbn; lia)).
  apply chain_view_same. intros i Hi. rewrite !(reader_unseen A limit) by (try done; try (by apply Hc); try (by intros t Ht; apply (Hg t Ht)); lia). done.
Qed.

(** * Starting a transaction *)

Lemma begin_active A limit t :
  active_ok A limit → limit + 1 < TRANSACTION_ID_START - 1 → start_time t = limit → TRANSACTION_ID_START ≤ transaction_id t →
  (∀ t', t' ∈ A → transaction_id t' ≠ transaction_id t) → active_ok (A ++ [t]) (limit + 1).
Proof.
  intros [H1 H2 H3 H4] Hl Hs Hid Hf. split; [| | |done].
  - apply Forall_app. split; [done|]. constructor; [split; lia | constructor].
  - intros t' [Ht'| ->%list_elem_of_singleton]%elem_of_app; [specialize (H2 t' Ht')|]; lia.
  - rewrite fmap_app. apply NoDup_app. split_and!; [done | | apply NoDup_singleton].
    intros z (t' & -> & Ht')%list_elem_of_fmap Hz. cbn in Hz. apply list_elem_of_singleton in Hz. by apply (Hf t').
Qed.

Lemma begin_seg A limit next us t :
  active_ok A limit → seg_ok A limit next us → TRANSACTION_ID_START ≤ transaction_id t →
  (∀ t', t' ∈ A → transaction_id t' ≠ transaction_id t) → seg_ok (A ++ [t]) (limit + 1) next us.
Proof.
  intros HA [S1 S2 S3 S4] Hid Hf. split; [done | | done | done]. intros v n Hn. destruct (S2 v n Hn) as [H1 H2 H3 H4 H5 H6 H7].
  assert (Hv : ∀ i, i ∈ node_next n → version_number i ≠ transaction_id t).
  { intros i Hi E. destruct (H6 i Hi) as [H|(t' & Ht' & H)]; [|by apply (Hf t'); rewrite ?H in *]. pose proof (ao_limit _ _ HA). lia. }
  split; [done | done | done | done | done | |].
  - intros i Hi. destruct (H6 i Hi) as [H|(t' & Ht' & H)]; [left; lia|]. right. exists t'. split; [apply elem_of_app; by left | done].
  - clear -H7 Hv. induction H7 as [|i c Hs IH HF]; [constructor|]. constructor; [apply IH; intros; apply Hv; by right|].
    rewrite Forall_forall in *. intros j Hj. destruct (HF j Hj) as [B1 B2].
    split; intros t' [Ht'| ->%list_elem_of_singleton]%elem_of_app Hv'; [by apply B1 | | by apply B2 |]; exfalso; eapply Hv; try exact Hv'; [by right | left].
Qed.

(** * Ending a transaction *)

Section End.
Context (A : list TransactionData) (limit : Z) (next : nat) (us : UpdateSegment T) (t : TransactionData).
Hypothesis HA : active_ok A limit.
Hypothesis Hus : seg_ok A limit next us.
Hypothesis Ht : t ∈ A.

Lemma commit_stamps n : (stamps (commit_node limit t n)).*1 = (stamps (T := T) n).*1.
Proof.
  unfold stamps, commit_node. cbn [node_next]. rewrite <- !list_fmap_compose. apply list_fmap_ext. intros k i _. cbn.
  unfold commit_info. by destruct (decide _).
Qed.

Lemma commit_seg us' : limit + 1 < TRANSACTION_ID_START - 1 → seg_shape us' →
  (∀ v, node_at us' v = commit_node limit t <$> node_at us v) → seg_ok (others A t) (limit + 1) next us'.
Proof.
  intros Hl Hs Hn. split; [done | | |].
  - intros v n'. rewrite Hn. destruct (node_at us v) as [n|] eqn:E; [|done]. intros [= <-]. eapply commit_ok; try done. by apply (sg_chain _ _ _ _ Hus v).
  - intros v n'. rewrite Hn. destruct (node_at us v) as [n|] eqn:E; [|done]. intros [= <-]. rewrite commit_stamps. by apply (sg_unique _ _ _ _ Hus v).
  - intros v n' a. rewrite Hn. destruct (node_at us v) as [n|] eqn:E; [|done]. intros [= <-]. rewrite commit_stamps. by apply (sg_next _ _ _ _ Hus v).
Qed.

(** The stamps of the other transactions, and of the committed ones. *)
Lemma commit_other_stamps us' tid v : tid ≠ transaction_id t → tid ≠ limit →
  (∀ v, node_at us' v = commit_node limit t <$> node_at us v) → own_stamps us' tid v = own_stamps us tid v.
Proof.
  intros H1 H2 Hn. unfold own_stamps. rewrite Hn. destruct (node_at us v) as [n|]; [|done]. cbn. unfold stamps, commit_node. cbn [node_next].
  induction (node_next n) as [|i c IH]; [done|]. cbn [fmap list_fmap]. rewrite !filter_cons, IH. cbn. unfold commit_info.
  destruct (decide (version_number i = transaction_id t)) as [E|E]; [|done]. cbn.
  rewrite (decide_False (P := limit = tid)) by congruence. by rewrite (decide_False (P := version_number i = tid)) by congruence.
Qed.

Lemma commit_other_wrote us' tid v r : tid ≠ transaction_id t → tid ≠ limit →
  (∀ v, node_at us' v = commit_node limit t <$> node_at us v) → row_wrote us' tid v r ↔ row_wrote us tid v r.
Proof.
  intros H1 H2 Hn. unfold row_wrote. rewrite Hn. destruct (node_at us v) as [n|]; [|done]. cbn. unfold wrote, commit_node. cbn [node_next].
  split.
  - intros (i & (j & -> & Hj)%list_elem_of_fmap & Hv & Hr). rewrite commit_entries in Hr. exists j. split_and!; [done | | done].
    unfold commit_info in Hv. destruct (decide _); [cbn in Hv; congruence | done].
  - intros (i & Hi & Hv & Hr). exists (commit_info limit t i). split_and!; [apply list_elem_of_fmap; eauto | | by rewrite commit_entries].
    unfold commit_info. by rewrite decide_False by congruence.
Qed.

Lemma rollback_seg us' undo : seg_shape us' → undo_ok us (transaction_id t) undo →
  (∀ v, v ∉ undo.*1 → node_at us' v = node_at us v) →
  (∀ v a, (v, a) ∈ undo → ∃ n n', node_at us v = Some n ∧ node_at us' v = Some n' ∧ rolled_back t n n') →
  seg_ok (others A t) limit next us'.
Proof.
  intros Hs Hu H5 H6.
  assert (Hcase : ∀ v n', node_at us' v = Some n' → (node_at us v = Some n' ∧ v ∉ undo.*1) ∨ ∃ n, node_at us v = Some n ∧ rolled_back t n n').
  { intros v n' Hn'. destruct (decide (v ∈ undo.*1)) as [([v' a] & -> & Hin)%list_elem_of_fmap|Hv].
    - right. destruct (H6 v' a Hin) as (n & n2 & Hn & Hn2 & HR). cbn in Hn'. rewrite Hn' in Hn2. injection Hn2 as <-. eauto.
    - left. by rewrite <- H5. }
  assert (Hsub : ∀ n n' s, rolled_back t n n' → s ∈ (stamps n').*1 → s ∈ (stamps n).*1).
  { intros n n' s (pre & u & post & b & E & _ & _ & _ & ->). unfold stamps, rolled_node. cbn [node_next]. rewrite E, !fmap_app, !fmap_cons.
    intros [H|H]%elem_of_app; apply elem_of_app; [by left | right; by right]. }
  split; [done | | |].
  - intros v n' Hn'. destruct (Hcase v n' Hn') as [[Hn Hv]|(n & Hn & (pre & u & post & b & E & Hver & Hb & Ab & ->))].
    + eapply unrelated_ok; try done; [by apply (sg_chain _ _ _ _ Hus v) | by eapply no_undo_vector].
    + eapply rolled_ok; try done. by apply (sg_chain _ _ _ _ Hus v).
  - intros v n' Hn'. destruct (Hcase v n' Hn') as [[Hn Hv]|(n & Hn & (pre & u & post & b & E & Hver & Hb & Ab & ->))]; [by apply (sg_unique _ _ _ _ Hus v)|].
    pose proof (sg_unique _ _ _ _ Hus v n Hn) as Hd. unfold stamps, rolled_node in *. cbn [node_next]. rewrite E, !fmap_app, !fmap_cons in *.
    apply NoDup_app in Hd as (D1 & D2 & [D3 D4]%NoDup_cons). apply NoDup_app. split_and!; [done | | done]. intros z Hz Hin. apply (D2 z Hz). by right.
  - intros v n' a Hn' Ha. destruct (Hcase v n' Hn') as [[Hn Hv]|(n & Hn & HR)]; [by eapply (sg_next _ _ _ _ Hus v)|].
    eapply (sg_next _ _ _ _ Hus v n); [done | by eapply Hsub].
Qed.
End End.
End Facts.

(** * Cleaning up committed transactions *)

(** The infos of a committed transaction that are still linked carry its
    commit id. *)
Record committed_ok {T} (us : UpdateSegment T) (limit : Z) (next : nat) (d : DuckTransaction) : Prop := {
  cm_id : 0 < dt_commit_id d < limit;
  cm_unique : NoDup (dt_undo d).*1;
  cm_node : ∀ v a, (v, a) ∈ dt_undo d → (a < next)%nat ∧ is_Some (node_at us v);
  cm_version : ∀ v a n z, (v, a) ∈ dt_undo d → node_at us v = Some n → (a, z) ∈ stamps n → z = dt_commit_id d;
}.

(** Two segments no reader of [A], and none that begins, can tell apart. *)
Record same_reads {T} (A : list TransactionData) (limit : Z) (us us' : UpdateSegment T) : Prop := {
  sm_start : us_start us' = us_start us;
  sm_stats : us_stats us' = us_stats us;
  sm_view : ∀ t v r x, t ∈ A → row_view us' t v r x = row_view us t v r x;
  sm_begin : ∀ g v r x, TRANSACTION_ID_START ≤ g → (∀ t, t ∈ A → transaction_id t ≠ g) →
    row_view us' (reader g limit) v r x = row_view us (reader g limit) v r x;
  sm_stamps : ∀ tid v, TRANSACTION_ID_START ≤ tid → own_stamps us' tid v = own_stamps us tid v;
  sm_wrote : ∀ z v r, TRANSACTION_ID_START ≤ z ∨ (∃ t, t ∈ A ∧ start_time t < z) → row_wrote us' z v r ↔ row_wrote us z v r;
  sm_sub : ∀ v n', node_at us' v = Some n' → ∃ n, node_at us v = Some n ∧ ∀ s, s ∈ stamps n' → s ∈ stamps n;
  sm_node : ∀ v, is_Some (node_at us v) → is_Some (node_at us' v);
}.

#[export] Instance same_reads_refl {T} A limit : Reflexive (same_reads (T := T) A limit).
Proof. intros us. split; try done. eauto. Qed.

#[export] Instance same_reads_trans {T} A limit : Transitive (same_reads (T := T) A limit).
Proof.
  intros u1 u2 u3 [A1 A2 A3 A4 A5 A6 A7 A8] [B1 B2 B3 B4 B5 B6 B7 B8]. split.
  - by rewrite B1. 
  - by rewrite B2.
  - intros. by rewrite B3, A3.
  - intros. by rewrite B4, A4.
  - intros. by rewrite B5, A5.
  - intros. by rewrite B6, A6.
  - intros v n' Hn'. destruct (B7 v n' Hn') as (n2 & Hn2 & H2). destruct (A7 v n2 Hn2) as (n & Hn & H1). eauto 10.
  - auto.
Qed.

Section Cleanup.
Context {T : Type}.
Implicit Types (us : UpdateSegment T) (d : DuckTransaction).

Lemma committed_same A limit next us us' d : same_reads A limit us us' → committed_ok us limit next d → committed_ok us' limit next d.
Proof.
  intros Hs [C1 C2 C3 C4]. split; [done | done | |].
  - intros v a Hin. destruct (C3 v a Hin). split; [done | by apply (sm_node _ _ _ _ Hs)].
  - intros v a n' z Hin Hn' Hz. destruct (sm_sub _ _ _ _ Hs v n' Hn') as (n & Hn & Hsub). by eapply C4; eauto.
Qed.

(** Unlinking an info with a commit id every reader sees. *)
Lemma cleanup_node A limit next us v n a c :
  active_ok A limit → seg_ok A limit next us → node_at us v = Some n →
  (∀ z, (a, z) ∈ stamps n → z = c) → c < limit → (∀ t, t ∈ A → c ≤ start_time t) →
  (∀ t r x, t ∈ A → node_view t (keep_address a n) r x = node_view t n r x) ∧
  (∀ g r x, TRANSACTION_ID_START ≤ g → (∀ t, t ∈ A → transaction_id t ≠ g) → node_view (reader g limit) (keep_address a n) r x = node_view (reader g limit) n r x) ∧
  (∀ tid, TRANSACTION_ID_START ≤ tid → filter (λ s, s.2 = tid) (stamps (keep_address a n)) = filter (λ s, s.2 = tid) (stamps n)) ∧
  (∀ z r, TRANSACTION_ID_START ≤ z ∨ (∃ t, t ∈ A ∧ start_time t < z) → wrote (keep_address a n) z r ↔ wrote n z r) ∧
  (∀ s, s ∈ stamps (keep_address a n) → s ∈ stamps n).
Proof.
  intros HA Hus Hn Hc Hlt Hstart. pose proof (ao_limit _ _ HA) as Hlim.
  assert (Hver : ∀ i, i ∈ node_next n → info_address i = a → version_number i = c).
  { intros i Hi E. apply Hc, stamps_elem. eauto. }
  assert (Hview : ∀ t r x, start_time t < TRANSACTION_ID_START - 1 → c ≤ start_time t → node_view t (keep_address a n) r x = node_view t n r x).
  { intros t r x H1 H2. unfold node_view, node_chain, keep_address. cbn [node_info node_next]. rewrite !chain_view_cons.
    apply chain_view_filter. intros i Hi Hni. assert (version_number i = c) as E by (apply Hver; [done|]; destruct (decide (info_address i = a)); tauto).
    unfold unseen, use_old_version. rewrite E. lia. }
  split_and!.
  - intros t r x Ht. apply Hview; [|by apply Hstart]. apply (proj1 (Forall_forall _ _) (ao_txn _ _ HA) t Ht).
  - intros g r x _ _. apply Hview; cbn; lia.
  - intros tid Htid. unfold stamps, keep_address, unlink. cbn [node_next]. clear -Hver Htid Hlt Hlim.
    induction (node_next n) as [|i l IH]; [done|]. specialize (IH ltac:(intros; apply Hver; [by right | done])).
    cbn [fmap list_fmap]. rewrite (filter_cons (λ j, info_address j ≠ a)), (filter_cons _ (info_address i, version_number i)), <- IH.
    destruct (decide (info_address i ≠ a)) as [Hi|Hi]; [cbn [fmap list_fmap]; by rewrite filter_cons|].
    rewrite decide_False; [done|]. cbn. rewrite (Hver i ltac:(left)); [lia|]. destruct (decide (info_address i = a)); tauto.
  - intros z r Hz. assert (z ≠ c) as Hzc by (destruct Hz as [Hz|(t & Ht & Hz)]; [lia | specialize (Hstart t Ht); lia]). unfold wrote, keep_address, unlink. cbn [node_next]. split.
    + intros (i & [_ Hi]%list_elem_of_filter & Hv & Hr). eauto.
    + intros (i & Hi & Hv & Hr). exists i. split_and!; [|done | done]. apply list_elem_of_filter. split; [|done]. intros E.
      specialize (Hver i Hi E). congruence.
  - intros s. unfold stamps, keep_address, unlink. cbn [node_next]. intros (i & -> & [_ Hi]%list_elem_of_filter)%list_elem_of_fmap.
    apply list_elem_of_fmap. eauto.
Qed.

Lemma keep_address_unique a (n : UpdateNodeData T) : NoDup (stamps n).*1 → NoDup (stamps (keep_address a n)).*1.
Proof.
  unfold stamps, keep_address, unlink. cbn [node_next]. induction (node_next n) as [|i l IH]; [done|]. cbn [fmap list_fmap]. intros [H1 H2]%NoDup_cons.
  rewrite filter_cons. destruct (decide _); [|by apply IH]. cbn [fmap list_fmap]. constructor; [|by apply IH].
  intros (s & Hs & (j & -> & [_ Hj]%list_elem_of_filter)%list_elem_of_fmap)%list_elem_of_fmap. apply H1. rewrite Hs.
  apply list_elem_of_fmap. exists (info_address j, version_number j). split; [done|]. apply list_elem_of_fmap. by exists j.
Qed.

Lemma cleanup_one A limit next us d :
  active_ok A limit → seg_ok A limit next us → committed_ok us limit next d → (∀ t, t ∈ A → dt_commit_id d ≤ start_time t) →
  ∃ us', UndoBuffer_Cleanup us (dt_undo d) = Ok us' ∧ seg_ok A limit next us' ∧ same_reads A limit us us'.
Proof.
  intros HA Hus [[_ C1] C2 C3 C4] Hstart.
  destruct (UndoBuffer_Cleanup_ok A limit next us (dt_undo d) Hus C2) as (us' & H1 & H2 & H3 & H4 & H5 & H6).
  { intros v a Hin. destruct (C3 v a Hin) as [_ [n ?]]. eauto. }
  assert (Hcase : ∀ v, node_at us' v = node_at us v ∨ ∃ n a, node_at us v = Some n ∧ node_at us' v = Some (keep_address a n) ∧
    (∀ z, (a, z) ∈ stamps n → z = dt_commit_id d)).
  { intros v. destruct (decide (v ∈ (dt_undo d).*1)) as [([v' a] & -> & Hin)%list_elem_of_fmap|Hv]; [|left; by apply H5].
    right. destruct (H6 v' a Hin) as (n & Hn & Hn'). exists n, a. split_and!; [done | done|]. intros z. by eapply C4. }
  exists us'. split; [done|]. split.
  - split; [done | | |].
    + intros v n' Hn'. destruct (Hcase v) as [E|(n & a & Hn & E & _)]; rewrite E in Hn'; [by apply (sg_chain _ _ _ _ Hus v)|].
      injection Hn' as <-. apply chain_ok_filter. by apply (sg_chain _ _ _ _ Hus v).
    + intros v n' Hn'. destruct (Hcase v) as [E|(n & a & Hn & E & _)]; rewrite E in Hn'; [by apply (sg_unique _ _ _ _ Hus v)|].
      injection Hn' as <-. apply keep_address_unique. by apply (sg_unique _ _ _ _ Hus v).
    + intros v n' b Hn' Hb. destruct (Hcase v) as [E|(n & a & Hn & E & Hz)]; rewrite E in Hn'; [by apply (sg_next _ _ _ _ Hus v n')|].
      injection Hn' as <-. apply (sg_next _ _ _ _ Hus v n); [done|]. apply list_elem_of_fmap in Hb as (s & -> & Hs).
      apply list_elem_of_fmap. exists s. split; [done|].
      by apply (cleanup_node A limit next us v n a (dt_commit_id d) HA Hus Hn Hz C1 Hstart).
  - pose proof (λ v n a Hn Hz, cleanup_node A limit next us v n a (dt_commit_id d) HA Hus Hn Hz C1 Hstart) as Hcl.
    split; [done | done | | | | | |].
    + intros t v r x Ht. unfold row_view. destruct (Hcase v) as [E|(n & a & Hn & E & Hz)]; rewrite E; [done|]. rewrite Hn.
      by apply (Hcl v n a Hn Hz).
    + intros g v r x H7 H8. unfold row_view. destruct (Hcase v) as [E|(n & a & Hn & E & Hz)]; rewrite E; [done|]. rewrite Hn.
      by apply (Hcl v n a Hn Hz).
    + intros tid v Htid. unfold own_stamps. destruct (Hcase v) as [E|(n & a & Hn & E & Hz)]; rewrite E; [done|]. rewrite Hn.
      by apply (Hcl v n a Hn Hz).
    + intros tid v r Htid. unfold row_wrote. destruct (Hcase v) as [E|(n & a & Hn & E & Hz)]; rewrite E; [done|]. rewrite Hn.
      by apply (Hcl v n a Hn Hz).
    + intros v n' Hn'. destruct (Hcase v) as [E|(n & a & Hn & E & Hz)]; rewrite E in Hn'; [eauto|]. injection Hn' as <-. exists n. split; [done|].
      by apply (Hcl v n a Hn Hz).
    + intros v [n Hn]. destruct (Hcase v) as [E|(n2 & a & Hn2 & E & Hz)]; rewrite E; eauto.
Qed.

Lemma cleanup_committed_ok A limit next us lowest l :
  active_ok A limit → seg_ok A limit next us → Forall (committed_ok us limit next) l → (∀ t, t ∈ A → lowest ≤ start_time t) →
  ∃ us' l', cleanup_committed lowest us l = Ok (us', l') ∧ seg_ok A limit next us' ∧ same_reads A limit us us' ∧
    Forall (committed_ok us' limit next) l'.
Proof.
  intros HA Hus Hl Hlow. revert us Hus Hl; induction l as [|d l IH]; intros us Hus Hl; cbn [cleanup_committed].
  - exists us, []. split_and!; [done | done | reflexivity | constructor].
  - apply Forall_cons in Hl as [Hd Hl]. destruct (dt_commit_id d <? lowest) eqn:E.
    + destruct (cleanup_one A limit next us d HA Hus Hd) as (us1 & -> & Hus1 & Hs1).
      { intros t Ht. specialize (Hlow t Ht). lia. }
      cbn [mbind result_bind]. destruct (IH us1 Hus1) as (us' & l' & -> & Hus' & Hs' & Hl').
      { apply (Forall_impl _ _ _ Hl). intros d'. by eapply committed_same. }
      exists us', l'. split_and!; [done | done | by etrans | done].
    + exists us, (d :: l). split_and!; [done | done | reflexivity | by constructor].
Qed.
End Cleanup.

#[local] Opaque ROW_GROUP_VECTOR_COUNT.

(** * The specification *)

(** A snapshot: the values of the rows, the rows its transaction wrote, and
    the rows another transaction committed since it began. *)
Record Snapshot (T : Type) : Type := mkSnapshot {
  sn_read : nat → nat → option T;
  sn_wrote : nat → nat → bool;
  sn_stale : nat → nat → bool
}.
Arguments mkSnapshot {T} _ _ _.
Arguments sn_read {T} _ _ _.
Arguments sn_wrote {T} _ _ _.
Arguments sn_stale {T} _ _ _.

Record Database (T : Type) : Type := mkDatabase {
  db_committed : nat → nat → option T;
  db_open : gmap Z (Snapshot T)
}.
Arguments mkDatabase {T} _ _.
Arguments db_committed {T} _ _ _.
Arguments db_open {T} _.

(** The rows a write sets, by vector and row. *)
Definition write_set (T : Type) : Type := nat → nat → option T.

Definition take_snapshot {T} (c : nat → nat → option T) : Snapshot T := mkSnapshot c (λ _ _, false) (λ _ _, false).

Definition write_snapshot {T} (w : write_set T) (s : Snapshot T) : Snapshot T :=
  mkSnapshot (λ v r, match w v r with Some x => Some x | None => sn_read s v r end)
    (λ v r, sn_wrote s v r || bool_decide (is_Some (w v r))) (sn_stale s).

(** Another transaction commits the rows [s] wrote. *)
Definition stale_after {T} (s s' : Snapshot T) : Snapshot T :=
  mkSnapshot (sn_read s') (sn_wrote s') (λ v r, sn_stale s' v r || sn_wrote s v r).

Definition install {T} (s : Snapshot T) (c : nat → nat → option T) : nat → nat → option T :=
  λ v r, if sn_wrote s v r then sn_read s v r else c v r.

(** A row the transaction may not write: changed since it began, or written by
    another transaction that is still open. *)
Definition conflicted {T} (D : Database T) (tid : Z) (v r : nat) : Prop :=
  (∃ s, db_open D !! tid = Some s ∧ sn_stale s v r = true) ∨
  (∃ tid' s', tid' ≠ tid ∧ db_open D !! tid' = Some s' ∧ sn_wrote s' v r = true).

Inductive event (T : Type) : Type :=
| Began (tid : Z)
| Wrote (tid : Z) (w : write_set T)
| Conflicted (tid : Z) (w : write_set T)
| Committed (tid : Z)
| RolledBack (tid : Z).
Arguments Began {T} _.
Arguments Wrote {T} _ _.
Arguments Conflicted {T} _ _.
Arguments Committed {T} _.
Arguments RolledBack {T} _.

Inductive si_step {T} : Database T → event T → Database T → Prop :=
| si_begin D tid : db_open D !! tid = None →
    si_step D (Began tid) (mkDatabase (db_committed D) (<[tid := take_snapshot (db_committed D)]> (db_open D)))
| si_write D tid s w : db_open D !! tid = Some s → (∀ v r, is_Some (w v r) → ¬ conflicted D tid v r) →
    si_step D (Wrote tid w) (mkDatabase (db_committed D) (<[tid := write_snapshot w s]> (db_open D)))
| si_conflict D tid s w : db_open D !! tid = Some s → (∃ v r, is_Some (w v r) ∧ conflicted D tid v r) →
    si_step D (Conflicted tid w) D
| si_commit D tid s : db_open D !! tid = Some s →
    si_step D (Committed tid) (mkDatabase (install s (db_committed D)) (stale_after s <$> delete tid (db_open D)))
| si_rollback D tid s : db_open D !! tid = Some s →
    si_step D (RolledBack tid) (mkDatabase (db_committed D) (delete tid (db_open D))).

Inductive si_run {T} : Database T → list (event T) → Database T → Prop :=
| si_run_nil D : si_run D [] D
| si_run_cons D e D' es D'' : si_step D e D' → si_run D' es D'' → si_run D (e :: es) D''.

(** * The manager's invariant *)

Section Manager.
Context {T : Type} (F : UpdateFunctions T) {L : UpdateLaws F} (table : nat → FlatVector T).
Implicit Types (us : UpdateSegment T) (m : DuckTransactionManager T) (d : DuckTransaction).

(** The transaction data of the active transactions. *)
Definition active_data m : list TransactionData := dt_data <$> active_transactions m.

Record manager_ok m : Prop := {
  mo_active : active_ok (active_data m) (current_start_timestamp m);
  mo_time : 0 < current_start_timestamp m;
  mo_ids : TRANSACTION_ID_START ≤ current_transaction_id m < 2 ^ 64 ∧
    ∀ t, t ∈ active_data m → transaction_id t < current_transaction_id m;
  mo_seg : seg_ok (active_data m) (current_start_timestamp m) (next_address m) (txn_segment m);
  mo_start : start_ok (us_start (txn_segment m));
  mo_stats : stats_ok (us_stats (txn_segment m));
  mo_undo : ∀ d, d ∈ active_transactions m → dt_commit_id d = 0 ∧ undo_ok (txn_segment m) (transaction_id (dt_data d)) (dt_undo d);
  mo_recent : Forall (committed_ok (txn_segment m) (current_start_timestamp m) (next_address m)) (recently_committed_transactions m);
}.

(** The value a transaction reads, and the one a transaction that begins now
    reads. *)
Definition reads m (t : TransactionData) (v r : nat) : option T := row_view (txn_segment m) t v r (view (table v) r).
Definition committed_value m (v r : nat) : option T :=
  reads m (reader (current_transaction_id m) (current_start_timestamp m)) v r.

(** A row another transaction committed since [t] began. *)
Definition row_stale m (t : TransactionData) (v r : nat) : Prop :=
  ∃ z, start_time t < z < current_start_timestamp m ∧ row_wrote (txn_segment m) z v r.

Definition cell (v r : nat) : Prop := (v < ROW_GROUP_VECTOR_COUNT)%nat ∧ (r < SVS)%nat ∧ known (table v) r.

Record snapshot_of m (t : TransactionData) (s : Snapshot T) : Prop := {
  so_read : ∀ v r, cell v r → reads m t v r = sn_read s v r;
  so_wrote : ∀ v r, row_wrote (txn_segment m) (transaction_id t) v r ↔ sn_wrote s v r = true;
  so_stale : ∀ v r, row_stale m t v r ↔ sn_stale s v r = true;
}.

(** The manager holds the state of the abstract database. *)
Record refines m (D : Database T) : Prop := {
  rf_committed : ∀ v r, cell v r → committed_value m v r = db_committed D v r;
  rf_open : ∀ t, t ∈ active_data m → ∃ s, db_open D !! transaction_id t = Some s ∧ snapshot_of m t s;
  rf_active : ∀ tid s, db_open D !! tid = Some s → ∃ t, t ∈ active_data m ∧ transaction_id t = tid;
}.

Lemma find_active_ok m tid d :
  find_active tid (active_transactions m) = Some d → d ∈ active_transactions m ∧ transaction_id (dt_data d) = tid.
Proof. intros H%head_Some_elem_of. by apply list_elem_of_filter in H as [? ?]. Qed.

Lemma find_active_data m t :
  manager_ok m → t ∈ active_data m → ∃ d, find_active (transaction_id t) (active_transactions m) = Some d ∧ dt_data d = t.
Proof.
  intros Hm Ht. apply list_elem_of_fmap in Ht as Hd. destruct Hd as (d0 & -> & Hd0). unfold find_active.
  destruct (filter _ _) as [|d l] eqn:E.
  - assert (d0 ∈ filter (λ d, transaction_id (dt_data d) = transaction_id (dt_data d0)) (active_transactions m)) as H by (by apply list_elem_of_filter).
    rewrite E in H. inversion H.
  - exists d. split; [done|]. assert (d ∈ filter (λ d, transaction_id (dt_data d) = transaction_id (dt_data d0)) (active_transactions m)) as H by (rewrite E; left).
    apply list_elem_of_filter in H as [H1 H2]. apply (same_transaction _ _ _ _ (mo_active _ Hm)); [|done | done].
    apply list_elem_of_fmap. eauto.
Qed.
End Manager.
