(* ===== verification/SnapshotSteps.v ===== *)
(** Beginning, committing and rolling back a transaction implement the steps
    of snapshot isolation. *)
From S2P Require Import Prelude Bits SelectionVector Types Stats ValidityMask ChunkInfo RowVersionManager.
From S2P Require Import VersionFacts FilterFacts UpdateSegment UpdateFacts UpdateLaws UpdateChain UpdateSteps UpdateSystem.
From S2P Require Import TransactionManager UpdateUndo SnapshotSpec.

#[local] Opaque ROW_GROUP_VECTOR_COUNT.

Section Steps.
Context {T : Type} (F : UpdateFunctions T) {L : UpdateLaws F} (table : nat → FlatVector T).
Implicit Types (us : UpdateSegment T) (m : DuckTransactionManager T) (d : DuckTransaction) (D : Database T).

(** * Shared facts *)

Lemma wrote_version A limit next us z v r :
  seg_ok A limit next us → row_wrote us z v r → z < limit ∨ ∃ t, t ∈ A ∧ z = transaction_id t.
Proof.
  intros Hus. unfold row_wrote. destruct (node_at us v) as [n|] eqn:E; [|done]. intros (i & Hi & <- & _).
  exact (co_known _ _ _ (sg_chain _ _ _ _ Hus v n E) i Hi).
Qed.

(** The stamps of a new segment come from the old one. *)
Lemma committed_stamps us us' limit limit' next next' d :
  committed_ok us limit next d → limit ≤ limit' → limit ≤ TRANSACTION_ID_START → (next ≤ next')%nat →
  (∀ v, is_Some (node_at us v) → is_Some (node_at us' v)) →
  (∀ v n' a z, node_at us' v = Some n' → (a, z) ∈ stamps n' → (a < next)%nat →
     ∃ n z0, node_at us v = Some n ∧ (a, z0) ∈ stamps n ∧ (z0 = z ∨ TRANSACTION_ID_START ≤ z0)) →
  committed_ok us' limit' next' d.
Proof.
  intros [C1 C2 C3 C4] H1 H2 H3 Hn Hs. split; [lia | done | |].
  - intros v a Hin. destruct (C3 v a Hin). split; [lia | auto].
  - intros v a n' z Hin Hn' Hz. destruct (Hs v n' a z Hn' Hz) as (n & z0 & Hn0 & Hz0 & Hc); [apply (C3 v a Hin)|].
    specialize (C4 v a n z0 Hin Hn0 Hz0). destruct Hc as [<-|?]; [done | lia].
Qed.

(** The manager without transaction [d]: its undo buffer is kept if it has a
    commit id. *)
Definition without m d : DuckTransactionManager T :=
  mkTxnManager (current_start_timestamp m) (current_transaction_id m) (last_commit m) (lowest_active_start m) (lowest_active_id m)
    (filter (λ x, transaction_id (dt_data x) ≠ transaction_id (dt_data d)) (active_transactions m))
    (if negb (bool_decide (dt_undo d = [])) && negb (dt_commit_id d =? 0) then recently_committed_transactions m ++ [d]
     else recently_committed_transactions m)
    (txn_segment m) (next_address m).

Lemma without_data m d : active_data (without m d) = others (active_data m) (dt_data d).
Proof.
  unfold active_data, without, others. cbn [active_transactions]. induction (active_transactions m) as [|x l IH]; [done|].
  cbn [fmap list_fmap]. rewrite !filter_cons. destruct (decide _); [|done]. cbn [fmap list_fmap]. by rewrite IH.
Qed.

Lemma lowest_start l t : t ∈ dt_data <$> l → foldr (λ x, Z.min (start_time (dt_data x))) TRANSACTION_ID_START l ≤ start_time t.
Proof.
  induction l as [|x l IH]; intros Ht; [inversion Ht|]. cbn [foldr]. apply elem_of_cons in Ht as [->|Ht]; [lia|].
  specialize (IH Ht). lia.
Qed.

(** Segments that read alike hold the same database. *)
Lemma refines_same m m' D :
  manager_ok F m → active_data m' = active_data m → current_start_timestamp m' = current_start_timestamp m →
  current_transaction_id m' = current_transaction_id m →
  same_reads (active_data m) (current_start_timestamp m) (txn_segment m) (txn_segment m') → refines F table m D → refines F table m' D.
Proof.
  intros Hm E1 E2 E3 Hs [R1 R2 R3]. destruct (mo_ids _ _ Hm) as [I1 I2]. split.
  - intros v r Hc. rewrite <- R1 by done. unfold committed_value, reads. rewrite E2, E3. apply (sm_begin _ _ _ _ Hs); [apply I1|].
    intros t Ht. specialize (I2 t Ht). lia.
  - rewrite E1. intros t Ht. destruct (R2 t Ht) as (s & Hs1 & [S1 S2 S3]). exists s. split; [done|]. split.
    + intros v r Hc. rewrite <- S1 by done. by apply (sm_view _ _ _ _ Hs).
    + intros v r. rewrite <- S2. apply (sm_wrote _ _ _ _ Hs). left. apply (proj1 (Forall_forall _ _) (ao_txn _ _ (mo_active _ _ Hm)) t Ht).
    + intros v r. rewrite <- S3. unfold row_stale. rewrite E2. split; intros (z & Hz & Hw); exists z; (split; [done|]);
        eapply (sm_wrote _ _ _ _ Hs); try done; right; exists t; (split; [done | lia]).
  - rewrite E1. done.
Qed.

(** [RemoveTransaction] ends a transaction and cleans up. *)
Lemma RemoveTransaction_ok m d D :
  manager_ok F (without m d) → refines F table (without m d) D →
  ∃ m', RemoveTransaction m d (negb (bool_decide (dt_undo d = []))) = Ok m' ∧ manager_ok F m' ∧ refines F table m' D ∧
    us_start (txn_segment m') = us_start (txn_segment m) ∧ active_data m' = others (active_data m) (dt_data d).
Proof.
  intros Hm Hr. destruct Hm as [M1 M2 M3 M4 M5 M6 M7 M8] eqn:EM. clear EM.
  unfold RemoveTransaction. rewrite negb_involutive, andb_negb_r. cbn [mbind result_bind].
  destruct (cleanup_committed_ok (active_data (without m d)) (current_start_timestamp m) (next_address m) (txn_segment m)
    (foldr (λ x, Z.min (start_time (dt_data x))) TRANSACTION_ID_START (active_transactions (without m d)))
    (recently_committed_transactions (without m d))) as (us' & l' & Hcl & Hseg & Hs & Hl'); [done | done | done | by intros t; apply lowest_start|].
  cbn [recently_committed_transactions active_transactions without] in Hcl. rewrite Hcl. cbn [mbind result_bind].
  eexists. split; [done|]. split_and!; [|eapply (refines_same (without m d)); try done | apply (sm_start _ _ _ _ Hs) | apply without_data].
  split; [done | done | done | done | cbn; by rewrite (sm_start _ _ _ _ Hs) | cbn; by rewrite (sm_stats _ _ _ _ Hs) | | done].
  intros x Hx. destruct (M7 x Hx) as [H1 [H2 H3]]. split; [done|]. split; [done|]. intros v a. rewrite H3. cbn [txn_segment].
  rewrite (sm_stamps _ _ _ _ Hs); [done|]. apply (proj1 (Forall_forall _ _) (ao_txn _ _ M1) (dt_data x)). apply list_elem_of_fmap. eauto.
Qed.

(** * Begin *)

Lemma StartTransaction_ok m D :
  manager_ok F m → refines F table m D → current_start_timestamp m + 1 < TRANSACTION_ID_START - 1 → current_transaction_id m + 1 < 2 ^ 64 →
  let t := mkTransaction (current_transaction_id m) (current_start_timestamp m) in
  ∃ m' D', StartTransaction m = Ok (m', t) ∧ manager_ok F m' ∧ si_step D (Began (transaction_id t)) D' ∧ refines F table m' D' ∧
    us_start (txn_segment m') = us_start (txn_segment m) ∧ active_data m' = active_data m ++ [t].
Proof.
  intros [M1 M2 [M3 M3'] M4 M5 M6 M7 M8] [R1 R2 R3] Hroom1 Hroom2 t.
  assert (Hfresh : ∀ t', t' ∈ active_data m → transaction_id t' ≠ transaction_id t) by (intros t' Ht'; specialize (M3' t' Ht'); cbn; lia).
  assert (Hdata : ∀ cs ct lc ls li rc us na, active_data (mkTxnManager cs ct lc ls li (active_transactions m ++ [mkDuckTransaction t 0 []]) rc us na) = active_data m ++ [t])
    by (intros; unfold active_data; cbn; by rewrite fmap_app).
  assert (Hnone : db_open D !! transaction_id t = None).
  { destruct (db_open D !! transaction_id t) as [s|] eqn:E; [|done]. destruct (R3 _ _ E) as (t' & Ht' & E'). by apply Hfresh in Ht'. }
  assert (Hw0 : ∀ v r z, row_wrote (txn_segment m) z v r → z ≠ current_start_timestamp m ∧ z ≠ current_transaction_id m).
  { intros v r z Hw. destruct (wrote_version _ _ _ _ _ _ _ M4 Hw) as [Hz|(t' & Ht' & ->)]; [lia|].
    pose proof (proj1 (Forall_forall _ _) (ao_txn _ _ M1) t' Ht') as [? ?]. specialize (M3' t' Ht'). lia. }
  unfold StartTransaction. rewrite (proj2 (Z.leb_gt _ _)) by lia. rewrite !wrapu_small by lia.
  eexists _, _. split; [done|]. split_and!; [| by constructor | | done | by rewrite Hdata].
  - split; rewrite ?Hdata; cbn [current_start_timestamp current_transaction_id next_address txn_segment active_transactions recently_committed_transactions].
    + apply begin_active; [done | lia | done | cbn; lia | done].
    + lia.
    + split; [lia|]. intros t' [Ht'| ->%list_elem_of_singleton]%elem_of_app; [specialize (M3' t' Ht'); lia | cbn; lia].
    + apply begin_seg; [done | done | cbn; lia | done].
    + done.
    + done.
    + intros d [Hd| ->%list_elem_of_singleton]%elem_of_app; [by apply M7|]. split; [done|]. split; [constructor|]. cbn. intros v a.
      split; [intros H; inversion H|]. intros (_ & n & Hn & (i & Hi & Ha & Hv)%stamps_elem)%own_stamps_elem. exfalso.
      destruct (co_known _ _ _ (sg_chain _ _ _ _ M4 v n Hn) i Hi) as [Hz|(t' & Ht' & Hz)]; [lia|]. specialize (M3' t' Ht'). lia.
    + apply (Forall_impl _ _ _ M8). intros d Hd. eapply committed_stamps; try done; [lia | lia|]. eauto 10.
  - split; rewrite ?Hdata; cbn [db_committed db_open].
    + intros v r Hc. rewrite <- R1 by done. unfold committed_value, reads. cbn [current_start_timestamp current_transaction_id txn_segment].
      eapply (reader_view (active_data m)); try done; try lia. intros t' Ht'. specialize (M3' t' Ht'). lia.
    + intros t' [Ht'| ->%list_elem_of_singleton]%elem_of_app.
      * rewrite lookup_insert_ne by (intros E; by apply (Hfresh t')). destruct (R2 t' Ht') as (s & Hs & [S1 S2 S3]). exists s. split; [done|].
        split; [done | done|]. intros v r. rewrite <- S3. unfold row_stale. cbn [current_start_timestamp txn_segment].
        split; intros (z & Hz & Hw); exists z; (split; [|done]); specialize (Hw0 v r z Hw); lia.
      * rewrite lookup_insert_eq. eexists. split; [done|]. split; cbn.
        -- intros v r Hc. rewrite <- R1 by done. done.
        -- intros v r. split; [|done]. intros Hw. by destruct (Hw0 v r _ Hw).
        -- intros v r. split; [|done]. intros (z & Hz & _). cbn in Hz. lia.
    + intros tid s. destruct (decide (tid = transaction_id t)) as [->|Hne]; [exists t; split; [apply elem_of_app; right; left | done]|].
      rewrite lookup_insert_ne by done. intros Hs. destruct (R3 tid s Hs) as (t' & Ht' & ?). exists t'. split; [apply elem_of_app; by left | done].
Qed.

(** * Commit *)

(** The rows of the commit's version are those of the transaction. *)
Lemma commit_wrote us us' limit t z v r :
  (∀ v, node_at us' v = commit_node limit t <$> node_at us v) → limit ≠ transaction_id t → ¬ row_wrote us limit v r →
  row_wrote us' z v r ↔ (z = limit ∧ row_wrote us (transaction_id t) v r) ∨ (z ≠ transaction_id t ∧ row_wrote us z v r).
Proof.
  intros Hn Hne. unfold row_wrote. rewrite Hn. destruct (node_at us v) as [n|]; [|cbn; tauto]. cbn. unfold wrote, commit_node. cbn [node_next].
  intros Hno. split.
  - intros (i & (j & -> & Hj)%list_elem_of_fmap & Hv & Hr). rewrite commit_entries in Hr. unfold commit_info in Hv.
    destruct (decide (version_number j = transaction_id t)) as [E|E]; [left | right; split; [by rewrite <- Hv | eauto]].
    split; [by rewrite <- Hv | eauto].
  - intros [[-> (i & Hi & Hv & Hr)]|[Hz (i & Hi & Hv & Hr)]]; exists (commit_info limit t i);
      (split; [apply list_elem_of_fmap; eauto|]); (split; [|by rewrite commit_entries]); unfold commit_info.
    + by rewrite decide_True.
    + by rewrite decide_False by congruence.
Qed.

Lemma CommitTransaction_succeeds m D t d failure :
  manager_ok F m → refines F table m D → t ∈ active_data m → current_start_timestamp m + 1 < TRANSACTION_ID_START - 1 →
  find_active (transaction_id t) (active_transactions m) = Some d → failure = None ∨ dt_undo d = [] →
  ∃ m' D', CommitTransaction F m (transaction_id t) failure = Ok (m', false) ∧ manager_ok F m' ∧ si_step D (Committed (transaction_id t)) D' ∧
    refines F table m' D' ∧ us_start (txn_segment m') = us_start (txn_segment m) ∧ active_data m' = others (active_data m) t.
Proof.
  intros Hm [R1 R2 R3] Ht Hroom Hd Hfail. destruct (find_active_data F m t Hm Ht) as (d0 & Hd0 & <-). rewrite Hd in Hd0. injection Hd0 as <-.
  destruct (find_active_ok m _ _ Hd) as [Hin _].
  destruct Hm as [M1 M2 [M3 M3'] M4 M5 M6 M7 M8] eqn:EM. clear EM.
  destruct (M7 d Hin) as [Hcid Hundo]. destruct (R2 _ Ht) as (s & Hs & [S1 S2 S3]).
  set (limit := current_start_timestamp m) in *. set (us := txn_segment m) in *.
  destruct (UndoBuffer_Commit_ok _ limit _ us (dt_data d) (dt_undo d) M4 Hundo) as (us' & Hc & U1 & U2 & U3 & U4).
  pose proof (λ t' Ht', proj1 (Forall_forall _ _) (ao_txn _ _ M1) t' Ht') as Htx.
  assert (Hcw : ∀ z v r, row_wrote us' z v r ↔ (z = limit ∧ row_wrote us (transaction_id (dt_data d)) v r) ∨ (z ≠ transaction_id (dt_data d) ∧ row_wrote us z v r)).
  { intros z v r. apply commit_wrote; [done | destruct (Htx _ Ht); lia|]. intros [H|(t' & Ht' & E)]%(wrote_version _ _ _ _ _ _ _ M4); [lia|].
    destruct (Htx _ Ht'). lia. }
  unfold CommitTransaction. rewrite Hd. unfold GetCommitTimestamp. fold limit us. rewrite (wrapu_small 64) by lia. cbn [txn_segment].
  assert (DuckTransaction_Commit us d limit failure = Ok (us', false)) as ->.
  { unfold DuckTransaction_Commit. destruct (decide (dt_undo d = [])) as [E|E].
    - rewrite bool_decide_true by done. rewrite E in Hc. by injection Hc as ->.
    - rewrite bool_decide_false by done. destruct Hfail as [->|?]; [|done]. rewrite Hc. done. }
  cbn [mbind result_bind]. rewrite orb_false_r.
  set (m1 := set_segment _ us'). set (d1 := mkDuckTransaction _ limit _).
  assert (Hwd : active_data (without m1 d1) = others (active_data m) (dt_data d)) by apply (without_data m1 d1).
  destruct (RemoveTransaction_ok m1 d1 (mkDatabase (install s (db_committed D)) (stale_after s <$> delete (transaction_id (dt_data d)) (db_open D))))
    as (m' & H1 & H2 & H3 & H4 & H5).
  - split; rewrite ?Hwd; cbn [without current_start_timestamp current_transaction_id next_address txn_segment recently_committed_transactions m1 set_segment].
    + eapply others_ok; [done | lia | lia].
    + lia.
    + split; [done|]. intros t' [_ Ht']%others_elem. by apply M3'.
    + by eapply commit_seg.
    + by rewrite U2.
    + by rewrite U3.
    + intros x Hx. cbn in Hx. apply list_elem_of_filter in Hx as [Hne Hx]. destruct (M7 x Hx) as [H1 [H2 H3]]. split; [done|]. split; [done|].
      intros v a. rewrite H3. rewrite (commit_other_stamps limit us (dt_data d) us' _ v); [done | done | | done].
      assert (dt_data x ∈ active_data m) as Hx' by (apply list_elem_of_fmap; eauto). destruct (Htx _ Hx'). lia.
    + assert (Forall (committed_ok us' (limit + 1) (next_address m)) (recently_committed_transactions m)) as Hold.
      { apply (Forall_impl _ _ _ M8). intros x Hx. eapply committed_stamps; [done | lia | lia | lia | |].
        - intros v [n Hn]. rewrite U4, Hn. eauto.
        - intros v n' a z. rewrite U4. destruct (node_at us v) as [n|]; [|done]. intros [= <-] (i & Hi & Ha & Hz)%stamps_elem _.
          apply list_elem_of_fmap in Hi as (j & -> & Hj). exists n, (version_number j). split; [done|]. unfold commit_info in Ha, Hz.
          destruct (decide (version_number j = transaction_id (dt_data d))) as [E|E]; cbn in Ha.
          + split; [apply stamps_elem; eauto|]. right. rewrite E. apply (Htx _ Ht).
          + split; [apply stamps_elem; eauto|]. by left. }
      cbn [dt_undo dt_commit_id d1]. destruct (negb _ && negb _); [|done]. apply Forall_app. split; [done|]. constructor; [|constructor].
      split; cbn [dt_undo dt_commit_id d1]; [lia | apply Hundo | |].
      * intros v a Hva. destruct (undo_vector _ _ _ _ _ Hundo Hva) as (n & Hn & Ha). rewrite U4, Hn. split; [|eauto].
        apply (sg_next _ _ _ _ M4 v n a Hn). apply list_elem_of_fmap. by exists (a, transaction_id (dt_data d)).
      * intros v a n' z Hva. rewrite U4. destruct (undo_vector _ _ _ _ _ Hundo Hva) as (n & Hn & Ha). fold us in Hn. rewrite Hn. intros [= <-].
        intros (i & (j & -> & Hj)%list_elem_of_fmap & Hia & <-)%stamps_elem.
        pose proof (address_version _ _ _ _ _ _ _ _ _ M4 Hn Ha Hj) as Hav. unfold commit_info in *. destruct (decide _) as [E|E]; [done|]. tauto.
  - split; rewrite ?Hwd; cbn [db_committed db_open].
    + intros v r Hc'. unfold install, committed_value, reads. cbn [without current_start_timestamp current_transaction_id txn_segment m1 set_segment].
      specialize (R1 v r Hc'). specialize (S1 v r Hc'). specialize (S2 v r). unfold committed_value, reads, row_view, row_wrote in *. fold us in R1, S1, S2. rewrite U4.
      destruct (node_at us v) as [n|] eqn:En; cbn [fmap option_fmap option_map].
      * assert (∀ t', t' ∈ active_data m → transaction_id t' ≠ current_transaction_id m) as Hg by (intros t' Ht'; specialize (M3' t' Ht'); lia).
        destruct (commit_view _ limit _ n M1 Ht (sg_chain _ _ _ _ M4 v n En) Hroom (current_transaction_id m) r (view (table v) r) (proj1 M3) Hg) as [V1 V2].
        destruct (sn_wrote s v r); [rewrite V1 by (by apply S2); done|]. rewrite V2; [done|]. intros Hw. by apply S2 in Hw.
      * destruct (sn_wrote s v r) eqn:E; [|done]. exfalso. by apply S2.
    + intros t' [Hne Ht']%others_elem. destruct (R2 t' Ht') as (s' & Hs' & [S1' S2' S3']). exists (stale_after s s').
      rewrite lookup_fmap, lookup_delete_ne, Hs' by congruence. split; [done|]. split.
      * intros v r Hc'. cbn [stale_after sn_read]. rewrite <- S1' by done. unfold reads, row_view. cbn [without txn_segment m1 set_segment]. rewrite U4. fold us.
        destruct (node_at us v) as [n|] eqn:En; [|done]. eapply (commit_other (active_data m)); try done. by apply others_elem.
      * intros v r. cbn [stale_after sn_wrote]. rewrite <- S2'. cbn [without txn_segment m1 set_segment]. rewrite Hcw. fold us. destruct (Htx _ Ht'). split; [intros [[? _]|[_ ?]]; [lia | done] | right; done].
      * intros v r. cbn [stale_after sn_stale]. rewrite orb_true_iff, <- S3', <- S2. unfold row_stale. cbn [without current_start_timestamp txn_segment m1 set_segment]. fold limit us.
        pose proof (ao_start _ _ M1 t' Ht') as Hst. fold limit in Hst. destruct (Htx _ Ht). split.
        -- intros (z & Hz & [[-> Hw]|[Hz' Hw]]%Hcw); [by right|]. left. exists z. split; [|done].
           destruct (wrote_version _ _ _ _ _ _ _ M4 Hw) as [?|(t2 & Ht2 & ->)]; [lia|]. destruct (Htx _ Ht2). lia.
        -- intros [(z & Hz & Hw)|Hw]; [exists z | exists limit]; (split; [lia|]); apply Hcw; [right; split; [lia | done] | by left].
    + intros tid s'. rewrite lookup_fmap, fmap_Some. intros (s0 & [Hne Hs0]%lookup_delete_Some & _). destruct (R3 _ _ Hs0) as (t' & Ht' & <-).
      exists t'. split; [|done]. apply others_elem. split; [congruence | done].
  - eexists m', _. split; [change (dt_undo d) with (dt_undo d1); rewrite H1; done|]. split_and!; [done | by econstructor | done | by rewrite H4 | done].
Qed.

(** * Rollback *)

(** A rolled back segment lacks the transaction's infos and reads alike for
    all the others. *)
Record rolled_segment us us' (t : TransactionData) : Prop := {
  rs_view : ∀ t' v r x, txn_ok t' → transaction_id t' ≠ transaction_id t → row_view us' t' v r x = row_view us t' v r x;
  rs_wrote : ∀ z v r, z ≠ transaction_id t → row_wrote us' z v r ↔ row_wrote us z v r;
  rs_stamps : ∀ tid v, tid ≠ transaction_id t → own_stamps us' tid v = own_stamps us tid v;
  rs_nodes : ∀ v, is_Some (node_at us v) → is_Some (node_at us' v);
  rs_sub : ∀ v n' s, node_at us' v = Some n' → s ∈ stamps n' → ∃ n, node_at us v = Some n ∧ s ∈ stamps n;
}.

Lemma rollback_segment A limit next us us' t (undo : list (nat * nat)) :
  active_ok A limit → seg_ok A limit next us → t ∈ A →
  (∀ v, v ∉ undo.*1 → node_at us' v = node_at us v) →
  (∀ v a, (v, a) ∈ undo → ∃ n n', node_at us v = Some n ∧ node_at us' v = Some n' ∧ rolled_back t n n') →
  rolled_segment us us' t.
Proof.
  intros HA Hus Ht H5 H6.
  assert (Hcase : ∀ v, node_at us' v = node_at us v ∨ ∃ n n', node_at us v = Some n ∧ node_at us' v = Some n' ∧ rolled_back t n n').
  { intros v. destruct (decide (v ∈ undo.*1)) as [([v' a] & -> & Hin)%list_elem_of_fmap|Hv]; [right; by eapply H6 | left; by apply H5]. }
  split.
  - intros t' v r x Ht' Hne. unfold row_view. destruct (Hcase v) as [->|(n & n' & Hn & Hn' & (pre & u & post & b & E & Hver & Hb & Ab & ->))]; [done|].
    rewrite Hn, Hn'. eapply (rolled_other A limit t); try done. by apply (sg_chain _ _ _ _ Hus v).
  - intros z v r Hz. unfold row_wrote. destruct (Hcase v) as [->|(n & n' & Hn & Hn' & (pre & u & post & b & E & Hver & Hb & Ab & ->))]; [done|].
    rewrite Hn, Hn'. unfold wrote, rolled_node. cbn [node_next]. rewrite E. split; intros (i & Hi & Hv & Hr); exists i; (split; [|done]).
    + apply elem_of_app in Hi as [Hi|Hi]; apply elem_of_app; [by left | right; by right].
    + apply elem_of_app in Hi as [Hi|[->|Hi]%elem_of_cons]; apply elem_of_app; [by left | congruence | by right].
  - intros tid v Hne. unfold own_stamps. destruct (Hcase v) as [->|(n & n' & Hn & Hn' & (pre & u & post & b & E & Hver & Hb & Ab & ->))]; [done|].
    rewrite Hn, Hn'. unfold stamps, rolled_node. cbn [node_next]. rewrite E, !fmap_app, !filter_app. f_equal. cbn [fmap list_fmap].
    rewrite filter_cons_False; [done|]. cbn. congruence.
  - intros v [n Hn]. destruct (Hcase v) as [->|(n2 & n' & Hn2 & Hn' & _)]; eauto.
  - intros v n2 s Hn2 Hs. destruct (Hcase v) as [E|(n & n' & Hn & Hn' & (pre & u & post & b & E & Hver & Hb & Ab & ->))]; [rewrite E in Hn2; eauto|].
    rewrite Hn' in Hn2. injection Hn2 as <-. exists n. split; [done|]. unfold stamps, rolled_node in *. cbn [node_next] in Hs.
    rewrite E, fmap_app, fmap_cons. rewrite fmap_app in Hs. apply elem_of_app in Hs as [Hs|Hs]; apply elem_of_app; [by left | right; by right].
Qed.

Lemma RollbackTransaction_ok m D t :
  manager_ok F m → refines F table m D → t ∈ active_data m →
  ∃ m' D', RollbackTransaction F m (transaction_id t) = Ok m' ∧ manager_ok F m' ∧ si_step D (RolledBack (transaction_id t)) D' ∧
    refines F table m' D' ∧ us_start (txn_segment m') = us_start (txn_segment m) ∧ active_data m' = others (active_data m) t.
Proof.
  intros Hm [R1 R2 R3] Ht. destruct (find_active_data F m t Hm Ht) as (d & Hd & <-). destruct (find_active_ok m _ _ Hd) as [Hin _].
  destruct Hm as [M1 M2 [M3 M3'] M4 M5 M6 M7 M8] eqn:EM. clear EM.
  destruct (M7 d Hin) as [Hcid Hundo]. destruct (R2 _ Ht) as (s & Hs & _).
  destruct (UndoBuffer_Rollback_ok _ _ _ F (txn_segment m) (dt_data d) (dt_undo d) M4 Hundo) as (us' & Hc & U1 & U2 & U3 & U4 & U5).
  pose proof (rollback_segment _ _ _ _ _ _ _ M1 M4 Ht U4 U5) as [V1 V2 V3 V4 V5].
  pose proof (λ t' Ht', proj1 (Forall_forall _ _) (ao_txn _ _ M1) t' Ht') as Htx. pose proof (ao_limit _ _ M1) as Hlim.
  unfold RollbackTransaction. rewrite Hd, Hc. cbn [mbind result_bind]. set (m1 := set_segment m us').
  assert (Hwd : active_data (without m1 d) = others (active_data m) (dt_data d)) by apply (without_data m1 d).
  destruct (RemoveTransaction_ok m1 d (mkDatabase (db_committed D) (delete (transaction_id (dt_data d)) (db_open D)))) as (m' & H1 & H2 & H3 & H4 & H5).
  - split; rewrite ?Hwd; cbn [without current_start_timestamp current_transaction_id next_address txn_segment recently_committed_transactions m1 set_segment].
    + eapply others_ok; [done | lia | lia].
    + done.
    + split; [done|]. intros t' [_ Ht']%others_elem. by apply M3'.
    + by eapply rollback_seg.
    + by rewrite U2.
    + by rewrite U3.
    + intros x Hx. cbn in Hx. apply list_elem_of_filter in Hx as [Hne Hx]. destruct (M7 x Hx) as [X1 [X2 X3]]. split; [done|]. split; [done|].
      intros v a. by rewrite X3, V3.
    + rewrite Hcid, andb_false_r. apply (Forall_impl _ _ _ M8). intros x Hx. eapply committed_stamps; [done | lia | lia | lia | done |].
      intros v n' a z Hn' Hz _. destruct (V5 v n' _ Hn' Hz) as (n & Hn & Hz'). exists n, z. auto.
  - split; rewrite ?Hwd; cbn [db_committed db_open].
    + intros v r Hc'. rewrite <- R1 by done. apply V1; [split; cbn; lia|]. specialize (M3' _ Ht). cbn. lia.
    + intros t' [Hne Ht']%others_elem. destruct (R2 t' Ht') as (s' & Hs' & [S1 S2 S3]). exists s'. rewrite lookup_delete_ne by congruence. split; [done|].
      split.
      * intros v r Hc'. rewrite <- S1 by done. apply V1; [by apply Htx | done].
      * intros v r. rewrite <- S2. by apply V2.
      * intros v r. rewrite <- S3. unfold row_stale. cbn [without current_start_timestamp txn_segment m1 set_segment]. destruct (Htx _ Ht).
        split; intros (z & Hz & Hw); exists z; (split; [done|]); (eapply V2; [lia | exact Hw]).
    + intros tid s' [Hne Hs']%lookup_delete_Some. destruct (R3 _ _ Hs') as (t' & Ht' & <-).
      exists t'. split; [|done]. apply others_elem. split; [congruence | done].
  - eexists m', _. split; [exact H1|]. split_and!; [done | by econstructor | done | by rewrite H4 | done].
Qed.

(** * A commit that fails *)

Lemma seg_later A limit next us : seg_ok A limit next us → seg_ok A (limit + 1) next us.
Proof.
  intros [S1 S2 S3 S4]. split; [done | | done | done]. intros v n Hn. destruct (S2 v n Hn) as [H1 H2 H3 H4 H5 H6 H7]. split; try done.
  intros i Hi. destruct (H6 i Hi) as [H|H]; [left; lia | by right].
Qed.

(** Taking a timestamp changes nothing a transaction sees. *)
Lemma GetCommitTimestamp_ok m D :
  manager_ok F m → refines F table m D → current_start_timestamp m + 1 < TRANSACTION_ID_START - 1 →
  manager_ok F (GetCommitTimestamp m).1 ∧ refines F table (GetCommitTimestamp m).1 D.
Proof.
  intros [M1 M2 [M3 M3'] M4 M5 M6 M7 M8] [R1 R2 R3] Hroom.
  assert (Hw0 : ∀ v r z, row_wrote (txn_segment m) z v r → z ≠ current_start_timestamp m).
  { intros v r z Hw. destruct (wrote_version _ _ _ _ _ _ _ M4 Hw) as [Hz|(t' & Ht' & ->)]; [lia|].
    pose proof (proj1 (Forall_forall _ _) (ao_txn _ _ M1) t' Ht') as [? ?]. lia. }
  unfold GetCommitTimestamp. rewrite wrapu_small by lia. cbn [fst]. split.
  - split; try done; cbn [current_start_timestamp current_transaction_id next_address txn_segment active_transactions recently_committed_transactions].
    + destruct M1 as [A1 A2 A3 A4]. split; [done | | done | lia]. intros t Ht. specialize (A2 t Ht). lia.
    + lia.
    + by apply seg_later.
    + apply (Forall_impl _ _ _ M8). intros d Hd. eapply committed_stamps; try done; [lia | lia|]. eauto 10.
  - split; [|intros t Ht|done].
    + intros v r Hc. rewrite <- R1 by done. unfold committed_value, reads. cbn [current_start_timestamp current_transaction_id txn_segment].
      eapply (reader_view (active_data m)); try done; try lia. intros t' Ht'. specialize (M3' t' Ht'). lia.
    + destruct (R2 t Ht) as (s & Hs & [S1 S2 S3]). exists s. split; [done|]. split; [done | done|]. intros v r. rewrite <- S3. unfold row_stale.
      cbn [current_start_timestamp txn_segment]. split; intros (z & Hz & Hw); exists z; (split; [|done]); specialize (Hw0 v r z Hw); lia.
Qed.

(** Segments with the same chains and statistics. *)
Lemma same_chains_manager m us' :
  manager_ok F m → seg_shape us' → us_start us' = us_start (txn_segment m) → us_stats us' = us_stats (txn_segment m) →
  (∀ v, node_at us' v = node_at (txn_segment m) v) → manager_ok F (set_segment m us').
Proof.
  intros [M1 M2 M3 M4 M5 M6 M7 M8] Hs E1 E2 Hn. split; try done; cbn [set_segment txn_segment].
  - by eapply same_chains_ok.
  - by rewrite E1.
  - by rewrite E2.
  - intros d Hd. destruct (M7 d Hd) as [H1 [H2 H3]]. split; [done|]. split; [done|]. intros v a. rewrite H3. unfold own_stamps. by rewrite Hn.
  - apply (Forall_impl _ _ _ M8). intros d [C1 C2 C3 C4]. split; [done | done | |].
    + intros v a Hin. rewrite Hn. by apply C3.
    + intros v a n z Hin. rewrite Hn. by apply C4.
Qed.

(** Managers with the same chains. *)
Lemma chains_refines m m' D :
  refines F table m D → (∀ v, node_at (txn_segment m') v = node_at (txn_segment m) v) → active_data m' = active_data m →
  current_start_timestamp m' = current_start_timestamp m → current_transaction_id m' = current_transaction_id m → refines F table m' D.
Proof.
  intros [R1 R2 R3] Hn Edata Ecst Ectid.
  assert (Hreads : ∀ t' v' r', reads F table m' t' v' r' = reads F table m t' v' r') by (intros; unfold reads, row_view; by rewrite Hn).
  assert (Hwr : ∀ z v' r', row_wrote (txn_segment m') z v' r' ↔ row_wrote (txn_segment m) z v' r') by (intros; unfold row_wrote; by rewrite Hn).
  split; rewrite ?Edata; [|intros t' Ht'|done].
  - intros v' r' Hc. rewrite <- R1 by done. unfold committed_value. rewrite Ecst, Ectid. apply Hreads.
  - destruct (R2 t' Ht') as (s' & Hs' & [S1 S2 S3]). exists s'. split; [done|]. split; intros v' r'.
    + rewrite Hreads. apply S1.
    + rewrite Hwr. apply S2.
    + rewrite <- S3. unfold row_stale. rewrite Ecst. by setoid_rewrite Hwr.
Qed.

(** Whatever the failure, the segment is back to what it was. *)
Lemma DuckTransaction_Commit_fails A limit next us d commit_id f :
  seg_ok A limit next us → undo_ok us (transaction_id (dt_data d)) (dt_undo d) → dt_undo d ≠ [] →
  ∃ us', DuckTransaction_Commit us d commit_id (Some f) = Ok (us', true) ∧ seg_shape us' ∧ us_start us' = us_start us ∧
    us_stats us' = us_stats us ∧ ∀ v, node_at us' v = node_at us v.
Proof.
  intros Hus Hu Hne. pose proof (un_unique _ _ _ Hu) as Hd. unfold DuckTransaction_Commit. rewrite bool_decide_false by done.
  assert (Htake : ∀ k, NoDup (take k (dt_undo d)).*1) by (intros k; rewrite <- (take_drop k (dt_undo d)), fmap_app in Hd; by apply NoDup_app in Hd as (? & _ & _)).
  destruct f as [|k|].
  - destruct (revert_commit_ok A limit next us (dt_data d) (dt_undo d) [] (dt_undo d) commit_id) as (us1 & us' & H1 & H2 & H3);
      try done; [constructor | intros e He; inversion He|]. injection H1 as <-. rewrite H2. by exists us'.
  - destruct (revert_commit_ok A limit next us (dt_data d) (dt_undo d) (take k (dt_undo d)) (take (S k) (dt_undo d)) commit_id)
      as (us1 & us' & H1 & H2 & H3); try done.
    + intros e (i & Hi & Hlt)%elem_of_take. apply elem_of_take. exists i. split; [done | lia].
    + intros e (i & Hi & _)%elem_of_take. by apply list_elem_of_lookup_2 in Hi.
    + rewrite H1. cbn [mbind result_bind]. rewrite H2. by exists us'.
  - destruct (revert_commit_ok A limit next us (dt_data d) (dt_undo d) (dt_undo d) (dt_undo d) commit_id) as (us1 & us' & H1 & H2 & H3); try done.
    rewrite H1. cbn [mbind result_bind]. rewrite H2. by exists us'.
Qed.

Lemma CommitTransaction_fails m D t d f :
  manager_ok F m → refines F table m D → t ∈ active_data m → current_start_timestamp m + 1 < TRANSACTION_ID_START - 1 →
  find_active (transaction_id t) (active_transactions m) = Some d → dt_undo d ≠ [] →
  ∃ m' D', CommitTransaction F m (transaction_id t) (Some f) = Ok (m', true) ∧ manager_ok F m' ∧ si_step D (RolledBack (transaction_id t)) D' ∧
    refines F table m' D' ∧ us_start (txn_segment m') = us_start (txn_segment m) ∧ active_data m' = others (active_data m) t.
Proof.
  intros Hm Hr Ht Hroom Hd Hne. destruct (find_active_ok m _ _ Hd) as [Hin Eid]. destruct (mo_undo _ _ Hm d Hin) as [Hcid Hundo].
  destruct (DuckTransaction_Commit_fails _ _ _ (txn_segment m) d (current_start_timestamp m) f (mo_seg _ _ Hm) Hundo Hne) as (us' & Hc & U1 & U2 & U3 & U4).
  destruct (GetCommitTimestamp_ok m D Hm Hr Hroom) as [Hm1 Hr1].
  destruct (RollbackTransaction_ok (set_segment (GetCommitTimestamp m).1 us') D t) as (m' & D' & H1 & H2 & H3 & H4 & H5 & H6).
  - by apply same_chains_manager.
  - by eapply chains_refines.
  - done.
  - exists m', D'. split; [|split_and!; try done; by rewrite H5]. unfold CommitTransaction. rewrite Hd. cbn [GetCommitTimestamp]. cbn [txn_segment].
    rewrite Hc. cbn [mbind result_bind]. unfold RollbackTransaction in H1. cbn [set_segment active_transactions GetCommitTimestamp fst] in H1. rewrite Hd in H1.
    cbn [set_segment txn_segment] in H1. destruct (UndoBuffer_Rollback F us' (dt_undo d)) as [us''|]; [|done]. cbn [mbind result_bind] in *.
    rewrite bool_decide_false in H1 by done. rewrite orb_true_r. destruct d as [dd dc du]. cbn in Hcid. subst dc.
    cbn [dt_data dt_undo] in *. cbn [negb] in H1. unfold set_segment in *. cbn in H1 |- *. rewrite H1. done.
Qed.

(** Both outcomes of a commit. *)
Lemma CommitTransaction_ok m D t failure :
  manager_ok F m → refines F table m D → t ∈ active_data m → current_start_timestamp m + 1 < TRANSACTION_ID_START - 1 →
  ∃ m' error D', CommitTransaction F m (transaction_id t) failure = Ok (m', error) ∧ manager_ok F m' ∧
    si_step D (if error : bool then RolledBack (transaction_id t) else Committed (transaction_id t)) D' ∧ (error = true → failure ≠ None) ∧
    refines F table m' D' ∧ us_start (txn_segment m') = us_start (txn_segment m) ∧ active_data m' = others (active_data m) t.
Proof.
  intros Hm Hr Ht Hroom. destruct (find_active_data F m t Hm Ht) as (d & Hd & _).
  destruct (decide (failure = None ∨ dt_undo d = [])) as [Hc|Hc].
  - destruct (CommitTransaction_succeeds m D t d failure Hm Hr Ht Hroom Hd Hc) as (m' & D' & ? & ? & ? & ? & ? & ?). by exists m', false, D'.
  - destruct failure as [f|]; [|exfalso; apply Hc; by left].
    destruct (CommitTransaction_fails m D t d f Hm Hr Ht Hroom Hd) as (m' & D' & ? & ? & ? & ? & ? & ?); [intros E; apply Hc; by right|].
    by exists m', true, D'.
Qed.
End Steps.
