(* ===== verification/SnapshotRun.v ===== *)
(** An update implements the write step of snapshot isolation or fails with the
    conflict the specification has; sequences of operations of concurrent
    transactions implement runs of the specification. *)
From S2P Require Import Prelude Bits SelectionVector Types Stats FilterFacts ValidityMask ChunkInfo RowVersionManager VersionFacts UpdateSegment UpdateFacts UpdateLaws UpdateChain.
From S2P Require Import UpdateSteps UpdateSystem TransactionManager UpdateUndo SnapshotSpec SnapshotSteps.

#[local] Opaque ROW_GROUP_VECTOR_COUNT.

Section Update.
Context {T : Type} (F : UpdateFunctions T) {L : UpdateLaws F} (table : nat → FlatVector T).
Implicit Types (us : UpdateSegment T) (m : DuckTransactionManager T) (d : DuckTransaction) (D : Database T).

(** The row id of a row of the segment. *)
Definition row_id (start : Z) (v r : nat) : Z := start + Z.of_nat v * Z.of_nat SVS + Z.of_nat r.

(** [w] sets the rows of the update's ids to the update's values. *)
Record requests (start : Z) (update : FlatVector T) (ids : list Z) (count : nat) (w : write_set T) : Prop := {
  rq_some : ∀ v r x, w v r = Some x → ∃ i, i ∈ written update count ∧ ids !! i = Some (row_id start v r) ∧ view update i = Some x;
  rq_all : ∀ v r i, (r < SVS)%nat → i ∈ written update count → ids !! i = Some (row_id start v r) → is_Some (w v r);
}.

(** The write set of the sorted rows of an update to vector [v]. *)
Definition rows_write us (update : FlatVector T) (v : nat) (rows : list (nat * Z)) : write_set T :=
  λ v' r, if decide (v' = v) then entry_at (offsets (vector_offset us v) rows) (Z.of_nat r) ≫= view update else None.

Section Rows.
Context (us : UpdateSegment T) (update base : FlatVector T) (ids : list Z) (count v : nat) (rows : list (nat * Z)).
Hypothesis Hfits : update_fits F us update base ids count v.
Hypothesis Hrows : sorted_rows ids (written update count) rows.

Lemma rows_write_some v' r : is_Some (rows_write us update v rows v' r) ↔ v' = v ∧ Z.of_nat r ∈ (offsets (vector_offset us v) rows).*1.
Proof.
  destruct (update_rows_ok F us update base ids count v Hfits rows Hrows) as [_ Hi]. unfold rows_write.
  destruct (decide (v' = v)) as [->|]; [|split; [by intros [? ?] | tauto]]. rewrite <- entry_at_is_Some.
  destruct (entry_at _ _) as [i|] eqn:E; cbn; [|split; [by intros [? ?] | intros [_ [? ?]]; done]].
  split; [eauto|]. intros _. apply view_total; [apply Hfits|]. apply entry_at_Some, list_elem_of_fmap in E as (row & [= _ ->] & Hin). by apply Hi.
Qed.

Lemma rows_write_requests : requests (us_start us) update ids count (rows_write us update v rows).
Proof.
  destruct Hrows as [H1 H2 H3]. split.
  - intros v' r x. unfold rows_write. destruct (decide (v' = v)) as [->|]; [|done]. intros (i & Hi & Hx)%bind_Some. exists i.
    apply entry_at_Some, list_elem_of_fmap in Hi as ([i' id] & [= Hr ->] & Hin). destruct (H2 i' id Hin) as [Hw Hl]. split_and!; [done | | done].
    rewrite Hl. f_equal. unfold row_id, vector_offset in *. lia.
  - intros v' r i Hr Hi Hid. apply rows_write_some. assert (Hv : v' = v).
    { destruct (uf_ids _ _ _ _ _ _ _ Hfits i _ (written_below _ _ _ Hi) Hid) as [A1 A2]. unfold row_id, vector_offset in *.
      pose proof vector_size_pos. nia. }
    split; [done|]. subst v'. specialize (H3 i _ Hi Hid). apply list_elem_of_fmap in H3 as ([i' id] & E & Hin). cbn in E.
    apply list_elem_of_fmap. exists (id - vector_offset us v, i'). split; [cbn; unfold row_id, vector_offset in *; lia|].
    apply list_elem_of_fmap. by exists (i', id).
Qed.

(** A conflict of the segment is a conflict of the database. *)
Lemma conflict_iff m D t :
  us = txn_segment m → manager_ok F m → refines F table m D → t ∈ active_data m →
  update_conflict us t v rows ↔ ∃ v' r, is_Some (rows_write us update v rows v' r) ∧ conflicted D (transaction_id t) v' r.
Proof.
  intros E Hm [_ R2 R3] Ht. pose proof (mo_active _ _ Hm) as HA. pose proof (mo_seg _ _ Hm) as Hus. rewrite <- E in Hus.
  pose proof (λ t' Ht', proj1 (Forall_forall _ _) (ao_txn _ _ HA) t' Ht') as Htx.
  destruct (update_rows_ok F us update base ids count v Hfits rows Hrows) as [[_ Ho] _]. rewrite Forall_forall in Ho.
  split.
  - intros (n & i & r & Hn & Hi & Hu & Hr1 & Hr2). exists v, (Z.to_nat r).
    assert (Z.of_nat (Z.to_nat r) = r) as Er by (specialize (Ho r Hr1); lia).
    split; [apply rows_write_some; by rewrite Er|].
    assert (Hw : row_wrote us (version_number i) v (Z.to_nat r)) by (unfold row_wrote; rewrite Hn; exists i; by rewrite Er).
    unfold unseen, use_old_version in Hu. destruct (co_known _ _ _ (sg_chain _ _ _ _ Hus v n Hn) i Hi) as [Hlt|(t' & Ht' & Hv)].
    + left. destruct (R2 t Ht) as (s & Hs & [_ _ S3]). exists s. split; [done|]. apply S3. exists (version_number i). rewrite <- E. split; [lia | done].
    + right. destruct (R2 t' Ht') as (s' & Hs' & [_ S2 _]). exists (transaction_id t'), s'. split_and!; [lia | done|]. apply S2. by rewrite <- E, <- Hv.
  - intros (v' & r & [-> Hr]%rows_write_some & Hc).
    assert (∃ z, row_wrote us z v r ∧ start_time t < z ∧ z ≠ transaction_id t) as (z & Hw & Hz1 & Hz2).
    { destruct Hc as [(s & Hs & Hst)|(tid' & s' & Hne & Hs' & Hw)].
      - destruct (R2 t Ht) as (s2 & Hs2 & [_ _ S3]). rewrite Hs in Hs2. injection Hs2 as <-. apply S3 in Hst as (z & Hz & Hw).
        exists z. rewrite E. split; [done|]. pose proof (ao_limit _ _ HA). destruct (Htx t Ht). lia.
      - destruct (R3 _ _ Hs') as (t' & Ht' & <-). destruct (R2 t' Ht') as (s2 & Hs2 & [_ S2 _]). rewrite Hs' in Hs2. injection Hs2 as <-.
        exists (transaction_id t'). rewrite E. split; [by apply S2|]. destruct (Htx t Ht), (Htx t' Ht'). lia. }
    unfold row_wrote in Hw. destruct (node_at us v) as [n|] eqn:En; [|done]. destruct Hw as (i & Hi & Hv & Hri).
    exists n, i, (Z.of_nat r). split_and!; try done. unfold unseen, use_old_version. rewrite Hv. lia.
Qed.
End Rows.

(** * The undo buffer after an update *)

Lemma linked_iff us v a :
  seg_shape us → (v < ROW_GROUP_VECTOR_COUNT)%nat →
  info_linked us v a = true ↔ a ∈ (info_address <$> from_option node_next [] (node_at us v)).
Proof.
  intros H1 H2. unfold info_linked. rewrite vector_node_ok by done. destruct (node_at us v) as [n|]; cbn.
  - apply bool_decide_eq_true.
  - split; [done | intros H; inversion H].
Qed.

Lemma updated_undo us us' tid v a undo (fresh : bool) :
  undo_ok us tid undo → (∀ v', v' ≠ v → node_at us' v' = node_at us v') →
  (fresh = true → own_stamps us tid v = []) →
  own_stamps us' tid v = (if fresh then [(a, tid)] else own_stamps us tid v) →
  undo_ok us' tid (if fresh then undo ++ [(v, a)] else undo).
Proof.
  intros [U1 U2] Hfr Hf Hs.
  assert (Hother : ∀ v', v' ≠ v → own_stamps us' tid v' = own_stamps us tid v') by (intros v' Hv'; unfold own_stamps; by rewrite Hfr).
  destruct fresh.
  - assert (Hnv : v ∉ undo.*1).
    { intros ([v' b] & -> & Hin)%list_elem_of_fmap. apply U2 in Hin. cbn in *. rewrite (Hf eq_refl) in Hin. inversion Hin. }
    split.
    + rewrite fmap_app. apply NoDup_app. split_and!; [done | | apply NoDup_singleton]. intros x Hx ->%list_elem_of_singleton. done.
    + intros v' b. rewrite elem_of_app, list_elem_of_singleton. destruct (decide (v' = v)) as [->|Hne].
      * rewrite Hs, list_elem_of_singleton. split; [intros [Hin|[= ->]]; [|done] | intros [= ->]; by right].
        exfalso. apply Hnv. apply list_elem_of_fmap. by exists (v, b).
      * rewrite Hother, <- U2 by done. split; [intros [?|[= ? _]]; done | by left].
  - split; [done|]. intros v' b. rewrite U2. destruct (decide (v' = v)) as [->|Hne]; [by rewrite Hs | by rewrite Hother].
Qed.

(** Replacing the entry of a transaction. *)
Definition replaced d d' (l : list DuckTransaction) : list DuckTransaction :=
  (λ x, if decide (transaction_id (dt_data x) = transaction_id (dt_data d)) then d' else x) <$> l.

Lemma replaced_data m d d' : manager_ok F m → d ∈ active_transactions m → dt_data d' = dt_data d → dt_data <$> replaced d d' (active_transactions m) = active_data m.
Proof.
  intros Hm Hd E. unfold replaced, active_data. rewrite <- list_fmap_compose. apply list_fmap_ext. intros k x Hx%list_elem_of_lookup_2. cbn.
  destruct (decide _) as [Ei|]; [|done]. rewrite E. symmetry. eapply (same_transaction _ _ _ _ (mo_active _ _ Hm)); [| |done]; apply list_elem_of_fmap; eauto.
Qed.

Lemma replaced_elem d d' l x : x ∈ replaced d d' l → x = d' ∨ (x ∈ l ∧ transaction_id (dt_data x) ≠ transaction_id (dt_data d)).
Proof. intros (y & -> & Hy)%list_elem_of_fmap. destruct (decide _); [by left | by right]. Qed.

(** The manager after an update that left segment [us']. *)
Definition updated m d d' us' : DuckTransactionManager T :=
  mkTxnManager (current_start_timestamp m) (current_transaction_id m) (last_commit m) (lowest_active_start m) (lowest_active_id m)
    (replaced d d' (active_transactions m)) (recently_committed_transactions m) us' (S (next_address m)).

Definition undo_after us' d (v a : nat) : DuckTransaction :=
  mkDuckTransaction (dt_data d) (dt_commit_id d) (if info_linked us' v a then dt_undo d ++ [(v, a)] else dt_undo d).

Lemma Transaction_Update_eq m t column update ids count v us' r d :
  manager_ok F m → t ∈ active_data m → (0 < count)%nat → update_fits F (txn_segment m) update (table v) ids count v →
  find_active (transaction_id t) (active_transactions m) = Some d → dt_data d = t →
  UpdateSegment_Update F (txn_segment m) t true (next_address m) column update ids count (table v) = (us', r) →
  Transaction_Update F table m (transaction_id t) column update ids count =
    (updated m d (undo_after us' d v (next_address m)) us', r).
Proof.
  intros Hm Ht Hcount Hfits Hd Edt Hup. unfold Transaction_Update. rewrite Hd.
  destruct ids as [|id0 ids']; [pose proof (uf_count _ _ _ _ _ _ _ Hfits) as [_ Hl]; cbn in Hl; lia|].
  assert (id_vector (txn_segment m) id0 = v) as ->.
  { eapply (vector_of_first F); [apply Hm | exact Hfits|]. by apply (uf_ids _ _ _ _ _ _ _ Hfits 0%nat). }
  rewrite Edt, Hup. unfold updated, undo_after, replaced. by rewrite Edt.
Qed.

(** The entries of the undo buffers after an update of the vector. *)
Lemma updated_ok m d us' v (fresh : bool) :
  manager_ok F m → d ∈ active_transactions m → (v < ROW_GROUP_VECTOR_COUNT)%nat →
  seg_ok (active_data m) (current_start_timestamp m) (S (next_address m)) us' →
  us_start us' = us_start (txn_segment m) → stats_ok (us_stats us') →
  (∀ v', v' ≠ v → node_at us' v' = node_at (txn_segment m) v') →
  (is_Some (node_at (txn_segment m) v) → is_Some (node_at us' v)) →
  (∀ tid, tid ≠ transaction_id (dt_data d) → own_stamps us' tid v = own_stamps (txn_segment m) tid v) →
  own_stamps us' (transaction_id (dt_data d)) v =
    (if fresh then [(next_address m, transaction_id (dt_data d))] else own_stamps (txn_segment m) (transaction_id (dt_data d)) v) →
  (fresh = true → own_stamps (txn_segment m) (transaction_id (dt_data d)) v = []) →
  info_linked us' v (next_address m) = fresh →
  manager_ok F (updated m d (undo_after us' d v (next_address m)) us').
Proof.
  intros Hm Hd Hv Hseg Hst Hss Hfr Hnode Hos Hown Hfresh Hl. destruct Hm as [M1 M2 M3 M4 M5 M6 M7 M8] eqn:EM. clear EM.
  assert (Hdata : active_data (updated m d (undo_after us' d v (next_address m)) us') = active_data m) by (by apply replaced_data).
  split; rewrite ?Hdata; try done.
  - cbn. by rewrite Hst.
  - cbn [active_transactions updated txn_segment]. intros x [->|[Hx Hne]]%replaced_elem.
    + destruct (M7 d Hd) as [H1 H2]. split; [done|]. unfold undo_after. cbn [dt_data dt_undo]. rewrite Hl. by eapply updated_undo.
    + destruct (M7 x Hx) as [H1 [H2 H3]]. split; [done|]. split; [done|]. intros v' a. rewrite H3. unfold own_stamps.
      destruct (decide (v' = v)) as [->|Hne']; [by specialize (Hos _ Hne); unfold own_stamps in Hos; rewrite Hos | by rewrite Hfr].
  - cbn [recently_committed_transactions updated next_address current_start_timestamp txn_segment]. apply (Forall_impl _ _ _ M8). intros x Hx.
    pose proof (ao_limit _ _ M1). eapply committed_stamps; [done | lia | lia | lia | |].
    + intros v' Hs. destruct (decide (v' = v)) as [->|Hne]; [auto | by rewrite Hfr].
    + intros v' n' a z Hn' Hz Ha. destruct (decide (v' = v)) as [->|Hne]; [|rewrite Hfr in Hn' by done; exists n', z; auto].
      assert ((a, z) ∈ own_stamps us' z v) as Hin by (apply own_stamps_elem; eauto).
      assert ((a, z) ∈ own_stamps (txn_segment m) z v) as Hin'.
      { destruct (decide (z = transaction_id (dt_data d))) as [->|Hz']; [|by rewrite <- Hos]. rewrite Hown in Hin. destruct fresh; [|done].
        apply list_elem_of_singleton in Hin as [= ->]. lia. }
      apply own_stamps_elem in Hin' as (_ & n & Hn & Hs). exists n, z. auto.
Qed.

(** What the transactions see after a successful update. *)
Lemma written_snapshots m D t update ids count v us' rows m' :
  manager_ok F m → refines F table m D → t ∈ active_data m → update_fits F (txn_segment m) update (table v) ids count v →
  update_done F (active_data m) (current_start_timestamp m) (next_address m) (txn_segment m) t update (table v) ids count v us' (next_address m) rows →
  txn_segment m' = us' → active_data m' = active_data m → current_start_timestamp m' = current_start_timestamp m →
  ∀ t', t' ∈ active_data m → ∃ s, db_open D !! transaction_id t' = Some s ∧
    snapshot_of F table m' t' (if decide (transaction_id t' = transaction_id t) then write_snapshot (rows_write (txn_segment m) update v rows) s else s).
Proof.
  intros Hm Hr Ht Hfits [U1 U2 U3 U4 U5 U6 U7 U8 U9 _] Eus Edata Ecst t' Ht'.
  destruct (rf_open _ _ _ _ Hr t' Ht') as (s & Hs & [S1 S2 S3]). exists s. split; [done|].
  pose proof (proj1 (Forall_forall _ _) (ao_txn _ _ (mo_active _ _ Hm))) as Htx. pose proof (ao_limit _ _ (mo_active _ _ Hm)) as Hlim.
  pose proof (λ v' r', rows_write_some (txn_segment m) update (table v) ids count v rows Hfits U1 v' r') as Hws.
  assert (Hstale : ∀ v' r', row_stale m' t' v' r' ↔ row_stale m t' v' r').
  { intros v' r'. unfold row_stale. rewrite Eus, Ecst. destruct (decide (v' = v)) as [->|Hne']; [|unfold row_wrote; by rewrite U5].
    destruct (Htx t Ht). split; intros (z & Hz & Hw); exists z; (split; [done|]); [apply U9 in Hw as [?|[? _]]; [done | lia] | apply U9; by left]. }
  destruct (decide (transaction_id t' = transaction_id t)) as [E|Hne].
  - assert (t' = t) as -> by (by apply (same_transaction _ _ _ _ (mo_active _ _ Hm))). split.
    + intros v' r' Hc. cbn [write_snapshot sn_read]. unfold reads. rewrite Eus. specialize (S1 v' r' Hc). specialize (Hws v' r'). unfold reads in S1. unfold rows_write in *.
      destruct (decide (v' = v)) as [->|Hne']; [|unfold row_view in *; by rewrite U5]. rewrite U7, S1, <- entry_at_is_Some in *.
      destruct (entry_at _ _) as [i|]; [|done]. cbn in *. destruct Hws as [_ [x ->]]; eauto.
    + intros v' r'. cbn [write_snapshot sn_wrote]. rewrite orb_true_iff, bool_decide_eq_true, <- S2, Hws, Eus.
      destruct (decide (v' = v)) as [->|Hne']; [rewrite U9; tauto | unfold row_wrote; rewrite U5 by done; tauto].
    + intros v' r'. cbn [write_snapshot sn_stale]. by rewrite <- S3.
  - split; [| |by intros v' r'; rewrite <- S3].
    + intros v' r' Hc. rewrite <- S1 by done. unfold reads. rewrite Eus.
      destruct (decide (v' = v)) as [->|Hne']; [|unfold row_view; by rewrite U5]. apply U8; [by apply Htx | done | apply Hc | apply Hc].
    + intros v' r'. rewrite <- S2, Eus. destruct (decide (v' = v)) as [->|Hne']; [rewrite U9; tauto | unfold row_wrote; by rewrite U5].
Qed.

Lemma written_refines m D t s update ids count v us' rows m' :
  manager_ok F m → refines F table m D → t ∈ active_data m → update_fits F (txn_segment m) update (table v) ids count v →
  update_done F (active_data m) (current_start_timestamp m) (next_address m) (txn_segment m) t update (table v) ids count v us' (next_address m) rows →
  txn_segment m' = us' → active_data m' = active_data m → current_start_timestamp m' = current_start_timestamp m →
  current_transaction_id m' = current_transaction_id m → db_open D !! transaction_id t = Some s →
  refines F table m' (mkDatabase (db_committed D) (<[transaction_id t := write_snapshot (rows_write (txn_segment m) update v rows) s]> (db_open D))).
Proof.
  intros Hm Hr Ht Hfits Hdone Eus Edata Ecst Ectid Hs. split; cbn [db_committed db_open]; rewrite ?Edata.
  - intros v' r' Hc. rewrite <- (rf_committed _ _ _ _ Hr) by done. unfold committed_value, reads. rewrite Ecst, Ectid, Eus.
    destruct (decide (v' = v)) as [->|Hne]; [|unfold row_view; by rewrite (ud_frame _ _ _ _ _ _ _ _ _ _ _ _ _ _ Hdone)].
    destruct (mo_ids _ _ Hm) as [I1 I2]. specialize (I2 t Ht). pose proof (ao_limit _ _ (mo_active _ _ Hm)).
    eapply (ud_other F); [exact Hdone | split; cbn; lia | cbn; lia | apply Hc | apply Hc].
  - intros t' Ht'. destruct (written_snapshots _ _ _ _ _ _ _ _ _ _ Hm Hr Ht Hfits Hdone Eus Edata Ecst t' Ht') as (s' & Hs' & HS).
    destruct (decide (transaction_id t' = transaction_id t)) as [E|Hne].
    + rewrite E in *. rewrite lookup_insert_eq. rewrite Hs in Hs'. injection Hs' as <-. eauto.
    + rewrite lookup_insert_ne by congruence. eauto.
  - intros tid s'. destruct (decide (tid = transaction_id t)) as [->|Hne]; [eauto|]. rewrite lookup_insert_ne by done. apply Hr.
Qed.

(** The outcome of an update is the step of the specification. *)
Lemma Transaction_Update_ok m D t column update ids count v :
  manager_ok F m → refines F table m D → t ∈ active_data m → (0 < count)%nat →
  update_fits F (txn_segment m) update (table v) ids count v →
  ∃ m' r w e D', Transaction_Update F table m (transaction_id t) column update ids count = (m', r) ∧ manager_ok F m' ∧
    requests (us_start (txn_segment m)) update ids count w ∧
    ((r = Ok tt ∧ e = Wrote (transaction_id t) w) ∨
     (r = Throw (TransactionException "Conflict on update!") ∧ e = Conflicted (transaction_id t) w)) ∧
    si_step D e D' ∧ refines F table m' D' ∧ us_start (txn_segment m') = us_start (txn_segment m) ∧ active_data m' = active_data m.
Proof.
  intros Hm Hr Ht Hcount Hfits. destruct (find_active_data F m t Hm Ht) as (d & Hd & Edt). destruct (find_active_ok m _ _ Hd) as [Hin _].
  destruct (UpdateSegment_Update_ok F _ _ _ _ t update (table v) ids count v (mo_active _ _ Hm) Ht (mo_seg _ _ Hm) (mo_start _ _ Hm) (mo_stats _ _ Hm) Hfits column)
    as (us' & rows & r & Hup & Hcase).
  pose proof (Transaction_Update_eq m t column update ids count v us' r d Hm Ht Hcount Hfits Hd Edt Hup) as Heq.
  set (m' := updated m d (undo_after us' d v (next_address m)) us') in *.
  assert (Hdata : active_data m' = active_data m) by (by apply replaced_data). destruct (rf_open _ _ _ _ Hr t Ht) as (s & Hs & _).
  destruct Hcase as [(-> & Hdone & Hno)|(-> & Hrows & Hconf & (V1 & V2 & V3 & V4))].
  - exists m', (Ok tt), (rows_write (txn_segment m) update v rows), (Wrote (transaction_id t) (rows_write (txn_segment m) update v rows)),
      (mkDatabase (db_committed D) (<[transaction_id t := write_snapshot (rows_write (txn_segment m) update v rows) s]> (db_open D))).
    split_and!; [done | | eapply rows_write_requests; [done | apply Hdone] | by left | | by eapply written_refines | apply Hdone | done].
    + destruct Hdone as [U1 U2 U3 U4 U5 U6 U7 U8 U9 (U10 & U11 & U12)].
      eapply (updated_ok m d us' v (bool_decide (own_stamps (txn_segment m) (transaction_id t) v = []) && negb (bool_decide (rows = []))));
        rewrite ?Edt; try done; [apply Hfits | by intros [?%bool_decide_eq_true _]%andb_true_iff|].
      apply eq_true_iff_eq. rewrite linked_iff by (apply Hfits || apply U2). rewrite U12, andb_true_iff, bool_decide_eq_true, negb_true_iff, bool_decide_eq_false. done.
    + constructor; [done|]. intros v' r' Hw Hc. apply Hno. eapply (conflict_iff (txn_segment m)); try done; [apply Hdone | eauto].
  - exists m', (Throw (TransactionException "Conflict on update!")), (rows_write (txn_segment m) update v rows),
      (Conflicted (transaction_id t) (rows_write (txn_segment m) update v rows)), D.
    split_and!; [done | | by eapply rows_write_requests | by right | econstructor; [done|]; by eapply conflict_iff | by eapply chains_refines | done | done].
    eapply (updated_ok m d us' v false); try done; [apply Hfits | by rewrite V1 | unfold own_stamps; by rewrite V1 | unfold own_stamps; by rewrite V1 |].
    apply not_true_is_false. rewrite linked_iff by (apply Hfits || apply V2). rewrite V1. intros Hlk.
    destruct (node_at (txn_segment m) v) as [n|] eqn:En; [|inversion Hlk]. cbn in Hlk.
    enough (next_address m < next_address m)%nat by lia. apply (sg_next _ _ _ _ (mo_seg _ _ Hm) v n _ En). unfold stamps. by rewrite <- list_fmap_compose.
Qed.
End Update.

(** * Operations *)

Inductive operation (T : Type) : Type :=
| OpStart
| OpUpdate (tid : Z) (column_index : nat) (update : FlatVector T) (ids : list Z) (count : nat)
| OpCommit (tid : Z) (failure : option commit_failure)
| OpRollback (tid : Z).
Arguments OpStart {T}.
Arguments OpUpdate {T} _ _ _ _ _.
Arguments OpCommit {T} _ _.
Arguments OpRollback {T} _.

(** The transaction an operation belongs to. *)
Definition op_transaction {T} (o : operation T) : option Z :=
  match o with OpStart => None | OpUpdate tid _ _ _ _ | OpCommit tid _ | OpRollback tid => Some tid end.

Section Run.
Context {T : Type} (F : UpdateFunctions T) {L : UpdateLaws F} (table : nat → FlatVector T).
Implicit Types (m : DuckTransactionManager T) (D : Database T) (o : operation T).

(** The manager an operation leaves, and its outcome. *)
Definition run_operation m o : DuckTransactionManager T * result unit :=
  match o with
  | OpStart => match StartTransaction m with Ok (m', _) => (m', Ok tt) | Throw e => (m, Throw e) end
  | OpUpdate tid column update ids count => Transaction_Update F table m tid column update ids count
  | OpCommit tid failure =>
      match CommitTransaction F m tid failure with
      | Ok (m', error) => (m', if error : bool then Throw (TransactionException "Failed to commit") else Ok tt)
      | Throw e => (m, Throw e)
      end
  | OpRollback tid => match RollbackTransaction F m tid with Ok m' => (m', Ok tt) | Throw e => (m, Throw e) end
  end.

(** The counters have room, the transaction is active, and an update gives
    rows of one vector of the table. *)
Definition admissible m o : Prop :=
  match o with
  | OpStart => current_start_timestamp m + 1 < TRANSACTION_ID_START - 1 ∧ current_transaction_id m + 1 < 2 ^ 64
  | OpUpdate tid _ update ids count => ∃ t v, t ∈ active_data m ∧ transaction_id t = tid ∧ (0 < count)%nat ∧
      update_fits F (txn_segment m) update (table v) ids count v
  | OpCommit tid _ => (∃ t, t ∈ active_data m ∧ transaction_id t = tid) ∧ current_start_timestamp m + 1 < TRANSACTION_ID_START - 1
  | OpRollback tid => ∃ t, t ∈ active_data m ∧ transaction_id t = tid
  end.

(** The event of the specification for an operation and its outcome. *)
Definition accounts m o (r : result unit) (e : event T) : Prop :=
  match o with
  | OpStart => r = Ok tt ∧ e = Began (current_transaction_id m)
  | OpUpdate tid _ update ids count => ∃ w, requests F (us_start (txn_segment m)) update ids count w ∧
      ((r = Ok tt ∧ e = Wrote tid w) ∨ (r = Throw (TransactionException "Conflict on update!") ∧ e = Conflicted tid w))
  | OpCommit tid failure => (r = Ok tt ∧ e = Committed tid) ∨
      (failure ≠ None ∧ r = Throw (TransactionException "Failed to commit") ∧ e = RolledBack tid)
  | OpRollback tid => r = Ok tt ∧ e = RolledBack tid
  end.

Inductive run : DuckTransactionManager T → list (operation T) → DuckTransactionManager T → Prop :=
| run_nil m : run m [] m
| run_cons m o m' r os m'' : admissible m o → run_operation m o = (m', r) → run m' os m'' → run m (o :: os) m''.

(** ** The simulation *)

(** What an operation keeps of the active transactions. *)
Definition keeps m m' o : Prop :=
  ∀ t, t ∈ active_data m → op_transaction o ≠ Some (transaction_id t) → t ∈ active_data m'.

Lemma operation_simulates m D o :
  manager_ok F m → refines F table m D → admissible m o →
  ∃ m' r e D', run_operation m o = (m', r) ∧ manager_ok F m' ∧ accounts m o r e ∧ si_step D e D' ∧ refines F table m' D' ∧ keeps m m' o.
Proof.
  intros Hm Hr. destruct o as [|tid column update ids count|tid failure|tid]; cbn [admissible run_operation].
  - intros [H1 H2]. destruct (StartTransaction_ok F table m D Hm Hr H1 H2) as (m' & D' & -> & Hm' & Hs & Hr' & _ & Hd).
    eexists m', _, _, D'. split_and!; try done. intros t Ht _. rewrite Hd. apply elem_of_app. by left.
  - intros (t & v & Ht & <- & Hc & Hf).
    destruct (Transaction_Update_ok F table m D t column update ids count v Hm Hr Ht Hc Hf) as (m' & r & w & e & D' & -> & Hm' & Hw & Hre & Hs & Hr' & _ & Hd).
    exists m', r, e, D'. split_and!; try done; [by exists w|]. intros t' Ht' _. by rewrite Hd.
  - intros [(t & Ht & <-) Hroom]. destruct (CommitTransaction_ok F table m D t failure Hm Hr Ht Hroom) as (m' & error & D' & -> & Hm' & Hs & He & Hr' & _ & Hd).
    eexists m', _, _, D'. split_and!; try done; [destruct error; [right; auto | by left]|]. intros t' Ht' Hne. rewrite Hd. apply others_elem. split; [|done]. cbn in Hne. congruence.
  - intros (t & Ht & <-). destruct (RollbackTransaction_ok F table m D t Hm Hr Ht) as (m' & D' & -> & Hm' & Hs & Hr' & _ & Hd).
    eexists m', _, _, D'. split_and!; try done. intros t' Ht' Hne. rewrite Hd. apply others_elem. split; [|done]. cbn in Hne. congruence.
Qed.

Lemma run_simulates m os m' D :
  run m os m' → manager_ok F m → refines F table m D → ∃ es D', si_run D es D' ∧ manager_ok F m' ∧ refines F table m' D'.
Proof.
  intros Hrun. revert D. induction Hrun as [m|m o m' r os m'' Hadm Hop Hrun IH]; intros D Hm Hr.
  - exists [], D. split_and!; [constructor | done | done].
  - destruct (operation_simulates m D o Hm Hr Hadm) as (m1 & r1 & e & D1 & Hop1 & Hm1 & _ & Hs & Hr1 & _). rewrite Hop in Hop1.
    injection Hop1 as <- <-. destruct (IH D1 Hm1 Hr1) as (es & D' & Hsr & Hm' & Hr'). exists (e :: es), D'. split_and!; [by econstructor | done | done].
Qed.

(** ** The beginning *)

Definition initial_database : Database T := mkDatabase (λ v r, view (table v) r) ∅.

Lemma manager_new_ok us :
  us_root us = None → start_ok (us_start us) → stats_ok (us_stats us) →
  manager_ok F (DuckTransactionManager_new us) ∧ refines F table (DuckTransactionManager_new us) initial_database.
Proof.
  intros Hroot Hs Hst. assert (Hn : ∀ v, node_at us v = None) by (intros v; unfold node_at; by rewrite Hroot). split.
  - split; cbn [DuckTransactionManager_new current_start_timestamp current_transaction_id active_transactions recently_committed_transactions txn_segment next_address];
      [| lia | | | done | done | intros d Hd; inversion Hd | constructor].
    + split; [constructor | intros t Ht; inversion Ht | constructor | done].
    + split; [done | intros t Ht; inversion Ht].
    + split; [unfold seg_shape; by rewrite Hroot | | |]; intros v n; rewrite Hn; done.
  - split.
    + intros v r _. unfold committed_value, reads, row_view. cbn. by rewrite Hn.
    + intros t Ht. inversion Ht.
    + intros tid s. cbn. by rewrite lookup_empty.
Qed.

(** ** Steps of others *)

(** What the specification shows a transaction does not change by the steps of
    the others. *)
Lemma si_step_read D e D' tid s :
  si_step D e D' → db_open D !! tid = Some s → (∀ w, e ≠ Wrote tid w) → e ≠ Committed tid → e ≠ RolledBack tid →
  ∃ s', db_open D' !! tid = Some s' ∧ sn_read s' = sn_read s.
Proof.
  intros Hstep Hs H1 H2 H3. destruct Hstep as [D tid' Hn|D tid' s' w Hs' Hf|D tid' s' w Hs' Hc|D tid' s' Hs'|D tid' s' Hs']; cbn.
  - exists s. by rewrite lookup_insert_ne by congruence.
  - exists s. rewrite lookup_insert_ne; [done|]. intros ->. by apply (H1 w).
  - eauto.
  - exists (stale_after s' s). by rewrite lookup_fmap, lookup_delete_ne, Hs by congruence.
  - exists s. by rewrite lookup_delete_ne, Hs by congruence.
Qed.

Lemma accounts_other m o r e t :
  manager_ok F m → t ∈ active_data m → accounts m o r e → op_transaction o ≠ Some (transaction_id t) →
  (∀ w, e ≠ Wrote (transaction_id t) w) ∧ e ≠ Committed (transaction_id t) ∧ e ≠ RolledBack (transaction_id t).
Proof.
  intros Hm Ht. destruct o as [|tid column update ids count|tid failure|tid]; cbn.
  - by intros [_ ->] _.
  - intros (w & _ & [[_ ->]|[_ ->]]) Hne; split_and!; congruence.
  - intros [[_ ->]|(_ & _ & ->)] Hne; split_and!; congruence.
  - intros [_ ->] Hne. split_and!; congruence.
Qed.

Lemma run_reads m os m' D t :
  run m os m' → manager_ok F m → refines F table m D → t ∈ active_data m → Forall (λ o, op_transaction o ≠ Some (transaction_id t)) os →
  t ∈ active_data m' ∧ ∀ v r, cell F table v r → reads F table m' t v r = reads F table m t v r.
Proof.
  intros Hrun. revert D. induction Hrun as [m|m o m' r os m'' Hadm Hop Hrun IH]; intros D Hm Hr Ht Ho; [done|].
  apply Forall_cons in Ho as [Ho Hos].
  destruct (operation_simulates m D o Hm Hr Hadm) as (m1 & r1 & e & D1 & Hop1 & Hm1 & Hacc & Hs & Hr1 & Hk). rewrite Hop in Hop1.
  injection Hop1 as <- <-. specialize (Hk t Ht Ho). destruct (IH D1 Hm1 Hr1 Hk Hos) as [H1 H2]. split; [done|]. intros v x Hc. rewrite H2 by done.
  destruct (rf_open _ _ _ _ Hr t Ht) as (s & Hs1 & HS1), (rf_open _ _ _ _ Hr1 t Hk) as (s' & Hs' & HS').
  destruct (accounts_other m o r e t Hm Ht Hacc Ho) as (E1 & E2 & E3).
  destruct (si_step_read D e D1 (transaction_id t) s Hs Hs1 E1 E2 E3) as (s2 & Hs2 & E). rewrite Hs' in Hs2. injection Hs2 as <-.
  rewrite (so_read _ _ _ _ _ HS') by done. rewrite (so_read _ _ _ _ _ HS1) by done. by rewrite E.
Qed.

(** ** Scans *)

Lemma scan_reads m t v :
  manager_ok F m → (v < ROW_GROUP_VECTOR_COUNT)%nat → view_ok (table v) →
  ∃ x, Transaction_Scan F table m t v = Ok x ∧ view_ok x ∧ ∀ r, (r < SVS)%nat → view x r = reads F table m t v r.
Proof.
  intros Hm Hv Hok. by apply (FetchUpdates_ok F _ _ _ _ (mo_seg _ _ Hm)).
Qed.
End Run.
