(* ===== verification/UpdateProps.v ===== *)
(** The properties of update segments and of the transactions that share one:
    snapshot isolation, repeatable reads, conflicts, and the agreement of the
    ways to read a row. *)
From S2P Require Import Prelude Bits SelectionVector Types Stats ValidityMask MaskFacts NumericStats NumericFacts ChunkInfo RowVersionManager.
From S2P Require Import VersionFacts FilterFacts UpdateSegment UpdateFacts UpdateLaws UpdateChain UpdateSteps UpdateSystem.
From S2P Require Import TransactionManager UpdateUndo SnapshotSpec SnapshotRun.

#[local] Opaque ROW_GROUP_VECTOR_COUNT.

(** * An example: a column of zeros *)

Section Zeros.
#[local] Instance int_laws : UpdateLaws (update_functions (Update_number INT32)) := number_laws INT32 ltac:(discriminate).
Abbreviation ints := (update_functions (Update_number INT32)).

Definition ints_vector (l : list Z) : FlatVector Z := mkFlat (l ++ replicate SVS 0) (ValidityMask_new SVS).
Definition zeros (_ : nat) : FlatVector Z := ints_vector [].
Definition zeros_segment : UpdateSegment Z :=
  mkSegment 0 (mkStats (LT INTEGER) true true 0 (D_numeric (mkNum true true (Some (INT32, 7)) (Some (INT32, -7)))) []) None.
Definition zeros_manager : DuckTransactionManager Z := DuckTransactionManager_new zeros_segment.

Lemma ints_vector_ok l : view_ok (UpdateLaws := int_laws) (ints_vector l).
Proof. split; [cbn; rewrite length_app, length_replicate; lia | done]. Qed.

Lemma zeros_start : start_ok (us_start zeros_segment).
Proof. split; [done|]. vm_compute. done. Qed.

Lemma zeros_stats : stats_ok (UpdateLaws := int_laws) (us_stats zeros_segment).
Proof.
  exists 7, (-7). split; [done | done|]. exists (Some (INT32, 7)), (Some (INT32, -7)). split_and!; [done | by intros x [= <-] | by intros x [= <-]].
Qed.

Lemma zeros_ok : manager_ok ints zeros_manager ∧ refines ints zeros zeros_manager (initial_database ints zeros).
Proof. apply manager_new_ok; [done | apply zeros_start | apply zeros_stats]. Qed.

(** Writing [x] to row 5. *)
Lemma zeros_fits us x : us_start us = 0 → update_fits ints us (ints_vector [x]) (zeros 0) [5] 1 0.
Proof.
  intros E. pose proof vector_size_pos. split; [vm_compute; lia | apply ints_vector_ok | apply ints_vector_ok | cbn; lia | | done].
  intros [|i] id Hi Hid; [|lia]. injection Hid as <-. unfold vector_offset. rewrite E. split; [lia|]. vm_compute. done.
Qed.

Definition first_transaction : TransactionData := mkTransaction TRANSACTION_ID_START 2.
Definition second_transaction : TransactionData := mkTransaction (TRANSACTION_ID_START + 1) 3.

(** Two transactions begin, the first writes row 5 and commits. *)
Definition zeros_begun : DuckTransactionManager Z :=
  (run_operation ints zeros (run_operation ints zeros zeros_manager OpStart).1 OpStart).1.
Definition zeros_writes : list (operation Z) :=
  [OpUpdate TRANSACTION_ID_START 0 (ints_vector [9]) [5] 1; OpCommit TRANSACTION_ID_START None].
Definition zeros_written : DuckTransactionManager Z :=
  (run_operation ints zeros zeros_begun (OpUpdate TRANSACTION_ID_START 0 (ints_vector [9]) [5] 1)).1.
Definition zeros_committed : DuckTransactionManager Z := (run_operation ints zeros zeros_written (OpCommit TRANSACTION_ID_START None)).1.

Lemma zeros_written_active : active_data zeros_written = [first_transaction; second_transaction].
Proof. vm_compute. reflexivity. Qed.

Lemma zeros_begun_run : run ints zeros zeros_manager [OpStart; OpStart] zeros_begun.
Proof.
  eapply run_cons; [by split | apply surjective_pairing|]. eapply run_cons; [by split | apply surjective_pairing|]. apply run_nil.
Qed.

Lemma zeros_writes_run : run ints zeros zeros_begun zeros_writes zeros_committed.
Proof.
  eapply run_cons; [|apply surjective_pairing|].
  - exists first_transaction, 0%nat. split_and!; [left | done | lia | by apply zeros_fits].
  - eapply run_cons; [|apply surjective_pairing | apply run_nil]. split; [|vm_compute; done].
    exists first_transaction. split; [|done]. change (first_transaction ∈ active_data zeros_written). rewrite zeros_written_active. left.
Qed.
End Zeros.

(** * Snapshot isolation *)

(** C12. Every operation of concurrent transactions on an update segment (start,
    update, commit, rollback, with the cleanup of old versions) implements a
    step of the snapshot isolation specification: each transaction reads the
    committed state of its start overridden by its own writes, a commit
    installs exactly the rows it wrote, a rollback (or a commit that fails in the
    local storage, in the log or in its flush) discards them, and an update
    either writes its rows or fails because one of them is conflicted. *)
Theorem snapshot_isolation {T} (F : UpdateFunctions T) {L : UpdateLaws F} (table : nat → FlatVector T) m D o :
  manager_ok F m → refines F table m D → admissible F table m o →
  ∃ m' r e D', run_operation F table m o = (m', r) ∧ accounts F m o r e ∧ si_step D e D' ∧ refines F table m' D'.
Proof.
  intros Hm Hr Ho. destruct (operation_simulates F table m D o Hm Hr Ho) as (m' & r & e & D' & H1 & _ & H2 & H3 & H4 & _).
  by exists m', r, e, D'.
Qed.

Lemma snapshot_isolation_witness :
  ∃ m' r e D', run_operation (update_functions (Update_number INT32)) zeros zeros_manager OpStart = (m', r) ∧
    accounts (L := int_laws) (update_functions (Update_number INT32)) zeros_manager OpStart r e ∧
    si_step (initial_database (L := int_laws) (update_functions (Update_number INT32)) zeros) e D' ∧
    refines (L := int_laws) (update_functions (Update_number INT32)) zeros m' D'.
Proof. apply snapshot_isolation; [apply zeros_ok | apply zeros_ok | by split]. Defined.

(** The invariant of the manager (unique transaction ids, timestamps below
    the first transaction id, the update chains ordered and conflict free, undo
    buffers that list exactly the infos of their transactions, committed
    infos stamped with their commit ids) holds initially and after every run,
    and every run leads to a state of the specification that it reaches. *)
Theorem runs_keep_invariant {T} (F : UpdateFunctions T) {L : UpdateLaws F} (table : nat → FlatVector T) us os m :
  us_root us = None → start_ok (us_start us) → stats_ok (us_stats us) → run F table (DuckTransactionManager_new us) os m →
  manager_ok F m ∧ ∃ es D, si_run (initial_database F table) es D ∧ refines F table m D.
Proof.
  intros H1 H2 H3 Hrun. destruct (manager_new_ok F table us H1 H2 H3) as [Hm Hr].
  destruct (run_simulates F table _ _ _ _ Hrun Hm Hr) as (es & D & H4 & H5 & H6). eauto.
Qed.

(** C13. Reads are repeatable: whatever other transactions start, update, commit
    or roll back, scanning a vector again gives a transaction the same values
    (for a column of values, in the rows that are not NULL in the table; the
    validity column covers the NULLs). *)
Theorem repeatable_reads {T} (F : UpdateFunctions T) {L : UpdateLaws F} (table : nat → FlatVector T) us os m os' m' t v :
  us_root us = None → start_ok (us_start us) → stats_ok (us_stats us) → run F table (DuckTransactionManager_new us) os m →
  t ∈ active_data m → run F table m os' m' → Forall (λ o, op_transaction o ≠ Some (transaction_id t)) os' →
  (v < ROW_GROUP_VECTOR_COUNT)%nat → view_ok (table v) →
  ∃ x x', Transaction_Scan F table m t v = Ok x ∧ Transaction_Scan F table m' t v = Ok x' ∧
    ∀ r, (r < SVS)%nat → known (table v) r → view x' r = view x r.
Proof.
  intros H1 H2 H3 Hrun Ht Hrun' Hos Hv Hok. destruct (manager_new_ok F table us H1 H2 H3) as [Hm0 Hr0].
  destruct (run_simulates F table _ _ _ _ Hrun Hm0 Hr0) as (es & D & _ & Hm & Hr).
  destruct (run_simulates F table _ _ _ _ Hrun' Hm Hr) as (_ & _ & _ & Hm' & _).
  destruct (run_reads F table _ _ _ _ t Hrun' Hm Hr Ht Hos) as [_ Hreads].
  destruct (scan_reads F table m t v Hm Hv Hok) as (x & Hx & _ & Ex), (scan_reads F table m' t v Hm' Hv Hok) as (x' & Hx' & _ & Ex').
  exists x, x'. split_and!; [done | done|]. intros r Hr1 Hk. rewrite Ex, Ex' by done. by apply Hreads.
Qed.

Lemma repeatable_reads_witness :
  ∃ x x', Transaction_Scan (update_functions (Update_number INT32)) zeros zeros_begun second_transaction 0 = Ok x ∧
    Transaction_Scan (update_functions (Update_number INT32)) zeros zeros_committed second_transaction 0 = Ok x' ∧
    ∀ r, (r < SVS)%nat → known (UpdateLaws := int_laws) (zeros 0) r →
      view (UpdateLaws := int_laws) x' r = view (UpdateLaws := int_laws) x r.
Proof.
  apply (repeatable_reads _ zeros zeros_segment _ _ zeros_writes _ second_transaction 0 eq_refl zeros_start zeros_stats zeros_begun_run);
    [right; left | exact zeros_writes_run | | vm_compute; lia | apply ints_vector_ok].
  repeat constructor; cbn; intros [=].
Defined.


(** * Conflicts *)

(** C14. An update of rows of a vector by an active transaction throws exactly when
    one of its rows is recorded in an update that the transaction does not see: one
    of another transaction that is still open, or that committed after this one
    began. Otherwise it succeeds. *)
Theorem update_conflicts_exactly {T} (F : UpdateFunctions T) {L : UpdateLaws F} A limit next us t update base ids count v column :
  active_ok A limit → t ∈ A → seg_ok A limit next us → start_ok (us_start us) → stats_ok (us_stats us) →
  update_fits F us update base ids count v →
  let clash := ∃ i id n u, i ∈ written update count ∧ ids !! i = Some id ∧ node_at us v = Some n ∧ u ∈ node_next n ∧
    id - vector_offset us v ∈ (info_entries u).*1 ∧ start_time t < version_number u ∧ version_number u ≠ transaction_id t in
  let outcome := (UpdateSegment_Update F us t true next column update ids count base).2 in
  (clash → outcome = Throw (TransactionException "Conflict on update!")) ∧ (¬ clash → outcome = Ok tt).
Proof.
  intros HA Ht Hus Hs Hst Hf clash outcome.
  destruct (UpdateSegment_Update_ok F A limit next us t update base ids count v HA Ht Hus Hs Hst Hf column) as (us' & rows & r & Hup & Hcase).
  assert (Hclash : sorted_rows ids (written update count) rows → clash ↔ update_conflict us t v rows).
  { intros [H1 H2 H3]. split.
    - intros (i & id & n & u & Hi & Hid & Hn & Hu & Hr & Hv1 & Hv2). exists n, u, (id - vector_offset us v). split_and!; try done.
      + unfold unseen, use_old_version. lia.
      + specialize (H3 i id Hi Hid). apply list_elem_of_fmap in H3 as ([j id'] & E & Hin). cbn in E. subst id'.
        apply list_elem_of_fmap. exists (id - vector_offset us v, j). split; [done|]. apply list_elem_of_fmap. by exists (j, id).
    - intros (n & u & r' & Hn & Hu & Huns & Hr1 & Hr2). unfold offsets in Hr1. rewrite <- list_fmap_compose in Hr1.
      apply list_elem_of_fmap in Hr1 as ([j id] & -> & Hin). destruct (H2 j id Hin) as [Hj Hid]. unfold unseen, use_old_version in Huns.
      exists j, id, n, u. split_and!; try done; lia. }
  unfold outcome. rewrite Hup. cbn [snd]. destruct Hcase as [(-> & Hd & Hno)|(-> & Hsr & Hc & _)].
  - split; [|done]. intros Hcl. exfalso. by apply Hno, Hclash; [apply Hd|].
  - split; [done|]. intros Hno. exfalso. by apply Hno, Hclash.
Qed.

Lemma update_conflicts_exactly_witness :
  (UpdateSegment_Update (update_functions (Update_number INT32)) zeros_segment first_transaction true 0 0 (ints_vector [9]) [5] 1 (zeros 0)).2 = Ok tt.
Proof.
  apply (update_conflicts_exactly (L := int_laws) _ [first_transaction] 3 0 zeros_segment first_transaction (ints_vector [9]) (zeros 0) [5] 1 0 0).
  - split; [by repeat constructor | intros t ->%list_elem_of_singleton; done | apply NoDup_singleton | done].
  - left.
  - by split; [| intros v n Hn ..].
  - apply zeros_start.
  - apply zeros_stats.
  - by apply zeros_fits.
  - intros (i & id & n & u & _ & _ & Hn & _). done.
Defined.

(** * Reading *)

(** Fetching a single row by its row id gives the value the scan of its
    vector shows the transaction. *)
Theorem fetch_row_matches_scan {T} (F : UpdateFunctions T) {L : UpdateLaws F} A limit next us t v r res result_idx :
  seg_ok A limit next us → start_ok (us_start us) → (v < ROW_GROUP_VECTOR_COUNT)%nat → (r < SVS)%nat → (result_idx < SVS)%nat →
  view_ok res → view res result_idx = view res r →
  ∃ row all, UpdateSegment_FetchRow F us t (us_start us + Z.of_nat (v * SVS + r)) res result_idx = Ok row ∧
    UpdateSegment_FetchUpdates F us t v res = Ok all ∧ view row result_idx = view all r ∧
    ∀ q, (q < SVS)%nat → q ≠ result_idx → view row q = view res q.
Proof.
  intros Hus Hs Hv Hr Hi Hok E. destruct (FetchUpdates_ok F A limit next us Hus t v res Hv Hok) as (all & Ha & _ & Va).
  destruct (FetchRow_ok F A limit next us Hus t v r res result_idx Hs Hv Hr Hok Hi) as (row & Hrow & _ & Vr).
  replace (us_start us + Z.of_nat (v * SVS + r)) with (vector_offset us v + Z.of_nat r) by (unfold vector_offset; lia).
  exists row, all. split_and!; [done | done | |].
  - rewrite Vr, Va, decide_True, E by done. done.
  - intros q Hq Hne. by rewrite Vr, decide_False.
Qed.


(** [FetchCommittedRange] over any range of rows, across vectors, puts the
    last written value of row [start_row + q] into position [q], and touches
    no other position of the result. *)
Theorem fetch_committed_range_exact {T} (F : UpdateFunctions T) {L : UpdateLaws F} A limit next us start_row count res :
  seg_ok A limit next us → (0 < count ≤ SVS)%nat → (start_row + count ≤ ROW_GROUP_VECTOR_COUNT * SVS)%nat → view_ok res →
  ∃ res', UpdateSegment_FetchCommittedRange F us start_row count res = Ok res' ∧
    ∀ q, (q < SVS)%nat → view res' q =
      if decide (q < count)%nat
      then match node_at us ((start_row + q) / SVS)%nat with
           | None => view res q
           | Some n => match entry_at (info_entries (node_info n)) (Z.of_nat ((start_row + q) mod SVS)) with Some x => Some x | None => view res q end
           end
      else view res q.
Proof.
  intros Hus Hc He Hok. destruct (FetchCommittedRange_ok F A limit next us Hus start_row count res Hc He Hok) as (res' & H1 & _ & H2).
  exists res'. split; [done|]. intros q Hq. by rewrite H2.
Qed.


(** * Boundaries *)

(** The guard of [StartTransaction] lets the start time
    [TRANSACTION_ID_START - 1] through, which is the version of the base infos:
    a transaction that starts then does not see the committed updates. *)
Lemma last_start_misses_updates {T} (us : UpdateSegment T) tid (i : UpdateInfo T) :
  (∃ m', StartTransaction (mkTxnManager (TRANSACTION_ID_START - 1) tid 0 0 0 [] [] us 0) = Ok (m', mkTransaction tid (TRANSACTION_ID_START - 1))) ∧
  (version_number i = TRANSACTION_ID_START - 1 → use_old_version (TRANSACTION_ID_START - 1) tid (version_number i) = false).
Proof. split; [by eexists|]. intros ->. done. Qed.

(** An update outside a transaction cuts the version chain behind the base
    info, with the old values other transactions still read. *)
Lemma untracked_update_drops_chain {T} (F : UpdateFunctions T) n t address column vector rows off update base n' :
  (∀ i, i ∈ node_next n → version_number i ≠ transaction_id t) →
  update_chain F n t false address column vector rows off update base = Ok n' → node_next n' = [].
Proof.
  intros Hno. unfold update_chain. destruct (CheckForConflicts _ _ _ _); [|done]. cbn [mbind result_bind].
  rewrite filter_none by done. destruct (merge_update_function _ _ _ _ _ _ _) as [[b o]|]; [|done]. by intros [= <-].
Qed.
