(* ===== verification/UncompressedSegment.v ===== *)
(** Uncompressed column segments ([src/storage/compression/fixed_size_uncompressed.cpp],
    [validity_uncompressed.cpp], [src/storage/table/column_segment.cpp]): scans,
    row fetches, appends and reverted appends of values and validity masks, and
    the function tables a segment calls them through.

    The part of the block a segment owns is an array of values or of 64-bit
    validity entries; pinning buffers is left out, and the vector that a whole
    scan points at the block holds a copy of it.  A segment of a column of
    values writes the data of the result vector, a segment of a validity column
    its mask. *)
From S2P Require Import Prelude Bits SelectionVector Types Stats NumericStats BaseStatistics ValidityMask UpdateSegment.

(** * Segments *)

Inductive ColumnSegmentType : Type := TRANSIENT | PERSISTENT.

(** [seg_size] is the size of the segment in bytes, [seg_block] its contents. *)
Record ColumnSegment (A : Type) : Type := mkColumnSegment {
  segment_type : ColumnSegmentType;
  seg_start : nat;
  seg_count : nat;
  seg_size : nat;
  seg_stats : BaseStatistics;
  seg_block : list A
}.
Arguments mkColumnSegment {A} _ _ _ _ _ _.
Arguments segment_type {A} _.
Arguments seg_start {A} _.
Arguments seg_count {A} _.
Arguments seg_size {A} _.
Arguments seg_stats {A} _.
Arguments seg_block {A} _.

Definition set_segment_data {A} (seg : ColumnSegment A) (count : nat) (stats : BaseStatistics) (block : list A) : ColumnSegment A :=
  mkColumnSegment (segment_type seg) (seg_start seg) count (seg_size seg) stats block.

Definition GetRelativeIndex {A} (seg : ColumnSegment A) (row_index : nat) : nat := row_index - seg_start seg.

(** [UnifiedVectorFormat]: row [i] is entry [sel.get_index(i)] of the data and
    of the mask. *)
Record UnifiedVectorFormat (A : Type) : Type := mkUnified {
  uni_sel : SelectionVector;
  uni_data : list A;
  uni_validity : ValidityMask
}.
Arguments mkUnified {A} _ _ _.
Arguments uni_sel {A} _.
Arguments uni_data {A} _.
Arguments uni_validity {A} _.

(** * Values of a fixed size *)

(** [memcpy(target + target_offset, source + source_offset, count)]. *)
Definition copy_rows {A} (target : list A) (target_offset : nat) (source : list A) (source_offset count : nat) : result (list A) :=
  foldM (λ t i, x ← vget source (source_offset + i); vset t (target_offset + i) x) target (seq 0 count).

Definition FixedSizeScanPartial {A} (seg : ColumnSegment A) (row_index scan_count : nat) (data : list A) (result_offset : nat)
    : result (list A) :=
  copy_rows data result_offset (seg_block seg) (GetRelativeIndex seg row_index) scan_count.

(** The vector points at the block from the first row on. *)
Definition FixedSizeScan {A} (seg : ColumnSegment A) (row_index scan_count : nat) : list A :=
  drop (GetRelativeIndex seg row_index) (seg_block seg).

(** [row_id] counts from the start of the segment. *)
Definition FixedSizeFetchRow {A} (seg : ColumnSegment A) (row_id : nat) (data : list A) (result_idx : nat) : result (list A) :=
  x ← vget (seg_block seg) row_id; vset data result_idx x.

(** [StandardFixedSizeAppend]: one row.  [null_value] is the placeholder
    [NullValue<T>()]; no one reads it. *)
Definition append_value (pt : PhysicalType) (null_value : Z) (adata : UnifiedVectorFormat Z) (target_offset offset : nat)
    (st : BaseStatistics * list Z) (i : nat) : result (BaseStatistics * list Z) :=
  source_idx ← get_index (uni_sel adata) (offset + i);
  let store :=
    x ← vget (uni_data adata) (Z.to_nat source_idx);
    stats ← NumericStats_Update pt st.1 x;
    target ← vset st.2 (target_offset + i) x;
    Ok (stats, target) in
  if AllValid (uni_validity adata) then store
  else
    valid ← RowIsValid (uni_validity adata) (Z.to_nat source_idx);
    if (valid : bool) then store
    else target ← vset st.2 (target_offset + i) null_value; Ok (st.1, target).

Definition StandardFixedSizeAppend (pt : PhysicalType) (null_value : Z) (stats : BaseStatistics) (target : list Z)
    (target_offset : nat) (adata : UnifiedVectorFormat Z) (offset count : nat) : result (BaseStatistics * list Z) :=
  foldM (append_value pt null_value adata target_offset offset) (stats, target) (seq 0 count).

(** [FixedSizeAppend<T>] for values of [type_size] bytes: as many rows as fit,
    and their number. *)
Definition FixedSizeAppend (pt : PhysicalType) (null_value : Z) (type_size : nat) (seg : ColumnSegment Z)
    (data : UnifiedVectorFormat Z) (offset count : nat) : result (ColumnSegment Z * nat) :=
  let max_tuple_count := (seg_size seg / type_size)%nat in
  let copy_count := min_difference count max_tuple_count (seg_count seg) in
  '(stats, block) ← StandardFixedSizeAppend pt null_value (seg_stats seg) (seg_block seg) (seg_count seg) data offset copy_count;
  Ok (set_segment_data seg (seg_count seg + copy_count) stats block, copy_count).

Definition FixedSizeFinalizeAppend {A} (type_size : nat) (seg : ColumnSegment A) : nat := seg_count seg * type_size.

(** * Validity masks *)

Definition LOWER_MASKS : list Z :=
  [0x0; 0x1; 0x3; 0x7; 0xf; 0x1f; 0x3f; 0x7f; 0xff; 0x1ff; 0x3ff; 0x7ff; 0xfff; 0x1fff; 0x3fff; 0x7fff; 0xffff;
   0x1ffff; 0x3ffff; 0x7ffff; 0xfffff; 0x1fffff; 0x3fffff; 0x7fffff; 0xffffff; 0x1ffffff; 0x3ffffff; 0x7ffffff;
   0xfffffff; 0x1fffffff; 0x3fffffff; 0x7fffffff; 0xffffffff; 0x1ffffffff; 0x3ffffffff; 0x7ffffffff; 0xfffffffff;
   0x1fffffffff; 0x3fffffffff; 0x7fffffffff; 0xffffffffff; 0x1ffffffffff; 0x3ffffffffff; 0x7ffffffffff;
   0xfffffffffff; 0x1fffffffffff; 0x3fffffffffff; 0x7fffffffffff; 0xffffffffffff; 0x1ffffffffffff; 0x3ffffffffffff;
   0x7ffffffffffff; 0xfffffffffffff; 0x1fffffffffffff; 0x3fffffffffffff; 0x7fffffffffffff; 0xffffffffffffff;
   0x1ffffffffffffff; 0x3ffffffffffffff; 0x7ffffffffffffff; 0xfffffffffffffff; 0x1fffffffffffffff;
   0x3fffffffffffffff; 0x7fffffffffffffff; 0xffffffffffffffff]%Z.

Definition UPPER_MASKS : list Z :=
  [0x0; 0x8000000000000000; 0xc000000000000000; 0xe000000000000000; 0xf000000000000000; 0xf800000000000000;
   0xfc00000000000000; 0xfe00000000000000; 0xff00000000000000; 0xff80000000000000; 0xffc0000000000000;
   0xffe0000000000000; 0xfff0000000000000; 0xfff8000000000000; 0xfffc000000000000; 0xfffe000000000000;
   0xffff000000000000; 0xffff800000000000; 0xffffc00000000000; 0xffffe00000000000; 0xfffff00000000000;
   0xfffff80000000000; 0xfffffc0000000000; 0xfffffe0000000000; 0xffffff0000000000; 0xffffff8000000000;
   0xffffffc000000000; 0xffffffe000000000; 0xfffffff000000000; 0xfffffff800000000; 0xfffffffc00000000;
   0xfffffffe00000000; 0xffffffff00000000; 0xffffffff80000000; 0xffffffffc0000000; 0xffffffffe0000000;
   0xfffffffff0000000; 0xfffffffff8000000; 0xfffffffffc000000; 0xfffffffffe000000; 0xffffffffff000000;
   0xffffffffff800000; 0xffffffffffc00000; 0xffffffffffe00000; 0xfffffffffff00000; 0xfffffffffff80000;
   0xfffffffffffc0000; 0xfffffffffffe0000; 0xffffffffffff0000; 0xffffffffffff8000; 0xffffffffffffc000;
   0xffffffffffffe000; 0xfffffffffffff000; 0xfffffffffffff800; 0xfffffffffffffc00; 0xfffffffffffffe00;
   0xffffffffffffff00; 0xffffffffffffff80; 0xffffffffffffffc0; 0xffffffffffffffe0; 0xfffffffffffffff0;
   0xfffffffffffffff8; 0xfffffffffffffffc; 0xfffffffffffffffe; 0xffffffffffffffff]%Z.

(** The three cases of [ValidityScanPartial]: the entry of the input moved to
    the position of the result, with ones where it has no rows. *)
Definition align_entry (input_mask : Z) (result_idx input_idx : nat) : result Z :=
  if (result_idx <? input_idx)%nat then
    let shift_amount := (input_idx - result_idx)%nat in
    upper ← vget UPPER_MASKS shift_amount;
    Ok (Z.lor (Z.shiftr input_mask (Z.of_nat shift_amount)) upper)
  else if (input_idx <? result_idx)%nat then
    let shift_amount := (result_idx - input_idx)%nat in
    upper ← vget UPPER_MASKS shift_amount;
    lower ← vget LOWER_MASKS shift_amount;
    Ok (Z.lor (wrapu 64 (Z.shiftl (Z.land input_mask (wrapu 64 (Z.lnot upper))) (Z.of_nat shift_amount))) lower)
  else Ok input_mask.

(** The positions of the loop. *)
Record scan_position : Type := mkPosition {
  sp_pos : nat;
  sp_result_entry : nat;
  sp_result_idx : nat;
  sp_input_entry : nat;
  sp_input_idx : nat
}.

Definition next_position (p : scan_position) : scan_position :=
  let '(mkPosition pos result_entry result_idx input_entry input_idx) := p in
  if (result_idx <? input_idx)%nat then
    let offset := (BITS_PER_VALUE - input_idx)%nat in
    mkPosition (pos + offset) result_entry (result_idx + offset) (S input_entry) 0
  else if (input_idx <? result_idx)%nat then
    let offset := (BITS_PER_VALUE - result_idx)%nat in
    mkPosition (pos + offset) (S result_entry) 0 input_entry (input_idx + offset)
  else
    let offset := (BITS_PER_VALUE - result_idx)%nat in
    mkPosition (pos + offset) (S result_entry) 0 (S input_entry) 0.

(** One iteration: the mask and the position after it. *)
Definition scan_entry (input : list Z) (scan_count : nat) (mask : ValidityMask) (p : scan_position)
    : result (ValidityMask * scan_position) :=
  entry ← vget input (sp_input_entry p);
  input_mask ← align_entry entry (sp_result_idx p) (sp_input_idx p);
  let p' := next_position p in
  input_mask ← (if (scan_count <? sp_pos p')%nat then
                  upper ← vget UPPER_MASKS (sp_pos p' - scan_count); Ok (Z.lor input_mask upper)
                else Ok input_mask);
  mask ← (if input_mask =? MAX_ENTRY then Ok mask
          else update_entry (EnsureWritable mask) (sp_result_entry p) (λ e, Z.land e input_mask));
  Ok (mask, p').

(** The loop runs at most [scan_count] times: every iteration moves on. *)
Fixpoint scan_entries (fuel : nat) (input : list Z) (scan_count : nat) (mask : ValidityMask) (p : scan_position)
    : result ValidityMask :=
  if (scan_count <=? sp_pos p)%nat then Ok mask
  else match fuel with
       | O => Throw OutOfFuel
       | S fuel => '(mask, p) ← scan_entry input scan_count mask p; scan_entries fuel input scan_count mask p
       end.

Definition ValidityScanPartial (seg : ColumnSegment Z) (row_index scan_count : nat) (mask : ValidityMask) (result_offset : nat)
    : result ValidityMask :=
  let start := GetRelativeIndex seg row_index in
  let result_entry := (result_offset / BITS_PER_VALUE)%nat in
  let input_entry := (start / BITS_PER_VALUE)%nat in
  scan_entries scan_count (seg_block seg) scan_count mask
    (mkPosition 0 result_entry (result_offset - result_entry * BITS_PER_VALUE) input_entry (start - input_entry * BITS_PER_VALUE)).

(** The row by row loop for vectors of less than 128 rows, which says what the
    loop over the entries has to do. *)
Definition ValidityScanPartial_rows (seg : ColumnSegment Z) (row_index scan_count : nat) (mask : ValidityMask) (result_offset : nat)
    : result ValidityMask :=
  let start := GetRelativeIndex seg row_index in
  foldM (λ mask i,
    valid ← RowIsValid (mkMask (Some (seg_block seg)) 0) (start + i);
    if (valid : bool) then Ok mask
    else
      let mask := if AllValid mask then Initialize mask (target_count mask) else mask in
      SetInvalid mask (result_offset + i)) mask (seq 0 scan_count).

(** One entry of the aligned scan. *)
Definition copy_entry (input : list Z) (start_offset : nat) (mask : ValidityMask) (i : nat) : result ValidityMask :=
  input_entry ← vget input (start_offset + i);
  if AllValid mask && (input_entry =? MAX_ENTRY) then Ok mask
  else update_entry (EnsureWritable mask) i (λ _, input_entry).

Definition ValidityScan (seg : ColumnSegment Z) (row_index scan_count : nat) (mask : ValidityMask) : result ValidityMask :=
  let start := GetRelativeIndex seg row_index in
  if (start mod BITS_PER_VALUE =? 0)%nat then
    foldM (copy_entry (seg_block seg) (start / BITS_PER_VALUE)) mask
      (seq 0 ((scan_count + BITS_PER_VALUE - 1) / BITS_PER_VALUE))
  else ValidityScanPartial seg row_index scan_count mask 0.

Definition ValidityFetchRow (seg : ColumnSegment Z) (row_id : nat) (mask : ValidityMask) (result_idx : nat) : result ValidityMask :=
  valid ← RowIsValidUnsafe (mkMask (Some (seg_block seg)) 0) row_id;
  if (valid : bool) then Ok mask else SetInvalid mask result_idx.

(** [ValidityInitSegment]: in a new block every row is valid. *)
Definition ValidityInitSegment (segment_size : nat) : list Z := replicate (segment_size / 8) MAX_ENTRY.

Definition STANDARD_MASK_SIZE : nat := EntryCount STANDARD_VECTOR_SIZE * 8.

(** [SetHasNullFast], [SetHasNoNullFast]. *)
Definition SetHasNullFast (s : BaseStatistics) : BaseStatistics := set_validity s true (has_no_null s).
Definition SetHasNoNullFast (s : BaseStatistics) : BaseStatistics := set_validity s (has_null s) true.

Definition append_validity (data : UnifiedVectorFormat Z) (offset seg_rows : nat) (st : BaseStatistics * ValidityMask) (i : nat)
    : result (BaseStatistics * ValidityMask) :=
  idx ← get_index (uni_sel data) (offset + i);
  valid ← RowIsValidUnsafe (uni_validity data) (Z.to_nat idx);
  if (valid : bool) then Ok (SetHasNoNullFast st.1, st.2)
  else mask ← SetInvalidUnsafe st.2 (seg_rows + i); Ok (SetHasNullFast st.1, mask).

Definition ValidityAppend (seg : ColumnSegment Z) (data : UnifiedVectorFormat Z) (offset vcount : nat) : result (ColumnSegment Z * nat) :=
  let max_tuples := (seg_size seg / STANDARD_MASK_SIZE * STANDARD_VECTOR_SIZE)%nat in
  let append_count := min_difference vcount max_tuples (seg_count seg) in
  if AllValid (uni_validity data) then
    Ok (set_segment_data seg (seg_count seg + append_count) (SetHasNoNullFast (seg_stats seg)) (seg_block seg), append_count)
  else
    '(stats, mask) ← foldM (append_validity data offset (seg_count seg)) (seg_stats seg, mkMask (Some (seg_block seg)) 0) (seq 0 append_count);
    match validity_mask mask with
    | None => null_mask
    | Some block => Ok (set_segment_data seg (seg_count seg + append_count) stats block, append_count)
    end.

Definition ValidityFinalizeAppend {A} (seg : ColumnSegment A) : nat :=
  (seg_count seg + STANDARD_VECTOR_SIZE - 1) / STANDARD_VECTOR_SIZE * STANDARD_MASK_SIZE.

(** [memset(ptr + from, 0xFF, size - from)] on the entries of a block. *)
Definition memset_ones (block : list Z) (from : nat) : list Z :=
  imap (λ k w, Z.lor w (wrapu 64 (Z.shiftl MAX_ENTRY (Z.of_nat (8 * (from - 8 * k)))))) block.

Definition ValidityRevertAppend (seg : ColumnSegment Z) (start_row : nat) : result (list Z) :=
  let start_bit := (start_row - seg_start seg)%nat in
  if (start_bit mod 8 =? 0)%nat then Ok (memset_ones (seg_block seg) (start_bit / 8))
  else
    let bit_end := ((start_bit / 8 + 1) * 8)%nat in
    mask ← foldM SetValid (mkMask (Some (seg_block seg)) 0) (seq start_bit (bit_end - start_bit));
    match validity_mask mask with
    | None => null_mask
    | Some block => Ok (memset_ones block (bit_end / 8))
    end.

(** [Storage::BLOCK_SIZE]. *)
Definition BLOCK_SIZE : nat := Z.to_nat (262144 - 8).

Definition GetTypeIdSize (type : PhysicalType) : result nat :=
  match type with
  | PT_BIT | BOOL => Ok 1
  | INT8 | UINT8 => Ok 1
  | INT16 | UINT16 => Ok 2
  | INT32 | UINT32 | FLOAT => Ok 4
  | INT64 | UINT64 | DOUBLE => Ok 8
  | INT128 | UINT128 => Ok 16
  | PT_VARCHAR => Ok 16
  | PT_INTERVAL => Ok 16
  | PT_STRUCT | PT_UNKNOWN | PT_ARRAY => Ok 0
  | PT_LIST => Ok 16
  | _ => Throw (InternalException "Invalid PhysicalType for GetTypeIdSize")
  end%nat.

(** * The functions of a segment *)

(** [CompressionFunction]: elements of type [A] in the block, rows of type [T]
    in the vector; [new_block] is the block of a segment of the given size
    after [init_segment]. *)
Record CompressionFunction (A T : Type) : Type := mkCompression {
  new_block : nat → list A;
  scan_vector : ColumnSegment A → nat → nat → FlatVector T → result (FlatVector T);
  scan_partial : ColumnSegment A → nat → nat → FlatVector T → nat → result (FlatVector T);
  fetch_row : ColumnSegment A → nat → FlatVector T → nat → result (FlatVector T);
  append : ColumnSegment A → UnifiedVectorFormat Z → nat → nat → result (ColumnSegment A * nat);
  revert_append : option (ColumnSegment A → nat → result (list A))
}.
Arguments mkCompression {A T} _ _ _ _ _ _.
Arguments new_block {A T} _ _.
Arguments scan_vector {A T} _ _ _ _ _.
Arguments scan_partial {A T} _ _ _ _ _ _.
Arguments fetch_row {A T} _ _ _ _ _.
Arguments append {A T} _ _ _ _ _.
Arguments revert_append {A T} _.

(** [FixedSizeGetFunction<T>]; [uninitialised] is what a new block holds. *)
Definition FixedSizeGetFunction (pt : PhysicalType) (null_value uninitialised : Z) (type_size : nat) : CompressionFunction Z Z :=
  mkCompression
    (λ size, replicate (size / type_size) uninitialised)
    (λ seg row_index scan_count res, Ok (mkFlat (FixedSizeScan seg row_index scan_count) (flat_validity res)))
    (λ seg row_index scan_count res result_offset, with_data res (FixedSizeScanPartial seg row_index scan_count (flat_data res) result_offset))
    (λ seg row_id res result_idx, with_data res (FixedSizeFetchRow seg row_id (flat_data res) result_idx))
    (λ seg data offset count, FixedSizeAppend pt null_value type_size seg data offset count)
    None.

(** [ValidityUncompressed::GetFunction]. *)
Definition ValidityGetFunction : CompressionFunction Z bool :=
  mkCompression
    ValidityInitSegment
    (λ seg row_index scan_count res, with_validity res (ValidityScan seg row_index scan_count (flat_validity res)))
    (λ seg row_index scan_count res result_offset, with_validity res (ValidityScanPartial seg row_index scan_count (flat_validity res) result_offset))
    (λ seg row_id res result_idx, with_validity res (ValidityFetchRow seg row_id (flat_validity res) result_idx))
    ValidityAppend
    (Some ValidityRevertAppend).

(** [FixedSizeUncompressed::GetFunction] for numbers; [null_value] is
    [NullValue<T>()]. *)
Definition FixedSizeUncompressed_GetFunction (null_value uninitialised : Z) (data_type : PhysicalType) : result (CompressionFunction Z Z) :=
  match data_type with
  | BOOL | INT8 | INT16 | INT32 | INT64 | UINT8 | UINT16 | UINT32 | UINT64 | INT128 | UINT128 | FLOAT | DOUBLE =>
      size ← GetTypeIdSize data_type; Ok (FixedSizeGetFunction data_type null_value uninitialised size)
  | PT_INTERVAL | PT_LIST => Throw (Unmodelled "segments of intervals and lists")
  | _ => Throw (InternalException "Unsupported type for FixedSizeUncompressed::GetFunction")
  end.

(** * Segments *)

Inductive ScanVectorType : Type := SCAN_ENTIRE_VECTOR | SCAN_FLAT_VECTOR.

Section Segments.
Context {A T : Type} (F : CompressionFunction A T).

Definition ColumnSegment_Scan (seg : ColumnSegment A) (row_index scan_count : nat) (res : FlatVector T) (result_offset : nat)
    (scan_type : ScanVectorType) : result (FlatVector T) :=
  match scan_type with
  | SCAN_ENTIRE_VECTOR => scan_vector F seg row_index scan_count res
  | SCAN_FLAT_VECTOR => scan_partial F seg row_index scan_count res result_offset
  end.

Definition ColumnSegment_FetchRow (seg : ColumnSegment A) (row_id : nat) (res : FlatVector T) (result_idx : nat) : result (FlatVector T) :=
  fetch_row F seg (row_id - seg_start seg) res result_idx.

Definition ColumnSegment_Append (seg : ColumnSegment A) (data : UnifiedVectorFormat Z) (offset count : nat) : result (ColumnSegment A * nat) :=
  append F seg data offset count.

Definition ColumnSegment_RevertAppend (seg : ColumnSegment A) (start_row : nat) : result (ColumnSegment A) :=
  block ← match revert_append F with Some f => f seg start_row | None => Ok (seg_block seg) end;
  Ok (set_segment_data seg (start_row - seg_start seg) (seg_stats seg) block).

(** [CreateTransientSegment]. *)
Definition CreateTransientSegment (type : LogicalType) (start segment_size : nat) : result (ColumnSegment A) :=
  stats ← CreateEmpty type;
  Ok (mkColumnSegment TRANSIENT start 0 segment_size stats (new_block F segment_size)).
End Segments.
