(* ===== verification/Compression.v ===== *)
(** Compressed segments: run-length encoding ([storage/compression/rle.cpp]),
    constant segments ([storage/compression/numeric_constant.cpp]), and what the
    checkpoint of a column keeps of a segment that is flushed to it
    ([storage/table/column_checkpoint_state.cpp]).

    The block of a segment is the map of the bytes that were written to it, from
    the offset of the segment on.  Allocating, sharing and writing blocks is left
    to the block manager: of a segment that shares its block the first
    [segment_size] bytes are kept. *)
From S2P Require Import Prelude Bits Types Stats NumericStats BaseStatistics SelectionVector ValidityMask UncompressedSegment.

(** * Blocks *)

Abbreviation Block := (gmap Z Z).

(** [Storage::BLOCK_SIZE]. *)
Definition Storage_BLOCK_SIZE : Z := 262144 - 8.

Definition load_bytes (b : Block) (address : Z) (n : nat) : result (list Z) :=
  mapR (λ a, match b !! a with Some x => Ok x | None => Throw (UndefinedBehaviour "byte of a block that was never written") end)
    (seqZ address (Z.of_nat n)).

Definition store_bytes (b : Block) (address : Z) (bytes : list Z) : result Block :=
  if (0 <=? address) && (address + Z.of_nat (length bytes) <=? Storage_BLOCK_SIZE) then Ok (map_seqZ address bytes ∪ b)
  else Throw (UndefinedBehaviour "write outside of a block").

(** The numbers of type [T] in memory. *)
Definition sizeof (T : PhysicalType) : Z := match num_width T with Some (w, _) => w / 8 | None => 0 end.

Definition encode_value (T : PhysicalType) (x : Z) : list Z := write_uint (Z.to_nat (sizeof T)) (wrapu (8 * sizeof T) x).
Definition decode_value (T : PhysicalType) (bytes : list Z) : Z :=
  let u := little_endian_to_Z 8 bytes in
  match num_width T with Some (w, true) => wraps w u | _ => u end.

Definition Store (T : PhysicalType) (b : Block) (address x : Z) : result Block := store_bytes b address (encode_value T x).
Definition Load (T : PhysicalType) (b : Block) (address : Z) : result Z := decode_value T <$> load_bytes b address (Z.to_nat (sizeof T)).

Definition memmove (b : Block) (target source : Z) (n : Z) : result Block :=
  bytes ← load_bytes b source (Z.to_nat n); store_bytes b target bytes.

(** [AlignValue] to eight bytes. *)
Definition AlignValue (n : Z) : Z := (n + 7) / 8 * 8.

(** [NullValue<T>()]; a [BOOL] is stored as an [int8_t], whose minimum is the byte
    [0x80]. *)
Definition NullValue (T : PhysicalType) : Z :=
  match T with
  | BOOL => 0x80
  | FLOAT => 0x7FC00000
  | DOUBLE => 0x7FF8000000000000
  | _ => NumericLimits_Minimum T
  end.

(** * Runs *)

Definition RLE_COUNT_MAX : Z := 65535.

(** [RLEState<T>]; the object behind [dataptr] is passed separately. *)
Record RLEState : Type := mkRLEState {
  seen_count : Z;
  last_value : Z;
  last_seen_count : Z;
  all_null : bool
}.

Definition RLEState_new (T : PhysicalType) : RLEState := mkRLEState 0 (NullValue T) 0 true.

Section Runs.
Context (T : PhysicalType) {W : Type} (OP : W → Z → Z → bool → result W).

Definition RLEState_Flush (st : RLEState) (w : W) : result W := OP w (last_value st) (last_seen_count st) (all_null st).

Definition count_row (st : RLEState) : RLEState :=
  mkRLEState (seen_count st) (last_value st) (wrapu 16 (last_seen_count st + 1)) (all_null st).

(** A row, [None] if it is NULL. *)
Definition update_row (st : RLEState) (w : W) (row : option Z) : result (RLEState * W) :=
  '(st, w) ← match row with
    | Some x =>
        if all_null st then Ok (mkRLEState (seen_count st + 1) x (wrapu 16 (last_seen_count st + 1)) false, w)
        else if native_eq T (last_value st) x then Ok (count_row st, w)
        else w ← RLEState_Flush st w; Ok (mkRLEState (seen_count st + 1) x 1 (all_null st), w)
    | None => Ok (count_row st, w)
    end;
  if last_seen_count st =? RLE_COUNT_MAX then
    w ← RLEState_Flush st w; Ok (mkRLEState (seen_count st + 1) (last_value st) 0 (all_null st), w)
  else Ok (st, w).

Definition RLEState_Update (st : RLEState) (w : W) (data : list Z) (validity : ValidityMask) (idx : nat) : result (RLEState * W) :=
  valid ← RowIsValid validity idx;
  row ← (if (valid : bool) then Some <$> vget data idx else Ok None);
  update_row st w row.

(** The rows of a vector. *)
Definition update_rows (st : RLEState * W) (vdata : UnifiedVectorFormat Z) (count : nat) : result (RLEState * W) :=
  foldM (λ st i, idx ← get_index (uni_sel vdata) i; RLEState_Update st.1 st.2 (uni_data vdata) (uni_validity vdata) (Z.to_nat idx)) st (seq 0 count).
End Runs.

(** * Analysis *)

Definition EmptyRLEWriter (w : unit) (value count : Z) (is_null : bool) : result unit := Ok w.

Definition RLEAnalyze (T : PhysicalType) (st : RLEState) (input : UnifiedVectorFormat Z) (count : nat) : result RLEState :=
  fst <$> update_rows T EmptyRLEWriter (st, tt) input count.

Definition RLEFinalAnalyze (T : PhysicalType) (st : RLEState) : Z := (2 + sizeof T) * seen_count st.

(** * Checkpoints *)

(** The types of the segments modelled here. *)
Inductive CompressionType : Type := COMPRESSION_CONSTANT | COMPRESSION_RLE | COMPRESSION_BITPACKING.

(** A segment that is being written. *)
Record CompressedSegment : Type := mkCompressed {
  cs_start : Z;
  cs_rows : Z;
  cs_stats : BaseStatistics;
  cs_block : Block
}.

(** A segment of the checkpoint with its data pointer. *)
Record DataPointer : Type := mkDataPointer {
  row_start : Z;
  tuple_count : Z;
  compression_type : CompressionType;
  pointer_stats : BaseStatistics;
  pointer_block : Block
}.

(** [ColumnCheckpointState]: the global statistics, the start of the row group
    and the data pointers. *)
Record ColumnCheckpointState : Type := mkCheckpoint {
  global_stats : BaseStatistics;
  row_group_start : Z;
  data_pointers : list DataPointer
}.

Definition next_row_start (c : ColumnCheckpointState) : Z :=
  match last (data_pointers c) with Some p => row_start p + tuple_count p | None => row_group_start c end.

(** [function] is the type of the segment. *)
Definition Checkpoint_FlushSegment (function : CompressionType) (c : ColumnCheckpointState) (seg : CompressedSegment) (segment_size : Z) : result ColumnCheckpointState :=
  if cs_rows seg =? 0 then Ok c
  else
    stats ← Merge (global_stats c) (cs_stats seg);
    constant ← IsConstant (cs_stats seg);
    let pointer :=
      if (constant : bool) then mkDataPointer (next_row_start c) (cs_rows seg) COMPRESSION_CONSTANT (cs_stats seg) ∅
      else mkDataPointer (next_row_start c) (cs_rows seg) function (cs_stats seg) (filter (λ kv, kv.1 < segment_size) (cs_block seg)) in
    Ok (mkCheckpoint stats (row_group_start c) (data_pointers c ++ [pointer])).

(** * Compression *)

Definition RLE_HEADER_SIZE : Z := 8.

(** [RLECompressState] without its [RLEState]. *)
Record RLECompressState : Type := mkCompressState {
  current_segment : CompressedSegment;
  entry_count : Z;
  checkpoint : ColumnCheckpointState
}.

Section Compress.
Context (T : PhysicalType) (WRITE_STATISTICS : bool) (type : LogicalType).

Definition MaxRLECount : Z := (Storage_BLOCK_SIZE - RLE_HEADER_SIZE) / (sizeof T + 2).

Definition CreateEmptySegment (row_start : Z) : result CompressedSegment :=
  stats ← CreateEmpty type; Ok (mkCompressed row_start 0 stats ∅).

Definition RLECompressState_new (row_group_start : Z) (global : BaseStatistics) : result RLECompressState :=
  seg ← CreateEmptySegment row_group_start; Ok (mkCompressState seg 0 (mkCheckpoint global row_group_start [])).

(** The counts are moved next to the values. *)
Definition FlushSegment (seg : CompressedSegment) (entry_count : Z) (c : ColumnCheckpointState) : result ColumnCheckpointState :=
  let counts_size := 2 * entry_count in
  let original_rle_offset := RLE_HEADER_SIZE + MaxRLECount * sizeof T in
  let minimal_rle_offset := AlignValue (RLE_HEADER_SIZE + sizeof T * entry_count) in
  let total_segment_size := minimal_rle_offset + counts_size in
  block ← memmove (cs_block seg) minimal_rle_offset original_rle_offset counts_size;
  block ← Store UINT64 block 0 minimal_rle_offset;
  Checkpoint_FlushSegment COMPRESSION_RLE c (mkCompressed (cs_start seg) (cs_rows seg) (cs_stats seg) block) total_segment_size.

Definition WriteValue (s : RLECompressState) (value count : Z) (is_null : bool) : result RLECompressState :=
  let seg := current_segment s in
  block ← Store T (cs_block seg) (RLE_HEADER_SIZE + entry_count s * sizeof T) value;
  block ← Store UINT16 block (RLE_HEADER_SIZE + MaxRLECount * sizeof T + entry_count s * 2) count;
  let entry_count := entry_count s + 1 in
  stats ← (if WRITE_STATISTICS && negb is_null then NumericStats_Update T (cs_stats seg) value else Ok (cs_stats seg));
  let seg := mkCompressed (cs_start seg) (cs_rows seg + count) stats block in
  if entry_count =? MaxRLECount then
    let row_start := cs_start seg + cs_rows seg in
    c ← FlushSegment seg entry_count (checkpoint s);
    seg ← CreateEmptySegment row_start;
    Ok (mkCompressState seg 0 c)
  else Ok (mkCompressState seg entry_count (checkpoint s)).

Definition RLECompress (st : RLEState * RLECompressState) (scan_vector : UnifiedVectorFormat Z) (count : nat) : result (RLEState * RLECompressState) :=
  update_rows T WriteValue st scan_vector count.

Definition RLEFinalizeCompress (st : RLEState * RLECompressState) : result ColumnCheckpointState :=
  s ← RLEState_Flush WriteValue st.1 st.2;
  FlushSegment (current_segment s) (entry_count s) (checkpoint s).

(** [ColumnDataCheckpointer::WriteToDisk] once run-length encoding was chosen:
    all vectors of the column, then the rest. *)
Definition RLE_checkpoint (row_group_start : Z) (global : BaseStatistics) (vectors : list (UnifiedVectorFormat Z * nat)) : result ColumnCheckpointState :=
  s ← RLECompressState_new row_group_start global;
  st ← foldM (λ st v, RLECompress st v.1 v.2) (RLEState_new T, s) vectors;
  RLEFinalizeCompress st.
End Compress.

(** * Scans *)

Record RLEScanState : Type := mkRLEScan {
  entry_pos : Z;
  position_in_entry : Z;
  rle_count_offset : Z
}.

Section Scan.
Context (T : PhysicalType).

Definition RLEInitScan (b : Block) : result RLEScanState :=
  offset ← Load UINT64 b 0; Ok (mkRLEScan 0 0 (wrapu 32 offset)).

Definition index_pointer (b : Block) (st : RLEScanState) : result Z := Load UINT16 b (rle_count_offset st + 2 * entry_pos st).
Definition data_pointer (b : Block) (st : RLEScanState) : result Z := Load T b (RLE_HEADER_SIZE + sizeof T * entry_pos st).

Definition ForwardToNextRun (st : RLEScanState) : RLEScanState := mkRLEScan (entry_pos st + 1) 0 (rle_count_offset st).
Definition ExhaustedRun (b : Block) (st : RLEScanState) : result bool := run ← index_pointer b st; Ok (run <=? position_in_entry st).

(** [position_in_entry += n], and on to the next run at the end of this one. *)
Definition advance (b : Block) (st : RLEScanState) (n : Z) : result RLEScanState :=
  let st := mkRLEScan (entry_pos st) (position_in_entry st + n) (rle_count_offset st) in
  exhausted ← ExhaustedRun b st;
  Ok (if (exhausted : bool) then ForwardToNextRun st else st).

Definition RLESkip (b : Block) (st : RLEScanState) (skip_count : nat) : result RLEScanState :=
  foldM (λ st _, advance b st 1) st (seq 0 skip_count).

Definition CanEmitConstantVector (ENTIRE_VECTOR : bool) (position run_length : Z) (scan_count : nat) : bool :=
  if negb ENTIRE_VECTOR then false
  else if negb (scan_count =? STANDARD_VECTOR_SIZE)%nat then false
  else Z.of_nat scan_count <=? wrapu 64 (run_length - position).

(** The rows of the constant vector. *)
Definition RLEScanConstant (b : Block) (st : RLEScanState) (scan_count : nat) : result (RLEScanState * list Z) :=
  x ← data_pointer b st;
  st ← advance b st (Z.of_nat scan_count);
  Ok (st, replicate scan_count x).

Definition RLEScanPartialInternal (ENTIRE_VECTOR : bool) (b : Block) (st : RLEScanState) (scan_count : nat) (res : list Z) (result_offset : nat)
    : result (RLEScanState * list Z) :=
  run ← index_pointer b st;
  if CanEmitConstantVector ENTIRE_VECTOR (position_in_entry st) run scan_count then RLEScanConstant b st scan_count
  else
    foldM (λ acc i, x ← data_pointer b acc.1; data ← vset acc.2 (result_offset + i) x; st ← advance b acc.1 1; Ok (st, data)) (st, res) (seq 0 scan_count).

Definition RLEScanPartial := RLEScanPartialInternal false.
Definition RLEScan (b : Block) (st : RLEScanState) (scan_count : nat) (res : list Z) := RLEScanPartialInternal true b st scan_count res 0.

Definition RLEFetchRow (b : Block) (row_id : nat) (res : list Z) (result_idx : nat) : result (list Z) :=
  st ← RLEInitScan b;
  st ← RLESkip b st row_id;
  x ← data_pointer b st;
  vset res result_idx x.

(** * Constant segments *)

(** [NumericStats::GetMin<T>]. *)
Definition GetMin (stats : BaseStatistics) : result Z := v ← NumericStats_Min stats; GetValueUnsafe T v.

Definition ConstantFillFunction (stats : BaseStatistics) (res : list Z) (start_idx count : nat) : result (list Z) :=
  constant_value ← GetMin stats;
  foldM (λ res i, vset res (start_idx + i) constant_value) res (seq 0 count).

(** The rows of the constant vector. *)
Definition ConstantScanFunction (stats : BaseStatistics) (scan_count : nat) : result (list Z) :=
  x ← GetMin stats; Ok (replicate scan_count x).

(** A row of a segment of a checkpoint; [fetch_row] is the function of the type
    the column was compressed with. *)
Definition FetchRow (fetch_row : Block → nat → list Z → nat → result (list Z)) (p : DataPointer) (row_id : nat) (res : list Z) (result_idx : nat) : result (list Z) :=
  match compression_type p with
  | COMPRESSION_CONSTANT => ConstantFillFunction (pointer_stats p) res result_idx 1
  | _ => fetch_row (pointer_block p) row_id res result_idx
  end.
End Scan.

(** [RLEFun::GetFunction]: the type the values are stored as, and whether
    statistics are written; BOOL values are stored in the byte of an [int8_t]. *)
Definition RLEFun_GetFunction (type : PhysicalType) : result (PhysicalType * bool) :=
  match type with
  | BOOL | INT8 | INT16 | INT32 | INT64 | INT128 | UINT128 | UINT8 | UINT16 | UINT32 | UINT64 | FLOAT | DOUBLE => Ok (type, true)
  | PT_LIST => Ok (UINT64, false)
  | _ => Throw (InternalException "Unsupported type for RLE")
  end.

Definition RLEFun_TypeIsSupported (type : PhysicalType) : bool :=
  match type with
  | BOOL | INT8 | INT16 | INT32 | INT64 | INT128 | UINT8 | UINT16 | UINT32 | UINT64 | UINT128 | FLOAT | DOUBLE | PT_LIST => true
  | _ => false
  end.
