(* ===== verification/FastPFor.v ===== *)
(** Packing of 32 unsigned numbers into words ([third_party/fastpforlib]): the
    steps that write and read one number, the unrolled loops over them, the
    special widths, and what is read back from what was packed. *)
From S2P Require Import Prelude Bits.

Definition logic_error {A} : result A := Throw (LogicError "Invalid bit width for bitpacking").

(** * Steps *)

(** One number of [DELTA] bits of [words], starting [SHR] bits into the word [i]
    of [TYPE_SIZE] bits; the word that is read next. *)
Definition unpack_single_out (TYPE_SIZE DELTA SHR : Z) (words : list Z) (i : nat) : result (Z * nat) :=
  if DELTA + SHR <? TYPE_SIZE then
    x ← vget words i; Ok (Z.shiftr x SHR `mod` Z.shiftl 1 DELTA, i)
  else
    x ← vget words i;
    y ← vget words (S i);
    let NEXT_SHR := SHR + DELTA - TYPE_SIZE in
    Ok (Z.lor (Z.shiftr x SHR) (wrapu TYPE_SIZE (Z.shiftl (y `mod` Z.shiftl 1 NEXT_SHR) (TYPE_SIZE - SHR))), S i).

(** The same for numbers of 64 bits in words of 32 bits. *)
Definition unpack_single_out64 (DELTA SHR : Z) (words : list Z) (i : nat) : result (Z * nat) :=
  if DELTA + SHR <? 32 then
    x ← vget words i; Ok (Z.shiftr x SHR `mod` Z.shiftl 1 DELTA, i)
  else if DELTA + SHR <? 64 then
    x ← vget words i;
    if 32 <? DELTA + SHR then
      y ← vget words (S i);
      Ok (Z.lor (Z.shiftr x SHR) (wrapu 64 (Z.shiftl (y `mod` Z.shiftl 1 (SHR + DELTA - 32)) (32 - SHR))), S i)
    else Ok (Z.shiftr x SHR, S i)
  else
    x ← vget words i;
    y ← vget words (S i);
    let out := Z.lor (Z.shiftr x SHR) (wrapu 64 (Z.shiftl y (32 - SHR))) in
    if 64 <? DELTA + SHR then
      z ← vget words (S (S i));
      Ok (Z.lor out (wrapu 64 (Z.shiftl (z `mod` Z.shiftl 1 (DELTA + SHR - 64)) (64 - SHR))), S (S i))
    else Ok (out, S (S i)).

(** [*out |= x]. *)
Definition or_word (w : Z) (out : list Z) (o : nat) (x : Z) : result (list Z) :=
  old ← vget out o; vset out o (wrapu w (Z.lor old x)).

(** One number, of which [DELTA] bits are kept, written [SHL] bits into the word
    [o]; the word that is written next. *)
Definition pack_single_in (TYPE_SIZE DELTA SHL MASK : Z) (in_ : Z) (out : list Z) (o : nat) : result (list Z * nat) :=
  if DELTA + SHL <? TYPE_SIZE then
    out ← (if SHL =? 0 then vset out o (Z.land in_ MASK) else or_word TYPE_SIZE out o (Z.shiftl (Z.land in_ MASK) SHL));
    Ok (out, o)
  else
    out ← or_word TYPE_SIZE out o (Z.shiftl in_ SHL);
    out ← (if TYPE_SIZE <? DELTA + SHL then vset out (S o) (Z.shiftr (Z.land in_ MASK) (TYPE_SIZE - SHL)) else Ok out);
    Ok (out, S o).

Definition pack_single_in64 (DELTA SHL MASK : Z) (in_ : Z) (out : list Z) (o : nat) : result (list Z * nat) :=
  if DELTA + SHL <? 64 then
    out ← (if SHL =? 0 then vset out o (wrapu 32 (Z.land in_ MASK)) else or_word 32 out o (wrapu 64 (Z.shiftl (Z.land in_ MASK) SHL)));
    if DELTA + SHL <? 32 then Ok (out, o)
    else
      out ← (if 32 <? DELTA + SHL then vset out (S o) (wrapu 32 (Z.shiftr (Z.land in_ MASK) (32 - SHL))) else Ok out);
      Ok (out, S o)
  else
    out ← or_word 32 out o (wrapu 64 (Z.shiftl in_ SHL));
    out ← vset out (S o) (wrapu 32 (Z.shiftr (Z.land in_ MASK) (32 - SHL)));
    out ← (if 64 <? DELTA + SHL then vset out (S (S o)) (wrapu 32 (Z.shiftr (Z.land in_ MASK) (64 - SHL))) else Ok out);
    Ok (out, S (S o)).

(** * Unrolled loops *)

Section Unroller.
Context (TYPE_SIZE DELTA : Z).

(** [Unroller8], [Unroller16] and [Unroller], whose last step is a
    specialisation: [n] steps from [OINDEX] on come before it. *)
Fixpoint Unroller_Unpack (n OINDEX : nat) (words : list Z) (i : nat) : result (list Z) :=
  let SHIFT := (DELTA * Z.of_nat OINDEX) `mod` TYPE_SIZE in
  match n with
  | O => x ← vget words i; Ok [Z.shiftr x SHIFT]
  | S n => '(x, i) ← unpack_single_out TYPE_SIZE DELTA SHIFT words i; out ← Unroller_Unpack n (S OINDEX) words i; Ok (x :: out)
  end.

Fixpoint Unroller_Pack (n OINDEX : nat) (in_ : list Z) (out : list Z) (o : nat) : result (list Z) :=
  let SHIFT := (DELTA * Z.of_nat OINDEX) `mod` TYPE_SIZE in
  x ← vget in_ OINDEX;
  match n with
  | O => or_word TYPE_SIZE out o (Z.shiftl x SHIFT)
  | S n => '(out, o) ← pack_single_in TYPE_SIZE DELTA SHIFT (Z.shiftl 1 DELTA - 1) x out o; Unroller_Pack n (S OINDEX) in_ out o
  end.

(** The variants for numbers of 64 bits. *)
Fixpoint Unroller_Unpack64 (n OINDEX : nat) (words : list Z) (i : nat) : result (list Z) :=
  let SHIFT := (DELTA * Z.of_nat OINDEX) `mod` 32 in
  match n with
  | O =>
      x ← vget words i;
      let out := Z.shiftr x SHIFT in
      if 32 <? DELTA then y ← vget words (S i); Ok [Z.lor out (wrapu 64 (Z.shiftl y (32 - SHIFT)))] else Ok [out]
  | S n => '(x, i) ← unpack_single_out64 DELTA SHIFT words i; out ← Unroller_Unpack64 n (S OINDEX) words i; Ok (x :: out)
  end.

Fixpoint Unroller_Pack64 (n OINDEX : nat) (in_ : list Z) (out : list Z) (o : nat) : result (list Z) :=
  let SHIFT := (DELTA * Z.of_nat OINDEX) `mod` 32 in
  x ← vget in_ OINDEX;
  match n with
  | O =>
      out ← or_word 32 out o (wrapu 64 (Z.shiftl x SHIFT));
      if 32 <? DELTA then vset out (S o) (wrapu 32 (Z.shiftr x (32 - SHIFT))) else Ok out
  | S n => '(out, o) ← pack_single_in64 DELTA SHIFT (Z.shiftl 1 DELTA - 1) x out o; Unroller_Pack64 n (S OINDEX) in_ out o
  end.
End Unroller.

(** * Widths *)

(** [for (k = 0; k < n; ++k) out[k] = in[k]]. *)
Definition copy_words (w : Z) (n : nat) (in_ out : list Z) : result (list Z) :=
  foldM (λ out k, x ← vget in_ k; vset out k (wrapu w x)) out (seq 0 n).

(** The loops for widths that divide the words: [outer] over the words,
    [inwordpointer] over the numbers in a word. *)
Definition unpack_aligned (TYPE_SIZE bit : Z) (in_ : list Z) : result (list Z) :=
  numbers ← mapR (λ outer, x ← vget in_ outer;
    Ok ((λ k, let inwordpointer := bit * Z.of_nat k in Z.shiftr x inwordpointer `mod` Z.shiftl 1 bit) <$> seq 0 (Z.to_nat (TYPE_SIZE / bit)))) (seq 0 (Z.to_nat bit));
  Ok (concat numbers).

(** [fastpack_quarter] for 8 numbers of 8 bits, [fastpack_half] for 16 numbers of
    16 bits and [fastpack] for 32 numbers of 32 bits; [out] holds what was in the
    words before. *)
Definition fastpack_block (TYPE_SIZE bit : Z) (in_ out : list Z) : result (list Z) :=
  let n := Z.to_nat TYPE_SIZE in
  if bit =? 0 then Ok out
  else if (0 <? bit) && (bit <? TYPE_SIZE) then Unroller_Pack TYPE_SIZE bit (n - 1) 0 in_ out 0
  else if bit =? TYPE_SIZE then copy_words TYPE_SIZE n in_ out
  else logic_error.

Definition fastunpack_block (TYPE_SIZE bit : Z) (in_ : list Z) : result (list Z) :=
  let n := Z.to_nat TYPE_SIZE in
  if bit =? 0 then Ok (replicate n 0)
  else if ((bit =? 4) || (bit =? 8) || (bit =? 16)) && (bit <? TYPE_SIZE) then unpack_aligned TYPE_SIZE bit in_
  else if (0 <? bit) && (bit <? TYPE_SIZE) then Unroller_Unpack TYPE_SIZE bit (n - 1) 0 in_ 0
  else if bit =? TYPE_SIZE then mapR (vget in_) (seq 0 n)
  else logic_error.

(** [fastpack] and [fastunpack] of 32 numbers of 64 bits. *)
Definition fastpack64 (bit : Z) (in_ out : list Z) : result (list Z) :=
  if bit =? 0 then Ok out
  else if bit =? 32 then copy_words 32 32 in_ out
  else if bit =? 64 then
    foldM (λ out i, x ← vget in_ i; out ← vset out (2 * i) (wrapu 32 x); vset out (2 * i + 1) (wrapu 32 (Z.shiftr x 32))) out (seq 0 32)
  else if (0 <? bit) && (bit <? 64) then Unroller_Pack64 bit 31 0 in_ out 0
  else logic_error.

Definition fastunpack64 (bit : Z) (in_ : list Z) : result (list Z) :=
  if bit =? 0 then Ok (replicate 32 0)
  else if (bit =? 4) || (bit =? 8) || (bit =? 16) then unpack_aligned 32 bit in_
  else if bit =? 32 then mapR (vget in_) (seq 0 32)
  else if bit =? 64 then mapR (λ k, x ← vget in_ (k * 2); y ← vget in_ (k * 2 + 1); Ok (Z.lor x (wrapu 64 (Z.shiftl y 32)))) (seq 0 32)
  else if (0 <? bit) && (bit <? 64) then Unroller_Unpack64 bit 31 0 in_ 0
  else logic_error.

(** * Words in memory *)

Definition words_bytes (w : Z) (words : list Z) : list Z := concat (Z_to_little_endian (w / 8) 8 <$> words).
Definition bytes_words (w : Z) (n : nat) (bytes : list Z) : list Z :=
  (λ k, little_endian_to_Z 8 (take (Z.to_nat (w / 8)) (drop (Z.to_nat (w / 8) * k) bytes))) <$> seq 0 n.

(** 32 numbers of [w] bits, [bit] bits of each, as bytes; the words held
    [uninitialised] before.  Numbers of 8 and of 16 bits are packed in quarters
    and halves. *)
Definition fastpack (uninitialised : Z) (w bit : Z) (values : list Z) : result (list Z) :=
  let word := if w =? 64 then 32 else w in
  let n := Z.to_nat word in
  words ← (if w =? 64 then fastpack64 bit values (replicate (Z.to_nat bit) uninitialised)
           else blocks ← mapR (λ i, fastpack_block w bit (take n (drop (n * i) values)) (replicate (Z.to_nat bit) uninitialised)) (seq 0 (32 / n)); Ok (concat blocks));
  Ok (words_bytes word words).

Definition fastunpack (w bit : Z) (bytes : list Z) : result (list Z) :=
  let word := if w =? 64 then 32 else w in
  let n := Z.to_nat word in
  let words := bytes_words word (Z.to_nat bit * (32 / n)) bytes in
  if w =? 64 then fastunpack64 bit words
  else blocks ← mapR (λ i, fastunpack_block w bit (take (Z.to_nat bit) (drop (Z.to_nat bit * i) words))) (seq 0 (32 / n)); Ok (concat blocks).

(** * Slices of a stream of bits *)

(** The [n] bits from the bit [a] on. *)
Definition slice (bits a n : Z) : Z := Z.land (Z.shiftr bits a) (Z.ones n).

Lemma slice_spec bits a n i : 0 ≤ a → 0 ≤ n → Z.testbit (slice bits a n) i = (0 <=? i) && (i <? n) && Z.testbit bits (a + i).
Proof.
  intros Ha Hn. destruct (Z.leb_spec 0 i) as [Hi|Hi]; [|by rewrite Z.testbit_neg_r]. unfold slice. rewrite Z.land_spec, Z.shiftr_spec, Z.testbit_ones_nonneg, andb_comm by done. by rewrite (Z.add_comm i).
Qed.

Lemma slice_bound bits a n : 0 ≤ n → 0 ≤ slice bits a n < 2 ^ n.
Proof. intros Hn. unfold slice. rewrite Z.land_ones by done. apply Z.mod_pos_bound, Z.pow_pos_nonneg; lia. Qed.

Lemma slice_0 bits a : slice bits a 0 = 0.
Proof. unfold slice. apply Z.land_0_r. Qed.

(** The low bits of a number decide those of its remainders. *)
Lemma testbit_low x y n i : 0 ≤ i < n → x `mod` 2 ^ n = y → Z.testbit x i = Z.testbit y i.
Proof. intros Hi <-. by rewrite Z.mod_pow2_bits_low by lia. Qed.

(** Numbers that agree on their bits; a number below [2 ^ n] has no others. *)
Ltac by_bits :=
  apply Z.bits_inj'; intros i Hi; rewrite ?Z.lor_spec, ?Z.shiftl_spec, ?Z.shiftr_spec, ?slice_spec by lia.

Lemma slice_join bits a m n : 0 ≤ a → 0 ≤ m → 0 ≤ n → Z.lor (slice bits a m) (Z.shiftl (slice bits (a + m) n) m) = slice bits a (m + n).
Proof.
  intros Ha Hm Hn. by_bits. replace (a + m + (i - m)) with (a + i) by lia. destruct (Z.testbit bits (a + i)); lia.
Qed.

Lemma slice_low bits a m n : 0 ≤ a → 0 ≤ m ≤ n → slice bits a n `mod` 2 ^ m = slice bits a m.
Proof.
  intros Ha Hm. by_bits. destruct (decide (i < m)); [rewrite Z.mod_pow2_bits_low, slice_spec by lia | rewrite Z.mod_pow2_bits_high by lia]; destruct (Z.testbit bits (a + i)); lia.
Qed.

Lemma slice_high bits a m n : 0 ≤ a → 0 ≤ m ≤ n → Z.shiftr (slice bits a n) m = slice bits (a + m) (n - m).
Proof.
  intros Ha Hm. by_bits. replace (a + (i + m)) with (a + m + i) by lia. destruct (Z.testbit bits (a + m + i)); lia.
Qed.

Lemma slice_part bits a k m n : 0 ≤ a → 0 ≤ k ≤ n → 0 ≤ m → wrapu m (Z.shiftr (slice bits a n) k) = slice bits (a + k) (Z.min m (n - k)).
Proof.
  intros Ha Hk Hm. rewrite slice_high by done. unfold wrapu. destruct (decide (m ≤ n - k)); [rewrite slice_low by lia; f_equal; lia|].
  pose proof (slice_bound bits (a + k) (n - k) ltac:(lia)). pose proof (Z.pow_le_mono_r 2 (n - k) m ltac:(lia) ltac:(lia)). rewrite Z.mod_small by lia. f_equal. lia.
Qed.

(** Bits that are added to a word; what does not fit is dropped. *)
Lemma slice_or bits a r n m x : 0 ≤ a → 0 ≤ r → 0 ≤ n → 0 ≤ m ≤ r + n → x `mod` 2 ^ n = slice bits (a + r) n →
  wrapu m (Z.lor (slice bits a r) (Z.shiftl x r)) = slice bits a m.
Proof.
  intros Ha Hr Hn Hm Hx. unfold wrapu. by_bits. destruct (decide (i < m)); [|rewrite Z.mod_pow2_bits_high by lia; destruct (Z.testbit bits (a + i)); lia].
  rewrite Z.mod_pow2_bits_low, Z.lor_spec, Z.shiftl_spec, slice_spec by lia. destruct (decide (i < r)).
  - rewrite (Z.testbit_neg_r _ (i - r)) by lia. destruct (Z.testbit bits (a + i)); lia.
  - rewrite (testbit_low x _ n (i - r)) by (done || lia). rewrite slice_spec by lia. replace (a + r + (i - r)) with (a + i) by lia. destruct (Z.testbit bits (a + i)); lia.
Qed.

Lemma wrapu_lor w m x y : 0 ≤ w ≤ m → wrapu w (Z.lor x (wrapu m y)) = wrapu w (Z.lor x y).
Proof.
  intros Hw. unfold wrapu. apply Z.bits_inj'. intros i Hi. destruct (decide (i < w)); [rewrite !Z.mod_pow2_bits_low, !Z.lor_spec, Z.mod_pow2_bits_low by lia | rewrite !Z.mod_pow2_bits_high by lia]; done.
Qed.

Lemma mask_mod x n : 0 ≤ n → Z.land x (Z.shiftl 1 n - 1) = x `mod` 2 ^ n.
Proof. intros Hn. rewrite Z.shiftl_1_l, Z.sub_1_r, <- Z.ones_equiv. by apply Z.land_ones. Qed.

(** * Packing *)

Section Packing.
Context (bits B : Z).

(** The words before [o] hold the stream, the word [o] its first [r] bits. *)
Definition filled (out : list Z) (o : nat) (r : Z) : Prop :=
  (∀ q, (q < o)%nat → out !! q = Some (slice bits (B * Z.of_nat q) B)) ∧ (0 < r → out !! o = Some (slice bits (B * Z.of_nat o) r)).

Lemma filled_empty out : filled out 0 0.
Proof. split; lia. Qed.

Lemma filled_set out o r n : filled out o r → (o < length out)%nat → filled (<[o := slice bits (B * Z.of_nat o) n]> out) o n.
Proof.
  intros [H1 H2] Ho. split; [|by rewrite list_lookup_insert_eq]. intros q Hq. rewrite list_lookup_insert_ne by lia. by apply H1.
Qed.

Lemma filled_full out o : 0 < B → filled out o B → filled out (S o) 0.
Proof. intros HB [H1 H2]. split; [|lia]. intros q Hq. destruct (decide (q = o)) as [->|]; [by apply H2 | apply H1; lia]. Qed.

Lemma word_lt (o L : nat) e : 0 < B → 0 ≤ e → B * Z.of_nat o + e < B * Z.of_nat L → (o < L)%nat.
Proof. intros HB He Hl. apply Nat2Z.inj_lt, (Z.mul_lt_mono_pos_l B); lia. Qed.

Lemma shift_eq (o : nat) r a : B * Z.of_nat o + r = a → 0 ≤ r < B → a `mod` B = r.
Proof. intros <- Hr. symmetry. apply (Z.mod_unique _ _ (Z.of_nat o)); [by left | lia]. Qed.

(** A number is added to a word. *)
Lemma or_word_ok out o r m n x : filled out o r → 0 < r → 0 ≤ n → 0 ≤ B → B ≤ r + n → B ≤ m → (o < length out)%nat → x `mod` 2 ^ n = slice bits (B * Z.of_nat o + r) n →
  or_word B out o (wrapu m (Z.shiftl x r)) = Ok (<[o := slice bits (B * Z.of_nat o) B]> out) ∧ or_word B out o (Z.shiftl x r) = Ok (<[o := slice bits (B * Z.of_nat o) B]> out).
Proof.
  intros [_ H] Hr Hn HB Hb Hm Ho Hx. assert (0 ≤ B * Z.of_nat o) by nia. unfold or_word. rewrite (vget_lookup _ _ _ (H Hr)). cbn [mbind result_bind]. rewrite wrapu_lor by lia.
  rewrite (slice_or bits _ r n B x) by (lia || done). by rewrite vset_lt.
Qed.

Lemma or_word_more out o r m n x : filled out o r → 0 < r → 0 ≤ n → r + n ≤ B → B ≤ m → (o < length out)%nat → x `mod` 2 ^ n = slice bits (B * Z.of_nat o + r) n →
  or_word B out o (wrapu m (Z.shiftl (x `mod` 2 ^ n) r)) = Ok (<[o := slice bits (B * Z.of_nat o) (r + n)]> out) ∧ or_word B out o (Z.shiftl (x `mod` 2 ^ n) r) = Ok (<[o := slice bits (B * Z.of_nat o) (r + n)]> out).
Proof.
  intros [_ H] Hr Hn Hb Hm Ho ->. assert (0 ≤ B * Z.of_nat o) by nia. unfold or_word. rewrite (vget_lookup _ _ _ (H Hr)). cbn [mbind result_bind]. rewrite wrapu_lor, slice_join by lia.
  pose proof (slice_bound bits (B * Z.of_nat o) (r + n) ltac:(lia)). pose proof (Z.pow_le_mono_r 2 (r + n) B ltac:(lia) ltac:(lia)). rewrite wrapu_small by lia. by rewrite vset_lt.
Qed.

Context (DELTA : Z) (HD : 0 < DELTA).

(** The number that is packed next is a slice of the stream; it leaves the words
    filled up to its end. *)
Definition packs (o : nat) (r : Z) (out : list Z) (p : result (list Z * nat)) : Prop :=
  ∃ out' o' r', p = Ok (out', o') ∧ length out' = length out ∧ B * Z.of_nat o + r + DELTA = B * Z.of_nat o' + r' ∧ 0 ≤ r' < B ∧ filled out' o' r'.

Lemma pack_single_in_ok x out o r : DELTA < B → filled out o r → 0 ≤ r < B → B * Z.of_nat o + r + DELTA < B * Z.of_nat (length out) →
  x `mod` 2 ^ DELTA = slice bits (B * Z.of_nat o + r) DELTA → packs o r out (pack_single_in B DELTA r (Z.shiftl 1 DELTA - 1) x out o).
Proof.
  intros Hlt Hf Hr Hl Hx. assert (0 ≤ B * Z.of_nat o) by nia. unfold pack_single_in. rewrite mask_mod by lia. assert (o < length out)%nat as Ho by (apply (word_lt _ _ (r + DELTA)); lia). destruct (Z.ltb_spec (DELTA + r) B) as [Hs|Hs].
  - exists (<[o := slice bits (B * Z.of_nat o) (r + DELTA)]> out), o, (r + DELTA). split_and!; [| by rewrite length_insert | lia | lia | lia | by eapply filled_set].
    destruct (Z.eqb_spec r 0) as [->|Hr0].
    + rewrite vset_lt, Hx by done. cbn [mbind result_bind]. by rewrite Z.add_0_r, Z.add_0_l.
    + by rewrite (proj2 (or_word_more out o r B DELTA x Hf ltac:(lia) ltac:(lia) ltac:(lia) ltac:(lia) Ho Hx)).
  - rewrite (proj2 (or_word_ok out o r B DELTA x Hf ltac:(lia) ltac:(lia) ltac:(lia) ltac:(lia) ltac:(lia) Ho Hx)). cbn [mbind result_bind]. set (out1 := <[_ := _]> out).
    assert (filled out1 (S o) 0) as Hf1 by (apply filled_full; [lia | by eapply filled_set]). assert (length out1 = length out) as Hl1 by apply length_insert.
    destruct (Z.ltb_spec B (DELTA + r)) as [Hc|Hc].
    + assert (S o < length out1)%nat by (rewrite Hl1; apply (word_lt _ _ (r + DELTA - B)); lia). rewrite Hx, slice_high by lia. replace (B * Z.of_nat o + r + (B - r)) with (B * Z.of_nat (S o)) by lia. replace (DELTA - (B - r)) with (r + DELTA - B) by lia.
      rewrite vset_lt by done. cbn [mbind result_bind]. eexists _, (S o), (r + DELTA - B). split_and!; [done | by rewrite length_insert | lia | lia | lia | by eapply filled_set].
    + assert (r + DELTA = B) by lia. exists out1, (S o), 0. split_and!; [done | done | lia..| done].
Qed.

Lemma pack_single_in64_ok x out o r : B = 32 → DELTA < 64 → DELTA ≠ 32 → filled out o r → 0 ≤ r < B → B * Z.of_nat o + r + DELTA < B * Z.of_nat (length out) →
  x `mod` 2 ^ DELTA = slice bits (B * Z.of_nat o + r) DELTA → packs o r out (pack_single_in64 DELTA r (Z.shiftl 1 DELTA - 1) x out o).
Proof.
  intros HB Hlt H32 Hf Hr Hl Hx. assert (0 ≤ B * Z.of_nat o) by nia. unfold pack_single_in64. rewrite mask_mod by lia. rewrite <- HB. assert (o < length out)%nat as Ho by (apply (word_lt _ _ (r + DELTA)); lia).
  destruct (Z.ltb_spec (DELTA + r) B) as [Hs|Hs].
  { rewrite (proj2 (Z.ltb_lt _ _)) by lia. exists (<[o := slice bits (B * Z.of_nat o) (r + DELTA)]> out), o, (r + DELTA). split_and!; [| by rewrite length_insert | lia | lia | lia | by eapply filled_set].
    destruct (Z.eqb_spec r 0) as [->|Hr0].
    - rewrite Hx, vset_lt by done. cbn [mbind result_bind]. rewrite Z.add_0_r, Z.add_0_l, wrapu_small; [done|]. pose proof (slice_bound bits (B * Z.of_nat o) DELTA ltac:(lia)). pose proof (Z.pow_le_mono_r 2 DELTA B ltac:(lia) ltac:(lia)). lia.
    - by rewrite (proj1 (or_word_more out o r 64 DELTA x Hf ltac:(lia) ltac:(lia) ltac:(lia) ltac:(lia) Ho Hx)). }
  set (out1 := <[o := slice bits (B * Z.of_nat o) B]> out).
  assert (filled out1 (S o) 0) as Hf1 by (apply filled_full; [lia | by eapply filled_set]). assert (length out1 = length out) as Hl1 by apply length_insert.
  assert (∀ k q, 0 ≤ k ≤ DELTA → B * Z.of_nat o + r + k = B * Z.of_nat q → wrapu B (Z.shiftr (x `mod` 2 ^ DELTA) k) = slice bits (B * Z.of_nat q) (Z.min B (DELTA - k))) as Hpart by (intros k q Hk <-; rewrite Hx; apply slice_part; lia).
  destruct (Z.ltb_spec (DELTA + r) 64) as [Hm|Hm].
  - assert ((if r =? 0 then vset out o (wrapu B (x `mod` 2 ^ DELTA)) else or_word B out o (wrapu 64 (Z.shiftl (x `mod` 2 ^ DELTA) r))) = Ok out1) as ->.
    { destruct (Z.eqb_spec r 0) as [->|Hr0]; [|apply (or_word_ok out o r 64 DELTA); try done; try lia; rewrite Hx; apply Z.mod_small; rewrite <- Hx; apply Z.mod_pos_bound; lia].
      rewrite <- (Z.shiftr_0_r (x `mod` 2 ^ DELTA)), (Hpart 0 o), vset_lt by (done || lia). unfold out1. do 3 f_equal. lia. }
    cbn [mbind result_bind]. destruct (Z.ltb_spec B (DELTA + r)) as [Hc|Hc]; [|exists out1, (S o), 0; split_and!; [done | done | lia.. | done]].
    assert (S o < length out1)%nat by (rewrite Hl1; apply (word_lt _ _ (r + DELTA - B)); lia). rewrite (Hpart (B - r) (S o)), vset_lt by (done || lia). cbn [mbind result_bind].
    eexists _, (S o), (Z.min B (DELTA - (B - r))). split_and!; [done | by rewrite length_insert | lia | lia | lia | by eapply filled_set].
  - rewrite (proj1 (or_word_ok out o r 64 DELTA x Hf ltac:(lia) ltac:(lia) ltac:(lia) ltac:(lia) ltac:(lia) Ho Hx)). cbn [mbind result_bind]. fold out1.
    assert (S o < length out1)%nat by (rewrite Hl1; apply (word_lt _ _ (r + DELTA - B)); lia). rewrite (Hpart (B - r) (S o)), vset_lt by (done || lia). cbn [mbind result_bind].
    rewrite Z.min_l by lia. set (out2 := <[S o := _]> out1). assert (filled out2 (S (S o)) 0) as Hf2 by (apply filled_full; [lia | by eapply filled_set]). assert (length out2 = length out) as Hl2 by (unfold out2; by rewrite length_insert).
    destruct (Z.ltb_spec 64 (DELTA + r)) as [Hc|Hc]; [|exists out2, (S (S o)), 0; split_and!; [done | done | lia.. | done]].
    assert (S (S o) < length out2)%nat by (rewrite Hl2; apply (word_lt _ _ (r + DELTA - 2 * B)); lia). rewrite (Hpart (64 - r) (S (S o))), vset_lt by (done || lia). cbn [mbind result_bind].
    eexists _, (S (S o)), (Z.min B (DELTA - (64 - r))). split_and!; [done | by rewrite length_insert | lia | lia | lia | by eapply filled_set].
Qed.

(** The numbers [0 .. N - 1] are the slices of the stream, which fills whole words. *)
Context (N : nat) (in_ : list Z) (Hin : ∀ j, (j < N)%nat → ∃ x, in_ !! j = Some x ∧ x `mod` 2 ^ DELTA = slice bits (DELTA * Z.of_nat j) DELTA).

Definition packed_words (out : list Z) (p : result (list Z)) : Prop :=
  ∃ out', p = Ok out' ∧ length out' = length out ∧ ∀ q, (q < length out)%nat → out' !! q = Some (slice bits (B * Z.of_nat q) B).

Lemma filled_packed out out' : length out' = length out → filled out' (length out) 0 → packed_words out (Ok out').
Proof. intros Hl [H _]. by exists out'. Qed.

Lemma Unroller_Pack_ok : DELTA < B → ∀ n OINDEX out o r, (OINDEX + n + 1 = N)%nat → B * Z.of_nat o + r = DELTA * Z.of_nat OINDEX → 0 ≤ r < B → filled out o r →
  DELTA * Z.of_nat N = B * Z.of_nat (length out) → packed_words out (Unroller_Pack B DELTA n OINDEX in_ out o).
Proof.
  intros Hlt n. induction n as [|n IH]; intros OINDEX out o r Hn Hp Hr Hf Hl; cbn [Unroller_Pack]; rewrite (shift_eq o r) by done; destruct (Hin OINDEX ltac:(lia)) as (x & Hx & Ex); rewrite (vget_lookup _ _ _ Hx), <- Hp in *; cbn [mbind result_bind].
  - assert (B * (Z.of_nat (length out) - Z.of_nat o) = r + DELTA) as E by nia. assert (Z.of_nat (length out) - Z.of_nat o = 1) as E1 by nia.
    rewrite (proj2 (or_word_ok out o r B DELTA x Hf ltac:(lia) ltac:(lia) ltac:(lia) ltac:(lia) ltac:(lia) ltac:(lia) Ex)). apply filled_packed; [by rewrite length_insert|].
    replace (length out) with (S o) by lia. apply filled_full; [lia|]. eapply filled_set; [done | lia].
  - destruct (pack_single_in_ok x out o r) as (out' & o' & r' & -> & Hl' & Ho' & Hr' & Hf'); [done | done | done | nia | done|]. cbn [mbind result_bind].
    destruct (IH (S OINDEX) out' o' r') as (w & -> & Hw & Hq); [lia | nia | done | done | by rewrite Hl'|]. exists w. rewrite Hl' in *. done.
Qed.

Lemma Unroller_Pack64_ok : B = 32 → DELTA < 64 → DELTA ≠ 32 → ∀ n OINDEX out o r, (OINDEX + n + 1 = N)%nat → B * Z.of_nat o + r = DELTA * Z.of_nat OINDEX → 0 ≤ r < B → filled out o r →
  DELTA * Z.of_nat N = B * Z.of_nat (length out) → packed_words out (Unroller_Pack64 DELTA n OINDEX in_ out o).
Proof.
  intros HB Hlt H32 n. induction n as [|n IH]; intros OINDEX out o r Hn Hp Hr Hf Hl; cbn [Unroller_Pack64]; rewrite <- HB; rewrite (shift_eq o r) by done; destruct (Hin OINDEX ltac:(lia)) as (x & Hx & Ex); rewrite (vget_lookup _ _ _ Hx), <- Hp in *; cbn [mbind result_bind].
  - assert (B * (Z.of_nat (length out) - Z.of_nat o) = r + DELTA) as E by nia.
    rewrite (proj1 (or_word_ok out o r 64 DELTA x Hf ltac:(nia) ltac:(lia) ltac:(lia) ltac:(nia) ltac:(lia) ltac:(nia) Ex)). cbn [mbind result_bind]. set (out1 := <[_ := _]> out).
    assert (filled out1 (S o) 0) as Hf1 by (apply filled_full; [lia|]; eapply filled_set; [done | nia]). assert (length out1 = length out) as Hl1 by apply length_insert.
    destruct (Z.ltb_spec B DELTA) as [Hc|Hc].
    + assert (Z.of_nat (length out) - Z.of_nat o = 2) as E1 by nia. rewrite E1 in E. assert (0 ≤ B * Z.of_nat o) by nia.
      assert (wrapu B (Z.shiftr x (B - r)) = slice bits (B * Z.of_nat (S o)) B) as ->.
      { unfold wrapu. apply Z.bits_inj'. intros i Hi. rewrite slice_spec by nia. destruct (decide (i < B)); [|rewrite Z.mod_pow2_bits_high by lia; destruct (Z.testbit bits _); lia].
        rewrite Z.mod_pow2_bits_low, Z.shiftr_spec, (testbit_low x _ DELTA (i + (B - r)) ltac:(lia) Ex), slice_spec by lia. replace (B * Z.of_nat o + r + (i + (B - r))) with (B * Z.of_nat (S o) + i) by lia. destruct (Z.testbit bits _); lia. }
      rewrite vset_lt by lia. apply filled_packed; [by rewrite length_insert|]. replace (length out) with (S (S o)) by lia. apply filled_full; [lia|]. eapply filled_set; [done | lia].
    + assert (Z.of_nat (length out) - Z.of_nat o = 1) as E1 by nia. apply filled_packed; [done|]. by replace (length out) with (S o) by lia.
  - destruct (pack_single_in64_ok x out o r) as (out' & o' & r' & -> & Hl' & Ho' & Hr' & Hf'); [done | done | done | done | done | nia | done|]. cbn [mbind result_bind].
    destruct (IH (S OINDEX) out' o' r') as (w & -> & Hw & Hq); [lia | nia | done | done | by rewrite Hl'|]. exists w. rewrite Hl' in *. done.
Qed.
End Packing.

(** * Unpacking *)

Lemma mapR_pure {A C} (f : A → result C) g l : (∀ x, x ∈ l → f x = Ok (g x)) → mapR f l = Ok (g <$> l).
Proof.
  intros H. destruct (mapR_Forall2 f (λ x y, y = g x) l) as (k & -> & Hk); [apply Forall_forall; intros x Hx; exists (g x); split; [by apply H | done]|].
  f_equal. induction Hk as [|x y l k -> _ IH]; [done|]. cbn. f_equal. apply IH. intros z Hz. apply H. by right.
Qed.

Lemma concat_blocks {A} (f : nat → A) k n : concat ((λ o, (λ i, f (k * o + i)%nat) <$> seq 0 k) <$> seq 0 n) = f <$> seq 0 (k * n).
Proof.
  induction n as [|n IH]; [by rewrite Nat.mul_0_r|]. replace (S n) with (n + 1)%nat by lia. rewrite seq_app, fmap_app, concat_app, IH, Nat.mul_add_distr_l, Nat.mul_1_r, seq_app, fmap_app. f_equal.
  replace (seq (0 + k * n) k) with (Nat.add (k * n) <$> seq 0 k) by (rewrite fmap_add_seq; f_equal; lia). rewrite <- list_fmap_compose. cbn [seq fmap list_fmap concat Nat.add]. by rewrite app_nil_r.
Qed.

Lemma join_wrapped bits w a m n : 0 ≤ a → 0 ≤ m → 0 ≤ n → m + n ≤ w → Z.lor (slice bits a m) (wrapu w (Z.shiftl (slice bits (a + m) n) m)) = slice bits a (m + n).
Proof.
  intros Ha Hm Hn Hw. rewrite wrapu_small; [by apply slice_join|]. pose proof (slice_bound bits (a + m) n Hn) as Hb. rewrite Z.shiftl_mul_pow2 by done.
  pose proof (Z.pow_pos_nonneg 2 m ltac:(lia) Hm). pose proof (Z.pow_le_mono_r 2 (m + n) w ltac:(lia) Hw) as Hp. rewrite Z.pow_add_r in Hp by done. nia.
Qed.

Section Unpacking.
Context (bits B : Z) (HB : 0 < B) (words : list Z) (L : nat) (Hwords : ∀ q, (q < L)%nat → words !! q = Some (slice bits (B * Z.of_nat q) B)).
Context (DELTA : Z) (HD : 0 < DELTA).

Lemma word_ok o : (o < L)%nat → vget words o = Ok (slice bits (B * Z.of_nat o) B).
Proof. intros Ho. by apply vget_lookup, Hwords. Qed.

Lemma word_high o r : 0 ≤ r ≤ B → Z.shiftr (slice bits (B * Z.of_nat o) B) r = slice bits (B * Z.of_nat o + r) (B - r).
Proof. intros Hr. apply slice_high; [nia | lia]. Qed.

Lemma word_low o n : 0 ≤ n ≤ B → slice bits (B * Z.of_nat o) B `mod` Z.shiftl 1 n = slice bits (B * Z.of_nat o) n.
Proof. intros Hn. rewrite Z.shiftl_1_l. apply slice_low; [nia | lia]. Qed.

(** The next number is read, up to its end. *)
Definition unpacks (o : nat) (r : Z) (p : result (Z * nat)) : Prop :=
  ∃ o' r', p = Ok (slice bits (B * Z.of_nat o + r) DELTA, o') ∧ B * Z.of_nat o + r + DELTA = B * Z.of_nat o' + r' ∧ 0 ≤ r' < B.

(** The end of a number is at the start of the next word. *)
Lemma join_next w o r k n : 0 ≤ r → 0 ≤ k → 0 ≤ n → r + k = B → k + n ≤ w →
  Z.lor (slice bits (B * Z.of_nat o + r) k) (wrapu w (Z.shiftl (slice bits (B * Z.of_nat (S o)) n) k)) = slice bits (B * Z.of_nat o + r) (k + n).
Proof. intros Hr Hk Hn Hb Hw. replace (B * Z.of_nat (S o)) with (B * Z.of_nat o + r + k) by lia. apply join_wrapped; [nia | done..]. Qed.

Lemma unpack_low o r : 0 ≤ r → DELTA + r ≤ B → Z.shiftr (slice bits (B * Z.of_nat o) B) r `mod` Z.shiftl 1 DELTA = slice bits (B * Z.of_nat o + r) DELTA.
Proof. intros Hr Hs. rewrite word_high, Z.shiftl_1_l by lia. apply slice_low; [nia | lia]. Qed.

Lemma unpack_single_out_ok o r : DELTA < B → 0 ≤ r < B → B * Z.of_nat o + r + DELTA < B * Z.of_nat L → unpacks o r (unpack_single_out B DELTA r words o).
Proof.
  intros Hlt Hr Hl. unfold unpack_single_out. rewrite word_ok by (apply (word_lt B _ _ (r + DELTA)); lia). cbn [mbind result_bind]. destruct (Z.ltb_spec (DELTA + r) B) as [Hs|Hs].
  - exists o, (r + DELTA). rewrite unpack_low by lia. split_and!; [done | lia..].
  - rewrite word_ok by (apply (word_lt B _ _ (r + DELTA - B)); lia). cbn [mbind result_bind]. rewrite word_high, word_low by lia. rewrite join_next by lia.
    exists (S o), (r + DELTA - B). split_and!; [do 3 f_equal; lia | lia..].
Qed.

Lemma unpack_single_out64_ok o r : B = 32 → DELTA < 64 → 0 ≤ r < B → B * Z.of_nat o + r + DELTA < B * Z.of_nat L → unpacks o r (unpack_single_out64 DELTA r words o).
Proof.
  intros E32 Hlt Hr Hl. unfold unpack_single_out64. rewrite <- E32. rewrite word_ok by (apply (word_lt B _ _ (r + DELTA)); lia). cbn [mbind result_bind]. destruct (Z.ltb_spec (DELTA + r) B) as [Hs|Hs].
  - exists o, (r + DELTA). rewrite unpack_low by lia. split_and!; [done | lia..].
  - assert (S o < L)%nat by (apply (word_lt B _ _ (r + DELTA - B)); lia). destruct (Z.ltb_spec (DELTA + r) 64) as [Hm|Hm].
    + destruct (Z.ltb_spec B (DELTA + r)) as [Hc|Hc].
      * rewrite word_ok by done. cbn [mbind result_bind]. rewrite word_high, word_low, join_next by lia. exists (S o), (r + DELTA - B). split_and!; [do 3 f_equal; lia | lia..].
      * rewrite word_high by lia. exists (S o), 0. split_and!; [do 3 f_equal; lia | lia..].
    + rewrite (word_ok (S o)) by done. cbn [mbind result_bind]. rewrite word_high, join_next by lia. destruct (Z.ltb_spec 64 (DELTA + r)) as [Hc|Hc].
      * rewrite word_ok by (apply (word_lt B _ _ (r + DELTA - 2 * B)); lia). cbn [mbind result_bind]. rewrite word_low by lia. replace (B * Z.of_nat (S (S o))) with (B * Z.of_nat o + r + (B - r + B)) by lia.
        replace (64 - r) with (B - r + B) by lia. rewrite join_wrapped by nia. exists (S (S o)), (r + DELTA - 64). split_and!; [do 3 f_equal; lia | lia..].
      * exists (S (S o)), 0. split_and!; [do 3 f_equal; lia | lia..].
Qed.

Abbreviation number j := (slice bits (DELTA * Z.of_nat j) DELTA).

Lemma Unroller_Unpack_ok N : DELTA < B → DELTA * Z.of_nat N = B * Z.of_nat L → ∀ n OINDEX o r, (OINDEX + n + 1 = N)%nat → B * Z.of_nat o + r = DELTA * Z.of_nat OINDEX → 0 ≤ r < B →
  Unroller_Unpack B DELTA n OINDEX words o = Ok ((λ j, number j) <$> seq OINDEX (n + 1)).
Proof.
  intros Hlt Hl n. induction n as [|n IH]; intros OINDEX o r Hn Hp Hr; cbn [Unroller_Unpack]; rewrite (shift_eq B o r) by done; cbn [seq fmap list_fmap Nat.add]; rewrite <- Hp.
  - assert (B * (Z.of_nat L - Z.of_nat o) = r + DELTA) as E by nia. assert (Z.of_nat L - Z.of_nat o = 1) as E1 by nia. rewrite E1 in E. rewrite word_ok by lia. cbn [mbind result_bind]. rewrite word_high by lia. do 3 f_equal. lia.
  - destruct (unpack_single_out_ok o r) as (o' & r' & -> & Ho' & Hr'); [done | done | nia|]. cbn [mbind result_bind]. rewrite (IH (S OINDEX) o' r') by (lia || nia). done.
Qed.

Lemma Unroller_Unpack64_ok N : B = 32 → DELTA < 64 → DELTA ≠ 32 → DELTA * Z.of_nat N = B * Z.of_nat L → ∀ n OINDEX o r, (OINDEX + n + 1 = N)%nat → B * Z.of_nat o + r = DELTA * Z.of_nat OINDEX → 0 ≤ r < B →
  Unroller_Unpack64 DELTA n OINDEX words o = Ok ((λ j, number j) <$> seq OINDEX (n + 1)).
Proof.
  intros E32 Hlt H32 Hl n. induction n as [|n IH]; intros OINDEX o r Hn Hp Hr; cbn [Unroller_Unpack64]; rewrite <- E32; rewrite (shift_eq B o r) by done; cbn [seq fmap list_fmap Nat.add]; rewrite <- Hp.
  - assert (B * (Z.of_nat L - Z.of_nat o) = r + DELTA) as E by nia. rewrite (word_ok o) by nia. cbn [mbind result_bind]. rewrite word_high by lia. destruct (Z.ltb_spec B DELTA) as [Hc|Hc].
    + assert (Z.of_nat L - Z.of_nat o = 2) as E1 by nia. rewrite E1 in E. rewrite word_ok by lia. cbn [mbind result_bind]. rewrite join_next by lia. do 3 f_equal. lia.
    + assert (Z.of_nat L - Z.of_nat o = 1) as E1 by nia. rewrite E1 in E. do 3 f_equal. lia.
  - destruct (unpack_single_out64_ok o r) as (o' & r' & -> & Ho' & Hr'); [done | done | done | nia|]. cbn [mbind result_bind]. rewrite (IH (S OINDEX) o' r') by (lia || nia). done.
Qed.

(** Widths that divide the words. *)
Lemma unpack_aligned_ok k : Z.of_nat k * DELTA = B → L = Z.to_nat DELTA → unpack_aligned B DELTA words = Ok ((λ j, number j) <$> seq 0 (k * L)).
Proof.
  intros Hk HL. unfold unpack_aligned. rewrite <- Hk, Z.div_mul, Nat2Z.id by lia. rewrite (mapR_pure _ (λ o, (λ i, number (k * o + i)%nat) <$> seq 0 k)).
  - cbn [mbind result_bind]. rewrite <- HL. f_equal. apply (concat_blocks (λ j, number j)).
  - intros o Ho%elem_of_seq. rewrite word_ok by lia. cbn [mbind result_bind]. f_equal. apply list_fmap_ext. intros i j Hj%lookup_seq. cbn zeta. rewrite unpack_low by nia. f_equal. nia.
Qed.
End Unpacking.

(** * Round trips *)

(** The numbers that are packed as one stream. *)
Definition number_stream (bit : Z) (values : list Z) : Z := little_endian_to_Z bit ((λ v, v `mod` 2 ^ bit) <$> values).

Section Blocks.
Context (bit : Z) (Hbit : 0 ≤ bit) (values : list Z).
Abbreviation str := (number_stream bit values).

Lemma stream_number j x : values !! j = Some x → x `mod` 2 ^ bit = slice str (bit * Z.of_nat j) bit.
Proof.
  intros Hx. set (l := (λ v, v `mod` 2 ^ bit) <$> values). assert (l !! j = Some (x `mod` 2 ^ bit)) as Hl by (unfold l; by rewrite list_lookup_fmap, Hx).
  rewrite <- (Z_to_little_endian_to_Z (Z.of_nat (length l)) bit l) in Hl; [| done | done | apply Forall_fmap, Forall_forall; intros v _; apply Z.mod_pos_bound, Z.pow_pos_nonneg; lia].
  apply Z_to_little_endian_lookup_Some in Hl as [_ ->]; [|lia..]. unfold slice. by rewrite Z.mul_comm.
Qed.

Lemma stream_numbers : (λ j, slice str (bit * Z.of_nat j) bit) <$> seq 0 (length values) = (λ v, v `mod` 2 ^ bit) <$> values.
Proof.
  apply list_eq. intros j. rewrite !list_lookup_fmap. destruct (values !! j) as [x|] eqn:E.
  - rewrite lookup_seq_lt by (by apply lookup_lt_Some in E). cbn. f_equal. symmetry. by apply stream_number.
  - by rewrite lookup_seq_ge by (by apply lookup_ge_None).
Qed.

Lemma stream_in N : length values = N → ∀ j, (j < N)%nat → ∃ x, values !! j = Some x ∧ x `mod` 2 ^ bit = slice str (bit * Z.of_nat j) bit.
Proof. intros <- j Hj. destruct (lookup_lt_is_Some_2 values j Hj) as [x Hx]. exists x. split; [done | by apply stream_number]. Qed.

Lemma nothing_packed B (out : list Z) : length out = Z.to_nat 0 → packed_words str B out (Ok out).
Proof. intros Hl. exists out. split_and!; [done | done | lia]. Qed.

Lemma copy_words_ok (out : list Z) : length out = length values → packed_words str bit out (copy_words bit (length values) values out).
Proof.
  intros Hl. unfold copy_words. edestruct (foldM_seq (λ out k, x ← vget values k; vset out k (wrapu bit x)) (λ k out', length out' = length out ∧ filled str bit out' k 0) out 0 (length values)) as (out' & -> & Hl' & Hf).
  - split; [done | apply filled_empty].
  - intros k o Hk [Ho Hf]. destruct (stream_in _ eq_refl k Hk) as (x & Hx & Ex). rewrite Nat.add_0_l, (vget_lookup _ _ _ Hx). cbn [mbind result_bind]. unfold wrapu. rewrite Ex, vset_lt by lia. eexists. split; [done|]. split; [by rewrite length_insert|].
    rewrite Nat.add_1_r. split; [|lia]. intros q Hq. destruct (decide (q = k)) as [->|]; [by rewrite list_lookup_insert_eq by lia | rewrite list_lookup_insert_ne by lia; apply Hf; lia].
  - apply filled_packed; [done | by rewrite Hl].
Qed.

Lemma fastpack_block_ok B (out : list Z) : 0 < B → bit ≤ B → length values = Z.to_nat B → length out = Z.to_nat bit → packed_words str B out (fastpack_block B bit values out).
Proof.
  intros HB Hle Hl Ho. unfold fastpack_block. destruct (Z.eqb_spec bit 0) as [E|E]; [apply nothing_packed; by rewrite Ho, E|].
  destruct (Z.ltb_spec 0 bit) as [H0|H0]; [|lia]. destruct (Z.ltb_spec bit B) as [Hlt|Hge]; cbn [andb].
  - apply (Unroller_Pack_ok str B bit H0 (Z.to_nat B) values (stream_in _ Hl) Hlt _ _ out 0 0); [lia | lia | lia | apply filled_empty | lia].
  - replace B with bit in * by lia. rewrite Z.eqb_refl, <- Hl. apply copy_words_ok. lia.
Qed.

(** A stream is read back from its words. *)
Lemma copied_words B (words : list Z) n : bit = B → (∀ q, (q < n)%nat → words !! q = Some (slice str (B * Z.of_nat q) B)) → mapR (vget words) (seq 0 n) = Ok ((λ j, slice str (bit * Z.of_nat j) bit) <$> seq 0 n).
Proof. intros -> H. apply mapR_pure. intros j Hj%elem_of_seq. apply vget_lookup, H. lia. Qed.

Lemma fastunpack_block_ok B (words : list Z) : B = 8 ∨ B = 16 ∨ B = 32 → bit ≤ B → length values = Z.to_nat B →
  (∀ q, (q < Z.to_nat bit)%nat → words !! q = Some (slice str (B * Z.of_nat q) B)) → fastunpack_block B bit words = Ok ((λ v, v `mod` 2 ^ bit) <$> values).
Proof.
  intros HB Hle Hl Hw. unfold fastunpack_block. rewrite <- stream_numbers, Hl. destruct (Z.eqb_spec bit 0) as [E|E].
  { f_equal. rewrite E. apply list_eq. intros j. rewrite list_lookup_fmap. destruct (decide (j < Z.to_nat B)%nat); [rewrite lookup_replicate_2, lookup_seq_lt by done; cbn; by rewrite slice_0 | rewrite lookup_seq_ge by lia; by apply lookup_replicate_None; lia]. }
  destruct (((bit =? 4) || (bit =? 8) || (bit =? 16)) && (bit <? B)) eqn:Ha.
  { assert (∃ k, Z.of_nat k * bit = B) as [k Hk] by (assert (bit = 4 ∨ bit = 8 ∨ bit = 16) as Hb by lia; exists (Z.to_nat (B / bit)); destruct_or! HB; destruct_or! Hb; subst; first [reflexivity | discriminate Ha]).
    rewrite (unpack_aligned_ok str B ltac:(lia) words (Z.to_nat bit) Hw bit ltac:(lia) k Hk eq_refl). do 3 f_equal. nia. }
  destruct (Z.ltb_spec 0 bit) as [H0|H0]; [|lia]. destruct (Z.ltb_spec bit B) as [Hlt|Hge]; cbn [andb].
  - rewrite (Unroller_Unpack_ok str B ltac:(lia) words (Z.to_nat bit) Hw bit H0 (Z.to_nat B) Hlt ltac:(lia) (Z.to_nat B - 1) 0 0 0) by lia. do 3 f_equal. lia.
  - assert (bit = B) as E' by lia. rewrite (proj2 (Z.eqb_eq bit B) E'). apply (copied_words B); [done|]. intros q Hq. apply Hw. lia.
Qed.

(** Numbers of 64 bits in words of 32 bits. *)
Lemma fastpack64_ok (out : list Z) : bit ≤ 64 → length values = 32%nat → length out = Z.to_nat bit → packed_words str 32 out (fastpack64 bit values out).
Proof.
  intros Hle Hl Ho. unfold fastpack64. destruct (Z.eqb_spec bit 0) as [E|E]; [apply nothing_packed; by rewrite Ho, E|].
  destruct (Z.eqb_spec bit 32) as [E'|E']; [rewrite <- E', <- Hl; apply copy_words_ok; lia|].
  destruct (Z.eqb_spec bit 64) as [E64|E64]; [|destruct (Z.ltb_spec 0 bit) as [H0|H0]; [|lia]; destruct (Z.ltb_spec bit 64) as [Hlt|Hge]; [|lia]; cbn [andb];
    apply (Unroller_Pack64_ok str 32 bit H0 32 values (stream_in _ Hl) eq_refl Hlt E' 31 0 out 0 0); [lia | lia | lia | apply filled_empty | lia]].
  edestruct (foldM_seq (λ out i, x ← vget values i; out ← vset out (2 * i) (wrapu 32 x); vset out (2 * i + 1) (wrapu 32 (Z.shiftr x 32))) (λ k out', length out' = length out ∧ filled str 32 out' (2 * k) 0) out 0 32) as (out' & -> & Hl' & Hf).
  - split; [done | apply filled_empty].
  - intros k o Hk [Hlo Hf]. destruct (stream_in _ Hl k Hk) as (x & Hx & Ex). rewrite Nat.add_0_l, (vget_lookup _ _ _ Hx). cbn [mbind result_bind]. rewrite vset_lt by lia. cbn [mbind result_bind]. rewrite vset_lt by (rewrite length_insert; lia).
    eexists. split; [done|]. split; [by rewrite !length_insert|]. replace (2 * (k + 1))%nat with (S (2 * k + 1)) by lia. rewrite E64 in Ex.
    assert (∀ i, 0 ≤ i < 64 → Z.testbit x i = Z.testbit str (64 * Z.of_nat k + i)) as Hx' by (intros i Hi; rewrite (testbit_low x _ 64 i Hi Ex), E64, slice_spec by lia; destruct (Z.testbit _ _); lia).
    assert (wrapu 32 x = slice str (32 * Z.of_nat (2 * k)) 32) as ->.
    { unfold wrapu. by_bits. destruct (decide (i < 32)); [rewrite Z.mod_pow2_bits_low, Hx' by lia | rewrite Z.mod_pow2_bits_high by lia; destruct (Z.testbit _ _); lia]. replace (32 * Z.of_nat (2 * k) + i) with (64 * Z.of_nat k + i) by lia. destruct (Z.testbit _ _); lia. }
    assert (wrapu 32 (Z.shiftr x 32) = slice str (32 * Z.of_nat (2 * k + 1)) 32) as ->.
    { unfold wrapu. by_bits. destruct (decide (i < 32)); [rewrite Z.mod_pow2_bits_low, Z.shiftr_spec, Hx' by lia | rewrite Z.mod_pow2_bits_high by lia; destruct (Z.testbit _ _); lia]. replace (32 * Z.of_nat (2 * k + 1) + i) with (64 * Z.of_nat k + (i + 32)) by lia. destruct (Z.testbit _ _); lia. }
    apply filled_full; [lia|]. rewrite Nat.add_1_r. eapply filled_set; [|rewrite length_insert; lia]. apply filled_full; [lia|]. eapply filled_set; [done | lia].
  - apply filled_packed; [done|]. by replace (length out) with (2 * 32)%nat by lia.
Qed.

Lemma fastunpack64_ok (words : list Z) : bit ≤ 64 → length values = 32%nat →
  (∀ q, (q < Z.to_nat bit)%nat → words !! q = Some (slice str (32 * Z.of_nat q) 32)) → fastunpack64 bit words = Ok ((λ v, v `mod` 2 ^ bit) <$> values).
Proof.
  intros Hle Hl Hw. destruct (decide (bit ≤ 32)) as [Hs|Hs].
  { rewrite <- (fastunpack_block_ok 32 words) by (done || lia). unfold fastunpack64, fastunpack_block. destruct (Z.eqb_spec bit 0) as [->|H0]; [done|].
    destruct ((bit =? 4) || (bit =? 8) || (bit =? 16)) eqn:Ha; [by rewrite (proj2 (Z.ltb_lt bit 32)) by lia|]. cbn [andb]. destruct (Z.eqb_spec bit 32) as [->|H32]; [done|].
    rewrite (proj2 (Z.eqb_neq bit 64)), !(proj2 (Z.ltb_lt _ _)) by lia. cbn [andb].
    rewrite (Unroller_Unpack64_ok str 32 ltac:(lia) words (Z.to_nat bit) Hw bit ltac:(lia) 32 eq_refl ltac:(lia) H32 ltac:(lia) 31 0 0 0) by lia.
    by rewrite (Unroller_Unpack_ok str 32 ltac:(lia) words (Z.to_nat bit) Hw bit ltac:(lia) 32 ltac:(lia) ltac:(lia) (Z.to_nat 32 - 1) 0 0 0) by lia. }
  unfold fastunpack64. rewrite <- stream_numbers, Hl, !(proj2 (Z.eqb_neq _ _)) by lia. cbn [orb]. destruct (Z.eqb_spec bit 64) as [->|H64].
  - apply mapR_pure. intros j Hj%elem_of_seq. rewrite (vget_lookup _ _ _ (Hw (j * 2)%nat ltac:(lia))), (vget_lookup _ _ _ (Hw (j * 2 + 1)%nat ltac:(lia))). cbn [mbind result_bind]. f_equal.
    replace (32 * Z.of_nat (j * 2 + 1)) with (64 * Z.of_nat j + 32) by lia. replace (32 * Z.of_nat (j * 2)) with (64 * Z.of_nat j) by lia. by apply join_wrapped; lia.
  - rewrite !(proj2 (Z.ltb_lt _ _)) by lia. cbn [andb]. by rewrite (Unroller_Unpack64_ok str 32 ltac:(lia) words (Z.to_nat bit) Hw bit ltac:(lia) 32 eq_refl ltac:(lia) ltac:(lia) ltac:(lia) 31 0 0 0) by lia.
Qed.
End Blocks.

(** ** Words in memory *)

Lemma concat_slice {A} k (ls : list (list A)) i l : Forall (λ l, length l = k) ls → ls !! i = Some l → take k (drop (k * i) (concat ls)) = l.
Proof.
  intros Hls. revert i. induction Hls as [|l' ls Hl _ IH]; intros i Hi; [done|]. destruct i as [|i]; cbn in Hi |- *.
  - injection Hi as ->. by rewrite Nat.mul_0_r, drop_0, take_app_length'.
  - rewrite <- (IH i Hi). f_equal. replace (k * S i)%nat with (length l' + k * i)%nat by lia. by rewrite <- drop_drop, drop_app_length.
Qed.

Lemma length_concat_blocks {A} k (ls : list (list A)) : Forall (λ l, length l = k) ls → length (concat ls) = (k * length ls)%nat.
Proof. induction 1 as [|l ls Hl _ IH]; cbn; [lia|]. rewrite length_app, Hl, IH. lia. Qed.

Lemma concat_chunks {A} (l : list A) k n : concat ((λ i, take k (drop (k * i) l)) <$> seq 0 n) = take (k * n) l.
Proof.
  induction n as [|n IH]; [by rewrite Nat.mul_0_r|]. replace (S n) with (n + 1)%nat by lia. rewrite seq_app, fmap_app, concat_app, IH. cbn. rewrite app_nil_r, Nat.mul_add_distr_l, Nat.mul_1_r. apply take_take_drop.
Qed.

Lemma word_length w x : w = 8 ∨ w = 16 ∨ w = 32 → length (Z_to_little_endian (w / 8) 8 x) = Z.to_nat (w / 8).
Proof. intros Hw. apply Nat2Z.inj. rewrite length_Z_to_little_endian; destruct_or! Hw; subst; done. Qed.

Lemma length_words_bytes w words : w = 8 ∨ w = 16 ∨ w = 32 → Z.of_nat (length (words_bytes w words)) = w / 8 * Z.of_nat (length words).
Proof.
  intros Hw. unfold words_bytes. rewrite (length_concat_blocks (Z.to_nat (w / 8))), length_fmap, Nat2Z.inj_mul, Z2Nat.id; [done | by destruct_or! Hw; subst |]. apply Forall_fmap, Forall_forall. intros x _. by apply word_length.
Qed.

Lemma bytes_words_bytes w words n : w = 8 ∨ w = 16 ∨ w = 32 → n = length words → Forall (λ x, 0 ≤ x < 2 ^ w) words → bytes_words w n (words_bytes w words) = words.
Proof.
  intros Hw -> Hr. apply list_eq. intros q. unfold bytes_words. rewrite list_lookup_fmap. destruct (words !! q) as [x|] eqn:E; [|by rewrite lookup_seq_ge by (by apply lookup_ge_None)].
  rewrite lookup_seq_lt by (by apply lookup_lt_Some in E). cbn [fmap option_fmap option_map Nat.add]. f_equal. unfold words_bytes. erewrite concat_slice; [| | by rewrite list_lookup_fmap, E]; [|apply Forall_fmap, Forall_forall; intros y _; by apply word_length].
  pose proof (Forall_lookup_1 _ _ _ _ Hr E) as Hx. cbn in Hx. rewrite little_endian_to_Z_to_little_endian by (destruct_or! Hw; subst; done). apply Z.mod_small. by replace (w / 8 * 8) with w by (destruct_or! Hw; subst; done).
Qed.

(** What a stream is packed into can be written to memory. *)
Lemma stream_range w bits n (words : list Z) : 0 ≤ w → length words = n → (∀ q, (q < n)%nat → words !! q = Some (slice bits (w * Z.of_nat q) w)) → Forall (λ x, 0 ≤ x < 2 ^ w) words.
Proof.
  intros Hw Hl H. apply Forall_lookup. intros q x Hq. rewrite (H q) in Hq by (rewrite <- Hl; by eapply lookup_lt_Some). injection Hq as <-. apply slice_bound. lia.
Qed.

(** 32 numbers are packed into [4 * bit] bytes, whatever was in the buffer, and
    the low [bit] bits of each are read back. *)
Theorem fastpack_roundtrip uninitialised w bit values : w = 8 ∨ w = 16 ∨ w = 32 ∨ w = 64 → 0 ≤ bit ≤ w → length values = 32%nat →
  ∃ bytes, fastpack uninitialised w bit values = Ok bytes ∧ Z.of_nat (length bytes) = 4 * bit ∧ fastunpack w bit bytes = Ok ((λ v, v `mod` 2 ^ bit) <$> values).
Proof.
  intros Hw Hb Hl. unfold fastpack, fastunpack. destruct (Z.eqb_spec w 64) as [->|H64].
  - destruct (fastpack64_ok bit ltac:(lia) values (replicate (Z.to_nat bit) uninitialised)) as (words & -> & Hlw & Hq); [lia | done | apply length_replicate|]. rewrite length_replicate in *. cbn [mbind result_bind].
    eexists. split; [done|]. split; [rewrite length_words_bytes, Hlw by lia; change (32 / 8) with 4; lia|]. change (32 / Z.to_nat 32)%nat with 1%nat. rewrite Nat.mul_1_r.
    rewrite bytes_words_bytes; [apply fastunpack64_ok; done || lia | lia | done|]. by eapply stream_range.
  - assert (w = 8 ∨ w = 16 ∨ w = 32) as H3 by lia. set (n := Z.to_nat w). assert (n * (32 / n) = 32 ∧ 0 < n)%nat as [Hn Hn0] by (subst n; destruct_or! H3; subst; (split; [reflexivity | apply Nat.ltb_lt; reflexivity])).
    assert (∀ i, (i < 32 / n)%nat → length (take n (drop (n * i) values)) = n) as Hpart by (intros i Hi; rewrite length_take, length_drop; nia).
    set (out := replicate (Z.to_nat bit) uninitialised).
    destruct (mapR_Forall2 (λ i, fastpack_block w bit (take n (drop (n * i) values)) out) (λ i words, length words = Z.to_nat bit ∧ ∀ q, (q < Z.to_nat bit)%nat → words !! q = Some (slice (number_stream bit (take n (drop (n * i) values))) (w * Z.of_nat q) w)) (seq 0 (32 / n))) as (blocks & -> & HF).
    { apply Forall_seq. intros i Hi. destruct (fastpack_block_ok bit ltac:(lia) (take n (drop (n * i) values)) w out) as (words & E & Hlw & Hq); [lia | lia | by apply Hpart; lia | apply length_replicate|].
      unfold out in Hlw, Hq. rewrite length_replicate in Hlw, Hq. by exists words. }
    assert (Forall (λ l, length l = Z.to_nat bit) blocks) as Hlb by (eapply Forall2_Forall_r; [exact HF|]; apply Forall_forall; by intros i _ words [? _]).
    pose proof (Forall2_length _ _ _ HF) as Hlen. rewrite length_seq in Hlen. cbn [mbind result_bind]. eexists. split; [done|].
    assert (length (concat blocks) = Z.to_nat bit * (32 / n))%nat as Hlc by (by rewrite (length_concat_blocks (Z.to_nat bit)), Hlen). split.
    { rewrite length_words_bytes, Hlc, Nat2Z.inj_mul, Z2Nat.id by (done || lia). assert (w / 8 * Z.of_nat (32 / n) = 4) by (subst n; destruct_or! H3; subst; reflexivity). nia. }
    rewrite bytes_words_bytes; [| done | done |].
    + rewrite (mapR_pure _ (λ i, (λ v, v `mod` 2 ^ bit) <$> take n (drop (n * i) values))).
      * cbn [mbind result_bind]. f_equal. rewrite <- (take_ge ((λ v, v `mod` 2 ^ bit) <$> values) (n * (32 / n))) by (rewrite length_fmap; lia). rewrite <- concat_chunks. f_equal. apply list_fmap_ext. intros ? i _. by rewrite <- fmap_drop, <- fmap_take.
      * intros i Hi%elem_of_seq. destruct (Forall2_lookup_l _ _ _ i i HF) as (words & Hi' & Hlw & Hq); [by apply lookup_seq; lia|]. rewrite (concat_slice _ _ _ _ Hlb Hi'). apply fastunpack_block_ok; [lia | done | lia | apply Hpart; lia | done].
    + apply Forall_concat. eapply Forall2_Forall_r; [exact HF|]. apply Forall_forall. intros i _ words [? ?]. eapply stream_range; [lia | done | done].
Qed.
