(* ===== verification/BitPacking.v ===== *)
(** Bit packing of integers ([storage/compression/bitpacking.cpp],
    [common/bitpacking.hpp]): the choice of the mode of a group of rows, the
    layout of segments, scans, skips and row fetches.

    Packing and unpacking 32 numbers is the work of [FastPFor].  Types of up to 64
    bits are modelled: packing numbers of 128 bits is not. *)
From S2P Require Import Prelude Bits Types Stats NumericStats BaseStatistics SelectionVector ValidityMask UncompressedSegment Compression FastPFor.

(** * Integers *)

Definition bits (T : PhysicalType) : Z := 8 * sizeof T.
Definition is_signed (T : PhysicalType) : bool := match num_width T with Some (_, s) => s | None => false end.

(** Casts to [T], to [T_S] and to [T_U]. *)
Definition as_T (T : PhysicalType) (x : Z) : Z := if is_signed T then wraps (bits T) x else wrapu (bits T) x.
Definition as_signed (T : PhysicalType) (x : Z) : Z := wraps (bits T) x.
Definition as_unsigned (T : PhysicalType) (x : Z) : Z := wrapu (bits T) x.

(** [NumericLimits<T_S>]. *)
Definition Signed_Minimum (T : PhysicalType) : Z := - 2 ^ (bits T - 1).
Definition Signed_Maximum (T : PhysicalType) : Z := 2 ^ (bits T - 1) - 1.

(** [TrySubtractOperator] on integers of [w] bits: success, and the result, which
    is [old] when nothing is written to it. *)
Definition TrySubtract (signed : bool) (w l r old : Z) : bool * Z :=
  let lo := if signed then - 2 ^ (w - 1) else 0 in
  let hi := if signed then 2 ^ (w - 1) - 1 else 2 ^ w - 1 in
  let d := l - r in
  if (lo <=? d) && (d <=? hi) then (true, d) else (false, if signed && (w =? 64) then wraps 64 d else old).

(** An arithmetic operation on numbers of [T] whose exact result is [x].  Narrow
    types are promoted to [int]; signed overflow is undefined, unsigned numbers
    wrap around. *)
Definition fits_arithmetic (T : PhysicalType) (x : Z) : bool :=
  if is_signed T || (bits T <? 32) then let w := Z.max 32 (bits T) in (- 2 ^ (w - 1) <=? x) && (x <? 2 ^ (w - 1)) else true.
Definition signed_overflow {A} : result A := Throw (UndefinedBehaviour "signed integer overflow").
Definition arithmetic (T : PhysicalType) (x : Z) : result Z :=
  if fits_arithmetic T x then Ok (if is_signed T || (bits T <? 32) then x else wrapu (bits T) x) else signed_overflow.

(** * Packing *)

Definition BITPACKING_ALGORITHM_GROUP_SIZE : nat := 32.
Abbreviation ALGORITHM_GROUP := BITPACKING_ALGORITHM_GROUP_SIZE.

(** [GetEffectiveWidth]. *)
Definition GetEffectiveWidth (T : PhysicalType) (width : Z) : Z := if bits T <? width + sizeof T then bits T else width.

(** [while (value) { bitwidth++; value >>= 1; }]. *)
Fixpoint count_bits (fuel : nat) (value : Z) : Z :=
  match fuel with
  | O => 0
  | S fuel => if value =? 0 then 0 else 1 + count_bits fuel (Z.shiftr value 1)
  end.

Definition FindMinimumBitWidth (T : PhysicalType) (signed : bool) (min_value max_value : Z) : Z :=
  if signed && (min_value =? NumericLimits_Minimum T) then bits T
  else
    let value := if signed then Z.max (as_T T (- min_value)) max_value else max_value in
    if value =? 0 then 0 else GetEffectiveWidth T ((if signed then 1 else 0) + count_bits (Z.to_nat (bits T)) value).

Definition MinimumBitWidth (T : PhysicalType) (signed : bool) (value : Z) : Z := FindMinimumBitWidth T signed value value.

Definition RoundUpToAlgorithmGroupSize (n : nat) : nat :=
  let remainder := (n mod ALGORITHM_GROUP)%nat in
  if (remainder =? 0)%nat then n else (n + ALGORITHM_GROUP - remainder)%nat.

Definition GetRequiredSize (count : nat) (width : Z) : Z := Z.of_nat (RoundUpToAlgorithmGroupSize count) * width / 8.

Section Primitives.
Context (T : PhysicalType) (uninitialised : Z).

(** The width of the numbers that [PackGroup] and [UnPackGroup] hand to the
    library. *)
Definition packing_bits : result Z :=
  match T with
  | INT8 | UINT8 => Ok 8
  | INT16 | UINT16 => Ok 16
  | INT32 | UINT32 => Ok 32
  | INT64 | UINT64 => Ok 64
  | INT128 | UINT128 => Throw (Unmodelled "bit packing of 128 bits")
  | _ => Throw (InternalException "Unsupported type for bitpacking")
  end.

Definition PackGroup (b : Block) (dst : Z) (values : list Z) (width : Z) : result Block :=
  w ← packing_bits; bytes ← fastpack uninitialised w width (as_unsigned T <$> values); store_bytes b dst bytes.

(** The last group is filled up with what is in the temporary buffer. *)
Definition PackBuffer (b : Block) (dst : Z) (src : list Z) (width : Z) : result Block :=
  let count := length src in
  let misaligned_count := (count mod ALGORITHM_GROUP)%nat in
  let aligned := (count - misaligned_count)%nat in
  b ← foldM (λ b k, let i := (k * ALGORITHM_GROUP)%nat in PackGroup b (dst + Z.of_nat i * width / 8) (take ALGORITHM_GROUP (drop i src)) width)
        b (seq 0 (aligned / ALGORITHM_GROUP));
  if (misaligned_count =? 0)%nat then Ok b
  else PackGroup b (dst + Z.of_nat aligned * width / 8) (drop aligned src ++ replicate (ALGORITHM_GROUP - misaligned_count) uninitialised) width.

(** [UnPackBlock] without sign extension. *)
Definition UnPackBlock (b : Block) (src : Z) (width : Z) : result (list Z) :=
  w ← packing_bits; bytes ← load_bytes b src (Z.to_nat (4 * width)); values ← fastunpack w width bytes; Ok (fmap (M := list) (as_T T) values).
End Primitives.

(** * Groups of rows *)

Definition BITPACKING_METADATA_GROUP_SIZE : nat := if (512 <? STANDARD_VECTOR_SIZE)%nat then STANDARD_VECTOR_SIZE else 2048.
Abbreviation GROUP := BITPACKING_METADATA_GROUP_SIZE.

Inductive BitpackingMode : Type := BP_INVALID | BP_AUTO | BP_CONSTANT | BP_CONSTANT_DELTA | BP_DELTA_FOR | BP_FOR.

#[export] Instance BitpackingMode_eq_dec : EqDecision BitpackingMode.
Proof. solve_decision. Defined.

(** The numbers of the modes. *)
Definition mode_code (m : BitpackingMode) : Z :=
  match m with BP_INVALID => 0 | BP_AUTO => 1 | BP_CONSTANT => 2 | BP_CONSTANT_DELTA => 3 | BP_DELTA_FOR => 4 | BP_FOR => 5 end.
Definition mode_of_code (c : Z) : BitpackingMode :=
  if c =? 1 then BP_AUTO else if c =? 2 then BP_CONSTANT else if c =? 3 then BP_CONSTANT_DELTA else if c =? 4 then BP_DELTA_FOR
  else if c =? 5 then BP_FOR else BP_INVALID.

(** [BitpackingState]; the validity of the rows is only summed up. *)
Record BitpackingState : Type := mkBitpacking {
  compression_buffer : list Z;
  compression_buffer_idx : nat;
  total_size : Z;
  minimum : Z;
  maximum : Z;
  all_valid : bool;
  all_invalid : bool
}.

(** What a group is written as: [WriteConstant], [WriteConstantDelta],
    [WriteDeltaFor] and [WriteFor] with their arguments. *)
Inductive packed_group : Type :=
  | GroupConstant (constant : Z)
  | GroupConstantDelta (constant frame_of_reference : Z)
  | GroupDeltaFor (width frame_of_reference delta_offset : Z) (values : list Z)
  | GroupFor (width frame_of_reference : Z) (values : list Z).

(** What [CalculateDeltaStats] finds when delta encoding is possible. *)
Record delta_stats : Type := mkDelta {
  delta_buffer : list Z;
  minimum_delta : Z;
  maximum_delta : Z;
  min_max_delta_diff : Z;
  delta_offset : Z
}.

Section State.
Context (T : PhysicalType) (mode : BitpackingMode).

Definition BitpackingState_Reset (st : BitpackingState) : BitpackingState :=
  mkBitpacking (compression_buffer st) 0 (total_size st) (NumericLimits_Maximum T) (NumericLimits_Minimum T) true true.

Definition BitpackingState_new (uninitialised : Z) : BitpackingState :=
  BitpackingState_Reset (mkBitpacking (replicate GROUP uninitialised) 0 0 0 0 true true).

(** [can_do_for] and [min_max_diff]. *)
Definition CalculateFORStats (st : BitpackingState) : bool * Z := TrySubtract (is_signed T) (bits T) (maximum st) (minimum st) 0.

(** The differences of neighbours; there is a zero before the first one. *)
Definition subtract_neighbours (can_do_all : bool) (values : list Z) : option (list Z) :=
  mapM (λ p, if can_do_all then Some (as_signed T (p.1 - p.2)) else let '(ok, d) := TrySubtract true (bits T) p.1 p.2 0 in if (ok : bool) then Some d else None)
    (zip values (0 :: values)).

Definition CalculateDeltaStats (st : BitpackingState) : option delta_stats :=
  if Signed_Maximum T <? maximum st then None
  else if (compression_buffer_idx st <? 2)%nat then None
  else if negb (all_valid st) then None
  else
    let can_do_all :=
      if is_signed T then
        (TrySubtract true (bits T) (as_signed T (minimum st)) (as_signed T (maximum st)) 0).1 &&
        (TrySubtract true (bits T) (as_signed T (maximum st)) (as_signed T (minimum st)) 0).1
      else true in
    let values := as_signed T <$> take (compression_buffer_idx st) (compression_buffer st) in
    deltas ← subtract_neighbours can_do_all values;
    let maximum_delta := fold_left Z.max (drop 1 deltas) (Signed_Minimum T) in
    let minimum_delta := fold_left Z.min (drop 1 deltas) (Signed_Maximum T) in
    let '(ok1, min_max_delta_diff) := TrySubtract true (bits T) maximum_delta minimum_delta 0 in
    let '(ok2, delta_offset) := TrySubtract true (bits T) (default 0 (head values)) minimum_delta 0 in
    if ok1 && ok2 then Some (mkDelta (minimum_delta :: drop 1 deltas) minimum_delta maximum_delta min_max_delta_diff delta_offset) else None.

Definition SubtractFrameOfReference (frame_of_reference : Z) (buffer : list Z) : list Z :=
  (λ v, as_unsigned T (as_unsigned T v - as_unsigned T frame_of_reference)) <$> buffer.

(** [Flush] of a group that is not empty: how it is written, and the bytes that
    adds to [total_size]; [None] when no mode is possible. *)
Definition choose_group (st : BitpackingState) : option (packed_group * Z) :=
  let count := compression_buffer_idx st in
  let buffer := take count (compression_buffer st) in
  if (all_invalid st || (maximum st =? minimum st)) && (bool_decide (mode = BP_AUTO) || bool_decide (mode = BP_CONSTANT)) then
    Some (GroupConstant (maximum st), sizeof T + 4)
  else
    let '(can_do_for, min_max_diff) := CalculateFORStats st in
    let for_group :=
      if (can_do_for : bool) then
        let width := MinimumBitWidth T false min_max_diff in
        Some (GroupFor width (minimum st) (SubtractFrameOfReference (minimum st) buffer), GetRequiredSize count width + sizeof T + 8)
      else None in
    match CalculateDeltaStats st with
    | None => for_group
    | Some d =>
        if (maximum_delta d =? minimum_delta d) && negb (bool_decide (mode = BP_FOR)) && negb (bool_decide (mode = BP_DELTA_FOR)) then
          Some (GroupConstantDelta (maximum_delta d) (default 0 (head buffer)), sizeof T + sizeof T + 4)
        else
          let delta_required_bitwidth := MinimumBitWidth T false (min_max_delta_diff d) in
          let regular_required_bitwidth := MinimumBitWidth T (is_signed T) min_max_diff in
          if (delta_required_bitwidth <? regular_required_bitwidth) && negb (bool_decide (mode = BP_FOR)) then
            Some (GroupDeltaFor delta_required_bitwidth (as_T T (minimum_delta d)) (delta_offset d) (SubtractFrameOfReference (minimum_delta d) (delta_buffer d)),
                  GetRequiredSize count delta_required_bitwidth + sizeof T + sizeof T + 8)
          else for_group
    end.

(** The buffer after the group was written: the frame of reference is subtracted
    in place. *)
Definition buffer_after (g : packed_group) (buffer : list Z) : list Z :=
  match g with GroupFor _ _ values => (as_T T <$> values) ++ drop (length values) buffer | _ => buffer end.

Section Writers.
Context {W : Type} (OP : W → BitpackingState → packed_group → result W).

(** Success, the state, and what was written. *)
Definition BitpackingState_Flush (st : BitpackingState) (w : W) : result (bool * BitpackingState * W) :=
  if (compression_buffer_idx st =? 0)%nat then Ok (true, st, w)
  else
    match choose_group st with
    | Some (g, size) =>
        w ← OP w st g;
        Ok (true, mkBitpacking (buffer_after g (compression_buffer st)) (compression_buffer_idx st) (total_size st + size) (minimum st) (maximum st) (all_valid st) (all_invalid st), w)
    | None => Ok (false, st, w)
    end.

Definition BitpackingState_Update (st : BitpackingState) (w : W) (value : Z) (is_valid : bool) : result (bool * BitpackingState * W) :=
  let idx := compression_buffer_idx st in
  buffer ← (if is_valid then vset (compression_buffer st) idx value else Ok (compression_buffer st));
  let st := mkBitpacking buffer (idx + 1) (total_size st) (if is_valid then Z.min (minimum st) value else minimum st)
              (if is_valid then Z.max (maximum st) value else maximum st) (all_valid st && is_valid) (all_invalid st && negb is_valid) in
  if (compression_buffer_idx st =? GROUP)%nat then
    '(success, st, w) ← BitpackingState_Flush st w; Ok (success, BitpackingState_Reset st, w)
  else Ok (true, st, w).

(** A row of a vector. *)
Definition update_unified (vdata : UnifiedVectorFormat Z) (i : nat) (st : BitpackingState) (w : W) : result (bool * BitpackingState * W) :=
  idx ← get_index (uni_sel vdata) i;
  value ← vget (uni_data vdata) (Z.to_nat idx);
  valid ← RowIsValid (uni_validity vdata) (Z.to_nat idx);
  BitpackingState_Update st w value valid.
End Writers.

(** * Analysis *)

Definition EmptyBitpackingWriter (w : unit) (st : BitpackingState) (g : packed_group) : result unit := Ok w.

(** The state after the vector; [None] when a group cannot be packed. *)
Definition BitpackingAnalyze (st : BitpackingState) (input : UnifiedVectorFormat Z) (count : nat) : result (option BitpackingState) :=
  foldM (λ o i, match o with
    | None => Ok None
    | Some st => '(success, st, _) ← update_unified EmptyBitpackingWriter input i st tt; Ok (if (success : bool) then Some st else None)
    end) (Some st) (seq 0 count).

(** The size; [None] is [INVALID_INDEX]. *)
Definition BitpackingFinalAnalyze (st : BitpackingState) : result (option Z) :=
  '(success, st, _) ← BitpackingState_Flush EmptyBitpackingWriter st tt; Ok (if (success : bool) then Some (total_size st) else None).

(** The analysis of a column. *)
Definition Bitpacking_analysis (uninitialised : Z) (vectors : list (UnifiedVectorFormat Z * nat)) : result (option Z) :=
  o ← foldM (λ o v, match o with None => Ok None | Some st => BitpackingAnalyze st v.1 v.2 end) (Some (BitpackingState_new uninitialised)) vectors;
  match o with None => Ok None | Some st => BitpackingFinalAnalyze st end.
End State.

(** * Compression *)

Definition BITPACKING_HEADER_SIZE : Z := 8.

Definition EncodeMeta (m : BitpackingMode) (offset : Z) : Z := Z.lor offset (wrapu 32 (Z.shiftl (mode_code m) 24)).

(** [BitpackingCompressState] without its [BitpackingState]; the pointers are
    offsets in the block. *)
Record BitpackingCompressState : Type := mkBPCompress {
  bp_segment : CompressedSegment;
  data_ptr : Z;
  metadata_ptr : Z;
  bp_checkpoint : ColumnCheckpointState
}.

Definition group_mode (g : packed_group) : BitpackingMode :=
  match g with
  | GroupConstant _ => BP_CONSTANT
  | GroupConstantDelta _ _ => BP_CONSTANT_DELTA
  | GroupDeltaFor _ _ _ _ => BP_DELTA_FOR
  | GroupFor _ _ _ => BP_FOR
  end.

Section Compress.
Context (T : PhysicalType) (WRITE_STATISTICS : bool) (type : LogicalType) (mode : BitpackingMode) (uninitialised : Z).

Definition CanStore (s : BitpackingCompressState) (data_bytes meta_bytes : Z) : bool :=
  let required_data_bytes := AlignValue data_bytes in
  let required_meta_bytes := Storage_BLOCK_SIZE - (metadata_ptr s - data_ptr s) + meta_bytes in
  required_data_bytes + required_meta_bytes <=? Storage_BLOCK_SIZE - BITPACKING_HEADER_SIZE.

Definition BP_CreateEmptySegment (row_start : Z) (c : ColumnCheckpointState) : result BitpackingCompressState :=
  stats ← CreateEmpty type; Ok (mkBPCompress (mkCompressed row_start 0 stats ∅) BITPACKING_HEADER_SIZE Storage_BLOCK_SIZE c).

(** The metadata is moved next to the data, and the padding cleared. *)
Definition BP_FlushSegment (s : BitpackingCompressState) : result ColumnCheckpointState :=
  let unaligned_offset := data_ptr s in
  let metadata_offset := AlignValue unaligned_offset in
  let metadata_size := Storage_BLOCK_SIZE - metadata_ptr s in
  let total_segment_size := metadata_offset + metadata_size in
  if negb (CanStore s 0 0) then Throw (InternalException "Error in bitpacking size calculation")
  else
    let seg := bp_segment s in
    block ← (if unaligned_offset =? metadata_offset then Ok (cs_block seg)
             else store_bytes (cs_block seg) unaligned_offset (replicate (Z.to_nat (metadata_offset - unaligned_offset)) 0));
    block ← memmove block metadata_offset (metadata_ptr s) metadata_size;
    block ← Store UINT64 block 0 (metadata_offset + metadata_size);
    Checkpoint_FlushSegment COMPRESSION_BITPACKING (bp_checkpoint s) (mkCompressed (cs_start seg) (cs_rows seg) (cs_stats seg) block) total_segment_size.

(** [FlushAndCreateSegmentIfFull]. *)
Definition ReserveSpace (s : BitpackingCompressState) (data_bytes : Z) : result BitpackingCompressState :=
  if CanStore s data_bytes 4 then Ok s
  else
    let row_start := cs_start (bp_segment s) + cs_rows (bp_segment s) in
    c ← BP_FlushSegment s; BP_CreateEmptySegment row_start c.

Definition with_block (s : BitpackingCompressState) (b : Block) (data metadata : Z) : BitpackingCompressState :=
  mkBPCompress (mkCompressed (cs_start (bp_segment s)) (cs_rows (bp_segment s)) (cs_stats (bp_segment s)) b) data metadata (bp_checkpoint s).

Definition WriteMetaData (s : BitpackingCompressState) (m : BitpackingMode) : result BitpackingCompressState :=
  let metadata := metadata_ptr s - 4 in
  b ← Store UINT32 (cs_block (bp_segment s)) metadata (EncodeMeta m (wrapu 32 (data_ptr s)));
  Ok (with_block s b (data_ptr s) metadata).

Definition WriteData (s : BitpackingCompressState) (val : Z) : result BitpackingCompressState :=
  b ← Store T (cs_block (bp_segment s)) (data_ptr s) val; Ok (with_block s b (data_ptr s + sizeof T) (metadata_ptr s)).

Definition WritePacked (s : BitpackingCompressState) (values : list Z) (width : Z) : result BitpackingCompressState :=
  b ← PackBuffer T uninitialised (cs_block (bp_segment s)) (data_ptr s) values width;
  Ok (with_block s b (data_ptr s + GetRequiredSize (length values) width) (metadata_ptr s)).

Definition UpdateStats (s : BitpackingCompressState) (st : BitpackingState) : result BitpackingCompressState :=
  let seg := bp_segment s in
  stats ← (if WRITE_STATISTICS && negb (all_invalid st) then
             stats ← NumericStats_Update T (cs_stats seg) (minimum st); NumericStats_Update T stats (maximum st)
           else Ok (cs_stats seg));
  Ok (mkBPCompress (mkCompressed (cs_start seg) (cs_rows seg + Z.of_nat (compression_buffer_idx st)) stats (cs_block seg)) (data_ptr s) (metadata_ptr s) (bp_checkpoint s)).

(** The numbers in front of the packed values, and their bytes. *)
Definition group_header (g : packed_group) : list Z :=
  match g with
  | GroupConstant constant => [constant]
  | GroupConstantDelta constant frame_of_reference => [frame_of_reference; constant]
  | GroupDeltaFor width frame_of_reference delta_offset _ => [frame_of_reference; width; delta_offset]
  | GroupFor width frame_of_reference _ => [frame_of_reference; width]
  end.

Definition packed_size (g : packed_group) : Z :=
  match g with
  | GroupDeltaFor width _ _ values | GroupFor width _ values => GetRequiredSize (length values) width
  | _ => 0
  end.

(** [BitpackingWriter]. *)
Definition BitpackingWriter (s : BitpackingCompressState) (st : BitpackingState) (g : packed_group) : result BitpackingCompressState :=
  s ← ReserveSpace s (packed_size g + Z.of_nat (length (group_header g)) * sizeof T);
  s ← WriteMetaData s (group_mode g);
  s ← foldM WriteData s (group_header g);
  s ← match g with
      | GroupDeltaFor width _ _ values | GroupFor width _ values => WritePacked s values width
      | _ => Ok s
      end;
  UpdateStats s st.

Definition BitpackingCompress (st : BitpackingState * BitpackingCompressState) (scan_vector : UnifiedVectorFormat Z) (count : nat)
    : result (BitpackingState * BitpackingCompressState) :=
  foldM (λ st i, '(_, st, s) ← update_unified T mode BitpackingWriter scan_vector i st.1 st.2; Ok (st, s)) st (seq 0 count).

Definition BitpackingFinalizeCompress (st : BitpackingState * BitpackingCompressState) : result ColumnCheckpointState :=
  '(_, _, s) ← BitpackingState_Flush T mode BitpackingWriter st.1 st.2; BP_FlushSegment s.

(** [ColumnDataCheckpointer::WriteToDisk] once bit packing was chosen. *)
Definition Bitpacking_checkpoint (row_group_start : Z) (global : BaseStatistics) (vectors : list (UnifiedVectorFormat Z * nat)) : result ColumnCheckpointState :=
  s ← BP_CreateEmptySegment row_group_start (mkCheckpoint global row_group_start []);
  st ← foldM (λ st v, BitpackingCompress st v.1 v.2) (BitpackingState_new T uninitialised, s) vectors;
  BitpackingFinalizeCompress st.
End Compress.

(** * Scans *)

Record BitpackingScanState : Type := mkBPScan {
  current_mode : BitpackingMode;
  current_width : Z;
  current_frame_of_reference : Z;
  current_constant : Z;
  current_delta_offset : Z;
  current_group_offset : nat;
  current_group_ptr : Z;
  bitpacking_metadata_ptr : Z
}.

Section Scan.
Context (T : PhysicalType) (uninitialised : Z) (b : Block).

(** [DecodeMeta]: mode and offset. *)
Definition DecodeMeta (ptr : Z) : result (BitpackingMode * Z) :=
  code ← Load UINT8 b (ptr + 3);
  encoded ← Load UINT32 b ptr;
  Ok (mode_of_code code, Z.land encoded 0x00FFFFFF).

Definition LoadNextGroup (st : BitpackingScanState) : result BitpackingScanState :=
  '(m, offset) ← DecodeMeta (bitpacking_metadata_ptr st);
  let metadata := bitpacking_metadata_ptr st - 4 in
  first ← match m with
    | BP_CONSTANT | BP_FOR | BP_CONSTANT_DELTA | BP_DELTA_FOR => Load T b offset
    | _ => Throw (InternalException "Invalid bitpacking mode")
    end;
  let ptr := offset + sizeof T in
  match m with
  | BP_CONSTANT => Ok (mkBPScan m (current_width st) (current_frame_of_reference st) first (current_delta_offset st) 0 ptr metadata)
  | _ =>
      second ← Load T b ptr;
      let ptr := ptr + Z.max (sizeof T) 1 in
      match m with
      | BP_CONSTANT_DELTA => Ok (mkBPScan m (current_width st) first second (current_delta_offset st) 0 ptr metadata)
      | BP_DELTA_FOR =>
          third ← Load T b ptr;
          Ok (mkBPScan m (wrapu 8 second) first (current_constant st) third 0 (ptr + sizeof T) metadata)
      | _ => Ok (mkBPScan m (wrapu 8 second) first (current_constant st) (current_delta_offset st) 0 ptr metadata)
      end
  end.

Definition BitpackingInitScan : result BitpackingScanState :=
  offset ← Load UINT64 b 0;
  LoadNextGroup (mkBPScan BP_INVALID uninitialised uninitialised uninitialised uninitialised 0 0 (offset - 4)).

(** [ApplyFrameOfReference<T>]. *)
Definition ApplyFrameOfReference (cast : Z → Z) (frame_of_reference : Z) (dst : list Z) : list Z :=
  if frame_of_reference =? 0 then dst else (λ v, cast (as_unsigned T v + as_unsigned T frame_of_reference)) <$> dst.

(** [DeltaDecode<T_S>]: one after the other from position [i] on... *)
Definition decode_from (data : list Z) (i : nat) : result (list Z) :=
  foldM (λ data i, x ← vget data i; y ← vget data (i - 1); vset data i (as_signed T (x + y))) data (seq i (length data - i)).

(** ...after four at a time. *)
Fixpoint decode_unrolled (fuel : nat) (data : list Z) (i stop : nat) (a : Z) : result (list Z * nat) :=
  match fuel with
  | O => Ok (data, i)
  | S fuel =>
      if (i <? stop)%nat then
        '(data, a) ← foldM (λ '(data, a) k, x ← vget data (i + k); data ← vset data (i + k) (as_signed T (x + a)); Ok (data, as_signed T (x + a))) (data, a) (seq 0 4);
        decode_unrolled fuel data (i + 4) stop a
      else Ok (data, i)
  end.

Definition DeltaDecode (data : list Z) (previous_value : Z) : result (list Z) :=
  first ← vget data 0;
  data ← vset data 0 (as_signed T (first + previous_value));
  let sz0 := (length data / 4 * 4)%nat in
  '(data, i) ← (if (4 <=? sz0)%nat then decode_unrolled (length data) data 1 (sz0 - 4) (as_signed T (first + previous_value)) else Ok (data, 1%nat));
  decode_from data i.

(** The values of [count] rows of a packed group, from [current_group_offset] on,
    all of the same 32 values; of a delta group they are decoded. *)
Definition unpack_rows (st : BitpackingScanState) (count : nat) : result (list Z) :=
  let offset_in_compression_group := (current_group_offset st mod ALGORITHM_GROUP)%nat in
  let current_position_ptr := current_group_ptr st + Z.of_nat (current_group_offset st) * current_width st / 8 in
  let decompression_group_start_pointer := current_position_ptr - Z.of_nat offset_in_compression_group * current_width st / 8 in
  values ← UnPackBlock T b decompression_group_start_pointer (current_width st);
  Ok (take count (drop offset_in_compression_group values)).

Definition delta_rows (st : BitpackingScanState) (values : list Z) : result (list Z) :=
  DeltaDecode (ApplyFrameOfReference (as_signed T) (as_signed T (current_frame_of_reference st)) (as_signed T <$> values)) (as_signed T (current_delta_offset st)).

Definition move_offset (st : BitpackingScanState) (n : nat) (delta_offset : Z) : BitpackingScanState :=
  mkBPScan (current_mode st) (current_width st) (current_frame_of_reference st) (current_constant st) delta_offset (current_group_offset st + n)
    (current_group_ptr st) (bitpacking_metadata_ptr st).

(** The delta group is decoded up to the row that is skipped to. *)
Fixpoint skip_deltas (fuel : nat) (st : BitpackingScanState) (remaining_to_skip : nat) : result BitpackingScanState :=
  match fuel with
  | O => Ok st
  | S fuel =>
      if (remaining_to_skip =? 0)%nat then Ok st
      else
        let skipping_this_algorithm_group := Nat.min remaining_to_skip (ALGORITHM_GROUP - current_group_offset st mod ALGORITHM_GROUP) in
        values ← unpack_rows st skipping_this_algorithm_group;
        values ← delta_rows st values;
        last ← vget values (skipping_this_algorithm_group - 1);
        skip_deltas fuel (move_offset st skipping_this_algorithm_group (as_T T last)) (remaining_to_skip - skipping_this_algorithm_group)
  end.

Definition BitpackingSkip (st : BitpackingScanState) (skip_count : nat) : result BitpackingScanState :=
  let initial_group_offset := current_group_offset st in
  let meta_groups_to_skip := ((skip_count + current_group_offset st) / GROUP)%nat in
  '(st, skipped) ← (if (meta_groups_to_skip =? 0)%nat then Ok (st, 0%nat)
     else
       st ← LoadNextGroup (mkBPScan (current_mode st) (current_width st) (current_frame_of_reference st) (current_constant st) (current_delta_offset st)
              (current_group_offset st) (current_group_ptr st) (bitpacking_metadata_ptr st - Z.of_nat (meta_groups_to_skip - 1) * 4));
       Ok (st, (GROUP - initial_group_offset + (meta_groups_to_skip - 1) * GROUP)%nat));
  let remaining_to_skip := (skip_count - skipped)%nat in
  match current_mode st with
  | BP_CONSTANT | BP_CONSTANT_DELTA | BP_FOR => Ok (move_offset st remaining_to_skip (current_delta_offset st))
  | _ => skip_deltas remaining_to_skip st remaining_to_skip
  end.

(** [target_ptr[i] = constant * (offset + i) + frame_of_reference]. *)
Definition constant_delta_value (st : BitpackingScanState) (i : nat) : Z :=
  as_T T (as_unsigned T (as_unsigned T (current_constant st) * Z.of_nat (current_group_offset st + i)) + as_unsigned T (current_frame_of_reference st)).

Definition write_rows (res : list Z) (position : nat) (values : list Z) : result (list Z) :=
  foldM (λ res p, vset res (position + p.1) p.2) res (zip (seq 0 (length values)) values).

(** One iteration of the loop of [BitpackingScanPartial]: the rows that were
    read. *)
Definition scan_step (st : BitpackingScanState) (remaining : nat) (res : list Z) (position : nat) : result (BitpackingScanState * list Z * nat) :=
  st ← (if (current_group_offset st =? GROUP)%nat then LoadNextGroup st else Ok st);
  match current_mode st with
  | BP_CONSTANT =>
      let to_scan := Nat.min remaining (GROUP - current_group_offset st) in
      res ← write_rows res position (replicate remaining (current_constant st));
      Ok (move_offset st to_scan (current_delta_offset st), res, to_scan)
  | BP_CONSTANT_DELTA =>
      let to_scan := Nat.min remaining (GROUP - current_group_offset st) in
      res ← write_rows res position (constant_delta_value st <$> seq 0 to_scan);
      Ok (move_offset st to_scan (current_delta_offset st), res, to_scan)
  | BP_DELTA_FOR =>
      let to_scan := Nat.min remaining (ALGORITHM_GROUP - current_group_offset st mod ALGORITHM_GROUP) in
      values ← unpack_rows st to_scan;
      values ← delta_rows st values;
      last ← vget values (to_scan - 1);
      res ← write_rows res position (as_T T <$> values);
      Ok (move_offset st to_scan (as_T T last), res, to_scan)
  | _ =>
      let to_scan := Nat.min remaining (ALGORITHM_GROUP - current_group_offset st mod ALGORITHM_GROUP) in
      values ← unpack_rows st to_scan;
      res ← write_rows res position (ApplyFrameOfReference (as_T T) (current_frame_of_reference st) values);
      Ok (move_offset st to_scan (current_delta_offset st), res, to_scan)
  end.

Fixpoint scan_groups (fuel : nat) (st : BitpackingScanState) (remaining : nat) (res : list Z) (position : nat) : result (BitpackingScanState * list Z) :=
  if (remaining =? 0)%nat then Ok (st, res)
  else match fuel with
  | O => Throw OutOfFuel
  | S fuel => '(st, res, scanned) ← scan_step st remaining res position; scan_groups fuel st (remaining - scanned) res (position + scanned)
  end.

Definition BitpackingScanPartial (st : BitpackingScanState) (scan_count : nat) (res : list Z) (result_offset : nat) : result (BitpackingScanState * list Z) :=
  scan_groups scan_count st scan_count res result_offset.

Definition BitpackingScan (st : BitpackingScanState) (scan_count : nat) (res : list Z) := BitpackingScanPartial st scan_count res 0.

(** [TryCast<idx_t, T>]: nothing is written when the number does not fit. *)
Definition TryCast (x : Z) : Z := if (x <=? NumericLimits_Maximum T) then x else uninitialised.

Definition BitpackingFetchRow (row_id : nat) (res : list Z) (result_idx : nat) : result (list Z) :=
  st ← BitpackingInitScan;
  st ← BitpackingSkip st row_id;
  let offset_in_compression_group := (current_group_offset st mod ALGORITHM_GROUP)%nat in
  let decompression_group_start_pointer := current_group_ptr st + Z.of_nat (current_group_offset st - offset_in_compression_group) * current_width st / 8 in
  match current_mode st with
  | BP_CONSTANT => vset res result_idx (current_constant st)
  | BP_CONSTANT_DELTA =>
      let multiplier := TryCast (Z.of_nat (current_group_offset st)) in
      product ← arithmetic T (multiplier * current_constant st);
      sum ← arithmetic T (product + current_frame_of_reference st);
      vset res result_idx (as_T T sum)
  | m =>
      values ← UnPackBlock T b decompression_group_start_pointer (current_width st);
      value ← vget values offset_in_compression_group;
      sum ← arithmetic T (value + current_frame_of_reference st);
      let value := as_T T sum in
      if bool_decide (m = BP_DELTA_FOR) then
        sum ← arithmetic T (value + current_delta_offset st); vset res result_idx (as_T T sum)
      else vset res result_idx value
  end.
End Scan.

(** [BitpackingFun::GetFunction]: the type the values are stored as, and whether
    statistics are written. *)
Definition BitpackingFun_GetFunction (type : PhysicalType) : result (PhysicalType * bool) :=
  match type with
  | BOOL => Ok (INT8, true)
  | INT8 | INT16 | INT32 | INT64 | UINT8 | UINT16 | UINT32 | UINT64 => Ok (type, true)
  | INT128 | UINT128 => Throw (Unmodelled "bit packing of 128 bits")
  | PT_LIST => Ok (UINT64, false)
  | _ => Throw (InternalException "Unsupported type for Bitpacking")
  end.
