(* ===== verification/UncompressedFacts.v ===== *)
(** Uncompressed segments: what the bit operations on validity entries do to
    the rows, and that appends, scans and fetches agree. *)
From S2P Require Import Prelude Bits SelectionVector Types Stats NumericStats ValidityMask MaskFacts MaskProps UncompressedSegment.

(** * The tables *)

Definition tables_check : bool :=
  forallb (λ k,
    match LOWER_MASKS !! k, UPPER_MASKS !! k with
    | Some l, Some u =>
        (0 <=? l) && (l <? 2 ^ 64) && (0 <=? u) && (u <? 2 ^ 64) &&
        forallb (λ j, Bool.eqb (bit_at l j) (j <? k)%nat && Bool.eqb (bit_at u j) (64 - k <=? j)%nat) (seq 0 64)
    | _, _ => false
    end) (seq 0 65).

Lemma tables_ok k : (k ≤ 64)%nat →
  ∃ l u, vget LOWER_MASKS k = Ok l ∧ vget UPPER_MASKS k = Ok u ∧ 0 ≤ l < 2 ^ 64 ∧ 0 ≤ u < 2 ^ 64 ∧
    ∀ j, (j < 64)%nat → bit_at l j = (j <? k)%nat ∧ bit_at u j = (64 - k <=? j)%nat.
Proof.
  intros Hk. assert (tables_check = true) as H by (vm_compute; reflexivity).
  unfold tables_check in H. rewrite forallb_forall in H. specialize (H k ltac:(apply in_seq; lia)).
  destruct (LOWER_MASKS !! k) as [l|] eqn:El; [|done]. destruct (UPPER_MASKS !! k) as [u|] eqn:Eu; [|done].
  apply andb_true_iff in H as [H1 H]. rewrite forallb_forall in H. exists l, u.
  split_and!; [by apply vget_lookup | by apply vget_lookup | lia | lia | lia | lia|].
  intros j Hj. specialize (H j ltac:(apply in_seq; lia)). apply andb_true_iff in H as [Ha%eqb_prop Hb%eqb_prop]. done.
Qed.

(** ** One entry *)

Lemma wrapu64_range z : 0 ≤ wrapu 64 z < 2 ^ 64.
Proof. apply wrapu_range. lia. Qed.

Lemma align_entry_ok w ri ii :
  0 ≤ w < 2 ^ 64 → (ri < 64)%nat → (ii < 64)%nat →
  ∃ e, align_entry w ri ii = Ok e ∧ 0 ≤ e < 2 ^ 64 ∧
    ∀ j, (j < 64)%nat → bit_at e j = if decide (ri ≤ j + ii ∧ j + ii < ri + 64)%nat then bit_at w (j + ii - ri) else true.
Proof.
  intros Hw Hr Hi. unfold align_entry. destruct (Nat.ltb_spec ri ii) as [H|H]; [|destruct (Nat.ltb_spec ii ri) as [H2|H2]].
  - destruct (tables_ok (ii - ri) ltac:(lia)) as (l & u & _ & Hu & _ & Ru & B). rewrite Hu. cbn [mbind result_bind].
    eexists. split; [done|]. split.
    + apply lor_range; [by apply shiftr_word | done].
    + intros j Hj. destruct (B j Hj) as [_ Bu]. autorewrite with bits. rewrite Bu. destruct (decide _) as [Hc|Hc].
      * rewrite (proj2 (Nat.leb_gt _ _)) by lia. rewrite orb_false_r. f_equal. lia.
      * rewrite (proj2 (Nat.leb_le _ _)) by lia. by rewrite orb_true_r.
  - destruct (tables_ok (ri - ii) ltac:(lia)) as (l & u & Hl & Hu & Rl & Ru & B). rewrite Hu, Hl. cbn [mbind result_bind].
    eexists. split; [done|]. split; [apply lor_range; [apply wrapu64_range | done]|].
    intros j Hj. destruct (B j Hj) as [Bl _]. autorewrite with bits. rewrite Bl, bool_decide_true by done. cbn [andb].
    destruct (decide _) as [Hc|Hc].
    + rewrite bool_decide_true by lia. rewrite (proj2 (Nat.ltb_ge _ _)) by lia. rewrite orb_false_r.
      destruct (B (j - (ri - ii))%nat ltac:(lia)) as [_ Bu']. rewrite bool_decide_true by lia. rewrite Bu', (proj2 (Nat.leb_gt _ _)) by lia.
      cbn [negb andb]. rewrite ?andb_true_r. cbn. f_equal. lia.
    + rewrite (proj2 (Nat.ltb_lt _ _)) by lia. by rewrite orb_true_r.
  - assert (ri = ii) as -> by lia. exists w. split_and!; [done | lia | lia|]. intros j Hj. rewrite decide_True by lia. f_equal. lia.
Qed.

(** * Scanning across entries *)

Section Scan.
Context (input : list Z) (start off scan n : nat).
Hypothesis Hinput : words_ok input.
Hypothesis Hlen : (start + scan ≤ 64 * length input)%nat.
Hypothesis Hn : (off + scan ≤ n)%nat.

(** The input row that goes to row [q] of the result. *)
Definition source_valid (q : nat) : bool := mask_bit input (start + q - off).

Record position_ok (p : scan_position) : Prop := {
  po_result : (off + sp_pos p = 64 * sp_result_entry p + sp_result_idx p)%nat;
  po_input : (start + sp_pos p = 64 * sp_input_entry p + sp_input_idx p)%nat;
  po_result_idx : (sp_result_idx p < 64)%nat;
  po_input_idx : (sp_input_idx p < 64)%nat;
}.

(** A mask with [n] rows, or one that is allocated with them. *)
Definition mask_ready (m : ValidityMask) : Prop := mask_covers m n ∧ (n ≤ target_count m)%nat.

Lemma next_position_pos p : position_ok p →
  (sp_pos (next_position p) = sp_pos p + (64 - Nat.max (sp_result_idx p) (sp_input_idx p)))%nat ∧ position_ok (next_position p).
Proof.
  destruct p as [pos re ri ie ii]. intros [H1 H2 H3 H4]. unfold next_position, BITS_PER_VALUE.
  cbn [sp_pos sp_result_entry sp_result_idx sp_input_entry sp_input_idx] in *.
  destruct (Nat.ltb_spec ri ii); [|destruct (Nat.ltb_spec ii ri)];
    (split; [|split]; cbn [sp_pos sp_result_entry sp_result_idx sp_input_entry sp_input_idx]; lia).
Qed.

(** The rows an iteration changes. *)
Definition touches (p : scan_position) (q : nat) : Prop :=
  (q / 64 = sp_result_entry p)%nat ∧ (off ≤ start + q)%nat ∧ ((start + q - off) / 64 = sp_input_entry p)%nat ∧
  (q mod 64 < 64 - (sp_pos (next_position p) - scan))%nat.

#[local] Instance touches_dec p q : Decision (touches p q).
Proof. unfold touches. apply _. Defined.

Lemma entry_rows e f m i :
  0 ≤ e < 2 ^ 64 → mask_ready m → (64 * i < n)%nat → (∀ j, (j < 64)%nat → bit_at e j = f (64 * i + j)%nat) →
  ∃ m', (if e =? MAX_ENTRY then Ok m else update_entry (EnsureWritable m) i (λ x, Z.land x e)) = Ok m' ∧
    mask_ready m' ∧ target_count m' = target_count m ∧
    ∀ q, (q < n)%nat → valid_at m' q = valid_at m q && (if decide (q / 64 = i)%nat then f q else true).
Proof.
  intros He [Hc Ht] Hi Hf. destruct (Z.eqb_spec e MAX_ENTRY) as [->|_].
  { exists m. split_and!; [done | by split | done|]. intros q Hq. destruct (decide (q / 64 = i)%nat) as [<-|]; [|by rewrite andb_true_r].
    specialize (Hf (q mod 64)%nat ltac:(apply Nat.mod_upper_bound; lia)).
    replace (64 * (q / 64) + q mod 64)%nat with q in Hf by (apply Nat.div_mod_eq). rewrite <- Hf, bit_at_MAX.
    rewrite bool_decide_true by (apply Nat.mod_upper_bound; lia). by rewrite andb_true_r. }
  destruct (validity_mask m) as [l|] eqn:El.
  - assert (EnsureWritable m = mkMask (Some l) (target_count m)) as -> by (unfold EnsureWritable; rewrite El; by destruct m; cbn in *; subst).
    unfold mask_covers in Hc. rewrite El in Hc. destruct Hc as [W Hl].
    assert (i < length l)%nat as Hil by (pose proof (EntryCount_covers n); lia).
    rewrite update_entry_ok by done. eexists. split; [done|]. split_and!; [split; [|done] | done |].
    + split; [apply words_ok_insert; [done|]; apply land_range; [by apply words_ok_default | lia] | by rewrite length_insert].
    + intros q Hq. unfold valid_at. cbn [validity_mask]. rewrite El, mask_bit_insert by done.
      destruct (decide (q / 64 = i)%nat) as [<-|]; [|by rewrite andb_true_r]. rewrite bit_at_land. f_equal.
      rewrite Hf by (apply Nat.mod_upper_bound; lia). f_equal. symmetry. apply Nat.div_mod_eq.
  - assert (EnsureWritable m = mkMask (Some (ValidityData_new (target_count m))) (target_count m)) as -> by (unfold EnsureWritable; by rewrite El).
    assert (EntryCount n ≤ length (ValidityData_new (target_count m)))%nat as Hl by (unfold ValidityData_new; rewrite length_replicate; by apply EntryCount_mono).
    assert (i < length (ValidityData_new (target_count m)))%nat as Hil by (pose proof (EntryCount_covers n); lia).
    rewrite update_entry_ok by done. eexists. split; [done|]. split_and!; [split; [|done] | done |].
    + split; [apply words_ok_insert; [apply words_ok_new|]; apply land_range; [by apply words_ok_default, words_ok_new | lia] | by rewrite length_insert].
    + intros q Hq. unfold valid_at. cbn [validity_mask]. rewrite El, mask_bit_insert by done.
      destruct (decide (q / 64 = i)%nat) as [<-|]; [|rewrite mask_bit_new by lia; done]. rewrite bit_at_land.
      rewrite Hf by (apply Nat.mod_upper_bound; lia). replace (64 * (q / 64) + q mod 64)%nat with q by (apply Nat.div_mod_eq).
      pose proof (mask_bit_new (target_count m) q ltac:(lia)) as Hb. unfold mask_bit in Hb. by rewrite Hb.
Qed.

Lemma scan_entry_ok m p :
  position_ok p → (sp_pos p < scan)%nat → mask_ready m →
  ∃ m', scan_entry input scan m p = Ok (m', next_position p) ∧ mask_ready m' ∧ target_count m' = target_count m ∧
    ∀ q, (q < n)%nat → valid_at m' q = valid_at m q && (if decide (touches p q) then source_valid q else true).
Proof.
  intros Hp Hpos Hm. destruct (next_position_pos p Hp) as [Hnext _]. destruct Hp as [P1 P2 P3 P4]. unfold scan_entry.
  assert (sp_input_entry p < length input)%nat as Hie by lia.
  destruct (lookup_lt_is_Some_2 input _ Hie) as [w Hw]. rewrite (vget_lookup _ _ _ Hw). cbn [mbind result_bind].
  destruct (align_entry_ok w (sp_result_idx p) (sp_input_idx p)) as (e & -> & Re & Be); [by eapply words_ok_lookup | done | done|].
  cbn [mbind result_bind]. set (cut := (sp_pos (next_position p) - scan)%nat).
  assert (∃ e', (if (scan <? sp_pos (next_position p))%nat then upper ← vget UPPER_MASKS cut; Ok (Z.lor e upper) else Ok e) = Ok e' ∧
    0 ≤ e' < 2 ^ 64 ∧ ∀ j, (j < 64)%nat → bit_at e' j = bit_at e j || (64 - cut <=? j)%nat) as (e' & -> & Re' & Be').
  { destruct (Nat.ltb_spec scan (sp_pos (next_position p))) as [H|H].
    - destruct (tables_ok cut ltac:(unfold cut; lia)) as (l & u & _ & -> & _ & Ru & B). eexists. split; [done|]. split; [by apply lor_range|].
      intros j Hj. rewrite bit_at_lor. f_equal. apply (B j Hj).
    - exists e. split_and!; [done | lia | lia|]. intros j Hj. rewrite (proj2 (Nat.leb_gt _ _)) by (unfold cut; lia). by rewrite orb_false_r. }
  cbn [mbind result_bind].
  destruct (entry_rows e' (λ q, if decide (touches p q) then source_valid q else true) m (sp_result_entry p) Re' Hm) as (m' & -> & Hm' & Ht' & Hv'); [lia| |].
  - intros j Hj. set (q := (64 * sp_result_entry p + j)%nat).
    assert (q / 64 = sp_result_entry p ∧ q mod 64 = j)%nat as [Eq1 Eq2] by (unfold q; split; [symmetry; apply (Nat.div_unique _ _ _ j) | symmetry; apply (Nat.mod_unique _ _ (sp_result_entry p))]; lia).
    rewrite Be', Be by done. destruct (decide (touches p q)) as [(_ & T2 & T3 & T4)|Hno].
    + rewrite Eq2 in T4. fold cut in T4. rewrite (proj2 (Nat.leb_gt _ _)) by lia. rewrite orb_false_r.
      pose proof (Nat.div_mod_eq (start + q - off) 64) as Hdm. rewrite T3 in Hdm.
      pose proof (Nat.mod_upper_bound (start + q - off) 64 ltac:(lia)) as Hub.
      rewrite decide_True by (unfold q in *; lia). unfold source_valid, mask_bit. rewrite T3, Hw. cbn [default]. f_equal. unfold q in *. lia.
    + destruct (decide (sp_result_idx p ≤ j + sp_input_idx p ∧ j + sp_input_idx p < sp_result_idx p + 64)%nat) as [Hc|Hc]; [|done].
      destruct (Nat.leb_spec (64 - cut) j) as [Hcut|Hcut]; [by rewrite orb_true_r|]. exfalso. apply Hno. split_and!; [done | unfold q; lia | |].
      * symmetry. apply (Nat.div_unique _ _ _ (j + sp_input_idx p - sp_result_idx p)); unfold q; lia.
      * rewrite Eq2. fold cut. lia.
  - eexists. split; [done|]. split_and!; [done | done|]. intros q Hq. rewrite Hv' by done.
    destruct (decide (q / 64 = sp_result_entry p)%nat) as [E|E]; [done|]. rewrite decide_False; [done|]. intros [? _]. done.
Qed.

(** The rows outside of the scan that share an entry with its ends. *)
Definition leaks (q : nat) : Prop :=
  (q < off ∧ off ≤ start + q ∧ (start + q - off) / 64 = start / 64)%nat ∨
  (off + scan ≤ q ∧ (start + q - off) / 64 = (start + scan - 1) / 64)%nat.

Lemma touched_rows p q : position_ok p → (sp_pos p < scan)%nat →
  let pos' := sp_pos (next_position p) in
  ((off + sp_pos p ≤ q < off + Nat.min pos' scan)%nat → touches p q) ∧
  ((off + pos' ≤ q < off + scan)%nat → ¬ touches p q) ∧
  ((q < off ∨ off + scan ≤ q)%nat → touches p q → leaks q).
Proof.
  intros Hp Hlt. destruct (next_position_pos p Hp) as [Hnext _]. destruct Hp as [P1 P2 P3 P4]. cbv zeta. unfold touches, leaks.
  rewrite Hnext in *. split_and!.
  - intros Hq. split_and!.
    + symmetry. apply (Nat.div_unique _ _ _ (sp_result_idx p + (q - off - sp_pos p))); lia.
    + lia.
    + symmetry. apply (Nat.div_unique _ _ _ (sp_input_idx p + (q - off - sp_pos p))); lia.
    + assert (q mod 64 = sp_result_idx p + (q - off - sp_pos p))%nat as -> by (symmetry; apply (Nat.mod_unique _ _ (sp_result_entry p)); lia). lia.
  - intros Hq (H1 & _ & H3 & _). pose proof (Nat.div_mod_eq q 64). pose proof (Nat.mod_upper_bound q 64 ltac:(lia)).
    pose proof (Nat.div_mod_eq (start + q - off) 64). pose proof (Nat.mod_upper_bound (start + q - off) 64 ltac:(lia)). lia.
  - intros Hq (H1 & H2 & H3 & _). pose proof (Nat.div_mod_eq (start + q - off) 64). pose proof (Nat.mod_upper_bound (start + q - off) 64 ltac:(lia)).
    destruct Hq as [Hq|Hq]; [left | right].
    + split_and!; [done | done|]. apply (Nat.div_unique _ _ _ (start - 64 * sp_input_entry p)); lia.
    + split; [done|]. apply (Nat.div_unique _ _ _ (start + scan - 1 - 64 * sp_input_entry p)); lia.
Qed.

(** The rows after the loop. *)
Lemma scan_entries_ok fuel m p :
  position_ok p → (scan ≤ fuel + sp_pos p)%nat → mask_ready m →
  ∃ m', scan_entries fuel input scan m p = Ok m' ∧ mask_ready m' ∧ target_count m' = target_count m ∧
    ∀ q, (q < n)%nat →
      ((off + sp_pos p ≤ q < off + scan)%nat → valid_at m' q = valid_at m q && source_valid q) ∧
      (valid_at m' q = valid_at m q ∨ valid_at m' q = valid_at m q && source_valid q) ∧
      ((q < off ∨ off + scan ≤ q)%nat → ¬ leaks q → valid_at m' q = valid_at m q).
Proof.
  revert m p. induction fuel as [|fuel IH]; intros m p Hp Hf Hm; cbn [scan_entries]; destruct (Nat.leb_spec scan (sp_pos p)) as [Hle|Hlt].
  - exists m. split_and!; [done | done | done|]. intros q Hq. split_and!; [lia | by left | done].
  - lia.
  - exists m. split_and!; [done | done | done|]. intros q Hq. split_and!; [lia | by left | done].
  - destruct (scan_entry_ok m p Hp Hlt Hm) as (m1 & -> & Hm1 & Ht1 & Hv1). cbn [mbind result_bind].
    destruct (next_position_pos p Hp) as [Hnext Hp']. pose proof (po_result_idx _ Hp). pose proof (po_input_idx _ Hp).
    destruct (IH m1 (next_position p) Hp') as (m' & Hr & Hm' & Ht' & Hv'); [lia | done|].
    exists m'. split_and!; [done | done | by rewrite Ht'|]. intros q Hq. destruct (Hv' q Hq) as (V1 & V2 & V3). specialize (Hv1 q Hq).
    destruct (touched_rows p q Hp Hlt) as (T1 & T2 & T3). split_and!.
    + intros Hin. destruct (decide (q < off + sp_pos (next_position p))%nat) as [Hnow|Hlater].
      * rewrite decide_True in Hv1 by (apply T1; lia). destruct V2 as [->| ->]; rewrite Hv1; [done|]. by destruct (valid_at m q), (source_valid q).
      * rewrite decide_False in Hv1 by (apply T2; lia). rewrite V1, Hv1 by lia. by rewrite andb_true_r.
    + destruct (decide (touches p q)); rewrite ?andb_true_r in Hv1; destruct V2 as [->| ->]; rewrite Hv1; auto.
      right. by destruct (valid_at m q), (source_valid q).
    + intros Hout Hleak. rewrite V3, Hv1 by done. rewrite decide_False; [by rewrite andb_true_r|]. intros Ht. by apply Hleak, T3.
Qed.
End Scan.

#[local] Instance leaks_dec start off scan q : Decision (leaks start off scan q).
Proof. unfold leaks. apply _. Defined.

(** [ValidityScanPartial] returns; the rows of the scan are the old rows
    combined with the rows of the segment, and the other rows stay as they
    were unless they share an entry with the ends of the scan and the row of
    the segment that is there is NULL. *)
Lemma ValidityScanPartial_ok seg row_index scan off m n :
  words_ok (seg_block seg) → (GetRelativeIndex seg row_index + scan ≤ 64 * length (seg_block seg))%nat → (off + scan ≤ n)%nat →
  mask_covers m n → (n ≤ target_count m)%nat →
  ∃ m', ValidityScanPartial seg row_index scan m off = Ok m' ∧ mask_covers m' n ∧ target_count m' = target_count m ∧
    (∀ q, (off ≤ q < off + scan)%nat → valid_at m' q = valid_at m q && mask_bit (seg_block seg) (GetRelativeIndex seg row_index + (q - off))) ∧
    (∀ q, (q < n)%nat → (q < off ∨ off + scan ≤ q)%nat →
      (leaks (GetRelativeIndex seg row_index) off scan q → mask_bit (seg_block seg) (GetRelativeIndex seg row_index + q - off) = true) →
      valid_at m' q = valid_at m q).
Proof.
  intros W Hlen Hn Hc Ht. unfold ValidityScanPartial. set (start := GetRelativeIndex seg row_index) in *.
  set (p := mkPosition _ _ _ _ _).
  destruct (scan_entries_ok (seg_block seg) start off scan n W Hlen Hn scan m p) as (m' & Hr & [Hc' _] & Ht' & Hv); [|cbn; lia | by split|].
  { pose proof (Nat.div_mod_eq off 64). pose proof (Nat.mod_upper_bound off 64 ltac:(lia)).
    pose proof (Nat.div_mod_eq start 64). pose proof (Nat.mod_upper_bound start 64 ltac:(lia)). unfold p, BITS_PER_VALUE.
    split; cbn [sp_pos sp_result_entry sp_result_idx sp_input_entry sp_input_idx]; lia. }
  exists m'. split_and!; [done | done | done | |].
  - intros q Hq. destruct (Hv q ltac:(lia)) as [H _]. rewrite H by (cbn [sp_pos p]; lia). unfold source_valid. do 2 f_equal. lia.
  - intros q Hq Hout Hl. destruct (Hv q Hq) as (_ & [E|E] & H); [done|].
    destruct (decide (leaks start off scan q)) as [Hleak|Hleak]; [|by apply H].
    unfold source_valid in E. rewrite Hl in E by done. by rewrite E, andb_true_r.
Qed.

(** ** The loop over the rows *)

Lemma block_row l t r : words_ok l → (r < 64 * length l)%nat → RowIsValidUnsafe (mkMask (Some l) t) r = Ok (mask_bit l r).
Proof.
  intros W Hr. unfold RowIsValidUnsafe, GetEntryIndex, GetValidityEntry, BITS_PER_VALUE. cbn [validity_mask].
  assert (r / 64 < length l)%nat as Hi by (apply Nat.Div0.div_lt_upper_bound; lia). destruct (lookup_lt_is_Some_2 l _ Hi) as [w Hw].
  rewrite (vget_lookup _ _ _ Hw). cbn [mbind result_bind]. rewrite EntryRowIsValid_bit. unfold mask_bit. by rewrite Hw.
Qed.

Lemma invalidate_rows (f : nat → result bool) (valid : nat → bool) off n k m :
  (∀ i, (i < k)%nat → f i = Ok (valid i)) → (off + k ≤ n)%nat → mask_covers m n → (n ≤ target_count m)%nat →
  ∃ m', foldM (λ mask i, v ← f i;
                if (v : bool) then Ok mask
                else let mask := if AllValid mask then Initialize mask (target_count mask) else mask in SetInvalid mask (off + i))
              m (seq 0 k) = Ok m' ∧ mask_covers m' n ∧ target_count m' = target_count m ∧
    ∀ q, (q < n)%nat → valid_at m' q = valid_at m q && (if decide (off ≤ q < off + k)%nat then valid (q - off)%nat else true).
Proof.
  intros Hf Hn Hc Ht. induction k as [|k IH].
  - exists m. split_and!; [done | done | done|]. intros q _. rewrite decide_False by lia. by rewrite andb_true_r.
  - destruct IH as (m1 & H1 & Hc1 & Ht1 & Hv1); [intros; apply Hf; lia | lia|]. rewrite seq_S, foldM_app, H1. cbn [mbind result_bind foldM plus].
    rewrite (Hf k ltac:(lia)). cbn [mbind result_bind]. destruct (valid k) eqn:Ek; cbn [mbind result_bind].
    + exists m1. split_and!; [done | done | done|]. intros q Hq. rewrite Hv1 by done.
      destruct (decide (off ≤ q < off + k)%nat) as [H|H]; [by rewrite decide_True by lia|].
      destruct (decide (off ≤ q < off + S k)%nat) as [H'|H']; [|done]. assert (q - off = k)%nat as -> by lia. by rewrite Ek.
    + assert (Hsame : SetInvalid (if AllValid m1 then Initialize m1 (target_count m1) else m1) (off + k) = SetRow m1 (off + k) false).
      { unfold AllValid, SetRow, SetInvalid. by destruct m1 as [[l|] t]. }
      rewrite Hsame. destruct (SetRow_ok m1 n (off + k) false Hc1) as (m2 & -> & Hc2 & Ht2 & Hv2); [by rewrite Ht1 | lia|].
      exists m2. split_and!; [done | done | by rewrite Ht2|]. intros q Hq. rewrite Hv2 by done.
      destruct (decide (q = off + k)%nat) as [->|Hne].
      * rewrite decide_True by lia. replace (off + k - off)%nat with k by lia. by rewrite Ek, andb_false_r.
      * rewrite Hv1 by done. destruct (decide (off ≤ q < off + k)%nat) as [H|H]; [by rewrite decide_True by lia | by rewrite decide_False by lia].
Qed.

Lemma ValidityScanPartial_rows_ok seg row_index scan off m n :
  words_ok (seg_block seg) → (GetRelativeIndex seg row_index + scan ≤ 64 * length (seg_block seg))%nat → (off + scan ≤ n)%nat →
  mask_covers m n → (n ≤ target_count m)%nat →
  ∃ m', ValidityScanPartial_rows seg row_index scan m off = Ok m' ∧ mask_covers m' n ∧
    ∀ q, (q < n)%nat → valid_at m' q =
      valid_at m q && (if decide (off ≤ q < off + scan)%nat then mask_bit (seg_block seg) (GetRelativeIndex seg row_index + (q - off)) else true).
Proof.
  intros W Hlen Hn Hc Ht. unfold ValidityScanPartial_rows.
  destruct (invalidate_rows (λ i, RowIsValid (mkMask (Some (seg_block seg)) 0) (GetRelativeIndex seg row_index + i))
    (λ i, mask_bit (seg_block seg) (GetRelativeIndex seg row_index + i)) off n scan m) as (m' & Hm' & Hc' & _ & Hv); [|done | done | done|].
  - intros i Hi. apply (block_row (seg_block seg) 0); [done | lia].
  - by exists m'.
Qed.

(** * Scans of whole vectors *)

Lemma copy_entries_ok input base k m n :
  words_ok input → (base + k ≤ length input)%nat → (k ≤ EntryCount n)%nat → mask_covers m n → (n ≤ target_count m)%nat →
  (∀ q, (q < n)%nat → valid_at m q = true) →
  ∃ m', foldM (copy_entry input base) m (seq 0 k) = Ok m' ∧ mask_covers m' n ∧ target_count m' = target_count m ∧
    ∀ q, (q < n)%nat → valid_at m' q = if decide (q < 64 * k)%nat then mask_bit input (64 * base + q) else true.
Proof.
  intros W Hlen Hk Hc Ht Hall. induction k as [|k IH].
  - exists m. split_and!; [done | done | done|]. intros q Hq. rewrite decide_False by lia. by apply Hall.
  - destruct IH as (m1 & H1 & Hc1 & Ht1 & Hv1); [lia | lia|]. rewrite seq_S, foldM_app, H1. cbn [mbind result_bind foldM plus]. unfold copy_entry.
    destruct (lookup_lt_is_Some_2 input (base + k)) as [w Hw]; [lia|]. rewrite (vget_lookup _ _ _ Hw). cbn [mbind result_bind].
    assert (Hbit : ∀ q, (q / 64 = k)%nat → mask_bit input (64 * base + q) = bit_at w (q mod 64)).
    { intros q <-. unfold mask_bit. rewrite Nat.mul_comm, Nat.div_add_l by lia. rewrite Hw. cbn [default]. f_equal.
      rewrite Nat.add_comm, Nat.Div0.mod_add. done. }
    assert (Hdec : ∀ q, (q / 64 ≠ k)%nat → (q < 64 * S k ↔ q < 64 * k)%nat).
    { intros q Hq. pose proof (Nat.div_mod_eq q 64). pose proof (Nat.mod_upper_bound q 64 ltac:(lia)). lia. }
    destruct (AllValid m1 && (w =? MAX_ENTRY)) eqn:E.
    + apply andb_true_iff in E as [E1 ->%Z.eqb_eq]. exists m1. split_and!; [done | done | done|]. intros q Hq. rewrite Hv1 by done.
      destruct (decide (q / 64 = k)%nat) as [Hqk|Hqk].
      * pose proof (Nat.div_mod_eq q 64). pose proof (Nat.mod_upper_bound q 64 ltac:(lia)). rewrite decide_False, decide_True by lia.
        rewrite Hbit, bit_at_MAX by done. by rewrite bool_decide_true.
      * specialize (Hdec q Hqk). destruct (decide (q < 64 * k)%nat) as [H|H]; [rewrite decide_True by tauto | rewrite decide_False by tauto]; done.
    + assert (∃ l, EnsureWritable m1 = mkMask (Some l) (target_count m1) ∧ words_ok l ∧ (EntryCount n ≤ length l)%nat ∧
        ∀ q, (q < n)%nat → mask_bit l q = valid_at m1 q) as (l & -> & Wl & Ll & Bl).
      { unfold EnsureWritable, mask_covers, valid_at in *. destruct m1 as [[l|] t]; cbn [validity_mask target_count] in *.
        - destruct Hc1. by exists l.
        - exists (ValidityData_new t). split_and!; [done | apply words_ok_new | unfold ValidityData_new; rewrite length_replicate; apply EntryCount_mono; lia|].
          intros q Hq. apply mask_bit_new. lia. }
      rewrite update_entry_ok by lia. eexists. split; [done|]. split_and!; [|done|].
      * split; [apply words_ok_insert; [done | exact (words_ok_lookup _ _ _ W Hw)] | by rewrite length_insert].
      * intros q Hq. unfold valid_at. cbn [validity_mask]. rewrite mask_bit_insert by lia. destruct (decide (q / 64 = k)%nat) as [Hqk|Hqk].
        -- pose proof (Nat.div_mod_eq q 64). pose proof (Nat.mod_upper_bound q 64 ltac:(lia)). rewrite decide_True by lia. by rewrite Hbit.
        -- rewrite Bl, Hv1 by done. specialize (Hdec q Hqk).
           destruct (decide (q < 64 * k)%nat) as [H|H]; [rewrite decide_True by tauto | rewrite decide_False by tauto]; done.
Qed.

(** A whole scan into a fresh mask gives the rows of the segment. *)
Lemma ValidityScan_ok seg row_index scan m n :
  words_ok (seg_block seg) → (GetRelativeIndex seg row_index + scan ≤ 64 * length (seg_block seg))%nat → (scan ≤ n)%nat →
  mask_covers m n → (n ≤ target_count m)%nat → (∀ q, (q < n)%nat → valid_at m q = true) →
  ∃ m', ValidityScan seg row_index scan m = Ok m' ∧ mask_covers m' n ∧ target_count m' = target_count m ∧
    ∀ q, (q < scan)%nat → valid_at m' q = mask_bit (seg_block seg) (GetRelativeIndex seg row_index + q).
Proof.
  intros W Hlen Hn Hc Ht Hall. unfold ValidityScan. set (start := GetRelativeIndex seg row_index) in *.
  destruct (Nat.eqb_spec (start mod BITS_PER_VALUE) 0) as [E|E].
  - unfold BITS_PER_VALUE in *. pose proof (Nat.div_mod_eq start 64) as Hs.
    assert ((scan + 64 - 1) / 64 = EntryCount scan)%nat as -> by (unfold EntryCount, BITS_PER_VALUE; f_equal; lia).
    pose proof (EntryCount_tight scan) as Htight.
    destruct (copy_entries_ok (seg_block seg) (start / 64) (EntryCount scan) m n W) as (m' & -> & Hc' & Ht' & Hv); [lia | by apply EntryCount_mono | done | done | done|].
    exists m'. split_and!; [done | done | done|]. intros q Hq. rewrite Hv by lia. pose proof (EntryCount_covers scan).
    rewrite decide_True by lia. f_equal. lia.
  - destruct (ValidityScanPartial_ok seg row_index scan 0 m n W Hlen) as (m' & -> & Hc' & Ht' & Hv & _); [lia | done | done|].
    exists m'. split_and!; [done | done | done|]. intros q Hq. rewrite Hv by lia. rewrite Hall by lia. cbn [andb]. do 2 f_equal. lia.
Qed.

Lemma ValidityFetchRow_ok seg row m result_idx n :
  words_ok (seg_block seg) → (row < 64 * length (seg_block seg))%nat → mask_covers m n → (n ≤ target_count m)%nat → (result_idx < n)%nat →
  ∃ m', ValidityFetchRow seg row m result_idx = Ok m' ∧ mask_covers m' n ∧ target_count m' = target_count m ∧
    ∀ q, (q < n)%nat → valid_at m' q = valid_at m q && (if decide (q = result_idx) then mask_bit (seg_block seg) row else true).
Proof.
  intros W Hr Hc Ht Hi. unfold ValidityFetchRow. rewrite block_row by done. cbn [mbind result_bind].
  destruct (mask_bit (seg_block seg) row) eqn:E.
  - exists m. split_and!; [done | done | done|]. intros q Hq. destruct (decide _); by rewrite andb_true_r.
  - destruct (SetRow_ok m n result_idx false Hc) as (m' & Hm' & Hc' & Ht' & Hv); [done | done|]. exists m'. split_and!; [done | done | done|].
    intros q Hq. rewrite Hv by done. destruct (decide _); [by rewrite andb_false_r | by rewrite andb_true_r].
Qed.
