(* ===== verification/UncompressedAppend.v ===== *)
(** Appends to uncompressed segments, of validity masks and of values: the rows
    can be read back, the statistics cover the values, and reverting an append
    restores the segment. *)
From S2P Require Import Prelude Bits SelectionVector Types Stats NumericStats NumericFacts ValidityMask MaskFacts MaskProps UncompressedSegment UncompressedFacts.

(** * The vectors that are appended *)

(** Every row below [n] is an entry of the data and of the mask. *)
Definition unified_ok {A} (d : UnifiedVectorFormat A) (n : nat) : Prop :=
  ∃ cap, mask_covers (uni_validity d) cap ∧
    ∀ i, (i < n)%nat → ∃ j, get_index (uni_sel d) i = Ok (Z.of_nat j) ∧ (j < cap)%nat.

Definition unified_index {A} (d : UnifiedVectorFormat A) (i : nat) : nat :=
  match get_index (uni_sel d) i with Ok z => Z.to_nat z | Throw _ => O end.
Definition unified_valid {A} (d : UnifiedVectorFormat A) (i : nat) : bool := valid_at (uni_validity d) (unified_index d i).
Definition unified_value {A} (d : UnifiedVectorFormat A) (i : nat) : option A := uni_data d !! unified_index d i.

Lemma unified_get {A} (d : UnifiedVectorFormat A) n i : unified_ok d n → (i < n)%nat →
  get_index (uni_sel d) i = Ok (Z.of_nat (unified_index d i)) ∧ RowIsValid (uni_validity d) (unified_index d i) = Ok (unified_valid d i).
Proof.
  intros (cap & Hc & Hs) Hi. destruct (Hs i Hi) as (j & Hj & Hlt). unfold unified_valid, unified_index. rewrite Hj, Nat2Z.id.
  split; [done | by eapply RowIsValid_ok].
Qed.

(** * Validity segments *)

(** The number of rows a validity segment of [size] bytes takes. *)
Definition validity_capacity (size : nat) : nat := (size / STANDARD_MASK_SIZE * STANDARD_VECTOR_SIZE)%nat.

(** The rows after the last one are marked valid: an append only has to clear bits. *)
Record validity_segment_ok (seg : ColumnSegment Z) : Prop := {
  vs_words : words_ok (seg_block seg);
  vs_length : length (seg_block seg) = (seg_size seg / 8)%nat;
  vs_count : (seg_count seg ≤ validity_capacity (seg_size seg))%nat;
  vs_type : id (stats_type (seg_stats seg)) = VALIDITY;
  vs_tail : ∀ r, (seg_count seg ≤ r < 64 * length (seg_block seg))%nat → mask_bit (seg_block seg) r = true;
}.

Lemma validity_capacity_fits size : (validity_capacity size ≤ 64 * (size / 8))%nat.
Proof.
  unfold validity_capacity, STANDARD_MASK_SIZE. pose proof (EntryCount_covers STANDARD_VECTOR_SIZE) as H.
  set (e := EntryCount STANDARD_VECTOR_SIZE) in *. replace (e * 8)%nat with (8 * e)%nat by lia. rewrite <- Nat.Div0.div_div.
  pose proof (Nat.Div0.mul_div_le (size / 8) e). nia.
Qed.

Lemma ValidityInitSegment_ok start size stats : id (stats_type stats) = VALIDITY → validity_segment_ok (mkColumnSegment TRANSIENT start 0 size stats (ValidityInitSegment size)).
Proof.
  intros Hty. assert (words_ok (replicate (size / 8) MAX_ENTRY)) as W by (apply Forall_replicate, MAX_ENTRY_ok).
  split; cbn [seg_block seg_size seg_count seg_stats]; unfold ValidityInitSegment.
  - done.
  - by rewrite length_replicate.
  - lia.
  - done.
  - intros r [_ Hr]. rewrite length_replicate in Hr. unfold mask_bit.
    rewrite lookup_replicate_2 by (apply Nat.Div0.div_lt_upper_bound; lia). cbn [default]. rewrite bit_at_MAX.
    apply bool_decide_true. apply Nat.mod_upper_bound. lia.
Qed.

(** The statistics after rows with the given validity. *)
Definition validity_seen (s : BaseStatistics) (valid : list bool) : BaseStatistics :=
  fold_left (λ s v, if v : bool then SetHasNoNullFast s else SetHasNullFast s) valid s.

Lemma validity_seen_flags s l :
  has_null (validity_seen s l) = has_null s || existsb negb l ∧ has_no_null (validity_seen s l) = has_no_null s || existsb (λ b, b) l ∧
  stats_type (validity_seen s l) = stats_type s ∧ stats_union (validity_seen s l) = stats_union s.
Proof.
  unfold validity_seen. revert s. induction l as [|v l IH]; intros s; cbn [fold_left existsb]; [by rewrite !orb_false_r|].
  destruct (IH (if v then SetHasNoNullFast s else SetHasNullFast s)) as (-> & -> & -> & ->). destruct s, v; cbn.
  all: split_and!; try done; by rewrite ?orb_true_r, ?orb_false_r, ?orb_assoc.
Qed.

(** The loop of [ValidityAppend] clears the bits of the rows that are NULL. *)
Lemma append_validity_loop d n offset base cap l s k :
  unified_ok d n → AllValid (uni_validity d) = false → words_ok l → length l = cap → (offset + k ≤ n)%nat → (base + k ≤ 64 * cap)%nat →
  ∃ l', foldM (append_validity d offset base) (s, mkMask (Some l) 0) (seq 0 k) =
          Ok (validity_seen s ((λ i, unified_valid d (offset + i)) <$> seq 0 k), mkMask (Some l') 0) ∧
    words_ok l' ∧ length l' = cap ∧
    ∀ q, mask_bit l' q = if decide (base ≤ q < base + k ∧ unified_valid d (offset + (q - base)) = false)%nat then false else mask_bit l q.
Proof.
  intros Hd Hav W Hl Ho Hb.
  set (I := λ i (st : BaseStatistics * ValidityMask), st.1 = validity_seen s ((λ i, unified_valid d (offset + i)) <$> seq 0 i) ∧
    ∃ l', st.2 = mkMask (Some l') 0 ∧ words_ok l' ∧ length l' = cap ∧
    ∀ q, mask_bit l' q = if decide (base ≤ q < base + i ∧ unified_valid d (offset + (q - base)) = false)%nat then false else mask_bit l q).
  destruct (foldM_seq (append_validity d offset base) I (s, mkMask (Some l) 0) 0 k) as ([s' m'] & E & Hs & l' & Hm & W' & L' & B).
  - split; [done|]. exists l. split_and!; [done | done | done|]. intros q. rewrite decide_False by lia. done.
  - intros i [s1 m1] Hi (Hs1 & l1 & Hm1 & W1 & L1 & B1). cbn [fst snd] in *. subst s1 m1. unfold append_validity. cbn [fst snd plus].
    destruct (unified_get d n (offset + i) Hd ltac:(lia)) as [-> Hv]. cbn [mbind result_bind]. rewrite Nat2Z.id.
    assert (RowIsValidUnsafe (uni_validity d) (unified_index d (offset + i)) = Ok (unified_valid d (offset + i))) as ->.
    { unfold RowIsValid in Hv. unfold AllValid in Hav. destruct (validity_mask (uni_validity d)); done. }
    cbn [mbind result_bind]. destruct (unified_valid d (offset + i)) eqn:Ev.
    + eexists. split; [done|]. split; [cbn [fst]|].
      * rewrite seq_app, fmap_app. unfold validity_seen at 2. rewrite fold_left_app. cbn. by rewrite Ev.
      * exists l1. split_and!; [done | done | done|]. intros q. rewrite B1.
        destruct (decide (base ≤ q < base + i ∧ _)%nat) as [H|H]; [by rewrite decide_True by (split; [lia | apply H])|].
        rewrite decide_False; [done|]. intros [H1 H2]. apply H. split; [|done].
        destruct (decide (q = base + i)%nat) as [->|]; [|lia]. replace (base + i - base)%nat with i in H2 by lia. congruence.
    + destruct (SetRow_data l1 0 (base + k) (base + i) false W1) as (l2 & Hset & W2 & L2 & B2);
        [rewrite L1; unfold EntryCount, BITS_PER_VALUE; apply Nat.lt_succ_r, Nat.Div0.div_lt_upper_bound; lia | lia|].
      unfold SetRow, SetInvalid in Hset. cbn [validity_mask] in Hset. rewrite Hset. eexists. split; [done|]. split; [cbn [fst]|].
      * rewrite seq_app, fmap_app. unfold validity_seen at 2. rewrite fold_left_app. cbn. by rewrite Ev.
      * exists l2. split_and!; [done | done | by rewrite L2|]. intros q. rewrite B2, B1.
        destruct (decide (q = base + i)%nat) as [->|Hne].
        -- rewrite decide_True; [done|]. split; [lia|]. by replace (base + i - base)%nat with i by lia.
        -- destruct (decide (base ≤ q < base + i ∧ _)%nat) as [H|H]; [by rewrite decide_True by (split; [lia | apply H])|].
           rewrite decide_False; [done|]. intros [H1 H2]. apply H. split; [lia | done].
  - cbn [fst snd] in *. subst. by exists l'.
Qed.

(** [ValidityAppend] takes the rows that fit; the rows before keep their
    state, the new ones have the state of the vector, and the segment is again
    ready for an append. *)
Lemma ValidityAppend_ok seg d offset vcount :
  validity_segment_ok seg → unified_ok d (offset + vcount) →
  let k := Nat.min vcount (validity_capacity (seg_size seg) - seg_count seg) in
  ∃ seg', ValidityAppend seg d offset vcount = Ok (seg', k) ∧ validity_segment_ok seg' ∧
    seg_start seg' = seg_start seg ∧ seg_size seg' = seg_size seg ∧ seg_count seg' = (seg_count seg + k)%nat ∧
    (∀ r, (r < seg_count seg)%nat → mask_bit (seg_block seg') r = mask_bit (seg_block seg) r) ∧
    (∀ i, (i < k)%nat → mask_bit (seg_block seg') (seg_count seg + i) = unified_valid d (offset + i)) ∧
    has_null (seg_stats seg') = has_null (seg_stats seg) || existsb (λ i, negb (unified_valid d (offset + i))) (seq 0 k) ∧
    (has_no_null (seg_stats seg) = true ∨ (∃ i, (i < k)%nat ∧ unified_valid d (offset + i) = true) → has_no_null (seg_stats seg') = true).
Proof.
  intros [W L C Y T] Hd k. pose proof (validity_capacity_fits (seg_size seg)) as Hfit. unfold ValidityAppend. fold (validity_capacity (seg_size seg)). rewrite min_difference_le by lia. fold k.
  assert (seg_count seg + k ≤ 64 * length (seg_block seg))%nat as Hroom by (rewrite L; unfold k; lia).
  destruct (AllValid (uni_validity d)) eqn:Hav.
  - assert (∀ i, unified_valid d i = true) as Hall by (intros i; unfold unified_valid, valid_at; unfold AllValid in Hav; by destruct (validity_mask _)).
    eexists. split; [done|]. cbn [set_segment_data seg_block seg_count seg_size seg_start seg_stats]. split_and!; try done.
    + split; cbn [set_segment_data seg_block seg_count seg_size seg_stats]; [done | done | unfold k; lia | by destruct (seg_stats seg)|]. intros r Hr. apply T. lia.
    + intros i Hi. rewrite Hall. apply T. lia.
    + assert (existsb (λ i, negb (unified_valid d (offset + i))) (seq 0 k) = false) as ->.
      { apply not_true_iff_false. intros (i & _ & Hi)%existsb_exists. by rewrite Hall in Hi. }
      rewrite orb_false_r. by destruct (seg_stats seg).
    + intros _. by destruct (seg_stats seg).
  - destruct (append_validity_loop d (offset + vcount) offset (seg_count seg) (length (seg_block seg)) (seg_block seg) (seg_stats seg) k)
      as (l' & -> & W' & L' & B); [done | done | done | done | unfold k; lia | done|].
    cbn [mbind result_bind validity_mask]. eexists. split; [done|]. cbn [set_segment_data seg_block seg_count seg_size seg_start seg_stats].
    destruct (validity_seen_flags (seg_stats seg) ((λ i, unified_valid d (offset + i)) <$> seq 0 k)) as (-> & -> & Hty & _).
    split_and!; try done.
    + split; cbn [set_segment_data seg_block seg_count seg_size seg_stats]; [done | by rewrite L' | unfold k; lia | by rewrite Hty|]. intros r Hr. rewrite B.
      rewrite decide_False by lia. apply T. rewrite <- L'. lia.
    + intros r Hr. rewrite B. by rewrite decide_False by lia.
    + intros i Hi. rewrite B. replace (seg_count seg + i - seg_count seg)%nat with i by lia. destruct (decide _) as [[_ ->]|H]; [done|].
      destruct (unified_valid d (offset + i)); [apply T; lia|]. exfalso. apply H. split; [lia | done].
    + f_equal. clear. induction (seq 0 k) as [|i js IH]; [done|]. cbn. by rewrite IH.
    + intros [->|(i & Hi & Hv)]; [done|]. apply orb_true_iff. right. apply existsb_exists. exists true. split; [|done].
      apply list_elem_of_In. apply list_elem_of_fmap. exists i. split; [done|]. apply elem_of_seq. lia.
Qed.

(** ** Reverting an append *)

Lemma memset_ones_length block from : length (memset_ones block from) = length block.
Proof. apply length_imap. Qed.

Lemma memset_ones_ok block from : words_ok block → words_ok (memset_ones block from).
Proof.
  intros W. unfold memset_ones, words_ok. apply Forall_lookup. intros i w Hw. rewrite list_lookup_imap in Hw.
  destruct (block !! i) as [v|] eqn:E; [|done]. injection Hw as <-. apply lor_range; [by eapply words_ok_lookup | apply wrapu64_range].
Qed.

Lemma memset_ones_bit block from r : (r < 64 * length block)%nat →
  mask_bit (memset_ones block from) r = if decide (8 * from ≤ r)%nat then true else mask_bit block r.
Proof.
  intros Hr. assert (r / 64 < length block)%nat as Hi by (apply Nat.Div0.div_lt_upper_bound; lia).
  destruct (lookup_lt_is_Some_2 block _ Hi) as [w Hw]. unfold mask_bit, memset_ones. rewrite list_lookup_imap, Hw.
  pose proof (Nat.div_mod_eq r 64) as Hdm. pose proof (Nat.mod_upper_bound r 64 ltac:(lia)) as Hub.
  change (bit_at (default 0 (_ <$> Some w)) (r mod 64)%nat) with (bit_at (Z.lor w (wrapu 64 (Z.shiftl MAX_ENTRY (Z.of_nat (8 * (from - 8 * (r / 64))%nat))))) (r mod 64)%nat); cbn [default].
  rewrite bit_at_lor, bit_at_wrapu64, bit_at_shiftl, bit_at_MAX. rewrite (bool_decide_true (r mod 64 < 64)%nat) by done. cbn [andb].
  destruct (decide (8 * from ≤ r)%nat) as [H|H].
  - rewrite bool_decide_true by lia. rewrite bool_decide_true by lia. by rewrite orb_true_r.
  - rewrite bool_decide_false by lia. cbn [andb]. by rewrite orb_false_r.
Qed.

Lemma set_valid_loop l a k : words_ok l → (a + k ≤ 64 * length l)%nat →
  ∃ l', foldM SetValid (mkMask (Some l) 0) (seq a k) = Ok (mkMask (Some l') 0) ∧ words_ok l' ∧ length l' = length l ∧
    ∀ q, mask_bit l' q = if decide (a ≤ q < a + k)%nat then true else mask_bit l q.
Proof.
  intros W H.
  destruct (foldM_seq SetValid (λ i m, ∃ l', m = mkMask (Some l') 0 ∧ words_ok l' ∧ length l' = length l ∧
    ∀ q, mask_bit l' q = if decide (a ≤ q < a + i)%nat then true else mask_bit l q) (mkMask (Some l) 0) a k) as (m & E & l' & -> & Hl').
  - exists l. split_and!; [done | done | done|]. intros q. by rewrite decide_False by lia.
  - intros i m Hi (l1 & -> & W1 & L1 & B1).
    destruct (SetRow_data l1 0 (a + k) (a + i) true W1) as (l2 & Hset & W2 & L2 & B2);
      [rewrite L1; unfold EntryCount, BITS_PER_VALUE; apply Nat.lt_succ_r, Nat.Div0.div_lt_upper_bound; lia | lia|].
    exists (mkMask (Some l2) 0). split; [exact Hset|]. exists l2. split_and!; [done | done | by rewrite L2|]. intros q. rewrite B2, B1.
    destruct (decide (q = a + i)%nat); [by rewrite decide_True by lia|].
    destruct (decide (a ≤ q < a + i)%nat); [by rewrite decide_True by lia | by rewrite decide_False by lia].
  - by exists l'.
Qed.

(** Reverting to [start_row] marks exactly the rows from there on as valid. *)
Lemma ValidityRevertAppend_ok seg start_row :
  words_ok (seg_block seg) → (start_row - seg_start seg ≤ 64 * length (seg_block seg))%nat →
  ∃ block, ValidityRevertAppend seg start_row = Ok block ∧ words_ok block ∧ length block = length (seg_block seg) ∧
    ∀ r, (r < 64 * length block)%nat →
      mask_bit block r = if decide (start_row - seg_start seg ≤ r)%nat then true else mask_bit (seg_block seg) r.
Proof.
  intros W Hlen. unfold ValidityRevertAppend. set (b := (start_row - seg_start seg)%nat) in *.
  pose proof (Nat.div_mod_eq b 8) as Hdm. pose proof (Nat.mod_upper_bound b 8 ltac:(lia)) as Hub.
  destruct (Nat.eqb_spec (b mod 8) 0) as [E|E].
  - eexists. split; [done|]. split_and!; [by apply memset_ones_ok | apply memset_ones_length|]. intros r Hr. rewrite memset_ones_length in Hr.
    rewrite memset_ones_bit by done. by replace (8 * (b / 8))%nat with b by lia.
  - assert (b < 64 * length (seg_block seg))%nat as Hlt.
    { destruct (decide (b = 64 * length (seg_block seg))%nat) as [Hb|]; [|lia]. exfalso. apply E. rewrite Hb.
      replace (64 * length (seg_block seg))%nat with (8 * length (seg_block seg) * 8)%nat by lia. apply Nat.Div0.mod_mul. }
    destruct (set_valid_loop (seg_block seg) b ((b / 8 + 1) * 8 - b) W) as (l' & -> & W' & L' & B'); [lia|].
    cbn [mbind result_bind validity_mask]. rewrite Nat.div_mul by lia. eexists. split; [done|].
    split_and!; [by apply memset_ones_ok | by rewrite memset_ones_length|]. intros r Hr. rewrite memset_ones_length in Hr.
    rewrite memset_ones_bit, B' by done. destruct (decide (b ≤ r)%nat) as [H|H].
    + destruct (decide (8 * (b / 8 + 1) ≤ r)%nat); [done|]. by rewrite decide_True by lia.
    + rewrite decide_False by lia. by rewrite decide_False by lia.
Qed.

Lemma copy_rows_ok {A} (target source : list A) target_offset source_offset count :
  (target_offset + count ≤ length target)%nat → (source_offset + count ≤ length source)%nat →
  ∃ t, copy_rows target target_offset source source_offset count = Ok t ∧ length t = length target ∧
    ∀ q, t !! q = if decide (target_offset ≤ q < target_offset + count)%nat then source !! (source_offset + (q - target_offset))%nat else target !! q.
Proof.
  intros Ht Hs. unfold copy_rows.
  destruct (foldM_seq (λ t i, x ← vget source (source_offset + i); vset t (target_offset + i) x)
    (λ k t, length t = length target ∧
      ∀ q, t !! q = if decide (target_offset ≤ q < target_offset + k)%nat then source !! (source_offset + (q - target_offset))%nat else target !! q)
    target 0 count) as (t & E & H).
  - split; [done|]. intros q. by rewrite decide_False by lia.
  - intros i t Hi [L B]. cbn [plus]. destruct (lookup_lt_is_Some_2 source (source_offset + i)) as [x Hx]; [lia|].
    rewrite (vget_lookup _ _ _ Hx). cbn [mbind result_bind]. rewrite vset_lt by lia. eexists. split; [done|]. split; [by rewrite length_insert|].
    intros q. destruct (decide (q = target_offset + i)%nat) as [->|Hne].
    + rewrite list_lookup_insert_eq by lia. rewrite decide_True by lia. by replace (target_offset + i - target_offset)%nat with i by lia.
    + rewrite list_lookup_insert_ne by lia. rewrite B.
      destruct (decide (target_offset ≤ q < target_offset + i)%nat); [by rewrite decide_True by lia | by rewrite decide_False by lia].
  - by exists t.
Qed.

(** * Appends *)

Section Append.
Context (pt : PhysicalType) (null_value : Z).
Hypothesis Hpt : is_numeric pt = true.

(** The statistics have a minimum and a maximum. *)
Definition bounded (s : BaseStatistics) (lo hi : Z) : Prop := numeric_view s pt (Some lo) (Some hi).

(** The values are within the statistics. *)
Definition stats_contain (s : BaseStatistics) (x : Z) : Prop := ∃ lo hi, bounded s lo hi ∧ in_interval pt (Some lo) (Some hi) x.

(** Row [i] of the vector as the block stores it. *)
Definition stored_value (d : UnifiedVectorFormat Z) (i : nat) : option Z :=
  if unified_valid d i then unified_value d i else Some null_value.

(** The valid rows below [n] have data. *)
Definition values_ok (d : UnifiedVectorFormat Z) (n : nat) : Prop :=
  unified_ok d n ∧ ∀ i, (i < n)%nat → unified_valid d i = true → is_Some (unified_value d i).

Lemma stats_update s lo hi x : bounded s lo hi →
  ∃ s', NumericStats_Update pt s x = Ok s' ∧ (∃ lo' hi', bounded s' lo' hi') ∧ stats_contain s' x ∧ (∀ y, stats_contain s y → stats_contain s' y) ∧
    ∃ u, s' = set_union s u.
Proof.
  intros V. destruct (Update_view _ _ _ _ V lo hi x eq_refl eq_refl) as (s' & H1 & V' & Hu). exists s'.
  split_and!; [done | by eexists _, _ | | | done].
  - eexists _, _. split; [exact V'|]. split; intros ? [= <-]; rewrite ?num_min_of_key, ?num_max_of_key; lia.
  - intros y (lo2 & hi2 & V2 & H2). eexists _, _. split; [exact V'|].
    assert (lo2 = lo ∧ hi2 = hi) as [-> ->].
    { destruct V as [_ _ (mn & mx & Ha & Hmn & Hmx)], V2 as [_ _ (mn2 & mx2 & Hb & Hmn2 & Hmx2)]. rewrite Ha in Hb.
      rewrite (Hmn lo), (Hmx hi), (Hmn2 lo2), (Hmx2 hi2) in * by done. by injection Hb as -> ->. }
    destruct H2 as [H2 H3]. specialize (H2 lo eq_refl). specialize (H3 hi eq_refl).
    split; intros ? [= <-]; rewrite ?num_min_of_key, ?num_max_of_key; lia.
Qed.

Lemma StandardFixedSizeAppend_ok s lo hi target base d offset n k :
  bounded s lo hi → values_ok d n → (offset + k ≤ n)%nat → (base + k ≤ length target)%nat →
  ∃ s' t, StandardFixedSizeAppend pt null_value s target base d offset k = Ok (s', t) ∧
    (∃ lo' hi', bounded s' lo' hi') ∧ (∃ u, s' = set_union s u) ∧ (∀ x, stats_contain s x → stats_contain s' x) ∧
    (∀ i x, (i < k)%nat → unified_valid d (offset + i) = true → unified_value d (offset + i) = Some x → stats_contain s' x) ∧
    length t = length target ∧
    ∀ q, t !! q = if decide (base ≤ q < base + k)%nat then stored_value d (offset + (q - base)) else target !! q.
Proof.
  intros V [Hd Hval] Hn Ht. unfold StandardFixedSizeAppend.
  set (I := λ k (st : BaseStatistics * list Z),
    (∃ lo' hi', bounded st.1 lo' hi') ∧ (∃ u, st.1 = set_union s u) ∧ (∀ x, stats_contain s x → stats_contain st.1 x) ∧
    (∀ i x, (i < k)%nat → unified_valid d (offset + i) = true → unified_value d (offset + i) = Some x → stats_contain st.1 x) ∧
    length st.2 = length target ∧
    ∀ q, st.2 !! q = if decide (base ≤ q < base + k)%nat then stored_value d (offset + (q - base)) else target !! q).
  assert (Hstep : ∀ i st x, I i st → (i < k)%nat → stored_value d (offset + i) = Some x → ∀ s', (∃ lo' hi', bounded s' lo' hi') → (∃ u, s' = set_union s u) →
    (∀ y, stats_contain st.1 y → stats_contain s' y) → (unified_valid d (offset + i) = true → stats_contain s' x) →
    I (i + 1)%nat (s', <[(base + i)%nat := x]> st.2)).
  { intros i [s1 t1] x (Hb & Hu & Hc & Hi & L & B) Hk Hx s' Hb' Hu' Hmono Hx'. unfold I. cbn [fst snd] in *. split_and!; auto.
    - intros j y Hj Hv Hy. destruct (decide (j = i)) as [->|]; [|eapply Hmono, Hi; [|done..]; lia].
      unfold stored_value in Hx. rewrite Hv in Hx. rewrite Hx in Hy. injection Hy as <-. auto.
    - by rewrite length_insert.
    - intros q. destruct (decide (q = base + i)%nat) as [->|Hne].
      + rewrite list_lookup_insert_eq by lia. rewrite decide_True by lia. by replace (base + i - base)%nat with i by lia.
      + rewrite list_lookup_insert_ne by lia. rewrite B.
        destruct (decide (base ≤ q < base + i)%nat); [by rewrite decide_True by lia | by rewrite decide_False by lia]. }
  destruct (foldM_seq (append_value pt null_value d base offset) I (s, target) 0 k) as ([s' t] & E & H).
  - unfold I. cbn [fst snd]. split_and!; [by eexists _, _ | exists (stats_union s); by destruct s | done | lia | done|].
    intros q. by rewrite decide_False by lia.
  - intros i [s1 t1] Hi HI. pose proof HI as ((lo1 & hi1 & V1) & (u1 & Hu1) & _ & _ & L1 & _). cbn [fst snd plus] in *. unfold append_value. cbn [fst snd].
    destruct (unified_get d n (offset + i) Hd ltac:(lia)) as [-> Hv]. cbn [mbind result_bind]. rewrite Nat2Z.id.
    assert (Hstore : unified_valid d (offset + i) = true → ∃ st, (x ← vget (uni_data d) (unified_index d (offset + i));
      stats ← NumericStats_Update pt s1 x; target ← vset t1 (base + i) x; Ok (stats, target)) = Ok st ∧ I (i + 1)%nat st).
    { intros Hvalid. destruct (Hval (offset + i)%nat ltac:(lia) Hvalid) as [x Hx]. unfold unified_value in Hx.
      rewrite (vget_lookup _ _ _ Hx). cbn [mbind result_bind].
      destruct (stats_update s1 lo1 hi1 x V1) as (s2 & -> & Hb & Hc & Hm & (u2 & Hu2)). cbn [mbind result_bind]. rewrite vset_lt by lia.
      cbn [mbind result_bind]. eexists. split; [done|].
      apply (Hstep i (s1, t1) x); try done; [unfold stored_value, unified_value; by rewrite Hvalid | exists u2; subst; by destruct s]. }
    destruct (AllValid (uni_validity d)) eqn:Hav.
    + apply Hstore. unfold unified_valid, valid_at. unfold AllValid in Hav. by destruct (validity_mask (uni_validity d)).
    + rewrite Hv. cbn [mbind result_bind]. destruct (unified_valid d (offset + i)) eqn:Ev; [by apply Hstore|].
      rewrite vset_lt by lia. cbn [mbind result_bind]. eexists. split; [done|].
      apply (Hstep i (s1, t1) null_value); try done; [unfold stored_value; by rewrite Ev | by eexists _, _ | by exists u1 | intros; congruence].
  - exists s', t. split; [done|]. exact H.
Qed.
End Append.
