(* ===== verification/CompressionFacts.v ===== *)
(** Facts about compressed segments: bytes of blocks, the layout of run-length
    encoded segments, reading them, and the invariant of the encoder. *)
From S2P Require Import Prelude Bits Types Stats NumericStats NumericFacts BaseStatistics StatsFacts StatsCreate StatsProps SelectionVector ValidityMask MaskFacts UncompressedSegment UncompressedAppend Compression.

(** * Blocks *)

(** The bytes from an address on. *)
Definition bytes_at (b : Block) (address : Z) (bytes : list Z) : Prop :=
  ∀ i x, bytes !! i = Some x → b !! (address + Z.of_nat i) = Some x.

Lemma load_bytes_at b address bytes : bytes_at b address bytes → load_bytes b address (length bytes) = Ok bytes.
Proof.
  revert address. induction bytes as [|x bytes IH]; intros address H; [done|]. unfold load_bytes. cbn [length]. rewrite Nat2Z.inj_succ, seqZ_cons by lia. cbn [mapR].
  pose proof (H 0%nat x eq_refl) as H0. rewrite Z.add_0_r in H0. rewrite H0. cbn [mbind result_bind].
  rewrite Z.pred_succ. fold (load_bytes b (Z.succ address) (length bytes)). rewrite IH; [done|].
  intros i y Hi. specialize (H (S i) y Hi). by replace (Z.succ address + Z.of_nat i) with (address + Z.of_nat (S i)) by lia.
Qed.

Lemma load_bytes_inv b bytes : ∀ address, load_bytes b address (length bytes) = Ok bytes → bytes_at b address bytes.
Proof.
  induction bytes as [|x bytes IH]; intros address H; [done|]. unfold load_bytes in H. cbn [length] in H. rewrite Nat2Z.inj_succ, seqZ_cons in H by lia. cbn [mapR] in H.
  destruct (b !! address) as [y|] eqn:Ey; [|done]. cbn [mbind result_bind] in H. rewrite Z.pred_succ in H. fold (load_bytes b (Z.succ address) (length bytes)) in H.
  destruct (load_bytes b (Z.succ address) (length bytes)) as [l|] eqn:El; [|done]. injection H as -> ->.
  intros [|i] z Hi; [injection Hi as <-; by rewrite Z.add_0_r|]. replace (address + Z.of_nat (S i)) with (Z.succ address + Z.of_nat i) by lia. by apply IH.
Qed.

Lemma bytes_at_app b address l1 l2 : bytes_at b address l1 → bytes_at b (address + Z.of_nat (length l1)) l2 → bytes_at b address (l1 ++ l2).
Proof.
  intros H1 H2 i x Hi. apply lookup_app_Some in Hi as [Hi|[Hle Hi]]; [by apply H1|].
  specialize (H2 _ _ Hi). by replace (address + Z.of_nat i) with (address + Z.of_nat (length l1) + Z.of_nat (i - length l1)) by lia.
Qed.

Lemma bytes_at_store_same b address bytes : bytes_at (map_seqZ address bytes ∪ b) address bytes.
Proof. intros i x Hi. rewrite lookup_union_Some_raw. left. apply lookup_map_seqZ_Some. split; [lia|]. by rewrite Z.add_simpl_l, Nat2Z.id. Qed.

Lemma bytes_at_store_other b address bytes a l :
  a + Z.of_nat (length l) ≤ address ∨ address + Z.of_nat (length bytes) ≤ a → bytes_at b a l → bytes_at (map_seqZ address bytes ∪ b) a l.
Proof.
  intros Hd H i x Hi. pose proof (lookup_lt_Some _ _ _ Hi). rewrite lookup_union_Some_raw. right. split; [|by apply H].
  apply lookup_map_seqZ_None. lia.
Qed.

Lemma bytes_at_filter b a l size : a + Z.of_nat (length l) ≤ size → bytes_at b a l → bytes_at (filter (λ kv, kv.1 < size) b) a l.
Proof. intros Hs H i x Hi. pose proof (lookup_lt_Some _ _ _ Hi). apply map_lookup_filter_Some. split; [by apply H | cbn; lia]. Qed.

Lemma store_bytes_ok b address bytes :
  0 ≤ address → address + Z.of_nat (length bytes) ≤ Storage_BLOCK_SIZE → store_bytes b address bytes = Ok (map_seqZ address bytes ∪ b).
Proof. intros H1 H2. unfold store_bytes. by rewrite (proj2 (Z.leb_le 0 address) H1), (proj2 (Z.leb_le _ _) H2). Qed.

(** ** Numbers in memory *)

(** The numbers of a type. *)
Definition in_range (T : PhysicalType) (x : Z) : Prop :=
  match num_width T with
  | Some (w, true) => - 2 ^ (w - 1) ≤ x < 2 ^ (w - 1)
  | Some (w, false) => 0 ≤ x < 2 ^ w
  | None => False
  end.

Lemma sizeof_cases T : is_numeric T = true → sizeof T = 1 ∨ sizeof T = 2 ∨ sizeof T = 4 ∨ sizeof T = 8 ∨ sizeof T = 16.
Proof. intros H. destruct T; try (vm_compute in H; discriminate H); vm_compute; tauto. Qed.

Lemma length_encode T x : Z.of_nat (length (encode_value T x)) = sizeof T.
Proof. unfold encode_value. rewrite length_write_uint. assert (0 ≤ sizeof T) by (destruct T; by vm_compute). lia. Qed.

Lemma decode_encode T x : in_range T x → decode_value T (encode_value T x) = x.
Proof.
  intros H. unfold in_range, decode_value, encode_value, write_uint, sizeof in *. destruct (num_width T) as [[w s]|] eqn:E; [|done].
  assert (w = 8 ∨ w = 16 ∨ w = 32 ∨ w = 64 ∨ w = 128) as Hw by (destruct T; try discriminate E; injection E as <- <-; tauto).
  rewrite Z2Nat.id, little_endian_to_Z_to_little_endian by (destruct_or! Hw; subst; by vm_compute).
  replace (w / 8 * 8) with w by (destruct_or! Hw; subst; done). replace (8 * (w / 8)) with w by (destruct_or! Hw; subst; done).
  unfold wraps, wrapu. rewrite Zmod_mod. destruct s; [|by apply Z.mod_small].
  rewrite Zplus_mod_idemp_l, Z.mod_small; [lia|]. assert (2 ^ w = 2 * 2 ^ (w - 1)) by (rewrite <- Z.pow_succ_r by lia; f_equal; lia). lia.
Qed.

Lemma Load_at T b address x : in_range T x → bytes_at b address (encode_value T x) → Load T b address = Ok x.
Proof.
  intros Hx Hb. unfold Load. pose proof (length_encode T x). replace (Z.to_nat (sizeof T)) with (length (encode_value T x)) by lia.
  rewrite (load_bytes_at _ _ _ Hb). cbn. by rewrite decode_encode.
Qed.

(** * Layout *)

(** Entries are runs: a value and the number of its rows. *)
Abbreviation run := (Z * Z)%type.

Definition run_ok (T : PhysicalType) (r : run) : Prop := in_range T r.1 ∧ 0 ≤ r.2 ≤ RLE_COUNT_MAX.

Definition expand (runs : list run) : list Z := concat ((λ r, replicate (Z.to_nat r.2) r.1) <$> runs).

Lemma expand_app l1 l2 : expand (l1 ++ l2) = expand l1 ++ expand l2.
Proof. unfold expand. by rewrite fmap_app, concat_app. Qed.
Lemma expand_cons r l : expand (r :: l) = replicate (Z.to_nat r.2) r.1 ++ expand l.
Proof. done. Qed.
Lemma expand_single r : expand [r] = replicate (Z.to_nat r.2) r.1.
Proof. unfold expand. cbn. apply app_nil_r. Qed.

(** The runs in a block whose counts start at [counts]. *)
Definition runs_at (T : PhysicalType) (b : Block) (counts : Z) (runs : list run) : Prop :=
  ∀ i r, runs !! i = Some r →
    bytes_at b (RLE_HEADER_SIZE + sizeof T * Z.of_nat i) (encode_value T r.1) ∧ bytes_at b (counts + 2 * Z.of_nat i) (encode_value UINT16 r.2).

(** A segment that was flushed. *)
Definition stored (T : PhysicalType) (b : Block) (runs : list run) : Prop :=
  ∃ counts, 0 ≤ counts < 2 ^ 32 ∧ bytes_at b 0 (encode_value UINT64 counts) ∧ runs_at T b counts runs.

Lemma runs_at_prefix T b counts l1 l2 : runs_at T b counts (l1 ++ l2) → runs_at T b counts l1.
Proof. intros H i r Hi. apply H. by apply lookup_app_l_Some. Qed.

Lemma count_in_range c : 0 ≤ c ≤ RLE_COUNT_MAX → in_range UINT16 c.
Proof. unfold RLE_COUNT_MAX, in_range. cbn. lia. Qed.

(** * Reading runs *)

Section Scans.
Context (T : PhysicalType) (b : Block) (runs : list run) (counts : Z).
Context (Hat : runs_at T b counts runs) (Hok : Forall (run_ok T) runs) (Hpos : Forall (λ r, 0 < r.2) runs).

(** The scan stands at row [n]. *)
Definition at_row (st : RLEScanState) (n : nat) : Prop :=
  rle_count_offset st = counts ∧ 0 ≤ entry_pos st ∧ 0 ≤ position_in_entry st ∧
  Z.of_nat n = Z.of_nat (length (expand (take (Z.to_nat (entry_pos st)) runs))) + position_in_entry st ∧
  match runs !! Z.to_nat (entry_pos st) with
  | Some r => position_in_entry st < r.2
  | None => position_in_entry st = 0 ∧ Z.to_nat (entry_pos st) = length runs
  end.

(** The run of a row. *)
Lemma at_row_run st n : at_row st n → (n < length (expand runs))%nat →
  ∃ r, runs !! Z.to_nat (entry_pos st) = Some r ∧ run_ok T r ∧ index_pointer b st = Ok r.2 ∧ data_pointer T b st = Ok r.1.
Proof.
  intros (Hc & He & Hp & Hn & Hr) Hlt. destruct (runs !! Z.to_nat (entry_pos st)) as [r|] eqn:Er.
  - exists r. split; [done|]. pose proof (proj1 (Forall_lookup _ _) Hok _ _ Er) as Hrun. split; [done|]. destruct (Hat _ _ Er) as [Hv Hk].
    rewrite Z2Nat.id in Hv, Hk by done. split; [|by apply Load_at, Hv; apply Hrun]. unfold index_pointer. rewrite Hc. apply Load_at, Hk. by apply count_in_range, Hrun.
  - destruct Hr as [Hr1 Hr2]. rewrite Hr2, take_ge in Hn by lia. lia.
Qed.

Lemma take_run i r : runs !! i = Some r → length (expand (take (S i) runs)) = (length (expand (take i runs)) + Z.to_nat r.2)%nat.
Proof. intros Hi. rewrite (take_S_r _ _ _ Hi), expand_app, length_app, expand_single, length_replicate. done. Qed.

Lemma expand_lookup i r k : runs !! i = Some r → (k < Z.to_nat r.2)%nat → expand runs !! (length (expand (take i runs)) + k)%nat = Some r.1.
Proof.
  intros Hi Hk. assert (expand runs = expand (take i runs) ++ expand (r :: drop (S i) runs)) as -> by (by rewrite <- expand_app, take_drop_middle).
  rewrite lookup_app_r by lia. rewrite expand_cons, Nat.add_comm, Nat.add_sub.
  rewrite lookup_app_l by (by rewrite length_replicate). by apply lookup_replicate_2.
Qed.

(** Several rows of the same run. *)
Lemma advance_ok st n k r : at_row st n → runs !! Z.to_nat (entry_pos st) = Some r → 0 < k → position_in_entry st + k ≤ r.2 →
  ∃ st', advance b st k = Ok st' ∧ at_row st' (n + Z.to_nat k).
Proof.
  intros Hat0 Er Hk Hle. pose proof Hat0 as (Hc & He & Hp & Hn & Hr). rewrite Er in Hr. destruct (Hat _ _ Er) as [_ Hkb]. rewrite Z2Nat.id in Hkb by done.
  pose proof (proj1 (Forall_lookup _ _) Hok _ _ Er) as [_ Hrun].
  unfold advance, ExhaustedRun, index_pointer. cbn [rle_count_offset entry_pos position_in_entry]. rewrite Hc, (Load_at UINT16 b _ r.2) by (done || by apply count_in_range).
  cbn [mbind result_bind]. eexists. split; [done|]. destruct (Z.leb_spec r.2 (position_in_entry st + k)).
  - unfold ForwardToNextRun, at_row. cbn [rle_count_offset entry_pos position_in_entry]. replace (Z.to_nat (entry_pos st + 1)) with (S (Z.to_nat (entry_pos st))) by lia.
    rewrite (take_run _ _ Er). split_and!; [done | lia | lia | lia|]. destruct (runs !! S _) as [r'|] eqn:E'; [exact (proj1 (Forall_lookup _ _) Hpos _ _ E')|].
    apply lookup_ge_None in E'. pose proof (lookup_lt_Some _ _ _ Er). split; [done | lia].
  - unfold at_row. cbn [rle_count_offset entry_pos position_in_entry]. rewrite Er. split_and!; try done; lia.
Qed.

Lemma at_row_value st n : at_row st n → (n < length (expand runs))%nat →
  ∃ x st', expand runs !! n = Some x ∧ data_pointer T b st = Ok x ∧ advance b st 1 = Ok st' ∧ at_row st' (S n).
Proof.
  intros H Hlt. destruct (at_row_run st n H Hlt) as (r & Er & Hrun & _ & Hd). pose proof H as (Hc & He & Hp & Hn & Hr). rewrite Er in Hr.
  destruct (advance_ok st n 1 r H Er) as (st' & Ea & H'); [lia | lia|]. exists r.1, st'. split_and!; [|done | done | by rewrite Z2Nat.inj_pos, Nat.add_1_r in H'].
  replace n with (length (expand (take (Z.to_nat (entry_pos st)) runs)) + Z.to_nat (position_in_entry st))%nat by lia. apply (expand_lookup _ _ _ Er). lia.
Qed.

Lemma RLESkip_ok k st n : at_row st n → (n + k ≤ length (expand runs))%nat → ∃ st', RLESkip b st k = Ok st' ∧ at_row st' (n + k).
Proof.
  unfold RLESkip. intros H Hk. destruct (foldM_seq (λ st _, advance b st 1) (λ i st, at_row st (n + i)) st 0 k) as (st' & E & H').
  - by rewrite Nat.add_0_r.
  - intros i s Hi Hs. destruct (at_row_value s (n + i) Hs) as (_ & s' & _ & _ & E & H'); [lia|]. exists s'. split; [done|]. by replace (n + (i + 1))%nat with (S (n + i)) by lia.
  - by exists st'.
Qed.

(** The rows that are read, wherever runs end. *)
Lemma RLEScan_rows st n scan_count res off :
  at_row st n → (n + scan_count ≤ length (expand runs))%nat → (off + scan_count ≤ length res)%nat →
  ∃ st' data, foldM (λ acc i, x ← data_pointer T b acc.1; data ← vset acc.2 (off + i) x; st ← advance b acc.1 1; Ok (st, data)) (st, res) (seq 0 scan_count) = Ok (st', data) ∧
    at_row st' (n + scan_count) ∧ data = take off res ++ take scan_count (drop n (expand runs)) ++ drop (off + scan_count) res.
Proof.
  intros H Hn Ho. set (I := λ i (acc : RLEScanState * list Z), at_row acc.1 (n + i) ∧ acc.2 = take off res ++ take i (drop n (expand runs)) ++ drop (off + i) res).
  edestruct (foldM_seq (λ acc i, x ← data_pointer T b acc.1; data ← vset acc.2 (off + i) x; st ← advance b acc.1 1; Ok (st, data)) I (st, res) 0 scan_count) as ([st' data] & E & H1 & H2).
  - split; cbn [fst snd]; [by rewrite Nat.add_0_r|]. rewrite Nat.add_0_r, take_0. cbn [app]. by rewrite take_drop.
  - intros i [s l] Hi [Hs Hl]. cbn [fst snd plus] in *. destruct (at_row_value s (n + i) Hs) as (x & s' & Ex & -> & Ea & H'); [lia|]. cbn [mbind result_bind].
    assert (length (take off res ++ take i (drop n (expand runs))) = (off + i)%nat) as Hlen by (rewrite length_app, !length_take, length_drop; lia).
    rewrite vset_lt by (subst l; rewrite !length_app, !length_take, !length_drop; lia). cbn [mbind result_bind]. rewrite Ea. cbn [mbind result_bind]. eexists. split; [done|].
    split; cbn [fst snd]; [by replace (n + (i + 1))%nat with (S (n + i)) by lia|]. subst l. rewrite app_assoc, insert_app_r_alt by lia. rewrite Hlen, Nat.sub_diag.
    destruct (drop (off + i) res) as [|y rest] eqn:Ed; [apply (f_equal length) in Ed; rewrite length_drop in Ed; cbn in Ed; lia|]. cbn.
    assert (drop (off + (i + 1)) res = rest) as -> by (rewrite Nat.add_assoc, <- drop_drop, Ed; by rewrite drop_0 || done).
    rewrite Nat.add_1_r, (take_S_r _ _ x) by (by rewrite lookup_drop). by rewrite <- !app_assoc.
  - by exists st', data.
Qed.

(** [RLEScan] and [RLEScanPartial]: also when the vector is a single run. *)
Lemma RLEScanPartialInternal_ok entire st n scan_count res off :
  at_row st n → (0 < scan_count)%nat → (n + scan_count ≤ length (expand runs))%nat → (off + scan_count ≤ length res)%nat →
  (entire = true → off = O ∧ length res = scan_count) →
  ∃ st', RLEScanPartialInternal T entire b st scan_count res off = Ok (st', take off res ++ take scan_count (drop n (expand runs)) ++ drop (off + scan_count) res) ∧
    at_row st' (n + scan_count).
Proof.
  intros H Hs Hn Ho Hent. unfold RLEScanPartialInternal. destruct (at_row_run st n H) as (r & Er & Hrun & -> & Hd); [lia|]. cbn [mbind result_bind].
  destruct (CanEmitConstantVector entire (position_in_entry st) r.2 scan_count) eqn:Ec.
  - unfold CanEmitConstantVector in Ec. destruct entire; [|done]. destruct (Hent eq_refl) as [-> Hres]. destruct (scan_count =? STANDARD_VECTOR_SIZE)%nat; [|done]. cbn [negb] in Ec.
    pose proof H as (_ & _ & Hp & Hrow & Hr). rewrite Er in Hr. destruct Hrun as [_ Hc]. unfold RLE_COUNT_MAX in Hc.
    unfold wrapu in Ec. change (2 ^ 64) with 18446744073709551616 in Ec. rewrite Z.mod_small in Ec by lia. apply Z.leb_le in Ec.
    destruct (advance_ok st n (Z.of_nat scan_count) r H Er) as (st' & Ea & H'); [lia | lia|]. unfold RLEScanConstant. rewrite Hd. cbn [mbind result_bind]. rewrite Ea. cbn [mbind result_bind].
    rewrite Nat2Z.id in H'. exists st'. split; [|done]. do 2 f_equal. rewrite take_0, (drop_ge res), app_nil_r by lia. cbn. symmetry. apply list_eq. intros i.
    destruct (decide (i < scan_count)%nat) as [Hi|Hi].
    + rewrite lookup_take_lt, lookup_drop, lookup_replicate_2 by done.
      replace (n + i)%nat with (length (expand (take (Z.to_nat (entry_pos st)) runs)) + (Z.to_nat (position_in_entry st) + i))%nat by lia. apply (expand_lookup _ _ _ Er). lia.
    + rewrite lookup_take_ge by lia. symmetry. apply lookup_replicate_None. lia.
  - destruct (RLEScan_rows st n scan_count res off H Hn Ho) as (st' & data & E & H' & ->). by exists st'.
Qed.
End Scans.

Lemma RLEInitScan_ok T b runs : stored T b runs → Forall (λ r, 0 < r.2) runs →
  ∃ counts st, RLEInitScan b = Ok st ∧ runs_at T b counts runs ∧ at_row runs counts st 0.
Proof.
  intros (counts & Hc & Hh & Hat) Hpos. exists counts, (mkRLEScan 0 0 counts). unfold RLEInitScan.
  assert (in_range UINT64 counts) as Hr by (split; [lia|]; transitivity (2 ^ 32); [lia | done]). rewrite (Load_at UINT64 b 0 counts Hr Hh). cbn [mbind result_bind]. unfold wrapu. rewrite Z.mod_small by lia.
  split_and!; [done | done|]. unfold at_row. cbn [rle_count_offset entry_pos position_in_entry]. split_and!; [done | done | done | done|].
  destruct runs as [|r runs]; [done|]. by apply Forall_cons in Hpos as [? _].
Qed.

Lemma stored_prefix T b l1 l2 : stored T b (l1 ++ l2) → stored T b l1.
Proof. intros (counts & ? & ? & H). exists counts. split_and!; [lia.. | done | by eapply runs_at_prefix]. Qed.

Lemma RLEFetchRow_ok T b runs n x res i : stored T b runs → Forall (run_ok T) runs → Forall (λ r, 0 < r.2) runs → expand runs !! n = Some x → (i < length res)%nat →
  RLEFetchRow T b n res i = Ok (<[i := x]> res).
Proof.
  intros Hst Hr Hpos Hx Hi. pose proof (lookup_lt_Some _ _ _ Hx). destruct (RLEInitScan_ok T b runs Hst Hpos) as (counts & st & E & Hat & H0). unfold RLEFetchRow. rewrite E. cbn [mbind result_bind].
  destruct (RLESkip_ok T b runs counts Hat Hr Hpos n st 0 H0) as (st' & -> & H'); [lia|]. cbn [mbind result_bind].
  destruct (at_row_value T b runs counts Hat Hr Hpos st' n H') as (y & _ & Hy & -> & _); [lia|]. cbn [mbind result_bind]. rewrite vset_lt by done. congruence.
Qed.

(** * Flushing a segment *)

Lemma bytes_at_app_iff b a l1 l2 : bytes_at b a (l1 ++ l2) ↔ bytes_at b a l1 ∧ bytes_at b (a + Z.of_nat (length l1)) l2.
Proof.
  split; [|by intros [? ?]; apply bytes_at_app]. intros H. split; intros i x Hi; [by apply H, lookup_app_l_Some|].
  rewrite <- Z.add_assoc, <- Nat2Z.inj_add. apply H. by rewrite lookup_app_r, Nat.add_comm, Nat.add_sub by lia.
Qed.

(** An array of numbers. *)
Lemma bytes_at_values T b cs a : bytes_at b a (concat (encode_value T <$> cs)) ↔ ∀ i c, cs !! i = Some c → bytes_at b (a + sizeof T * Z.of_nat i) (encode_value T c).
Proof.
  revert a. induction cs as [|c cs IH]; intros a; [split; [done | by intros _ i x Hi]|]. cbn [fmap list_fmap concat]. rewrite bytes_at_app_iff, IH, length_encode. split.
  - intros [H1 H2] [|i] d Hi; [injection Hi as <-; by rewrite Z.mul_0_r, Z.add_0_r|]. specialize (H2 i d Hi). by replace (a + sizeof T * Z.of_nat (S i)) with (a + sizeof T + sizeof T * Z.of_nat i) by lia.
  - intros H. split; [specialize (H 0%nat c eq_refl); by rewrite Z.mul_0_r, Z.add_0_r in H|]. intros i d Hi. specialize (H (S i) d Hi). by replace (a + sizeof T + sizeof T * Z.of_nat i) with (a + sizeof T * Z.of_nat (S i)) by lia.
Qed.

Lemma length_values T (cs : list Z) : Z.of_nat (length (concat (encode_value T <$> cs))) = sizeof T * Z.of_nat (length cs).
Proof. induction cs as [|c cs IH]; [cbn; lia|]. cbn [fmap list_fmap concat length]. rewrite length_app, Nat2Z.inj_add, IH, length_encode. lia. Qed.

Lemma AlignValue_bounds n : n ≤ AlignValue n < n + 8.
Proof. unfold AlignValue. pose proof (Z.div_mod (n + 7) 8). pose proof (Z.mod_pos_bound (n + 7) 8). lia. Qed.

Lemma AlignValue_mono n m : n ≤ m → AlignValue n ≤ AlignValue m.
Proof. intros H. unfold AlignValue. apply Z.mul_le_mono_nonneg_r; [done|]. apply Z.div_le_mono; lia. Qed.

Section Layout.
Context (T : PhysicalType) (Hnum : is_numeric T = true).
Abbreviation Max := (MaxRLECount T).
Abbreviation size := (sizeof T).
Abbreviation original := (RLE_HEADER_SIZE + Max * size).

(** Values and counts fit in a block, and aligning a full segment moves nothing. *)
Lemma layout_bounds : 0 < size ≤ 16 ∧ 0 < Max ∧ original + 2 * Max ≤ Storage_BLOCK_SIZE ∧ AlignValue original = original.
Proof. destruct T; try (vm_compute in Hnum; discriminate Hnum); vm_compute; by repeat split. Qed.

(** A run is written behind the others. *)
Lemma write_run b runs (r : run) : runs_at T b original runs → Z.of_nat (length runs) < Max →
  ∃ b1 b2, Store T b (RLE_HEADER_SIZE + Z.of_nat (length runs) * size) r.1 = Ok b1 ∧ Store UINT16 b1 (original + Z.of_nat (length runs) * 2) r.2 = Ok b2 ∧
    runs_at T b2 original (runs ++ [r]).
Proof.
  intros Hat Hlt. destruct layout_bounds as (Hs & Hm & Hb & _). set (n := Z.of_nat (length runs)) in *. assert (0 ≤ n) by lia.
  assert (∀ i, 0 ≤ i < Max → RLE_HEADER_SIZE + size * i + size ≤ original) as Hslot by (intros; nia).
  pose proof (length_encode T r.1) as L1. assert (Z.of_nat (length (encode_value UINT16 r.2)) = 2) as L2 by apply length_encode.
  pose proof (Hslot n ltac:(lia)) as Hslot_n. assert (0 ≤ n * size) by nia. unfold RLE_HEADER_SIZE in *.
  unfold Store. rewrite store_bytes_ok by (rewrite ?L1; lia). eexists _, _. split; [done|]. rewrite store_bytes_ok by (rewrite ?L2; lia). split; [done|].
  assert (∀ i (x : run), (i < length runs)%nat → bytes_at b (8 + size * Z.of_nat i) (encode_value T x.1) ∧ bytes_at b (8 + Max * size + 2 * Z.of_nat i) (encode_value UINT16 x.2) →
    bytes_at (map_seqZ (8 + Max * size + n * 2) (encode_value UINT16 r.2) ∪ (map_seqZ (8 + n * size) (encode_value T r.1) ∪ b)) (8 + size * Z.of_nat i) (encode_value T x.1) ∧
    bytes_at (map_seqZ (8 + Max * size + n * 2) (encode_value UINT16 r.2) ∪ (map_seqZ (8 + n * size) (encode_value T r.1) ∪ b)) (8 + Max * size + 2 * Z.of_nat i) (encode_value UINT16 x.2)) as Hold.
  { intros i x Hi [H1 H2]. assert (Z.of_nat i < n) by (unfold n; lia). pose proof (Hslot (Z.of_nat i) ltac:(lia)). pose proof (length_encode T x.1). assert (Z.of_nat (length (encode_value UINT16 x.2)) = 2) by apply length_encode.
    assert (size * Z.of_nat i + size ≤ n * size) by nia.
    split; (apply bytes_at_store_other; [lia|]; apply bytes_at_store_other; [lia | done]). }
  intros i x Hi. apply lookup_app_Some in Hi as [Hi|[Hge Hi]]; [apply Hold; [by eapply lookup_lt_Some | by apply Hat]|].
  apply list_lookup_singleton_Some in Hi as [Hi <-]. assert (i = length runs) as -> by lia. fold n. unfold RLE_HEADER_SIZE. split.
  - apply bytes_at_store_other; [lia|]. rewrite (Z.mul_comm size). apply bytes_at_store_same.
  - rewrite (Z.mul_comm 2). apply bytes_at_store_same.
Qed.

(** The counts are moved behind the values without losing a byte. *)
Lemma compact_runs b runs : runs_at T b original runs → Z.of_nat (length runs) ≤ Max →
  let n := Z.of_nat (length runs) in
  let minimal := AlignValue (RLE_HEADER_SIZE + size * n) in
  ∃ b1 b2, memmove b minimal original (2 * n) = Ok b1 ∧ Store UINT64 b1 0 minimal = Ok b2 ∧
    stored T (filter (λ kv, kv.1 < minimal + 2 * n) b2) runs ∧ minimal + 2 * n ≤ Storage_BLOCK_SIZE.
Proof.
  intros Hat Hle n minimal. destruct layout_bounds as (Hs & Hm & Hb & Ha). pose proof (AlignValue_bounds (RLE_HEADER_SIZE + size * n)) as Hmin. fold minimal in Hmin.
  assert (minimal ≤ original) as Hmo by (rewrite <- Ha; apply AlignValue_mono; nia). assert (0 ≤ size * n) by nia.
  set (bytes := concat (encode_value UINT16 <$> runs.*2)). assert (length bytes = Z.to_nat (2 * n)) as Lb by (pose proof (length_values UINT16 runs.*2) as Lb; rewrite length_fmap in Lb; change (sizeof UINT16) with 2 in Lb; unfold bytes; lia).
  assert (bytes_at b original bytes) as Hbytes.
  { apply (bytes_at_values UINT16). intros i c Hi. apply list_lookup_fmap_Some in Hi as (r & -> & Hi). by apply Hat. }
  unfold memmove. rewrite <- Lb, (load_bytes_at _ _ _ Hbytes). cbn [mbind result_bind]. unfold RLE_HEADER_SIZE in *. rewrite store_bytes_ok by lia. eexists _, _. split; [done|].
  pose proof (length_encode UINT64 minimal) as L8. change (sizeof UINT64) with 8 in L8. unfold Store. rewrite store_bytes_ok by (rewrite ?L8; unfold Storage_BLOCK_SIZE; lia). split; [done|].
  split; [|lia]. exists minimal. unfold Storage_BLOCK_SIZE in Hb. split; [lia|]. split; [apply bytes_at_filter; [lia | apply bytes_at_store_same]|].
  intros i r Hi. pose proof (lookup_lt_Some _ _ _ Hi). pose proof (length_encode T r.1). assert (Z.of_nat (length (encode_value UINT16 r.2)) = 2) by apply length_encode.
  assert (size * Z.of_nat i + size ≤ size * n) by nia. unfold RLE_HEADER_SIZE. split.
  - apply bytes_at_filter; [lia|]. apply bytes_at_store_other; [lia|]. apply bytes_at_store_other; [lia|]. by apply Hat.
  - apply bytes_at_filter; [lia|]. apply bytes_at_store_other; [lia|].
    apply (proj1 (bytes_at_values UINT16 _ runs.*2 minimal)); [apply bytes_at_store_same | by rewrite list_lookup_fmap, Hi].
Qed.
End Layout.

(** * Runs of rows *)

(** The value of the last run, [None] while all rows are NULL, and its number of
    rows.  A run whose number of rows is a multiple of the largest count must not
    be followed by another value. *)
Definition run_step (T : PhysicalType) (r : option Z * Z) (row : option Z) : option (option Z * Z) :=
  match row, r.1 with
  | None, v => Some (v, r.2 + 1)
  | Some x, None => Some (Some x, r.2 + 1)
  | Some x, Some v =>
      if native_eq T v x then Some (Some v, r.2 + 1) else if r.2 mod RLE_COUNT_MAX =? 0 then None else Some (Some x, 1)
  end.

Fixpoint run_safe (T : PhysicalType) (r : option Z * Z) (rows : list (option Z)) : bool :=
  match rows with
  | [] => true
  | row :: rows => match run_step T r row with Some r => run_safe T r rows | None => false end
  end.

(** Fewer rows than the largest count are always safe. *)
Lemma short_rows_safe T rows : ∀ r, 0 ≤ r.2 → (is_Some r.1 → 0 < r.2) → r.2 + Z.of_nat (length rows) < RLE_COUNT_MAX → run_safe T r rows = true.
Proof.
  unfold RLE_COUNT_MAX. induction rows as [|row rows IH]; intros [v n] Hn Hv Hlt; [done|]. cbn [run_safe run_step fst snd length] in *.
  destruct row as [x|]; [destruct v as [v|]|].
  - specialize (Hv (mk_is_Some _ _ eq_refl)). unfold run_step. cbn [fst snd]. destruct (native_eq T v x); [apply IH; cbn; intros; lia|]. unfold RLE_COUNT_MAX. rewrite Z.mod_small by lia.
    destruct (Z.eqb_spec n 0); [lia|]. apply IH; cbn; intros; lia.
  - apply IH; cbn; intros; lia.
  - apply IH; cbn; intros; lia.
Qed.

(** * The encoder *)

Section Encoder.
Context (type : LogicalType) (Hok : type_ok type) (Hkind : GetStatsType type = NUMERIC_STATS).
Abbreviation T := (InternalType type).
Abbreviation Max := (MaxRLECount T).
Abbreviation size := (sizeof T).
Abbreviation num x := (V_num type (T, x)).

(** ** Statistics *)

Definition stats_ok (s : BaseStatistics) : Prop :=
  stats_wf s ∧ stats_type s = type ∧ has_no_null s = true ∧ ∃ lo hi, numeric_view s T (Some lo) (Some hi).

Lemma type_numeric : is_numeric T = true.
Proof. destruct (updates_cover_tightly type [] Hok Hkind) as (e & s & x & y & a & c & _ & V & _). by apply (view_numeric _ _ _ _ V). Qed.

Lemma CreateEmpty_stats : ∃ s, CreateEmpty type = Ok s ∧ stats_ok s.
Proof.
  destruct (updates_cover_tightly type [] Hok Hkind) as (e & s & x & y & a & c & Ee & V & [= <-] & W & _). exists e. split; [done|].
  destruct (CreateEmpty_valid type Hok) as (e' & E' & _ & Ht & Hn); [by rewrite Hkind|]. rewrite Ee in E'. injection E' as <-. split_and!; eauto.
Qed.

Lemma covers_same s x y : stats_ok s → Equals T x y = true → covers s (num x) → covers s (num y).
Proof.
  intros (_ & _ & Hn & lo & hi & V) He Hx. apply (covers_interval _ _ _ _ _ _ V) in Hx. rewrite Equals_key in He. apply Z.eqb_eq in He.
  eapply covers_intro; [exact V | done|]. unfold in_interval in *. by rewrite <- He.
Qed.

Lemma Update_stats s x : stats_ok s →
  ∃ s', NumericStats_Update T s x = Ok s' ∧ stats_ok s' ∧ covers s' (num x) ∧ ∀ y, covers s (num y) → covers s' (num y).
Proof.
  intros (W & Ht & Hn & lo & hi & V). destruct (stats_update T type_numeric s lo hi x V) as (s' & E & (lo' & hi' & V') & (l & h & V2 & Hx) & Hm & (u & ->)). exists (set_union s u). split; [done|].
  assert (has_no_null (set_union s u) = true) as Hn' by (by destruct s). split; [|split].
  - split; [|split_and!; [by rewrite set_union_type | done | by eexists _, _]]. apply (leaf_created type); [by left | by rewrite set_union_type | |].
    + apply stats_wf_eq in W as [[Hs' _] _]. unfold node_shape in Hs'. rewrite Ht, Hkind in Hs'. by destruct s.
    + unfold node_data. rewrite set_union_type, Ht, Hkind. eauto.
  - by eapply covers_intro.
  - intros y Hy. apply (covers_interval _ _ _ _ _ _ V) in Hy. destruct (Hm y) as (l' & h' & V3 & Hy'); [by eexists _, _|]. by eapply covers_intro.
Qed.

Lemma IsConstant_stats s : stats_ok s →
  ∃ c, IsConstant s = Ok c ∧ (c = true → ∃ x, GetMin T s = Ok x ∧ ∀ y, covers s (num y) → Equals T x y = true).
Proof.
  intros (W & Ht & Hn & lo & hi & V). unfold IsConstant. rewrite bool_decide_false by (apply kind_not_validity; by rewrite Ht, Hkind). rewrite Ht, Hkind.
  unfold NumericStats_IsConstant. rewrite (Max_view _ _ _ _ V hi eq_refl), (Min_view _ _ _ _ V lo eq_refl), Ht. cbn [mbind result_bind].
  unfold ValueOperations_LessThanEquals. rewrite numeric_GreaterThan, GreaterThan_key by (done || apply type_numeric). eexists. split; [done|]. intros Hc. apply negb_true_iff, Z.ltb_ge in Hc.
  exists lo. split.
  - unfold GetMin. rewrite (Min_view _ _ _ _ V lo eq_refl), Ht. cbn. unfold union_get. cbn [fst snd]. by rewrite bool_decide_true.
  - intros y Hy. apply (covers_interval _ _ _ _ _ _ V) in Hy as [H1 H2]. specialize (H1 lo eq_refl). specialize (H2 hi eq_refl). rewrite Equals_key. lia.
Qed.

(** ** What segments hold *)

(** Values that stand for rows; a NULL row may have any. *)
Definition agree (values : list Z) (rows : list (option Z)) : Prop := Forall2 (λ v r, ∀ x, r = Some x → Equals T v x = true) values rows.
Definition covered (s : BaseStatistics) (rows : list (option Z)) : Prop := ∀ x, Some x ∈ rows → covers s (num x).

(** Only the last runs may be empty. *)
Definition readable (runs : list run) : Prop := ∃ good rest, runs = good ++ rest ∧ Forall (λ r, 0 < r.2) good ∧ expand rest = [].

(** A block of runs that stand for the rows. *)
Definition rle_holds (b : Block) (rows : list (option Z)) : Prop :=
  ∃ runs, stored T b runs ∧ Forall (run_ok T) runs ∧ readable runs ∧ agree (expand runs) rows.

(** ** Checkpoints

    [holds] is what the blocks of a compression function hold. *)

Section Checkpoints.
Context (holds : Block → list (option Z) → Prop).

Record pointer_holds (p : DataPointer) (rows : list (option Z)) : Prop := {
  ph_count : tuple_count p = Z.of_nat (length rows);
  ph_stats : stats_ok (pointer_stats p);
  ph_covered : covered (pointer_stats p) rows;
  ph_data : match compression_type p with
    | COMPRESSION_CONSTANT => ∃ x, GetMin T (pointer_stats p) = Ok x ∧ ∀ y, Some y ∈ rows → Equals T x y = true
    | _ => holds (pointer_block p) rows
    end;
}.

Record checkpoint_holds (start : Z) (c : ColumnCheckpointState) (rss : list (list (option Z))) : Prop := {
  ch_start : row_group_start c = start;
  ch_pointers : Forall2 pointer_holds (data_pointers c) rss;
  ch_next : next_row_start c = start + Z.of_nat (length (concat rss));
  ch_starts : ∀ i p, data_pointers c !! i = Some p → row_start p = start + Z.of_nat (length (concat (take i rss)));
  ch_global : stats_wf (global_stats c) ∧ stats_type (global_stats c) = type ∧ covered (global_stats c) (concat rss);
}.

Lemma empty_checkpoint start global : stats_wf global → stats_type global = type → checkpoint_holds start (mkCheckpoint global start []) [].
Proof.
  intros Wg Tg. split; cbn [row_group_start data_pointers global_stats]; try done; [unfold next_row_start; cbn; lia | split_and!; [done | done|]; by intros x Hx%elem_of_nil].
Qed.

Lemma Checkpoint_FlushSegment_ok function start c rss seg segment_size rows :
  checkpoint_holds start c rss → cs_rows seg = Z.of_nat (length rows) → stats_ok (cs_stats seg) → covered (cs_stats seg) rows → function ≠ COMPRESSION_CONSTANT →
  holds (filter (λ kv, kv.1 < segment_size) (cs_block seg)) rows →
  ∃ c' rss', Checkpoint_FlushSegment function c seg segment_size = Ok c' ∧ checkpoint_holds start c' rss' ∧ concat rss' = concat rss ++ rows.
Proof.
  intros [C1 C2 C3 C4 (W & Ht & C5)] Hn Hs Hc Hf Hst. unfold Checkpoint_FlushSegment. destruct (Z.eqb_spec (cs_rows seg) 0) as [E|_].
  { exists c, rss. split; [done|]. split; [by split|]. destruct rows; [by rewrite app_nil_r | cbn in Hn; lia]. }
  destruct (Merge_ok (global_stats c) (cs_stats seg) W) as (g & -> & Wg & Tg & Hgc); [apply Hs | by rewrite Ht; apply Hs|]. cbn [mbind result_bind].
  destruct (IsConstant_stats _ Hs) as (k & -> & Hk). cbn [mbind result_bind].
  eexists _, (rss ++ [rows]). split; [done|]. split; [|by rewrite concat_app; cbn; rewrite app_nil_r].
  set (p := if k then _ else _). assert (pointer_holds p rows ∧ row_start p = next_row_start c ∧ tuple_count p = Z.of_nat (length rows)) as (Hp & Hps & Hpc).
  { unfold p. destruct k; (split; [|done]); split; cbn; try done; [|by destruct function]. destruct (Hk eq_refl) as (x & Ex & Hx). exists x. split; [done|]. intros y Hy. by apply Hx, Hc. }
  pose proof (Forall2_length _ _ _ C2) as Hlen. split; cbn [row_group_start data_pointers global_stats].
  - done.
  - apply Forall2_app; [done | by constructor].
  - unfold next_row_start. cbn [data_pointers]. rewrite last_snoc, Hps, Hpc, C3, concat_app, length_app. cbn. rewrite app_nil_r. lia.
  - intros i q Hi. apply lookup_app_Some in Hi as [Hi|[Hge Hi]].
    + rewrite take_app_le by (apply lookup_lt_Some in Hi; lia). by apply C4.
    + apply list_lookup_singleton_Some in Hi as [Hi <-]. by rewrite take_app_length' by lia; rewrite Hps.
  - split_and!; [done | by rewrite Tg|]. intros x Hx. rewrite concat_app in Hx. apply Hgc. apply elem_of_app in Hx as [Hx|Hx]; [left; by apply C5 | right; apply Hc]. cbn in Hx. by rewrite app_nil_r in Hx.
Qed.

(** What is read from a checkpoint, when blocks are read correctly. *)
Lemma pointer_FetchRow_ok fetch_row p rows i x : pointer_holds p rows → rows !! i = Some (Some x) →
  (∀ b, holds b rows → ∃ y, fetch_row b i [0] 0%nat = Ok [y] ∧ Equals T y x = true) → ∃ y, FetchRow T fetch_row p i [0] 0 = Ok [y] ∧ Equals T y x = true.
Proof.
  intros [_ _ _ Hd] Hi Hread. unfold FetchRow. destruct (compression_type p); [|by apply Hread | by apply Hread].
  destruct Hd as (y & Hy & Hxy). exists y. unfold ConstantFillFunction. rewrite Hy. split; [done|]. apply Hxy. by eapply list_elem_of_lookup_2.
Qed.
End Checkpoints.

(** ** Runs *)

(** The segment that is written, behind the segments of the checkpoint. *)
Record segment_holds (start : Z) (seg : CompressedSegment) (n : Z) (c : ColumnCheckpointState) (rss : list (list (option Z))) (runs : list run) (rows : list (option Z)) : Prop := {
  sg_checkpoint : checkpoint_holds rle_holds start c rss;
  sg_start : cs_start seg = start + Z.of_nat (length (concat rss));
  sg_count : cs_rows seg = Z.of_nat (length rows);
  sg_entries : n = Z.of_nat (length runs);
  sg_at : runs_at T (cs_block seg) (RLE_HEADER_SIZE + Max * size) runs;
  sg_runs : Forall (run_ok T) runs;
  sg_agree : agree (expand runs) rows;
  sg_stats : stats_ok (cs_stats seg);
  sg_covered : covered (cs_stats seg) rows;
}.

Lemma FlushSegment_ok start seg n c rss runs rows :
  segment_holds start seg n c rss runs rows → n ≤ Max → readable runs →
  ∃ c' rss', FlushSegment T seg n c = Ok c' ∧ checkpoint_holds rle_holds start c' rss' ∧ concat rss' = concat rss ++ rows.
Proof.
  intros [S1 S2 S3 -> S5 S6 S7 S8 S9] Hle Hg. unfold FlushSegment. destruct (compact_runs T type_numeric (cs_block seg) runs S5 Hle) as (b1 & b2 & -> & E2 & Hst & _). cbn [mbind result_bind].
  rewrite E2. cbn [mbind result_bind]. eapply (Checkpoint_FlushSegment_ok rle_holds); [done.. | by exists runs].
Qed.

Lemma empty_segment_holds start row_start c rss stats :
  checkpoint_holds rle_holds start c rss → row_start = start + Z.of_nat (length (concat rss)) → stats_ok stats →
  segment_holds start (mkCompressed row_start 0 stats ∅) 0 c rss [] [].
Proof.
  intros Hc Hs Hst. split; try done; [by apply Forall2_nil_2 | by intros x Hx%elem_of_nil].
Qed.

(** The rows [more] of a run are added. *)
Lemma WriteValue_ok start s rss runs rows v k is_null more :
  segment_holds start (current_segment s) (entry_count s) (checkpoint s) rss runs rows → Z.of_nat (length runs) < Max → Forall (λ r, 0 < r.2) runs →
  run_ok T (v, k) → agree (replicate (Z.to_nat k) v) more → (is_null = true → ∀ x, Some x ∉ more) →
  ∃ s' rss' runs' rows', WriteValue T true type s v k is_null = Ok s' ∧
    segment_holds start (current_segment s') (entry_count s') (checkpoint s') rss' runs' rows' ∧ Z.of_nat (length runs') < Max ∧
    concat rss' ++ rows' = concat rss ++ rows ++ more ∧ readable runs' ∧ (0 < k → Forall (λ r, 0 < r.2) runs').
Proof.
  intros [S1 S2 S3 S4 S5 S6 S7 S8 S9] Hlt Hpos Hrun Ha Hnull. unfold WriteValue. rewrite S4.
  destruct (write_run T type_numeric (cs_block (current_segment s)) runs (v, k) S5 Hlt) as (b1 & b2 & E1 & E2 & Hat). cbn [fst snd] in *. rewrite E1. cbn [mbind result_bind]. rewrite E2. cbn [mbind result_bind andb].
  assert (∃ st, (if negb is_null then NumericStats_Update T (cs_stats (current_segment s)) v else Ok (cs_stats (current_segment s))) = Ok st ∧ stats_ok st ∧ covered st (rows ++ more)) as (st & -> & Hst & Hcov).
  { destruct is_null; cbn [negb].
    - exists (cs_stats (current_segment s)). split_and!; [done | done|]. intros x Hx. apply elem_of_app in Hx as [Hx|Hx]; [by apply S9|]. by destruct (Hnull eq_refl x).
    - destruct (Update_stats _ v S8) as (st & E & Hst & Hv & Hm). exists st. split_and!; [done | done|]. intros x Hx. apply elem_of_app in Hx as [Hx|Hx]; [by apply Hm, S9|].
      apply list_elem_of_lookup in Hx as [i Hi]. destruct (Forall2_lookup_r _ _ _ _ _ Ha Hi) as (w & Hw & Heq). apply lookup_replicate in Hw as [-> _]. by apply (covers_same st v); [| apply Heq |]. }
  cbn [mbind result_bind cs_start cs_rows].
  assert (length more = Z.to_nat k) as Lm by (apply Forall2_length in Ha; by rewrite length_replicate in Ha). destruct Hrun as [Hv Hk].
  set (seg := mkCompressed _ _ _ _). assert (segment_holds start seg (Z.of_nat (length runs) + 1) (checkpoint s) rss (runs ++ [(v, k)]) (rows ++ more)) as Hseg.
  { split; cbn [seg cs_start cs_rows cs_stats cs_block]; try done; [rewrite S3, length_app; cbn in Hk; lia | rewrite length_app; cbn; lia | apply Forall_app; split; [done | by apply Forall_singleton] |].
    rewrite expand_app, expand_single. by apply Forall2_app. }
  assert (readable (runs ++ [(v, k)])) as Hread.
  { destruct (decide (k = 0)) as [->|]; [by exists runs, [(v, 0)]|]. exists (runs ++ [(v, k)]), []. rewrite app_nil_r. split_and!; [done | | done]. apply Forall_app. split; [done|]. apply Forall_singleton. cbn in *. lia. }
  destruct (Z.eqb_spec (Z.of_nat (length runs) + 1) Max) as [E|E].
  - destruct (FlushSegment_ok _ _ _ _ _ _ _ Hseg) as (c' & rss' & Ec & Hc' & Hrows); [lia | done|]. change (cs_start seg) with (cs_start (current_segment s)). change (cs_rows seg) with (cs_rows (current_segment s) + k).
    rewrite Ec. cbn [mbind result_bind]. unfold CreateEmptySegment. destruct CreateEmpty_stats as (e & -> & He). cbn [mbind result_bind].
    eexists _, rss', [], []. split; [done|]. cbn [current_segment entry_count checkpoint cs_start cs_rows]. split_and!; [| destruct (layout_bounds T type_numeric) as (_ & Hm & _); cbn; lia | by rewrite app_nil_r | by exists [], [] | by constructor].
    apply empty_segment_holds; [done | rewrite Hrows, !length_app, S2, S3; cbn in Hk; lia | done].
  - eexists _, rss, (runs ++ [(v, k)]), (rows ++ more). split; [done|]. cbn [current_segment entry_count checkpoint]. split_and!; [done | rewrite length_app; cbn; lia | done | done|].
    intros Hk0. apply Forall_app. split; [done | by apply Forall_singleton].
Qed.

(** ** Rows *)

(** The rows before: those of the checkpoint, of the current segment, and the
    pending ones of the last run. *)
Definition encoder_holds (start : Z) (all : list (option Z)) (st : RLEState) (s : RLECompressState) : Prop :=
  ∃ rss runs rows pending,
    segment_holds start (current_segment s) (entry_count s) (checkpoint s) rss runs rows ∧ Z.of_nat (length runs) < Max ∧ Forall (λ r, 0 < r.2) runs ∧
    concat rss ++ rows ++ pending = all ∧ last_seen_count st = Z.of_nat (length pending) ∧ last_seen_count st ≤ RLE_COUNT_MAX ∧
    in_range T (last_value st) ∧ agree (replicate (length pending) (last_value st)) pending ∧ (all_null st = true → ∀ x, Some x ∉ pending).

Abbreviation Flush := (RLEState_Flush (WriteValue T true type)).

Lemma RLEState_Flush_ok start all st s : encoder_holds start all st s →
  ∃ s' rss runs rows, Flush st s = Ok s' ∧ segment_holds start (current_segment s') (entry_count s') (checkpoint s') rss runs rows ∧
    Z.of_nat (length runs) < Max ∧ concat rss ++ rows = all ∧ readable runs ∧ (0 < last_seen_count st → Forall (λ r, 0 < r.2) runs).
Proof.
  intros (rss & runs & rows & pending & Hs & Hlt & Hpos & <- & Hk & Hk2 & Hv & Ha & Hn). unfold RLEState_Flush.
  destruct (WriteValue_ok start s rss runs rows (last_value st) (last_seen_count st) (all_null st) pending) as (s' & rss' & runs' & rows' & E & Hs' & Hlt' & Hrows & Hr & Hp);
    [done | done | done | split; cbn; [done | lia] | by rewrite Hk, Nat2Z.id | done|]. exists s', rss', runs', rows'. split_and!; auto.
Qed.

Lemma agree_snoc values rows v r : agree values rows → (∀ x, r = Some x → Equals T v x = true) → agree (values ++ [v]) (rows ++ [r]).
Proof. intros Ha Hr. apply Forall2_app; [done|]. by constructor. Qed.

Lemma agree_nulls v rows : (∀ x, Some x ∉ rows) → agree (replicate (length rows) v) rows.
Proof.
  intros Hn. apply Forall2_same_length_lookup_2; [by rewrite length_replicate|]. intros i w r _ Hr x ->. by apply list_elem_of_lookup_2, Hn in Hr.
Qed.

Lemma native_eq_Equals a b : native_eq T a b = true → Equals T a b = true.
Proof. unfold Equals, EqualsFloat. destruct (is_float T); [|done]. by destruct (IsNan T a && IsNan T b). Qed.

Lemma Equals_refl x : Equals T x x = true.
Proof. rewrite Equals_key. apply Z.eqb_refl. Qed.

(** A row that goes into the pending run, which may take a new value when all
    its rows are NULL. *)
Lemma pending_row start all st s row v seen nulls :
  encoder_holds start all st s → last_seen_count st < RLE_COUNT_MAX → in_range T v → (∀ x, row = Some x → Equals T v x = true) →
  (v = last_value st ∨ all_null st = true) → (nulls = true → row = None ∧ all_null st = true) →
  encoder_holds start (all ++ [row]) (mkRLEState seen v (wrapu 16 (last_seen_count st + 1)) nulls) s.
Proof.
  intros (rss & runs & rows & pending & Hs & Hlt & Hpos & <- & Hk & _ & _ & Ha & Hn) Hk2 Hv Hrow Hval Hnulls. exists rss, runs, rows, (pending ++ [row]). unfold RLE_COUNT_MAX in *.
  cbn [last_seen_count last_value all_null]. unfold wrapu. change (2 ^ 16) with 65536. rewrite Z.mod_small by lia. rewrite length_app. cbn [length].
  split_and!; [done | done | done | by rewrite <- !app_assoc | lia | lia | done | |].
  - rewrite replicate_add. apply agree_snoc; [|done]. destruct Hval as [->|Hall]; [done | by apply agree_nulls, Hn].
  - intros E x Hx. destruct (Hnulls E) as [-> Hall]. apply elem_of_app in Hx as [Hx|Hx]; [by apply (Hn Hall x)|]. by apply list_elem_of_singleton in Hx.
Qed.

(** The pending run and the run of the rows. *)
Definition run_matches (st : RLEState) (r : option Z * Z) : Prop :=
  r.1 = (if all_null st then None else Some (last_value st)) ∧ 0 ≤ r.2 ∧ last_seen_count st = r.2 mod RLE_COUNT_MAX.

Lemma mod_succ n : 0 ≤ n → (n + 1) mod RLE_COUNT_MAX = if n mod RLE_COUNT_MAX + 1 =? RLE_COUNT_MAX then 0 else n mod RLE_COUNT_MAX + 1.
Proof.
  intros Hn. unfold RLE_COUNT_MAX. pose proof (Z.div_mod n 65535). pose proof (Z.mod_pos_bound n 65535). destruct (Z.eqb_spec (n mod 65535 + 1) 65535).
  - symmetry. apply (Z.mod_unique_pos _ _ (n / 65535 + 1)); lia.
  - symmetry. apply (Z.mod_unique_pos _ _ (n / 65535)); lia.
Qed.

(** The run is written when its count is full. *)
Lemma full_run start all st s v n : encoder_holds start all st s → v = (if all_null st then None else Some (last_value st)) →
  0 ≤ n → last_seen_count st = n mod RLE_COUNT_MAX + 1 →
  ∃ st' s', (if last_seen_count st =? RLE_COUNT_MAX then
      s ← Flush st s; Ok (mkRLEState (seen_count st + 1) (last_value st) 0 (all_null st), s) else Ok (st, s)) = Ok (st', s') ∧
    encoder_holds start all st' s' ∧ run_matches st' (v, n + 1).
Proof.
  intros He -> Hn Hk. unfold run_matches. cbn [fst snd]. rewrite mod_succ, Hk by done. destruct (Z.eqb_spec (n mod RLE_COUNT_MAX + 1) RLE_COUNT_MAX) as [E|E].
  - destruct (RLEState_Flush_ok start all st s He) as (s' & rss & runs & rows & -> & Hs & Hlt & Hrows & _ & Hpos). cbn [mbind result_bind]. eexists _, s'. split; [done|]. split; [|by split_and!; [|lia|]].
    destruct He as (_ & _ & _ & _ & _ & _ & _ & _ & _ & _ & Hv & _). unfold RLE_COUNT_MAX in *.
    exists rss, runs, rows, []. cbn [last_seen_count last_value all_null length]. split_and!; [done | done | apply Hpos; lia | by rewrite app_nil_r | done | done | done | by apply Forall2_nil_2 | by intros _ x Hx%elem_of_nil].
  - exists st, s. split; [done|]. split; [done|]. split_and!; [done | lia | done].
Qed.

Lemma update_row_ok start all st s row r r' :
  encoder_holds start all st s → run_matches st r → (∀ x, row = Some x → in_range T x) → run_step T r row = Some r' →
  ∃ st' s', update_row T (WriteValue T true type) st s row = Ok (st', s') ∧ encoder_holds start (all ++ [row]) st' s' ∧ run_matches st' r'.
Proof.
  intros He (Hr1 & Hr2 & Hk) Hrow Hstep. pose proof (Z.mod_pos_bound r.2 RLE_COUNT_MAX eq_refl) as Hmod.
  assert (wrapu 16 (last_seen_count st + 1) = r.2 mod RLE_COUNT_MAX + 1) as Hw.
  { rewrite Hk. unfold wrapu. apply Z.mod_small. unfold RLE_COUNT_MAX in *. change (2 ^ 16) with 65536. lia. }
  assert (in_range T (last_value st)) as Hlast by (destruct He as (? & ? & ? & ? & _ & _ & _ & _ & _ & _ & ? & _); done).
  unfold update_row. destruct r as [v n]. cbn [fst snd] in *. destruct row as [x|].
  - destruct (all_null st) eqn:En; subst v; cbn [run_step fst snd] in Hstep.
    + injection Hstep as <-. cbn [mbind result_bind]. eapply full_run; [|done | done | by cbn [last_seen_count]].
      apply (pending_row start all st s (Some x) x); [done | lia | by apply Hrow | intros ? [= <-]; apply Equals_refl | by right | done].
    + destruct (native_eq T (last_value st) x) eqn:Eq.
      * injection Hstep as <-. cbn [mbind result_bind]. unfold count_row. rewrite En. eapply full_run; [|done | done | by cbn [last_seen_count]].
        apply (pending_row start all st s (Some x) (last_value st)); [done | lia | done | intros ? [= <-]; by apply native_eq_Equals | by left | done].
      * destruct (Z.eqb_spec (n mod RLE_COUNT_MAX) 0) as [|Hne]; [done|]. injection Hstep as <-.
        destruct (RLEState_Flush_ok start all st s He) as (s' & rss & runs & rows & -> & Hs & Hlt & Hrows & _ & Hpos). cbn [mbind result_bind last_seen_count]. eexists _, s'. split; [done|].
        split; [|by split_and!]. exists rss, runs, rows, [Some x]. cbn [last_seen_count last_value all_null length].
        split_and!; [done | done | apply Hpos; lia | by rewrite app_assoc, Hrows | done | done | by apply Hrow | | done].
        constructor; [intros ? [= <-]; apply Equals_refl | constructor].
  - assert (r' = (v, n + 1)) as -> by (cbn [run_step fst snd] in Hstep; destruct v; by injection Hstep as <-).
    cbn [mbind result_bind]. eapply full_run; [|done | done | by cbn [count_row last_seen_count]].
    apply (pending_row start all st s None (last_value st)); [done | lia | done | done | by left | by intros ->].
Qed.

(** ** Vectors *)

Definition vector_rows (v : UnifiedVectorFormat Z) (n : nat) : list (option Z) :=
  (λ i, if unified_valid v i then unified_value v i else None) <$> seq 0 n.

Definition vector_ok (v : UnifiedVectorFormat Z) (n : nat) : Prop :=
  unified_ok v n ∧ ∀ i, (i < n)%nat → unified_valid v i = true → ∃ x, unified_value v i = Some x ∧ in_range T x.

Lemma update_rows_fold {W} (OP : W → Z → Z → bool → result W) st v n : vector_ok v n →
  update_rows T OP st v n = foldM (λ st row, update_row T OP st.1 st.2 row) st (vector_rows v n).
Proof.
  intros [Hu Hv]. unfold update_rows, vector_rows. assert (∀ i, i ∈ seq 0 n → (i < n)%nat) as Hl by (intros i Hi%elem_of_seq; lia).
  revert st. induction (seq 0 n) as [|i l IH]; intros st; [done|]. cbn [foldM fmap list_fmap].
  destruct (unified_get v n i Hu) as [-> Hi]; [apply Hl; left|]. cbn [mbind result_bind]. unfold RLEState_Update. rewrite Nat2Z.id, Hi. cbn [mbind result_bind].
  assert ((if unified_valid v i then Some <$> vget (uni_data v) (unified_index v i) else Ok None) = Ok (if unified_valid v i then unified_value v i else None)) as ->.
  { destruct (unified_valid v i) eqn:E; [|done]. destruct (Hv i) as (x & Hx & _); [apply Hl; left | done|]. unfold unified_value in *. by rewrite (vget_lookup _ _ _ Hx), Hx. }
  cbn [mbind result_bind]. destruct (update_row _ _ _ _ _) as [st'|]; [|done]. cbn [mbind result_bind]. apply IH. intros j Hj. apply Hl. by right.
Qed.

Lemma vector_rows_range v n x : vector_ok v n → Some x ∈ vector_rows v n → in_range T x.
Proof.
  intros [_ Hv] Hx. apply list_elem_of_fmap in Hx as (i & Hx & Hi%elem_of_seq). destruct (unified_valid v i) eqn:E; [|done].
  destruct (Hv i) as (y & Hy & Hr); [lia | done|]. rewrite Hy in Hx. by injection Hx as ->.
Qed.

Lemma rows_ok start rows : ∀ all st s r rest,
  encoder_holds start all st s → run_matches st r → (∀ x, Some x ∈ rows → in_range T x) → run_safe T r (rows ++ rest) = true →
  ∃ st' s' r', foldM (λ st row, update_row T (WriteValue T true type) st.1 st.2 row) (st, s) rows = Ok (st', s') ∧
    encoder_holds start (all ++ rows) st' s' ∧ run_matches st' r' ∧ run_safe T r' rest = true.
Proof.
  induction rows as [|row rows IH]; intros all st s r rest He Hr Hx Hsafe; [exists st, s, r; by rewrite app_nil_r|]. cbn [app run_safe] in Hsafe. destruct (run_step T r row) as [r1|] eqn:E1; [|done].
  destruct (update_row_ok start all st s row r r1 He Hr) as (st1 & s1 & Eu & He1 & Hr1); [intros x ->; apply Hx; left | done|]. cbn [foldM fst snd]. rewrite Eu. cbn [mbind result_bind].
  destruct (IH (all ++ [row]) st1 s1 r1 rest He1 Hr1) as (st' & s' & r' & E' & He' & H'); [intros x H; apply Hx; by right | done|]. rewrite <- app_assoc in He'. eauto 10.
Qed.

Definition all_rows (vectors : list (UnifiedVectorFormat Z * nat)) : list (option Z) := concat ((λ v, vector_rows v.1 v.2) <$> vectors).

Lemma vectors_ok start vectors : ∀ all st s r,
  encoder_holds start all st s → run_matches st r → Forall (λ v, vector_ok v.1 v.2) vectors → run_safe T r (all_rows vectors) = true →
  ∃ st' s', foldM (λ st v, RLECompress T true type st v.1 v.2) (st, s) vectors = Ok (st', s') ∧ encoder_holds start (all ++ all_rows vectors) st' s'.
Proof.
  induction vectors as [|[v n] vectors IH]; intros all st s r He Hr Hv Hsafe; [exists st, s; by rewrite app_nil_r|]. apply Forall_cons in Hv as [Hv Hvs]. cbn [fst snd] in Hv.
  destruct (rows_ok start (vector_rows v n) all st s r (all_rows vectors) He Hr) as (st1 & s1 & r1 & E1 & He1 & Hr1 & Hs1); [intros x; by apply vector_rows_range | done|].
  assert (RLECompress T true type (st, s) v n = Ok (st1, s1)) as Ec by (unfold RLECompress; by rewrite update_rows_fold). cbn [foldM fst snd]. rewrite Ec. cbn [mbind result_bind].
  destruct (IH _ st1 s1 r1 He1 Hr1 Hvs Hs1) as (st' & s' & E' & He'). exists st', s'. split; [done|]. by rewrite <- app_assoc in He'.
Qed.

Lemma NullValue_range : in_range T (NullValue T).
Proof. pose proof type_numeric as H. destruct T; try (vm_compute in H; discriminate H); vm_compute; by split. Qed.

(** The checkpoint holds the rows of the vectors. *)
Lemma RLE_checkpoint_ok start global vectors :
  stats_wf global → stats_type global = type → Forall (λ v, vector_ok v.1 v.2) vectors → run_safe T (None, 0) (all_rows vectors) = true →
  ∃ c rss, RLE_checkpoint T true type start global vectors = Ok c ∧ checkpoint_holds rle_holds start c rss ∧ concat rss = all_rows vectors.
Proof.
  intros Wg Tg Hv Hsafe. unfold RLE_checkpoint, RLECompressState_new, CreateEmptySegment. destruct CreateEmpty_stats as (e & -> & He). cbn [mbind result_bind].
  destruct (layout_bounds T type_numeric) as (_ & Hmax & _).
  pose proof (empty_checkpoint rle_holds start global Wg Tg) as Hc.
  destruct (vectors_ok start vectors [] (RLEState_new T) (mkCompressState (mkCompressed start 0 e ∅) 0 (mkCheckpoint global start [])) (None, 0)) as (st & s & E & Hs); [| | done | exact Hsafe|].
  - exists [], [], [], []. split_and!; [apply empty_segment_holds; [done | cbn; lia | done] | by cbn | done | done | done | done | apply NullValue_range | by apply Forall2_nil_2 | by intros _ x Hx%elem_of_nil].
  - by split_and!.
  - cbn [current_segment entry_count checkpoint] in *. rewrite E. cbn [mbind result_bind]. unfold RLEFinalizeCompress. cbn [fst snd].
    destruct (RLEState_Flush_ok _ _ _ _ Hs) as (s' & rss & runs & rows & -> & Hs' & Hlt & Hrows & Hread & _). cbn [mbind result_bind].
    destruct (FlushSegment_ok _ _ _ _ _ _ _ Hs') as (c & rss' & -> & Hc' & Hrows'); [pose proof (sg_entries _ _ _ _ _ _ _ Hs'); lia | done|]. exists c, rss'. split_and!; [done | done | by rewrite Hrows', Hrows].
Qed.

(** ** Reading a checkpoint *)

(** Every valid row is read back. *)
Lemma rle_holds_read b rows i x : rle_holds b rows → rows !! i = Some (Some x) → ∃ y, RLEFetchRow T b i [0] 0 = Ok [y] ∧ Equals T y x = true.
Proof.
  intros (runs & Hst & Hr & (good & rest & -> & Hg & He) & Ha) Hi. rewrite expand_app, He, app_nil_r in Ha. apply Forall_app in Hr as [Hr _].
  destruct (Forall2_lookup_r _ _ _ _ _ Ha Hi) as (y & Hy & Hxy). exists y. split; [|by apply Hxy].
  change [y] with (<[0%nat := y]> [0]). apply (RLEFetchRow_ok _ _ good); [by eapply stored_prefix | done | done | done | cbn; lia].
Qed.
End Encoder.

(** * The analysis *)

(** [count_writer] counts the runs that are written. *)
Definition count_writer (n : Z) (value count : Z) (is_null : bool) : result Z := Ok (n + 1).

(** The states do not depend on the writer. *)
Lemma update_row_writer {W W'} (OP : W → Z → Z → bool → result W) (OP' : W' → Z → Z → bool → result W') T st w w' row :
  (∀ w v n b, is_ok (OP w v n b) = true) → (∀ w v n b, is_ok (OP' w v n b) = true) →
  ∃ st1 w1 w1', update_row T OP st w row = Ok (st1, w1) ∧ update_row T OP' st w' row = Ok (st1, w1').
Proof.
  intros H H'. unfold update_row, RLEState_Flush.
  repeat match goal with
  | |- context [OP ?w ?v ?n ?b] => let E := fresh in pose proof (H w v n b) as E; destruct (OP w v n b); [clear E | done]
  | |- context [OP' ?w ?v ?n ?b] => let E := fresh in pose proof (H' w v n b) as E; destruct (OP' w v n b); [clear E | done]
  | |- context [if ?b then _ else _] => lazymatch b with context [if _ then _ else _] => fail | _ => destruct b end
  | |- context [match row with _ => _ end] => destruct row
  | _ => progress cbn [mbind result_bind last_seen_count last_value all_null]
  end; by eexists _, _, _.
Qed.

(** The analysis counts the runs the compression writes; a column of NULLs has
    one more. *)
Lemma analysis_counts_runs T rows : ∃ st n, foldM (λ st row, update_row T count_writer st.1 st.2 row) (RLEState_new T, 0) rows = Ok (st, n) ∧
  foldM (λ st row, update_row T EmptyRLEWriter st.1 st.2 row) (RLEState_new T, tt) rows = Ok (st, tt) ∧
  n + 1 = seen_count st + (if all_null st then 1 else 0).
Proof.
  assert (∀ st n, n + 1 = seen_count st + (if all_null st then 1 else 0) → ∃ st' n', foldM (λ st row, update_row T count_writer st.1 st.2 row) (st, n) rows = Ok (st', n') ∧
    foldM (λ st row, update_row T EmptyRLEWriter st.1 st.2 row) (st, tt) rows = Ok (st', tt) ∧ n' + 1 = seen_count st' + (if all_null st' then 1 else 0)) as H by
  (induction rows as [|row rows IH]; intros st n Hn; [by exists st, n|]; cbn [foldM fst snd];
   destruct (update_row_writer count_writer EmptyRLEWriter T st n tt row) as (st1 & n1 & u & E & E'); [done | done|]; destruct u; rewrite E, E'; cbn [mbind result_bind];
   apply IH; revert E; unfold update_row, RLEState_Flush, count_writer; destruct row, (all_null st) eqn:En; cbn [mbind result_bind count_row last_seen_count];
   repeat match goal with |- ?A = _ → _ => match A with context [if ?b then _ else _] => destruct b end; cbn [mbind result_bind last_seen_count] end; intros E; simplify_eq; cbn [seen_count all_null count_row]; rewrite ?En; lia).
  by apply H.
Qed.

(** * Properties *)

(** C22. A checkpoint of a column of numbers with run-length encoding keeps every
    row: the segments it writes, constant ones included, hold the rows of the
    vectors in order, the value fetched for a valid row equals the one that was
    written, and the statistics of the column cover all values. No run that is
    followed by another value may have a multiple of 65535 rows, as every column of
    fewer rows satisfies. *)
Theorem rle_checkpoint_roundtrip type start global vectors :
  let T := InternalType type in
  type_ok type → GetStatsType type = NUMERIC_STATS → stats_wf global → stats_type global = type →
  Forall (λ v, vector_ok type v.1 v.2) vectors → run_safe T (None, 0) (all_rows vectors) = true →
  ∃ c rss, RLE_checkpoint T true type start global vectors = Ok c ∧ concat rss = all_rows vectors ∧
    Forall2 (λ p rows, tuple_count p = Z.of_nat (length rows) ∧
      ∀ i x, rows !! i = Some (Some x) → ∃ y, FetchRow T (RLEFetchRow T) p i [0] 0 = Ok [y] ∧ Equals T y x = true) (data_pointers c) rss ∧
    (∀ i p, data_pointers c !! i = Some p → row_start p = start + Z.of_nat (length (concat (take i rss)))) ∧
    ∀ x, Some x ∈ all_rows vectors → covers (global_stats c) (V_num type (T, x)).
Proof.
  intros T Hok Hk Wg Tg Hv Hsafe. destruct (RLE_checkpoint_ok type Hok Hk start global vectors Wg Tg Hv Hsafe) as (c & rss & E & [_ Hp _ Hstarts (_ & _ & Hg)] & Hrows). exists c, rss.
  split_and!; [done | done | | done | by rewrite <- Hrows]. eapply Forall2_impl; [exact Hp|]. intros p rows H. split; [apply H|]. intros i x Hi. eapply (pointer_FetchRow_ok type (rle_holds type)); [done | done|]. intros b Hb. by eapply rle_holds_read.
Qed.

(** C23. Scans of a run-length encoded segment agree with fetches: after any number
    of skipped rows, a scan of a whole vector or a part of one, in a single run or
    across several, writes exactly the rows that fetching them one by one gives,
    leaves the rest of the vector alone, and stands behind the last row. *)
Theorem rle_scan_matches_fetch T b runs skipped scan_count entire res off :
  stored T b runs → Forall (run_ok T) runs → Forall (λ r, 0 < r.2) runs →
  (0 < scan_count)%nat → (skipped + scan_count ≤ length (expand runs))%nat → (off + scan_count ≤ length res)%nat → (entire = true → off = O ∧ length res = scan_count) →
  ∃ st st' st'' data counts, RLEInitScan b = Ok st ∧ RLESkip b st skipped = Ok st' ∧ RLEScanPartialInternal T entire b st' scan_count res off = Ok (st'', data) ∧
    at_row runs counts st'' (skipped + scan_count) ∧ length data = length res ∧
    (∀ i, (i < scan_count)%nat → ∃ x, data !! (off + i)%nat = Some x ∧ RLEFetchRow T b (skipped + i) [0] 0 = Ok [x]) ∧
    ∀ i, (i < off ∨ off + scan_count ≤ i)%nat → data !! i = res !! i.
Proof.
  intros Hst Hr Hpos Hs Hn Ho Hent. destruct (RLEInitScan_ok T b runs Hst Hpos) as (counts & st & E & Hat & H0).
  destruct (RLESkip_ok T b runs counts Hat Hr Hpos skipped st 0 H0) as (st' & E' & H'); [lia|].
  destruct (RLEScanPartialInternal_ok T b runs counts Hat Hr Hpos entire st' skipped scan_count res off) as (st'' & E'' & H''); [done.. |].
  assert (length (take off res ++ take scan_count (drop skipped (expand runs))) = (off + scan_count)%nat) as Hl by (rewrite length_app, !length_take, length_drop; lia).
  eexists st, st', st'', _, counts. split_and!; [done | done | done | done | rewrite app_assoc, length_app, length_drop; lia | |].
  - intros i Hi. destruct (lookup_lt_is_Some_2 (expand runs) (skipped + i)) as [x Hx]; [lia|]. exists x. split.
    + rewrite app_assoc, lookup_app_l, lookup_app_r by (rewrite ?length_take; lia). rewrite length_take, Nat.min_l by lia.
      rewrite Nat.add_comm, Nat.add_sub, lookup_take_lt, lookup_drop by lia. done.
    + change [x] with (<[0%nat := x]> [0]). apply (RLEFetchRow_ok _ _ runs); [done.. | cbn; lia].
  - intros i [Hi|Hi]; [rewrite lookup_app_l, lookup_take_lt by (rewrite ?length_take; lia); done|].
    rewrite app_assoc, lookup_app_r by lia. rewrite Hl, lookup_drop. f_equal. lia.
Qed.

(** ** Examples *)

(** A vector of integers without NULLs, and one with NULLs where the mask says so. *)
Definition flat_vector (values : list Z) (mask : option (list Z)) : UnifiedVectorFormat Z * nat :=
  (mkUnified SelectionVector_null values (mkMask mask 2048), length values).

Lemma flat_vector_ok values mask :
  match mask with None => True | Some l => words_ok l ∧ (EntryCount (length values) ≤ length l)%nat end → Forall (in_range INT32) values →
  vector_ok (LT INTEGER) (flat_vector values mask).1 (flat_vector values mask).2.
Proof.
  intros Hm Hv. split.
  - exists (length values). split; [exact Hm|]. intros i Hi. by exists i.
  - intros i Hi _. unfold unified_value, unified_index. cbn. rewrite Nat2Z.id. destruct (lookup_lt_is_Some_2 values i Hi) as [x Hx]. exists x. split; [done|]. by eapply (proj1 (Forall_lookup _ _) Hv).
Qed.

(** 7, 7, NULL, 7 and 9, 9. *)
Definition sample_vectors : list (UnifiedVectorFormat Z * nat) := [flat_vector [7; 7; 0; 7] (Some [11]); flat_vector [9; 9] None].

Lemma sample_vectors_ok : Forall (λ v, vector_ok (LT INTEGER) v.1 v.2) sample_vectors.
Proof.
  apply Forall_cons. split; [|apply Forall_singleton]; apply flat_vector_ok; try done; try by repeat constructor.
Qed.

Lemma rle_checkpoint_roundtrip_witness :
  ∃ c rss, RLE_checkpoint INT32 true (LT INTEGER) 100 (int_stats false true 0 5) sample_vectors = Ok c ∧ concat rss = [Some 7; Some 7; None; Some 7; Some 9; Some 9] ∧
    covers (global_stats c) (V_num (LT INTEGER) (INT32, 9)).
Proof.
  destruct (rle_checkpoint_roundtrip (LT INTEGER) 100 (int_stats false true 0 5) sample_vectors) as (c & rss & E & Hr & _ & _ & Hc).
  - by vm_compute.
  - reflexivity.
  - apply int_stats_wf.
  - reflexivity.
  - exact sample_vectors_ok.
  - reflexivity.
  - exists c, rss. split; [exact E|]. split; [by rewrite Hr|]. apply Hc. vm_compute. by do 4 right; left.
Defined.

(** The block of that checkpoint. *)
Definition sample_block : Block :=
  match RLE_checkpoint INT32 true (LT INTEGER) 100 (int_stats false true 0 5) sample_vectors with
  | Ok c => match data_pointers c with p :: _ => pointer_block p | [] => ∅ end
  | Throw _ => ∅
  end.

Lemma sample_block_stored : stored INT32 sample_block [(7, 4); (9, 2)].
Proof.
  exists 16. split; [lia|]. split; [apply load_bytes_inv; by vm_compute|].
  intros [|[|i]] r Hi; [injection Hi as <- | injection Hi as <- | done]; split; apply load_bytes_inv; by vm_compute.
Qed.

Lemma rle_scan_matches_fetch_witness :
  ∃ st st', RLEInitScan sample_block = Ok st ∧ RLESkip sample_block st 3 = Ok st' ∧ snd <$> RLEScanPartialInternal INT32 false sample_block st' 2 [0; 0; 0] 1 = Ok [0; 7; 9].
Proof.
  destruct (rle_scan_matches_fetch INT32 sample_block [(7, 4); (9, 2)] 3 2 false [0; 0; 0] 1) as (st & st' & st'' & data & counts & E & E' & E'' & _ & Hl & Hrows & Hrest).
  - exact sample_block_stored.
  - by repeat constructor.
  - by repeat constructor.
  - lia.
  - by apply Nat.leb_le.
  - by apply Nat.leb_le.
  - done.
  - exists st, st'. split; [exact E|]. split; [exact E'|]. rewrite E''. cbn [fmap result_fmap snd]. f_equal. apply list_eq. intros [|[|[|i]]].
    + rewrite Hrest by lia. reflexivity.
    + destruct (Hrows 0%nat) as (x & Hx & Hf); [lia|]. cbn [Nat.add] in Hx. rewrite Hx. vm_compute in Hf. by injection Hf as <-.
    + destruct (Hrows 1%nat) as (x & Hx & Hf); [lia|]. cbn [Nat.add] in Hx. rewrite Hx. vm_compute in Hf. by injection Hf as <-.
    + cbn. apply lookup_ge_None. rewrite Hl. cbn. lia.
Defined.

(** ** A run with a full count *)

(** 65535 ones and a two: the run is written when its count is full, and once
    more, empty, when the two comes.  The scan takes a row of the empty run, and
    the two is lost. *)
Definition full_run_vectors : list (UnifiedVectorFormat Z * nat) := replicate 257 (flat_vector (replicate 255 1) None) ++ [flat_vector [2] None].

Lemma rle_full_run_loses_row :
  (c ← RLE_checkpoint INT32 true (LT INTEGER) 0 (int_stats false true 0 5) full_run_vectors; mapR (λ p, FetchRow INT32 (RLEFetchRow INT32) p (Z.to_nat 65535) [0] 0) (data_pointers c)) = Ok [[1]].
Proof. vm_compute. reflexivity. Qed.
