(* ===== verification/BitPackingFacts.v ===== *)
(** Facts about bit packing: arithmetic modulo the width of a type, the modes of
    groups and what they decode to, the layout of segments, and the encoder. *)
From S2P Require Import Prelude Bits Types Stats NumericStats NumericFacts BaseStatistics StatsFacts StatsCreate StatsProps SelectionVector ValidityMask MaskFacts UncompressedSegment UncompressedAppend Compression CompressionFacts FastPFor BitPacking.

Lemma GROUP_eq : GROUP = Z.to_nat 2048.
Proof. by vm_compute. Qed.
#[local] Opaque BITPACKING_METADATA_GROUP_SIZE.

(** * Arithmetic modulo the width of a type *)

(** The types that are packed. *)
Definition packed_type (T : PhysicalType) : bool :=
  match T with INT8 | INT16 | INT32 | INT64 | UINT8 | UINT16 | UINT32 | UINT64 => true | _ => false end.

Section Integers.
Context (T : PhysicalType) (HT : packed_type T = true).
Abbreviation M := (2 ^ bits T).

Lemma packed_facts : (sizeof T = 1 ∨ sizeof T = 2 ∨ sizeof T = 4 ∨ sizeof T = 8) ∧ num_width T = Some (bits T, is_signed T) ∧ is_float T = false.
Proof. destruct T; try discriminate HT; vm_compute; tauto. Qed.

Lemma bits_bounds : 8 ≤ bits T ≤ 64 ∧ bits T = 8 * sizeof T ∧ 0 < sizeof T ≤ 8.
Proof. unfold bits. destruct packed_facts as [[H|[H|[H|H]]] _]; rewrite H; lia. Qed.

Lemma M_half : M = 2 * 2 ^ (bits T - 1).
Proof. pose proof bits_bounds. rewrite <- Z.pow_succ_r by lia. f_equal. lia. Qed.

Lemma half_bounds : 128 ≤ 2 ^ (bits T - 1).
Proof. pose proof bits_bounds. change 128 with (2 ^ 7). apply Z.pow_le_mono_r; lia. Qed.

(** Equal modulo [2 ^ bits T]. *)
Definition eqm (x y : Z) : Prop := x mod M = y mod M.

#[global] Instance eqm_equivalence : Equivalence eqm.
Proof. split; [done | by intros x y | intros x y z; unfold eqm; congruence]. Qed.
#[global] Instance eqm_add : Proper (eqm ==> eqm ==> eqm) Z.add.
Proof. intros x y H x' y' H'. unfold eqm in *. by rewrite Z.add_mod, H, H', <- Z.add_mod by (pose proof M_half; pose proof half_bounds; lia). Qed.
#[global] Instance eqm_mul : Proper (eqm ==> eqm ==> eqm) Z.mul.
Proof. intros x y H x' y' H'. unfold eqm in *. by rewrite Z.mul_mod, H, H', <- Z.mul_mod by (pose proof M_half; pose proof half_bounds; lia). Qed.
#[global] Instance eqm_sub : Proper (eqm ==> eqm ==> eqm) Z.sub.
Proof. intros x y H x' y' H'. unfold eqm in *. by rewrite Zminus_mod, H, H', <- Zminus_mod. Qed.

Lemma as_unsigned_eqm x : eqm (as_unsigned T x) x.
Proof. unfold eqm, as_unsigned, wrapu. apply Zmod_mod. Qed.
Lemma as_signed_eqm x : eqm (as_signed T x) x.
Proof. unfold eqm, as_signed, wraps. rewrite Zminus_mod_idemp_l. f_equal. lia. Qed.
Lemma as_T_eqm x : eqm (as_T T x) x.
Proof. unfold as_T. destruct (is_signed T); [apply as_signed_eqm | apply as_unsigned_eqm]. Qed.

Lemma as_T_same x y : eqm x y → as_T T x = as_T T y.
Proof.
  unfold as_T, wraps, wrapu, eqm. intros H. destruct (is_signed T); [|done].
  by rewrite <- (Zplus_mod_idemp_l x), H, Zplus_mod_idemp_l.
Qed.

Lemma as_signed_same x y : eqm x y → as_signed T x = as_signed T y.
Proof. unfold as_signed, wraps, eqm. intros H. by rewrite <- (Zplus_mod_idemp_l x), H, Zplus_mod_idemp_l. Qed.

Lemma as_T_range x : in_range T x → as_T T x = x.
Proof.
  unfold in_range, as_T. destruct packed_facts as (_ & -> & _). pose proof bits_bounds. intros H'. destruct (is_signed T); [apply wraps_small; [lia | done] | by apply wrapu_small].
Qed.

Lemma as_T_in x : in_range T (as_T T x).
Proof.
  unfold in_range, as_T, wraps, wrapu. destruct packed_facts as (_ & -> & _). pose proof M_half. pose proof half_bounds.
  destruct (is_signed T); [pose proof (Z.mod_pos_bound (x + 2 ^ (bits T - 1)) M) | pose proof (Z.mod_pos_bound x M)]; lia.
Qed.

Lemma eqm_range x y : in_range T x → eqm x y → as_T T y = x.
Proof. intros Hx H. by rewrite <- (as_T_same _ _ H), as_T_range. Qed.

(** Numbers that are written are read modulo the width of the type. *)
Lemma decode_encode_T x : decode_value T (encode_value T x) = as_T T x.
Proof.
  rewrite <- (decode_encode T (as_T T x)) by apply as_T_in. f_equal. unfold encode_value. f_equal. symmetry. exact (as_T_eqm x).
Qed.

Lemma Load_T b address x : bytes_at b address (encode_value T x) → Load T b address = Ok (as_T T x).
Proof.
  intros Hb. unfold Load. pose proof (length_encode T x). replace (Z.to_nat (sizeof T)) with (length (encode_value T x)) by lia.
  rewrite (load_bytes_at _ _ _ Hb). cbn. by rewrite decode_encode_T.
Qed.

Lemma Equals_int x y : Equals T x y = true ↔ x = y.
Proof. rewrite Equals_key, Z.eqb_eq. unfold num_key. by destruct packed_facts as (_ & _ & ->). Qed.
End Integers.

#[local] Instance eqm_rewrite T : RewriteRelation (eqm T) := {}.

(** * Widths *)

Lemma count_bits_bound fuel : ∀ v, 0 ≤ v < 2 ^ Z.of_nat fuel → 0 ≤ count_bits fuel v ≤ Z.of_nat fuel ∧ v < 2 ^ count_bits fuel v.
Proof.
  induction fuel as [|fuel IH]; intros v Hv; [cbn in *; lia|]. cbn [count_bits]. destruct (Z.eqb_spec v 0) as [->|]; [cbn; lia|].
  rewrite Z.shiftr_div_pow2, Z.pow_1_r by lia. rewrite Nat2Z.inj_succ, Z.pow_succ_r in Hv by lia.
  destruct (IH (v / 2)) as [H1 H2]; [split; [apply Z.div_pos; lia | apply Z.div_lt_upper_bound; lia]|].
  split; [lia|]. rewrite Z.pow_add_r by lia. pose proof (Z.div_mod v 2 ltac:(lia)). pose proof (Z.mod_pos_bound v 2 ltac:(lia)). lia.
Qed.

Lemma GetEffectiveWidth_bound T w : packed_type T = true → 0 ≤ w ≤ bits T → w ≤ GetEffectiveWidth T w ≤ bits T.
Proof. intros HT Hw. unfold GetEffectiveWidth. destruct (Z.ltb_spec (bits T) (w + sizeof T)); lia. Qed.

(** The width is enough for the number. *)
Lemma MinimumBitWidth_enough T v : packed_type T = true → 0 ≤ v < 2 ^ bits T →
  0 ≤ MinimumBitWidth T false v ≤ bits T ∧ v < 2 ^ MinimumBitWidth T false v.
Proof.
  intros HT Hv. pose proof (bits_bounds T HT). unfold MinimumBitWidth, FindMinimumBitWidth. cbn [andb]. destruct (Z.eqb_spec v 0) as [->|]; [cbn; lia|].
  destruct (count_bits_bound (Z.to_nat (bits T)) v) as [H1 H2]; [by rewrite Z2Nat.id by lia|]. rewrite Z.add_0_l.
  destruct (GetEffectiveWidth_bound T (count_bits (Z.to_nat (bits T)) v) HT) as [H3 H4]; [lia|]. split; [lia|].
  eapply Z.lt_le_trans; [exact H2|]. by apply Z.pow_le_mono_r.
Qed.

(** * What groups decode to *)

(** Sums of the first numbers, from [acc] on. *)
Fixpoint sums (acc : Z) (l : list Z) : list Z :=
  match l with [] => [] | x :: l => acc + x :: sums (acc + x) l end.

Lemma length_sums l : ∀ acc, length (sums acc l) = length l.
Proof. induction l as [|x l IH]; intros acc; [done|]. cbn. by rewrite IH. Qed.

Lemma sums_same T (HT : packed_type T = true) l l' : Forall2 (eqm T) l l' → ∀ acc acc', eqm T acc acc' → as_T T <$> sums acc l = as_T T <$> sums acc' l'.
Proof.
  induction 1 as [|x y l l' Hxy _ IH]; intros acc acc' Ha; [done|]. cbn. assert (eqm T (acc + x) (acc' + y)) as H by (by apply eqm_add). f_equal; [by apply as_T_same | by apply IH].
Qed.

(** The sums from a position on. *)
Definition sum_before (acc : Z) (l : list Z) (k : nat) : Z := default acc (last (take k (sums acc l))).

Lemma drop_sums k : ∀ acc l, (k ≤ length l)%nat → drop k (sums acc l) = sums (sum_before acc l k) (drop k l).
Proof.
  induction k as [|k IH]; intros acc l Hk; [done|]. destruct l as [|x l]; [cbn in Hk; lia|]. cbn [sums drop]. rewrite IH by (cbn in Hk; lia). f_equal.
  unfold sum_before. cbn [sums take]. by rewrite last_cons; destruct (last (take k (sums (acc + x) l))).
Qed.

Lemma take_sums k : ∀ acc l, take k (sums acc l) = sums acc (take k l).
Proof. induction k as [|k IH]; intros acc [|x l]; try done. cbn. by rewrite IH. Qed.

Lemma sum_before_S acc l k s : sums acc l !! k = Some s → sum_before acc l (S k) = s.
Proof. intros Hs. unfold sum_before. by rewrite (take_S_r _ _ _ Hs), last_snoc. Qed.

Lemma sums_lookup l : ∀ acc i s x, sums acc l !! i = Some s → l !! S i = Some x → sums acc l !! S i = Some (s + x).
Proof.
  induction l as [|y l IH]; intros acc i s x Hs Hx; [done|]. destruct i as [|i]; cbn in *; [injection Hs as <-; destruct l; [done|]; by injection Hx as <-|]. by apply IH.
Qed.

(** The differences of neighbours add up to the numbers. *)
Lemma sums_differences l : ∀ x, sums x (zip_with Z.sub l (x :: l)) = l.
Proof. induction l as [|y l IH]; intros x; [done|]. cbn. replace (x + (y - x)) with y by lia. by rewrite IH. Qed.

Section Groups.
Context (T : PhysicalType) (HT : packed_type T = true).

Definition group_rows (g : packed_group) (n : nat) : list Z :=
  match g with
  | GroupConstant c => replicate n (as_T T c)
  | GroupConstantDelta d f => (λ k, as_T T (f + Z.of_nat k * d)) <$> seq 0 n
  | GroupFor w f values => (λ v, as_T T (v mod 2 ^ w + f)) <$> values
  | GroupDeltaFor w f offset values => as_T T <$> sums offset ((λ v, v mod 2 ^ w + f) <$> values)
  end.

(** The packed values, with their width. *)
Definition group_packed (g : packed_group) : option (Z * list Z) :=
  match g with GroupFor w _ values | GroupDeltaFor w _ _ values => Some (w, values) | _ => None end.

(** A group of [n] rows that can be written.  The number of a row with a constant
    difference is a number of the type, but for [INT8]. *)
Record group_ok (g : packed_group) (n : nat) : Prop := {
  go_count : (0 < n ≤ GROUP)%nat;
  go_packed : ∀ w values, group_packed g = Some (w, values) → 0 ≤ w ≤ bits T ∧ length values = n ∧ Forall (λ v, 0 ≤ v < 2 ^ bits T) values;
  go_delta : match g with GroupConstantDelta d _ => T = INT8 ∨ d = 0 ∨ Z.of_nat n ≤ NumericLimits_Maximum T + 1 | _ => True end;
}.

Lemma length_group_rows g n : group_ok g n → length (group_rows g n) = n.
Proof.
  intros [_ H _]. destruct g as [c|d f|w f o values|w f values]; cbn; rewrite ?length_fmap, ?length_sums, ?length_fmap, ?length_seq, ?length_replicate; try done; by apply (H w values).
Qed.

(** Whether the arithmetic of a fetch of each row stays within its type. *)
Definition group_safe (g : packed_group) (n : nat) : list bool :=
  match g with
  | GroupConstant _ => replicate n true
  | GroupConstantDelta d f => (λ k, fits_arithmetic T (Z.of_nat k * as_T T d) && fits_arithmetic T (Z.of_nat k * as_T T d + as_T T f)) <$> seq 0 n
  | GroupFor w f values => (λ v, fits_arithmetic T (as_T T (v mod 2 ^ w) + as_T T f)) <$> values
  | GroupDeltaFor w f offset values => imap (λ k v, fits_arithmetic T (as_T T (v mod 2 ^ w) + as_T T f) &&
      fits_arithmetic T (as_T T (as_T T (v mod 2 ^ w) + as_T T f) + as_T T (sum_before offset ((λ v, v mod 2 ^ w + f) <$> values) k))) values
  end.

Lemma length_group_safe g n : group_ok g n → length (group_safe g n) = n.
Proof.
  intros [_ H _]. destruct g as [c|d f|w f o values|w f values]; cbn; rewrite ?length_imap, ?length_fmap, ?length_seq, ?length_replicate; try done; by apply (H w values).
Qed.

(** The fetch of a row among [all] stays within its type, or the row differs from
    another one by more than a signed type of at least 32 bits holds. *)
Definition overflows (all : list (option Z)) (x : Z) : Prop :=
  is_signed T = true ∧ 32 ≤ bits T ∧ ∃ y, Some y ∈ all ∧ ¬ in_range T (x - y).
Definition fetchable (all : list (option Z)) (safe : bool) (r : option Z) : Prop := ∀ x, r = Some x → safe = true ∨ overflows all x.

Lemma fetchable_mono all all' safe r : all ⊆ all' → fetchable all safe r → fetchable all' safe r.
Proof. intros Hs H x Hx. destruct (H x Hx) as [?|(H1 & H2 & y & Hy & H3)]; [by left|]. right. split; [done|]. split; [done|]. exists y. split; [by apply Hs | done]. Qed.

Lemma fits_range x : in_range T x → fits_arithmetic T x = true.
Proof.
  unfold in_range, fits_arithmetic. destruct (packed_facts T HT) as (_ & -> & _). pose proof (bits_bounds T HT) as Hb. intros H. set (w := Z.max 32 (bits T)).
  assert (2 ^ (bits T - 1) ≤ 2 ^ (w - 1)) as H1 by (apply Z.pow_le_mono_r; lia). assert (0 < 2 ^ (w - 1)) as H0 by (apply Z.pow_pos_nonneg; lia).
  destruct (is_signed T); cbn [orb]; [apply andb_true_iff; rewrite Z.leb_le, Z.ltb_lt; lia|]. destruct (Z.ltb_spec (bits T) 32); [|done].
  assert (2 ^ bits T ≤ 2 ^ (w - 1)) as Hn by (apply Z.pow_le_mono_r; lia). apply andb_true_iff. rewrite Z.leb_le, Z.ltb_lt. lia.
Qed.

(** The arithmetic of narrow and of unsigned types stays within its type. *)
Lemma fits_small x : is_signed T = false ∨ bits T < 32 → - 2 ^ 30 ≤ x < 2 ^ 30 ∨ 32 ≤ bits T → fits_arithmetic T x = true.
Proof.
  intros H1 H2. unfold fits_arithmetic. destruct (is_signed T || (bits T <? 32)) eqn:E; [|done]. assert (bits T < 32) as Hb by (apply orb_true_iff in E as [E|E%Z.ltb_lt]; [destruct H1; [congruence | lia] | lia]).
  rewrite Z.max_l by lia. apply andb_true_iff. rewrite Z.leb_le, Z.ltb_lt. change (2 ^ (32 - 1)) with 2147483648. change (2 ^ 30) with 1073741824 in H2. lia.
Qed.

Lemma as_T_narrow x : bits T < 32 → - 32768 ≤ as_T T x < 65536.
Proof.
  intros Hb. pose proof (as_T_in T HT x) as H. unfold in_range in H. destruct (packed_facts T HT) as (Hs & Hw & _). rewrite Hw in H. assert (bits T ≤ 16) as H16 by (unfold bits in *; lia).
  pose proof (bits_bounds T HT). assert (2 ^ (bits T - 1) ≤ 2 ^ 15) by (apply Z.pow_le_mono_r; lia). assert (2 ^ bits T ≤ 2 ^ 16) by (apply Z.pow_le_mono_r; lia).
  change (2 ^ 15) with 32768 in *. change (2 ^ 16) with 65536 in *. destruct (is_signed T); lia.
Qed.

(** Sums and products of numbers of a type that is narrow or unsigned. *)
Lemma narrow_safe : is_signed T = false ∨ bits T < 32 →
  (∀ a c, fits_arithmetic T (as_T T a + as_T T c) = true) ∧ (∀ k d, (k < GROUP)%nat → fits_arithmetic T (Z.of_nat k * as_T T d) = true) ∧
  (∀ k d f, (k < GROUP)%nat → fits_arithmetic T (Z.of_nat k * as_T T d + as_T T f) = true).
Proof.
  intros Hn. rewrite GROUP_eq. destruct (Z.ltb_spec (bits T) 32) as [Hb|Hb]; split_and!; intros; (apply fits_small; [done|]); try (by right).
  - left. pose proof (as_T_narrow a Hb). pose proof (as_T_narrow c Hb). lia.
  - left. pose proof (as_T_narrow d Hb). nia.
  - left. pose proof (as_T_narrow d Hb). pose proof (as_T_narrow f Hb). nia.
Qed.

Lemma wide_or_narrow : (is_signed T = false ∨ bits T < 32) ∨ (is_signed T = true ∧ 32 ≤ bits T).
Proof. destruct (is_signed T); [|by left; left]. destruct (Z.ltb_spec (bits T) 32); [left; by right | right; split; [done | lia]]. Qed.

Lemma fetchable_safe all safes rows : length safes = length rows → (∀ b, b ∈ safes → b = true) → Forall2 (fetchable all) safes rows.
Proof. intros Hl H. apply Forall2_same_length_lookup_2; [done|]. intros i b r Hb _ x _. left. apply H. by eapply list_elem_of_lookup_2. Qed.

Lemma fetchable_narrow g n all rows : is_signed T = false ∨ bits T < 32 → group_ok g n → length rows = n → Forall2 (fetchable all) (group_safe g n) rows.
Proof.
  intros Hn Hg Hl. apply fetchable_safe; [by rewrite length_group_safe|]. destruct (narrow_safe Hn) as (H1 & H2 & H3). pose proof (go_count _ _ Hg) as Hc. intros b Hb.
  destruct g as [c|d f|w f o values|w f values]; cbn [group_safe] in Hb.
  - apply elem_of_replicate in Hb as [-> _]. done.
  - apply list_elem_of_fmap in Hb as (k & -> & Hk%elem_of_seq). rewrite H2, H3 by lia. done.
  - apply elem_of_lookup_imap in Hb as (k & v & -> & _). by rewrite !H1.
  - apply list_elem_of_fmap in Hb as (v & -> & _). by rewrite H1.
Qed.

(** ** The rows that wait to be packed *)

Definition present (values : list Z) (rows : list (option Z)) : Prop := Forall2 (λ v r, ∀ x, r = Some x → v = x) values rows.

Record buffered (st : BitpackingState) (rows : list (option Z)) : Prop := {
  bu_length : length (compression_buffer st) = GROUP;
  bu_count : compression_buffer_idx st = length rows;
  bu_values : present (take (length rows) (compression_buffer st)) rows;
  bu_range : ∀ x, Some x ∈ rows → in_range T x ∧ minimum st ≤ x ≤ maximum st;
  bu_valid : all_valid st = true → Forall is_Some rows;
  bu_invalid : if all_invalid st then (∀ x, Some x ∉ rows) ∧ minimum st = NumericLimits_Maximum T ∧ maximum st = NumericLimits_Minimum T else Some (minimum st) ∈ rows ∧ Some (maximum st) ∈ rows;
}.

Lemma TrySubtract_ok signed w l r old d : TrySubtract signed w l r old = (true, d) →
  d = l - r ∧ if signed then - 2 ^ (w - 1) ≤ d < 2 ^ (w - 1) else 0 ≤ d < 2 ^ w.
Proof.
  unfold TrySubtract. destruct ((_ <=? l - r) && (l - r <=? _)) eqn:E; [|done]. intros [= <-]. apply andb_true_iff in E as [E1%Z.leb_le E2%Z.leb_le]. split; [done|]. destruct signed; lia.
Qed.

Lemma SubtractFrameOfReference_range f l : Forall (λ v, 0 ≤ v < 2 ^ bits T) (SubtractFrameOfReference T f l).
Proof. apply Forall_fmap, Forall_forall. intros x _. apply wrapu_range. pose proof (bits_bounds T HT). lia. Qed.

(** A value minus the frame of reference, in so many bits. *)
Lemma frame_of_reference_value w f v hi : 0 ≤ v - f ≤ hi → hi < 2 ^ w → w ≤ bits T → 0 ≤ w → as_unsigned T (as_unsigned T v - as_unsigned T f) mod 2 ^ w = v - f.
Proof.
  intros Hv Hw Hb H0. assert (2 ^ w ≤ 2 ^ bits T) by (by apply Z.pow_le_mono_r).
  assert (as_unsigned T (as_unsigned T v - as_unsigned T f) = v - f) as ->; [|apply Z.mod_small; lia].
  assert (eqm T (as_unsigned T (as_unsigned T v - as_unsigned T f)) (v - f)) as H' by (by rewrite !as_unsigned_eqm).
  unfold eqm in H'. rewrite (Z.mod_small (v - f)) in H' by lia. rewrite <- H'. symmetry. apply Z.mod_small. apply wrapu_range. lia.
Qed.

(** ** Differences *)

Lemma fold_max l : ∀ a, a ≤ fold_left Z.max l a ∧ ∀ x, x ∈ l → x ≤ fold_left Z.max l a.
Proof.
  induction l as [|y l IH]; intros a; cbn; [split; [lia | by intros x Hx%elem_of_nil]|]. destruct (IH (Z.max a y)) as [H1 H2].
  split; [lia|]. intros x [->|Hx]%elem_of_cons; [lia | by apply H2].
Qed.
Lemma fold_min l : ∀ a, fold_left Z.min l a ≤ a ∧ ∀ x, x ∈ l → fold_left Z.min l a ≤ x.
Proof.
  induction l as [|y l IH]; intros a; cbn; [split; [lia | by intros x Hx%elem_of_nil]|]. destruct (IH (Z.min a y)) as [H1 H2].
  split; [lia|]. intros x [->|Hx]%elem_of_cons; [lia | by apply H2].
Qed.

Lemma mapM_exact {A B} (f : A → option B) (g : A → B) l k : (∀ x y, x ∈ l → f x = Some y → y = g x) → mapM f l = Some k → k = g <$> l.
Proof.
  intros Hf H%mapM_Some_1. induction H as [|x y l k Hx _ IH]; [done|]. cbn. f_equal; [apply Hf; [left | done]|]. apply IH. intros z w Hz. apply Hf. by right.
Qed.

(** No difference wraps around. *)
Lemma subtract_exact can_do_all l deltas : (can_do_all = true → ∀ x y, x ∈ l → y ∈ 0 :: l → - 2 ^ (bits T - 1) ≤ x - y < 2 ^ (bits T - 1)) →
  subtract_neighbours T can_do_all l = Some deltas → deltas = zip_with Z.sub l (0 :: l).
Proof.
  intros Hall H. pose proof (bits_bounds T HT). rewrite zip_with_zip. eapply mapM_exact; [|exact H]. intros [x y] d Hp Hd. cbn [fst snd uncurry] in *.
  destruct can_do_all; [injection Hd as <-; apply wraps_small; [lia|]; apply Hall; [done | by apply elem_of_zip_l in Hp | by apply elem_of_zip_r in Hp]|].
  destruct (TrySubtract true (bits T) x y 0) as [[] e] eqn:E; [|done]. injection Hd as <-. by apply TrySubtract_ok in E as [-> _].
Qed.

Lemma subtract_range can_do_all l deltas : subtract_neighbours T can_do_all l = Some deltas → ∀ d, d ∈ deltas → - 2 ^ (bits T - 1) ≤ d < 2 ^ (bits T - 1).
Proof.
  intros H%mapM_Some_1 d Hd. apply list_elem_of_lookup in Hd as [i Hi]. destruct (Forall2_lookup_r _ _ _ _ _ H Hi) as (p & _ & Hp).
  pose proof (bits_bounds T HT). destruct can_do_all.
  - injection Hp as <-. unfold as_signed, wraps. pose proof (M_half T HT). pose proof (Z.mod_pos_bound (p.1 - p.2 + 2 ^ (bits T - 1)) (2 ^ bits T) ltac:(pose proof (half_bounds T HT); lia)). lia.
  - destruct (TrySubtract true (bits T) p.1 p.2 0) as [[] e] eqn:E; [|done]. injection Hp as <-. apply TrySubtract_ok in E as [_ E]. done.
Qed.

Lemma fold_max_below l : ∀ a m, a < m → (∀ x, x ∈ l → x < m) → fold_left Z.max l a < m.
Proof. induction l as [|y l IH]; intros a m Ha Hl; [done|]. cbn. apply IH; [pose proof (Hl y ltac:(left)); lia | intros x Hx; apply Hl; by right]. Qed.
Lemma fold_min_above l : ∀ a m, m ≤ a → (∀ x, x ∈ l → m ≤ x) → m ≤ fold_left Z.min l a.
Proof. induction l as [|y l IH]; intros a m Ha Hl; [done|]. cbn. apply IH; [pose proof (Hl y ltac:(left)); lia | intros x Hx; apply Hl; by right]. Qed.

(** What the statistics of the differences say. *)
Record delta_ok (xs : list Z) (d : delta_stats) : Prop := {
  do_length : (2 ≤ length xs)%nat;
  do_buffer : ∃ x l, xs = x :: l ∧ delta_buffer d = minimum_delta d :: zip_with Z.sub l xs ∧ delta_offset d = x - minimum_delta d;
  do_bounds : ∀ y, y ∈ delta_buffer d → minimum_delta d ≤ y ≤ maximum_delta d;
  do_diff : min_max_delta_diff d = maximum_delta d - minimum_delta d;
  do_small : 0 ≤ min_max_delta_diff d < 2 ^ (bits T - 1);
  do_range : - 2 ^ (bits T - 1) ≤ minimum_delta d ∧ maximum_delta d < 2 ^ (bits T - 1);
  do_offset : - 2 ^ (bits T - 1) ≤ delta_offset d < 2 ^ (bits T - 1);
}.

Lemma CalculateDeltaStats_ok st rows d : buffered st rows → CalculateDeltaStats T st = Some d →
  ∃ xs, rows = Some <$> xs ∧ take (length rows) (compression_buffer st) = xs ∧ delta_ok xs d.
Proof.
  intros [B1 B2 B3 B4 B5 B6] H. unfold CalculateDeltaStats in H. destruct (Z.ltb_spec (Signed_Maximum T) (maximum st)) as [|Hmax]; [done|].
  destruct (Nat.ltb_spec (compression_buffer_idx st) 2) as [|Hidx]; [done|]. destruct (all_valid st) eqn:Ev; [|done]. specialize (B5 eq_refl). cbn [negb] in H. rewrite B2 in *.
  set (xs := take (length rows) (compression_buffer st)) in *. pose proof (Forall2_length _ _ _ B3) as Hlen.
  assert (rows = Some <$> xs) as Hrows.
  { clear - B3 B5. induction B3 as [|v r xs rows Hv _ IH]; [done|]. apply Forall_cons in B5 as [[x ->] B5]. cbn. rewrite (Hv x eq_refl). by rewrite <- IH. }
  exists xs. split_and!; [done | done|].
  assert (∀ x, x ∈ xs → - 2 ^ (bits T - 1) ≤ x < 2 ^ (bits T - 1) ∧ (is_signed T = false → 0 ≤ x) ∧ minimum st ≤ x ≤ maximum st) as Hx.
  { intros x Hx. destruct (B4 x) as [H1 H2]; [rewrite Hrows; by apply list_elem_of_fmap_2|]. unfold in_range in H1. destruct (packed_facts T HT) as (_ & Hw & _). rewrite Hw in H1.
    unfold Signed_Maximum in Hmax. pose proof (half_bounds T HT). destruct (is_signed T); split_and!; intros; first [done | lia]. }
  pose proof (bits_bounds T HT) as Hb. assert (as_signed T <$> xs = xs) as Es by (rewrite <- (list_fmap_id xs) at 2; apply list_fmap_ext; intros i x Hi; apply wraps_small; [lia|]; by apply Hx; eapply list_elem_of_lookup_2).
  rewrite Es in H. set (can := if is_signed T then _ else true) in H. destruct (subtract_neighbours T can xs) as [deltas|] eqn:Ed; [|done].
  assert (Some (minimum st) ∈ rows ∧ Some (maximum st) ∈ rows) as [Hmin' Hmax'].
  { destruct (all_invalid st); [|done]. destruct xs as [|x xs']; [cbn in Hlen; lia|]. destruct B6 as [B6 _]. destruct (B6 x). rewrite Hrows. left. }
  rewrite Hrows in Hmin', Hmax'. apply list_elem_of_fmap in Hmin' as (? & [= <-] & Hmin'). apply list_elem_of_fmap in Hmax' as (? & [= <-] & Hmax').
  pose proof (subtract_range _ _ _ Ed) as Hrange. assert (deltas = zip_with Z.sub xs (0 :: xs)) as ->.
  { eapply subtract_exact; [|exact Ed]. intros Hcan x y Hxin [->|Hy]%elem_of_cons; [rewrite Z.sub_0_r; by apply Hx|]. unfold can in Hcan. destruct (is_signed T).
    - apply andb_true_iff in Hcan as [H1 H2]. unfold as_signed in H1, H2. rewrite !wraps_small in H1, H2 by (lia || by apply Hx).
      destruct (TrySubtract true _ _ (maximum st) _) as [[] ?] eqn:E1; [|done]. destruct (TrySubtract true _ (maximum st) _ _) as [[] ?] eqn:E2; [|done].
      apply TrySubtract_ok in E1 as [-> E1]. apply TrySubtract_ok in E2 as [-> E2]. pose proof (Hx x Hxin). pose proof (Hx y Hy). lia.
    - destruct (Hx x Hxin) as (? & ? & _), (Hx y Hy) as (? & ? & _). lia. }
  cbn [mbind option_bind] in H. destruct xs as [|x0 l]; [cbn in Hlen; lia|]. cbn [zip_with drop head] in H.
  set (ds := zip_with Z.sub l (x0 :: l)) in *. rewrite drop_0 in H. set (mx := fold_left Z.max ds _) in *. set (mn := fold_left Z.min ds _) in *.
  destruct (TrySubtract true (bits T) mx mn 0) as [ok1 diff] eqn:E1. destruct (TrySubtract true (bits T) (default 0 (Some x0)) mn 0) as [ok2 off] eqn:E2.
  destruct ok1, ok2; try done. injection H as <-. apply TrySubtract_ok in E1 as [-> E1]. apply TrySubtract_ok in E2 as [-> E2]. cbn [from_option default] in *.
  assert (∃ y, y ∈ ds) as [y0 Hy0] by (destruct l as [|x1 l]; [cbn in *; lia | exists (x1 - x0); left]).
  destruct (fold_max ds (Signed_Minimum T)) as [_ Hmx]. destruct (fold_min ds (Signed_Maximum T)) as [_ Hmn]. fold mx in Hmx. fold mn in Hmn. pose proof (Hmx _ Hy0). pose proof (Hmn _ Hy0).
  split; cbn [delta_buffer minimum_delta maximum_delta min_max_delta_diff delta_offset].
  - cbn in *. lia.
  - by exists x0, l.
  - intros y [->|Hy]%elem_of_cons; [lia|]. split; [by apply Hmn | by apply Hmx].
  - done.
  - lia.
  - assert (∀ y, y ∈ ds → - 2 ^ (bits T - 1) ≤ y < 2 ^ (bits T - 1)) as Hds by (intros y Hy; apply Hrange; cbn; by right). pose proof (half_bounds T HT).
    split; [apply fold_min_above; [unfold Signed_Maximum; lia | intros y Hy; apply Hds, Hy] | apply fold_max_below; [unfold Signed_Minimum; lia | intros y Hy; apply Hds, Hy]].
  - done.
Qed.
(** ** The choice of a mode *)

Lemma limits_eq : NumericLimits_Minimum T = (if is_signed T then - 2 ^ (bits T - 1) else 0) ∧ NumericLimits_Maximum T = (if is_signed T then 2 ^ (bits T - 1) - 1 else 2 ^ bits T - 1).
Proof. destruct T; try discriminate HT; by vm_compute. Qed.


(** The group decodes to the rows. *)
Definition decodes (g : packed_group) (rows : list (option Z)) : Prop :=
  group_ok g (length rows) ∧ present (group_rows g (length rows)) rows ∧ Forall2 (fetchable rows) (group_safe g (length rows)) rows.

(** A row of a signed type of at least 32 bits. *)
Lemma in_range_signed x : is_signed T = true → in_range T x ↔ - 2 ^ (bits T - 1) ≤ x < 2 ^ (bits T - 1).
Proof. intros Hs. unfold in_range. destruct (packed_facts T HT) as (_ & -> & _). by rewrite Hs. Qed.

Lemma present_intro values rows : length values = length rows → (∀ i x, rows !! i = Some (Some x) → values !! i = Some x) → present values rows.
Proof.
  intros Hl H. apply Forall2_same_length_lookup_2; [done|]. intros i v r Hv Hr x ->. specialize (H i x Hr). congruence.
Qed.

Lemma present_lookup values rows i x : present values rows → rows !! i = Some (Some x) → values !! i = Some x.
Proof. intros H Hi. destruct (Forall2_lookup_r _ _ _ _ _ H Hi) as (v & Hv & Hx). by rewrite Hv, (Hx x eq_refl). Qed.

Lemma constant_group st rows : buffered st rows → (0 < length rows ≤ GROUP)%nat → all_invalid st = true ∨ maximum st = minimum st → decodes (GroupConstant (maximum st)) rows.
Proof.
  intros [B1 B2 B3 B4 B5 B6] Hn Hc. split_and!; [by split | | apply fetchable_safe; [apply length_replicate | by intros b [-> _]%elem_of_replicate]]. cbn [group_rows]. apply present_intro; [by rewrite length_replicate|]. intros i x Hi. pose proof (lookup_lt_Some _ _ _ Hi).
  pose proof (list_elem_of_lookup_2 _ _ _ Hi) as Hx. rewrite lookup_replicate_2 by done. f_equal. destruct (B4 x Hx) as [Hr Hb].
  destruct Hc as [Ha|Hc]; [rewrite Ha in B6; destruct B6 as [B6 _]; by destruct (B6 x)|]. assert (x = maximum st) as -> by lia. by apply as_T_range.
Qed.

Lemma for_group st rows diff : buffered st rows → (0 < length rows ≤ GROUP)%nat → CalculateFORStats T st = (true, diff) →
  decodes (GroupFor (MinimumBitWidth T false diff) (minimum st) (SubtractFrameOfReference T (minimum st) (take (length rows) (compression_buffer st)))) rows.
Proof.
  intros [B1 B2 B3 B4 B5 B6] Hn Hd. apply TrySubtract_ok in Hd as [-> Hd]. pose proof (M_half T HT). pose proof (half_bounds T HT). pose proof (Forall2_length _ _ _ B3) as Hl.
  assert (0 ≤ maximum st - minimum st < 2 ^ bits T) as Hdiff.
  { pose proof limits_eq as [L1 L2]. destruct (all_invalid st); [destruct B6 as (_ & B6 & B6'); rewrite B6, B6', L1, L2 in *|destruct B6 as [Hx _]; destruct (B4 _ Hx) as [_ ?]]; destruct (is_signed T); lia. }
  destruct (MinimumBitWidth_enough T _ HT Hdiff) as [Hw Hv].
  assert (group_ok (GroupFor (MinimumBitWidth T false (maximum st - minimum st)) (minimum st) (SubtractFrameOfReference T (minimum st) (take (length rows) (compression_buffer st)))) (length rows)) as Hg.
  { split; [done | | done]. intros w values [= <- <-]. split_and!; [lia | lia | unfold SubtractFrameOfReference; by rewrite length_fmap | apply SubtractFrameOfReference_range]. }
  assert (∀ x, Some x ∈ rows → as_unsigned T (as_unsigned T x - as_unsigned T (minimum st)) mod 2 ^ MinimumBitWidth T false (maximum st - minimum st) = x - minimum st) as Hval.
  { intros x Hx. destruct (B4 x Hx) as [Hr Hb]. by rewrite (frame_of_reference_value _ _ _ (maximum st - minimum st)) by lia. }
  split_and!; [done | |].
  2: { destruct wide_or_narrow as [Hnar|[Hs Hwide]]; [by apply fetchable_narrow|]. cbn [group_safe]. unfold SubtractFrameOfReference. rewrite <- list_fmap_compose.
       apply Forall2_same_length_lookup_2; [by rewrite length_fmap|]. intros i safe r Hi Hri x ->. left. rewrite list_lookup_fmap, (present_lookup _ _ _ _ B3 Hri) in Hi. cbn in Hi. injection Hi as <-.
       pose proof (list_elem_of_lookup_2 _ _ _ Hri) as Hx. rewrite Hval by done. destruct (B4 x Hx) as [Hr Hb]. rewrite Hs in Hd. rewrite in_range_signed in Hr by done.
       assert (in_range T (minimum st)) as Hmin by (destruct (all_invalid st); [by destruct (proj1 B6 x) | by apply (B4 _ (proj1 B6))]). rewrite (as_T_range T HT (x - minimum st)), (as_T_range T HT (minimum st)); [|done | apply in_range_signed; [done | lia]].
       apply fits_range. replace (x - minimum st + minimum st) with x by lia. by apply in_range_signed. }
  { cbn [group_rows]. unfold SubtractFrameOfReference. rewrite <- list_fmap_compose. apply present_intro; [by rewrite length_fmap|]. intros i x Hi.
    rewrite list_lookup_fmap, (present_lookup _ _ _ _ B3 Hi). cbn [fmap option_fmap option_map]. f_equal. unfold compose. destruct (B4 x) as [Hr Hb]; [by eapply list_elem_of_lookup_2|].
    rewrite Hval by (by eapply list_elem_of_lookup_2). rewrite Z.sub_add. by apply as_T_range. }
Qed.

Lemma as_T_list l rows : present l rows → Forall is_Some rows → (∀ x, Some x ∈ rows → in_range T x) → as_T T <$> l = l.
Proof.
  intros Hp Hs Hr. rewrite <- (list_fmap_id l) at 2. apply list_fmap_ext. intros i x Hi. apply as_T_range; [done|]. apply Hr. 
  destruct (Forall2_lookup_l _ _ _ _ _ Hp Hi) as (r & Hri & Hx). destruct (proj1 (Forall_lookup _ _) Hs _ _ Hri) as [y ->]. rewrite (Hx y eq_refl). by eapply list_elem_of_lookup_2.
Qed.

Lemma progression x0 l d : (∀ y, y ∈ zip_with Z.sub l (x0 :: l) → y = d) → ∀ i x, (x0 :: l) !! i = Some x → x = x0 + Z.of_nat i * d.
Proof.
  revert x0. induction l as [|x1 l IH]; intros x0 Hall [|i] x Hi; try (injection Hi as <-; lia); [done|].
  assert (x1 - x0 = d) as Hs by (apply Hall; left). rewrite (IH x1) with (i := i) (x := x); [lia | | done]. intros y Hy. apply Hall. by right.
Qed.

Lemma progression_length x0 l d : (length (x0 :: l) ≤ GROUP)%nat → (∀ y, y ∈ zip_with Z.sub l (x0 :: l) → y = d) → (∀ x, x ∈ x0 :: l → in_range T x) →
  T = INT8 ∨ d = 0 ∨ Z.of_nat (length (x0 :: l)) ≤ NumericLimits_Maximum T + 1.
Proof.
  rewrite GROUP_eq. intros Hn Hall Hr. destruct (decide (T = INT8)); [by left|]. destruct (decide (d = 0)); [by right; left|]. right; right.
  destruct (decide (T = UINT8)) as [E|]; [|assert (32767 ≤ NumericLimits_Maximum T) by (destruct T; try discriminate HT; done); lia].
  destruct (lookup_lt_is_Some_2 (x0 :: l) (length l)) as [x Hx]; [cbn; lia|]. pose proof (progression _ _ _ Hall _ _ Hx) as Hp.
  assert (in_range T x0 ∧ in_range T x) as [H0 Hx'] by (split; apply Hr; [left | by eapply list_elem_of_lookup_2]). rewrite E in *. unfold in_range in *. cbn in H0, Hx'. change (NumericLimits_Maximum UINT8) with 255. cbn [length]. nia.
Qed.

Lemma constant_delta_group st rows d : buffered st rows → (length rows ≤ GROUP)%nat → CalculateDeltaStats T st = Some d → maximum_delta d = minimum_delta d →
  decodes (GroupConstantDelta (maximum_delta d) (default 0 (head (take (length rows) (compression_buffer st))))) rows.
Proof.
  intros Hb Hn Hd Hc. destruct (CalculateDeltaStats_ok st rows d Hb Hd) as (xs & Hrows & Hxs & [D1 (x0 & l & -> & D2 & D3) D4 D5 D6 D7 D8]). rewrite Hxs. cbn [head from_option default Datatypes.id].
  assert (length rows = length (x0 :: l)) as Hl by (rewrite Hrows; by rewrite length_fmap).
  assert (∀ y, y ∈ zip_with Z.sub l (x0 :: l) → y = maximum_delta d) as Hall by (intros y Hy; specialize (D4 y); rewrite D2 in D4; specialize (D4 ltac:(by right)); lia).
  assert (∀ x, x ∈ x0 :: l → in_range T x) as Hr by (intros x Hx; apply (bu_range _ _ Hb); rewrite Hrows; by apply list_elem_of_fmap_2).
  assert (group_ok (GroupConstantDelta (maximum_delta d) x0) (length rows)) as Hg by (split; [lia | done | rewrite Hl; by apply (progression_length x0 l); [lia | done | done]]).
  split_and!; [done | |].
  2: { destruct wide_or_narrow as [Hnar|[Hs Hwide]]; [by apply fetchable_narrow|]. cbn [group_safe]. apply Forall2_same_length_lookup_2; [by rewrite length_fmap, length_seq|].
       intros i safe r Hi Hri x ->. pose proof (lookup_lt_Some _ _ _ Hri). rewrite list_lookup_fmap, lookup_seq_lt in Hi by done. injection Hi as <-. rewrite ?Nat.add_0_l.
       rewrite Hrows, list_lookup_fmap in Hri. apply fmap_Some in Hri as (y & Hri & [= <-]). pose proof (progression _ _ _ Hall i x Hri) as Hp. pose proof (Hr x ltac:(by eapply list_elem_of_lookup_2)) as Hrx. pose proof (Hr x0 ltac:(left)) as Hr0.
       rewrite (as_T_range T HT (maximum_delta d)), (as_T_range T HT x0) by (done || (apply in_range_signed; [done | lia])). rewrite (fits_range (_ + x0)) by (by rewrite Z.add_comm, <- Hp). rewrite andb_true_r.
       destruct (fits_arithmetic T (Z.of_nat i * maximum_delta d)) eqn:Ef; [by left|]. right. split; [done|]. split; [done|]. exists x0. split; [rewrite Hrows; left|].
       intros Hin. replace (x - x0) with (Z.of_nat i * maximum_delta d) in Hin by lia. rewrite fits_range in Ef by done. done. }
  cbn [group_rows]. rewrite Hl.
  apply present_intro; [by rewrite length_fmap, length_seq|]. intros i x Hi. rewrite Hrows, list_lookup_fmap in Hi. apply fmap_Some in Hi as (y & Hi & [= ->]). rename y into x.
  pose proof (lookup_lt_Some _ _ _ Hi). rewrite list_lookup_fmap, lookup_seq_lt by done. cbn [fmap option_fmap option_map]. f_equal. rewrite Nat.add_0_l.
  rewrite <- (progression _ _ _ Hall i x Hi). apply as_T_range; [done|]. by apply Hr, (list_elem_of_lookup_2 _ i).
Qed.

Lemma delta_for_group st rows d : buffered st rows → (length rows ≤ GROUP)%nat → CalculateDeltaStats T st = Some d →
  decodes (GroupDeltaFor (MinimumBitWidth T false (min_max_delta_diff d)) (as_T T (minimum_delta d)) (delta_offset d) (SubtractFrameOfReference T (minimum_delta d) (delta_buffer d))) rows.
Proof.
  intros Hb Hn Hd. destruct (CalculateDeltaStats_ok st rows d Hb Hd) as (xs & Hrows & Hxs & [D1 (x0 & l & -> & D2 & D3) D4 D5 D6 D7 D8]).
  assert (length rows = length (x0 :: l)) as Hl by (rewrite Hrows; by rewrite length_fmap). pose proof (M_half T HT). pose proof (half_bounds T HT).
  destruct (MinimumBitWidth_enough T (min_max_delta_diff d) HT) as [Hw Hv]; [lia|]. set (w := MinimumBitWidth T false (min_max_delta_diff d)) in *.
  assert (Hlen : length (delta_buffer d) = length rows) by (rewrite D2, Hl; cbn [length]; rewrite length_zip_with; cbn [length]; lia).
  assert (Hval : ∀ y, y ∈ delta_buffer d → as_unsigned T (as_unsigned T y - as_unsigned T (minimum_delta d)) mod 2 ^ w = y - minimum_delta d).
  { intros y Hy. specialize (D4 y Hy). by rewrite (frame_of_reference_value _ _ _ (min_max_delta_diff d)) by lia. }
  assert (Hsums : sums (delta_offset d) (delta_buffer d) = x0 :: l).
  { rewrite D2, D3. cbn [sums]. replace (x0 - minimum_delta d + minimum_delta d) with x0 by lia. by rewrite sums_differences. }
  assert (Hg : group_ok (GroupDeltaFor w (as_T T (minimum_delta d)) (delta_offset d) (SubtractFrameOfReference T (minimum_delta d) (delta_buffer d))) (length rows)).
  { split; [lia | | done]. intros w' values [= <- <-]. split_and!; [lia | lia | unfold SubtractFrameOfReference; by rewrite length_fmap | apply SubtractFrameOfReference_range]. }
  assert (Hrange : ∀ x, x ∈ x0 :: l → in_range T x) by (intros x Hx; apply (bu_range _ _ Hb); rewrite Hrows; by apply list_elem_of_fmap_2).
  split_and!; [done | |].
  - cbn [group_rows]. rewrite (sums_same T HT _ (delta_buffer d)) with (acc' := delta_offset d); [| |done].
    + rewrite Hsums. pose proof (bu_values _ _ Hb) as Hp. rewrite Hxs in Hp. rewrite (as_T_list _ rows); [done | done | |intros x Hx; by apply (bu_range _ _ Hb)]. rewrite Hrows. apply Forall_fmap, Forall_forall. intros x _. by exists x.
    + unfold SubtractFrameOfReference. rewrite <- list_fmap_compose. apply Forall2_fmap_l, Forall_Forall2_diag, Forall_forall. intros y Hy. unfold compose.
      rewrite Hval by done. replace y with (y - minimum_delta d + minimum_delta d) at 2 by lia. by apply eqm_add; [| | apply as_T_eqm].
  - destruct wide_or_narrow as [Hnar|[Hs Hwide]]; [by apply fetchable_narrow|].
    assert (Hmin : as_T T (minimum_delta d) = minimum_delta d) by (apply as_T_range; [done|]; apply in_range_signed; [done | lia]).
    assert (Hds : (λ v, v mod 2 ^ w + minimum_delta d) <$> SubtractFrameOfReference T (minimum_delta d) (delta_buffer d) = delta_buffer d).
    { unfold SubtractFrameOfReference. rewrite <- list_fmap_compose. rewrite <- (list_fmap_id (delta_buffer d)) at 2. apply list_fmap_ext. intros i y Hi. unfold compose. rewrite Hval by (by eapply list_elem_of_lookup_2). unfold Datatypes.id. cbn. lia. }
    apply fetchable_safe; [by rewrite length_group_safe|]. intros safe Hsafe. cbn [group_safe] in Hsafe. rewrite Hmin, Hds, Hmin in Hsafe. apply elem_of_lookup_imap in Hsafe as (k & v & -> & Hk).
    unfold SubtractFrameOfReference in Hk. rewrite list_lookup_fmap in Hk. apply fmap_Some in Hk as (y & Hk & ->). pose proof (list_elem_of_lookup_2 _ _ _ Hk) as Hy. rewrite Hval by done. specialize (D4 y Hy).
    rewrite (as_T_range T HT (y - minimum_delta d)) by (apply in_range_signed; [done | lia]). replace (y - minimum_delta d + minimum_delta d) with y by lia.
    assert (in_range T y) as Hry by (apply in_range_signed; [done | lia]). rewrite (fits_range y), (as_T_range T HT y) by done. cbn [andb].
    assert (Hbefore : in_range T (sum_before (delta_offset d) (delta_buffer d) k)).
    { unfold sum_before. rewrite Hsums. destruct (last (take k (x0 :: l))) as [z|] eqn:Ez; cbn; [|by apply in_range_signed]. apply Hrange. apply last_Some_elem_of in Ez. by eapply elem_of_take in Ez as (i & Hi & _); eapply list_elem_of_lookup_2. }
    rewrite (as_T_range T HT (sum_before _ _ _)) by done. apply fits_range, Hrange. pose proof (lookup_lt_Some _ _ _ Hk) as Hlt.
    destruct (lookup_lt_is_Some_2 (x0 :: l) k) as [x Hx]; [rewrite <- Hl, <- Hlen; done|]. replace (y + sum_before (delta_offset d) (delta_buffer d) k) with x; [by eapply list_elem_of_lookup_2|].
    pose proof (drop_sums k (delta_offset d) (delta_buffer d) ltac:(lia)) as Hd'. rewrite Hsums, (drop_S _ _ _ Hx), (drop_S _ _ _ Hk) in Hd'. cbn in Hd'. injection Hd' as -> _. lia.
Qed.

(** Whatever mode is chosen, the group decodes to the rows. *)
Lemma choose_group_ok mode st rows g size : buffered st rows → (0 < length rows ≤ GROUP)%nat → choose_group T mode st = Some (g, size) → decodes g rows.
Proof.
  intros Hb Hn H. unfold choose_group in H. rewrite (bu_count _ _ Hb) in H. destruct ((all_invalid st || (maximum st =? minimum st)) && _) eqn:Ec.
  { injection H as <- <-. apply (constant_group st); [done | done|]. apply andb_true_iff in Ec as [[Ha|Hm%Z.eqb_eq]%orb_true_iff _]; auto. }
  destruct (CalculateFORStats T st) as [can diff] eqn:Ef. destruct (CalculateDeltaStats T st) as [d|] eqn:Ed.
  - destruct ((maximum_delta d =? minimum_delta d) && _ && _) eqn:E1; [injection H as <- <-; apply constant_delta_group; [done | lia | done|]; apply andb_true_iff in E1 as [[E1%Z.eqb_eq _]%andb_true_iff _]; done|].
    destruct ((_ <? _) && _); [injection H as <- <-; apply (delta_for_group st); [done | lia | done]|]. destruct can; [|done]. injection H as <- <-. by apply (for_group st).
  - destruct can; [|done]. injection H as <- <-. by apply (for_group st).
Qed.
End Groups.

(** * Layout *)

Lemma RoundUp_eq n : ∃ q, RoundUpToAlgorithmGroupSize n = (q * 32)%nat ∧ (n ≤ q * 32 < n + 32)%nat.
Proof.
  unfold RoundUpToAlgorithmGroupSize. change ALGORITHM_GROUP with 32%nat. pose proof (Nat.div_mod n 32 ltac:(lia)). pose proof (Nat.mod_upper_bound n 32 ltac:(lia)).
  destruct (Nat.eqb_spec (n mod 32) 0); [exists (n / 32)%nat | exists (n / 32 + 1)%nat]; lia.
Qed.

(** Writing twice, one behind the other. *)
Lemma store_twice (b : Block) a l1 l2 : map_seqZ (a + Z.of_nat (length l1)) l2 ∪ (map_seqZ a l1 ∪ b) = map_seqZ a (l1 ++ l2) ∪ b.
Proof. rewrite map_seqZ_app, (map_union_comm (map_seqZ a l1) (map_seqZ _ l2)) by apply map_seqZ_app_disjoint. by rewrite map_union_assoc. Qed.

Section Layout.
Context (T : PhysicalType) (HT : packed_type T = true) (uninitialised : Z).

(** The values of 32 rows, with what is behind the last ones. *)
Definition chunk (values : list Z) (k : nat) : list Z :=
  take ALGORITHM_GROUP (drop (k * ALGORITHM_GROUP) (values ++ replicate (RoundUpToAlgorithmGroupSize (length values) - length values) uninitialised)).

Definition pack_chunk (w : Z) (values : list Z) (k : nat) : list Z :=
  match fastpack uninitialised (bits T) w (as_unsigned T <$> chunk values k) with Ok bytes => bytes | Throw _ => [] end.

Definition pack_bytes (w : Z) (values : list Z) : list Z :=
  concat (pack_chunk w values <$> seq 0 (RoundUpToAlgorithmGroupSize (length values) / ALGORITHM_GROUP)).

Lemma length_chunk values k : (k * 32 < length values)%nat → length (chunk values k) = ALGORITHM_GROUP.
Proof.
  intros Hk. unfold chunk. destruct (RoundUp_eq (length values)) as (q & -> & Hq). change ALGORITHM_GROUP with 32%nat. rewrite length_take, length_drop, length_app, length_replicate.
  assert (k * 32 + 32 ≤ q * 32)%nat by nia. lia.
Qed.

Lemma packing_bits_ok : packing_bits T = Ok (bits T).
Proof. by destruct T. Qed.

Lemma pack_chunk_ok w values k : 0 ≤ w ≤ bits T → (k * 32 < length values)%nat →
  fastpack uninitialised (bits T) w (as_unsigned T <$> chunk values k) = Ok (pack_chunk w values k) ∧ Z.of_nat (length (pack_chunk w values k)) = 4 * w ∧
  fastunpack (bits T) w (pack_chunk w values k) = Ok ((λ v, as_unsigned T v `mod` 2 ^ w) <$> chunk values k).
Proof.
  intros Hw Hk. unfold pack_chunk. destruct (fastpack_roundtrip uninitialised (bits T) w (as_unsigned T <$> chunk values k)) as (bytes & -> & Hl & ->); [by destruct T; try discriminate; vm_compute; tauto | done | by rewrite length_fmap, length_chunk|].
  split_and!; [done | done | by rewrite <- list_fmap_compose].
Qed.

Lemma length_pack_chunk w values k : 0 ≤ w ≤ bits T → (k * 32 < length values)%nat → Z.of_nat (length (pack_chunk w values k)) = 4 * w.
Proof. intros Hw Hk. by apply pack_chunk_ok. Qed.

Lemma PackGroup_ok b dst w values k : 0 ≤ w ≤ bits T → (k * 32 < length values)%nat → PackGroup T uninitialised b dst (chunk values k) w = store_bytes b dst (pack_chunk w values k).
Proof. intros Hw Hk. unfold PackGroup. rewrite packing_bits_ok. cbn [mbind result_bind]. by rewrite (proj1 (pack_chunk_ok w values k Hw Hk)). Qed.

Lemma length_pack_chunks w values n : 0 ≤ w ≤ bits T → (n * 32 < length values + 32)%nat →
  Z.of_nat (length (concat (pack_chunk w values <$> seq 0 n))) = 4 * w * Z.of_nat n.
Proof.
  intros Hw Hn. induction n as [|n IH]; [cbn; lia|]. rewrite seq_S, fmap_app, concat_app, length_app, Nat2Z.inj_add, IH by lia. cbn. rewrite app_nil_r, length_pack_chunk by (done || lia). lia.
Qed.

Lemma length_pack_bytes w values : 0 ≤ w ≤ bits T → Z.of_nat (length (pack_bytes w values)) = GetRequiredSize (length values) w.
Proof.
  intros Hw. unfold pack_bytes, GetRequiredSize. destruct (RoundUp_eq (length values)) as (q & -> & Hq). change ALGORITHM_GROUP with 32%nat. rewrite Nat.div_mul, length_pack_chunks by lia.
  replace (Z.of_nat (q * 32) * w) with (4 * w * Z.of_nat q * 8) by lia. by rewrite Z.div_mul.
Qed.

(** [PackBuffer] writes these bytes. *)
Lemma PackBuffer_ok b dst w values : 0 ≤ w ≤ bits T → 0 ≤ dst → dst + GetRequiredSize (length values) w ≤ Storage_BLOCK_SIZE →
  PackBuffer T uninitialised b dst values w = Ok (map_seqZ dst (pack_bytes w values) ∪ b).
Proof.
  intros Hw Hd Hb. unfold PackBuffer. rewrite <- length_pack_bytes in Hb by done. unfold pack_bytes in *. set (n := length values) in *.
  pose proof (Nat.div_mod n 32 ltac:(lia)) as Hn. pose proof (Nat.mod_upper_bound n 32 ltac:(lia)). change ALGORITHM_GROUP with 32%nat in *.
  replace (n - n mod 32)%nat with (n / 32 * 32)%nat by lia. rewrite Nat.div_mul by lia.
  assert (∀ k, (k * 32 ≤ n)%nat → dst + Z.of_nat (k * 32) * w / 8 = dst + Z.of_nat (length (concat (pack_chunk w values <$> seq 0 k)))) as Hoff.
  { intros k Hk. rewrite length_pack_chunks by (done || lia). replace (Z.of_nat (k * 32) * w) with (4 * w * Z.of_nat k * 8) by lia. by rewrite Z.div_mul. }
  assert (∀ k, (k * 32 < n)%nat → dst + Z.of_nat (length (concat (pack_chunk w values <$> seq 0 k))) + Z.of_nat (length (pack_chunk w values k)) ≤ Storage_BLOCK_SIZE) as Hfit.
  { intros k Hk. etrans; [|exact Hb]. destruct (RoundUp_eq n) as (q & -> & Hq). rewrite Nat.div_mul, !length_pack_chunks, length_pack_chunk by (done || lia).
    assert (k + 1 ≤ q)%nat by nia. nia. }
  edestruct (foldM_seq (λ b k, PackGroup T uninitialised b (dst + Z.of_nat (k * 32) * w / 8) (take 32 (drop (k * 32) values)) w)
    (λ k b', b' = map_seqZ dst (concat (pack_chunk w values <$> seq 0 k)) ∪ b) b 0 (n / 32)) as (b' & -> & ->).
  - cbn. by rewrite map_empty_union.
  - intros k b' Hk ->. rewrite Nat.add_0_l, Hoff by nia.
    assert (take 32 (drop (k * 32) values) = chunk values k) as -> by (unfold chunk; change ALGORITHM_GROUP with 32%nat; rewrite drop_app_le, take_app_le by (rewrite ?length_drop; fold n; nia); done).
    rewrite PackGroup_ok by (done || (fold n; nia)). rewrite store_bytes_ok; [|lia | apply Hfit; nia]. eexists. split; [done|]. rewrite store_twice, seq_app, fmap_app, concat_app. cbn. by rewrite app_nil_r.
  - cbn [mbind result_bind]. destruct (Nat.eqb_spec (n mod 32) 0) as [E|E].
    + unfold RoundUpToAlgorithmGroupSize. change ALGORITHM_GROUP with 32%nat. by rewrite E.
    + assert (RoundUpToAlgorithmGroupSize n = (n / 32 + 1) * 32)%nat as Er by (unfold RoundUpToAlgorithmGroupSize; change ALGORITHM_GROUP with 32%nat; destruct (Nat.eqb_spec (n mod 32) 0); lia).
      assert (drop (n / 32 * 32) values ++ replicate (32 - n mod 32) uninitialised = chunk values (n / 32)) as ->.
      { unfold chunk. fold n. rewrite Er. change ALGORITHM_GROUP with 32%nat. rewrite drop_app_le by (fold n; lia). replace ((n / 32 + 1) * 32 - n)%nat with (32 - n mod 32)%nat by lia.
        rewrite take_ge; [done|]. rewrite length_app, length_drop, length_replicate. fold n. lia. }
      rewrite Er, Nat.div_mul, Hoff by lia. rewrite PackGroup_ok by (done || (fold n; nia)). rewrite store_bytes_ok; [|lia | apply Hfit; lia].
      f_equal. rewrite store_twice, seq_app, fmap_app, concat_app. cbn. by rewrite app_nil_r.
Qed.

(** ** Groups in a block *)

Definition group_bytes (g : packed_group) : list Z :=
  concat (encode_value T <$> group_header g) ++ match group_packed g with Some (w, values) => pack_bytes w values | None => [] end.

Lemma length_group_bytes g n : group_ok T g n → Z.of_nat (length (group_bytes g)) = packed_size g + Z.of_nat (length (group_header g)) * sizeof T.
Proof.
  intros [_ Hg]. unfold group_bytes. rewrite length_app, Nat2Z.inj_add, length_values. destruct g as [c|d f|w f o values|w f values]; cbn [group_packed packed_size group_header] in *; try (cbn; lia);
    (rewrite length_pack_bytes by (by apply (Hg w values)); cbn; lia).
Qed.

Abbreviation groups := (list (packed_group * nat)).

Definition data_bytes (gs : groups) : list Z := concat ((λ p, group_bytes p.1) <$> gs).

(** Where the data of a group starts, and its metadata. *)
Definition group_start (gs : groups) (i : nat) : Z := BITPACKING_HEADER_SIZE + Z.of_nat (length (data_bytes (take i gs))).
Definition metas (gs : groups) : list Z := imap (λ i p, EncodeMeta (group_mode p.1) (group_start gs i)) gs.

Record segment_bytes (b : Block) (data metadata : Z) (gs : groups) : Prop := {
  sb_data_ptr : data = BITPACKING_HEADER_SIZE + Z.of_nat (length (data_bytes gs));
  sb_metadata_ptr : metadata = Storage_BLOCK_SIZE - 4 * Z.of_nat (length gs);
  sb_data : bytes_at b BITPACKING_HEADER_SIZE (data_bytes gs);
  sb_metadata : bytes_at b metadata (concat (encode_value UINT32 <$> reverse (metas gs)));
}.

Lemma metas_snoc gs p : metas (gs ++ [p]) = metas gs ++ [EncodeMeta (group_mode p.1) (BITPACKING_HEADER_SIZE + Z.of_nat (length (data_bytes gs)))].
Proof.
  unfold metas. rewrite imap_app. cbn [imap]. f_equal.
  - apply imap_ext. intros i q Hi. unfold group_start. by rewrite take_app_le by (apply lookup_lt_Some in Hi; lia).
  - unfold group_start, compose. by rewrite Nat.add_0_r, take_app_length.
Qed.

Lemma data_bytes_snoc gs p : data_bytes (gs ++ [p]) = data_bytes gs ++ group_bytes p.1.
Proof. unfold data_bytes. rewrite fmap_app, concat_app. cbn. by rewrite app_nil_r. Qed.

Lemma length_metas gs : length (metas gs) = length gs.
Proof. apply length_imap. Qed.

Abbreviation block s := (cs_block (bp_segment s)).

Lemma WriteData_ok s x : 0 ≤ data_ptr s → data_ptr s + sizeof T ≤ Storage_BLOCK_SIZE →
  WriteData T s x = Ok (with_block s (map_seqZ (data_ptr s) (encode_value T x) ∪ block s) (data_ptr s + sizeof T) (metadata_ptr s)).
Proof. intros H0 Hb. unfold WriteData, Store. by rewrite store_bytes_ok by (rewrite ?length_encode; lia). Qed.

Lemma foldM_WriteData l : ∀ s, 0 ≤ data_ptr s → data_ptr s + sizeof T * Z.of_nat (length l) ≤ Storage_BLOCK_SIZE →
  foldM (WriteData T) s l = Ok (with_block s (map_seqZ (data_ptr s) (concat (encode_value T <$> l)) ∪ block s) (data_ptr s + sizeof T * Z.of_nat (length l)) (metadata_ptr s)).
Proof.
  pose proof (bits_bounds T HT) as Hs. induction l as [|x l IH]; intros s H0 Hb; cbn [foldM fmap list_fmap concat length] in *.
  - unfold with_block. rewrite Z.mul_0_r, Z.add_0_r. cbn. rewrite map_empty_union. by destruct s as [[] ? ? ?].
  - rewrite WriteData_ok by lia. cbn [mbind result_bind]. rewrite IH by (cbn; lia). unfold with_block. cbn [data_ptr metadata_ptr bp_segment cs_block cs_start cs_rows cs_stats bp_checkpoint].
    replace (data_ptr s + sizeof T) with (data_ptr s + Z.of_nat (length (encode_value T x))) at 1 by (by rewrite length_encode). rewrite store_twice. f_equal. f_equal. lia.
Qed.

(** A group is written behind the others. *)
Lemma write_group s g n gs : group_ok T g n → segment_bytes (block s) (data_ptr s) (metadata_ptr s) gs →
  data_ptr s + Z.of_nat (length (group_bytes g)) ≤ metadata_ptr s - 4 →
  ∃ b, (s ← WriteMetaData s (group_mode g); s ← foldM (WriteData T) s (group_header g);
        match g with GroupDeltaFor width _ _ values | GroupFor width _ values => WritePacked T uninitialised s values width | _ => Ok s end) =
       Ok (with_block s b (data_ptr s + Z.of_nat (length (group_bytes g))) (metadata_ptr s - 4)) ∧
     segment_bytes b (data_ptr s + Z.of_nat (length (group_bytes g))) (metadata_ptr s - 4) (gs ++ [(g, n)]).
Proof.
  intros Hg [S1 S2 S3 S4] Hfit. pose proof (bits_bounds T HT) as Hs. pose proof (length_group_bytes g n Hg) as Lg. pose proof (length_values T (group_header g)) as Lh.
  unfold BITPACKING_HEADER_SIZE in *. pose proof (eq_refl : Storage_BLOCK_SIZE = 262136) as HB.
  assert (0 ≤ packed_size g) as Hp by (destruct g; cbn [packed_size]; try done; unfold GetRequiredSize; apply Z.div_pos; try lia; destruct Hg as [_ Hg]; destruct (Hg _ _ eq_refl) as [[? ?] _]; nia).
  assert (0 ≤ sizeof T * Z.of_nat (length (group_header g))) as Hh by nia.
  unfold WriteMetaData, Store. assert (Z.of_nat (length (encode_value UINT32 (EncodeMeta (group_mode g) (wrapu 32 (data_ptr s))))) = 4) as L4 by apply length_encode.
  rewrite store_bytes_ok by lia. cbn [mbind result_bind]. set (b0 := map_seqZ _ _ ∪ _). rewrite foldM_WriteData by (cbn; lia). cbn [mbind result_bind].
  unfold with_block. cbn [data_ptr metadata_ptr bp_segment cs_block cs_start cs_rows cs_stats bp_checkpoint].
  set (b1 := map_seqZ (data_ptr s) _ ∪ b0). exists (map_seqZ (data_ptr s) (group_bytes g) ∪ b0). split.
  - destruct Hg as [_ Hg]. unfold group_bytes in *. destruct g as [c|d f|w f o values|w f values]; cbn [group_packed packed_size group_header] in *; rewrite ?app_nil_r, ?Lh in *; try done;
      (destruct (Hg w values eq_refl) as (Hw & Hl & Hv); rewrite length_app, Nat2Z.inj_add, Lh in *; unfold WritePacked; cbn [data_ptr bp_segment cs_block];
       rewrite length_pack_bytes in * by done; rewrite PackBuffer_ok by (done || lia); cbn [mbind result_bind]; unfold with_block; cbn [data_ptr metadata_ptr bp_segment cs_block cs_start cs_rows cs_stats bp_checkpoint];
       rewrite <- Lh; unfold b1; rewrite store_twice, Z.add_assoc; done).
  - unfold b0. split; unfold BITPACKING_HEADER_SIZE in *.
    + rewrite data_bytes_snoc, length_app. cbn [fst]. lia.
    + rewrite length_app. cbn. lia.
    + rewrite data_bytes_snoc. cbn [fst]. apply bytes_at_app; [apply bytes_at_store_other; [lia|]; apply bytes_at_store_other; [lia | done]|].
      rewrite <- S1. apply bytes_at_store_same.
    + rewrite metas_snoc, reverse_snoc. cbn [fmap list_fmap concat fst]. unfold BITPACKING_HEADER_SIZE. rewrite <- S1. assert (wrapu 32 (data_ptr s) = data_ptr s) as Ew by (unfold wrapu; apply Z.mod_small; change (2 ^ 32) with 4294967296; lia).
      pose proof (length_values UINT32 (reverse (metas gs))) as Lm. rewrite length_reverse, length_metas in Lm. change (sizeof UINT32) with 4 in Lm. rewrite Ew in *.
      apply bytes_at_app; [apply bytes_at_store_other; [lia | apply bytes_at_store_same]|].
      rewrite L4. replace (metadata_ptr s - 4 + 4) with (metadata_ptr s) by lia. apply bytes_at_store_other; [lia|]. apply bytes_at_store_other; [lia | done].
Qed.

(** ** Flushed segments *)

Definition bp_stored (b : Block) (gs : groups) : Prop :=
  ∃ top, top ≤ Storage_BLOCK_SIZE ∧ bytes_at b 0 (encode_value UINT64 top) ∧ bytes_at b BITPACKING_HEADER_SIZE (data_bytes gs) ∧
    BITPACKING_HEADER_SIZE + Z.of_nat (length (data_bytes gs)) ≤ top - 4 * Z.of_nat (length gs) ∧
    bytes_at b (top - 4 * Z.of_nat (length gs)) (concat (encode_value UINT32 <$> reverse (metas gs))).

(** The metadata is moved next to the data. *)
Lemma compact_groups b data metadata gs : segment_bytes b data metadata gs → 8 ≤ metadata - data →
  let offset := AlignValue data in
  let size := Storage_BLOCK_SIZE - metadata in
  ∃ b1 b2 b3, (if data =? offset then Ok b else store_bytes b data (replicate (Z.to_nat (offset - data)) 0)) = Ok b1 ∧
    memmove b1 offset metadata size = Ok b2 ∧ Store UINT64 b2 0 (offset + size) = Ok b3 ∧ bp_stored (filter (λ kv, kv.1 < offset + size) b3) gs.
Proof.
  intros [S1 S2 S3 S4] Hroom offset size. pose proof (AlignValue_bounds data) as Ha. fold offset in Ha. assert (size = Storage_BLOCK_SIZE - metadata) as Hsize by done. unfold BITPACKING_HEADER_SIZE in *. pose proof (eq_refl : Storage_BLOCK_SIZE = 262136) as HB.
  set (ms := concat (encode_value UINT32 <$> reverse (metas gs))) in *.
  assert (Z.of_nat (length ms) = size) as Lm. { unfold ms. rewrite length_values, length_reverse, length_metas. change (sizeof UINT32) with 4. lia. }
  assert (∃ b1, (if data =? offset then Ok b else store_bytes b data (replicate (Z.to_nat (offset - data)) 0)) = Ok b1 ∧ bytes_at b1 8 (data_bytes gs) ∧ bytes_at b1 metadata ms) as (b1 & E1 & H1 & H2).
  { destruct (Z.eqb_spec data offset); [by exists b|]. rewrite store_bytes_ok by (rewrite ?length_replicate; lia). eexists. split; [done|]. split; (apply bytes_at_store_other; [rewrite ?length_replicate; lia | done]). }
  rewrite E1. exists b1. unfold memmove. replace (Z.to_nat size) with (length ms) by lia. rewrite (load_bytes_at _ _ _ H2). cbn [mbind result_bind]. rewrite store_bytes_ok by lia. eexists _, _. split; [done|]. split; [done|].
  assert (Z.of_nat (length (encode_value UINT64 (offset + size))) = 8) as L8 by apply length_encode. unfold Store. rewrite store_bytes_ok by lia. split; [done|].
  exists (offset + size). split_and!.
  - lia.
  - apply bytes_at_filter; [lia|]. apply bytes_at_store_same.
  - unfold BITPACKING_HEADER_SIZE. apply bytes_at_filter; [lia|]. apply bytes_at_store_other; [lia|]. apply bytes_at_store_other; [lia | done].
  - unfold BITPACKING_HEADER_SIZE. lia.
  - fold ms. replace (offset + size - 4 * Z.of_nat (length gs)) with offset by lia. apply bytes_at_filter; [lia|]. apply bytes_at_store_other; [lia|]. apply bytes_at_store_same.
Qed.
End Layout.

(** * The encoder *)

Section Encoder.
Context (mode : BitpackingMode) (uninitialised : Z).
Context (type : LogicalType) (Hok : type_ok type) (Hkind : GetStatsType type = NUMERIC_STATS) (HT : packed_type (InternalType type) = true).
Abbreviation T := (InternalType type).
Abbreviation stats_ok := (stats_ok type).
Abbreviation covered := (covered type).
Abbreviation groups := (list (packed_group * nat)).
Abbreviation block s := (cs_block (bp_segment s)).
Abbreviation segment_bytes := (segment_bytes T uninitialised).

Definition all_group_rows (gs : groups) : list Z := concat ((λ p, group_rows T p.1 p.2) <$> gs).

Definition all_group_safe (gs : groups) : list bool := concat ((λ p, group_safe T p.1 p.2) <$> gs).

(** The groups decode to the rows, and can be fetched. *)
Definition groups_hold (gs : groups) (rows : list (option Z)) : Prop :=
  present (all_group_rows gs) rows ∧ Forall2 (fetchable T rows) (all_group_safe gs) rows.

(** All groups but the last are full. *)
Definition shape (gs : groups) : Prop := ∀ i p, gs !! i = Some p → group_ok T p.1 p.2 ∧ (S i < length gs → p.2 = GROUP)%nat.
Definition full (gs : groups) : Prop := Forall (λ p, group_ok T p.1 p.2 ∧ p.2 = GROUP) gs.

Lemma full_shape gs : full gs → shape gs.
Proof. intros H i p Hi. destruct (proj1 (Forall_lookup _ _) H _ _ Hi). by split. Qed.

Lemma full_snoc gs p : full gs → group_ok T p.1 p.2 → shape (gs ++ [p]).
Proof.
  intros H Hp i q Hi. apply lookup_app_Some in Hi as [Hi|[Hge Hi]]; [destruct (proj1 (Forall_lookup _ _) H _ _ Hi); by split|].
  apply list_lookup_singleton_Some in Hi as [Hi <-]. split; [done|]. rewrite length_app. cbn. lia.
Qed.

Definition bp_holds (b : Block) (rows : list (option Z)) : Prop := ∃ gs, bp_stored T uninitialised b gs ∧ shape gs ∧ groups_hold gs rows.

Record bp_segment_holds (start : Z) (s : BitpackingCompressState) (rss : list (list (option Z))) (gs : groups) (rows : list (option Z)) : Prop := {
  bs_checkpoint : checkpoint_holds type bp_holds start (bp_checkpoint s) rss;
  bs_start : cs_start (bp_segment s) = start + Z.of_nat (length (concat rss));
  bs_count : cs_rows (bp_segment s) = Z.of_nat (length rows);
  bs_bytes : segment_bytes (block s) (data_ptr s) (metadata_ptr s) gs;
  bs_room : 8 ≤ metadata_ptr s - data_ptr s;
  bs_rows : groups_hold gs rows;
  bs_stats : stats_ok (cs_stats (bp_segment s));
  bs_covered : covered (cs_stats (bp_segment s)) rows;
}.

Lemma BP_FlushSegment_ok start s rss gs rows : bp_segment_holds start s rss gs rows → shape gs →
  ∃ c rss', BP_FlushSegment s = Ok c ∧ checkpoint_holds type bp_holds start c rss' ∧ concat rss' = concat rss ++ rows.
Proof.
  intros [S1 S2 S3 S4 S5 S6 S7 S8] Hs. unfold BP_FlushSegment. assert (CanStore s 0 0 = true) as -> by (unfold CanStore, BITPACKING_HEADER_SIZE; change (AlignValue 0) with 0; apply Z.leb_le; lia). cbn [negb].
  destruct (compact_groups T HT uninitialised _ _ _ _ S4 S5) as (b1 & b2 & b3 & -> & E2 & E3 & Hst). cbn [mbind result_bind]. rewrite E2. cbn [mbind result_bind]. rewrite E3. cbn [mbind result_bind].
  eapply (Checkpoint_FlushSegment_ok type Hok Hkind bp_holds); [done.. | by exists gs].
Qed.

Lemma empty_bp_segment start row_start c rss stats : checkpoint_holds type bp_holds start c rss → row_start = start + Z.of_nat (length (concat rss)) → stats_ok stats →
  bp_segment_holds start (mkBPCompress (mkCompressed row_start 0 stats ∅) BITPACKING_HEADER_SIZE Storage_BLOCK_SIZE c) rss [] [].
Proof.
  intros Hc Hs Hst. split; cbn; try done; [by split; apply Forall2_nil_2 | by intros x Hx%elem_of_nil].
Qed.

(** Space for a group, if needed in a new segment. *)
Lemma ReserveSpace_ok start s rss gs rows bytes : bp_segment_holds start s rss gs rows → full gs → 0 ≤ bytes ≤ 100000 →
  ∃ s' rss' gs' rows', ReserveSpace type s bytes = Ok s' ∧ bp_segment_holds start s' rss' gs' rows' ∧ full gs' ∧ concat rss' ++ rows' = concat rss ++ rows ∧
    bytes + 12 ≤ metadata_ptr s' - data_ptr s'.
Proof.
  intros Hs Hf Hb. pose proof (AlignValue_bounds bytes) as Ha. unfold ReserveSpace, CanStore, BITPACKING_HEADER_SIZE. destruct (Z.leb_spec (AlignValue bytes + (Storage_BLOCK_SIZE - (metadata_ptr s - data_ptr s) + 4)) (Storage_BLOCK_SIZE - 8)).
  - exists s, rss, gs, rows. split_and!; [done | done | done | done | lia].
  - destruct (BP_FlushSegment_ok _ _ _ _ _ Hs (full_shape _ Hf)) as (c & rss' & -> & Hc & Hrows). cbn [mbind result_bind]. unfold BP_CreateEmptySegment.
    destruct (CreateEmpty_stats type Hok Hkind) as (e & -> & He). cbn [mbind result_bind]. eexists _, rss', [], []. split; [done|]. split_and!; [|by apply Forall_nil | by rewrite app_nil_r | unfold BITPACKING_HEADER_SIZE, Storage_BLOCK_SIZE; cbn; lia].
    apply empty_bp_segment; [done | | done]. rewrite (bs_start _ _ _ _ _ Hs), (bs_count _ _ _ _ _ Hs), Hrows, length_app. lia.
Qed.

Lemma group_size_bound g n : group_ok T g n → 0 ≤ packed_size g + Z.of_nat (length (group_header g)) * sizeof T ≤ 100000.
Proof.
  intros [Hn Hg]. pose proof (bits_bounds T HT). rewrite GROUP_eq in Hn.
  assert (∀ w values, group_packed g = Some (w, values) → 0 ≤ GetRequiredSize (length values) w ≤ 20000) as Hp.
  { intros w values E. destruct (Hg w values E) as (Hw & -> & _). unfold GetRequiredSize. destruct (RoundUp_eq n) as (q & -> & Hq).
    split; [apply Z.div_pos; nia|]. apply Z.div_le_upper_bound; [done|]. nia. }
  destruct g as [c|d f|w f o values|w f values]; cbn [packed_size group_header length group_packed] in *; try lia; specialize (Hp _ _ eq_refl); lia.
Qed.

Lemma covers_between s x y z : stats_ok s → covers s (V_num type (T, x)) → covers s (V_num type (T, z)) → x ≤ y ≤ z → covers s (V_num type (T, y)).
Proof.
  intros (_ & _ & Hn & lo & hi & V) Hx Hz Hy. destruct (covers_interval _ _ _ _ _ _ V Hx) as [H1 _]. destruct (covers_interval _ _ _ _ _ _ V Hz) as [_ H2].
  eapply covers_intro; [exact V | done|]. unfold in_interval, num_key in *. destruct (packed_facts T HT) as (_ & _ & Hf). rewrite Hf in *. split; intros v Hv; [specialize (H1 v Hv) | specialize (H2 v Hv)]; lia.
Qed.

Lemma UpdateStats_ok s st rows more : stats_ok (cs_stats (bp_segment s)) → covered (cs_stats (bp_segment s)) rows → buffered T st more →
  ∃ stats, UpdateStats T true s st = Ok (mkBPCompress (mkCompressed (cs_start (bp_segment s)) (cs_rows (bp_segment s) + Z.of_nat (length more)) stats (block s)) (data_ptr s) (metadata_ptr s) (bp_checkpoint s)) ∧
    stats_ok stats ∧ covered stats (rows ++ more).
Proof.
  intros Hs Hc [B1 B2 B3 B4 B5 B6]. unfold UpdateStats. rewrite B2. cbn [andb]. destruct (all_invalid st); cbn [negb].
  - cbn [mbind result_bind]. eexists. split_and!; [done | done|]. intros x [Hx|Hx]%elem_of_app; [by apply Hc | by destruct (proj1 B6 x)].
  - destruct (Update_stats type Hok Hkind _ (minimum st) Hs) as (s1 & -> & Hs1 & Hmin & Hm1). cbn [mbind result_bind].
    destruct (Update_stats type Hok Hkind _ (maximum st) Hs1) as (s2 & -> & Hs2 & Hmax & Hm2). cbn [mbind result_bind]. eexists. split_and!; [done | done|].
    intros x [Hx|Hx]%elem_of_app; [by apply Hm2, Hm1, Hc|]. destruct (B4 x Hx) as [_ ?]. by apply (covers_between s2 (minimum st) x (maximum st)); [| apply Hm2 | |].
Qed.

Lemma all_group_rows_snoc gs p : all_group_rows (gs ++ [p]) = all_group_rows gs ++ group_rows T p.1 p.2.
Proof. unfold all_group_rows. rewrite fmap_app, concat_app. cbn. by rewrite app_nil_r. Qed.

Lemma groups_hold_snoc gs rows g more : groups_hold gs rows → decodes T g more → groups_hold (gs ++ [(g, length more)]) (rows ++ more).
Proof.
  intros [H1 H2] (_ & H3 & H4). split.
  - rewrite all_group_rows_snoc. by apply Forall2_app.
  - unfold all_group_safe. rewrite fmap_app, concat_app. cbn. rewrite app_nil_r.
    apply Forall2_app; (eapply Forall2_impl; [eassumption|]; intros b r; apply fetchable_mono; intros x Hx; apply elem_of_app; tauto).
Qed.

Abbreviation Writer := (BitpackingWriter T true type uninitialised).

(** A group is added, with its rows. *)
Lemma BitpackingWriter_ok start s rss gs rows st g more :
  bp_segment_holds start s rss gs rows → full gs → buffered T st more → decodes T g more →
  ∃ s' rss' gs' rows', Writer s st g = Ok s' ∧ bp_segment_holds start s' rss' gs' rows' ∧ shape gs' ∧ (length more = GROUP → full gs') ∧ concat rss' ++ rows' = concat rss ++ rows ++ more.
Proof.
  intros Hs Hf Hb Hdec. pose proof Hdec as (Hg & Hp & _). unfold BitpackingWriter. pose proof (length_group_bytes T HT uninitialised g _ Hg) as Lg.
  destruct (ReserveSpace_ok start s rss gs rows (packed_size g + Z.of_nat (length (group_header g)) * sizeof T) Hs Hf) as (s1 & rss1 & gs1 & rows1 & -> & [S1 S2 S3 S4 S5 S6 S7 S8] & Hf1 & Hrows & Hroom); [by eapply group_size_bound|].
  cbn [mbind result_bind]. destruct (write_group T HT uninitialised s1 g _ gs1 Hg S4) as (b & E & Hsb); [lia|].
  apply bind_Ok_inv in E as (s2 & -> & E). apply bind_Ok_inv in E as (s3 & E3 & E). cbn [mbind result_bind]. rewrite E3. cbn [mbind result_bind]. rewrite E. cbn [mbind result_bind].
  destruct (UpdateStats_ok (with_block s1 b (data_ptr s1 + Z.of_nat (length (group_bytes T uninitialised g))) (metadata_ptr s1 - 4)) st rows1 more) as (stats & -> & Hst & Hcov); [done | done | done|].
  eexists _, rss1, (gs1 ++ [(g, length more)]), (rows1 ++ more). split; [done|]. split; [|split_and!; [by apply full_snoc | |]].
  - split; cbn; try done; [rewrite S3, length_app; lia | lia|]. by apply groups_hold_snoc.
  - intros Hfull. apply Forall_app. split; [done|]. apply Forall_singleton. by split.
  - by rewrite !app_assoc, Hrows.
Qed.

(** ** Rows *)

(** A row that is added to the buffer. *)
Definition push_row (st : BitpackingState) (buffer : list Z) (row : option Z) : BitpackingState :=
  mkBitpacking buffer (compression_buffer_idx st + 1) (total_size st) (from_option (Z.min (minimum st)) (minimum st) row)
    (from_option (Z.max (maximum st)) (maximum st) row) (all_valid st && bool_decide (is_Some row)) (all_invalid st && negb (bool_decide (is_Some row))).

Lemma buffered_push st rows row : buffered T st rows → (length rows < GROUP)%nat → (∀ x, row = Some x → in_range T x) →
  buffered T (push_row st (from_option (λ x, <[length rows := x]> (compression_buffer st)) (compression_buffer st) row) row) (rows ++ [row]).
Proof.
  intros [B1 B2 B3 B4 B5 B6] Hn Hr. pose proof (limits_eq T HT) as [L1 L2]. unfold push_row. split; cbn [compression_buffer compression_buffer_idx minimum maximum all_valid all_invalid].
  - destruct row; cbn; by rewrite ?length_insert.
  - rewrite B2, length_app. done.
  - rewrite length_app. cbn [length]. destruct (lookup_lt_is_Some_2 (compression_buffer st) (length rows)) as [v Hv]; [lia|]. destruct row as [x|]; cbn [from_option].
    + rewrite Nat.add_1_r, (take_S_r _ _ x) by (apply list_lookup_insert_eq; lia). rewrite take_insert_ge by lia. apply Forall2_app; [done|]. constructor; [by intros ? [= <-] | constructor].
    + rewrite Nat.add_1_r, (take_S_r _ _ v) by done. apply Forall2_app; [done|]. constructor; [done | constructor].
  - intros x [Hx|Hx%list_elem_of_singleton]%elem_of_app; [destruct (B4 x Hx); destruct row; cbn; split; (done || lia)|]. subst row. cbn. split; [by apply Hr | lia].
  - intros [H1%B5 H2]%andb_true_iff. apply Forall_app. split; [done|]. apply Forall_singleton. by apply bool_decide_eq_true in H2.
  - destruct row as [x|]; [rewrite bool_decide_true by done | rewrite bool_decide_false by (by intros [? ?])]; cbn [negb from_option]; rewrite ?andb_false_r, ?andb_true_r.
    + destruct (all_invalid st).
      * destruct B6 as (_ & -> & ->). specialize (Hr x eq_refl). unfold in_range in Hr. destruct (packed_facts T HT) as (_ & Hw & _). rewrite Hw in Hr. rewrite L1, L2.
        split; apply elem_of_app; right; apply list_elem_of_singleton; f_equal; destruct (is_signed T); lia.
      * destruct B6 as [H1 H2]. split; [destruct (Z.min_spec (minimum st) x) as [[_ ->]|[_ ->]] | destruct (Z.max_spec (maximum st) x) as [[_ ->]|[_ ->]]]; apply elem_of_app; first [by left | right; by apply list_elem_of_singleton].
    + destruct (all_invalid st); [destruct B6 as (H1 & H2); split; [|done]; intros x [Hx|Hx%list_elem_of_singleton]%elem_of_app; [by apply (H1 x) | done]|].
      destruct B6. split; apply elem_of_app; by left.
Qed.

Lemma buffered_reset st : length (compression_buffer st) = GROUP → buffered T (BitpackingState_Reset T st) [].
Proof.
  intros Hl. split; cbn; try done; [by apply Forall2_nil_2 | by intros x Hx%elem_of_nil | split_and!; [|done..]; by intros x Hx%elem_of_nil].
Qed.

Definition pack_row {W} (OP : W → BitpackingState → packed_group → result W) (st : BitpackingState) (w : W) (row : option Z) : result (bool * BitpackingState * W) :=
  BitpackingState_Update T mode OP st w (default 0 row) (bool_decide (is_Some row)).

(** The rows so far: those of the checkpoint, of the segment, and the buffered ones. *)
Definition bp_encoder (start : Z) (all : list (option Z)) (st : BitpackingState) (s : BitpackingCompressState) : Prop :=
  ∃ rss gs rows pending, bp_segment_holds start s rss gs rows ∧ full gs ∧ buffered T st pending ∧ (length pending < GROUP)%nat ∧ concat rss ++ rows ++ pending = all.

(** The compression does what the analysis did. *)
Lemma BitpackingState_Flush_ok start rss gs rows st s pending st' :
  bp_segment_holds start s rss gs rows → full gs → buffered T st pending → (0 < length pending ≤ GROUP)%nat → BitpackingState_Flush T mode EmptyBitpackingWriter st tt = Ok (true, st', tt) →
  ∃ s' rss' gs' rows', BitpackingState_Flush T mode Writer st s = Ok (true, st', s') ∧ length (compression_buffer st') = GROUP ∧
    bp_segment_holds start s' rss' gs' rows' ∧ shape gs' ∧ (length pending = GROUP → full gs') ∧ concat rss' ++ rows' = concat rss ++ rows ++ pending.
Proof.
  intros Hs Hf Hb Hn H. unfold BitpackingState_Flush in *. rewrite (bu_count _ _ _ Hb) in *. destruct (Nat.eqb_spec (length pending) 0); [lia|].
  destruct (choose_group T mode st) as [[g size]|] eqn:Eg; [|done]. cbn [mbind result_bind] in H. injection H as <-.
  pose proof (choose_group_ok T HT _ _ _ _ _ Hb Hn Eg) as Hd. destruct (BitpackingWriter_ok start s rss gs rows st g pending Hs Hf Hb Hd) as (s' & rss' & gs' & rows' & -> & Hs' & Hsh & Hf' & Hrows).
  cbn [mbind result_bind]. exists s', rss', gs', rows'. split_and!; try done. cbn [compression_buffer]. pose proof (bu_length _ _ _ Hb) as Hl. destruct Hd as ([_ Hg _] & _).
  destruct g as [c|d f|w f o values|w f values]; cbn [buffer_after]; try done. destruct (Hg _ _ eq_refl) as (_ & Hv & _). rewrite length_app, length_fmap, length_drop. lia.
Qed.

Lemma pack_row_eq {W} (OP : W → BitpackingState → packed_group → result W) st w row rows : buffered T st rows → (length rows < GROUP)%nat →
  pack_row OP st w row =
    let st := push_row st (from_option (λ x, <[length rows := x]> (compression_buffer st)) (compression_buffer st) row) row in
    if (length rows + 1 =? GROUP)%nat then '(success, st, w) ← BitpackingState_Flush T mode OP st w; Ok (success, BitpackingState_Reset T st, w) else Ok (true, st, w).
Proof.
  intros Hb Hn. unfold pack_row, BitpackingState_Update, push_row. rewrite (bu_count _ _ _ Hb).
  destruct row as [x|]; [rewrite bool_decide_true by done | rewrite bool_decide_false by (by intros [? ?])]; [rewrite vset_lt by (rewrite (bu_length _ _ _ Hb); lia)|]; done.
Qed.

Lemma pack_row_ok start all st s row st' : bp_encoder start all st s → (∀ x, row = Some x → in_range T x) → pack_row EmptyBitpackingWriter st tt row = Ok (true, st', tt) →
  ∃ s', pack_row Writer st s row = Ok (true, st', s') ∧ bp_encoder start (all ++ [row]) st' s'.
Proof.
  intros (rss & gs & rows & pending & Hs & Hf & Hb & Hn & <-) Hr H. rewrite (pack_row_eq _ _ _ _ pending) in H by done. rewrite (pack_row_eq _ _ _ _ pending) by done. pose proof (buffered_push st pending row Hb Hn Hr) as Hp.
  set (st1 := push_row _ _ _) in *. cbn [mbind result_bind] in *. destruct (Nat.eqb_spec (length pending + 1) GROUP) as [E|E].
  - apply bind_Ok_inv in H as (r & EF & H'). destruct r as [[ok st2] []]. injection H' as -> <-.
    destruct (BitpackingState_Flush_ok start rss gs rows st1 s (pending ++ [row]) st2 Hs Hf Hp) as (s' & rss' & gs' & rows' & -> & Hl & Hs' & _ & Hf' & Hrows); [rewrite length_app; cbn; lia | done|].
    cbn [mbind result_bind]. exists s'. split; [done|]. exists rss', gs', rows', []. split_and!; [done | apply Hf'; rewrite length_app; cbn; lia | by apply buffered_reset | cbn; lia | by rewrite app_nil_r, Hrows, !app_assoc].
  - injection H as <-. exists s. split; [done|]. exists rss, gs, rows, (pending ++ [row]). split_and!; [done | done | done | rewrite length_app; cbn; lia | by rewrite !app_assoc].
Qed.

(** ** Vectors *)

(** There is a value for every row, also for NULL ones. *)
Definition packable (v : UnifiedVectorFormat Z) (n : nat) : Prop := vector_ok type v n ∧ ∀ i, (i < n)%nat → is_Some (unified_value v i).

Lemma update_unified_row {W} (OP : W → BitpackingState → packed_group → result W) v n i st w : packable v n → (i < n)%nat →
  update_unified T mode OP v i st w = pack_row OP st w (if unified_valid v i then unified_value v i else None).
Proof.
  intros [[Hu Hv] Hd] Hi. unfold update_unified, pack_row. destruct (unified_get v n i Hu Hi) as [-> Hval]. cbn [mbind result_bind]. rewrite Nat2Z.id. destruct (Hd i Hi) as [x Hx]. pose proof Hx as Hx'.
  unfold unified_value in Hx. rewrite (vget_lookup _ _ _ Hx). cbn [mbind result_bind]. rewrite Hval. cbn [mbind result_bind].
  destruct (unified_valid v i); [by rewrite Hx', bool_decide_true by done | rewrite bool_decide_false by (by intros [? ?]); done].
Qed.

Lemma foldM_rows_of {S} (f : S → nat → result S) (g : S → option Z → result S) v n s :
  (∀ i s, (i < n)%nat → f s i = g s (if unified_valid v i then unified_value v i else None)) → foldM f s (seq 0 n) = foldM g s (vector_rows v n).
Proof.
  intros H. unfold vector_rows. assert (∀ i, i ∈ seq 0 n → (i < n)%nat) as Hl by (intros i Hi%elem_of_seq; lia).
  revert s. induction (seq 0 n) as [|i l IH]; intros s; [done|]. cbn [foldM fmap list_fmap]. rewrite H by (apply Hl; left). destruct (g s _); [|done]. cbn. apply IH. intros j Hj. apply Hl. by right.
Qed.

Definition analyze_row (o : option BitpackingState) (row : option Z) : result (option BitpackingState) :=
  match o with
  | None => Ok None
  | Some st => '(success, st, _) ← pack_row EmptyBitpackingWriter st tt row; Ok (if (success : bool) then Some st else None)
  end.

Definition compress_row (st : BitpackingState * BitpackingCompressState) (row : option Z) : result (BitpackingState * BitpackingCompressState) :=
  '(_, st, s) ← pack_row Writer st.1 st.2 row; Ok (st, s).

Lemma analyze_none rows : foldM analyze_row None rows = Ok None.
Proof. by induction rows. Qed.

Lemma analyze_vectors vectors : ∀ o, Forall (λ v, packable v.1 v.2) vectors →
  foldM (λ o v, match o with None => Ok None | Some st => BitpackingAnalyze T mode st v.1 v.2 end) o vectors = foldM analyze_row o (all_rows vectors).
Proof.
  induction vectors as [|[v n] vectors IH]; intros o Hv; [done|]. apply Forall_cons in Hv as [Hv Hvs]. unfold all_rows. cbn [foldM fmap list_fmap concat fst snd] in *. rewrite foldM_app. fold (all_rows vectors).
  assert ((match o with None => Ok None | Some st => BitpackingAnalyze T mode st v n end) = foldM analyze_row o (vector_rows v n)) as ->.
  { destruct o as [st|]; [|by rewrite analyze_none]. apply foldM_rows_of. intros i [st'|] Hi; [|done]. by rewrite (update_unified_row _ v n i). }
  destruct (foldM analyze_row o (vector_rows v n)); [|done]. cbn. by apply IH.
Qed.

Lemma compress_vectors vectors : ∀ st, Forall (λ v, packable v.1 v.2) vectors →
  foldM (λ st v, BitpackingCompress T true type mode uninitialised st v.1 v.2) st vectors = foldM compress_row st (all_rows vectors).
Proof.
  induction vectors as [|[v n] vectors IH]; intros st Hv; [done|]. apply Forall_cons in Hv as [Hv Hvs]. unfold all_rows. cbn [foldM fmap list_fmap concat fst snd] in *. rewrite foldM_app. fold (all_rows vectors).
  assert (BitpackingCompress T true type mode uninitialised st v n = foldM compress_row st (vector_rows v n)) as ->.
  { apply foldM_rows_of. intros i st' Hi. by rewrite (update_unified_row _ v n i). }
  destruct (foldM compress_row st (vector_rows v n)); [|done]. cbn. by apply IH.
Qed.

Lemma compress_rows_ok start rows : ∀ all st s st', bp_encoder start all st s → (∀ x, Some x ∈ rows → in_range T x) → foldM analyze_row (Some st) rows = Ok (Some st') →
  ∃ s', foldM compress_row (st, s) rows = Ok (st', s') ∧ bp_encoder start (all ++ rows) st' s'.
Proof.
  induction rows as [|row rows IH]; intros all st s st' He Hr H; [injection H as <-; exists s; by rewrite app_nil_r|]. cbn [foldM analyze_row] in H.
  destruct (pack_row EmptyBitpackingWriter st tt row) as [[[ok st1] []]|] eqn:E; [|done]. cbn [mbind result_bind] in H. destruct ok; [|by rewrite analyze_none in H].
  destruct (pack_row_ok start all st s row st1 He) as (s1 & E1 & He1); [intros x ->; apply Hr; left | done|]. cbn [foldM].
  assert (compress_row (st, s) row = Ok (st1, s1)) as -> by (unfold compress_row; cbn [fst snd]; by rewrite E1). cbn [mbind result_bind].
  destruct (IH (all ++ [row]) st1 s1 st' He1) as (s' & E' & He'); [intros x Hx; apply Hr; by right | done|]. exists s'. by rewrite <- app_assoc in He'.
Qed.

(** When the analysis accepts the vectors, the checkpoint holds their rows. *)
Lemma Bitpacking_checkpoint_ok start global vectors size :
  stats_wf global → stats_type global = type → Forall (λ v, packable v.1 v.2) vectors → Bitpacking_analysis T mode uninitialised vectors = Ok (Some size) →
  ∃ c rss, Bitpacking_checkpoint T true type mode uninitialised start global vectors = Ok c ∧ checkpoint_holds type bp_holds start c rss ∧ concat rss = all_rows vectors.
Proof.
  intros Wg Tg Hv Ha. unfold Bitpacking_analysis in Ha. rewrite analyze_vectors in Ha by done. apply bind_Ok_inv in Ha as (o & E & Ha). destruct o as [st'|]; [|done].
  unfold BitpackingFinalAnalyze in Ha. apply bind_Ok_inv in Ha as ([[ok st2] []] & EF & Ha). destruct ok; [|done].
  unfold Bitpacking_checkpoint, BP_CreateEmptySegment. destruct (CreateEmpty_stats type Hok Hkind) as (e & -> & He). cbn [mbind result_bind]. rewrite compress_vectors by done.
  set (s0 := mkBPCompress _ _ _ _). assert (bp_encoder start [] (BitpackingState_new T uninitialised) s0) as H0.
  { exists [], [], [], []. pose proof GROUP_eq. split_and!; [apply empty_bp_segment; [by apply empty_checkpoint | cbn; lia | done] | by apply Forall_nil | apply buffered_reset; cbn; by rewrite length_replicate | cbn; lia | done]. }
  destruct (compress_rows_ok start (all_rows vectors) [] _ s0 st' H0) as (s1 & -> & (rss & gs & rows & pending & Hs & Hf & Hb & Hn & Hrows)); [|done|].
  { intros x Hx. apply list_elem_of_In, in_concat in Hx as (l & Hl%list_elem_of_In & Hx%list_elem_of_In). apply list_elem_of_fmap in Hl as (v & -> & Hin).
    destruct (proj1 (Forall_forall _ _) Hv v Hin) as [Hok' _]. by eapply vector_rows_range. }
  cbn [mbind result_bind]. unfold BitpackingFinalizeCompress. cbn [fst snd]. destruct (decide (pending = [])) as [->|Hne].
  - assert (BitpackingState_Flush T mode Writer st' s1 = Ok (true, st', s1)) as -> by (unfold BitpackingState_Flush; by rewrite (bu_count _ _ _ Hb)). cbn [mbind result_bind].
    destruct (BP_FlushSegment_ok start s1 rss gs rows Hs (full_shape _ Hf)) as (c & rss' & -> & Hc & Hr'). exists c, rss'. split_and!; [done | done | rewrite Hr'; cbn [app] in Hrows; by rewrite <- Hrows, app_nil_r].
  - assert (0 < length pending)%nat by (destruct pending; [done | cbn; lia]).
    destruct (BitpackingState_Flush_ok start rss gs rows st' s1 pending st2 Hs Hf Hb) as (s2 & rss2 & gs2 & rows2 & -> & _ & Hs2 & Hsh & _ & Hr2); [lia | done|]. cbn [mbind result_bind].
    destruct (BP_FlushSegment_ok start s2 rss2 gs2 rows2 Hs2 Hsh) as (c & rss' & -> & Hc & Hr'). exists c, rss'. split_and!; [done | done | by rewrite Hr', Hr2].
Qed.
End Encoder.
