(* ===== verification/BitPackingProps.v ===== *)
(** Reading bit-packed segments: groups, unpacking, decoding differences, skips,
    scans and row fetches; and the properties of bit packing. *)
From S2P Require Import Prelude Bits Types Stats NumericStats NumericFacts BaseStatistics StatsFacts StatsCreate StatsProps SelectionVector ValidityMask MaskFacts UncompressedSegment UncompressedAppend Compression CompressionFacts FastPFor BitPacking BitPackingFacts.

#[local] Opaque BITPACKING_METADATA_GROUP_SIZE.

(** * Metadata *)

Lemma EncodeMeta_eq m offset : 0 ≤ offset < 2 ^ 24 → EncodeMeta m offset = offset + mode_code m * 2 ^ 24.
Proof.
  intros Ho. unfold EncodeMeta. assert (wrapu 32 (Z.shiftl (mode_code m) 24) = mode_code m * 2 ^ 24) as -> by (by destruct m). rewrite <- Z.add_lor_land.
  assert (Z.land offset (mode_code m * 2 ^ 24) = 0) as ->; [|lia]. apply Z.bits_inj'. intros n Hn. rewrite Z.land_spec, Z.bits_0. destruct (Z.ltb_spec n 24).
  - by rewrite Z.mul_pow2_bits_low, andb_false_r by lia.
  - rewrite <- (Z.mod_small offset (2 ^ 24)), Z.mod_pow2_bits_high by lia. done.
Qed.

Lemma DecodeMeta_ok b a g offset : 0 ≤ offset < 2 ^ 24 → bytes_at b a (encode_value UINT32 (EncodeMeta (group_mode g) offset)) → DecodeMeta b a = Ok (group_mode g, offset).
Proof.
  intros Ho Hb. set (c := mode_code (group_mode g)). assert (0 ≤ c < 6) as Hc by (by destruct g). unfold DecodeMeta. rewrite EncodeMeta_eq in Hb by done. fold c in Hb. change (2 ^ 24) with 16777216 in *.
  assert (Load UINT8 b (a + 3) = Ok c) as ->.
  { apply Load_at; [unfold in_range; cbn; lia|]. intros i x Hi. destruct i as [|i]; [|by destruct i; destruct g]. rewrite Z.add_0_r. assert (x = c) as -> by (destruct g; vm_compute in Hi; by injection Hi as <-).
    apply (Hb 3%nat). unfold encode_value, write_uint. apply Z_to_little_endian_lookup_Some; [done | done|]. split; [done|].
    unfold wrapu. change (8 * sizeof UINT32) with 32. change (2 ^ 32) with 4294967296. rewrite Z.mod_small by lia. change (Z.of_nat 3 * 8) with 24.
    rewrite Z.land_ones, Z.shiftr_div_pow2 by lia. change (2 ^ 24) with 16777216. rewrite Z.div_add, Z.div_small, Z.mod_small by (change (2 ^ 8) with 256; lia). lia. }
  cbn [mbind result_bind]. rewrite (Load_at UINT32 b a (offset + c * 16777216)); [|unfold in_range; cbn; lia | done]. cbn [mbind result_bind].
  assert (mode_of_code c = group_mode g) as -> by (by destruct g). change 0x00FFFFFF with (Z.ones 24). rewrite Z.land_ones by lia. change (2 ^ 24) with 16777216. by rewrite Z.mod_add, Z.mod_small.
Qed.

(** * Differences *)

Section Decode.
Context (T : PhysicalType) (HT : packed_type T = true) (data : list Z) (previous_value : Z).

(** The array after the first [i] numbers were decoded. *)
Definition decoded_sums : list Z := as_signed T <$> sums previous_value data.
Definition decoding (i : nat) : list Z := take i decoded_sums ++ drop i data.

Lemma length_decoded_sums : length decoded_sums = length data.
Proof. unfold decoded_sums. by rewrite length_fmap, length_sums. Qed.

Lemma decoding_get i x : data !! i = Some x → vget (decoding i) i = Ok x.
Proof.
  intros Hx. apply vget_lookup. pose proof (lookup_lt_Some _ _ _ Hx). pose proof length_decoded_sums. unfold decoding. rewrite lookup_app_r by (rewrite length_take; lia).
  rewrite length_take, Nat.min_l, Nat.sub_diag, lookup_drop, Nat.add_0_r by lia. done.
Qed.

Lemma decoding_set i s : decoded_sums !! i = Some s → vset (decoding i) i s = Ok (decoding (i + 1)).
Proof.
  intros Hs. pose proof (lookup_lt_Some _ _ _ Hs). pose proof length_decoded_sums. unfold decoding. rewrite vset_lt by (rewrite length_app, length_take, length_drop; lia). f_equal.
  rewrite insert_app_r_alt by (rewrite length_take; lia). rewrite length_take, Nat.min_l, Nat.sub_diag by lia. destruct (drop i data) as [|x rest] eqn:E; [apply (f_equal length) in E; rewrite length_drop in E; cbn in E; lia|].
  cbn. rewrite Nat.add_1_r, (take_S_r _ _ _ Hs), <- app_assoc. cbn. do 2 f_equal. rewrite <- Nat.add_1_r, <- drop_drop, E. done.
Qed.

Lemma decoding_next i s x : decoded_sums !! i = Some s → data !! S i = Some x → decoded_sums !! S i = Some (as_signed T (x + s)).
Proof.
  intros Hs Hx. unfold decoded_sums in *. rewrite list_lookup_fmap in *. apply fmap_Some in Hs as (s0 & Hs & ->). rewrite (sums_lookup _ _ _ _ _ Hs Hx). cbn. f_equal.
  apply as_signed_same. unfold eqm. rewrite <- (Zplus_mod_idemp_r (as_signed T s0)), (as_signed_eqm T HT s0), Zplus_mod_idemp_r. f_equal. lia.
Qed.

Lemma decode_from_ok i : (1 ≤ i ≤ length data)%nat → decode_from T (decoding i) i = Ok decoded_sums.
Proof.
  intros Hi. unfold decode_from. pose proof length_decoded_sums as Hl. assert (length (decoding i) = length data) as -> by (unfold decoding; rewrite length_app, length_take, length_drop; lia).
  edestruct (foldM_seq (λ data i, x ← vget data i; y ← vget data (i - 1); vset data i (as_signed T (x + y))) (λ j l, l = decoding (i + j)) (decoding i) i (length data - i)) as (l & -> & ->).
  - by rewrite Nat.add_0_r.
  - intros j l Hj ->. destruct (lookup_lt_is_Some_2 data (i + j)) as [x Hx]; [lia|]. destruct (lookup_lt_is_Some_2 decoded_sums (i + j - 1)) as [s Hs]; [lia|].
    rewrite (decoding_get _ _ Hx). cbn [mbind result_bind]. assert (vget (decoding (i + j)) (i + j - 1) = Ok s) as ->.
    { apply vget_lookup. unfold decoding. rewrite lookup_app_l by (rewrite length_take; lia). by rewrite lookup_take_lt by lia. }
    cbn [mbind result_bind]. rewrite (decoding_set _ (as_signed T (x + s))); [eexists; split; [done | by rewrite Nat.add_assoc]|].
    replace (i + j)%nat with (S (i + j - 1)) in * by lia. apply decoding_next; [by replace (S (i + j - 1) - 1)%nat with (i + j - 1)%nat in Hs by lia | done].
  - f_equal. replace (i + (length data - i))%nat with (length data) by lia. unfold decoding. rewrite take_ge, drop_ge by lia. apply app_nil_r.
Qed.

Lemma decode_unrolled_ok stop : (stop + 4 ≤ length data)%nat → ∀ fuel i a, (1 ≤ i ≤ length data)%nat → decoded_sums !! (i - 1)%nat = Some a →
  ∃ j, decode_unrolled T fuel (decoding i) i stop a = Ok (decoding j, j) ∧ (1 ≤ j ≤ length data)%nat.
Proof.
  intros Hstop. pose proof length_decoded_sums as Hl. induction fuel as [|fuel IH]; intros i a Hi Ha; [by exists i|]. cbn [decode_unrolled]. destruct (Nat.ltb_spec i stop); [|by exists i].
  edestruct (foldM_seq (λ '(data, a) k, x ← vget data (i + k); data ← vset data (i + k) (as_signed T (x + a)); Ok (data, as_signed T (x + a)))
    (λ k (acc : list Z * Z), acc.1 = decoding (i + k) ∧ decoded_sums !! (i + k - 1)%nat = Some acc.2) (decoding i, a) 0 4) as ([l a'] & -> & E1 & E2).
  - by rewrite Nat.add_0_r.
  - intros k [l a'] Hk [E1 E2]. cbn [fst snd Nat.add] in *. subst l. destruct (lookup_lt_is_Some_2 data (i + k)) as [x Hx]; [lia|]. rewrite (decoding_get _ _ Hx). cbn [mbind result_bind].
    assert (decoded_sums !! (i + k)%nat = Some (as_signed T (x + a'))) as Hn by (replace (i + k)%nat with (S (i + k - 1)) in * by lia; apply decoding_next; [by replace (S (i + k - 1) - 1)%nat with (i + k - 1)%nat in E2 by lia | done]).
    rewrite (decoding_set _ _ Hn). cbn [mbind result_bind]. eexists. split; [done|]. cbn [fst snd]. split; [by rewrite Nat.add_assoc|]. by replace (i + (k + 1) - 1)%nat with (i + k)%nat by lia.
  - cbn [mbind result_bind fst snd] in *. subst l. apply IH; [lia | done].
Qed.

Lemma DeltaDecode_ok : data ≠ [] → DeltaDecode T data previous_value = Ok decoded_sums.
Proof.
  intros Hne. unfold DeltaDecode. assert (0 < length data)%nat as H0 by (destruct data; [done | cbn; lia]). destruct (lookup_lt_is_Some_2 data 0 H0) as [x Hx]. rewrite (vget_lookup _ _ _ Hx). cbn [mbind result_bind].
  assert (decoded_sums !! 0%nat = Some (as_signed T (x + previous_value))) as H1 by (unfold decoded_sums; destruct data; [done|]; injection Hx as ->; cbn; f_equal; f_equal; lia).
  pose proof (decoding_set 0 _ H1) as E. assert (decoding 0 = data) as E0 by done. rewrite E0 in E. rewrite E. cbn [mbind result_bind Nat.add].
  pose proof length_decoded_sums as Hl. assert (length (decoding 1) = length data) as -> by (unfold decoding; rewrite length_app, length_take, length_drop; lia).
  pose proof (Nat.div_mod (length data) 4 ltac:(lia)) as Hd. destruct (Nat.leb_spec 4 (length data / 4 * 4)).
  - destruct (decode_unrolled_ok (length data / 4 * 4 - 4)) with (fuel := length data) (i := 1%nat) (a := as_signed T (x + previous_value)) as (j & -> & Hj); [lia | lia | done|]. cbn [mbind result_bind]. by apply decode_from_ok.
  - cbn [mbind result_bind]. apply decode_from_ok. lia.
Qed.
End Decode.

(** * Vectors *)

Lemma result_rows_ok res position values : (position + length values ≤ length res)%nat →
  write_rows res position values = Ok (take position res ++ values ++ drop (position + length values) res).
Proof.
  intros Hl. unfold write_rows. assert (∀ j l, (position + j + length values ≤ length l)%nat →
    foldM (λ res p, vset res (position + p.1) p.2) l (zip (seq j (length values)) values) = Ok (take (position + j) l ++ values ++ drop (position + j + length values) l)) as H.
  { clear Hl. induction values as [|x values IH]; intros j l Hl; cbn [length seq zip_with foldM] in *; [by rewrite Nat.add_0_r, app_nil_l, take_drop|]. cbn [fst snd]. rewrite vset_lt by lia. cbn [mbind result_bind].
    rewrite IH by (rewrite length_insert; lia). f_equal. replace (position + S j)%nat with (S (position + j)) by lia. rewrite (take_S_r _ _ x) by (apply list_lookup_insert_eq; lia). rewrite take_insert_ge, drop_insert_lt by lia.
    rewrite <- app_assoc. cbn. do 4 f_equal. lia. }
  specialize (H 0%nat res). rewrite Nat.add_0_r in H. by apply H.
Qed.

(** * Groups *)

Section Reader.
Context (uninitialised : Z) (type : LogicalType) (HT : packed_type (InternalType type) = true).
Abbreviation T := (InternalType type).
Abbreviation groups := (list (packed_group * nat)).
Context (b : Block) (gs : groups) (top : Z) (Hsh : shape type gs).
Abbreviation group_bytes := (group_bytes T uninitialised).
Abbreviation data_bytes := (data_bytes T uninitialised).
Abbreviation group_start := (group_start T uninitialised gs).
Context (Htop : top ≤ Storage_BLOCK_SIZE) (Hdata : bytes_at b BITPACKING_HEADER_SIZE (data_bytes gs))
  (Hroom : BITPACKING_HEADER_SIZE + Z.of_nat (length (data_bytes gs)) ≤ top - 4 * Z.of_nat (length gs))
  (Hmeta : bytes_at b (top - 4 * Z.of_nat (length gs)) (concat (encode_value UINT32 <$> reverse (metas T uninitialised gs)))).

Lemma packed_group_at i p : gs !! i = Some p → bytes_at b (group_start i) (group_bytes p.1).
Proof.
  intros Hi. unfold BitPackingFacts.group_start. assert (data_bytes gs = data_bytes (take i gs) ++ group_bytes p.1 ++ data_bytes (drop (S i) gs)) as E.
  { rewrite <- (take_drop_middle _ _ _ Hi) at 1. unfold BitPackingFacts.data_bytes. by rewrite fmap_app, concat_app. }
  rewrite E, bytes_at_app_iff, bytes_at_app_iff in Hdata. by apply Hdata.
Qed.

Lemma group_start_bound i : 0 ≤ group_start i < 2 ^ 24.
Proof.
  unfold BitPackingFacts.group_start. assert (length (data_bytes (take i gs)) ≤ length (data_bytes gs))%nat as Hle.
  { rewrite <- (take_drop i gs) at 2. unfold BitPackingFacts.data_bytes. rewrite fmap_app, concat_app, length_app. lia. }
  unfold BITPACKING_HEADER_SIZE in *. unfold Storage_BLOCK_SIZE in Htop. change (2 ^ 24) with 16777216. lia.
Qed.

Lemma meta_at i p : gs !! i = Some p → bytes_at b (top - 4 * Z.of_nat (i + 1)) (encode_value UINT32 (EncodeMeta (group_mode p.1) (group_start i))).
Proof.
  intros Hi. pose proof (lookup_lt_Some _ _ _ Hi). pose proof (proj1 (bytes_at_values UINT32 _ _ _) Hmeta (length gs - 1 - i)%nat (EncodeMeta (group_mode p.1) (group_start i))) as H'.
  change (sizeof UINT32) with 4 in H'. replace (top - 4 * Z.of_nat (i + 1)) with (top - 4 * Z.of_nat (length gs) + 4 * Z.of_nat (length gs - 1 - i)) by lia. apply H'.
  rewrite reverse_lookup by (rewrite length_metas; lia). rewrite length_metas. replace (length gs - S (length gs - 1 - i))%nat with i by lia.
  unfold metas. by rewrite list_lookup_imap, Hi.
Qed.

(** ** Loading a group *)

Record loaded (st : BitpackingScanState) (i : nat) (g : packed_group) : Prop := {
  ld_mode : current_mode st = group_mode g;
  ld_metadata : bitpacking_metadata_ptr st = top - 4 * Z.of_nat (i + 2);
  ld_ptr : current_group_ptr st = group_start i + sizeof T * Z.of_nat (length (group_header g));
  ld_header : match g with
    | GroupConstant c => current_constant st = as_T T c
    | GroupConstantDelta d f => current_constant st = as_T T d ∧ current_frame_of_reference st = as_T T f
    | GroupFor w f _ | GroupDeltaFor w f _ _ => current_width st = w ∧ current_frame_of_reference st = as_T T f
    end;
}.

(** The differences of a delta group. *)
Definition deltas (w f : Z) (values : list Z) : list Z := (λ v, v mod 2 ^ w + f) <$> values.

(** The scan stands at row [k] of group [i]. *)
Definition at_pos (st : BitpackingScanState) (i k : nat) : Prop :=
  ∃ g n, gs !! i = Some (g, n) ∧ loaded st i g ∧ current_group_offset st = k ∧ (k ≤ n)%nat ∧
    match g with GroupDeltaFor w f offset values => current_delta_offset st = as_T T (sum_before offset (deltas w f values) k) | _ => True end.

Lemma LoadNextGroup_ok st i g n : gs !! i = Some (g, n) → bitpacking_metadata_ptr st = top - 4 * Z.of_nat (i + 1) →
  ∃ st', LoadNextGroup T b st = Ok st' ∧ at_pos st' i 0.
Proof.
  intros Hi Hp. pose proof (packed_group_at i _ Hi) as Hg. pose proof (bits_bounds T HT) as Hb. destruct (Hsh i _ Hi) as [[_ Hok] _]. cbn [fst snd] in *.
  unfold LoadNextGroup. rewrite Hp, (DecodeMeta_ok b _ g (group_start i)); [|apply group_start_bound | by apply (meta_at i _ Hi)]. cbn [mbind result_bind].
  unfold BitPackingFacts.group_bytes in Hg. apply bytes_at_app_iff in Hg as [Hh _]. pose proof (proj1 (bytes_at_values T b (group_header g) (group_start i)) Hh) as Hh'.
  assert (Z.max (sizeof T) 1 = sizeof T) as -> by lia.
  assert (∀ w, 0 ≤ w ≤ bits T → wrapu 8 (as_T T w) = w) as Hwidth.
  { intros w Hw. rewrite as_T_range; [|done|]; [apply wrapu_small; change (2 ^ 8) with 256; lia|]. unfold in_range. destruct (packed_facts T HT) as (_ & -> & _). pose proof (half_bounds T HT). pose proof (M_half T HT). destruct (is_signed T); lia. }
  assert (top - 4 * Z.of_nat (i + 1) - 4 = top - 4 * Z.of_nat (i + 2)) as Em by lia.
  destruct g as [c|d f|w f o values|w f values]; cbn [group_mode group_header] in *.
  all: pose proof (Load_T T HT b _ _ (Hh' 0%nat _ eq_refl)) as E0; rewrite Z.mul_0_r, Z.add_0_r in E0; rewrite E0; cbn [mbind result_bind].
  all: try (pose proof (Load_T T HT b _ _ (Hh' 1%nat _ eq_refl)) as E1; rewrite Z.mul_1_r in E1; rewrite E1; cbn [mbind result_bind]).
  all: try (pose proof (Load_T T HT b _ _ (Hh' 2%nat _ eq_refl)) as E2; replace (group_start i + sizeof T + sizeof T) with (group_start i + sizeof T * Z.of_nat 2) by lia; rewrite E2; cbn [mbind result_bind]).
  all: eexists; split; [done|]; eexists _, n; split; [done|]; (split; [split; cbn [current_mode bitpacking_metadata_ptr current_group_ptr current_constant current_frame_of_reference current_width length group_mode group_header]|]);
    [done | done | lia | | cbn [current_group_offset]].
  all: try (split; [done|]; split; [lia|]; first [done | apply as_T_eqm; done]).
  all: try done.
  all: destruct (Hok w values eq_refl) as (Hw & _); split; [by apply Hwidth | done].
Qed.

(** ** Unpacking *)

Lemma take_chunk values k count : (k + count ≤ length values)%nat → (k mod 32 + count ≤ 32)%nat →
  take count (drop (k mod ALGORITHM_GROUP) (chunk uninitialised values (k / ALGORITHM_GROUP))) = take count (drop k values).
Proof.
  intros H1 H2. unfold chunk. change ALGORITHM_GROUP with 32%nat. pose proof (Nat.div_mod k 32 ltac:(lia)) as Hk. set (X := values ++ _).
  replace (take 32 (drop (k / 32 * 32) X)) with (take (k mod 32 + (32 - k mod 32)) (drop (k / 32 * 32) X)) by (f_equal; lia).
  rewrite <- take_drop_commute, take_take, drop_drop, Nat.min_l by lia. replace (k / 32 * 32 + k mod 32)%nat with k by lia.
  unfold X. by rewrite drop_app_le, take_app_le by (rewrite ?length_drop; lia).
Qed.

Lemma pack_chunk_at a w values q : 0 ≤ w ≤ bits T → (q * 32 < length values)%nat → bytes_at b a (pack_bytes T uninitialised w values) → bytes_at b (a + 4 * w * Z.of_nat q) (pack_chunk T uninitialised w values q).
Proof.
  intros Hw Hq Hb. unfold pack_bytes in Hb. destruct (RoundUp_eq (length values)) as (m & Em & Hm). rewrite Em in Hb. change ALGORITHM_GROUP with 32%nat in Hb. rewrite Nat.div_mul in Hb by lia.
  replace m with (q + S (m - q - 1))%nat in Hb by nia. rewrite seq_app, fmap_app, concat_app, bytes_at_app_iff in Hb. destruct Hb as [_ Hb].
  rewrite (length_pack_chunks T HT uninitialised) in Hb by (done || lia). cbn [seq fmap list_fmap concat] in Hb. rewrite Nat.add_0_l, bytes_at_app_iff in Hb. by apply Hb.
Qed.

Lemma UnPackBlock_ok a w values q : 0 ≤ w ≤ bits T → (q * 32 < length values)%nat → bytes_at b a (pack_bytes T uninitialised w values) →
  UnPackBlock T b (a + 4 * w * Z.of_nat q) w = Ok ((λ v, as_T T (as_unsigned T v mod 2 ^ w)) <$> chunk uninitialised values q).
Proof.
  intros Hw Hq Hb. pose proof (pack_chunk_at a w values q Hw Hq Hb) as Hc. unfold UnPackBlock. pose proof (length_pack_chunk T HT uninitialised w values q Hw Hq) as Lc.
  rewrite packing_bits_ok by done. cbn [mbind result_bind]. replace (Z.to_nat (4 * w)) with (length (pack_chunk T uninitialised w values q)) by lia. rewrite (load_bytes_at _ _ _ Hc). cbn [mbind result_bind].
  destruct (pack_chunk_ok T HT uninitialised w values q Hw Hq) as (_ & _ & ->). cbn [mbind result_bind]. f_equal. by rewrite <- list_fmap_compose.
Qed.

Lemma packed_at i g n w values : gs !! i = Some (g, n) → group_packed g = Some (w, values) →
  0 ≤ w ≤ bits T ∧ length values = n ∧ (0 < n ≤ GROUP)%nat ∧ Forall (λ v, as_unsigned T v = v) values ∧ bytes_at b (group_start i + sizeof T * Z.of_nat (length (group_header g))) (pack_bytes T uninitialised w values).
Proof.
  intros Hi Hp. pose proof (packed_group_at i _ Hi) as Hg. cbn [fst] in Hg. unfold BitPackingFacts.group_bytes in Hg. rewrite Hp, bytes_at_app_iff, length_values in Hg. destruct (Hsh i _ Hi) as [[Hn Hok] _]. destruct (Hok w values Hp) as (Hw & Hl & Hv).
  split; [done|]. split; [done|]. split; [done|]. split; [|by apply Hg]. eapply Forall_impl; [exact Hv|]. intros x Hx. by apply wrapu_small.
Qed.

(** The packed numbers of rows of the same 32. *)
Lemma unpack_rows_ok st i k g n w values count : gs !! i = Some (g, n) → group_packed g = Some (w, values) → loaded st i g → current_group_offset st = k → current_width st = w →
  (0 < count)%nat → (k + count ≤ n)%nat → (k mod 32 + count ≤ 32)%nat →
  unpack_rows T b st count = Ok ((λ v, as_T T (v mod 2 ^ w)) <$> take count (drop k values)).
Proof.
  intros Hi Hp Hld Ho Hcw Hc Hn Hm. destruct (packed_at i g n w values Hi Hp) as (Hw & Hl & _ & Hu & Hb). unfold unpack_rows. rewrite Ho, Hcw, (ld_ptr _ _ _ Hld). change ALGORITHM_GROUP with 32%nat.
  pose proof (Nat.div_mod k 32 ltac:(lia)) as Hk. set (ptr := group_start i + _) in *.
  assert (ptr + Z.of_nat k * w / 8 - Z.of_nat (k mod 32) * w / 8 = ptr + 4 * w * Z.of_nat (k / 32)) as ->.
  { replace (Z.of_nat k * w) with (Z.of_nat (k mod 32) * w + 4 * w * Z.of_nat (k / 32) * 8) by nia. rewrite Z.div_add by lia. lia. }
  rewrite (UnPackBlock_ok ptr w values) by (done || lia). cbn [mbind result_bind]. f_equal. rewrite <- fmap_drop, <- fmap_take.
  pose proof (take_chunk values k count) as Ht. change ALGORITHM_GROUP with 32%nat in Ht. rewrite Ht by lia. apply list_fmap_ext. intros j x Hj. f_equal. f_equal.
  by apply (proj1 (Forall_lookup _ _) (Forall_take _ count _ (Forall_drop _ k _ Hu)) j).
Qed.

(** The rows of a delta group, and the offset behind them. *)
Lemma delta_rows_ok st i k n w f offset values count : gs !! i = Some (GroupDeltaFor w f offset values, n) → loaded st i (GroupDeltaFor w f offset values) →
  current_delta_offset st = as_T T (sum_before offset (deltas w f values) k) → (0 < count)%nat → (k + count ≤ n)%nat →
  ∃ res last, delta_rows T st ((λ v, as_T T (v mod 2 ^ w)) <$> take count (drop k values)) = Ok res ∧ vget res (count - 1) = Ok last ∧
    as_T T <$> res = take count (drop k (group_rows T (GroupDeltaFor w f offset values) n)) ∧ as_T T last = as_T T (sum_before offset (deltas w f values) (k + count)).
Proof.
  intros Hi Hld Hd Hc Hn. destruct (packed_at i _ n w values Hi eq_refl) as (Hw & Hl & _). destruct (ld_header _ _ _ Hld) as [_ Hf]. unfold delta_rows. rewrite Hf.
  set (X := ApplyFrameOfReference T _ _ _). set (D := deltas w f values) in *. assert (length D = n) as HD by (unfold D, deltas; by rewrite length_fmap).
  assert (Forall2 (eqm T) X (take count (drop k D))) as HX.
  { unfold X, D, deltas, ApplyFrameOfReference. rewrite <- fmap_drop, <- fmap_take. set (l := take count (drop k values)). rewrite <- list_fmap_compose.
    assert (∀ v, eqm T (as_signed T (as_T T (v mod 2 ^ w))) (v mod 2 ^ w)) as Hv by (intros v; etrans; [by apply as_signed_eqm | by apply as_T_eqm]).
    assert (eqm T (as_signed T (as_T T f)) f) as Hff by (etrans; [by apply as_signed_eqm | by apply as_T_eqm]).
    destruct (Z.eqb_spec (as_signed T (as_T T f)) 0) as [E|E].
    - apply Forall2_fmap, Forall_Forall2_diag, Forall_forall. intros v _. cbn. rewrite <- (Z.add_0_r (as_signed T _)). apply eqm_add; [done | done | by rewrite E in Hff].
    - rewrite <- list_fmap_compose. apply Forall2_fmap, Forall_Forall2_diag, Forall_forall. intros v _. cbn. etrans; [by apply as_signed_eqm|].
      apply eqm_add; [done|..]; (etrans; [by apply as_unsigned_eqm | done]). }
  assert (length X = count) as LX by (rewrite (Forall2_length _ _ _ HX), length_take, length_drop; lia).
  assert (as_T T <$> decoded_sums T X (as_signed T (current_delta_offset st)) = take count (drop k (group_rows T (GroupDeltaFor w f offset values) n))) as Hres.
  { unfold decoded_sums. cbn [group_rows]. rewrite <- list_fmap_compose. fold (deltas w f values). fold D. rewrite <- fmap_drop, <- fmap_take, drop_sums, take_sums by lia.
    transitivity (as_T T <$> sums (as_signed T (current_delta_offset st)) X); [apply list_fmap_ext; intros j x _; cbn; apply as_T_same; by apply as_signed_eqm|].
    apply sums_same; [done | done|]. etrans; [by apply as_signed_eqm | rewrite Hd; by apply as_T_eqm]. }
  exists (decoded_sums T X (as_signed T (current_delta_offset st))). rewrite (DeltaDecode_ok T HT) by (intros ->; cbn in LX; lia).
  destruct (lookup_lt_is_Some_2 (decoded_sums T X (as_signed T (current_delta_offset st))) (count - 1)) as [x Hx]; [rewrite length_decoded_sums; lia|].
  exists x. split_and!; [done | by apply vget_lookup | done|]. apply (f_equal (λ l, l !! (count - 1)%nat)) in Hres. rewrite list_lookup_fmap, Hx, lookup_take_lt, lookup_drop in Hres by lia.
  cbn [group_rows fmap option_fmap option_map] in Hres. fold (deltas w f values) in Hres. fold D in Hres. rewrite list_lookup_fmap in Hres. symmetry in Hres. apply fmap_Some in Hres as (s & Hs & ->).
  replace (k + count)%nat with (S (k + (count - 1))) by lia. by rewrite (sum_before_S _ _ _ _ Hs).
Qed.

(** ** Rows *)

Abbreviation rows := (all_group_rows type gs).

Definition stands_at (st : BitpackingScanState) (N : nat) : Prop := ∃ i k, N = (GROUP * i + k)%nat ∧ at_pos st i k.

Lemma length_full_groups i : (i < length gs)%nat → length (all_group_rows type (take i gs)) = (GROUP * i)%nat.
Proof.
  induction i as [|i IH]; intros Hi; [by rewrite Nat.mul_0_r|]. destruct (lookup_lt_is_Some_2 gs i) as [p Hp]; [lia|]. rewrite (take_S_r _ _ _ Hp), all_group_rows_snoc, length_app, IH by lia.
  destruct (Hsh i p Hp) as [Hg Hfull]. rewrite length_group_rows by done. rewrite Hfull by lia. lia.
Qed.

Lemma rows_split i g n : gs !! i = Some (g, n) → ∃ rest, rows = all_group_rows type (take i gs) ++ group_rows T g n ++ rest ∧ (length gs = S i → rest = []) ∧
  length (all_group_rows type (take i gs)) = (GROUP * i)%nat ∧ length (group_rows T g n) = n ∧ (0 < n ≤ GROUP)%nat ∧ (S i < length gs → n = GROUP)%nat.
Proof.
  intros Hi. exists (all_group_rows type (drop (S i) gs)). destruct (Hsh i _ Hi) as [Hg Hfull]. split_and!.
  - rewrite <- (take_drop_middle _ _ _ Hi) at 1. unfold all_group_rows. by rewrite fmap_app, concat_app.
  - intros Hl. by rewrite drop_ge by lia.
  - apply length_full_groups. by eapply lookup_lt_Some.
  - by apply length_group_rows.
  - apply Hg.
  - apply Hg.
  - done.
Qed.

Lemma take_group_rows i g n k c : gs !! i = Some (g, n) → (k + c ≤ n)%nat → take c (drop (GROUP * i + k) rows) = take c (drop k (group_rows T g n)).
Proof.
  intros Hi Hk. destruct (rows_split i g n Hi) as (rest & -> & _ & Hl & Hn & _). rewrite <- Hl, drop_app_add'. 2: done. rewrite drop_app_le, take_app_le by (rewrite ?length_drop; lia). done.
Qed.

Lemma group_of_row N : (N < length rows)%nat → ∃ i k g n, N = (GROUP * i + k)%nat ∧ gs !! i = Some (g, n) ∧ (k < n)%nat ∧ (k < GROUP)%nat.
Proof.
  intros HN. pose proof GROUP_eq as HG. assert (∃ i p, gs !! i = Some p ∧ length gs = S i) as (m & [gm nm] & Hm & Hlen).
  { destruct gs as [|p l] eqn:E; [cbn in HN; lia|]. rewrite <- E in *. destruct (lookup_lt_is_Some_2 gs (length gs - 1)) as [q Hq]; [rewrite E; cbn; lia|]. exists (length gs - 1)%nat, q. split; [done|]. rewrite E. cbn. lia. }
  destruct (rows_split m gm nm Hm) as (rest & Hr & Hrest & Hl & Hlm & Hnm & _). specialize (Hrest Hlen). subst rest.
  assert (length rows = GROUP * m + nm)%nat as Htotal by (rewrite Hr, app_nil_r, length_app; lia).
  pose proof (Nat.div_mod N GROUP ltac:(lia)) as Hdm. pose proof (Nat.mod_upper_bound N GROUP ltac:(lia)) as Hk.
  assert (N / GROUP < length gs)%nat as Hi by nia. destruct (lookup_lt_is_Some_2 gs _ Hi) as [[g n] Hg].
  destruct (rows_split _ g n Hg) as (_ & _ & _ & _ & _ & _ & Hfull). exists (N / GROUP)%nat, (N mod GROUP)%nat, g, n. split_and!; [done | done | | done].
  destruct (decide (S (N / GROUP) < length gs)%nat) as [Hlt|Hge]; [rewrite Hfull by done; lia|]. assert (N / GROUP = m)%nat as E by lia. rewrite E, Hm in Hg. injection Hg as <- <-. rewrite E in Hdm. lia.
Qed.

(** The position is determined by the row, but for the end of a group. *)
Lemma stands_before st N : stands_at st N → (N < length rows)%nat → current_group_offset st ≠ GROUP →
  ∃ i k g n, N = (GROUP * i + k)%nat ∧ at_pos st i k ∧ gs !! i = Some (g, n) ∧ (k < n)%nat.
Proof.
  intros (i & k & -> & Hat) HN Hne. pose proof Hat as (g & n & Hi & _ & Ho & Hk & _). exists i, k, g, n. split_and!; [done | done | done|].
  destruct (rows_split i g n Hi) as (rest & Hr & Hrest & Hl & Hlm & Hnm & Hfull). destruct (decide (S i < length gs)%nat) as [Hlt|Hge]; [rewrite (Hfull Hlt) in *; lia|].
  pose proof (lookup_lt_Some _ _ _ Hi). rewrite Hrest in Hr by lia. rewrite Hr, app_nil_r, length_app in HN. lia.
Qed.

Lemma at_pos_move st i k c d g n : at_pos st i k → gs !! i = Some (g, n) → (k + c ≤ n)%nat →
  match g with GroupDeltaFor w f offset values => d = as_T T (sum_before offset (deltas w f values) (k + c)) | _ => True end → at_pos (move_offset st c d) i (k + c).
Proof.
  intros (g' & n' & Hi & [L1 L2 L3 L4] & Ho & _ & _) Hi' Hn Hd. rewrite Hi in Hi'. injection Hi' as -> ->. exists g, n. split_and!; [done | | cbn; lia | lia | done].
  split; cbn; done.
Qed.

(** ** Skips *)

Lemma group_modulo k : (k mod ALGORITHM_GROUP < 32)%nat.
Proof. change ALGORITHM_GROUP with 32%nat. apply Nat.mod_upper_bound. lia. Qed.

Lemma skip_deltas_ok i w f offset values n : gs !! i = Some (GroupDeltaFor w f offset values, n) → ∀ fuel st k r, at_pos st i k → (k + r ≤ n)%nat → (r ≤ fuel)%nat →
  ∃ st', skip_deltas T b fuel st r = Ok st' ∧ at_pos st' i (k + r).
Proof.
  intros Hi. induction fuel as [|fuel IH]; intros st k r Hat Hn Hf; [exists st; split; [done|]; by replace (k + r)%nat with k by lia|]. cbn [skip_deltas].
  destruct (Nat.eqb_spec r 0) as [->|Hr]; [exists st; by rewrite Nat.add_0_r|]. pose proof Hat as (g & n' & Hi' & Hld & Ho & _ & Hd). rewrite Hi in Hi'. injection Hi' as <- <-. rewrite Ho.
  pose proof (group_modulo k) as Hmod. set (c := Nat.min r _) in *. change ALGORITHM_GROUP with 32%nat in *. assert (0 < c)%nat by lia.
  rewrite (unpack_rows_ok st i k _ n w values c) by (done || lia || by apply (ld_header _ _ _ Hld)). cbn [mbind result_bind].
  destruct (delta_rows_ok st i k n w f offset values c Hi Hld Hd) as (res & last & -> & Hv & _ & Hl); [lia | lia|]. cbn [mbind result_bind]. rewrite Hv. cbn [mbind result_bind].
  destruct (IH (move_offset st c (as_T T last)) (k + c)%nat (r - c)%nat) as (st' & E & Hat'); [eapply at_pos_move; [exact Hat | exact Hi | lia | exact Hl] | lia | lia|].
  exists st'. split; [done|]. by replace (k + r)%nat with (k + c + (r - c))%nat by lia.
Qed.

Lemma BitpackingSkip_ok st N skip : stands_at st N → (N + skip < length rows)%nat →
  ∃ st' i k, BitpackingSkip T b st skip = Ok st' ∧ (N + skip = GROUP * i + k)%nat ∧ at_pos st' i k ∧ ∃ g n, gs !! i = Some (g, n) ∧ (k < n)%nat.
Proof.
  intros (i & k & -> & Hat) HN. pose proof GROUP_eq as HG. destruct (group_of_row _ HN) as (j & k' & g & n & EN & Hj & Hk' & HkG).
  pose proof Hat as (g0 & n0 & Hi & Hld & Ho & Hk & _). pose proof (Nat.div_mod (skip + k) GROUP ltac:(lia)) as Hdm. pose proof (Nat.mod_upper_bound (skip + k) GROUP ltac:(lia)) as Hmod.
  set (m := ((skip + k) / GROUP)%nat) in *. assert (j = i + m)%nat as Ej by nia. assert (k' = (skip + k) mod GROUP)%nat as Ek by nia.
  assert (∃ st1 r, (if (m =? 0)%nat then Ok (st, 0%nat) else
      st1 ← LoadNextGroup T b (mkBPScan (current_mode st) (current_width st) (current_frame_of_reference st) (current_constant st) (current_delta_offset st)
              k (current_group_ptr st) (bitpacking_metadata_ptr st - Z.of_nat (m - 1) * 4)); Ok (st1, (GROUP - k + (m - 1) * GROUP)%nat)) = Ok (st1, r) ∧
      at_pos st1 j (k' - (skip - r)) ∧ (skip - r ≤ k')%nat) as (st1 & r & E & Hat1 & Hr).
  { destruct (Nat.eqb_spec m 0) as [E0|E0].
    - exists st, 0%nat. rewrite E0, Nat.add_0_r in Ej. subst j. split_and!; [done | | lia]. by replace (k' - (skip - 0))%nat with k by lia.
    - destruct (LoadNextGroup_ok (mkBPScan (current_mode st) (current_width st) (current_frame_of_reference st) (current_constant st) (current_delta_offset st)
              k (current_group_ptr st) (bitpacking_metadata_ptr st - Z.of_nat (m - 1) * 4)) j g n Hj) as (st1 & -> & Hat1); [cbn; rewrite (ld_metadata _ _ _ Hld); lia|].
      destruct (rows_split i g0 n0 Hi) as (_ & _ & _ & _ & _ & Hn0 & _).
      cbn [mbind result_bind]. exists st1, (GROUP - k + (m - 1) * GROUP)%nat. assert (GROUP - k + (m - 1) * GROUP = m * GROUP - k)%nat as Es by nia.
      split_and!; [done | | rewrite Es; nia]. replace (k' - (skip - (GROUP - k + (m - 1) * GROUP)))%nat with 0%nat by (rewrite Es; nia). done. }
  unfold BitpackingSkip. rewrite Ho. fold m. rewrite E. cbn [mbind result_bind]. pose proof Hat1 as (g1 & n1 & Hj1 & Hld1 & Ho1 & _ & _). rewrite Hj in Hj1. injection Hj1 as <- <-. rewrite (ld_mode _ _ _ Hld1).
  assert (∀ d, (match g with GroupDeltaFor _ _ _ _ => False | _ => True end) → at_pos (move_offset st1 (skip - r) d) j k') as Hmove.
  { intros d Hg. replace k' with (k' - (skip - r) + (skip - r))%nat at 1 by lia. eapply at_pos_move; [done | done | lia | by destruct g]. }
  destruct g as [c|d f|w f o values|w f values]; cbn [group_mode].
  3: destruct (skip_deltas_ok j w f o values n Hj (skip - r)%nat st1 _ (skip - r)%nat Hat1) as (st' & -> & Hat'); [lia | lia|]; exists st', j, k'; split_and!; [done | lia | by replace (k' - (skip - r) + (skip - r))%nat with k' in Hat' by lia | by eexists _, _].
  all: eexists _, j, k'; split_and!; [done | lia | by apply Hmove | by eexists _, _].
Qed.

(** ** Fetching a row *)

Context (Hhead : bytes_at b 0 (encode_value UINT64 top)).

Lemma BitpackingInitScan_ok : (0 < length rows)%nat → ∃ st, BitpackingInitScan T uninitialised b = Ok st ∧ stands_at st 0.
Proof.
  intros Hr. destruct (group_of_row 0 Hr) as (i & k & g & n & E & Hi & _). pose proof GROUP_eq. assert (i = 0%nat) as -> by nia. unfold BitpackingInitScan.
  unfold BITPACKING_HEADER_SIZE in Hroom. rewrite (Load_at UINT64 b 0 top); [|split; [lia|]; unfold Storage_BLOCK_SIZE in Htop; change (2 ^ 64) with 18446744073709551616; lia | done]. cbn [mbind result_bind].
  destruct (LoadNextGroup_ok (mkBPScan BP_INVALID uninitialised uninitialised uninitialised uninitialised 0 0 (top - 4)) 0 g n Hi) as (st & -> & Hat); [cbn; lia|].
  exists st. split; [done|]. exists 0%nat, 0%nat. split; [lia | done].
Qed.





(** ** Scans *)

(** One iteration reads at least a row, and the next ones may overwrite what is
    behind the rows that were read. *)
Definition step_ok (N remaining : nat) (res : list Z) (position : nat) (r : result (BitpackingScanState * list Z * nat)) : Prop :=
  ∃ st' res' c, r = Ok (st', res', c) ∧ (0 < c ≤ remaining)%nat ∧ stands_at st' (N + c) ∧ length res' = length res ∧
    take (position + c) res' = take position res ++ take c (drop N rows) ∧ drop (position + remaining) res' = drop (position + remaining) res.

Lemma step_intro st N remaining res position V c d i k g n :
  N = (GROUP * i + k)%nat → at_pos st i k → gs !! i = Some (g, n) → (k + c ≤ n)%nat → (0 < c)%nat → (c ≤ length V ≤ remaining)%nat → (position + remaining ≤ length res)%nat →
  take c V = take c (drop k (group_rows T g n)) → match g with GroupDeltaFor w f offset values => d = as_T T (sum_before offset (deltas w f values) (k + c)) | _ => True end →
  step_ok N remaining res position (res ← write_rows res position V; Ok (move_offset st c d, res, c)).
Proof.
  intros -> Hat Hi Hn Hc HV Hp Ht Hd. rewrite result_rows_ok by lia. cbn [mbind result_bind]. eexists _, _, c. split; [done|]. split_and!.
  - lia.
  - lia.
  - exists i, (k + c)%nat. split; [lia|]. by eapply at_pos_move.
  - rewrite !length_app, length_take, length_drop. lia.
  - rewrite (take_group_rows i g n k c Hi Hn), <- Ht. rewrite take_app, length_take, Nat.min_l by lia. rewrite take_ge by (rewrite length_take; lia). f_equal. rewrite take_app_le by lia. f_equal. lia.
  - rewrite !drop_app, !length_take, Nat.min_l by lia. rewrite (drop_ge (take _ _)), (drop_ge V) by (rewrite ?length_take; lia). cbn. rewrite drop_drop. f_equal. lia.
Qed.

Lemma scan_step_ok st N remaining res position : stands_at st N → (0 < remaining)%nat → (N + remaining ≤ length rows)%nat → (position + remaining ≤ length res)%nat →
  step_ok N remaining res position (scan_step T b st remaining res position).
Proof.
  intros Hst Hr HN Hp. pose proof GROUP_eq as HG. unfold scan_step.
  assert (∃ st1 i k g n, (if (current_group_offset st =? GROUP)%nat then LoadNextGroup T b st else Ok st) = Ok st1 ∧ N = (GROUP * i + k)%nat ∧ at_pos st1 i k ∧ gs !! i = Some (g, n) ∧ (k < n)%nat) as (st1 & i & k & g & n & -> & EN & Hat & Hi & Hk).
  { destruct (Nat.eqb_spec (current_group_offset st) GROUP) as [E|E].
    - destruct Hst as (i & k & -> & (g & n & Hi & Hld & Ho & _ & _)). rewrite Ho in E. subst k. destruct (group_of_row (GROUP * i + GROUP)) as (j & k & g' & n' & EN & Hj & Hk & HkG); [lia|].
      assert (j = i + 1 ∧ k = 0)%nat as [-> ->] by nia. destruct (LoadNextGroup_ok st (i + 1) g' n' Hj) as (st1 & -> & Hat); [rewrite (ld_metadata _ _ _ Hld); lia|]. exists st1, (i + 1)%nat, 0%nat, g', n'. split_and!; [done | lia | done | done | lia].
    - destruct (stands_before st N Hst) as (i & k & g & n & ? & ? & ? & ?); [lia | done|]. by exists st, i, k, g, n. }
  cbn [mbind result_bind]. pose proof Hat as (g' & n' & Hi' & Hld & Ho & _ & Hd). rewrite Hi in Hi'. injection Hi' as <- <-. rewrite (ld_mode _ _ _ Hld), Ho.
  destruct (rows_split i g n Hi) as (rest & Hrows & Hrest & Hl & Hlg & Hn & Hfull). pose proof (ld_header _ _ _ Hld) as Hh.
  assert (∀ c, c ≤ remaining → k + c ≤ GROUP → k + c ≤ n)%nat as Hin.
  { intros c Hc HcG. destruct (decide (S i < length gs)%nat) as [Hlt|Hge]; [rewrite (Hfull Hlt); lia|]. pose proof (lookup_lt_Some _ _ _ Hi). rewrite Hrows, Hrest, app_nil_r, length_app in HN by lia. lia. }
  pose proof (group_modulo k) as Hmod. change ALGORITHM_GROUP with 32%nat in *. assert (GROUP mod 32 = 0)%nat as HG32 by (by vm_compute).
  assert (k + Nat.min remaining (32 - k mod 32) ≤ GROUP)%nat as Hchunk.
  { pose proof (Nat.div_mod k 32 ltac:(lia)). pose proof (Nat.div_mod GROUP 32 ltac:(lia)). assert (k < GROUP)%nat by lia. nia. }
  destruct g as [c|d f|w f o values|w f values]; cbn [group_mode].
  - rewrite Hh. eapply step_intro; [done | done | done | apply Hin; lia | lia | rewrite length_replicate; lia | done | | done].
    cbn [group_rows]. rewrite take_replicate, drop_replicate, take_replicate. f_equal. specialize (Hin (Nat.min remaining (GROUP - k)) ltac:(lia) ltac:(lia)). lia.
  - set (c := Nat.min remaining (GROUP - k)) in *. specialize (Hin c ltac:(lia) ltac:(lia)). eapply step_intro; [done | done | done | lia | lia | rewrite length_fmap, length_seq; lia | done | | done].
    rewrite take_ge by (rewrite length_fmap, length_seq; lia). cbn [group_rows]. rewrite <- fmap_drop, <- fmap_take, drop_seq, take_seq, Nat.min_l by lia. apply list_eq. intros j. rewrite !list_lookup_fmap.
    destruct (decide (j < c)%nat) as [Hj|Hj]; [rewrite !lookup_seq_lt by lia | by rewrite !lookup_seq_ge by lia]. cbn. f_equal. unfold constant_delta_value. rewrite Ho. destruct Hh as [-> ->]. apply as_T_same.
    rewrite Z.add_comm. apply eqm_add; [done | etrans; [by apply as_unsigned_eqm | by apply as_T_eqm] |]. etrans; [by apply as_unsigned_eqm|]. rewrite Z.mul_comm. apply eqm_mul; [done | done|]. etrans; [by apply as_unsigned_eqm | by apply as_T_eqm].
  - set (c := Nat.min remaining (32 - k mod 32)) in *. specialize (Hin c ltac:(lia) ltac:(lia)).
    rewrite (unpack_rows_ok st1 i k _ n w values c) by (done || lia || by apply Hh). cbn [mbind result_bind].
    destruct (delta_rows_ok st1 i k n w f o values c Hi Hld Hd) as (V & last & -> & Hv & HV & Hlast); [lia | lia|]. cbn [mbind result_bind]. rewrite Hv. cbn [mbind result_bind].
    assert (length (as_T T <$> V) = c) as LV by (rewrite HV, length_take, length_drop; lia). eapply step_intro; [done | done | done | lia | lia | lia | done | | done]. rewrite take_ge by lia. done.
  - set (c := Nat.min remaining (32 - k mod 32)) in *. specialize (Hin c ltac:(lia) ltac:(lia)).
    rewrite (unpack_rows_ok st1 i k _ n w values c) by (done || lia || by apply Hh). cbn [mbind result_bind]. destruct Hh as [_ ->]. set (V := ApplyFrameOfReference _ _ _ _).
    assert (V = take c (drop k (group_rows T (GroupFor w f values) n))) as HV.
    { unfold V, ApplyFrameOfReference. cbn [group_rows]. rewrite <- fmap_drop, <- fmap_take. destruct (Z.eqb_spec (as_T T f) 0) as [E|E].
      - apply list_fmap_ext. intros j v _. apply as_T_same. rewrite <- (Z.add_0_r (v mod 2 ^ w)) at 1. apply eqm_add; [done | done|]. rewrite <- E. by apply as_T_eqm.
      - rewrite <- list_fmap_compose. apply list_fmap_ext. intros j v _. cbn. apply as_T_same. apply eqm_add; [done|..]; (etrans; [by apply as_unsigned_eqm | by apply as_T_eqm]). }
    assert (length V = c) as LV by (rewrite HV, length_take, length_drop, Hlg; lia). eapply step_intro; [done | done | done | lia | lia | lia | done | | done]. rewrite take_ge by lia. done.
Qed.

(** A scan writes the rows to the vector, and nothing else. *)
Lemma scan_groups_ok : ∀ fuel st N remaining res position, stands_at st N → (remaining ≤ fuel)%nat → (N + remaining ≤ length rows)%nat → (position + remaining ≤ length res)%nat →
  ∃ st', scan_groups T b fuel st remaining res position = Ok (st', take position res ++ take remaining (drop N rows) ++ drop (position + remaining) res) ∧ stands_at st' (N + remaining).
Proof.
  induction fuel as [|fuel IH]; intros st N remaining res position Hst Hf HN Hp; cbn [scan_groups]; (destruct (Nat.eqb_spec remaining 0) as [->|Hr]; [exists st; by rewrite !Nat.add_0_r, take_0, app_nil_l, take_drop|]); [lia|].
  destruct (scan_step_ok st N remaining res position Hst) as (st1 & res1 & c & -> & Hc & Hst1 & Hl & Ht & Hd); [lia | lia | lia|]. cbn [mbind result_bind].
  destruct (IH st1 (N + c)%nat (remaining - c)%nat res1 (position + c)%nat Hst1) as (st' & -> & Hst'); [lia | lia | lia|]. exists st'. split; [|by replace (N + remaining)%nat with (N + c + (remaining - c))%nat by lia].
  do 2 f_equal. rewrite Ht, <- app_assoc. f_equal. rewrite app_assoc. replace (position + c + (remaining - c))%nat with (position + remaining)%nat by lia. rewrite Hd. f_equal.
  rewrite <- drop_drop. replace remaining with (c + (remaining - c))%nat at 2 by lia. by rewrite <- take_take_drop.
Qed.
End Reader.

(** * Properties *)

Section Holds.
Context (uninitialised : Z) (type : LogicalType) (HT : packed_type (InternalType type) = true).
Abbreviation T := (InternalType type).




(** A scan of rows that are held. *)
Lemma bp_holds_scan b rows skipped scan_count res off : bp_holds uninitialised type b rows → (0 < scan_count)%nat → (skipped + scan_count ≤ length rows)%nat → (off + scan_count ≤ length res)%nat →
  ∃ st st' st'' data, BitpackingInitScan T uninitialised b = Ok st ∧ BitpackingSkip T b st skipped = Ok st' ∧ BitpackingScanPartial T b st' scan_count res off = Ok (st'', data) ∧ length data = length res ∧
    (∀ i x, (i < scan_count)%nat → rows !! (skipped + i)%nat = Some (Some x) → data !! (off + i)%nat = Some x) ∧ ∀ i, (i < off ∨ off + scan_count ≤ i)%nat → data !! i = res !! i.
Proof.
  intros (gs & (top & H1 & H2 & H3 & H4 & H5) & Hsh & Hp & _) Hs Hn Ho. pose proof (Forall2_length _ _ _ Hp) as Hl.
  destruct (BitpackingInitScan_ok uninitialised type HT b gs top Hsh H1 H3 H4 H5 H2) as (st & E & Hst); [lia|].
  destruct (BitpackingSkip_ok uninitialised type HT b gs top Hsh H1 H3 H4 H5 st 0 skipped Hst) as (st' & i & k & E' & Ei & Hat & _); [lia|].
  destruct (scan_groups_ok uninitialised type HT b gs top Hsh H1 H3 H4 H5 scan_count st' skipped scan_count res off) as (st'' & E'' & _); [by exists i, k | lia | lia | lia|].
  set (all := all_group_rows type gs) in *. assert (length (take off res ++ take scan_count (drop skipped all)) = (off + scan_count)%nat) as Hll by (rewrite length_app, !length_take, length_drop; lia).
  eexists st, st', st'', _. split_and!; [done | done | exact E'' | rewrite app_assoc, length_app, length_drop; lia | |].
  - intros j x Hj Hx. rewrite app_assoc, lookup_app_l, lookup_app_r by (rewrite ?length_take; lia). rewrite length_take, Nat.min_l by lia. rewrite Nat.add_comm, Nat.add_sub, lookup_take_lt, lookup_drop by lia. by eapply present_lookup.
  - intros j [Hj|Hj]; [rewrite lookup_app_l, lookup_take_lt by (rewrite ?length_take; lia); done|]. rewrite app_assoc, lookup_app_r by lia. rewrite Hll, lookup_drop. f_equal. lia.
Qed.
End Holds.


(** C25. Scans of a bit-packed checkpoint give the rows that were written, for every
    integer type of at most 64 bits ([INT128] and [UINT128] are not modelled): after
    any number of skipped rows, wherever groups and blocks of 32 rows end, every
    valid row that is scanned has its value, and the rest of the vector is left
    alone.  Nothing is assumed of the packing of 32 rows: it is computed as the
    packing library does. *)
Theorem bitpacking_scan_roundtrip type mode uninitialised start global vectors size :
  let T := InternalType type in
  type_ok type → GetStatsType type = NUMERIC_STATS → packed_type T = true → stats_wf global → stats_type global = type →
  Forall (λ v, packable type v.1 v.2) vectors → Bitpacking_analysis T mode uninitialised vectors = Ok (Some size) →
  ∃ c rss, Bitpacking_checkpoint T true type mode uninitialised start global vectors = Ok c ∧ concat rss = all_rows vectors ∧
    Forall2 (λ p rows, compression_type p = COMPRESSION_BITPACKING → ∀ skipped scan_count res off,
      (0 < scan_count)%nat → (skipped + scan_count ≤ length rows)%nat → (off + scan_count ≤ length res)%nat →
      ∃ st st' st'' data, BitpackingInitScan T uninitialised (pointer_block p) = Ok st ∧ BitpackingSkip T (pointer_block p) st skipped = Ok st' ∧
        BitpackingScanPartial T (pointer_block p) st' scan_count res off = Ok (st'', data) ∧ length data = length res ∧
        (∀ i x, (i < scan_count)%nat → rows !! (skipped + i)%nat = Some (Some x) → data !! (off + i)%nat = Some x) ∧
        ∀ i, (i < off ∨ off + scan_count ≤ i)%nat → data !! i = res !! i) (data_pointers c) rss.
Proof.
  intros T Hok Hk HT Wg Tg Hv Ha. destruct (Bitpacking_checkpoint_ok mode uninitialised type Hok Hk HT start global vectors size Wg Tg Hv Ha) as (c & rss & E & [_ Hp _ _ _] & Hrows). exists c, rss.
  split_and!; [done | done|]. eapply Forall2_impl; [exact Hp|]. intros p rows [_ _ _ Hd] Hc skipped scan_count res off Hs Hn Ho. rewrite Hc in Hd. by apply (bp_holds_scan uninitialised type HT _ rows).
Qed.

(** ** Examples *)

Lemma flat_vector_packable values mask :
  match mask with None => True | Some l => words_ok l ∧ (EntryCount (length values) ≤ length l)%nat end → Forall (in_range INT32) values →
  packable (LT INTEGER) (flat_vector values mask).1 (flat_vector values mask).2.
Proof.
  intros Hm Hv. split; [by apply flat_vector_ok|]. intros i Hi. unfold unified_value, unified_index. cbn. rewrite Nat2Z.id. by apply lookup_lt_is_Some_2.
Qed.


(** Numbers with a NULL between them, which are packed with a frame of reference. *)
Definition sparse_vectors : list (UnifiedVectorFormat Z * nat) := [flat_vector [70; 0; 75; 71] (Some [13])].


Lemma bitpacking_scan_roundtrip_witness :
  ∃ c rss, Bitpacking_checkpoint INT32 true (LT INTEGER) BP_AUTO 0 100 (int_stats false true 0 5) sparse_vectors = Ok c ∧ concat rss = [Some 70; None; Some 75; Some 71] ∧
    Forall2 (λ p rows, (4 ≤ length rows)%nat → ∃ st st' st'' data, BitpackingInitScan INT32 0 (pointer_block p) = Ok st ∧ BitpackingSkip INT32 (pointer_block p) st 2 = Ok st' ∧
      BitpackingScanPartial INT32 (pointer_block p) st' 2 [0; 0; 0] 1 = Ok (st'', data) ∧ ∀ i x, (i < 2)%nat → rows !! (2 + i)%nat = Some (Some x) → data !! (1 + i)%nat = Some x) (data_pointers c) rss.
Proof.
  destruct (bitpacking_scan_roundtrip (LT INTEGER) BP_AUTO 0 100 (int_stats false true 0 5) sparse_vectors 24) as (c & rss & E & Hr & Hp).
  - by vm_compute.
  - reflexivity.
  - reflexivity.
  - apply int_stats_wf.
  - reflexivity.
  - apply Forall_singleton. apply flat_vector_packable; [by repeat constructor | by repeat constructor].
  - by vm_compute.
  - exists c, rss. split; [exact E|]. split; [by rewrite Hr|].
    assert (Forall (λ p, compression_type p = COMPRESSION_BITPACKING) (data_pointers c)) as Hc by (vm_compute in E; injection E as <-; by repeat constructor).
    apply Forall2_same_length_lookup_2; [by apply (Forall2_length _ _ _ Hp)|]. intros k p rows Hpk Hrk Hl.
    destruct (Forall2_lookup_lr _ _ _ _ _ _ Hp Hpk Hrk (proj1 (Forall_lookup _ _) Hc k p Hpk) 2%nat 2%nat [0; 0; 0] 1%nat) as (st & st' & st'' & data & E1 & E2 & E3 & _ & Hrows & _); [lia | lia | cbn; lia|].
    exists st, st', st'', data. split; [exact E1|]. split; [exact E2|]. split; [exact E3 | exact Hrows].
Defined.

(** ** The number of a row as a number of the type *)

(** 255 rows of [TINYINT] values, from -127 on, differ by one.  The number of a row from 128 on
    is no [int8_t]: what is fetched is computed with an uninitialised number, while
    scans are right. *)
Definition tiny_vectors : list (UnifiedVectorFormat Z * nat) := [flat_vector (seqZ (-127) 255) None].

Lemma bitpacking_fetch_uninitialised :
  Bitpacking_analysis INT8 BP_AUTO 0 tiny_vectors = Ok (Some 6) ∧
  (λ garbage, global ← CreateEmpty (LT TINYINT); c ← Bitpacking_checkpoint INT8 true (LT TINYINT) BP_AUTO garbage 0 global tiny_vectors; mapR (λ p, FetchRow INT8 (BitpackingFetchRow INT8 garbage) p 200 [0] 0) (data_pointers c)) <$> [0; 5] = [Ok [[-127]]; Ok [[-122]]].
Proof. split; vm_compute; reflexivity. Qed.

(** Differences of [2 ^ 30]: the product with the number of a row leaves the type,
    although the row is in it. *)
Definition wide_vectors : list (UnifiedVectorFormat Z * nat) := [flat_vector [- 2 ^ 30; 0; 2 ^ 30] None].

Lemma bitpacking_fetch_overflows :
  Bitpacking_analysis INT32 BP_AUTO 0 wide_vectors = Ok (Some 12) ∧
  (global ← CreateEmpty (LT INTEGER); c ← Bitpacking_checkpoint INT32 true (LT INTEGER) BP_AUTO 0 0 global wide_vectors; mapR (λ p, FetchRow INT32 (BitpackingFetchRow INT32 0) p 1 [0] 0) (data_pointers c)) = Ok [[0]] ∧
  (global ← CreateEmpty (LT INTEGER); c ← Bitpacking_checkpoint INT32 true (LT INTEGER) BP_AUTO 0 0 global wide_vectors; mapR (λ p, FetchRow INT32 (BitpackingFetchRow INT32 0) p 2 [0] 0) (data_pointers c)) = signed_overflow.
Proof. split_and!; vm_compute; reflexivity. Qed.
