(* ===== verification/SegmentLaws.v ===== *)
(** What a column needs from the segments it is made of, and that the
    uncompressed segments provide it. *)
From S2P Require Import Prelude Bits SelectionVector Types Stats NumericStats NumericFacts BaseStatistics ValidityMask MaskFacts VersionFacts.
From S2P Require Import StatsFacts StatsCreate.
From S2P Require Import UpdateSegment UpdateFacts UpdateLaws UncompressedSegment UncompressedFacts UncompressedAppend.

(** * The interface *)

(** [segment_rows]: the rows of a segment; [blank]: the row of a vector can be
    written by a scan; [window]: the first rows of the vector can be read;
    [source_row]: the row an append takes from a vector; [capacity]: the number
    of rows of a segment of the given size; [covers_row]: what the statistics
    of a segment say about its rows; [counted]: the rows of an append that go
    into the statistics; [type_fits]: the types of such a column.

    A partial scan starts at the front of the vector or at the front of the
    segment; when it reads to the end of the segment, the rows after it stay
    blank. *)
Class SegmentLaws {A T : Type} (F : CompressionFunction A T) {U : UpdateFunctions T} (L : UpdateLaws U) : Type := {
  segment_ok : ColumnSegment A → Prop;
  segment_rows : ColumnSegment A → list T;
  blank : FlatVector T → nat → Prop;
  window : FlatVector T → nat → Prop;
  source_ok : UnifiedVectorFormat Z → nat → Prop;
  source_row : UnifiedVectorFormat Z → nat → option T;
  capacity : nat → nat;
  covers_row : BaseStatistics → T → Prop;
  counted : UnifiedVectorFormat Z → nat → Prop;
  type_fits : LogicalType → Prop;
  window_row : ∀ v n q, window v n → (q < n)%nat → is_Some (view v q);
  window_le : ∀ v n k, window v n → (k ≤ n)%nat → window v k;
  ok_window : ∀ v, view_ok v → window v SVS;
  rows_length : ∀ seg, segment_ok seg → length (segment_rows seg) = seg_count seg;
  scan_partial_law : ∀ seg row_index scan v off,
    segment_ok seg → view_ok v → let start := GetRelativeIndex seg row_index in
    (0 < scan)%nat → (start + scan ≤ seg_count seg)%nat → (off + scan ≤ SVS)%nat → (off = 0 ∨ start = 0)%nat →
    (∀ q, (off ≤ q < SVS)%nat → blank v q) →
    ∃ v', scan_partial F seg row_index scan v off = Ok v' ∧ view_ok v' ∧
      (∀ i, (i < scan)%nat → view v' (off + i) = segment_rows seg !! (start + i)%nat) ∧
      (∀ q, (q < off)%nat → view v' q = view v q) ∧
      ((start + scan = seg_count seg)%nat → ∀ q, (off + scan ≤ q < SVS)%nat → blank v' q);
  scan_vector_law : ∀ seg row_index scan v,
    segment_ok seg → view_ok v → let start := GetRelativeIndex seg row_index in
    (start + scan ≤ seg_count seg)%nat → (scan ≤ SVS)%nat → (∀ q, (q < SVS)%nat → blank v q) →
    ∃ v', scan_vector F seg row_index scan v = Ok v' ∧ window v' scan ∧
      ∀ i, (i < scan)%nat → view v' i = segment_rows seg !! (start + i)%nat;
  fetch_row_law : ∀ seg row v result_idx,
    segment_ok seg → view_ok v → (row < seg_count seg)%nat → (result_idx < SVS)%nat → blank v result_idx →
    ∃ v', fetch_row F seg row v result_idx = Ok v' ∧ view_ok v' ∧
      (∀ q, (q < SVS)%nat → view v' q = if decide (q = result_idx) then segment_rows seg !! row else view v q) ∧
      (∀ q, (q < SVS)%nat → q ≠ result_idx → blank v q → blank v' q);
  append_law : ∀ seg d offset n,
    segment_ok seg → source_ok d (offset + n) →
    let k := Nat.min n (capacity (seg_size seg) - seg_count seg) in
    ∃ seg', append F seg d offset n = Ok (seg', k) ∧ segment_ok seg' ∧ seg_start seg' = seg_start seg ∧ seg_size seg' = seg_size seg ∧
      seg_count seg' = (seg_count seg + k)%nat ∧
      (∀ i, (i < seg_count seg)%nat → segment_rows seg' !! i = segment_rows seg !! i) ∧
      (∀ i, (i < k)%nat → segment_rows seg' !! (seg_count seg + i)%nat = source_row d (offset + i)) ∧
      (∀ x, covers_row (seg_stats seg) x → covers_row (seg_stats seg') x) ∧
      (∀ i x, (i < k)%nat → counted d (offset + i) → source_row d (offset + i) = Some x → covers_row (seg_stats seg') x);
  source_total : ∀ d n i, source_ok d n → (i < n)%nat → is_Some (source_row d i);
  new_law : ∀ type, type_fits type → ∃ type_size stats,
    GetTypeIdSize (InternalType type) = Ok type_size ∧ CreateEmpty type = Ok stats ∧
    (∀ start size, segment_ok (mkColumnSegment TRANSIENT start 0 size stats (new_block F size))) ∧
    (0 < capacity BLOCK_SIZE)%nat ∧ (0 < capacity (SVS * type_size))%nat;
  revert_law : ∀ seg start_row,
    segment_ok seg → (seg_start seg ≤ start_row ≤ seg_start seg + seg_count seg)%nat →
    ∃ seg', ColumnSegment_RevertAppend F seg start_row = Ok seg' ∧ segment_ok seg' ∧ seg_start seg' = seg_start seg ∧
      seg_size seg' = seg_size seg ∧ seg_count seg' = (start_row - seg_start seg)%nat ∧
      segment_rows seg' = take (start_row - seg_start seg) (segment_rows seg) ∧ seg_stats seg' = seg_stats seg;
}.

(** * Validity segments *)

Definition validity_rows (seg : ColumnSegment Z) : list bool := mask_bit (seg_block seg) <$> seq 0 (seg_count seg).

Lemma validity_row seg r : (r < seg_count seg)%nat → validity_rows seg !! r = Some (mask_bit (seg_block seg) r).
Proof. intros Hr. unfold validity_rows. by rewrite list_lookup_fmap, lookup_seq_lt. Qed.

Lemma validity_block_covers seg : validity_segment_ok seg → (seg_count seg ≤ 64 * length (seg_block seg))%nat.
Proof. intros [_ L C _ _]. pose proof (validity_capacity_fits (seg_size seg)). rewrite L. lia. Qed.

Lemma validity_scan_partial_law seg row_index scan (v : FlatVector bool) off :
  validity_segment_ok seg → mask_view_ok v → let start := GetRelativeIndex seg row_index in
  (0 < scan)%nat → (start + scan ≤ seg_count seg)%nat → (off + scan ≤ SVS)%nat → (off = 0 ∨ start = 0)%nat →
  (∀ q, (off ≤ q < SVS)%nat → valid_at (flat_validity v) q = true) →
  ∃ v', scan_partial ValidityGetFunction seg row_index scan v off = Ok v' ∧ mask_view_ok v' ∧
    (∀ i, (i < scan)%nat → mask_view v' (off + i) = validity_rows seg !! (start + i)%nat) ∧
    (∀ q, (q < off)%nat → mask_view v' q = mask_view v q) ∧
    ((start + scan = seg_count seg)%nat → ∀ q, (off + scan ≤ q < SVS)%nat → valid_at (flat_validity v') q = true).
Proof.
  intros Hseg [Hc Ht] start Hpos Hs Ho Hfront Hblank. pose proof (validity_block_covers seg Hseg) as Hb. destruct Hseg as [W _ _ _ Tail].
  destruct (ValidityScanPartial_ok seg row_index scan off (flat_validity v) SVS W ltac:(unfold start in *; lia) Ho Hc Ht) as (m & E & Hc' & Ht' & Hin & Hout).
  cbn [scan_partial ValidityGetFunction]. rewrite E. cbn. eexists. split; [done|]. split_and!.
  - done.
  - cbn. by rewrite Ht'.
  - intros i Hi. unfold mask_view. cbn. rewrite Hin by lia. rewrite Hblank by lia. rewrite validity_row by (unfold start in *; lia).
    replace (off + i - off)%nat with i by lia. done.
  - intros q Hq. unfold mask_view. cbn. f_equal. apply Hout; [lia | lia|]. intros [(_ & H & _)|(H & _)]; unfold start in *; lia.
  - intros Hend q Hq. cbn. rewrite Hout; [apply Hblank; lia | lia | lia|]. intros [(H & _)|(_ & H)]; [lia|].
    apply Tail. split; [unfold start in *; lia|]. fold start in H |- *.
    pose proof (Nat.div_mod_eq (start + q - off) 64). pose proof (Nat.mod_upper_bound (start + q - off) 64 ltac:(lia)).
    assert ((start + scan - 1) / 64 < length (seg_block seg))%nat by (apply Nat.Div0.div_lt_upper_bound; lia). lia.
Qed.

Lemma validity_scan_vector_law seg row_index scan (v : FlatVector bool) :
  validity_segment_ok seg → mask_view_ok v → let start := GetRelativeIndex seg row_index in
  (start + scan ≤ seg_count seg)%nat → (scan ≤ SVS)%nat → (∀ q, (q < SVS)%nat → valid_at (flat_validity v) q = true) →
  ∃ v', scan_vector ValidityGetFunction seg row_index scan v = Ok v' ∧ mask_view_ok v' ∧
    ∀ i, (i < scan)%nat → mask_view v' i = validity_rows seg !! (start + i)%nat.
Proof.
  intros Hseg [Hc Ht] start Hs Ho Hblank. pose proof (validity_block_covers seg Hseg) as Hb. destruct Hseg as [W _ _ _ _].
  destruct (ValidityScan_ok seg row_index scan (flat_validity v) SVS W ltac:(unfold start in *; lia) Ho Hc Ht Hblank) as (m & E & Hc' & Ht' & Hin).
  cbn [scan_vector ValidityGetFunction]. rewrite E. cbn. eexists. split; [done|]. split_and!; [done | cbn; by rewrite Ht'|].
  intros i Hi. unfold mask_view. cbn. rewrite Hin by done. by rewrite validity_row by (unfold start in *; lia).
Qed.

Lemma validity_fetch_row_law seg row (v : FlatVector bool) result_idx :
  validity_segment_ok seg → mask_view_ok v → (row < seg_count seg)%nat → (result_idx < SVS)%nat → valid_at (flat_validity v) result_idx = true →
  ∃ v', fetch_row ValidityGetFunction seg row v result_idx = Ok v' ∧ mask_view_ok v' ∧
    (∀ q, (q < SVS)%nat → mask_view v' q = if decide (q = result_idx) then validity_rows seg !! row else mask_view v q) ∧
    (∀ q, (q < SVS)%nat → q ≠ result_idx → valid_at (flat_validity v) q = true → valid_at (flat_validity v') q = true).
Proof.
  intros Hseg [Hc Ht] Hr Hi Hblank. pose proof (validity_block_covers seg Hseg) as Hb. destruct Hseg as [W _ _ _ _].
  destruct (ValidityFetchRow_ok seg row (flat_validity v) result_idx SVS W ltac:(lia) Hc Ht Hi) as (m & E & Hc' & Ht' & Hv).
  cbn [fetch_row ValidityGetFunction]. rewrite E. cbn. eexists. split; [done|]. split_and!; [done | cbn; by rewrite Ht'| |].
  - intros q Hq. unfold mask_view. cbn. rewrite Hv by done. destruct (decide (q = result_idx)) as [->|]; [|by rewrite andb_true_r].
    by rewrite Hblank, validity_row.
  - intros q Hq Hne Hb'. cbn. rewrite Hv, decide_False by done. by rewrite Hb'.
Qed.

(** What the statistics of a validity segment say. *)
Definition validity_seen_row (s : BaseStatistics) (b : bool) : Prop := (if b then has_no_null s else has_null s) = true.

Lemma validity_new : ∃ type_size stats,
  GetTypeIdSize (InternalType (LT VALIDITY)) = Ok type_size ∧ CreateEmpty (LT VALIDITY) = Ok stats ∧
  (∀ start size, validity_segment_ok (mkColumnSegment TRANSIENT start 0 size stats (ValidityInitSegment size))) ∧
  (0 < validity_capacity BLOCK_SIZE)%nat ∧ (0 < validity_capacity (SVS * type_size))%nat.
Proof.
  eexists 1%nat, _. split_and!; [done | reflexivity | | |].
  - intros start size. by apply ValidityInitSegment_ok.
  - apply Nat.ltb_lt. vm_compute. reflexivity.
  - apply Nat.ltb_lt. vm_compute. reflexivity.
Qed.

#[export] Instance validity_segments : SegmentLaws ValidityGetFunction validity_laws.
Proof.
  refine {| segment_ok := validity_segment_ok; segment_rows := validity_rows; blank v q := valid_at (flat_validity v) q = true;
            window v n := mask_covers (flat_validity v) n; source_ok := unified_ok; source_row d i := Some (unified_valid d i);
            capacity := validity_capacity; covers_row := validity_seen_row; counted _ _ := True; type_fits ty := ty = LT VALIDITY |}.
  - intros v n q _ _. by eexists.
  - intros v n k Hn Hk. by eapply mask_covers_le.
  - intros v [Hc _]. done.
  - intros seg _. unfold validity_rows. by rewrite length_fmap, length_seq.
  - exact validity_scan_partial_law.
  - intros seg row_index scan v Hseg Hv start Hs Ho Hb.
    destruct (validity_scan_vector_law seg row_index scan v Hseg Hv Hs Ho Hb) as (v' & E & [Hc _] & H). exists v'.
    split_and!; [done | by eapply mask_covers_le | done].
  - exact validity_fetch_row_law.
  - intros seg d offset n Hseg Hd k. destruct (ValidityAppend_ok seg d offset n Hseg Hd) as (seg' & E & Hseg' & H1 & H2 & H3 & Hold & Hnew & Hn & Hnn).
    exists seg'. split_and!; try done.
    + intros i Hi. rewrite !validity_row by lia. by rewrite Hold.
    + intros i Hi. rewrite validity_row by (rewrite H3; fold k; lia). by rewrite Hnew.
    + intros [|]; unfold validity_seen_row; intros H; [apply Hnn; by left | by rewrite Hn, H].
    + intros i x Hi _ [= <-]. unfold validity_seen_row. destruct (unified_valid d (offset + i)) eqn:Ev; [apply Hnn; right; by exists i|].
      rewrite Hn. apply orb_true_iff. right. apply existsb_exists. exists i. split; [apply in_seq; fold k; lia | by rewrite Ev].
  - intros d n i _ _. by eexists.
  - intros type ->. exact validity_new.
  - intros seg start_row Hseg Hr. pose proof (validity_block_covers seg Hseg) as Hb. destruct Hseg as [W Lb C Y Tail].
    unfold ColumnSegment_RevertAppend. cbn [revert_append ValidityGetFunction].
    destruct (ValidityRevertAppend_ok seg start_row W) as (block & -> & W' & L' & B); [lia|]. cbn [mbind result_bind].
    eexists. split; [done|]. cbn [set_segment_data seg_block seg_count seg_size seg_start]. split_and!; try done.
    + split; cbn [set_segment_data seg_block seg_count seg_size seg_stats]; [done | by rewrite L' | lia | done|]. intros r Hr'. rewrite B by lia. by rewrite decide_True by lia.
    + unfold validity_rows. cbn [set_segment_data seg_block seg_count]. rewrite <- fmap_take, take_seq. rewrite Nat.min_l by lia.
      apply list_fmap_ext. intros i r Hi. apply lookup_seq in Hi as [-> Hi]. rewrite B by lia. by rewrite decide_False by lia.
Defined.

(** * Segments of numbers *)

Section Numbers.
Context (ty : LogicalType) (null_value uninitialised : Z) (type_size : nat).
Hypothesis Htype : type_ok ty.
Hypothesis Hstats : GetStatsType ty = NUMERIC_STATS.
Hypothesis Hextremes : has_extremes ty = true.
Hypothesis Hsize : GetTypeIdSize (InternalType ty) = Ok type_size.
Abbreviation pt := (InternalType ty).

Lemma number_numeric : is_numeric pt = true.
Proof. by destruct (numeric_type ty Hstats). Qed.

Lemma number_not_list : pt ≠ PT_LIST.
Proof. intros E. pose proof number_numeric as H. rewrite E in H. by vm_compute in H. Qed.

Record value_segment_ok (seg : ColumnSegment Z) : Prop := {
  vg_length : length (seg_block seg) = (seg_size seg / type_size)%nat;
  vg_count : (seg_count seg ≤ seg_size seg / type_size)%nat;
  vg_stats : ∃ lo hi, bounded pt (seg_stats seg) lo hi;
  vg_type : stats_type (seg_stats seg) = ty;
  vg_flags : child_stats (seg_stats seg) = [] ∧ has_no_null (seg_stats seg) = true;
}.

Definition value_rows (seg : ColumnSegment Z) : list Z := take (seg_count seg) (seg_block seg).

Lemma value_row seg r : (r < seg_count seg)%nat → value_rows seg !! r = seg_block seg !! r.
Proof. intros Hr. unfold value_rows. by apply lookup_take_lt. Qed.

Lemma value_append_law seg d offset n :
  value_segment_ok seg → values_ok d (offset + n) →
  let k := Nat.min n (seg_size seg / type_size - seg_count seg) in
  ∃ seg', FixedSizeAppend pt null_value type_size seg d offset n = Ok (seg', k) ∧ value_segment_ok seg' ∧
    seg_start seg' = seg_start seg ∧ seg_size seg' = seg_size seg ∧ seg_count seg' = (seg_count seg + k)%nat ∧
    (∀ i, (i < seg_count seg)%nat → value_rows seg' !! i = value_rows seg !! i) ∧
    (∀ i, (i < k)%nat → value_rows seg' !! (seg_count seg + i)%nat = stored_value null_value d (offset + i)) ∧
    (∀ x, stats_contain pt (seg_stats seg) x → stats_contain pt (seg_stats seg') x) ∧
    (∀ i x, (i < k)%nat → unified_valid d (offset + i) = true → unified_value d (offset + i) = Some x → stats_contain pt (seg_stats seg') x) ∧
    ∃ u, seg_stats seg' = set_union (seg_stats seg) u.
Proof.
  intros [L C (lo & hi & V) Y Fl] Hd k. unfold FixedSizeAppend. rewrite min_difference_le by lia. fold k.
  destruct (StandardFixedSizeAppend_ok pt null_value number_numeric (seg_stats seg) lo hi (seg_block seg) (seg_count seg) d offset (offset + n) k)
    as (s' & t & -> & Hb & (u & ->) & Hm & Hc & Lt & B); [done | done | lia | lia|].
  cbn [mbind result_bind]. eexists. split; [done|]. unfold value_rows. cbn [set_segment_data seg_block seg_count seg_size seg_start seg_stats].
  split_and!; try done.
  - split; cbn [set_segment_data seg_block seg_count seg_size seg_stats]; [by rewrite Lt | lia | done | by rewrite set_union_type | by destruct (seg_stats seg)].
  - intros i Hi. rewrite !lookup_take_lt by lia. rewrite B. by rewrite decide_False by lia.
  - intros i Hi. rewrite lookup_take_lt by lia. rewrite B, decide_True by lia. f_equal. lia.
  - by exists u.
Qed.

Lemma number_new : ∃ size stats,
  GetTypeIdSize (InternalType ty) = Ok size ∧ CreateEmpty ty = Ok stats ∧
  (∀ start n, value_segment_ok (mkColumnSegment TRANSIENT start 0 n stats (replicate (n / type_size) uninitialised))) ∧
  (0 < BLOCK_SIZE / type_size)%nat ∧ (0 < SVS * size / type_size)%nat.
Proof.
  assert (pt ≠ PT_BIT) as Hbit by (intros E; pose proof number_numeric as H; rewrite E in H; by vm_compute in H).
  assert (leaf_type ty) as Hleaf by (by left).
  assert (∃ s x y, CreateEmpty ty = Ok s ∧ bounded pt s x y ∧ stats_type s = ty ∧ child_stats s = [] ∧ has_no_null s = true) as (s & x & y & Hs & V & Ht & Hfl).
  { rewrite CreateEmpty_leaf by done. destruct (Construct_leaf ty Htype Hleaf) as (n & nn & d & u & ->). cbn [mbind result_bind]. rewrite Hstats.
    destruct (CreateEmpty_view (mkStats ty n nn d u []) Hstats Hextremes) as (s & x & y & -> & V & w & ->). eexists _, x, y. split; [done|].
    destruct V as [V1 V2 V3]. cbn [InitializeEmpty set_validity set_union stats_type] in *. split; [by split | by split_and!]. }
  assert (0 < type_size ≤ 16)%nat as Hts.
  { pose proof number_numeric as Hn. destruct pt; cbn in Hsize; try (injection Hsize as <-; lia); exfalso; by vm_compute in Hn. }
  exists type_size, s. split_and!; [done | done | | |].
  - intros start n. split; cbn [seg_block seg_size seg_count seg_stats]; [by rewrite length_replicate | lia | by eexists _, _ | done | done].
  - apply Nat.div_str_pos. split; [lia|]. transitivity 16%nat; [lia|]. apply Nat.leb_le. vm_compute. reflexivity.
  - rewrite Nat.div_mul by lia. apply vector_size_pos.
Qed.

Definition number_functions : UpdateLaws (update_functions (Update_number pt)) := number_laws pt number_not_list.

#[export] Instance number_segments : SegmentLaws (FixedSizeGetFunction pt null_value uninitialised type_size) number_functions.
Proof.
  refine {| segment_ok := value_segment_ok; segment_rows := value_rows; blank v q := True;
            window v n := (n ≤ length (flat_data v))%nat; source_ok := values_ok; source_row := stored_value null_value;
            capacity size := (size / type_size)%nat; covers_row := stats_contain pt; counted d i := unified_valid d i = true;
            type_fits t := t = ty |}.
  - intros v n q Hn Hq. apply (lookup_lt_is_Some_2 (flat_data v) q). lia.
  - intros v n k Hn Hk. lia.
  - intros v [Hd _]. exact Hd.
  - intros seg [L C _ _ _]. unfold value_rows. rewrite length_take. lia.
  - intros seg row_index scan v off [L C _ _ _] [Hd Hm] start Hpos Hs Ho _ _. cbn in Hd. cbn [scan_partial FixedSizeGetFunction].
    unfold FixedSizeScanPartial. destruct (copy_rows_ok (flat_data v) (seg_block seg) off start scan) as (t & E & Lt & B); [lia | lia|].
    fold start. rewrite E. cbn. eexists. split; [done|]. split_and!; [split; [cbn; lia | exact Hm] | | | done].
    + intros i Hi. unfold data_view. cbn. rewrite B, decide_True, value_row by (unfold start in *; lia). f_equal. unfold start in *. lia.
    + intros q Hq. unfold data_view. cbn. by rewrite B, decide_False by lia.
  - intros seg row_index scan v [L C _ _ _] _ start Hs Ho _. cbn [scan_vector FixedSizeGetFunction]. eexists. split; [done|]. cbn. unfold FixedSizeScan. fold start. split.
    + rewrite length_drop. lia.
    + intros i Hi. unfold data_view. cbn. by rewrite lookup_drop, value_row by lia.
  - intros seg row v result_idx [L C _ _ _] [Hd Hm] Hr Hi _. cbn in Hd. cbn [fetch_row FixedSizeGetFunction]. unfold FixedSizeFetchRow.
    destruct (lookup_lt_is_Some_2 (seg_block seg) row) as [x Hx]; [lia|]. rewrite (vget_lookup _ _ _ Hx). cbn [mbind result_bind].
    rewrite vset_lt by lia. eexists. split; [done|]. split; [split; [cbn; rewrite length_insert; exact Hd | exact Hm]|]. split; [|done]. intros q Hq. unfold data_view. cbn.
    destruct (decide (q = result_idx)) as [->|]; [rewrite list_lookup_insert_eq by lia; by rewrite value_row | by rewrite list_lookup_insert_ne].
  - intros seg d offset n Hseg Hd k. destruct (value_append_law seg d offset n Hseg Hd) as (seg' & E & ? & ? & ? & ? & ? & ? & ? & Hnew & _). exists seg'. split_and!; try done.
    intros i x Hi Hv Hx. apply (Hnew i x Hi Hv). unfold stored_value in Hx. by rewrite Hv in Hx.
  - intros d n i [_ Hd] Hi. unfold stored_value. destruct (unified_valid d i) eqn:E; [by apply Hd | by eexists].
  - intros type ->. exact number_new.
  - intros seg start_row [L C V Y Fl] Hr. unfold ColumnSegment_RevertAppend. cbn [revert_append FixedSizeGetFunction mbind result_bind].
    eexists. split; [done|]. cbn [set_segment_data seg_block seg_count seg_size seg_start]. split_and!; try done.
    + split; cbn [set_segment_data seg_block seg_count seg_size seg_stats]; [done | lia | done.. ].
    + unfold value_rows. cbn [set_segment_data seg_block seg_count]. rewrite take_take. by rewrite Nat.min_l by lia.
Defined.
End Numbers.
