(* ===== verification/SegmentTree.v ===== *)
(** Segment trees ([src/include/duckdb/storage/table/segment_tree.hpp]): the
    ordered segments of a column or of a table, found by row number, loaded
    lazily for tables.  Loading on demand does not change what a tree holds, and
    the binary search finds the segment of a row.

    A segment is identified by its index in the tree; the pointer to the next
    segment is the following index.  [unloaded] holds the segments that are
    still in the file ([RowGroupSegmentTree::LoadSegment]). *)
From S2P Require Import Prelude Bits.

(** [SegmentBase]. *)
Class SegmentBase (S : Type) : Type := { base_start : S → nat; base_count : S → nat }.

Record SegmentNode (S : Type) : Type := mkSegmentNode { row_start : nat; node : S }.
Arguments mkSegmentNode {S} _ _.
Arguments row_start {S} _.
Arguments node {S} _.

Record SegmentTree (S : Type) : Type := mkTree {
  tree_nodes : list (SegmentNode S);
  finished_loading : bool;
  unloaded : list S
}.
Arguments mkTree {S} _ _ _.
Arguments tree_nodes {S} _.
Arguments finished_loading {S} _.
Arguments unloaded {S} _.

Section Tree.
Context {S : Type} `{SegmentBase S} (SUPPORTS_LAZY_LOADING : bool).

Definition AppendSegmentInternal (t : SegmentTree S) (s : S) : SegmentTree S :=
  mkTree (tree_nodes t ++ [mkSegmentNode (base_start s) s]) (finished_loading t) (unloaded t).

(** ** Loading *)

Definition LoadSegment (t : SegmentTree S) : SegmentTree S * option S :=
  match unloaded t with
  | [] => (mkTree (tree_nodes t) true [], None)
  | s :: rest => (mkTree (tree_nodes t) (finished_loading t) rest, Some s)
  end.

Definition LoadNextSegment (t : SegmentTree S) : SegmentTree S * bool :=
  if negb SUPPORTS_LAZY_LOADING || finished_loading t then (t, false)
  else match LoadSegment t with
       | (t, Some s) => (AppendSegmentInternal t s, true)
       | (t, None) => (t, false)
       end.

(** The loops that load segments as long as [more] asks for it: every
    iteration but the last loads one. *)
Fixpoint load_while (more : SegmentTree S → bool) (fuel : nat) (t : SegmentTree S) : result (SegmentTree S) :=
  if more t then
    match fuel with
    | O => Throw OutOfFuel
    | Datatypes.S fuel => let '(t, loaded) := LoadNextSegment t in if (loaded : bool) then load_while more fuel t else Ok t
    end
  else Ok t.

Definition load_segments (more : SegmentTree S → bool) (t : SegmentTree S) : result (SegmentTree S) :=
  load_while more (length (unloaded t) + 1) t.

Definition LoadAllSegments (t : SegmentTree S) : result (SegmentTree S) :=
  if negb SUPPORTS_LAZY_LOADING then Ok t else load_segments (λ _, true) t.

(** ** Segments by position *)

Definition GetRootSegment (t : SegmentTree S) : SegmentTree S * option nat :=
  let t := if bool_decide (tree_nodes t = []) then (LoadNextSegment t).1 else t in
  (t, match tree_nodes t with [] => None | _ => Some O end).

Definition IsEmpty (t : SegmentTree S) : SegmentTree S * bool :=
  let '(t, root) := GetRootSegment t in (t, bool_decide (root = None)).

Definition GetSegmentByIndex (t : SegmentTree S) (index : Z) : result (SegmentTree S * option nat) :=
  if index <? 0 then
    t ← LoadAllSegments t;
    let index := index + Z.of_nat (length (tree_nodes t)) in
    Ok (t, if index <? 0 then None else Some (Z.to_nat index))
  else
    t ← load_segments (λ t, (length (tree_nodes t) <=? Z.to_nat index)%nat) t;
    Ok (t, if (length (tree_nodes t) <=? Z.to_nat index)%nat then None else Some (Z.to_nat index)).

(** [segment->Next()]. *)
Definition Next (t : SegmentTree S) (segment : nat) : option nat :=
  if (segment + 1 <? length (tree_nodes t))%nat then Some (segment + 1)%nat else None.

Definition GetNextSegment (t : SegmentTree S) (segment : nat) : result (SegmentTree S * option nat) :=
  if negb SUPPORTS_LAZY_LOADING then Ok (t, Next t segment)
  else if finished_loading t then Ok (t, Next t segment)
  else GetSegmentByIndex t (Z.of_nat segment + 1).

Definition GetLastSegment (t : SegmentTree S) : result (SegmentTree S * option nat) :=
  t ← LoadAllSegments t;
  Ok (t, match tree_nodes t with [] => None | l => Some (length l - 1)%nat end).

Definition AppendSegment (t : SegmentTree S) (s : S) : result (SegmentTree S) :=
  t ← LoadAllSegments t; Ok (AppendSegmentInternal t s).

(** [nodes.size() - 1] is taken modulo 2^64. *)
Definition EraseSegments (t : SegmentTree S) (segment_start : nat) : result (SegmentTree S) :=
  t ← LoadAllSegments t;
  if wrapu 64 (Z.of_nat (length (tree_nodes t)) - 1) <=? Z.of_nat segment_start then Ok t
  else Ok (mkTree (take (segment_start + 1) (tree_nodes t)) (finished_loading t) (unloaded t)).

(** ** Segments by row *)

(** The binary search; positions are 64-bit numbers that wrap around. *)
Fixpoint search_segment (fuel : nat) (nodes : list (SegmentNode S)) (row_number : nat) (lower upper : Z) : result (option nat) :=
  if upper <? lower then Ok None
  else match fuel with
       | O => Throw OutOfFuel
       | Datatypes.S fuel =>
           let index := wrapu 64 (lower + upper) / 2 in
           entry ← (if index <? Z.of_nat (length nodes) then vget nodes (Z.to_nat index) else out_of_range);
           if (row_number <? row_start entry)%nat then search_segment fuel nodes row_number lower (wrapu 64 (index - 1))
           else if (row_start entry + base_count (node entry) <=? row_number)%nat
           then search_segment fuel nodes row_number (wrapu 64 (index + 1)) upper
           else Ok (Some (Z.to_nat index))
       end.

(** [nodes.empty() || row_number >= nodes.back().row_start + nodes.back().node->count]. *)
Definition beyond_nodes (row_number : nat) (t : SegmentTree S) : bool :=
  match last (tree_nodes t) with
  | None => true
  | Some n => (row_start n + base_count (node n) <=? row_number)%nat
  end.

Definition TryGetSegmentIndex (t : SegmentTree S) (row_number : nat) : result (SegmentTree S * option nat) :=
  t ← load_segments (beyond_nodes row_number) t;
  match tree_nodes t with
  | [] => Ok (t, None)
  | _ :: _ =>
      found ← search_segment (length (tree_nodes t) + 1) (tree_nodes t) row_number 0 (Z.of_nat (length (tree_nodes t)) - 1);
      Ok (t, found)
  end.

Definition GetSegmentIndex (t : SegmentTree S) (row_number : nat) : result (SegmentTree S * nat) :=
  '(t, found) ← TryGetSegmentIndex t row_number;
  match found with
  | Some index => Ok (t, index)
  | None => Throw (InternalException "Could not find node in column segment tree!")
  end.

(** [GetSegment]: the segment is returned by its index. *)
Definition GetSegment (t : SegmentTree S) (row_number : nat) : result (SegmentTree S * nat) := GetSegmentIndex t row_number.

(** [Reinitialize]: the nodes take over the starts of the segments. *)
Fixpoint reinitialize_nodes (offset : nat) (nodes : list (SegmentNode S)) : result (list (SegmentNode S)) :=
  match nodes with
  | [] => Ok []
  | n :: rest =>
      if negb (base_start (node n) =? offset)%nat then Throw (InternalException "In SegmentTree::Reinitialize - gap found between nodes!")
      else rest ← reinitialize_nodes (offset + base_count (node n)) rest; Ok (mkSegmentNode offset (node n) :: rest)
  end.

Definition Reinitialize (t : SegmentTree S) : result (SegmentTree S) :=
  match tree_nodes t with
  | [] => Ok t
  | n :: _ => nodes ← reinitialize_nodes (base_start (node n)) (tree_nodes t); Ok (mkTree nodes (finished_loading t) (unloaded t))
  end.
End Tree.

(** * Lists of adjacent segments *)

Section Lists.
Context {S : Type} `{SegmentBase S}.

(** Every segment starts where the one before it ends. *)
Fixpoint contiguous (start : nat) (l : list S) : Prop :=
  match l with
  | [] => True
  | s :: l => base_start s = start ∧ contiguous (start + base_count s) l
  end.

Definition rows_of (l : list S) : nat := sum_list_with base_count l.

Definition holds_row (row : nat) (s : S) : Prop := (base_start s ≤ row < base_start s + base_count s)%nat.

Lemma contiguous_app start l1 l2 : contiguous start (l1 ++ l2) ↔ contiguous start l1 ∧ contiguous (start + rows_of l1) l2.
Proof.
  revert start; induction l1 as [|s l1 IH]; intros start; cbn; [rewrite Nat.add_0_r; tauto|].
  rewrite IH. unfold rows_of. cbn. rewrite Nat.add_assoc. tauto.
Qed.

Lemma contiguous_start start l i s : contiguous start l → l !! i = Some s → base_start s = (start + rows_of (take i l))%nat.
Proof.
  revert start i; induction l as [|a l IH]; intros start [|i] Hc Hl; cbn in *; try done.
  - injection Hl as ->. destruct Hc as [-> _]. lia.
  - destruct Hc as [_ Hc]. rewrite (IH _ _ Hc Hl). unfold rows_of. cbn. lia.
Qed.

Lemma contiguous_order start l i j s t :
  contiguous start l → l !! i = Some s → l !! j = Some t → (i < j)%nat → (base_start s + base_count s ≤ base_start t)%nat.
Proof.
  revert start i j; induction l as [|a l IH]; intros start [|i] [|j] Hc Hi Hj Hij; cbn in *; try done; try lia.
  - injection Hi as ->. destruct Hc as [-> Hc]. rewrite (contiguous_start _ _ _ _ Hc Hj). lia.
  - destruct Hc as [_ Hc]. eapply (IH _ i j Hc); [done | done | lia].
Qed.

Lemma contiguous_find start l row : contiguous start l → (start ≤ row < start + rows_of l)%nat → ∃ i s, l !! i = Some s ∧ holds_row row s.
Proof.
  revert start; induction l as [|a l IH]; intros start Hc Hr; unfold rows_of in *; cbn in *; [lia|]. destruct Hc as [Ha Hc].
  destruct (decide (row < start + base_count a)%nat) as [Hlt|Hge].
  - exists O, a. split; [done|]. split; lia.
  - destruct (IH _ Hc) as (i & s & Hi & Hs); [lia|]. by exists (Datatypes.S i), s.
Qed.

Lemma contiguous_unique start l row i j s t :
  contiguous start l → l !! i = Some s → l !! j = Some t → holds_row row s → holds_row row t → i = j.
Proof.
  intros Hc Hi Hj [H1 H2] [H3 H4]. destruct (Nat.lt_trichotomy i j) as [Hlt|[->|Hlt]]; [|done|].
  - pose proof (contiguous_order _ _ _ _ _ _ Hc Hi Hj Hlt). lia.
  - pose proof (contiguous_order _ _ _ _ _ _ Hc Hj Hi Hlt). lia.
Qed.

(** Rows after the last segment are in none. *)
Lemma contiguous_end start l i s : contiguous start l → l !! i = Some s → (base_start s + base_count s ≤ start + rows_of l)%nat.
Proof.
  intros Hc Hi. rewrite (contiguous_start _ _ _ _ Hc Hi). pose proof (take_drop_middle l i s Hi) as E.
  rewrite <- E at 2. unfold rows_of. rewrite sum_list_with_app. cbn. lia.
Qed.
End Lists.

(** * Trees *)

Section Facts.
Context {S : Type} `{SegmentBase S} (lazy : bool).

(** The segments of a tree, loaded or not. *)
Definition tree_segments (t : SegmentTree S) : list S := (node <$> tree_nodes t) ++ unloaded t.

Record tree_ok (start : nat) (t : SegmentTree S) : Prop := {
  to_starts : Forall (λ n, row_start n = base_start (node n)) (tree_nodes t);
  to_chain : contiguous start (tree_segments t);
  to_loaded : lazy = false ∨ finished_loading t = true → unloaded t = [];
  to_size : Z.of_nat (length (tree_segments t)) < 2 ^ 63;
}.

Lemma AppendSegmentInternal_segments (t : SegmentTree S) s :
  unloaded t = [] → tree_segments (AppendSegmentInternal t s) = tree_segments t ++ [s].
Proof. intros E. unfold tree_segments, AppendSegmentInternal. cbn. by rewrite E, !app_nil_r, fmap_app. Qed.

Lemma LoadNextSegment_ok start t : tree_ok start t →
  ∃ t' b, LoadNextSegment lazy t = (t', b) ∧ tree_ok start t' ∧ tree_segments t' = tree_segments t ∧
    if b then length (unloaded t) = Datatypes.S (length (unloaded t')) else unloaded t' = [].
Proof.
  intros [Hs Hc Hl Hz]. unfold LoadNextSegment, LoadSegment. destruct (negb lazy || finished_loading t) eqn:E.
  { exists t, false. split_and!; [done | done | done|]. apply Hl. destruct lazy, (finished_loading t); auto. }
  destruct (unloaded t) as [|s rest] eqn:Eu.
  - exists (mkTree (tree_nodes t) true []), false. unfold tree_segments in *. cbn [tree_nodes unloaded] in *. rewrite Eu in *.
    split_and!; [done | by split | done | done].
  - eexists _, true. split; [done|]. unfold tree_segments in *. cbn [tree_nodes unloaded AppendSegmentInternal] in *. rewrite Eu in *.
    rewrite fmap_app, <- app_assoc. split_and!; [split | done | done]; unfold tree_segments; cbn [tree_nodes unloaded finished_loading AppendSegmentInternal].
    + apply Forall_app. split; [done|]. by constructor.
    + by rewrite fmap_app, <- app_assoc.
    + intros Hd. destruct Hd as [->|Hd]; [done|]. rewrite Hd in E. by rewrite orb_true_r in E.
    + by rewrite fmap_app, <- app_assoc.
Qed.

(** The loading loops return; they stop when enough or everything is loaded. *)
Lemma load_segments_ok more start t : tree_ok start t →
  ∃ t', load_segments lazy more t = Ok t' ∧ tree_ok start t' ∧ tree_segments t' = tree_segments t ∧ (more t' = false ∨ unloaded t' = []).
Proof.
  unfold load_segments. remember (length (unloaded t) + 1)%nat as fuel eqn:Hf. assert (length (unloaded t) < fuel)%nat as Hlt by lia. clear Hf.
  revert t Hlt. induction fuel as [|fuel IH]; intros t Hlt Ht; [lia|]. cbn [load_while]. destruct (more t) eqn:Em; [|by exists t; auto].
  destruct (LoadNextSegment_ok start t Ht) as (t1 & b & -> & Ht1 & Hs1 & Hb). destruct b.
  - destruct (IH t1) as (t' & ? & ? & Hs' & ?); [lia | done|]. exists t'. by rewrite Hs', Hs1.
  - exists t1. auto.
Qed.

(** Loading only adds nodes. *)
Lemma load_segments_grows more t t' : load_segments lazy more t = Ok t' → (length (tree_nodes t) ≤ length (tree_nodes t'))%nat.
Proof.
  unfold load_segments. generalize (length (unloaded t) + 1)%nat. intros fuel. revert t.
  induction fuel as [|fuel IH]; intros t; cbn [load_while]; destruct (more t); try (by intros [= <-]).
  unfold LoadNextSegment, LoadSegment. destruct (negb lazy || finished_loading t); [by intros [= <-]|].
  destruct (unloaded t) as [|s rest]; [by intros [= <-]|]. intros E%IH. cbn in E. rewrite length_app in E. cbn in E. lia.
Qed.

Lemma LoadAllSegments_ok start t : tree_ok start t →
  ∃ t', LoadAllSegments lazy t = Ok t' ∧ tree_ok start t' ∧ node <$> tree_nodes t' = tree_segments t ∧ unloaded t' = [].
Proof.
  intros Ht. unfold LoadAllSegments. destruct (negb lazy) eqn:E.
  - exists t. assert (unloaded t = []) as Eu by (apply Ht; destruct lazy; auto). split_and!; [done | done | | done].
    unfold tree_segments. by rewrite Eu, app_nil_r.
  - destruct (load_segments_ok (λ _, true) start t Ht) as (t' & ? & ? & Hs & [?|Eu]); [done|]. exists t'. split_and!; [done | done | | done].
    rewrite <- Hs. unfold tree_segments. by rewrite Eu, app_nil_r.
Qed.

(** ** Walking from segment to segment *)

Lemma GetNextSegment_ok start t i : tree_ok start t → (i < length (tree_nodes t))%nat →
  ∃ t' next, GetNextSegment lazy t i = Ok (t', next) ∧ tree_ok start t' ∧ tree_segments t' = tree_segments t ∧
    (length (tree_nodes t) ≤ length (tree_nodes t'))%nat ∧
    match next with
    | Some j => j = (i + 1)%nat ∧ (j < length (tree_nodes t'))%nat
    | None => length (tree_segments t) = (i + 1)%nat
    end.
Proof.
  intros Ht Hi. unfold GetNextSegment. destruct (negb lazy || finished_loading t) eqn:E.
  - exists t, (Next t i). assert (unloaded t = []) as Eu by (apply Ht; destruct lazy, (finished_loading t); auto).
    split_and!; [destruct lazy, (finished_loading t); done | done | done | done|]. unfold Next.
    destruct (Nat.ltb_spec (i + 1) (length (tree_nodes t))); [done|]. unfold tree_segments. rewrite Eu, app_nil_r, length_fmap. lia.
  - apply orb_false_iff in E as [-> ->]. unfold GetSegmentByIndex. rewrite (proj2 (Z.ltb_ge _ _)) by lia.
    replace (Z.to_nat (Z.of_nat i + 1)) with (i + 1)%nat by lia.
    destruct (load_segments_ok (λ t, (length (tree_nodes t) <=? i + 1)%nat) start t Ht) as (t' & El & Ht' & Hs & Hmore).
    pose proof (load_segments_grows _ _ _ El) as Hg. rewrite El. cbn [mbind result_bind]. eexists _, _. split; [done|]. split_and!; [done | done | done|].
    destruct (Nat.leb_spec (length (tree_nodes t')) (i + 1)) as [Hle|Hgt]; [|done].
    destruct Hmore as [Hm|Eu]; [done|]. rewrite <- Hs. unfold tree_segments. rewrite Eu, app_nil_r, length_fmap. lia.
Qed.

Lemma GetRootSegment_ok start t : tree_ok start t →
  ∃ t' root, GetRootSegment lazy t = (t', root) ∧ tree_ok start t' ∧ tree_segments t' = tree_segments t ∧
    match root with Some i => i = O ∧ (0 < length (tree_nodes t'))%nat | None => tree_segments t = [] end.
Proof.
  intros Ht. unfold GetRootSegment. case_bool_decide as En.
  - destruct (LoadNextSegment_ok start t Ht) as (t' & b & -> & Ht' & Hs & Hb). cbn [fst]. eexists _, _. split; [done|]. split_and!; [done | done|].
    destruct (tree_nodes t') as [|n l] eqn:E; [|split; [done | cbn; lia]]. rewrite <- Hs. unfold tree_segments in Hs |- *. rewrite E. rewrite E, En in Hs.
    destruct b; [|done]. cbn in Hs. rewrite Hs in Hb. lia.
  - eexists _, _. split; [done|]. split_and!; [done | done|]. destruct (tree_nodes t); [done | split; [done | cbn; lia]].
Qed.

(** ** The binary search *)

Section Search.
Context (start : nat) (nodes : list (SegmentNode S)) (row : nat).
Hypothesis Hstarts : Forall (λ n, row_start n = base_start (node n)) nodes.
Hypothesis Hchain : contiguous start (node <$> nodes).
Hypothesis Hsize : Z.of_nat (length nodes) < 2 ^ 63.

Lemma node_start i n : nodes !! i = Some n → row_start n = base_start (node n).
Proof. intros Hi. by apply (proj1 (Forall_lookup _ _) Hstarts i). Qed.

Lemma search_index lower upper : 0 ≤ lower ≤ upper → upper < Z.of_nat (length nodes) →
  ∃ n, lower ≤ wrapu 64 (lower + upper) / 2 ≤ upper ∧
    (if wrapu 64 (lower + upper) / 2 <? Z.of_nat (length nodes) then vget nodes (Z.to_nat (wrapu 64 (lower + upper) / 2)) else out_of_range) = Ok n ∧
    nodes !! Z.to_nat (wrapu 64 (lower + upper) / 2) = Some n.
Proof.
  intros Hl Hu. rewrite wrapu_small by lia. pose proof (Z.div_le_upper_bound (lower + upper) 2 upper ltac:(lia)).
  pose proof (Z.div_le_lower_bound (lower + upper) 2 lower ltac:(lia)). set (m := (lower + upper) / 2) in *.
  destruct (lookup_lt_is_Some_2 nodes (Z.to_nat m)) as [n Hn]; [lia|]. exists n. rewrite (proj2 (Z.ltb_lt _ _)) by lia.
  split_and!; [lia | lia | by apply vget_lookup | done].
Qed.

Lemma search_found fuel i n lower upper :
  nodes !! i = Some n → holds_row row (node n) → 0 ≤ lower ≤ Z.of_nat i → Z.of_nat i ≤ upper < Z.of_nat (length nodes) →
  upper - lower < Z.of_nat fuel → search_segment fuel nodes row lower upper = Ok (Some i).
Proof.
  intros Hi Hr. revert lower upper. induction fuel as [|fuel IH]; intros lower upper Hl Hu Hf; [lia|]. cbn [search_segment].
  rewrite (proj2 (Z.ltb_ge upper lower)) by lia. destruct (search_index lower upper) as (m & Hm & -> & Hn); [lia | lia|]. cbn [mbind result_bind].
  set (k := wrapu 64 (lower + upper) / 2) in *. rewrite (node_start _ _ Hn).
  assert (Hord : ∀ a b x y, nodes !! a = Some x → nodes !! b = Some y → (a < b)%nat → (base_start (node x) + base_count (node x) ≤ base_start (node y))%nat).
  { intros a b x y Ha Hb. apply (contiguous_order start (node <$> nodes)); [done | by rewrite list_lookup_fmap, Ha | by rewrite list_lookup_fmap, Hb]. }
  destruct Hr as [R1 R2]. destruct (Nat.ltb_spec row (base_start (node m))) as [H1|H1].
  - assert (i < Z.to_nat k)%nat as Hik.
    { destruct (Nat.lt_trichotomy i (Z.to_nat k)) as [?|[E|Hlt]]; [done | |].
      - subst i. rewrite Hi in Hn. injection Hn as ->. lia.
      - specialize (Hord _ _ _ _ Hn Hi Hlt). lia. }
    rewrite wrapu_small by lia. apply IH; lia.
  - destruct (Nat.leb_spec (base_start (node m) + base_count (node m)) row) as [H2|H2].
    + assert (Z.to_nat k < i)%nat as Hik.
      { destruct (Nat.lt_trichotomy i (Z.to_nat k)) as [Hlt|[E|?]]; [| |done].
        - specialize (Hord _ _ _ _ Hi Hn Hlt). lia.
        - subst i. rewrite Hi in Hn. injection Hn as ->. lia. }
      rewrite wrapu_small by lia. apply IH; lia.
    + do 2 f_equal. eapply (contiguous_unique start (node <$> nodes) row); [done | by rewrite list_lookup_fmap, Hn | by rewrite list_lookup_fmap, Hi | by split | by split].
Qed.

Lemma search_beyond fuel lower upper :
  (start + rows_of (node <$> nodes) ≤ row)%nat → 0 ≤ lower ≤ upper + 1 → upper < Z.of_nat (length nodes) → upper - lower < Z.of_nat fuel →
  search_segment fuel nodes row lower upper = Ok None.
Proof.
  intros Hr. revert lower. induction fuel as [|fuel IH]; intros lower Hl Hu Hf; cbn [search_segment];
    destruct (Z.ltb_spec upper lower) as [Hlt|Hge]; [done | lia | done|].
  destruct (search_index lower upper) as (m & Hm & -> & Hn); [lia | lia|]. cbn [mbind result_bind]. rewrite (node_start _ _ Hn).
  pose proof (contiguous_end start (node <$> nodes) _ (node m) Hchain ltac:(by rewrite list_lookup_fmap, Hn)) as Hend.
  rewrite (proj2 (Nat.ltb_ge _ _)), (proj2 (Nat.leb_le _ _)) by lia. rewrite wrapu_small by lia. apply IH; lia.
Qed.
End Search.

(** The search over all nodes. *)
Lemma search_nodes start nodes row :
  Forall (λ n, row_start n = base_start (node n)) nodes → contiguous start (node <$> nodes) → Z.of_nat (length nodes) < 2 ^ 63 →
  nodes ≠ [] → (start ≤ row)%nat →
  ∃ found, search_segment (length nodes + 1) nodes row 0 (Z.of_nat (length nodes) - 1) = Ok found ∧
    match found with
    | Some i => ∃ n, nodes !! i = Some n ∧ holds_row row (node n)
    | None => (start + rows_of (node <$> nodes) ≤ row)%nat
    end.
Proof.
  intros Hst Hc Hz Hne Hrow. assert (0 < length nodes)%nat by (destruct nodes; [done | cbn; lia]).
  destruct (decide (row < start + rows_of (node <$> nodes))%nat) as [Hlt|Hge].
  - destruct (contiguous_find start _ row Hc) as (i & s & Hi & Hr); [lia|]. rewrite list_lookup_fmap in Hi.
    destruct (nodes !! i) as [n|] eqn:En; [|done]. injection Hi as <-. pose proof (lookup_lt_Some _ _ _ En). exists (Some i).
    split; [|by exists n]. apply (search_found start nodes row Hst Hc ltac:(lia) _ i n); [done | done | lia | lia | lia].
  - exists None. split; [|lia]. apply (search_beyond start nodes row Hst Hc); lia.
Qed.

(** The lookup loads what it needs and finds the segment of the row. *)
Lemma TryGetSegmentIndex_ok start t row : tree_ok start t → (start ≤ row)%nat →
  ∃ t' found, TryGetSegmentIndex lazy t row = Ok (t', found) ∧ tree_ok start t' ∧ tree_segments t' = tree_segments t ∧
    match found with
    | Some i => ∃ n, tree_nodes t' !! i = Some n ∧ tree_segments t !! i = Some (node n) ∧ holds_row row (node n)
    | None => (start + rows_of (tree_segments t) ≤ row)%nat
    end.
Proof.
  intros Ht Hrow. unfold TryGetSegmentIndex.
  destruct (load_segments_ok (beyond_nodes row) start t Ht) as (t' & -> & Ht' & Hs & Hmore). cbn [mbind result_bind].
  pose proof Ht' as [Hst Hc _ Hz]. unfold tree_segments in Hc, Hz. rewrite contiguous_app in Hc. destruct Hc as [Hc _].
  rewrite length_app, length_fmap in Hz.
  assert (Hall : beyond_nodes row t' = true → unloaded t' = []) by (by destruct Hmore as [->|?]).
  destruct (decide (tree_nodes t' = [])) as [En|Hne].
  - exists t', None. rewrite En. split_and!; [done | done | done|]. rewrite <- Hs. unfold tree_segments. rewrite En, Hall; [cbn; lia|].
    unfold beyond_nodes. by rewrite En.
  - destruct (search_nodes start (tree_nodes t') row Hst Hc ltac:(lia) Hne Hrow) as (found & Hf & Hfound). exists t', found.
    split_and!; [destruct (tree_nodes t'); [done | by rewrite Hf] | done | done|]. rewrite <- Hs. unfold tree_segments. destruct found as [i|].
    + destruct Hfound as (n & Hn & Hr). exists n. split_and!; [done | | done]. apply lookup_app_l_Some. by rewrite list_lookup_fmap, Hn.
    + rewrite Hall; [by rewrite app_nil_r|]. unfold beyond_nodes. destruct (last (tree_nodes t')) as [n|] eqn:El; [|done].
      apply Nat.leb_le. rewrite last_lookup in El. rewrite (proj1 (Forall_lookup _ _) Hst _ _ El).
      pose proof (contiguous_end start (node <$> tree_nodes t') _ (node n) Hc ltac:(by rewrite list_lookup_fmap, El)). lia.
Qed.

Lemma GetSegmentIndex_ok start t row : tree_ok start t → (start ≤ row < start + rows_of (tree_segments t))%nat →
  ∃ t' i n, GetSegmentIndex lazy t row = Ok (t', i) ∧ tree_ok start t' ∧ tree_segments t' = tree_segments t ∧
    tree_nodes t' !! i = Some n ∧ tree_segments t !! i = Some (node n) ∧ holds_row row (node n).
Proof.
  intros Ht Hrow. unfold GetSegmentIndex. destruct (TryGetSegmentIndex_ok start t row Ht) as (t' & found & -> & Ht' & Hs & Hf); [lia|].
  cbn [mbind result_bind]. destruct found as [i|]; [|lia]. destruct Hf as (n & ? & ? & ?). by exists t', i, n.
Qed.
End Facts.
