(* ===== verification/ColumnData.v ===== *)
(** Columns ([src/storage/table/column_data.cpp], [scan_state.cpp]): the scan
    of a column across its segments with the updates merged in, row fetches,
    appends and the reverting of appends.

    The code is generic in the compression functions of the segments and in
    the functions of the update segment; result vectors are flat.  Columns do
    not load segments lazily. *)
From S2P Require Import Prelude Bits SelectionVector Types Stats NumericStats BaseStatistics ValidityMask ChunkInfo RowVersionManager.
From S2P Require Import TableFilter UpdateSegment UncompressedSegment SegmentTree.

#[export] Instance column_segment_base {A} : SegmentBase (ColumnSegment A) := { base_start := seg_start; base_count := seg_count }.

Record ColumnData (A T : Type) : Type := mkColumn {
  cd_type : LogicalType;
  cd_start : nat;
  cd_count : nat;
  cd_data : SegmentTree (ColumnSegment A);
  cd_stats : option BaseStatistics;
  cd_updates : option (UpdateSegment T);
  allocation_size : nat
}.
Arguments mkColumn {A T} _ _ _ _ _ _ _.
Arguments cd_type {A T} _.
Arguments cd_start {A T} _.
Arguments cd_count {A T} _.
Arguments cd_data {A T} _.
Arguments cd_stats {A T} _.
Arguments cd_updates {A T} _.
Arguments allocation_size {A T} _.

(** [ColumnScanState]: the current segment by its index; [force_fetch_row] is
    the option of the scan. *)
Record ColumnScanState : Type := mkColumnScan {
  current : option nat;
  row_index : nat;
  internal_index : nat;
  initialized : bool;
  segment_checked : bool;
  force_fetch_row : bool
}.

Definition null_segment {A} : result A := Throw (UndefinedBehaviour "access through a null segment").

Section Column.
Context {A T : Type} (F : CompressionFunction A T) (U : UpdateFunctions T).

Definition set_data (c : ColumnData A T) (count : nat) (data : SegmentTree (ColumnSegment A)) : ColumnData A T :=
  mkColumn (cd_type c) (cd_start c) count data (cd_stats c) (cd_updates c) (allocation_size c).
Definition set_updates (c : ColumnData A T) (us : option (UpdateSegment T)) : ColumnData A T :=
  mkColumn (cd_type c) (cd_start c) (cd_count c) (cd_data c) (cd_stats c) us (allocation_size c).

(** The segment behind an index. *)
Definition segment_at (c : ColumnData A T) (i : nat) : result (ColumnSegment A) := n ← vget (tree_nodes (cd_data c)) i; Ok (node n).
Definition current_segment (c : ColumnData A T) (st : ColumnScanState) : result (ColumnSegment A) :=
  match current st with Some i => segment_at c i | None => null_segment end.
Definition put_segment (c : ColumnData A T) (i : nat) (seg : ColumnSegment A) : result (SegmentTree (ColumnSegment A)) :=
  n ← vget (tree_nodes (cd_data c)) i;
  Ok (mkTree (<[i := mkSegmentNode (row_start n) seg]> (tree_nodes (cd_data c))) (finished_loading (cd_data c)) (unloaded (cd_data c))).

Definition ColumnData_HasUpdates (c : ColumnData A T) : bool := bool_decide (is_Some (cd_updates c)).
Definition ClearUpdates (c : ColumnData A T) : ColumnData A T := set_updates c None.
Definition GetMaxEntry (c : ColumnData A T) : nat := cd_count c.

(** * Scans *)

Definition InitializeScan (c : ColumnData A T) (st : ColumnScanState) : result ColumnScanState :=
  let root := (GetRootSegment false (cd_data c)).2 in
  start ← match root with Some i => seg ← segment_at c i; Ok (seg_start seg) | None => Ok O end;
  Ok (mkColumnScan root start start false (segment_checked st) (force_fetch_row st)).

Definition InitializeScanWithOffset (c : ColumnData A T) (st : ColumnScanState) (row_idx : nat) : result ColumnScanState :=
  '(_, i) ← GetSegment false (cd_data c) row_idx;
  seg ← segment_at c i;
  Ok (mkColumnScan (Some i) row_idx (seg_start seg) false (segment_checked st) (force_fetch_row st)).

Definition GetVectorScanType (c : ColumnData A T) (st : ColumnScanState) (scan_count : nat) : result ScanVectorType :=
  if ColumnData_HasUpdates c then Ok SCAN_FLAT_VECTOR
  else
    seg ← current_segment c st;
    let remaining_in_segment := (seg_start seg + seg_count seg - row_index st)%nat in
    Ok (if (remaining_in_segment <? scan_count)%nat then SCAN_FLAT_VECTOR else SCAN_ENTIRE_VECTOR).

Definition set_row_index (st : ColumnScanState) (row : nat) : ColumnScanState :=
  mkColumnScan (current st) row (internal_index st) (initialized st) (segment_checked st) (force_fetch_row st).
Definition set_internal_index (st : ColumnScanState) (row : nat) : ColumnScanState :=
  mkColumnScan (current st) (row_index st) row (initialized st) (segment_checked st) (force_fetch_row st).
(** Moving on to another segment within a scan. *)
Definition enter_segment (st : ColumnScanState) (i : nat) : ColumnScanState :=
  mkColumnScan (Some i) (row_index st) (internal_index st) (initialized st) false (force_fetch_row st).

(** The rows one iteration takes from a segment. *)
Definition scan_rows (seg : ColumnSegment A) (st : ColumnScanState) (scan_count : nat) (res : FlatVector T) (result_offset : nat)
    (scan_type : ScanVectorType) : result (FlatVector T) :=
  if force_fetch_row st
  then foldM (λ res i, ColumnSegment_FetchRow F seg (row_index st + i) res (result_offset + i)) res (seq 0 scan_count)
  else ColumnSegment_Scan F seg (row_index st) scan_count res result_offset scan_type.

(** The loop of [ScanVector]: at most one iteration per segment.  Returns the
    number of rows that remain. *)
Fixpoint scan_segments (fuel : nat) (c : ColumnData A T) (st : ColumnScanState) (res : FlatVector T) (initial_remaining remaining : nat)
    (scan_type : ScanVectorType) : result (ColumnScanState * FlatVector T * nat) :=
  if (remaining =? 0)%nat then Ok (st, res, O)
  else match fuel with
       | O => Throw OutOfFuel
       | S fuel =>
           seg ← current_segment c st;
           let scan_count := min_difference remaining (seg_start seg + seg_count seg) (row_index st) in
           let result_offset := (initial_remaining - remaining)%nat in
           res ← (if (0 <? scan_count)%nat then scan_rows seg st scan_count res result_offset scan_type else Ok res);
           let st := set_row_index st (row_index st + scan_count) in
           let remaining := (remaining - scan_count)%nat in
           if (0 <? remaining)%nat then
             match current st with
             | None => null_segment
             | Some i =>
                 match Next (cd_data c) i with
                 | None => Ok (st, res, remaining)
                 | Some next => scan_segments fuel c (enter_segment st next) res initial_remaining remaining scan_type
                 end
             end
           else Ok (st, res, O)
       end.

(** [ScanVector]: the state, the vector and the number of rows scanned. *)
Definition ScanVector (c : ColumnData A T) (st : ColumnScanState) (res : FlatVector T) (remaining : nat) (scan_type : ScanVectorType)
    : result (ColumnScanState * FlatVector T * nat) :=
  seg ← current_segment c st;
  let st := if initialized st then st
            else mkColumnScan (current st) (row_index st) (seg_start seg) true (segment_checked st) (force_fetch_row st) in
  let st := if (internal_index st <? row_index st)%nat then set_internal_index st (row_index st) else st in
  '(st, res, left_) ← scan_segments (length (tree_nodes (cd_data c)) + 1) c st res remaining remaining scan_type;
  Ok (set_internal_index st (row_index st), res, (remaining - left_)%nat).

Definition GetUpdateStatistics (c : ColumnData A T) : option BaseStatistics := us_stats <$> cd_updates c.

Definition FetchUpdates (c : ColumnData A T) (t : TransactionData) (vector_index : nat) (res : FlatVector T)
    (allow_updates scan_committed : bool) : result (FlatVector T) :=
  match cd_updates c with
  | None => Ok res
  | Some us =>
      uncommitted ← (if allow_updates then Ok false else HasUncommittedUpdates us vector_index);
      if (uncommitted : bool) then Throw (TransactionException "Cannot create index with outstanding updates")
      else if scan_committed then UpdateSegment_FetchCommitted U us vector_index res
      else UpdateSegment_FetchUpdates U us t vector_index res
  end.

Definition FetchUpdateRow (c : ColumnData A T) (t : TransactionData) (row_id : nat) (res : FlatVector T) (result_idx : nat)
    : result (FlatVector T) :=
  match cd_updates c with
  | None => Ok res
  | Some us => UpdateSegment_FetchRow U us t (Z.of_nat row_id) res result_idx
  end.

(** [ScanVector<SCAN_COMMITTED, ALLOW_UPDATES>]; [scan_type] is the result of
    the virtual [GetVectorScanType]. *)
Definition ScanVectorUpdates (SCAN_COMMITTED ALLOW_UPDATES : bool) (c : ColumnData A T) (t : TransactionData) (vector_index : nat)
    (st : ColumnScanState) (res : FlatVector T) (target_scan : nat) (scan_type : ScanVectorType)
    : result (ColumnScanState * FlatVector T * nat) :=
  '(st, res, scan_count) ← ScanVector c st res target_scan scan_type;
  res ← FetchUpdates c t vector_index res ALLOW_UPDATES SCAN_COMMITTED;
  Ok (st, res, scan_count).

Definition ColumnData_Scan (c : ColumnData A T) (t : TransactionData) (vector_index : nat) (st : ColumnScanState) (res : FlatVector T)
    (scan_count : nat) (scan_type : ScanVectorType) : result (ColumnScanState * FlatVector T * nat) :=
  ScanVectorUpdates false true c t vector_index st res scan_count scan_type.

Definition ColumnData_ScanCommitted (c : ColumnData A T) (vector_index : nat) (st : ColumnScanState) (res : FlatVector T)
    (allow_updates : bool) (scan_count : nat) (scan_type : ScanVectorType) : result (ColumnScanState * FlatVector T * nat) :=
  if allow_updates then ScanVectorUpdates true true c (mkTransaction 0 0) vector_index st res scan_count scan_type
  else ScanVectorUpdates true false c (mkTransaction 0 0) vector_index st res scan_count scan_type.

Definition GetVectorCount (c : ColumnData A T) (vector_index : nat) : nat :=
  min_difference STANDARD_VECTOR_SIZE (cd_count c) (vector_index * STANDARD_VECTOR_SIZE).

Definition fresh_scan : ColumnScanState := mkColumnScan None 0 0 false false false.

Definition ScanCommittedRange (c : ColumnData A T) (row_group_start offset_in_row_group s_count : nat) (res : FlatVector T)
    : result (FlatVector T) :=
  st ← InitializeScanWithOffset c fresh_scan (row_group_start + offset_in_row_group);
  '(_, res, _) ← ScanVector c st res s_count SCAN_FLAT_VECTOR;
  match cd_updates c with
  | None => Ok res
  | Some us => UpdateSegment_FetchCommittedRange U us offset_in_row_group s_count res
  end.

Definition ScanCount (c : ColumnData A T) (st : ColumnScanState) (res : FlatVector T) (scan_count : nat)
    : result (ColumnScanState * FlatVector T * nat) :=
  if (scan_count =? 0)%nat then Ok (st, res, O) else ScanVector c st res scan_count SCAN_FLAT_VECTOR.

(** [ColumnScanState::NextInternal]. *)
Fixpoint next_segments (fuel : nat) (c : ColumnData A T) (st : ColumnScanState) : result ColumnScanState :=
  match current st with
  | None => Ok st
  | Some i =>
      seg ← segment_at c i;
      if (seg_start seg + seg_count seg <=? row_index st)%nat then
        match fuel with
        | O => Throw OutOfFuel
        | S fuel => next_segments fuel c (mkColumnScan (Next (cd_data c) i) (row_index st) (internal_index st) false false (force_fetch_row st))
        end
      else Ok st
  end.

Definition NextInternal (c : ColumnData A T) (st : ColumnScanState) (count : nat) : result ColumnScanState :=
  match current st with
  | None => Ok st
  | Some _ => next_segments (length (tree_nodes (cd_data c))) c (set_row_index st (row_index st + count))
  end.

(** * Row fetches *)

Definition Fetch (c : ColumnData A T) (st : ColumnScanState) (row_id : nat) (res : FlatVector T)
    : result (ColumnScanState * FlatVector T * nat) :=
  let row := (cd_start c + (row_id - cd_start c) / STANDARD_VECTOR_SIZE * STANDARD_VECTOR_SIZE)%nat in
  '(_, i) ← GetSegment false (cd_data c) row;
  seg ← segment_at c i;
  ScanVector c (mkColumnScan (Some i) row (seg_start seg) (initialized st) (segment_checked st) (force_fetch_row st)) res
    STANDARD_VECTOR_SIZE SCAN_FLAT_VECTOR.

Definition ColumnData_FetchRow (c : ColumnData A T) (t : TransactionData) (row_id : nat) (res : FlatVector T) (result_idx : nat)
    : result (FlatVector T) :=
  '(_, i) ← GetSegment false (cd_data c) row_id;
  seg ← segment_at c i;
  res ← ColumnSegment_FetchRow F seg row_id res result_idx;
  FetchUpdateRow c t row_id res result_idx.

(** * Appends *)

Definition AppendTransientSegment (c : ColumnData A T) (start_row : nat) : result (ColumnData A T) :=
  type_size ← GetTypeIdSize (InternalType (cd_type c));
  let vector_segment_size := if Z.of_nat start_row =? 36028797018960000 then (STANDARD_VECTOR_SIZE * type_size)%nat else BLOCK_SIZE in
  let segment_size := if (BLOCK_SIZE <? vector_segment_size)%nat then BLOCK_SIZE else vector_segment_size in
  seg ← CreateTransientSegment F (cd_type c) start_row segment_size;
  data ← AppendSegment false (cd_data c) seg;
  Ok (mkColumn (cd_type c) (cd_start c) (cd_count c) data (cd_stats c) (cd_updates c) (allocation_size c + segment_size)).

Definition last_segment (c : ColumnData A T) : result nat :=
  '(_, last) ← GetLastSegment false (cd_data c); match last with Some i => Ok i | None => null_segment end.

(** [InitializeAppend]: the column and the index of [state.current]. *)
Definition InitializeAppend (c : ColumnData A T) : result (ColumnData A T * nat) :=
  c ← (if (IsEmpty false (cd_data c)).2 then AppendTransientSegment c (cd_start c) else Ok c);
  i ← last_segment c;
  seg ← segment_at c i;
  match segment_type seg with
  | PERSISTENT =>
      c ← AppendTransientSegment c (seg_start seg + seg_count seg);
      i ← last_segment c;
      Ok (c, i)
  | TRANSIENT => Ok (c, i)
  end.

(** The loop of [AppendData]: every segment after the first takes a row. *)
Fixpoint append_segments (fuel : nat) (c : ColumnData A T) (append_stats : BaseStatistics) (i : nat) (vdata : UnifiedVectorFormat Z)
    (offset append_count : nat) : result (ColumnData A T * BaseStatistics * nat) :=
  match fuel with
  | O => Throw OutOfFuel
  | S fuel =>
      seg ← segment_at c i;
      '(seg, copied_elements) ← ColumnSegment_Append F seg vdata offset append_count;
      data ← put_segment c i seg;
      let c := set_data c (cd_count c) data in
      append_stats ← Merge append_stats (seg_stats seg);
      if (copied_elements =? append_count)%nat then Ok (c, append_stats, i)
      else
        c ← AppendTransientSegment c (seg_start seg + seg_count seg);
        i ← last_segment c;
        append_segments fuel c append_stats i vdata (offset + copied_elements) (append_count - copied_elements)
  end.

Definition AppendData (c : ColumnData A T) (append_stats : BaseStatistics) (i : nat) (vdata : UnifiedVectorFormat Z) (append_count : nat)
    : result (ColumnData A T * BaseStatistics * nat) :=
  append_segments (append_count + 2) (set_data c (cd_count c + append_count) (cd_data c)) append_stats i vdata 0 append_count.

Definition RevertAppend (c : ColumnData A T) (start_row : nat) : result (ColumnData A T) :=
  last ← last_segment c;
  last_seg ← segment_at c last;
  if (seg_start last_seg + seg_count last_seg <=? start_row)%nat then Ok c
  else
    '(_, segment_index) ← GetSegmentIndex false (cd_data c) start_row;
    data ← EraseSegments false (cd_data c) segment_index;
    let c := set_data c (start_row - cd_start c) data in
    seg ← segment_at c segment_index;
    seg ← ColumnSegment_RevertAppend F seg start_row;
    data ← put_segment c segment_index seg;
    Ok (set_data c (cd_count c) data).

(** [SetStart]: the update segment reads the start of its column. *)
Fixpoint move_segments (start : nat) (nodes : list (SegmentNode (ColumnSegment A))) : list (SegmentNode (ColumnSegment A)) :=
  match nodes with
  | [] => []
  | mkSegmentNode r seg :: nodes =>
      mkSegmentNode r (mkColumnSegment (segment_type seg) start (seg_count seg) (seg_size seg) (seg_stats seg) (seg_block seg))
        :: move_segments (start + seg_count seg) nodes
  end.

Definition SetStart (c : ColumnData A T) (new_start : nat) : result (ColumnData A T) :=
  data ← Reinitialize (mkTree (move_segments new_start (tree_nodes (cd_data c))) (finished_loading (cd_data c)) (unloaded (cd_data c)));
  Ok (mkColumn (cd_type c) new_start (cd_count c) data (cd_stats c)
        ((λ us, mkSegment (Z.of_nat new_start) (us_stats us) (us_root us)) <$> cd_updates c) (allocation_size c)).

(** * Updates *)

(** [UpdateInternal]: the column and the outcome; the update segment stays
    created when the update fails. *)
Definition UpdateInternal (c : ColumnData A T) (t : TransactionData) (has_transaction : bool) (address column_index : nat)
    (update : FlatVector T) (row_ids : list Z) (update_count : nat) (base : FlatVector T) : ColumnData A T * result unit :=
  match match cd_updates c with
        | Some us => Ok us
        | None => '(_, us) ← UpdateSegment_new T (cd_type c) (Z.of_nat (cd_start c)); Ok us
        end with
  | Throw e => (c, Throw e)
  | Ok us =>
      let '(us, outcome) := UpdateSegment_Update U us t has_transaction address column_index update row_ids update_count base in
      (set_updates c (Some us), outcome)
  end.

(** [ColumnData::Update]; [base] is the vector the rows are fetched into, and
    the virtual [Fetch] is passed in. *)
Definition ColumnData_Update (fetch : nat → result (FlatVector T)) (c : ColumnData A T) (t : TransactionData) (has_transaction : bool)
    (address column_index : nat) (update : FlatVector T) (row_ids : list Z) (update_count : nat) : ColumnData A T * result unit :=
  match (id ← vget row_ids 0; fetch (Z.to_nat id)) with
  | Throw e => (c, Throw e)
  | Ok base => UpdateInternal c t has_transaction address column_index update row_ids update_count base
  end.

(** * Statistics *)

Definition CheckZonemap_column (c : ColumnData A T) (filter : TableFilter) : result bool :=
  match cd_stats c with
  | None => Throw (InternalException "ColumnData::CheckZonemap called on a column without stats")
  | Some stats =>
      propagate_result ← CheckStatistics filter stats;
      Ok (match propagate_result with FILTER_ALWAYS_FALSE | FILTER_FALSE_OR_NULL => false | _ => true end)
  end.

Definition GetStatistics (c : ColumnData A T) : result BaseStatistics :=
  match cd_stats c with
  | None => Throw (InternalException "ColumnData::GetStatistics called on a column without stats")
  | Some stats => Ok stats
  end.

Definition MergeStatistics (c : ColumnData A T) (other : BaseStatistics) : result (ColumnData A T) :=
  match cd_stats c with
  | None => Throw (InternalException "ColumnData::MergeStatistics called on a column without stats")
  | Some stats =>
      stats ← Merge stats other;
      Ok (mkColumn (cd_type c) (cd_start c) (cd_count c) (cd_data c) (Some stats) (cd_updates c) (allocation_size c))
  end.

Definition MergeIntoStatistics (c : ColumnData A T) (other : BaseStatistics) : result BaseStatistics :=
  match cd_stats c with
  | None => Throw (InternalException "ColumnData::MergeIntoStatistics called on a column without stats")
  | Some stats => Merge other stats
  end.
End Column.
