(* ===== verification/ColumnFacts.v ===== *)
(** Columns: a scan returns the rows of the column across its segments, with the
    updates the transaction sees; single rows agree with it. *)
From S2P Require Import Prelude Bits SelectionVector Types Stats NumericStats BaseStatistics ValidityMask MaskFacts ChunkInfo RowVersionManager VersionFacts UpdateSegment UpdateFacts.
From S2P Require Import UpdateLaws UpdateChain UpdateSteps UpdateSystem UncompressedSegment SegmentLaws SegmentTree ColumnData.

#[local] Opaque ROW_GROUP_VECTOR_COUNT.

Section Facts.
Context {A T : Type} (F : CompressionFunction A T) (U : UpdateFunctions T) {L : UpdateLaws U} {SL : SegmentLaws F L}.

(** * The rows of a column *)

Definition column_segments (c : ColumnData A T) : list (ColumnSegment A) := node <$> tree_nodes (cd_data c).

Record column_ok (c : ColumnData A T) : Prop := {
  co_tree : tree_ok false (cd_start c) (cd_data c);
  co_segments : Forall segment_ok (column_segments c);
  co_count : cd_count c = rows_of (column_segments c);
}.

Definition column_rows (c : ColumnData A T) : list T := concat (segment_rows <$> column_segments c).

Lemma column_tree c : column_ok c → tree_segments (cd_data c) = column_segments c ∧ unloaded (cd_data c) = [].
Proof.
  intros [Ht _ _]. assert (unloaded (cd_data c) = []) as E by (apply Ht; by left). unfold tree_segments. by rewrite E, app_nil_r.
Qed.

Lemma column_chain c : column_ok c → contiguous (cd_start c) (column_segments c).
Proof. intros H. rewrite <- (proj1 (column_tree c H)). apply H. Qed.

Lemma concat_lookup (l : list (ColumnSegment A)) i s r :
  Forall segment_ok l → l !! i = Some s → (r < seg_count s)%nat →
  concat (segment_rows <$> l) !! (rows_of (take i l) + r)%nat = segment_rows s !! r.
Proof.
  intros HF. revert i. induction HF as [|a l Ha HF IH]; intros [|i] Hi Hr; try done; cbn [lookup list_lookup] in Hi.
  - injection Hi as ->. cbn. apply lookup_app_l. rewrite rows_length by done. exact Hr.
  - cbn [take fmap list_fmap concat]. unfold rows_of in *. cbn [sum_list_with].
    rewrite lookup_app_r by (rewrite rows_length by done; cbn; lia). rewrite rows_length by done.
    rewrite <- (IH i Hi Hr). f_equal. cbn. lia.
Qed.

(** The rows of a segment within the column. *)
Lemma segment_in_column c i s r : column_ok c → column_segments c !! i = Some s → (r < seg_count s)%nat →
  column_rows c !! (seg_start s - cd_start c + r)%nat = segment_rows s !! r.
Proof.
  intros Hc Hi Hr. pose proof (contiguous_start _ _ _ _ (column_chain c Hc) Hi) as E. cbn in E. rewrite E.
  replace (cd_start c + rows_of (take i (column_segments c)) - cd_start c)%nat with (rows_of (take i (column_segments c))) by lia.
  apply concat_lookup; [apply Hc | done | done].
Qed.

Lemma column_rows_length c : column_ok c → length (column_rows c) = cd_count c.
Proof.
  intros [_ HF ->]. unfold column_rows, rows_of. induction HF as [|a l Ha HF IH]; [done|]. cbn.
  rewrite length_app, rows_length by done. by rewrite IH.
Qed.

(** * Scan positions *)

(** The state stands at a row: within a segment or at its end, or behind the
    last segment. *)
Definition cursor (c : ColumnData A T) (st : ColumnScanState) : Prop :=
  match current st with
  | Some i => ∃ s, column_segments c !! i = Some s ∧ (seg_start s ≤ row_index st ≤ seg_start s + seg_count s)%nat
  | None => (cd_start c + cd_count c ≤ row_index st)%nat
  end.

Lemma segment_at_ok c i s : column_segments c !! i = Some s → segment_at c i = Ok s.
Proof.
  unfold column_segments, segment_at. rewrite list_lookup_fmap. destruct (tree_nodes (cd_data c) !! i) as [n|] eqn:E; [|done].
  intros [= <-]. by rewrite (vget_lookup _ _ _ E).
Qed.

Lemma segment_nth_ok c i s : column_ok c → column_segments c !! i = Some s → segment_ok s.
Proof. intros [_ HF _] Hi. by apply (proj1 (Forall_lookup _ _) HF i). Qed.

Lemma segment_end c i s : column_ok c → column_segments c !! i = Some s →
  (cd_start c ≤ seg_start s)%nat ∧ (seg_start s + seg_count s ≤ cd_start c + cd_count c)%nat.
Proof.
  intros Hc Hi. pose proof (column_chain c Hc) as Hch. split.
  - pose proof (contiguous_start _ _ _ _ Hch Hi) as E. cbn in E. lia.
  - rewrite (co_count _ Hc). exact (contiguous_end _ _ i s Hch Hi).
Qed.

(** The next segment starts where this one ends; the last one ends the column. *)
Lemma next_segment c i s : column_ok c → column_segments c !! i = Some s →
  match Next (cd_data c) i with
  | Some j => j = (i + 1)%nat ∧ ∃ s', column_segments c !! j = Some s' ∧ seg_start s' = (seg_start s + seg_count s)%nat
  | None => (seg_start s + seg_count s = cd_start c + cd_count c)%nat
  end.
Proof.
  intros Hc Hi. pose proof (column_chain c Hc) as Hch. unfold Next.
  assert (length (tree_nodes (cd_data c)) = length (column_segments c)) as -> by (unfold column_segments; by rewrite length_fmap).
  assert (Hend : (seg_start s + seg_count s = cd_start c + rows_of (take (i + 1) (column_segments c)))%nat).
  { pose proof (contiguous_start _ _ _ _ Hch Hi) as E. cbn in E. rewrite E, Nat.add_1_r, (take_S_r _ _ _ Hi).
    unfold rows_of. rewrite sum_list_with_app. cbn. lia. }
  destruct (Nat.ltb_spec (i + 1) (length (column_segments c))) as [Hlt|Hge].
  - split; [done|]. destruct (lookup_lt_is_Some_2 _ _ Hlt) as [s' Hs']. exists s'. split; [done|].
    pose proof (contiguous_start _ _ _ _ Hch Hs') as E. cbn in E. lia.
  - rewrite Hend, (co_count _ Hc), take_ge by lia. done.
Qed.

(** * The loop over the segments *)

Lemma fetch_rows_loop seg row scan v off :
  segment_ok seg → view_ok v → (seg_start seg ≤ row)%nat → (row - seg_start seg + scan ≤ seg_count seg)%nat → (off + scan ≤ SVS)%nat →
  (∀ q, (off ≤ q < SVS)%nat → blank v q) →
  ∃ v', foldM (λ res i, ColumnSegment_FetchRow F seg (row + i) res (off + i)) v (seq 0 scan) = Ok v' ∧ view_ok v' ∧
    (∀ i, (i < scan)%nat → view v' (off + i) = segment_rows seg !! (row - seg_start seg + i)%nat) ∧
    (∀ q, (q < off)%nat → view v' q = view v q) ∧ (∀ q, (off + scan ≤ q < SVS)%nat → blank v' q).
Proof.
  intros Hseg Hv Hrow Hs Ho Hb.
  destruct (foldM_seq (λ res i, ColumnSegment_FetchRow F seg (row + i) res (off + i)) (λ k v', view_ok v' ∧
    (∀ i, (i < k)%nat → view v' (off + i) = segment_rows seg !! (row - seg_start seg + i)%nat) ∧
    (∀ q, (q < off)%nat → view v' q = view v q) ∧ (∀ q, (off + k ≤ q < SVS)%nat → blank v' q)) v 0 scan) as (v' & E & H).
  - split_and!; [done | lia | done|]. intros q Hq. apply Hb. lia.
  - intros i v1 Hi (Hv1 & Hin & Hout & Hb1). cbn [plus]. unfold ColumnSegment_FetchRow.
    destruct (fetch_row_law seg (row + i - seg_start seg) v1 (off + i) Hseg Hv1) as (v2 & -> & Hv2 & Hr & Hb2); [lia | lia | apply Hb1; lia|].
    exists v2. split; [done|]. split_and!; [done | | |].
    + intros j Hj. rewrite Hr by lia. destruct (decide (off + j = off + i)%nat) as [E|E]; [|apply Hin; lia].
      assert (j = i) as -> by lia. f_equal. lia.
    + intros q Hq. rewrite Hr, decide_False by lia. by apply Hout.
    + intros q Hq. apply Hb2; [lia | lia|]. apply Hb1. lia.
  - by exists v'.
Qed.

(** One segment of a scan into a flat vector. *)
Lemma segment_scan_rows_ok seg st scan v off :
  segment_ok seg → view_ok v → (seg_start seg ≤ row_index st)%nat → (0 < scan)%nat → (row_index st - seg_start seg + scan ≤ seg_count seg)%nat →
  (off + scan ≤ SVS)%nat → (off = 0 ∨ row_index st = seg_start seg)%nat → (∀ q, (off ≤ q < SVS)%nat → blank v q) →
  ∃ v', scan_rows F seg st scan v off SCAN_FLAT_VECTOR = Ok v' ∧ view_ok v' ∧
    (∀ i, (i < scan)%nat → view v' (off + i) = segment_rows seg !! (row_index st - seg_start seg + i)%nat) ∧
    (∀ q, (q < off)%nat → view v' q = view v q) ∧
    ((row_index st + scan = seg_start seg + seg_count seg)%nat → ∀ q, (off + scan ≤ q < SVS)%nat → blank v' q).
Proof.
  intros Hseg Hv Hrow Hpos Hs Ho Hfront Hb. unfold scan_rows. destruct (force_fetch_row st).
  - destruct (fetch_rows_loop seg (row_index st) scan v off Hseg Hv Hrow Hs Ho Hb) as (v' & E & ? & ? & ? & Hb'). exists v'. split_and!; auto.
  - cbn [ColumnSegment_Scan]. destruct (scan_partial_law seg (row_index st) scan v off Hseg Hv) as (v' & E & ? & ? & ? & Hb'); unfold GetRelativeIndex; try done; [lia|].
    exists v'. split_and!; [done | done | done | done|]. intros He. apply Hb'. unfold GetRelativeIndex. lia.
Qed.

Lemma scan_segments_ok fuel c st res initial remaining i s :
  column_ok c → view_ok res → current st = Some i → column_segments c !! i = Some s →
  (seg_start s ≤ row_index st ≤ seg_start s + seg_count s)%nat → (remaining ≤ initial ≤ SVS)%nat →
  let off := (initial - remaining)%nat in
  (off = 0 ∨ row_index st = seg_start s)%nat → (∀ q, (off ≤ q < SVS)%nat → blank res q) → (length (column_segments c) < fuel + i)%nat →
  let k := Nat.min remaining (cd_start c + cd_count c - row_index st) in
  ∃ st' res', scan_segments F fuel c st res initial remaining SCAN_FLAT_VECTOR = Ok (st', res', (remaining - k)%nat) ∧
    cursor c st' ∧ current st' ≠ None ∧ row_index st' = (row_index st + k)%nat ∧ initialized st' = initialized st ∧ force_fetch_row st' = force_fetch_row st ∧
    (segment_checked st' = false ∨ segment_checked st' = segment_checked st ∧ current st' = current st) ∧ view_ok res' ∧
    (∀ j, (j < k)%nat → view res' (off + j) = column_rows c !! (row_index st - cd_start c + j)%nat) ∧
    (∀ q, (q < off)%nat → view res' q = view res q).
Proof.
  intros Hc. revert st res remaining i s. induction fuel as [|fuel IH]; intros st res remaining i s Hv Hcur Hi Hrow Hrem off Hfront Hb Hfuel k.
  { pose proof (lookup_lt_Some _ _ _ Hi). lia. }
  cbn [scan_segments]. destruct (Nat.eqb_spec remaining 0) as [->|Hne].
  { exists st, res. unfold k. split_and!; [done | unfold cursor; rewrite Hcur; eauto | by rewrite Hcur | lia | done | done | by right | done | lia | done]. }
  unfold current_segment. rewrite Hcur, (segment_at_ok c i s Hi). cbn [mbind result_bind].
  pose proof (segment_nth_ok c i s Hc Hi) as Hseg. pose proof (segment_end c i s Hc Hi) as [Hs1 Hs2]. pose proof (next_segment c i s Hc Hi) as Hnext.
  rewrite min_difference_le by lia. set (n := Nat.min remaining (seg_start s + seg_count s - row_index st)). fold off.
  assert (∃ v', (if (0 <? n)%nat then scan_rows F s st n res off SCAN_FLAT_VECTOR else Ok res) = Ok v' ∧ view_ok v' ∧
    (∀ j, (j < n)%nat → view v' (off + j) = segment_rows s !! (row_index st - seg_start s + j)%nat) ∧
    (∀ q, (q < off)%nat → view v' q = view res q) ∧
    ((row_index st + n = seg_start s + seg_count s)%nat → ∀ q, (off + n ≤ q < SVS)%nat → blank v' q)) as (v' & -> & Hv' & Hin & Hout & Hb').
  { destruct (Nat.ltb_spec 0 n) as [Hn|Hn].
    - apply segment_scan_rows_ok; try done; lia.
    - exists res. split_and!; [done | done | lia | done|]. intros _ q Hq. apply Hb. lia. }
  cbn [mbind result_bind]. cbn [current set_row_index row_index].
  assert (Hcol : ∀ j, (j < n)%nat → segment_rows s !! (row_index st - seg_start s + j)%nat = column_rows c !! (row_index st - cd_start c + j)%nat).
  { intros j Hj. rewrite <- (segment_in_column c i s (row_index st - seg_start s + j) Hc Hi) by lia. f_equal. lia. }
  destruct (Nat.ltb_spec 0 (remaining - n)) as [Hmore|Hdone].
  - assert (row_index st + n = seg_start s + seg_count s)%nat as Hend by lia. rewrite Hcur.
    destruct (Next (cd_data c) i) as [j|].
    + destruct Hnext as [-> (s' & Hs' & Hst')].
      destruct (IH (enter_segment (set_row_index st (row_index st + n)) (i + 1)) v' (remaining - n)%nat (i + 1)%nat s') as
        (st' & res' & -> & Hcur' & Hne' & Hri & Hini & Hff & Hchk & Hv2 & Hin2 & Hout2); cbn [enter_segment current row_index set_row_index initialized force_fetch_row segment_checked] in *; try done; try lia.
      { intros q Hq. apply Hb'; [done | lia]. }
      exists st', res'. split_and!; [do 2 f_equal; lia | done | done | lia | done | done | left; by destruct Hchk as [->|[-> _]] | done | |].
      * intros j Hj. destruct (decide (j < n)%nat) as [Hjn|Hjn].
        -- rewrite Hout2 by lia. rewrite Hin by done. by apply Hcol.
        -- specialize (Hin2 (j - n)%nat ltac:(lia)). replace (initial - (remaining - n) + (j - n))%nat with (off + j)%nat in Hin2 by lia. rewrite Hin2. f_equal. lia.
      * intros q Hq. rewrite Hout2 by lia. by apply Hout.
    + assert (k = n) as -> by lia. eexists _, v'. split; [done|]. split_and!; try done.
      * unfold cursor. cbn. rewrite Hcur. exists s. split; [done | lia].
      * cbn. by rewrite Hcur.
      * by right.
      * intros j Hj. rewrite Hin by done. by apply Hcol.
  - assert (k = n) as -> by lia. assert (n = remaining) as Hnr by lia.
    exists (set_row_index st (row_index st + n)), v'. split; [do 2 f_equal; lia|]. split_and!; try done.
    + unfold cursor. cbn. rewrite Hcur. exists s. split; [done | lia].
    + cbn. by rewrite Hcur.
    + by right.
    + intros j Hj. rewrite Hin by done. by apply Hcol.
Qed.

(** * [ScanVector] *)

(** The first [k] rows of the vector are given by [rows]. *)
Definition shows (res : FlatVector T) (k : nat) (rows : nat → option T) : Prop :=
  window res k ∧ ∀ j, (j < k)%nat → view res j = rows j.

(** A whole vector may be scanned when there are no updates and the current
    segment has the rows. *)
Definition scan_type_ok (c : ColumnData A T) (st : ColumnScanState) (n : nat) (ty : ScanVectorType) : Prop :=
  ty = SCAN_ENTIRE_VECTOR → cd_updates c = None ∧
    ∃ i s, current st = Some i ∧ column_segments c !! i = Some s ∧ (row_index st + n ≤ seg_start s + seg_count s)%nat.

(** What a scan of [k] rows leaves behind. *)
Record scanned (c : ColumnData A T) (st st' : ColumnScanState) (k : nat) : Prop := {
  sc_cursor : cursor c st';
  sc_current : current st' ≠ None;
  sc_row : row_index st' = (row_index st + k)%nat;
  sc_checked : segment_checked st' = false ∨ segment_checked st' = segment_checked st ∧ current st' = current st;
  sc_force : force_fetch_row st' = force_fetch_row st;
}.

Lemma entire_rows_ok c st res n i s :
  column_ok c → view_ok res → column_segments c !! i = Some s → (seg_start s ≤ row_index st)%nat →
  (row_index st + n ≤ seg_start s + seg_count s)%nat → (n ≤ SVS)%nat → (∀ q, (q < SVS)%nat → blank res q) →
  ∃ res', scan_rows F s st n res 0 SCAN_ENTIRE_VECTOR = Ok res' ∧ shows res' n (λ j, column_rows c !! (row_index st - cd_start c + j)%nat).
Proof.
  intros Hc Hv Hi Hrow Hn HS Hb. pose proof (segment_nth_ok c i s Hc Hi) as Hseg. pose proof (segment_end c i s Hc Hi) as [Hs1 _].
  assert (Hcol : ∀ j, (j < n)%nat → segment_rows s !! (row_index st - seg_start s + j)%nat = column_rows c !! (row_index st - cd_start c + j)%nat).
  { intros j Hj. rewrite <- (segment_in_column c i s (row_index st - seg_start s + j) Hc Hi) by lia. f_equal. lia. }
  unfold scan_rows. destruct (force_fetch_row st).
  - destruct (fetch_rows_loop s (row_index st) n res 0 Hseg Hv Hrow) as (v' & -> & Hv' & Hin & _); [lia | lia | intros; apply Hb; lia|].
    exists v'. split; [done|]. split; [eapply window_le; [by apply ok_window | done]|]. intros j Hj. rewrite <- Hcol by done. by apply (Hin j).
  - cbn [ColumnSegment_Scan]. destruct (scan_vector_law s (row_index st) n res Hseg Hv) as (v' & -> & Hw & Hin); [unfold GetRelativeIndex; lia | done | done|].
    exists v'. split; [done|]. split; [done|]. intros j Hj. rewrite Hin by done. by apply Hcol.
Qed.

Lemma ScanVector_ok c st res n ty :
  column_ok c → view_ok res → cursor c st → current st ≠ None → (n ≤ SVS)%nat → (∀ q, (q < SVS)%nat → blank res q) → scan_type_ok c st n ty →
  let k := Nat.min n (cd_start c + cd_count c - row_index st) in
  ∃ st' res', ScanVector F c st res n ty = Ok (st', res', k) ∧ scanned c st st' k ∧ (ty = SCAN_FLAT_VECTOR → view_ok res') ∧
    shows res' k (λ j, column_rows c !! (row_index st - cd_start c + j)%nat).
Proof.
  intros Hc Hv Hcur Hsome HS Hb Hty k. unfold ScanVector. unfold cursor in Hcur. destruct (current st) as [i|] eqn:Ei; [|done].
  destruct Hcur as (s & Hi & Hrow). unfold current_segment. rewrite Ei, (segment_at_ok c i s Hi). cbn [mbind result_bind].
  pose proof (segment_end c i s Hc Hi) as [_ Hend].
  set (st1 := if initialized st then st else _). set (st2 := if (internal_index st1 <? row_index st1)%nat then _ else _).
  assert (current st2 = Some i ∧ row_index st2 = row_index st ∧ segment_checked st2 = segment_checked st ∧ force_fetch_row st2 = force_fetch_row st)
    as (E1 & E2 & E3 & E4).
  { unfold st2, st1. destruct (initialized st), (internal_index _ <? row_index _)%nat; cbn; auto. }
  destruct ty.
  - destruct (Hty eq_refl) as (_ & i' & s' & Hi0 & Hi' & Hroom); rewrite Ei in Hi0; injection Hi0 as <-. rewrite Hi in Hi'. injection Hi' as <-.
    assert (k = n) as -> by lia. rewrite Nat.add_1_r. cbn [scan_segments]. destruct (Nat.eqb_spec n 0) as [->|Hne].
    + cbn [mbind result_bind]. eexists _, res. split; [do 2 f_equal; lia|]. split_and!.
      * split; cbn [current row_index segment_checked set_internal_index force_fetch_row];
          [unfold cursor; cbn [current row_index set_internal_index]; rewrite E1, E2; eauto | by rewrite E1 | lia | right; split; congruence | done].
      * done.
      * split; [eapply window_le; [by apply ok_window | lia] | lia].
    + unfold current_segment. rewrite E1, (segment_at_ok c i s Hi). cbn [mbind result_bind]. rewrite E2, min_difference_le by lia.
      assert (Nat.min n (seg_start s + seg_count s - row_index st) = n) as -> by lia. rewrite (proj2 (Nat.ltb_lt 0 n)) by lia. rewrite Nat.sub_diag.
      destruct (entire_rows_ok c st2 res n i s Hc Hv Hi) as (res' & -> & Hshow); [lia | lia | done | done|]. cbn [mbind result_bind].
      cbn. eexists _, res'. split; [do 2 f_equal; lia|]. rewrite E2 in Hshow. split_and!; [|done | exact Hshow].
      split; cbn; [unfold cursor; cbn; rewrite E1; exists s; split; [done | lia] | by rewrite E1 | lia | right; split; congruence | done].
  - destruct (scan_segments_ok (length (tree_nodes (cd_data c)) + 1) c st2 res n n i s Hc Hv E1 Hi) as (st' & res' & -> & H1 & H2 & H3 & _ & H5 & H6 & H7 & H8 & _).
    { lia. } { lia. } { left. lia. } { intros q Hq. apply Hb. lia. } { unfold column_segments. rewrite length_fmap. lia. }
    cbn [mbind result_bind]. rewrite E2 in *. rewrite Nat.sub_diag in H8. eexists _, res'. split; [do 2 f_equal; lia|]. split_and!.
    + split; cbn; [unfold cursor in *; exact H1 | done | done | rewrite Ei, <- E1, <- E3; exact H6 | congruence].
    + done.
    + split; [eapply window_le; [by apply ok_window | lia]|]. intros j Hj. by apply (H8 j).
Qed.

(** [GetVectorScanType] asks for a whole vector only when that is right. *)
Lemma GetVectorScanType_ok c st n : cursor c st → current st ≠ None →
  ∃ ty, GetVectorScanType c st n = Ok ty ∧ scan_type_ok c st n ty.
Proof.
  intros Hcur Hsome. unfold GetVectorScanType, ColumnData_HasUpdates. destruct (cd_updates c) eqn:Eu.
  - rewrite bool_decide_true by done. by exists SCAN_FLAT_VECTOR.
  - rewrite bool_decide_false by (intros []; done). unfold cursor, current_segment in *. destruct (current st) as [i|] eqn:Ei; [|done].
    destruct Hcur as (s & Hi & Hrow). rewrite (segment_at_ok c i s Hi). cbn [mbind result_bind].
    destruct (Nat.ltb_spec (seg_start s + seg_count s - row_index st) n) as [H|H]; eexists; (split; [done|]); [done|].
    intros _. split; [done|]. exists i, s. split_and!; [done | done | lia].
Qed.

(** ** Moving on without scanning *)

Lemma next_segments_ok fuel c st i s :
  column_ok c → current st = Some i → column_segments c !! i = Some s → (seg_start s ≤ row_index st)%nat →
  (length (column_segments c) ≤ fuel + i)%nat →
  ∃ st', next_segments fuel c st = Ok st' ∧ cursor c st' ∧ row_index st' = row_index st ∧ force_fetch_row st' = force_fetch_row st ∧
    (segment_checked st' = false ∨ segment_checked st' = segment_checked st ∧ current st' = current st).
Proof.
  intros Hc. revert st i s. induction fuel as [|fuel IH]; intros st i s Hcur Hi Hrow Hf.
  { pose proof (lookup_lt_Some _ _ _ Hi). lia. }
  cbn [next_segments]. rewrite Hcur, (segment_at_ok c i s Hi). cbn [mbind result_bind].
  destruct (Nat.leb_spec (seg_start s + seg_count s) (row_index st)) as [Hle|Hgt].
  - pose proof (next_segment c i s Hc Hi) as Hn. destruct (Next (cd_data c) i) as [j|].
    + destruct Hn as [-> (s' & Hs' & Hst')].
      destruct (IH (mkColumnScan (Some (i + 1)%nat) (row_index st) (internal_index st) false false (force_fetch_row st)) (i + 1)%nat s') as (st' & -> & H1 & H2 & H3 & H4);
        cbn [current row_index segment_checked force_fetch_row] in *; [done | done | lia | lia|].
      exists st'. split_and!; [done | done | done | done|]. left. by destruct H4 as [->|[-> _]].
    + destruct fuel; cbn [next_segments current]; eexists; (split; [done|]); split_and!; cbn; auto; unfold cursor; cbn; lia.
  - exists st. split_and!; [done | unfold cursor; rewrite Hcur; exists s; split; [done | lia] | done | done | by right].
Qed.

Lemma NextInternal_ok c st n :
  column_ok c → cursor c st →
  ∃ st', NextInternal c st n = Ok st' ∧ cursor c st' ∧ (current st ≠ None → row_index st' = (row_index st + n)%nat) ∧
    force_fetch_row st' = force_fetch_row st ∧
    (segment_checked st' = false ∨ segment_checked st' = segment_checked st ∧ current st' = current st).
Proof.
  intros Hc Hcur. unfold NextInternal. unfold cursor in Hcur. destruct (current st) as [i|] eqn:Ei.
  - destruct Hcur as (s & Hi & Hrow).
    destruct (next_segments_ok (length (tree_nodes (cd_data c))) c (set_row_index st (row_index st + n)) i s Hc) as (st' & -> & H1 & H2 & H3 & H4);
      cbn [current row_index segment_checked force_fetch_row set_row_index] in *; [done | done | lia | unfold column_segments; rewrite length_fmap; lia|].
    exists st'. rewrite Ei in H4. by split_and!.
  - exists st. split_and!; [done | unfold cursor; by rewrite Ei | done | done | right; by rewrite Ei].
Qed.
End Facts.

Section Updates.
Context {A T : Type} (F : CompressionFunction A T) (U : UpdateFunctions T) {L : UpdateLaws U} {SL : SegmentLaws F L}.

(** The update segment of a column, if it has one. *)
Definition updates_ok (c : ColumnData A T) : Prop :=
  match cd_updates c with
  | None => True
  | Some us => us_start us = Z.of_nat (cd_start c) ∧ start_ok (us_start us) ∧ ∃ act limit next, seg_ok act limit next us
  end.

(** What a row is after the updates: those the transaction sees, or the last
    ones. *)
Definition updated_value (committed : bool) (c : ColumnData A T) (t : TransactionData) (v r : nat) (x : option T) : option T :=
  match cd_updates c with
  | None => x
  | Some us =>
      if committed then match node_at us v with Some n => override (node_info n) r x | None => x end
      else row_view us t v r x
  end.

(** Row [row] of the column, counted from its start. *)
Definition column_value (committed : bool) (c : ColumnData A T) (t : TransactionData) (row : nat) : option T :=
  updated_value committed c t (row / SVS) (row mod SVS) (column_rows F U c !! row).

Lemma FetchUpdates_shows committed c t v res k rows :
  updates_ok c → (v < ROW_GROUP_VECTOR_COUNT)%nat → (k ≤ SVS)%nat → (cd_updates c ≠ None → view_ok res) → shows F U res k rows →
  ∃ res', FetchUpdates U c t v res true committed = Ok res' ∧ (cd_updates c ≠ None → view_ok res') ∧ (cd_updates c = None → res' = res) ∧
    shows F U res' k (λ j, updated_value committed c t v j (rows j)).
Proof.
  intros Hu Hv Hk Hok [Hw Hrows]. unfold FetchUpdates, updates_ok, updated_value in *. destruct (cd_updates c) as [us|] eqn:E.
  - destruct Hu as (_ & _ & act & limit & next & Hus). specialize (Hok ltac:(done)). cbn [mbind result_bind]. destruct committed.
    + unfold UpdateSegment_FetchCommitted. rewrite vector_node_ok by (done || apply Hus). cbn [mbind result_bind].
      destruct (node_at us v) as [n|] eqn:En.
      * pose proof (chain_entries act limit next us Hus v n En) as Hentries. apply Forall_cons in Hentries as [He _].
        destruct (committed_law (node_info n) res Hok He) as (res' & -> & Hok' & Hr). exists res'. split_and!; [done | done | done|].
        split; [eapply window_le; [by apply ok_window | done]|]. intros j Hj. rewrite Hr by lia. by rewrite Hrows.
      * exists res. split_and!; [done | done | done | done].
    + destruct (FetchUpdates_ok U act limit next us Hus t v res Hv Hok) as (res' & -> & Hok' & Hr). exists res'. split_and!; [done | done | done|].
      split; [eapply window_le; [by apply ok_window | done]|]. intros j Hj. rewrite Hr by lia. by rewrite Hrows.
  - exists res. split_and!; [done | done | done | done].
Qed.

Lemma vector_row v j : (j < SVS)%nat → ((v * SVS + j) / SVS = v ∧ (v * SVS + j) mod SVS = j)%nat.
Proof.
  intros Hj. split; [symmetry; apply (Nat.div_unique _ _ _ j); lia | symmetry; apply (Nat.mod_unique _ _ v); lia].
Qed.

(** A scan of vector [v] returns the rows of the vector, up to the end of the
    column, with the updates. *)
Lemma ScanVectorUpdates_ok committed c t v st res n ty :
  column_ok F U c → updates_ok c → view_ok res → cursor c st → current st ≠ None → row_index st = (cd_start c + v * SVS)%nat →
  (v < ROW_GROUP_VECTOR_COUNT)%nat → (n ≤ SVS)%nat → (∀ q, (q < SVS)%nat → blank res q) → scan_type_ok c st n ty →
  let k := Nat.min n (cd_count c - v * SVS) in
  ∃ st' res', ScanVectorUpdates F U committed true c t v st res n ty = Ok (st', res', k) ∧ scanned c st st' k ∧
    (ty = SCAN_FLAT_VECTOR → view_ok res') ∧ shows F U res' k (λ j, column_value committed c t (v * SVS + j)).
Proof.
  intros Hc Hu Hv Hcur Hsome Hrow Hvi Hn Hb Hty k. unfold ScanVectorUpdates.
  destruct (ScanVector_ok F U c st res n ty Hc Hv Hcur Hsome Hn Hb Hty) as (st' & res1 & -> & Hsc & Hok & Hshow). cbn [mbind result_bind].
  rewrite Hrow in *. replace (cd_start c + cd_count c - (cd_start c + v * SVS))%nat with (cd_count c - v * SVS)%nat in * by lia. fold k in Hsc, Hshow |- *.
  assert (Hflat : cd_updates c ≠ None → ty = SCAN_FLAT_VECTOR).
  { intros Hne. destruct ty; [|done]. by destruct (Hty eq_refl). }
  destruct (FetchUpdates_shows committed c t v res1 k _ Hu Hvi ltac:(unfold k; lia) (λ H, Hok (Hflat H)) Hshow) as (res' & -> & Hok' & Hsame & Hshow').
  cbn [mbind result_bind]. exists st', res'. split_and!; [done | done | |].
  - intros Hf. destruct (cd_updates c) eqn:E; [by apply Hok' | rewrite Hsame by done; by apply Hok].
  - destruct Hshow' as [Hw Hr]. split; [done|]. intros j Hj. rewrite Hr by done. unfold column_value.
    destruct (vector_row v j ltac:(unfold k in Hj; lia)) as [-> ->]. do 2 f_equal. lia.
Qed.

(** With uncommitted updates a scan that must not see them throws. *)
Lemma FetchUpdates_disallowed (c : ColumnData A T) t v res us n committed :
  cd_updates c = Some us → seg_shape us → (v < ROW_GROUP_VECTOR_COUNT)%nat → node_at us v = Some n → node_next n ≠ [] →
  FetchUpdates U c t v res false committed = Throw (TransactionException "Cannot create index with outstanding updates").
Proof.
  intros Hu Hs Hv Hn Hne. unfold FetchUpdates, HasUncommittedUpdates. rewrite Hu, vector_node_ok by done. cbn [mbind result_bind]. rewrite Hn.
  by rewrite bool_decide_false.
Qed.

(** * Where scans start *)

Lemma InitializeScan_ok c st : column_ok F U c → column_segments c ≠ [] →
  ∃ st', InitializeScan c st = Ok st' ∧ cursor c st' ∧ current st' ≠ None ∧ row_index st' = cd_start c ∧ force_fetch_row st' = force_fetch_row st.
Proof.
  intros Hc Hne. pose proof (column_chain F U c Hc) as Hch. unfold InitializeScan, GetRootSegment.
  assert ((LoadNextSegment false (cd_data c)).1 = cd_data c) as Hl by done.
  assert ((if bool_decide (tree_nodes (cd_data c) = []) then (LoadNextSegment false (cd_data c)).1 else cd_data c) = cd_data c) as -> by (by destruct (bool_decide _)).
  cbn [fst snd]. unfold column_segments in Hne, Hch. destruct (tree_nodes (cd_data c)) as [|n l] eqn:En; [done|].
  assert (column_segments c !! O = Some (node n)) as H0 by (unfold column_segments; by rewrite En).
  rewrite (segment_at_ok c 0 (node n) H0). cbn [mbind result_bind]. destruct Hch as [Hs _]. cbn in Hs.
  eexists. split; [done|]. cbn. rewrite Hs. split_and!; try done. unfold cursor. cbn. exists (node n). split; [done | lia].
Qed.

Lemma GetSegment_column c row : column_ok F U c → (cd_start c ≤ row < cd_start c + cd_count c)%nat →
  ∃ t i s, GetSegment false (cd_data c) row = Ok (t, i) ∧ column_segments c !! i = Some s ∧ (seg_start s ≤ row < seg_start s + seg_count s)%nat.
Proof.
  intros Hc Hr. destruct (column_tree F U c Hc) as [Hseg _].
  destruct (GetSegmentIndex_ok false (cd_start c) (cd_data c) row) as (t & i & n & E & _ & _ & _ & Hi & Hh);
    [apply Hc | rewrite Hseg, <- (co_count _ _ _ Hc); lia|]. rewrite Hseg in Hi. exists t, i, (node n). split_and!; [done | done | apply Hh | apply Hh].
Qed.

Lemma InitializeScanWithOffset_ok c st row : column_ok F U c → (cd_start c ≤ row < cd_start c + cd_count c)%nat →
  ∃ st', InitializeScanWithOffset c st row = Ok st' ∧ cursor c st' ∧ current st' ≠ None ∧ row_index st' = row ∧ force_fetch_row st' = force_fetch_row st.
Proof.
  intros Hc Hr. unfold InitializeScanWithOffset. destruct (GetSegment_column c row Hc Hr) as (t & i & s & -> & Hi & Hs). cbn [mbind result_bind].
  rewrite (segment_at_ok c i s Hi). cbn [mbind result_bind]. eexists. split; [done|]. split_and!; try done. unfold cursor. cbn. exists s. split; [done | lia].
Qed.

(** * Row fetches *)

(** A fetched row is the row a scan returns. *)
Lemma ColumnData_FetchRow_ok c t row res result_idx :
  column_ok F U c → updates_ok c → (cd_count c ≤ ROW_GROUP_VECTOR_COUNT * SVS)%nat → view_ok res → (row < cd_count c)%nat → (result_idx < SVS)%nat → blank res result_idx →
  ∃ res', ColumnData_FetchRow F U c t (cd_start c + row) res result_idx = Ok res' ∧ view_ok res' ∧
    ∀ q, (q < SVS)%nat → view res' q = if decide (q = result_idx) then column_value false c t row else view res q.
Proof.
  intros Hc Hu Hmax Hv Hrow Hidx Hb. unfold ColumnData_FetchRow. destruct (GetSegment_column c (cd_start c + row) Hc ltac:(lia)) as (tr & i & s & -> & Hi & Hs).
  cbn [mbind result_bind]. rewrite (segment_at_ok c i s Hi). cbn [mbind result_bind]. unfold ColumnSegment_FetchRow.
  destruct (fetch_row_law s (cd_start c + row - seg_start s) res result_idx (segment_nth_ok F U c i s Hc Hi) Hv) as (res1 & -> & Hv1 & Hr1 & _); [lia | done | done|].
  cbn [mbind result_bind]. destruct (segment_end F U c i s Hc Hi) as [Hlo _].
  assert (segment_rows s !! (cd_start c + row - seg_start s)%nat = column_rows F U c !! row) as Hbase.
  { rewrite <- (segment_in_column F U c i s _ Hc Hi) by lia. f_equal. lia. }
  unfold FetchUpdateRow, column_value, updated_value, updates_ok in *. destruct (cd_updates c) as [us|].
  - destruct Hu as (Hstart & Hok & act & limit & next & Hus). destruct (row_split row) as [Hsplit Hlt].
    assert (row / SVS < ROW_GROUP_VECTOR_COUNT)%nat as Hvi by (apply Nat.Div0.div_lt_upper_bound; lia).
    destruct (FetchRow_ok U act limit next us Hus t (row / SVS) (row mod SVS) res1 result_idx Hok Hvi Hlt Hv1 Hidx) as (res' & Hf & Hv' & Hr').
    assert (vector_offset us (row / SVS) + Z.of_nat (row mod SVS) = Z.of_nat (cd_start c + row)) as Hid by (unfold vector_offset; rewrite Hstart; lia).
    rewrite Hid in Hf. exists res'. split_and!; [done | done|]. intros q Hq. rewrite Hr', Hr1 by done. destruct (decide (q = result_idx)); [by rewrite Hbase | done].
  - exists res1. split_and!; [done | done|]. intros q Hq. rewrite Hr1 by done. by rewrite Hbase.
Qed.

(** [Fetch]: the whole vector of a row, without updates. *)
Lemma column_Fetch_ok c st row res :
  column_ok F U c → view_ok res → (row < cd_count c)%nat → (∀ q, (q < SVS)%nat → blank res q) →
  let v := (row / SVS)%nat in let k := Nat.min SVS (cd_count c - v * SVS) in
  ∃ st' res', Fetch F c st (cd_start c + row) res = Ok (st', res', k) ∧ view_ok res' ∧ shows F U res' k (λ j, column_rows F U c !! (v * SVS + j)%nat).
Proof.
  intros Hc Hv Hrow Hb v k. unfold Fetch. replace (cd_start c + row - cd_start c)%nat with row by lia. fold v.
  destruct (row_split row) as [Hsplit Hlt]. fold v in Hsplit.
  destruct (GetSegment_column c (cd_start c + v * SVS) Hc ltac:(lia)) as (tr & i & s & -> & Hi & Hs). cbn [mbind result_bind].
  rewrite (segment_at_ok c i s Hi). cbn [mbind result_bind].
  destruct (ScanVector_ok F U c (mkColumnScan (Some i) (cd_start c + v * SVS) (seg_start s) (initialized st) (segment_checked st) (force_fetch_row st)) res SVS SCAN_FLAT_VECTOR Hc Hv)
    as (st' & res' & -> & _ & Hok & Hshow); try done.
  - unfold cursor. cbn. exists s. split; [done | lia].
  - cbn [row_index] in *. replace (cd_start c + cd_count c - (cd_start c + v * SVS))%nat with (cd_count c - v * SVS)%nat in * by lia.
    exists st', res'. split_and!; [done | by apply Hok|]. destruct Hshow as [Hw Hr]. split; [done|]. intros j Hj. rewrite Hr by done. f_equal. lia.
Qed.
End Updates.
