(* ===== verification/ColumnAppend.v ===== *)
(** Appends to a column and their reverting. *)
From S2P Require Import Prelude Bits SelectionVector Types Stats NumericStats BaseStatistics ValidityMask MaskFacts ChunkInfo RowVersionManager VersionFacts.
From S2P Require Import UpdateSegment UpdateFacts UpdateLaws UncompressedSegment SegmentLaws SegmentTree ColumnData ColumnFacts.

Section Append.
Context {A T : Type} (F : CompressionFunction A T) (U : UpdateFunctions T) {L : UpdateLaws U} {SL : SegmentLaws F L}.

(** [AppendData] counts the rows before it appends them: the column with the
    count its segments have. *)
Definition recount (c : ColumnData A T) : ColumnData A T := set_data c (rows_of (column_segments c)) (cd_data c).

Lemma recount_same c : column_ok F U c → recount c = c.
Proof. intros [_ _ H]. unfold recount, set_data. rewrite <- H. by destruct c. Qed.

Record same_column (c c' : ColumnData A T) : Prop := {
  sm_type : cd_type c' = cd_type c;
  sm_start : cd_start c' = cd_start c;
  sm_count : cd_count c' = cd_count c;
  sm_stats : cd_stats c' = cd_stats c;
  sm_updates : cd_updates c' = cd_updates c;
}.

Lemma same_column_trans c1 c2 c3 : same_column c1 c2 → same_column c2 c3 → same_column c1 c3.
Proof. intros [] []. split; congruence. Qed.

(** Nodes with adjacent segments make a column. *)
Lemma nodes_ok c nodes segs count fl :
  segs = node <$> nodes → Forall (λ n, row_start n = base_start (node n)) nodes → contiguous (cd_start c) segs → Forall segment_ok segs →
  Z.of_nat (length segs) < 2 ^ 63 → count = rows_of segs → column_ok F U (set_data c count (mkTree nodes fl [])).
Proof.
  intros -> H1 H2 H3 H4 ->. split; [|done | done]. split; cbn [set_data cd_data cd_start tree_nodes unloaded]; unfold tree_segments; cbn;
    rewrite ?app_nil_r; done.
Qed.

Lemma column_nodes c : column_ok F U c → Forall (λ n, row_start n = base_start (node n)) (tree_nodes (cd_data c)) ∧
  contiguous (cd_start c) (column_segments c) ∧ Z.of_nat (length (column_segments c)) < 2 ^ 63 ∧ unloaded (cd_data c) = [].
Proof.
  intros Hc. destruct (column_tree F U c Hc) as [E Eu]. pose proof (co_tree _ _ _ Hc) as [H1 _ _ H4]. rewrite E in H4.
  split_and!; [done | by apply (column_chain F U) | done | done].
Qed.

(** ** A new segment *)

Lemma AppendTransientSegment_ok c :
  column_ok F U (recount c) → type_fits (cd_type c) → Z.of_nat (length (column_segments c)) + 1 < 2 ^ 63 →
  ∃ c' seg, AppendTransientSegment F c (cd_start c + rows_of (column_segments c)) = Ok c' ∧
    column_ok F U (recount c') ∧ column_segments c' = column_segments c ++ [seg] ∧ same_column c c' ∧
    segment_ok seg ∧ segment_type seg = TRANSIENT ∧ seg_count seg = O ∧ (0 < capacity (seg_size seg))%nat ∧
    seg_start seg = (cd_start c + rows_of (column_segments c))%nat.
Proof.
  intros Hc Ht Hz. destruct (column_nodes _ Hc) as (Hs & Hch & _ & Hun). pose proof (co_segments _ _ _ Hc) as HF.
  cbn [recount set_data cd_data cd_start] in Hs, Hch, HF, Hun. change (column_segments (recount c)) with (column_segments c) in *.
  destruct (new_law (cd_type c) Ht) as (size & stats & Es & Ec & Hnew & Hcap1 & Hcap2).
  unfold AppendTransientSegment. rewrite Es. cbn [mbind result_bind]. set (start := (cd_start c + rows_of (column_segments c))%nat).
  set (vs := if Z.of_nat start =? 36028797018960000 then (STANDARD_VECTOR_SIZE * size)%nat else BLOCK_SIZE).
  set (n := if (BLOCK_SIZE <? vs)%nat then BLOCK_SIZE else vs).
  assert (0 < capacity n)%nat as Hcap by (unfold n, vs; destruct (_ =? _), (_ <? _)%nat; done).
  unfold CreateTransientSegment. rewrite Ec. cbn [mbind result_bind]. set (seg := mkColumnSegment TRANSIENT start 0 n stats (new_block F n)).
  unfold AppendSegment, LoadAllSegments. cbn [negb mbind result_bind]. eexists _, seg. split; [done|].
  assert (column_segments (mkColumn (cd_type c) (cd_start c) (cd_count c) (AppendSegmentInternal (cd_data c) seg) (cd_stats c) (cd_updates c) (allocation_size c + n))
    = column_segments c ++ [seg]) as Eseg.
  { unfold column_segments, AppendSegmentInternal. cbn. by rewrite fmap_app. }
  split_and!; try done.
  - unfold recount. rewrite Eseg. cbn [cd_data]. unfold AppendSegmentInternal. rewrite Hun. apply (nodes_ok _ _ (column_segments c ++ [seg])).
    + unfold column_segments. by rewrite fmap_app.
    + apply Forall_app. split; [done|]. by constructor.
    + apply contiguous_app. split; [done|]. by split.
    + apply Forall_app. split; [done|]. constructor; [apply Hnew | done].
    + rewrite length_app. cbn. lia.
    + done.
  - apply Hnew.
Qed.

Lemma last_segment_ok (c : ColumnData A T) l seg : column_segments c = l ++ [seg] → last_segment c = Ok (length l) ∧ segment_at c (length l) = Ok seg.
Proof.
  intros E. split.
  - unfold last_segment, GetLastSegment, LoadAllSegments. cbn [negb mbind result_bind]. unfold column_segments in E.
    pose proof (f_equal length E) as Hl. rewrite length_fmap, length_app in Hl. cbn in Hl.
    destruct (tree_nodes (cd_data c)) as [|n r]; [cbn in Hl; lia|]. f_equal. cbn [length] in *. lia.
  - apply segment_at_ok. rewrite E, lookup_app_r by lia. by rewrite Nat.sub_diag.
Qed.

(** Replacing the last segment by one with the same start. *)
Lemma put_last_ok c l seg seg' :
  column_ok F U (recount c) → column_segments c = l ++ [seg] → segment_ok seg' → seg_start seg' = seg_start seg →
  ∃ data, put_segment c (length l) seg' = Ok data ∧
    column_segments (set_data c (cd_count c) data) = l ++ [seg'] ∧ column_ok F U (recount (set_data c (cd_count c) data)).
Proof.
  intros Hc E Hseg Hst. destruct (column_nodes _ Hc) as (Hs & Hch & Hz & Hun). pose proof (co_segments _ _ _ Hc) as HF.
  cbn [recount set_data cd_data cd_start] in Hs, Hch, Hun, HF. change (column_segments (recount c)) with (column_segments c) in *.
  unfold put_segment. assert (column_segments c !! length l = Some seg) as Hl by (rewrite E, lookup_app_r by lia; by rewrite Nat.sub_diag).
  unfold column_segments in Hl. rewrite list_lookup_fmap in Hl. destruct (tree_nodes (cd_data c) !! length l) as [n|] eqn:En; [|done].
  injection Hl as Hn. rewrite (vget_lookup _ _ _ En). cbn [mbind result_bind]. eexists. split; [done|].
  assert (node <$> <[length l := mkSegmentNode (row_start n) seg']> (tree_nodes (cd_data c)) = l ++ [seg']) as Eseg.
  { rewrite list_fmap_insert. cbn. fold (column_segments c). rewrite E. by rewrite insert_app_r_alt, Nat.sub_diag by lia. }
  split; [exact Eseg|]. unfold recount. cbn [set_data cd_data cd_count cd_type cd_start cd_stats cd_updates allocation_size].
  assert (column_segments (set_data c (cd_count c) (mkTree (<[length l := mkSegmentNode (row_start n) seg']> (tree_nodes (cd_data c))) (finished_loading (cd_data c)) (unloaded (cd_data c)))) = l ++ [seg']) as -> by exact Eseg.
  rewrite Hun. apply (nodes_ok _ _ (l ++ [seg'])); [done | | | | |done].
  - apply Forall_insert; [done|]. cbn. pose proof (proj1 (Forall_lookup _ _) Hs _ _ En) as H. cbn in H. cbn. rewrite H, Hn. by rewrite Hst.
  - rewrite E in Hch. apply contiguous_app in Hch as [H1 [H2 _]]. apply contiguous_app. split; [done|]. split; [|done]. cbn in *. congruence.
  - rewrite E in HF. apply Forall_app in HF as [H1 _]. apply Forall_app. split; [done|]. by constructor.
  - rewrite E in Hz. by rewrite !length_app in *.
Qed.

(** ** Rows and zone maps after an append *)

(** The statistics of every segment cover its rows, among those in [known]. *)
Definition zone_ok (known : nat → Prop) (c : ColumnData A T) : Prop :=
  ∀ i s r x, column_segments c !! i = Some s → (r < seg_count s)%nat → known (seg_start s - cd_start c + r)%nat →
    segment_rows s !! r = Some x → covers_row (seg_stats s) x.

(** [c'] is [c] with the rows [offset ..< offset + n] of [d] behind it. *)
Record grown (d : UnifiedVectorFormat Z) (offset n : nat) (c c' : ColumnData A T) : Prop := {
  gr_count : rows_of (column_segments c') = (rows_of (column_segments c) + n)%nat;
  gr_old : ∀ j, (j < rows_of (column_segments c))%nat → column_rows F U c' !! j = column_rows F U c !! j;
  gr_new : ∀ j, (j < n)%nat → column_rows F U c' !! (rows_of (column_segments c) + j)%nat = source_row d (offset + j);
  gr_zone : ∀ known, zone_ok known c → (∀ j, (j < n)%nat → known (rows_of (column_segments c) + j)%nat → counted d (offset + j)) → zone_ok known c';
}.

Lemma grown_trans d offset k n c1 c2 c3 :
  grown d offset k c1 c2 → grown d (offset + k) n c2 c3 → grown d offset (k + n) c1 c3.
Proof.
  intros [A1 A2 A3 A4] [B1 B2 B3 B4]. split.
  - lia.
  - intros j Hj. rewrite B2 by lia. by apply A2.
  - intros j Hj. destruct (decide (j < k)%nat) as [Hk|Hk]; [rewrite B2 by lia; by apply A3|].
    replace (rows_of (column_segments c1) + j)%nat with (rows_of (column_segments c2) + (j - k))%nat by lia. rewrite B3 by lia. f_equal. lia.
  - intros known Hz Hn. apply B4; [apply A4; [done|]|].
    + intros j Hj. apply Hn. lia.
    + intros j Hj Hkn. replace (offset + k + j)%nat with (offset + (k + j))%nat by lia. apply Hn; [lia|].
      by replace (rows_of (column_segments c1) + (k + j))%nat with (rows_of (column_segments c2) + j)%nat by lia.
Qed.

Lemma rows_of_snoc (l : list (ColumnSegment A)) seg : rows_of (l ++ [seg]) = (rows_of l + seg_count seg)%nat.
Proof. unfold rows_of. rewrite sum_list_with_app. cbn. lia. Qed.

Lemma concat_rows_length (l : list (ColumnSegment A)) : Forall segment_ok l → length (concat (segment_rows <$> l)) = rows_of l.
Proof.
  unfold rows_of. induction 1 as [|a l Ha _ IH]; [done|]. cbn. rewrite length_app, rows_length by done. by rewrite IH.
Qed.

(** An append to the last segment. *)
Lemma append_last_ok c l seg d offset n :
  column_ok F U (recount c) → column_segments c = l ++ [seg] → source_ok d (offset + n) →
  let k := Nat.min n (capacity (seg_size seg) - seg_count seg) in
  ∃ seg' data, append F seg d offset n = Ok (seg', k) ∧ put_segment c (length l) seg' = Ok data ∧
    let c' := set_data c (cd_count c) data in
    column_segments c' = l ++ [seg'] ∧ column_ok F U (recount c') ∧ grown d offset k c c' ∧
    seg_start seg' = seg_start seg ∧ seg_count seg' = (seg_count seg + k)%nat ∧
    (∀ j x, (j < k)%nat → counted d (offset + j) → source_row d (offset + j) = Some x → covers_row (seg_stats seg') x).
Proof.
  intros Hc E Hd k. pose proof (co_segments _ _ _ Hc) as HF. change (column_segments (recount c)) with (column_segments c) in HF. rewrite E in HF.
  apply Forall_app in HF as [HFl HFs]. apply Forall_cons in HFs as [Hseg _].
  destruct (append_law seg d offset n Hseg Hd) as (seg' & Ha & Hseg' & Hst & Hsz & Hcnt & Hold & Hnew & Hmono & Hcov).
  destruct (put_last_ok c l seg seg' Hc E Hseg' Hst) as (data & Hput & Eseg & Hc'). exists seg', data. split; [done|]. split; [done|]. cbv zeta.
  split_and!; try done. fold k in Hcnt, Hnew, Hcov. pose proof (concat_rows_length l HFl) as Hll.
  destruct (column_nodes _ Hc) as (_ & Hch & _). cbn [recount set_data cd_start] in Hch. change (column_segments (recount c)) with (column_segments c) in Hch.
  rewrite E in Hch. apply contiguous_app in Hch as [_ [Hlast _]]. cbn in Hlast.
  split; unfold column_rows; rewrite ?Eseg, ?E, ?rows_of_snoc, ?fmap_app, ?concat_app; cbn [fmap list_fmap concat]; rewrite ?app_nil_r.
  - lia.
  - intros j Hj. destruct (decide (j < rows_of l)%nat); [by rewrite !lookup_app_l by lia|]. rewrite !lookup_app_r by lia. apply Hold. lia.
  - intros j Hj. rewrite lookup_app_r by lia. rewrite Hll. replace (rows_of l + seg_count seg + j - rows_of l)%nat with (seg_count seg + j)%nat by lia. by apply Hnew.
  - intros known Hz Hk i s r x Hi Hr Hkn Hx. rewrite Eseg in Hi. cbn [set_data cd_start] in Hkn. apply lookup_app_Some in Hi as [Hi|[Hge Hi]].
    + apply (Hz i s r x); try done. rewrite E. by apply lookup_app_l_Some.
    + apply list_lookup_singleton_Some in Hi as [_ <-]. destruct (decide (r < seg_count seg)%nat) as [Hlt|Hge'].
      * apply Hmono. rewrite Hold in Hx by done. apply (Hz (length l) seg r x); try done; [rewrite E, lookup_app_r by lia; by rewrite Nat.sub_diag | by rewrite <- Hst].
      * replace r with (seg_count seg + (r - seg_count seg))%nat in Hx by lia. rewrite Hnew in Hx by lia. apply (Hcov (r - seg_count seg)%nat); [lia | | done].
        apply Hk; [lia|]. replace (rows_of l + seg_count seg + (r - seg_count seg))%nat with (seg_start seg' - cd_start c + r)%nat; [done|]. rewrite Hst, Hlast. lia.
Qed.

(** A new empty segment changes no row. *)
Lemma grown_empty d offset c c' seg :
  column_segments c' = column_segments c ++ [seg] → cd_start c' = cd_start c → seg_count seg = O → segment_ok seg → grown d offset 0 c c'.
Proof.
  intros E Hs H0 Hseg. assert (segment_rows seg = []) as Er by (apply length_zero_iff_nil; by rewrite rows_length).
  split; unfold column_rows; rewrite ?E, ?rows_of_snoc, ?fmap_app, ?concat_app; cbn [fmap list_fmap concat]; rewrite ?Er, ?app_nil_r; try done.
  - lia.
  - lia.
  - intros known Hz _ i s r x Hi Hr Hkn Hx. rewrite E in Hi. rewrite Hs in Hkn. apply lookup_app_Some in Hi as [Hi|[_ Hi]]; [by apply (Hz i s r x)|].
    apply list_lookup_singleton_Some in Hi as [_ <-]. lia.
Qed.

(** ** [AppendData] *)

Section Merge.
Context (Q : BaseStatistics → Prop) (R : BaseStatistics → BaseStatistics → Prop) (C : BaseStatistics → T → Prop).
Hypothesis HT : ∀ s1 s2 s3, R s1 s2 → R s2 s3 → R s1 s3.
Hypothesis HC : ∀ s s' x, R s s' → C s x → C s' x.
Hypothesis Hmerge : ∀ s seg, segment_ok seg → Q s → ∃ s', Merge s (seg_stats seg) = Ok s' ∧ Q s' ∧ R s s' ∧ (∀ x, covers_row (seg_stats seg) x → C s' x).

Lemma append_segments_ok fuel : ∀ c stats l seg d offset n,
  column_ok F U (recount c) → type_fits (cd_type c) → column_segments c = l ++ [seg] → source_ok d (offset + n) →
  Z.of_nat (length (column_segments c)) + Z.of_nat fuel < 2 ^ 63 →
  (n < fuel)%nat → (n = 0 ∨ seg_count seg < capacity (seg_size seg) ∨ n + 1 < fuel)%nat → Q stats →
  ∃ c' stats' l' seg', append_segments F fuel c stats (length l) d offset n = Ok (c', stats', length l') ∧
    column_segments c' = l' ++ [seg'] ∧ column_ok F U (recount c') ∧ same_column c c' ∧ grown d offset n c c' ∧ Q stats' ∧ R stats stats' ∧
    ∀ j x, (j < n)%nat → counted d (offset + j) → source_row d (offset + j) = Some x → C stats' x.
Proof.
  induction fuel as [|fuel IH]; intros c stats l seg d offset n Hc Ht E Hd Hz Hf Hroom HQ; [lia|]. cbn [append_segments].
  rewrite (proj2 (last_segment_ok c l seg E)). cbn [mbind result_bind]. unfold ColumnSegment_Append.
  destruct (append_last_ok c l seg d offset n Hc E Hd) as (seg1 & data & -> & Hput & E1 & Hc1 & Hg & Hst1 & Hcnt1 & Hcov).
  cbn [mbind result_bind]. rewrite Hput. cbn [mbind result_bind]. set (k := Nat.min n _) in *. set (c1 := set_data c (cd_count c) data) in *.
  assert (segment_ok seg1) as Hseg1.
  { pose proof (co_segments _ _ _ Hc1) as HF. change (column_segments (recount c1)) with (column_segments c1) in HF. rewrite E1 in HF.
    apply Forall_app in HF as [_ HF]. by apply Forall_cons in HF as [? _]. }
  destruct (Hmerge stats seg1 Hseg1 HQ) as (stats1 & -> & HQ1 & HR1 & HC1). cbn [mbind result_bind].
  assert (same_column c c1) as Hsame by done.
  destruct (Nat.eqb_spec k n) as [Hkn|Hkn].
  - exists c1, stats1, l, seg1. rewrite Hkn in *. split_and!; try done. intros j x Hj Hcount Hx. eapply HC1, Hcov; done.
  - assert (seg_start seg1 + seg_count seg1 = cd_start c1 + rows_of (column_segments c1))%nat as ->.
    { destruct (column_nodes _ Hc1) as (_ & Hch & _). cbn [recount set_data cd_start] in Hch. change (column_segments (recount c1)) with (column_segments c1) in Hch.
      rewrite E1 in Hch |- *. apply contiguous_app in Hch as [_ [Hlast _]]. rewrite rows_of_snoc. cbn in Hlast |- *. lia. }
    destruct (AppendTransientSegment_ok c1 Hc1 Ht) as (c2 & seg2 & -> & Hc2 & E2 & Hsame2 & Hseg2 & _ & H0 & Hcap & _).
    { rewrite E1, length_app. rewrite E, length_app in Hz. cbn in *. lia. }
    cbn [mbind result_bind]. destruct (last_segment_ok c2 _ _ E2) as [-> _]. cbn [mbind result_bind].
    destruct (IH c2 stats1 (column_segments c1) seg2 d (offset + k)%nat (n - k)%nat) as (c3 & stats3 & l3 & seg3 & -> & E3 & Hc3 & Hsame3 & Hg3 & HQ3 & HR3 & HC3);
      [done | by rewrite (sm_type _ _ Hsame2) | done | by replace (offset + k + (n - k))%nat with (offset + n)%nat by (unfold k; lia) | | | lia | done|].
    { rewrite E2, E1, !length_app. rewrite E, length_app in Hz. cbn in *. lia. }
    { unfold k in *. lia. }
    exists c3, stats3, l3, seg3. split_and!; try done.
    + eapply same_column_trans; [|done]. by eapply same_column_trans.
    + replace n with (k + (n - k))%nat by (unfold k; lia). eapply grown_trans; [done|].
      apply (grown_trans d (offset + k) 0 (n - k) c1 c2 c3); [apply (grown_empty _ _ _ _ seg2); [done | apply Hsame2 | done | done]|]. by rewrite Nat.add_0_r.
    + by eapply HT.
    + intros j x Hj Hcount Hx. destruct (decide (j < k)%nat) as [Hjk|Hjk].
      * eapply HC; [done|]. eapply HC1, (Hcov j); done.
      * apply (HC3 (j - k)%nat); [lia | | ]; by replace (offset + k + (j - k))%nat with (offset + j)%nat by lia.
Qed.

(** [AppendData] appends all rows and extends the statistics. *)
Lemma AppendData_ok c stats l seg d n :
  column_ok F U c → type_fits (cd_type c) → column_segments c = l ++ [seg] → source_ok d n →
  Z.of_nat (length (column_segments c)) + Z.of_nat n + 2 < 2 ^ 63 → Q stats →
  ∃ c' stats' l' seg', AppendData F c stats (length l) d n = Ok (c', stats', length l') ∧
    column_segments c' = l' ++ [seg'] ∧ column_ok F U c' ∧ cd_count c' = (cd_count c + n)%nat ∧ cd_type c' = cd_type c ∧ cd_start c' = cd_start c ∧
    cd_updates c' = cd_updates c ∧ cd_stats c' = cd_stats c ∧ grown d 0 n c c' ∧ Q stats' ∧ R stats stats' ∧
    ∀ j x, (j < n)%nat → counted d j → source_row d j = Some x → C stats' x.
Proof.
  intros Hc Ht E Hd Hz HQ. unfold AppendData. set (c0 := set_data c (cd_count c + n) (cd_data c)).
  assert (recount c0 = c) as Hr by (transitivity (recount c); [by destruct c | by apply recount_same]).
  destruct (append_segments_ok (n + 2) c0 stats l seg d 0 n) as (c' & stats' & l' & seg' & -> & E' & Hc' & [H1 H2 H3 H4 H5] & Hg & HQ' & HR' & HC');
    [by rewrite Hr | done | done | done | change (column_segments c0) with (column_segments c); lia | lia | lia | done|].
  exists c', stats', l', seg'. split; [done|].
  assert (cd_count c' = rows_of (column_segments c')) as Hcount.
  { rewrite H3, (gr_count _ _ _ _ _ Hg). change (column_segments c0) with (column_segments c). by rewrite <- (co_count _ _ _ Hc). }
  assert (recount c' = c') as Hr' by (unfold recount, set_data; rewrite <- Hcount; by destruct c').
  rewrite Hr' in Hc'. split_and!; try done. destruct Hg as [G1 G2 G3 G4]. split; done.
Qed.
End Merge.

(** ** Starting an append *)

(** [InitializeAppend] makes room for an append without changing a row. *)
Lemma InitializeAppend_ok c :
  column_ok F U c → type_fits (cd_type c) → Z.of_nat (length (column_segments c)) + 2 < 2 ^ 63 →
  ∃ c', InitializeAppend F c = Ok (c', (length (column_segments c') - 1)%nat) ∧ column_ok F U c' ∧ column_segments c' ≠ [] ∧
    (length (column_segments c') ≤ length (column_segments c) + 1)%nat ∧ same_column c c' ∧
    column_rows F U c' = column_rows F U c ∧ ∀ known, zone_ok known c → zone_ok known c'.
Proof.
  intros Hc Ht Hz. unfold InitializeAppend. destruct (column_nodes c Hc) as (_ & Hch & _ & _).
  assert (Hnew : ∃ c' seg, AppendTransientSegment F c (cd_start c + rows_of (column_segments c)) = Ok c' ∧ column_ok F U c' ∧
    column_segments c' = column_segments c ++ [seg] ∧ segment_type seg = TRANSIENT ∧ same_column c c' ∧
    column_rows F U c' = column_rows F U c ∧ ∀ known, zone_ok known c → zone_ok known c').
  { destruct (AppendTransientSegment_ok c) as (c' & seg & E & Hc' & Es & Hs & Hseg & Hty & H0 & _ & _); [by rewrite recount_same | done | lia|].
    exists c', seg. assert (cd_count c' = rows_of (column_segments c')) as Hn by (rewrite Es, rows_of_snoc, H0, <- (co_count _ _ _ Hc); destruct Hs; lia).
    assert (recount c' = c') as Hr by (unfold recount, set_data; rewrite <- Hn; by destruct c'). rewrite Hr in Hc'. split_and!; try done.
    - unfold column_rows. rewrite Es, fmap_app, concat_app. cbn. assert (segment_rows seg = []) as -> by (apply length_zero_iff_nil; by rewrite rows_length). by rewrite !app_nil_r.
    - intros known Hk i s r x Hi Hr' Hkn Hx. rewrite Es in Hi. destruct Hs as [_ Hst _ _ _]. rewrite Hst in Hkn.
      apply lookup_app_Some in Hi as [Hi|[_ Hi]]; [by apply (Hk i s r x)|]. apply list_lookup_singleton_Some in Hi as [_ <-]. lia. }
  destruct Hnew as (c' & seg & E & Hc' & Es & Hty & Hs & Hrows & Hzone). destruct (last_segment_ok c' (column_segments c) seg Es) as [L1 L2].
  assert (length (column_segments c') = length (column_segments c) + 1)%nat as Hlen by (rewrite Es, length_app; done).
  destruct (decide (column_segments c = [])) as [En|Hne].
  - assert (tree_nodes (cd_data c) = []) as En' by (by apply fmap_nil_inv in En). unfold IsEmpty, GetRootSegment, LoadNextSegment. rewrite En'. cbn [negb orb bool_decide].
    rewrite En in E, L1, L2, Hlen. unfold rows_of in E. cbn [sum_list_with] in E. rewrite Nat.add_0_r in E. rewrite bool_decide_true by done. cbn [fst snd negb orb]. rewrite ?En'. cbn [fst snd].
    rewrite bool_decide_true by done. rewrite E. cbn [mbind result_bind]. rewrite L1. cbn [mbind result_bind].
    rewrite L2. cbn [mbind result_bind]. rewrite Hty. exists c'. rewrite Hlen, En. split_and!; try done.
    by rewrite Es; destruct (column_segments c).
  - destruct (exists_last Hne) as (l & last & El). destruct (last_segment_ok c l last El) as [M1 M2].
    assert (IsEmpty false (cd_data c) = (cd_data c, false)) as ->.
    { unfold IsEmpty, GetRootSegment. unfold column_segments in Hne. destruct (tree_nodes (cd_data c)) eqn:E0; [done|]. rewrite bool_decide_false by done. cbn [fst]. rewrite E0. by rewrite bool_decide_false. }
    cbn [mbind result_bind snd]. rewrite M1. cbn [mbind result_bind]. rewrite M2. cbn [mbind result_bind].
    assert (length l = length (column_segments c) - 1)%nat as Hll by (rewrite El, length_app; cbn; lia).
    destruct (segment_type last) eqn:Ety; [exists c; rewrite Hll; split_and!; try done; lia|].
    assert (seg_start last + seg_count last = cd_start c + rows_of (column_segments c))%nat as ->.
    { rewrite El, rows_of_snoc. rewrite El in Hch. apply contiguous_app in Hch as [_ [H _]]. cbn in H. lia. }
    rewrite E. cbn [mbind result_bind]. rewrite L1. cbn [mbind result_bind]. exists c'. split_and!; try done; [do 2 f_equal; lia | by rewrite Es; destruct (column_segments c) | lia].
Qed.

(** ** Reverting *)

Lemma EraseSegments_ok c i s :
  column_ok F U c → column_segments c !! i = Some s →
  ∃ data, EraseSegments false (cd_data c) i = Ok data ∧ node <$> tree_nodes data = take (i + 1) (column_segments c) ∧
    tree_nodes data = take (i + 1) (tree_nodes (cd_data c)) ∧ unloaded data = [].
Proof.
  intros Hc Hi. destruct (column_nodes c Hc) as (_ & _ & Hz & Hun). unfold EraseSegments, LoadAllSegments. cbn [negb mbind result_bind].
  pose proof (lookup_lt_Some _ _ _ Hi) as Hlt. assert (length (tree_nodes (cd_data c)) = length (column_segments c)) as El by (unfold column_segments; by rewrite length_fmap).
  rewrite El, wrapu_small by lia. destruct (Z.leb_spec (Z.of_nat (length (column_segments c)) - 1) (Z.of_nat i)) as [H|H].
  - exists (cd_data c). split_and!; [done | | | done]; rewrite take_ge by lia; done.
  - eexists. split; [done|]. cbn. split_and!; [by rewrite fmap_take | done | done].
Qed.

Lemma contiguous_take start (l : list (ColumnSegment A)) i : contiguous start l → contiguous start (take i l).
Proof. intros H. rewrite <- (take_drop i l) in H. by apply contiguous_app in H as [H _]. Qed.

(** Reverting to a row keeps the rows before it. *)
Lemma RevertAppend_ok c start_row :
  column_ok F U c → column_segments c ≠ [] → (cd_start c ≤ start_row ≤ cd_start c + cd_count c)%nat →
  ∃ c', RevertAppend F c start_row = Ok c' ∧ column_ok F U c' ∧ column_rows F U c' = take (start_row - cd_start c) (column_rows F U c) ∧
    cd_count c' = (start_row - cd_start c)%nat ∧ cd_type c' = cd_type c ∧ cd_start c' = cd_start c ∧ cd_updates c' = cd_updates c ∧ cd_stats c' = cd_stats c ∧
    column_segments c' ≠ [] ∧ ∀ known, zone_ok known c → zone_ok known c'.
Proof.
  intros Hc Hne Hr. destruct (column_nodes c Hc) as (Hs & Hch & Hz & Hun). destruct (exists_last Hne) as (l & last & E).
  unfold RevertAppend. destruct (last_segment_ok c l last E) as [La Lb]. rewrite La. cbn [mbind result_bind]. rewrite Lb. cbn [mbind result_bind].
  assert (seg_start last + seg_count last = cd_start c + cd_count c)%nat as Hend.
  { rewrite (co_count _ _ _ Hc), E, rows_of_snoc. rewrite E in Hch. apply contiguous_app in Hch as [_ [H _]]. cbn in H. lia. }
  rewrite Hend. destruct (Nat.leb_spec (cd_start c + cd_count c) start_row) as [Hle|Hgt].
  { exists c. split_and!; try done; [|lia]. rewrite take_ge; [done|]. rewrite (column_rows_length F U c Hc). lia. }
  destruct (column_tree F U c Hc) as [Hseg _].
  destruct (GetSegmentIndex_ok false (cd_start c) (cd_data c) start_row) as (t & i & n & -> & _ & _ & _ & Hi & Hh);
    [apply Hc | rewrite Hseg, <- (co_count _ _ _ Hc); lia|]. rewrite Hseg in Hi. cbn [mbind result_bind].
  destruct (EraseSegments_ok c i (node n) Hc Hi) as (data & -> & Edata & Enodes & Eun). cbn [mbind result_bind].
  set (c1 := set_data c (start_row - cd_start c) data). pose proof (take_S_r _ _ _ Hi) as Etake. rewrite <- Nat.add_1_r in Etake.
  set (l1 := take i (column_segments c)) in *. assert (length l1 = i) as Hl1 by (apply length_take_le; pose proof (lookup_lt_Some _ _ _ Hi); lia).
  assert (column_segments c1 = l1 ++ [node n]) as E1 by (unfold c1, column_segments; cbn; by rewrite Edata, Etake).
  pose proof (co_segments _ _ _ Hc) as HF.
  assert (column_ok F U (recount c1)) as Hc1.
  { unfold recount. rewrite E1. unfold c1. cbn [set_data cd_data]. destruct data as [nodes fl un]. cbn [tree_nodes unloaded] in *. subst un.
    apply (nodes_ok _ _ (l1 ++ [node n])); [by rewrite <- Etake, <- Edata | | | | |done].
    - rewrite Enodes. by apply Forall_take.
    - rewrite <- Etake. by apply contiguous_take.
    - rewrite <- Etake. by apply Forall_take.
    - rewrite <- Etake, length_take. lia. }
  rewrite <- Hl1. destruct (last_segment_ok c1 l1 (node n) E1) as [_ ->]. cbn [mbind result_bind].
  pose proof (segment_nth_ok F U c i (node n) Hc Hi) as Hsegn. destruct Hh as [Hh1 Hh2]. cbn in Hh1, Hh2.
  destruct (revert_law (node n) start_row Hsegn) as (seg' & -> & Hseg' & Hst' & _ & Hcnt' & Hrows' & Hstats'); [lia|]. cbn [mbind result_bind].
  destruct (put_last_ok c1 l1 (node n) seg' Hc1 E1 Hseg' Hst') as (data' & -> & E' & Hc'). cbn [mbind result_bind]. eexists. split; [done|].
  pose proof (contiguous_start _ _ _ _ Hch Hi) as Hstart. cbn in Hstart. fold l1 in Hstart.
  assert (recount (set_data c1 (cd_count c1) data') = set_data c1 (cd_count c1) data') as Hrec.
  { unfold recount. rewrite E', rows_of_snoc. cbn [set_data cd_data cd_count cd_type cd_start cd_stats cd_updates allocation_size]. f_equal. unfold c1. cbn. lia. }
  rewrite Hrec in Hc'. split_and!; try done; [|rewrite E'; by destruct l1|].
  2: { intros known Hk j s r x Hj Hlt Hkn Hx. rewrite E' in Hj. cbn [set_data cd_start] in Hkn. change (cd_start c1) with (cd_start c) in Hkn. apply lookup_app_Some in Hj as [Hj|[_ Hj]].
       - apply (Hk j s r x); try done. by apply lookup_take_Some in Hj as [? _].
       - apply list_lookup_singleton_Some in Hj as [_ <-]. rewrite Hstats'. rewrite Hrows', lookup_take_lt in Hx by lia. rewrite Hst' in Hkn.
         apply (Hk i (node n) r x); try done. lia. }
  unfold column_rows. rewrite E', fmap_app, concat_app. cbn [fmap list_fmap concat]. rewrite app_nil_r, Hrows'.
  rewrite <- (take_drop_middle (column_segments c) i (node n) Hi). fold l1. rewrite fmap_app, concat_app, fmap_cons. cbn [concat].
  assert (length (concat (segment_rows <$> l1)) = rows_of l1) as Hlen by (apply concat_rows_length; by apply Forall_take).
  rewrite take_app, (take_ge (concat _)) by lia. f_equal. rewrite Hlen.
  replace (start_row - cd_start c - rows_of l1)%nat with (start_row - seg_start (node n))%nat by lia.
  rewrite take_app, rows_length by done. replace (start_row - seg_start (node n) - seg_count (node n))%nat with O by lia. by rewrite app_nil_r.
Qed.
End Append.
