(* ===== verification/StandardColumn.v ===== *)
(** Columns of numbers ([src/storage/table/standard_column_data.cpp]): a column
    of values with its validity column, and the column sketches.

    The two columns write the data and the mask of the same result vector. *)
From S2P Require Import Prelude Bits SelectionVector Types Stats NumericStats BaseStatistics ColumnSketch ValidityMask ChunkInfo RowVersionManager.
From S2P Require Import TableFilter UpdateSegment UncompressedSegment SegmentTree ColumnData.

(** [segment_sketches] and [vector_sels] have one entry per sketched vector. *)
Record StandardColumnData : Type := mkStandard {
  sd_base : ColumnData Z Z;
  sd_validity : ColumnData Z bool;
  is_sketched : bool;
  segment_sketches : list (option BaseColumnSketch);
  vector_sels : list ManagedSelection
}.

(** The scan state and that of the validity column, [child_states[0]]. *)
Record StandardScanState : Type := mkStandardScan { sst_base : ColumnScanState; sst_validity : ColumnScanState }.

(** A scan of the validity column writes the mask of the vector. *)
Definition mask_vector (res : FlatVector Z) : FlatVector bool := mkFlat [] (flat_validity res).
Definition put_mask (res : FlatVector Z) (m : FlatVector bool) : FlatVector Z := mkFlat (flat_data res) (flat_validity m).

Section Standard.
Context (F : CompressionFunction Z Z) (U : UpdateFunctions Z).
Abbreviation VF := ValidityGetFunction.
Abbreviation VU := validity_functions.

(** * Scans *)

Definition Standard_GetVectorScanType (c : StandardColumnData) (st : StandardScanState) (scan_count : nat) : result ScanVectorType :=
  scan_type ← GetVectorScanType (sd_base c) (sst_base st) scan_count;
  match scan_type with
  | SCAN_FLAT_VECTOR => Ok SCAN_FLAT_VECTOR
  | SCAN_ENTIRE_VECTOR => GetVectorScanType (sd_validity c) (sst_validity st) scan_count
  end.

Definition Standard_InitializeScan (c : StandardColumnData) (st : StandardScanState) : result StandardScanState :=
  base ← InitializeScan (sd_base c) (sst_base st);
  validity ← InitializeScan (sd_validity c) (sst_validity st);
  Ok (mkStandardScan base validity).

Definition Standard_InitializeScanWithOffset (c : StandardColumnData) (st : StandardScanState) (row_idx : nat) : result StandardScanState :=
  base ← InitializeScanWithOffset (sd_base c) (sst_base st) row_idx;
  validity ← InitializeScanWithOffset (sd_validity c) (sst_validity st) row_idx;
  Ok (mkStandardScan base validity).

Definition Standard_Scan (c : StandardColumnData) (t : TransactionData) (vector_index : nat) (st : StandardScanState) (res : FlatVector Z)
    (target_count : nat) : result (StandardScanState * FlatVector Z * nat) :=
  scan_type ← Standard_GetVectorScanType c st target_count;
  '(base, res, scan_count) ← ColumnData_Scan F U (sd_base c) t vector_index (sst_base st) res target_count scan_type;
  scan_type ← GetVectorScanType (sd_validity c) (sst_validity st) target_count;
  '(validity, m, _) ← ColumnData_Scan VF VU (sd_validity c) t vector_index (sst_validity st) (mask_vector res) target_count scan_type;
  Ok (mkStandardScan base validity, put_mask res m, scan_count).

Definition Standard_ScanCommitted (c : StandardColumnData) (vector_index : nat) (st : StandardScanState) (res : FlatVector Z)
    (allow_updates : bool) (target_count : nat) : result (StandardScanState * FlatVector Z * nat) :=
  scan_type ← Standard_GetVectorScanType c st target_count;
  '(base, res, scan_count) ← ColumnData_ScanCommitted F U (sd_base c) vector_index (sst_base st) res allow_updates target_count scan_type;
  scan_type ← GetVectorScanType (sd_validity c) (sst_validity st) target_count;
  '(validity, m, _) ← ColumnData_ScanCommitted VF VU (sd_validity c) vector_index (sst_validity st) (mask_vector res) allow_updates target_count scan_type;
  Ok (mkStandardScan base validity, put_mask res m, scan_count).

(** [ColumnData::Scan] and [ScanCommitted] without a count: the vector up to
    the end of the column. *)
Definition Standard_ScanVector (c : StandardColumnData) (t : TransactionData) (vector_index : nat) (st : StandardScanState) (res : FlatVector Z)
    : result (StandardScanState * FlatVector Z * nat) :=
  Standard_Scan c t vector_index st res (GetVectorCount (sd_base c) vector_index).
Definition Standard_ScanVectorCommitted (c : StandardColumnData) (vector_index : nat) (st : StandardScanState) (res : FlatVector Z)
    (allow_updates : bool) : result (StandardScanState * FlatVector Z * nat) :=
  Standard_ScanCommitted c vector_index st res allow_updates (GetVectorCount (sd_base c) vector_index).

Definition Standard_ScanCount (c : StandardColumnData) (st : StandardScanState) (res : FlatVector Z) (count : nat)
    : result (StandardScanState * FlatVector Z * nat) :=
  '(base, res, scan_count) ← ScanCount F (sd_base c) (sst_base st) res count;
  '(validity, m, _) ← ScanCount VF (sd_validity c) (sst_validity st) (mask_vector res) count;
  Ok (mkStandardScan base validity, put_mask res m, scan_count).

(** [Skip]: [ColumnScanState::Next] on both states. *)
Definition Standard_Skip (c : StandardColumnData) (st : StandardScanState) (count : nat) : result StandardScanState :=
  base ← NextInternal (sd_base c) (sst_base st) count;
  validity ← NextInternal (sd_validity c) (sst_validity st) count;
  Ok (mkStandardScan base validity).

(** A vector after a scan as the filters read it; [scan_count] rows. *)
Definition ToUnifiedFormat (type : LogicalType) (res : FlatVector Z) : FilterVector :=
  mkFV type SelectionVector_null (C_num (flat_data res))
    (match validity_mask (flat_validity res) with
     | None => None
     | Some l => Some (mask_bit l <$> seq 0 (BITS_PER_VALUE * length l))
     end) [].

(** [Select]: the scan and the rows of [sel] that pass the filter. *)
Definition Standard_Select (c : StandardColumnData) (t : TransactionData) (vector_index : nat) (st : StandardScanState) (res : FlatVector Z)
    (sel : SelectionVector) (s_count : nat) (filter : TableFilter) : result (StandardScanState * FlatVector Z * SelectionVector * nat) :=
  '(st, res, _) ← Standard_ScanVector c t vector_index st res;
  '(sel, s_count) ← FilterSelection filter (ToUnifiedFormat (cd_type (sd_base c)) res) sel s_count;
  Ok (st, res, sel, s_count).

(** * Row fetches *)

Definition Standard_Fetch (c : StandardColumnData) (st : StandardScanState) (row_id : nat) (res : FlatVector Z)
    : result (StandardScanState * FlatVector Z * nat) :=
  '(base, res, scan_count) ← Fetch F (sd_base c) (sst_base st) row_id res;
  '(validity, m, _) ← Fetch VF (sd_validity c) (sst_validity st) row_id (mask_vector res);
  Ok (mkStandardScan base validity, put_mask res m, scan_count).

Definition Standard_FetchRow (c : StandardColumnData) (t : TransactionData) (row_id : nat) (res : FlatVector Z) (result_idx : nat)
    : result (FlatVector Z) :=
  m ← ColumnData_FetchRow VF VU (sd_validity c) t row_id (mask_vector res) result_idx;
  ColumnData_FetchRow F U (sd_base c) t row_id (put_mask res m) result_idx.

(** * Appends *)

Definition with_columns (c : StandardColumnData) (base : ColumnData Z Z) (validity : ColumnData Z bool) : StandardColumnData :=
  mkStandard base validity (is_sketched c) (segment_sketches c) (vector_sels c).

(** [InitializeAppend]: the current segments of the two columns. *)
Definition Standard_InitializeAppend (c : StandardColumnData) : result (StandardColumnData * (nat * nat)) :=
  '(base, i) ← InitializeAppend F (sd_base c);
  '(validity, j) ← InitializeAppend VF (sd_validity c);
  Ok (with_columns c base validity, (i, j)).

Definition Standard_AppendData (c : StandardColumnData) (stats : BaseStatistics) (st : nat * nat) (vdata : UnifiedVectorFormat Z) (count : nat)
    : result (StandardColumnData * BaseStatistics * (nat * nat)) :=
  '(base, stats, i) ← AppendData F (sd_base c) stats st.1 vdata count;
  '(validity, stats, j) ← AppendData VF (sd_validity c) stats st.2 vdata count;
  Ok (with_columns c base validity, stats, (i, j)).

(** [Append]: the statistics of the column are those the append extends. *)
Definition Standard_Append (c : StandardColumnData) (st : nat * nat) (vdata : UnifiedVectorFormat Z) (count : nat)
    : result (StandardColumnData * (nat * nat)) :=
  match cd_stats (sd_base c) with
  | None => Throw (InternalException "ColumnData::Append called on a column with a parent or without stats")
  | Some stats =>
      '(c, stats, st) ← Standard_AppendData c stats st vdata count;
      let base := sd_base c in
      Ok (with_columns c (mkColumn (cd_type base) (cd_start base) (cd_count base) (cd_data base) (Some stats) (cd_updates base) (allocation_size base))
            (sd_validity c), st)
  end.

Definition Standard_RevertAppend (c : StandardColumnData) (start_row : nat) : result StandardColumnData :=
  base ← RevertAppend F (sd_base c) start_row;
  validity ← RevertAppend VF (sd_validity c) start_row;
  Ok (with_columns c base validity).

Definition Standard_SetStart (c : StandardColumnData) (new_start : nat) : result StandardColumnData :=
  base ← SetStart (sd_base c) new_start;
  validity ← SetStart (sd_validity c) new_start;
  Ok (with_columns c base validity).

(** * Updates *)

(** [Update]: first the values, then the validity; both fetch the base rows
    into a fresh vector [base].  [addresses] are those of the two update
    infos. *)
Definition Standard_Update (c : StandardColumnData) (t : TransactionData) (has_transaction : bool) (addresses : nat * nat) (column_index : nat)
    (base update : FlatVector Z) (row_ids : list Z) (update_count : nat) : StandardColumnData * result unit :=
  let fresh := mkStandardScan fresh_scan fresh_scan in
  let fetch_values row_id := '(_, res, _) ← Standard_Fetch c fresh row_id base; Ok res in
  let '(values, outcome) :=
    ColumnData_Update U fetch_values (sd_base c) t has_transaction addresses.1 column_index update row_ids update_count in
  let c := with_columns c values (sd_validity c) in
  match outcome with
  | Throw e => (c, Throw e)
  | Ok _ =>
      let fetch_mask row_id := '(_, m, _) ← Fetch VF (sd_validity c) fresh_scan row_id (mask_vector base); Ok m in
      let '(validity, outcome) :=
        ColumnData_Update VU fetch_mask (sd_validity c) t has_transaction addresses.2 column_index (mask_vector update) row_ids update_count in
      (with_columns c (sd_base c) validity, outcome)
  end.

Definition Standard_GetUpdateStatistics (c : StandardColumnData) : result (option BaseStatistics) :=
  let stats := GetUpdateStatistics (sd_base c) in
  let validity_stats := GetUpdateStatistics (sd_validity c) in
  match stats, validity_stats with
  | None, None => Ok None
  | Some s, None => Ok (Some s)
  | None, Some v => s ← CreateEmpty (cd_type (sd_base c)); s ← Merge s v; Ok (Some s)
  | Some s, Some v => s ← Merge s v; Ok (Some s)
  end.

(** * Zone maps and sketches *)

Definition set_checked (st : ColumnScanState) : ColumnScanState :=
  mkColumnScan (current st) (row_index st) (internal_index st) (ColumnData.initialized st) true (force_fetch_row st).

(** [CheckZonemap]: [false] when no row of the current segment passes. *)
Definition Standard_CheckZonemap (c : StandardColumnData) (st : StandardScanState) (filter : TableFilter) : result (StandardScanState * bool) :=
  let base := sst_base st in
  if segment_checked base then Ok (st, true)
  else match current base with
       | None => Ok (st, true)
       | Some i =>
           let st := mkStandardScan (set_checked base) (sst_validity st) in
           seg ← segment_at (sd_base c) i;
           prune_result ← CheckStatistics filter (seg_stats seg);
           if negb (bool_decide (prune_result = FILTER_ALWAYS_FALSE)) then Ok (st, true)
           else match cd_updates (sd_base c) with
                | None => Ok (st, false)
                | Some us =>
                    prune_result ← CheckStatistics filter (us_stats us);
                    Ok (st, negb (bool_decide (prune_result = FILTER_ALWAYS_FALSE)))
                end
       end.

Definition Standard_CheckSketch (c : StandardColumnData) (st : StandardScanState) (filter : TableFilter) (index : nat)
    : result (StandardColumnData * bool) :=
  if is_sketched c then
    match current (sst_base st) with
    | None => Ok (c, true)
    | Some i =>
        seg ← segment_at (sd_base c) i;
        '(prune_result, sels) ← CheckSketchStatistics index (segment_sketches c) filter (seg_stats seg) (vector_sels c);
        Ok (mkStandard (sd_base c) (sd_validity c) (is_sketched c) (segment_sketches c) sels,
            negb (bool_decide (prune_result = FILTER_ALWAYS_FALSE)))
    end
  else Ok (c, true).
End Standard.
