(* ===== verification/StandardFacts.v ===== *)
(** Columns of numbers: a scan returns the value of every row, with its
    validity, as the transaction sees it; single rows agree with scans; appended
    rows can be read back, and the zone maps cover them. *)
From S2P Require Import Prelude Bits SelectionVector ColumnSketch Types Stats NumericStats NumericFacts BaseStatistics StatsFacts StatsCreate TableFilter ValidityMask MaskFacts.
From S2P Require Import ChunkInfo RowVersionManager VersionFacts UpdateSegment UpdateFacts UpdateLaws UpdateChain UpdateSteps UpdateSystem UncompressedAppend UncompressedSegment SegmentLaws SegmentTree.
From S2P Require Import ColumnData ColumnFacts ColumnAppend StandardColumn.

#[local] Opaque ROW_GROUP_VECTOR_COUNT.

(** * The values of a vector *)

(** Row [j] of a flat vector: [Some None] is NULL. *)
Definition vector_value (res : FlatVector Z) (j : nat) : option (option Z) :=
  if valid_at (flat_validity res) j then Some <$> flat_data res !! j else Some None.

(** A vector a scan can write to: [STANDARD_VECTOR_SIZE] rows, all valid. *)
Record fresh_vector (res : FlatVector Z) : Prop := {
  fv_length : (SVS ≤ length (flat_data res))%nat;
  fv_covers : mask_covers (flat_validity res) SVS;
  fv_target : (SVS ≤ target_count (flat_validity res))%nat;
  fv_valid : ∀ q, (q < SVS)%nat → valid_at (flat_validity res) q = true;
}.

(** The first [k] rows of the vector can be read and are given by [value]. *)
Record reads (res : FlatVector Z) (k : nat) (value : nat → option (option Z)) : Prop := {
  rd_data : (k ≤ length (flat_data res))%nat;
  rd_mask : mask_covers (flat_validity res) k;
  rd_value : ∀ j, (j < k)%nat → vector_value res j = value j;
}.

Section Standard.
Context (ty : LogicalType) (null_value uninitialised : Z) (type_size : nat).
Hypothesis Htype : type_ok ty.
Hypothesis Hstats : GetStatsType ty = NUMERIC_STATS.
Hypothesis Hextremes : has_extremes ty = true.
Hypothesis Hsize : GetTypeIdSize (InternalType ty) = Ok type_size.

Abbreviation NF := (FixedSizeGetFunction (InternalType ty) null_value uninitialised type_size).
Abbreviation NU := (update_functions (Update_number (InternalType ty))).
Abbreviation VF := ValidityGetFunction.
Abbreviation VU := validity_functions.

#[local] Instance number_update_laws : UpdateLaws NU := number_functions ty Hstats.
#[local] Instance number_segment_laws : SegmentLaws NF number_update_laws :=
  number_segments ty null_value uninitialised type_size Htype Hstats Hextremes Hsize.

(** * Scans of the values leave the mask alone *)

Lemma scan_rows_mask seg st n (res res' : FlatVector Z) off sty :
  scan_rows NF seg st n res off sty = Ok res' → flat_validity res' = flat_validity res.
Proof.
  unfold scan_rows. destruct (force_fetch_row st).
  - intros H. refine (foldM_inv _ (λ r, flat_validity r = flat_validity res) res _ res' eq_refl _ H). intros s i s'' _ <-.
    unfold ColumnSegment_FetchRow, NF. cbn [fetch_row]. unfold with_data. intros (d & _ & [= <-])%bind_Ok_inv. done.
  - destruct sty; cbn [ColumnSegment_Scan scan_vector scan_partial].
    + by intros [= <-].
    + unfold with_data. by intros (d & _ & [= <-])%bind_Ok_inv.
Qed.

Lemma scan_segments_mask fuel (c : ColumnData Z Z) : ∀ st res initial remaining sty st' res' n,
  scan_segments NF fuel c st res initial remaining sty = Ok (st', res', n) → flat_validity res' = flat_validity res.
Proof.
  induction fuel as [|fuel IH]; intros st res initial remaining sty st' res' n; cbn [scan_segments]; destruct (Nat.eqb remaining 0).
  1,3: by intros [= _ <- _].
  1: done.
  intros (seg & _ & (res1 & H1 & H)%bind_Ok_inv)%bind_Ok_inv.
  assert (flat_validity res1 = flat_validity res) as E1.
  { destruct (0 <? _)%nat; [by eapply scan_rows_mask | by injection H1 as ->]. }
  rewrite <- E1. clear H1 E1. destruct (0 <? remaining - _)%nat; [|by injection H as _ <- _]. destruct (current _) as [i|]; [|done].
  destruct (Next _ i); [by eapply IH | by injection H as _ <- _].
Qed.

Lemma ScanVectorUpdates_mask committed allow (c : ColumnData Z Z) t v st res n sty st' res' k :
  ScanVectorUpdates NF NU committed allow c t v st res n sty = Ok (st', res', k) → flat_validity res' = flat_validity res.
Proof.
  unfold ScanVectorUpdates, ScanVector. intros ([[st1 res1] n1] & (seg & _ & ([[st2 res2] n2] & H2 & [= <- <- <-])%bind_Ok_inv)%bind_Ok_inv & (res3 & H3 & [= _ <- _])%bind_Ok_inv)%bind_Ok_inv.
  apply scan_segments_mask in H2. rewrite <- H2. unfold FetchUpdates in H3. destruct (cd_updates c) as [us|]; [|by injection H3 as ->].
  apply bind_Ok_inv in H3 as (b & _ & H3). destruct b; [done|].
  destruct committed; [unfold UpdateSegment_FetchCommitted in H3 | unfold UpdateSegment_FetchUpdates in H3];
    apply bind_Ok_inv in H3 as ([nd|] & _ & H3); try (by injection H3 as ->);
    cbn [fetch_committed_function fetch_update_function update_functions value_functions] in H3;
    [unfold TemplatedFetchCommitted, with_data in H3 | unfold UpdateMergeFetch, with_data in H3]; apply bind_Ok_inv in H3 as (d & _ & H3); by injection H3 as <-.
Qed.

(** * Columns *)

Record standard_ok (c : StandardColumnData) : Prop := {
  so_base : column_ok NF NU (sd_base c);
  so_validity : column_ok VF VU (sd_validity c);
  so_updates : updates_ok (sd_base c);
  so_mask_updates : updates_ok (sd_validity c);
  so_start : cd_start (sd_validity c) = cd_start (sd_base c);
  so_count : cd_count (sd_validity c) = cd_count (sd_base c);
  so_max : (cd_count (sd_base c) ≤ ROW_GROUP_VECTOR_COUNT * SVS)%nat;
  so_type : cd_type (sd_base c) = ty;
}.

(** The value of a row, counted from the start of the column. *)
Definition standard_value (committed : bool) (c : StandardColumnData) (t : TransactionData) (row : nat) : option (option Z) :=
  match column_value VF VU committed (sd_validity c) t row with
  | Some true => Some <$> column_value NF NU committed (sd_base c) t row
  | Some false => Some None
  | None => None
  end.

Definition standard_cursor (c : StandardColumnData) (st : StandardScanState) (row : nat) : Prop :=
  cursor (sd_base c) (sst_base st) ∧ cursor (sd_validity c) (sst_validity st) ∧
  ((row < cd_count (sd_base c))%nat → current (sst_base st) ≠ None ∧ current (sst_validity st) ≠ None ∧
    row_index (sst_base st) = (cd_start (sd_base c) + row)%nat ∧ row_index (sst_validity st) = (cd_start (sd_base c) + row)%nat).

Lemma fresh_data res : fresh_vector res → @view_ok _ NU _ res.
Proof. intros [H1 H2 _ _]. by split. Qed.

Lemma Standard_GetVectorScanType_ok c st n row : standard_cursor c st row → (row < cd_count (sd_base c))%nat →
  ∃ sty, Standard_GetVectorScanType c st n = Ok sty ∧ scan_type_ok (sd_base c) (sst_base st) n sty.
Proof.
  intros (Hb & Hv & Hrow) Hlt. destruct (Hrow Hlt) as (Hb1 & Hv1 & _ & _). unfold Standard_GetVectorScanType.
  destruct (GetVectorScanType_ok (sd_base c) (sst_base st) n Hb Hb1) as (sty & -> & Hsty). cbn [mbind result_bind].
  destruct sty; [|by exists SCAN_FLAT_VECTOR].
  destruct (GetVectorScanType_ok (sd_validity c) (sst_validity st) n Hv Hv1) as (sty' & -> & _). exists sty'. split; [done|].
  destruct sty'; [exact Hsty | done].
Qed.

(** The combined scan of values and validity, committed or not. *)
Lemma scan_both_ok committed c t v st res n :
  standard_ok c → fresh_vector res → standard_cursor c st (v * SVS) → (v * SVS < cd_count (sd_base c))%nat → (n ≤ SVS)%nat →
  let k := Nat.min n (cd_count (sd_base c) - v * SVS) in
  ∃ sty base res1 sty' validity m,
    Standard_GetVectorScanType c st n = Ok sty ∧
    ScanVectorUpdates NF NU committed true (sd_base c) t v (sst_base st) res n sty = Ok (base, res1, k) ∧
    GetVectorScanType (sd_validity c) (sst_validity st) n = Ok sty' ∧
    ScanVectorUpdates VF VU committed true (sd_validity c) t v (sst_validity st) (mask_vector res1) n sty' = Ok (validity, m, k) ∧
    scanned (sd_base c) (sst_base st) base k ∧ scanned (sd_validity c) (sst_validity st) validity k ∧
    reads (put_mask res1 m) k (λ j, standard_value committed c t (v * SVS + j)).
Proof.
  intros Hc Hres Hcur Hlt Hn k. destruct (Standard_GetVectorScanType_ok c st n _ Hcur Hlt) as (sty & Hsty & Hok).
  destruct Hcur as (Hb & Hv & Hrow). destruct (Hrow Hlt) as (Hb1 & Hv1 & Hr1 & Hr2). destruct Hc as [C1 C2 C3 C4 C5 C6 C7 C8].
  assert (v < ROW_GROUP_VECTOR_COUNT)%nat as Hvi by nia.
  destruct (ScanVectorUpdates_ok NF NU committed (sd_base c) t v (sst_base st) res n sty C1 C3 (fresh_data res Hres) Hb Hb1 Hr1 Hvi Hn ltac:(done) Hok)
    as (base & res1 & Hs1 & Hsc1 & _ & Hw1 & Hshow1). fold k in Hs1, Hsc1, Hw1, Hshow1.
  pose proof (ScanVectorUpdates_mask _ _ _ _ _ _ _ _ _ _ _ _ Hs1) as Hmask.
  destruct (GetVectorScanType_ok (sd_validity c) (sst_validity st) n Hv Hv1) as (sty' & Hsty' & Hok').
  assert (@view_ok _ VU _ (mask_vector res1)) as Hmv by (cbn; rewrite Hmask; split; [apply Hres | apply Hres]).
  destruct (ScanVectorUpdates_ok VF VU committed (sd_validity c) t v (sst_validity st) (mask_vector res1) n sty' C2 C4 Hmv Hv Hv1) as
    (validity & m & Hs2 & Hsc2 & _ & Hw2 & Hshow2); [by rewrite C5 | done | done | | done|].
  { intros q Hq. cbn. rewrite Hmask. by apply Hres. }
  rewrite C6 in *. fold k in Hs2, Hsc2, Hw2, Hshow2. exists sty, base, res1, sty', validity, m. split_and!; try done.
  split; cbn [put_mask flat_data flat_validity]; [exact Hw1 | exact Hw2|]. intros j Hj. specialize (Hshow1 j Hj). specialize (Hshow2 j Hj).
  unfold vector_value, standard_value. cbn [put_mask flat_data flat_validity]. rewrite <- Hshow2, <- Hshow1. cbn. by destruct (valid_at (flat_validity m) j).
Qed.

Lemma scanned_cursor c st base validity v k :
  standard_ok c → standard_cursor c st (v * SVS) → (v * SVS < cd_count (sd_base c))%nat → k = Nat.min SVS (cd_count (sd_base c) - v * SVS) →
  scanned (sd_base c) (sst_base st) base k → scanned (sd_validity c) (sst_validity st) validity k →
  standard_cursor c (mkStandardScan base validity) (S v * SVS).
Proof.
  intros Hc (_ & _ & Hrow) Hlt Hk [A1 A2 A3 _ _] [B1 B2 B3 _ _]. destruct (Hrow Hlt) as (_ & _ & Hr1 & Hr2).
  split_and!; cbn [sst_base sst_validity]; [done | done|]. intros Hnext. rewrite A3, B3, Hr1, Hr2. split_and!; try done; lia.
Qed.

(** A scan of vector [v] returns the values of its rows. *)
Lemma Standard_ScanVector_ok c t v st res :
  standard_ok c → fresh_vector res → standard_cursor c st (v * SVS) → (v * SVS < cd_count (sd_base c))%nat →
  let k := Nat.min SVS (cd_count (sd_base c) - v * SVS) in
  ∃ st' res', Standard_ScanVector NF NU c t v st res = Ok (st', res', k) ∧ standard_cursor c st' (S v * SVS) ∧
    scanned (sd_base c) (sst_base st) (sst_base st') k ∧ reads res' k (λ j, standard_value false c t (v * SVS + j)).
Proof.
  intros Hc Hres Hcur Hlt k. unfold Standard_ScanVector, GetVectorCount. rewrite min_difference_le by lia. fold k.
  destruct (scan_both_ok false c t v st res k Hc Hres Hcur Hlt ltac:(unfold k; lia)) as (sty & base & res1 & sty' & validity & m & H1 & H2 & H3 & H4 & S1 & S2 & Hr).
  assert (Nat.min k (cd_count (sd_base c) - v * SVS) = k) as Ek by (unfold k; lia). rewrite Ek in *.
  unfold Standard_Scan, ColumnData_Scan. rewrite H1. cbn [mbind result_bind]. rewrite H2. cbn [mbind result_bind]. rewrite H3. cbn [mbind result_bind]. rewrite H4.
  cbn [mbind result_bind]. eexists _, _. split; [done|]. split_and!; [exact (scanned_cursor c st base validity v k Hc Hcur Hlt eq_refl S1 S2) | exact S1 | exact Hr].
Qed.

Lemma Standard_ScanVectorCommitted_ok c v st res :
  standard_ok c → fresh_vector res → standard_cursor c st (v * SVS) → (v * SVS < cd_count (sd_base c))%nat →
  let k := Nat.min SVS (cd_count (sd_base c) - v * SVS) in
  ∃ st' res', Standard_ScanVectorCommitted NF NU c v st res true = Ok (st', res', k) ∧ standard_cursor c st' (S v * SVS) ∧
    scanned (sd_base c) (sst_base st) (sst_base st') k ∧ reads res' k (λ j, standard_value true c (mkTransaction 0 0) (v * SVS + j)).
Proof.
  intros Hc Hres Hcur Hlt k. unfold Standard_ScanVectorCommitted, GetVectorCount. rewrite min_difference_le by lia. fold k.
  destruct (scan_both_ok true c (mkTransaction 0 0) v st res k Hc Hres Hcur Hlt ltac:(unfold k; lia)) as (sty & base & res1 & sty' & validity & m & H1 & H2 & H3 & H4 & S1 & S2 & Hr).
  assert (Nat.min k (cd_count (sd_base c) - v * SVS) = k) as Ek by (unfold k; lia). rewrite Ek in *.
  unfold Standard_ScanCommitted, ColumnData_ScanCommitted. rewrite H1. cbn [mbind result_bind]. rewrite H2. cbn [mbind result_bind]. rewrite H3. cbn [mbind result_bind]. rewrite H4.
  cbn [mbind result_bind]. eexists _, _. split; [done|]. split_and!; [exact (scanned_cursor c st base validity v k Hc Hcur Hlt eq_refl S1 S2) | exact S1 | exact Hr].
Qed.

(** ** Moving on *)

Lemma Standard_Skip_ok c st v :
  standard_ok c → standard_cursor c st (v * SVS) →
  ∃ st', Standard_Skip c st SVS = Ok st' ∧ standard_cursor c st' (S v * SVS) ∧
    (segment_checked (sst_base st') = false ∨ segment_checked (sst_base st') = segment_checked (sst_base st) ∧ current (sst_base st') = current (sst_base st)).
Proof.
  intros Hc (Hb & Hv & Hrow). unfold Standard_Skip.
  destruct (NextInternal_ok NF NU (sd_base c) (sst_base st) SVS (so_base _ Hc) Hb) as (base & -> & Hb' & Hr1 & _ & Hchk). cbn [mbind result_bind].
  destruct (NextInternal_ok VF VU (sd_validity c) (sst_validity st) SVS (so_validity _ Hc) Hv) as (validity & -> & Hv' & Hr2 & _). cbn [mbind result_bind].
  eexists. split; [done|]. split; [|exact Hchk]. split_and!; cbn [sst_base sst_validity]; [done | done|]. intros Hlt.
  destruct (Hrow ltac:(lia)) as (N1 & N2 & R1 & R2). specialize (Hr1 N1). specialize (Hr2 N2). rewrite Hr1, Hr2, R1, R2.
  destruct Hc as [C1 C2 _ _ C5 C6 _ _]. unfold cursor in Hb', Hv'. rewrite C5, C6 in Hv'. rewrite Hr1, R1 in Hb'. rewrite Hr2, R2 in Hv'. split_and!; try lia.
  - destruct (current base); [done | lia].
  - destruct (current validity); [done | lia].
Qed.

(** * Single rows *)

Lemma Standard_FetchRow_ok c t row res result_idx :
  standard_ok c → (SVS ≤ length (flat_data res))%nat → mask_covers (flat_validity res) SVS → (SVS ≤ target_count (flat_validity res))%nat →
  (row < cd_count (sd_base c))%nat → (result_idx < SVS)%nat → valid_at (flat_validity res) result_idx = true →
  ∃ res', Standard_FetchRow NF NU c t (cd_start (sd_base c) + row) res result_idx = Ok res' ∧
    ((SVS ≤ length (flat_data res'))%nat ∧ mask_covers (flat_validity res') SVS ∧ (SVS ≤ target_count (flat_validity res'))%nat) ∧
    ∀ q, (q < SVS)%nat → vector_value res' q = if decide (q = result_idx) then standard_value false c t row else vector_value res q.
Proof.
  intros [C1 C2 C3 C4 C5 C6 C7 C8] Hd Hm Ht Hrow Hi Hvalid. unfold Standard_FetchRow.
  destruct (ColumnData_FetchRow_ok VF VU (sd_validity c) t row (mask_vector res) result_idx C2 C4) as (m & Hf & [Hm1 Ht1] & Hr1);
    [by rewrite C6 | by split | by rewrite C6 | done | done|]. rewrite C5 in Hf. rewrite Hf. cbn [mbind result_bind].
  destruct (ColumnData_FetchRow_ok NF NU (sd_base c) t row (put_mask res m) result_idx C1 C3) as (res' & Hf2 & Hv2 & Hr2); [done | by split | done | done | done|].
  assert (flat_validity res' = flat_validity m) as Hmask.
  { unfold ColumnData_FetchRow in Hf2. apply bind_Ok_inv in Hf2 as ([tr i] & _ & (seg & _ & (r1 & H1 & H2)%bind_Ok_inv)%bind_Ok_inv).
    unfold ColumnSegment_FetchRow in H1. cbn [fetch_row FixedSizeGetFunction] in H1. unfold with_data in H1. apply bind_Ok_inv in H1 as (d & _ & [= <-]).
    unfold FetchUpdateRow in H2. destruct (cd_updates (sd_base c)) as [us|]; [|by injection H2 as <-].
    unfold UpdateSegment_FetchRow in H2. apply bind_Ok_inv in H2 as ([nd|] & _ & H2); [|by injection H2 as <-].
    cbn [fetch_row_function update_functions value_functions] in H2. unfold TemplatedFetchRow, with_data in H2. apply bind_Ok_inv in H2 as (d' & _ & H2). by injection H2 as <-. }
  exists res'. split; [done|]. split; [rewrite Hmask; split_and!; [apply Hv2 | exact Hm1 | exact Ht1]|]. intros q Hq. specialize (Hr1 q Hq). specialize (Hr2 q Hq). unfold vector_value, standard_value. rewrite Hmask.
  cbn in Hr1, Hr2. unfold mask_view in Hr1. cbn in Hr1. unfold data_view in Hr2. cbn in Hr2. rewrite Hr2.
  destruct (decide (q = result_idx)); [rewrite <- Hr1; by destruct (valid_at (flat_validity m) q) | by injection Hr1 as ->].
Qed.
End Standard.

Section Append.
Context (ty : LogicalType) (null_value uninitialised : Z) (type_size : nat).
Hypothesis Htype : type_ok ty.
Hypothesis Hstats : GetStatsType ty = NUMERIC_STATS.
Hypothesis Hextremes : has_extremes ty = true.
Hypothesis Hsize : GetTypeIdSize (InternalType ty) = Ok type_size.

Abbreviation pt := (InternalType ty).
Abbreviation NF := (FixedSizeGetFunction pt null_value uninitialised type_size).
Abbreviation NU := (update_functions (Update_number pt)).
Abbreviation VF := ValidityGetFunction.
Abbreviation VU := validity_functions.

#[local] Instance append_update_laws : UpdateLaws NU := number_functions ty Hstats.
#[local] Instance append_segment_laws : SegmentLaws NF append_update_laws :=
  number_segments ty null_value uninitialised type_size Htype Hstats Hextremes Hsize.

(** ** Statistics of a column *)

Definition column_stats_ok (s : BaseStatistics) : Prop := stats_type s = ty ∧ child_stats s = [] ∧ ∃ lo hi, numeric_view s pt lo hi.

(** The interval of the statistics contains the value. *)
Definition in_stats (s : BaseStatistics) (x : Z) : Prop := ∃ lo hi, numeric_view s pt lo hi ∧ in_interval pt lo hi x.

(** The second statistics cover whatever the first ones do. *)
Definition widens (s s' : BaseStatistics) : Prop :=
  (∀ x, in_stats s x → in_stats s' x) ∧ (has_null s = true → has_null s' = true) ∧ (has_no_null s = true → has_no_null s' = true).

Lemma set_validity_view s n nn lo hi : numeric_view s pt lo hi → numeric_view (set_validity s n nn) pt lo hi.
Proof. intros [H1 H2 H3]. destruct s. by split. Qed.

Lemma Merge_flags s other :
  GetStatsType (stats_type s) = NUMERIC_STATS →
  Merge s other = NumericStats_Merge (set_validity s (has_null s || has_null other) (has_no_null s || has_no_null other)) other.
Proof. intros H. destruct s as [t n nn d u c]. cbn [Merge stats_type] in *. by rewrite H. Qed.

Lemma widens_trans s1 s2 s3 : widens s1 s2 → widens s2 s3 → widens s1 s3.
Proof. intros (A1 & A2 & A3) (B1 & B2 & B3). split_and!; auto. Qed.

(** Merging the statistics of a segment of values. *)
Lemma merge_values s (seg : ColumnSegment Z) :
  @segment_ok _ _ NF NU _ _ seg → column_stats_ok s →
  ∃ s', Merge s (seg_stats seg) = Ok s' ∧ column_stats_ok s' ∧ widens s s' ∧ ∀ x, stats_contain pt (seg_stats seg) x → in_stats s' x.
Proof.
  intros [_ _ (slo & shi & V) Hty _] (Ht & Hch & lo & hi & Hv). rewrite Merge_flags by (apply Hv).
  set (s1 := set_validity s _ _). assert (numeric_view s1 pt lo hi) as Hv1 by (by apply set_validity_view).
  assert (stats_type s1 = ty) as Ht1 by (unfold s1; by destruct s).
  destruct (Merge_view s1 (seg_stats seg) pt lo hi (Some slo) (Some shi) Hv1 V) as (s' & -> & Hv' & u & ->); [by rewrite Ht1|].
  eexists. split; [done|]. split_and!.
  - split_and!; [by rewrite set_union_type | unfold s1; by destruct s | eauto].
  - split; [|split].
    + intros x (lo2 & hi2 & H2 & Hx). destruct (numeric_view_unique _ _ _ _ _ _ Hv H2) as [<- <-]. eexists _, _. split; [exact Hv'|]. apply join_interval. by left.
    + intros H. unfold s1. destruct s. cbn in *. by rewrite H.
    + intros H. unfold s1. destruct s. cbn in *. by rewrite H.
  - intros x (lo2 & hi2 & H2 & Hx). unfold bounded in *. destruct (numeric_view_unique _ _ _ _ _ _ V H2) as [[= <-] [= <-]].
    eexists _, _. split; [exact Hv'|]. apply join_interval. by right.
Qed.

(** Merging the statistics of a validity segment only sets the flags. *)
Lemma merge_validity s (seg : ColumnSegment Z) :
  @segment_ok _ _ VF VU _ _ seg → column_stats_ok s →
  ∃ s', Merge s (seg_stats seg) = Ok s' ∧ column_stats_ok s' ∧ widens s s' ∧ ∀ b, validity_seen_row (seg_stats seg) b → validity_seen_row s' b.
Proof.
  intros [_ _ _ Hty _] (Ht & Hch & lo & hi & Hv). rewrite Merge_flags by (apply Hv). unfold NumericStats_Merge. rewrite bool_decide_true by done.
  eexists. split; [done|]. pose proof (set_validity_view s (has_null s || has_null (seg_stats seg)) (has_no_null s || has_no_null (seg_stats seg)) lo hi Hv) as Hv'.
  split_and!.
  - split_and!; [by destruct s | by destruct s | eauto].
  - split; [|split].
    + intros x (lo2 & hi2 & H2 & Hx). destruct (numeric_view_unique _ _ _ _ _ _ Hv H2) as [<- <-]. by eexists _, _.
    + intros H. destruct s. cbn in *. by rewrite H.
    + intros H. destruct s. cbn in *. by rewrite H.
  - intros [|]; unfold validity_seen_row; intros H; destruct s; cbn in *; rewrite H; by rewrite orb_true_r.
Qed.

(** ** The append *)

(** The value of a row without the updates. *)
Definition base_value (c : StandardColumnData) (row : nat) : option (option Z) :=
  match column_rows VF VU (sd_validity c) !! row with
  | Some true => Some <$> column_rows NF NU (sd_base c) !! row
  | Some false => Some None
  | None => None
  end.

(** Row [i] of the appended vector. *)
Definition appended_value (d : UnifiedVectorFormat Z) (i : nat) : option (option Z) :=
  if unified_valid d i then Some <$> unified_value d i else Some None.

(** The zone maps of the segments cover the values of the rows that are not
    NULL, those of the column cover all rows. *)
Record zonemaps_ok (c : StandardColumnData) : Prop := {
  zm_segments : zone_ok NF NU (λ row, column_rows VF VU (sd_validity c) !! row = Some true) (sd_base c);
  zm_column : ∀ stats row v, cd_stats (sd_base c) = Some stats → base_value c row = Some v →
    match v with Some x => in_stats stats x ∧ has_no_null stats = true | None => has_null stats = true end;
}.

(** The segments an append starts at: the last ones. *)
Definition append_at (c : StandardColumnData) : nat * nat :=
  (length (column_segments (sd_base c)) - 1, length (column_segments (sd_validity c)) - 1)%nat.

(** The number of segments stays far from the limit of the index type. *)
Definition append_room (c : StandardColumnData) (n : nat) : Prop :=
  Z.of_nat (length (column_segments (sd_base c))) + Z.of_nat n + 2 < 2 ^ 63 ∧ Z.of_nat (length (column_segments (sd_validity c))) + Z.of_nat n + 2 < 2 ^ 63.

(** A column that can be appended to. *)
Record growable (c : StandardColumnData) : Prop := {
  gw_ok : standard_ok ty null_value uninitialised type_size Htype Hstats Hextremes Hsize c;
  gw_mask : cd_type (sd_validity c) = LT VALIDITY;
  gw_base_segments : column_segments (sd_base c) ≠ [];
  gw_mask_segments : column_segments (sd_validity c) ≠ [];
  gw_stats : ∃ stats, cd_stats (sd_base c) = Some stats ∧ column_stats_ok stats;
}.

Lemma columns_append c stats d n :
  growable c → values_ok d n → column_stats_ok stats → append_room c n →
  ∃ base validity stats', let c' := with_columns c base validity in
    Standard_AppendData NF c stats (append_at c) d n = Ok (c', stats', append_at c') ∧
    column_ok NF NU base ∧ column_ok VF VU validity ∧ column_segments base ≠ [] ∧ column_segments validity ≠ [] ∧
    (cd_count base = cd_count (sd_base c) + n)%nat ∧ (cd_count validity = cd_count (sd_base c) + n)%nat ∧
    cd_type base = ty ∧ cd_type validity = LT VALIDITY ∧ cd_start base = cd_start (sd_base c) ∧ cd_start validity = cd_start (sd_base c) ∧
    cd_updates base = cd_updates (sd_base c) ∧ cd_updates validity = cd_updates (sd_validity c) ∧
    grown NF NU d 0 n (sd_base c) base ∧ grown VF VU d 0 n (sd_validity c) validity ∧ column_stats_ok stats' ∧ widens stats stats' ∧
    ∀ k, (k < n)%nat → match appended_value d k with
      | Some (Some x) => in_stats stats' x ∧ has_no_null stats' = true | Some None => has_null stats' = true | None => False end.
Proof.
  intros [[C1 C2 C3 C4 C5 C6 C7 C8] Cv Nb Nv _] Hd Hs [Hz1 Hz2]. unfold Standard_AppendData.
  destruct (exists_last Nb) as (lb & sb & Eb), (exists_last Nv) as (lv & sv & Ev).
  assert (append_at c = (length lb, length lv)) as -> by (unfold append_at; rewrite Eb, Ev, !length_app; cbn; f_equal; lia). cbn [fst snd].
  assert (∀ s s' x, widens s s' → in_stats s x → in_stats s' x) as Hmono by (intros s s' x (H & _); apply H).
  assert (∀ s s' b, widens s s' → validity_seen_row s b → validity_seen_row s' b) as Hmono2 by (intros s s' [|] (_ & H & H'); auto).
  destruct (AppendData_ok NF NU column_stats_ok widens in_stats widens_trans Hmono merge_values (sd_base c) stats lb sb d n C1) as
    (base & stats1 & l1 & s1 & -> & E1 & B1 & B2 & B3 & B4 & B5 & B6 & B7 & B8 & B9 & B10); [exact C8 | done | exact Hd | done | done|].
  cbn [mbind result_bind].
  destruct (AppendData_ok VF VU column_stats_ok widens validity_seen_row widens_trans Hmono2 merge_validity (sd_validity c) stats1 lv sv d n C2) as
    (validity & stats2 & l2 & s2 & -> & E2 & V1 & V2 & V3 & V4 & V5 & V6 & V7 & V8 & V9 & V10); [exact Cv | done | apply Hd | done | done|].
  cbn [mbind result_bind]. exists base, validity, stats2. cbn zeta.
  split; [unfold append_at; cbn [with_columns sd_base sd_validity]; rewrite E1, E2, !length_app; cbn [length]; do 3 f_equal; lia|].
  split_and!; try done; try lia; try congruence; [rewrite E1; by destruct l1 | rewrite E2; by destruct l2 | by eapply widens_trans|].
  intros k Hk. specialize (V10 k (unified_valid d k) Hk I eq_refl). unfold appended_value. destruct (unified_valid d k) eqn:E; [|exact V10].
  destruct (proj2 Hd k Hk E) as [x Hx]. rewrite Hx. cbn. split; [|exact V10].
  apply (Hmono stats1 stats2 x V9). apply (B10 k x Hk E). cbn. unfold stored_value. by rewrite E.
Qed.

(** What an append or another change leaves as it is. *)
Record same_standard (c c' : StandardColumnData) : Prop := {
  ss_start : cd_start (sd_base c') = cd_start (sd_base c);
  ss_updates : cd_updates (sd_base c') = cd_updates (sd_base c);
  ss_mask_updates : cd_updates (sd_validity c') = cd_updates (sd_validity c);
}.

(** [Append] adds the rows of the vector; the column and its zone maps stay
    in order. *)
Lemma Standard_Append_ok c d n :
  growable c → values_ok d n → append_room c n → (cd_count (sd_base c) + n ≤ ROW_GROUP_VECTOR_COUNT * SVS)%nat →
  ∃ c', Standard_Append NF c (append_at c) d n = Ok (c', append_at c') ∧
    growable c' ∧ same_standard c c' ∧ (cd_count (sd_base c') = cd_count (sd_base c) + n)%nat ∧
    (∀ row, (row < cd_count (sd_base c))%nat → base_value c' row = base_value c row) ∧
    (∀ i, (i < n)%nat → base_value c' (cd_count (sd_base c) + i) = appended_value d i) ∧
    (zonemaps_ok c → zonemaps_ok c').
Proof.
  intros Hap Hd Hroom Hmax. pose proof Hap as [[C1 C2 C3 C4 C5 C6 C7 C8] _ _ _ (stats & Hs & Hq)]. unfold Standard_Append. rewrite Hs.
  destruct (columns_append c stats d n Hap Hd Hq Hroom) as
    (base & validity & stats' & -> & B1 & V1 & Nb & Nv & B2 & V2 & B3 & V3 & B4 & V4 & B5 & V5 & Gb & Gv & Q' & W' & Hnew).
  cbn [mbind result_bind].
  pose (base' := mkColumn (cd_type base) (cd_start base) (cd_count base) (cd_data base) (Some stats') (cd_updates base) (allocation_size base)). assert (column_ok NF NU base') as B1' by (destruct B1; by split).
  assert (column_rows NF NU base' = column_rows NF NU base) as Rb by done. exists (with_columns (with_columns c base validity) base' validity). split; [done|].
  assert (Hrb : rows_of (column_segments (sd_base c)) = cd_count (sd_base c)) by (symmetry; apply C1).
  assert (Hrv : rows_of (column_segments (sd_validity c)) = cd_count (sd_base c)) by (rewrite <- C6; symmetry; apply C2).
  destruct Gb as [_ Gb1 Gb2 Gb3], Gv as [_ Gv1 Gv2 _]. rewrite Hrb in *. rewrite Hrv in *.
  assert (Hold : ∀ row, (row < cd_count (sd_base c))%nat → base_value (with_columns (with_columns c base validity) base' validity) row = base_value c row).
  { intros row Hr. unfold base_value. cbn [with_columns sd_base sd_validity]. rewrite Rb, Gv1, Gb1 by done. done. }
  assert (Hadd : ∀ k, (k < n)%nat → base_value (with_columns (with_columns c base validity) base' validity) (cd_count (sd_base c) + k) = appended_value d k).
  { intros k Hk. unfold base_value, appended_value. cbn [with_columns sd_base sd_validity]. rewrite Rb, Gv2, Gb2 by done. cbn. unfold stored_value. by destruct (unified_valid d k). }
  split_and!; try done.
  - split; try done; [|by exists stats']. split; cbn [with_columns sd_base sd_validity]; try done.
    + unfold updates_ok in *. unfold base'. cbn [cd_updates cd_start]. rewrite B5, B4. exact C3.
    + unfold updates_ok in *. rewrite V5, V4. rewrite C5 in C4. exact C4.
    + unfold base'. cbn. congruence.
    + unfold base'. cbn. congruence.
    + unfold base'. cbn. lia.
  - intros [Z1 Z2]. split.
    + cbn [with_columns sd_base sd_validity]. change (zone_ok NF NU (λ row, column_rows VF VU validity !! row = Some true) base). apply Gb3.
      * intros k s r x Hk Hr Hkn Hx. apply (Z1 k s r x Hk Hr); [|done]. rewrite Gv1 in Hkn; [done|].
        pose proof (segment_end NF NU (sd_base c) k s C1 Hk). lia.
      * intros k Hk Hv. rewrite Gv2 in Hv by done. by injection Hv as Hv.
    + intros st row v Hst Hv. cbn in Hst. injection Hst as <-. destruct (decide (row < cd_count (sd_base c))%nat) as [Hlt|Hge].
      * rewrite Hold in Hv by done. specialize (Z2 stats row v Hs Hv). destruct W' as (W1 & W2 & W3). destruct v; [destruct Z2; auto | auto].
      * assert (row < cd_count (sd_base c) + n)%nat as Hlt.
        { destruct (decide (row < cd_count (sd_base c) + n)%nat); [done|]. exfalso. unfold base_value in Hv. cbn [with_columns sd_base sd_validity] in Hv.
          rewrite lookup_ge_None_2 in Hv; [done|]. rewrite (column_rows_length VF VU validity V1). lia. }
        replace row with (cd_count (sd_base c) + (row - cd_count (sd_base c)))%nat in Hv by lia. rewrite Hadd in Hv by lia.
        specialize (Hnew (row - cd_count (sd_base c))%nat ltac:(lia)). rewrite Hv in Hnew. by destruct v.
Qed.

(** ** Starting and reverting an append *)

Lemma zonemaps_same c c' :
  zonemaps_ok c → cd_stats (sd_base c') = cd_stats (sd_base c) → (∀ row v, base_value c' row = Some v → base_value c row = Some v) →
  (∀ known, zone_ok NF NU known (sd_base c) → zone_ok NF NU known (sd_base c')) →
  (∀ row, column_rows VF VU (sd_validity c') !! row = Some true → column_rows VF VU (sd_validity c) !! row = Some true) → zonemaps_ok c'.
Proof.
  intros [Z1 Z2] Es Hv Hz Hm. split.
  - apply Hz. intros i s r x Hi Hr Hk Hx. apply (Z1 i s r x Hi Hr); [by apply Hm in Hk | done].
  - intros stats row v Hst Hb. rewrite Es in Hst. apply (Z2 stats row v Hst). by apply Hv.
Qed.

Lemma Standard_InitializeAppend_ok c stats :
  standard_ok ty null_value uninitialised type_size Htype Hstats Hextremes Hsize c → cd_type (sd_validity c) = LT VALIDITY →
  cd_stats (sd_base c) = Some stats → column_stats_ok stats → append_room c 0 →
  ∃ c', Standard_InitializeAppend NF c = Ok (c', append_at c') ∧ growable c' ∧ same_standard c c' ∧ cd_count (sd_base c') = cd_count (sd_base c) ∧
    (length (column_segments (sd_base c')) ≤ length (column_segments (sd_base c)) + 1)%nat ∧
    (length (column_segments (sd_validity c')) ≤ length (column_segments (sd_validity c)) + 1)%nat ∧
    (∀ row, base_value c' row = base_value c row) ∧ (zonemaps_ok c → zonemaps_ok c').
Proof.
  intros [C1 C2 C3 C4 C5 C6 C7 C8] Cv Hs Hq [Hr1 Hr2]. change (column_ok NF NU (sd_base c)) in C1. unfold Standard_InitializeAppend.
  destruct (InitializeAppend_ok NF NU (sd_base c) C1) as (base & -> & B1 & Nb & Lb & [Tb Sb Cb Eb Ub] & Rb & Zb); [exact C8 | lia|]. cbn [mbind result_bind].
  destruct (InitializeAppend_ok VF VU (sd_validity c) C2) as (validity & -> & V1 & Nv & Lv & [Tv Sv Cv' Ev Uv] & Rv & Zv); [exact Cv | lia|]. cbn [mbind result_bind].
  exists (with_columns c base validity). split; [done|].
  assert (Hval : ∀ row, base_value (with_columns c base validity) row = base_value c row) by (intros row; unfold base_value; cbn [with_columns sd_base sd_validity]; by rewrite Rb, Rv).
  split_and!; try done.
  - split; cbn [with_columns sd_base sd_validity]; try done; [|congruence | exists stats; split; [congruence | done]].
    split; cbn [with_columns sd_base sd_validity]; try done; try congruence.
    + unfold updates_ok in *. by rewrite Ub, Sb.
    + unfold updates_ok in *. by rewrite Uv, Sv.
  - intros Hz. apply (zonemaps_same c _ Hz); cbn [with_columns sd_base sd_validity]; try done; [|by rewrite Rv]. intros row v. by rewrite Hval.
Qed.

(** [RevertAppend] to a row keeps the rows before it. *)
Lemma Standard_RevertAppend_ok c n :
  growable c → (n ≤ cd_count (sd_base c))%nat →
  ∃ c', Standard_RevertAppend NF c (cd_start (sd_base c) + n) = Ok c' ∧ growable c' ∧ same_standard c c' ∧ cd_count (sd_base c') = n ∧
    (∀ row, base_value c' row = if decide (row < n)%nat then base_value c row else None) ∧ (zonemaps_ok c → zonemaps_ok c').
Proof.
  intros [[C1 C2 C3 C4 C5 C6 C7 C8] Cv Nb Nv (stats & Hs & Hq)] Hn. change (column_ok NF NU (sd_base c)) in C1. unfold Standard_RevertAppend.
  destruct (RevertAppend_ok NF NU (sd_base c) (cd_start (sd_base c) + n) C1 Nb) as (base & -> & B1 & Rb & Cb & Tb & Sb & Ub & Eb & Nb' & Zb); [lia|]. cbn [mbind result_bind].
  destruct (RevertAppend_ok VF VU (sd_validity c) (cd_start (sd_base c) + n) C2 Nv) as (validity & -> & V1 & Rv & Cv' & Tv & Sv & Uv & Ev & Nv' & Zv); [lia|]. cbn [mbind result_bind].
  exists (with_columns c base validity). split; [done|]. rewrite C5 in *. replace (cd_start (sd_base c) + n - cd_start (sd_base c))%nat with n in * by lia.
  assert (Hval : ∀ row, base_value (with_columns c base validity) row = if decide (row < n)%nat then base_value c row else None).
  { intros row. unfold base_value. cbn [with_columns sd_base sd_validity]. rewrite Rb, Rv. destruct (decide (row < n)%nat); [by rewrite !lookup_take_lt|]. by rewrite lookup_take_ge by lia. }
  split_and!; try done.
  - split; cbn [with_columns sd_base sd_validity]; try done; [|congruence | exists stats; split; [congruence | done]].
    split; cbn [with_columns sd_base sd_validity]; try done; try congruence.
    + unfold updates_ok in *. by rewrite Ub, Sb.
    + unfold updates_ok in *. rewrite Uv, Sv. by rewrite C5 in C4.
    + lia.
  - intros Hz. apply (zonemaps_same c _ Hz); cbn [with_columns sd_base sd_validity]; try done.
    + intros row v. rewrite Hval. by destruct (decide _).
    + intros row. rewrite Rv. intros [H _]%lookup_take_Some. done.
Qed.
End Append.
