(* ===== verification/AdaptiveFilter.v ===== *)
(** Adaptive filters ([src/execution/adaptive_filter.cpp]): the order in which a
    scan evaluates its filters, changed at run time.

    The measured times only decide whether a swap is kept; that decision and
    the random numbers are inputs. *)
From S2P Require Import Prelude TableFilter.

Record AdaptiveFilter : Type := mkAdaptive {
  permutation : list nat;
  iteration_count : nat;
  swap_idx : nat;
  right_random_border : nat;
  observe : bool;
  warmup : bool;
  swap_likeliness : list nat
}.

Definition observe_interval : nat := 10.
Definition execute_interval : nat := 20.

(** The constructor for table filters; [swap_idx] and [observe] start out
    uninitialised. *)
Definition AdaptiveFilter_new (filters : TableFilterSet) (uninitialised_idx : nat) (uninitialised_observe : bool) : AdaptiveFilter :=
  let columns := (map_to_list filters).*1 in
  mkAdaptive columns 0 uninitialised_idx (100 * (length columns - 1)) uninitialised_observe true (replicate (length columns - 1) 100%nat).

Definition swap_at {A} (l : list A) (i : nat) : result (list A) :=
  a ← vget l i; b ← vget l (i + 1); l ← vset l i b; vset l (i + 1) a.

(** One measurement.  [not_faster]: the mean time did not go down since the
    swap; [random_number]: the next random number, less than the border. *)
Definition AdaptRuntimeStatistics (a : AdaptiveFilter) (not_faster : bool) (random_number : nat) : result AdaptiveFilter :=
  let '(mkAdaptive perm iterations idx border obs warm likeliness) := a in
  let iterations := (iterations + 1)%nat in
  if negb warm then
    if obs && (iterations =? observe_interval)%nat then
      if not_faster then
        perm ← swap_at perm idx;
        l ← vget likeliness idx;
        likeliness ← (if (1 <? l)%nat then vset likeliness idx (l / 2)%nat else Ok likeliness);
        Ok (mkAdaptive perm 0 idx border false warm likeliness)
      else
        likeliness ← vset likeliness idx 100%nat;
        Ok (mkAdaptive perm 0 idx border false warm likeliness)
    else if negb obs && (iterations =? execute_interval)%nat then
      let idx := (random_number / 100)%nat in
      let likely := (random_number - 100 * idx)%nat in
      l ← vget likeliness idx;
      if (likely <? l)%nat then perm ← swap_at perm idx; Ok (mkAdaptive perm 0 idx border true warm likeliness)
      else Ok (mkAdaptive perm 0 idx border obs warm likeliness)
    else Ok (mkAdaptive perm iterations idx border obs warm likeliness)
  else if (iterations =? 5)%nat then Ok (mkAdaptive perm 0 idx border false false likeliness)
  else Ok (mkAdaptive perm iterations idx border obs warm likeliness).

(** * The order stays a permutation *)

Lemma swap_at_ok {A} (l : list A) i : (i + 1 < length l)%nat → ∃ l', swap_at l i = Ok l' ∧ l' ≡ₚ l.
Proof.
  intros Hi. unfold swap_at. destruct (lookup_lt_is_Some_2 l i) as [a Ha]; [lia|]. destruct (lookup_lt_is_Some_2 l (i + 1)) as [b Hb]; [done|].
  rewrite (vget_lookup _ _ _ Ha). cbn [mbind result_bind]. rewrite (vget_lookup _ _ _ Hb). cbn [mbind result_bind].
  rewrite vset_lt by lia. cbn [mbind result_bind]. rewrite vset_lt by (rewrite length_insert; lia). eexists. split; [done|].
  rewrite <- (take_drop_middle l i a Ha) at 2.
  assert (drop (S i) l = b :: drop (S (S i)) l) as Hd by (apply drop_S; by replace (S i) with (i + 1)%nat by lia).
  rewrite Hd. rewrite <- (take_drop_middle l i a Ha) at 1. rewrite Hd.
  assert (length (take i l) = i) as Hlen by (apply length_take_le; lia).
  rewrite (insert_app_r_alt (take i l)) by lia. rewrite Hlen, Nat.sub_diag. cbn [insert list_insert].
  rewrite insert_app_r_alt by lia. rewrite Hlen. replace (i + 1 - i)%nat with 1%nat by lia. cbn [insert list_insert]. by rewrite perm_swap.
Qed.

(** Between two filters each index can be swapped; a swap under observation
    can be undone. *)
Record adaptive_ok (a : AdaptiveFilter) (columns : list nat) : Prop := {
  ad_perm : permutation a ≡ₚ columns;
  ad_border : right_random_border a = (100 * (length columns - 1))%nat;
  ad_likeliness : length (swap_likeliness a) = (length columns - 1)%nat;
  ad_observe : warmup a = false → observe a = true → (swap_idx a + 1 < length columns)%nat;
}.

Lemma AdaptRuntimeStatistics_ok a columns not_faster random_number :
  adaptive_ok a columns → (random_number < right_random_border a)%nat →
  ∃ a', AdaptRuntimeStatistics a not_faster random_number = Ok a' ∧ adaptive_ok a' columns.
Proof.
  destruct a as [perm iterations idx border obs warm likeliness]. intros [Hp Hb Hl Ho] Hr. cbn [permutation right_random_border swap_likeliness warmup observe swap_idx] in *. unfold AdaptRuntimeStatistics.
  assert (random_number / 100 < length columns - 1)%nat as Hidx by (apply Nat.Div0.div_lt_upper_bound; lia).
  pose proof (Permutation_length Hp) as Hlen. destruct warm; cbn [negb].
  { destruct (Nat.eqb (iterations + 1) 5); eexists; (split; [done|]); by split. }
  specialize (Ho eq_refl). destruct obs; cbn [andb negb].
  - destruct (Nat.eqb (iterations + 1) observe_interval); [|eexists; split; [done|]; by split]. specialize (Ho eq_refl). destruct not_faster.
    + destruct (swap_at_ok perm idx) as (perm' & -> & Hp'); [lia|]. cbn [mbind result_bind].
      destruct (lookup_lt_is_Some_2 likeliness idx) as [l Hi]; [lia|]. rewrite (vget_lookup _ _ _ Hi). cbn [mbind result_bind].
      destruct (1 <? l)%nat; [rewrite vset_lt by lia|]; cbn [mbind result_bind]; eexists; (split; [done|]); split; cbn [permutation right_random_border swap_likeliness warmup observe swap_idx];
        rewrite ?length_insert; try done; by rewrite Hp'.
    + rewrite vset_lt by lia. cbn [mbind result_bind]. eexists. split; [done|]. split; cbn [permutation right_random_border swap_likeliness warmup observe swap_idx]; rewrite ?length_insert; done.
  - destruct (Nat.eqb (iterations + 1) execute_interval); [|eexists; split; [done|]; by split].
    destruct (lookup_lt_is_Some_2 likeliness (random_number / 100)) as [l Hi]; [lia|]. rewrite (vget_lookup _ _ _ Hi). cbn [mbind result_bind].
    destruct (_ <? l)%nat; [|eexists; split; [done|]; by split].
    destruct (swap_at_ok perm (random_number / 100)) as (perm' & -> & Hp'); [lia|]. cbn [mbind result_bind]. eexists. split; [done|].
    split; cbn [permutation right_random_border swap_likeliness warmup observe swap_idx]; [by rewrite Hp' | done | done | intros _ _; lia].
Qed.

Lemma AdaptiveFilter_new_ok filters i o : adaptive_ok (AdaptiveFilter_new filters i o) (map_to_list filters).*1.
Proof. unfold AdaptiveFilter_new. split; cbn [permutation right_random_border swap_likeliness warmup observe swap_idx]; [done | done | by rewrite length_replicate | done]. Qed.
