(* ===== verification/RowGroup.v ===== *)
(** Row groups ([src/storage/table/row_group.cpp]): the scan of a row group with
    zone maps, column sketches, row versions and pushed-down filters, the scan
    of its committed rows, row fetches, appends and their versions, sketched
    appends, and updates.

    The columns hold numbers.  A column id is [None] for
    [COLUMN_IDENTIFIER_ROW_ID]; the chunk a scan fills is given by its empty
    vectors, to which [Reset] goes back.  Deletions are stored with the row
    versions; a row group holds them in memory. *)
From S2P Require Import Prelude Bits SelectionVector ColumnSketch Types Stats NumericStats BaseStatistics TableFilter ValidityMask ChunkInfo RowVersionManager UpdateSegment TransactionManager.
From S2P Require Import UncompressedSegment SegmentTree ColumnData StandardColumn AdaptiveFilter.

Record RowGroup : Type := mkRowGroup {
  rg_start : nat;
  rg_count : nat;
  rg_columns : list StandardColumnData;
  version_info : option RowVersionManager;
  rg_allocation_size : nat
}.

Definition set_columns (rg : RowGroup) (columns : list StandardColumnData) : RowGroup :=
  mkRowGroup (rg_start rg) (rg_count rg) columns (version_info rg) (rg_allocation_size rg).

(** [TableScanState]; the adaptive filter exists when there are filters. *)
Record TableScanState : Type := mkTableScan {
  column_ids : list (option nat);
  table_filters : option TableFilterSet
}.

(** [CollectionScanState]; the row group is given by its index in the table. *)
Record CollectionScanState : Type := mkCollectionScan {
  cs_row_group : option nat;
  vector_index : nat;
  max_row_group_row : nat;
  max_row : nat;
  column_scans : list StandardScanState
}.

Definition set_scans (st : CollectionScanState) (scans : list StandardScanState) : CollectionScanState :=
  mkCollectionScan (cs_row_group st) (vector_index st) (max_row_group_row st) (max_row st) scans.
Definition next_index (st : CollectionScanState) : CollectionScanState :=
  mkCollectionScan (cs_row_group st) (vector_index st + 1) (max_row_group_row st) (max_row st) (column_scans st).

(** The vectors of a result chunk. *)
Inductive ResultVector : Type :=
  | RV_flat (v : FlatVector Z)
  | RV_dictionary (v : FlatVector Z) (sel : SelectionVector)
  | RV_sequence (start : Z).

Definition Vector_Slice (v : ResultVector) (sel : SelectionVector) : result ResultVector :=
  match v with
  | RV_flat v => Ok (RV_dictionary v sel)
  | _ => Throw (Unmodelled "slice of a vector that is not flat")
  end.

Definition flat_vector (v : ResultVector) : result (FlatVector Z) :=
  match v with RV_flat v => Ok v | _ => Throw (Unmodelled "scan into a vector that is not flat") end.

Inductive TableScanType : Type :=
  | TABLE_SCAN_REGULAR
  | TABLE_SCAN_COMMITTED_ROWS
  | TABLE_SCAN_COMMITTED_ROWS_DISALLOW_UPDATES
  | TABLE_SCAN_COMMITTED_ROWS_OMIT_PERMANENTLY_DELETED
  | TABLE_SCAN_LATEST_COMMITTED_ROWS.
#[export] Instance TableScanType_eq_dec : EqDecision TableScanType.
Proof. solve_decision. Defined.

Section RowGroups.
Context (null_value : PhysicalType → Z) (uninitialised : Z).

(** The functions of a column, by its type. *)
Definition type_size (pt : PhysicalType) : nat := match GetTypeIdSize pt with Ok n => n | Throw _ => O end.
Definition column_codec (c : StandardColumnData) : CompressionFunction Z Z :=
  let pt := InternalType (cd_type (sd_base c)) in FixedSizeGetFunction pt (null_value pt) uninitialised (type_size pt).
Definition column_updates (c : StandardColumnData) : UpdateFunctions Z := update_functions (Update_number (InternalType (cd_type (sd_base c)))).

(** [GetColumn]: there is no column for the row id. *)
Definition GetColumn (rg : RowGroup) (c : option nat) : result StandardColumnData :=
  match c with Some i => vget (rg_columns rg) i | None => out_of_range end.

(** * Starting a scan *)

(** [CheckZonemap], over the entries of the filter set. *)
Fixpoint check_filters (rg : RowGroup) (ids : list (option nat)) (entries : list (nat * TableFilter)) : result bool :=
  match entries with
  | [] => Ok true
  | (column_index, filter) :: entries =>
      base_column_index ← vget ids column_index;
      c ← GetColumn rg base_column_index;
      read ← CheckZonemap_column (sd_base c) filter;
      if (read : bool) then check_filters rg ids entries else Ok false
  end.

Definition RowGroup_CheckZonemap (rg : RowGroup) (filters : TableFilterSet) (ids : list (option nat)) : result bool :=
  check_filters rg ids (map_to_list filters).

(** The scans of all columns, changed one by one. *)
Fixpoint map_scans (f : option nat → StandardScanState → result StandardScanState) (ids : list (option nat)) (scans : list StandardScanState)
    : result (list StandardScanState) :=
  match ids, scans with
  | [], _ => Ok scans
  | id :: ids, st :: scans => st ← f id st; scans ← map_scans f ids scans; Ok (st :: scans)
  | _ :: _, [] => out_of_range
  end.

Definition null_scan (st : StandardScanState) : StandardScanState :=
  mkStandardScan (mkColumnScan None (row_index (sst_base st)) (internal_index (sst_base st)) (ColumnData.initialized (sst_base st))
                    (segment_checked (sst_base st)) (force_fetch_row (sst_base st))) (sst_validity st).

(** [InitializeScan] of the row group with index [self]: the state, and whether
    the row group is scanned. *)
Definition RowGroup_InitializeScan (self : nat) (rg : RowGroup) (ts : TableScanState) (st : CollectionScanState) : result (CollectionScanState * bool) :=
  read ← match table_filters ts with Some filters => RowGroup_CheckZonemap rg filters (column_ids ts) | None => Ok true end;
  if negb (read : bool) then Ok (st, false)
  else
    let rows := if (max_row st <? rg_start rg)%nat then O else Nat.min (rg_count rg) (max_row st - rg_start rg) in
    let st := mkCollectionScan (Some self) 0 rows (max_row st) (column_scans st) in
    if (rows =? 0)%nat then Ok (st, false)
    else
      scans ← map_scans (λ id cs, match id with
                                  | Some _ => c ← GetColumn rg id; Standard_InitializeScan c cs
                                  | None => Ok (null_scan cs)
                                  end) (column_ids ts) (column_scans st);
      Ok (set_scans st scans, true).

Definition RowGroup_InitializeScanWithOffset (self : nat) (rg : RowGroup) (ts : TableScanState) (st : CollectionScanState) (vector_offset : nat)
    : result (CollectionScanState * bool) :=
  read ← match table_filters ts with Some filters => RowGroup_CheckZonemap rg filters (column_ids ts) | None => Ok true end;
  if negb (read : bool) then Ok (st, false)
  else
    let rows := if (max_row st <? rg_start rg)%nat then O else Nat.min (rg_count rg) (max_row st - rg_start rg) in
    let st := mkCollectionScan (Some self) vector_offset rows (max_row st) (column_scans st) in
    let row_number := (rg_start rg + vector_offset * STANDARD_VECTOR_SIZE)%nat in
    if (rows =? 0)%nat then Ok (st, false)
    else
      scans ← map_scans (λ id cs, match id with
                                  | Some _ => c ← GetColumn rg id; Standard_InitializeScanWithOffset c cs row_number
                                  | None => Ok (null_scan cs)
                                  end) (column_ids ts) (column_scans st);
      Ok (set_scans st scans, true).

(** [NextVector]. *)
Definition NextVector (rg : RowGroup) (ts : TableScanState) (st : CollectionScanState) : result CollectionScanState :=
  scans ← map_scans (λ id cs, match id with
                              | Some _ => c ← GetColumn rg id; Standard_Skip c cs STANDARD_VECTOR_SIZE
                              | None => Ok cs
                              end) (column_ids ts) (column_scans st);
  Ok (next_index (set_scans st scans)).

(** * Skipping segments *)

(** [GetFilterScanCount]: the first row after the current segment; columns of
    numbers have no child states for a struct filter. *)
Definition max_scan_count (count : TableFilter → result nat) : list TableFilter → nat → result nat :=
  fix max_of fs max_count :=
    match fs with
    | [] => Ok max_count
    | f :: fs => n ← count f; max_of fs (Nat.max n max_count)
    end.

Fixpoint GetFilterScanCount (c : StandardColumnData) (st : StandardScanState) (filter : TableFilter) : result nat :=
  match filter with
  | StructFilter _ _ _ => out_of_range
  | ConjunctionAndFilter fs | ConjunctionOrFilter fs => max_scan_count (GetFilterScanCount c st) fs O
  | IsNullFilter | IsNotNullFilter | ConstantFilter _ _ =>
      seg ← current_segment (sd_base c) (sst_base st); Ok (seg_start seg + seg_count seg)%nat
  end.

Fixpoint next_vectors (n : nat) (rg : RowGroup) (ts : TableScanState) (st : CollectionScanState) : result CollectionScanState :=
  match n with O => Ok st | S n => st ← NextVector rg ts st; next_vectors n rg ts st end.

Definition target_vector (rg : RowGroup) (ts : TableScanState) (st : CollectionScanState) (c : StandardColumnData) (cs : StandardScanState)
    (filter : TableFilter) : result nat :=
  target_row ← GetFilterScanCount c cs filter;
  let target_row := if (max_row st <=? target_row)%nat then max_row st else target_row in
  Ok ((target_row - rg_start rg) / STANDARD_VECTOR_SIZE)%nat.

(** [CheckZonemapSegments], over the entries of the filter set. *)
Fixpoint check_segments (rg : RowGroup) (ts : TableScanState) (entries : list (nat * TableFilter)) (st : CollectionScanState)
    : result (CollectionScanState * bool) :=
  match entries with
  | [] => Ok (st, true)
  | (column_idx, filter) :: entries =>
      base_column_idx ← vget (column_ids ts) column_idx;
      c ← GetColumn rg base_column_idx;
      cs ← vget (column_scans st) column_idx;
      '(cs, read_segment) ← Standard_CheckZonemap c cs filter;
      scans ← vset (column_scans st) column_idx cs;
      let st := set_scans st scans in
      if (read_segment : bool) then check_segments rg ts entries st
      else
        target ← target_vector rg ts st c cs filter;
        if (vector_index st =? target)%nat then Ok (st, true)
        else st ← next_vectors (target - vector_index st) rg ts st; Ok (st, false)
  end.

Definition CheckZonemapSegments (rg : RowGroup) (ts : TableScanState) (st : CollectionScanState) : result (CollectionScanState * bool) :=
  match table_filters ts with
  | None => Ok (st, true)
  | Some filters => check_segments rg ts (map_to_list filters) st
  end.

(** [CheckSketchSegments], over the entries of the filter set. *)
Fixpoint check_sketches (rg : RowGroup) (ts : TableScanState) (entries : list (nat * TableFilter)) (st : CollectionScanState)
    : result (RowGroup * CollectionScanState * bool) :=
  match entries with
  | [] => Ok (rg, st, true)
  | (column_idx, filter) :: entries =>
      base_column_idx ← vget (column_ids ts) column_idx;
      c ← GetColumn rg base_column_idx;
      cs ← vget (column_scans st) column_idx;
      '(c, read_segment) ← Standard_CheckSketch c cs filter (vector_index st);
      columns ← match base_column_idx with Some i => vset (rg_columns rg) i c | None => out_of_range end;
      let rg := set_columns rg columns in
      if (read_segment : bool) then check_sketches rg ts entries st
      else
        target ← target_vector rg ts st c cs filter;
        if (vector_index st =? target)%nat then Ok (rg, st, true)
        else st ← (if (vector_index st <? target)%nat then NextVector rg ts st else Ok st); Ok (rg, st, false)
  end.

Definition CheckSketchSegments (rg : RowGroup) (ts : TableScanState) (st : CollectionScanState) : result (RowGroup * CollectionScanState * bool) :=
  match table_filters ts with
  | None => Ok (rg, st, true)
  | Some filters => check_sketches rg ts (map_to_list filters) st
  end.

(** [can_sketch]: every scanned column has sketches. *)
Fixpoint can_sketch (rg : RowGroup) (ids : list (option nat)) : result bool :=
  match ids with
  | [] => Ok true
  | id :: ids => c ← GetColumn rg id; if negb (is_sketched c) then Ok false else can_sketch rg ids
  end.

(** * One vector *)

Definition RowGroup_GetSelVector (rg : RowGroup) (t : TransactionData) (vector_idx : nat) (sel : SelectionVector) (max_count : nat)
    : result (SelectionVector * nat) :=
  match version_info rg with None => Ok (sel, max_count) | Some vinfo => Manager_GetSelVector vinfo t vector_idx sel max_count end.
Definition RowGroup_GetCommittedSelVector (rg : RowGroup) (start_time transaction_id : Z) (vector_idx : nat) (sel : SelectionVector) (max_count : nat)
    : result (SelectionVector * nat) :=
  match version_info rg with
  | None => Ok (sel, max_count)
  | Some vinfo => Manager_GetCommittedSelVector vinfo start_time transaction_id vector_idx sel max_count
  end.

Definition ALLOW_UPDATES (type : TableScanType) : bool :=
  match type with TABLE_SCAN_COMMITTED_ROWS_DISALLOW_UPDATES | TABLE_SCAN_COMMITTED_ROWS_OMIT_PERMANENTLY_DELETED => false | _ => true end.

(** The scans that ask the version manager for the rows to load. *)
Definition reads_versions (type : TableScanType) : bool :=
  match type with TABLE_SCAN_REGULAR | TABLE_SCAN_COMMITTED_ROWS_OMIT_PERMANENTLY_DELETED => true | _ => false end.

(** The scan of one column of the chunk. *)
Definition scan_column (type : TableScanType) (rg : RowGroup) (t : TransactionData) (v : nat) (id : option nat) (cs : StandardScanState)
    (res : ResultVector) : result (StandardScanState * FlatVector Z) :=
  c ← GetColumn rg id;
  flat ← flat_vector res;
  '(cs, flat, _) ← (if bool_decide (type = TABLE_SCAN_REGULAR)
                    then Standard_ScanVector (column_codec c) (column_updates c) c t v cs flat
                    else Standard_ScanVectorCommitted (column_codec c) (column_updates c) c v cs flat (ALLOW_UPDATES type));
  Ok (cs, flat).

(** A loop over the columns of the chunk; [f] gets the position of the column. *)
Fixpoint map_columns (f : nat → option nat → StandardScanState → ResultVector → result (StandardScanState * ResultVector)) (i : nat)
    (ids : list (option nat)) (scans : list StandardScanState) (vs : list ResultVector) : result (list StandardScanState * list ResultVector) :=
  match ids, scans, vs with
  | [], _, _ => Ok (scans, vs)
  | id :: ids, cs :: scans, v :: vs =>
      '(cs, v) ← f i id cs v; '(scans, vs) ← map_columns f (S i) ids scans vs; Ok (cs :: scans, v :: vs)
  | _, _, _ => out_of_range
  end.

(** The full scan: no deletions and no filters. *)
Definition scan_full (type : TableScanType) (rg : RowGroup) (ts : TableScanState) (t : TransactionData) (st : CollectionScanState)
    (chunk : list ResultVector) : result (list StandardScanState * list ResultVector) :=
  map_columns (λ _ id cs v,
    match id with
    | None => Ok (cs, RV_sequence (Z.of_nat (rg_start rg + vector_index st * STANDARD_VECTOR_SIZE)))
    | Some _ => '(cs, flat) ← scan_column type rg t (vector_index st) id cs v; Ok (cs, RV_flat flat)
    end) 0 (column_ids ts) (column_scans st) chunk.

(** The selection of the rows so far, the scans, the chunk. *)
Record filter_state : Type := mkFilterState {
  fs_scans : list StandardScanState;
  fs_chunk : list ResultVector;
  fs_sel : SelectionVector;
  fs_count : nat;
  fs_mask : list Z
}.

(** One filter without sketches. *)
Definition apply_filter (rg : RowGroup) (ts : TableScanState) (t : TransactionData) (v : nat) (filters : TableFilterSet)
    (fs : filter_state) (tf_idx : nat) : result filter_state :=
  col_idx ← vget (column_ids ts) tf_idx;
  c ← GetColumn rg col_idx;
  cs ← vget (fs_scans fs) tf_idx;
  res ← vget (fs_chunk fs) tf_idx;
  flat ← flat_vector res;
  filter ← match filters !! tf_idx with Some f => Ok f | None => null_segment end;
  '(cs, flat, sel, count) ← Standard_Select (column_codec c) (column_updates c) c t v cs flat (fs_sel fs) (fs_count fs) filter;
  scans ← vset (fs_scans fs) tf_idx cs;
  chunk ← vset (fs_chunk fs) tf_idx (RV_flat flat);
  Ok (mkFilterState scans chunk sel count (fs_mask fs)).

(** One filter with sketches: [i] is its position, [n] the number of filters. *)
Definition apply_sketch (rg : RowGroup) (ts : TableScanState) (t : TransactionData) (v : nat) (size n : nat) (fs : filter_state)
    (entry : nat * nat) : result filter_state :=
  let '(i, tf_idx) := entry in
  col_idx ← vget (column_ids ts) tf_idx;
  c ← GetColumn rg col_idx;
  cs ← vget (fs_scans fs) tf_idx;
  res ← vget (fs_chunk fs) tf_idx;
  flat ← flat_vector res;
  '(cs, flat, _) ← Standard_ScanVector (column_codec c) (column_updates c) c t v cs flat;
  scans ← vset (fs_scans fs) tf_idx cs;
  chunk ← vset (fs_chunk fs) tf_idx (RV_flat flat);
  msel ← vget (vector_sels c) v;
  mask ← (if (i =? 0)%nat then Ok (bitmask msel) else merge_masks (fs_mask fs) (bitmask msel));
  '(sel, count) ←
    (if (i =? n - 1)%nat then
       if (i =? 0)%nat then Ok (sel_vec msel, SelectionVector.count msel)
       else m ← BitmaskToSelection (mkMSel mask true 0 size (SelectionVector_Initialize size)); Ok (sel_vec m, SelectionVector.count m)
     else Ok (fs_sel fs, fs_count fs));
  Ok (mkFilterState scans chunk sel count mask).

Definition run_filters (sketch : bool) (rg : RowGroup) (ts : TableScanState) (t : TransactionData) (v : nat) (filters : TableFilterSet)
    (order : list nat) (fs : filter_state) : result filter_state :=
  columns ← mapR (vget order) (seq 0 (base.size filters));
  fs ← (if sketch
        then foldM (apply_sketch rg ts t v (fs_count fs) (base.size filters)) fs (imap pair columns)
        else foldM (apply_filter rg ts t v filters) fs columns);
  chunk ← foldM (λ chunk i, v ← vget chunk i; v ← Vector_Slice v (fs_sel fs); vset chunk i v) (fs_chunk fs) (map_to_list filters).*1;
  Ok (mkFilterState (fs_scans fs) chunk (fs_sel fs) (fs_count fs) (fs_mask fs)).

Definition has_filter (ts : TableScanState) (i : nat) : bool :=
  match table_filters ts with Some filters => bool_decide (is_Some (filters !! i)) | None => false end.

(** All rows were filtered out: skip the columns that were not scanned. *)
Definition skip_unfiltered (rg : RowGroup) (ts : TableScanState) (scans : list StandardScanState) : result (list StandardScanState) :=
  '(scans, _) ← map_columns (λ i id cs v,
    match id with
    | None => Ok (cs, v)
    | Some _ => if has_filter ts i then Ok (cs, v) else c ← GetColumn rg id; cs ← Standard_Skip c cs STANDARD_VECTOR_SIZE; Ok (cs, v)
    end) 0 (column_ids ts) scans (replicate (length (column_ids ts)) (RV_sequence 0));
  Ok scans.

(** The row ids of the selected rows. *)
Definition selected_row_ids (first : Z) (sel : SelectionVector) (count : nat) (v : FlatVector Z) : result (FlatVector Z) :=
  data ← foldM (λ d i, idx ← get_index sel i; vset d i (first + idx)) (flat_data v) (seq 0 count);
  Ok (mkFlat data (flat_validity v)).

(** The columns without filters, restricted to the selected rows. *)
Definition scan_unfiltered (type : TableScanType) (rg : RowGroup) (ts : TableScanState) (t : TransactionData) (st : CollectionScanState)
    (fs : filter_state) : result (list StandardScanState * list ResultVector) :=
  map_columns (λ i id cs v,
    if has_filter ts i then Ok (cs, v)
    else match id with
         | None =>
             flat ← flat_vector v;
             flat ← selected_row_ids (Z.of_nat (rg_start rg + vector_index st * STANDARD_VECTOR_SIZE)) (fs_sel fs) (fs_count fs) flat;
             Ok (cs, RV_flat flat)
         | Some _ => '(cs, flat) ← scan_column type rg t (vector_index st) id cs v; Ok (cs, RV_dictionary flat (fs_sel fs))
         end) 0 (column_ids ts) (fs_scans fs) (fs_chunk fs).

(** * The scan *)

(** [TemplatedScan]: the row group (its sketch selections change), the state,
    the order of the filters, and the chunk with its size, 0 when the row group
    is finished.  [measurement] is what the adaptive filter observes if this
    call returns filtered rows; every iteration moves to a later vector. *)
Fixpoint scan_loop (fuel : nat) (type : TableScanType) (rg : RowGroup) (ts : TableScanState) (a : AdaptiveFilter) (measurement : bool * nat)
    (t : TransactionData) (st : CollectionScanState) (fresh : list ResultVector)
    : result (RowGroup * CollectionScanState * AdaptiveFilter * list ResultVector * nat) :=
  if (max_row_group_row st <=? vector_index st * STANDARD_VECTOR_SIZE)%nat then Ok (rg, st, a, fresh, O)
  else match fuel with
  | O => Throw OutOfFuel
  | S fuel =>
      let current_row := (vector_index st * STANDARD_VECTOR_SIZE)%nat in
      let max_count := Nat.min STANDARD_VECTOR_SIZE (max_row_group_row st - current_row) in
      sketch ← can_sketch rg (column_ids ts);
      '(rg, st, check_result) ←
        (if (sketch : bool) then CheckSketchSegments rg ts st
         else '(st, check_result) ← CheckZonemapSegments rg ts st; Ok (rg, st, check_result));
      if negb check_result then scan_loop fuel type rg ts a measurement t st fresh
      else
        let valid_sel := SelectionVector_Initialize STANDARD_VECTOR_SIZE in
        '(valid_sel, count) ←
          match type with
          | TABLE_SCAN_REGULAR => RowGroup_GetSelVector rg t (vector_index st) valid_sel max_count
          | TABLE_SCAN_COMMITTED_ROWS_OMIT_PERMANENTLY_DELETED =>
              RowGroup_GetCommittedSelVector rg (start_time t) (transaction_id t) (vector_index st) valid_sel max_count
          | _ => Ok (valid_sel, max_count)
          end;
        if reads_versions type && (count =? 0)%nat then st ← NextVector rg ts st; scan_loop fuel type rg ts a measurement t st fresh
        else if (count =? max_count)%nat && bool_decide (table_filters ts = None) then
          '(scans, chunk) ← scan_full type rg ts t st fresh;
          Ok (rg, next_index (set_scans st scans), a, chunk, count)
        else
          let sel := if (count =? max_count)%nat then SelectionVector_null else valid_sel in
          let fs := mkFilterState (column_scans st) fresh sel count [] in
          fs ← match table_filters ts with
               | Some filters => run_filters sketch rg ts t (vector_index st) filters (permutation a) fs
               | None => Ok fs
               end;
          if (fs_count fs =? 0)%nat then
            scans ← skip_unfiltered rg ts (fs_scans fs);
            scan_loop fuel type rg ts a measurement t (next_index (set_scans st scans)) fresh
          else
            '(scans, chunk) ← scan_unfiltered type rg ts t st fs;
            a ← match table_filters ts with
                | Some filters => if (1 <? base.size filters)%nat then AdaptRuntimeStatistics a measurement.1 measurement.2 else Ok a
                | None => Ok a
                end;
            Ok (rg, next_index (set_scans st scans), a, chunk, fs_count fs)
  end.

Definition TemplatedScan (type : TableScanType) (rg : RowGroup) (ts : TableScanState) (a : AdaptiveFilter) (measurement : bool * nat)
    (t : TransactionData) (st : CollectionScanState) (fresh : list ResultVector) :=
  scan_loop (max_row_group_row st / STANDARD_VECTOR_SIZE + 1) type rg ts a measurement t st fresh.

Definition RowGroup_Scan := TemplatedScan TABLE_SCAN_REGULAR.
End RowGroups.

Definition ROW_GROUP_SIZE : nat := STANDARD_VECTOR_SIZE * ROW_GROUP_VECTOR_COUNT.

Definition set_versions (rg : RowGroup) (count : nat) (m : RowVersionManager) : RowGroup :=
  mkRowGroup (rg_start rg) count (rg_columns rg) (Some m) (rg_allocation_size rg).

Definition GetOrCreateVersionInfo (rg : RowGroup) : RowVersionManager :=
  match version_info rg with Some m => m | None => RowVersionManager_new (Z.of_nat (rg_start rg)) end.

(** [RowGroupAppendState]: the append states of the columns. *)
Record RowGroupAppendState : Type := mkAppendState { append_states : list (nat * nat); offset_in_row_group : nat }.

Section Operations.
Context (null_value : PhysicalType → Z) (uninitialised : Z).
Abbreviation codec := (column_codec null_value uninitialised).

(** * Reading rows *)

(** [ScanCommitted]: the snapshot is that of the last commit, or the oldest one
    still in use. *)
Definition RowGroup_ScanCommitted {T} (manager : DuckTransactionManager T) (type : TableScanType) (rg : RowGroup) (ts : TableScanState)
    (a : AdaptiveFilter) (measurement : bool * nat) (st : CollectionScanState) (fresh : list ResultVector) :=
  let data :=
    if bool_decide (type = TABLE_SCAN_LATEST_COMMITTED_ROWS)
    then mkTransaction MAX_TRANSACTION_ID (wrapu 64 (last_commit manager + 1))
    else mkTransaction (lowest_active_id manager) (lowest_active_start manager) in
  match type with
  | TABLE_SCAN_COMMITTED_ROWS | TABLE_SCAN_COMMITTED_ROWS_DISALLOW_UPDATES =>
      TemplatedScan null_value uninitialised type rg ts a measurement data st fresh
  | TABLE_SCAN_COMMITTED_ROWS_OMIT_PERMANENTLY_DELETED | TABLE_SCAN_LATEST_COMMITTED_ROWS =>
      TemplatedScan null_value uninitialised TABLE_SCAN_COMMITTED_ROWS_OMIT_PERMANENTLY_DELETED rg ts a measurement data st fresh
  | TABLE_SCAN_REGULAR => Throw (InternalException "Unrecognized table scan type")
  end.

Definition RowGroup_Fetch (rg : RowGroup) (t : TransactionData) (row : nat) : result bool :=
  match version_info rg with None => Ok true | Some vinfo => Manager_Fetch vinfo t row end.

(** [FetchRow]: the row in every column of the result. *)
Fixpoint RowGroup_FetchRow (rg : RowGroup) (t : TransactionData) (ids : list (option nat)) (row_id : nat) (res : list (FlatVector Z))
    (result_idx : nat) : result (list (FlatVector Z)) :=
  match ids, res with
  | [], _ => Ok res
  | id :: ids, v :: res =>
      v ← match id with
          | None => data ← vset (flat_data v) result_idx (Z.of_nat row_id); Ok (mkFlat data (flat_validity v))
          | Some _ => c ← GetColumn rg id; Standard_FetchRow (codec c) (column_updates c) c t row_id v result_idx
          end;
      res ← RowGroup_FetchRow rg t ids row_id res result_idx;
      Ok (v :: res)
  | _ :: _, [] => out_of_range
  end.

Definition GetCommittedRowCount (rg : RowGroup) : result nat :=
  match version_info rg with
  | None => Ok (rg_count rg)
  | Some vinfo => deleted ← Manager_GetCommittedDeletedCount vinfo (rg_count rg); Ok (rg_count rg - deleted)%nat
  end.

(** * Versions of appended rows *)

Definition RowGroup_AppendVersionInfo (rg : RowGroup) (t : TransactionData) (count : nat) : result RowGroup :=
  let row_group_start := rg_count rg in
  let row_group_end := if (ROW_GROUP_SIZE <? row_group_start + count)%nat then ROW_GROUP_SIZE else (row_group_start + count)%nat in
  vinfo ← AppendVersionInfo (GetOrCreateVersionInfo rg) t row_group_start row_group_end;
  Ok (set_versions rg row_group_end vinfo).

Definition RowGroup_CommitAppend (rg : RowGroup) (commit_id : Z) (row_group_start count : nat) : result RowGroup :=
  vinfo ← Manager_CommitAppend (GetOrCreateVersionInfo rg) commit_id row_group_start count;
  Ok (set_versions rg (rg_count rg) vinfo).

Definition RowGroup_RevertAppend (rg : RowGroup) (row_group_start : nat) : result RowGroup :=
  vinfo ← RowVersionManager.RevertAppend (GetOrCreateVersionInfo rg) (row_group_start - rg_start rg);
  columns ← mapR (λ c, Standard_RevertAppend (codec c) c row_group_start) (rg_columns rg);
  Ok (set_versions (set_columns rg columns) (Nat.min (row_group_start - rg_start rg) (rg_count rg)) vinfo).

(** * Appends *)

Definition RowGroup_InitializeAppend (rg : RowGroup) : result (RowGroup * RowGroupAppendState) :=
  states ← mapR (λ c, Standard_InitializeAppend (codec c) c) (rg_columns rg);
  Ok (set_columns rg states.*1, mkAppendState states.*2 (rg_count rg)).

Definition column_size (c : StandardColumnData) : nat := allocation_size (sd_base c).

(** A loop over the columns, with their append states and the vectors of the
    chunk; [f] treats the new column, given its position and a counter. *)
Fixpoint append_columns (f : nat → nat → StandardColumnData → UnifiedVectorFormat Z → result (nat * StandardColumnData)) (k i : nat)
    (columns : list StandardColumnData) (states : list (nat * nat)) (chunk : list (UnifiedVectorFormat Z)) (append_count : nat)
    : result (list StandardColumnData * list (nat * nat) * nat) :=
  match columns, states, chunk with
  | [], _, _ => Ok ([], states, O)
  | c :: columns, st :: states, d :: chunk =>
      '(c', st) ← Standard_Append (codec c) c st d append_count;
      '(k, c') ← f k i c' d;
      '(columns, states, grown) ← append_columns f k (S i) columns states chunk append_count;
      Ok (c' :: columns, st :: states, (column_size c' - column_size c + grown)%nat)
  | _, _, _ => out_of_range
  end.

Definition append_chunk (f : nat → nat → StandardColumnData → UnifiedVectorFormat Z → result (nat * StandardColumnData)) (rg : RowGroup)
    (state : RowGroupAppendState) (chunk : list (UnifiedVectorFormat Z)) (append_count : nat) : result (RowGroup * RowGroupAppendState) :=
  '(columns, states, grown) ← append_columns f 0 0 (rg_columns rg) (append_states state) chunk append_count;
  Ok (mkRowGroup (rg_start rg) (rg_count rg) columns (version_info rg) (rg_allocation_size rg + grown),
      mkAppendState states (offset_in_row_group state + append_count)).

Definition RowGroup_Append := append_chunk (λ k _ c _, Ok (k, c)).

(** The sketch of an appended vector: of the first [append_count] entries of
    its data, as unsigned numbers of [W] bits. *)
Definition sketch_column (W : Z) (append_count : nat) (c : StandardColumnData) (d : UnifiedVectorFormat Z) : result StandardColumnData :=
  all_data ← mapR (λ i, x ← vget (uni_data d) i; Ok (wrapu W x)) (seq 0 append_count);
  sketch ← ColumnSketchWrapper_new W all_data;
  let msel := SetCount (set_sel_vec (ManagedSelection_new append_count true) SelectionVector_null) append_count in
  Ok (mkStandard (sd_base c) (sd_validity c) true (segment_sketches c ++ [Some (sketch_Copy sketch)]) (vector_sels c ++ [msel])).

(** [sketchAppend]: column [i] is sketched when it is the next one of
    [sketch_col_idxs]. *)
Definition sketchAppend (sketch_col_idxs : list Z) (append_count : nat) (rg : RowGroup) (state : RowGroupAppendState)
    (chunk : list (UnifiedVectorFormat Z)) : result (RowGroup * RowGroupAppendState) :=
  append_chunk (λ sketch_idx i c d,
    if bool_decide (sketch_col_idxs !! sketch_idx = Some (Z.of_nat i)) then
      c ← match InternalType (cd_type (sd_base c)) with
          | INT32 | UINT32 => sketch_column 32 append_count c d
          | INT64 | UINT64 => sketch_column 64 append_count c d
          | _ => Ok c
          end;
      Ok (S sketch_idx, c)
    else Ok (sketch_idx, c)) rg state chunk append_count.

(** * Updates and statistics *)

Definition RowGroup_GetStatistics (rg : RowGroup) (column_idx : nat) : result BaseStatistics :=
  c ← GetColumn rg (Some column_idx); GetStatistics (sd_base c).

Definition RowGroup_MergeStatistics (rg : RowGroup) (column_idx : nat) (other : BaseStatistics) : result RowGroup :=
  c ← GetColumn rg (Some column_idx);
  base ← MergeStatistics (sd_base c) other;
  columns ← vset (rg_columns rg) column_idx (with_columns c base (sd_validity c));
  Ok (set_columns rg columns).

Definition RowGroup_MergeIntoStatistics (rg : RowGroup) (column_idx : nat) (other : BaseStatistics) : result BaseStatistics :=
  c ← GetColumn rg (Some column_idx); MergeIntoStatistics (sd_base c) other.

(** The rows of a flat vector from [offset] on. *)
Definition slice_rows (v : FlatVector Z) (offset count : nat) : result (FlatVector Z) :=
  if (0 <? offset)%nat then
    validity ← MaskSlice (flat_validity v) (flat_validity v) offset count;
    Ok (mkFlat (drop offset (flat_data v)) validity)
  else Ok v.

(** One column of [Update]; [addresses] are those of its two update infos. *)
Definition update_column (rg : RowGroup) (t : TransactionData) (has_transaction : bool) (column : nat) (update : FlatVector Z)
    (addresses : nat * nat) (fresh : FlatVector Z) (ids : list Z) (offset count : nat) : RowGroup * result unit :=
  match c ← GetColumn rg (Some column); update ← slice_rows update offset count; Ok (c, update) with
  | Throw e => (rg, Throw e)
  | Ok (c, update) =>
      let '(c, outcome) := Standard_Update (codec c) (column_updates c) c t has_transaction addresses column fresh update (drop offset ids) count in
      let rg := set_columns rg (<[column := c]> (rg_columns rg)) in
      match outcome with
      | Throw e => (rg, Throw e)
      | Ok _ =>
          match (stats ← Standard_GetUpdateStatistics c;
                 match stats with Some s => RowGroup_MergeStatistics rg column s | None => Throw (UndefinedBehaviour "null statistics") end) with
          | Throw e => (rg, Throw e)
          | Ok rg => (rg, Ok tt)
          end
      end
  end.

(** [Update]: the columns one after the other, up to the first failure. *)
Fixpoint RowGroup_Update (rg : RowGroup) (t : TransactionData) (has_transaction : bool) (columns : list (nat * FlatVector Z * (nat * nat)))
    (fresh : FlatVector Z) (ids : list Z) (offset count : nat) : RowGroup * result unit :=
  match columns with
  | [] => (rg, Ok tt)
  | (column, update, addresses) :: columns =>
      match update_column rg t has_transaction column update addresses fresh ids offset count with
      | (rg, Ok _) => RowGroup_Update rg t has_transaction columns fresh ids offset count
      | (rg, Throw e) => (rg, Throw e)
      end
  end.

(** * The row group in its table *)

Definition MoveToCollection (rg : RowGroup) (new_start : nat) : result RowGroup :=
  columns ← mapR (λ c, Standard_SetStart c new_start) (rg_columns rg);
  Ok (mkRowGroup new_start (rg_count rg) columns ((λ m, RowVersionManager.SetStart m (Z.of_nat new_start)) <$> version_info rg)
        (rg_allocation_size rg)).

Definition RemoveColumn (rg : RowGroup) (removed_column : nat) : RowGroup :=
  mkRowGroup (rg_start rg) (rg_count rg) (take removed_column (rg_columns rg) ++ drop (S removed_column) (rg_columns rg))
    (Some (GetOrCreateVersionInfo rg)) 0.

Definition RowGroup_DeleteRows (rg : RowGroup) (vector_idx : nat) (transaction_id : Z) (rows : list nat) (count : nat)
    : RowGroup * list nat * result nat :=
  let '(m, rows, r) := DeleteRows (GetOrCreateVersionInfo rg) vector_idx transaction_id rows count in
  (set_versions rg (rg_count rg) m, rows, r).
End Operations.
