(* ===== verification/RowGroupFacts.v ===== *)
(** The columns of a row group: filters on the vectors a scan returns, cells,
    scan positions, the loops over the columns, and zone maps: the vectors a
    scan skips hold no row that passes the filters. *)
From S2P Require Import Prelude Bits SelectionVector ColumnSketch Types Stats NumericStats NumericFacts BaseStatistics StatsFacts StatsCreate TableFilter FilterFacts FilterPruning.
From S2P Require Import ValidityMask MaskFacts ChunkInfo RowVersionManager VersionFacts UpdateSegment UpdateFacts UpdateLaws UpdateChain UpdateSteps UpdateSystem UncompressedSegment UncompressedAppend.
From S2P Require Import SegmentLaws SegmentTree ColumnData ColumnFacts ColumnAppend StandardColumn StandardFacts AdaptiveFilter RowGroup.

(** The value of a row; [None] is NULL. *)
Definition as_value (ty : LogicalType) (x : option Z) : Value :=
  match x with Some z => V_num ty (InternalType ty, z) | None => V_null ty end.

Lemma typed_reaches f ty v : GetStatsType ty = NUMERIC_STATS → filter_typed f ty → reaches f v.
Proof.
  intros Hs. induction f as [cmp c| | |fs IH|fs IH|i nm g IH] using TableFilter_ind'; cbn [filter_typed reaches]; try done.
  - rewrite typed_children, reaches_children. rewrite !Forall_forall in *. auto.
  - rewrite typed_children, reaches_children. rewrite !Forall_forall in *. auto.
  - intros (ts & ti & H & _). congruence.
Qed.

(** A check of a typed filter against numeric statistics returns. *)
Lemma CheckStatistics_total f s :
  stats_wf s → GetStatsType (stats_type s) = NUMERIC_STATS → filter_typed f (stats_type s) →
  ∃ r, CheckStatistics f s = Ok r.
Proof.
  intros W Hs. induction f as [cmp c| | |fs IH|fs IH|i nm g IH] using TableFilter_ind'; cbn [filter_typed]; intros Ht; cbn [CheckStatistics]; try by eexists.
  - apply stats_wf_eq in W as [[_ Hd] _]. unfold node_data in Hd. rewrite Hs in Hd. destruct Hd as (lo & hi & V). destruct Ht as [Hty [(_ & (tc & x & ->) & Hcmp)|(H & _)]]; [|congruence].
    unfold ConstantFilter_CheckStatistics. rewrite Hty. destruct (numeric_type _ Hs) as [_ Hn].
    destruct (decide (InternalType (stats_type s) = BOOL)) as [->|Hbool]; [by eexists|].
    assert (zonemap_type (InternalType (stats_type s)) = true) as Hz by (unfold zonemap_type; rewrite Hn, bool_decide_false by done; done).
    destruct (numeric_zonemap_total s _ lo hi cmp tc x V Hz Hcmp) as [r Hr]. exists r.
    revert Hr Hz. generalize (V_num tc (InternalType (stats_type s), x)). intros c Hr Hz. destruct (InternalType (stats_type s)); done || (exfalso; by vm_compute in Hz).
  - rewrite typed_children in Ht. induction fs as [|g fs IHfs]; [by eexists|]. apply Forall_cons in IH as [IHg IH], Ht as [Htg Ht].
    destruct (IHg Htg) as [r Hr]. cbn [ConjunctionOrFilter_CheckStatistics]. rewrite Hr. cbn [mbind result_bind].
    destruct (IHfs IH Ht) as [r' Hr']. destruct r; eauto.
  - rewrite typed_children in Ht. generalize FILTER_ALWAYS_TRUE. induction fs as [|g fs IHfs]; intros res; [by eexists|]. apply Forall_cons in IH as [IHg IH], Ht as [Htg Ht].
    destruct (IHg Htg) as [r Hr]. cbn [ConjunctionAndFilter_CheckStatistics]. rewrite Hr. cbn [mbind result_bind].
    destruct r; try apply (IHfs IH Ht). by eexists.
  - destruct Ht as (ts & ti & H & _). congruence.
Qed.

Section Vectors.
Context (ty : LogicalType) (res : FlatVector Z) (k : nat) (value : nat → option (option Z)).
Hypothesis Hstats : GetStatsType ty = NUMERIC_STATS.
Hypothesis Hreads : reads res k value.

Lemma scanned_position j : row_pos (ToUnifiedFormat ty res) (Z.of_nat j) = Some j.
Proof. unfold row_pos. cbn. by rewrite !Nat2Z.id. Qed.

Lemma scanned_rows L : (∀ z, z ∈ L → 0 ≤ z < Z.of_nat k) → vector_rows (ToUnifiedFormat ty res) L.
Proof.
  intros HL z Hz. specialize (HL z Hz). exists (Z.to_nat z). rewrite <- (Z2Nat.id z) at 1 by lia. split; [apply scanned_position|].
  destruct Hreads as [Hd Hm _]. split_and!; cbn [fv_data fv_mask ToUnifiedFormat]; [|done|].
  - intros data [= <-]. lia.
  - intros bits H. unfold mask_covers in Hm. destruct (validity_mask (flat_validity res)) as [l|]; [|done]. injection H as <-. rewrite length_fmap, length_seq. unfold BITS_PER_VALUE. pose proof (EntryCount_covers k). lia.
Qed.

Lemma typed_fits f L : filter_typed f ty → (∀ z, z ∈ L → 0 ≤ z < Z.of_nat k) → filter_fits f (ToUnifiedFormat ty res) L.
Proof.
  intros Ht HL. pose proof (scanned_rows L HL) as Hrows.
  induction f as [cmp c| | |fs IH|fs IH|i nm g IH] using TableFilter_ind'; cbn [filter_typed filter_fits] in *; try done.
  - split; [done|]. destruct Ht as [Hty [(_ & (tc & x & ->) & Hcmp)|(H & _)]]; [|congruence]. destruct (numeric_type _ Hstats) as [_ Hn].
    unfold constant_test. cbn [fv_data fv_type ToUnifiedFormat]. rewrite Hn. cbn [GetValueUnsafe]. unfold union_get. cbn [fst snd]. rewrite bool_decide_true by done.
    destruct (Hcmp 0 x) as [b Hb]. rewrite <- number_operation_eq in Hb. destruct (number_operation cmp (InternalType ty) x); [by eexists | done].
  - rewrite typed_children in Ht. rewrite fits_children. rewrite !Forall_forall in *. auto.
  - rewrite typed_children in Ht. rewrite fits_children. rewrite !Forall_forall in *. auto.
  - destruct Ht as (ts & ti & H & _). congruence.
Qed.

Lemma scanned_cell j x : (j < k)%nat → value j = Some x → fv_row (ToUnifiedFormat ty res) (Z.of_nat j) = as_value ty x.
Proof.
  intros Hj Hx. destruct Hreads as [Hd Hm Hv]. specialize (Hv j Hj). rewrite Hx in Hv. unfold vector_value in Hv.
  unfold ToUnifiedFormat. cbn [fv_row]. fold (ToUnifiedFormat ty res). rewrite scanned_position.
  assert (row_valid (ToUnifiedFormat ty res) j = valid_at (flat_validity res) j) as Hvalid.
  { unfold row_valid, valid_at. cbn [fv_mask ToUnifiedFormat]. unfold mask_covers in Hm. destruct (validity_mask (flat_validity res)) as [l|]; [|done].
    rewrite list_lookup_fmap, lookup_seq_lt by (unfold BITS_PER_VALUE; pose proof (EntryCount_covers k); lia). done. }
  rewrite Hvalid. destruct (valid_at (flat_validity res) j); [|by injection Hv as <-].
  destruct (flat_data res !! j) as [z|]; [|done]. by injection Hv as <-.
Qed.

(** A filter on the scanned vector tests the values of the rows. *)
Lemma scanned_passes f j x : filter_typed f ty → (j < k)%nat → value j = Some x →
  row_passes f (ToUnifiedFormat ty res) (Z.of_nat j) = value_passes f (as_value ty x).
Proof.
  intros Ht Hj Hx. rewrite (row_passes_value f _ (Z.of_nat j) [Z.of_nat j]).
  - by rewrite (scanned_cell j x).
  - apply typed_fits; [done|]. intros z ->%list_elem_of_singleton. lia.
  - by left.
  - by eapply typed_reaches.
Qed.
End Vectors.

#[local] Opaque ROW_GROUP_VECTOR_COUNT.

Section RowGroups.
Context (null_value : PhysicalType → Z) (uninitialised : Z).
Abbreviation codec := (column_codec null_value uninitialised).

(** * Columns of numbers *)

Abbreviation column_type c := (cd_type (sd_base c)).
Abbreviation column_pt c := (InternalType (cd_type (sd_base c))).

Record number_type (ty : LogicalType) : Prop := {
  nt_ok : type_ok ty;
  nt_stats : GetStatsType ty = NUMERIC_STATS;
  nt_extremes : has_extremes ty = true;
  nt_size : GetTypeIdSize (InternalType ty) = Ok (type_size (InternalType ty));
}.

Lemma number_type_intro ty : type_ok ty → GetStatsType ty = NUMERIC_STATS → has_extremes ty = true → number_type ty.
Proof.
  intros H1 H2 H3. split; [done.. |]. unfold type_size. destruct (numeric_type ty H2) as [_ Hn]. by destruct (InternalType ty).
Qed.

Definition column_fine (c : StandardColumnData) : Prop :=
  ∃ H : number_type (column_type c),
    standard_ok (column_type c) (null_value (column_pt c)) uninitialised (type_size (column_pt c))
      (nt_ok _ H) (nt_stats _ H) (nt_extremes _ H) (nt_size _ H) c.

Lemma fine_type c : column_fine c → number_type (column_type c).
Proof. by intros [H _]. Qed.

(** The value a transaction sees in a row, counted from the start of the
    column; [Some None] is NULL. *)
Definition cell (committed : bool) (c : StandardColumnData) (t : TransactionData) (row : nat) : option (option Z) :=
  match column_value ValidityGetFunction validity_functions committed (sd_validity c) t row with
  | Some true => Some <$> updated_value committed (sd_base c) t (row / SVS) (row mod SVS) (concat (value_rows <$> column_segments (sd_base c)) !! row)
  | Some false => Some None
  | None => None
  end.

Lemma column_scan_ok c t v cs res :
  column_fine c → fresh_vector res → standard_cursor c cs (v * SVS) → (v * SVS < cd_count (sd_base c))%nat →
  let k := Nat.min SVS (cd_count (sd_base c) - v * SVS) in
  ∃ cs' res', Standard_ScanVector (codec c) (column_updates c) c t v cs res = Ok (cs', res', k) ∧ standard_cursor c cs' (S v * SVS) ∧
    reads res' k (λ j, cell false c t (v * SVS + j)).
Proof.
  intros [H Hc] Hres Hcur Hlt k.
  destruct (Standard_ScanVector_ok _ _ _ _ _ _ _ _ c t v cs res Hc Hres Hcur Hlt) as (cs' & res' & E & Hcur' & _ & Hr).
  by exists cs', res'.
Qed.

Lemma column_skip_ok c cs v : column_fine c → standard_cursor c cs (v * SVS) →
  ∃ cs', Standard_Skip c cs SVS = Ok cs' ∧ standard_cursor c cs' (S v * SVS).
Proof. intros [H Hc] Hcur. destruct (Standard_Skip_ok _ _ _ _ _ _ _ _ c cs v Hc Hcur) as (cs' & E & Hcur' & _). by exists cs'. Qed.

(** * Row groups *)

Record rowgroup_ok (rg : RowGroup) : Prop := {
  ro_columns : ∀ k c, rg_columns rg !! k = Some c → column_fine c ∧ cd_start (sd_base c) = rg_start rg ∧ cd_count (sd_base c) = rg_count rg;
  ro_count : (rg_count rg ≤ ROW_GROUP_VECTOR_COUNT * SVS)%nat;
  ro_versions : ∀ m, version_info rg = Some m → manager_wf (rg_count rg) m;
}.

(** The scan of the column at position [i] stands at vector [at_ i]. *)
Definition column_at (rg : RowGroup) (id : option nat) (cs : StandardScanState) (v : nat) : Prop :=
  match id with None => True | Some k => ∃ c, rg_columns rg !! k = Some c ∧ standard_cursor c cs (v * SVS) end.

Definition scans_at (rg : RowGroup) (ids : list (option nat)) (scans : list StandardScanState) (at_ : nat → nat) : Prop :=
  length scans = length ids ∧ ∀ i id cs, ids !! i = Some id → scans !! i = Some cs → column_at rg id cs (at_ i).

Lemma GetColumn_ok rg k c : rg_columns rg !! k = Some c → GetColumn rg (Some k) = Ok c.
Proof. intros H. cbn. by apply vget_lookup. Qed.

(** ** Loops over the columns *)

Lemma map_scans_ok f ids scans (Q : nat → option nat → StandardScanState → Prop) :
  length scans = length ids →
  (∀ i id cs, ids !! i = Some id → scans !! i = Some cs → ∃ cs', f id cs = Ok cs' ∧ Q i id cs') →
  ∃ scans', map_scans f ids scans = Ok scans' ∧ length scans' = length ids ∧
    ∀ i id cs', ids !! i = Some id → scans' !! i = Some cs' → Q i id cs'.
Proof.
  revert scans Q. induction ids as [|id ids IH]; intros [|cs scans] Q Hlen Hf; try done; cbn [map_scans].
  - by exists [].
  - destruct (Hf O id cs eq_refl eq_refl) as (cs' & -> & HQ). cbn [mbind result_bind].
    destruct (IH scans (λ i, Q (S i))) as (scans' & -> & Hl & Hq); [by injection Hlen | intros i; apply (Hf (S i))|].
    exists (cs' :: scans'). cbn. split_and!; [done | by rewrite Hl|]. intros [|i] id' cs2 Hi Hs; [cbn in Hi, Hs; by simplify_eq | by apply (Hq i)].
Qed.

Lemma map_columns_ok f n ids scans vs (Q : nat → option nat → StandardScanState → ResultVector → Prop) :
  length scans = length ids → length vs = length ids →
  (∀ i id cs v, ids !! i = Some id → scans !! i = Some cs → vs !! i = Some v → ∃ cs' v', f (n + i)%nat id cs v = Ok (cs', v') ∧ Q i id cs' v') →
  ∃ scans' vs', map_columns f n ids scans vs = Ok (scans', vs') ∧ length scans' = length ids ∧ length vs' = length ids ∧
    ∀ i id cs' v', ids !! i = Some id → scans' !! i = Some cs' → vs' !! i = Some v' → Q i id cs' v'.
Proof.
  revert n scans vs Q. induction ids as [|id ids IH]; intros n [|cs scans] [|v vs] Q Hl1 Hl2 Hf; try done; cbn [map_columns].
  - by exists [], [].
  - destruct (Hf O id cs v eq_refl eq_refl eq_refl) as (cs' & v' & E & HQ). rewrite Nat.add_0_r in E. rewrite E. cbn [mbind result_bind].
    destruct (IH (S n) scans vs (λ i, Q (S i))) as (scans' & vs' & -> & H1 & H2 & Hq); [by injection Hl1 | by injection Hl2 | |].
    { intros i id' cs2 v2 ? ? ?. replace (S n + i)%nat with (n + S i)%nat by lia. by apply (Hf (S i)). }
    cbn [mbind result_bind]. exists (cs' :: scans'), (v' :: vs'). cbn. split_and!; [done | by rewrite H1 | by rewrite H2|].
    intros [|i] id' cs2 v2 Hi Hs Hv; [cbn in Hi, Hs, Hv; by simplify_eq | by apply (Hq i)].
Qed.

(** ** Moving on *)

(** Within a row group a scan keeps its bounds. *)
Record same_scan (st st' : CollectionScanState) : Prop := {
  ss_rows : max_row_group_row st' = max_row_group_row st;
  ss_max : max_row st' = max_row st;
  ss_group : cs_row_group st' = cs_row_group st;
}.

Lemma same_scan_trans st1 st2 st3 : same_scan st1 st2 → same_scan st2 st3 → same_scan st1 st3.
Proof. intros [A1 A2 A3] [B1 B2 B3]. split; congruence. Qed.

Lemma NextVector_ok rg ts st v :
  rowgroup_ok rg → scans_at rg (column_ids ts) (column_scans st) (λ _, v) →
  ∃ st', NextVector rg ts st = Ok st' ∧ vector_index st' = (vector_index st + 1)%nat ∧ same_scan st st' ∧
    scans_at rg (column_ids ts) (column_scans st') (λ _, S v).
Proof.
  intros Hrg [Hlen Hat]. unfold NextVector.
  destruct (map_scans_ok (λ id cs, match id with Some _ => c ← GetColumn rg id; Standard_Skip c cs SVS | None => Ok cs end)
    (column_ids ts) (column_scans st) (λ _ id cs, column_at rg id cs (S v)) Hlen) as (scans & -> & Hl & Hq).
  - intros i [k|] cs Hi Hs; [|by exists cs]. destruct (Hat i (Some k) cs Hi Hs) as (c & Hc & Hcur). rewrite (GetColumn_ok rg k c Hc). cbn [mbind result_bind].
    destruct (column_skip_ok c cs v) as (cs' & E & Hcur'); [by eapply ro_columns | done|]. exists cs'. split; [done|]. by exists c.
  - cbn [mbind result_bind]. eexists. split; [done|]. cbn. by split_and!.
Qed.

Lemma next_vectors_ok n rg ts st v :
  rowgroup_ok rg → scans_at rg (column_ids ts) (column_scans st) (λ _, v) →
  ∃ st', next_vectors n rg ts st = Ok st' ∧ vector_index st' = (vector_index st + n)%nat ∧ same_scan st st' ∧
    scans_at rg (column_ids ts) (column_scans st') (λ _, (v + n)%nat).
Proof.
  intros Hrg. revert st v. induction n as [|n IH]; intros st v Hat; cbn [next_vectors].
  - exists st. rewrite !Nat.add_0_r. by split_and!.
  - destruct (NextVector_ok rg ts st v Hrg Hat) as (st1 & -> & H1 & H2 & H4). cbn [mbind result_bind].
    destruct (IH st1 (S v) H4) as (st' & E & G1 & G2 & G4). exists st'. rewrite G1, H1. split_and!; [done | lia | by eapply same_scan_trans|].
    replace (v + S n)%nat with (S v + n)%nat by lia. done.
Qed.
End RowGroups.

(** Filters that end in comparisons: no conjunction is empty. *)
Fixpoint no_empty (f : TableFilter) : bool :=
  match f with
  | ConjunctionOrFilter fs | ConjunctionAndFilter fs => negb (bool_decide (fs = [])) && forallb no_empty fs
  | StructFilter _ _ g => no_empty g
  | _ => true
  end.

(** No NULL passes the filter.  The zone maps of the segments do not record
    NULLs, so that only such filters may be checked against them. *)
Definition rejects_null (f : TableFilter) (ty : LogicalType) : Prop := value_passes f (V_null ty) = false.

Section Zones.
Context (null_value : PhysicalType → Z) (uninitialised : Z).
Abbreviation fine := (column_fine null_value uninitialised).
Abbreviation column_type c := (cd_type (sd_base c)).

(** The statistics cover the values: those of the segments or of the updates,
    and those of the column. *)
Record zones_ok (c : StandardColumnData) (t : TransactionData) : Prop := {
  zo_cover : ∀ i s r x, column_segments (sd_base c) !! i = Some s → (r < seg_count s)%nat →
    cell false c t (seg_start s - cd_start (sd_base c) + r) = Some (Some x) →
    covers (seg_stats s) (as_value (column_type c) (Some x)) ∨
    ∃ us, cd_updates (sd_base c) = Some us ∧ covers (us_stats us) (as_value (column_type c) (Some x));
  zo_column : ∃ stats, cd_stats (sd_base c) = Some stats ∧ stats_wf stats ∧ stats_type stats = column_type c ∧
    ∀ row x, cell false c t row = Some (Some x) → covers stats (as_value (column_type c) (Some x));
  zo_updates : ∀ us, cd_updates (sd_base c) = Some us → stats_wf (us_stats us) ∧ stats_type (us_stats us) = column_type c;
}.

Lemma fine_segment c i s : fine c → column_segments (sd_base c) !! i = Some s →
  value_segment_ok (column_type c) (type_size (InternalType (column_type c))) s.
Proof. intros [H Hc] Hi. exact (segment_nth_ok _ _ (sd_base c) i s (so_base _ _ _ _ _ _ _ _ _ Hc) Hi). Qed.

Lemma segment_stats_wf ty n s : value_segment_ok ty n s → GetStatsType ty = NUMERIC_STATS → stats_wf (seg_stats s).
Proof.
  intros [_ _ (lo & hi & V) Hty [Hch _]] Hs. apply stats_wf_eq. unfold node_shape, node_data. rewrite Hty, Hs, Hch. split_and!; [done | by eexists _, _ | constructor].
Qed.

(** With a filter checked against the statistics, no covered value passes. *)
Lemma pruned_value f s ty x :
  number_type ty → stats_wf s → stats_type s = ty → filter_typed f ty → CheckStatistics f s = Ok FILTER_ALWAYS_FALSE →
  covers s (as_value ty (Some x)) → value_passes f (as_value ty (Some x)) = false.
Proof.
  intros [Hok Hs _ _] W Ty Ht E Hcov.
  destruct (CheckStatistics_ok f s (as_value ty (Some x)) W) as (r & E' & _ & Hf & _); [by rewrite Ty | by split_and! | by rewrite Ty | done | by eapply typed_reaches|].
  rewrite E in E'. injection E' as <-. by apply Hf.
Qed.

(** [CheckZonemap] on a column: a segment that is not read has no passing
    row. *)
Lemma Standard_CheckZonemap_ok c cs f t v :
  fine c → zones_ok c t → filter_typed f (column_type c) → rejects_null f (column_type c) → standard_cursor c cs (v * SVS) →
  ∃ cs' b, Standard_CheckZonemap c cs f = Ok (cs', b) ∧ standard_cursor c cs' (v * SVS) ∧
    (b = false → ∃ i s, current (sst_base cs') = Some i ∧ column_segments (sd_base c) !! i = Some s ∧
      ∀ row x, (seg_start s ≤ cd_start (sd_base c) + row < seg_start s + seg_count s)%nat → cell false c t row = Some x →
        value_passes f (as_value (column_type c) x) = false).
Proof.
  intros Hf Hz Ht Hn Hcur. pose proof (fine_type _ _ c Hf) as Hty. unfold Standard_CheckZonemap.
  destruct (segment_checked (sst_base cs)); [by exists cs, true|]. destruct (current (sst_base cs)) as [i|] eqn:Ei; [|by exists cs, true].
  pose (cs' := mkStandardScan (set_checked (sst_base cs)) (sst_validity cs)).
  assert (standard_cursor c cs' (v * SVS)) as Hcur' by exact Hcur. assert (current (sst_base cs') = Some i) as Ei' by done.
  destruct Hcur as (Hb & _). unfold cursor in Hb. rewrite Ei in Hb. destruct Hb as (s & Hi & _). rewrite (segment_at_ok (sd_base c) i s Hi). cbn [mbind result_bind]. fold cs'.
  pose proof (fine_segment c i s Hf Hi) as Hseg. pose proof (segment_stats_wf _ _ _ Hseg (nt_stats _ Hty)) as W. pose proof (vg_type _ _ _ Hseg) as Ty.
  destruct (CheckStatistics_total f (seg_stats s) W) as [r Hr]; [rewrite Ty; apply Hty | by rewrite Ty|]. rewrite Hr. cbn [mbind result_bind].
  case_bool_decide as Hfalse; cbn [negb]; [subst r | by exists cs', true].
  assert (Hrow : ∀ row x, (seg_start s ≤ cd_start (sd_base c) + row < seg_start s + seg_count s)%nat → cell false c t row = Some (Some x) →
    covers (seg_stats s) (as_value (column_type c) (Some x)) ∨
    ∃ us, cd_updates (sd_base c) = Some us ∧ covers (us_stats us) (as_value (column_type c) (Some x))).
  { intros row x Hrow Hx. pose proof Hf as [H Hc]. pose proof (segment_end _ _ (sd_base c) i s (so_base _ _ _ _ _ _ _ _ _ Hc) Hi) as [Hs1 _].
    apply (zo_cover _ _ Hz i s (cd_start (sd_base c) + row - seg_start s) x Hi); [lia|]. rewrite <- Hx. f_equal. lia. }
  assert (Hseg_no : ∀ x, covers (seg_stats s) (as_value (column_type c) (Some x)) → value_passes f (as_value (column_type c) (Some x)) = false)
    by (intros x; by apply (pruned_value f (seg_stats s))).
  destruct (cd_updates (sd_base c)) as [us|] eqn:Eu.
  - destruct (zo_updates _ _ Hz us Eu) as [Wu Tu].
    destruct (CheckStatistics_total f (us_stats us) Wu) as [r Hru]; [rewrite Tu; apply Hty | by rewrite Tu|]. rewrite Hru. cbn [mbind result_bind].
    exists cs', (negb (bool_decide (r = FILTER_ALWAYS_FALSE))). split_and!; [done | done|]. intros Hb. apply negb_false_iff, bool_decide_eq_true in Hb. subst r.
    exists i, s. split_and!; [done | done|]. intros row [x|] Hin Hx; [|exact Hn]. destruct (Hrow row x Hin Hx) as [H|(us' & [= <-] & H)]; [by apply Hseg_no|].
    by apply (pruned_value f (us_stats us)).
  - exists cs', false. split_and!; [done | done|]. intros _. exists i, s. split_and!; [done | done|].
    intros row [x|] Hin Hx; [|exact Hn]. destruct (Hrow row x Hin Hx) as [H|(us & Hus & _)]; [by apply Hseg_no | done].
Qed.

(** The first row after the current segment. *)
Lemma max_scan_count_ok count fs n m :
  fs ≠ [] → Forall (λ g, count g = Ok n) fs → (m ≤ n)%nat → max_scan_count count fs m = Ok n.
Proof.
  intros Hne HF. revert m Hne. induction HF as [|g fs Hg HF IH]; intros m Hne Hm; [done|]. cbn [max_scan_count]. rewrite Hg. cbn [mbind result_bind].
  destruct fs as [|g' fs]; [cbn; f_equal; lia|]. apply IH; [done | lia].
Qed.

Lemma GetFilterScanCount_ok c cs f ty i s :
  GetStatsType ty = NUMERIC_STATS → filter_typed f ty → no_empty f = true →
  current (sst_base cs) = Some i → column_segments (sd_base c) !! i = Some s →
  GetFilterScanCount c cs f = Ok (seg_start s + seg_count s)%nat.
Proof.
  intros Hs Ht Hne Hi Hseg.
  induction f as [cmp c0| | |fs IH|fs IH|j nm g IH] using TableFilter_ind'; cbn [filter_typed no_empty] in *.
  1-3: cbn [GetFilterScanCount]; unfold current_segment; rewrite Hi, (segment_at_ok (sd_base c) i s Hseg); done.
  1,2: rewrite typed_children in Ht; apply andb_true_iff in Hne as [Hnil Hall]; apply negb_true_iff, bool_decide_eq_false in Hnil;
    rewrite forallb_forall in Hall; cbn [GetFilterScanCount]; apply max_scan_count_ok; [done | | lia];
    rewrite Forall_forall in *; intros g Hg; apply IH; [done | by apply Ht | by apply Hall, list_elem_of_In].
  destruct Ht as (ts & ti & H & _). congruence.
Qed.

(** * Filters of a scan *)

(** A row passes the filter at position [i] of the scan. *)
Definition filter_holds (rg : RowGroup) (ts : TableScanState) (t : TransactionData) (row : nat) (entry : nat * TableFilter) : bool :=
  match column_ids ts !! entry.1 with
  | Some (Some k) =>
      match rg_columns rg !! k with
      | Some c => match cell false c t row with Some x => value_passes entry.2 (as_value (column_type c) x) | None => false end
      | None => false
      end
  | _ => false
  end.

Definition passes_filters (rg : RowGroup) (ts : TableScanState) (t : TransactionData) (row : nat) : bool :=
  match table_filters ts with None => true | Some filters => forallb (filter_holds rg ts t row) (map_to_list filters) end.

(** A filter on a column of numbers, whose zone maps are in order. *)
Definition filter_fine (rg : RowGroup) (ts : TableScanState) (t : TransactionData) (entry : nat * TableFilter) : Prop :=
  ∃ k c, column_ids ts !! entry.1 = Some (Some k) ∧ rg_columns rg !! k = Some c ∧ filter_typed entry.2 (column_type c) ∧
    no_empty entry.2 = true ∧ rejects_null entry.2 (column_type c) ∧ zones_ok c t.

Definition filters_fine (rg : RowGroup) (ts : TableScanState) (t : TransactionData) : Prop :=
  ∀ filters, table_filters ts = Some filters → Forall (filter_fine rg ts t) (map_to_list filters).

(** The scan stands at vector [v]. *)
Record scan_ready (rg : RowGroup) (ts : TableScanState) (st : CollectionScanState) (v : nat) : Prop := {
  sr_index : vector_index st = v;
  sr_scans : scans_at rg (column_ids ts) (column_scans st) (λ _, v);
  sr_rows : (max_row_group_row st ≤ rg_count rg)%nat;
  sr_max : (rg_start rg + max_row_group_row st ≤ max_row st)%nat;
}.

Lemma scans_at_replace rg ids scans at_ i id cs :
  scans_at rg ids scans at_ → ids !! i = Some id → column_at rg id cs (at_ i) → scans_at rg ids (<[i := cs]> scans) at_.
Proof.
  intros [Hl Hat] Hi Hcs. split; [by rewrite length_insert|]. intros j id' cs' Hj Hs.
  destruct (decide (j = i)) as [->|Hne]; [|rewrite list_lookup_insert_ne in Hs by done; by apply (Hat j)].
  rewrite list_lookup_insert_eq in Hs by (rewrite Hl; by eapply lookup_lt_Some). by simplify_eq.
Qed.

Lemma scans_at_lookup rg ids scans at_ i k c :
  scans_at rg ids scans at_ → ids !! i = Some (Some k) → rg_columns rg !! k = Some c →
  ∃ cs, scans !! i = Some cs ∧ standard_cursor c cs (at_ i * SVS).
Proof.
  intros [Hl Hat] Hi Hc. destruct (lookup_lt_is_Some_2 scans i) as [cs Hcs]; [rewrite Hl; by eapply lookup_lt_Some|].
  exists cs. split; [done|]. destruct (Hat i _ cs Hi Hcs) as (c' & Hc' & H). by simplify_eq.
Qed.

(** Rows of a skipped vector lie in the current segment. *)
Lemma skipped_rows (start v seg_start seg_end max_row row : nat) :
  (seg_start ≤ start + v * SVS)%nat → (start ≤ seg_end)%nat → (start ≤ max_row)%nat →
  let target := (((if max_row <=? seg_end then max_row else seg_end) - start) / SVS)%nat in
  (v * SVS ≤ row < target * SVS)%nat → (seg_start ≤ start + row < seg_end)%nat.
Proof.
  intros H1 H2 H3 target Hrow. pose proof vector_size_pos.
  pose proof (Nat.div_mod_eq ((if max_row <=? seg_end then max_row else seg_end) - start)%nat SVS) as Hd. fold target in Hd.
  destruct (Nat.leb_spec max_row seg_end); nia.
Qed.

Lemma check_segments_ok rg ts t entries st v :
  rowgroup_ok null_value uninitialised rg → scan_ready rg ts st v → (v * SVS < max_row_group_row st)%nat → Forall (filter_fine rg ts t) entries →
  ∃ st' b w, check_segments rg ts entries st = Ok (st', b) ∧ scan_ready rg ts st' w ∧
    same_scan st st' ∧
    if (b : bool) then w = v
    else (v < w)%nat ∧ ∀ row, (v * SVS ≤ row < w * SVS)%nat → ∃ entry, entry ∈ entries ∧ filter_holds rg ts t row entry = false.
Proof.
  intros Hrg Hst Hv HF. revert st Hst Hv. induction HF as [|[i f] entries (k & c & Hi & Hc & Ht & Hne & Hnull & Hz) HF IH]; intros st Hst Hv; cbn [check_segments].
  { exists st, true, v. by split_and!. }
  cbn [fst snd] in *. destruct (ro_columns _ _ _ Hrg k c Hc) as (Hfine & Hstart & Hcount). destruct Hst as [Hidx Hat Hrows Hmax].
  rewrite (vget_lookup _ _ _ Hi). cbn [mbind result_bind]. rewrite (GetColumn_ok rg k c Hc). cbn [mbind result_bind].
  destruct (scans_at_lookup _ _ _ _ _ _ _ Hat Hi Hc) as (cs & Hcs & Hcur). rewrite (vget_lookup _ _ _ Hcs). cbn [mbind result_bind].
  destruct (Standard_CheckZonemap_ok c cs f t v Hfine Hz Ht Hnull Hcur) as (cs' & b & -> & Hcur' & Hb). cbn [mbind result_bind].
  rewrite vset_lt by (by eapply lookup_lt_Some). cbn [mbind result_bind].
  set (st1 := set_scans st _). assert (scans_at rg (column_ids ts) (column_scans st1) (λ _, v)) as Hat1
    by (eapply scans_at_replace; [exact Hat | exact Hi | by exists c]).
  assert (same_scan st st1) as Hsame by (by split).
  destruct b.
  - destruct (IH st1) as (st' & b & w & E & Hr & M & Hw); [by split | done|]. exists st', b, w. split_and!; [done | done | by eapply same_scan_trans|].
    destruct b; [done|]. destruct Hw as [Hlt Hw]. split; [done|]. intros row Hrow. destruct (Hw row Hrow) as (e & He & Hfalse). exists e. split; [by right | done].
  - destruct (Hb eq_refl) as (j & s & Hj & Hs & Hno). unfold target_vector.
    rewrite (GetFilterScanCount_ok c cs' f _ j s (nt_stats _ (fine_type _ _ c Hfine)) Ht Hne Hj Hs). cbn [mbind result_bind].
    set (target := ((_ - rg_start rg) / SVS)%nat). change (vector_index st1) with (vector_index st). rewrite Hidx.
    assert (seg_start s ≤ rg_start rg + v * SVS ≤ seg_start s + seg_count s)%nat as Hpos.
    { destruct Hcur' as (Hcb & _ & Hrow). destruct (Hrow ltac:(lia)) as (_ & _ & Hri & _). unfold cursor in Hcb. rewrite Hj in Hcb. destruct Hcb as (s' & Hs' & Hle). simplify_eq. lia. }
    assert (v ≤ target)%nat as Hle.
    { unfold target. change (max_row st1) with (max_row st). apply Nat.div_le_lower_bound; [pose proof vector_size_pos; lia|].
      destruct (Nat.leb_spec (max_row st) (seg_start s + seg_count s)); lia. }
    destruct (Nat.eqb_spec v target) as [Heq|Hneq]; [exists st1, true, v; by split_and!|].
    destruct (next_vectors_ok _ _ (target - v) rg ts st1 v Hrg Hat1) as (st' & -> & N1 & N2 & N4). cbn [mbind result_bind].
    exists st', false, target. split_and!; [done | | by eapply same_scan_trans | |].
    + split; [rewrite N1; change (vector_index st1) with (vector_index st); lia | by replace target with (v + (target - v))%nat by lia | by rewrite (ss_rows _ _ N2) | by rewrite (ss_rows _ _ N2), (ss_max _ _ N2)].
    + lia.
    + intros row Hrow. exists (i, f). split; [by left|]. unfold filter_holds. cbn [fst snd]. rewrite Hi, Hc.
      destruct (cell false c t row) as [x|] eqn:Ex; [|done]. apply (Hno row x); [|done]. rewrite Hstart.
      apply (skipped_rows (rg_start rg) v (seg_start s) (seg_start s + seg_count s) (max_row st)); [lia | lia | lia | exact Hrow].
Qed.

(** [CheckZonemapSegments]: the rows of the skipped vectors do not pass. *)
Lemma CheckZonemapSegments_ok rg ts t st v :
  rowgroup_ok null_value uninitialised rg → filters_fine rg ts t → scan_ready rg ts st v → (v * SVS < max_row_group_row st)%nat →
  ∃ st' b w, CheckZonemapSegments rg ts st = Ok (st', b) ∧ scan_ready rg ts st' w ∧
    same_scan st st' ∧
    if (b : bool) then w = v else (v < w)%nat ∧ ∀ row, (v * SVS ≤ row < w * SVS)%nat → passes_filters rg ts t row = false.
Proof.
  intros Hrg Hf Hst Hv. unfold CheckZonemapSegments, passes_filters. destruct (table_filters ts) as [filters|] eqn:Ef.
  - destruct (check_segments_ok rg ts t (map_to_list filters) st v Hrg Hst Hv (Hf filters Ef)) as (st' & b & w & E & Hr & M & Hw).
    exists st', b, w. split_and!; try done. destruct b; [done|]. destruct Hw as [Hlt Hw]. split; [done|]. intros row Hrow.
    destruct (Hw row Hrow) as (e & He & Hfalse). apply not_true_iff_false. rewrite forallb_forall. intros Hall. apply list_elem_of_In, Hall in He. congruence.
  - exists st, true, v. by split_and!.
Qed.
End Zones.
