(* ===== verification/RowGroupScan.v ===== *)
(** One vector of a row group scan: the rows the transaction sees, the filters
    in any order, and the columns of the result. *)
From S2P Require Import Prelude Bits SelectionVector Types Stats NumericStats NumericFacts BaseStatistics StatsFacts StatsCreate ColumnSketch ValidityMask MaskFacts ChunkInfo ChunkFacts RowVersionManager VersionFacts.
From S2P Require Import TableFilter FilterFacts FilterPruning UpdateSegment UpdateFacts UpdateLaws UpdateChain UpdateSteps UpdateSystem.
From S2P Require Import UncompressedSegment UncompressedAppend SegmentLaws SegmentTree.
From S2P Require Import ColumnData ColumnFacts ColumnAppend StandardColumn StandardFacts AdaptiveFilter RowGroup RowGroupFacts.

#[local] Opaque ROW_GROUP_VECTOR_COUNT.

Lemma reads_le res k n value : reads res k value → (n ≤ k)%nat → reads res n value.
Proof. intros [H1 H2 H3] Hn. split; [lia | by eapply mask_covers_le | intros j Hj; apply H3; lia]. Qed.

(** The rows a transaction sees. *)
Definition visible (rg : RowGroup) (t : TransactionData) (row : nat) : bool :=
  match version_info rg with None => true | Some m => row_visible t m row end.

Section Scan.
Context (null_value : PhysicalType → Z) (uninitialised : Z).
Context (rg : RowGroup) (ts : TableScanState) (t : TransactionData) (v max_count : nat).
Hypothesis Hrg : rowgroup_ok null_value uninitialised rg.
Hypothesis Htxn : transaction_ok t.
Hypothesis Hv : (v * SVS < rg_count rg)%nat.
Hypothesis Hmax : (max_count ≤ rows_in (rg_count rg) v)%nat.
Abbreviation ids := (column_ids ts).
Abbreviation row r := (v * SVS + r)%nat.

Lemma vector_below : (v < ROW_GROUP_VECTOR_COUNT)%nat.
Proof. pose proof (ro_count _ _ _ Hrg). nia. Qed.

(** * The visible rows *)

Lemma GetSelVector_ok :
  let L := filter (λ r, visible rg t (row r)) (seq 0 max_count) in
  ∃ sel count, RowGroup_GetSelVector rg t v (SelectionVector_Initialize SVS) max_count = Ok (sel, count) ∧ count = length L ∧
    selection (if (count =? max_count)%nat then SelectionVector_null else sel) count (Z.of_nat <$> L).
Proof.
  intros L. unfold RowGroup_GetSelVector, visible in *. destruct (version_info rg) as [m|] eqn:E.
  - destruct (Manager_GetSelVector_ok m (rg_count rg) t v (SelectionVector_Initialize SVS) max_count SVS) as (sel & count & -> & (buf & Hb & Hlb) & Hc & Hs);
      [by apply (ro_versions _ _ _ Hrg) | done | apply vector_below | done | apply sel_cap_Initialize | unfold rows_in in Hmax; lia|].
    exists sel, count. split_and!; [done | done|]. assert (count ≤ max_count)%nat as Hle by (rewrite Hc; rewrite <- (length_seq max_count 0) at 2; apply length_filter).
    unfold selected_rows in Hs. destruct (Nat.eqb_spec count max_count) as [->|Hne]; split; try done.
    unfold sel_readable. rewrite Hb. unfold rows_in in Hmax. lia.
  - assert (L = seq 0 max_count) as HL by (apply filter_all; by intros). rewrite HL, length_seq. exists (SelectionVector_Initialize SVS), max_count. split_and!; [done..|].
    by rewrite Nat.eqb_refl.
Qed.

(** * The filters *)

(** The vector at position [i] holds the values of its column. *)
Definition holds_column (i : nat) (flat : FlatVector Z) : Prop :=
  ∃ k c, ids !! i = Some (Some k) ∧ rg_columns rg !! k = Some c ∧ reads flat max_count (λ j, cell false c t (row j)).

(** The filters at the positions [done] were evaluated. *)
Record filtering (filters : TableFilterSet) (done_ : list nat) (fs : filter_state) : Prop := {
  fl_scans : scans_at rg ids (fs_scans fs) (λ i, if bool_decide (i ∈ done_) then S v else v);
  fl_length : length (fs_chunk fs) = length ids;
  fl_chunk : ∀ i res, fs_chunk fs !! i = Some res →
    ∃ flat, res = RV_flat flat ∧ if bool_decide (i ∈ done_) then holds_column i flat else fresh_vector flat;
  fl_rows : ∃ R, selection (fs_sel fs) (fs_count fs) (Z.of_nat <$> R) ∧ NoDup R ∧
    ∀ r, r ∈ R ↔ (r < max_count)%nat ∧ visible rg t (row r) = true ∧
      ∀ i f, i ∈ done_ → filters !! i = Some f → filter_holds rg ts t (row r) (i, f) = true;
}.

Lemma column_ready i k c cs :
  ids !! i = Some (Some k) → rg_columns rg !! k = Some c → standard_cursor c cs (v * SVS) →
  ∀ flat, fresh_vector flat → ∃ cs' flat' n,
    Standard_ScanVector (column_codec null_value uninitialised c) (column_updates c) c t v cs flat = Ok (cs', flat', n) ∧
    standard_cursor c cs' (S v * SVS) ∧ reads flat' max_count (λ j, cell false c t (row j)).
Proof.
  intros Hi Hc Hcur flat Hfl. destruct (ro_columns _ _ _ Hrg k c Hc) as (Hfine & _ & Hcount).
  destruct (column_scan_ok _ _ c t v cs flat Hfine Hfl Hcur) as (cs' & flat' & E & Hcur' & Hr); [by rewrite Hcount|].
  eexists _, _, _. split; [exact E|]. split; [done|]. apply (reads_le _ _ _ _ Hr). rewrite Hcount. exact Hmax.
Qed.

Lemma reads_cell flat c j : reads flat max_count (λ j, cell false c t (row j)) → (j < max_count)%nat → is_Some (cell false c t (row j)).
Proof.
  intros [Hd _ Hr] Hj. rewrite <- (Hr j Hj). unfold vector_value. destruct (valid_at _ j); [|by eexists].
  destruct (lookup_lt_is_Some_2 (flat_data flat) j) as [x ->]; [lia | by eexists].
Qed.

Lemma scans_at_step scans i k c cs (P Q : nat → nat) :
  scans_at rg ids scans P → ids !! i = Some (Some k) → rg_columns rg !! k = Some c → standard_cursor c cs (Q i * SVS) →
  (∀ j, j ≠ i → Q j = P j) → scans_at rg ids (<[i := cs]> scans) Q.
Proof.
  intros [Hl Hat] Hi Hc Hcur HQ. split; [by rewrite length_insert|]. intros j id cs' Hj Hs.
  destruct (decide (j = i)) as [->|Hne].
  - rewrite list_lookup_insert_eq in Hs by (rewrite Hl; by eapply lookup_lt_Some). simplify_eq. by exists c.
  - rewrite list_lookup_insert_ne in Hs by done. rewrite HQ by done. by apply (Hat j).
Qed.

Lemma apply_filter_ok filters done_ fs i f :
  filtering filters done_ fs → i ∉ done_ → filters !! i = Some f → filter_fine rg ts t (i, f) →
  ∃ fs', apply_filter null_value uninitialised rg ts t v filters fs i = Ok fs' ∧ filtering filters (i :: done_) fs'.
Proof.
  intros [Hsc Hlen Hch (R & Hsel & Hnd & HR)] Hni Hf (k & c & Hi & Hc & Ht & _ & _ & _). cbn [fst snd] in *. unfold apply_filter.
  rewrite (vget_lookup _ _ _ Hi). cbn [mbind result_bind]. rewrite (GetColumn_ok rg k c Hc). cbn [mbind result_bind].
  destruct (scans_at_lookup _ _ _ _ _ _ _ Hsc Hi Hc) as (cs & Hcs & Hcur). rewrite bool_decide_false in Hcur by done.
  rewrite (vget_lookup _ _ _ Hcs). cbn [mbind result_bind].
  destruct (lookup_lt_is_Some_2 (fs_chunk fs) i) as [res Hres]; [rewrite Hlen; by eapply lookup_lt_Some|]. rewrite (vget_lookup _ _ _ Hres). cbn [mbind result_bind].
  destruct (Hch i res Hres) as (flat & -> & Hfresh). rewrite bool_decide_false in Hfresh by done. cbn [flat_vector mbind result_bind]. rewrite Hf. cbn [mbind result_bind].
  unfold Standard_Select. destruct (column_ready i k c cs Hi Hc Hcur flat Hfresh) as (cs' & flat' & n & -> & Hcur' & Hreads). cbn [mbind result_bind].
  pose proof (nt_stats _ (fine_type _ _ c (proj1 (ro_columns _ _ _ Hrg k c Hc)))) as Hst.
  assert (HRb : ∀ r, r ∈ R → (r < max_count)%nat) by (intros r Hr; by apply HR).
  assert (Hrange : ∀ z, z ∈ Z.of_nat <$> R → 0 ≤ z < Z.of_nat max_count) by (intros z (r & -> & Hr)%list_elem_of_fmap; specialize (HRb r Hr); lia).
  destruct (FilterSelection_filters f (ToUnifiedFormat (cd_type (sd_base c)) flat') (fs_sel fs) (fs_count fs) (Z.of_nat <$> R)) as (sel & m & R' & -> & HsR & HnR & HinR & _).
  { done. }
  { apply Forall_forall. intros z Hz%Hrange. pose proof vector_size_u16. unfold rows_in in Hmax. lia. }
  { by apply NoDup_fmap; [apply _|]. }
  { by apply (typed_fits _ _ _ _ Hst Hreads). }
  cbn [mbind result_bind]. rewrite !vset_lt by (by eapply lookup_lt_Some). cbn [mbind result_bind]. eexists. split; [done|].
  assert (HR' : R' = Z.of_nat <$> (Z.to_nat <$> R')).
  { rewrite <- list_fmap_compose. symmetry. rewrite <- (list_fmap_id R') at 2. apply list_fmap_ext. intros j z Hz. cbn.
    assert (z ∈ Z.of_nat <$> R) as Hin by (apply (HinR z); by eapply list_elem_of_lookup_2). apply Hrange in Hin. lia. }
  split; cbn [fs_scans fs_chunk fs_sel fs_count].
  - eapply scans_at_step; [exact Hsc | done | done | |]; cbn.
    + rewrite bool_decide_true by (by left). done.
    + intros j Hj. apply (f_equal (λ b : bool, if b then S v else v)). apply bool_decide_ext. rewrite elem_of_cons. tauto.
  - by rewrite length_insert.
  - intros j res Hj. destruct (decide (j = i)) as [->|Hne].
    + rewrite list_lookup_insert_eq in Hj by (by eapply lookup_lt_Some). injection Hj as <-. exists flat'. split; [done|]. rewrite bool_decide_true by (by left).
      by exists k, c.
    + rewrite list_lookup_insert_ne in Hj by done. destruct (Hch j res Hj) as (fl & -> & H). exists fl. split; [done|].
      rewrite (bool_decide_ext (j ∈ i :: done_) (j ∈ done_)) by (rewrite elem_of_cons; tauto). done.
  - exists (Z.to_nat <$> R'). rewrite <- HR'. split_and!; [done | |].
    + rewrite HR' in HnR. by apply NoDup_fmap_1 in HnR.
    + intros r. assert (Hfr : (r < max_count)%nat → row_passes f (ToUnifiedFormat (cd_type (sd_base c)) flat') (Z.of_nat r) = filter_holds rg ts t (row r) (i, f)).
      { intros Hr. destruct (reads_cell flat' c r Hreads Hr) as [x Hx]. unfold filter_holds. cbn [fst snd]. rewrite Hi, Hc, Hx.
        apply (scanned_passes _ _ _ _ Hst Hreads); done. }
      assert (r ∈ Z.to_nat <$> R' ↔ r ∈ R ∧ row_passes f (ToUnifiedFormat (cd_type (sd_base c)) flat') (Z.of_nat r) = true) as ->.
      { rewrite <- (list_elem_of_fmap_inj Z.of_nat R r), <- HinR. rewrite HR' at 2. by rewrite (list_elem_of_fmap_inj Z.of_nat). }
      rewrite HR. split.
      * intros [(Hr & Hvis & Hall) Hp]. split_and!; [done | done|]. intros j g [->|Hj]%elem_of_cons Hg; [|by apply Hall]. simplify_eq. by rewrite <- Hfr.
      * intros (Hr & Hvis & Hall). split_and!; [done | done | intros j g Hj; apply Hall; by right|]. rewrite Hfr by done. apply Hall; [by left | done].
Qed.

Lemma filter_loop_ok filters columns done_ fs :
  filtering filters done_ fs → NoDup columns → (∀ i, i ∈ columns → (i ∉ done_) ∧ ∃ f, filters !! i = Some f ∧ filter_fine rg ts t (i, f)) →
  ∃ fs' done', foldM (apply_filter null_value uninitialised rg ts t v filters) fs columns = Ok fs' ∧ filtering filters done' fs' ∧
    ∀ i, i ∈ done' ↔ i ∈ columns ∨ i ∈ done_.
Proof.
  revert done_ fs. induction columns as [|i columns IH]; intros done_ fs Hfs Hnd Hall.
  - exists fs, done_. split_and!; [done | done|]. intros i. rewrite elem_of_nil. tauto.
  - apply NoDup_cons in Hnd as [Hni Hnd]. destruct (Hall i ltac:(by left)) as (Hi & f & Hf & Hfine).
    destruct (apply_filter_ok filters done_ fs i f Hfs Hi Hf Hfine) as (fs1 & E & Hfs1). cbn [foldM]. rewrite E. cbn [mbind result_bind].
    destruct (IH (i :: done_) fs1 Hfs1 Hnd) as (fs' & done' & E' & Hfs' & Hd).
    + intros j Hj. destruct (Hall j ltac:(by right)) as (Hj' & g & Hg). split; [|by exists g]. rewrite elem_of_cons. intros [->|?]; done.
    + exists fs', done'. split_and!; [done | done|]. intros j. rewrite Hd, !elem_of_cons. tauto.
Qed.

(** Slicing the filtered vectors. *)
Definition sliced (sel : SelectionVector) (res : ResultVector) : ResultVector :=
  match res with RV_flat flat => RV_dictionary flat sel | _ => res end.

Lemma slice_loop_ok sel columns chunk :
  NoDup columns → (∀ i, i ∈ columns → ∃ flat, chunk !! i = Some (RV_flat flat)) →
  ∃ chunk', foldM (λ chunk i, (v ← vget chunk i; v ← Vector_Slice v sel; vset chunk i v)) chunk columns = Ok chunk' ∧ length chunk' = length chunk ∧
    ∀ i, chunk' !! i = if bool_decide (i ∈ columns) then sliced sel <$> chunk !! i else chunk !! i.
Proof.
  revert chunk. induction columns as [|i columns IH]; intros chunk Hnd Hall; [by exists chunk|]. apply NoDup_cons in Hnd as [Hni Hnd].
  destruct (Hall i ltac:(by left)) as (flat & Hi). cbn [foldM]. rewrite (vget_lookup _ _ _ Hi). cbn [mbind result_bind Vector_Slice].
  rewrite vset_lt by (by eapply lookup_lt_Some). cbn [mbind result_bind].
  destruct (IH (<[i := RV_dictionary flat sel]> chunk) Hnd) as (chunk' & -> & Hlen & Hl).
  - intros j Hj. rewrite list_lookup_insert_ne by (by intros ->). apply Hall. by right.
  - exists chunk'. rewrite length_insert in Hlen. split_and!; [done | done|]. intros j. rewrite Hl. destruct (decide (j = i)) as [->|Hne].
    + rewrite bool_decide_false by done. rewrite (bool_decide_true (i ∈ i :: columns)) by (by left).
      rewrite list_lookup_insert_eq by (by eapply lookup_lt_Some). by rewrite Hi.
    + rewrite list_lookup_insert_ne by done. by rewrite (bool_decide_ext (j ∈ i :: columns) (j ∈ columns)) by (rewrite elem_of_cons; tauto).
Qed.

(** After the filters: the rows that are left are those the scan wants, and the
    filtered vectors are views of the scanned ones. *)
Definition wanted (r : nat) : bool := visible rg t (row r) && passes_filters rg ts t (row r).

Record filtered (fs : filter_state) (R : list nat) : Prop := {
  fd_scans : scans_at rg ids (fs_scans fs) (λ i, if has_filter ts i then S v else v);
  fd_length : length (fs_chunk fs) = length ids;
  fd_chunk : ∀ i res, fs_chunk fs !! i = Some res →
    if has_filter ts i then ∃ flat, res = RV_dictionary flat (fs_sel fs) ∧ holds_column i flat else ∃ flat, res = RV_flat flat ∧ fresh_vector flat;
  fd_sel : selection (fs_sel fs) (fs_count fs) (Z.of_nat <$> R);
  fd_rows : R ≡ₚ filter (λ r, wanted r) (seq 0 max_count);
}.

Definition fresh_chunk (chunk : list ResultVector) : Prop :=
  length chunk = length ids ∧ ∀ i res, chunk !! i = Some res → ∃ flat, res = RV_flat flat ∧ fresh_vector flat.

Lemma wanted_rows R :
  NoDup R → (∀ r, r ∈ R ↔ (r < max_count)%nat ∧ wanted r = true) → R ≡ₚ filter (λ r, wanted r) (seq 0 max_count).
Proof.
  intros Hnd HR. apply NoDup_Permutation; [done | apply NoDup_filter, NoDup_seq|]. intros r. rewrite HR, list_elem_of_filter, elem_of_seq, Is_true_true.
  split; [intros [? ?]; split; [done | lia] | intros [? ?]; split; [lia | done]].
Qed.

Lemma keys_elem (filters : TableFilterSet) i : i ∈ (map_to_list filters).*1 ↔ is_Some (filters !! i).
Proof.
  rewrite list_elem_of_fmap. split.
  - intros ([j f] & -> & H%elem_of_map_to_list). by exists f.
  - intros [f Hf]. exists (i, f). split; [done | by apply elem_of_map_to_list].
Qed.

Lemma run_filters_ok filters order scans chunk sel count L :
  table_filters ts = Some filters → filters_fine rg ts t → order ≡ₚ (map_to_list filters).*1 →
  scans_at rg ids scans (λ _, v) → fresh_chunk chunk → L = filter (λ r, visible rg t (row r)) (seq 0 max_count) →
  selection sel count (Z.of_nat <$> L) →
  ∃ fs R, run_filters null_value uninitialised false rg ts t v filters order (mkFilterState scans chunk sel count []) = Ok fs ∧ filtered fs R.
Proof.
  intros Ef Hfine Hord Hsc [Hlen Hch] HL Hsel. unfold run_filters.
  assert (Hsize : length order = base.size filters) by (rewrite (Permutation_length Hord), length_fmap; apply length_map_to_list).
  rewrite mapR_vget_seq by (rewrite Hsize; done). cbn [mbind result_bind]. rewrite <- Hsize, firstn_all.
  assert (filtering filters [] (mkFilterState scans chunk sel count [])) as H0.
  { split; cbn [fs_scans fs_chunk fs_sel fs_count].
    - exact Hsc.
    - done.
    - intros i res Hi. apply (Hch i res Hi).
    - exists L. subst L. split_and!; [done | apply NoDup_filter, NoDup_seq|]. intros r. rewrite list_elem_of_filter, elem_of_seq, Is_true_true.
      split; [intros [? ?]; split_and!; [lia | done | by intros i f Hno%elem_of_nil] | intros (? & ? & _); split; [done | lia]]. }
  assert (Hnd : NoDup order) by (rewrite Hord; apply NoDup_fst_map_to_list).
  destruct (filter_loop_ok filters order [] _ H0 Hnd) as (fs & done_ & -> & [Hsc' Hlen' Hch' (R & Hsel' & HndR & HR)] & Hdone).
  { intros i Hi. split; [by intros Hno%elem_of_nil|]. rewrite Hord, keys_elem in Hi. destruct Hi as [f Hf]. exists f. split; [done|].
    specialize (Hfine filters Ef). rewrite Forall_forall in Hfine. apply Hfine. by apply elem_of_map_to_list. }
  cbn [mbind result_bind].
  assert (Hkeys : ∀ i, i ∈ done_ ↔ is_Some (filters !! i)) by (intros i; rewrite Hdone, elem_of_nil, Hord, keys_elem; tauto).
  assert (Hhas : ∀ i, bool_decide (i ∈ done_) = has_filter ts i) by (intros i; unfold has_filter; rewrite Ef; apply bool_decide_ext, Hkeys).
  destruct (slice_loop_ok (fs_sel fs) (map_to_list filters).*1 (fs_chunk fs)) as (chunk' & -> & Hlc & Hlk); [apply NoDup_fst_map_to_list | |].
  { intros i Hi%keys_elem. specialize (Hfine filters Ef). rewrite Forall_forall in Hfine. destruct Hi as [f Hf].
    destruct (Hfine (i, f)) as (k & c & Hid & _); [by apply elem_of_map_to_list|]. cbn [fst] in Hid.
    destruct (lookup_lt_is_Some_2 (fs_chunk fs) i) as [res Hres]; [rewrite Hlen'; by eapply lookup_lt_Some|].
    destruct (Hch' i res Hres) as (flat & -> & _). by exists flat. }
  cbn [mbind result_bind]. eexists _, R. split; [done|]. split; cbn [fs_scans fs_chunk fs_sel fs_count].
  - destruct Hsc' as [Hl Hat]. split; [done|]. intros i id cs Hi Hs. rewrite <- Hhas. by apply (Hat i).
  - by rewrite Hlc.
  - intros i res Hi. rewrite Hlk in Hi. rewrite (bool_decide_ext (i ∈ (map_to_list filters).*1) (i ∈ done_)), Hhas in Hi by (by rewrite keys_elem, Hkeys).
    destruct (fs_chunk fs !! i) as [res0|] eqn:E; [|by destruct (has_filter ts i)]. destruct (Hch' i res0 E) as (flat & -> & Hfl). rewrite Hhas in Hfl.
    destruct (has_filter ts i); cbn in Hi; injection Hi as <-; by exists flat.
  - done.
  - apply wanted_rows; [done|]. intros r. rewrite HR. unfold wanted, passes_filters. rewrite Ef, andb_true_iff, forallb_forall.
    split; intros (Hr & Hvis & Hall); split_and!; try done.
    + intros [i f] Hin%list_elem_of_In%elem_of_map_to_list. apply Hall; [rewrite Hkeys; by exists f | done].
    + intros i f Hi Hf. apply Hall. by apply list_elem_of_In, elem_of_map_to_list.
Qed.

(** * The result *)

(** Row [j] of a result vector. *)
Definition chunk_value (res : ResultVector) (j : nat) : option (option Z) :=
  match res with
  | RV_flat flat => vector_value flat j
  | RV_dictionary flat sel => match get_index sel j with Ok idx => vector_value flat (Z.to_nat idx) | Throw _ => None end
  | RV_sequence start => Some (Some (start + Z.of_nat j))
  end.

(** The value of a row in a column of the scan: the row id, or the cell. *)
Definition row_cell (id : option nat) (r : nat) : option (option Z) :=
  match id with
  | None => Some (Some (Z.of_nat (rg_start rg + r)))
  | Some k => match rg_columns rg !! k with Some c => cell false c t r | None => None end
  end.

(** The rows of the chunk are the rows [R] of the vector. *)
Definition chunk_shows (chunk : list ResultVector) (R : list nat) : Prop :=
  length chunk = length ids ∧
  ∀ i id res j r, ids !! i = Some id → chunk !! i = Some res → R !! j = Some r → chunk_value res j = row_cell id (row r).

Lemma selection_index sel n R j r : selection sel n (Z.of_nat <$> R) → R !! j = Some r → get_index sel j = Ok (Z.of_nat r) ∧ (j < n)%nat.
Proof.
  intros Hs Hj. pose proof (selection_length _ _ _ Hs) as Hl. rewrite length_fmap in Hl. assert (j < n)%nat as Hlt by (rewrite <- Hl; by eapply lookup_lt_Some).
  destruct Hs as [Hr HL]. destruct (get_index_sel_list sel n j Hr Hlt) as (z & -> & Hz). rewrite HL, list_lookup_fmap, Hj in Hz. by injection Hz as <-.
Qed.

Lemma selected_row_ids_ok first sel n R flat :
  selection sel n (Z.of_nat <$> R) → (n ≤ SVS)%nat → fresh_vector flat →
  ∃ flat', selected_row_ids first sel n flat = Ok flat' ∧ ∀ j r, R !! j = Some r → vector_value flat' j = Some (Some (first + Z.of_nat r)).
Proof.
  intros Hs Hn [Hlen _ _ Hvalid]. unfold selected_row_ids. pose proof (selection_length _ _ _ Hs) as Hl. rewrite length_fmap in Hl.
  destruct (foldM_seq (λ d i, idx ← get_index sel i; vset d i (first + idx))
    (λ i d, length d = length (flat_data flat) ∧ ∀ j r, (j < i)%nat → R !! j = Some r → d !! j = Some (first + Z.of_nat r)) (flat_data flat) 0 n) as (d & -> & _ & Hd).
  - split; [done | lia].
  - intros i d Hi [Hld Hd]. rewrite Nat.add_0_l. destruct (lookup_lt_is_Some_2 R i) as [r Hr]; [lia|]. rewrite (proj1 (selection_index _ _ _ _ _ Hs Hr)). cbn [mbind result_bind].
    rewrite vset_lt by lia. eexists. split; [done|]. split; [by rewrite length_insert|]. intros j r' Hj Hr'. destruct (decide (j = i)) as [->|Hne].
    + rewrite list_lookup_insert_eq by lia. by simplify_eq.
    + rewrite list_lookup_insert_ne by done. apply Hd; [lia | done].
  - cbn [mbind result_bind]. eexists. split; [done|]. intros j r Hr. pose proof (selection_index _ _ _ _ _ Hs Hr) as [_ Hj].
    unfold vector_value. cbn [flat_data flat_validity]. rewrite Hvalid by lia. by rewrite (Hd j r Hj Hr).
Qed.

(** A vector of the column, seen through the selection. *)
Lemma dictionary_value i k flat sel n R j r :
  ids !! i = Some (Some k) → holds_column i flat → selection sel n (Z.of_nat <$> R) → (∀ r, r ∈ R → (r < max_count)%nat) → R !! j = Some r →
  chunk_value (RV_dictionary flat sel) j = row_cell (Some k) (row r).
Proof.
  intros Hi (k' & c & Hi' & Hc & Hr) Hs HR Hj. simplify_eq. cbn [chunk_value row_cell]. rewrite (proj1 (selection_index _ _ _ _ _ Hs Hj)), Nat2Z.id, Hc.
  apply (rd_value _ _ _ Hr). apply HR. by eapply list_elem_of_lookup_2.
Qed.

Lemma scan_column_regular i k c cs flat :
  ids !! i = Some (Some k) → rg_columns rg !! k = Some c → standard_cursor c cs (v * SVS) → fresh_vector flat →
  ∃ cs' flat', scan_column null_value uninitialised TABLE_SCAN_REGULAR rg t v (Some k) cs (RV_flat flat) = Ok (cs', flat') ∧
    column_at rg (Some k) cs' (S v) ∧ holds_column i flat'.
Proof.
  intros Hi Hc Hcur Hfl. unfold scan_column. rewrite (GetColumn_ok rg k c Hc). cbn [mbind result_bind flat_vector]. rewrite bool_decide_true by done.
  destruct (column_ready i k c cs Hi Hc Hcur flat Hfl) as (cs' & flat' & n & -> & Hcur' & Hr). cbn [mbind result_bind].
  eexists _, _. split; [done|]. split; by exists c || by exists k, c.
Qed.

Lemma filtered_bound fs R : filtered fs R → fs_count fs = length R ∧ (length R ≤ max_count)%nat ∧ (∀ r, r ∈ R → (r < max_count)%nat).
Proof.
  intros [_ _ _ Hs HR]. pose proof (selection_length _ _ _ Hs) as Hl. rewrite length_fmap in Hl. split_and!; [done | |].
  - rewrite HR. rewrite <- (length_seq max_count 0) at 2. apply length_filter.
  - intros r. rewrite HR. rewrite list_elem_of_filter, elem_of_seq. intros [_ ?]. lia.
Qed.

(** The columns without a filter. *)
Lemma scan_unfiltered_ok fs R st :
  filtered fs R → vector_index st = v →
  ∃ scans chunk, scan_unfiltered null_value uninitialised TABLE_SCAN_REGULAR rg ts t st fs = Ok (scans, chunk) ∧
    scans_at rg ids scans (λ _, S v) ∧ chunk_shows chunk R.
Proof.
  intros Hf Hidx. destruct (filtered_bound fs R Hf) as (Hcount & HRlen & HRb). destruct Hf as [[Hls Hat] Hlen Hch Hsel HR]. unfold scan_unfiltered.
  match goal with |- context [map_columns ?f] => destruct (map_columns_ok f 0 ids (fs_scans fs) (fs_chunk fs)
    (λ i id cs res, column_at rg id cs (S v) ∧ ∀ j r, R !! j = Some r → chunk_value res j = row_cell id (row r)) Hls Hlen) as (scans & chunk & E & H1 & H2 & H3) end.
  - intros i id cs res Hi Hcs Hres. specialize (Hat i id cs Hi Hcs). specialize (Hch i res Hres). cbn [Nat.add]. destruct (has_filter ts i).
    + exists cs, res. split_and!; [done | done|]. intros j r Hj. destruct Hch as (flat & -> & Hflat). pose proof Hflat as (k & c & Hk & _). simplify_eq.
      by eapply dictionary_value.
    + destruct Hch as (flat & -> & Hfresh). destruct id as [k|].
      * destruct Hat as (c & Hc & Hcur). rewrite Hidx.
        destruct (scan_column_regular i k c cs flat Hi Hc Hcur Hfresh) as (cs' & flat' & -> & Hcs' & Hfl'). cbn [mbind result_bind].
        eexists _, _. split; [done|]. split; [done|]. intros j r Hj. by eapply dictionary_value.
      * cbn [flat_vector mbind result_bind]. rewrite Hidx.
        destruct (selected_row_ids_ok (Z.of_nat (rg_start rg + v * SVS)) (fs_sel fs) (fs_count fs) R flat Hsel) as (flat' & -> & Hval); [unfold rows_in in Hmax; lia | done|].
        cbn [mbind result_bind]. eexists _, _. split; [done|]. split; [done|]. intros j r Hj. cbn [chunk_value row_cell]. rewrite (Hval j r Hj). do 2 f_equal. lia.
  - rewrite E. exists scans, chunk. split_and!; [done | split; [done|]; intros i id cs Hi Hs | split; [done|]; intros i id res j r Hi Hres Hj].
    + destruct (lookup_lt_is_Some_2 chunk i) as [res Hres]; [rewrite H2; by eapply lookup_lt_Some|]. by apply (H3 i id cs res).
    + destruct (lookup_lt_is_Some_2 scans i) as [cs Hcs]; [rewrite H1; by eapply lookup_lt_Some|]. by apply (H3 i id cs res).
Qed.

(** All columns, when every row is visible and there are no filters. *)
Lemma scan_full_ok st chunk :
  scans_at rg ids (column_scans st) (λ _, v) → vector_index st = v → fresh_chunk chunk →
  ∃ scans chunk', scan_full null_value uninitialised TABLE_SCAN_REGULAR rg ts t st chunk = Ok (scans, chunk') ∧
    scans_at rg ids scans (λ _, S v) ∧ chunk_shows chunk' (seq 0 max_count).
Proof.
  intros [Hls Hat] Hidx [Hlen Hch]. unfold scan_full.
  match goal with |- context [map_columns ?f] => destruct (map_columns_ok f 0 ids (column_scans st) chunk
    (λ i id cs res, column_at rg id cs (S v) ∧ ∀ j r, seq 0 max_count !! j = Some r → chunk_value res j = row_cell id (row r)) Hls Hlen) as (scans & chunk' & E & H1 & H2 & H3) end.
  - intros i id cs res Hi Hcs Hres. specialize (Hat i id cs Hi Hcs). destruct (Hch i res Hres) as (flat & -> & Hfresh). rewrite Hidx. destruct id as [k|].
    + destruct Hat as (c & Hc & Hcur). destruct (scan_column_regular i k c cs flat Hi Hc Hcur Hfresh) as (cs' & flat' & -> & Hcs' & (k' & c' & Hi' & Hc' & Hr)). cbn [mbind result_bind].
      eexists _, _. split; [done|]. split; [done|]. intros j r [-> Hj]%lookup_seq. simplify_eq. cbn [chunk_value row_cell]. rewrite Hc. by apply (rd_value _ _ _ Hr).
    + eexists _, _. split; [done|]. split; [done|]. intros j r [-> Hj]%lookup_seq. cbn [chunk_value row_cell]. do 2 f_equal. lia.
  - rewrite E. exists scans, chunk'. split_and!; [done | split; [done|]; intros i id cs Hi Hs | split; [done|]; intros i id res j r Hi Hres Hj].
    + destruct (lookup_lt_is_Some_2 chunk' i) as [res Hres]; [rewrite H2; by eapply lookup_lt_Some|]. by apply (H3 i id cs res).
    + destruct (lookup_lt_is_Some_2 scans i) as [cs Hcs]; [rewrite H1; by eapply lookup_lt_Some|]. by apply (H3 i id cs res).
Qed.

Lemma skip_unfiltered_ok scans :
  scans_at rg ids scans (λ i, if has_filter ts i then S v else v) →
  ∃ scans', skip_unfiltered rg ts scans = Ok scans' ∧ scans_at rg ids scans' (λ _, S v).
Proof.
  intros [Hls Hat]. unfold skip_unfiltered.
  match goal with |- context [map_columns ?f] => destruct (map_columns_ok f 0 ids scans (replicate (length ids) (RV_sequence 0))
    (λ i id cs res, column_at rg id cs (S v)) Hls) as (scans' & chunk' & E & H1 & H2 & H3) end.
  - apply length_replicate.
  - intros i id cs res Hi Hcs _. specialize (Hat i id cs Hi Hcs). cbn [Nat.add]. destruct id as [k|]; [|by exists cs, res].
    destruct (has_filter ts i); [by exists cs, res|]. destruct Hat as (c & Hc & Hcur). rewrite (GetColumn_ok rg k c Hc). cbn [mbind result_bind].
    destruct (column_skip_ok _ _ c cs v (proj1 (ro_columns _ _ _ Hrg k c Hc)) Hcur) as (cs' & -> & Hcur'). cbn [mbind result_bind]. exists cs', res. split; [done|]. by exists c.
  - rewrite E. cbn [mbind result_bind]. exists scans'. split; [done|]. split; [done|]. intros i id cs Hi Hs.
    destruct (lookup_lt_is_Some_2 chunk' i) as [res Hres]; [rewrite H2; by eapply lookup_lt_Some|]. by apply (H3 i id cs res).
Qed.
End Scan.
