(* ===== verification/RowGroupLoop.v ===== *)
(** The scan of a row group: every call returns the wanted rows of the next
    vector that has some, or reports that there are none left; starting a scan
    checks the zone maps of the columns. *)
From S2P Require Import Prelude Bits SelectionVector ColumnSketch Types Stats NumericStats NumericFacts BaseStatistics StatsFacts StatsCreate TableFilter FilterFacts FilterPruning.
From S2P Require Import ValidityMask MaskFacts ChunkInfo ChunkFacts RowVersionManager VersionFacts UpdateSegment UpdateFacts UpdateLaws UpdateChain UpdateSteps UpdateSystem UncompressedAppend.
From S2P Require Import UncompressedSegment SegmentLaws SegmentTree ColumnData ColumnFacts ColumnAppend StandardColumn StandardFacts AdaptiveFilter RowGroup RowGroupFacts RowGroupScan.

#[local] Opaque ROW_GROUP_VECTOR_COUNT.

(** The rows a scan is to return: visible, and passing the filters. *)
Definition scan_wanted (rg : RowGroup) (ts : TableScanState) (t : TransactionData) (row : nat) : bool :=
  visible rg t row && passes_filters rg ts t row.

(** The filters are tried in some order, and the random numbers stay below
    the border. *)
Definition order_ok (ts : TableScanState) (a : AdaptiveFilter) : Prop :=
  ∀ filters, table_filters ts = Some filters → adaptive_ok a (map_to_list filters).*1.
Definition measurement_ok (ts : TableScanState) (measurement : bool * nat) : Prop :=
  ∀ filters, table_filters ts = Some filters → (1 < base.size filters)%nat → (measurement.2 < 100 * (base.size filters - 1))%nat.

Section Loop.
Context (null_value : PhysicalType → Z) (uninitialised : Z).
Context (rg : RowGroup) (ts : TableScanState) (t : TransactionData) (measurement : bool * nat) (fresh : list ResultVector).
Hypothesis Hrg : rowgroup_ok null_value uninitialised rg.
Hypothesis Htxn : transaction_ok t.
Hypothesis Hfine : filters_fine rg ts t.
Hypothesis Hsketch : can_sketch rg (column_ids ts) = Ok false.
Hypothesis Hmeasure : measurement_ok ts measurement.
Hypothesis Hfresh : fresh_chunk ts fresh.
Abbreviation ids := (column_ids ts).
Abbreviation wanted_row := (scan_wanted rg ts t).
Abbreviation scan_type := TABLE_SCAN_REGULAR.

(** The rows of vector [w] below [rows]. *)
Definition vector_rows_of (rows w : nat) : nat := Nat.min SVS (rows - w * SVS).

(** What a call returns that starts at vector [v]; [st0] has the bounds of the
    scan. *)
Definition scan_outcome (st0 : CollectionScanState) (v : nat) (e : result (RowGroup * CollectionScanState * AdaptiveFilter * list ResultVector * nat)) : Prop :=
  ∃ st a chunk n, e = Ok (rg, st, a, chunk, n) ∧ order_ok ts a ∧ same_scan st0 st ∧
    ((n = O ∧ length (column_scans st) = length ids ∧ ∀ r, (v * SVS ≤ r < max_row_group_row st0)%nat → wanted_row r = false) ∨
     ∃ w R, (v ≤ w)%nat ∧ (w * SVS < max_row_group_row st0)%nat ∧ scan_ready rg ts st (S w) ∧ n = length R ∧ (0 < n)%nat ∧
       R ≡ₚ filter (λ r, wanted_row (w * SVS + r)) (seq 0 (vector_rows_of (max_row_group_row st0) w)) ∧ chunk_shows rg ts t w chunk R ∧
       ∀ r, (v * SVS ≤ r < w * SVS)%nat → wanted_row r = false).

Lemma outcome_skip st0 v w e :
  (v ≤ w)%nat → (∀ r, (v * SVS ≤ r < w * SVS)%nat → (r < max_row_group_row st0)%nat → wanted_row r = false) → scan_outcome st0 w e → scan_outcome st0 v e.
Proof.
  intros Hvw Hno (st & a & chunk & n & E & Ha & Hm & H). exists st, a, chunk, n. split_and!; try done.
  destruct H as [(-> & Hl & H)|(w' & R & H1 & H2 & H3 & H4 & H5 & H6 & H7 & H8)]; [left | right].
  - split_and!; [done | done|]. intros r Hr. destruct (decide (r < w * SVS)%nat); [apply Hno; lia | apply H; lia].
  - exists w', R. split_and!; try done; [lia|]. intros r Hr. destruct (decide (r < w * SVS)%nat); [apply Hno; nia | apply H8; lia].
Qed.

Lemma empty_vector rows v :
  filter (λ r, wanted_row (v * SVS + r)) (seq 0 (vector_rows_of rows v)) = [] →
  ∀ r, (v * SVS ≤ r < S v * SVS)%nat → (r < rows)%nat → wanted_row r = false.
Proof.
  intros E r Hr Hlt. apply not_true_iff_false. intros Hw. assert (r - v * SVS ∈ filter (λ r, wanted_row (v * SVS + r)) (seq 0 (vector_rows_of rows v)))%nat as Hin.
  { apply list_elem_of_filter. replace (v * SVS + (r - v * SVS))%nat with r by lia. rewrite Hw. split; [done|]. apply elem_of_seq. unfold vector_rows_of. lia. }
  rewrite E in Hin. by apply elem_of_nil in Hin.
Qed.

Lemma adapt_ok a : order_ok ts a →
  ∃ a', match table_filters ts with
        | Some filters => if (1 <? base.size filters)%nat then AdaptRuntimeStatistics a measurement.1 measurement.2 else Ok a
        | None => Ok a
        end = Ok a' ∧ order_ok ts a'.
Proof.
  unfold order_ok, measurement_ok in *. destruct (table_filters ts) as [filters|] eqn:Ef; intros Ha; [|by exists a].
  destruct (Nat.ltb_spec 1 (base.size filters)) as [Hs|Hs]; [|by exists a]. specialize (Ha filters eq_refl). specialize (Hmeasure filters eq_refl Hs).
  assert (length (map_to_list filters).*1 = base.size filters) as Hl by (rewrite length_fmap; apply length_map_to_list).
  destruct (AdaptRuntimeStatistics_ok a _ measurement.1 measurement.2 Ha) as (a' & E & Ha'); [rewrite (ad_border _ _ Ha), Hl; done|].
  exists a'. split; [done|]. by intros ? [= <-].
Qed.

(** The filters, or the visible rows when there are none. *)
Lemma filters_ok st v max_count sel count a :
  scan_ready rg ts st v → (v * SVS < rg_count rg)%nat → (max_count ≤ rows_in (rg_count rg) v)%nat → order_ok ts a →
  selection sel count (Z.of_nat <$> filter (λ r, visible rg t (v * SVS + r)) (seq 0 max_count)) →
  ∃ fs R, match table_filters ts with
          | Some filters => run_filters null_value uninitialised false rg ts t v filters (permutation a) (mkFilterState (column_scans st) fresh sel count [])
          | None => Ok (mkFilterState (column_scans st) fresh sel count [])
          end = Ok fs ∧ filtered rg ts t v max_count fs R.
Proof.
  intros Hst Hv Hmax Ha Hsel. destruct (table_filters ts) as [filters|] eqn:Ef.
  - eapply run_filters_ok; try done; [apply (Ha filters Ef) | apply Hst].
  - eexists _, _. split; [done|]. assert (∀ i, has_filter ts i = false) as Hno by (intros i; unfold has_filter; by rewrite Ef).
    split; cbn [fs_scans fs_chunk fs_sel fs_count]; [| | | exact Hsel|].
    + destruct (sr_scans _ _ _ _ Hst) as [Hl Hat]. split; [done|]. intros i id cs Hi Hs. rewrite Hno. by apply (Hat i).
    + apply Hfresh.
    + intros i res Hi. rewrite Hno. by apply (proj2 Hfresh i).
    + erewrite list_filter_iff; [done|]. intros r. unfold wanted, passes_filters. rewrite Ef, andb_true_r. done.
Qed.

(** The vector [v]: its rows are returned, or the scan goes on behind it. *)
Lemma vector_ok (next : CollectionScanState → result (RowGroup * CollectionScanState * AdaptiveFilter * list ResultVector * nat)) st0 st v a max_count count sel :
  let rows := max_row_group_row st0 in scan_ready rg ts st v → same_scan st0 st → (v * SVS < rows)%nat → order_ok ts a → max_count = vector_rows_of rows v →
  (∀ st', scan_ready rg ts st' (S v) → same_scan st0 st' → scan_outcome st0 (S v) (next st')) →
  count = length (filter (λ r, visible rg t (v * SVS + r)) (seq 0 max_count)) →
  selection (if (count =? max_count)%nat then SelectionVector_null else sel) count (Z.of_nat <$> filter (λ r, visible rg t (v * SVS + r)) (seq 0 max_count)) →
  scan_outcome st0 v
    (if reads_versions scan_type && (count =? 0)%nat then st ← NextVector rg ts st; next st
     else if (count =? max_count)%nat && bool_decide (table_filters ts = None) then
       '(scans, chunk) ← scan_full null_value uninitialised scan_type rg ts t st fresh;
       Ok (rg, next_index (set_scans st scans), a, chunk, count)
     else
       fs ← match table_filters ts with
            | Some filters => run_filters null_value uninitialised false rg ts t v filters (permutation a)
                (mkFilterState (column_scans st) fresh (if (count =? max_count)%nat then SelectionVector_null else sel) count [])
            | None => Ok (mkFilterState (column_scans st) fresh (if (count =? max_count)%nat then SelectionVector_null else sel) count [])
            end;
       if (fs_count fs =? 0)%nat then
         scans ← skip_unfiltered rg ts (fs_scans fs);
         next (next_index (set_scans st scans))
       else
         '(scans, chunk) ← scan_unfiltered null_value uninitialised scan_type rg ts t st fs;
         a ← match table_filters ts with
             | Some filters => if (1 <? base.size filters)%nat then AdaptRuntimeStatistics a measurement.1 measurement.2 else Ok a
             | None => Ok a
             end;
         Ok (rg, next_index (set_scans st scans), a, chunk, fs_count fs)).
Proof.
  intros rows Hst Hrows Hv Ha Hmc Hnext Hcount Hsel.
  assert (rows ≤ rg_count rg)%nat as Hle by (unfold rows; rewrite <- (ss_rows _ _ Hrows); apply Hst).
  assert (max_count ≤ rows_in (rg_count rg) v)%nat as Hmax by (rewrite Hmc; unfold vector_rows_of, rows_in; lia).
  assert (0 < max_count)%nat as Hpos by (rewrite Hmc; unfold vector_rows_of; pose proof vector_size_pos; lia).
  assert (Hready : ∀ scans, scans_at rg ids scans (λ _, S v) → scan_ready rg ts (next_index (set_scans st scans)) (S v)).
  { intros scans Hs. destruct Hst as [H1 _ H3 H4]. split; [cbn; lia | exact Hs | exact H3 | exact H4]. }
  cbn [reads_versions andb]. destruct (Nat.eqb_spec count 0) as [H0|H0].
  { destruct (NextVector_ok _ _ rg ts st v Hrg (sr_scans _ _ _ _ Hst)) as (st1 & -> & N1 & N2 & N4). cbn [mbind result_bind].
    apply (outcome_skip st0 v (S v)); [lia | | apply Hnext; [|by eapply same_scan_trans]].
    - apply (empty_vector rows). rewrite <- Hmc. rewrite H0 in Hcount. symmetry in Hcount. apply nil_length_inv in Hcount. apply elem_of_nil_inv.
      intros r [Hr Hin]%list_elem_of_filter. rewrite Is_true_true in Hr. apply andb_true_iff in Hr as [Hr _].
      assert (r ∈ filter (λ r, visible rg t (v * SVS + r)) (seq 0 max_count)) as Hmem by (by apply list_elem_of_filter; rewrite Hr). rewrite Hcount in Hmem. by apply elem_of_nil in Hmem.
    - destruct Hst as [H1 _ H3 H4]. split; [lia | done | by rewrite (ss_rows _ _ N2) | by rewrite (ss_rows _ _ N2), (ss_max _ _ N2)]. }
  destruct ((count =? max_count)%nat && bool_decide (table_filters ts = None)) eqn:Efull.
  { apply andb_true_iff in Efull as [->%Nat.eqb_eq Hnone%bool_decide_eq_true].
    destruct (scan_full_ok null_value uninitialised rg ts t v (length (seq 0 max_count)) Hrg ltac:(lia) ltac:(rewrite length_seq; lia) st fresh) as (scans & chunk & -> & Hs & Hshow); [apply Hst | apply Hst | exact Hfresh|].
    cbn [mbind result_bind]. eexists _, _, _, _. split; [done|]. split_and!; [done | by eapply same_scan_trans; [exact Hrows | split]|]. right. rewrite length_seq in Hshow.
    exists v, (seq 0 max_count). split_and!; [done | done | by apply Hready | by rewrite length_seq | lia | | done | lia].
    fold rows. rewrite <- Hmc. rewrite <- (filter_all_seq (λ r, visible rg t (v * SVS + r)) max_count) at 1 by done.
    erewrite list_filter_iff; [done|]. intros r. unfold scan_wanted, passes_filters. by rewrite Hnone, andb_true_r. }
  destruct (filters_ok st v max_count _ count a Hst ltac:(lia) Hmax Ha Hsel) as (fs & R & -> & Hf). cbn [mbind result_bind].
  destruct (filtered_bound rg ts t v max_count ltac:(lia) Hmax fs R Hf) as (Hn & _ & _).
  assert (R ≡ₚ filter (λ r, wanted_row (v * SVS + r)) (seq 0 (vector_rows_of rows v))) as HR by (rewrite <- Hmc; apply Hf).
  destruct (Nat.eqb_spec (fs_count fs) 0) as [Hz|Hz].
  - destruct (skip_unfiltered_ok null_value uninitialised rg ts v Hrg (fs_scans fs)) as (scans & -> & Hs); [apply Hf|]. cbn [mbind result_bind].
    apply (outcome_skip st0 v (S v)); [lia | | apply Hnext; [by apply Hready | by eapply same_scan_trans; [exact Hrows | split]]].
    apply (empty_vector rows). rewrite Hn in Hz. apply nil_length_inv in Hz. subst R. by apply Permutation_nil in HR.
  - destruct (scan_unfiltered_ok null_value uninitialised rg ts t v max_count Hrg ltac:(lia) Hmax fs R st Hf (sr_index _ _ _ _ Hst)) as (scans & chunk & -> & Hs & Hshow). cbn [mbind result_bind].
    destruct (adapt_ok a Ha) as (a' & -> & Ha'). cbn [mbind result_bind]. eexists _, _, _, _. split; [done|]. split_and!; [done | by eapply same_scan_trans; [exact Hrows | split]|]. right.
    exists v, R. split_and!; [done | done | by apply Hready | done | lia | done | done | lia].
Qed.

Lemma scan_loop_ok fuel st0 st v a :
  scan_ready rg ts st v → same_scan st0 st → order_ok ts a → (max_row_group_row st0 ≤ (v + fuel) * SVS)%nat →
  scan_outcome st0 v (scan_loop null_value uninitialised fuel scan_type rg ts a measurement t st fresh).
Proof.
  revert st v. induction fuel as [|fuel IH]; intros st v Hst Hrows Ha Hfuel; cbn [scan_loop]; rewrite (sr_index _ _ _ _ Hst), (ss_rows _ _ Hrows);
    destruct (Nat.leb_spec (max_row_group_row st0) (v * SVS)) as [Hdone|Hmore].
  1,3: exists st, a, fresh, O; split_and!; try done; left; split_and!; [done | apply (sr_scans _ _ _ _ Hst) | lia].
  1: lia.
  rewrite Hsketch. cbn [mbind result_bind].
  destruct (CheckZonemapSegments_ok _ _ rg ts t st v Hrg Hfine Hst ltac:(by rewrite (ss_rows _ _ Hrows))) as (st1 & b & w & -> & Hst1 & Hsame & Hb). cbn [mbind result_bind].
  destruct b; cbn [negb].
  - subst w. rewrite (sr_index _ _ _ _ Hst1). set (rows := max_row_group_row st0).
    assert (rows ≤ rg_count rg)%nat as Hle by (unfold rows; rewrite <- (ss_rows _ _ Hrows); apply Hst).
    destruct (GetSelVector_ok null_value uninitialised rg t v (vector_rows_of rows v) Hrg Htxn) as (sel & count & Es & Hcount & Hsel); [lia | unfold vector_rows_of, rows_in; lia|].
    unfold vector_rows_of in Es at 1. rewrite Es. cbn [mbind result_bind].
    apply (vector_ok (λ st, scan_loop null_value uninitialised fuel scan_type rg ts a measurement t st fresh) st0 st1 v a (vector_rows_of rows v) count sel); try done; [by eapply same_scan_trans|].
    intros st' Hst' Hm'. apply IH; try done. lia.
  - destruct Hb as [Hlt Hno]. apply (outcome_skip st0 v w); [lia | | apply IH; try done; [by eapply same_scan_trans | nia]].
    intros r Hr _. unfold scan_wanted. rewrite (Hno r Hr). apply andb_false_r.
Qed.

(** [TemplatedScan] returns, with the wanted rows of one vector or none. *)
Lemma TemplatedScan_ok st v a :
  scan_ready rg ts st v → order_ok ts a →
  scan_outcome st v (TemplatedScan null_value uninitialised scan_type rg ts a measurement t st fresh).
Proof.
  intros Hst Ha. unfold TemplatedScan. apply scan_loop_ok; [done | by split | done|]. pose proof vector_size_pos.
  pose proof (Nat.div_mod_eq (max_row_group_row st) SVS). pose proof (Nat.mod_upper_bound (max_row_group_row st) SVS). nia.
Qed.
End Loop.

Section Init.
Context (null_value : PhysicalType → Z) (uninitialised : Z).
Abbreviation fine := (column_fine null_value uninitialised).

Lemma nonempty_column {A T} (c : ColumnData A T) : (0 < cd_count c)%nat → cd_count c = rows_of (column_segments c) → column_segments c ≠ [].
Proof. intros Hpos Hc E. rewrite Hc, E in Hpos. cbn in Hpos. lia. Qed.

Lemma column_init_ok c cs : fine c → (0 < cd_count (sd_base c))%nat →
  ∃ cs', Standard_InitializeScan c cs = Ok cs' ∧ standard_cursor c cs' (0 * SVS).
Proof.
  intros [H [C1 C2 _ _ C5 C6 _ _]] Hpos. unfold Standard_InitializeScan.
  destruct (InitializeScan_ok _ _ (sd_base c) (sst_base cs) C1) as (b & -> & Hb & Nb & Rb & _); [apply nonempty_column; [done | apply C1]|]. cbn [mbind result_bind].
  destruct (InitializeScan_ok _ _ (sd_validity c) (sst_validity cs) C2) as (v & -> & Hv & Nv & Rv & _); [apply nonempty_column; [by rewrite C6 | apply C2]|]. cbn [mbind result_bind].
  eexists. split; [done|]. split_and!; cbn [sst_base sst_validity]; [done | done|]. intros _. rewrite Rb, Rv, C5. split_and!; done || lia.
Qed.

Lemma column_offset_ok c cs v : fine c → (v * SVS < cd_count (sd_base c))%nat →
  ∃ cs', Standard_InitializeScanWithOffset c cs (cd_start (sd_base c) + v * SVS) = Ok cs' ∧ standard_cursor c cs' (v * SVS).
Proof.
  intros [H [C1 C2 _ _ C5 C6 _ _]] Hlt. unfold Standard_InitializeScanWithOffset.
  destruct (InitializeScanWithOffset_ok _ _ (sd_base c) (sst_base cs) (cd_start (sd_base c) + v * SVS) C1) as (b & -> & Hb & Nb & Rb & _); [lia|]. cbn [mbind result_bind].
  destruct (InitializeScanWithOffset_ok _ _ (sd_validity c) (sst_validity cs) (cd_start (sd_base c) + v * SVS) C2) as (w & -> & Hw & Nw & Rw & _); [rewrite C5, C6; lia|]. cbn [mbind result_bind].
  eexists. split; [done|]. split_and!; cbn [sst_base sst_validity]; [done | done|]. intros _. by split_and!.
Qed.

(** The zone maps of the columns: a row group that is not read has no passing
    row. *)
Lemma check_filters_ok rg ts t entries :
  rowgroup_ok null_value uninitialised rg → Forall (filter_fine rg ts t) entries →
  ∃ b, check_filters rg (column_ids ts) entries = Ok b ∧
    (b = false → ∀ row, ∃ entry, entry ∈ entries ∧ filter_holds rg ts t row entry = false).
Proof.
  intros Hrg HF. induction HF as [|[i f] entries (k & c & Hi & Hc & Ht & _ & Hnull & Hz) HF IH]; cbn [check_filters]; [by exists true|].
  cbn [fst snd] in *. rewrite (vget_lookup _ _ _ Hi). cbn [mbind result_bind]. rewrite (GetColumn_ok rg k c Hc). cbn [mbind result_bind].
  pose proof (fine_type _ _ c (proj1 (ro_columns _ _ _ Hrg k c Hc))) as Hty. destruct (zo_column _ _ Hz) as (stats & Hs & W & Ty & Hcov).
  unfold CheckZonemap_column. rewrite Hs. destruct (CheckStatistics_total f stats W) as [r Hr]; [rewrite Ty; apply Hty | by rewrite Ty|].
  rewrite Hr. cbn [mbind result_bind]. destruct IH as (b & E & Hb).
  assert (Hpass : (r = FILTER_ALWAYS_FALSE ∨ r = FILTER_FALSE_OR_NULL) → ∀ row, filter_holds rg ts t row (i, f) = false).
  { intros Hfalse row. unfold filter_holds. cbn [fst snd]. rewrite Hi, Hc. destruct (cell false c t row) as [[x|]|] eqn:Ex; [| exact Hnull | done].
    destruct (CheckStatistics_ok f stats (as_value (cd_type (sd_base c)) (Some x)) W) as (r' & Hr' & Hbasic & Hf & _);
      [by rewrite Ty | destruct Hty; by split_and! | done | by eapply Hcov | eapply typed_reaches; [apply Hty | done]|].
    rewrite Hr in Hr'. injection Hr' as <-. destruct Hfalse as [->| ->]; [by apply Hf | by destruct Hbasic as [?|[?|?]]]. }
  assert (∃ read : bool, match r with FILTER_ALWAYS_FALSE | FILTER_FALSE_OR_NULL => false | _ => true end = read ∧ (read = false → r = FILTER_ALWAYS_FALSE ∨ r = FILTER_FALSE_OR_NULL))
    as (read & -> & Hread) by (eexists; split; [reflexivity|]; destruct r; auto; done).
  destruct read.
  - exists b. split; [done|]. intros Hb' row. destruct (Hb Hb' row) as (e & He & Hfalse). exists e. split; [by right | done].
  - exists false. split; [done|]. intros _ row. exists (i, f). split; [by left | by apply Hpass, Hread].
Qed.

Lemma zonemap_check rg ts t :
  rowgroup_ok null_value uninitialised rg → filters_fine rg ts t →
  ∃ b, match table_filters ts with Some filters => RowGroup_CheckZonemap rg filters (column_ids ts) | None => Ok true end = Ok b ∧
    (b = false → ∀ row, passes_filters rg ts t row = false).
Proof.
  intros Hrg Hf. unfold passes_filters. destruct (table_filters ts) as [filters|] eqn:E; [|by exists true].
  destruct (check_filters_ok rg ts t (map_to_list filters) Hrg (Hf filters E)) as (b & Hb & Hfalse). exists b. split; [done|]. intros H row.
  destruct (Hfalse H row) as (e & He & Hno). apply not_true_iff_false. rewrite forallb_forall. intros Hall. apply list_elem_of_In, Hall in He. congruence.
Qed.

(** The scanned columns exist. *)
Definition columns_exist (rg : RowGroup) (ids : list (option nat)) : Prop := ∀ i k, ids !! i = Some (Some k) → is_Some (rg_columns rg !! k).

(** The rows of the row group below the end of the scan. *)
Definition group_rows (max_row : nat) (rg : RowGroup) : nat := if (max_row <? rg_start rg)%nat then O else Nat.min (rg_count rg) (max_row - rg_start rg).

Lemma initialize_at rg ts st (f : option nat → StandardScanState → result StandardScanState) self v :
  rowgroup_ok null_value uninitialised rg → columns_exist rg (column_ids ts) → length (column_scans st) = length (column_ids ts) →
  (v * SVS < group_rows (max_row st) rg)%nat →
  (∀ k c cs, rg_columns rg !! k = Some c → fine c → cd_start (sd_base c) = rg_start rg → cd_count (sd_base c) = rg_count rg →
    ∃ cs', f (Some k) cs = Ok cs' ∧ standard_cursor c cs' (v * SVS)) →
  (∀ cs, f None cs = Ok (null_scan cs)) →
  ∃ scans, map_scans f (column_ids ts) (column_scans st) = Ok scans ∧
    scan_ready rg ts (set_scans (mkCollectionScan (Some self) v (group_rows (max_row st) rg) (max_row st) (column_scans st)) scans) v.
Proof.
  intros Hrg Hex Hlen Hv Hf Hnone.
  destruct (map_scans_ok f (column_ids ts) (column_scans st) (λ _ id cs, column_at rg id cs v) Hlen) as (scans & E & Hl & Hq).
  - intros i [k|] cs Hi Hcs; [|exists (null_scan cs); by rewrite Hnone]. destruct (Hex i k Hi) as [c Hc]. destruct (ro_columns _ _ _ Hrg k c Hc) as (Hfine & H1 & H2).
    destruct (Hf k c cs Hc Hfine H1 H2) as (cs' & E & Hcur). exists cs'. split; [done|]. by exists c.
  - exists scans. split; [done|]. unfold group_rows in *. destruct (Nat.ltb_spec (max_row st) (rg_start rg)); [lia|].
    split; cbn; [done | by split | lia | lia].
Qed.

(** [InitializeScan]: the scan stands at the first vector, or no row is
    wanted. *)
Lemma RowGroup_InitializeScan_ok self rg ts t st :
  rowgroup_ok null_value uninitialised rg → filters_fine rg ts t → columns_exist rg (column_ids ts) → length (column_scans st) = length (column_ids ts) →
  ∃ st' b, RowGroup_InitializeScan self rg ts st = Ok (st', b) ∧ max_row st' = max_row st ∧ length (column_scans st') = length (column_ids ts) ∧
    if (b : bool) then cs_row_group st' = Some self ∧ max_row_group_row st' = group_rows (max_row st) rg ∧ scan_ready rg ts st' 0
    else (∀ row, (row < group_rows (max_row st) rg)%nat → passes_filters rg ts t row = false) ∧
      (st' = st ∨ cs_row_group st' = Some self ∧ vector_index st' = O ∧ max_row_group_row st' = O ∧ group_rows (max_row st) rg = O).
Proof.
  intros Hrg Hf Hex Hlen. unfold RowGroup_InitializeScan. destruct (zonemap_check rg ts t Hrg Hf) as (b & -> & Hb). cbn [mbind result_bind].
  destruct b; cbn [negb]; [|exists st, false; split_and!; auto].
  fold (group_rows (max_row st) rg). destruct (Nat.eqb_spec (group_rows (max_row st) rg) 0) as [H0|H0].
  - eexists _, false. split; [done|]. cbn. split_and!; [done | done | lia | right; by split_and!].
  - cbn [column_scans max_row].
    destruct (initialize_at rg ts st (λ id cs, match id with Some _ => c ← GetColumn rg id; Standard_InitializeScan c cs | None => Ok (null_scan cs) end) self 0 Hrg Hex Hlen)
      as (scans & -> & Hready); [lia | | done|].
    + intros k c cs Hc Hfine _ Hcount. rewrite (GetColumn_ok rg k c Hc). cbn [mbind result_bind]. apply column_init_ok; [done|]. rewrite Hcount. unfold group_rows in H0.
      destruct (max_row st <? rg_start rg)%nat; lia.
    + cbn [mbind result_bind]. eexists _, true. split; [done|]. split_and!; try done. apply (sr_scans _ _ _ _ Hready).
Qed.

(** [InitializeScanWithOffset] at vector [v]. *)
Lemma RowGroup_InitializeScanWithOffset_ok self rg ts t st v :
  rowgroup_ok null_value uninitialised rg → filters_fine rg ts t → columns_exist rg (column_ids ts) → length (column_scans st) = length (column_ids ts) →
  (v * SVS < group_rows (max_row st) rg)%nat →
  ∃ st' b, RowGroup_InitializeScanWithOffset self rg ts st v = Ok (st', b) ∧ max_row st' = max_row st ∧ length (column_scans st') = length (column_ids ts) ∧
    if (b : bool) then cs_row_group st' = Some self ∧ max_row_group_row st' = group_rows (max_row st) rg ∧ scan_ready rg ts st' v
    else ∀ row, passes_filters rg ts t row = false.
Proof.
  intros Hrg Hf Hex Hlen Hv. unfold RowGroup_InitializeScanWithOffset. destruct (zonemap_check rg ts t Hrg Hf) as (b & -> & Hb). cbn [mbind result_bind].
  destruct b; cbn [negb]; [|exists st, false; split_and!; auto]. fold (group_rows (max_row st) rg). rewrite (proj2 (Nat.eqb_neq _ _)) by lia. cbn [column_scans max_row].
  destruct (initialize_at rg ts st (λ id cs, match id with
    Some _ => c ← GetColumn rg id; Standard_InitializeScanWithOffset c cs (rg_start rg + v * SVS) | None => Ok (null_scan cs) end) self v Hrg Hex Hlen Hv)
    as (scans & -> & Hready); [| done|].
  - intros k c cs Hc Hfine Hstart Hcount. rewrite (GetColumn_ok rg k c Hc). cbn [mbind result_bind]. rewrite <- Hstart. apply column_offset_ok; [done|]. rewrite Hcount.
    unfold group_rows in Hv. destruct (max_row st <? rg_start rg)%nat; lia.
  - cbn [mbind result_bind]. eexists _, true. split; [done|]. split_and!; try done. apply (sr_scans _ _ _ _ Hready).
Qed.
End Init.
