(* ===== verification/RowGroupCollection.v ===== *)
(** The row groups of a table ([src/storage/table/row_group_collection.cpp],
    [scan_state.cpp]): scans over all row groups, parallel scans, row fetches
    and deletions.

    The row groups are in a segment tree that loads them on demand. *)
From S2P Require Import Prelude Bits SelectionVector Types Stats NumericStats BaseStatistics ColumnSketch ValidityMask ChunkInfo RowVersionManager.
From S2P Require Import TableFilter UpdateSegment TransactionManager UncompressedSegment SegmentTree ColumnData StandardColumn AdaptiveFilter RowGroup.

#[export] Instance rowgroup_base : SegmentBase RowGroup := { base_start := rg_start; base_count := rg_count }.

Record RowGroupCollection : Type := mkCollection {
  row_groups : SegmentTree RowGroup;
  total_rows : nat;
  rc_row_start : nat;
  rc_types : list LogicalType;
  rc_stats : list BaseStatistics;
  rc_allocation_size : nat
}.

Definition with_tree (rc : RowGroupCollection) (tree : SegmentTree RowGroup) : RowGroupCollection :=
  mkCollection tree (total_rows rc) (rc_row_start rc) (rc_types rc) (rc_stats rc) (rc_allocation_size rc).

Definition row_group_at (tree : SegmentTree RowGroup) (i : nat) : result RowGroup := n ← vget (tree_nodes tree) i; Ok (node n).
Definition put_row_group (tree : SegmentTree RowGroup) (i : nat) (rg : RowGroup) : result (SegmentTree RowGroup) :=
  n ← vget (tree_nodes tree) i;
  Ok (mkTree (<[i := mkSegmentNode (row_start n) rg]> (tree_nodes tree)) (finished_loading tree) (unloaded tree)).

Definition set_row_group (st : CollectionScanState) (i : option nat) : CollectionScanState :=
  mkCollectionScan i (vector_index st) (max_row_group_row st) (max_row st) (column_scans st).
Definition set_max_row (st : CollectionScanState) (m : nat) : CollectionScanState :=
  mkCollectionScan (cs_row_group st) (vector_index st) (max_row_group_row st) m (column_scans st).

(** [CollectionScanState::Initialize]: fresh states for the columns. *)
Definition CollectionScan_Initialize (ids : list (option nat)) (force_fetch_row : bool) (st : CollectionScanState) : CollectionScanState :=
  let column := mkColumnScan None 0 0 false false force_fetch_row in
  mkCollectionScan (cs_row_group st) (vector_index st) (max_row_group_row st) (max_row st) (replicate (length ids) (mkStandardScan column column)).

Definition CollectionScanState_new : CollectionScanState := mkCollectionScan None 0 0 0 [].

(** The number of row groups, loaded or not. *)
Definition group_count (tree : SegmentTree RowGroup) : nat := length (tree_nodes tree) + length (unloaded tree).

Section Collections.
Context (null_value : PhysicalType → Z) (uninitialised : Z).

(** * Scans *)

(** [while (row_group && !row_group->InitializeScan(state))]. *)
Fixpoint initialize_groups (fuel : nat) (tree : SegmentTree RowGroup) (ts : TableScanState) (st : CollectionScanState) (row_group : option nat)
    : result (SegmentTree RowGroup * CollectionScanState) :=
  match row_group with
  | None => Ok (tree, st)
  | Some i =>
      rg ← row_group_at tree i;
      '(st, scan) ← RowGroup_InitializeScan i rg ts st;
      if (scan : bool) then Ok (tree, st)
      else match fuel with
           | O => Throw OutOfFuel
           | S fuel => '(tree, next) ← GetNextSegment true tree i; initialize_groups fuel tree ts st next
           end
  end.

Definition Collection_InitializeScan (rc : RowGroupCollection) (ts : TableScanState) (force_fetch_row : bool) (st : CollectionScanState)
    : result (RowGroupCollection * CollectionScanState) :=
  let '(tree, row_group) := GetRootSegment true (row_groups rc) in
  let st := CollectionScan_Initialize (column_ids ts) force_fetch_row (set_max_row st (rc_row_start rc + total_rows rc)) in
  '(tree, st) ← initialize_groups (group_count tree) tree ts st row_group;
  Ok (with_tree rc tree, st).

Definition Collection_InitializeScanWithOffset (rc : RowGroupCollection) (ts : TableScanState) (force_fetch_row : bool) (st : CollectionScanState)
    (start_row end_row : nat) : result (RowGroupCollection * CollectionScanState) :=
  '(tree, i) ← GetSegment true (row_groups rc) start_row;
  rg ← row_group_at tree i;
  let st := CollectionScan_Initialize (column_ids ts) force_fetch_row (set_max_row st end_row) in
  '(st, scan) ← RowGroup_InitializeScanWithOffset i rg ts st ((start_row - rg_start rg) / STANDARD_VECTOR_SIZE);
  if (scan : bool) then Ok (with_tree rc tree, st) else Throw (InternalException "Failed to initialize row group scan with offset").

(** The [do ... while] loop of [Scan] that finds the next row group. *)
Fixpoint next_row_group (fuel : nat) (tree : SegmentTree RowGroup) (ts : TableScanState) (st : CollectionScanState) (i : nat)
    : result (SegmentTree RowGroup * CollectionScanState) :=
  '(tree, next) ← GetNextSegment true tree i;
  match next with
  | None => Ok (tree, set_row_group st None)
  | Some j =>
      let st := set_row_group st (Some j) in
      rg ← row_group_at tree j;
      if (max_row st <=? rg_start rg)%nat then Ok (tree, set_row_group st None)
      else
        '(st, scan) ← RowGroup_InitializeScan j rg ts st;
        if (scan : bool) then Ok (tree, st)
        else match fuel with O => Throw OutOfFuel | S fuel => next_row_group fuel tree ts st j end
  end.

(** [CollectionScanState::Scan]: the table, the state, the order of the
    filters, and the chunk with its size; 0 rows stand for [false]. *)
Fixpoint CollectionScan_loop (fuel : nat) (tree : SegmentTree RowGroup) (ts : TableScanState) (a : AdaptiveFilter) (measurement : bool * nat)
    (t : TransactionData) (st : CollectionScanState) (fresh : list ResultVector)
    : result (SegmentTree RowGroup * CollectionScanState * AdaptiveFilter * list ResultVector * nat) :=
  match cs_row_group st with
  | None => Ok (tree, st, a, fresh, O)
  | Some i =>
      rg ← row_group_at tree i;
      '(rg, st, a, chunk, count) ← RowGroup_Scan null_value uninitialised rg ts a measurement t st fresh;
      tree ← put_row_group tree i rg;
      if (0 <? count)%nat then Ok (tree, st, a, chunk, count)
      else if (max_row st <=? rg_start rg + rg_count rg)%nat then Ok (tree, set_row_group st None, a, fresh, O)
      else
        '(tree, st) ← next_row_group (group_count tree) tree ts st i;
        match fuel with O => Throw OutOfFuel | S fuel => CollectionScan_loop fuel tree ts a measurement t st fresh end
  end.

Definition CollectionScan_Scan (tree : SegmentTree RowGroup) := CollectionScan_loop (group_count tree) tree.

(** [RowGroupCollection::Scan]: chunks until there are no more rows; here they
    are collected.  [measurements] are those of the successive calls. *)
Fixpoint scan_chunks (fuel : nat) (tree : SegmentTree RowGroup) (ts : TableScanState) (a : AdaptiveFilter) (measurements : nat → bool * nat)
    (t : TransactionData) (st : CollectionScanState) (fresh : list ResultVector) : result (list (list ResultVector * nat)) :=
  '(tree, st, a, chunk, count) ← CollectionScan_Scan tree ts a (measurements O) t st fresh;
  if (count =? 0)%nat then Ok []
  else match fuel with
       | O => Throw OutOfFuel
       | S fuel =>
           chunks ← scan_chunks fuel tree ts a (λ i, measurements (S i)) t st fresh;
           Ok ((chunk, count) :: chunks)
       end.

Definition Collection_Scan (rc : RowGroupCollection) (ts : TableScanState) (a : AdaptiveFilter) (measurements : nat → bool * nat)
    (force_fetch_row : bool) (t : TransactionData) (fresh : list ResultVector) : result (list (list ResultVector * nat)) :=
  '(rc, st) ← Collection_InitializeScan rc ts force_fetch_row CollectionScanState_new;
  scan_chunks (total_rows rc) (row_groups rc) ts a measurements t st fresh.

(** * Parallel scans *)

Record ParallelCollectionScanState : Type := mkParallel {
  pc_row_group : option nat;
  pc_vector_index : nat;
  pc_max_row : nat;
  pc_batch_index : nat;
  pc_processed_rows : nat
}.

Definition InitializeParallelScan (rc : RowGroupCollection) : RowGroupCollection * ParallelCollectionScanState :=
  let '(tree, root) := GetRootSegment true (row_groups rc) in
  (with_tree rc tree, mkParallel root 0 (rc_row_start rc + total_rows rc) 0 0).

(** The part of [NextParallelScan] under the lock: the next row group, its
    first vector and the end of the rows to scan; [None] when all are taken. *)
Definition next_task (verify_parallelism : bool) (tree : SegmentTree RowGroup) (st : ParallelCollectionScanState)
    : result (SegmentTree RowGroup * ParallelCollectionScanState * option (nat * nat * nat)) :=
  match pc_row_group st with
  | None => Ok (tree, st, None)
  | Some i =>
      rg ← row_group_at tree i;
      if (rg_count rg =? 0)%nat then Ok (tree, st, None)
      else if verify_parallelism then
        let vector_index := pc_vector_index st in
        let max_row := (rg_start rg + Nat.min (rg_count rg) (STANDARD_VECTOR_SIZE * vector_index + STANDARD_VECTOR_SIZE))%nat in
        '(tree, group, vector) ←
          (if (rg_count rg <=? (vector_index + 1) * STANDARD_VECTOR_SIZE)%nat
           then '(tree, next) ← GetNextSegment true tree i; Ok (tree, next, O)
           else Ok (tree, Some i, (vector_index + 1)%nat));
        Ok (tree, mkParallel group vector (pc_max_row st) (pc_batch_index st + 1) (pc_processed_rows st),
            Some (i, vector_index, Nat.min max_row (pc_max_row st)))
      else
        '(tree, next) ← GetNextSegment true tree i;
        Ok (tree, mkParallel next (pc_vector_index st) (pc_max_row st) (pc_batch_index st + 1) (pc_processed_rows st + rg_count rg),
            Some (i, O, Nat.min (rg_start rg + rg_count rg) (pc_max_row st)))
  end.

(** [InitializeScanInRowGroup]. *)
Definition InitializeScanInRowGroup (tree : SegmentTree RowGroup) (ts : TableScanState) (force_fetch_row : bool) (st : CollectionScanState)
    (i vector_index max_row : nat) : result (CollectionScanState * bool) :=
  let st := set_max_row st max_row in
  let st := if bool_decide (column_scans st = []) then CollectionScan_Initialize (column_ids ts) force_fetch_row st else st in
  rg ← row_group_at tree i;
  RowGroup_InitializeScanWithOffset i rg ts st vector_index.

(** [NextParallelScan]: a task to scan, or [false] when none is left. *)
Fixpoint NextParallelScan (fuel : nat) (verify_parallelism : bool) (tree : SegmentTree RowGroup) (ts : TableScanState) (force_fetch_row : bool)
    (pst : ParallelCollectionScanState) (st : CollectionScanState)
    : result (SegmentTree RowGroup * ParallelCollectionScanState * CollectionScanState * bool) :=
  '(tree, pst, task) ← next_task verify_parallelism tree pst;
  match task with
  | None => Ok (tree, pst, st, false)
  | Some (i, vector_index, max_row) =>
      '(st, need_to_scan) ← InitializeScanInRowGroup tree ts force_fetch_row st i vector_index max_row;
      if (need_to_scan : bool) then Ok (tree, pst, st, true)
      else match fuel with O => Throw OutOfFuel | S fuel => NextParallelScan fuel verify_parallelism tree ts force_fetch_row pst st end
  end.

(** * Row fetches *)

(** [Fetch]: the rows that exist and that the transaction sees, one after the
    other. *)
Fixpoint fetch_rows (tree : SegmentTree RowGroup) (t : TransactionData) (ids : list (option nat)) (row_ids : list nat)
    (res : list (FlatVector Z)) (count : nat) : result (SegmentTree RowGroup * list (FlatVector Z) * nat) :=
  match row_ids with
  | [] => Ok (tree, res, count)
  | row_id :: row_ids =>
      '(tree, found) ← TryGetSegmentIndex true tree row_id;
      match found with
      | None => fetch_rows tree t ids row_ids res count
      | Some segment_index =>
          '(tree, i) ← GetSegmentByIndex true tree (Z.of_nat segment_index);
          match i with
          | None => null_segment
          | Some i =>
              rg ← row_group_at tree i;
              visible ← RowGroup_Fetch rg t (row_id - rg_start rg);
              if (visible : bool) then
                res ← RowGroup_FetchRow null_value uninitialised rg t ids row_id res count;
                fetch_rows tree t ids row_ids res (count + 1)
              else fetch_rows tree t ids row_ids res count
          end
      end
  end.

Definition Collection_Fetch (rc : RowGroupCollection) (t : TransactionData) (ids : list (option nat)) (row_ids : list nat)
    (res : list (FlatVector Z)) : result (RowGroupCollection * list (FlatVector Z) * nat) :=
  '(tree, res, count) ← fetch_rows (row_groups rc) t ids row_ids res 0; Ok (with_tree rc tree, res, count).

(** * Deletions *)

(** The ids after the first that belong to the same row group. *)
Fixpoint same_group (rg : RowGroup) (ids : list nat) : nat :=
  match ids with
  | [] => O
  | id :: ids => if (id <? rg_start rg)%nat || (rg_start rg + rg_count rg <=? id)%nat then O else S (same_group rg ids)
  end.

(** [Delete]: the table, the undo records and the outcome; every run of ids in
    one row group is deleted at once. *)
Fixpoint delete_runs (fuel : nat) (tree : SegmentTree RowGroup) (t : TransactionData) (ids : list nat) (undo : list DeleteInfo) (delete_count : nat)
    : SegmentTree RowGroup * list DeleteInfo * result nat :=
  match ids with
  | [] => (tree, undo, out_of_range)
  | id :: rest =>
      match ('(tree, i) ← GetSegment true tree id; rg ← row_group_at tree i; Ok (tree, i, rg)) with
      | Throw e => (tree, undo, Throw e)
      | Ok (tree, i, rg) =>
          let n := S (same_group rg rest) in
          let '(s, r) := RowGroup_Delete (GetOrCreateVersionInfo rg) t (Z.of_nat (rg_start rg)) ((λ id, id - rg_start rg)%nat <$> take n ids) in
          match put_row_group tree i (set_versions rg (rg_count rg) (ds_manager s)), r with
          | Throw e, _ => (tree, undo, Throw e)
          | Ok tree, Throw e => (tree, undo ++ ds_undo s, Throw e)
          | Ok tree, Ok k =>
              match drop n ids, fuel with
              | [], _ => (tree, undo ++ ds_undo s, Ok (delete_count + k)%nat)
              | _, O => (tree, undo ++ ds_undo s, Throw OutOfFuel)
              | rest, S fuel => delete_runs fuel tree t rest (undo ++ ds_undo s) (delete_count + k)
              end
          end
      end
  end.

Definition Collection_Delete (rc : RowGroupCollection) (t : TransactionData) (ids : list nat) : RowGroupCollection * list DeleteInfo * result nat :=
  let '(tree, undo, r) := delete_runs (length ids) (row_groups rc) t ids [] 0 in (with_tree rc tree, undo, r).
End Collections.
