(* ===== verification/TableAppend.v ===== *)
(** Changes to the row groups of a table
    ([src/storage/table/row_group_collection.cpp]): appends that start new row
    groups, with their versions and statistics, their commit and revert, merging
    the row groups of another collection, and updates.

    The vectors of a chunk are given in unified format; distinct statistics are
    not modelled. *)
From S2P Require Import Prelude Bits SelectionVector Types Stats NumericStats BaseStatistics ColumnSketch ValidityMask ChunkInfo RowVersionManager.
From S2P Require Import TableFilter UpdateSegment TransactionManager UncompressedSegment SegmentTree ColumnData StandardColumn AdaptiveFilter RowGroup RowGroupCollection.

(** * New row groups *)

(** The constructors of columns; a column with a parent has no statistics. *)
Definition ColumnData_new {A T} (type : LogicalType) (start_row : nat) (has_parent : bool) : result (ColumnData A T) :=
  stats ← (if has_parent then Ok None else s ← CreateEmpty type; Ok (Some s));
  Ok (mkColumn type start_row 0 (mkTree [] true []) stats None 0).

Definition StandardColumnData_new (type : LogicalType) (start_row : nat) : result StandardColumnData :=
  base ← ColumnData_new type start_row false;
  validity ← ColumnData_new (LT VALIDITY) start_row true;
  Ok (mkStandard base validity false [] []).

(** [CreateColumn]: the columns of numbers. *)
Definition CreateColumn (start_row : nat) (type : LogicalType) : result StandardColumnData :=
  match InternalType type with
  | PT_STRUCT | PT_LIST | PT_ARRAY => Throw (Unmodelled "nested columns")
  | PT_VARCHAR => Throw (Unmodelled "string columns")
  | _ => match type with
         | LT VALIDITY => Throw (UndefinedBehaviour "validity column without a parent")
         | _ => StandardColumnData_new type start_row
         end
  end.

Definition RowGroup_InitializeEmpty (types : list LogicalType) (start : nat) : result RowGroup :=
  columns ← mapR (CreateColumn start) types;
  Ok (mkRowGroup start 0 columns None 0).

Definition AppendRowGroup (rc : RowGroupCollection) (start_row : nat) : result RowGroupCollection :=
  rg ← RowGroup_InitializeEmpty (rc_types rc) start_row;
  tree ← AppendSegment true (row_groups rc) rg;
  Ok (with_tree rc tree).

(** * Appends *)

(** [TableAppendState], with the row group of the [RowGroupAppendState]. *)
Record TableAppendState : Type := mkTableAppend {
  row_group_append_state : RowGroupAppendState;
  ta_row_group : nat;
  ta_row_start : nat;
  ta_current_row : nat;
  ta_total_append_count : nat;
  ta_start_row_group : option nat;
  ta_transaction : TransactionData
}.

Definition put_in_table (rc : RowGroupCollection) (i : nat) (rg : RowGroup) : result RowGroupCollection :=
  tree ← put_row_group (row_groups rc) i rg; Ok (with_tree rc tree).

(** [DataChunk::Slice]: a selection of the rows from [offset] on, merged with
    the selection of the vector. *)
Definition slice_vector (offset slice_count : nat) (d : UnifiedVectorFormat Z) : result (UnifiedVectorFormat Z) :=
  sel ← foldM (λ sel i, set_index sel i (Z.of_nat (offset + i))) (SelectionVector_Initialize slice_count) (seq 0 slice_count);
  sel ← match sel_vector (uni_sel d) with None => Ok sel | Some _ => Slice (uni_sel d) sel slice_count end;
  Ok (mkUnified sel (uni_data d) (uni_validity d)).
Definition DataChunk_Slice (chunk : list (UnifiedVectorFormat Z)) (offset slice_count : nat) : result (list (UnifiedVectorFormat Z)) :=
  mapR (slice_vector offset slice_count) chunk.

(** The statistics of the table take over those of the row group. *)
Fixpoint merge_table_stats (rg : RowGroup) (i : nat) (stats : list BaseStatistics) : result (list BaseStatistics) :=
  match stats with
  | [] => Ok []
  | s :: stats => s ← RowGroup_MergeIntoStatistics rg i s; stats ← merge_table_stats rg (S i) stats; Ok (s :: stats)
  end.

Section TableAppends.
Context (null_value : PhysicalType → Z) (uninitialised : Z).

(** The last row group becomes the one that is appended to. *)
Definition start_last_group (rc : RowGroupCollection) : result (RowGroupCollection * nat * RowGroupAppendState) :=
  '(tree, last) ← GetLastSegment true (row_groups rc);
  match last with
  | None => null_segment
  | Some i =>
      rg ← row_group_at tree i;
      '(rg, append) ← RowGroup_InitializeAppend null_value uninitialised rg;
      rc ← put_in_table (with_tree rc tree) i rg;
      Ok (rc, i, append)
  end.

Definition Collection_InitializeAppend (rc : RowGroupCollection) (t : TransactionData) : result (RowGroupCollection * TableAppendState) :=
  let '(tree, empty) := IsEmpty true (row_groups rc) in
  let rc := with_tree rc tree in
  rc ← (if (empty : bool) then AppendRowGroup rc (rc_row_start rc) else Ok rc);
  '(rc, i, append) ← start_last_group rc;
  Ok (rc, mkTableAppend append i (total_rows rc) (total_rows rc) 0 (Some i) t).

(** [append_rows] is [RowGroup::Append] or [sketchAppend]. *)
Section Loop.
Context (append_rows : RowGroup → RowGroupAppendState → list (UnifiedVectorFormat Z) → nat → result (RowGroup * RowGroupAppendState)).

(** The rows that fit into the row group [rg], which is number [group]. *)
Definition fill_group (rc : RowGroupCollection) (group : nat) (rg : RowGroup) (append : RowGroupAppendState) (chunk : list (UnifiedVectorFormat Z)) (append_count : nat)
    : result (RowGroupCollection * RowGroupAppendState) :=
  if (0 <? append_count)%nat then
    '(rg', append) ← append_rows rg append chunk append_count;
    rc ← put_in_table rc group rg';
    stats ← merge_table_stats rg' 0 (rc_stats rc);
    Ok (mkCollection (row_groups rc) (total_rows rc) (rc_row_start rc) (rc_types rc) stats (rc_allocation_size rc + rg_allocation_size rg' - rg_allocation_size rg), append)
  else Ok (rc, append).

(** The loop of [Append] over the row groups; [size] is the size of the chunk. *)
Fixpoint append_groups (fuel : nat) (rc : RowGroupCollection) (group : nat) (append : RowGroupAppendState) (chunk : list (UnifiedVectorFormat Z))
    (size remaining : nat) (new_row_group : bool) : result (RowGroupCollection * nat * RowGroupAppendState * bool) :=
  rg ← row_group_at (row_groups rc) group;
  let offset := offset_in_row_group append in
  let append_count := if (ROW_GROUP_SIZE <? offset)%nat then remaining else Nat.min remaining (ROW_GROUP_SIZE - offset) in
  '(rc, append) ← fill_group rc group rg append chunk append_count;
  let remaining := (remaining - append_count)%nat in
  if (0 <? remaining)%nat then
    chunk ← (if (remaining <? size)%nat then DataChunk_Slice chunk append_count remaining else Ok chunk);
    rc ← AppendRowGroup rc (rg_start rg + offset_in_row_group append);
    '(rc, group, append) ← start_last_group rc;
    match fuel with
    | O => Throw OutOfFuel
    | S fuel => append_groups fuel rc group append chunk remaining remaining true
    end
  else Ok (rc, group, append, new_row_group).
End Loop.

(** [Append]: the table, the state, and whether a row group was added. *)
Definition append_with (append_rows : RowGroup → RowGroupAppendState → list (UnifiedVectorFormat Z) → nat → result (RowGroup * RowGroupAppendState))
    (rc : RowGroupCollection) (st : TableAppendState) (chunk : list (UnifiedVectorFormat Z)) (size : nat) : result (RowGroupCollection * TableAppendState * bool) :=
  '(rc, group, append, new_row_group) ← append_groups append_rows (S size) rc (ta_row_group st) (row_group_append_state st) chunk size size false;
  Ok (rc, mkTableAppend append group (ta_row_start st) (ta_current_row st + size) (ta_total_append_count st + size) (ta_start_row_group st) (ta_transaction st), new_row_group).

Definition Collection_Append := append_with (RowGroup_Append null_value uninitialised).

Definition Collection_sketchAppend (sketch_col_idxs : list Z) :=
  append_with (λ rg append chunk n,
    if bool_decide (sketch_col_idxs = []) then RowGroup_Append null_value uninitialised rg append chunk n
    else sketchAppend null_value uninitialised sketch_col_idxs n rg append chunk).

(** [FinalizeAppend]: the versions of the appended rows, row group by row
    group. *)
Fixpoint finalize_groups (fuel : nat) (tree : SegmentTree RowGroup) (t : TransactionData) (row_group : option nat) (remaining : nat)
    : result (SegmentTree RowGroup) :=
  if (0 <? remaining)%nat then
    match row_group, fuel with
    | None, _ => null_segment
    | _, O => Throw OutOfFuel
    | Some i, S fuel =>
        rg ← row_group_at tree i;
        let append_count := if (ROW_GROUP_SIZE <? rg_count rg)%nat then remaining else Nat.min remaining (ROW_GROUP_SIZE - rg_count rg) in
        rg ← RowGroup_AppendVersionInfo rg t append_count;
        tree ← put_row_group tree i rg;
        '(tree, next) ← GetNextSegment true tree i;
        finalize_groups fuel tree t next (remaining - append_count)
    end
  else Ok tree.

Definition FinalizeAppend (rc : RowGroupCollection) (t : TransactionData) (st : TableAppendState) : result (RowGroupCollection * TableAppendState) :=
  tree ← finalize_groups (group_count (row_groups rc)) (row_groups rc) t (ta_start_row_group st) (ta_total_append_count st);
  Ok (mkCollection tree (total_rows rc + ta_total_append_count st) (rc_row_start rc) (rc_types rc) (rc_stats rc) (rc_allocation_size rc),
      mkTableAppend (row_group_append_state st) (ta_row_group st) (ta_row_start st) (ta_current_row st) 0 None (ta_transaction st)).

(** [CommitAppend]. *)
Fixpoint commit_groups (fuel : nat) (tree : SegmentTree RowGroup) (commit_id : Z) (row_group : option nat) (current_row remaining : nat)
    : result (SegmentTree RowGroup) :=
  match row_group, fuel with
  | None, _ => null_segment
  | _, O => Throw OutOfFuel
  | Some i, S fuel =>
      rg ← row_group_at tree i;
      let start_in_row_group := (current_row - rg_start rg)%nat in
      let append_count := Nat.min (rg_count rg - start_in_row_group) remaining in
      rg ← RowGroup_CommitAppend rg commit_id start_in_row_group append_count;
      tree ← put_row_group tree i rg;
      if (remaining - append_count =? 0)%nat then Ok tree
      else
        '(tree, next) ← GetNextSegment true tree i;
        commit_groups fuel tree commit_id next (current_row + append_count) (remaining - append_count)
  end.

Definition Collection_CommitAppend (rc : RowGroupCollection) (commit_id : Z) (row_start count : nat) : result RowGroupCollection :=
  '(tree, i) ← GetSegment true (row_groups rc) row_start;
  tree ← commit_groups (group_count tree) tree commit_id (Some i) row_start count;
  Ok (with_tree rc tree).

(** [RevertAppendInternal]: the row group of [start_row] is cut, those behind
    it are dropped. *)
Definition RevertAppendInternal (rc : RowGroupCollection) (start_row : nat) : result RowGroupCollection :=
  let rc := mkCollection (row_groups rc) start_row (rc_row_start rc) (rc_types rc) (rc_stats rc) (rc_allocation_size rc) in
  let segment_count := length (tree_nodes (row_groups rc)) in
  if (segment_count =? 0)%nat then Ok rc
  else
    '(tree, found) ← TryGetSegmentIndex true (row_groups rc) start_row;
    let segment_index := match found with Some i => i | None => (segment_count - 1)%nat end in
    '(tree, segment) ← GetSegmentByIndex true tree (Z.of_nat segment_index);
    match segment with
    | None => null_segment
    | Some i =>
        tree ← EraseSegments true tree segment_index;
        rg ← row_group_at tree i;
        rg ← RowGroup_RevertAppend null_value uninitialised rg start_row;
        put_in_table (with_tree rc tree) i rg
    end.

(** * Merging collections *)

(** [MergeStorage]: the row groups of [data] move behind those of the table. *)
Fixpoint merge_groups (tree : SegmentTree RowGroup) (index : nat) (segments : list RowGroup) : result (SegmentTree RowGroup) :=
  match segments with
  | [] => Ok tree
  | rg :: segments =>
      rg ← MoveToCollection rg index;
      tree ← AppendSegment true tree rg;
      merge_groups tree (index + rg_count rg) segments
  end.

Definition MergeStorage (rc data : RowGroupCollection) : result RowGroupCollection :=
  segments ← LoadAllSegments true (row_groups data);
  tree ← merge_groups (row_groups rc) (rc_row_start rc + total_rows rc) (node <$> tree_nodes segments);
  stats ← zipR Merge (length (rc_stats rc)) (rc_stats rc) (rc_stats data);
  Ok (mkCollection tree (total_rows rc + total_rows data) (rc_row_start rc) (rc_types rc) stats (rc_allocation_size rc)).

(** * Updates *)

(** The ids after the first that belong to the same vector. *)
Fixpoint same_vector (base_id max_id : Z) (ids : list Z) : nat :=
  match ids with
  | [] => O
  | id :: ids => if (id <? base_id) || (max_id <=? id) then O else S (same_vector base_id max_id ids)
  end.

(** [Update]: every run of ids in one vector is updated at once.  The vectors
    of the chunk come with the numbers of their columns; [addresses] gives those
    of the update infos of a run. *)
Fixpoint update_runs (fuel : nat) (rc : RowGroupCollection) (t : TransactionData) (has_transaction : bool) (updates : list (nat * FlatVector Z))
    (addresses : nat → nat → nat * nat) (fresh : FlatVector Z) (ids : list Z) (pos : nat) : RowGroupCollection * result unit :=
  match (id ← vget ids pos; '(tree, i) ← GetSegment true (row_groups rc) (Z.to_nat id); rg ← row_group_at tree i; Ok (id, tree, i, rg)) with
  | Throw e => (rc, Throw e)
  | Ok (id, tree, i, rg) =>
      let rc := with_tree rc tree in
      let start := Z.of_nat (rg_start rg) in
      let base_id := start + (id - start) / Z.of_nat STANDARD_VECTOR_SIZE * Z.of_nat STANDARD_VECTOR_SIZE in
      let max_id := Z.min (base_id + Z.of_nat STANDARD_VECTOR_SIZE) (start + Z.of_nat (rg_count rg)) in
      let n := S (same_vector base_id max_id (drop (S pos) ids)) in
      let '(rg, outcome) := RowGroup_Update null_value uninitialised rg t has_transaction (imap (λ k u, (u.1, u.2, addresses pos k)) updates) fresh ids pos n in
      match put_in_table rc i rg, outcome with
      | Throw e, _ => (rc, Throw e)
      | Ok rc, Throw e => (rc, Throw e)
      | Ok rc, Ok _ =>
          match foldM (λ stats u, s ← vget stats u.1; g ← RowGroup_GetStatistics rg u.1; s ← Merge s g; vset stats u.1 s) (rc_stats rc) updates with
          | Throw e => (rc, Throw e)
          | Ok stats =>
              let rc := mkCollection (row_groups rc) (total_rows rc) (rc_row_start rc) (rc_types rc) stats (rc_allocation_size rc) in
              if (pos + n <? length ids)%nat then
                match fuel with O => (rc, Throw OutOfFuel) | S fuel => update_runs fuel rc t has_transaction updates addresses fresh ids (pos + n) end
              else (rc, Ok tt)
          end
      end
  end.

Definition Collection_Update (rc : RowGroupCollection) (t : TransactionData) (has_transaction : bool) (ids : list Z) (updates : list (nat * FlatVector Z))
    (addresses : nat → nat → nat * nat) (fresh : FlatVector Z) : RowGroupCollection * result unit :=
  update_runs (length ids) rc t has_transaction updates addresses fresh ids 0.
End TableAppends.
