(* ===== verification/CollectionFacts.v ===== *)
(** The scan of a table: the chunks hold exactly the rows that the transaction
    sees and that pass the filters, across all row groups.  Fetching rows by
    their ids returns those that exist and that the transaction sees, with the
    values a scan returns.  In a parallel scan every row group, or vector, is
    handed out to one worker, and together the workers return what a sequential
    scan returns. *)
From S2P Require Import Prelude Bits SelectionVector ColumnSketch Types Stats NumericStats NumericFacts BaseStatistics StatsFacts StatsCreate TableFilter FilterFacts FilterPruning.
From S2P Require Import ValidityMask MaskFacts ChunkInfo ChunkFacts RowVersionManager VersionFacts UpdateSegment TransactionManager UncompressedSegment SegmentTree ColumnData StandardColumn StandardFacts AdaptiveFilter.
From S2P Require Import RowGroup RowGroupFacts RowGroupScan RowGroupLoop RowGroupCollection.

#[local] Opaque ROW_GROUP_VECTOR_COUNT.

(** * Rows of chunks *)

(** The first [n] rows of a chunk. *)
Definition chunk_rows (chunk : list ResultVector) (n : nat) : list (list (option (option Z))) :=
  (λ j, (λ res, chunk_value res j) <$> chunk) <$> seq 0 n.

(** A row of the table in the columns of the scan. *)
Definition tuple (rg : RowGroup) (ts : TableScanState) (t : TransactionData) (r : nat) : list (option (option Z)) :=
  (λ id, row_cell rg t id r) <$> column_ids ts.

Lemma shown_rows rg ts t w chunk R :
  chunk_shows rg ts t w chunk R → chunk_rows chunk (length R) = (λ r, tuple rg ts t (w * SVS + r)) <$> R.
Proof.
  intros [Hlen Hshow]. apply list_eq. intros j. unfold chunk_rows. rewrite !list_lookup_fmap. destruct (R !! j) as [r|] eqn:Hj.
  - rewrite lookup_seq_lt by (by eapply lookup_lt_Some). cbn [fmap option_fmap option_map]. f_equal. unfold tuple. apply list_eq. intros i. rewrite !list_lookup_fmap.
    destruct (chunk !! i) as [res|] eqn:Hi.
    + destruct (lookup_lt_is_Some_2 (column_ids ts) i) as [id Hid]; [rewrite <- Hlen; by eapply lookup_lt_Some|]. rewrite Hid. cbn. f_equal. by eapply Hshow.
    + apply lookup_ge_None in Hi. rewrite (lookup_ge_None_2 (column_ids ts)) by lia. done.
  - apply lookup_ge_None in Hj. rewrite (proj2 (lookup_ge_None _ _)) by (rewrite length_seq; lia). done.
Qed.

(** The wanted rows of a row group from row [from] on. *)
Definition group_tuples (max_row : nat) (ts : TableScanState) (t : TransactionData) (rg : RowGroup) (from : nat) : list (list (option (option Z))) :=
  tuple rg ts t <$> filter (λ r, scan_wanted rg ts t r) (seq from (group_rows max_row rg - from)).

Lemma filter_unwanted {A} (P : A → bool) l : (∀ x, x ∈ l → P x = false) → filter (λ x, P x) l = [].
Proof. intros H. apply elem_of_nil_inv. intros x [Hx Hin]%list_elem_of_filter. rewrite H in Hx; done. Qed.

Lemma no_tuples max_row ts t rg from :
  (∀ r, (from ≤ r < group_rows max_row rg)%nat → scan_wanted rg ts t r = false) → group_tuples max_row ts t rg from = [].
Proof. intros H. unfold group_tuples. rewrite filter_unwanted; [done|]. intros r Hr%elem_of_seq. apply H. lia. Qed.

Lemma filter_shift (P : nat → bool) a n : filter (λ r, P r) (seq a n) = Nat.add a <$> filter (λ r, P (a + r)%nat) (seq 0 n).
Proof.
  replace a with (a + 0)%nat at 1 by lia. rewrite <- fmap_add_seq. generalize (seq 0 n). intros l. induction l as [|x l IH]; [done|].
  rewrite fmap_cons, !filter_cons. destruct (P (a + x)%nat) eqn:E.
  - rewrite decide_True by done. rewrite (decide_True (P := Is_true true)) by done. by rewrite IH.
  - rewrite decide_False by auto. rewrite (decide_False (P := Is_true false)) by auto. done.
Qed.

Lemma group_split max_row ts t rg v w R :
  let rows := group_rows max_row rg in
  (v ≤ w)%nat → (w * SVS < rows)%nat → (∀ r, (v * SVS ≤ r < w * SVS)%nat → scan_wanted rg ts t r = false) →
  R ≡ₚ filter (λ r, scan_wanted rg ts t (w * SVS + r)) (seq 0 (vector_rows_of rows w)) →
  group_tuples max_row ts t rg (v * SVS) ≡ₚ ((λ r, tuple rg ts t (w * SVS + r)) <$> R) ++ group_tuples max_row ts t rg (S w * SVS).
Proof.
  intros rows Hvw Hw Hno HR. unfold group_tuples. fold rows. set (k := vector_rows_of rows w).
  assert (v * SVS ≤ w * SVS)%nat as Hle by nia. assert (k = Nat.min SVS (rows - w * SVS))%nat as Hk by done.
  assert (seq (v * SVS) (rows - v * SVS) = seq (v * SVS) (w * SVS - v * SVS) ++ seq (w * SVS) k ++ seq (S w * SVS) (rows - S w * SVS))%nat as ->.
  { replace (rows - v * SVS)%nat with ((w * SVS - v * SVS) + (k + (rows - S w * SVS)))%nat by lia. rewrite !seq_app. do 2 f_equal.
    - f_equal. lia.
    - destruct (decide (k = SVS)) as [E|E]; [f_equal; lia|]. replace (rows - S w * SVS)%nat with O by lia. done. }
  rewrite !filter_app, !fmap_app. rewrite (filter_unwanted _ (seq (v * SVS) _)) by (intros r Hr%elem_of_seq; apply Hno; lia). cbn [fmap list_fmap app].
  rewrite (filter_shift (scan_wanted rg ts t) (w * SVS) k). rewrite <- list_fmap_compose. f_equiv. rewrite HR. done.
Qed.

(** * Tables *)

Section Tables.
Context (null_value : PhysicalType → Z) (uninitialised : Z).
Context (ts : TableScanState) (t : TransactionData) (fresh : list ResultVector) (start max_rows : nat) (groups : list RowGroup).
Hypothesis Htxn : transaction_ok t.
Hypothesis Hfresh : fresh_chunk ts fresh.
Abbreviation ids := (column_ids ts).

(** What a scan needs of a row group. *)
Record group_fine (rg : RowGroup) : Prop := {
  gf_ok : rowgroup_ok null_value uninitialised rg;
  gf_filters : filters_fine rg ts t;
  gf_columns : columns_exist rg ids;
  gf_sketch : can_sketch rg ids = Ok false;
}.
Hypothesis Hgroups : Forall group_fine groups.

(** The tree holds the row groups; some of them may not be loaded. *)
Definition tree_fine (tree : SegmentTree RowGroup) : Prop := tree_ok true start tree ∧ tree_segments tree = groups.

Lemma group_at tree i : tree_fine tree → (i < length (tree_nodes tree))%nat →
  ∃ rg, groups !! i = Some rg ∧ group_fine rg ∧ row_group_at tree i = Ok rg ∧ put_row_group tree i rg = Ok tree.
Proof.
  intros [_ Hs] Hi. destruct (lookup_lt_is_Some_2 (tree_nodes tree) i Hi) as [n Hn].
  assert (groups !! i = Some (node n)) as Hg by (rewrite <- Hs; unfold tree_segments; apply lookup_app_l_Some; by rewrite list_lookup_fmap, Hn).
  exists (node n). unfold row_group_at, put_row_group. rewrite (vget_lookup _ _ _ Hn). cbn [mbind result_bind]. split_and!; [done | | done|].
  - by apply (proj1 (Forall_lookup _ _) Hgroups i).
  - replace (mkSegmentNode (row_start n) (node n)) with n by (by destruct n). rewrite list_insert_id by done. by destruct tree.
Qed.

(** The wanted rows of the row groups from number [i] on. *)
Definition tuples_from (i : nat) : list (list (option (option Z))) := concat ((λ rg, group_tuples max_rows ts t rg 0) <$> drop i groups).

Lemma tuples_cons i rg : groups !! i = Some rg → tuples_from i = group_tuples max_rows ts t rg 0 ++ tuples_from (i + 1).
Proof. intros Hi. unfold tuples_from. rewrite (drop_S groups rg i Hi). cbn. by rewrite Nat.add_1_r. Qed.

Lemma tuples_end i : (length groups ≤ i)%nat → tuples_from i = [].
Proof. intros Hi. unfold tuples_from. by rewrite drop_ge. Qed.

(** Row groups behind the end of the scan have no wanted rows. *)
Lemma tuples_beyond i rg : contiguous start groups → groups !! i = Some rg → (max_rows ≤ rg_start rg)%nat → tuples_from i = [].
Proof.
  intros Hc Hi Hle. unfold tuples_from. assert (∀ g, g ∈ drop i groups → group_tuples max_rows ts t g 0 = []) as Hno.
  { intros g [j Hj]%list_elem_of_lookup_1. rewrite lookup_drop in Hj. assert (max_rows ≤ rg_start g)%nat as Hg.
    { destruct j as [|j]; [rewrite Nat.add_0_r in Hj; by simplify_eq|]. pose proof (contiguous_order start groups i (i + S j) rg g Hc Hi Hj ltac:(lia)) as Ho. cbn in Ho. lia. }
    apply no_tuples. unfold group_rows. intros r Hr. destruct (Nat.ltb_spec max_rows (rg_start g)); lia. }
  induction (drop i groups) as [|g l IH]; [done|]. cbn. rewrite (Hno g) by (by left). apply IH. intros g' Hg'. apply Hno. by right.
Qed.

(** Where a scan stands, and the rows still to come: in a row group, at a row
    group that had nothing to scan, or at the end. *)
Definition scan_pos (tree : SegmentTree RowGroup) (st : CollectionScanState) (pending : list (list (option (option Z)))) : Prop :=
  max_row st = max_rows ∧ length (column_scans st) = length ids ∧
  match cs_row_group st with
  | None => pending = []
  | Some i => ∃ rg, groups !! i = Some rg ∧ (i < length (tree_nodes tree))%nat ∧
      ((∃ v, scan_ready rg ts st v ∧ max_row_group_row st = group_rows max_rows rg ∧ pending = group_tuples max_rows ts t rg (v * SVS) ++ tuples_from (i + 1)) ∨
       (vector_index st = O ∧ max_row_group_row st = O ∧ pending = tuples_from (i + 1)))
  end.

(** ** Finding the next row group *)

Lemma unwanted_group rg : (∀ row, (row < group_rows max_rows rg)%nat → passes_filters rg ts t row = false) → group_tuples max_rows ts t rg 0 = [].
Proof. intros H. apply no_tuples. intros r Hr. unfold scan_wanted. rewrite H by lia. apply andb_false_r. Qed.

Lemma initialize_group tree i st rg :
  groups !! i = Some rg → group_fine rg → (i < length (tree_nodes tree))%nat → max_row st = max_rows → length (column_scans st) = length ids →
  ∃ st' b, RowGroup_InitializeScan i rg ts st = Ok (st', b) ∧ max_row st' = max_rows ∧ length (column_scans st') = length ids ∧
    if (b : bool) then scan_pos tree st' (tuples_from i) ∧ cs_row_group st' = Some i
    else group_tuples max_rows ts t rg 0 = [] ∧ (st' = st ∨ cs_row_group st' = Some i ∧ scan_pos tree st' (tuples_from (i + 1))).
Proof.
  intros Hi [H1 H2 H3 H4] Hlt Hmax Hlen. destruct (RowGroup_InitializeScan_ok null_value uninitialised i rg ts t st H1 H2 H3 Hlen) as (st' & b & -> & Hm & Hl & Hb).
  exists st', b. rewrite Hmax in *. split_and!; [done | done | done|]. destruct b.
  - destruct Hb as (Hg & Hrows & Hready). split; [|done]. split_and!; [done | done|]. rewrite Hg. exists rg. split_and!; [done | done|]. left. exists O.
    split_and!; [done | done|]. by rewrite (tuples_cons i rg Hi).
  - destruct Hb as (Hno & Hb). split; [by apply unwanted_group|]. destruct Hb as [->|(Hg & Hv & Hz & _)]; [by left | right]. split; [done|].
    split_and!; [done | done|]. rewrite Hg. exists rg. split_and!; [done | done|]. by right.
Qed.

Lemma next_row_group_ok fuel tree st i :
  tree_fine tree → (i < length (tree_nodes tree))%nat → max_row st = max_rows → length (column_scans st) = length ids → (length groups ≤ fuel + i + 1)%nat →
  ∃ tree' st', next_row_group fuel tree ts st i = Ok (tree', st') ∧ tree_fine tree' ∧ scan_pos tree' st' (tuples_from (i + 1)) ∧
    ∀ j, cs_row_group st' = Some j → (i < j)%nat.
Proof.
  revert tree st i. induction fuel as [|fuel IH]; intros tree st i [Ht Hs] Hi Hmax Hlen Hf; cbn [next_row_group];
    destruct (GetNextSegment_ok true start tree i Ht Hi) as (tree' & next & -> & Ht' & Hs' & Hgrow & Hnext); cbn [mbind result_bind]; rewrite Hs in *;
    assert (tree_fine tree') as Hfine by (by split).
  all: destruct next as [j|]; [|eexists _, _; split; [done|]; split_and!; [done | split_and!; [done | done|]; cbn; apply tuples_end; lia | done]].
  all: destruct Hnext as [-> Hj]; destruct (group_at tree' (i + 1) Hfine Hj) as (rg & Hrg & Hgf & Hat & _); rewrite Hat; cbn [mbind result_bind].
  { pose proof (lookup_lt_Some _ _ _ Hrg). lia. }
  cbn [max_row set_row_group]. rewrite Hmax. destruct (Nat.leb_spec max_rows (rg_start rg)) as [Hle|Hgt].
  { eexists _, _. split; [done|]. split_and!; [done | split_and!; [done | done|]; cbn; eapply tuples_beyond; [rewrite <- Hs, <- Hs' || rewrite <- Hs; apply Ht | exact Hrg | done] | done]. }
  destruct (initialize_group tree' (i + 1) (set_row_group st (Some (i + 1)%nat)) rg Hrg Hgf Hj Hmax Hlen) as (st' & b & -> & Hm & Hl & Hb). cbn [mbind result_bind]. destruct b.
  - destruct Hb as [Hpos Hg]. eexists _, _. split; [done|]. split_and!; [done | done|]. intros j Hj'. rewrite Hg in Hj'. injection Hj' as <-. lia.
  - destruct Hb as [Hnone _]. destruct (IH tree' st' (i + 1)%nat Hfine Hj Hm Hl ltac:(lia)) as (tree2 & st2 & E & Hf2 & Hp2 & Hj2). exists tree2, st2.
    rewrite (tuples_cons (i + 1) rg Hrg), Hnone. split_and!; [done | done | done|]. intros k Hk. specialize (Hj2 k Hk). lia.
Qed.

(** ** One call *)

(** The rows of the returned chunk are the first of the pending ones, up to the
    order within a vector; an empty chunk means that nothing is left. *)
Definition collection_outcome (pending : list (list (option (option Z))))
    (e : result (SegmentTree RowGroup * CollectionScanState * AdaptiveFilter * list ResultVector * nat)) : Prop :=
  ∃ tree st a chunk n pending', e = Ok (tree, st, a, chunk, n) ∧ tree_fine tree ∧ order_ok ts a ∧ scan_pos tree st pending' ∧
    pending ≡ₚ chunk_rows chunk n ++ pending' ∧ (n = O → pending = []).

Lemma scan_stale rg a measurement st :
  vector_index st = O → max_row_group_row st = O → RowGroup_Scan null_value uninitialised rg ts a measurement t st fresh = Ok (rg, st, a, fresh, O).
Proof. intros Hv Hz. unfold RowGroup_Scan, TemplatedScan. rewrite Hz. cbn [Nat.add scan_loop]. destruct (_ / _ + 1)%nat; cbn [scan_loop]; by rewrite Hz. Qed.

(** One row group: its next rows, or none. *)
Lemma group_scan_ok tree st i rg a measurement pending :
  groups !! i = Some rg → group_fine rg → (i < length (tree_nodes tree))%nat → cs_row_group st = Some i → scan_pos tree st pending →
  order_ok ts a → measurement_ok ts measurement →
  ∃ st' a' chunk n, RowGroup_Scan null_value uninitialised rg ts a measurement t st fresh = Ok (rg, st', a', chunk, n) ∧ order_ok ts a' ∧
    max_row st' = max_rows ∧
    if (0 <? n)%nat then ∃ pending', scan_pos tree st' pending' ∧ pending ≡ₚ chunk_rows chunk n ++ pending'
    else length (column_scans st') = length ids ∧ pending = tuples_from (i + 1).
Proof.
  intros Hi [H1 H2 H3 H4] Hlt Hg (Hmax & Hlen & Hpos) Ha Hm. rewrite Hg in Hpos. destruct Hpos as (rg' & Hi' & _ & Hpos). simplify_eq.
  destruct Hpos as [(v & Hready & Hrows & ->)|(Hv & Hz & ->)]; [|eexists _, _, _, _; split; [by apply scan_stale|]; by split_and!].
  destruct (TemplatedScan_ok null_value uninitialised rg ts t measurement fresh H1 Htxn H2 H4 Hm Hfresh st v a Hready Ha) as
    (st' & a' & chunk & n & E & Ha' & Hsame & Hout). unfold RowGroup_Scan. rewrite E. exists st', a', chunk, n. split_and!; [done | done | by rewrite (ss_max _ _ Hsame)|].
  destruct Hout as [(-> & Hl & Hno)|(w & R & Hvw & Hw & Hready' & -> & Hpos & HR & Hshow & Hno)].
  - cbn [Nat.ltb Nat.leb]. split; [done|]. by rewrite (no_tuples max_rows ts t rg (v * SVS)); [|intros r Hr; apply Hno; by rewrite Hrows].
  - rewrite (proj2 (Nat.ltb_lt _ _)) by done. exists (group_tuples max_rows ts t rg (S w * SVS) ++ tuples_from (i + 1)). split.
    + split_and!; [by rewrite (ss_max _ _ Hsame) | apply (sr_scans _ _ _ _ Hready')|]. rewrite (ss_group _ _ Hsame), Hg. exists rg. split_and!; [done | done|]. left.
      exists (S w). split_and!; [done | by rewrite (ss_rows _ _ Hsame) | done].
    + rewrite (shown_rows _ _ _ _ _ _ Hshow), app_assoc. f_equiv. rewrite Hrows in *. by apply group_split.
Qed.

Lemma CollectionScan_loop_ok fuel tree st a measurement pending :
  tree_fine tree → scan_pos tree st pending → order_ok ts a → measurement_ok ts measurement →
  (∀ i, cs_row_group st = Some i → (length groups ≤ fuel + i)%nat) →
  collection_outcome pending (CollectionScan_loop null_value uninitialised fuel tree ts a measurement t st fresh).
Proof.
  revert tree st a pending. induction fuel as [|fuel IH]; intros tree st a pending Hfine Hpos Ha Hm Hf; cbn [CollectionScan_loop]; pose proof Hpos as (Hmax & Hlen & Hp);
    destruct (cs_row_group st) as [i|] eqn:Hg.
  2,4: subst pending; exists tree, st, a, fresh, O, []; by split_and!.
  all: destruct Hp as (rg0 & Hi & Hlt & _); specialize (Hf i eq_refl); pose proof (lookup_lt_Some _ _ _ Hi).
  1: lia.
  destruct (group_at tree i Hfine Hlt) as (rg & Hi' & Hgf & -> & Hput). rewrite Hi in Hi'. injection Hi' as ->. cbn [mbind result_bind].
  destruct (group_scan_ok tree st i rg a measurement pending Hi Hgf Hlt Hg Hpos Ha Hm) as (st' & a' & chunk & n & -> & Ha' & Hmax' & Hn). cbn [mbind result_bind].
  rewrite Hput. cbn [mbind result_bind]. destruct (Nat.ltb_spec 0 n) as [Hn0|Hn0].
  - destruct Hn as (pending' & Hpos' & HP). exists tree, st', a', chunk, n, pending'. split_and!; try done. lia.
  - destruct Hn as [Hlen' ->]. rewrite Hmax'. destruct (Nat.leb_spec max_rows (rg_start rg + rg_count rg)) as [Hle|Hgt].
    + assert (tuples_from (i + 1) = []) as ->.
      { destruct (groups !! (i + 1)%nat) as [rg'|] eqn:E; [|apply tuples_end; by apply lookup_ge_None]. destruct Hfine as [Ht Hs].
        assert (contiguous start groups) as Hc by (rewrite <- Hs; apply Ht). eapply tuples_beyond; [exact Hc | exact E|].
        pose proof (contiguous_order start groups i (i + 1) rg rg' Hc Hi E ltac:(lia)) as Ho. cbn in Ho. lia. }
      eexists _, _, _, _, _, []. split; [done|]. split_and!; try done.
    + destruct (next_row_group_ok (group_count tree) tree st' i Hfine Hlt Hmax' Hlen') as (tree' & st2 & -> & Hf2 & Hp2 & Hj2).
      { destruct Hfine as [_ Hs]. rewrite <- Hs. unfold tree_segments, group_count. rewrite length_app, length_fmap. lia. }
      cbn [mbind result_bind]. apply IH; try done. intros j Hj. specialize (Hj2 j Hj). lia.
Qed.

(** [CollectionScanState::Scan] returns. *)
Lemma CollectionScan_Scan_ok tree st a measurement pending :
  tree_fine tree → scan_pos tree st pending → order_ok ts a → measurement_ok ts measurement →
  collection_outcome pending (CollectionScan_Scan null_value uninitialised tree ts a measurement t st fresh).
Proof.
  intros Hfine Hpos Ha Hm. unfold CollectionScan_Scan. apply CollectionScan_loop_ok; try done. intros i _.
  destruct Hfine as [_ <-]. unfold tree_segments, group_count. rewrite length_app, length_fmap. lia.
Qed.

(** ** The whole table *)

Lemma chunk_rows_length chunk n : length (chunk_rows chunk n) = n.
Proof. unfold chunk_rows. by rewrite length_fmap, length_seq. Qed.

Lemma scan_chunks_ok fuel tree st a measurements pending :
  tree_fine tree → scan_pos tree st pending → order_ok ts a → (∀ i, measurement_ok ts (measurements i)) → (length pending ≤ fuel)%nat →
  ∃ chunks, scan_chunks null_value uninitialised fuel tree ts a measurements t st fresh = Ok chunks ∧
    concat ((λ c, chunk_rows c.1 c.2) <$> chunks) ≡ₚ pending ∧ Forall (λ c, 0 < c.2)%nat chunks.
Proof.
  revert tree st a measurements pending. induction fuel as [|fuel IH]; intros tree st a measurements pending Hfine Hpos Ha Hm Hf; cbn [scan_chunks];
    destruct (CollectionScan_Scan_ok tree st a (measurements O) pending Hfine Hpos Ha (Hm O)) as (tree' & st' & a' & chunk & n & pending' & -> & Hf' & Ha' & Hp' & HP & Hz);
    cbn [mbind result_bind]; destruct (Nat.eqb_spec n 0) as [H0|H0].
  1,3: exists []; by rewrite (Hz H0).
  - apply Permutation_length in HP. rewrite length_app, chunk_rows_length in HP. lia.
  - destruct (IH tree' st' a' (λ i, measurements (S i)) pending' Hf' Hp' Ha') as (chunks & -> & Hc & Hall); [by intros i | |].
    { apply Permutation_length in HP. rewrite length_app, chunk_rows_length in HP. lia. }
    cbn [mbind result_bind]. eexists. split; [done|]. cbn. split; [by rewrite HP, Hc | constructor; [cbn; lia | done]].
Qed.

Lemma scan_pos_grow tree tree' st pending :
  (length (tree_nodes tree) ≤ length (tree_nodes tree'))%nat → scan_pos tree st pending → scan_pos tree' st pending.
Proof.
  intros Hle (H1 & H2 & H3). split_and!; [done | done|]. destruct (cs_row_group st) as [i|]; [|done]. destruct H3 as (rg & Hi & Hlt & Hp). exists rg. split_and!; [done | lia | done].
Qed.

Lemma tuples_length : (length (tuples_from 0) ≤ rows_of groups)%nat.
Proof.
  unfold tuples_from, rows_of. rewrite drop_0. clear Hgroups. induction groups as [|rg l IH]; [done|]. cbn [fmap list_fmap concat sum_list_with]. rewrite length_app.
  assert (length (group_tuples max_rows ts t rg 0) ≤ base_count rg)%nat as Hle; [|by apply Nat.add_le_mono]. cbn [base_count rowgroup_base]. unfold group_tuples. rewrite length_fmap.
  etrans; [apply length_filter|]. rewrite length_seq. unfold group_rows. destruct (max_rows <? rg_start rg)%nat; lia.
Qed.

Lemma initialize_groups_ok fuel tree st row_group :
  tree_fine tree → max_row st = max_rows → length (column_scans st) = length ids →
  match row_group with
  | Some i => (i < length (tree_nodes tree))%nat ∧ (length groups ≤ fuel + i)%nat ∧
      match cs_row_group st with None => True | Some j => (j < i)%nat ∧ scan_pos tree st (tuples_from i) end
  | None => scan_pos tree st []
  end →
  ∃ tree' st', initialize_groups fuel tree ts st row_group = Ok (tree', st') ∧ tree_fine tree' ∧
    scan_pos tree' st' (match row_group with Some i => tuples_from i | None => [] end).
Proof.
  revert tree st row_group. induction fuel as [|fuel IH]; intros tree st [i|] Hfine Hmax Hlen Hpre; cbn [initialize_groups]; try by eexists _, _.
  all: destruct Hpre as (Hi & Hf & Hst); destruct (group_at tree i Hfine Hi) as (rg & Hrg & Hgf & -> & _); cbn [mbind result_bind];
    destruct (initialize_group tree i st rg Hrg Hgf Hi Hmax Hlen) as (st' & b & -> & Hm & Hl & Hb); cbn [mbind result_bind];
    destruct b; [destruct Hb as [Hb _]; by exists tree, st'|].
  { pose proof (lookup_lt_Some _ _ _ Hrg). lia. }
  destruct Hb as [Hnone Hb]. destruct Hfine as [Ht Hs]. destruct (GetNextSegment_ok true start tree i Ht Hi) as (tree' & next & -> & Ht' & Hs' & Hgrow & Hnext). cbn [mbind result_bind].
  rewrite Hs in *. rewrite (tuples_cons i rg Hrg), Hnone in *. cbn [app] in *.
  assert (match cs_row_group st' with None => True | Some j => (j < i + 1)%nat ∧ scan_pos tree' st' (tuples_from (i + 1)) end) as Hst'.
  { destruct Hb as [->|[-> Hpos]]; [|split; [lia | by apply (scan_pos_grow tree)]]. destruct (cs_row_group st) as [j|]; [|done]. destruct Hst as [Hj Hpos].
    split; [lia | by apply (scan_pos_grow tree)]. }
  destruct (IH tree' st' next) as (tree2 & st2 & E & Hf2 & Hp2); [by split | done | done | |].
  - destruct next as [j|].
    + destruct Hnext as [-> Hj]. split_and!; [done | lia | done].
    + rewrite (tuples_end (i + 1)) in Hst' by lia. destruct (cs_row_group st') as [j|] eqn:Ej; [apply Hst'|]. split_and!; [done | done|]. by rewrite Ej.
  - exists tree2, st2. split_and!; [done | done|]. destruct next as [j|]; [destruct Hnext as [-> _]; done|]. by rewrite (tuples_end (i + 1)) by lia.
Qed.

(** A scan of a table, up to its last row, returns all wanted rows. *)
Lemma Collection_Scan_ok rc a measurements force_fetch_row :
  tree_fine (row_groups rc) → rc_row_start rc = start → (start + total_rows rc = max_rows)%nat → (rows_of groups ≤ total_rows rc)%nat →
  order_ok ts a → (∀ i, measurement_ok ts (measurements i)) →
  ∃ chunks, Collection_Scan null_value uninitialised rc ts a measurements force_fetch_row t fresh = Ok chunks ∧
    concat ((λ c, chunk_rows c.1 c.2) <$> chunks) ≡ₚ tuples_from 0 ∧ Forall (λ c, 0 < c.2)%nat chunks.
Proof.
  intros [Ht Hs] Hstart Hmax Hrows Ha Hm. unfold Collection_Scan, Collection_InitializeScan.
  destruct (GetRootSegment_ok true start (row_groups rc) Ht) as (tree & root & -> & Ht' & Hs' & Hroot). rewrite Hs in *.
  assert (tree_fine tree) as Hfine by (by split). rewrite Hstart, Hmax.
  destruct (initialize_groups_ok (group_count tree) tree (CollectionScan_Initialize ids force_fetch_row (set_max_row CollectionScanState_new max_rows)) root) as (tree' & st' & -> & Hf' & Hpos);
    [done | done | by cbn; rewrite length_replicate | |].
  - destruct root as [i|].
    + destruct Hroot as [-> Hr]. split_and!; [done | | done]. destruct Hfine as [_ <-]. unfold tree_segments, group_count. rewrite length_app, length_fmap. lia.
    + split_and!; [done | by cbn; rewrite length_replicate | done].
  - cbn [mbind result_bind row_groups with_tree total_rows].
    assert (match root with Some i => tuples_from i | None => [] end = tuples_from 0) as Hall by (destruct root as [i|]; [by destruct Hroot as [-> _] | by rewrite tuples_end; [|rewrite Hroot]]).
    rewrite Hall in Hpos. apply (scan_chunks_ok (total_rows rc) tree' st' a measurements (tuples_from 0)); try done.
    etrans; [|exact Hrows]. apply tuples_length.
Qed.
End Tables.

Lemma group_rows_all m rg : (rg_start rg + rg_count rg ≤ m)%nat → group_rows m rg = rg_count rg.
Proof. intros H. unfold group_rows. destruct (Nat.ltb_spec m (rg_start rg)); lia. Qed.

(** The rows of a table that the transaction sees and that pass the filters. *)
Definition table_tuples (ts : TableScanState) (t : TransactionData) (groups : list RowGroup) : list (list (option (option Z))) :=
  concat ((λ rg, tuple rg ts t <$> filter (λ r, visible rg t r && passes_filters rg ts t r) (seq 0 (rg_count rg))) <$> groups).

Lemma tuples_all ts t start max_rows groups :
  contiguous start groups → (start + rows_of groups ≤ max_rows)%nat → tuples_from ts t max_rows groups 0 = table_tuples ts t groups.
Proof.
  intros Hc Hm. unfold tuples_from, table_tuples. rewrite drop_0. f_equal. apply list_fmap_ext. intros i rg Hi.
  pose proof (contiguous_end start groups i rg Hc Hi) as He. cbn in He. unfold group_tuples. rewrite group_rows_all by (etrans; [exact He | exact Hm]). by rewrite Nat.sub_0_r.
Qed.

(** * Fetching rows *)

(** A result vector whose rows from [k] on are not written yet. *)
Record writable (k : nat) (res : FlatVector Z) : Prop := {
  wr_data : (SVS ≤ length (flat_data res))%nat;
  wr_mask : mask_covers (flat_validity res) SVS;
  wr_target : (SVS ≤ target_count (flat_validity res))%nat;
  wr_valid : ∀ q, (k ≤ q < SVS)%nat → valid_at (flat_validity res) q = true;
}.

Lemma fresh_writable res : fresh_vector res → writable 0 res.
Proof. intros [H1 H2 H3 H4]. split; try done. intros q Hq. apply H4. lia. Qed.

(** Row [k] of the vector is written, the others are not changed. *)
Definition wrote (k : nat) (x : option (option Z)) (res res' : FlatVector Z) : Prop :=
  writable (S k) res' ∧ ∀ q, (q < SVS)%nat → vector_value res' q = if decide (q = k) then x else vector_value res q.

Lemma wrote_valid k x res res' :
  writable k res → (SVS ≤ length (flat_data res'))%nat → mask_covers (flat_validity res') SVS → (SVS ≤ target_count (flat_validity res'))%nat →
  (∀ q, (q < SVS)%nat → vector_value res' q = if decide (q = k) then x else vector_value res q) → wrote k x res res'.
Proof.
  intros [D M T V] H1 H2 H3 H4. split; [|done]. split; try done. intros q Hq. specialize (H4 q ltac:(lia)). rewrite decide_False in H4 by lia.
  unfold vector_value in H4. rewrite V in H4 by lia. destruct (lookup_lt_is_Some_2 (flat_data res) q ltac:(lia)) as [y Hy]. rewrite Hy in H4. cbn in H4.
  by destruct (valid_at (flat_validity res') q).
Qed.

Section Fetch.
Context (null_value : PhysicalType → Z) (uninitialised : Z) (t : TransactionData).

(** [FetchRow]: row [r] of the row group in all columns of the result. *)
Lemma RowGroup_FetchRow_ok rg ids r res k :
  rowgroup_ok null_value uninitialised rg → columns_exist rg ids → length res = length ids → (r < rg_count rg)%nat → (k < SVS)%nat → Forall (writable k) res →
  ∃ res', RowGroup_FetchRow null_value uninitialised rg t ids (rg_start rg + r) res k = Ok res' ∧
    Forall3 (λ id v v', wrote k (row_cell rg t id r) v v') ids res res'.
Proof.
  intros Hrg Hex Hlen Hr Hk. revert res Hlen Hex. induction ids as [|id ids IH]; intros [|v res] Hlen Hex HF; try done; cbn [RowGroup_FetchRow].
  - exists []. split; [done | constructor].
  - apply Forall_cons in HF as [Hv HF]. assert (∃ v', match id with
        | None => data ← vset (flat_data v) k (Z.of_nat (rg_start rg + r)); Ok (mkFlat data (flat_validity v))
        | Some _ => c ← GetColumn rg id; Standard_FetchRow (column_codec null_value uninitialised c) (column_updates c) c t (rg_start rg + r) v k end = Ok v' ∧
        wrote k (row_cell rg t id r) v v') as (v' & -> & Hw).
    { destruct id as [n|].
      - destruct (Hex 0%nat n eq_refl) as [c Hc]. destruct (ro_columns _ _ _ Hrg n c Hc) as ([H Hok] & Hs & Hcnt). rewrite (GetColumn_ok rg n c Hc). cbn [mbind result_bind].
        destruct Hv as [D M T V].
        destruct (Standard_FetchRow_ok _ _ _ _ _ _ _ _ c t r v k Hok D M T ltac:(lia) Hk (V k ltac:(lia))) as (v' & E & (D' & M' & T') & Hval).
        rewrite Hs in E. exists v'. split; [exact E|]. apply wrote_valid; try done. intros q Hq. rewrite Hval by done. cbn [row_cell]. by rewrite Hc.
      - rewrite vset_lt by (destruct Hv; lia). cbn [mbind result_bind]. eexists. split; [done|]. pose proof Hv as [D M T V].
        apply wrote_valid; cbn [flat_data flat_validity]; try done; [by rewrite length_insert|]. intros q Hq. unfold vector_value. cbn [flat_data flat_validity row_cell].
        destruct (decide (q = k)) as [->|Hne]; [rewrite V by lia; by rewrite list_lookup_insert_eq by lia | by rewrite list_lookup_insert_ne]. }
    cbn [mbind result_bind]. destruct (IH res) as (res' & -> & HF'); [by injection Hlen | intros i n Hi; by apply (Hex (S i) n) | done|].
    cbn [mbind result_bind]. eexists. split; [done|]. by constructor.
Qed.

(** * Tables *)

Context (start : nat) (groups : list RowGroup) (ids : list (option nat)).
Hypothesis Htxn : transaction_ok t.
Hypothesis Hgroups : Forall (λ rg, rowgroup_ok null_value uninitialised rg ∧ columns_exist rg ids) groups.

(** The row group of a row id and the row in it. *)
Fixpoint table_row (groups : list RowGroup) (row_id : nat) : option (RowGroup * nat) :=
  match groups with
  | [] => None
  | rg :: groups => if decide (rg_start rg ≤ row_id < rg_start rg + rg_count rg)%nat then Some (rg, row_id - rg_start rg)%nat else table_row groups row_id
  end.

(** The row of an id, if it exists and the transaction sees it. *)
Definition fetched_row (row_id : nat) : option (list (option (option Z))) :=
  '(rg, r) ← table_row groups row_id; if visible rg t r then Some ((λ id, row_cell rg t id r) <$> ids) else None.
Definition fetched_rows (row_ids : list nat) : list (list (option (option Z))) := omap fetched_row row_ids.

Lemma table_row_some l row_id i rg :
  contiguous start l → l !! i = Some rg → (rg_start rg ≤ row_id < rg_start rg + rg_count rg)%nat → table_row l row_id = Some (rg, row_id - rg_start rg)%nat.
Proof.
  generalize start. revert i. induction l as [|g l IH]; intros i st Hc Hi Hr; [done|]. cbn [table_row].
  destruct i as [|i]; [injection Hi as ->; by rewrite decide_True|]. pose proof (contiguous_order st (g :: l) 0 (S i) g rg Hc eq_refl Hi ltac:(lia)) as Ho. cbn in Ho.
  rewrite decide_False by lia. destruct Hc as [_ Hc]. by apply (IH i _ Hc).
Qed.

Lemma table_row_none l row_id : (∀ i rg, l !! i = Some rg → (rg_start rg + rg_count rg ≤ row_id)%nat) → table_row l row_id = None.
Proof.
  induction l as [|g l IH]; intros H; [done|]. cbn [table_row]. specialize (H 0%nat g eq_refl) as H0. rewrite decide_False by lia. apply IH. intros i. apply (H (S i)).
Qed.

Lemma fetch_rows_ok row_ids : ∀ tree res k,
  tree_fine start groups tree → length res = length ids → Forall (writable k) res → (k + length row_ids ≤ SVS)%nat → Forall (λ id, start ≤ id)%nat row_ids →
  ∃ tree' res' n, fetch_rows null_value uninitialised tree t ids row_ids res k = Ok (tree', res', n) ∧ tree_fine start groups tree' ∧
    n = (k + length (fetched_rows row_ids))%nat ∧ length res' = length ids ∧
    (∀ q, (q < k)%nat → (λ v, vector_value v q) <$> res' = (λ v, vector_value v q) <$> res) ∧
    (λ q, (λ v, vector_value v q) <$> res') <$> seq k (length (fetched_rows row_ids)) = fetched_rows row_ids.
Proof.
  induction row_ids as [|row_id row_ids IH]; intros tree res k Htree Hlen Hw Hk Hids; cbn [fetch_rows].
  { exists tree, res, k. split_and!; try done; cbn; lia. }
  apply Forall_cons in Hids as [Hid Hids]. cbn [length] in Hk. pose proof Htree as [Ht Hs].
  assert (contiguous start groups) as Hc by (rewrite <- Hs; apply Ht).
  destruct (TryGetSegmentIndex_ok true start tree row_id Ht Hid) as (tree1 & found & -> & Ht1 & Hs1 & Hf). cbn [mbind result_bind]. rewrite Hs in *.
  assert (tree_fine start groups tree1) as Htree1 by (by split).
  destruct found as [i|].
  2: { assert (fetched_row row_id = None) as Hnone.
       { unfold fetched_row. rewrite table_row_none; [done|]. intros i rg Hi. pose proof (contiguous_end start groups i rg Hc Hi) as He. cbn in He. etrans; [exact He | exact Hf]. }
       unfold fetched_rows. cbn [omap list_omap]. rewrite Hnone. apply IH; try done. lia. }
  destruct Hf as (n & Hn & Hi & Hh1 & Hh2). cbn in Hh1, Hh2. pose proof (lookup_lt_Some _ _ _ Hn) as Hlt.
  assert (GetSegmentByIndex true tree1 (Z.of_nat i) = Ok (tree1, Some i)) as ->.
  { unfold GetSegmentByIndex, load_segments. rewrite (proj2 (Z.ltb_ge _ _)) by lia. rewrite Nat2Z.id.
    destruct (length (unloaded tree1) + 1)%nat; cbn [load_while]; rewrite (proj2 (Nat.leb_gt _ _)) by lia; cbn [mbind result_bind]; by rewrite (proj2 (Nat.leb_gt _ _)) by lia. }
  cbn [mbind result_bind].
  unfold row_group_at. rewrite (vget_lookup _ _ _ Hn). cbn [mbind result_bind]. set (rg := node n) in *.
  destruct (proj1 (Forall_lookup _ _) Hgroups i rg Hi) as [Hrg Hex].
  set (r := (row_id - rg_start rg)%nat). assert (r < rg_count rg)%nat as Hr by (unfold r; lia).
  assert (RowGroup_Fetch rg t r = Ok (visible rg t r)) as ->.
  { unfold RowGroup_Fetch, visible. destruct (version_info rg) as [m|] eqn:E; [|done]. eapply Manager_Fetch_ok; [by apply (ro_versions _ _ _ Hrg) | done|].
    pose proof (ro_count _ _ _ Hrg). lia. }
  cbn [mbind result_bind]. assert (fetched_row row_id = if visible rg t r then Some ((λ id, row_cell rg t id r) <$> ids) else None) as Hrow.
  { unfold fetched_row. rewrite (table_row_some groups row_id i rg Hc Hi) by lia. done. }
  unfold fetched_rows. cbn [omap list_omap]. rewrite Hrow. destruct (visible rg t r).
  2: { apply IH; try done. lia. }
  replace row_id with (rg_start rg + r)%nat by (unfold r; lia).
  destruct (RowGroup_FetchRow_ok rg ids r res k Hrg Hex Hlen Hr ltac:(lia) Hw) as (res1 & -> & HF). cbn [mbind result_bind].
  assert (Forall (writable (S k)) res1 ∧ length res1 = length ids ∧ (λ v, vector_value v k) <$> res1 = (λ id, row_cell rg t id r) <$> ids ∧
    ∀ q, (q < k)%nat → (λ v, vector_value v q) <$> res1 = (λ v, vector_value v q) <$> res) as (Hw1 & Hlen1 & Hnew & Hold).
  { clear - HF Hk. assert (k < SVS)%nat as Hlt by lia. induction HF as [|id v v' l l1 l2 [Hv Hval] _ (I1 & I2 & I3 & I4)]; [by split_and!|]. split_and!.
    - by constructor.
    - cbn. by rewrite I2.
    - cbn. rewrite Hval, decide_True by done. by rewrite I3.
    - intros q Hq. cbn. rewrite Hval, decide_False by lia. by rewrite I4. }
  rewrite Nat.add_1_r. destruct (IH tree1 res1 (S k) Htree1 Hlen1 Hw1 ltac:(lia) Hids) as (tree' & res' & n' & E & Htree' & Hn' & Hlen' & Hq & Hrows).
  exists tree', res', n'. split; [exact E|]. split; [done|]. fold (fetched_rows row_ids). split_and!.
  - rewrite Hn'. cbn. lia.
  - done.
  - intros q Hlq. rewrite Hq by lia. by apply Hold.
  - cbn [length seq fmap list_fmap]. rewrite Hrows. rewrite Hq by lia. by rewrite Hnew.
Qed.
End Fetch.

(** The tasks that the workers take, in the order in which they take them: the
    lock makes every call of [next_task] atomic. *)
Fixpoint parallel_tasks (fuel : nat) (verify_parallelism : bool) (tree : SegmentTree RowGroup) (pst : ParallelCollectionScanState)
    : result (SegmentTree RowGroup * list (nat * nat * nat)) :=
  '(tree, pst, task) ← next_task verify_parallelism tree pst;
  match task with
  | None => Ok (tree, [])
  | Some task =>
      match fuel with
      | O => Throw OutOfFuel
      | S fuel => '(tree, tasks) ← parallel_tasks fuel verify_parallelism tree pst; Ok (tree, task :: tasks)
      end
  end.

Lemma group_rows_cut k rg : (k ≤ rg_count rg)%nat → group_rows (rg_start rg + k) rg = k.
Proof. intros H. unfold group_rows. destruct (Nat.ltb_spec (rg_start rg + k) (rg_start rg)); lia. Qed.

Section Parallel.
Context (null_value : PhysicalType → Z) (uninitialised : Z) (ts : TableScanState) (t : TransactionData) (fresh : list ResultVector).
Context (start max_rows : nat) (groups : list RowGroup).
Abbreviation ids := (column_ids ts).
Abbreviation fine := (tree_fine start groups).

Hypothesis Hend : (start + rows_of groups ≤ max_rows)%nat.
Hypothesis Hchain : contiguous start groups.
Hypothesis Hnonempty : Forall (λ rg, 0 < rg_count rg)%nat groups.

(** The rows of a task: of row group [i], from vector [v] to row [m]. *)
Definition task_tuples (task : nat * nat * nat) : list (list (option (option Z))) :=
  let '(i, v, m) := task in
  match groups !! i with Some rg => group_tuples m ts t rg (v * SVS) | None => [] end.

Abbreviation tuples_left := (tuples_from ts t max_rows groups).

Lemma group_end i rg : groups !! i = Some rg → (rg_start rg + rg_count rg ≤ max_rows)%nat ∧ (0 < rg_count rg)%nat.
Proof.
  intros Hi. split; [|by apply (proj1 (Forall_lookup _ _) Hnonempty i)]. pose proof (contiguous_end start groups i rg Hchain Hi) as H. cbn in H. etrans; [exact H | exact Hend].
Qed.

(** ** Rows of a group *)

(** The rows up to one vector and those from it on. *)
Lemma group_tuples_vector rg from k :
  (rg_start rg + rg_count rg ≤ max_rows)%nat → (from ≤ k ≤ rg_count rg)%nat →
  group_tuples max_rows ts t rg from = group_tuples (rg_start rg + k) ts t rg from ++ group_tuples max_rows ts t rg k.
Proof.
  intros H1 H2. unfold group_tuples. rewrite group_rows_all, group_rows_cut by lia. rewrite <- fmap_app, <- filter_app.
  do 2 f_equal. replace (rg_count rg - from)%nat with ((k - from) + (rg_count rg - k))%nat by lia. rewrite seq_app. do 2 f_equal. lia.
Qed.

(** ** The tasks *)

(** What is still to be handed out. *)
Definition pending_tasks (verify : bool) (pst : ParallelCollectionScanState) : list (list (option (option Z))) :=
  match pc_row_group pst with
  | None => []
  | Some i => match groups !! i with
      | Some rg => group_tuples max_rows ts t rg (if verify then pc_vector_index pst * SVS else 0) ++ tuples_left (i + 1)
      | None => []
      end
  end.

Record parallel_ok (verify : bool) (tree : SegmentTree RowGroup) (pst : ParallelCollectionScanState) : Prop := {
  po_max : pc_max_row pst = max_rows;
  po_group : ∀ i, pc_row_group pst = Some i → ∃ rg, groups !! i = Some rg ∧ (i < length (tree_nodes tree))%nat ∧
    (verify = true → (pc_vector_index pst * SVS < rg_count rg)%nat);
}.

(** The rows that are not yet handed out. *)
Definition rows_left (verify : bool) (pst : ParallelCollectionScanState) : nat :=
  match pc_row_group pst with None => 0 | Some i => rows_of (drop i groups) - (if verify then pc_vector_index pst * SVS else 0) end.

(** A task that can be scanned. *)
Definition task_ok (tree : SegmentTree RowGroup) (task : nat * nat * nat) : Prop :=
  let '(i, v, m) := task in
  ∃ rg, groups !! i = Some rg ∧ (i < length (tree_nodes tree))%nat ∧ (v * SVS < group_rows m rg)%nat ∧ (m ≤ rg_start rg + rg_count rg)%nat.

Lemma rows_left_drop i rg : groups !! i = Some rg → rows_of (drop i groups) = (rg_count rg + rows_of (drop (i + 1) groups))%nat.
Proof. intros Hi. rewrite (drop_S groups rg i Hi), Nat.add_1_r. done. Qed.

(** The state after the last task of row group [i]. *)
Lemma next_group_ok verify tree i rg batch processed v :
  fine tree → groups !! i = Some rg → (i < length (tree_nodes tree))%nat → (verify = true → v = O) →
  ∃ tree' next, GetNextSegment true tree i = Ok (tree', next) ∧ fine tree' ∧ (length (tree_nodes tree) ≤ length (tree_nodes tree'))%nat ∧
    let pst' := mkParallel next v max_rows batch processed in
    parallel_ok verify tree' pst' ∧ pending_tasks verify pst' = tuples_left (i + 1) ∧ rows_left verify pst' = rows_of (drop (i + 1) groups).
Proof.
  intros [Ht Hs] Hi Hlt Hv. destruct (GetNextSegment_ok true start tree i Ht Hlt) as (tree' & next & -> & Ht' & Hs' & Hgrow & Hnext). rewrite Hs in *.
  exists tree', next. split_and!; [done | by split | done|]. cbn zeta. unfold pending_tasks, rows_left. cbn [pc_row_group pc_vector_index].
  assert (verify = true → (v * SVS = 0)%nat) as Hv0 by (intros E; by rewrite (Hv E)).
  assert ((if verify then (v * SVS)%nat else 0%nat) = 0%nat) as Hz by (destruct verify; auto). rewrite Hz.
  destruct next as [j|].
  - destruct Hnext as [-> Hj]. destruct (lookup_lt_is_Some_2 groups (i + 1)) as [rg' Hrg'].
    { rewrite <- Hs'. unfold tree_segments. rewrite length_app, length_fmap. lia. }
    rewrite Hrg'. split_and!; [|by rewrite (tuples_cons ts t max_rows groups (i + 1) rg' Hrg') | by rewrite Nat.sub_0_r].
    split; cbn [pc_max_row pc_row_group pc_vector_index]; [done|]. intros k [= <-]. exists rg'. split_and!; [done | done|]. intros E. rewrite (Hv0 E).
    by apply (group_end (i + 1)).
  - split_and!; [by split | by rewrite tuples_end by lia | by rewrite drop_ge by lia].
Qed.

Lemma next_task_ok verify tree pst :
  fine tree → parallel_ok verify tree pst →
  ∃ tree' pst' task, next_task verify tree pst = Ok (tree', pst', task) ∧ fine tree' ∧ (length (tree_nodes tree) ≤ length (tree_nodes tree'))%nat ∧
    match task with
    | None => pending_tasks verify pst = []
    | Some task => task_ok tree' task ∧ parallel_ok verify tree' pst' ∧ pending_tasks verify pst = task_tuples task ++ pending_tasks verify pst' ∧
        (rows_left verify pst' < rows_left verify pst)%nat
    end.
Proof.
  intros Hf [Hmax Hg]. unfold next_task. destruct (pc_row_group pst) as [i|] eqn:Ei; [|exists tree, pst, None; unfold pending_tasks; by rewrite Ei].
  destruct (Hg i eq_refl) as (rg & Hi & Hlt & Hv). destruct (group_end i rg Hi) as [He Hpos].
  assert (row_group_at tree i = Ok rg) as ->.
  { destruct Hf as [_ Hs]. destruct (lookup_lt_is_Some_2 (tree_nodes tree) i Hlt) as [n Hn]. unfold row_group_at. rewrite (vget_lookup _ _ _ Hn). cbn. f_equal.
    rewrite <- Hs in Hi. unfold tree_segments in Hi. rewrite (lookup_app_l_Some _ _ _ (node n)) in Hi by (by rewrite list_lookup_fmap, Hn). by injection Hi. }
  cbn [mbind result_bind]. rewrite (proj2 (Nat.eqb_neq _ _)) by lia. unfold pending_tasks at 1 3, rows_left at 2. rewrite Ei, Hi, Hmax, (rows_left_drop i rg Hi). destruct verify.
  - specialize (Hv eq_refl). pose proof vector_size_pos. set (v := pc_vector_index pst) in *. set (k := Nat.min (rg_count rg) (SVS * v + SVS)).
    assert (Nat.min (rg_start rg + k) max_rows = rg_start rg + k)%nat as -> by (unfold k; lia).
    assert (task_ok tree (i, v, (rg_start rg + k)%nat)) as Htask.
    { exists rg. split_and!; [done | done | rewrite group_rows_cut by (unfold k; lia); unfold k; lia | unfold k; lia]. }
    rewrite (group_tuples_vector rg (v * SVS) k) by (unfold k; lia). rewrite <- app_assoc. destruct (Nat.leb_spec (rg_count rg) ((v + 1) * SVS)) as [Hle|Hgt].
    + destruct (next_group_ok true tree i rg (pc_batch_index pst + 1) (pc_processed_rows pst) O Hf Hi Hlt) as (tree' & next & -> & Hf' & Hgrow & Hok & Hp & Hr); [done|].
      cbn [mbind result_bind]. eexists _, _, _. split; [done|]. split_and!; [done | done | | done | | ].
      * destruct Htask as (rg0 & H1 & H2 & H3). exists rg0. split_and!; [done | lia | apply H3 | apply H3].
      * rewrite Hp. cbn [task_tuples]. rewrite Hi. f_equal. assert (k = rg_count rg) as -> by (unfold k; lia).
        unfold group_tuples. rewrite group_rows_all by done. by rewrite Nat.sub_diag.
      * rewrite Hr. lia.
    + cbn [mbind result_bind]. assert (k = (v + 1) * SVS)%nat as Ek by (unfold k; lia). eexists _, _, _. split; [done|]. split_and!; [done | done | done | | | ].
      * split; cbn [pc_max_row pc_row_group pc_vector_index]; [done|]. intros j [= <-]. exists rg. by split_and!.
      * unfold pending_tasks. cbn [pc_row_group pc_vector_index task_tuples]. rewrite Hi. by rewrite <- Ek.
      * unfold rows_left. cbn [pc_row_group pc_vector_index]. rewrite (rows_left_drop i rg Hi). pose proof vector_size_pos. lia.
  - destruct (next_group_ok false tree i rg (pc_batch_index pst + 1) (pc_processed_rows pst + rg_count rg) (pc_vector_index pst) Hf Hi Hlt) as (tree' & next & -> & Hf' & Hgrow & Hok & Hp & Hr); [done|].
    cbn [mbind result_bind]. rewrite Nat.min_l by done. eexists _, _, _. split; [done|]. split_and!; [done | done | | done | |].
    + exists rg. split_and!; [done | lia | rewrite group_rows_cut by done; lia | done].
    + rewrite Hp. cbn [task_tuples]. rewrite Hi. f_equal. unfold group_tuples. by rewrite group_rows_cut, group_rows_all by done.
    + rewrite Hr. lia.
Qed.

(** The tasks are handed out until no row is left; each row is in one of
    them. *)
Lemma parallel_tasks_ok fuel verify tree pst :
  fine tree → parallel_ok verify tree pst → (rows_left verify pst ≤ fuel)%nat →
  ∃ tree' tasks, parallel_tasks fuel verify tree pst = Ok (tree', tasks) ∧ fine tree' ∧ (length (tree_nodes tree) ≤ length (tree_nodes tree'))%nat ∧
    Forall (task_ok tree') tasks ∧ concat (task_tuples <$> tasks) = pending_tasks verify pst.
Proof.
  revert tree pst. induction fuel as [|fuel IH]; intros tree pst Hf Hp Hleft; cbn [parallel_tasks];
    destruct (next_task_ok verify tree pst Hf Hp) as (tree1 & pst1 & [task|] & -> & Hf1 & Hg1 & Hstep); cbn [mbind result_bind].
  2,4: exists tree1, []; split_and!; [done | done | done | constructor | by rewrite Hstep].
  - destruct Hstep as (_ & _ & _ & Hlt). lia.
  - destruct Hstep as (Ht & Hp1 & -> & Hlt). destruct (IH tree1 pst1 Hf1 Hp1 ltac:(lia)) as (tree' & tasks & -> & Hf' & Hg' & HF & Hc). cbn [mbind result_bind].
    exists tree', (task :: tasks). split_and!; [done | done | lia | constructor; [|done] | cbn; by rewrite Hc].
    destruct task as [[i v] m]. destruct Ht as (rg & ? & ? & ? & ?). exists rg. split_and!; [done | lia | done | done].
Qed.

Lemma parallel_start_ok verify rc :
  fine (row_groups rc) → (rc_row_start rc + total_rows rc = max_rows)%nat →
  ∃ rc' pst, InitializeParallelScan rc = (rc', pst) ∧ fine (row_groups rc') ∧ parallel_ok verify (row_groups rc') pst ∧
    pending_tasks verify pst = tuples_left 0 ∧ (rows_left verify pst ≤ rows_of groups)%nat.
Proof.
  intros [Ht Hs] Hmax. unfold InitializeParallelScan. destruct (GetRootSegment_ok true start (row_groups rc) Ht) as (tree & root & -> & Ht' & Hs' & Hroot).
  rewrite Hs in *. rewrite Hmax. eexists _, _. split; [done|]. cbn [row_groups with_tree]. split; [by split|]. unfold pending_tasks, rows_left. cbn [pc_row_group pc_vector_index].
  destruct root as [i|].
  - destruct Hroot as [-> Hr]. destruct (lookup_lt_is_Some_2 groups 0) as [rg Hrg]; [rewrite <- Hs'; unfold tree_segments; rewrite length_app, length_fmap; lia|].
    rewrite Hrg. split_and!; [|rewrite (tuples_cons ts t max_rows groups 0 rg Hrg); by destruct verify | rewrite drop_0; lia].
    split; cbn [pc_max_row pc_row_group pc_vector_index]; [done|]. intros j [= <-]. exists rg. split_and!; [done | done|]. intros _. by apply (group_end 0).
  - split_and!; [by split | | lia]. by rewrite tuples_end; [|rewrite Hroot].
Qed.

(** ** Scanning a task *)

Hypothesis Htxn : transaction_ok t.
Hypothesis Hfresh : fresh_chunk ts fresh.
Hypothesis Hgroups : Forall (group_fine null_value uninitialised ts t) groups.

(** A worker scans its task with the state of its last task, or a new one, at
    any time: the rows are those of the task. *)
Lemma task_scan_ok tree i v m force_fetch_row st a measurements :
  fine tree → task_ok tree (i, v, m) → (column_scans st = [] ∨ length (column_scans st) = length ids) →
  order_ok ts a → (∀ i, measurement_ok ts (measurements i)) →
  ∃ st' b, InitializeScanInRowGroup tree ts force_fetch_row st i v m = Ok (st', b) ∧ length (column_scans st') = length ids ∧
    if (b : bool) then ∃ chunks, scan_chunks null_value uninitialised (length (task_tuples (i, v, m))) tree ts a measurements t st' fresh = Ok chunks ∧
      concat ((λ c, chunk_rows c.1 c.2) <$> chunks) ≡ₚ task_tuples (i, v, m) ∧ Forall (λ c, 0 < c.2)%nat chunks
    else task_tuples (i, v, m) = [].
Proof.
  intros Hf (rg & Hi & Hlt & Hv & Hm) Hst Ha Hmeas. unfold InitializeScanInRowGroup.
  set (st1 := if bool_decide (column_scans (set_max_row st m) = []) then _ else _).
  assert (max_row st1 = m ∧ length (column_scans st1) = length ids) as [Hmax Hlen].
  { unfold st1. cbn [set_max_row column_scans]. case_bool_decide as E; [|split; [done | by destruct Hst]]. split; [done|]. cbn. by rewrite length_replicate. }
  destruct (group_at null_value uninitialised ts t start groups Hgroups tree i Hf Hlt) as (rg' & Hi' & [H1 H2 H3 H4] & -> & _). rewrite Hi in Hi'. injection Hi' as <-. cbn [mbind result_bind].
  destruct (RowGroup_InitializeScanWithOffset_ok null_value uninitialised i rg ts t st1 v H1 H2 H3 Hlen ltac:(by rewrite Hmax)) as (st' & b & -> & Hm' & Hl' & Hb). rewrite Hmax in *.
  exists st', b. split_and!; [done | done|]. cbn [task_tuples]. rewrite Hi. destruct b.
  - destruct Hb as (Hg & Hr & Hready). 
    assert (tuples_from ts t m groups (i + 1) = []) as Hlast.
    { destruct (groups !! (i + 1)%nat) as [g|] eqn:E; [|apply tuples_end; by apply lookup_ge_None]. apply (tuples_beyond ts t start m groups (i + 1) g Hchain E).
      pose proof (contiguous_order start groups i (i + 1) rg g Hchain Hi E ltac:(lia)) as Ho. cbn in Ho. lia. }
    destruct (scan_chunks_ok null_value uninitialised ts t fresh start m groups Htxn Hfresh Hgroups (length (group_tuples m ts t rg (v * SVS))) tree st' a measurements
      (group_tuples m ts t rg (v * SVS))) as (chunks & E & Hc & Hall); try done; [|by exists chunks].
    split_and!; [done | done|]. rewrite Hg. exists rg. split_and!; [done | done|]. left. exists v. split_and!; [done | done|]. by rewrite Hlast, app_nil_r.
  - apply no_tuples. intros r Hr. unfold scan_wanted. rewrite Hb. apply andb_false_r.
Qed.
End Parallel.
