(* ===== verification/RowGroupAppend.v ===== *)
(** Appends to row groups: the rows of a chunk are added to all columns, with
    their zone maps and their versions; reverting takes them away again. *)
From S2P Require Import Prelude Bits SelectionVector Types Stats NumericStats NumericFacts BaseStatistics StatsFacts StatsCreate ColumnSketch ValidityMask MaskFacts ChunkInfo ChunkFacts RowVersionManager VersionFacts VersionAppend.
From S2P Require Import TableFilter UpdateSegment UpdateFacts UpdateLaws UncompressedSegment UncompressedAppend SegmentLaws SegmentTree.
From S2P Require Import ColumnData ColumnFacts ColumnAppend StandardColumn StandardFacts AdaptiveFilter RowGroup RowGroupFacts RowGroupScan.

#[local] Opaque ROW_GROUP_VECTOR_COUNT.

Section Appends.
Context (null_value : PhysicalType → Z) (uninitialised : Z).
Abbreviation column_type c := (cd_type (sd_base c)).
Abbreviation column_pt c := (InternalType (cd_type (sd_base c))).
Abbreviation codec := (column_codec null_value uninitialised).

(** * Columns *)

(** The value of a row without the updates. *)
Definition stored_cell (c : StandardColumnData) (row : nat) : option (option Z) :=
  match concat (validity_rows <$> column_segments (sd_validity c)) !! row with
  | Some true => Some <$> concat (value_rows <$> column_segments (sd_base c)) !! row
  | Some false => Some None
  | None => None
  end.

(** A column that can be appended to, with its zone maps in order. *)
Definition column_open (c : StandardColumnData) : Prop :=
  ∃ H : number_type (column_type c),
    growable (column_type c) (null_value (column_pt c)) uninitialised (type_size (column_pt c))
      (nt_ok _ H) (nt_stats _ H) (nt_extremes _ H) (nt_size _ H) c ∧
    zonemaps_ok (column_type c) (null_value (column_pt c)) uninitialised (type_size (column_pt c))
      (nt_ok _ H) (nt_stats _ H) (nt_extremes _ H) (nt_size _ H) c.

Lemma open_fine c : column_open c → column_fine null_value uninitialised c.
Proof. intros (H & [Hc _ _ _ _] & _). by exists H. Qed.

(** No transaction has updated the column. *)
Definition never_updated (c : StandardColumnData) : Prop := cd_updates (sd_base c) = None ∧ cd_updates (sd_validity c) = None.

Lemma stored_cell_ok c t row : never_updated c → cell false c t row = stored_cell c row.
Proof. intros [H1 H2]. unfold cell, stored_cell, column_value, updated_value. by rewrite H1, H2. Qed.

(** The zone maps of such a column cover its values. *)
Lemma open_zones c t : column_open c → never_updated c → zones_ok c t.
Proof.
  intros (H & [Hc Hm Nb Nv (stats & Hs & Hty & Hch & lo & hi & Hv)] & [Z1 Z2]) Hu. pose proof Hc as [C1 C2 _ _ C5 C6 _ _]. split.
  - intros i s r x Hi Hr Hcell. left. rewrite stored_cell_ok in Hcell by done. unfold stored_cell in Hcell.
    destruct (concat (validity_rows <$> column_segments (sd_validity c)) !! _) as [[|]|] eqn:Ev; [|done..].
    pose proof (segment_in_column _ _ (sd_base c) i s r C1 Hi Hr) as Hrow. cbn [segment_rows number_segments number_segment_laws] in Hrow.
    change (column_rows _ _ (sd_base c)) with (concat (value_rows <$> column_segments (sd_base c))) in Hrow. rewrite Hrow in Hcell.
    destruct (value_rows s !! r) as [y|] eqn:Ey; [|done]. injection Hcell as ->.
    destruct (Z1 i s r x Hi Hr Ev Ey) as (l & h & Hb & Hx). destruct (segment_nth_ok _ _ (sd_base c) i s C1 Hi) as [_ _ _ _ [_ Hnn]].
    by apply (covers_intro _ _ _ (Some l) (Some h)).
  - exists stats. split_and!; try done.
    + apply stats_wf_eq. unfold node_shape, node_data. rewrite Hty, Hch, (nt_stats _ H). split_and!; [done | by eexists _, _ | constructor].
    + intros row x Hcell. rewrite stored_cell_ok in Hcell by done. destruct (Z2 stats row (Some x) Hs Hcell) as [(l & h & Hb & Hx) Hnn].
      by apply (covers_intro _ _ _ l h).
  - intros us Hus. destruct Hu. congruence.
Qed.

(** [c'] is the column [c] with the first [n] rows of [d] behind it. *)
Record column_appended (n : nat) (c : StandardColumnData) (d : UnifiedVectorFormat Z) (c' : StandardColumnData) : Prop := {
  ca_open : column_open c';
  ca_type : column_type c' = column_type c;
  ca_same : same_standard c c';
  ca_count : cd_count (sd_base c') = (cd_count (sd_base c) + n)%nat;
  ca_old : ∀ row, (row < cd_count (sd_base c))%nat → stored_cell c' row = stored_cell c row;
  ca_new : ∀ i, (i < n)%nat → stored_cell c' (cd_count (sd_base c) + i) = appended_value d i;
}.

Lemma column_append_ok c d n :
  column_open c → values_ok d n → append_room c n → (cd_count (sd_base c) + n ≤ ROW_GROUP_VECTOR_COUNT * SVS)%nat →
  ∃ c', Standard_Append (codec c) c (append_at c) d n = Ok (c', append_at c') ∧ column_appended n c d c'.
Proof.
  intros (H & Hg & Hz) Hd Hroom Hmax.
  destruct (Standard_Append_ok _ _ _ _ _ _ _ _ c d n Hg Hd Hroom Hmax) as (c' & E & Hg' & Hsame & Hcnt & Hold & Hnew & Hz').
  exists c'. split; [exact E|]. assert (column_type c' = column_type c) as Ety by (apply (so_type _ _ _ _ _ _ _ _ _ (gw_ok _ _ _ _ _ _ _ _ _ Hg'))).
  split; [|done..]. unfold column_open. rewrite Ety. exists H. split; [done|]. by apply Hz'.
Qed.

(** A column an append can start on; it may have no segment yet. *)
Definition column_startable (c : StandardColumnData) : Prop :=
  ∃ H : number_type (column_type c),
    standard_ok (column_type c) (null_value (column_pt c)) uninitialised (type_size (column_pt c))
      (nt_ok _ H) (nt_stats _ H) (nt_extremes _ H) (nt_size _ H) c ∧
    cd_type (sd_validity c) = LT VALIDITY ∧ (∃ stats, cd_stats (sd_base c) = Some stats ∧ column_stats_ok (column_type c) stats) ∧
    zonemaps_ok (column_type c) (null_value (column_pt c)) uninitialised (type_size (column_pt c))
      (nt_ok _ H) (nt_stats _ H) (nt_extremes _ H) (nt_size _ H) c.

Lemma open_startable c : column_open c → column_startable c.
Proof. intros (H & [Hc Hm _ _ Hs] & Hz). by exists H. Qed.

(** Starting an append changes no row, and adds at most a segment. *)
Lemma column_start_append_ok c :
  column_startable c → append_room c 0 →
  ∃ c', Standard_InitializeAppend (codec c) c = Ok (c', append_at c') ∧ column_open c' ∧ column_type c' = column_type c ∧ same_standard c c' ∧
    cd_count (sd_base c') = cd_count (sd_base c) ∧ (∀ n, append_room c (S n) → append_room c' n) ∧ ∀ row, stored_cell c' row = stored_cell c row.
Proof.
  intros (H & Hc & Hm & (stats & Hs & Hq) & Hz) Hroom.
  destruct (Standard_InitializeAppend_ok _ _ _ _ _ _ _ _ c stats Hc Hm Hs Hq Hroom) as (c' & E & Hg' & Hsame & Hcnt & L1 & L2 & Hv & Hz').
  exists c'. split; [exact E|]. assert (column_type c' = column_type c) as Ety by (apply (so_type _ _ _ _ _ _ _ _ _ (gw_ok _ _ _ _ _ _ _ _ _ Hg'))).
  split_and!; try done; [|unfold append_room; lia]. unfold column_open. rewrite Ety. exists H. split; [done|]. by apply Hz'.
Qed.

(** [c'] holds the first [n] rows of [c]. *)
Record column_cut (n : nat) (c c' : StandardColumnData) : Prop := {
  cc_open : column_open c';
  cc_type : column_type c' = column_type c;
  cc_same : same_standard c c';
  cc_count : cd_count (sd_base c') = n;
  cc_rows : ∀ row, stored_cell c' row = if decide (row < n)%nat then stored_cell c row else None;
}.

Lemma column_revert_ok c n :
  column_open c → (n ≤ cd_count (sd_base c))%nat →
  ∃ c', Standard_RevertAppend (codec c) c (cd_start (sd_base c) + n) = Ok c' ∧ column_cut n c c'.
Proof.
  intros (H & Hg & Hz) Hn.
  destruct (Standard_RevertAppend_ok _ _ _ _ _ _ _ _ c n Hg Hn) as (c' & E & Hg' & Hsame & Hcnt & Hv & Hz').
  exists c'. split; [exact E|]. assert (column_type c' = column_type c) as Ety by (apply (so_type _ _ _ _ _ _ _ _ _ (gw_ok _ _ _ _ _ _ _ _ _ Hg'))).
  split; [|done..]. unfold column_open. rewrite Ety. exists H. split; [done|]. by apply Hz'.
Qed.

(** * Row groups *)

(** The columns of a row group hold [n] rows. *)
Definition columns_open (start n : nat) (columns : list StandardColumnData) : Prop :=
  Forall (λ c, column_open c ∧ cd_start (sd_base c) = start ∧ cd_count (sd_base c) = n) columns.

Record group_open (rg : RowGroup) : Prop := {
  go_columns : columns_open (rg_start rg) (rg_count rg) (rg_columns rg);
  go_count : (rg_count rg ≤ ROW_GROUP_VECTOR_COUNT * SVS)%nat;
  go_versions : ∀ m, version_info rg = Some m → manager_wf (rg_count rg) m ∧ appendable (rg_count rg) m;
}.

Lemma open_ok rg : group_open rg → rowgroup_ok null_value uninitialised rg.
Proof.
  intros [Hc Hn Hv]. split; [|done|].
  - intros k c Hk. destruct (proj1 (Forall_lookup _ _) Hc k c Hk) as (Ho & ? & ?). split_and!; [by apply open_fine | done | done].
  - intros m Hm. by apply Hv.
Qed.

(** A row group without version info behaves like one with an empty one. *)
Lemma versions_open rg : group_open rg →
  manager_wf (rg_count rg) (GetOrCreateVersionInfo rg) ∧ appendable (rg_count rg) (GetOrCreateVersionInfo rg).
Proof.
  intros [_ _ Hv]. unfold GetOrCreateVersionInfo. destruct (version_info rg) as [m|]; [by apply Hv|]. split; [apply manager_new_wf|].
  split; cbn [vector_info RowVersionManager_new].
  - intros i o _ Ho. apply lookup_replicate in Ho as [-> _]. done.
  - intros c Hc. apply lookup_replicate in Hc as [? _]. done.
Qed.

Lemma visible_versions rg t row : transaction_ok t → visible rg t row = row_visible t (GetOrCreateVersionInfo rg) row.
Proof.
  intros Ht. unfold visible, GetOrCreateVersionInfo. destruct (version_info rg) as [m|]; [done|]. symmetry. apply visible_no_info; [done|].
  unfold row_info. cbn [vector_info RowVersionManager_new]. destruct (replicate _ _ !! _) as [o|] eqn:E; [|done]. by apply lookup_replicate in E as [-> _].
Qed.

(** ** The loop over the columns *)

Definition rooms (n : nat) : list StandardColumnData → Prop := Forall (λ c, append_room c n).

Lemma append_columns_ok start m n columns chunk k i :
  columns_open start m columns → rooms n columns → length chunk = length columns → Forall (λ d, values_ok d n) chunk →
  (m + n ≤ ROW_GROUP_VECTOR_COUNT * SVS)%nat →
  ∃ columns' grown, append_columns null_value uninitialised (λ k _ c _, Ok (k, c)) k i columns (append_at <$> columns) chunk n = Ok (columns', append_at <$> columns', grown) ∧
    Forall3 (column_appended n) columns chunk columns'.
Proof.
  intros Hc Hr Hl Hd Hm. revert chunk k i Hl Hd. induction columns as [|c columns IH]; intros [|d chunk] k i Hl Hd; try done; cbn [append_columns fmap list_fmap].
  - exists [], O. split; [done | constructor].
  - apply Forall_cons in Hc as ((Ho & _ & Hn) & Hc), Hr as [Hr1 Hr], Hd as [Hd1 Hd].
    destruct (column_append_ok c d n Ho Hd1 Hr1 ltac:(lia)) as (c' & -> & Ha). cbn [mbind result_bind].
    destruct (IH Hc Hr chunk k (S i) ltac:(by injection Hl) Hd) as (columns' & grown & -> & HF). cbn [mbind result_bind].
    exists (c' :: columns'), (column_size c' - column_size c + grown)%nat. split; [done|]. by constructor.
Qed.

(** [InitializeAppend] makes room in every column. *)
Lemma start_group_ok rg :
  Forall (λ c, column_startable c ∧ cd_start (sd_base c) = rg_start rg ∧ cd_count (sd_base c) = rg_count rg) (rg_columns rg) →
  (rg_count rg ≤ ROW_GROUP_VECTOR_COUNT * SVS)%nat → (∀ m, version_info rg = Some m → manager_wf (rg_count rg) m ∧ appendable (rg_count rg) m) →
  rooms 0 (rg_columns rg) →
  ∃ rg', RowGroup_InitializeAppend null_value uninitialised rg = Ok (rg', mkAppendState (append_at <$> rg_columns rg') (rg_count rg)) ∧
    group_open rg' ∧ rg_start rg' = rg_start rg ∧ rg_count rg' = rg_count rg ∧ version_info rg' = version_info rg ∧
    Forall2 (λ c c', same_standard c c' ∧ column_type c' = column_type c ∧ (∀ n, append_room c (S n) → append_room c' n) ∧ ∀ row, stored_cell c' row = stored_cell c row) (rg_columns rg) (rg_columns rg').
Proof.
  intros Hc Hn Hv Hr. unfold RowGroup_InitializeAppend.
  destruct (mapR_Forall2 (λ c, Standard_InitializeAppend (codec c) c)
    (λ c p, p.2 = append_at p.1 ∧ (column_open p.1 ∧ cd_start (sd_base p.1) = rg_start rg ∧ cd_count (sd_base p.1) = rg_count rg) ∧
       same_standard c p.1 ∧ column_type p.1 = column_type c ∧ (∀ n, append_room c (S n) → append_room p.1 n) ∧ ∀ row, stored_cell p.1 row = stored_cell c row) (rg_columns rg)) as (states & -> & HF).
  { apply Forall_forall. intros c Hin. unfold rooms in *. rewrite Forall_forall in Hc, Hr. destruct (Hc c Hin) as (Ho & Hst & Hcn).
    destruct (column_start_append_ok c Ho (Hr c Hin)) as (c' & E & Ho' & Hty & Hs & Hcn' & Hroom & Hrows). exists (c', append_at c'). split; [exact E|].
    cbn [fst snd]. split_and!; try done; [destruct Hs; congruence | congruence]. }
  cbn [mbind result_bind]. exists (set_columns rg states.*1). split; [|split; [split|]; cbn [set_columns rg_start rg_count rg_columns version_info]; try done].
  - do 3 f_equal. cbn [set_columns rg_columns]. clear Hc Hr. induction HF as [|c p l l' [Hp _] _ IH]; [done|].
    destruct p as [c' st]. cbn [fst snd fmap list_fmap] in *. subst st. f_equal. exact IH.
  - clear Hr Hc. induction HF as [|c p l l' (_ & Hp & _) _ IH]; constructor; [exact Hp | exact IH].
  - split_and!; try done. clear Hr Hc. induction HF as [|c p l l' (_ & _ & Hp) _ IH]; constructor; [exact Hp | exact IH].
Qed.

Lemma RowGroup_InitializeAppend_ok rg :
  group_open rg → rooms 0 (rg_columns rg) →
  ∃ rg', RowGroup_InitializeAppend null_value uninitialised rg = Ok (rg', mkAppendState (append_at <$> rg_columns rg') (rg_count rg)) ∧
    group_open rg' ∧ rg_start rg' = rg_start rg ∧ rg_count rg' = rg_count rg ∧ version_info rg' = version_info rg ∧
    Forall2 (λ c c', same_standard c c' ∧ column_type c' = column_type c ∧ (∀ n, append_room c (S n) → append_room c' n) ∧ ∀ row, stored_cell c' row = stored_cell c row) (rg_columns rg) (rg_columns rg').
Proof.
  intros [Hc Hn Hv]. apply start_group_ok; [|done | done]. eapply Forall_impl; [exact Hc|]. intros c (Ho & ? & ?). split_and!; [by apply open_startable | done | done].
Qed.

(** [Append]: the columns hold the rows of the chunk; the row count and the
    versions of the row group follow with [AppendVersionInfo]. *)
Lemma RowGroup_Append_ok rg chunk n off :
  group_open rg → rooms n (rg_columns rg) → length chunk = length (rg_columns rg) → Forall (λ d, values_ok d n) chunk →
  (rg_count rg + n ≤ ROW_GROUP_VECTOR_COUNT * SVS)%nat →
  ∃ rg', RowGroup_Append null_value uninitialised rg (mkAppendState (append_at <$> rg_columns rg) off) chunk n =
      Ok (rg', mkAppendState (append_at <$> rg_columns rg') (off + n)) ∧
    rg_start rg' = rg_start rg ∧ rg_count rg' = rg_count rg ∧ version_info rg' = version_info rg ∧
    Forall3 (column_appended n) (rg_columns rg) chunk (rg_columns rg').
Proof.
  intros [Hc Hn _] Hr Hl Hd Hm. unfold RowGroup_Append, append_chunk. cbn [append_states offset_in_row_group].
  destruct (append_columns_ok _ _ n (rg_columns rg) chunk 0 0 Hc Hr Hl Hd Hm) as (columns' & grown & -> & HF). cbn [mbind result_bind].
  by exists (mkRowGroup (rg_start rg) (rg_count rg) columns' (version_info rg) (rg_allocation_size rg + grown)).
Qed.

Lemma appended_open start m n columns chunk columns' :
  columns_open start m columns → Forall3 (column_appended n) columns chunk columns' → columns_open start (m + n) columns'.
Proof.
  intros Hc HF. revert Hc. induction HF as [|c d c' columns chunk columns' [Ho _ [Hs _ _] Hn _ _] _ IH]; intros Hc; [constructor|].
  apply Forall_cons in Hc as ((_ & Hst & Hcn) & Hc). constructor; [|by apply IH]. split_and!; [done | congruence | lia].
Qed.

(** ** Versions *)

(** [CommitAppend] keeps the kind of every version info, so that the row group
    can be appended to again. *)
Definition is_constant (info : ChunkInfo) : bool := match info with CONSTANT_INFO _ => true | VECTOR_INFO _ => false end.

Lemma CommitAppend_kind commit_id a b info info' : CommitAppend commit_id a b info = Ok info' → is_constant info' = is_constant info.
Proof. destruct info as [c|v]; cbn [CommitAppend]; intros (x & _ & [= <-])%bind_Ok_inv || intros [= <-]; done. Qed.

Lemma Manager_CommitAppend_appendable m n cid a k m' : appendable n m → Manager_CommitAppend m cid a k = Ok m' → appendable n m'.
Proof.
  intros [H1 H2]. unfold Manager_CommitAppend. destruct (k =? 0)%nat; [by intros [= <-]|].
  intros (l & Hl & [= <-])%bind_Ok_inv. cbn [set_vector_info vector_info].
  assert (∀ i, fmap is_constant <$> l !! i = fmap is_constant <$> vector_info m !! i) as Hkind.
  { eapply (foldM_inv _ (λ l, ∀ i, fmap is_constant <$> l !! i = fmap is_constant <$> vector_info m !! i)); [done | | exact Hl].
    intros l0 v l1 _ Hinv Hstep i. unfold commit_append_step in Hstep. apply bind_Ok_inv in Hstep as (o & Ho & Hstep). destruct o as [info|]; [|done].
    apply bind_Ok_inv in Hstep as (info' & Hc & Hset). apply CommitAppend_kind in Hc.
    assert (l0 !! v = Some (Some info)) as Hv by (unfold vget in Ho; by destruct (l0 !! v); [injection Ho as <-|]).
    rewrite vset_lt in Hset by (by eapply lookup_lt_Some). injection Hset as <-. rewrite <- Hinv. destruct (decide (i = v)) as [->|Hne]; [|by rewrite list_lookup_insert_ne].
    rewrite list_lookup_insert_eq by (by eapply lookup_lt_Some). rewrite Hv. cbn. by rewrite Hc. }
  split.
  - intros i o Hi Ho. cbn [set_vector_info vector_info] in Ho. specialize (Hkind i). rewrite Ho in Hkind. destruct (vector_info m !! i) as [o'|] eqn:E; [|done]. cbn in Hkind. injection Hkind as Hkind.
    rewrite (H1 i o' Hi E) in Hkind. by destruct o.
  - intros c Hc. cbn [set_vector_info vector_info] in Hc. specialize (Hkind (n / SVS)%nat). rewrite Hc in Hkind. destruct (vector_info m !! (n / SVS)%nat) as [[[c'|v]|]|] eqn:E; try done. by apply (H2 c').
Qed.

(** No row in the last, partially filled vector is from the transaction. *)
Definition no_own_rows (rg : RowGroup) (t : TransactionData) : Prop :=
  ∀ row, (row < rg_count rg)%nat → (row / SVS = rg_count rg / SVS)%nat → row_inserted (GetOrCreateVersionInfo rg) row ≠ transaction_id t.

(** The versions [m'] are those of [m], with the rows from [n] to [b] inserted
    by [id]. *)
Definition rows_inserted (m m' : RowVersionManager) (n b : nat) (id : Z) : Prop :=
  ∀ row, (row < ROW_GROUP_VECTOR_COUNT * SVS)%nat →
    row_inserted m' row = (if decide (n ≤ row < b)%nat then id else row_inserted m row) ∧ row_deleted m' row = row_deleted m row.

(** [AppendVersionInfo] after [Append]: the new rows belong to the
    transaction, and to the commit after [CommitAppend]. *)
Lemma versions_append_ok rg t n :
  columns_open (rg_start rg) (rg_count rg + n) (rg_columns rg) → manager_wf (rg_count rg) (GetOrCreateVersionInfo rg) → appendable (rg_count rg) (GetOrCreateVersionInfo rg) →
  (0 < n)%nat → (rg_count rg + n ≤ ROW_GROUP_VECTOR_COUNT * SVS)%nat →
  let b := (rg_count rg + n)%nat in
  ∃ m, RowGroup_AppendVersionInfo rg t n = Ok (set_versions rg b m) ∧ group_open (set_versions rg b m) ∧
    rows_inserted (GetOrCreateVersionInfo rg) m (rg_count rg) b (transaction_id t) ∧
    (no_own_rows rg t →
      (∀ c, vector_info m !! (rg_count rg / SVS)%nat = Some (Some (CONSTANT_INFO c)) → (rg_count rg mod SVS = 0)%nat) ∧
      ∀ cid, ∃ m', RowGroup_CommitAppend (set_versions rg b m) cid (rg_count rg) n = Ok (set_versions rg b m') ∧
        group_open (set_versions rg b m') ∧ rows_inserted (GetOrCreateVersionInfo rg) m' (rg_count rg) b cid).
Proof.
  intros Hc Wm Am Hn Hm b.
  destruct (AppendVersionInfo_ok (GetOrCreateVersionInfo rg) (rg_count rg) t b Wm Am ltac:(unfold b; lia)) as (m & E & Wm' & Am' & Hrows & Hcommit).
  assert (∀ m, manager_wf b m → appendable b m → group_open (set_versions rg b m)) as Hopen.
  { intros m0 W0 A0. split; [exact Hc | exact Hm | intros m1 E0; cbn [set_versions version_info] in E0; injection E0 as <-; exact (conj W0 A0)]. }
  exists m. unfold RowGroup_AppendVersionInfo. fold b. assert (ROW_GROUP_SIZE = ROW_GROUP_VECTOR_COUNT * SVS)%nat as Esz by (unfold ROW_GROUP_SIZE; lia).
  rewrite (proj2 (Nat.ltb_ge _ _)) by (unfold b; lia). rewrite E. cbn [mbind result_bind]. split; [reflexivity|]. split; [|split; [exact Hrows|]].
  1: by apply Hopen.
  intros Hown. specialize (Hcommit Hown). split.
  - intros c Hconst. destruct (Hcommit 0 (rg_count rg / SVS)%nat) as (info & Hi & Hinfo).
    { apply touched_spec; [unfold b; lia|]. split; [done|]. apply Nat.Div0.div_le_mono. unfold b. lia. }
    rewrite Hconst in Hi. injection Hi as <-. destruct Hinfo as [Hb _]. unfold vector_begin in Hb. rewrite Nat.eqb_refl in Hb.
    destruct (row_split (rg_count rg)). lia.
  - intros cid. destruct (Manager_CommitAppend_ok m b (rg_count rg) n cid Wm' Hn Hm) as (m' & E' & W2 & Hrows'); [intros i Hi; by apply (Hcommit cid i)|].
    exists m'. unfold RowGroup_CommitAppend. cbn [GetOrCreateVersionInfo set_versions version_info rg_count]. rewrite E'. cbn [mbind result_bind]. split; [reflexivity|]. split; [by apply Hopen; [|eapply Manager_CommitAppend_appendable]|].
    intros row Hr. destruct (Hrows' row Hr) as [-> ->], (Hrows row Hr) as [-> ->]. fold b. destruct (decide _); split; reflexivity.
Qed.

Lemma RowGroup_AppendVersionInfo_ok rg rg' chunk t n :
  group_open rg → (0 < n)%nat → (rg_count rg + n ≤ ROW_GROUP_VECTOR_COUNT * SVS)%nat →
  rg_start rg' = rg_start rg → rg_count rg' = rg_count rg → version_info rg' = version_info rg →
  Forall3 (column_appended n) (rg_columns rg) chunk (rg_columns rg') →
  let b := (rg_count rg + n)%nat in
  ∃ m, RowGroup_AppendVersionInfo rg' t n = Ok (set_versions rg' b m) ∧ group_open (set_versions rg' b m) ∧
    rows_inserted (GetOrCreateVersionInfo rg) m (rg_count rg) b (transaction_id t) ∧
    (no_own_rows rg t →
      (∀ c, vector_info m !! (rg_count rg / SVS)%nat = Some (Some (CONSTANT_INFO c)) → (rg_count rg mod SVS = 0)%nat) ∧
      ∀ cid, ∃ m', RowGroup_CommitAppend (set_versions rg' b m) cid (rg_count rg) n = Ok (set_versions rg' b m') ∧
        group_open (set_versions rg' b m') ∧ rows_inserted (GetOrCreateVersionInfo rg) m' (rg_count rg) b cid).
Proof.
  intros Hg Hn Hm Es Ec Ev HF. pose proof (versions_open rg Hg) as [Wm Am]. pose proof (appended_open _ _ _ _ _ _ (go_columns _ Hg) HF) as Hc.
  assert (GetOrCreateVersionInfo rg' = GetOrCreateVersionInfo rg) as Em by (unfold GetOrCreateVersionInfo; by rewrite Ev, Es).
  pose proof (versions_append_ok rg' t n) as H. unfold no_own_rows in *. rewrite Em, Ec, Es in H. by apply H.
Qed.

(** The rows of the transaction [id] are those from [a] to [a + k). *)
Definition owns_range (m : RowVersionManager) (n a k : nat) (id : Z) : Prop :=
  (0 < k)%nat ∧ (a + k ≤ n)%nat ∧ id ≠ 0 ∧ ∀ row, (row < n)%nat → row_inserted m row = id ↔ (a ≤ row < a + k)%nat.

Lemma row_inserted_at m i o r : (r < SVS)%nat → vector_info m !! i = Some o → row_inserted m (i * SVS + r) = info_inserted o r.
Proof. intros Hr Ho. destruct (row_of i r Hr) as [Hd Hm]. unfold row_inserted, row_info. by rewrite Hd, Hm, Ho. Qed.

(** Whoever else has rows in these vectors: they can be committed. *)
Lemma owned_committable m n a k id cid i :
  manager_wf n m → appendable n m → (n ≤ ROW_GROUP_VECTOR_COUNT * SVS)%nat → owns_range m n a k id → i ∈ touched_vectors a (a + k) →
  ∃ info, vector_info m !! i = Some (Some info) ∧ committable n a (a + k) cid i info.
Proof.
  intros W [_ Hpart] Hn (Hk & Hak & Hid & Hown) Hi. pose proof (touched_lt a (a + k) i ltac:(lia) ltac:(lia) Hi) as Hlt. apply touched_spec in Hi; [|lia].
  destruct (row_split a), (row_split (a + k - 1)), (row_split n). pose proof (in_vector_range a (a + k) i) as Hrange. pose proof vector_size_pos.
  assert (∃ r, (r < SVS)%nat ∧ (a ≤ i * SVS + r < a + k)%nat) as (r0 & Hr0 & Hin).
  { destruct (decide (a ≤ i * SVS)%nat); [exists 0%nat; nia | exists (a - i * SVS)%nat; nia]. }
  destruct (lookup_lt_is_Some_2 (vector_info m) i) as [o Ho]; [rewrite (mw_length _ _ W); done|].
  assert (info_inserted o r0 = id) as Hown0 by (rewrite <- (row_inserted_at m i o r0 Hr0 Ho); apply Hown; lia).
  destruct o as [info|]; [|done]. exists info. split; [done|]. cbn [info_inserted] in Hown0.
  assert (∀ r, (r < SVS)%nat → (i * SVS + r < n)%nat → inserted_at info r = id → (vector_begin a i ≤ r < vector_end (a + k) i)%nat) as Hall.
  { intros r Hr Hrn E. apply Hrange; [lia | done | done|]. apply Hown; [done|]. by rewrite (row_inserted_at m i _ r Hr Ho). }
  destruct info as [c|v]; cbn [committable].
  - assert (S i * SVS ≤ n)%nat as Hfull.
    { assert (i ≠ n / SVS)%nat by (intros ->; by apply (Hpart c)). assert (i < n / SVS)%nat by nia. nia. }
    destruct (Hall 0%nat) as [Hb _]; [lia | lia | exact Hown0|]. destruct (Hall (SVS - 1)%nat) as [_ He]; [lia | lia | exact Hown0|].
    destruct (vector_end_bounds a (a + k) i) as ((_ & Hle) & _); [lia | done|]. lia.
  - intros Hs r Hr Hout. exfalso. apply Hout. unfold rows_in in Hr. pose proof (mw_chunks _ _ W _ _ Ho) as Wv. cbn [chunk_wf] in Wv.
    assert (∀ q, (q < rows_in n i)%nat → inserted_at (VECTOR_INFO v) q = insert_id v) as Hsame by (intros q Hq; cbn; by rewrite (vw_same _ _ Wv Hs q Hq)).
    apply Hall; [lia | lia|]. rewrite Hsame by (unfold rows_in; lia). rewrite <- (Hsame r0) by (unfold rows_in; lia). exact Hown0.
Qed.

Lemma RowGroup_CommitAppend_ok rg a k id cid :
  group_open rg → owns_range (GetOrCreateVersionInfo rg) (rg_count rg) a k id →
  ∃ rg', RowGroup_CommitAppend rg cid a k = Ok rg' ∧ group_open rg' ∧ rg_start rg' = rg_start rg ∧ rg_count rg' = rg_count rg ∧ rg_columns rg' = rg_columns rg ∧
    rows_inserted (GetOrCreateVersionInfo rg) (GetOrCreateVersionInfo rg') a (a + k) cid.
Proof.
  intros Hg Hown. pose proof (versions_open rg Hg) as [Wm Am]. destruct Hg as [Hc Hn _]. pose proof Hown as (Hk & Hak & _).
  destruct (Manager_CommitAppend_ok (GetOrCreateVersionInfo rg) (rg_count rg) a k cid Wm Hk) as (m & E & W' & Hrows); [lia | |].
  { intros i Hi. by apply (owned_committable _ _ _ _ id). }
  unfold RowGroup_CommitAppend. rewrite E. cbn [mbind result_bind]. eexists. split; [reflexivity|]. split_and!; [|done..].
  split; [done | done|]. cbn [set_versions version_info]. intros m0 [= <-]. split; [done|]. by eapply Manager_CommitAppend_appendable.
Qed.

(** ** Reverting *)

(** [RevertAppend] of the versions drops those of the vectors that lie behind
    the row. *)
Lemma RevertAppend_versions m n k :
  manager_wf n m → appendable n m → (k ≤ n)%nat → (n ≤ ROW_GROUP_VECTOR_COUNT * SVS)%nat →
  (∀ c, vector_info m !! (k / SVS)%nat = Some (Some (CONSTANT_INFO c)) → (k mod SVS = 0)%nat) →
  ∃ m', RowVersionManager.RevertAppend m k = Ok m' ∧ manager_wf k m' ∧ appendable k m' ∧
    (∀ row, (row < k)%nat → row_inserted m' row = row_inserted m row ∧ row_deleted m' row = row_deleted m row) ∧
    ∀ row, row_deleted m' row = NOT_DELETED_ID ∨ row_deleted m' row = row_deleted m row.
Proof.
  intros [Wl Wc] Ha Hk Hn Hconst. unfold RowVersionManager.RevertAppend. set (v := ((k + (SVS - 1)) / SVS)%nat).
  destruct (row_split k) as [Ek Hm]. pose proof vector_size_pos as Hpos.
  assert (Hv : ∀ i, (v ≤ i)%nat ↔ (k ≤ i * SVS)%nat).
  { intros i. unfold v. split.
    - intros Hi. destruct (row_split (k + (SVS - 1))) as [E H]. assert ((k + (SVS - 1)) / SVS * SVS ≤ i * SVS)%nat by (by apply Nat.mul_le_mono_r). lia.
    - intros Hi. apply Nat.lt_succ_r. apply Nat.Div0.div_lt_upper_bound. lia. }
  destruct (foldM_update (λ l i, vset l i None) (λ _ x, x = None) (seq v (ROW_GROUP_VECTOR_COUNT - v)) (vector_info m)) as (l' & -> & Hl & Hin & Hout).
  { apply NoDup_seq. } { intros i Hi%elem_of_seq. lia. } { intros l i Hi%elem_of_seq _ E. exists None. by rewrite vset_lt by lia. }
  cbn [mbind result_bind]. eexists. split; [done|]. cbn [set_vector_info vector_info].
  assert (Hlow : ∀ i, (i < v)%nat → l' !! i = vector_info m !! i) by (intros i Hi; apply Hout; rewrite elem_of_seq; lia).
  assert (Hhigh : ∀ i o, (v ≤ i)%nat → l' !! i = Some o → o = None).
  { intros i o Hi Ho. destruct (Hin i) as (x & Hx & ->); [apply lookup_lt_Some in Ho; apply elem_of_seq; lia|]. congruence. }
  split_and!.
  - split; cbn [set_vector_info vector_info]; [lia|]. intros i info Hi. destruct (decide (v ≤ i)%nat) as [H|H]; [by pose proof (Hhigh i _ H Hi)|].
    rewrite Hlow in Hi by lia. apply Wc in Hi. destruct info as [c|w]; [done|]. cbn [chunk_wf] in *. eapply vector_wf_le; [exact Hi | unfold rows_in; lia].
  - split; cbn [set_vector_info vector_info].
    + intros i o Hi Ho. by apply (Hhigh i); [apply Hv|].
    + intros c Hc. destruct (decide (v ≤ k / SVS)%nat) as [H|H]; [by pose proof (Hhigh _ _ H Hc)|]. rewrite Hlow in Hc by lia. apply Hconst in Hc.
      apply H, Hv. lia.
  - intros row Hr. assert (row / SVS < v)%nat as Hlt by (apply Nat.nle_gt; intros H%Hv; destruct (row_split row); lia).
    unfold row_inserted, row_deleted, row_info. cbn [set_vector_info vector_info]. by rewrite Hlow.
  - intros row. unfold row_deleted, row_info. cbn [set_vector_info vector_info]. destruct (decide (v ≤ row / SVS)%nat) as [H|H]; [left | right; by rewrite Hlow by lia].
    destruct (l' !! (row / SVS)%nat) as [o|] eqn:E; [|done]. by rewrite (Hhigh _ _ H E).
Qed.

Lemma RowGroup_RevertAppend_ok rg n :
  group_open rg → (n ≤ rg_count rg)%nat →
  (∀ c, vector_info (GetOrCreateVersionInfo rg) !! (n / SVS)%nat = Some (Some (CONSTANT_INFO c)) → (n mod SVS = 0)%nat) →
  ∃ rg', RowGroup_RevertAppend null_value uninitialised rg (rg_start rg + n) = Ok rg' ∧ group_open rg' ∧ rg_start rg' = rg_start rg ∧ rg_count rg' = n ∧
    Forall2 (column_cut n) (rg_columns rg) (rg_columns rg') ∧
    (∀ row, (row < n)%nat → row_inserted (GetOrCreateVersionInfo rg') row = row_inserted (GetOrCreateVersionInfo rg) row ∧
      row_deleted (GetOrCreateVersionInfo rg') row = row_deleted (GetOrCreateVersionInfo rg) row) ∧
    ∀ row, row_deleted (GetOrCreateVersionInfo rg') row = NOT_DELETED_ID ∨
      row_deleted (GetOrCreateVersionInfo rg') row = row_deleted (GetOrCreateVersionInfo rg) row.
Proof.
  intros Hg Hn Hconst. pose proof (versions_open rg Hg) as [Wm Am]. destruct Hg as [Hc Hcount _]. unfold RowGroup_RevertAppend.
  replace (rg_start rg + n - rg_start rg)%nat with n by lia.
  destruct (RevertAppend_versions _ _ n Wm Am Hn Hcount Hconst) as (m & -> & Wm' & Am' & Hrows & Hdel). cbn [mbind result_bind].
  destruct (mapR_Forall2 (λ c, Standard_RevertAppend (codec c) c (rg_start rg + n)) (column_cut n) (rg_columns rg)) as (columns & -> & HF).
  { eapply Forall_impl; [exact Hc|]. intros c (Ho & <- & Hcn). by apply column_revert_ok; [|lia]. }
  cbn [mbind result_bind]. eexists. split; [done|]. rewrite Nat.min_l by done. split; [|split_and!; [reflexivity | reflexivity | exact HF | exact Hrows | exact Hdel]].
  split; cbn [set_versions set_columns rg_start rg_count rg_columns version_info]; [|lia | by intros m0 [= <-]].
  clear Hrows Hdel. induction HF as [|c c' l l' [Ho _ [Hs _ _] Hcn _] _ IH]; [constructor|]. apply Forall_cons in Hc as ((_ & Hst & _) & Hc).
  constructor; [split_and!; [done | congruence | done] | by apply IH].
Qed.
End Appends.
