(* ===== verification/TableAppendFacts.v ===== *)
(** Appends to tables: the rows of the chunks are added behind those of the
    table, across as many row groups as they need, and belong to the transaction;
    the row groups, their versions and the statistics of the table stay in
    order. *)
From S2P Require Import Prelude Bits SelectionVector Types Stats NumericStats NumericFacts BaseStatistics StatsFacts StatsCreate ColumnSketch ValidityMask MaskFacts ChunkInfo ChunkFacts RowVersionManager VersionFacts VersionAppend.
From S2P Require Import TableFilter UpdateSegment UpdateFacts UpdateLaws UncompressedSegment UncompressedAppend SegmentLaws SegmentTree.
From S2P Require Import ColumnData ColumnFacts ColumnAppend StandardColumn StandardFacts AdaptiveFilter RowGroup RowGroupFacts RowGroupScan RowGroupCollection RowGroupAppend TableAppend.

#[local] Opaque ROW_GROUP_VECTOR_COUNT.

(** * Slices of chunks *)

(** A loop that writes the positions of a selection vector one by one. *)
Lemma fill_selection (f : SelectionVector → nat → result SelectionVector) (g : nat → Z) n :
  (∀ sel i, (i < n)%nat → f sel i = set_index sel i (g i)) → (∀ i, (i < n)%nat → 0 ≤ g i < 2 ^ 32) →
  foldM f (SelectionVector_Initialize n) (seq 0 n) = Ok (mkSel (Some (g <$> seq 0 n))).
Proof.
  intros Hf Hg. assert (∀ m k (l : list Z), (k + m = n)%nat → length l = n →
    foldM f (mkSel (Some l)) (seq k m) = Ok (mkSel (Some (take k l ++ (g <$> seq k m))))) as H.
  { induction m as [|m IH]; intros k l Hk Hl; cbn [seq foldM].
    - rewrite take_ge, app_nil_r by lia. done.
    - rewrite Hf by lia. unfold set_index. cbn [sel_vector]. rewrite vset_lt by lia. cbn [mbind result_bind]. rewrite wrapu_small by (apply Hg; lia).
      rewrite IH; [|lia | by rewrite length_insert]. do 3 f_equal. rewrite fmap_cons. rewrite (take_S_r _ _ (g k)) by (by rewrite list_lookup_insert_eq by lia).
      rewrite take_insert_ge by lia. by rewrite <- app_assoc. }
  unfold SelectionVector_Initialize, SelectionData_new. by rewrite (H n O) by (rewrite ?length_replicate; lia).
Qed.

(** The positions a vector reads are 32-bit numbers. *)
Definition positions_ok (d : UnifiedVectorFormat Z) : Prop := ∀ l, sel_vector (uni_sel d) = Some l → Forall (λ z, 0 ≤ z < 2 ^ 32) l.

Definition vector_ok (n : nat) (d : UnifiedVectorFormat Z) : Prop := values_ok d n ∧ positions_ok d.

Lemma slice_vector_ok d off n : vector_ok (off + n) d → Z.of_nat (off + n) ≤ 2 ^ 32 →
  ∃ d', slice_vector off n d = Ok d' ∧ vector_ok n d' ∧ ∀ i, (i < n)%nat → appended_value d' i = appended_value d (off + i).
Proof.
  intros [[(cap & Hcap & Hidx) Hval] Hpos] Hn. unfold slice_vector. rewrite (fill_selection _ (λ i, Z.of_nat (off + i))) by (done || lia). cbn [mbind result_bind].
  assert (∃ l, match sel_vector (uni_sel d) with None => Ok (mkSel (Some ((λ i, Z.of_nat (off + i)) <$> seq 0 n))) | Some _ => Slice (uni_sel d) (mkSel (Some ((λ i, Z.of_nat (off + i)) <$> seq 0 n))) n end = Ok (mkSel (Some l)) ∧
    length l = n ∧ ∀ i, (i < n)%nat → l !! i = Some (Z.of_nat (unified_index d (off + i))) ∧ Z.of_nat (unified_index d (off + i)) < 2 ^ 32) as (l & -> & Hl & Hlook).
  { destruct (sel_vector (uni_sel d)) as [sel|] eqn:Es.
    - unfold Slice. rewrite (fill_selection _ (λ i, Z.of_nat (unified_index d (off + i)))).
      + eexists. split; [done|]. split; [by rewrite length_fmap, length_seq|]. intros i Hi. rewrite list_lookup_fmap, lookup_seq_lt by done. split; [done|].
        destruct (Hidx (off + i)%nat ltac:(lia)) as (j & Hj & _). unfold unified_index. rewrite Hj, Nat2Z.id. unfold get_index in Hj. rewrite Es in Hj.
        apply vget_Ok in Hj. by apply (proj1 (Forall_lookup _ _) (Hpos _ Es) _ _ Hj).
      + intros s i Hi. cbn [get_index sel_vector]. rewrite (vget_lookup _ _ (Z.of_nat (off + i))) by (by rewrite list_lookup_fmap, lookup_seq_lt).
        cbn [mbind result_bind]. rewrite Nat2Z.id. destruct (Hidx (off + i)%nat ltac:(lia)) as (j & Hj & _). unfold unified_index. rewrite Hj, Nat2Z.id. done.
      + intros i Hi. destruct (Hidx (off + i)%nat ltac:(lia)) as (j & Hj & _). unfold unified_index. rewrite Hj, Nat2Z.id. unfold get_index in Hj. rewrite Es in Hj.
        apply vget_Ok in Hj. by apply (proj1 (Forall_lookup _ _) (Hpos _ Es) _ _ Hj).
    - eexists. split; [done|]. split; [by rewrite length_fmap, length_seq|]. intros i Hi. rewrite list_lookup_fmap, lookup_seq_lt by done.
      unfold unified_index, get_index. rewrite Es, Nat2Z.id. split; [done | lia]. }
  cbn [mbind result_bind]. eexists. split; [done|].
  assert (∀ i, (i < n)%nat → unified_index (mkUnified (mkSel (Some l)) (uni_data d) (uni_validity d)) i = unified_index d (off + i)) as Hindex.
  { intros i Hi. unfold unified_index at 1, get_index. cbn [uni_sel sel_vector]. destruct (Hlook i Hi) as [H _]. by rewrite (vget_lookup _ _ _ H), Nat2Z.id. }
  split; [split; [split|]|].
  - exists cap. split; [done|]. intros i Hi. cbn [uni_sel get_index sel_vector]. destruct (Hlook i Hi) as [H _]. rewrite (vget_lookup _ _ _ H). eexists. split; [done|].
    destruct (Hidx (off + i)%nat ltac:(lia)) as (j & Hj & ?). unfold unified_index. by rewrite Hj, Nat2Z.id.
  - intros i Hi. unfold unified_valid, unified_value. rewrite Hindex by done. cbn [uni_validity uni_data]. apply Hval. lia.
  - intros l' [= <-]. apply Forall_lookup. intros i z Hz. assert (i < n)%nat as Hi by (rewrite <- Hl; by eapply lookup_lt_Some). destruct (Hlook i Hi) as [H ?]. rewrite H in Hz. injection Hz as <-. lia.
  - intros i Hi. unfold appended_value, unified_valid, unified_value. by rewrite Hindex.
Qed.

(** The first [n] rows of a chunk. *)
Definition chunk_cells (chunk : list (UnifiedVectorFormat Z)) (i : nat) : list (option (option Z)) := (λ d, appended_value d i) <$> chunk.

Lemma DataChunk_Slice_ok chunk off n : Forall (vector_ok (off + n)) chunk → Z.of_nat (off + n) ≤ 2 ^ 32 →
  ∃ chunk', DataChunk_Slice chunk off n = Ok chunk' ∧ Forall (vector_ok n) chunk' ∧ length chunk' = length chunk ∧
    ∀ i, (i < n)%nat → chunk_cells chunk' i = chunk_cells chunk (off + i).
Proof.
  intros Hc Hn. destruct (mapR_Forall2 (slice_vector off n) (λ d d', vector_ok n d' ∧ ∀ i, (i < n)%nat → appended_value d' i = appended_value d (off + i)) chunk) as (chunk' & E & HF).
  { eapply Forall_impl; [exact Hc|]. intros d Hd. by apply slice_vector_ok. }
  exists chunk'. split; [exact E|]. split_and!.
  - clear E Hc. induction HF as [|d d' l l' [H _] _ IH]; by constructor.
  - symmetry. by eapply Forall2_length.
  - intros i Hi. clear E Hc. unfold chunk_cells. induction HF as [|d d' l l' [_ H] _ IH]; [done|]. cbn. by rewrite IH, H.
Qed.

(** A row group with [k] rows to come, which its columns already hold. *)
#[export] Instance pending_base : SegmentBase (RowGroup * nat) := { base_start p := rg_start p.1; base_count p := (rg_count p.1 + p.2)%nat }.

Section TableFacts.
Context (null_value : PhysicalType → Z) (uninitialised : Z).
Abbreviation column_type c := (cd_type (sd_base c)).
Abbreviation group_open := (group_open null_value uninitialised).
Abbreviation column_open := (column_open null_value uninitialised).
Abbreviation columns_open := (columns_open null_value uninitialised).
Abbreviation column_startable := (column_startable null_value uninitialised).

(** Columns without updates and without sketches. *)
Definition plain_columns (columns : list StandardColumnData) : Prop :=
  Forall never_updated columns ∧ Forall (λ b, b = false) (is_sketched <$> columns).

Lemma plain_same columns columns' :
  Forall2 same_standard columns columns' → is_sketched <$> columns' = is_sketched <$> columns → plain_columns columns → plain_columns columns'.
Proof.
  intros HF E [H1 H2]. split; [|by rewrite E]. clear E H2. induction HF as [|c c' l l' [_ S1 S2] _ IH]; [done|]. apply Forall_cons in H1 as [[H3 H4] H1].
  constructor; [split; congruence | by apply IH].
Qed.

(** Appends and reverts keep the sketches of a column. *)
Lemma append_sketched {F : CompressionFunction Z Z} c st d n c' st' : Standard_Append F c st d n = Ok (c', st') → is_sketched c' = is_sketched c.
Proof.
  unfold Standard_Append, Standard_AppendData. destruct (cd_stats (sd_base c)) as [stats|]; [|done]. intros ([[c1 s1] st1] & H & [= <- _])%bind_Ok_inv.
  apply bind_Ok_inv in H as ([[base s2] i] & _ & ([[validity s3] j] & _ & [= <- _ _])%bind_Ok_inv). done.
Qed.

Lemma start_sketched {F : CompressionFunction Z Z} c c' st : Standard_InitializeAppend F c = Ok (c', st) → is_sketched c' = is_sketched c.
Proof. unfold Standard_InitializeAppend. intros ([base i] & _ & ([validity j] & _ & [= <- _])%bind_Ok_inv)%bind_Ok_inv. done. Qed.

Lemma revert_sketched {F : CompressionFunction Z Z} c row c' : Standard_RevertAppend F c row = Ok c' → is_sketched c' = is_sketched c.
Proof. unfold Standard_RevertAppend. intros (base & _ & (validity & _ & [= <-])%bind_Ok_inv)%bind_Ok_inv. done. Qed.

Lemma append_columns_sketched columns : ∀ states chunk n k i columns' states' grown,
  append_columns null_value uninitialised (λ k _ c _, Ok (k, c)) k i columns states chunk n = Ok (columns', states', grown) → is_sketched <$> columns' = is_sketched <$> columns.
Proof.
  induction columns as [|c columns IH]; intros [|st states] [|d chunk] n k i columns' states' grown; cbn [append_columns]; try done; try (by intros [= <- _ _]).
  intros ([c1 st1] & H1 & H)%bind_Ok_inv. cbn [mbind result_bind] in H. apply bind_Ok_inv in H as ([[columns1 states1] grown1] & H2 & [= <- _ _]).
  cbn [fmap list_fmap]. rewrite (append_sketched _ _ _ _ _ _ H1). f_equal. by eapply IH.
Qed.

Lemma mapR_sketched {B} (f : StandardColumnData → result B) (g : B → StandardColumnData) columns : ∀ l,
  (∀ c x, f c = Ok x → is_sketched (g x) = is_sketched c) → mapR f columns = Ok l → is_sketched <$> (g <$> l) = is_sketched <$> columns.
Proof.
  induction columns as [|c columns IH]; intros l Hf; cbn [mapR]; [by intros [= <-]|]. intros (x & Hx & (l' & Hl & [= <-])%bind_Ok_inv)%bind_Ok_inv.
  cbn [fmap list_fmap]. rewrite (Hf _ _ Hx). f_equal. by apply IH.
Qed.

(** * New row groups *)

Lemma CreateEmpty_column ty : number_type ty → ∃ s, CreateEmpty ty = Ok s ∧ column_stats_ok ty s.
Proof.
  intros [Hok Hs Hx _]. destruct (CreateEmpty_leaf_ok ty Hok) as (s & E & W & T); [by left | done|]. exists s. split; [done|].
  apply stats_wf_eq in W as [[Wd Ws] _]. unfold node_shape, node_data in *. rewrite T, Hs in *. split_and!; [done | |]; naive_solver.
Qed.

Lemma CreateColumn_ok start ty : number_type ty →
  ∃ c, CreateColumn start ty = Ok c ∧ column_startable c ∧ column_type c = ty ∧ cd_start (sd_base c) = start ∧ cd_count (sd_base c) = O ∧
    (∀ n, Z.of_nat n + 2 < 2 ^ 63 → append_room c n) ∧ never_updated c ∧ is_sketched c = false.
Proof.
  intros Hty. destruct (numeric_type ty (nt_stats _ Hty)) as [_ Hn]. destruct (CreateEmpty_column ty Hty) as (s & Es & Hs).
  set (c := mkStandard (mkColumn ty start 0 (mkTree [] true []) (Some s) None 0) (mkColumn (LT VALIDITY) start 0 (mkTree [] true []) None None 0) false [] []).
  assert (CreateColumn start ty = Ok c) as E.
  { unfold CreateColumn, StandardColumnData_new, ColumnData_new. rewrite Es. cbn [mbind result_bind]. pose proof (numeric_not_validity ty (nt_stats _ Hty)) as Hv.
    destruct (InternalType ty); try done; (destruct ty as [i| | | | | | |]; [destruct i; first [done | reflexivity]|reflexivity..]). }
  exists c. split; [exact E|]. split_and!; try done.
  exists Hty. split_and!; [|done | by exists s |].
  - split; try done; try (cbn; lia); (split; [split|..]; try done; cbn; lia).
  - split; [by intros i seg r x Hi | by intros st row v Hst Hv].
Qed.

(** * Rows *)

(** The types of the columns of the table, and whether they are known to have
    neither updates nor sketches. *)
Context (types : list LogicalType) (plain : bool).
Hypothesis Htypes : Forall number_type types.

(** A row as it is stored: the transactions that inserted and deleted it, and
    its values. *)
Definition stored_row : Type := Z * Z * list (option (option Z)).

Definition row_cells (rg : RowGroup) (r : nat) : list (option (option Z)) := (λ c, stored_cell c r) <$> rg_columns rg.
Definition group_row (rg : RowGroup) (r : nat) : stored_row :=
  (row_inserted (GetOrCreateVersionInfo rg) r, row_deleted (GetOrCreateVersionInfo rg) r, row_cells rg r).
Definition table_rows (groups : list RowGroup) : list stored_row := concat ((λ rg, group_row rg <$> seq 0 (rg_count rg)) <$> groups).

(** The rows of a chunk as the transaction inserts them. *)
Definition inserted_rows (tid : Z) (chunk : list (UnifiedVectorFormat Z)) (n : nat) : list stored_row :=
  (λ i, (tid, NOT_DELETED_ID, chunk_cells chunk i)) <$> seq 0 n.

(** A row group whose columns are [k] rows ahead of its versions. *)
Record group_pending (p : RowGroup * nat) : Prop := {
  gp_columns : columns_open (rg_start p.1) (rg_count p.1 + p.2) (rg_columns p.1);
  gp_count : (rg_count p.1 + p.2 ≤ ROW_GROUP_VECTOR_COUNT * SVS)%nat;
  gp_versions : manager_wf (rg_count p.1) (GetOrCreateVersionInfo p.1) ∧ appendable (rg_count p.1) (GetOrCreateVersionInfo p.1);
  gp_clean : ∀ row, (rg_count p.1 ≤ row < ROW_GROUP_VECTOR_COUNT * SVS)%nat → row_deleted (GetOrCreateVersionInfo p.1) row = NOT_DELETED_ID;
  gp_types : (λ c, column_type c) <$> rg_columns p.1 = types;
  gp_plain : plain = true → plain_columns (rg_columns p.1);
}.

Definition pending_row (tid : Z) (rg : RowGroup) (r : nat) : stored_row :=
  (if decide (r < rg_count rg)%nat then row_inserted (GetOrCreateVersionInfo rg) r else tid, row_deleted (GetOrCreateVersionInfo rg) r, row_cells rg r).
Definition pending_rows (tid : Z) (p : RowGroup * nat) : list stored_row := pending_row tid p.1 <$> seq 0 (rg_count p.1 + p.2).

Lemma pending_none tid rg : pending_rows tid (rg, O) = group_row rg <$> seq 0 (rg_count rg).
Proof.
  unfold pending_rows. cbn [fst snd]. rewrite Nat.add_0_r. apply list_fmap_ext. intros i r Hr%lookup_seq. unfold pending_row, group_row.
  rewrite decide_True by lia. done.
Qed.

Lemma pending_open rg : group_pending (rg, O) → group_open rg.
Proof.
  intros [Hc Hn [Hw Ha] _ _ _]. cbn [fst snd] in *. rewrite Nat.add_0_r in *. split; [done | done|]. intros m Hm. unfold GetOrCreateVersionInfo in *. by rewrite Hm in *.
Qed.

(** The cells of the columns after an append. *)
Lemma appended_cells n columns chunk columns' m row :
  Forall3 (column_appended null_value uninitialised n) columns chunk columns' → Forall (λ c, cd_count (sd_base c) = m) columns → (row < m + n)%nat →
  (λ c, stored_cell c row) <$> columns' = if decide (row < m)%nat then (λ c, stored_cell c row) <$> columns else chunk_cells chunk (row - m).
Proof.
  intros HF Hm Hrow. induction HF as [|c d c' columns chunk columns' Ha _ IH]; [by destruct (decide _)|].
  apply Forall_cons in Hm as [Hm1 Hm]. cbn [fmap list_fmap]. rewrite (IH Hm). destruct Ha as [_ _ _ _ Hold Hnew]. subst m. destruct (decide _).
  - by rewrite Hold.
  - unfold chunk_cells. cbn [fmap list_fmap]. rewrite <- Hnew by lia. do 2 f_equal. lia.
Qed.

Lemma group_append_ok rg k chunk n :
  group_pending (rg, k) → rooms n (rg_columns rg) → length chunk = length types → Forall (vector_ok n) chunk →
  (rg_count rg + k + n ≤ ROW_GROUP_VECTOR_COUNT * SVS)%nat →
  ∃ rg', RowGroup_Append null_value uninitialised rg (mkAppendState (append_at <$> rg_columns rg) (rg_count rg + k)) chunk n =
      Ok (rg', mkAppendState (append_at <$> rg_columns rg') (rg_count rg' + (k + n))) ∧
    rg_start rg' = rg_start rg ∧ rg_count rg' = rg_count rg ∧ group_pending (rg', k + n)%nat ∧
    ∀ tid, pending_rows tid (rg', k + n)%nat = pending_rows tid (rg, k) ++ inserted_rows tid chunk n.
Proof.
  intros [Hc Hn Hv Hcl Ht Hpl] Hr Hl Hd Hm. cbn [fst snd] in *. unfold RowGroup_Append, append_chunk. cbn [append_states offset_in_row_group].
  destruct (append_columns_ok null_value uninitialised _ _ n (rg_columns rg) chunk 0 0 Hc Hr) as (columns' & grown & Eap & HF);
    [rewrite Hl, <- Ht; apply length_fmap | eapply Forall_impl; [exact Hd | by intros d [? _]] | done|]. rewrite Eap. cbn [mbind result_bind].
  exists (mkRowGroup (rg_start rg) (rg_count rg) columns' (version_info rg) (rg_allocation_size rg + grown)). cbn [rg_start rg_count rg_columns].
  split; [by rewrite Nat.add_assoc|]. split_and!; [done | done | |].
  - split; cbn [fst snd rg_start rg_count rg_columns]; [|lia | done | done | |].
    + rewrite Nat.add_assoc. by eapply appended_open.
    + rewrite <- Ht. clear Hc Hr Hl Hd Ht Hpl Eap. induction HF as [|c d c' l1 l2 l3 [_ Hty _ _ _ _] _ IH]; [done|]. cbn [fmap list_fmap]. by rewrite Hty, IH.
    + intros E. apply (plain_same (rg_columns rg)); [|by eapply append_columns_sketched | by apply Hpl]. clear -HF. induction HF as [|c d c' l1 l2 l3 [_ _ Hs _ _ _] _ IH]; by constructor.
  - intros tid. unfold pending_rows, inserted_rows. cbn [fst snd rg_count]. rewrite Nat.add_assoc, seq_app, fmap_app. cbn [Nat.add].
    assert (∀ row, (row < rg_count rg + k + n)%nat → (λ c, stored_cell c row) <$> columns' =
      if decide (row < rg_count rg + k)%nat then (λ c, stored_cell c row) <$> rg_columns rg else chunk_cells chunk (row - (rg_count rg + k))) as Hcells.
    { intros row Hrow. eapply appended_cells; [exact HF | | exact Hrow]. eapply Forall_impl; [exact Hc | by intros c (_ & _ & ?)]. }
    f_equal.
    + apply list_fmap_ext. intros i r Hr'%lookup_seq. unfold pending_row, row_cells. cbn [rg_count rg_columns GetOrCreateVersionInfo version_info rg_start].
      rewrite Hcells by lia. rewrite (decide_True (P := (r < _ + _)%nat)) by lia. done.
    + rewrite <- (Nat.add_0_r (rg_count rg + k)) at 1. rewrite <- fmap_add_seq, <- list_fmap_compose. apply list_fmap_ext. intros i r Hr'%lookup_seq. cbn [compose].
      unfold pending_row, row_cells. cbn [rg_count rg_columns]. rewrite Hcells by lia. rewrite !decide_False by lia. f_equal; [f_equal; apply Hcl; lia | f_equal; lia].
Qed.

(** * The statistics of the table *)

Lemma merge_columns ty s o : column_stats_ok ty s → column_stats_ok ty o →
  ∃ s', Merge s o = Ok s' ∧ column_stats_ok ty s' ∧ widens ty s s' ∧ widens ty o s'.
Proof.
  intros (Ts & Cs & lo & hi & Vs) (To & Co & lo' & hi' & Vo). rewrite Merge_flags by apply Vs. set (s1 := set_validity s _ _).
  assert (numeric_view s1 (InternalType ty) lo hi) as V1 by (by apply set_validity_view).
  destruct (Merge_view s1 o _ lo hi lo' hi' V1 Vo) as (s' & -> & V' & u & ->); [by rewrite To; unfold s1; destruct s|]. eexists. split; [done|].
  split_and!; [split_and!; [rewrite set_union_type; unfold s1; by destruct s | unfold s1; by destruct s | eauto] | |]; (split; [|split]).
  - intros x (l & h & V & Hx). destruct (numeric_view_unique _ _ _ _ _ _ Vs V) as [<- <-]. eexists _, _. split; [exact V'|]. apply join_interval. by left.
  - intros H. unfold s1. destruct s. cbn in *. by rewrite H.
  - intros H. unfold s1. destruct s. cbn in *. by rewrite H.
  - intros x (l & h & V & Hx). destruct (numeric_view_unique _ _ _ _ _ _ Vo V) as [<- <-]. eexists _, _. split; [exact V'|]. apply join_interval. by right.
  - intros H. unfold s1. destruct s. cbn in *. rewrite H. apply orb_true_r.
  - intros H. unfold s1. destruct s. cbn in *. rewrite H. apply orb_true_r.
Qed.

(** Statistics cover a cell. *)
Definition cell_covered (ty : LogicalType) (s : BaseStatistics) (v : option (option Z)) : Prop :=
  match v with
  | Some (Some x) => in_stats ty s x ∧ has_no_null s = true
  | Some None => has_null s = true
  | None => True
  end.

Lemma covered_widens ty s s' v : widens ty s s' → cell_covered ty s v → cell_covered ty s' v.
Proof. intros (H1 & H2 & H3). destruct v as [[x|]|]; cbn; naive_solver. Qed.

(** The statistics cover all rows. *)
Definition stats_cover (stats : list BaseStatistics) (rows : list stored_row) : Prop :=
  Forall (λ row : stored_row, Forall3 cell_covered types stats row.2) rows.

Definition stats_typed (stats : list BaseStatistics) : Prop := Forall2 column_stats_ok types stats.

Lemma merge_from_ok rg tys columns : ∀ i stats,
  (∀ j c, columns !! j = Some c → rg_columns rg !! (i + j)%nat = Some c) → Forall column_open columns → (λ c, column_type c) <$> columns = tys →
  Forall2 column_stats_ok tys stats →
  ∃ stats', merge_table_stats rg i stats = Ok stats' ∧ Forall2 column_stats_ok tys stats' ∧
    (∀ cells, Forall3 cell_covered tys stats cells → Forall3 cell_covered tys stats' cells) ∧
    ∀ row, Forall3 cell_covered tys stats' ((λ c, stored_cell c row) <$> columns).
Proof.
  revert tys. induction columns as [|c columns IH]; intros tys i stats Hat Ho <- Hs; cbn [fmap list_fmap] in *.
  - apply Forall2_nil_inv_l in Hs as ->. exists []. split_and!; [done | constructor | done | intros; constructor].
  - apply Forall2_cons_inv_l in Hs as (s & stats0 & Hs1 & Hs & ->). apply Forall_cons in Ho as [Ho1 Ho]. cbn [merge_table_stats].
    unfold RowGroup_MergeIntoStatistics, GetColumn. rewrite (vget_lookup _ _ c) by (rewrite <- (Nat.add_0_r i); by apply Hat). cbn [mbind result_bind].
    destruct Ho1 as (H & [_ _ _ _ (cs & Ecs & Hcs)] & [_ Z2]). unfold MergeIntoStatistics. rewrite Ecs.
    destruct (merge_columns _ s cs Hs1 Hcs) as (s' & -> & Hs' & W1 & W2). cbn [mbind result_bind].
    destruct (IH ((λ c, column_type c) <$> columns) (S i) stats0) as (stats' & -> & Hst & Hold & Hnew); [|done | done | done|].
    { intros j c' Hj. replace (S i + j)%nat with (i + S j)%nat by lia. by apply Hat. }
    cbn [mbind result_bind]. exists (s' :: stats'). split; [reflexivity|]. split; [constructor; [exact Hs' | exact Hst]|]. split.
    + intros cells HF. inversion HF as [|a b v ? ? cells' Hv HF']; subst. constructor; [exact (covered_widens _ _ _ _ W1 Hv) | by apply Hold].
    + intros row. constructor; [|apply Hnew]. eapply covered_widens; [exact W2|]. destruct (stored_cell c row) as [v|] eqn:Ev; [|done].
      specialize (Z2 cs row v Ecs Ev). by destruct v.
Qed.

(** The statistics of a row group are merged into those of the table. *)
Lemma merge_stats_ok tid p stats :
  group_pending p → stats_typed stats →
  ∃ stats', merge_table_stats p.1 0 stats = Ok stats' ∧ stats_typed stats' ∧
    (∀ rows, stats_cover stats rows → stats_cover stats' rows) ∧ stats_cover stats' (pending_rows tid p).
Proof.
  intros Hp Hs. destruct (merge_from_ok p.1 types (rg_columns p.1) 0 stats) as (stats' & E & Hst & Hold & Hnew); [done | | apply Hp | done|].
  { eapply Forall_impl; [apply Hp | by intros c (? & _)]. }
  exists stats'. split_and!; [done | done | |].
  - intros rows HF. eapply Forall_impl; [exact HF|]. intros row. apply Hold.
  - unfold stats_cover, pending_rows. apply Forall_fmap, Forall_forall. intros r _. apply Hnew.
Qed.

(** * New row groups *)

Lemma new_columns_ok start : ∃ rg, RowGroup_InitializeEmpty types start = Ok rg ∧ rg_start rg = start ∧ rg_count rg = O ∧ version_info rg = None ∧
  (λ c, column_type c) <$> rg_columns rg = types ∧ plain_columns (rg_columns rg) ∧
  Forall (λ c, column_startable c ∧ cd_start (sd_base c) = start ∧ cd_count (sd_base c) = O) (rg_columns rg) ∧
  ∀ n, Z.of_nat n + 2 < 2 ^ 63 → rooms n (rg_columns rg).
Proof.
  unfold RowGroup_InitializeEmpty. destruct (mapR_Forall2 (CreateColumn start) (λ ty c, column_type c = ty ∧
    (never_updated c ∧ is_sketched c = false) ∧ (column_startable c ∧ cd_start (sd_base c) = start ∧ cd_count (sd_base c) = O) ∧ ∀ n, Z.of_nat n + 2 < 2 ^ 63 → append_room c n) types) as (columns & -> & HF).
  { eapply Forall_impl; [exact Htypes|]. intros ty Hty. destruct (CreateColumn_ok start ty Hty) as (c & ? & ? & ? & ? & ? & ? & ? & ?). exists c. by split_and!. }
  cbn [mbind result_bind]. eexists. split; [done|]. cbn [rg_start rg_count version_info rg_columns]. clear Htypes. split_and!; try done.
  - induction HF as [|ty c l l' (H & _) _ IH]; [done|]. cbn [fmap list_fmap]. by rewrite H, IH.
  - split; induction HF as [|ty c l l' (_ & [H1 H2] & _) _ IH]; by constructor.
  - induction HF as [|ty c l l' (_ & _ & H & _) _ IH]; by constructor.
  - intros n Hn. unfold rooms. induction HF as [|ty c l l' (_ & _ & _ & H) _ IH]; constructor; [by apply H | done].
Qed.

(** A row group an append can start on. *)
Record group_startable (rg : RowGroup) : Prop := {
  gs_columns : Forall (λ c, column_startable c ∧ cd_start (sd_base c) = rg_start rg ∧ cd_count (sd_base c) = rg_count rg) (rg_columns rg);
  gs_count : (rg_count rg ≤ ROW_GROUP_VECTOR_COUNT * SVS)%nat;
  gs_versions : manager_wf (rg_count rg) (GetOrCreateVersionInfo rg) ∧ appendable (rg_count rg) (GetOrCreateVersionInfo rg);
  gs_clean : ∀ row, (rg_count rg ≤ row < ROW_GROUP_VECTOR_COUNT * SVS)%nat → row_deleted (GetOrCreateVersionInfo rg) row = NOT_DELETED_ID;
  gs_types : (λ c, column_type c) <$> rg_columns rg = types;
  gs_plain : plain = true → plain_columns (rg_columns rg);
}.

Lemma pending_startable rg : group_pending (rg, O) → group_startable rg.
Proof.
  intros [Hc Hn Hv Hcl Ht Hpl]. cbn [fst snd] in *. rewrite Nat.add_0_r in *. split; try done. eapply Forall_impl; [exact Hc|]. intros c (Ho & ? & ?).
  split_and!; [by apply open_startable | done | done].
Qed.

Lemma new_group_ok start : ∃ rg, RowGroup_InitializeEmpty types start = Ok rg ∧ rg_start rg = start ∧ rg_count rg = O ∧ group_startable rg ∧
  ∀ n, Z.of_nat n + 2 < 2 ^ 63 → rooms n (rg_columns rg).
Proof.
  destruct (new_columns_ok start) as (rg & E & Es & Ec & Ev & Ht & Hpl & HF & Hr). exists rg. split_and!; try done. split; rewrite ?Es, ?Ec; try done; try lia.
  - unfold GetOrCreateVersionInfo. rewrite Ev. split; [apply manager_new_wf|]. split; cbn [vector_info RowVersionManager_new].
    + intros i o _ Ho. by apply lookup_replicate in Ho as [-> _].
    + intros c Hc. by apply lookup_replicate in Hc as [? _].
  - intros row _. unfold GetOrCreateVersionInfo. rewrite Ev. unfold row_deleted, row_info. cbn [vector_info RowVersionManager_new].
    destruct (replicate _ _ !! _) as [o|] eqn:E'; [|done]. by apply lookup_replicate in E' as [-> _].
Qed.

(** Starting an append on a row group, new or not. *)
Lemma start_pending_ok rg :
  group_startable rg → rooms 0 (rg_columns rg) →
  ∃ rg', RowGroup_InitializeAppend null_value uninitialised rg = Ok (rg', mkAppendState (append_at <$> rg_columns rg') (rg_count rg' + 0)) ∧
    rg_start rg' = rg_start rg ∧ rg_count rg' = rg_count rg ∧ group_pending (rg', O) ∧ (∀ n, rooms (S n) (rg_columns rg) → rooms n (rg_columns rg')) ∧
    ∀ tid, pending_rows tid (rg', O) = pending_rows tid (rg, O).
Proof.
  intros [Hc Hn [Hw Ha] Hcl Ht Hpl] Hr. destruct (start_group_ok null_value uninitialised rg Hc Hn) as (rg' & E & Hg & Es & Ec & Ev & HF); [|done|].
  { intros m Hm. unfold GetOrCreateVersionInfo in *. by rewrite Hm in *. }
  assert (GetOrCreateVersionInfo rg' = GetOrCreateVersionInfo rg) as Em by (unfold GetOrCreateVersionInfo; by rewrite Ev, Es).
  exists rg'. rewrite Nat.add_0_r. split; [by rewrite Ec|]. split_and!; [done | done | | |].
  - destruct Hg as [G1 G2 G3]. split; cbn [fst snd]; rewrite ?Nat.add_0_r, ?Em, ?Ec; try done; [by rewrite <- Ec | |].
    + rewrite <- Ht. clear E Hc Hr Ht G1 Hpl. induction HF as [|c c' l l' (_ & H & _) _ IH]; [done|]. cbn [fmap list_fmap]. by rewrite H, IH.
    + intros Ep. apply (plain_same (rg_columns rg)); [clear -HF; induction HF as [|c c' l l' [H _] _ IH]; by constructor | | by apply Hpl].
      unfold RowGroup_InitializeAppend in E. apply bind_Ok_inv in E as (states & Em' & [= <- _]). cbn [set_columns rg_columns]. eapply mapR_sketched; [|exact Em']. intros c [c' st]. apply start_sketched.
  - intros n. clear E Hc Hr Ht Hg Hpl. unfold rooms. induction HF as [|c c' l l' (_ & _ & H & _) _ IH]; [done|]. intros [H1 H2]%Forall_cons. constructor; [by apply H | by apply IH].
  - intros tid. unfold pending_rows. cbn [fst snd]. rewrite Ec. apply list_fmap_ext. intros i r _. unfold pending_row. rewrite Ec, Em. f_equal. unfold row_cells. clear E Hc Hr Ht Hg Hpl.
    induction HF as [|c c' l l' (_ & _ & _ & H) _ IH]; [done|]. cbn [fmap list_fmap]. by rewrite H, IH.
Qed.

(** * Loaded trees *)

Definition tree_of (groups : list RowGroup) : SegmentTree RowGroup := mkTree ((λ rg, mkSegmentNode (rg_start rg) rg) <$> groups) true [].

Lemma tree_at groups i rg : groups !! i = Some rg → row_group_at (tree_of groups) i = Ok rg.
Proof. intros H. unfold row_group_at, tree_of. cbn [tree_nodes]. by rewrite (vget_lookup _ _ (mkSegmentNode (rg_start rg) rg)) by (by rewrite list_lookup_fmap, H). Qed.

Lemma tree_put groups i rg rg' : groups !! i = Some rg → rg_start rg' = rg_start rg → put_row_group (tree_of groups) i rg' = Ok (tree_of (<[i := rg']> groups)).
Proof.
  intros H Es. unfold put_row_group, tree_of. cbn [tree_nodes finished_loading unloaded].
  rewrite (vget_lookup _ _ (mkSegmentNode (rg_start rg) rg)) by (by rewrite list_lookup_fmap, H). cbn [mbind result_bind row_start]. by rewrite list_fmap_insert, Es.
Qed.

Lemma tree_last_index groups rg : match tree_nodes (tree_of (groups ++ [rg])) with [] => None | l => Some (length l - 1)%nat end = Some (length groups).
Proof.
  unfold tree_of. cbn [tree_nodes]. rewrite fmap_app. cbn [fmap list_fmap].
  destruct (_ ++ [_]) as [|x l] eqn:E; [by destruct (_ <$> groups)|]. rewrite <- E, length_app, length_fmap. cbn. f_equal. lia.
Qed.

Lemma tree_next groups i : GetNextSegment true (tree_of groups) i = Ok (tree_of groups, if (i + 1 <? length groups)%nat then Some (i + 1)%nat else None).
Proof. unfold GetNextSegment, Next, tree_of. cbn [negb finished_loading tree_nodes]. by rewrite length_fmap. Qed.

(** * The loop of the append *)

(** The row groups of a table, once they are all loaded. *)
Definition loads (rc : RowGroupCollection) (groups : list RowGroup) : Prop := LoadAllSegments true (row_groups rc) = Ok (tree_of groups).

Lemma start_last_ok rc groups rg :
  loads rc (groups ++ [rg]) → group_startable rg → rooms 0 (rg_columns rg) →
  ∃ rg', start_last_group null_value uninitialised rc = Ok (with_tree rc (tree_of (groups ++ [rg'])), length groups, mkAppendState (append_at <$> rg_columns rg') (rg_count rg' + 0)) ∧
    rg_start rg' = rg_start rg ∧ rg_count rg' = rg_count rg ∧ group_pending (rg', O) ∧ (∀ n, rooms (S n) (rg_columns rg) → rooms n (rg_columns rg')) ∧
    ∀ tid, pending_rows tid (rg', O) = pending_rows tid (rg, O).
Proof.
  intros E Hs Hr. destruct (start_pending_ok rg Hs Hr) as (rg' & Ei & Es & Ec & Hp & Hroom & Hrows). exists rg'. split; [|by split_and!].
  unfold start_last_group, GetLastSegment. rewrite E. cbn [mbind result_bind]. rewrite tree_last_index. rewrite (tree_at _ _ rg) by (by rewrite lookup_app_r, Nat.sub_diag by done).
  cbn [mbind result_bind]. rewrite Ei. cbn [mbind result_bind]. unfold put_in_table. cbn [with_tree row_groups].
  rewrite (tree_put _ _ rg) by (done || by rewrite lookup_app_r, Nat.sub_diag by done). cbn [mbind result_bind].
  rewrite insert_app_r_alt, Nat.sub_diag by done. done.
Qed.

Lemma new_last_ok rc groups start :
  loads rc groups → rc_types rc = types →
  ∃ rc1 rg, AppendRowGroup rc start = Ok rc1 ∧
    start_last_group null_value uninitialised rc1 = Ok (with_tree rc (tree_of (groups ++ [rg])), length groups, mkAppendState (append_at <$> rg_columns rg) (rg_count rg + 0)) ∧
    rg_start rg = start ∧ rg_count rg = O ∧ group_pending (rg, O) ∧ (∀ n, Z.of_nat n + 3 < 2 ^ 63 → rooms n (rg_columns rg)) ∧ ∀ tid, pending_rows tid (rg, O) = [].
Proof.
  intros E Et. destruct (new_group_ok start) as (rg & Ei & Es & Ec & Hs & Hr). exists (with_tree rc (tree_of (groups ++ [rg]))).
  destruct (start_last_ok (with_tree rc (tree_of (groups ++ [rg]))) groups rg) as (rg' & El & Es' & Ec' & Hp & Hroom & Hrows); [done | done | by apply Hr|].
  exists rg'. split; [|split; [exact El|]].
  - unfold AppendRowGroup. rewrite Et, Ei. cbn [mbind result_bind]. unfold AppendSegment. rewrite E. cbn [mbind result_bind]. unfold tree_of, AppendSegmentInternal. cbn. by rewrite fmap_app.
  - split_and!; [congruence | congruence | done | |].
    + intros n Hn. apply Hroom, Hr. lia.
    + intros tid. rewrite Hrows. unfold pending_rows. cbn [fst snd]. by rewrite Ec.
Qed.

Lemma vector_ok_le n k d : vector_ok n d → (k ≤ n)%nat → vector_ok k d.
Proof.
  intros [[(cap & Hc & Hi) Hv] Hp] Hk. split; [|done]. split; [|intros i Hlt; apply Hv; lia]. exists cap. split; [done|]. intros i Hlt. apply Hi. lia.
Qed.

Lemma room_le n k columns : rooms n columns → (k ≤ n)%nat → rooms k columns.
Proof. intros H Hk. eapply Forall_impl; [exact H|]. intros c [H1 H2]. unfold append_room. lia. Qed.

Lemma put_last rc groups rg rg' : row_groups rc = tree_of (groups ++ [rg]) → rg_start rg' = rg_start rg →
  put_in_table rc (length groups) rg' = Ok (with_tree rc (tree_of (groups ++ [rg']))).
Proof.
  intros E Es. unfold put_in_table. rewrite E, (tree_put _ _ rg) by (done || by rewrite lookup_app_r, Nat.sub_diag by done). cbn [mbind result_bind].
  by rewrite insert_app_r_alt, Nat.sub_diag by done.
Qed.

(** The table [rc'] is [rc] with other row groups and statistics that cover
    more rows. *)
Record regrouped (rc rc' : RowGroupCollection) (groups : list RowGroup) (rows : list stored_row) : Prop := {
  rt_tree : row_groups rc' = tree_of groups;
  rt_total : total_rows rc' = total_rows rc;
  rt_start : rc_row_start rc' = rc_row_start rc;
  rt_types : rc_types rc' = rc_types rc;
  rt_typed : stats_typed (rc_stats rc) → stats_typed (rc_stats rc');
  rt_covers : stats_typed (rc_stats rc) → stats_cover (rc_stats rc') rows ∧ ∀ rows, stats_cover (rc_stats rc) rows → stats_cover (rc_stats rc') rows;
}.

Lemma regrouped_tree rc tree groups : regrouped rc (with_tree (with_tree rc tree) (tree_of groups)) groups [].
Proof. split; try done. intros _. split; [constructor | done]. Qed.

Lemma fill_group_ok tid rc groups rg k chunk n a :
  row_groups rc = tree_of (groups ++ [rg]) → group_pending (rg, k) → rooms n (rg_columns rg) → length chunk = length types → Forall (vector_ok n) chunk →
  (a ≤ n)%nat → (rg_count rg + k + a ≤ ROW_GROUP_VECTOR_COUNT * SVS)%nat → stats_typed (rc_stats rc) →
  ∃ rc' rg', fill_group (RowGroup_Append null_value uninitialised) rc (length groups) rg (mkAppendState (append_at <$> rg_columns rg) (rg_count rg + k)) chunk a =
      Ok (rc', mkAppendState (append_at <$> rg_columns rg') (rg_count rg' + (k + a))) ∧
    regrouped rc rc' (groups ++ [rg']) (inserted_rows tid chunk a) ∧ rg_start rg' = rg_start rg ∧ rg_count rg' = rg_count rg ∧ group_pending (rg', k + a)%nat ∧
    ∀ tid, pending_rows tid (rg', k + a)%nat = pending_rows tid (rg, k) ++ inserted_rows tid chunk a.
Proof.
  intros E Hp Hr Hl Hd Ha Hm Hs. unfold fill_group. destruct (Nat.ltb_spec 0 a) as [Hpos|Hz].
  - destruct (group_append_ok rg k chunk a Hp) as (rg' & -> & Es & Ec & Hp' & Hrows); [by eapply room_le | done | | done|].
    { eapply Forall_impl; [exact Hd|]. intros d Hok. by eapply vector_ok_le. }
    cbn [mbind result_bind]. rewrite (put_last rc groups rg rg' E Es). cbn [mbind result_bind with_tree rc_stats].
    destruct (merge_stats_ok tid (rg', k + a)%nat (rc_stats rc) Hp' Hs) as (stats & Em & Ht & Hold & Hnew). cbn [fst] in Em. rewrite Em. cbn [mbind result_bind].
    eexists _, rg'. split; [done|]. split_and!; try done. split; try done. intros _. cbn [rc_stats]. split; [|done].
    rewrite Hrows in Hnew. by apply Forall_app in Hnew as [_ ?].
  - assert (a = O) as -> by lia. exists rc, rg. rewrite Nat.add_0_r. split; [done|]. split_and!; try done.
    + split; try done. intros _. split; [constructor | done].
    + intros id. unfold inserted_rows. cbn. by rewrite app_nil_r.
Qed.

Definition group_full (p : RowGroup * nat) : Prop := (rg_count p.1 + p.2 = ROW_GROUP_SIZE)%nat.

(** Row groups in the middle of an append: the first had [c] rows, the others
    are new; all but the last are full. *)
Record chain (start c k : nat) (mid : list (RowGroup * nat)) (last : RowGroup * nat) : Prop := {
  ch_pending : Forall group_pending (mid ++ [last]);
  ch_full : Forall group_full mid;
  ch_starts : contiguous start (mid ++ [last]);
  ch_rows : sum_list_with snd (mid ++ [last]) = k;
  ch_counts : (λ p, rg_count p.1) <$> (mid ++ [last]) = c :: replicate (length mid) O;
}.

Lemma chain_one rg k : group_pending (rg, k) → chain (rg_start rg) (rg_count rg) k [] (rg, k).
Proof. intros H. split; cbn; [by constructor | constructor | done | lia | done]. Qed.

Lemma chain_cons start k n mid last rg :
  group_pending (rg, k) → group_full (rg, k) → rg_start rg = start → chain (start + ROW_GROUP_SIZE) 0 n mid last → chain start (rg_count rg) (k + n) ((rg, k) :: mid) last.
Proof.
  intros Hp Hf Hs [H1 H2 H3 H4 H5]. split; cbn [app]; [by constructor | by constructor | split; [done|]; cbn [base_count pending_base]; by rewrite Hf | |].
  - cbn [sum_list_with]. by rewrite H4.
  - cbn [fmap list_fmap fst length replicate]. by rewrite H5.
Qed.

Lemma regrouped_trans rc1 rc2 rc3 groups groups' rows rows' :
  regrouped rc1 rc2 groups rows → regrouped rc2 rc3 groups' rows' → regrouped rc1 rc3 groups' (rows ++ rows').
Proof.
  intros [A1 A2 A3 A4 A5 A6] [B1 B2 B3 B4 B5 B6]. split; try congruence; [auto|]. intros Hs. destruct (A6 Hs) as [A7 A8], (B6 (A5 Hs)) as [B7 B8].
  split; [|auto]. apply Forall_app. split; [by apply B8 | done].
Qed.

Lemma inserted_split tid chunk a n : (a ≤ n)%nat →
  inserted_rows tid chunk n = inserted_rows tid chunk a ++ ((λ i, (tid, NOT_DELETED_ID, chunk_cells chunk (a + i))) <$> seq 0 (n - a)).
Proof.
  intros Ha. unfold inserted_rows. replace n with (a + (n - a))%nat at 1 by lia. rewrite seq_app, fmap_app. f_equal. cbn [Nat.add].
  rewrite <- (Nat.add_0_r a) at 1. by rewrite <- fmap_add_seq, <- list_fmap_compose.
Qed.

(** The rest of the chunk after the first [a] rows. *)
Lemma rest_of_chunk chunk n a : Forall (vector_ok n) chunk → length chunk = length types → (a ≤ n)%nat → Z.of_nat n ≤ 2 ^ 32 →
  ∃ chunk', (if (n - a <? n)%nat then DataChunk_Slice chunk a (n - a) else Ok chunk) = Ok chunk' ∧ Forall (vector_ok (n - a)) chunk' ∧ length chunk' = length types ∧
    ∀ tid, inserted_rows tid chunk n = inserted_rows tid chunk a ++ inserted_rows tid chunk' (n - a).
Proof.
  intros Hd Hl Ha Hn. destruct (Nat.ltb_spec (n - a) n).
  - destruct (DataChunk_Slice_ok chunk a (n - a)) as (chunk' & E & Hok & Hlen & Hcells); [by replace (a + (n - a))%nat with n by lia | lia|].
    exists chunk'. split_and!; [done | done | congruence|]. intros tid. rewrite (inserted_split tid chunk a n Ha). f_equal. apply list_fmap_ext. intros i r Hr%lookup_seq. cbn [Nat.add] in Hr. rewrite Hcells by lia. done.
  - exists chunk. split_and!; [done | eapply Forall_impl; [exact Hd|]; intros d Hok; eapply vector_ok_le; [exact Hok | lia] | done|]. intros tid. rewrite (inserted_split tid chunk a n Ha). f_equal. unfold inserted_rows.
    destruct (decide (n = O)) as [->|]; [done|]. assert (a = O) as -> by lia. done.
Qed.

Lemma group_size_vectors : ROW_GROUP_SIZE = (ROW_GROUP_VECTOR_COUNT * SVS)%nat.
Proof. unfold ROW_GROUP_SIZE. lia. Qed.

Lemma group_vectors_pos : (0 < ROW_GROUP_VECTOR_COUNT)%nat.
Proof. assert (ROW_GROUP_VECTOR_COUNT = 60%nat) as -> by (vm_compute; reflexivity). lia. Qed.

Lemma group_size_pos : (0 < ROW_GROUP_SIZE)%nat.
Proof. rewrite group_size_vectors. apply Nat.mul_pos_pos; [apply group_vectors_pos | apply vector_size_pos]. Qed.

Lemma append_groups_ok tid fuel : ∀ rc groups rg k chunk n new_row_group,
  (n ≤ fuel)%nat → (group_full (rg, k) → n < fuel)%nat →
  row_groups rc = tree_of (groups ++ [rg]) → rc_types rc = types → stats_typed (rc_stats rc) → group_pending (rg, k) →
  rooms n (rg_columns rg) → Z.of_nat n ≤ 2 ^ 32 → length chunk = length types → Forall (vector_ok n) chunk →
  ∃ rc' mid last new', append_groups null_value uninitialised (RowGroup_Append null_value uninitialised) fuel rc (length groups)
      (mkAppendState (append_at <$> rg_columns rg) (rg_count rg + k)) chunk n n new_row_group =
      Ok (rc', length (groups ++ mid.*1), mkAppendState (append_at <$> rg_columns last.1) (rg_count last.1 + last.2), new') ∧
    regrouped rc rc' (groups ++ (mid ++ [last]).*1) (inserted_rows tid chunk n) ∧ chain (rg_start rg) (rg_count rg) (k + n) mid last ∧ (length mid ≤ fuel)%nat ∧
    ∀ tid, concat (pending_rows tid <$> (mid ++ [last])) = pending_rows tid (rg, k) ++ inserted_rows tid chunk n.
Proof.
  induction fuel as [fuel IH] using lt_wf_ind. intros rc groups rg k chunk n new Hfuel Hfull E Et Hs Hp Hr Hn Hl Hd.
  pose proof (gp_count _ Hp) as Hcount. cbn [fst snd] in Hcount. rewrite <- group_size_vectors in Hcount.
  set (a := Nat.min n (ROW_GROUP_SIZE - (rg_count rg + k))).
  destruct (fill_group_ok tid rc groups rg k chunk n a) as (rc1 & rg1 & Ef & Hre & Es1 & Ec1 & Hp1 & Hrows1); try done; [lia | rewrite <- group_size_vectors; lia|].
  destruct (rest_of_chunk chunk n a Hd Hl ltac:(lia) Hn) as (chunk' & Eslice & Hd' & Hl' & Hins).
  assert (append_groups null_value uninitialised (RowGroup_Append null_value uninitialised) fuel rc (length groups)
      (mkAppendState (append_at <$> rg_columns rg) (rg_count rg + k)) chunk n n new =
    if (0 <? n - a)%nat then
      rc2 ← AppendRowGroup rc1 (rg_start rg + (rg_count rg1 + (k + a)));
      '(rc3, group, append) ← start_last_group null_value uninitialised rc2;
      match fuel with
      | O => Throw OutOfFuel
      | S fuel => append_groups null_value uninitialised (RowGroup_Append null_value uninitialised) fuel rc3 group append chunk' (n - a) (n - a) true
      end
    else Ok (rc1, length groups, mkAppendState (append_at <$> rg_columns rg1) (rg_count rg1 + (k + a)), new)) as ->.
  { destruct fuel; cbn [append_groups]; rewrite E, (tree_at _ _ rg) by (by rewrite lookup_app_r, Nat.sub_diag by done); cbn [mbind result_bind offset_in_row_group];
      rewrite (proj2 (Nat.ltb_ge ROW_GROUP_SIZE _)) by lia; fold a; rewrite Ef; cbn [mbind result_bind offset_in_row_group]; rewrite Eslice; done. }
  destruct (Nat.ltb_spec 0 (n - a)) as [Hmore|Hdone].
  - destruct (new_last_ok rc1 (groups ++ [rg1]) (rg_start rg + (rg_count rg1 + (k + a)))) as (rc2 & rg2 & -> & El & Es2 & Ec2 & Hp2 & Hr2 & Hrows2);
      [unfold loads; by rewrite (rt_tree _ _ _ _ Hre) | by rewrite (rt_types _ _ _ _ Hre)|]. cbn [mbind result_bind]. rewrite El. cbn [mbind result_bind].
    assert (rg_count rg1 + (k + a) = ROW_GROUP_SIZE)%nat as Hfull1 by lia. destruct fuel as [|fuel]; [lia|].
    destruct (IH fuel ltac:(lia) (with_tree rc1 (tree_of ((groups ++ [rg1]) ++ [rg2]))) (groups ++ [rg1]) rg2 O chunk' (n - a)%nat true) as (rc' & mid & last & new' & -> & Hre' & Hch & Hlen & Hrows); try done.
    + destruct (decide (group_full (rg, k))) as [H|H]; [specialize (Hfull H); lia | unfold group_full in H; cbn [fst snd] in H; lia].
    + intros H. unfold group_full in H. cbn [fst snd] in H. pose proof group_size_pos. lia.
    + cbn [with_tree rc_types]. by rewrite (rt_types _ _ _ _ Hre).
    + cbn [with_tree rc_stats]. by apply (rt_typed _ _ _ _ Hre).
    + apply Hr2. lia.
    + lia.
    + exists rc', ((rg1, k + a)%nat :: mid), last, new'. split_and!.
      * cbn [fmap list_fmap]. by rewrite <- app_assoc.
      * rewrite Hins. cbn [app fmap list_fmap fst]. rewrite <- (app_assoc groups [rg1] (mid ++ [last]).*1) in Hre'. eapply (regrouped_trans rc rc1); [exact Hre|]. destruct Hre' as [R1 R2 R3 R4 R5 R6]. split; [exact R1 | exact R2 | exact R3 | exact R4 | exact R5 | exact R6].
      * replace (k + n)%nat with (k + a + (n - a))%nat by lia. rewrite <- Ec1. apply chain_cons; [done | done | done|].
        replace (rg_start rg + ROW_GROUP_SIZE)%nat with (rg_start rg2) by lia. by rewrite Ec2 in Hch.
      * cbn. lia.
      * intros id. cbn [app fmap list_fmap concat]. rewrite Hrows1, Hrows, Hrows2, Hins. by rewrite <- app_assoc.
  - assert (a = n) as Ean by lia. rewrite Ean in *. exists rc1, [], (rg1, k + n)%nat, new. cbn [app fmap list_fmap fst snd concat]. rewrite !app_nil_r.
    split_and!; [done | done | rewrite <- Es1, <- Ec1; by apply chain_one | cbn; lia | intros id; by rewrite app_nil_r].
Qed.

(** * The versions of the appended rows *)

Lemma same_count_versions rg t : group_full (rg, O) →
  ∃ m, RowGroup_AppendVersionInfo rg t 0 = Ok (set_versions rg (rg_count rg) m) ∧ vector_info m = vector_info (GetOrCreateVersionInfo rg).
Proof.
  intros Hf. unfold group_full in Hf. cbn [fst snd] in Hf. rewrite Nat.add_0_r in Hf. unfold RowGroup_AppendVersionInfo. rewrite Nat.add_0_r.
  pose proof vector_size_pos. pose proof group_size_pos. rewrite (proj2 (Nat.ltb_ge _ _)) by lia.
  assert (touched_vectors (rg_count rg) (rg_count rg) = []) as Et.
  { unfold touched_vectors. rewrite Hf, group_size_vectors in *. rewrite Nat.div_mul by lia.
    pose proof group_vectors_pos as Hv. set (v := ROW_GROUP_VECTOR_COUNT) in *. assert (v * SVS - 1 = SVS * (v - 1) + (SVS - 1))%nat as Ev by (destruct v; [lia|]; cbn; lia).
    rewrite <- (Nat.div_unique _ _ _ _ (ltac:(lia) : SVS - 1 < SVS)%nat Ev). replace (S (v - 1) - v)%nat with O by lia. done. }
  unfold AppendVersionInfo. rewrite Et, (proj2 (Nat.eqb_neq _ _)) by lia. cbn [foldM mbind result_bind]. eexists. split; [reflexivity|]. reflexivity.
Qed.

(** The versions [m] of a row group with [k] more rows, for the transaction and
    for its commit. *)
Lemma versioned_group rg k m tid :
  group_pending (rg, k) → manager_wf (rg_count rg + k) m → appendable (rg_count rg + k) m →
  rows_inserted (GetOrCreateVersionInfo rg) m (rg_count rg) (rg_count rg + k) tid →
  let rg' := set_versions rg (rg_count rg + k) m in group_pending (rg', O) ∧ group_row rg' <$> seq 0 (rg_count rg') = pending_rows tid (rg, k).
Proof.
  intros [Hc Hn _ Hcl Ht Hpl] Hw Ha Hrows rg'. cbn [fst snd] in *. split.
  - split; cbn [rg' fst snd set_versions rg_start rg_count rg_columns GetOrCreateVersionInfo version_info]; rewrite ?Nat.add_0_r; try done.
    intros row Hrow. rewrite (proj2 (Hrows row ltac:(lia))). apply Hcl. lia.
  - unfold pending_rows. cbn [rg' fst snd set_versions rg_count]. apply list_fmap_ext. intros i r Hr%lookup_seq. unfold group_row, pending_row, row_cells.
    cbn [rg' GetOrCreateVersionInfo set_versions version_info rg_columns]. destruct (Hrows r ltac:(lia)) as [-> ->]. f_equal. f_equal.
    destruct (decide (r < rg_count rg)%nat); [by rewrite decide_False by lia | by rewrite decide_True by lia].
Qed.

(** The row group [rg'] after [FinalizeAppend]; when the transaction has no
    other row in its last vector, it can be committed, and reverted. *)
Record finalized (t : TransactionData) (p : RowGroup * nat) (rg' : RowGroup) : Prop := {
  fi_start : rg_start rg' = rg_start p.1;
  fi_count : rg_count rg' = (rg_count p.1 + p.2)%nat;
  fi_ready : group_pending (rg', O);
  fi_rows : group_row rg' <$> seq 0 (rg_count rg') = pending_rows (transaction_id t) p;
  fi_commit : (0 < p.2)%nat → no_own_rows p.1 t → ∀ cid, ∃ rg2, RowGroup_CommitAppend rg' cid (rg_count p.1) p.2 = Ok rg2 ∧
    rg_start rg2 = rg_start p.1 ∧ rg_count rg2 = rg_count rg' ∧ group_pending (rg2, O) ∧ group_row rg2 <$> seq 0 (rg_count rg2) = pending_rows cid p;
  fi_revert : (0 < p.2)%nat → no_own_rows p.1 t → ∀ c, vector_info (GetOrCreateVersionInfo rg') !! (rg_count p.1 / SVS)%nat = Some (Some (CONSTANT_INFO c)) → (rg_count p.1 mod SVS = 0)%nat;
}.

Lemma finalized_same t rg : group_pending (rg, O) → finalized t (rg, O) rg.
Proof.
  intros Hp. split; cbn [fst snd]; [done | lia | done | | lia | lia]. unfold pending_rows. cbn [fst snd]. rewrite Nat.add_0_r. apply list_fmap_ext. intros i r Hr%lookup_seq.
  unfold pending_row, group_row. rewrite decide_True by lia. done.
Qed.

Lemma finalize_group_ok t rg k : group_pending (rg, k) → (0 < k)%nat ∨ group_full (rg, k) → ∃ rg', RowGroup_AppendVersionInfo rg t k = Ok rg' ∧ finalized t (rg, k) rg'.
Proof.
  intros Hp Hk. pose proof Hp as [Hc Hn [Hw Ha] Hcl Ht _]. cbn [fst snd] in *. destruct (decide (k = O)) as [->|Hne].
  - destruct Hk as [Hk|Hf]; [lia|]. destruct (same_count_versions rg t Hf) as (m & E & Ev). exists (set_versions rg (rg_count rg + 0) m).
    destruct (versioned_group rg O m (transaction_id t) Hp) as [Hp' Hrows].
    + rewrite Nat.add_0_r. destruct Hw as [W1 W2]. split; rewrite Ev; done.
    + rewrite Nat.add_0_r. unfold appendable. rewrite Ev. exact Ha.
    + unfold rows_inserted, row_inserted, row_deleted, row_info. rewrite Ev. intros row _. by rewrite decide_False by lia.
    + split; [by rewrite Nat.add_0_r|]. split; cbn [fst snd]; try done; try lia.
  - destruct (versions_append_ok null_value uninitialised rg t k Hc Hw Ha ltac:(lia) Hn) as (m & E & [_ _ Hv] & Hrows & Hown).
    destruct (Hv m eq_refl) as [Hw' Ha']. destruct (versioned_group rg k m _ Hp Hw' Ha' Hrows) as [Hp' Hr'].
    eexists. split; [exact E|]. split; cbn [fst snd]; try done.
    + intros _ Ho cid. destruct (Hown Ho) as [_ Hc']. destruct (Hc' cid) as (m' & E' & [_ _ Hv'] & Hrows'). destruct (Hv' m' eq_refl) as [Hw2 Ha2].
      destruct (versioned_group rg k m' cid Hp Hw2 Ha2 Hrows') as [Hp2 Hr2]. eexists. split; [exact E'|]. by split_and!.
    + intros _ Ho c. apply (proj1 (Hown Ho)).
Qed.

Lemma middle_at (pre post : list RowGroup) rg : (pre ++ rg :: post) !! length pre = Some rg.
Proof. by rewrite lookup_app_r, Nat.sub_diag by done. Qed.

Lemma tree_put_middle pre post rg rg' : rg_start rg' = rg_start rg → put_row_group (tree_of (pre ++ rg :: post)) (length pre) rg' = Ok (tree_of (pre ++ rg' :: post)).
Proof. intros E. rewrite (tree_put _ _ rg) by (done || apply middle_at). by rewrite insert_app_r_alt, Nat.sub_diag by done. Qed.

Lemma tree_next_middle pre post rg : GetNextSegment true (tree_of (pre ++ rg :: post)) (length pre) =
  Ok (tree_of (pre ++ rg :: post), if bool_decide (post = []) then None else Some (length pre + 1)%nat).
Proof.
  rewrite tree_next, length_app. cbn [length]. case_bool_decide as Hpost.
  - subst post. by rewrite (proj2 (Nat.ltb_ge _ _)) by (cbn; lia).
  - destruct post; [done|]. by rewrite (proj2 (Nat.ltb_lt _ _)) by (cbn; lia).
Qed.

(** The step of [FinalizeAppend] at a row group that has rows to come, or is
    full. *)
Lemma finalize_step t fuel pre rg k post n :
  group_pending (rg, k) → (0 < n)%nat → (k ≤ n)%nat → group_full (rg, k) ∨ k = n →
  ∃ rg', finalized t (rg, k) rg' ∧ finalize_groups (S fuel) (tree_of (pre ++ rg :: post)) t (Some (length pre)) n =
      finalize_groups fuel (tree_of (pre ++ rg' :: post)) t (if bool_decide (post = []) then None else Some (length pre + 1)%nat) (n - k).
Proof.
  intros Hp Hn Hk Hor. destruct (finalize_group_ok t rg k Hp) as (rg' & E & Hf); [destruct Hor; [by right | left; lia]|].
  exists rg'. split; [done|]. cbn [finalize_groups]. rewrite (proj2 (Nat.ltb_lt _ _)) by done. rewrite (tree_at _ _ rg) by apply middle_at. cbn [mbind result_bind].
  pose proof (gp_count _ Hp) as Hcount. cbn [fst snd] in Hcount. rewrite <- group_size_vectors in Hcount. rewrite (proj2 (Nat.ltb_ge _ _)) by lia.
  replace (Nat.min n (ROW_GROUP_SIZE - rg_count rg)) with k by (unfold group_full in Hor; cbn [fst snd] in Hor; lia). rewrite E. cbn [mbind result_bind].
  rewrite tree_put_middle by (apply Hf). cbn [mbind result_bind]. by rewrite tree_next_middle.
Qed.

Lemma all_finalized t (ps : list (RowGroup * nat)) : sum_list_with snd ps = O → Forall group_pending ps → Forall2 (finalized t) ps ps.*1.
Proof.
  intros Hz HF. induction HF as [|[rg k] ps Hp _ IH]; [constructor|]. cbn [sum_list_with snd] in Hz. assert (k = O) as -> by lia.
  constructor; [by apply finalized_same | apply IH; cbn in Hz; lia].
Qed.

Lemma finalize_ok t : ∀ mid n last pre fuel, Forall group_pending (mid ++ [last]) → Forall group_full mid → sum_list_with snd (mid ++ [last]) = n → (length mid < fuel)%nat →
  ∃ groups, finalize_groups fuel (tree_of (pre ++ (mid ++ [last]).*1)) t (Some (length pre)) n = Ok (tree_of (pre ++ groups)) ∧ Forall2 (finalized t) (mid ++ [last]) groups.
Proof.
  intros mid. induction mid as [|[rg k] mid IH]; intros n last pre fuel H1 H2 H4 Hfuel; (destruct fuel as [|fuel]; [lia|]).
  all: destruct (decide (n = O)) as [->|Hn]; [eexists; split; [cbn [finalize_groups Nat.ltb Nat.leb]; reflexivity | by apply all_finalized]|].
  - destruct last as [rg k]. cbn [app] in *. apply Forall_cons in H1 as [Hp _]. cbn in H4.
    destruct (finalize_step t fuel pre rg k [] n Hp) as (rg' & Hf & E); [lia | lia | right; lia|].
    exists [rg']. cbn [fmap list_fmap fst]. rewrite E. replace (n - k)%nat with O by lia. split; [by destruct fuel | constructor; [exact Hf | constructor]].
  - cbn [app] in *. apply Forall_cons in H1 as [Hp H1], H2 as [Hfull H2]. cbn [sum_list_with snd] in H4.
    destruct (finalize_step t fuel pre rg k (mid ++ [last]).*1 n Hp) as (rg' & Hf & E); [lia | lia | by left|].
    cbn [fmap list_fmap fst]. rewrite E. rewrite bool_decide_false by (rewrite fmap_app; by destruct mid). rewrite cons_middle, app_assoc.
    replace (length pre + 1)%nat with (length (pre ++ [rg'])) by (by rewrite length_app).
    destruct (IH (n - k)%nat last (pre ++ [rg']) fuel) as (groups & E' & HF); [done | done | lia | cbn in Hfuel; lia|].
    exists (rg' :: groups). split; [rewrite E'; by rewrite <- app_assoc | constructor; [exact Hf | exact HF]].
Qed.

(** What the row groups are like after [FinalizeAppend]. *)
Lemma finalized_table t ps groups : Forall2 (finalized t) ps groups →
  length groups = length ps ∧ Forall (λ rg, group_pending (rg, O)) groups ∧ (∀ start, contiguous start ps → contiguous start groups) ∧
  table_rows groups = concat (pending_rows (transaction_id t) <$> ps).
Proof.
  intros HF. unfold table_rows. induction HF as [|[rg k] rg' ps groups [H1 H2 H3 H4 _ _] _ (I1 & I2 & I3 & I4)]; [by split_and!|]. cbn [fst snd] in *. split_and!.
  - cbn. lia.
  - by constructor.
  - intros start [Hs Hc]. split; [cbn in *; congruence|]. cbn [base_count pending_base rowgroup_base fst snd] in *. rewrite H2. by apply I3.
  - cbn [fmap list_fmap concat]. by rewrite H4, I4.
Qed.

(** * Tables *)

Lemma load_all_finished fuel (t t' : SegmentTree RowGroup) : load_while true (λ _, true) fuel t = Ok t' → finished_loading t' = true.
Proof.
  revert t. induction fuel as [|fuel IH]; intros t; cbn [load_while]; [done|]. unfold LoadNextSegment, LoadSegment. cbn [negb orb].
  destruct (finished_loading t) eqn:Ef; [by intros [= <-]|]. destruct (unloaded t) as [|s rest]; [by intros [= <-]|]. apply IH.
Qed.

Lemma load_all start (t : SegmentTree RowGroup) : tree_ok true start t → LoadAllSegments true t = Ok (tree_of (tree_segments t)).
Proof.
  intros Ht. destruct (LoadAllSegments_ok true start t Ht) as (t' & E & Ht' & Hs & Hu). rewrite E. f_equal. unfold LoadAllSegments, load_segments in E. cbn [negb] in E.
  apply load_all_finished in E. destruct t' as [nodes f u]. cbn [tree_nodes unloaded finished_loading] in *. subst f u. unfold tree_of. f_equal. rewrite <- Hs.
  destruct Ht' as [Hn _ _ _]. cbn [tree_nodes] in Hn. clear Hs. induction Hn as [|[st rg] nodes Hst _ IH]; [done|]. cbn [fmap list_fmap node row_start base_start rowgroup_base] in *. by rewrite <- Hst, <- IH.
Qed.

Lemma tree_of_ok start groups : contiguous start groups → Z.of_nat (length groups) < 2 ^ 63 → tree_ok true start (tree_of groups) ∧ tree_segments (tree_of groups) = groups.
Proof.
  intros Hc Hl. assert (tree_segments (tree_of groups) = groups) as Es.
  { unfold tree_segments, tree_of. cbn [tree_nodes unloaded]. rewrite app_nil_r, <- list_fmap_compose. clear Hc Hl. induction groups as [|rg l IH]; [done|]. cbn. f_equal. apply IH. }
  split; [|done]. split; rewrite ?Es; try done. unfold tree_of. cbn [tree_nodes]. apply Forall_fmap, Forall_forall. done.
Qed.

Definition group_ready (rg : RowGroup) : Prop := group_pending (rg, O).

(** The invariant of a table: the row groups are in order and hold the rows,
    the statistics cover them. *)
Record table_ok (rc : RowGroupCollection) : Prop := {
  tb_tree : tree_ok true (rc_row_start rc) (row_groups rc);
  tb_groups : Forall group_ready (tree_segments (row_groups rc));
  tb_total : total_rows rc = rows_of (tree_segments (row_groups rc));
  tb_types : rc_types rc = types;
  tb_typed : stats_typed (rc_stats rc);
  tb_covered : stats_cover (rc_stats rc) (table_rows (tree_segments (row_groups rc)));
}.

(** There is room for the segments of [n] more rows. *)
Definition table_room (rc : RowGroupCollection) (n : nat) : Prop :=
  Forall (λ rg, rooms (S n) (rg_columns rg)) (tree_segments (row_groups rc)) ∧ Z.of_nat (length (tree_segments (row_groups rc))) + Z.of_nat n + 3 < 2 ^ 63.

(** The table has the row groups [pre ++ [rg]], and an append starts at [rg]. *)
Lemma Collection_InitializeAppend_ok rc t n : table_ok rc → table_room rc n →
  let groups := tree_segments (row_groups rc) in
  ∃ rc' pre rg, Collection_InitializeAppend null_value uninitialised rc t =
      Ok (rc', mkTableAppend (mkAppendState (append_at <$> rg_columns rg) (rg_count rg + 0)) (length pre) (total_rows rc) (total_rows rc) 0 (Some (length pre)) t) ∧
    regrouped rc rc' (pre ++ [rg]) [] ∧ Forall group_ready (pre ++ [rg]) ∧ contiguous (rc_row_start rc) (pre ++ [rg]) ∧ rooms n (rg_columns rg) ∧
    (∀ tid, table_rows pre ++ pending_rows tid (rg, O) = table_rows groups) ∧ rows_of (pre ++ [rg]) = rows_of groups ∧ (length (pre ++ [rg]) ≤ S (length groups))%nat.
Proof.
  intros [Ht Hg Htot Hty Hst _] [Hroom Hz] groups. unfold Collection_InitializeAppend, IsEmpty.
  destruct (GetRootSegment_ok true (rc_row_start rc) (row_groups rc) Ht) as (tree & root & -> & Ht' & Hs & Hroot).
  pose proof (load_all _ _ Ht') as El. rewrite Hs in El. fold groups in El, Hroom, Hz, Hg.
  destruct root as [i|].
  - rewrite bool_decide_false by done. cbn [mbind result_bind]. destruct Hroot as [_ Hne].
    destruct groups as [|g0 l0 _] eqn:Eg using rev_ind; [exfalso; assert (tree_segments tree = []) as Hnil by (rewrite Hs; exact Eg); unfold tree_segments in Hnil; destruct (tree_nodes tree); cbn in *; [lia | done]|].
    apply Forall_app in Hg as [Hg0 Hg1], Hroom as [Hr0 Hr1]. apply (proj1 (Forall_singleton _ _)) in Hg1. apply (proj1 (Forall_singleton _ _)) in Hr1.
    destruct (start_last_ok (with_tree rc tree) l0 g0) as (rg & E & Es & Ec & Hp & Hro & Hpr); [exact El | exact (pending_startable g0 Hg1) | by eapply room_le; [exact Hr1 | lia]|].
    rewrite E. cbn [mbind result_bind]. eexists _, l0, rg. split; [reflexivity|]. split; [apply regrouped_tree|].
    assert (contiguous (rc_row_start rc) (l0 ++ [g0])) as Hc by (rewrite <- Eg; apply Ht).
    split_and!.
    + apply Forall_app. split; [done|]. by apply Forall_singleton.
    + apply contiguous_app in Hc as [Hc1 Hc2]. apply contiguous_app. split; [done|]. cbn in Hc2 |- *. rewrite Es. apply Hc2.
    + by apply Hro.
    + intros tid. rewrite Hpr, pending_none. unfold table_rows. rewrite !fmap_app, !concat_app. cbn [fmap list_fmap concat]. by rewrite app_nil_r.
    + unfold rows_of. rewrite !sum_list_with_app. cbn. by rewrite Ec.
    + rewrite !length_app. cbn. lia.
  - rewrite bool_decide_true by done. assert (groups = []) as -> by done.
    destruct (new_last_ok (with_tree rc tree) [] (rc_row_start rc)) as (rc1 & rg & Ea & E & Es & Ec & Hp & Hro & Hpr); [exact El | exact Hty|].
    cbn [with_tree rc_row_start]. rewrite Ea. cbn [mbind result_bind]. rewrite E. cbn [mbind result_bind]. eexists _, [], rg. split; [reflexivity|]. split; [apply regrouped_tree|].
    cbn [app]. split_and!.
    + by apply Forall_singleton.
    + by split.
    + apply Hro. cbn in Hz. lia.
    + intros tid. by rewrite Hpr.
    + unfold rows_of. cbn. by rewrite Ec.
    + cbn. lia.
Qed.

Lemma table_rows_app l1 l2 : table_rows (l1 ++ l2) = table_rows l1 ++ table_rows l2.
Proof. unfold table_rows. by rewrite fmap_app, concat_app. Qed.

Lemma table_rows_cons rg l : table_rows (rg :: l) = (group_row rg <$> seq 0 (rg_count rg)) ++ table_rows l.
Proof. reflexivity. Qed.

Lemma table_rows_length groups : length (table_rows groups) = rows_of groups.
Proof.
  unfold table_rows, rows_of. induction groups as [|rg l IH]; [done|]. cbn [fmap list_fmap concat sum_list_with]. by rewrite length_app, length_fmap, length_seq, IH.
Qed.

(** One append: [InitializeAppend], [Append] of a chunk of [n] rows, and
    [FinalizeAppend]. *)
Definition append_to_table (rc : RowGroupCollection) (t : TransactionData) (chunk : list (UnifiedVectorFormat Z)) (n : nat) : result RowGroupCollection :=
  '(rc, st) ← Collection_InitializeAppend null_value uninitialised rc t;
  '(rc, st, _) ← Collection_Append null_value uninitialised rc st chunk n;
  '(rc, _) ← FinalizeAppend rc t st;
  Ok rc.

(** The parts of the table [rc'] after an append of [n] rows to [rc]: the row
    groups [pre] are as before, then come those of the append. *)
Record appended_table (rc : RowGroupCollection) (t : TransactionData) (chunk : list (UnifiedVectorFormat Z)) (n : nat) (rc' : RowGroupCollection)
    (pre : list RowGroup) (c : nat) (mid : list (RowGroup * nat)) (last : RowGroup * nat) (groups : list RowGroup) : Prop := {
  at_tree : row_groups rc' = tree_of (pre ++ groups);
  at_total : total_rows rc' = (total_rows rc + n)%nat;
  at_start : rc_row_start rc' = rc_row_start rc;
  at_types : rc_types rc' = types;
  at_typed : stats_typed (rc_stats rc');
  at_covered : ∀ tid, stats_cover (rc_stats rc') (table_rows (tree_segments (row_groups rc)) ++ inserted_rows tid chunk n);
  at_pre : Forall group_ready pre;
  at_contiguous : contiguous (rc_row_start rc) pre;
  at_count : (rows_of pre + c = total_rows rc)%nat;
  at_chain : chain (rc_row_start rc + rows_of pre) c n mid last;
  at_groups : Forall2 (finalized t) (mid ++ [last]) groups;
  at_rows : ∀ tid, table_rows pre ++ concat (pending_rows tid <$> (mid ++ [last])) = table_rows (tree_segments (row_groups rc)) ++ inserted_rows tid chunk n;
  at_length : Z.of_nat (length pre + length mid + 1) < 2 ^ 63;
}.

Lemma stats_cover_inserted stats tid tid' chunk n : stats_cover stats (inserted_rows tid chunk n) → stats_cover stats (inserted_rows tid' chunk n).
Proof. unfold stats_cover, inserted_rows. rewrite !Forall_fmap. done. Qed.

Lemma append_parts rc t chunk n :
  table_ok rc → table_room rc n → length chunk = length types → Forall (vector_ok n) chunk → Z.of_nat n ≤ 2 ^ 32 →
  ∃ rc' pre c mid last groups, append_to_table rc t chunk n = Ok rc' ∧ appended_table rc t chunk n rc' pre c mid last groups.
Proof.
  intros Hok Hroom Hl Hd Hn. set (tid := transaction_id t). unfold append_to_table.
  destruct (Collection_InitializeAppend_ok rc t n Hok Hroom) as (rc1 & pre & rg & -> & Hre1 & Hg1 & Hc1 & Hr1 & Hrows1 & Hcount1 & Hlen1). cbn [mbind result_bind].
  unfold Collection_Append, append_with. cbn [ta_row_group row_group_append_state].
  apply Forall_app in Hg1 as [Hpre Hrg]. apply (proj1 (Forall_singleton _ _)) in Hrg. destruct Hok as [_ _ Htot Hty Hst Hcov].
  destruct (append_groups_ok tid (S n) rc1 pre rg O chunk n false) as (rc2 & mid & last & new & -> & Hre2 & Hch & Hmid & Hrows2); try done; try lia;
    [apply Hre1 | by rewrite (rt_types _ _ _ _ Hre1) | by apply (rt_typed _ _ _ _ Hre1)|].
  cbn [mbind result_bind]. unfold FinalizeAppend. cbn [ta_start_row_group ta_total_append_count Nat.add]. rewrite (rt_tree _ _ _ _ Hre2).
  assert (length mid < group_count (tree_of (pre ++ (mid ++ [last]).*1)))%nat as Hfuel by (unfold group_count, tree_of; cbn [tree_nodes unloaded]; rewrite length_fmap, length_app, length_fmap, length_app; cbn; lia).
  destruct (finalize_ok t mid n last pre _ (ch_pending _ _ _ _ _ Hch) (ch_full _ _ _ _ _ Hch) (ch_rows _ _ _ _ _ Hch) Hfuel) as (groups & -> & HF). cbn [mbind result_bind].
  eexists _, pre, (rg_count rg), mid, last, groups. split; [reflexivity|]. apply contiguous_app in Hc1 as [Hc1 Hc2]. destruct Hroom as [_ Hz]. rewrite length_app in Hlen1. cbn in Hlen1.
  unfold rows_of in Hcount1. rewrite sum_list_with_app in Hcount1. cbn in Hcount1.
  destruct Hre1 as [_ T1 S1 Y1 P1 C1], Hre2 as [_ T2 S2 Y2 P2 C2].
  split; cbn [row_groups total_rows rc_row_start rc_types rc_stats]; try done; try congruence.
  - auto.
  - intros id. destruct (C1 Hst) as [_ C1'], (C2 (P1 Hst)) as [C2' C2'']. apply Forall_app. split; [apply C2'', C1', Hcov | by eapply stats_cover_inserted].
  - rewrite Htot. unfold rows_of. cbn. lia.
  - destruct Hc2 as [Hc2 _]. cbn in Hc2. by rewrite <- Hc2.
  - intros id. rewrite Hrows2, app_assoc. f_equal. apply Hrows1.
  - lia.
Qed.

(** The table with the versions of [id] for the appended rows. *)
Lemma versioned_table rc t chunk n rc' pre c mid last groups id groups2 :
  table_ok rc → appended_table rc t chunk n rc' pre c mid last groups →
  length groups2 = S (length mid) → Forall (λ rg, group_pending (rg, O)) groups2 → contiguous (rc_row_start rc + rows_of pre) groups2 →
  table_rows groups2 = concat (pending_rows id <$> (mid ++ [last])) →
  let rc2 := with_tree rc' (tree_of (pre ++ groups2)) in
  table_ok rc2 ∧ table_rows (tree_segments (row_groups rc2)) = table_rows (tree_segments (row_groups rc)) ++ inserted_rows id chunk n.
Proof.
  intros Hok [_ Htot Hst Hty Hps Hcov Hpre Hcp _ _ _ Hrs Hlength] Hlen Hg Hcg Hrows rc2. assert (contiguous (rc_row_start rc) (pre ++ groups2)) as Hc by (by apply contiguous_app).
  destruct (tree_of_ok _ _ Hc) as [Htree Hsegs]; [rewrite length_app; lia|].
  assert (table_rows (pre ++ groups2) = table_rows (tree_segments (row_groups rc)) ++ inserted_rows id chunk n) as Hall by (by rewrite table_rows_app, Hrows).
  split; [|by cbn [rc2 with_tree row_groups]; rewrite Hsegs].
  split; cbn [rc2 with_tree row_groups total_rows rc_row_start rc_types rc_stats]; rewrite ?Hsegs; try done.
  - by rewrite Hst.
  - apply Forall_app. split; [done | exact Hg].
  - rewrite <- table_rows_length, Hall, length_app, table_rows_length, <- (tb_total _ Hok), Htot. unfold inserted_rows. by rewrite length_fmap, length_seq.
  - rewrite Hall. apply Hcov.
Qed.

(** The append adds the rows of the chunk, for the transaction. *)
Lemma append_to_table_ok rc t chunk n :
  table_ok rc → table_room rc n → length chunk = length types → Forall (vector_ok n) chunk → Z.of_nat n ≤ 2 ^ 32 →
  ∃ rc', append_to_table rc t chunk n = Ok rc' ∧ table_ok rc' ∧ (total_rows rc' = total_rows rc + n)%nat ∧ rc_row_start rc' = rc_row_start rc ∧
    table_rows (tree_segments (row_groups rc')) = table_rows (tree_segments (row_groups rc)) ++ inserted_rows (transaction_id t) chunk n.
Proof.
  intros Hok Hroom Hl Hd Hn. destruct (append_parts rc t chunk n Hok Hroom Hl Hd Hn) as (rc' & pre & c & mid & last & groups & E & Hap). exists rc'. split; [exact E|].
  destruct (finalized_table t _ _ (at_groups _ _ _ _ _ _ _ _ _ _ Hap)) as (Hlg & Hgr & Hcg & Hrows). rewrite length_app in Hlg. cbn in Hlg.
  destruct (versioned_table rc t chunk n rc' pre c mid last groups (transaction_id t) groups Hok Hap) as [H1 H2]; [lia | done | apply Hcg, (at_chain _ _ _ _ _ _ _ _ _ _ Hap) | done|].
  assert (with_tree rc' (tree_of (pre ++ groups)) = rc') as Eq by (rewrite <- (at_tree _ _ _ _ _ _ _ _ _ _ Hap); by destruct rc').
  rewrite Eq in *. destruct Hap. by split_and!.
Qed.
End TableFacts.

Arguments pending_open {null_value uninitialised types plain}.
Arguments finalized_table {null_value uninitialised types plain}.
Arguments gp_clean {null_value uninitialised types plain}.
Arguments gp_types {null_value uninitialised types plain}.
Arguments gp_plain {null_value uninitialised types plain}.
Arguments ch_pending {null_value uninitialised types plain}.
Arguments ch_starts {null_value uninitialised types plain}.
Arguments ch_rows {null_value uninitialised types plain}.
Arguments fi_start {null_value uninitialised types plain}.
Arguments fi_count {null_value uninitialised types plain}.
Arguments fi_revert {null_value uninitialised types plain}.
Arguments tb_total {null_value uninitialised types plain}.
