(* ===== verification/TableSpec.v ===== *)
(** A table is a list of rows, each with the transactions that inserted and
    deleted it: appends add rows, a commit or a revert of the append settles
    them, and a scan returns the rows the transaction sees. *)
From S2P Require Import Prelude Bits SelectionVector Types Stats NumericStats NumericFacts BaseStatistics StatsFacts StatsCreate ColumnSketch ValidityMask MaskFacts ChunkInfo ChunkFacts RowVersionManager VersionFacts VersionAppend.
From S2P Require Import TableFilter FilterFacts FilterPruning UpdateSegment UpdateFacts UpdateLaws UncompressedSegment UncompressedAppend SegmentLaws SegmentTree.
From S2P Require Import ColumnData ColumnFacts ColumnAppend StandardColumn StandardFacts AdaptiveFilter RowGroup RowGroupFacts RowGroupScan RowGroupLoop RowGroupCollection CollectionFacts RowGroupAppend TableAppend TableAppendFacts.

#[local] Opaque ROW_GROUP_VECTOR_COUNT.

Section Tables.
Context (null_value : PhysicalType → Z) (uninitialised : Z) (types : list LogicalType) (plain : bool).
Abbreviation group_pending := (group_pending null_value uninitialised types plain).
Abbreviation group_ready := (group_ready null_value uninitialised types plain).
Abbreviation chain := (chain null_value uninitialised types plain).
Abbreviation finalized := (finalized null_value uninitialised types plain).
Abbreviation table_ok := (table_ok null_value uninitialised types plain).
Abbreviation appended_table := (appended_table null_value uninitialised types plain).

(** * Commit *)

(** The row group [rg2] after the commit. *)
Record committed (cid : Z) (p : RowGroup * nat) (rg2 : RowGroup) : Prop := {
  cm_start : rg_start rg2 = rg_start p.1;
  cm_count : rg_count rg2 = (rg_count p.1 + p.2)%nat;
  cm_ready : group_pending (rg2, O);
  cm_rows : group_row rg2 <$> seq 0 (rg_count rg2) = pending_rows cid p;
}.

Lemma unchanged_committed t cid rg rg' : finalized t (rg, O) rg' → committed cid (rg, O) rg'.
Proof. intros [H1 H2 H3 H4 _ _]. split; [done | done | done|]. rewrite H4, !pending_none. done. Qed.

Lemma all_committed t cid (ps : list (RowGroup * nat)) groups : sum_list_with snd ps = O → Forall2 (finalized t) ps groups → Forall2 (committed cid) ps groups.
Proof.
  intros Hz HF. induction HF as [|[rg k] rg' ps groups Hf _ IH]; [constructor|]. cbn [sum_list_with snd] in Hz. assert (k = O) as -> by lia.
  constructor; [by eapply unchanged_committed | apply IH; cbn in Hz; lia].
Qed.

Lemma chain_head start c n rg k mid last : chain start c n ((rg, k) :: mid) last →
  group_pending (rg, k) ∧ rg_start rg = start ∧ rg_count rg = c ∧ (c + k = ROW_GROUP_SIZE)%nat ∧ (k ≤ n)%nat ∧ chain (start + ROW_GROUP_SIZE) 0 (n - k) mid last.
Proof.
  intros [H1 H2 H3 H4 H5]. cbn [app] in *. apply Forall_cons in H1 as [Hp H1], H2 as [Hf H2]. destruct H3 as [Hs H3]. cbn [sum_list_with snd] in H4.
  cbn [fmap list_fmap fst length replicate] in H5. injection H5 as Hc H5. unfold group_full in Hf. cbn [fst snd] in Hf.
  split_and!; [done | exact Hs | done | lia | lia|]. split; [done | done | | lia | done].
  cbn [base_count pending_base fst snd] in H3. by rewrite Hf in H3.
Qed.

Lemma chain_last start c n rg k : chain start c n [] (rg, k) → group_pending (rg, k) ∧ rg_start rg = start ∧ rg_count rg = c ∧ k = n.
Proof.
  intros [H1 _ [H3 _] H4 H5]. cbn in *. apply Forall_cons in H1 as [Hp _]. injection H5 as Hc. split_and!; [done | done | done | lia].
Qed.

(** The first row group of a chain of new row groups gets rows. *)
Lemma chain_first start n mid last p : chain start 0 n mid last → (0 < n)%nat → head (mid ++ [last]) = Some p → (0 < p.2)%nat.
Proof.
  intros Hch Hn Hp. destruct mid as [|[rg k] mid]; cbn in Hp; injection Hp as <-.
  - destruct last as [rg k]. apply chain_last in Hch as (_ & _ & _ & ->). done.
  - apply chain_head in Hch as (_ & _ & _ & Hf & _ & _). pose proof group_size_pos. cbn. lia.
Qed.

Lemma commit_groups_ok t cid : ∀ mid last pre groups fuel start c n p,
  chain start c n mid last → Forall2 (finalized t) (mid ++ [last]) groups → Forall (λ p, no_own_rows p.1 t) (mid ++ [last]) →
  head (mid ++ [last]) = Some p → (0 < p.2)%nat → (length mid < fuel)%nat →
  ∃ groups2, commit_groups fuel (tree_of (pre ++ groups)) cid (Some (length pre)) (start + c) n = Ok (tree_of (pre ++ groups2)) ∧ Forall2 (committed cid) (mid ++ [last]) groups2.
Proof.
  intros mid. induction mid as [|[rg k] mid IH]; intros last pre groups fuel start c n p Hch HF Hown Hhead Hk Hfuel; (destruct fuel as [|fuel]; [lia|]); cbn [app head] in *.
  - destruct last as [rg k]. injection Hhead as <-. cbn [snd] in Hk. apply chain_last in Hch as (Hp & Hs & Hc & <-). apply Forall2_cons_inv_l in HF as (rg' & l & Hf & Hnil & ->).
    apply Forall2_nil_inv_l in Hnil as ->. apply Forall_cons in Hown as [Hown _]. pose proof Hf as [F1 F2 F3 F4 F5 _]. cbn [fst snd] in *.
    destruct (F5 Hk Hown cid) as (rg2 & E & S2 & C2 & P2 & R2). cbn [commit_groups]. rewrite (tree_at _ _ rg') by apply middle_at. cbn [mbind result_bind].
    replace (start + c - rg_start rg')%nat with (rg_count rg) by lia. replace (Nat.min (rg_count rg' - rg_count rg) k) with k by lia. rewrite E. cbn [mbind result_bind].
    rewrite tree_put_middle by congruence. cbn [mbind result_bind]. rewrite Nat.sub_diag. cbn [Nat.eqb]. exists [rg2]. split; [done|]. constructor; [|constructor]. split; cbn [fst snd]; [done | lia | done | done].
  - injection Hhead as <-. cbn [snd] in Hk. apply chain_head in Hch as (Hp & Hs & Hc & Hfull & Hkn & Hch). apply Forall2_cons_inv_l in HF as (rg' & l & Hf & HF & ->).
    apply Forall_cons in Hown as [Hown1 Hown]. pose proof Hf as [F1 F2 F3 F4 F5 _]. cbn [fst snd] in *.
    destruct (F5 Hk Hown1 cid) as (rg2 & E & S2 & C2 & P2 & R2). cbn [commit_groups]. rewrite (tree_at _ _ rg') by apply middle_at. cbn [mbind result_bind].
    replace (start + c - rg_start rg')%nat with (rg_count rg) by lia. replace (Nat.min (rg_count rg' - rg_count rg) n) with k by lia. rewrite E. cbn [mbind result_bind].
    rewrite tree_put_middle by congruence. cbn [mbind result_bind]. assert (committed cid (rg, k) rg2) as Hcm by (split; cbn [fst snd]; [done | lia | done | done]).
    destruct (Nat.eqb_spec (n - k) 0) as [Hz|Hnz].
    + exists (rg2 :: l). split; [done|]. constructor; [done|]. eapply all_committed; [|exact HF]. rewrite (ch_rows _ _ _ _ _ Hch). lia.
    + rewrite tree_next_middle. cbn [mbind result_bind].
      assert (l ≠ []) as Hl by (intros ->; apply Forall2_nil_inv_r in HF; by destruct mid). rewrite bool_decide_false by done.
      rewrite cons_middle, app_assoc. replace (length pre + 1)%nat with (length (pre ++ [rg2])) by (by rewrite length_app).
      replace (start + c + k)%nat with (start + ROW_GROUP_SIZE + 0)%nat by lia.
      destruct (head (mid ++ [last])) as [q|] eqn:Eq; [|by destruct mid].
      destruct (IH last (pre ++ [rg2]) l fuel (start + ROW_GROUP_SIZE)%nat O (n - k)%nat q Hch HF Hown Eq) as (groups2 & -> & HF2); [eapply chain_first; [exact Hch | lia | exact Eq] | cbn in Hfuel; lia|].
      exists (rg2 :: groups2). split; [by rewrite <- app_assoc | by constructor].
Qed.

Lemma committed_table cid ps groups : Forall2 (committed cid) ps groups →
  length groups = length ps ∧ Forall (λ rg, group_pending (rg, O)) groups ∧ (∀ start, contiguous start ps → contiguous start groups) ∧
  table_rows groups = concat (pending_rows cid <$> ps).
Proof.
  intros HF. unfold table_rows. induction HF as [|[rg k] rg' ps groups [H1 H2 H3 H4] _ (I1 & I2 & I3 & I4)]; [by split_and!|]. cbn [fst snd] in *. split_and!.
  - cbn. lia.
  - by constructor.
  - intros start [Hs Hc]. split; [cbn in *; congruence|]. cbn [base_count pending_base rowgroup_base fst snd] in *. rewrite H2. by apply I3.
  - cbn [fmap list_fmap concat]. by rewrite H4, I4.
Qed.

(** A lookup in a loaded tree. *)
Lemma tree_find start groups row : contiguous start groups → Z.of_nat (length groups) < 2 ^ 63 → (start ≤ row)%nat →
  ∃ found, TryGetSegmentIndex true (tree_of groups) row = Ok (tree_of groups, found) ∧
    match found with Some i => ∃ rg, groups !! i = Some rg ∧ holds_row row rg | None => (start + rows_of groups ≤ row)%nat end.
Proof.
  intros Hc Hl Hrow. destruct (tree_of_ok start groups Hc Hl) as [Ht Hs]. destruct (TryGetSegmentIndex_ok true start (tree_of groups) row Ht Hrow) as (t' & found & E & _ & _ & Hf).
  assert (t' = tree_of groups) as ->.
  { unfold TryGetSegmentIndex in E. assert (load_segments true (beyond_nodes row) (tree_of groups) = Ok (tree_of groups)) as El by (unfold load_segments; cbn; by destruct (beyond_nodes _ _)).
    rewrite El in E. cbn [mbind result_bind] in E. destruct (tree_nodes (tree_of groups)); [by injection E|]. by apply bind_Ok_inv in E as (x & _ & [= <- _]). }
  exists found. split; [done|]. rewrite Hs in Hf. destruct found as [i|]; [|done]. destruct Hf as (n & _ & Hn & Hr). by exists (node n).
Qed.

(** No row of the table was inserted by the transaction. *)
Definition no_rows_of (t : TransactionData) (rc : RowGroupCollection) : Prop :=
  Forall (λ row : stored_row, row.1.1 ≠ transaction_id t) (table_rows (tree_segments (row_groups rc))).

Lemma appended_no_own rc t chunk n rc' pre c mid last groups :
  appended_table rc t chunk n rc' pre c mid last groups → table_ok rc → no_rows_of t rc → Forall (λ p, no_own_rows p.1 t) (mid ++ [last]).
Proof.
  intros [A1 A2 A3 A4 A5 A6 A7 A8 A9 A10 A11 A12 A13] Hok Hno. destruct A10 as [_ _ _ _ Hcounts]. specialize (A12 (transaction_id t)).
  destruct (mid ++ [last]) as [|p ps] eqn:Eps; [by destruct mid|]. cbn [fmap list_fmap] in Hcounts. injection Hcounts as Hc Hz. constructor.
  - intros r Hr _. assert ((table_rows pre ++ concat (pending_rows (transaction_id t) <$> p :: ps)) !! (rows_of pre + r)%nat = Some (pending_row (transaction_id t) p.1 r)) as Hrow.
    { rewrite <- table_rows_length, lookup_app_r by lia. replace (length (table_rows pre) + r - length (table_rows pre))%nat with r by lia. cbn [fmap list_fmap concat].
      apply lookup_app_l_Some. unfold pending_rows. rewrite list_lookup_fmap, lookup_seq_lt by lia. done. }
    rewrite A12, lookup_app_l in Hrow by (rewrite table_rows_length, <- (tb_total _ Hok); lia). apply (proj1 (Forall_lookup _ _) Hno) in Hrow.
    cbn in Hrow. by rewrite decide_True in Hrow by done.
  - apply Forall_forall. intros q Hq r Hr. apply list_elem_of_lookup_1 in Hq as [i Hi].
    assert (((λ p : RowGroup * nat, rg_count p.1) <$> ps) !! i = Some (rg_count q.1)) as Hqi by (by rewrite list_lookup_fmap, Hi). rewrite Hz in Hqi. apply lookup_replicate in Hqi as [Hq0 _]. lia.
Qed.

(** The row group of the first appended row: the first one of the append, or
    the one after it when that was full. *)
Lemma find_appended rc t chunk n rc' pre c mid last groups :
  appended_table rc t chunk n rc' pre c mid last groups → table_ok rc → (0 < n)%nat →
  let row := (rc_row_start rc + total_rows rc)%nat in
  (∃ p rg' l, head (mid ++ [last]) = Some p ∧ (0 < p.2)%nat ∧ groups = rg' :: l ∧ TryGetSegmentIndex true (row_groups rc') row = Ok (row_groups rc', Some (length pre))) ∨
  (∃ rg mid' rg' rg2 l, mid = (rg, O) :: mid' ∧ groups = rg' :: rg2 :: l ∧ finalized t (rg, O) rg' ∧ (c = ROW_GROUP_SIZE)%nat ∧
    TryGetSegmentIndex true (row_groups rc') row = Ok (row_groups rc', Some (length pre + 1)%nat)).
Proof.
  intros [A1 A2 A3 A4 A5 A6 A7 A8 A9 A10 A11 A12 A13] Hok Hn row. rewrite A1.
  destruct (finalized_table t _ _ A11) as (Hlg & Hgr & Hcg & Hrows). rewrite length_app in Hlg. cbn in Hlg.
  assert (contiguous (rc_row_start rc) (pre ++ groups)) as Hc by (apply contiguous_app; split; [done | apply Hcg, A10]).
  destruct (tree_find (rc_row_start rc) (pre ++ groups) row Hc) as (found & E & Hf); [rewrite length_app; lia | unfold row; lia|]. rewrite E.
  assert (∀ i rg, (pre ++ groups) !! i = Some rg → holds_row row rg → found = Some i) as Hfound.
  { intros i rg Hi Hr. destruct found as [j|]; [|exfalso; pose proof (contiguous_end _ _ _ _ Hc Hi); destruct Hr; lia]. destruct Hf as (rg0 & Hj & Hr0).
    f_equal. exact (contiguous_unique _ _ _ _ _ _ _ Hc Hj Hi Hr0 Hr). }
  assert (row = rc_row_start rc + rows_of pre + c)%nat as Hrow by (unfold row; lia).
  destruct mid as [|[rg k] mid]; cbn [app] in *.
  - destruct last as [rg k]. apply chain_last in A10 as (_ & Hs & Hcount & ->). apply Forall2_cons_inv_l in A11 as (rg' & l & Hfin & _ & ->). left. exists (rg, n), rg', l.
    destruct Hfin as [F1 F2 _ _ _ _]. cbn [fst snd] in *. split_and!; [done | done | done|]. rewrite (Hfound (length pre) rg'); [done | apply middle_at|]. split; cbn; lia.
  - apply chain_head in A10 as (_ & Hs & Hcount & Hfull & Hk & Hch). apply Forall2_cons_inv_l in A11 as (rg' & l & Hfin & HF & ->). pose proof Hfin as [F1 F2 _ _ _ _]. cbn [fst snd] in *.
    destruct (decide (k = O)) as [->|Hk0].
    + right. destruct (mid ++ [last]) as [|q ps] eqn:Eps; [by destruct mid|]. apply Forall2_cons_inv_l in HF as (rg2 & l2 & Hfin2 & _ & ->). exists rg, mid, rg', rg2, l2. split_and!; try done; [lia|].
      assert (0 < q.2)%nat as Hq by (eapply chain_first; [exact Hch | lia | by rewrite Eps]). destruct Hfin2 as [G1 G2 _ _ _ _].
      pose proof (ch_starts _ _ _ _ _ Hch) as Hst. rewrite Eps in Hst. destruct Hst as [Hst _]. cbn in Hst.
      rewrite (Hfound (length pre + 1)%nat rg2); [done | |split; cbn; lia]. rewrite lookup_app_r by lia. by replace (length pre + 1 - length pre)%nat with 1%nat by lia.
    + left. exists (rg, k), rg', l. cbn [fst snd]. split_and!; [done | lia | done|]. rewrite (Hfound (length pre) rg'); [done | apply middle_at|]. split; cbn; lia.
Qed.

(** [CommitAppend] of the appended rows: they belong to the commit. *)
Lemma Collection_CommitAppend_ok rc t chunk n rc' pre c mid last groups cid :
  appended_table rc t chunk n rc' pre c mid last groups → table_ok rc → no_rows_of t rc → (0 < n)%nat →
  ∃ groups2, Collection_CommitAppend rc' cid (rc_row_start rc + total_rows rc) n = Ok (with_tree rc' (tree_of (pre ++ groups2))) ∧ Forall2 (committed cid) (mid ++ [last]) groups2.
Proof.
  intros Hap Hok Hno Hn. pose proof (appended_no_own _ _ _ _ _ _ _ _ _ _ Hap Hok Hno) as Hown. pose proof (find_appended _ _ _ _ _ _ _ _ _ _ Hap Hok Hn) as Hfind.
  destruct Hap as [A1 _ _ _ _ _ _ _ A9 A10 A11 _ _]. unfold Collection_CommitAppend, GetSegment, GetSegmentIndex. pose proof (Forall2_length _ _ _ A11) as Hlen. rewrite length_app in Hlen. cbn in Hlen.
  assert (length (mid) < group_count (row_groups rc'))%nat as Hfuel by (rewrite A1; unfold group_count, tree_of; cbn [tree_nodes unloaded]; rewrite length_fmap, length_app; cbn; lia).
  replace (rc_row_start rc + total_rows rc)%nat with (rc_row_start rc + rows_of pre + c)%nat in * by lia.
  destruct Hfind as [(p & rg' & l & Hp & Hk & -> & ->)|(rg & mid' & rg' & rg2 & l & -> & -> & Hf & Hfull & ->)]; cbn [mbind result_bind].
  - rewrite A1 in *. destruct (commit_groups_ok t cid mid last pre (rg' :: l) _ _ c n p A10 A11 Hown Hp Hk Hfuel) as (groups2 & -> & HF). cbn [mbind result_bind]. by exists groups2.
  - apply chain_head in A10 as (_ & Hs & Hcount & _ & _ & Hch). cbn [app] in *. apply Forall2_cons in A11 as [_ A11]. apply Forall_cons in Hown as [_ Hown]. rewrite Nat.sub_0_r in Hch.
    destruct (head (mid' ++ [last])) as [q|] eqn:Eq; [|by destruct mid'].
    replace (rc_row_start rc + rows_of pre + c)%nat with (rc_row_start rc + rows_of pre + ROW_GROUP_SIZE + 0)%nat by lia. rewrite A1 in *. rewrite cons_middle, app_assoc in *.
    replace (length pre + 1)%nat with (length (pre ++ [rg'])) by (by rewrite length_app).
    destruct (commit_groups_ok t cid mid' last (pre ++ [rg']) (rg2 :: l) (group_count (tree_of ((pre ++ [rg']) ++ rg2 :: l))) _ O n q Hch A11 Hown Eq) as (groups2 & -> & HF);
      [eapply chain_first; [exact Hch | lia | exact Eq] | unfold group_count, tree_of; cbn [tree_nodes unloaded]; rewrite length_fmap, !length_app; cbn in Hlen |- *; lia|].
    cbn [mbind result_bind]. exists (rg' :: groups2). split; [by rewrite <- app_assoc|]. constructor; [by eapply unchanged_committed | done].
Qed.

(** * Revert *)

Lemma revert_group_ok t p rg' :
  group_pending p → finalized t p rg' → (∀ c, vector_info (GetOrCreateVersionInfo rg') !! (rg_count p.1 / SVS)%nat = Some (Some (CONSTANT_INFO c)) → (rg_count p.1 mod SVS = 0)%nat) →
  ∃ rg3, RowGroup_RevertAppend null_value uninitialised rg' (rg_start p.1 + rg_count p.1) = Ok rg3 ∧ rg_start rg3 = rg_start rg' ∧ rg_count rg3 = rg_count p.1 ∧
    group_pending (rg3, O) ∧ group_row rg3 <$> seq 0 (rg_count rg3) = group_row rg' <$> seq 0 (rg_count p.1).
Proof.
  intros Hp [F1 F2 F3 F4 _ _] Hconst. rewrite <- F1.
  destruct (RowGroup_RevertAppend_ok null_value uninitialised rg' (rg_count p.1) (pending_open rg' F3)) as (rg3 & E & Ho & Es & Ec & HF & Hrows & Hdel); [lia | done|].
  exists rg3. split; [exact E|]. split_and!; [done | done | |].
  - destruct (versions_open _ _ _ Ho) as [Hw Ha]. destruct Ho as [O1 O2 O3]. split; cbn [fst snd]; rewrite ?Nat.add_0_r; try done.
    + intros row Hrow. destruct (Hdel row) as [?|Hd]; [done|]. rewrite Hd. destruct (decide (rg_count rg' ≤ row)%nat) as [Hge|Hlt]; [apply (gp_clean _ F3); cbn [fst]; lia|].
      rewrite <- (gp_clean _ Hp row) by lia. assert ((group_row rg' <$> seq 0 (rg_count rg')) !! row = Some (group_row rg' row)) as Hl by (by rewrite list_lookup_fmap, lookup_seq_lt by lia).
      rewrite F4 in Hl. unfold pending_rows in Hl. rewrite list_lookup_fmap, lookup_seq_lt in Hl by lia. injection Hl. done.
    + rewrite <- (gp_types _ F3). cbn [fst]. clear E O1. induction HF as [|c c' l l' [_ Hty _ _ _] _ IH]; [done|]. cbn [fmap list_fmap]. by rewrite Hty, IH.
    + intros Ep. apply (plain_same (rg_columns rg')); [clear -HF; induction HF as [|c c' l l' [_ _ H _ _] _ IH]; by constructor | | by apply (gp_plain _ F3)].
      unfold RowGroup_RevertAppend in E. apply bind_Ok_inv in E as (m & _ & (columns & Em' & [= <-])%bind_Ok_inv). cbn [set_versions set_columns rg_columns].
      rewrite <- (list_fmap_id columns) at 1. eapply mapR_sketched; [|exact Em']. intros c c'. apply revert_sketched.
  - rewrite Ec. apply list_fmap_ext. intros i r Hr%lookup_seq. unfold group_row. destruct (Hrows r ltac:(lia)) as [-> ->]. f_equal. unfold row_cells. clear E Ho.
    induction HF as [|c c' l l' [_ _ _ _ Hcells] _ IH]; [done|]. cbn [fmap list_fmap]. rewrite Hcells, decide_True by lia. by rewrite IH.
Qed.

Lemma tree_erase groups i : Z.of_nat (length groups) < 2 ^ 63 → (i < length groups)%nat → EraseSegments true (tree_of groups) i = Ok (tree_of (take (i + 1) groups)).
Proof.
  intros Hl Hi. unfold EraseSegments. change (LoadAllSegments true (tree_of groups)) with (Ok (tree_of groups)). cbn [mbind result_bind].
  assert (length (tree_nodes (tree_of groups)) = length groups) as -> by (unfold tree_of; cbn [tree_nodes]; apply length_fmap).
  rewrite wrapu_small by lia. destruct (Z.leb_spec (Z.of_nat (length groups) - 1) (Z.of_nat i)).
  - by rewrite take_ge by lia.
  - unfold tree_of. cbn [tree_nodes finished_loading unloaded]. by rewrite fmap_take.
Qed.

Lemma tree_index groups i : (i < length groups)%nat → GetSegmentByIndex true (tree_of groups) (Z.of_nat i) = Ok (tree_of groups, Some i).
Proof.
  intros Hi. unfold GetSegmentByIndex. rewrite (proj2 (Z.ltb_ge _ _)) by lia. rewrite Nat2Z.id. assert (length (tree_nodes (tree_of groups)) = length groups) as Hl by (unfold tree_of; cbn [tree_nodes]; apply length_fmap).
  unfold load_segments. cbn [tree_of unloaded length Nat.add load_while]. fold (tree_of groups). rewrite Hl, (proj2 (Nat.leb_gt _ _)) by done. cbn [mbind result_bind]. by rewrite Hl, (proj2 (Nat.leb_gt _ _)) by done.
Qed.

(** What [RevertAppendInternal] does when the row is in row group [length l]. *)
Lemma revert_at rc l rg post row rg3 :
  row_groups rc = tree_of (l ++ rg :: post) → Z.of_nat (length (l ++ rg :: post)) < 2 ^ 63 →
  TryGetSegmentIndex true (row_groups rc) row = Ok (row_groups rc, Some (length l)) →
  RowGroup_RevertAppend null_value uninitialised rg row = Ok rg3 → rg_start rg3 = rg_start rg →
  RevertAppendInternal null_value uninitialised rc row =
    Ok (mkCollection (tree_of (l ++ [rg3])) row (rc_row_start rc) (rc_types rc) (rc_stats rc) (rc_allocation_size rc)).
Proof.
  intros E Hl Hf Hr Hs. unfold RevertAppendInternal. cbn [row_groups]. rewrite Hf, E. rewrite (proj2 (Nat.eqb_neq _ _)).
  2: { unfold tree_of. cbn [tree_nodes]. rewrite length_fmap, length_app. cbn. lia. }
  assert (length l < length (l ++ rg :: post))%nat as Hi by (rewrite length_app; cbn; lia).
  cbn [mbind result_bind]. rewrite tree_index by done. cbn [mbind result_bind]. rewrite tree_erase by done. cbn [mbind result_bind].
  rewrite take_app_ge by lia. replace (length l + 1 - length l)%nat with 1%nat by lia. cbn [take]. rewrite (tree_at _ _ rg) by apply middle_at. cbn [mbind result_bind].
  rewrite Hr. cbn [mbind result_bind]. unfold put_in_table. cbn [with_tree row_groups]. rewrite tree_put_middle by done. done.
Qed.

(** The table with the rows it had before the append. *)
Lemma reverted_table rc t chunk n rc' pre c mid last groups l rg3 :
  appended_table rc t chunk n rc' pre c mid last groups → table_ok rc → rc_row_start rc = O →
  Forall group_ready (l ++ [rg3]) → contiguous 0 (l ++ [rg3]) → Z.of_nat (length (l ++ [rg3])) < 2 ^ 63 →
  table_rows (l ++ [rg3]) = table_rows (tree_segments (row_groups rc)) →
  let rc3 := mkCollection (tree_of (l ++ [rg3])) (total_rows rc) (rc_row_start rc') (rc_types rc') (rc_stats rc') (rc_allocation_size rc') in
  table_ok rc3 ∧ table_rows (tree_segments (row_groups rc3)) = table_rows (tree_segments (row_groups rc)).
Proof.
  intros [_ _ Hst Hty Hps Hcov _ _ _ _ _ _ _] Hok Hz Hg Hc Hl Hrows rc3. destruct (tree_of_ok _ _ Hc Hl) as [Htree Hsegs]. split; [|cbn [rc3 row_groups]; by rewrite Hsegs].
  split; cbn [rc3 row_groups total_rows rc_row_start rc_types rc_stats]; rewrite ?Hsegs; try done.
  - by rewrite Hst, Hz.
  - rewrite <- table_rows_length, Hrows, table_rows_length. apply Hok.
  - rewrite Hrows. specialize (Hcov 0). by apply Forall_app in Hcov as [? _].
Qed.

Lemma RevertAppendInternal_ok rc t chunk n rc' pre c mid last groups :
  appended_table rc t chunk n rc' pre c mid last groups → table_ok rc → no_rows_of t rc → (0 < n)%nat → rc_row_start rc = O →
  ∃ rc3, RevertAppendInternal null_value uninitialised rc' (total_rows rc) = Ok rc3 ∧ table_ok rc3 ∧ total_rows rc3 = total_rows rc ∧ rc_row_start rc3 = O ∧
    table_rows (tree_segments (row_groups rc3)) = table_rows (tree_segments (row_groups rc)).
Proof.
  intros Hap Hok Hno Hn Hz. pose proof (appended_no_own _ _ _ _ _ _ _ _ _ _ Hap Hok Hno) as Hown. pose proof (find_appended _ _ _ _ _ _ _ _ _ _ Hap Hok Hn) as Hfind.
  pose proof Hap as [A1 _ A3 _ _ _ A7 A8 A9 A10 A11 A12 A13]. destruct (finalized_table t _ _ A11) as (Hlg & Hgr & Hcg & Hrows). rewrite length_app in Hlg. cbn in Hlg.
  specialize (Hcg _ (ch_starts _ _ _ _ _ A10)). specialize (A12 (transaction_id t)). rewrite <- Hrows in A12. pose proof (ch_pending _ _ _ _ _ A10) as Hpend. rewrite Hz in *. cbn [Nat.add] in *.
  assert (table_rows (tree_segments (row_groups rc)) = take (rows_of pre + c) (table_rows pre ++ table_rows groups)) as Htake.
  { rewrite A12, A9, (tb_total _ Hok), <- table_rows_length. by rewrite take_app_le, take_ge. }
  rewrite <- table_rows_length, take_app_add in Htake.
  destruct Hfind as [(p & rg' & l & Hp & Hk & -> & Hf)|(rg & mid' & rg' & rg2 & l & -> & -> & Hfin & Hfull & Hf)].
  - destruct (mid ++ [last]) as [|p' ps] eqn:Eps; [done|]. cbn in Hp. injection Hp as ->. apply Forall2_cons in A11 as [Hfin _]. apply Forall_cons in Hpend as [Hpp _], Hown as [Hown _].
    destruct Hcg as [Hs Hcg]. cbn in Hs. destruct A10 as [_ _ _ _ Hcounts]. rewrite Eps in Hcounts. cbn in Hcounts. injection Hcounts as Hc _.
    destruct (revert_group_ok t p rg' Hpp Hfin (fi_revert _ _ _ Hfin Hk Hown)) as (rg3 & E3 & S3 & C3 & P3 & R3).
    rewrite (revert_at rc' pre rg' l (total_rows rc) rg3 A1); [|rewrite length_app; cbn in *; lia | done | rewrite <- E3, <- (fi_start _ _ _ Hfin), Hs; f_equal; lia | done].
    eexists. split; [reflexivity|]. destruct (reverted_table rc t chunk n rc' pre c mid last (rg' :: l) pre rg3 Hap Hok Hz) as [H1 H2]; [| | | |by split_and!].
    + apply Forall_app. split; [done|]. constructor; [exact P3 | constructor].
    + apply contiguous_app. split; [done|]. split; [cbn; congruence | done].
    + rewrite length_app. cbn in *. lia.
    + rewrite Htake, table_rows_app. f_equal. rewrite !table_rows_cons. change (table_rows []) with (@nil stored_row). rewrite app_nil_r, R3, take_app_le by (rewrite length_fmap, length_seq, (fi_count _ _ _ Hfin); lia).
      rewrite <- fmap_take, take_seq, (fi_count _ _ _ Hfin). do 2 f_equal. lia.
  - apply chain_head in A10 as (_ & _ & Hcount & _ & _ & Hch). cbn [app] in *. destruct (mid' ++ [last]) as [|q ps] eqn:Eps; [by destruct mid'|].
    apply Forall2_cons in A11 as [_ A11]. apply Forall2_cons in A11 as [Hfin2 _]. apply Forall_cons in Hpend as [_ Hpend]. apply Forall_cons in Hpend as [Hpq _].
    destruct Hcg as [Hs [Hs2 Hcg]]. cbn in Hs, Hs2. destruct Hch as [_ _ _ _ Hcounts]. rewrite Eps in Hcounts. cbn in Hcounts. injection Hcounts as Hq _.
    destruct (revert_group_ok t q rg2 Hpq Hfin2) as (rg3 & E3 & S3 & C3 & P3 & R3); [intros cc _; rewrite Hq; apply Nat.Div0.mod_0_l|].
    pose proof (fi_count _ _ _ Hfin) as Hcnt. cbn [fst snd] in Hcnt.
    rewrite (revert_at rc' (pre ++ [rg']) rg2 l (total_rows rc) rg3);
      [|by rewrite A1, <- app_assoc | rewrite !length_app; cbn in *; lia | by rewrite length_app; cbn | rewrite <- E3, <- (fi_start _ _ _ Hfin2), Hs2; f_equal; lia | done].
    eexists. split; [reflexivity|]. destruct (reverted_table rc t chunk n rc' pre c ((rg, O) :: mid') last (rg' :: rg2 :: l) (pre ++ [rg']) rg3 Hap Hok Hz) as [H1 H2]; [| | | |by split_and!].
    + rewrite <- app_assoc. apply Forall_app. split; [done|]. constructor; [apply Hfin|]. constructor; [exact P3 | constructor].
    + rewrite <- app_assoc. apply contiguous_app. split; [done|]. split; [cbn; done|]. split; [cbn; congruence | done].
    + rewrite !length_app. cbn in *. lia.
    + rewrite Htake, <- app_assoc, table_rows_app. f_equal. cbn [app]. rewrite !table_rows_cons, R3, Hq. change (table_rows []) with (@nil stored_row). cbn [seq]. rewrite fmap_nil, !app_nil_r.
      rewrite take_app_le by (rewrite length_fmap, length_seq; lia). rewrite take_ge by (rewrite length_fmap, length_seq; lia). done.
Qed.
End Tables.

(** * Scans *)

(** The abstract scan of a list of rows, numbered from [number] on. *)
Section Select.
Context (types : list LogicalType) (ts : TableScanState) (t : TransactionData).

(** The transaction sees the row. *)
Definition row_seen (row : stored_row) : bool := UseVersion t row.1.1 && negb (UseVersion t row.1.2).

Definition row_filter (row : stored_row) (entry : nat * TableFilter) : bool :=
  match column_ids ts !! entry.1 with
  | Some (Some k) => match types !! k, row.2 !! k with Some ty, Some (Some x) => value_passes entry.2 (as_value ty x) | _, _ => false end
  | _ => false
  end.
Definition row_passes (row : stored_row) : bool :=
  match table_filters ts with None => true | Some filters => forallb (row_filter row) (map_to_list filters) end.

(** The columns of the scan; [None] is the row id. *)
Definition row_values (number : nat) (row : stored_row) : list (option (option Z)) :=
  (λ id, match id with None => Some (Some (Z.of_nat number)) | Some k => mjoin (row.2 !! k) end) <$> column_ids ts.

Fixpoint select (number : nat) (rows : list stored_row) : list (list (option (option Z))) :=
  match rows with
  | [] => []
  | row :: rows => (if row_seen row && row_passes row then [row_values number row] else []) ++ select (S number) rows
  end.

Lemma select_app number rows1 rows2 : select number (rows1 ++ rows2) = select number rows1 ++ select (number + length rows1) rows2.
Proof.
  revert number. induction rows1 as [|row rows IH]; intros number; cbn [select app length]; [by rewrite Nat.add_0_r|].
  rewrite IH, <- app_assoc. do 3 f_equal. lia.
Qed.
End Select.

Section Scans.
Context (null_value : PhysicalType → Z) (uninitialised : Z) (types : list LogicalType) (ts : TableScanState) (t : TransactionData).
Hypothesis Htxn : transaction_ok t.

(** The scan reads columns of the table, with filters that fit their types. *)
Record scan_typed : Prop := {
  st_first : ∃ k, head (column_ids ts) = Some (Some k);
  st_columns : ∀ i k, column_ids ts !! i = Some (Some k) → (k < length types)%nat;
  st_filters : ∀ filters : TableFilterSet, table_filters ts = Some filters → Forall (λ entry, ∃ k ty, column_ids ts !! entry.1 = Some (Some k) ∧ types !! k = Some ty ∧
    filter_typed entry.2 ty ∧ no_empty entry.2 = true ∧ rejects_null entry.2 ty) (map_to_list filters);
}.
Hypothesis Hscan : scan_typed.

Abbreviation ready := (group_ready null_value uninitialised types true).

(** A column of a row group: its type, and its cells. *)
Lemma ready_column rg k c : ready rg → rg_columns rg !! k = Some c →
  types !! k = Some (cd_type (sd_base c)) ∧ never_updated c ∧ is_sketched c = false ∧ column_open null_value uninitialised c.
Proof.
  intros [Hc _ _ _ Ht Hpl] Hk. cbn [fst snd] in *. destruct (Hpl eq_refl) as [Hu Hs]. split_and!.
  - rewrite <- Ht, list_lookup_fmap, Hk. done.
  - by eapply (proj1 (Forall_lookup _ _) Hu).
  - apply (proj1 (Forall_lookup _ _) Hs k). by rewrite list_lookup_fmap, Hk.
  - by destruct (proj1 (Forall_lookup _ _) Hc k c Hk).
Qed.

Lemma ready_exists rg k : ready rg → (k < length types)%nat → is_Some (rg_columns rg !! k).
Proof. intros [_ _ _ _ Ht _] Hk. apply lookup_lt_is_Some. rewrite <- Ht, length_fmap in Hk. exact Hk. Qed.

Lemma ready_fine rg : ready rg → group_fine null_value uninitialised ts t rg.
Proof.
  intros Hr. destruct Hscan as [(k0 & Hfirst) Hcols Hfilters]. split.
  - by apply open_ok, (pending_open (types := types) (plain := true)).
  - intros filters Hf. eapply Forall_impl; [exact (Hfilters filters Hf)|]. intros entry (k & ty & Hk & Hty & H1 & H2 & H3).
    destruct (ready_exists rg k Hr) as [c Hc]; [by eapply lookup_lt_Some|]. destruct (ready_column rg k c Hr Hc) as (Hct & Hu & _ & Ho).
    assert (ty = cd_type (sd_base c)) as -> by congruence. exists k, c. split_and!; try done. by eapply open_zones.
  - intros i k Hk. by eapply ready_exists, Hcols.
  - destruct (column_ids ts) as [|id ids] eqn:Ei; [done|]. cbn in Hfirst. injection Hfirst as ->. cbn [can_sketch].
    destruct (ready_exists rg k0 Hr) as [c Hc]; [by apply (Hcols O)|]. unfold GetColumn. rewrite (vget_lookup _ _ _ Hc). cbn [mbind result_bind].
    destruct (ready_column rg k0 c Hr Hc) as (_ & _ & -> & _). done.
Qed.

Lemma row_seen_visible rg r : row_seen t (group_row rg r) = visible rg t r.
Proof. symmetry. by apply visible_versions. Qed.

Lemma row_passes_filters rg r : ready rg → row_passes types ts (group_row rg r) = passes_filters rg ts t r.
Proof.
  intros Hr. unfold row_passes, passes_filters. destruct (table_filters ts) as [filters|] eqn:Ef; [|done].
  assert (∀ entry, row_filter types ts (group_row rg r) entry = filter_holds rg ts t r entry) as H; [|induction (map_to_list filters) as [|e l IH]; cbn [forallb]; [done | by rewrite H, IH]].
  intros entry. unfold row_filter, filter_holds. destruct (column_ids ts !! entry.1) as [[k|]|] eqn:Ek; [|done..]. cbn [group_row snd]. unfold row_cells. rewrite list_lookup_fmap.
  destruct (rg_columns rg !! k) as [c|] eqn:Hc; [|by destruct (types !! k)]. destruct (ready_column rg k c Hr Hc) as (-> & Hu & _ & _). cbn [fmap option_fmap option_map].
  by rewrite stored_cell_ok.
Qed.

Lemma row_values_tuple rg r : ready rg → row_values ts (rg_start rg + r) (group_row rg r) = tuple rg ts t r.
Proof.
  intros Hr. unfold row_values, tuple. apply list_fmap_ext. intros i [k|] Hi; [|done]. cbn [row_cell group_row snd]. unfold row_cells. rewrite list_lookup_fmap.
  destruct (rg_columns rg !! k) as [c|] eqn:Hc; [|done]. cbn. destruct (ready_column rg k c Hr Hc) as (_ & Hu & _ & _). by rewrite stored_cell_ok.
Qed.

Lemma select_group rg a n : ready rg →
  select types ts t (rg_start rg + a) (group_row rg <$> seq a n) = tuple rg ts t <$> filter (λ r, visible rg t r && passes_filters rg ts t r) (seq a n).
Proof.
  intros Hr. revert a. induction n as [|n IH]; intros a; [done|]. cbn [seq]. rewrite fmap_cons. cbn [select]. rewrite row_seen_visible, row_passes_filters, row_values_tuple by done.
  rewrite <- Nat.add_succ_r, IH, filter_cons. destruct (visible rg t a && passes_filters rg ts t a); [rewrite decide_True by done | rewrite decide_False by auto]; done.
Qed.

Lemma select_table start groups : contiguous start groups → Forall ready groups → select types ts t start (table_rows groups) = table_tuples ts t groups.
Proof.
  revert start. induction groups as [|rg groups IH]; intros start Hc Hg; [done|]. apply Forall_cons in Hg as [Hr Hg]. destruct Hc as [Hs Hc]. cbn in Hs, Hc.
  rewrite table_rows_cons, select_app, length_fmap, length_seq, IH by done. unfold table_tuples. cbn [fmap list_fmap concat]. f_equal.
  rewrite <- Hs, <- (Nat.add_0_r (rg_start rg)). by apply select_group.
Qed.

(** A scan of the table is a scan of its rows. *)
Lemma table_select rc fresh a measurements force_fetch_row :
  table_ok null_value uninitialised types true rc → fresh_chunk ts fresh → order_ok ts a → (∀ i, measurement_ok ts (measurements i)) →
  ∃ chunks, Collection_Scan null_value uninitialised rc ts a measurements force_fetch_row t fresh = Ok chunks ∧
    concat ((λ c, chunk_rows c.1 c.2) <$> chunks) ≡ₚ select types ts t (rc_row_start rc) (table_rows (tree_segments (row_groups rc))) ∧ Forall (λ c, 0 < c.2)%nat chunks.
Proof.
  intros Hok Hfresh Ha Hm. pose proof Hok as [Ht Hg Htot _ _ _]. set (groups := tree_segments (row_groups rc)) in *.
  assert (Forall (group_fine null_value uninitialised ts t) groups) as Hfine by (eapply Forall_impl; [exact Hg | intros rg; apply ready_fine]).
  destruct (Collection_Scan_ok null_value uninitialised ts t fresh (rc_row_start rc) (rc_row_start rc + total_rows rc) groups Htxn Hfresh Hfine rc a measurements force_fetch_row)
    as (chunks & E & HP & Hall); [by split | done | done | by rewrite Htot | done | done|].
  exists chunks. split; [done|]. split; [|done]. rewrite HP, (tuples_all ts t (rc_row_start rc)); [|apply Ht | by rewrite Htot]. by rewrite select_table; [|apply Ht | done].
Qed.
End Scans.
