(* ===== verification/SketchScan.v ===== *)
(** Scans over column sketches: when every vector of a column has an exact
    sketch, the sketched scan of a row group returns the rows that pass the
    comparison.  The scan changes the selections of the sketched vectors and
    nothing else. *)
From S2P Require Import Prelude Bits SelectionVector ColumnSketch SketchFacts SketchAvx SketchProps Types Stats NumericStats NumericFacts BaseStatistics StatsFacts StatsCreate StatsProps TableFilter FilterFacts FilterPruning SketchConjunction.
From S2P Require Import ValidityMask MaskFacts ChunkInfo ChunkFacts RowVersionManager VersionFacts UpdateSegment UpdateFacts UpdateLaws UpdateChain UpdateSteps UpdateSystem UncompressedAppend.
From S2P Require Import UncompressedSegment SegmentLaws SegmentTree ColumnData ColumnFacts ColumnAppend StandardColumn StandardFacts AdaptiveFilter RowGroup RowGroupFacts RowGroupScan RowGroupLoop RowGroupAppend.

#[local] Opaque ROW_GROUP_VECTOR_COUNT.

(** * Columns that differ in the selections of their sketches *)

Record same_data (c c' : StandardColumnData) : Prop := {
  sm_base : sd_base c' = sd_base c;
  sm_validity : sd_validity c' = sd_validity c;
  sm_flag : is_sketched c' = is_sketched c;
  sm_sketches : segment_sketches c' = segment_sketches c;
  sm_sels : length (vector_sels c') = length (vector_sels c);
}.

Record same_rows (rg rg' : RowGroup) : Prop := {
  sg_start : rg_start rg' = rg_start rg;
  sg_count : rg_count rg' = rg_count rg;
  sg_versions : version_info rg' = version_info rg;
  sg_columns : Forall2 same_data (rg_columns rg) (rg_columns rg');
}.

#[export] Instance same_data_preorder : PreOrder same_data.
Proof. split; [by split | intros c1 c2 c3 [] []; split; congruence]. Qed.

#[export] Instance same_rows_preorder : PreOrder same_rows.
Proof.
  split.
  - intros rg. split; [done..|]. apply Forall_Forall2_diag, Forall_forall. by intros.
  - intros r1 r2 r3 [A1 A2 A3 A4] [B1 B2 B3 B4]. split; [congruence..|]. by etrans.
Qed.

Section Transfer.
Context (rg rg' : RowGroup) (H : same_rows rg rg').

Lemma same_lookup k c' : rg_columns rg' !! k = Some c' → ∃ c, rg_columns rg !! k = Some c ∧ same_data c c'.
Proof. apply Forall2_lookup_r, (sg_columns _ _ H). Qed.

Lemma same_lookup_l k c : rg_columns rg !! k = Some c → ∃ c', rg_columns rg' !! k = Some c' ∧ same_data c c'.
Proof. apply Forall2_lookup_l, (sg_columns _ _ H). Qed.

Lemma same_cell c c' t row : same_data c c' → cell false c' t row = cell false c t row.
Proof. intros [E1 E2 _ _ _]. unfold cell. by rewrite E1, E2. Qed.

Lemma same_rowgroup_ok null_value uninitialised : rowgroup_ok null_value uninitialised rg → rowgroup_ok null_value uninitialised rg'.
Proof.
  intros [H1 H2 H3]. destruct H as [E1 E2 E3 _]. split; rewrite ?E1, ?E2, ?E3; try done.
  intros k c' (c & Hc & [S1 S2 _ _ _])%same_lookup. destruct (H1 k c Hc) as ([Ht Hok] & Hs & Hn). rewrite S1. split_and!; [|done..].
  assert (number_type (cd_type (sd_base c'))) as Ht' by (by rewrite S1). unfold column_fine. rewrite S1 in *. exists Ht.
  destruct Hok. split; rewrite ?S1, ?S2; done.
Qed.

Lemma same_scans_at ids scans at_ : scans_at rg ids scans at_ → scans_at rg' ids scans at_.
Proof.
  intros [Hl Hat]. split; [done|]. intros i id cs Hi Hs. specialize (Hat i id cs Hi Hs). destruct id as [k|]; [|done]. destruct Hat as (c & Hc & Hcur).
  destruct (same_lookup_l k c Hc) as (c' & Hc' & [S1 S2 _ _ _]). exists c'. split; [done|]. unfold standard_cursor. by rewrite S1, S2.
Qed.

Lemma same_ready ts st v : scan_ready rg ts st v → scan_ready rg' ts st v.
Proof. intros [H1 H2 H3 H4]. destruct H as [E1 E2 _ _]. split; [done | by apply same_scans_at | by rewrite E2 | by rewrite E1]. Qed.

Lemma same_visible t row : visible rg' t row = visible rg t row.
Proof. unfold visible. by rewrite (sg_versions _ _ H). Qed.

Lemma same_row_cell t id r : row_cell rg' t id r = row_cell rg t id r.
Proof.
  unfold row_cell. destruct id as [k|]; [|by rewrite (sg_start _ _ H)]. destruct (rg_columns rg' !! k) as [c'|] eqn:E.
  - destruct (same_lookup k c' E) as (c & -> & S). by apply same_cell.
  - destruct (rg_columns rg !! k) as [c|] eqn:E'; [|done]. destruct (same_lookup_l k c E') as (c' & Hc' & _). congruence.
Qed.

Lemma same_holds ts t row entry : filter_holds rg' ts t row entry = filter_holds rg ts t row entry.
Proof.
  unfold filter_holds. destruct (column_ids ts !! entry.1) as [[k|]|]; [|done..]. destruct (rg_columns rg' !! k) as [c'|] eqn:E.
  - destruct (same_lookup k c' E) as (c & -> & S). by rewrite (same_cell c c'), (sm_base _ _ S).
  - destruct (rg_columns rg !! k) as [c|] eqn:E'; [|done]. destruct (same_lookup_l k c E') as (c' & Hc' & _). congruence.
Qed.

Lemma same_wanted ts t row : scan_wanted rg' ts t row = scan_wanted rg ts t row.
Proof.
  unfold scan_wanted, passes_filters. rewrite same_visible. f_equal. destruct (table_filters ts) as [filters|]; [|done].
  induction (map_to_list filters) as [|e l IH]; [done|]. cbn. by rewrite same_holds, IH.
Qed.

Lemma same_shows ts t v chunk R : chunk_shows rg' ts t v chunk R → chunk_shows rg ts t v chunk R.
Proof. intros [Hl Hs]. split; [done|]. intros i id res j r H1 H2 H3. rewrite <- same_row_cell. by eapply Hs. Qed.

Lemma same_can_sketch ids : can_sketch rg' ids = can_sketch rg ids.
Proof.
  induction ids as [|[k|] ids IH]; [done| |done]. cbn [can_sketch GetColumn]. unfold vget. destruct (rg_columns rg' !! k) as [c'|] eqn:E.
  - destruct (same_lookup k c' E) as (c & -> & S). cbn [mbind result_bind]. by rewrite (sm_flag _ _ S), IH.
  - destruct (rg_columns rg !! k) as [c|] eqn:E'; [|done]. destruct (same_lookup_l k c E') as (c' & Hc' & _). congruence.
Qed.
End Transfer.

(** * Exact sketches *)

(** Vector [v] of the column has [n] rows, without NULLs or negative numbers,
    and a sketch that keeps them. *)
Definition vector_sketched (W : Z) (c : StandardColumnData) (t : TransactionData) (v n : nat) : Prop :=
  ∃ base cs sk, segment_sketches c !! v = Some (Some sk) ∧ dynamic_cast_sketch W sk = Some cs ∧ sketch_ok 8 base cs ∧ need_check_base cs = true ∧
    length base = n ∧ is_Some (vector_sels c !! v) ∧ ∀ r x, base !! r = Some x → cell false c t (v * SVS + r) = Some (Some x).

(** Every segment a scan can stand in at vector [v] has all of its rows. *)
Definition vector_inside (c : StandardColumnData) (v : nat) : Prop :=
  ∀ i s, column_segments (sd_base c) !! i = Some s → (seg_start s ≤ cd_start (sd_base c) + v * SVS ≤ seg_start s + seg_count s)%nat →
    (cd_start (sd_base c) + S v * SVS ≤ seg_start s + seg_count s)%nat.

(** A comparison a sketch can answer on every vector of the column: one without
    a matching row lies inside of its segment. *)
Record column_sketched (W : Z) (c : StandardColumnData) (t : TransactionData) (P : Z → bool) : Prop := {
  ck_width : W = 32 ∨ W = 64;
  ck_type : InternalType (cd_type (sd_base c)) = sketch_pt W;
  ck_vectors : ∀ v, (v * SVS < cd_count (sd_base c))%nat → vector_sketched W c t v (rows_in (cd_count (sd_base c)) v);
  ck_inside : ∀ v, (v * SVS < cd_count (sd_base c))%nat →
    (∃ r x, (r < rows_in (cd_count (sd_base c)) v)%nat ∧ cell false c t (v * SVS + r) = Some (Some x) ∧ P x = true) ∨ vector_inside c v;
}.

Lemma column_sketched_same W c c' t P : same_data c c' → column_sketched W c t P → column_sketched W c' t P.
Proof.
  intros S [H1 H2 H3 H4]. pose proof S as [S1 S2 S3 S4 S5]. split; rewrite ?S1; try done.
  - intros v Hv. destruct (H3 v Hv) as (base & cs & sk & E1 & E2 & E3 & E4 & E5 & E6 & E7). exists base, cs, sk. rewrite S4. split_and!; try done.
    + apply lookup_lt_is_Some. rewrite S5. by apply lookup_lt_is_Some.
    + intros r x Hr. rewrite (same_cell c c') by done. by apply E7.
  - intros v Hv. destruct (H4 v Hv) as [(r & x & Hr & Hx & HP)|Hin]; [left | right].
    + exists r, x. by rewrite (same_cell c c') by done.
    + intros i s. rewrite S1. apply Hin.
Qed.

(** A comparison of numbers of [W] bits that are not negative. *)
Lemma comparison_passes W p P ty x :
  W = 32 ∨ W = 64 → tests W p P → InternalType ty = sketch_pt W → value_passes (comparison_filter W p) (as_value ty (Some x)) = P x.
Proof.
  intros HW [_ Ht] Hty. destruct p as [cmp c]. unfold comparison_filter, as_value. cbn [fst snd value_passes] in *. rewrite Hty.
  unfold GetValueUnsafe, union_get. cbn [fst snd]. rewrite !bool_decide_true by done.
  assert (num_key (sketch_pt W) x = x ∧ num_key (sketch_pt W) c = c) as [Ex Ec] by (unfold sketch_pt; by destruct HW as [-> | ->]).
  destruct cmp; cbn [sketch_test comparison default] in *; try done; rewrite ?LessThan_key, ?LessThanEquals_key, ?GreaterThan_key, ?GreaterThanEquals_key, Ex, Ec;
    try (destruct (0 <? c); [|done]); by injection Ht as <-.
Qed.

(** The row is not NULL and passes the comparison. *)
Definition passing (c : StandardColumnData) (t : TransactionData) (P : Z → bool) (row : nat) : bool :=
  match cell false c t row with Some (Some x) => P x | _ => false end.

(** The rows of the vector that pass are those the sketch finds. *)
Lemma sketched_rows c t v n (P : Z → bool) base :
  length base = n → (∀ r x, base !! r = Some x → cell false c t (v * SVS + r) = Some (Some x)) →
  row_ids P base = filter (λ r, passing c t P (v * SVS + r)) (seq 0 n).
Proof.
  intros <- Hb. unfold row_ids. apply filter_ext_in. intros r [_ Hr]%elem_of_seq. destruct (lookup_lt_is_Some_2 base r) as [x Hx]; [lia|]. unfold passing. by rewrite Hx, (Hb r x Hx).
Qed.

Lemma answers_selection r rows : answers r rows → selection (sel_vec r.2) (length rows) (Z.of_nat <$> rows).
Proof.
  intros [_ Hc Hs _]. rewrite Hc in Hs. split; [|done]. unfold sel_readable, sel_list in *. destruct (sel_vector (sel_vec r.2)) as [buf|]; [|done].
  apply (f_equal length) in Hs. rewrite length_take, length_fmap in Hs. lia.
Qed.

(** [CheckSketch] on a vector: its selection becomes that of the matching rows,
    unless there are none. *)
Lemma Standard_CheckSketch_ok null_value uninitialised W c cs p P t v :
  column_fine null_value uninitialised c → is_sketched c = true → column_sketched W c t P → tests W p P →
  standard_cursor c cs (v * SVS) → (v * SVS < cd_count (sd_base c))%nat →
  let rows := filter (λ r, passing c t P (v * SVS + r)) (seq 0 (rows_in (cd_count (sd_base c)) v)) in
  ∃ c' b, Standard_CheckSketch c cs (comparison_filter W p) v = Ok (c', b) ∧ same_data c c' ∧
    if (b : bool) then ∃ m, vector_sels c' !! v = Some m ∧ count m = length rows ∧ selection (sel_vec m) (length rows) (Z.of_nat <$> rows)
    else rows = [] ∧ ∃ i s, current (sst_base cs) = Some i ∧ column_segments (sd_base c) !! i = Some s.
Proof.
  intros Hf Hsk [HW Hty Hvec _] Hp Hcur Hv rows. destruct (Hvec v Hv) as (base & sketch & sk & Hseg & Hcast & Hok & Hneed & Hlen & [m Hm] & Hbase).
  assert (row_ids P base = rows) as Erows by (by apply sketched_rows).
  assert (0 < length base)%nat as Hne by (rewrite Hlen; unfold rows_in; pose proof vector_size_pos; lia).
  assert (Z.of_nat (length base) ≤ 32767) as Hsmall.
  { assert (Z.of_nat SVS ≤ 32767) as H1 by (by vm_compute). assert (length base ≤ SVS)%nat as H2 by (rewrite Hlen; unfold rows_in; apply Nat.le_min_l). lia. }
  destruct Hcur as (Hcb & _ & Hrow). destruct (Hrow Hv) as (Hcurrent & _ & Hri & _). unfold cursor in Hcb. unfold Standard_CheckSketch. rewrite Hsk.
  destruct (current (sst_base cs)) as [i|] eqn:Ei; [|done]. destruct Hcb as (s & Hi & _). rewrite (segment_at_ok (sd_base c) i s Hi). cbn [mbind result_bind].
  destruct p as [cmp k]. pose proof Hp as [Hk Htest]. cbn [fst snd] in *.
  destruct (sketch_check_evaluates W base sketch cmp k P (sketch_type W) v (segment_sketches c) (vector_sels c) sk m) as (r & He & Hr & Ha & _); try done.
  assert (CheckSketchStatistics v (segment_sketches c) (comparison_filter W (cmp, k)) (seg_stats s) (vector_sels c) =
    Ok (sketch_result r.1 (length base), <[v := r.2]> (vector_sels c))) as ->.
  { rewrite <- He. unfold comparison_filter, CheckSketchStatistics, ConstantFilter_CheckSketchStatistics, NumericStats_CheckSketch.
    pose proof (vg_type _ _ _ (fine_segment null_value uninitialised c i s Hf Hi)) as ->. rewrite Hty. unfold sketch_pt, sketch_type. destruct HW as [-> | ->]; reflexivity. }
  cbn [mbind result_bind]. destruct (sketch_result_exact P base r m Hne Hr Ha) as (_ & Hfalse & Hans). rewrite Erows in Hans. eexists _, _. split; [done|]. split.
  { split; cbn; try done. apply length_insert. }
  case_bool_decide as Hq; cbn [negb].
  - split; [|by exists i, s]. rewrite <- Erows. apply row_ids_none. intros x Hx. by apply (proj1 Hfalse Hq).
  - specialize (Hans Hq). exists r.2. cbn [vector_sels]. split_and!; [apply list_lookup_insert_eq; by eapply lookup_lt_Some | apply Hans | by apply answers_selection].
Qed.

(** * The scan *)

Section Sketched.
Context (null_value : PhysicalType → Z) (uninitialised : Z).
Context (ts : TableScanState) (t : TransactionData) (measurement : bool * nat) (fresh : list ResultVector).
Context (i k : nat) (W : Z) (p : ExpressionType * Z) (P : Z → bool).
Abbreviation ids := (column_ids ts).
Abbreviation comparison_entry := (i, comparison_filter W p).
Hypothesis Hfilters : table_filters ts = Some {[ i := comparison_filter W p ]}.
Hypothesis Hcolumn : ids !! i = Some (Some k).
Hypothesis Htests : tests W p P.
Hypothesis Hfresh : fresh_chunk ts fresh.

(** All scanned columns have sketches, the transaction sees all rows, and the
    sketches of the filtered column answer the comparison. *)
Record sketch_ready (rg : RowGroup) : Prop := {
  sk_group : rowgroup_ok null_value uninitialised rg;
  sk_flags : can_sketch rg ids = Ok true;
  sk_visible : ∀ row, (row < rg_count rg)%nat → visible rg t row = true;
  sk_column : ∃ c, rg_columns rg !! k = Some c ∧ is_sketched c = true ∧ column_sketched W c t P;
}.

Lemma sketch_ready_same rg rg' : same_rows rg rg' → sketch_ready rg → sketch_ready rg'.
Proof.
  intros Hs [H1 H2 H3 (c & Hc & Hf & Hk)]. split.
  - by eapply same_rowgroup_ok.
  - by rewrite (same_can_sketch rg).
  - intros row. rewrite (sg_count _ _ Hs), (same_visible rg) by done. apply H3.
  - destruct (same_lookup_l rg rg' Hs k c Hc) as (c' & Hc' & S). exists c'. split_and!; [done | by rewrite (sm_flag _ _ S) | by eapply column_sketched_same].
Qed.

Lemma filter_entries : map_to_list ({[ i := comparison_filter W p ]} : TableFilterSet) = [comparison_entry].
Proof. apply (map_to_list_singleton (M := gmap nat)). Qed.

Lemma wanted_passing rg c row :
  sketch_ready rg → rg_columns rg !! k = Some c → (row < rg_count rg)%nat → scan_wanted rg ts t row = passing c t P row.
Proof.
  intros [_ _ Hvis (c0 & Hc0 & _ & Hk)] Hc Hrow. assert (c0 = c) as -> by congruence. unfold scan_wanted, passes_filters, passing. rewrite Hvis, Hfilters, filter_entries by done. cbn [forallb andb]. rewrite andb_true_r. unfold filter_holds. cbn [fst snd]. rewrite Hcolumn, Hc.
  destruct (cell false c t row) as [[x|]|]; [|done..]. by apply comparison_passes; destruct Hk.
Qed.

Lemma vector_wanted rg c v :
  sketch_ready rg → rg_columns rg !! k = Some c →
  filter (λ r, passing c t P (v * SVS + r)) (seq 0 (rows_in (rg_count rg) v)) =
  filter (λ r, scan_wanted rg ts t (v * SVS + r)) (seq 0 (rows_in (rg_count rg) v)).
Proof. intros Hr Hc. apply filter_ext_in. intros r [_ H]%elem_of_seq. rewrite (wanted_passing rg c) by (done || unfold rows_in in H; lia). done. Qed.

Lemma set_column_same rg c c' : rg_columns rg !! k = Some c → same_data c c' → same_rows rg (set_columns rg (<[k := c']> (rg_columns rg))).
Proof.
  intros Hc Hs. split; [done..|]. cbn [set_columns rg_columns]. rewrite <- (list_insert_id (rg_columns rg) k c Hc) at 1.
  apply Forall2_insert; [|done]. apply Forall_Forall2_diag, Forall_forall. by intros.
Qed.

(** [CheckSketchSegments]: the vector has no wanted row and is skipped, or its
    selection holds the wanted rows. *)
Lemma CheckSketchSegments_ok rg st v :
  sketch_ready rg → scan_ready rg ts st v → max_row_group_row st = rg_count rg → (v * SVS < rg_count rg)%nat →
  let R := filter (λ r, scan_wanted rg ts t (v * SVS + r)) (seq 0 (rows_in (rg_count rg) v)) in
  ∃ rg' st' b, CheckSketchSegments rg ts st = Ok (rg', st', b) ∧ same_rows rg rg' ∧ same_scan st st' ∧
    if (b : bool) then scan_ready rg' ts st' v ∧
      ∃ c m, rg_columns rg' !! k = Some c ∧ vector_sels c !! v = Some m ∧ count m = length R ∧ selection (sel_vec m) (length R) (Z.of_nat <$> R)
    else scan_ready rg' ts st' (S v) ∧ R = [].
Proof.
  intros Hrg Hst Hrows Hv R. unfold CheckSketchSegments. rewrite Hfilters, filter_entries. cbn [check_sketches]. rewrite (vget_lookup _ _ _ Hcolumn). cbn [mbind result_bind].
  destruct (sk_column _ Hrg) as (c & Hc & Hflag & Hk). rewrite (GetColumn_ok rg k c Hc). cbn [mbind result_bind].
  destruct (ro_columns _ _ _ (sk_group _ Hrg) k c Hc) as (Hfine & Hstart & Hcount). pose proof Hst as [Hidx Hat _ Hmax].
  destruct (scans_at_lookup _ _ _ _ _ _ _ Hat Hcolumn Hc) as (cs & Hcs & Hcur). rewrite (vget_lookup _ _ _ Hcs), Hidx. cbn [mbind result_bind].
  destruct (Standard_CheckSketch_ok null_value uninitialised W c cs p P t v Hfine Hflag Hk Htests Hcur ltac:(by rewrite Hcount)) as (c' & b & -> & Hsame & Hb).
  rewrite Hcount, (vector_wanted rg c v Hrg Hc) in Hb. fold R in Hb. cbn [mbind result_bind].
  rewrite vset_lt by (by eapply lookup_lt_Some). cbn [mbind result_bind]. set (rg1 := set_columns rg _).
  assert (same_rows rg rg1) as Hs1 by (by eapply set_column_same).
  assert (rg_columns rg1 !! k = Some c') as Hc1 by (apply list_lookup_insert_eq; by eapply lookup_lt_Some).
  destruct b; cbn [negb].
  { eexists rg1, st, true. split_and!; [done | done | done | by eapply same_ready|]. destruct Hb as (m & Hm). by exists c', m. }
  destruct Hb as (HR & j & s & Hj & Hs). unfold target_vector. cbn [GetFilterScanCount comparison_filter]. unfold current_segment. rewrite Hj.
  rewrite (sm_base _ _ Hsame), (segment_at_ok (sd_base c) j s Hs). cbn [mbind result_bind].
  assert (cd_start (sd_base c) + S v * SVS ≤ seg_start s + seg_count s ∧ seg_start s + seg_count s ≤ cd_start (sd_base c) + cd_count (sd_base c))%nat as [Hend Hlast].
  { pose proof Hfine as [H Hc2]. pose proof (segment_end _ _ (sd_base c) j s (so_base _ _ _ _ _ _ _ _ _ Hc2) Hs) as [_ He]. split; [|lia].
    destruct (ck_inside _ _ _ _ Hk v ltac:(by rewrite Hcount)) as [(r & x & Hr & Hx & HP)|Hin].
    - exfalso. rewrite Hcount in Hr. assert (r ∈ R) as Hmem.
      { apply list_elem_of_filter. rewrite (wanted_passing rg c) by (done || unfold rows_in in Hr; lia). unfold passing. rewrite Hx, HP. split; [done|]. apply elem_of_seq. lia. }
      rewrite HR in Hmem. by apply elem_of_nil in Hmem.
    - apply (Hin j s Hs). destruct Hcur as (Hcb & _ & Hrow). destruct (Hrow ltac:(lia)) as (_ & _ & Hri & _). unfold cursor in Hcb. rewrite Hj in Hcb.
      destruct Hcb as (s' & Hs' & Hle). simplify_eq. lia. }
  change (rg_start rg1) with (rg_start rg). set (target := ((_ - rg_start rg) / SVS)%nat).
  assert (v < target)%nat as Hlt.
  { unfold target. apply Nat.le_succ_l, Nat.div_le_lower_bound; [pose proof vector_size_pos; lia|].
    destruct (Nat.leb_spec (max_row st) (seg_start s + seg_count s)); nia. }
  rewrite (proj2 (Nat.eqb_neq v target)), (proj2 (Nat.ltb_lt v target)) by lia.
  destruct (NextVector_ok null_value uninitialised rg1 ts st v) as (st' & -> & N1 & N2 & N4); [by eapply same_rowgroup_ok, Hrg | by eapply same_scans_at|]. cbn [mbind result_bind].
  exists rg1, st', false. split_and!; [done | done | done | | done]. split; [lia | done | |].
  - rewrite (ss_rows _ _ N2), Hrows. by rewrite (sg_count _ _ Hs1).
  - rewrite (ss_rows _ _ N2), (ss_max _ _ N2), (sg_start _ _ Hs1). done.
Qed.
(** The filter step takes the selection of the sketch. *)
Lemma sketch_filters_ok rg st v a c m R count sel :
  sketch_ready rg → scan_ready rg ts st v → (v * SVS < rg_count rg)%nat → order_ok ts a → rg_columns rg !! k = Some c → vector_sels c !! v = Some m →
  R = filter (λ r, scan_wanted rg ts t (v * SVS + r)) (seq 0 (rows_in (rg_count rg) v)) →
  SelectionVector.count m = length R → selection (sel_vec m) (length R) (Z.of_nat <$> R) →
  ∃ fs, run_filters null_value uninitialised true rg ts t v {[ i := comparison_filter W p ]} (permutation a) (mkFilterState (column_scans st) fresh sel count []) = Ok fs ∧
    filtered rg ts t v (rows_in (rg_count rg) v) fs R.
Proof.
  intros Hrg Hst Hv Ha Hc Hm HR Hcount Hsel. unfold run_filters.
  assert (permutation a = [i]) as ->.
  { specialize (Ha _ Hfilters). pose proof (ad_perm _ _ Ha) as Hp. rewrite filter_entries in Hp. by apply Permutation_singleton_r in Hp. }
  assert (base.size ({[ i := comparison_filter W p ]} : TableFilterSet) = 1)%nat as -> by apply (map_size_singleton (M := gmap nat)).
  change (mapR (vget [i]) (seq 0 1)) with (Ok [i]). cbn [mbind result_bind]. change (imap pair [i]) with [(0%nat, i)]. cbn [foldM]. unfold apply_sketch.
  rewrite (vget_lookup _ _ _ Hcolumn). cbn [mbind result_bind]. rewrite (GetColumn_ok rg k c Hc). cbn [mbind result_bind fs_scans fs_chunk].
  destruct (scans_at_lookup _ _ _ _ _ _ _ (sr_scans _ _ _ _ Hst) Hcolumn Hc) as (cs & Hcs & Hcur). rewrite (vget_lookup _ _ _ Hcs). cbn [mbind result_bind].
  destruct Hfresh as [Hlen Hch]. destruct (lookup_lt_is_Some_2 fresh i) as [res Hres]; [rewrite Hlen; by eapply lookup_lt_Some|]. rewrite (vget_lookup _ _ _ Hres). cbn [mbind result_bind].
  destruct (Hch i res Hres) as (flat & -> & Hflat). cbn [flat_vector mbind result_bind].
  destruct (column_ready null_value uninitialised rg ts t v (rows_in (rg_count rg) v) (sk_group _ Hrg) Hv ltac:(done) i k c cs Hcolumn Hc Hcur flat Hflat) as (cs' & flat' & n & -> & Hcur' & Hreads).
  cbn [mbind result_bind]. rewrite !vset_lt by (by eapply lookup_lt_Some). cbn [mbind result_bind]. rewrite (vget_lookup _ _ _ Hm). cbn [mbind result_bind Nat.eqb Nat.sub fs_chunk fs_sel fs_scans fs_count fs_mask].
  rewrite filter_entries. cbn [fmap list_fmap fst foldM]. rewrite (vget_lookup _ _ (RV_flat flat')) by (apply list_lookup_insert_eq; by eapply lookup_lt_Some). cbn [mbind result_bind Vector_Slice].
  rewrite vset_lt by (rewrite length_insert; by eapply lookup_lt_Some). cbn [mbind result_bind]. eexists. split; [done|].
  assert (∀ j, has_filter ts j = bool_decide (j = i)) as Hhas.
  { intros j. unfold has_filter. rewrite Hfilters. apply bool_decide_ext. destruct (decide (j = i)) as [->|Hne].
    - split; [done|]. intros _. exists (comparison_filter W p). apply (lookup_singleton_eq (M := gmap nat)).
    - split; [|done]. intros [f Hf]. by apply (lookup_singleton_Some (M := gmap nat)) in Hf as [? _]. }
  split; cbn [fs_scans fs_chunk fs_sel fs_count].
  - eapply scans_at_step; [apply Hst | exact Hcolumn | exact Hc | |]; cbn.
    + by rewrite Hhas, bool_decide_true.
    + intros j Hj. by rewrite Hhas, bool_decide_false.
  - by rewrite !length_insert.
  - intros j res Hj. rewrite Hhas. rewrite list_insert_insert_eq in Hj. case_bool_decide as Hji.
    + subst j. rewrite list_lookup_insert_eq in Hj by (by eapply lookup_lt_Some). injection Hj as <-. exists flat'. split; [done|]. by exists k, c.
    + rewrite list_lookup_insert_ne in Hj by done. by apply (Hch j).
  - rewrite Hcount. exact Hsel.
  - by rewrite HR.
Qed.

(** What a call returns that starts at vector [v]. *)
Definition sketch_outcome (rg : RowGroup) (st0 : CollectionScanState) (v : nat) (e : result (RowGroup * CollectionScanState * AdaptiveFilter * list ResultVector * nat)) : Prop :=
  ∃ rg' st a chunk n, e = Ok (rg', st, a, chunk, n) ∧ same_rows rg rg' ∧ order_ok ts a ∧ same_scan st0 st ∧
    ((n = O ∧ ∀ r, (v * SVS ≤ r < rg_count rg)%nat → scan_wanted rg ts t r = false) ∨
     ∃ w R, (v ≤ w)%nat ∧ (w * SVS < rg_count rg)%nat ∧ scan_ready rg' ts st (S w) ∧ n = length R ∧ (0 < n)%nat ∧
       R = filter (λ r, scan_wanted rg ts t (w * SVS + r)) (seq 0 (rows_in (rg_count rg) w)) ∧ chunk_shows rg ts t w chunk R ∧
       ∀ r, (v * SVS ≤ r < w * SVS)%nat → scan_wanted rg ts t r = false).

Lemma sketch_outcome_skip rg st0 v e :
  filter (λ r, scan_wanted rg ts t (v * SVS + r)) (seq 0 (rows_in (rg_count rg) v)) = [] → sketch_outcome rg st0 (S v) e → sketch_outcome rg st0 v e.
Proof.
  intros Hno (rg' & st & a & chunk & n & E & Hs & Ha & Hm & H). assert (∀ r, (v * SVS ≤ r < S v * SVS)%nat → (r < rg_count rg)%nat → scan_wanted rg ts t r = false) as Hv
    by exact (empty_vector rg ts t (rg_count rg) v Hno).
  exists rg', st, a, chunk, n. split_and!; try done. destruct H as [(-> & H)|(w & R & H1 & H2 & H3 & H4 & H5 & H6 & H7 & H8)]; [left | right].
  - split; [done|]. intros r Hr. destruct (decide (r < S v * SVS)%nat); [apply Hv; lia | apply H; lia].
  - exists w, R. split_and!; try done; [lia|]. intros r Hr. destruct (decide (r < S v * SVS)%nat); [apply Hv; lia | apply H8; lia].
Qed.

Lemma sketch_outcome_same rg rg1 st0 v e : same_rows rg rg1 → sketch_outcome rg1 st0 v e → sketch_outcome rg st0 v e.
Proof.
  intros Hs (rg' & st & a & chunk & n & E & Hs' & Ha & Hm & H). exists rg', st, a, chunk, n. split_and!; [done | by etrans | done | done|].
  rewrite (sg_count _ _ Hs) in H. destruct H as [(-> & H)|(w & R & H1 & H2 & H3 & H4 & H5 & H6 & H7 & H8)]; [left | right].
  - split; [done|]. intros r Hr. rewrite <- (same_wanted rg rg1 Hs). by apply H.
  - exists w, R. split_and!; try done.
    + rewrite H6. apply filter_ext_in. intros r _. by rewrite (same_wanted rg rg1 Hs).
    + by eapply same_shows.
    + intros r Hr. rewrite <- (same_wanted rg rg1 Hs). by apply H8.
Qed.

Lemma sketch_loop_ok fuel rg st0 st v a :
  transaction_ok t → sketch_ready rg → scan_ready rg ts st v → same_scan st0 st → max_row_group_row st0 = rg_count rg → order_ok ts a → (rg_count rg ≤ (v + fuel) * SVS)%nat →
  sketch_outcome rg st0 v (scan_loop null_value uninitialised fuel TABLE_SCAN_REGULAR rg ts a measurement t st fresh).
Proof.
  intros Htxn. revert rg st v. induction fuel as [|fuel IH]; intros rg st v Hrg Hst Hsame Hrows Ha Hfuel; cbn [scan_loop]; rewrite (sr_index _ _ _ _ Hst), (ss_rows _ _ Hsame), Hrows;
    destruct (Nat.leb_spec (rg_count rg) (v * SVS)) as [Hdone|Hmore].
  1,3: exists rg, st, a, fresh, O; split_and!; try done; left; split; [done | lia].
  1: lia.
  rewrite (sk_flags _ Hrg). cbn [mbind result_bind].
  destruct (CheckSketchSegments_ok rg st v Hrg Hst ltac:(by rewrite (ss_rows _ _ Hsame)) Hmore) as (rg1 & st1 & b & -> & Hs1 & Hm1 & Hb). cbn [mbind result_bind].
  pose proof (sketch_ready_same rg rg1 Hs1 Hrg) as Hrg1. apply (sketch_outcome_same rg rg1); [done|].
  pose proof (same_scan_trans _ _ _ Hsame Hm1) as Hsame1. rewrite <- (sg_count _ _ Hs1) in Hrows, Hmore, Hfuel |- *.
  assert (filter (λ r, scan_wanted rg1 ts t (v * SVS + r)) (seq 0 (rows_in (rg_count rg1) v)) =
    filter (λ r, scan_wanted rg ts t (v * SVS + r)) (seq 0 (rows_in (rg_count rg) v))) as EW.
  { rewrite (sg_count _ _ Hs1). apply filter_ext_in. intros r _. by rewrite (same_wanted rg rg1 Hs1). }
  destruct b; cbn [negb].
  2: { destruct Hb as [Hst1 HR]. rewrite <- EW in HR. apply sketch_outcome_skip; [done|]. apply IH; try done. lia. }
  destruct Hb as (Hst1 & c & m & Hc & Hm & Hcount & Hsel). rewrite <- EW in Hcount, Hsel. set (R := filter _ _) in Hcount, Hsel.
  rewrite (sr_index _ _ _ _ Hst1). change (Nat.min SVS (rg_count rg1 - v * SVS)) with (rows_in (rg_count rg1) v). set (n := rows_in (rg_count rg1) v).
  assert (0 < n)%nat as Hn by (unfold n, rows_in; pose proof vector_size_pos; lia).
  destruct (GetSelVector_ok null_value uninitialised rg1 t v n (sk_group _ Hrg1) Htxn Hmore ltac:(done)) as (sel & cnt & -> & Hcnt & _). cbn [mbind result_bind].
  assert (cnt = n) as ->.
  { rewrite Hcnt, filter_all, length_seq; [done|]. intros r [_ Hr]%elem_of_seq. rewrite (sk_visible _ Hrg1); [done|]. unfold n, rows_in in Hr. lia. }
  cbn [reads_versions andb]. rewrite (proj2 (Nat.eqb_neq n 0)) by lia. rewrite Nat.eqb_refl, Hfilters. cbn [andb]. rewrite bool_decide_false by done.
  destruct (sketch_filters_ok rg1 st1 v a c m R n SelectionVector_null Hrg1 Hst1 Hmore Ha Hc Hm eq_refl Hcount Hsel) as (fs & -> & Hf). cbn [mbind result_bind].
  destruct (filtered_bound rg1 ts t v n Hmore ltac:(done) fs R Hf) as (Hfc & _ & _).
  assert (Hready : ∀ scans, scans_at rg1 ids scans (λ _, S v) → scan_ready rg1 ts (next_index (set_scans st1 scans)) (S v)).
  { intros scans Hs. destruct Hst1 as [H1 _ H3 H4]. split; [cbn; lia | exact Hs | exact H3 | exact H4]. }
  destruct (Nat.eqb_spec (fs_count fs) 0) as [Hz|Hz].
  - destruct (skip_unfiltered_ok null_value uninitialised rg1 ts v (sk_group _ Hrg1) (fs_scans fs)) as (scans & -> & Hs); [apply Hf|]. cbn [mbind result_bind].
    apply sketch_outcome_skip; [fold R; apply nil_length_inv; congruence|]. apply IH; try done; [by apply Hready | by eapply same_scan_trans; [exact Hsame1 | split] | lia].
  - destruct (scan_unfiltered_ok null_value uninitialised rg1 ts t v n (sk_group _ Hrg1) Hmore ltac:(done) fs R st1 Hf (sr_index _ _ _ _ Hst1)) as (scans & chunk & -> & Hs & Hshow). cbn [mbind result_bind].
    assert (base.size ({[ i := comparison_filter W p ]} : TableFilterSet) = 1)%nat as -> by apply (map_size_singleton (M := gmap nat)). cbn [Nat.ltb Nat.leb mbind result_bind].
    eexists _, _, _, _, _. split; [done|]. split_and!; [done | done | by eapply same_scan_trans; [exact Hsame1 | split]|]. right.
    exists v, R. split_and!; [done | done | by apply Hready | done | lia | done | done | lia].
Qed.
End Sketched.

(** * Appends with sketches *)

(** The sketches of a column without updates cover its vectors; when the last
    vector is full, the next append begins a new one. *)
Record sketches_cover (W : Z) (c : StandardColumnData) : Prop := {
  sc_width : W = 32 ∨ W = 64;
  sc_type : InternalType (cd_type (sd_base c)) = sketch_pt W;
  sc_updates : never_updated c;
  sc_vectors : ∀ t v, (v * SVS < cd_count (sd_base c))%nat → vector_sketched W c t v (rows_in (cd_count (sd_base c)) v);
  sc_full : ∀ m, cd_count (sd_base c) = (m * SVS)%nat → length (segment_sketches c) = m ∧ length (vector_sels c) = m;
}.

(** The first [n] rows of the vector: [l], numbers of [W] bits that are not
    negative, more than 256 different ones, in the order of the data. *)
Record sketchable (W : Z) (d : UnifiedVectorFormat Z) (n : nat) (l : list Z) : Prop := {
  sb_length : length l = n;
  sb_rows : ∀ i x, l !! i = Some x → uni_data d !! i = Some x ∧ appended_value d i = Some (Some x) ∧ 0 ≤ x < 2 ^ W;
  sb_distinct : ∃ l', NoDup l' ∧ l' ⊆ l ∧ (256 < length l')%nat;
}.

Lemma sketchable_sketch W d n l :
  W = 32 ∨ W = 64 → sketchable W d n l → (0 < n ≤ SVS)%nat →
  ∃ sk cs, mapR (λ i, (x ← vget (uni_data d) i; Ok (wrapu W x))) (seq 0 n) = Ok l ∧ ColumnSketchWrapper_new W l = Ok sk ∧
    dynamic_cast_sketch W sk = Some cs ∧ sketch_ok 8 l cs ∧ need_check_base cs = true.
Proof.
  intros HW [Hl Hr (l' & Hnd & Hsub & Hmany)] Hn.
  assert (mapR (λ i, (x ← vget (uni_data d) i; Ok (wrapu W x))) (seq 0 n) = Ok l) as E.
  { destruct (mapR_Forall2 (λ i, (x ← vget (uni_data d) i; Ok (wrapu W x))) (λ i x, l !! i = Some x) (seq 0 n)) as (l2 & E & HF).
    - apply Forall_forall. intros i [_ Hi]%elem_of_seq. destruct (lookup_lt_is_Some_2 l i) as [x Hx]; [lia|]. destruct (Hr i x Hx) as (Hd & _ & Hb). exists x.
      rewrite (vget_lookup _ _ _ Hd). cbn [mbind result_bind]. by rewrite wrapu_small.
    - rewrite E. f_equal. apply list_eq. intros i. pose proof (Forall2_length _ _ _ HF) as H2. rewrite length_seq in H2.
      destruct (l2 !! i) as [x|] eqn:Ei.
      + destruct (Forall2_lookup_r _ _ _ _ _ HF Ei) as (j & Hj & Hx). apply lookup_seq in Hj as [-> _]. done.
      + apply lookup_ge_None in Ei. symmetry. apply lookup_ge_None. lia. }
  assert (l ≠ []) as Hne by (intros ->; cbn in Hl; lia).
  assert (Z.of_nat (length l) < 2 ^ 32) as Hsmall by (assert (Z.of_nat SVS < 2 ^ 32) by (by vm_compute); lia).
  destruct (ColumnSketch_new_ok l Hne Hsmall 8 ltac:(lia)) as (cs & Hcs & Hok).
  unfold ColumnSketchWrapper_new. rewrite Hcs. cbn [mbind result_bind]. eexists _, cs. split_and!; [done | done | by destruct HW as [-> | ->] | done|].
  rewrite (sk_need_check _ _ _ Hok). apply negb_true_iff, Nat.leb_gt. pose proof (sk_codes _ _ _ Hok) as [_ Hc]. change (2 ^ 8) with 256 in Hc.
  enough (length l' ≤ length (remove_dups (std_sort l)))%nat by lia. apply submseteq_length, NoDup_submseteq; [done|].
  intros x Hx. apply elem_of_remove_dups. unfold std_sort. rewrite (merge_sort_Permutation Z.le l). by apply Hsub.
Qed.

Lemma Standard_Append_sketches F c st d n c' st' :
  Standard_Append F c st d n = Ok (c', st') →
  is_sketched c' = is_sketched c ∧ segment_sketches c' = segment_sketches c ∧ vector_sels c' = vector_sels c.
Proof.
  unfold Standard_Append, Standard_AppendData. destruct (cd_stats (sd_base c)) as [s|]; [|done].
  intros ([[c1 s1] st1] & ([[b1 s2] i1] & _ & ([[b2 s3] i2] & _ & [= <- <- <-])%bind_Ok_inv)%bind_Ok_inv & [= <- <-])%bind_Ok_inv. done.
Qed.

Section SketchedAppends.
Context (null_value : PhysicalType → Z) (uninitialised : Z).
Abbreviation codec := (column_codec null_value uninitialised).
Abbreviation appended := (column_appended null_value uninitialised).

(** [sketch_column]: the new vector is covered as well. *)
Lemma sketch_column_ok W c d n l m c1 st :
  sketches_cover W c → cd_count (sd_base c) = (m * SVS)%nat → sketchable W d n l → (0 < n ≤ SVS)%nat →
  Standard_Append (codec c) c st d n = Ok (c1, append_at c1) → appended n c d c1 →
  ∃ c2, sketch_column W n c1 d = Ok c2 ∧ sd_base c2 = sd_base c1 ∧ sd_validity c2 = sd_validity c1 ∧ is_sketched c2 = true ∧ sketches_cover W c2.
Proof.
  intros [HW Hty Hu Hvec Hfull] Hcount Hd Hn E [_ Ety [_ U1 U2] Hcnt Hold Hnew]. destruct (Standard_Append_sketches _ _ _ _ _ _ _ E) as (_ & Es & El).
  destruct (sketchable_sketch W d n l HW Hd Hn) as (sk & cs & Em & Esk & Hcast & Hok & Hneed). unfold sketch_column. rewrite Em. cbn [mbind result_bind].
  rewrite Esk. cbn [mbind result_bind]. eexists. split; [done|]. cbn [sd_base sd_validity is_sketched]. split_and!; [done | done | done|].
  set (c2 := mkStandard _ _ _ _ _). destruct (Hfull m Hcount) as [L1 L2].
  assert (never_updated c2) as Hu2 by (destruct Hu; split; cbn; congruence).
  assert (∀ t row, cell false c2 t row = stored_cell c1 row) as Hcell by (intros t row; by rewrite stored_cell_ok).
  split; cbn [c2 sd_base]; [done | by rewrite Ety | done | |].
  - intros t v Hv. cbn [c2 sd_base] in *. rewrite Hcnt, Hcount in *. destruct (decide (v < m)%nat) as [Hlt|Hge].
    + destruct (Hvec t v ltac:(nia)) as (base & cs0 & sk0 & E1 & E2 & E3 & E4 & E5 & E6 & E7). exists base, cs0, sk0.
      assert (rows_in (m * SVS) v = SVS ∧ rows_in (m * SVS + n) v = SVS) as [R1 R2] by (unfold rows_in; split; nia).
      rewrite R1 in E5. rewrite R2. split_and!; try done.
      * cbn [c2 segment_sketches]. rewrite Es. by apply lookup_app_l_Some.
      * cbn [c2 vector_sels]. rewrite El. apply lookup_lt_is_Some. rewrite length_app. apply lookup_lt_is_Some in E6. lia.
      * intros r x Hr. specialize (E7 r x Hr). rewrite stored_cell_ok in E7 by done. rewrite Hcell, Hold; [done|]. apply lookup_lt_Some in Hr. nia.
    + assert (v = m) as -> by nia. exists l, cs, (sketch_Copy sk). assert (rows_in (m * SVS + n) m = n) as -> by (unfold rows_in; lia).
      assert (dynamic_cast_sketch W (sketch_Copy sk) = Some cs) as Hcast' by (by destruct sk). split_and!; try done.
      * cbn [c2 segment_sketches]. rewrite Es, lookup_app_r by lia. by rewrite L1, Nat.sub_diag.
      * apply Hd.
      * cbn [c2 vector_sels]. rewrite El. apply lookup_lt_is_Some. rewrite length_app. cbn. lia.
      * intros r x Hr. destruct (sb_rows _ _ _ _ Hd r x Hr) as (_ & Ha & _). rewrite Hcell, Hnew; [done|]. apply lookup_lt_Some in Hr. rewrite (sb_length _ _ _ _ Hd) in Hr. done.
  - intros m' Hm'. rewrite Hcnt, Hcount in Hm'. assert (m' = S m) as -> by nia. cbn [c2 segment_sketches vector_sels]. rewrite Es, El, !length_app, L1, L2. cbn. lia.
Qed.

(** The columns of a row group whose vectors are all sketched. *)
Definition group_sketched (rg : RowGroup) : Prop := Forall (λ c, ∃ W, sketches_cover W c) (rg_columns rg).

Lemma column_appended_same n c d c1 c2 :
  sd_base c2 = sd_base c1 → sd_validity c2 = sd_validity c1 → appended n c d c1 → appended n c d c2.
Proof.
  destruct c1 as [b1 v1 f1 s1 l1], c2 as [b2 v2 f2 s2 l2]. cbn [sd_base sd_validity]. intros -> -> [(H & [[] ? ? ? ?] & []) Hty [A1 A2 A3] Hc Hold Hnew].
  split; [|exact Hty | by split | exact Hc | exact Hold | exact Hnew]. exists H. split; [split; [by split|..] | split]; assumption.
Qed.

(** [sketchAppend] on all columns: the rows are appended, and every vector has
    a sketch. *)
Definition sketch_step (append_count : nat) (sketch_col_idxs : list Z) (sketch_idx i : nat) (c : StandardColumnData) (d : UnifiedVectorFormat Z)
    : result (nat * StandardColumnData) :=
  if bool_decide (sketch_col_idxs !! sketch_idx = Some (Z.of_nat i)) then
    c ← match InternalType (cd_type (sd_base c)) with
        | INT32 | UINT32 => sketch_column 32 append_count c d
        | INT64 | UINT64 => sketch_column 64 append_count c d
        | _ => Ok c
        end;
    Ok (S sketch_idx, c)
  else Ok (sketch_idx, c).

Lemma sketch_columns_ok start m n columns chunk i total :
  columns_open null_value uninitialised start (m * SVS) columns → Forall (λ c, ∃ W, sketches_cover W c) columns → rooms n columns →
  Forall2 (λ c d, values_ok d n ∧ ∀ W, sketches_cover W c → ∃ l, sketchable W d n l) columns chunk → (0 < n ≤ SVS)%nat → (m * SVS + n ≤ ROW_GROUP_VECTOR_COUNT * SVS)%nat →
  (i + length columns = total)%nat →
  ∃ columns' grown, append_columns null_value uninitialised (sketch_step n (Z.of_nat <$> seq 0 total)) i i columns (append_at <$> columns) chunk n =
      Ok (columns', append_at <$> columns', grown) ∧
    Forall3 (appended n) columns chunk columns' ∧ Forall (λ c, is_sketched c = true ∧ ∃ W, sketches_cover W c) columns'.
Proof.
  intros Hc Hs Hr HF Hn Hm Htot. revert chunk i Htot HF. induction columns as [|c columns IH]; intros chunk i Htot HF;
    [inversion HF; subst; exists [], O; split_and!; [done | constructor | constructor]|].
  inversion HF as [|? d ? chunk' [Hd Hsk] HF']; subst. apply Forall_cons in Hc as ((Ho & Hst & Hcnt) & Hc), Hs as [[W Hcov] Hs], Hr as [Hr1 Hr].
  destruct (Hsk W Hcov) as [l Hl]. cbn [append_columns fmap list_fmap].
  destruct (column_append_ok null_value uninitialised c d n Ho Hd Hr1 ltac:(lia)) as (c1 & E & Ha). rewrite E. cbn [mbind result_bind].
  destruct (sketch_column_ok W c d n l m c1 _ Hcov Hcnt Hl Hn E Ha) as (c2 & E2 & S1 & S2 & Hflag & Hcov2).
  assert (append_at c2 = append_at c1) as Eat by (unfold append_at; by rewrite S1, S2).
  assert (sketch_step n (Z.of_nat <$> seq 0 (i + length (c :: columns))) i i c1 d = Ok (S i, c2)) as ->.
  { unfold sketch_step. rewrite bool_decide_true by (rewrite list_lookup_fmap, lookup_seq_lt by (cbn; lia); done).
    rewrite (ca_type _ _ _ _ _ _ Ha), (sc_type _ _ Hcov). unfold sketch_pt. destruct (sc_width _ _ Hcov) as [-> | ->]; cbn [Z.eqb Pos.eqb] in *; by rewrite E2. }
  cbn [mbind result_bind]. destruct (IH Hc Hs Hr chunk' (S i) ltac:(cbn; lia) HF') as (columns' & grown & -> & H1 & H2). cbn [mbind result_bind].
  exists (c2 :: columns'), (column_size c2 - column_size c + grown)%nat. cbn [fmap list_fmap]. rewrite Eat. split_and!; [done | | ].
  - constructor; [by eapply column_appended_same | done].
  - constructor; [split; [done | by exists W] | done].
Qed.

Lemma sketchAppend_ok rg chunk n m off :
  group_open null_value uninitialised rg → group_sketched rg → rg_count rg = (m * SVS)%nat → rooms n (rg_columns rg) →
  Forall2 (λ c d, values_ok d n ∧ ∀ W, sketches_cover W c → ∃ l, sketchable W d n l) (rg_columns rg) chunk → (0 < n ≤ SVS)%nat →
  (rg_count rg + n ≤ ROW_GROUP_VECTOR_COUNT * SVS)%nat →
  ∃ rg', sketchAppend null_value uninitialised (Z.of_nat <$> seq 0 (length (rg_columns rg))) n rg (mkAppendState (append_at <$> rg_columns rg) off) chunk =
      Ok (rg', mkAppendState (append_at <$> rg_columns rg') (off + n)) ∧
    rg_start rg' = rg_start rg ∧ rg_count rg' = rg_count rg ∧ version_info rg' = version_info rg ∧
    Forall3 (appended n) (rg_columns rg) chunk (rg_columns rg') ∧ Forall (λ c, is_sketched c = true) (rg_columns rg') ∧ group_sketched rg'.
Proof.
  intros [Hc _ _] Hs Hcnt Hr HF Hn Hm. rewrite Hcnt in Hc, Hm. unfold sketchAppend, append_chunk. cbn [append_states offset_in_row_group].
  destruct (sketch_columns_ok _ m n (rg_columns rg) chunk 0 (length (rg_columns rg)) Hc Hs Hr HF Hn Hm eq_refl) as (columns' & grown & E & H1 & H2).
  unfold sketch_step in E. rewrite E. cbn [mbind result_bind]. eexists (mkRowGroup _ _ columns' _ _). split; [done|]. cbn [rg_start rg_count version_info rg_columns].
  split_and!; [done | done | done | done | |]; eapply Forall_impl; try exact H2; cbn beta; tauto.
Qed.
End SketchedAppends.
