(* ===== verification/StorageSample.v ===== *)
(** A small table, used by the witnesses of the storage theorems: one INTEGER
    column per row group, filled through [Standard_Append]. *)
From S2P Require Import Prelude Bits SelectionVector Types Stats NumericStats NumericFacts BaseStatistics StatsFacts StatsCreate ColumnSketch ValidityMask MaskFacts ChunkInfo ChunkFacts RowVersionManager VersionFacts VersionAppend.
From S2P Require Import TableFilter UpdateSegment UpdateFacts UpdateLaws UncompressedSegment UncompressedAppend SegmentLaws SegmentTree.
From S2P Require Import ColumnData ColumnFacts ColumnAppend StandardColumn StandardFacts AdaptiveFilter RowGroup RowGroupFacts RowGroupScan RowGroupLoop RowGroupCollection CollectionFacts RowGroupAppend.
From S2P Require Import SketchFacts StatsProps SketchConjunction SketchScan.

#[local] Opaque ROW_GROUP_VECTOR_COUNT.

Abbreviation INT := (LT INTEGER).
Definition sample_null : PhysicalType → Z := λ _, 0.

Lemma integer_type : number_type INT.
Proof. by apply number_type_intro. Qed.

Abbreviation sample_codec := (FixedSizeGetFunction (InternalType INT) 0 0 (type_size (InternalType INT))).
Abbreviation sample_growable := (growable INT 0 0 (type_size (InternalType INT)) (nt_ok _ integer_type) (nt_stats _ integer_type) (nt_extremes _ integer_type) (nt_size _ integer_type)).
Abbreviation sample_zonemaps := (zonemaps_ok INT 0 0 (type_size (InternalType INT)) (nt_ok _ integer_type) (nt_stats _ integer_type) (nt_extremes _ integer_type) (nt_size _ integer_type)).

Definition empty_stats (ty : LogicalType) : BaseStatistics := match CreateEmpty ty with Ok s => s | Throw _ => mkStats ty false false 0 (D_numeric (mkNum false false None None)) [] end.

(** A column of one empty segment, of [size] bytes for the values and
    [mask_size] for the validity. *)
Definition empty_column_of (size mask_size start : nat) : StandardColumnData :=
  let segment {A} ty size (block : list A) := mkTree [mkSegmentNode start (mkColumnSegment TRANSIENT start 0 size (empty_stats ty) block)] true [] in
  mkStandard (mkColumn INT start 0 (segment INT size (new_block sample_codec size)) (Some (empty_stats INT)) None size)
    (mkColumn (LT VALIDITY) start 0 (segment (LT VALIDITY) mask_size (new_block ValidityGetFunction mask_size)) None None mask_size) false [] [].

(** Room for 16 values and 2048 validity bits. *)
Definition empty_column : nat → StandardColumnData := empty_column_of 64 256.

Lemma empty_growable size mask_size start :
  sample_growable (empty_column_of size mask_size start) ∧ sample_zonemaps (empty_column_of size mask_size start).
Proof.
  destruct (number_new INT 0 (type_size (InternalType INT)) (nt_ok _ integer_type) (nt_stats _ integer_type) (nt_extremes _ integer_type) (nt_size _ integer_type)) as (sz & s & _ & E & Hnew & _ & _).
  destruct validity_new as (szv & sv & _ & Ev & Hnewv & _ & _).
  assert (empty_stats INT = s ∧ empty_stats (LT VALIDITY) = sv) as [Es Esv] by (unfold empty_stats; by rewrite E, Ev). unfold empty_column_of. rewrite Es, Esv.
  specialize (Hnew start size). specialize (Hnewv start mask_size). split; [split; [split|..]|split]; cbn [sd_base sd_validity cd_type cd_stats cd_updates cd_count cd_start]; try done.
  - split; [split | | ]; try done; [by repeat constructor | by constructor].
  - split; [split | | ]; try done; [by repeat constructor | by constructor].
  - lia.
  - exists s. split; [done|]. destruct Hnew as [_ _ (lo & hi & V) Ht [Hch _]]. split_and!; [exact Ht | exact Hch | by exists (Some lo), (Some hi)].
Qed.

(** ** Three rows: 5, NULL, 9 *)

Definition three_rows (a b : Z) : UnifiedVectorFormat Z :=
  mkUnified SelectionVector_null [a; 0; b] (mkMask (Some [MAX_ENTRY - 2]) SVS).

Lemma three_rows_ok a b : values_ok (three_rows a b) 3.
Proof.
  split.
  - exists 3%nat. split.
    + split; [constructor; [by vm_compute | done] | cbn; lia].
    + intros i Hi. exists i. by do 3 (destruct i as [|i]; [split; [done | lia]|]); lia.
  - intros i Hi _. by do 3 (destruct i as [|i]; [by eexists|]); lia.
Qed.

(** The column after an append of [n] rows. *)
Definition filled_column (size mask_size start : nat) (d : UnifiedVectorFormat Z) (n : nat) : StandardColumnData :=
  match Standard_Append sample_codec (empty_column_of size mask_size start) (0, 0)%nat d n with Ok (c, _) => c | Throw _ => empty_column start end.

Lemma filled_column_ok size mask_size start d n :
  values_ok d n → (n ≤ ROW_GROUP_VECTOR_COUNT * SVS)%nat → Z.of_nat n < 2 ^ 62 → let c := filled_column size mask_size start d n in
  column_open sample_null 0 c ∧ never_updated c ∧ cd_type (sd_base c) = INT ∧ cd_start (sd_base c) = start ∧ cd_count (sd_base c) = n ∧
  ∀ i, (i < n)%nat → stored_cell c i = appended_value d i.
Proof.
  intros Hd Hn Hz c0. destruct (empty_growable size mask_size start) as [Hg Hz'].
  destruct (column_append_ok sample_null 0 (empty_column_of size mask_size start) d n) as (c & E & [Ho Ht [Hs Hu Hv] Hc _ Hnew]).
  - exists integer_type. split; [exact Hg | exact Hz'].
  - exact Hd.
  - split; cbn; lia.
  - exact Hn.
  - assert (c0 = c) as ->; [|by split_and!]. unfold c0, filled_column. change (append_at (empty_column_of size mask_size start)) with (0, 0)%nat in E.
    change (column_codec sample_null 0 (empty_column_of size mask_size start)) with sample_codec in E. by rewrite E.
Qed.

Lemma filled_unsketched size mask_size start d n : is_sketched (filled_column size mask_size start d n) = false.
Proof.
  unfold filled_column, Standard_Append, Standard_AppendData. destruct (cd_stats (sd_base (empty_column_of size mask_size start))) as [s|]; [|done].
  destruct (AppendData sample_codec _ _ _ _ _) as [[[b1 s1] i1]|]; [|done]. cbn [mbind result_bind].
  destruct (AppendData ValidityGetFunction _ _ _ _ _) as [[[b2 s2] i2]|]; done.
Qed.

Definition sample_column (start : nat) (a b : Z) : StandardColumnData := filled_column 64 256 start (three_rows a b) 3.

Lemma sample_count : (3 ≤ ROW_GROUP_VECTOR_COUNT * SVS)%nat.
Proof. rewrite <- (Nat.mul_1_l 3). apply Nat.mul_le_mono; apply Nat.leb_le; by vm_compute. Qed.

(** What the sample columns hold. *)
Record sample_ok (start : nat) (a b : Z) (c : StandardColumnData) : Prop := {
  sa_open : column_open sample_null 0 c;
  sa_updates : never_updated c;
  sa_type : cd_type (sd_base c) = INT;
  sa_start : cd_start (sd_base c) = start;
  sa_count : cd_count (sd_base c) = 3%nat;
  sa_cells : stored_cell c <$> seq 0 3 = [Some (Some a); Some None; Some (Some b)];
}.

Lemma sample_column_ok start a b : sample_ok start a b (sample_column start a b).
Proof.
  destruct (filled_column_ok 64 256 start (three_rows a b) 3 (three_rows_ok a b) sample_count ltac:(lia)) as (H1 & H2 & H3 & H4 & H5 & H6).
  split; try done. change (seq 0 3) with [0; 1; 2]%nat. cbn [fmap list_fmap]. unfold sample_column. by rewrite !H6 by lia.
Qed.

(** A scan at the start of a column. *)
Definition start_scan (start : nat) : StandardScanState :=
  let column := mkColumnScan (Some 0%nat) start start true false false in mkStandardScan column column.

Lemma start_scan_ok start c : column_open sample_null 0 c → cd_start (sd_base c) = start → standard_cursor c (start_scan start) 0.
Proof.
  intros (H & [[C1 C2 _ _ C5 _ _ _] _ Nb Nv _] & _) <-. pose proof (column_chain _ _ _ C1) as Hb. pose proof (column_chain _ _ _ C2) as Hv.
  destruct (column_segments (sd_base c)) as [|s l] eqn:E; [done|]. destruct (column_segments (sd_validity c)) as [|s' l'] eqn:E'; [done|].
  destruct Hb as [Hb _], Hv as [Hv _]. cbn in Hb, Hv. split_and!.
  - exists s. split; [by rewrite E|]. cbn. lia.
  - exists s'. split; [by rewrite E'|]. cbn. lia.
  - intros _. cbn. split_and!; try done; lia.
Qed.

(** ** A table of two row groups *)

(** Transactions that started at time 10. *)
Definition scan_reader : TransactionData := mkTransaction (TRANSACTION_ID_START + 7) 10.

Lemma scan_reader_ok : transaction_ok scan_reader.
Proof. repeat split; done. Qed.

(** Versions of a row group whose row 2 was deleted at time 3. *)
Definition deleted_row : ChunkVectorInfo :=
  set_deleted (ChunkVectorInfo_new 0) (<[2%nat := 3]> (deleted (ChunkVectorInfo_new 0))) true.
Definition deleted_versions : RowVersionManager :=
  set_vector_info (RowVersionManager_new 3) (<[O := Some (VECTOR_INFO deleted_row)]> (vector_info (RowVersionManager_new 3))).

Lemma deleted_versions_wf : manager_wf 3 deleted_versions ∧ appendable 3 deleted_versions.
Proof.
  assert (vector_wf SVS deleted_row) as W.
  { destruct (vector_new_wf 0) as [A B C D]. split; [done | | done | done]. cbn [deleted_row set_deleted deleted]. by rewrite length_insert. }
  split.
  - apply manager_wf_insert; [apply manager_new_wf|]. cbn [chunk_wf]. eapply vector_wf_le; [exact W | unfold rows_in; lia].
  - split; cbn [deleted_versions set_vector_info vector_info RowVersionManager_new].
    + intros i o Hi Ho. destruct i as [|i]; [lia|]. rewrite list_lookup_insert_ne in Ho by done. by apply lookup_replicate in Ho as [-> _].
    + intros c Hc. destruct (3 / SVS)%nat as [|i]; [|rewrite list_lookup_insert_ne in Hc by done; by apply lookup_replicate in Hc as [? _]].
      apply list_lookup_insert_Some in Hc as [(_ & ? & _)|(? & _)]; done.
Qed.

(** The rows (5, NULL, 9) from row 0, the rows (7, NULL, 11) from row 3 of which
    the last is deleted. *)
Definition sample_group (start : nat) (a b : Z) (versions : option RowVersionManager) : RowGroup :=
  mkRowGroup start 3 [sample_column start a b] versions 64.
Definition first_group : RowGroup := sample_group 0 5 9 None.
Definition second_group : RowGroup := sample_group 3 7 11 (Some deleted_versions).

Lemma sample_group_open start a b versions :
  (∀ m, versions = Some m → manager_wf 3 m ∧ appendable 3 m) → group_open sample_null 0 (sample_group start a b versions).
Proof.
  intros Hv. destruct (sample_column_ok start a b) as [Ho _ _ Hs Hc _]. split; [|exact sample_count | exact Hv]. by constructor.
Qed.

(** The scan of the column and of the row ids, for the rows above 6. *)
Definition above_six : TableFilter := ConstantFilter COMPARE_GREATERTHAN (V_num INT (INT32, 6)).
Definition sample_filters : gmap nat TableFilter := {[ 0%nat := above_six ]}.
Definition sample_scan : TableScanState := mkTableScan [Some 0%nat; None] (Some sample_filters).
Definition sample_flat : FlatVector Z := mkFlat (replicate SVS 0) (mkMask None SVS).
Definition sample_chunk : list ResultVector := [RV_flat sample_flat; RV_flat sample_flat].

Lemma sample_flat_ok : fresh_vector sample_flat.
Proof. split; cbn [sample_flat flat_data flat_validity target_count]; [by rewrite length_replicate | done | done | done]. Qed.

Lemma sample_chunk_ok : fresh_chunk sample_scan sample_chunk.
Proof.
  split; [done|]. intros i res Hi. exists sample_flat. split; [by destruct i as [|[|i]]; try injection Hi as <- | exact sample_flat_ok].
Qed.

Lemma greater_filter_fine rg ts t i k c z :
  column_ids ts !! i = Some (Some k) → rg_columns rg !! k = Some c → column_open sample_null 0 c → never_updated c → cd_type (sd_base c) = INT →
  filter_fine rg ts t (i, ConstantFilter COMPARE_GREATERTHAN (V_num INT (INT32, z))).
Proof.
  intros Hi Hk Ho Hu Hty. exists k, c. cbn [fst snd]. rewrite Hty. split_and!; [done | done | | done | done | by apply (open_zones sample_null 0)].
  split; [done|]. left. split_and!; [done | by eexists _, _ | by intros x y; eexists].
Qed.

Lemma sample_group_fine start a b versions t :
  (∀ m, versions = Some m → manager_wf 3 m ∧ appendable 3 m) → group_fine sample_null 0 sample_scan t (sample_group start a b versions).
Proof.
  intros Hv. pose proof (sample_column_ok start a b) as [Ho Hu Hty _ _ _]. pose proof Ho as Hop. split.
  - apply open_ok. by apply sample_group_open.
  - intros filters [= <-]. change (map_to_list _) with [(0%nat, above_six)]. constructor; [|done]. by apply (greater_filter_fine _ _ _ _ 0 (sample_column start a b)).
  - intros i k Hi. destruct i as [|[|i]]; [|done..]. injection Hi as <-. by eexists.
  - unfold can_sketch. cbn [sample_scan column_ids GetColumn sample_group rg_columns]. cbn. unfold sample_column. by rewrite filled_unsketched.
Qed.

Definition sample_groups : list RowGroup := [first_group; second_group].

(** The second row group is not loaded yet. *)
Definition sample_table : RowGroupCollection := mkCollection (mkTree [mkSegmentNode 0 first_group] false [second_group]) 6 0 [INT] [empty_stats INT] 0.

Lemma sample_groups_fine t : Forall (group_fine sample_null 0 sample_scan t) sample_groups.
Proof.
  constructor; [by apply sample_group_fine|]. constructor; [|done]. apply sample_group_fine. intros m [= <-]. apply deleted_versions_wf.
Qed.

Lemma sample_table_ok : tree_fine 0 sample_groups (row_groups sample_table).
Proof. split; [|done]. by split; [by repeat constructor | | intros [?|?] |]. Qed.

Definition sample_order : AdaptiveFilter := AdaptiveFilter_new sample_filters 0 false.

Lemma sample_order_ok : order_ok sample_scan sample_order.
Proof. intros filters [= <-]. apply AdaptiveFilter_new_ok. Qed.

Lemma sample_measurement_ok m : measurement_ok sample_scan m.
Proof. intros filters [= <-]. change (base.size _) with 1%nat. lia. Qed.

(** ** A row group of 3000 rows *)

Definition many_rows : UnifiedVectorFormat Z := mkUnified SelectionVector_null (replicate 3000 7) (mkMask None 3000).

Lemma many_rows_ok : values_ok many_rows 3000.
Proof.
  assert (∀ i, unified_index many_rows i = i) as Hi by (intros i; unfold unified_index; cbn; lia). split.
  - exists 3000%nat. split; [done|]. intros i Hlt. by exists i.
  - intros i Hlt _. unfold unified_value. rewrite Hi. cbn [many_rows uni_data]. rewrite lookup_replicate_2 by done. by eexists.
Qed.

Definition long_column : StandardColumnData := filled_column (8 * SVS) 512 0 many_rows 3000.

Lemma long_count : (3000 ≤ ROW_GROUP_VECTOR_COUNT * SVS)%nat.
Proof. change 3000%nat with (2 * 1500)%nat. apply Nat.mul_le_mono; apply Nat.leb_le; by vm_compute. Qed.

Lemma long_column_ok :
  column_open sample_null 0 long_column ∧ never_updated long_column ∧ cd_type (sd_base long_column) = INT ∧ cd_start (sd_base long_column) = 0%nat ∧
  cd_count (sd_base long_column) = 3000%nat.
Proof. destruct (filled_column_ok (8 * SVS) 512 0 many_rows 3000 many_rows_ok long_count ltac:(lia)) as (H1 & H2 & H3 & H4 & H5 & _). by split_and!. Qed.

Definition long_group : RowGroup := mkRowGroup 0 3000 [long_column] None 0.

Lemma long_group_open : group_open sample_null 0 long_group.
Proof. destruct long_column_ok as (Ho & _ & _ & Hs & Hc). split; cbn [long_group rg_start rg_count rg_columns version_info]; [constructor; [exact (conj Ho (conj Hs Hc)) | constructor] | exact long_count | intros m Hm; discriminate Hm]. Qed.

(** ** A row group with a sketch *)

Definition plain_rows (l : list Z) : UnifiedVectorFormat Z := mkUnified SelectionVector_null l (mkMask None SVS).

(** [n] rows appended with a sketch. *)
Definition sketched_group (versions : option RowVersionManager) (d : UnifiedVectorFormat Z) (n : nat) : RowGroup :=
  match sketchAppend sample_null 0 [0] n (mkRowGroup 0 n [empty_column 0] versions 0) (mkAppendState [(0, 0)%nat] 0) [d] with
  | Ok (rg, _) => rg
  | Throw _ => first_group
  end.

(** The rows above 6 of such a row group, as its first scan returns them. *)
Definition scan_sketched (rg : RowGroup) (ids : list (option nat)) : result (list (list (option (option Z)))) :=
  let ts := mkTableScan ids (Some sample_filters) in
  '(st, _) ← RowGroup_InitializeScan 0 rg ts (mkCollectionScan None 0 0 (rg_count rg) ((λ _, start_scan 0) <$> ids));
  '(_, _, _, chunk, n) ← RowGroup_Scan sample_null 0 rg ts sample_order (true, 0%nat) scan_reader st ((λ _, RV_flat sample_flat) <$> ids);
  Ok (chunk_rows chunk n).

(** Two appends with sketches, and the rows of the second chunk of the scan. *)
Definition sketched_twice (d1 d2 : UnifiedVectorFormat Z) (n1 n2 : nat) : result RowGroup :=
  '(rg, st) ← sketchAppend sample_null 0 [0] n1 (mkRowGroup 0 (n1 + n2) [empty_column_of (8 * SVS) 512 0] None 0) (mkAppendState [(0, 0)%nat] 0) [d1];
  '(rg, _) ← sketchAppend sample_null 0 [0] n2 rg st [d2];
  Ok rg.

Definition second_chunk (rg : RowGroup) : result (list (list (option (option Z)))) :=
  let ts := mkTableScan [Some 0%nat] (Some sample_filters) in
  '(st, _) ← RowGroup_InitializeScan 0 rg ts (mkCollectionScan None 0 0 (rg_count rg) [start_scan 0]);
  '(rg, st, a, _, _) ← RowGroup_Scan sample_null 0 rg ts sample_order (true, 0%nat) scan_reader st [RV_flat sample_flat];
  '(_, _, _, chunk, n) ← RowGroup_Scan sample_null 0 rg ts a (true, 0%nat) scan_reader st [RV_flat sample_flat];
  Ok (chunk_rows chunk n).

(** ** A row group of 300 rows with sketches *)

Definition many_values : list Z := Z.of_nat <$> seq 0 300.
Definition wide_column : StandardColumnData := empty_column_of 2048 256 0.
Definition empty_group : RowGroup := mkRowGroup 0 0 [wide_column] None 0.

Lemma plain_rows_ok l : (length l ≤ SVS)%nat → values_ok (plain_rows l) (length l).
Proof.
  intros Hl. assert (∀ i, unified_index (plain_rows l) i = i) as Hi by (intros i; unfold unified_index; cbn; lia). split.
  - exists SVS. split; [done|]. intros i Hlt. exists i. split; [done | lia].
  - intros i Hlt _. unfold unified_value. rewrite Hi. cbn [plain_rows uni_data]. by apply lookup_lt_is_Some_2.
Qed.

Lemma plain_appended l i : appended_value (plain_rows l) i = Some <$> l !! i.
Proof. unfold appended_value, unified_valid, unified_value. assert (unified_index (plain_rows l) i = i) as -> by (unfold unified_index; cbn; lia). done. Qed.

Lemma many_values_sketchable : sketchable 32 (plain_rows many_values) 300 many_values.
Proof.
  split; [by vm_compute | |].
  - intros i x Hx. rewrite plain_appended, Hx. split_and!; [done | done | |]; unfold many_values in Hx; rewrite list_lookup_fmap in Hx;
      destruct (seq 0 300 !! i) as [j|] eqn:Ej; try done; apply lookup_seq in Ej as [-> Hi]; injection Hx as <-; lia.
  - exists many_values. split_and!; [apply NoDup_fmap; [apply _ | apply NoDup_seq] | done | by apply Nat.ltb_lt; vm_compute].
Qed.

Lemma wide_column_open : column_open sample_null 0 wide_column.
Proof. destruct (empty_growable 2048 256 0) as [Hg Hz]. by exists integer_type. Qed.

Lemma empty_group_open : group_open sample_null 0 empty_group.
Proof. split; cbn [empty_group rg_start rg_count rg_columns version_info]; [|lia | by intros m]. constructor; [|constructor]. split_and!; [apply wide_column_open | done | done]. Qed.

Lemma wide_column_covers : sketches_cover 32 wide_column.
Proof.
  split; [by left | done | done | |].
  - intros t v Hv. cbn in Hv. lia.
  - intros m Hm. cbn in Hm. pose proof vector_size_pos. assert (m = 0)%nat as -> by nia. done.
Qed.

Lemma wide_column_width W : sketches_cover W wide_column → W = 32.
Proof. intros [[-> | ->] Hty _ _ _]; [done | by vm_compute in Hty]. Qed.

(** The row group after the append, all of whose rows are visible. *)
Definition wide_group : RowGroup :=
  match sketchAppend sample_null 0 [0] 300 empty_group (mkAppendState [(0, 0)%nat] 0) [plain_rows many_values] with
  | Ok (rg, _) => mkRowGroup 0 300 (rg_columns rg) None 0
  | Throw _ => empty_group
  end.

Lemma empty_rooms n : Z.of_nat n < 2 ^ 62 → rooms n (rg_columns empty_group).
Proof. intros Hn. constructor; [|constructor]. split; cbn; lia. Qed.

Lemma wide_chunk_ok :
  Forall2 (λ c d, values_ok d 300 ∧ ∀ W, sketches_cover W c → ∃ l, sketchable W d 300 l) (rg_columns empty_group) [plain_rows many_values].
Proof.
  constructor; [|constructor]. split.
  - assert (300 = length many_values)%nat as -> by (by vm_compute). apply plain_rows_ok. apply Nat.leb_le. by vm_compute.
  - intros W ->%wide_column_width. exists many_values. exact many_values_sketchable.
Qed.

Lemma three_hundred : (0 < 300 ≤ SVS)%nat.
Proof. split; [lia | apply Nat.leb_le; by vm_compute]. Qed.

Lemma wide_room : (300 ≤ ROW_GROUP_VECTOR_COUNT * SVS)%nat.
Proof. rewrite <- (Nat.mul_1_l 300). apply Nat.mul_le_mono; apply Nat.leb_le; by vm_compute. Qed.

Lemma wide_group_ok :
  ∃ c, rg_columns wide_group = [c] ∧ rg_start wide_group = 0%nat ∧ rg_count wide_group = 300%nat ∧ version_info wide_group = None ∧
    column_open sample_null 0 c ∧ is_sketched c = true ∧ sketches_cover 32 c ∧ cd_start (sd_base c) = 0%nat ∧ cd_count (sd_base c) = 300%nat ∧
    ∀ r, (r < 300)%nat → stored_cell c r = Some (Some (Z.of_nat r)).
Proof.
  destruct (sketchAppend_ok sample_null 0 empty_group [plain_rows many_values] 300 0 0) as (rg1 & E & _ & _ & _ & HF & Hflag & Hcov).
  - exact empty_group_open.
  - constructor; [exists 32; exact wide_column_covers | constructor].
  - done.
  - apply empty_rooms. lia.
  - exact wide_chunk_ok.
  - exact three_hundred.
  - exact wide_room.
  - assert (wide_group = mkRowGroup 0 300 (rg_columns rg1) None 0) as ->.
    { unfold wide_group. assert (append_at <$> rg_columns empty_group = [(0, 0)%nat]) as Eat by reflexivity. rewrite Eat in E.
      assert (Z.of_nat <$> seq 0 (length (rg_columns empty_group)) = [0]) as Eidx by reflexivity. rewrite Eidx in E. by rewrite E. }
    cbn [rg_columns rg_start rg_count version_info]. inversion HF as [|? ? c ? ? ? [Ho Hty [Hs _ _] Hc _ Hnew] HF']; subst. inversion HF'; subst.
    unfold group_sketched in Hcov. match goal with H : _ = rg_columns rg1 |- _ => rewrite <- H in * end.
    apply Forall_cons in Hflag as [Hflag _], Hcov as [[W Hcov] _]. exists c.
    split; [reflexivity|]. split; [reflexivity|]. split; [reflexivity|]. split; [reflexivity|]. split; [exact Ho|]. split; [exact Hflag|]. split; [|split; [exact Hs|split; [exact Hc|]]].
    + pose proof (sc_type _ _ Hcov) as Hw. rewrite Hty in Hw. destruct (sc_width _ _ Hcov) as [E32|E64]; [by rewrite <- E32 | rewrite E64 in Hw; discriminate Hw].
    + intros r Hr. specialize (Hnew r Hr). change (cd_count (sd_base wide_column) + r)%nat with r in Hnew. rewrite Hnew, plain_appended. unfold many_values. by rewrite list_lookup_fmap, lookup_seq_lt by done.
Qed.
