(* ===== verification/StorageProps.v ===== *)
(** Properties of columns and their segments: the scans of validity segments,
    the lookup of segments, reads, appends and reverts of columns, and the order
    of the filters of a scan. *)
From S2P Require Import Prelude Bits SelectionVector Types Stats NumericStats NumericFacts BaseStatistics StatsFacts StatsCreate ColumnSketch ValidityMask MaskFacts ChunkInfo ChunkFacts RowVersionManager VersionFacts VersionAppend.
From S2P Require Import TableFilter UpdateSegment UpdateFacts UpdateLaws UncompressedSegment UncompressedFacts UncompressedAppend SegmentLaws SegmentTree.
From S2P Require Import ColumnData ColumnFacts ColumnAppend StandardColumn StandardFacts AdaptiveFilter RowGroup RowGroupFacts RowGroupAppend RowGroupCollection CollectionFacts StorageSample.

#[local] Opaque ROW_GROUP_VECTOR_COUNT.

(** * Validity segments *)

(** C27. The scan of a validity segment that shifts and masks whole words agrees
    with the row-by-row scan on the rows that are read, whatever the alignment
    of the segment and of the result; it only differs on rows outside of the
    range that share a word with it, where the segment has a NULL. *)
Theorem validity_scan_matches_rows seg row_index scan off m n :
  words_ok (seg_block seg) → (GetRelativeIndex seg row_index + scan ≤ 64 * length (seg_block seg))%nat → (off + scan ≤ n)%nat →
  mask_covers m n → (n ≤ target_count m)%nat →
  ∃ m1 m2, ValidityScanPartial seg row_index scan m off = Ok m1 ∧ ValidityScanPartial_rows seg row_index scan m off = Ok m2 ∧
    (∀ q, (off ≤ q < off + scan)%nat →
      valid_at m1 q = valid_at m2 q ∧ valid_at m1 q = valid_at m q && mask_bit (seg_block seg) (GetRelativeIndex seg row_index + (q - off))) ∧
    (∀ q, (q < n)%nat → (q < off ∨ off + scan ≤ q)%nat → valid_at m1 q ≠ valid_at m2 q →
      leaks (GetRelativeIndex seg row_index) off scan q ∧ mask_bit (seg_block seg) (GetRelativeIndex seg row_index + q - off) = false).
Proof.
  intros W Hs Ho Hc Ht.
  destruct (ValidityScanPartial_ok seg row_index scan off m n W Hs Ho Hc Ht) as (m1 & E1 & _ & _ & Hin & Hout).
  destruct (ValidityScanPartial_rows_ok seg row_index scan off m n W Hs Ho Hc Ht) as (m2 & E2 & _ & Hrows).
  exists m1, m2. split; [done|]. split; [done|]. split.
  - intros q Hq. rewrite Hrows, decide_True by lia. rewrite Hin by done. done.
  - intros q Hq Hq' Hne. rewrite Hrows, decide_False, andb_true_r in Hne by lia.
    destruct (mask_bit (seg_block seg) (GetRelativeIndex seg row_index + q - off)) eqn:Eb.
    + by rewrite Hout in Hne.
    + split; [|done]. destruct (decide (leaks (GetRelativeIndex seg row_index) off scan q)) as [H|H]; [done|]. by rewrite Hout in Hne.
Qed.

Lemma validity_scan_matches_rows_witness :
  let seg := mkColumnSegment TRANSIENT 0 100 256 (empty_stats (LT VALIDITY)) [MAX_ENTRY - 2 ^ 35; MAX_ENTRY - 2 ^ 3] in
  ∃ m1 m2, ValidityScanPartial seg 32 64 (mkMask None 128) 5 = Ok m1 ∧ ValidityScanPartial_rows seg 32 64 (mkMask None 128) 5 = Ok m2 ∧
    valid_at m1 8 = false ∧ valid_at m2 8 = false.
Proof.
  intros seg. destruct (validity_scan_matches_rows seg 32 64 5 (mkMask None 128) 128) as (m1 & m2 & E1 & E2 & H & _).
  - repeat constructor; by vm_compute.
  - cbn. lia.
  - lia.
  - done.
  - done.
  - exists m1, m2. destruct (H 8%nat) as [H1 H2]; [lia|]. rewrite <- H1, H2. vm_compute. done.
Defined.

(** A NULL after the range that is read appears in the result: the rows 32 to
    47 are read to the front of the vector, and row 50 clears row 18. *)
Lemma validity_scan_leaks :
  let seg := mkColumnSegment TRANSIENT 0 64 256 (empty_stats (LT VALIDITY)) [MAX_ENTRY - 2 ^ 50] in
  ∃ m, ValidityScanPartial seg 32 16 (mkMask None 64) 0 = Ok m ∧ valid_at m 18 = false.
Proof. eexists. vm_compute. done. Qed.

(** * Segment trees *)

(** C28. The lookup of the segment of a row returns, also when the tree is only
    partly loaded: it loads what it needs, the binary search ends, and the result is
    the segment that holds the row, or none when the row lies behind the last
    segment. Loading does not change the segments of the tree. The row does not lie
    before the first segment. *)
Theorem segment_lookup_returns {S} `{SegmentBase S} (lazy : bool) start (t : SegmentTree S) row :
  tree_ok lazy start t → (start ≤ row)%nat →
  ∃ t' found, TryGetSegmentIndex lazy t row = Ok (t', found) ∧ tree_ok lazy start t' ∧ tree_segments t' = tree_segments t ∧
    match found with
    | Some i => ∃ s, tree_segments t !! i = Some s ∧ (base_start s ≤ row < base_start s + base_count s)%nat ∧ (i < length (tree_nodes t'))%nat
    | None => ∀ i s, tree_segments t !! i = Some s → (base_start s + base_count s ≤ row)%nat
    end.
Proof.
  intros Ht Hrow. destruct (TryGetSegmentIndex_ok lazy start t row Ht Hrow) as (t' & found & E & Ht' & Hs & Hf). exists t', found. split_and!; try done.
  destruct found as [i|].
  - destruct Hf as (n & Hn & Hi & Hr). exists (node n). split_and!; [done | apply Hr | apply Hr | by eapply lookup_lt_Some].
  - intros i s Hi. pose proof (contiguous_end start (tree_segments t) i s (to_chain _ _ _ Ht) Hi). lia.
Qed.

Lemma segment_lookup_returns_witness :
  ∃ t' found, TryGetSegmentIndex true (row_groups sample_table) 4 = Ok (t', found) ∧ found = Some 1%nat ∧ length (tree_nodes t') = 2%nat.
Proof.
  destruct (segment_lookup_returns true 0 (row_groups sample_table) 4) as (t' & found & E & _ & Hs & Hf); [apply sample_table_ok | lia|].
  exists t', found. split; [done|]. destruct found as [i|].
  - destruct Hf as (s & Hi & Hr & Hl). destruct i as [|[|i]]; [| |done]; cbn in Hi; injection Hi as <-; cbn in Hr; [lia|]. split; [done|].
    assert (length (tree_segments t') = 2)%nat as H2 by (by rewrite Hs). unfold tree_segments in H2. rewrite length_app, length_fmap in H2. lia.
  - specialize (Hf 1%nat second_group eq_refl). cbn in Hf. lia.
Defined.

(** A row before the first segment makes the upper bound of the search wrap
    around: the next probe is outside of the nodes. *)
Lemma segment_lookup_underflows :
  TryGetSegmentIndex true (mkTree [mkSegmentNode 3 second_group] true []) 1 = out_of_range.
Proof. vm_compute. done. Qed.

(** * Segments *)

(** C29. Appends stay within the block of a segment: a segment of numbers takes
    as many rows as its size has room for, a validity segment as many as its
    size has mask words for; the count never passes the capacity, the block
    keeps its length, and the number of rows that were taken is returned. *)
Theorem segment_append_bounded ty null_value type_size seg mask d offset n :
  GetStatsType ty = NUMERIC_STATS → has_extremes ty = true →
  value_segment_ok ty type_size seg → validity_segment_ok mask → values_ok d (offset + n) →
  ∃ seg' mask' k k', FixedSizeAppend (InternalType ty) null_value type_size seg d offset n = Ok (seg', k) ∧
    ValidityAppend mask d offset n = Ok (mask', k') ∧
    k = Nat.min n (seg_size seg / type_size - seg_count seg) ∧ k' = Nat.min n (seg_size mask / STANDARD_MASK_SIZE * SVS - seg_count mask)%nat ∧
    seg_count seg' = (seg_count seg + k)%nat ∧ seg_count mask' = (seg_count mask + k')%nat ∧
    (seg_count seg' ≤ seg_size seg / type_size)%nat ∧ (seg_count mask' ≤ seg_size mask / STANDARD_MASK_SIZE * SVS)%nat ∧
    length (seg_block seg') = length (seg_block seg) ∧ length (seg_block mask') = length (seg_block mask).
Proof.
  intros H2 H3 Hs Hm Hd. pose proof (proj1 Hd) as Hu.
  destruct (value_append_law ty null_value type_size H2 H3 seg d offset n Hs Hd) as (seg' & E & [L' C' _ _ _] & _ & Z' & K' & _).
  destruct (ValidityAppend_ok mask d offset n Hm Hu) as (mask' & E' & [W2 L2 C2 _ _] & _ & Z2 & K2 & _).
  exists seg', mask', (Nat.min n (seg_size seg / type_size - seg_count seg)), (Nat.min n (validity_capacity (seg_size mask) - seg_count mask)).
  destruct Hs as [L C _ _ _], Hm as [_ Lm Cm _ _]. split_and!; try done.
  - rewrite Z' in C'. exact C'.
  - rewrite Z2 in C2. exact C2.
  - rewrite L', Z'. by rewrite L.
  - rewrite L2, Z2. by rewrite Lm.
Qed.

Lemma segment_append_bounded_witness :
  let seg := mkColumnSegment TRANSIENT 0 0 8 (empty_stats INT) [0; 0] in
  let mask := mkColumnSegment TRANSIENT 0 0 256 (empty_stats (LT VALIDITY)) (ValidityInitSegment 256) in
  ∃ seg' mask', FixedSizeAppend INT32 0 4 seg (three_rows 5 9) 0 3 = Ok (seg', 2%nat) ∧ ValidityAppend mask (three_rows 5 9) 0 3 = Ok (mask', 3%nat) ∧
    seg_count seg' = 2%nat ∧ length (seg_block seg') = 2%nat.
Proof.
  intros seg mask.
  destruct (segment_append_bounded INT 0 4 seg mask (three_rows 5 9) 0 3) as (seg' & mask' & k & k' & E & E' & Hk & Hk' & C & _ & _ & _ & L & _).
  - done.
  - done.
  - split; [done | cbn; lia | | done | done]. exists 2147483647, (-2147483648). split; [done | done|]. eexists _, _. split; [reflexivity|]. by split; intros x [= <-].
  - by apply ValidityInitSegment_ok.
  - apply three_rows_ok.
  - exists seg', mask'. assert (k = 2)%nat as -> by (rewrite Hk; by vm_compute). assert (k' = 3)%nat as -> by (rewrite Hk'; by vm_compute). by split_and!.
Defined.

(** * Columns *)

(** C21. A scan of a vector of a column returns, for every row, the value the
    transaction sees: the base value or the update visible to it, and NULL
    where the validity column says so, across segment boundaries; fetching a
    row by its number gives the same value. *)
Theorem column_reads_exact null_value uninitialised c t v cs res j :
  column_fine null_value uninitialised c → fresh_vector res → standard_cursor c cs (v * SVS) → (v * SVS + j < cd_count (sd_base c))%nat → (j < SVS)%nat →
  ∃ cs' res' k res2,
    Standard_ScanVector (column_codec null_value uninitialised c) (column_updates c) c t v cs res = Ok (cs', res', k) ∧
    k = Nat.min SVS (cd_count (sd_base c) - v * SVS) ∧ standard_cursor c cs' (S v * SVS) ∧
    (∀ i, (i < k)%nat → vector_value res' i = cell false c t (v * SVS + i)) ∧
    Standard_FetchRow (column_codec null_value uninitialised c) (column_updates c) c t (cd_start (sd_base c) + (v * SVS + j)) res 0 = Ok res2 ∧
    vector_value res2 0 = vector_value res' j.
Proof.
  intros Hf Hres Hcur Hj Hsvs. destruct (column_scan_ok null_value uninitialised c t v cs res Hf Hres Hcur ltac:(lia)) as (cs' & res' & E & Hcur' & [_ _ Hv]).
  destruct Hf as [H Hc]. pose proof vector_size_pos.
  destruct (Standard_FetchRow_ok _ _ _ _ _ _ _ _ c t (v * SVS + j) res 0 Hc (fv_length _ Hres) (fv_covers _ Hres) (fv_target _ Hres) Hj ltac:(lia) (fv_valid _ Hres 0%nat ltac:(lia)))
    as (res2 & E2 & _ & Hv2).
  exists cs', res', (Nat.min SVS (cd_count (sd_base c) - v * SVS)), res2. split_and!; [exact E | done | done | done | exact E2|].
  rewrite Hv2, decide_True by lia. rewrite Hv by lia. done.
Qed.

Lemma column_reads_exact_witness :
  ∃ cs' res' k, Standard_ScanVector sample_codec (column_updates (sample_column 0 5 9)) (sample_column 0 5 9) scan_reader 0 (start_scan 0) sample_flat = Ok (cs', res', k) ∧
    vector_value res' <$> seq 0 3 = [Some (Some 5); Some None; Some (Some 9)].
Proof.
  destruct (sample_column_ok 0 5 9) as [Ho Hu _ _ Hc Hcells].
  destruct (column_reads_exact sample_null 0 (sample_column 0 5 9) scan_reader 0 (start_scan 0) sample_flat 2) as (cs' & res' & k & _ & E & Hk & _ & Hv & _).
  - by apply open_fine.
  - exact sample_flat_ok.
  - by apply start_scan_ok; destruct (sample_column_ok 0 5 9).
  - rewrite Hc. lia.
  - apply Nat.ltb_lt. by vm_compute.
  - exists cs', res', k. split; [exact E|]. rewrite <- Hcells. assert (k = 3)%nat as -> by (rewrite Hk, Hc; by vm_compute).
    change (seq 0 3) with [0; 1; 2]%nat. cbn [fmap list_fmap]. rewrite !Hv by lia. by rewrite !stored_cell_ok.
Defined.

(** C26. Rows that are appended to a column without updates can be read back: the
    old rows keep their values, the new ones are those of the vector, NULLs
    included, also when the append fills a segment and continues in new ones; the
    zone maps of the segments and the statistics of the column cover the old and the
    new values. The rows fit into a row group. *)
Theorem append_scan_roundtrip null_value uninitialised c d n t :
  column_open null_value uninitialised c → never_updated c → values_ok d n → append_room c n →
  (cd_count (sd_base c) + n ≤ ROW_GROUP_VECTOR_COUNT * SVS)%nat →
  ∃ c', Standard_Append (column_codec null_value uninitialised c) c (append_at c) d n = Ok (c', append_at c') ∧
    column_open null_value uninitialised c' ∧ never_updated c' ∧ cd_count (sd_base c') = (cd_count (sd_base c) + n)%nat ∧
    (∀ row, (row < cd_count (sd_base c))%nat → cell false c' t row = cell false c t row) ∧
    (∀ i, (i < n)%nat → cell false c' t (cd_count (sd_base c) + i) = appended_value d i) ∧
    zones_ok c' t.
Proof.
  intros Ho Hu Hd Hr Hm. destruct (column_append_ok null_value uninitialised c d n Ho Hd Hr Hm) as (c' & E & [Ho' Ht [Hs U1 U2] Hc Hold Hnew]).
  assert (never_updated c') as Hu' by (destruct Hu; split; congruence).
  exists c'. split_and!; try done.
  - intros row Hrow. rewrite !stored_cell_ok by done. by apply Hold.
  - intros i Hi. rewrite stored_cell_ok by done. by apply Hnew.
  - by apply (open_zones null_value uninitialised).
Qed.

Lemma append_scan_roundtrip_witness :
  ∃ c', Standard_Append sample_codec (sample_column 0 5 9) (append_at (sample_column 0 5 9)) (three_rows 1 2) 3 = Ok (c', append_at c') ∧
    cell false c' scan_reader 2 = Some (Some 9) ∧ cell false c' scan_reader 3 = Some (Some 1) ∧ cell false c' scan_reader 4 = Some None.
Proof.
  destruct (sample_column_ok 0 5 9) as [Ho Hu _ _ Hc Hcells].
  destruct (append_scan_roundtrip sample_null 0 (sample_column 0 5 9) (three_rows 1 2) 3 scan_reader) as (c' & E & _ & _ & _ & Hold & Hnew & _).
  - exact Ho.
  - exact Hu.
  - apply three_rows_ok.
  - split; vm_compute; done.
  - rewrite Hc. rewrite <- (Nat.mul_1_l (3 + 3)). apply Nat.mul_le_mono; apply Nat.leb_le; by vm_compute.
  - exists c'. split; [exact E|]. rewrite Hc in *. split_and!.
    + rewrite Hold by lia. rewrite stored_cell_ok by done. vm_compute. done.
    + exact (Hnew 0%nat ltac:(lia)).
    + exact (Hnew 1%nat ltac:(lia)).
Defined.

(** Reverting an append restores the column: after an append of [n] rows
    and a revert to the old end, every row has the value it had before, the
    count is the old one, no appended row can be read, and the zone maps are
    still valid. *)
Theorem append_revert_restores null_value uninitialised c d n t :
  column_open null_value uninitialised c → never_updated c → values_ok d n → append_room c n →
  (cd_count (sd_base c) + n ≤ ROW_GROUP_VECTOR_COUNT * SVS)%nat →
  ∃ c1 c2, Standard_Append (column_codec null_value uninitialised c) c (append_at c) d n = Ok (c1, append_at c1) ∧
    Standard_RevertAppend (column_codec null_value uninitialised c1) c1 (cd_start (sd_base c) + cd_count (sd_base c)) = Ok c2 ∧
    column_open null_value uninitialised c2 ∧ cd_count (sd_base c2) = cd_count (sd_base c) ∧
    (∀ row, (row < cd_count (sd_base c))%nat → cell false c2 t row = cell false c t row) ∧
    (∀ row, (cd_count (sd_base c) ≤ row)%nat → cell false c2 t row = None) ∧ zones_ok c2 t.
Proof.
  intros Ho Hu Hd Hr Hm. destruct (column_append_ok null_value uninitialised c d n Ho Hd Hr Hm) as (c1 & E & [Ho1 Ht1 [Hs1 U1 U2] Hc1 Hold _]).
  destruct (column_revert_ok null_value uninitialised c1 (cd_count (sd_base c)) Ho1 ltac:(lia)) as (c2 & E2 & [Ho2 Ht2 [Hs2 U3 U4] Hc2 Hrows]).
  assert (never_updated c2) as Hu2 by (destruct Hu; split; congruence). rewrite Hs1 in E2.
  exists c1, c2. split_and!; try done.
  - intros row Hrow. rewrite !stored_cell_ok by done. rewrite Hrows, decide_True by done. by apply Hold.
  - intros row Hrow. rewrite stored_cell_ok by done. rewrite Hrows, decide_False by lia. done.
  - by apply (open_zones null_value uninitialised).
Qed.


(** * The order of the filters *)

(** Whatever the measurements and the random numbers are, the adaptive
    order of the filters of a scan stays a permutation of the filtered columns
    and no access of [AdaptRuntimeStatistics] is out of range: every filter is
    applied once per vector. *)
Theorem filter_order_permutation (filters : TableFilterSet) i o measurements :
  Forall (λ m : bool * nat, (m.2 < 100 * (length (map_to_list filters) - 1))%nat) measurements →
  ∃ a, foldM (λ a m, AdaptRuntimeStatistics a m.1 m.2) (AdaptiveFilter_new filters i o) measurements = Ok a ∧
    permutation a ≡ₚ (map_to_list filters).*1.
Proof.
  intros Hm. assert (∀ ms a, Forall (λ m : bool * nat, (m.2 < 100 * (length (map_to_list filters) - 1))%nat) ms → adaptive_ok a (map_to_list filters).*1 →
    ∃ a', foldM (λ a m, AdaptRuntimeStatistics a m.1 m.2) a ms = Ok a' ∧ adaptive_ok a' (map_to_list filters).*1) as H.
  { induction ms as [|m ms IH]; intros a Hms Ha; [by exists a|]. apply Forall_cons in Hms as [H1 H2]. cbn [foldM].
    destruct (AdaptRuntimeStatistics_ok a (map_to_list filters).*1 m.1 m.2 Ha) as (a' & -> & Ha'); [by rewrite (ad_border _ _ Ha), length_fmap|]. cbn [mbind result_bind]. by apply IH. }
  destruct (H measurements _ Hm (AdaptiveFilter_new_ok filters i o)) as (a & E & Ha). exists a. split; [done | apply Ha].
Qed.

