(* ===== verification/TableProps.v ===== *)
(** Properties of tables: an append adds the rows of the chunk and keeps the
    table well-formed, and a history of committed and reverted appends is
    observed by scans as the list of the committed rows. *)
From S2P Require Import Prelude Bits SelectionVector Types Stats NumericStats NumericFacts BaseStatistics StatsFacts StatsCreate ColumnSketch ValidityMask MaskFacts ChunkInfo ChunkFacts RowVersionManager VersionFacts VersionAppend.
From S2P Require Import TableFilter FilterFacts FilterPruning UpdateSegment UpdateFacts UpdateLaws UncompressedSegment UncompressedAppend SegmentLaws SegmentTree.
From S2P Require Import ColumnData ColumnFacts ColumnAppend StandardColumn StandardFacts AdaptiveFilter RowGroup RowGroupFacts RowGroupScan RowGroupLoop RowGroupCollection CollectionFacts RowGroupAppend TableAppend TableAppendFacts TableSpec StorageSample.

#[local] Opaque ROW_GROUP_VECTOR_COUNT.

Abbreviation rows_in rc := (table_rows (tree_segments (row_groups rc))).

(** * Appends *)

(** C3. An append of any number of rows to a well-formed table of number columns,
    which may fill up the last row group and start new ones: [InitializeAppend],
    [Append] and [FinalizeAppend] succeed, the rows of the table are the rows it
    had, in order, followed by those of the chunk as inserted by the transaction,
    the row groups stay adjacent, typed and within their size, and the statistics of
    the table cover the old and the new values. The chunk has one vector of at most
    [2^32] rows per column, and the numbers of segments and row groups stay below
    [2^63]. *)
Theorem table_append_exact null_value uninitialised types plain rc t chunk n :
  Forall number_type types → table_ok null_value uninitialised types plain rc → table_room rc n →
  length chunk = length types → Forall (vector_ok n) chunk → Z.of_nat n ≤ 2 ^ 32 →
  ∃ rc', append_to_table null_value uninitialised rc t chunk n = Ok rc' ∧ table_ok null_value uninitialised types plain rc' ∧
    (total_rows rc' = total_rows rc + n)%nat ∧ rows_in rc' = rows_in rc ++ inserted_rows (transaction_id t) chunk n.
Proof.
  intros Hty Hok Hroom Hl Hd Hn. destruct (append_to_table_ok null_value uninitialised types plain Hty rc t chunk n Hok Hroom Hl Hd Hn) as (rc' & E & H1 & H2 & _ & H3).
  exists rc'. by split_and!.
Qed.

(** An empty table with one column of integers. *)
Definition new_table : RowGroupCollection := mkCollection (mkTree [] true []) 0 0 [INT] [empty_stats INT] 0.

Lemma new_table_ok plain : table_ok sample_null 0 [INT] plain new_table.
Proof.
  destruct (CreateEmpty_column INT integer_type) as (s & E & Hs). assert (empty_stats INT = s) as Es by (unfold empty_stats; by rewrite E).
  split; cbn [new_table row_groups total_rows rc_types rc_stats rc_row_start]; try reflexivity.
  - split; [constructor | done | by intros [?|?] | done].
  - constructor.
  - rewrite Es. constructor; [exact Hs | constructor].
  - constructor.
Qed.

Lemma new_table_room n : Z.of_nat n < 2 ^ 32 → table_room new_table n.
Proof. intros Hn. split; [constructor | cbn; lia]. Qed.

Lemma plain_vector_ok l n : (length l ≤ SVS)%nat → n = length l → vector_ok n (plain_rows l).
Proof. intros Hl ->. split; [by apply plain_rows_ok | by intros ?]. Qed.

Lemma small_chunk_ok n a b c : n = 3%nat → Forall (vector_ok n) [plain_rows [a; b; c]].
Proof. intros ->. apply Forall_singleton, plain_vector_ok; [apply Nat.leb_le; by vm_compute | done]. Qed.

Definition writer (i : Z) : TransactionData := mkTransaction (TRANSACTION_ID_START + i) 4.

Lemma table_append_exact_witness :
  ∃ rc', append_to_table sample_null 0 new_table (writer 1) [plain_rows [4; 7; 9]] 3 = Ok rc' ∧ total_rows rc' = 3%nat ∧
    rows_in rc' = (λ x, (TRANSACTION_ID_START + 1, NOT_DELETED_ID, [Some (Some x)])) <$> [4; 7; 9].
Proof.
  destruct (table_append_exact sample_null 0 [INT] true new_table (writer 1) [plain_rows [4; 7; 9]] 3) as (rc' & E & _ & Ht & Hr).
  - apply Forall_singleton, integer_type.
  - apply new_table_ok.
  - by apply new_table_room.
  - reflexivity.
  - by apply small_chunk_ok.
  - lia.
  - exists rc'. split; [exact E|]. split; [exact Ht|]. rewrite Hr. reflexivity.
Defined.

(** * Histories *)

(** A transaction's append of a chunk of rows, which is committed with an id or
    reverted. *)
Record append_op : Type := mkAppendOp {
  op_transaction : TransactionData;
  op_chunk : list (UnifiedVectorFormat Z);
  op_count : nat;
  op_commit : option Z;
}.

Section Histories.
Context (null_value : PhysicalType → Z) (uninitialised : Z) (types : list LogicalType) (plain : bool).
Hypothesis Htypes : Forall number_type types.

(** The code that runs for the append. *)
Definition run_append (rc : RowGroupCollection) (op : append_op) : result RowGroupCollection :=
  rc' ← append_to_table null_value uninitialised rc (op_transaction op) (op_chunk op) (op_count op);
  match op_commit op with
  | Some cid => Collection_CommitAppend rc' cid (rc_row_start rc + total_rows rc) (op_count op)
  | None => RevertAppendInternal null_value uninitialised rc' (total_rows rc)
  end.

(** What it means for a table that is a list of rows. *)
Definition append_rows (rows : list stored_row) (op : append_op) : list stored_row :=
  match op_commit op with Some cid => rows ++ inserted_rows cid (op_chunk op) (op_count op) | None => rows end.

(** The chunk fits the table, and the transaction has no rows in it yet. *)
Record append_fits (rc : RowGroupCollection) (op : append_op) : Prop := {
  af_room : table_room rc (op_count op);
  af_columns : length (op_chunk op) = length types;
  af_values : Forall (vector_ok (op_count op)) (op_chunk op);
  af_count : (0 < op_count op)%nat ∧ Z.of_nat (op_count op) ≤ 2 ^ 32;
  af_fresh : no_rows_of (op_transaction op) rc;
}.

Fixpoint history_fits (rc : RowGroupCollection) (ops : list append_op) : Prop :=
  match ops with
  | [] => True
  | op :: ops => append_fits rc op ∧ ∀ rc', run_append rc op = Ok rc' → history_fits rc' ops
  end.

Lemma run_append_ok rc op :
  table_ok null_value uninitialised types plain rc → rc_row_start rc = O → append_fits rc op →
  ∃ rc', run_append rc op = Ok rc' ∧ table_ok null_value uninitialised types plain rc' ∧ rc_row_start rc' = O ∧ rows_in rc' = append_rows (rows_in rc) op.
Proof.
  intros Hok Hz [Hroom Hl Hd [Hn Hmax] Hown]. destruct op as [t chunk n commit]. cbn [op_transaction op_chunk op_count] in *. unfold run_append, append_rows. cbn [op_transaction op_chunk op_count op_commit].
  destruct (append_parts null_value uninitialised types plain Htypes rc t chunk n Hok Hroom Hl Hd Hmax) as (rc1 & pre & c & mid & last & groups & -> & Hap). cbn [mbind result_bind].
  destruct commit as [cid|].
  - destruct (Collection_CommitAppend_ok null_value uninitialised types plain rc t chunk n rc1 pre c mid last groups cid Hap Hok Hown Hn) as (groups2 & -> & HF).
    destruct (committed_table null_value uninitialised types plain cid _ _ HF) as (Hlen & Hg & Hc & Hrows). rewrite length_app in Hlen. cbn in Hlen.
    destruct (versioned_table null_value uninitialised types plain rc t chunk n rc1 pre c mid last groups cid groups2 Hok Hap) as [H1 H2]; [lia | done | apply Hc, (at_chain _ _ _ _ _ _ _ _ _ _ _ _ _ _ Hap) | done|].
    eexists. split; [reflexivity|]. split_and!; [done | | done]. cbn [with_tree rc_row_start]. destruct Hap. congruence.
  - destruct (RevertAppendInternal_ok null_value uninitialised types plain rc t chunk n rc1 pre c mid last groups Hap Hok Hown Hn Hz) as (rc3 & E & H1 & _ & H2 & H3). exists rc3. by split_and!.
Qed.

Lemma run_history_ok ops : ∀ rc,
  table_ok null_value uninitialised types plain rc → rc_row_start rc = O → history_fits rc ops →
  ∃ rc', foldM run_append rc ops = Ok rc' ∧ table_ok null_value uninitialised types plain rc' ∧ rc_row_start rc' = O ∧
    rows_in rc' = fold_left append_rows ops (rows_in rc).
Proof.
  induction ops as [|op ops IH]; intros rc Hok Hz Hfit; [by exists rc|]. destruct Hfit as [Hfit Hrest].
  destruct (run_append_ok rc op Hok Hz Hfit) as (rc1 & E & H1 & H2 & H3). destruct (IH rc1 H1 H2 (Hrest rc1 E)) as (rc' & E' & H4 & H5 & H6).
  exists rc'. cbn [foldM fold_left]. rewrite E, <- H3. by split_and!.
Qed.
End Histories.

(** C2. A table behaves as the list of its committed rows.  For any history of
    appends to a table without updates, each committed or reverted before the next
    one begins, all operations succeed and a scan by any transaction returns what
    selecting from that list returns: the committed appends are its rows in order,
    with their commit ids and row numbers, and reverted appends leave nothing
    behind, also when they had started new row groups.  The columns are numbers
    without sketches, the rows begin at 0, each append is of at least one row, fits
    into the table, and is by a transaction that has no uncommitted rows in the
    table yet.  The first scanned column is not the row id (such a scan fails); the
    filters are on columns, of their types, have no empty conjunction, and NULL does
    not pass them. *)
Theorem table_history_refines null_value uninitialised types ops rc ts t fresh a measurements force_fetch_row :
  Forall number_type types → table_ok null_value uninitialised types true rc → rc_row_start rc = O → history_fits null_value uninitialised types rc ops →
  transaction_ok t → scan_typed types ts → fresh_chunk ts fresh → order_ok ts a → (∀ i, measurement_ok ts (measurements i)) →
  ∃ rc' chunks, foldM (run_append null_value uninitialised) rc ops = Ok rc' ∧
    Collection_Scan null_value uninitialised rc' ts a measurements force_fetch_row t fresh = Ok chunks ∧
    concat ((λ c, chunk_rows c.1 c.2) <$> chunks) ≡ₚ select types ts t 0 (fold_left append_rows ops (rows_in rc)).
Proof.
  intros Hty Hok Hz Hfit Ht Hts Hfresh Ha Hm. destruct (run_history_ok null_value uninitialised types true Hty ops rc Hok Hz Hfit) as (rc' & E & Hok' & Hz' & Hrows).
  destruct (table_select null_value uninitialised types ts t Ht Hts rc' fresh a measurements force_fetch_row Hok' Hfresh Ha Hm) as (chunks & Es & HP & _).
  exists rc', chunks. split; [exact E|]. split; [exact Es|]. by rewrite HP, Hz', Hrows.
Qed.

(** The number of row groups and segments is small. *)
Definition small_table (rc : RowGroupCollection) : bool :=
  forallb (λ rg, forallb (λ c, (length (column_segments (sd_base c)) <? 9)%nat && (length (column_segments (sd_validity c)) <? 9)%nat) (rg_columns rg)) (tree_segments (row_groups rc)) &&
  (length (tree_segments (row_groups rc)) <? 9)%nat.

Lemma small_table_room rc n : small_table rc = true → Z.of_nat n < 2 ^ 32 → table_room rc n.
Proof.
  unfold small_table. rewrite andb_true_iff, forallb_forall, Nat.ltb_lt. intros [Hs Hl] Hn. split; [|lia]. apply Forall_forall. intros rg Hrg. apply list_elem_of_In, Hs in Hrg.
  rewrite forallb_forall in Hrg. apply Forall_forall. intros c Hc. apply list_elem_of_In, Hrg in Hc. rewrite andb_true_iff, !Nat.ltb_lt in Hc. unfold append_room. lia.
Qed.

Definition first_op : append_op := mkAppendOp (writer 1) [plain_rows [4; 7; 9]] 3 (Some 5).
Definition reverted_op : append_op := mkAppendOp (writer 2) [plain_rows [8; 8; 8]] 3 None.
Definition second_op : append_op := mkAppendOp (writer 3) [plain_rows [7; 1; 2]] 3 (Some 12).

Lemma history_sample_fits : history_fits sample_null 0 [INT] new_table [first_op; second_op; reverted_op].
Proof.
  assert (∀ op rc, op ∈ [first_op; second_op; reverted_op] → small_table rc = true → no_rows_of (op_transaction op) rc → append_fits [INT] rc op) as Hfits.
  { intros op rc Hop Hs Hno. assert (∃ x y z, op_chunk op = [plain_rows [x; y; z]] ∧ op_count op = 3%nat) as (x & y & z & Hc & Hn).
    { repeat (apply elem_of_cons in Hop as [->|Hop]; [cbn; eauto 6|]). by apply elem_of_nil in Hop. }
    split; rewrite ?Hc, ?Hn; [by apply small_table_room | done | by apply small_chunk_ok | by split; lia | done]. }
  assert (∀ rc op rc', run_append sample_null 0 rc op = Ok rc' → table_ok sample_null 0 [INT] true rc → rc_row_start rc = O → append_fits [INT] rc op →
    table_ok sample_null 0 [INT] true rc' ∧ rc_row_start rc' = O ∧ rows_in rc' = append_rows (rows_in rc) op) as Hrun.
  { intros rc op rc' E Hok Hz Hf. destruct (run_append_ok sample_null 0 [INT] true (proj2 (Forall_singleton _ _) integer_type) rc op Hok Hz Hf) as (rc2 & E2 & H). rewrite E in E2. by injection E2 as <-. }
  assert (append_fits [INT] new_table first_op) as F1 by (apply Hfits; [by repeat constructor | done | constructor]).
  split; [exact F1|]. intros rc1 E1. destruct (Hrun _ _ _ E1 (new_table_ok true) eq_refl F1) as (H1 & Z1 & R1).
  assert (append_fits [INT] rc1 second_op) as F2.
  { apply Hfits; [by repeat constructor | | unfold no_rows_of; rewrite R1; apply (bool_decide_unpack _); by vm_compute].
    assert (match run_append sample_null 0 new_table first_op with Ok rc => small_table rc | Throw _ => true end = true) as Hs by (by vm_compute). by rewrite E1 in Hs. }
  split; [exact F2|]. intros rc2 E2. destruct (Hrun _ _ _ E2 H1 Z1 F2) as (_ & _ & R2). split; [|done].
  apply Hfits; [by repeat constructor | | unfold no_rows_of; rewrite R2, R1; apply (bool_decide_unpack _); by vm_compute].
  assert (match rc ← run_append sample_null 0 new_table first_op; run_append sample_null 0 rc second_op with Ok rc => small_table rc | Throw _ => true end = true) as Hs by (by vm_compute).
  rewrite E1 in Hs. cbn [mbind result_bind] in Hs. by rewrite E2 in Hs.
Qed.

Lemma sample_scan_typed : scan_typed [INT] sample_scan.
Proof.
  split.
  - by exists O.
  - intros [|[|i]] k Hk; try done. injection Hk as <-. cbn. lia.
  - intros filters [= <-]. replace (map_to_list (sample_filters : TableFilterSet)) with [(0%nat, above_six)] by (by vm_compute). constructor; [|constructor].
    exists 0%nat, INT. split_and!; [done | done | | done | done]. split; [done|]. left. split_and!; [done | by eexists _, _ | by intros x y; eexists].
Qed.

(** A reader that started at 10 sees the first append only. *)
Lemma table_history_refines_witness :
  ∃ rc' chunks, foldM (run_append sample_null 0) new_table [first_op; second_op; reverted_op] = Ok rc' ∧
    Collection_Scan sample_null 0 rc' sample_scan sample_order (λ _, (true, 0%nat)) false scan_reader sample_chunk = Ok chunks ∧
    concat ((λ c, chunk_rows c.1 c.2) <$> chunks) ≡ₚ [[Some (Some 7); Some (Some 1)]; [Some (Some 9); Some (Some 2)]].
Proof.
  destruct (table_history_refines sample_null 0 [INT] [first_op; second_op; reverted_op] new_table sample_scan scan_reader sample_chunk sample_order (λ _, (true, 0%nat)) false) as (rc' & chunks & E & Es & HP).
  - apply Forall_singleton, integer_type.
  - apply new_table_ok.
  - reflexivity.
  - exact history_sample_fits.
  - exact scan_reader_ok.
  - exact sample_scan_typed.
  - exact sample_chunk_ok.
  - exact sample_order_ok.
  - intros i. apply sample_measurement_ok.
  - exists rc', chunks. split; [exact E|]. split; [exact Es|]. rewrite HP. vm_compute. reflexivity.
Defined.
