(* ===== verification/ScanProps.v ===== *)
(** Properties of row groups and tables: scans return the rows that the
    transaction sees and that pass the filters, zone maps only skip rows that
    do not, the tasks of a parallel scan cover the table, and appends to row
    groups carry their versions. *)
From S2P Require Import Prelude Bits SelectionVector Types Stats NumericStats NumericFacts BaseStatistics StatsFacts StatsCreate ColumnSketch ValidityMask MaskFacts ChunkInfo ChunkFacts RowVersionManager VersionFacts VersionAppend.
From S2P Require Import TableFilter FilterFacts FilterPruning UpdateSegment UncompressedSegment UncompressedAppend SegmentTree.
From S2P Require Import ColumnData ColumnFacts StandardColumn StandardFacts AdaptiveFilter RowGroup RowGroupFacts RowGroupScan RowGroupLoop RowGroupCollection CollectionFacts.
From S2P Require Import RowGroupAppend StorageSample StatsProps SketchConjunction SketchScan.

#[local] Opaque ROW_GROUP_VECTOR_COUNT.

#[local] Opaque long_column.

(** * Tables *)

(** C1. A plain scan of a table of number columns returns exactly the rows that
    the transaction sees and that pass the filters, each with the values the
    transaction sees, across all vectors and row groups, loaded or not: zone maps,
    version information, updates, the order of the filters and partly filled
    vectors neither lose nor repeat a row.  Every call but the last returns at
    least one row, and the scan ends.  It is a plain scan when, in every row group,
    a scanned column without sketches comes before any scanned row id
    ([can_sketch] answers no; a scan that comes to the row id first fails, see
    [row_id_scan_fails], and the scan over sketches has theorems of its own).  The
    filters are on columns and of their types, have no empty conjunction, and NULL
    does not pass them, as is true of the filters the optimizer pushes into scans
    (see [null_filter_skips_rows]); the row groups are well-formed and follow one
    another, and random numbers stay in their range. *)
Theorem table_scan_exact null_value uninitialised ts t fresh start groups rc a measurements force_fetch_row :
  transaction_ok t → fresh_chunk ts fresh → Forall (group_fine null_value uninitialised ts t) groups →
  tree_fine start groups (row_groups rc) → rc_row_start rc = start → (rows_of groups ≤ total_rows rc)%nat →
  order_ok ts a → (∀ i, measurement_ok ts (measurements i)) →
  ∃ chunks, Collection_Scan null_value uninitialised rc ts a measurements force_fetch_row t fresh = Ok chunks ∧
    concat ((λ c, chunk_rows c.1 c.2) <$> chunks) ≡ₚ
      table_tuples ts t groups ∧
    Forall (λ c, 0 < c.2)%nat chunks.
Proof.
  intros Ht Hfr Hg Htree Hs Hrows Ha Hm.
  destruct (Collection_Scan_ok null_value uninitialised ts t fresh start (start + total_rows rc) groups Ht Hfr Hg rc a measurements force_fetch_row Htree Hs eq_refl Hrows Ha Hm)
    as (chunks & E & HP & Hall). exists chunks. split; [done|]. split; [|done].   rewrite HP. rewrite (tuples_all ts t start); [done | destruct Htree as [[_ Hc _ _] <-]; exact Hc | by apply Nat.add_le_mono_l].
Qed.

Lemma table_scan_exact_witness :
  ∃ chunks, Collection_Scan sample_null 0 sample_table sample_scan sample_order (λ _, (true, 0%nat)) false scan_reader sample_chunk = Ok chunks ∧
    concat ((λ c, chunk_rows c.1 c.2) <$> chunks) ≡ₚ [[Some (Some 9); Some (Some 2)]; [Some (Some 7); Some (Some 3)]].
Proof.
  destruct (table_scan_exact sample_null 0 sample_scan scan_reader sample_chunk 0 sample_groups sample_table sample_order (λ _, (true, 0%nat)) false) as (chunks & E & HP & _).
  - exact scan_reader_ok.
  - exact sample_chunk_ok.
  - apply sample_groups_fine.
  - exact sample_table_ok.
  - done.
  - done.
  - exact sample_order_ok.
  - intros i. apply sample_measurement_ok.
  - exists chunks. split; [exact E|]. rewrite HP. vm_compute. done.
Defined.

(** C9. A parallel scan of a table hands out every row exactly once and ends:
    the calls of [NextParallelScan], in whatever order the workers make them,
    yield finitely many tasks, row groups or (when parallelism is verified)
    vectors; a worker that scans its task, with whatever state it has from
    earlier tasks, gets the rows of that task; together these are the rows of
    the sequential scan.  As for the sequential scan, it is a plain scan of number
    columns (in every row group a scanned column without sketches comes before any
    scanned row id), with filters on columns, of their types, without empty
    conjunctions, that NULL does not pass; the row groups are well-formed, follow
    one another, and none of them is empty (an empty one ends the scan). *)
Theorem parallel_scan_complete null_value uninitialised ts t fresh start groups rc verify force_fetch_row :
  transaction_ok t → fresh_chunk ts fresh → Forall (group_fine null_value uninitialised ts t) groups → Forall (λ rg, 0 < rg_count rg)%nat groups →
  tree_fine start groups (row_groups rc) → rc_row_start rc = start → (rows_of groups ≤ total_rows rc)%nat →
  ∃ rc' pst tree' tasks, InitializeParallelScan rc = (rc', pst) ∧ parallel_tasks (rows_of groups) verify (row_groups rc') pst = Ok (tree', tasks) ∧
    concat (task_tuples ts t groups <$> tasks) = table_tuples ts t groups ∧
    ∀ tree i v m st a measurements, (i, v, m) ∈ tasks →
      tree_fine start groups tree → (length (tree_nodes tree') ≤ length (tree_nodes tree))%nat →
      (column_scans st = [] ∨ length (column_scans st) = length (column_ids ts)) → order_ok ts a → (∀ i, measurement_ok ts (measurements i)) →
      ∃ st' b, InitializeScanInRowGroup tree ts force_fetch_row st i v m = Ok (st', b) ∧ length (column_scans st') = length (column_ids ts) ∧
        if (b : bool) then ∃ chunks,
          scan_chunks null_value uninitialised (length (task_tuples ts t groups (i, v, m))) tree ts a measurements t st' fresh = Ok chunks ∧
          concat ((λ c, chunk_rows c.1 c.2) <$> chunks) ≡ₚ task_tuples ts t groups (i, v, m)
        else task_tuples ts t groups (i, v, m) = [].
Proof.
  intros Ht Hfr Hg Hne Htree Hs Hrows. set (mx := (start + total_rows rc)%nat).
  assert (contiguous start groups) as Hc by (destruct Htree as [[_ Hc _ _] <-]; exact Hc).
  assert (start + rows_of groups ≤ mx)%nat as Hend by (by apply Nat.add_le_mono_l).
  destruct (parallel_start_ok ts t start mx groups Hend Hc Hne verify rc Htree) as (rc' & pst & E1 & Hf1 & Hp1 & Hpend & Hleft); [by rewrite Hs|].
  destruct (parallel_tasks_ok ts t start mx groups Hend Hc Hne (rows_of groups) verify (row_groups rc') pst Hf1 Hp1 Hleft) as (tree' & tasks & E2 & Hf2 & _ & HF & Hcat).
  exists rc', pst, tree', tasks. split_and!; [done | done | by rewrite Hcat, Hpend, (tuples_all ts t start)|].
  intros tree i v m st a measurements Hin Htr Hlen Hst Ha Hm. rewrite Forall_forall in HF. destruct (HF _ Hin) as (rg & Hi & Hlt & Hv & Hmr).
  destruct (task_scan_ok null_value uninitialised ts t fresh start mx groups Hend Hc Ht Hfr Hg tree i v m force_fetch_row st a measurements Htr) as (st' & b & E & Hl & Hb);
    [exists rg; split_and!; [done | lia | done | done] | done | done | done|].
  exists st', b. split_and!; [done | done|]. destruct b; [|done]. destruct Hb as (chunks & ? & ? & _). by exists chunks.
Qed.

Lemma parallel_scan_complete_witness :
  ∃ rc' pst tree' tasks, InitializeParallelScan sample_table = (rc', pst) ∧ parallel_tasks 6 true (row_groups rc') pst = Ok (tree', tasks) ∧
    concat (task_tuples sample_scan scan_reader sample_groups <$> tasks) = [[Some (Some 9); Some (Some 2)]; [Some (Some 7); Some (Some 3)]].
Proof.
  destruct (parallel_scan_complete sample_null 0 sample_scan scan_reader sample_chunk 0 sample_groups sample_table true false) as (rc' & pst & tree' & tasks & E1 & E2 & Hc & _).
  - exact scan_reader_ok.
  - exact sample_chunk_ok.
  - apply sample_groups_fine.
  - by repeat constructor.
  - exact sample_table_ok.
  - done.
  - done.
  - exists rc', pst, tree', tasks. split; [exact E1|]. split; [exact E2|]. rewrite Hc. vm_compute. done.
Defined.

(** C10. Fetching at most a vector of rows by their ids returns, for the ids in the
    given order, the rows that exist and that the transaction sees, with the values
    a scan returns for them, and counts them; ids behind the end of the table and
    rows the transaction does not see are left out. Row groups are loaded as needed.
    The row groups are well-formed and follow one another, and no id lies before the
    first row of the table. *)
Theorem table_fetch_exact null_value uninitialised t start groups ids rc row_ids res :
  transaction_ok t → Forall (λ rg, rowgroup_ok null_value uninitialised rg ∧ columns_exist rg ids) groups → tree_fine start groups (row_groups rc) →
  length res = length ids → Forall fresh_vector res → (length row_ids ≤ SVS)%nat → Forall (λ id, start ≤ id)%nat row_ids →
  ∃ rc' res' n, Collection_Fetch null_value uninitialised rc t ids row_ids res = Ok (rc', res', n) ∧ tree_fine start groups (row_groups rc') ∧
    n = length (fetched_rows t groups ids row_ids) ∧
    (λ q, (λ v, vector_value v q) <$> res') <$> seq 0 n = fetched_rows t groups ids row_ids.
Proof.
  intros Ht Hg Htree Hlen Hres Hn Hids. unfold Collection_Fetch.
  destruct (fetch_rows_ok null_value uninitialised t start groups ids Ht Hg row_ids (row_groups rc) res 0 Htree Hlen) as (tree & res' & n & -> & Htree' & -> & _ & _ & Hrows).
  - eapply Forall_impl; [exact Hres|]. intros v. apply fresh_writable.
  - lia.
  - done.
  - cbn [mbind result_bind Nat.add]. exists (with_tree rc tree). by eexists _, _.
Qed.

Lemma table_fetch_exact_witness :
  ∃ rc' res', Collection_Fetch sample_null 0 sample_table scan_reader [Some 0%nat; None] [4; 0; 5; 9]%nat [sample_flat; sample_flat] = Ok (rc', res', 2%nat) ∧
    (λ q, (λ v, vector_value v q) <$> res') <$> seq 0 2 = [[Some None; Some (Some 4)]; [Some (Some 5); Some (Some 0)]].
Proof.
  destruct (table_fetch_exact sample_null 0 scan_reader 0 sample_groups [Some 0%nat; None] sample_table [4; 0; 5; 9]%nat [sample_flat; sample_flat]) as (rc' & res' & n & E & _ & Hn & Hrows).
  - exact scan_reader_ok.
  - eapply Forall_impl; [exact (sample_groups_fine scan_reader)|]. intros rg [H _ H' _]. by split.
  - exact sample_table_ok.
  - reflexivity.
  - constructor; [exact sample_flat_ok | constructor; [exact sample_flat_ok | constructor]].
  - apply Nat.leb_le. vm_compute. done.
  - repeat constructor; lia.
  - exists rc', res'. assert (n = 2)%nat as -> by (rewrite Hn; vm_compute; done). split; [exact E|]. rewrite Hrows. vm_compute. done.
Defined.

(** * Row groups *)

(** C20. The zone maps of the segments only skip rows that do not pass: when
    [CheckZonemapSegments] moves a scan of a well-formed row group on, to the end
    of a segment whose statistics rule out the filter, none of the rows in between
    passes the filters, and the scan of every column stands at the new vector.  The
    filters are on number columns and of their types, have no empty conjunction,
    and NULL does not pass them, as is true of the filters the optimizer pushes
    into scans: the statistics of a segment do not record NULLs, so that an IS NULL
    filter would be ruled out although rows pass it. *)
Theorem zonemap_skips_no_row null_value uninitialised rg ts t st v :
  rowgroup_ok null_value uninitialised rg → filters_fine rg ts t → scan_ready rg ts st v → (v * SVS < max_row_group_row st)%nat →
  ∃ st' b, CheckZonemapSegments rg ts st = Ok (st', b) ∧ max_row_group_row st' = max_row_group_row st ∧
    if (b : bool) then scan_ready rg ts st' v
    else ∃ w, (v < w)%nat ∧ scan_ready rg ts st' w ∧ ∀ row, (v * SVS ≤ row < w * SVS)%nat → passes_filters rg ts t row = false.
Proof.
  intros Hrg Hf Hr Hv. destruct (CheckZonemapSegments_ok null_value uninitialised rg ts t st v Hrg Hf Hr Hv) as (st' & b & w & E & Hr' & Hs & Hb).
  exists st', b. split_and!; [done | apply Hs|]. destruct b; [by subst w|]. destruct Hb as [Hlt Hno]. by exists w.
Qed.

(** The state of a scan at the start of the second row group. *)
Definition second_start : CollectionScanState :=
  mkCollectionScan (Some 1%nat) 0 3 6 [start_scan 3; mkStandardScan fresh_scan fresh_scan].

Lemma second_start_ok : scan_ready second_group sample_scan second_start 0.
Proof.
  split; [done | | cbn; lia | cbn; lia]. split; [done|]. intros i id cs Hid Hcs. destruct i as [|[|i]]; [| |done]; cbn in Hid, Hcs; injection Hid as <-; [|done].
  injection Hcs as <-. exists (sample_column 3 7 11). destruct (sample_column_ok 3 7 11) as [Ho _ _ Hs _ _]. split; [done|]. by apply start_scan_ok.
Qed.

(** A filter that no row of the long row group passes. *)
Definition above_twenty : TableFilter := ConstantFilter COMPARE_GREATERTHAN (V_num INT (INT32, 20)).
Definition twenty_filters : gmap nat TableFilter := {[ 0%nat := above_twenty ]}.
Definition twenty_scan : TableScanState := mkTableScan [Some 0%nat] (Some twenty_filters).
Definition long_start : CollectionScanState := mkCollectionScan (Some 0%nat) 0 3000 3000 [start_scan 0].

Lemma twenty_filters_ok t : filters_fine long_group twenty_scan t.
Proof.
  intros filters [= <-]. change (map_to_list _) with [(0%nat, above_twenty)]. constructor; [|constructor]. destruct long_column_ok as (Ho & Hu & Hty & _ & _).
  exact (greater_filter_fine long_group twenty_scan t 0 0 long_column 20 eq_refl eq_refl Ho Hu Hty).
Qed.

Lemma long_start_ok : scan_ready long_group twenty_scan long_start 0.
Proof.
  split; [done | | reflexivity | reflexivity]. split; [done|]. intros i id cs Hid Hcs. destruct i as [|i]; [|by destruct i]. cbn in Hid, Hcs. injection Hid as <-. injection Hcs as <-.
  exists long_column. destruct long_column_ok as (Ho & _ & _ & Hs & _). split; [done|]. by apply start_scan_ok.
Qed.

Lemma zonemap_skips_no_row_witness :
  ∃ st', CheckZonemapSegments long_group twenty_scan long_start = Ok (st', false) ∧ passes_filters long_group twenty_scan scan_reader 1 = false.
Proof.
  destruct (zonemap_skips_no_row sample_null 0 long_group twenty_scan scan_reader long_start 0) as (st' & b & E & _ & Hb).
  - apply open_ok. exact long_group_open.
  - apply twenty_filters_ok.
  - exact long_start_ok.
  - apply Nat.ltb_lt. by vm_compute.
  - assert (b = false) as ->.
    { assert (match CheckZonemapSegments long_group twenty_scan long_start with Ok (_, b) => b | Throw _ => true end = false) as H by (vm_compute; done). by rewrite E in H. }
    exists st'. split; [exact E|]. destruct Hb as (w & Hw & _ & Hno). apply Hno. assert (1 < SVS)%nat by (apply Nat.ltb_lt; by vm_compute). nia.
Defined.

(** The statistics of a segment say that it has no NULL, also when it has: an IS
    NULL filter rules out the segment of 5, NULL, 9. *)
Lemma null_filter_skips_rows :
  (('(_, read) ← Standard_CheckZonemap (sample_column 0 5 9) (start_scan 0) IsNullFilter; Ok read) = Ok false) ∧
  cell false (sample_column 0 5 9) scan_reader 1 = Some None ∧ value_passes IsNullFilter (V_null INT) = true.
Proof. split_and!; vm_compute; reflexivity. Qed.

(** One call of the scan of a row group returns a chunk with the rows of
    one vector that are visible to the transaction and pass the filters, in the
    selected columns, the row ids included, and moves on behind that vector;
    the vectors it passed over have no such row.  It returns no row only when
    the rest of the row group has none.  The order of the filters stays
    valid. *)
Theorem row_group_scan_call null_value uninitialised rg ts t measurement fresh st v a :
  rowgroup_ok null_value uninitialised rg → transaction_ok t → filters_fine rg ts t → can_sketch rg (column_ids ts) = Ok false →
  measurement_ok ts measurement → fresh_chunk ts fresh → scan_ready rg ts st v → order_ok ts a →
  ∃ st' a' chunk n, RowGroup_Scan null_value uninitialised rg ts a measurement t st fresh = Ok (rg, st', a', chunk, n) ∧ order_ok ts a' ∧
    let wanted r := visible rg t r && passes_filters rg ts t r in
    (n = O → ∀ r, (v * SVS ≤ r < max_row_group_row st)%nat → wanted r = false) ∧
    ((0 < n)%nat → ∃ w, (v ≤ w)%nat ∧ scan_ready rg ts st' (S w) ∧ (∀ r, (v * SVS ≤ r < w * SVS)%nat → wanted r = false) ∧
      chunk_rows chunk n ≡ₚ tuple rg ts t <$> filter (λ r, wanted r) (seq (w * SVS) (Nat.min SVS (max_row_group_row st - w * SVS)))).
Proof.
  intros Hrg Ht Hf Hsk Hm Hfr Hr Ha.
  destruct (TemplatedScan_ok null_value uninitialised rg ts t measurement fresh Hrg Ht Hf Hsk Hm Hfr st v a Hr Ha) as (st' & a' & chunk & n & E & Ha' & _ & Hout).
  exists st', a', chunk, n. split; [exact E|]. split; [done|]. cbn zeta. destruct Hout as [(-> & _ & Hno)|(w & R & Hvw & Hw & Hr' & -> & Hpos & HR & Hshow & Hno)].
  - split; [done | lia].
  - split; [lia|]. intros _. exists w. split_and!; try done. rewrite (shown_rows _ _ _ _ _ _ Hshow), (filter_shift (scan_wanted rg ts t)), <- list_fmap_compose, HR. done.
Qed.


(** * Sketches *)

(** C33. The scan over column sketches returns the rows a plain scan would
    return, for one filter that is a comparison [<], [<=], [>] or [>=] with a
    constant [c] with [0 <= c < 2^(W-1)] (positive for [>=]; [>= 0] prunes every row,
    and equality uses the selection of an earlier filter) on a column of 32- or
    64-bit values: when all scanned columns have sketches, none of them is the row
    id, the transaction sees all rows of the row group, every vector of the filtered
    column has a sketch of its values (not negative, without NULLs, more than 256
    different ones), and a vector without a matching row lies inside of its segment,
    then a call returns, in order, exactly the rows of the next vector that has rows
    that pass the comparison; it only changes the selections the sketches keep, so
    that the scan can go on. *)
Theorem sketched_scan_exact null_value uninitialised rg ts t measurement fresh i k W p P st v a :
  table_filters ts = Some {[ i := comparison_filter W p ]} → column_ids ts !! i = Some (Some k) → tests W p P → transaction_ok t → fresh_chunk ts fresh →
  sketch_ready null_value uninitialised ts t k W P rg → scan_ready rg ts st v → max_row_group_row st = rg_count rg → order_ok ts a →
  ∃ rg' st' a' chunk n, RowGroup_Scan null_value uninitialised rg ts a measurement t st fresh = Ok (rg', st', a', chunk, n) ∧
    same_rows rg rg' ∧ sketch_ready null_value uninitialised ts t k W P rg' ∧ order_ok ts a' ∧
    let wanted r := visible rg t r && passes_filters rg ts t r in
    (n = O → ∀ r, (v * SVS ≤ r < rg_count rg)%nat → wanted r = false) ∧
    ((0 < n)%nat → ∃ w, (v ≤ w)%nat ∧ scan_ready rg' ts st' (S w) ∧ max_row_group_row st' = rg_count rg' ∧ (∀ r, (v * SVS ≤ r < w * SVS)%nat → wanted r = false) ∧
      chunk_rows chunk n = tuple rg ts t <$> filter (λ r, wanted r) (seq (w * SVS) (rows_in (rg_count rg) w))).
Proof.
  intros Hf Hi Hp Ht Hfr Hsk Hst Hrows Ha. pose proof vector_size_pos.
  destruct (sketch_loop_ok null_value uninitialised ts t measurement fresh i k W p P Hf Hi Hp Hfr (max_row_group_row st / SVS + 1) rg st st v a Ht Hsk Hst ltac:(by split) Hrows Ha)
    as (rg' & st' & a' & chunk & n & E & Hs & Ha' & Hm & Hout).
  { rewrite Hrows. pose proof (Nat.div_mod_eq (rg_count rg) SVS). pose proof (Nat.mod_upper_bound (rg_count rg) SVS ltac:(lia)). nia. }
  exists rg', st', a', chunk, n. split; [exact E|]. split; [done|]. split; [by eapply sketch_ready_same|]. split; [done|]. cbn zeta.
  destruct Hout as [(-> & Hno)|(w & R & Hvw & Hw & Hr' & -> & Hpos & HR & Hshow & Hno)]; [split; [done | lia]|]. split; [lia|]. intros _. exists w. split_and!; try done.
  - rewrite (ss_rows _ _ Hm), Hrows. symmetry. apply (sg_count _ _ Hs).
  - rewrite (shown_rows _ _ _ _ _ _ Hshow), (filter_shift (scan_wanted rg ts t)), <- list_fmap_compose, HR. done.
Qed.

(** The scan of the rows below 7 of the row group with 300 rows. *)
Definition below_scan : TableScanState := mkTableScan [Some 0%nat] (Some {[ 0%nat := comparison_filter 32 (COMPARE_LESSTHAN, 7) ]}).
Definition below_start : CollectionScanState := mkCollectionScan (Some 0%nat) 0 300 300 [start_scan 0].
Definition below_order : AdaptiveFilter := AdaptiveFilter_new {[ 0%nat := comparison_filter 32 (COMPARE_LESSTHAN, 7) ]} 0 false.

Lemma below_tests : tests 32 (COMPARE_LESSTHAN, 7) (λ x, x <? 7).
Proof. by split; [split; vm_compute|]. Qed.

Lemma wide_group_ready : sketch_ready sample_null 0 below_scan scan_reader 0 32 (λ x, x <? 7) wide_group.
Proof.
  destruct wide_group_ok as (c & Ec & Es & En & Ev & Ho & Hf & [HW Hty Hu Hvec _] & Hs & Hc & Hcells). split.
  - split.
    + intros k c' Hk. rewrite Ec in Hk. destruct k as [|k]; [|done]. injection Hk as <-. rewrite Es, En. split; [by apply open_fine | exact (conj Hs Hc)].
    + rewrite En. exact wide_room.
    + intros m Hm. rewrite Ev in Hm. discriminate Hm.
  - cbn [can_sketch below_scan column_ids GetColumn]. rewrite Ec. cbn. by rewrite Hf.
  - intros row _. unfold visible. by rewrite Ev.
  - exists c. split; [by rewrite Ec|]. split; [exact Hf|]. split; [exact HW | exact Hty | intros v; apply Hvec|].
    intros v Hv. rewrite Hc in Hv. pose proof three_hundred. assert (v = 0)%nat as -> by nia. left. exists 0%nat, 0. rewrite Hc, stored_cell_ok, Hcells by (exact Hu || lia).
    split; [unfold rows_in; lia|]. split; reflexivity.
Qed.

Lemma below_start_ok : scan_ready wide_group below_scan below_start 0.
Proof.
  destruct wide_group_ok as (c & Ec & Es & En & _ & Ho & _ & _ & Hs & _). split; [reflexivity | | by rewrite En | by rewrite Es]. split; [reflexivity|].
  intros i id cs Hid Hcs. destruct i as [|i]; [|by destruct i]. cbn in Hid, Hcs. injection Hid as <-. injection Hcs as <-. exists c. split; [by rewrite Ec | by apply start_scan_ok].
Qed.

Lemma sketched_scan_exact_witness :
  ∃ rg' st' a' chunk n, RowGroup_Scan sample_null 0 wide_group below_scan below_order (true, 0%nat) scan_reader below_start [RV_flat sample_flat] = Ok (rg', st', a', chunk, n) ∧
    chunk_rows chunk n = tuple wide_group below_scan scan_reader <$> seq 0 7.
Proof.
  destruct (sketched_scan_exact sample_null 0 wide_group below_scan scan_reader (true, 0%nat) [RV_flat sample_flat] 0 0 32 (COMPARE_LESSTHAN, 7) (λ x, x <? 7) below_start 0 below_order)
    as (rg' & st' & a' & chunk & n & E & _ & _ & _ & H0 & Hn).
  - reflexivity.
  - reflexivity.
  - exact below_tests.
  - exact scan_reader_ok.
  - split; [reflexivity|]. intros i res Hi. destruct i as [|i]; [|done]. injection Hi as <-. exists sample_flat. split; [reflexivity | exact sample_flat_ok].
  - exact wide_group_ready.
  - exact below_start_ok.
  - by destruct wide_group_ok as (c & _ & _ & -> & _).
  - intros filters [= <-]. apply AdaptiveFilter_new_ok.
  - exists rg', st', a', chunk, n. split; [exact E|]. destruct wide_group_ok as (c & Ec & _ & En & _ & _ & _ & [_ _ Hu _ _] & _ & _ & Hcells).
    assert (∀ r, (r < 300)%nat → visible wide_group scan_reader r && passes_filters wide_group below_scan scan_reader r = (Z.of_nat r <? 7)) as Hw.
    { intros r Hr. assert (rg_columns wide_group !! 0%nat = Some c) as H by (by rewrite Ec). assert (r < rg_count wide_group)%nat as H' by (by rewrite En).
      etrans; [exact (wanted_passing sample_null 0 below_scan scan_reader 0 0 32 (COMPARE_LESSTHAN, 7) (λ x, x <? 7) eq_refl eq_refl below_tests wide_group c r wide_group_ready H H')|].
      unfold passing. by rewrite stored_cell_ok, Hcells. }
    pose proof three_hundred. rewrite En in H0, Hn. destruct n as [|n].
    + specialize (H0 eq_refl 0%nat ltac:(lia)). rewrite Hw in H0 by lia. discriminate H0.
    + destruct Hn as (w & _ & _ & _ & Hno & ->); [lia|]. destruct w as [|w].
      * assert (rows_in 300 0 = 300)%nat as -> by (unfold rows_in; lia). apply f_equal. etrans; [apply (filter_ext_in _ (λ r, Is_true (Z.of_nat r <? 7))) | by vm_compute].
        intros r [_ Hr]%elem_of_seq. by rewrite Hw by lia.
      * specialize (Hno 0%nat ltac:(nia)). rewrite Hw in Hno by lia. discriminate Hno.
Defined.



(** A scan over sketches takes the selection of the sketch instead of the rows
    the transaction sees: row 2 was deleted at time 3 and is returned. *)
Lemma sketched_scan_returns_deleted_row :
  let rg := sketched_group (Some deleted_versions) (plain_rows [7; 8; 11]) 3 in
  visible rg scan_reader 2 = false ∧ scan_sketched rg [Some 0%nat] = Ok [[Some (Some 7)]; [Some (Some 8)]; [Some (Some 11)]].
Proof. vm_compute. split; reflexivity. Qed.

(** The sketch of a negative number is that of a large one: -8 is returned as
    one of the rows above 6. *)
Lemma sketched_scan_returns_negative_row :
  scan_sketched (sketched_group None (plain_rows [7; -8; 3]) 3) [Some 0%nat] = Ok [[Some (Some 7)]; [Some (Some (-8))]].
Proof. vm_compute. reflexivity. Qed.

(** A vector that lies at the end of its segment is not skipped when the sketch
    finds no row, and keeps the selection of all its rows: the 1 is returned as
    one of the rows above 6. *)
Lemma sketched_scan_returns_stale_row :
  (rg ← sketched_twice (plain_rows (replicate SVS 7)) (plain_rows [1]) SVS 1; second_chunk rg) = Ok [[Some (Some 1)]].
Proof. vm_compute. reflexivity. Qed.

(** The row id is looked up among the columns when the columns before it have
    sketches. *)
Lemma row_id_scan_fails : scan_sketched (sketched_group None (plain_rows [7; 8; 3]) 3) [Some 0%nat; None] = out_of_range.
Proof. vm_compute. reflexivity. Qed.

(** * Appends to row groups *)

(** An append to a row group: all columns get the rows of the chunk, the
    other rows keep their values; the new rows are visible exactly to readers
    that see the appending transaction, and after the commit exactly to those
    that see the commit; the visibility of the other rows does not change.  The
    row group stays well-formed, so that it can be scanned and appended to. *)
Theorem row_group_append_commit null_value uninitialised rg chunk n t cid off :
  group_open null_value uninitialised rg → rooms n (rg_columns rg) → length chunk = length (rg_columns rg) → Forall (λ d, values_ok d n) chunk →
  (0 < n)%nat → (rg_count rg + n ≤ ROW_GROUP_VECTOR_COUNT * SVS)%nat → no_own_rows rg t →
  ∃ rg1 rg2 rg3, let b := (rg_count rg + n)%nat in
    RowGroup_Append null_value uninitialised rg (mkAppendState (append_at <$> rg_columns rg) off) chunk n =
      Ok (rg1, mkAppendState (append_at <$> rg_columns rg1) (off + n)) ∧
    RowGroup_AppendVersionInfo rg1 t n = Ok rg2 ∧ RowGroup_CommitAppend rg2 cid (rg_count rg) n = Ok rg3 ∧
    group_open null_value uninitialised rg2 ∧ group_open null_value uninitialised rg3 ∧ rg_count rg3 = b ∧ rg_columns rg3 = rg_columns rg1 ∧ rg_columns rg2 = rg_columns rg1 ∧
    Forall3 (column_appended null_value uninitialised n) (rg_columns rg) chunk (rg_columns rg1) ∧
    ∀ reader row, transaction_ok reader → (row < ROW_GROUP_VECTOR_COUNT * SVS)%nat →
      let seen id := UseVersion reader id && negb (UseVersion reader (row_deleted (GetOrCreateVersionInfo rg) row)) in
      visible rg2 reader row = (if decide (rg_count rg ≤ row < b)%nat then seen (transaction_id t) else visible rg reader row) ∧
      visible rg3 reader row = (if decide (rg_count rg ≤ row < b)%nat then seen cid else visible rg reader row).
Proof.
  intros Hg Hr Hl Hd Hn Hm Hown. destruct (RowGroup_Append_ok null_value uninitialised rg chunk n off Hg Hr Hl Hd Hm) as (rg1 & E1 & Hs & Hc & Hv & HF).
  destruct (RowGroup_AppendVersionInfo_ok null_value uninitialised rg rg1 chunk t n Hg Hn Hm Hs Hc Hv HF) as (m & E2 & Ho2 & Hrows & Hcommit).
  destruct (Hcommit Hown) as [_ Hc3]. destruct (Hc3 cid) as (m' & E3 & Ho3 & Hrows').
  exists rg1, (set_versions rg1 (rg_count rg + n) m), (set_versions rg1 (rg_count rg + n) m'). cbn zeta.
  split_and!; [exact E1 | exact E2 | exact E3 | exact Ho2 | exact Ho3 | reflexivity | reflexivity | reflexivity | exact HF|].
  intros reader row Ht Hrow. rewrite (visible_versions rg reader row Ht). unfold visible. cbn [set_versions version_info]. unfold row_visible.
  destruct (Hrows row Hrow) as [-> ->], (Hrows' row Hrow) as [-> ->]. destruct (decide _); split; reflexivity.
Qed.


(** Rolling back an append to a row group: after [Append],
    [AppendVersionInfo] and [RevertAppend] to the old end, the row group has
    the old number of rows, every row has its old values in all columns and its
    old visibility, and it is well-formed. *)
Theorem row_group_append_revert null_value uninitialised rg chunk n t off :
  group_open null_value uninitialised rg → rooms n (rg_columns rg) → length chunk = length (rg_columns rg) → Forall (λ d, values_ok d n) chunk →
  (0 < n)%nat → (rg_count rg + n ≤ ROW_GROUP_VECTOR_COUNT * SVS)%nat → no_own_rows rg t →
  ∃ rg1 st1 rg2 rg3,
    RowGroup_Append null_value uninitialised rg (mkAppendState (append_at <$> rg_columns rg) off) chunk n = Ok (rg1, st1) ∧
    RowGroup_AppendVersionInfo rg1 t n = Ok rg2 ∧
    RowGroup_RevertAppend null_value uninitialised rg2 (rg_start rg + rg_count rg) = Ok rg3 ∧
    group_open null_value uninitialised rg3 ∧ rg_count rg3 = rg_count rg ∧ rg_start rg3 = rg_start rg ∧
    Forall2 (λ c c', ∀ row, (row < rg_count rg)%nat → stored_cell c' row = stored_cell c row) (rg_columns rg) (rg_columns rg3) ∧
    ∀ reader row, transaction_ok reader → (row < rg_count rg)%nat → visible rg3 reader row = visible rg reader row.
Proof.
  intros Hg Hr Hl Hd Hn Hm Hown. destruct (RowGroup_Append_ok null_value uninitialised rg chunk n off Hg Hr Hl Hd Hm) as (rg1 & E1 & Hs & Hc & Hv & HF).
  destruct (RowGroup_AppendVersionInfo_ok null_value uninitialised rg rg1 chunk t n Hg Hn Hm Hs Hc Hv HF) as (m & E2 & Ho2 & Hrows & Hcommit).
  destruct (Hcommit Hown) as [Hconst _]. set (rg2 := set_versions rg1 (rg_count rg + n) m) in *.
  destruct (RowGroup_RevertAppend_ok null_value uninitialised rg2 (rg_count rg) Ho2) as (rg3 & E3 & Ho3 & Hs3 & Hc3 & HF3 & Hrows3 & _); [cbn; lia | exact Hconst|].
  change (rg_start rg2) with (rg_start rg1) in E3, Hs3. rewrite Hs in E3, Hs3. change (rg_columns rg2) with (rg_columns rg1) in HF3.
  exists rg1, (mkAppendState (append_at <$> rg_columns rg1) (off + n)), rg2, rg3. split_and!; [exact E1 | exact E2 | exact E3 | exact Ho3 | exact Hc3 | exact Hs3 | |].
  - destruct Hg as [Hcols _ _]. clear - HF HF3 Hcols. revert HF3 Hcols. generalize (rg_columns rg3). induction HF as [|c d c1 l1 l2 l3 [_ _ _ _ Hold _] _ IH]; intros l4 HF3 Hcols;
      inversion HF3 as [|? c3 ? l5 [_ _ _ _ Hcut] HF4]; subst; constructor.
    + apply Forall_cons in Hcols as ((_ & _ & Hcn) & _). intros row Hrow. rewrite Hcut, decide_True by done. apply Hold. by rewrite Hcn.
    + apply IH; [done | by apply Forall_cons in Hcols as [_ ?]].
  - intros reader row Ht Hrow. rewrite !(visible_versions _ reader row Ht). unfold row_visible. destruct (Hrows3 row Hrow) as [-> ->].
    change (GetOrCreateVersionInfo rg2) with m. destruct (Hrows row) as [-> ->]; [pose proof (go_count _ _ _ Hg); lia|]. by rewrite decide_False by lia.
Qed.


(** What transactions do to a row group: append a chunk of [n] rows, commit the
    [k] rows from [a] on, and revert to the first [n] rows. *)
Inductive group_op : Type :=
  | Op_Append (t : TransactionData) (chunk : list (UnifiedVectorFormat Z)) (n : nat)
  | Op_Commit (t : TransactionData) (a k : nat) (commit_id : Z)
  | Op_Revert (n : nat).

Section GroupHistories.
Context (null_value : PhysicalType → Z) (uninitialised : Z).

Definition run_group_op (rg : RowGroup) (op : group_op) : result RowGroup :=
  match op with
  | Op_Append t chunk n =>
      '(rg0, st) ← RowGroup_InitializeAppend null_value uninitialised rg;
      '(rg1, _) ← RowGroup_Append null_value uninitialised rg0 st chunk n;
      RowGroup_AppendVersionInfo rg1 t n
  | Op_Commit _ a k commit_id => RowGroup_CommitAppend rg commit_id a k
  | Op_Revert n => RowGroup_RevertAppend null_value uninitialised rg (rg_start rg + n)
  end.

(** A chunk of the width of the row group that fits in; a commit of the rows of
    the transaction, wherever other transactions have theirs; a cut that does not
    divide the rows of a transaction. *)
Definition group_op_fits (rg : RowGroup) (op : group_op) : Prop :=
  match op with
  | Op_Append t chunk n =>
      rooms (S n) (rg_columns rg) ∧ length chunk = length (rg_columns rg) ∧ Forall (λ d, values_ok d n) chunk ∧
      (0 < n)%nat ∧ (rg_count rg + n ≤ ROW_GROUP_VECTOR_COUNT * SVS)%nat
  | Op_Commit t a k _ => owns_range (GetOrCreateVersionInfo rg) (rg_count rg) a k (transaction_id t)
  | Op_Revert n => (n ≤ rg_count rg)%nat ∧ ((0 < n < rg_count rg)%nat →
      row_inserted (GetOrCreateVersionInfo rg) (n - 1) ≠ row_inserted (GetOrCreateVersionInfo rg) n)
  end.

Fixpoint group_history_fits (rg : RowGroup) (ops : list group_op) : Prop :=
  match ops with
  | [] => True
  | op :: ops => group_op_fits rg op ∧ ∀ rg', run_group_op rg op = Ok rg' → group_history_fits rg' ops
  end.

Lemma cut_constant rg n : group_open null_value uninitialised rg → group_op_fits rg (Op_Revert n) →
  ∀ c, vector_info (GetOrCreateVersionInfo rg) !! (n / SVS)%nat = Some (Some (CONSTANT_INFO c)) → (n mod SVS = 0)%nat.
Proof.
  intros Hg [Hn Hcut] c Hc. destruct (versions_open _ _ rg Hg) as [_ [_ Hpart]]. destruct (decide (n mod SVS = 0)%nat) as [|Hm]; [done|]. exfalso.
  destruct (decide (n = rg_count rg)) as [->|Hne]; [by apply (Hpart c)|]. destruct (row_split n) as [En Hlt]. apply Hcut; [lia|].
  pose proof (row_inserted_at _ (n / SVS) _ (n mod SVS - 1) ltac:(lia) Hc) as E1. pose proof (row_inserted_at _ (n / SVS) _ (n mod SVS) Hlt Hc) as E2.
  replace (n / SVS * SVS + (n mod SVS - 1))%nat with (n - 1)%nat in E1 by lia. rewrite <- En in E2. by rewrite E1, E2.
Qed.

Lemma run_group_op_ok rg op : group_open null_value uninitialised rg → group_op_fits rg op →
  ∃ rg', run_group_op rg op = Ok rg' ∧ group_open null_value uninitialised rg' ∧ rg_start rg' = rg_start rg.
Proof.
  intros Ho Hfit. destruct op as [t chunk n|t a k cid|n]; cbn [run_group_op].
  - destruct Hfit as (Hr & Hl & Hd & Hn & Hm).
    destruct (RowGroup_InitializeAppend_ok null_value uninitialised rg Ho) as (rg0 & -> & Ho0 & Hs0 & Hc0 & _ & HF0).
    { eapply Forall_impl; [exact Hr|]. intros c [? ?]. split; lia. }
    cbn [mbind result_bind]. rewrite <- Hc0 in Hm. assert (rooms n (rg_columns rg0)) as Hr0.
    { clear - Hr HF0. induction HF0 as [|c c' l l' (_ & _ & Hroom & _) _ IH]; [constructor|]. apply Forall_cons in Hr as [? ?]. constructor; [by apply Hroom | by apply IH]. }
    rewrite (Forall2_length _ _ _ HF0) in Hl.
    destruct (RowGroup_Append_ok null_value uninitialised rg0 chunk n (rg_count rg) Ho0 Hr0 Hl Hd Hm) as (rg1 & -> & Hs & Hc & Hv & HF). cbn [mbind result_bind].
    destruct (RowGroup_AppendVersionInfo_ok null_value uninitialised rg0 rg1 chunk t n Ho0 Hn Hm Hs Hc Hv HF) as (m & -> & Ho2 & _). eexists. split_and!; [done | exact Ho2 | cbn; congruence].
  - destruct (RowGroup_CommitAppend_ok null_value uninitialised rg a k (transaction_id t) cid Ho Hfit) as (rg' & E & H1 & H2 & _). by exists rg'.
  - destruct (RowGroup_RevertAppend_ok null_value uninitialised rg n Ho (proj1 Hfit) (cut_constant rg n Ho Hfit)) as (rg' & E & H1 & H2 & _). by exists rg'.
Qed.
End GroupHistories.

(** C19. Row groups stay well-formed: any sequence of appends, commits and reverts
    of transactions, interleaved in any way, succeeds, and after it the columns of
    the row group have equally many rows and segments without gaps, their types,
    statistics and zone maps agree with the values, and the version information
    fits the number of rows.  Appended chunks have the columns of the row group and
    fit into it, a commit is of all the rows of a transaction, which form one range
    (as the local storage of a transaction appends them at once), and a revert does
    not keep only a part of the rows of a transaction. *)
Theorem row_groups_stay_wellformed null_value uninitialised rg ops :
  group_open null_value uninitialised rg → group_history_fits null_value uninitialised rg ops →
  ∃ rg', foldM (run_group_op null_value uninitialised) rg ops = Ok rg' ∧
    group_open null_value uninitialised rg' ∧ rowgroup_ok null_value uninitialised rg' ∧ rg_start rg' = rg_start rg.
Proof.
  intros Ho Hfit. enough (∃ rg', foldM (run_group_op null_value uninitialised) rg ops = Ok rg' ∧ group_open null_value uninitialised rg' ∧ rg_start rg' = rg_start rg) as (rg' & E & H & Hs)
    by (exists rg'; split_and!; [done | done | by apply open_ok | done]).
  revert rg Ho Hfit. induction ops as [|op ops IH]; intros rg Ho Hfit; [by exists rg|]. destruct Hfit as [Hop Hrest].
  destruct (run_group_op_ok null_value uninitialised rg op Ho Hop) as (rg1 & E1 & Ho1 & Hs1). destruct (IH rg1 Ho1 (Hrest rg1 E1)) as (rg' & E & H & Hs).
  exists rg'. cbn [foldM]. rewrite E1. cbn [mbind result_bind]. split_and!; [done | done | congruence].
Qed.

(** The conditions on an operation, but for the values, as a test. *)
Definition group_op_check (rg : RowGroup) (op : group_op) : bool :=
  let inserted := row_inserted (GetOrCreateVersionInfo rg) in
  match op with
  | Op_Append t chunk n =>
      forallb (λ c, (Z.of_nat (length (column_segments (sd_base c))) + Z.of_nat (S n) + 2 <? 2 ^ 63) &&
        (Z.of_nat (length (column_segments (sd_validity c))) + Z.of_nat (S n) + 2 <? 2 ^ 63)) (rg_columns rg) &&
      (length chunk =? length (rg_columns rg))%nat && (0 <? n)%nat && (rg_count rg + n <=? ROW_GROUP_VECTOR_COUNT * SVS)%nat
  | Op_Commit t a k _ => (0 <? k)%nat && (a + k <=? rg_count rg)%nat && negb (transaction_id t =? 0) &&
      forallb (λ row, Bool.eqb (inserted row =? transaction_id t) ((a <=? row)%nat && (row <? a + k)%nat)) (seq 0 (rg_count rg))
  | Op_Revert n => (n <=? rg_count rg)%nat && (negb ((0 <? n)%nat && (n <? rg_count rg)%nat) || negb (inserted (n - 1)%nat =? inserted n))
  end.

Lemma group_op_check_ok rg op :
  group_op_check rg op = true → (∀ t chunk n, op = Op_Append t chunk n → Forall (λ d, values_ok d n) chunk) → group_op_fits rg op.
Proof.
  destruct op as [t chunk n|t a k cid|n]; cbn [group_op_check group_op_fits]; rewrite !andb_true_iff; intros H Hv.
  - destruct H as [[[H1 H2%Nat.eqb_eq] H3%Nat.ltb_lt] H4%Nat.leb_le]. split_and!; [|done | by eapply Hv | done | done].
    apply Forall_forall. intros c Hc. rewrite forallb_forall in H1. specialize (H1 c (proj1 (list_elem_of_In _ _) Hc)).
    apply andb_true_iff in H1 as [H1%Z.ltb_lt H1'%Z.ltb_lt]. by split.
  - destruct H as [[[H1%Nat.ltb_lt H2%Nat.leb_le] H3%negb_true_iff%Z.eqb_neq] H4]. split_and!; [done..|]. intros row Hrow. rewrite forallb_forall in H4.
    specialize (H4 row). rewrite in_seq in H4. specialize (H4 ltac:(lia)). apply Bool.eqb_prop in H4. rewrite <- Z.eqb_eq, H4, andb_true_iff, Nat.leb_le, Nat.ltb_lt. done.
  - destruct H as [H1%Nat.leb_le H2]. split; [done|]. intros [Ha Hb]. rewrite (proj2 (Nat.ltb_lt _ _) Ha), (proj2 (Nat.ltb_lt _ _) Hb) in H2. by apply negb_true_iff, Z.eqb_neq in H2.
Qed.

Fixpoint group_history_check (rg : RowGroup) (ops : list group_op) : bool :=
  match ops with
  | [] => true
  | op :: ops => group_op_check rg op && match run_group_op sample_null 0 rg op with Ok rg' => group_history_check rg' ops | Throw _ => true end
  end.

Lemma group_history_check_ok ops : Forall (λ op, ∀ t chunk n, op = Op_Append t chunk n → Forall (λ d, values_ok d n) chunk) ops →
  ∀ rg, group_history_check rg ops = true → group_history_fits sample_null 0 rg ops.
Proof.
  induction 1 as [|op ops Hop _ IH]; intros rg; [done|]. cbn [group_history_check]. intros [H1 H2]%andb_true_iff.
  split; [by apply group_op_check_ok|]. intros rg' E. rewrite E in H2. by apply IH.
Qed.

(** Two transactions append three rows each to the sample row group, the first
    one commits, and the second one is reverted. *)
Definition sample_ops : list group_op :=
  let writer := mkTransaction (TRANSACTION_ID_START + 8) 10 in let other := mkTransaction (TRANSACTION_ID_START + 9) 11 in
  [Op_Append writer [three_rows 1 2] 3; Op_Append other [three_rows 3 4] 3; Op_Commit writer 3 3 20; Op_Revert 6].

Lemma row_groups_stay_wellformed_witness :
  ∃ rg', foldM (run_group_op sample_null 0) second_group sample_ops = Ok rg' ∧ rowgroup_ok sample_null 0 rg' ∧
    (rg_count rg', row_inserted (GetOrCreateVersionInfo rg') <$> seq 0 6) = (6%nat, [0; 0; 0; 20; 20; 20]).
Proof.
  destruct (row_groups_stay_wellformed sample_null 0 second_group sample_ops) as (rg' & E & _ & H & _).
  - apply sample_group_open. intros m [= <-]. apply deleted_versions_wf.
  - apply group_history_check_ok; [|by vm_compute]. repeat constructor; intros ? ? ? [= <- <- <-]; (constructor; [apply three_rows_ok | constructor]).
  - exists rg'. split_and!; [exact E | exact H|].
    assert (match foldM (run_group_op sample_null 0) second_group sample_ops with Ok rg' => (rg_count rg', row_inserted (GetOrCreateVersionInfo rg') <$> seq 0 6) | Throw _ => (O, []) end =
      (6%nat, [0; 0; 0; 20; 20; 20])) as Hv by (vm_compute; reflexivity).
    by rewrite E in Hv.
Defined.

